(* ===== verification/_CoqProject ===== *)
-Q . S2P
Prelude.v
Params.v
Mem.v
Digits.v
KString.v
State.v
Locks.v
Kalloc.v
Dll.v
Cache.v
Bio.v
Log.v
LogBio.v
Vm.v
Pagetable.v
Uvm.v
Ucopy.v
Ufree.v
Ufork.v
Virtio.v
Console.v
KPrintf.v
Fs.v
Itable.v
FsTx.v
FsBlocks.v
FsBoot.v
FsInode.v
FsBmap.v
FsWrite.v
FsLock.v
FsDir.v
FsPath.v
FsNamei.v
Pipe.v
ConsLine.v
File.v
FsFile.v
FsExamples.v
Proc.v
ProcMem.v
Fork.v
Wait.v
Exec.v
Syscall.v
Sysfile.v
Trap.v
Hart.v
HartTrap.v
Asm.v
Spinlock.v
Sleeplock.v
User.v
ULib.v
UPrintf.v
UText.v
UGrep.v
Sh.v
ShParse.v
ShPrint.v
ShRun.v
UInit.v
UDir.v
UFind.v
ULs.v
UXargs.v
UProc.v
UPrimes.v
USieve.v
UPrimesRun.v
UPingpong.v
Mkfs.v
MkfsAppend.v
MkfsFiles.v
MkfsImage.v
MkfsMain.v
MkfsBoot.v
Umalloc.v
UmallocSpec.v
UHeap.v
