(* ===== verification/Prelude.v ===== *)
(** * A verification library for xv6

    This library models the kernel of the repository (xv6-labs-2024/kernel,
    C for RISC-V), the program that builds its file system (mkfs) and some of
    its user programs (user) as executable Rocq functions, and proves what
    makes them correct. This file holds what all others share: the outcome
    monad, loops, triples, machine integers, list lemmas and tactics.

    ** The program

    The kernel is a set of layers, each calling the ones below it: the page
    allocator (kalloc.c) hands out page frames; vm.c builds page tables in
    them; proc.c keeps the process table and switches between processes;
    spinlock.c and sleeplock.c protect what they share. virtio_disk.c drives
    the disk, bio.c caches its blocks, log.c makes groups of block writes
    atomic, fs.c turns blocks into inodes, directories and path names, and
    file.c and pipe.c into open files. console.c, uart.c and printf.c are the
    terminal. trap.c, syscall.c, sysproc.c, sysfile.c and exec.c are what a
    user program reaches. mkfs.c, run on the host, writes the disk image that
    the kernel's fs.c mounts. The programs of user/ see the kernel through
    its system calls; ulib.c and printf.c are their library, sh.c the shell.

    ** How the code is modelled

    Every C function is a Rocq function of the same name in the monad [K] over
    one record, [kstate] (State.v), that holds the kernel's static objects.
    A function returns ([Ret]), panics ([Panic]), gives up the CPU inside
    sched ([Sleep], with the rest of the function as its continuation), does
    something C leaves undefined such as an index out of range ([Undef]), or
    exhausts the bound of a loop ([NoFuel]). Between two scheduling points an
    operation runs alone: the locks it holds are the list [k_held], and
    acquiring a lock that is held panics, as in the code. Spinlock.v has the
    locks on several CPUs, one atomic access at a time, and Sleeplock.v the
    sleep-locks with sleep, wakeup and the scheduler, one step of a process
    at a time.

    Physical memory is a map from addresses to bytes (Mem.v), used for the
    free list, page tables, trapframes and user pages, all read and written at
    the addresses and widths the code uses. Unsigned arithmetic wraps
    explicitly ([u32], [u64]). Pointers into static tables are indices.
    [struct pipe] and the rings of the disk driver are typed records instead
    of bytes of their pages. The disk is a map from block numbers to blocks
    with the trace of completed writes.

    Loops that C writes with [while] take a bound ([loop]). The bounds of
    loops over tables, pages, blocks and bytes are computed from the arguments
    and proved to be enough wherever a theorem says that the function returns.
    Loops that sleep take the bound [wakeups] (Locks.v), a parameter: what is
    proved holds for every value of it, and a theorem about such a loop speaks
    about its rounds up to the next scheduling point.

    User programs are functions in the same monad over their own states: a
    world of file descriptors with what they deliver and what was written to
    them (User.v), or, for programs that create processes and pipes, processes
    as trees of system calls that run in any interleaving over shared pipes
    and descriptors, with the kernel's limits on open files and processes as
    parameters (UProc.v). For the shell and init the trees are related to what
    the process and all processes it creates do: the programs they run, with
    their descriptors, reads, forks and waits (ShRun.v). mkfs runs over the list of the image's blocks
    (Mkfs.v); the host's files are the class [Host].

    ** Files

    - Params.v: param.h, memlayout.h, riscv.h (page-table macros), fs.h,
      stat.h, fcntl.h: constants and address arithmetic; the linker's symbols
      are the class [Layout]. Mem.v: memory and little-endian accesses.
      KString.v: string.c. State.v: the structs and [kstate].
    - Locks.v: spinlock.c as one CPU sees it, sleeplock.c, sleep, wakeup,
      sched, killed of proc.c. Spinlock.v: spinlock.c on several CPUs.
      Sleeplock.v: sleeplock.c, sleep, wakeup and sched on several CPUs.
    - Kalloc.v: kalloc.c. Vm.v: vm.c, with either_copyout, either_copyin and
      proc_mapstacks of proc.c. Theorems on vm.c: Pagetable.v (walk,
      mappages, uvmunmap against a map of page tables), Uvm.v (uvmalloc,
      uvmdealloc), Ucopy.v (copyout, copyin), Ufork.v (uvmcopy), Ufree.v
      (uvmfree, freewalk).
    - Cache.v: the interfaces [BlockCache] (what bio.c promises to its
      clients) and [DiskDriver] (what it needs of the driver). Dll.v: doubly
      linked lists. Bio.v: bio.c. Log.v: log.c over [BlockCache]. LogBio.v:
      the two put together. Virtio.v: virtio_disk.c.
    - Fs.v: fs.c. Theorems on fs.c: FsTx.v (operations inside a transaction
      see and change a block array), FsBlocks.v (balloc, bfree and the
      bitmap), Itable.v (iget, idup), FsInode.v and FsBmap.v (inodes on disk,
      file content through direct and indirect blocks), FsWrite.v (readi,
      writei), FsLock.v (ilock, iupdate, iunlock), FsDir.v (dirlookup,
      dirlink as operations of a map), FsPath.v (skipelem), FsNamei.v (namei
      against the tree of directories), FsFile.v (filewrite across a crash),
      FsBoot.v and FsExamples.v (a disk and a kernel state that satisfy their
      hypotheses).
    - Pipe.v: pipe.c. File.v: file.c and pipealloc. Console.v: uart.c,
      console.c, printf.c and procdump. Digits.v and KPrintf.v: what printint
      writes. ConsLine.v: the line discipline of the console.
    - Proc.v: proc.c. ProcMem.v: the memory of a process (proc_pagetable,
      proc_freepagetable, freeproc). Fork.v: allocproc and fork. Wait.v: wait.
      Exec.v: exec.c. Syscall.v: syscall.c (arguments) and sysproc.c. Sysfile.v:
      sysfile.c. Trap.v: trap.c, the system call table, forkret and main.
    - Hart.v: the registers of a hart: the accessors of riscv.h, start.c,
      plic.c, uartinit, kvminithart, trapinithart. HartTrap.v: trap.c on these
      registers. Asm.v: trampoline.S, swtch.S, kernelvec.S, entry.S and the
      hardware's walk of page tables.
    - Mkfs.v: mkfs.c. MkfsAppend.v (iappend), MkfsFiles.v (files and the root
      directory), MkfsImage.v (the blocks of the image), MkfsMain.v (main as a
      whole), MkfsBoot.v (the kernel on the image).
    - User.v: descriptors of a single process. ULib.v: ulib.c. UPrintf.v:
      user/printf.c. UText.v: cat.c, wc.c, echo.c. UGrep.v: grep.c. Sh.v: the
      parser of sh.c, with ShParse.v (termination and bounds) and ShPrint.v
      (commands and their printed form); ShRun.v: the rest of sh.c, processes
      as trees of system calls. Umalloc.v: umalloc.c, with
      UmallocSpec.v (the ring of free blocks) and UHeap.v (programs that use
      the allocator). UProc.v: processes, pipes and
      descriptors. UPrimes.v: primes.c, with USieve.v (the sieve as a function
      on lists) and UPrimesRun.v (all interleavings). UPingpong.v: pingpong.c.
      UXargs.v: xargs.c. UDir.v: the file system that programs which read
      directories see; UFind.v: find.c; ULs.v: ls.c, rm.c, mkdir.c, ln.c,
      kill.c. UInit.v: init.c.

    ** What the theorems show

    - Memory: kinit and the allocator lose and duplicate no page; uvmalloc,
      uvmcopy and uvmfree conserve frames, table pages and free pages, and
      have the contents they should; copyout and copyin touch exactly the
      process's own accessible memory.
    - Disk: the cache is an array of blocks; the log makes system calls
      atomic across any sequence of crashes, also during recovery; and
      begin_op's reservation is one block more than the log has room for:
      exactly the last block that it admits makes log_write panic.
    - Concurrency: mutual exclusion and the interrupt discipline of
      spinlocks, over all interleavings; one owner of a sleep-lock at a
      time, no lost wakeup and no deadlock on it.
    - Pipes: a FIFO of 1024 bytes across counter wrap-around; what pipewrite
      and piperead do up to the next scheduling point.
    - Console: any keys edit the line they should, with the echo to match,
      and a read delivers whole lines.
    - Processes: fork gives the child a copy of the parent's memory,
      registers, descriptors and directory in pages of its own, or undoes
      everything; wait gives all memory of a zombie back and delivers its
      status.
    - Traps: a hart that has started takes its interrupts; returning to user
      space and trapping back keep the program's registers and pc; an
      interrupt of the kernel and a context switch are transparent to the code
      they suspend.
    - File system: readi returns what writei wrote, and no other file
      changes; the bitmap and the inode table hand out a block or an entry
      once; inodes survive the way to disk and back; directories are maps,
      and namei follows a path in the tree they form with the references
      it should hold; a write call of one transaction (up to 3072 bytes) is
      atomic across a crash.
    - mkfs: the image has the superblock, inodes, root directory, files and
      bitmap it should, and the kernel's namei and readi find the files in it.
    - User programs: printf prints numbers that read back; cat, wc and grep
      do to their input what they promise however reads cut it, and grep's
      matcher decides its patterns; the shell's parser ends on every line
      and inverts printing, runcmd runs commands exactly as they are written,
      with the two sides of a bar on the same pipe, and the shell runs the
      lines it reads, each by itself; malloc's buffers never overlap, keep what is
      stored in them, and freed memory is joined again; primes prints exactly
      the primes, and pingpong its two lines, under every interleaving of their
      processes, given the open files and processes they need (for primes more
      files than NFILE); find prints exactly the paths that match; xargs runs its
      command for every line, until its array of rows ends.
    - Strings: memmove with overlap, strncpy, safestrcpy; line input of gets.
    - Limits: begin_op's reservation (above), and the buffer of the kernel's
      printint, which is too short for long 64-bit numbers; malloc's requests
      near 4 GB, cut to an int on their way to sbrk.

    ** Not modelled

    fileinit, trapinit, consoleinit and printfinit set a lock. panic is an
    outcome. usertests.c, grind.c, forktest.c and the like test the system and
    are not part of it.

    Where one function is modelled in two places: Trap.v has the control flow
    of trap.c with control registers as values; its intr_off, its register
    writes and the rearming of the timer are done on a hart's registers in
    Hart.v and HartTrap.v, and the interrupt that devintr claims is an
    argument there. The driver that the buffer cache is proved over completes
    a request before it returns ([DiskDriver]); virtio_disk_rw itself sleeps
    (Virtio.v). Steps are coarser than single accesses in two places: push_off
    and the two loads of holding at the start of acquire (Spinlock.v), and
    kill's test and change of a process's state (Sleeplock.v). *)

From Stdlib Require Import FunctionalExtensionality Ascii.
From stdpp Require Import base numbers list gmap strings option.

(** ** Outcomes and the state/outcome monad

    A C function that runs in the kernel either returns, calls [panic]
    (which never returns), gives up the CPU inside [sched], performs an
    access that C leaves undefined (an array index out of range, a null
    pointer), or, for a loop given an explicit bound, has not finished
    within it. [Sleep s k] gives up the CPU in state [s]; [k] is what the
    function goes on to do in the state in which the scheduler resumes it. *)

Inductive outcome (S A : Type) : Type :=
| Ret (a : A) (s : S)
| Panic (msg : string) (s : S)
| Sleep (s : S) (k : S -> outcome S A)
| Undef (s : S)
| NoFuel.

Arguments Ret {S A} a s.
Arguments Panic {S A} msg s.
Arguments Sleep {S A} s k.
Arguments Undef {S A} s.
Arguments NoFuel {S A}.

Definition M (S A : Type) : Type := S -> outcome S A.

Definition ret {S A} (a : A) : M S A := fun s => Ret a s.

Fixpoint obind {S A B} (o : outcome S A) (k : A -> M S B) : outcome S B :=
  match o with
  | Ret a s' => k a s'
  | Panic msg s' => Panic msg s'
  | Sleep s' c => Sleep s' (fun s'' => obind (c s'') k)
  | Undef s' => Undef s'
  | NoFuel => NoFuel
  end.

Definition bind {S A B} (m : M S A) (k : A -> M S B) : M S B :=
  fun s => obind (m s) k.

Definition panic {S A} (msg : string) : M S A := fun s => Panic msg s.
Definition undef {S A} : M S A := fun s => Undef s.
Definition get {S} : M S S := fun s => Ret s s.
Definition gets {S A} (f : S -> A) : M S A := fun s => Ret (f s) s.
Definition modify {S} (f : S -> S) : M S unit := fun s => Ret tt (f s).
Definition when {S} (b : bool) (m : M S unit) : M S unit :=
  if b then m else ret tt.

(** A C lvalue read: undefined when the object is not there. *)
Definition of_option {S A} (o : option A) : M S A :=
  match o with Some a => ret a | None => undef end.

(** A string literal as the bytes of its characters. *)
Definition bytes_of (s : string) : list Z :=
  (fun c => Z.of_N (Ascii.N_of_ascii c)) <$> String.list_ascii_of_string s.

Declare Scope xv6_scope.
Delimit Scope xv6_scope with xv6.
Notation "'let!' x ':=' m 'in' k" := (bind m (fun x => k))
  (at level 10, x pattern, m at level 100, k at level 200) : xv6_scope.
Notation "m1 ;; m2" := (bind m1 (fun _ => m2))
  (at level 100, m2 at level 200, right associativity) : xv6_scope.

#[global] Open Scope Z_scope.
#[global] Open Scope xv6_scope.

(** [for (x in l) f x], in order. *)
Fixpoint for_each {S A} (l : list A) (f : A -> M S unit) : M S unit :=
  match l with
  | [] => ret tt
  | x :: l' => f x ;; for_each l' f
  end.

(** A loop over [l] whose body may leave the enclosing function with a
    result ([Some]); [None] when every iteration fell through. *)
Fixpoint for_return {S A B} (l : list A) (f : A -> M S (option B))
  : M S (option B) :=
  match l with
  | [] => ret None
  | x :: l' =>
      let! r := f x in
      match r with Some b => ret (Some b) | None => for_return l' f end
  end.

(** [while (...) body] with local variables [v]: the body says whether to
    go round again ([inl]) or to leave the loop ([inr]). *)
Fixpoint loop {S V B} (fuel : nat) (body : V -> M S (V + B)) (v : V)
  : M S B :=
  match fuel with
  | O => fun _ => NoFuel
  | Datatypes.S n =>
      let! r := body v in
      match r with inl v' => loop n body v' | inr b => ret b end
  end.

(** ** Total-correctness triples

    [wp m Q s]: run from [s], [m] returns (it neither panics, sleeps, runs
    into undefined behaviour nor out of fuel) and [Q] holds of what it
    returns. *)

Definition wp {S A} (m : M S A) (Q : A -> S -> Prop) (s : S) : Prop :=
  match m s with Ret a s' => Q a s' | _ => False end.

Section WpRules.
Context {S : Type}.

Lemma wp_ret {A} (a : A) (Q : A -> S -> Prop) s : Q a s -> wp (ret a) Q s.
Proof. done. Qed.

Lemma wp_bind {A B} (m : M S A) (k : A -> M S B) Q s :
  wp m (fun a => wp (k a) Q) s -> wp (bind m k) Q s.
Proof. unfold wp, bind. by destruct (m s). Qed.

Lemma wp_bind_inv {A B} (m : M S A) (k : A -> M S B) Q s :
  wp (bind m k) Q s -> wp m (fun a => wp (k a) Q) s.
Proof. unfold wp, bind. by destruct (m s). Qed.

Lemma wp_mono {A} (m : M S A) (P Q : A -> S -> Prop) s :
  wp m P s -> (forall a s', P a s' -> Q a s') -> wp m Q s.
Proof. unfold wp. destruct (m s); eauto. Qed.

Lemma wp_get (Q : S -> S -> Prop) s : Q s s -> wp get Q s.
Proof. done. Qed.

Lemma wp_gets {A} (f : S -> A) (Q : A -> S -> Prop) s :
  Q (f s) s -> wp (gets f) Q s.
Proof. done. Qed.

Lemma wp_modify (f : S -> S) (Q : unit -> S -> Prop) s :
  Q tt (f s) -> wp (modify f) Q s.
Proof. done. Qed.

Lemma wp_when (b : bool) (m : M S unit) (Q : unit -> S -> Prop) s :
  (if b then wp m Q s else Q tt s) -> wp (when b m) Q s.
Proof. by destruct b. Qed.

Lemma wp_of_option {A} (o : option A) a (Q : A -> S -> Prop) s :
  o = Some a -> Q a s -> wp (of_option o) Q s.
Proof. by intros -> ?. Qed.

Lemma wp_run {A} (m : M S A) Q s :
  wp m Q s <-> exists a s', m s = Ret a s' /\ Q a s'.
Proof. unfold wp. split; [destruct (m s); naive_solver |].
  intros (a & s' & -> & H). done. Qed.

(** One round of a loop. *)
Lemma wp_loop {V A} f (body : V -> M S (V + A)) v (Q : A -> S -> Prop) s :
  wp (body v) (fun r => match r with
    | inl v' => wp (loop f body v') Q
    | inr b => Q b
    end) s ->
  wp (loop (Datatypes.S f) body v) Q s.
Proof.
  intros H. cbn [loop]. apply wp_bind. eapply wp_mono; [exact H|]. by intros [v'|b] s'.
Qed.

(** A loop invariant indexed by the elements already visited. *)
Lemma wp_for_each {A} (I : list A -> S -> Prop) (l : list A) (f : A -> M S unit)
    (Q : unit -> S -> Prop) s :
  I [] s ->
  (forall pre x rest s, l = pre ++ x :: rest -> I pre s ->
     wp (f x) (fun _ s' => I (pre ++ [x]) s') s) ->
  (forall s, I l s -> Q tt s) ->
  wp (for_each l f) Q s.
Proof.
  intros H0 Hstep HQ.
  cut (forall rest pre s, l = pre ++ rest -> I pre s -> wp (for_each rest f) Q s).
  { intros H. by apply (H l []). }
  induction rest as [|x rest IH]; intros pre s' Hl HI; simpl.
  - apply HQ. by rewrite Hl, app_nil_r.
  - apply wp_bind. eapply wp_mono; [by eapply Hstep|].
    intros u s'' HI'. apply (IH (pre ++ [x])); [|done].
    by rewrite <- app_assoc.
Qed.
End WpRules.

(** The same outcome, rewritten through [bind]. *)
Lemma bind_Ret {S A B} (m : M S A) (k : A -> M S B) s a s' :
  m s = Ret a s' -> bind m k s = k a s'.
Proof. unfold bind. by intros ->. Qed.

Lemma bind_Panic {S A B} (m : M S A) (k : A -> M S B) s msg s' :
  m s = Panic msg s' -> bind m k s = Panic msg s'.
Proof. unfold bind. by intros ->. Qed.

Lemma bind_assoc {S A B C} (m : M S A) (k : A -> M S B) (h : B -> M S C) s :
  bind (bind m k) h s = bind m (fun a => bind (k a) h) s.
Proof.
  unfold bind. induction (m s) as [| |s' c IH| |]; simpl; try done.
  f_equal. apply functional_extensionality. done.
Qed.

Lemma bind_assoc_fun {S A B C} (m : M S A) (k : A -> M S B) (h : B -> M S C) :
  bind (bind m k) h = bind m (fun a => bind (k a) h).
Proof. apply functional_extensionality. intros s. apply bind_assoc. Qed.

Lemma bind_ext {S A B} (m : M S A) (k k' : A -> M S B) s :
  (forall a s', k a s' = k' a s') -> bind m k s = bind m k' s.
Proof.
  intros H. unfold bind. f_equal. apply functional_extensionality. intros a.
  apply functional_extensionality. apply H.
Qed.

(** One round of a loop, and what follows it. *)
Lemma run_loop {S V A B} f (body : V -> M S (V + A)) v (k : A -> M S B) s :
  bind (loop (Datatypes.S f) body v) k s =
  bind (body v) (fun r => match r with
    | inl v' => bind (loop f body v') k
    | inr b => k b
    end) s.
Proof.
  cbn [loop]. rewrite bind_assoc. apply bind_ext. intros [v'|b] s'; [done|]. by unfold bind, ret.
Qed.

(** What is left to do after giving up the CPU. *)
Lemma bind_Sleep {S A B} (m : M S A) (k : A -> M S B) s s' c :
  m s = Sleep s' c -> bind m k s = Sleep s' (bind c k).
Proof. unfold bind. by intros ->. Qed.

(** Running the primitive operations at the head of a sequence. *)
Section Run.
Context {S A B : Type}.
Lemma run_modify f (k : unit -> M S B) s : bind (modify f) k s = k tt (f s).
Proof. done. Qed.
Lemma run_gets (f : S -> A) (k : A -> M S B) s : bind (gets f) k s = k (f s) s.
Proof. done. Qed.
Lemma run_get (k : S -> M S B) s : bind get k s = k s s.
Proof. done. Qed.
Lemma run_ret (a : A) (k : A -> M S B) s : bind (ret a) k s = k a s.
Proof. done. Qed.
Lemma run_when_true (m : M S unit) (k : unit -> M S B) s :
  bind (when true m) k s = bind m k s.
Proof. done. Qed.
Lemma run_when_false (m : M S unit) (k : unit -> M S B) s :
  bind (when false m) k s = k tt s.
Proof. done. Qed.
End Run.

Ltac run_step :=
  first [ rewrite run_modify | rewrite run_gets | rewrite run_get | rewrite run_ret
        | rewrite run_when_true | rewrite run_when_false ]; cbv beta.
Ltac run_steps := repeat run_step.

(** [wp_step] performs the bookkeeping steps of a straight-line proof. *)
Ltac wp_step :=
  lazymatch goal with
  | |- wp (bind _ _) _ _ => apply wp_bind
  | |- wp (ret _) _ _ => apply wp_ret
  | |- wp get _ _ => apply wp_get
  | |- wp (gets _) _ _ => apply wp_gets
  | |- wp (modify _) _ _ => apply wp_modify
  | |- wp (when _ _) _ _ => apply wp_when
  end.
Ltac wp_steps := repeat (wp_step; cbv beta).

(** ** Machine integers: [Z] with the wrap-around of each C type *)

Definition u8  (x : Z) : Z := x mod 256.
Definition u16 (x : Z) : Z := x mod 65536.
Definition u32 (x : Z) : Z := x mod 4294967296.
Definition u64 (x : Z) : Z := x mod 18446744073709551616.
Definition s16 (x : Z) : Z := (x + 32768) mod 65536 - 32768.
Definition s32 (x : Z) : Z := (x + 2147483648) mod 4294967296 - 2147483648.

Definition s64 (x : Z) : Z :=
  (x + 9223372036854775808) mod 18446744073709551616 - 9223372036854775808.

Lemma u32_small x : 0 <= x < 4294967296 -> u32 x = x.
Proof. apply Z.mod_small. Qed.
Lemma u64_small x : 0 <= x < 18446744073709551616 -> u64 x = x.
Proof. apply Z.mod_small. Qed.
Lemma u8_small x : 0 <= x < 256 -> u8 x = x.
Proof. apply Z.mod_small. Qed.
Lemma s32_small x : -2147483648 <= x < 2147483648 -> s32 x = x.
Proof. unfold s32. intros. rewrite Z.mod_small; lia. Qed.
Lemma u32_range x : 0 <= u32 x < 4294967296.
Proof. by apply Z.mod_pos_bound. Qed.
Lemma u64_range x : 0 <= u64 x < 18446744073709551616.
Proof. by apply Z.mod_pos_bound. Qed.
Lemma u8_range x : 0 <= u8 x < 256.
Proof. by apply Z.mod_pos_bound. Qed.

(** ** Lists *)

Lemma list_alter_insert {A} (f : A -> A) (l : list A) i x :
  l !! i = Some x -> alter f i l = <[i := f x]> l.
Proof.
  intros H. apply list_eq. intros j. destruct (decide (i = j)) as [<-|Hne].
  - rewrite list_lookup_alter_eq, H, list_lookup_insert_eq; [done|].
    by eapply lookup_lt_Some.
  - by rewrite list_lookup_alter_ne, list_lookup_insert_ne.
Qed.

Lemma elem_of_drop {A} (x : A) n l : x ∈ drop n l -> x ∈ l.
Proof. intros H. rewrite <- (take_drop n l). apply elem_of_app. by right. Qed.

(** Membership in lists built from the same parts. *)
Ltac sublist :=
  repeat (rewrite elem_of_app || rewrite elem_of_cons || rewrite elem_of_nil); tauto.

(** A list has no duplicates because a permutation of it has none. *)
Ltac nodup_perm H :=
  match type of H with NoDup ?P =>
    match goal with |- NoDup ?Q =>
      let E := fresh in
      assert (E : Q ≡ₚ P) by solve_Permutation; rewrite E; exact H
    end
  end.

(** Linear arithmetic with division and remainder by constants. *)
Ltac dlia := Z.div_mod_to_equations; lia.

Create HintDb xv6.
Create Rewrite HintDb mem.
#[export] Hint Resolve u32_range u64_range u8_range : xv6.
