(* ===== verification/Params.v ===== *)
(** Compile-time constants and macros of the kernel headers
    (param.h, riscv.h, memlayout.h, fs.h, stat.h, fcntl.h, elf.h), for the
    configuration of conf/lab.mk (LAB=util, so LAB_UTIL is defined and
    LAB_FS, LAB_LOCK and LAB_PGTBL are not), with the arithmetic facts the
    components use. *)

From stdpp Require Import base numbers list.
From S2P Require Import Prelude.

(** *** param.h *)
Definition NPROC : Z := 64.
Definition NCPU : Z := 8.
Definition NOFILE : Z := 16.
Definition NFILE : Z := 100.
Definition NINODE : Z := 50.
Definition NDEV : Z := 10.
Definition ROOTDEV : Z := 1.
Definition MAXARG : Z := 32.
Definition MAXOPBLOCKS : Z := 10.
Definition LOGSIZE : Z := MAXOPBLOCKS * 3.
Definition NBUF : Z := MAXOPBLOCKS * 3.
Definition FSSIZE : Z := 2000.
Definition MAXPATH : Z := 128.
Definition USERSTACK : Z := 2.

(** *** riscv.h *)
Definition PGSIZE : Z := 4096.
Definition PGSHIFT : Z := 12.
Definition PGROUNDUP (sz : Z) : Z :=
  Z.land (u64 (sz + PGSIZE - 1)) (u64 (Z.lnot (PGSIZE - 1))).
Definition PGROUNDDOWN (a : Z) : Z := Z.land a (u64 (Z.lnot (PGSIZE - 1))).

Definition PTE_V : Z := Z.shiftl 1 0.
Definition PTE_R : Z := Z.shiftl 1 1.
Definition PTE_W : Z := Z.shiftl 1 2.
Definition PTE_X : Z := Z.shiftl 1 3.
Definition PTE_U : Z := Z.shiftl 1 4.

Definition PA2PTE (pa : Z) : Z := u64 (Z.shiftl (Z.shiftr (u64 pa) 12) 10).
Definition PTE2PA (pte : Z) : Z := u64 (Z.shiftl (Z.shiftr pte 10) 12).
Definition PTE_FLAGS (pte : Z) : Z := Z.land pte 0x3FF.

Definition PXMASK : Z := 0x1FF.
Definition PXSHIFT (level : Z) : Z := PGSHIFT + 9 * level.
Definition PX (level va : Z) : Z :=
  Z.land (Z.shiftr (u64 va) (PXSHIFT level)) PXMASK.
Definition MAXVA : Z := Z.shiftl 1 (9 + 9 + 9 + 12 - 1).

Definition SATP_SV39 : Z := Z.shiftl 8 60.
Definition MAKE_SATP (pagetable : Z) : Z := Z.lor SATP_SV39 (Z.shiftr pagetable 12).

Definition SSTATUS_SPP : Z := Z.shiftl 1 8.
Definition SSTATUS_SPIE : Z := Z.shiftl 1 5.
Definition SSTATUS_SIE : Z := Z.shiftl 1 1.

(** *** memlayout.h *)
Definition UART0_IRQ : Z := 10.
Definition VIRTIO0_IRQ : Z := 1.
Definition UART0 : Z := 0x10000000.
Definition VIRTIO0 : Z := 0x10001000.
Definition PLIC : Z := 0x0c000000.
Definition KERNBASE : Z := 0x80000000.
Definition PHYSTOP : Z := KERNBASE + 128 * 1024 * 1024.
Definition TRAMPOLINE : Z := MAXVA - PGSIZE.
Definition KSTACK (p : Z) : Z := TRAMPOLINE - (p + 1) * 2 * PGSIZE.
Definition TRAPFRAME : Z := TRAMPOLINE - PGSIZE.

(** *** fs.h *)
Definition ROOTINO : Z := 1.
Definition BSIZE : Z := 1024.
Definition FSMAGIC : Z := 0x10203040.
Definition NDIRECT : Z := 12.
Definition NINDIRECT : Z := BSIZE / 4.
Definition MAXFILE : Z := NDIRECT + NINDIRECT.
(** sizeof(struct dinode): four shorts, one uint, NDIRECT+1 uints. *)
Definition sizeof_dinode : Z := 2 * 4 + 4 + 4 * (NDIRECT + 1).
Definition IPB : Z := BSIZE / sizeof_dinode.
Definition IBLOCK (i inodestart : Z) : Z := u32 (i / IPB + inodestart).
Definition BPB : Z := BSIZE * 8.
Definition BBLOCK (b bmapstart : Z) : Z := u32 (b / BPB + bmapstart).
Definition DIRSIZ : Z := 14.
(** sizeof(struct dirent): a ushort and DIRSIZ chars. *)
Definition sizeof_dirent : Z := 2 + DIRSIZ.

(** *** stat.h, fcntl.h, file.h, elf.h *)
Definition T_DIR : Z := 1.
Definition T_FILE : Z := 2.
Definition T_DEVICE : Z := 3.
Definition O_RDONLY : Z := 0x000.
Definition O_WRONLY : Z := 0x001.
Definition O_RDWR : Z := 0x002.
Definition O_CREATE : Z := 0x200.
Definition O_TRUNC : Z := 0x400.
Definition CONSOLE : Z := 1.
Definition ELF_MAGIC : Z := 0x464C457F.
Definition ELF_PROG_LOAD : Z := 1.

(** Linker symbols (kernel.ld, trampoline.S): parameters of the model. *)
Class Layout := {
  kend : Z;        (* first address after the kernel *)
  etext : Z;       (* end of the kernel's text *)
  trampoline : Z;  (* the trampoline page of kernel text *)
  forkret_addr : Z; (* where a new process starts in the kernel *)
  uservec : Z;     (* trap entry from user space, in the trampoline page *)
  userret : Z;     (* the way back, in the trampoline page *)
  kernelvec : Z;   (* trap entry from the kernel *)
  usertrap_addr : Z;
}.

(** What the linker script guarantees of them. *)
Class LayoutOk (L : Layout) : Prop := {
  kend_range : KERNBASE <= kend <= PHYSTOP;
  etext_range : KERNBASE < etext <= kend;
  etext_aligned : etext mod PGSIZE = 0;
  trampoline_range : KERNBASE <= trampoline <= etext - PGSIZE;
  trampoline_aligned : trampoline mod PGSIZE = 0;
}.

(** The symbols of the kernel image in the repository (kernel/kernel.sym). *)
Definition kernel_sym : Layout := {|
  kend := 0x80023540;
  etext := 0x80007000;
  trampoline := 0x80006000;
  forkret_addr := 0x80000d96;
  uservec := 0x80006000;
  userret := 0x8000609c;
  kernelvec := 0x80004660;
  usertrap_addr := 0x800019c8;
|}.

Lemma kernel_sym_ok : LayoutOk kernel_sym.
Proof. split; vm_compute; intuition discriminate. Qed.

(** Unfold every constant, then decide. *)
Ltac unfold_params :=
  unfold TRAPFRAME, KSTACK, TRAMPOLINE, MAXVA, PHYSTOP, KERNBASE, LOGSIZE, NBUF,
    MAXOPBLOCKS, MAXFILE, NINDIRECT, NDIRECT, IPB, sizeof_dinode, sizeof_dirent,
    DIRSIZ, BPB, BSIZE, PGSIZE, PGSHIFT, NPROC, NOFILE, NFILE, NINODE, FSSIZE in *.
Ltac plia :=
  unfold_params; change (Z.shiftl 1 (9 + 9 + 9 + 12 - 1)) with 274877906944 in *;
  first [lia | dlia].

(** ** Bit-level facts *)

Lemma land_high_mask x k :
  0 <= k -> 0 <= x < 2 ^ 64 -> k <= 64 ->
  Z.land x (u64 (Z.lnot (2 ^ k - 1))) = x / 2 ^ k * 2 ^ k.
Proof.
  intros Hk Hx Hk'. rewrite <- Z.shiftr_div_pow2, <- Z.shiftl_mul_pow2 by done.
  assert (Hm : u64 (Z.lnot (2 ^ k - 1)) = Z.land (Z.lnot (2 ^ k - 1)) (Z.ones 64)).
  { by rewrite Z.land_ones. }
  rewrite Hm. replace (2 ^ k - 1) with (Z.ones k) by (rewrite Z.ones_equiv; lia).
  apply Z.bits_inj'. intros n Hn.
  rewrite !Z.land_spec, Z.lnot_spec, Z.shiftl_spec by done.
  destruct (decide (n < k)).
  - rewrite Z.ones_spec_low by lia. rewrite Z.testbit_neg_r with (n := n - k) by lia.
    by rewrite !andb_false_r.
  - rewrite Z.ones_spec_high by lia. rewrite Z.shiftr_spec by lia.
    replace (n - k + k) with n by lia.
    destruct (decide (n < 64)).
    + rewrite Z.ones_spec_low by lia. by rewrite !andb_true_r.
    + replace (Z.testbit x n) with false; [done|].
      symmetry. rewrite <- (Z.mod_small x (2 ^ 64)) by done.
      apply Z.mod_pow2_bits_high. lia.
Qed.

Lemma PGROUNDDOWN_spec a :
  0 <= a < 2 ^ 64 -> PGROUNDDOWN a = a / PGSIZE * PGSIZE.
Proof. intros Ha. apply (land_high_mask a 12); lia. Qed.

Lemma PGROUNDUP_spec sz :
  0 <= sz -> sz + 4095 < 2 ^ 64 -> PGROUNDUP sz = (sz + 4095) / PGSIZE * PGSIZE.
Proof.
  intros H1 H2. unfold PGROUNDUP. rewrite (u64_small (sz + PGSIZE - 1)) by plia.
  replace (sz + PGSIZE - 1) with (sz + 4095) by plia.
  apply (land_high_mask (sz + 4095) 12); lia.
Qed.

Lemma PX_spec level va :
  0 <= va < 2 ^ 64 -> 0 <= level ->
  PX level va = (va / 2 ^ (12 + 9 * level)) mod 512.
Proof.
  intros Hva Hl. unfold PX, PXMASK, PXSHIFT, PGSHIFT.
  rewrite u64_small by lia. change 0x1FF with (Z.ones 9).
  rewrite Z.land_ones, Z.shiftr_div_pow2 by lia. done.
Qed.

Lemma PX_range level va : 0 <= level -> 0 <= PX level va < 512.
Proof.
  intros Hl. unfold PX, PXMASK. change 0x1FF with (Z.ones 9).
  rewrite Z.land_ones by lia. by apply Z.mod_pos_bound.
Qed.

(** A page-aligned address below [MAXVA] is determined by its indices. *)
Lemma PX_inj va va' :
  0 <= va < MAXVA -> 0 <= va' < MAXVA ->
  va mod PGSIZE = 0 -> va' mod PGSIZE = 0 ->
  PX 2 va = PX 2 va' -> PX 1 va = PX 1 va' -> PX 0 va = PX 0 va' -> va = va'.
Proof.
  intros H1 H2 H3 H4. rewrite !PX_spec by plia. unfold_params.
  change (2 ^ (12 + 9 * 2)) with 1073741824.
  change (2 ^ (12 + 9 * 1)) with 2097152. change (2 ^ (12 + 9 * 0)) with 4096.
  change (Z.shiftl 1 (9 + 9 + 9 + 12 - 1)) with 274877906944 in *.
  intros E2 E1 E0. dlia.
Qed.

Lemma lor_disjoint_add a b k :
  0 <= k -> 0 <= b < 2 ^ k -> Z.lor (a * 2 ^ k) b = a * 2 ^ k + b.
Proof.
  intros Hk Hb. rewrite <- Z.shiftl_mul_pow2 by done.
  rewrite <- Z.lxor_lor, Z.add_nocarry_lxor; [done| |];
  apply Z.bits_inj'; intros n Hn; rewrite Z.land_spec, Z.bits_0, Z.shiftl_spec by done;
  (destruct (decide (n < k));
   [ by rewrite (Z.testbit_neg_r a) by lia
   | rewrite <- (Z.mod_small b (2 ^ k)) by done;
     rewrite Z.mod_pow2_bits_high by lia; apply andb_false_r ]).
Qed.

Lemma lor_lt_pow2 a b k :
  0 <= a < 2 ^ k -> 0 <= b < 2 ^ k -> 0 <= k -> Z.lor a b < 2 ^ k.
Proof.
  intros Ha Hb Hk. destruct (decide (Z.lor a b = 0)) as [->|Hne]; [lia|].
  assert (0 <= Z.lor a b) by (apply Z.lor_nonneg; lia).
  apply Z.log2_lt_pow2; [lia|]. rewrite Z.log2_lor by lia.
  destruct (decide (a = 0)) as [->|], (decide (b = 0)) as [->|]; [done| | |];
    rewrite ?Z.max_lub_lt_iff; try split; try (apply Z.log2_lt_pow2; lia); simpl;
    try (destruct k; try lia; simpl in *; lia).
Qed.

(** A physical page address and ten flag bits, packed and unpacked. *)
Section Pte.
Context (pa flags : Z) (Hpa : 0 <= pa < 2 ^ 54) (Hal : pa mod PGSIZE = 0)
        (Hfl : 0 <= flags < 1024).

Lemma PA2PTE_div : PA2PTE pa = pa / 4096 * 1024.
Proof using Hpa.
  clear Hal Hfl.
  unfold PA2PTE. rewrite (u64_small pa) by lia.
  rewrite Z.shiftr_div_pow2, Z.shiftl_mul_pow2 by lia. simpl (2 ^ _).
  apply u64_small. dlia.
Qed.

Lemma pte_value : Z.lor (PA2PTE pa) flags = pa / 4096 * 1024 + flags.
Proof using Hpa Hfl.
  clear Hal.
  rewrite PA2PTE_div. change 1024 with (2 ^ 10). by apply lor_disjoint_add.
Qed.

Lemma PTE2PA_pte : PTE2PA (Z.lor (PA2PTE pa) flags) = pa.
Proof using Hpa Hal Hfl.
  rewrite pte_value. unfold PTE2PA.
  rewrite Z.shiftr_div_pow2, Z.shiftl_mul_pow2 by lia. simpl (2 ^ _).
  rewrite u64_small; plia.
Qed.

Lemma PTE_FLAGS_pte : PTE_FLAGS (Z.lor (PA2PTE pa) flags) = flags.
Proof using Hpa Hfl.
  clear Hal.
  rewrite pte_value. unfold PTE_FLAGS. change 0x3FF with (Z.ones 10).
  rewrite Z.land_ones by lia. simpl (2 ^ _). dlia.
Qed.

Lemma pte_range : 0 <= Z.lor (PA2PTE pa) flags < 2 ^ 64.
Proof using Hpa Hfl. clear Hal. rewrite pte_value. dlia. Qed.

(** The bits of the flags survive in the packed entry. *)
Lemma pte_testbit n :
  0 <= n < 10 -> Z.testbit (Z.lor (PA2PTE pa) flags) n = Z.testbit flags n.
Proof using Hpa Hfl.
  clear Hal.
  intros Hn. rewrite Z.lor_spec. replace (Z.testbit (PA2PTE pa) n) with false; [done|].
  rewrite PA2PTE_div. change 1024 with (2 ^ 10).
  rewrite Z.mul_pow2_bits_low by lia. done.
Qed.
End Pte.

(** [x & (1 << n)] is the test of bit [n]. *)
Lemma land_bit x n : 0 <= n -> (Z.land x (Z.shiftl 1 n) =? 0) = negb (Z.testbit x n).
Proof.
  intros Hn. rewrite Z.shiftl_1_l. destruct (Z.testbit x n) eqn:E; simpl.
  - apply Z.eqb_neq. intros H0. assert (H := Z.land_spec x (2 ^ n) n).
    by rewrite H0, Z.bits_0, E, Z.pow2_bits_true in H.
  - apply Z.eqb_eq. apply Z.bits_inj'. intros m Hm.
    rewrite Z.land_spec, Z.bits_0, Z.pow2_bits_eqb by done.
    destruct (Z.eqb_spec n m) as [->|]; [by rewrite E|apply andb_false_r].
Qed.
