(* ===== verification/Mem.v ===== *)
(** Bytes: little-endian encodings of C integers, byte arrays (buffers and
    structs held as lists of bytes), and the byte-addressed physical memory
    that the kernel's direct map gives access to. *)

From stdpp Require Import base numbers list gmap.
From S2P Require Import Prelude.

(** ** Little-endian integers *)

Fixpoint le_bytes (n : nat) (v : Z) : list Z :=
  match n with
  | O => []
  | S n' => u8 v :: le_bytes n' (v / 256)
  end.

Fixpoint le_val (l : list Z) : Z :=
  match l with
  | [] => 0
  | b :: l' => b + 256 * le_val l'
  end.

Definition is_bytes (l : list Z) : Prop := Forall (fun b => 0 <= b < 256) l.

Lemma length_le_bytes n v : length (le_bytes n v) = n.
Proof. revert v. induction n; simpl; auto. Qed.

Lemma le_bytes_bytes n v : is_bytes (le_bytes n v).
Proof. revert v. induction n; intros v; constructor; [apply u8_range | apply IHn]. Qed.

Lemma pow256_pos n : 0 < 256 ^ Z.of_nat n.
Proof. apply Z.pow_pos_nonneg; lia. Qed.

Lemma le_val_bytes n v : le_val (le_bytes n v) = v mod 256 ^ Z.of_nat n.
Proof.
  revert v. induction n as [|n IH]; intros v; simpl le_bytes; simpl le_val.
  - by rewrite Z.mod_1_r.
  - rewrite IH, Nat2Z.inj_succ, Z.pow_succ_r by lia. unfold u8.
    rewrite Z.rem_mul_r; [lia | lia | apply pow256_pos].
Qed.

Lemma le_val_range l : is_bytes l -> 0 <= le_val l < 256 ^ Z.of_nat (length l).
Proof.
  induction 1 as [|b l Hb Hl IH]; [simpl; lia|]. cbv beta in Hb.
  simpl le_val. cbn [length]. rewrite Nat2Z.inj_succ, Z.pow_succ_r by lia. nia.
Qed.

Lemma le_bytes_val l : is_bytes l -> le_bytes (length l) (le_val l) = l.
Proof.
  induction 1 as [|b l Hb Hl IH]; [done|]. cbv beta in Hb. simpl. f_equal.
  - unfold u8. rewrite Z.mul_comm, Z.mod_add by lia. apply Z.mod_small. lia.
  - transitivity (le_bytes (length l) (le_val l)); [f_equal; dlia | exact IH].
Qed.

(** ** Byte arrays

    [put_at l i v] overwrites the bytes of [l] from offset [i] with [v];
    [get_at l i n] reads [n] bytes. *)

Definition put_at (l : list Z) (i : nat) (v : list Z) : list Z :=
  take i l ++ v ++ drop (i + length v) l.
Definition get_at (l : list Z) (i n : nat) : list Z := take n (drop i l).

Section PutGet.
Implicit Types (l v w : list Z) (i j n : nat).

Lemma length_put_at l i v :
  (i + length v <= length l)%nat -> length (put_at l i v) = length l.
Proof.
  intros H. unfold put_at. rewrite !length_app, length_take, length_drop. lia.
Qed.

Lemma lookup_put_at l i v j :
  (i + length v <= length l)%nat ->
  put_at l i v !! j =
    if decide (i <= j < i + length v)%nat then v !! (j - i)%nat else l !! j.
Proof.
  intros H. unfold put_at. case_decide.
  - rewrite lookup_app_r by (rewrite length_take; lia).
    rewrite lookup_app_l by (rewrite length_take; lia).
    f_equal. rewrite length_take. lia.
  - destruct (decide (j < i)%nat).
    + rewrite lookup_app_l by (rewrite length_take; lia).
      apply lookup_take_lt. lia.
    + rewrite lookup_app_r by (rewrite length_take; lia).
      rewrite lookup_app_r by (rewrite length_take; lia).
      rewrite lookup_drop. f_equal. rewrite length_take. lia.
Qed.

Lemma lookup_get_at l i n j :
  get_at l i n !! j = if decide (j < n)%nat then l !! (i + j)%nat else None.
Proof.
  unfold get_at. case_decide.
  - rewrite lookup_take_lt by lia. apply lookup_drop.
  - apply lookup_take_ge. lia.
Qed.

Lemma length_get_at l i n : (i + n <= length l)%nat -> length (get_at l i n) = n.
Proof. intros H. unfold get_at. rewrite length_take, length_drop. lia. Qed.

Lemma get_put_same l i v n :
  length v = n -> (i + n <= length l)%nat -> get_at (put_at l i v) i n = v.
Proof.
  intros <- H. apply list_eq. intros j. rewrite lookup_get_at. case_decide.
  - rewrite lookup_put_at by done. rewrite decide_True by lia. f_equal. lia.
  - symmetry. apply lookup_ge_None. lia.
Qed.

Lemma get_put_other l i v j n :
  (i + length v <= length l)%nat -> (j + n <= i \/ i + length v <= j)%nat ->
  get_at (put_at l i v) j n = get_at l j n.
Proof.
  intros H Hd. apply list_eq. intros k. rewrite !lookup_get_at. case_decide; [|done].
  rewrite lookup_put_at by done. rewrite decide_False by lia. done.
Qed.

Lemma put_at_bytes l i v :
  is_bytes l -> is_bytes v -> is_bytes (put_at l i v).
Proof.
  intros Hl Hv. unfold put_at, is_bytes. rewrite !Forall_app.
  eauto using Forall_take, Forall_drop.
Qed.

Lemma get_at_bytes l i n : is_bytes l -> is_bytes (get_at l i n).
Proof. intros Hl. unfold get_at, is_bytes. eauto using Forall_take, Forall_drop. Qed.

(** Adjacent stores are one store; a load inside a store is a load of what
    was stored. *)
Lemma put_put l i v w :
  (i + length v + length w <= length l)%nat ->
  put_at (put_at l i v) (i + length v) w = put_at l i (v ++ w).
Proof.
  intros H. apply list_eq. intros j.
  rewrite !lookup_put_at by (rewrite ?length_put_at, ?length_app; lia).
  rewrite length_app. repeat case_decide; try lia; try done.
  - rewrite lookup_app_r by lia. f_equal. lia.
  - by rewrite lookup_app_l by lia.
Qed.

Lemma get_put_inside l i v k n :
  (i + length v <= length l)%nat -> (k + n <= length v)%nat ->
  get_at (put_at l i v) (i + k) n = get_at v k n.
Proof.
  intros H Hk. apply list_eq. intros j. rewrite !lookup_get_at. case_decide; [|done].
  rewrite lookup_put_at by done. rewrite decide_True by lia. f_equal. lia.
Qed.

Lemma get_at_app_l v w k n : (k + n <= length v)%nat -> get_at (v ++ w) k n = get_at v k n.
Proof.
  intros H. apply list_eq. intros j. rewrite !lookup_get_at. case_decide; [|done].
  by rewrite lookup_app_l by lia.
Qed.

Lemma get_at_app_r v w k n : (length v <= k)%nat -> get_at (v ++ w) k n = get_at w (k - length v) n.
Proof.
  intros H. apply list_eq. intros j. rewrite !lookup_get_at. case_decide; [|done].
  rewrite lookup_app_r by lia. f_equal. lia.
Qed.

Lemma get_at_all v n : length v = n -> get_at v 0 n = v.
Proof. intros <-. unfold get_at. by rewrite drop_0, firstn_all. Qed.
End PutGet.

(** A 32-bit integer stored at byte offset [i] of an array. *)
Definition get32 (l : list Z) (i : nat) : Z := le_val (get_at l i 4).
Definition put32 (l : list Z) (i : nat) (v : Z) : list Z := put_at l i (le_bytes 4 v).
Definition get16 (l : list Z) (i : nat) : Z := le_val (get_at l i 2).
Definition put16 (l : list Z) (i : nat) (v : Z) : list Z := put_at l i (le_bytes 2 v).

Section Get32.
Implicit Types (l : list Z) (i j : nat) (v : Z).

Lemma length_put32 l i v : (i + 4 <= length l)%nat -> length (put32 l i v) = length l.
Proof. intros H. apply length_put_at. rewrite length_le_bytes. lia. Qed.
Lemma length_put16 l i v : (i + 2 <= length l)%nat -> length (put16 l i v) = length l.
Proof. intros H. apply length_put_at. rewrite length_le_bytes. lia. Qed.

Lemma get32_put32 l i v : (i + 4 <= length l)%nat -> get32 (put32 l i v) i = u32 v.
Proof.
  intros H. unfold get32, put32.
  rewrite get_put_same by (rewrite ?length_le_bytes; lia). by rewrite le_val_bytes.
Qed.

Lemma get16_put16 l i v : (i + 2 <= length l)%nat -> get16 (put16 l i v) i = u16 v.
Proof.
  intros H. unfold get16, put16.
  rewrite get_put_same by (rewrite ?length_le_bytes; lia). by rewrite le_val_bytes.
Qed.

Lemma get32_put32_other l i j v :
  (i + 4 <= length l)%nat -> (j + 4 <= i \/ i + 4 <= j)%nat ->
  get32 (put32 l i v) j = get32 l j.
Proof.
  intros H Hd. unfold get32, put32. by rewrite get_put_other by (rewrite ?length_le_bytes; lia).
Qed.

Lemma get32_range l i : is_bytes l -> 0 <= get32 l i < 4294967296.
Proof.
  intros Hl. unfold get32. assert (Hb : is_bytes (get_at l i 4)).
  { apply Forall_take, Forall_drop, Hl. }
  apply le_val_range in Hb.
  assert (length (get_at l i 4) <= 4)%nat by (unfold get_at; rewrite length_take; lia).
  assert (256 ^ Z.of_nat (length (get_at l i 4)) <= 256 ^ 4).
  { apply Z.pow_le_mono_r; lia. } lia.
Qed.
End Get32.

(** ** Physical memory *)

Abbreviation memory := (gmap Z Z).

Definition rd (m : memory) (a : Z) : Z := u8 (default 0 (m !! a)).
Definition wr (m : memory) (a v : Z) : memory := <[a := u8 v]> m.

Lemma rd_range m a : 0 <= rd m a < 256.
Proof. apply u8_range. Qed.

Lemma rd_wr m a v x : rd (wr m a v) x = if decide (x = a) then u8 v else rd m x.
Proof.
  unfold rd, wr. case_decide as E.
  - subst. rewrite lookup_insert_eq. simpl. unfold u8. by rewrite Z.mod_mod.
  - by rewrite lookup_insert_ne.
Qed.

Fixpoint read_bytes (m : memory) (a : Z) (n : nat) : list Z :=
  match n with O => [] | S n' => rd m a :: read_bytes m (a + 1) n' end.

Fixpoint write_bytes (m : memory) (a : Z) (l : list Z) : memory :=
  match l with [] => m | b :: l' => write_bytes (wr m a b) (a + 1) l' end.

Lemma length_read_bytes m a n : length (read_bytes m a n) = n.
Proof. revert a. induction n; simpl; auto. Qed.

Lemma read_bytes_bytes m a n : is_bytes (read_bytes m a n).
Proof. revert a. induction n; intros a; constructor; [apply rd_range | apply IHn]. Qed.

Lemma lookup_read_bytes m a n i :
  (i < n)%nat -> read_bytes m a n !! i = Some (rd m (a + Z.of_nat i)).
Proof.
  revert a i. induction n as [|n IH]; intros a i H; [lia|].
  destruct i as [|i]; simpl; [by rewrite Z.add_0_r|].
  rewrite IH by lia. do 2 f_equal. lia.
Qed.

Lemma read_bytes_ext m m' a n :
  (forall x, a <= x < a + Z.of_nat n -> rd m' x = rd m x) ->
  read_bytes m' a n = read_bytes m a n.
Proof.
  revert a. induction n as [|n IH]; intros a H; simpl; [done|].
  rewrite H by lia. f_equal. apply IH. intros. apply H. lia.
Qed.

Lemma rd_write_bytes_out m a l x :
  x < a \/ a + Z.of_nat (length l) <= x -> rd (write_bytes m a l) x = rd m x.
Proof.
  revert m a. induction l as [|b l IH]; intros m a Hx; simpl in *; [done|].
  rewrite IH by lia. rewrite rd_wr. by rewrite decide_False by lia.
Qed.

Lemma read_write_bytes m a l :
  is_bytes l -> read_bytes (write_bytes m a l) a (length l) = l.
Proof.
  intros Hl. revert m a. induction Hl as [|b l Hb Hl IH]; intros m a; [done|]. cbv beta in Hb.
  simpl. f_equal; [|apply IH].
  rewrite rd_write_bytes_out by lia. rewrite rd_wr, decide_True by done.
  by apply u8_small.
Qed.

Lemma rd_write_bytes m a l i c :
  is_bytes l -> l !! i = Some c -> rd (write_bytes m a l) (a + Z.of_nat i) = c.
Proof.
  intros Hl Hi. assert (H := read_write_bytes m a l Hl).
  apply (f_equal (fun l => l !! i)) in H. rewrite Hi, lookup_read_bytes in H.
  - by injection H.
  - by eapply lookup_lt_Some.
Qed.

(** 64-bit words of memory. *)
Definition ld64 (m : memory) (a : Z) : Z := le_val (read_bytes m a 8).
Definition st64 (m : memory) (a v : Z) : memory := write_bytes m a (le_bytes 8 v).

Lemma ld64_range m a : 0 <= ld64 m a < 2 ^ 64.
Proof.
  assert (H := le_val_range _ (read_bytes_bytes m a 8)).
  by rewrite length_read_bytes in H.
Qed.

Lemma ld64_st64 m a v : ld64 (st64 m a v) a = u64 v.
Proof.
  unfold ld64, st64.
  assert (H := read_write_bytes m a (le_bytes 8 v) (le_bytes_bytes 8 v)).
  rewrite length_le_bytes in H. rewrite H. by rewrite le_val_bytes.
Qed.

Lemma ld64_ext m m' a :
  (forall x, a <= x < a + 8 -> rd m' x = rd m x) -> ld64 m' a = ld64 m a.
Proof. intros H. unfold ld64. by rewrite (read_bytes_ext m m'). Qed.

Lemma rd_st64_out m a v x : x < a \/ a + 8 <= x -> rd (st64 m a v) x = rd m x.
Proof. intros. apply rd_write_bytes_out. by rewrite length_le_bytes. Qed.

Lemma ld64_st64_other m a v a' :
  a' + 8 <= a \/ a + 8 <= a' -> ld64 (st64 m a v) a' = ld64 m a'.
Proof. intros. apply ld64_ext. intros. apply rd_st64_out. lia. Qed.

Lemma ld64_zero m a : (forall x, a <= x < a + 8 -> rd m x = 0) -> ld64 m a = 0.
Proof.
  intros H. unfold ld64. cbn [read_bytes le_val]. rewrite !H by lia. done.
Qed.
