(* ===== verification/Digits.v ===== *)
(** Positional notation: the digits that the printint loops of the kernel and
    of the user library produce. *)

From stdpp Require Import base numbers list.
From S2P Require Import Prelude Params Mem.

(** The digits of [x], least significant first: a do-while loop that divides
    by the base. *)
Fixpoint rdigits (fuel : nat) (base x : Z) : list Z :=
  match fuel with
  | O => []
  | S f => x mod base :: if x / base =? 0 then [] else rdigits f base (x / base)
  end.

(** The number that digits stand for. *)
Definition dvalue (base : Z) (l : list Z) : Z := foldr (fun d v => d + base * v) 0 l.

Section Digits.
Context (base : Z) (Hb : 1 < base).

Lemma rdigits_range f x : Forall (fun d => 0 <= d < base) (rdigits f base x).
Proof using Hb.
  revert x. induction f as [|f IH]; intros x; cbn [rdigits]; [constructor|].
  constructor; [apply Z.mod_pos_bound; lia|]. destruct (x / base =? 0); [constructor|apply IH].
Qed.

Lemma div_small f x : 0 <= x < base ^ Z.of_nat (S f) -> 0 <= x / base < base ^ Z.of_nat f.
Proof using Hb.
  intros Hx. rewrite Nat2Z.inj_succ, Z.pow_succ_r in Hx by lia. split; [apply Z.div_pos; lia|].
  apply Z.div_lt_upper_bound; lia.
Qed.

Lemma rdigits_value f x : 0 <= x < base ^ Z.of_nat f -> dvalue base (rdigits f base x) = x.
Proof using Hb.
  revert x. induction f as [|f IH]; intros x Hx; [cbn in *; lia|]. cbn [rdigits dvalue foldr].
  pose proof (Z.div_mod x base ltac:(lia)) as E. destruct (Z.eqb_spec (x / base) 0) as [Ez|Ez].
  - cbn. lia.
  - fold (dvalue base (rdigits f base (x / base))). rewrite IH by (by apply div_small). lia.
Qed.

(** How many digits there are. *)
Lemma rdigits_length f x k :
  0 <= x < base ^ Z.of_nat (S k) -> (length (rdigits f base x) <= S k)%nat.
Proof using Hb.
  revert x k. induction f as [|f IH]; intros x k Hx; cbn [rdigits length]; [lia|].
  destruct (Z.eqb_spec (x / base) 0) as [Ez|Ez]; [cbn; lia|].
  apply div_small in Hx. destruct k as [|k]; [cbn in Hx; lia|]. apply IH in Hx. lia.
Qed.

Lemma rdigits_long f x k :
  base ^ Z.of_nat k <= x -> (k < f)%nat -> (k < length (rdigits f base x))%nat.
Proof using Hb.
  revert x k. induction f as [|f IH]; intros x k Hx Hf; [lia|]. cbn [rdigits length].
  destruct k as [|k]; [lia|]. rewrite Nat2Z.inj_succ, Z.pow_succ_r in Hx by lia.
  assert (Hd : base ^ Z.of_nat k <= x / base) by (apply Z.div_le_lower_bound; lia).
  destruct (Z.eqb_spec (x / base) 0) as [Ez|Ez].
  - assert (0 < base ^ Z.of_nat k) by (apply Z.pow_pos_nonneg; lia). lia.
  - specialize (IH (x / base) k Hd). lia.
Qed.

(** More fuel than digits makes no difference. *)
Lemma rdigits_fuel f f' x :
  0 <= x < base ^ Z.of_nat f -> (f <= f')%nat -> (0 < f)%nat -> rdigits f' base x = rdigits f base x.
Proof using Hb.
  revert f' x. induction f as [|f IH]; intros f' x Hx Hf H0; [lia|]. destruct f' as [|f']; [lia|]. cbn [rdigits].
  f_equal. destruct (Z.eqb_spec (x / base) 0); [done|]. apply div_small in Hx.
  destruct f as [|f]; [cbn in Hx; lia|]. apply IH; [done|lia|lia].
Qed.

(** No leading zero. *)
Lemma rdigits_last f x d :
  0 <= x < base ^ Z.of_nat f -> last (rdigits f base x) = Some d -> d = 0 -> x = 0.
Proof using Hb.
  revert x. induction f as [|f IH]; intros x Hx Hl Hd; [done|]. cbn [rdigits] in Hl.
  destruct (Z.eqb_spec (x / base) 0) as [Ez|Ez].
  - cbn in Hl. injection Hl as <-. pose proof (Z.div_mod x base). lia.
  - destruct (rdigits f base (x / base)) as [|e l] eqn:E; [|].
    + apply div_small in Hx. destruct f; [cbn in Hx; lia|]. cbn in E. done.
    + rewrite last_cons_cons in Hl. rewrite <- E in Hl. apply div_small in Hx. by apply IH in Hl.
Qed.
End Digits.
