(* ===== verification/KString.v ===== *)
(** kernel/string.c: memory and string routines over physical memory.

    The C functions that return their destination pointer are modelled by
    the memory they leave; comparison results are C ints. *)

From stdpp Require Import base numbers list gmap.
From S2P Require Import Prelude Mem.

(** *** memset *)
Fixpoint memset_loop (n : nat) (cdst c : Z) (m : memory) : memory :=
  match n with
  | O => m
  | S n' => memset_loop n' (cdst + 1) c (wr m cdst c)
  end.

Definition memset (dst c n : Z) (m : memory) : memory :=
  memset_loop (Z.to_nat n) dst c m.

(** *** memcmp *)
Fixpoint memcmp_loop (n : nat) (s1 s2 : Z) (m : memory) : Z :=
  match n with
  | O => 0
  | S n' =>
      if negb (rd m s1 =? rd m s2) then rd m s1 - rd m s2
      else memcmp_loop n' (s1 + 1) (s2 + 1) m
  end.

Definition memcmp (v1 v2 n : Z) (m : memory) : Z := memcmp_loop (Z.to_nat n) v1 v2 m.

(** *** memmove: copies upwards, or downwards when the source starts below
    an overlapping destination *)
Fixpoint memmove_up (n : nat) (d s : Z) (m : memory) : memory :=
  match n with
  | O => m
  | S n' => memmove_up n' (d + 1) (s + 1) (wr m d (rd m s))
  end.

Fixpoint memmove_down (n : nat) (d s : Z) (m : memory) : memory :=
  match n with
  | O => m
  | S n' => memmove_down n' (d - 1) (s - 1) (wr m (d - 1) (rd m (s - 1)))
  end.

Definition memmove (dst src n : Z) (m : memory) : memory :=
  if n =? 0 then m
  else if (src <? dst) && (dst <? src + n)
  then memmove_down (Z.to_nat n) (dst + n) (src + n) m
  else memmove_up (Z.to_nat n) dst src m.

Definition memcpy (dst src n : Z) (m : memory) : memory := memmove dst src n m.

(** *** strncmp *)
Fixpoint strncmp_loop (n : nat) (p q : Z) (m : memory) : Z :=
  match n with
  | O => 0
  | S n' =>
      if negb (rd m p =? 0) && (rd m p =? rd m q)
      then strncmp_loop n' (p + 1) (q + 1) m
      else rd m p - rd m q
  end.

Definition strncmp (p q n : Z) (m : memory) : Z := strncmp_loop (Z.to_nat n) p q m.

(** *** strncpy: the copying loop also returns the count it leaves and the
    advanced destination *)
Fixpoint strncpy_copy (n : nat) (s t : Z) (m : memory) : nat * Z * memory :=
  match n with
  | O => (O, s, m)
  | S n' =>
      let m' := wr m s (rd m t) in
      if negb (rd m t =? 0) then strncpy_copy n' (s + 1) (t + 1) m'
      else (n', s + 1, m')
  end.

Definition strncpy (s t n : Z) (m : memory) : memory :=
  let '(n', s', m') := strncpy_copy (Z.to_nat n) s t m in
  memset_loop n' s' 0 m'.

(** *** safestrcpy *)
Definition safestrcpy (s t n : Z) (m : memory) : memory :=
  if n <=? 0 then m
  else
    let '(_, s', m') := strncpy_copy (Z.to_nat (n - 1)) s t m in
    wr m' s' 0.

(** *** strlen, on a memory where a NUL is found within [fuel] bytes *)
Fixpoint strlen_loop (fuel : nat) (s n : Z) (m : memory) : option Z :=
  match fuel with
  | O => None
  | S f => if rd m (s + n) =? 0 then Some n else strlen_loop f s (n + 1) m
  end.

Definition strlen (fuel : nat) (s : Z) (m : memory) : option Z := strlen_loop fuel s 0 m.

(** ** memset, memmove: what every byte holds afterwards *)

Lemma rd_memset_loop n d c m x :
  rd (memset_loop n d c m) x =
  if decide (d <= x < d + Z.of_nat n) then u8 c else rd m x.
Proof.
  revert d m. induction n as [|n IH]; intros d m; simpl memset_loop.
  - by rewrite decide_False by lia.
  - rewrite IH, rd_wr. repeat case_decide; (done || lia).
Qed.

Lemma rd_memset d c n m x :
  0 <= n ->
  rd (memset d c n m) x = if decide (d <= x < d + n) then u8 c else rd m x.
Proof. intros. unfold memset. rewrite rd_memset_loop. by rewrite Z2Nat.id. Qed.

(** A loop that copies upwards is right when no source byte is overwritten
    before it is read. *)
Lemma rd_memmove_up n d s m x :
  d <= s \/ s + Z.of_nat n <= d ->
  rd (memmove_up n d s m) x =
  if decide (d <= x < d + Z.of_nat n) then rd m (s + (x - d)) else rd m x.
Proof.
  revert d s m. induction n as [|n IH]; intros d s m Hov; simpl memmove_up.
  - by rewrite decide_False by lia.
  - rewrite IH by lia. rewrite !rd_wr, u8_small by apply rd_range.
    repeat case_decide; try lia; subst; try done; f_equal; lia.
Qed.

Lemma rd_memmove_down n d s m x :
  s <= d ->
  rd (memmove_down n d s m) x =
  if decide (d - Z.of_nat n <= x < d) then rd m (s - (d - x)) else rd m x.
Proof.
  revert d s m. induction n as [|n IH]; intros d s m Hov; simpl memmove_down.
  - by rewrite decide_False by lia.
  - rewrite IH by lia. rewrite !rd_wr, u8_small by apply rd_range.
    repeat case_decide; try lia; subst; try done; f_equal; lia.
Qed.

Lemma rd_memmove dst src n m x :
  0 <= n ->
  rd (memmove dst src n m) x =
  if decide (dst <= x < dst + n) then rd m (src + (x - dst)) else rd m x.
Proof.
  intros Hn. unfold memmove. destruct (Z.eqb_spec n 0).
  { by rewrite decide_False by lia. }
  destruct (Z.ltb_spec src dst), (Z.ltb_spec dst (src + n)); simpl;
    rewrite ?rd_memmove_up, ?rd_memmove_down by lia; rewrite Z2Nat.id by lia;
    repeat case_decide; try lia; try done; f_equal; lia.
Qed.

#[export] Hint Rewrite rd_memset rd_memmove using lia : mem.

(** ** Copying strings *)

(** The index of the first NUL among the [n] bytes at [t]. *)
Fixpoint nul_at (n : nat) (t : Z) (m : memory) : option nat :=
  match n with
  | O => None
  | S n' => if rd m t =? 0 then Some O else S <$> nul_at n' (t + 1) m
  end.

Lemma nul_at_Some n t m k :
  nul_at n t m = Some k ->
  (k < n)%nat /\ rd m (t + Z.of_nat k) = 0 /\
  forall i, (i < k)%nat -> rd m (t + Z.of_nat i) <> 0.
Proof.
  revert t k. induction n as [|n IH]; intros t k; simpl; [done|].
  destruct (Z.eqb_spec (rd m t) 0) as [E|E].
  - intros [= <-]. rewrite Z.add_0_r. split_and!; [lia|done|lia].
  - intros (k' & H & ->)%fmap_Some. apply IH in H as (H1 & H2 & H3).
    replace (t + Z.of_nat (S k')) with (t + 1 + Z.of_nat k') by lia. split_and!; [lia|done|].
    intros [|i] Hi; [by rewrite Z.add_0_r|].
    replace (t + Z.of_nat (S i)) with (t + 1 + Z.of_nat i) by lia. apply H3. lia.
Qed.

Lemma nul_at_None n t m :
  nul_at n t m = None -> forall i, (i < n)%nat -> rd m (t + Z.of_nat i) <> 0.
Proof.
  revert t. induction n as [|n IH]; intros t; simpl; [lia|].
  destruct (Z.eqb_spec (rd m t) 0) as [E|E]; [done|].
  intros H%fmap_None [|i] Hi; [by rewrite Z.add_0_r|].
  replace (t + Z.of_nat (S i)) with (t + 1 + Z.of_nat i) by lia. apply IH; [done|lia].
Qed.

Lemma nul_at_ext n t m m' :
  (forall i, (i < n)%nat -> rd m' (t + Z.of_nat i) = rd m (t + Z.of_nat i)) ->
  nul_at n t m' = nul_at n t m.
Proof.
  revert t. induction n as [|n IH]; intros t H; simpl; [done|].
  assert (E := H 0%nat ltac:(lia)). rewrite Z.add_0_r in E. rewrite E.
  destruct (rd m t =? 0); [done|]. rewrite IH; [done|].
  intros i Hi. replace (t + 1 + Z.of_nat i) with (t + Z.of_nat (S i)) by lia. apply H. lia.
Qed.

(** A NUL among the first bytes is the first NUL. *)
Lemma nul_at_shorter n n' t m :
  (n <= n')%nat ->
  nul_at n t m = k ← nul_at n' t m; if decide (k < n)%nat then Some k else None.
Proof.
  revert n' t. induction n as [|n IH]; intros n' t Hn; cbn [nul_at].
  - by destruct (nul_at n' t m).
  - destruct n' as [|n']; [lia|]. cbn [nul_at].
    destruct (rd m t =? 0); [done|]. rewrite (IH n') by lia.
    destruct (nul_at n' (t + 1) m) as [k|]; simpl; [|done].
    repeat case_decide; (done || lia).
Qed.

(** How many bytes the copying loop of strncpy stores. *)
Definition copied_len (n : nat) (t : Z) (m : memory) : nat :=
  match nul_at n t m with Some k => S k | None => n end.

Lemma strncpy_copy_spec n s t m :
  s + Z.of_nat n <= t \/ t + Z.of_nat n <= s ->
  exists m', strncpy_copy n s t m =
    ((n - copied_len n t m)%nat, s + Z.of_nat (copied_len n t m), m') /\
  forall x, rd m' x = if decide (s <= x < s + Z.of_nat (copied_len n t m))
                      then rd m (t + (x - s)) else rd m x.
Proof.
  revert s t m. induction n as [|n IH]; intros s t m Hd; unfold copied_len; cbn [strncpy_copy nul_at].
  - exists m. split; [do 2 f_equal; lia|]. intros x. by rewrite decide_False by lia.
  - destruct (Z.eqb_spec (rd m t) 0) as [E|E]; cbn [negb].
    + exists (wr m s (rd m t)). split; [do 2 f_equal; lia|]. intros x.
      rewrite rd_wr, u8_small by apply rd_range. repeat case_decide; subst; try lia; try done.
      f_equal. lia.
    + destruct (IH (s + 1) (t + 1) (wr m s (rd m t))) as (m' & -> & Hm'); [lia|].
      assert (En : nul_at n (t + 1) (wr m s (rd m t)) = nul_at n (t + 1) m).
      { apply nul_at_ext. intros i Hi. rewrite rd_wr. by rewrite decide_False by lia. }
      assert (Ec : copied_len n (t + 1) (wr m s (rd m t)) = copied_len n (t + 1) m)
        by (unfold copied_len; by rewrite En).
      rewrite Ec in *.
      assert (Hlen : match S <$> nul_at n (t + 1) m with Some k => S k | None => S n end =
        S (copied_len n (t + 1) m)) by (unfold copied_len; by destruct (nul_at n (t + 1) m)).
      rewrite Hlen. exists m'. split; [do 2 f_equal; lia|].
      assert (Hle : (copied_len n (t + 1) m <= n)%nat).
      { unfold copied_len. destruct (nul_at n (t + 1) m) eqn:E'; [|done].
        apply nul_at_Some in E'. lia. }
      intros x. rewrite Hm', !rd_wr, u8_small by apply rd_range.
      repeat case_decide; subst; try lia; try done; f_equal; lia.
Qed.

Lemma copied_len_le n t m : (copied_len n t m <= n)%nat.
Proof.
  unfold copied_len. destruct (nul_at n t m) eqn:E; [|done]. apply nul_at_Some in E. lia.
Qed.

(** memmove copies as if through a temporary buffer, however the two
    areas overlap, and changes nothing else. *)
Theorem memmove_handles_overlap dst src n m :
  0 <= n ->
  read_bytes (memmove dst src n m) dst (Z.to_nat n) = read_bytes m src (Z.to_nat n) /\
  forall x, ~ (dst <= x < dst + n) -> rd (memmove dst src n m) x = rd m x.
Proof.
  intros Hn. split.
  - apply list_eq. intros i. destruct (decide (i < Z.to_nat n)%nat).
    + rewrite !lookup_read_bytes by done. rewrite rd_memmove, decide_True by lia. do 2 f_equal. lia.
    + by rewrite !lookup_ge_None_2 by (rewrite length_read_bytes; lia).
  - intros x Hx. rewrite rd_memmove by done. by rewrite decide_False.
Qed.

Lemma memmove_handles_overlap_witness :
  let m := write_bytes ∅ 100 [1; 2; 3; 4; 5] in
  read_bytes (memmove 101 100 4 m) 101 4 = [1; 2; 3; 4].
Proof.
  intros m. destruct (memmove_handles_overlap 101 100 4 m) as [H _]; [lia|].
  change (Z.to_nat 4) with 4%nat in H. rewrite H. reflexivity.
Defined.

(** safestrcpy always leaves a NUL-terminated string in the destination
    buffer of n bytes: the source string, cut to n-1 characters; it writes
    nothing outside the buffer. strncpy stores the source string followed by
    NULs up to n bytes (no NUL when the string is n bytes or longer). *)
Theorem string_copies s t n m :
  0 < n -> s + n <= t \/ t + n <= s ->
  let len := match nul_at (Z.to_nat n) t m with Some k => Z.of_nat k | None => n end in
  (* safestrcpy *)
  (forall i, 0 <= i < Z.min len (n - 1) -> rd (safestrcpy s t n m) (s + i) = rd m (t + i)) /\
  rd (safestrcpy s t n m) (s + Z.min len (n - 1)) = 0 /\
  (forall i, 0 <= i < Z.min len (n - 1) -> rd (safestrcpy s t n m) (s + i) <> 0) /\
  (forall x, ~ (s <= x < s + n) -> rd (safestrcpy s t n m) x = rd m x) /\
  (* strncpy *)
  (forall i, 0 <= i < n -> rd (strncpy s t n m) (s + i) = if decide (i < len) then rd m (t + i) else 0) /\
  (forall x, ~ (s <= x < s + n) -> rd (strncpy s t n m) x = rd m x).
Proof.
  intros Hn Hd len.
  assert (Hnz : forall i, 0 <= i < len -> rd m (t + i) <> 0).
  { intros i Hi. unfold len in Hi. rewrite <- (Z2Nat.id i) by lia.
    destruct (nul_at (Z.to_nat n) t m) as [k|] eqn:E.
    - apply nul_at_Some in E as (_ & _ & E). apply E. lia.
    - apply (nul_at_None _ _ _ E). lia. }
  assert (Hz : len < n -> rd m (t + len) = 0).
  { unfold len. destruct (nul_at (Z.to_nat n) t m) as [k|] eqn:E; [|lia].
    intros _. by apply nul_at_Some in E as (_ & E & _). }
  assert (Hlr : 0 <= len <= n).
  { unfold len. destruct (nul_at (Z.to_nat n) t m) as [k|] eqn:E; [apply nul_at_Some in E|]; lia. }
  assert (Hsafe : exists c m', safestrcpy s t n m = wr m' (s + c) 0 /\
    (c = n - 1 /\ n - 1 <= len \/ c = len + 1 /\ len < n - 1) /\
    forall x, rd m' x = if decide (s <= x < s + c) then rd m (t + (x - s)) else rd m x).
  { unfold safestrcpy. destruct (Z.leb_spec n 0); [lia|].
    destruct (strncpy_copy_spec (Z.to_nat (n - 1)) s t m) as (m' & -> & Hm'); [lia|].
    eexists _, m'. split; [reflexivity|]. split; [|exact Hm'].
    unfold copied_len. rewrite (nul_at_shorter (Z.to_nat (n - 1)) (Z.to_nat n)) by lia. unfold len in *.
    destruct (nul_at (Z.to_nat n) t m) as [k|]; cbn; [case_decide|]; lia. }
  destruct Hsafe as (c & m' & -> & Hc & Hm').
  assert (Hstr : exists m2, strncpy s t n m = m2 /\ forall x, rd m2 x =
    if decide (s <= x < s + n) then (if decide (x < s + len) then rd m (t + (x - s)) else 0) else rd m x).
  { eexists. split; [reflexivity|]. unfold strncpy.
    destruct (strncpy_copy_spec (Z.to_nat n) s t m) as (m2 & -> & Hm2); [lia|].
    intros x. rewrite rd_memset_loop, Hm2. assert (Hle := copied_len_le (Z.to_nat n) t m).
    assert (Z.of_nat (copied_len (Z.to_nat n) t m) = Z.min n (len + 1)) as E.
    { unfold copied_len, len in *. destruct (nul_at (Z.to_nat n) t m); lia. }
    repeat case_decide; try lia; try done.
    assert (x - s = len) as -> by lia. apply Hz. lia. }
  destruct Hstr as (m2 & -> & Hm2).
  split_and!; intros; rewrite ?rd_wr, ?Hm', ?Hm2; repeat case_decide; subst; try lia; try done;
    try (f_equal; lia).
  - assert (len = Z.min len (n - 1)) as E by lia. rewrite <- E.
    replace (t + (s + len - s)) with (t + len) by lia. apply Hz. lia.
  - replace (t + (s + i - s)) with (t + i) by lia. apply Hnz. lia.
Qed.

Lemma string_copies_witness :
  let m := write_bytes ∅ 100 [104; 105; 0; 9; 9] in
  rd (safestrcpy 200 100 3 m) (200 + 1) = 105 /\ rd (strncpy 200 100 4 m) (200 + 3) = 0.
Proof.
  intros m.
  destruct (string_copies 200 100 3 m) as (H & _); [lia|lia|].
  destruct (string_copies 200 100 4 m) as (_ & _ & _ & _ & H' & _); [lia|lia|].
  split; [rewrite (H 1) by (vm_compute; split; congruence); reflexivity|].
  rewrite (H' 3) by lia. reflexivity.
Defined.
