(* ===== verification/State.v ===== *)
(** The kernel's data: the structs of the kernel headers as records, the
    tables of the kernel as lists of them, and the whole kernel state
    [kstate] over which every kernel operation of the library runs.

    Pointers into a static table (a [struct proc *], [struct buf *],
    [struct inode *] or [struct file *]) are indices into it, with [None] for
    a null pointer; pointers to memory that [kalloc] hands out (pages, page
    tables, trapframes, pipes) are physical addresses, with [0] for null.
    Ints that only ever hold 0 or 1 are booleans. The [name] fields of locks,
    used for debugging only, are left out. *)

From stdpp Require Import base numbers list gmap strings decidable.
From S2P Require Import Prelude Params Mem.

(** Every spinlock of the kernel. A sleep-lock holds a spinlock of its own. *)
Inductive lockid :=
| LkKmem | LkBcache | LkLog | LkItable | LkFtable | LkPid | LkWait | LkTicks
| LkCons | LkUart | LkDisk | LkPr
| LkProc (p : nat)
| LkPipe (pi : Z)
| LkSleepBuf (b : nat)
| LkSleepInode (i : nat).

#[export] Instance lockid_eq_dec : EqDecision lockid.
Proof. solve_decision. Defined.

(** The addresses that processes sleep on. *)
Inductive chan :=
| ChLog | ChTicks | ChCons | ChUart | ChDiskFree
| ChProc (p : nat)
| ChBufLock (b : nat)
| ChInodeLock (i : nat)
| ChBuf (b : nat)
| ChPipeRead (pi : Z)
| ChPipeWrite (pi : Z).

#[export] Instance chan_eq_dec : EqDecision chan.
Proof. solve_decision. Defined.

(** struct sleeplock. *)
Record sleeplock := mk_sleeplock {
  sl_locked : bool;
  sl_pid : Z;
}.

Definition set_sl_locked (v : bool) (r : sleeplock) : sleeplock :=
  mk_sleeplock v (sl_pid r).
Definition set_sl_pid (v : Z) (r : sleeplock) : sleeplock :=
  mk_sleeplock (sl_locked r) v.

#[export] Instance sleeplock_eq_dec : EqDecision sleeplock.
Proof. solve_decision. Defined.

(** struct buf: a cached disk block; [b_prev] and [b_next] are the LRU links. *)
Record buf := mk_buf {
  b_valid : bool;
  b_disk : bool;
  b_dev : Z;
  b_blockno : Z;
  b_lock : sleeplock;
  b_refcnt : Z;
  b_prev : nat;
  b_next : nat;
  b_data : list Z;
}.

Definition set_b_valid (v : bool) (r : buf) : buf :=
  mk_buf v (b_disk r) (b_dev r) (b_blockno r) (b_lock r) (b_refcnt r) (b_prev r) (b_next r) (b_data r).
Definition set_b_disk (v : bool) (r : buf) : buf :=
  mk_buf (b_valid r) v (b_dev r) (b_blockno r) (b_lock r) (b_refcnt r) (b_prev r) (b_next r) (b_data r).
Definition set_b_dev (v : Z) (r : buf) : buf :=
  mk_buf (b_valid r) (b_disk r) v (b_blockno r) (b_lock r) (b_refcnt r) (b_prev r) (b_next r) (b_data r).
Definition set_b_blockno (v : Z) (r : buf) : buf :=
  mk_buf (b_valid r) (b_disk r) (b_dev r) v (b_lock r) (b_refcnt r) (b_prev r) (b_next r) (b_data r).
Definition set_b_lock (v : sleeplock) (r : buf) : buf :=
  mk_buf (b_valid r) (b_disk r) (b_dev r) (b_blockno r) v (b_refcnt r) (b_prev r) (b_next r) (b_data r).
Definition set_b_refcnt (v : Z) (r : buf) : buf :=
  mk_buf (b_valid r) (b_disk r) (b_dev r) (b_blockno r) (b_lock r) v (b_prev r) (b_next r) (b_data r).
Definition set_b_prev (v : nat) (r : buf) : buf :=
  mk_buf (b_valid r) (b_disk r) (b_dev r) (b_blockno r) (b_lock r) (b_refcnt r) v (b_next r) (b_data r).
Definition set_b_next (v : nat) (r : buf) : buf :=
  mk_buf (b_valid r) (b_disk r) (b_dev r) (b_blockno r) (b_lock r) (b_refcnt r) (b_prev r) v (b_data r).
Definition set_b_data (v : list Z) (r : buf) : buf :=
  mk_buf (b_valid r) (b_disk r) (b_dev r) (b_blockno r) (b_lock r) (b_refcnt r) (b_prev r) (b_next r) v.

(** struct logheader. *)
Record loghdr := mk_loghdr {
  lh_n : Z;
  lh_block : list Z;
}.

Definition set_lh_n (v : Z) (r : loghdr) : loghdr :=
  mk_loghdr v (lh_block r).
Definition set_lh_block (v : list Z) (r : loghdr) : loghdr :=
  mk_loghdr (lh_n r) v.

(** struct log. *)
Record log := mk_log {
  l_start : Z;
  l_size : Z;
  l_outstanding : Z;
  l_committing : bool;
  l_dev : Z;
  l_lh : loghdr;
}.

Definition set_l_start (v : Z) (r : log) : log :=
  mk_log v (l_size r) (l_outstanding r) (l_committing r) (l_dev r) (l_lh r).
Definition set_l_size (v : Z) (r : log) : log :=
  mk_log (l_start r) v (l_outstanding r) (l_committing r) (l_dev r) (l_lh r).
Definition set_l_outstanding (v : Z) (r : log) : log :=
  mk_log (l_start r) (l_size r) v (l_committing r) (l_dev r) (l_lh r).
Definition set_l_committing (v : bool) (r : log) : log :=
  mk_log (l_start r) (l_size r) (l_outstanding r) v (l_dev r) (l_lh r).
Definition set_l_dev (v : Z) (r : log) : log :=
  mk_log (l_start r) (l_size r) (l_outstanding r) (l_committing r) v (l_lh r).
Definition set_l_lh (v : loghdr) (r : log) : log :=
  mk_log (l_start r) (l_size r) (l_outstanding r) (l_committing r) (l_dev r) v.

(** struct superblock. *)
Record superblock := mk_superblock {
  sb_magic : Z;
  sb_size : Z;
  sb_nblocks : Z;
  sb_ninodes : Z;
  sb_nlog : Z;
  sb_logstart : Z;
  sb_inodestart : Z;
  sb_bmapstart : Z;
}.

Definition set_sb_magic (v : Z) (r : superblock) : superblock :=
  mk_superblock v (sb_size r) (sb_nblocks r) (sb_ninodes r) (sb_nlog r) (sb_logstart r) (sb_inodestart r) (sb_bmapstart r).
Definition set_sb_size (v : Z) (r : superblock) : superblock :=
  mk_superblock (sb_magic r) v (sb_nblocks r) (sb_ninodes r) (sb_nlog r) (sb_logstart r) (sb_inodestart r) (sb_bmapstart r).
Definition set_sb_nblocks (v : Z) (r : superblock) : superblock :=
  mk_superblock (sb_magic r) (sb_size r) v (sb_ninodes r) (sb_nlog r) (sb_logstart r) (sb_inodestart r) (sb_bmapstart r).
Definition set_sb_ninodes (v : Z) (r : superblock) : superblock :=
  mk_superblock (sb_magic r) (sb_size r) (sb_nblocks r) v (sb_nlog r) (sb_logstart r) (sb_inodestart r) (sb_bmapstart r).
Definition set_sb_nlog (v : Z) (r : superblock) : superblock :=
  mk_superblock (sb_magic r) (sb_size r) (sb_nblocks r) (sb_ninodes r) v (sb_logstart r) (sb_inodestart r) (sb_bmapstart r).
Definition set_sb_logstart (v : Z) (r : superblock) : superblock :=
  mk_superblock (sb_magic r) (sb_size r) (sb_nblocks r) (sb_ninodes r) (sb_nlog r) v (sb_inodestart r) (sb_bmapstart r).
Definition set_sb_inodestart (v : Z) (r : superblock) : superblock :=
  mk_superblock (sb_magic r) (sb_size r) (sb_nblocks r) (sb_ninodes r) (sb_nlog r) (sb_logstart r) v (sb_bmapstart r).
Definition set_sb_bmapstart (v : Z) (r : superblock) : superblock :=
  mk_superblock (sb_magic r) (sb_size r) (sb_nblocks r) (sb_ninodes r) (sb_nlog r) (sb_logstart r) (sb_inodestart r) v.

(** struct inode: the in-memory copy. *)
Record inode := mk_inode {
  i_dev : Z;
  i_inum : Z;
  i_ref : Z;
  i_lock : sleeplock;
  i_valid : bool;
  i_type : Z;
  i_major : Z;
  i_minor : Z;
  i_nlink : Z;
  i_size : Z;
  i_addrs : list Z;
}.

Definition set_i_dev (v : Z) (r : inode) : inode :=
  mk_inode v (i_inum r) (i_ref r) (i_lock r) (i_valid r) (i_type r) (i_major r) (i_minor r) (i_nlink r) (i_size r) (i_addrs r).
Definition set_i_inum (v : Z) (r : inode) : inode :=
  mk_inode (i_dev r) v (i_ref r) (i_lock r) (i_valid r) (i_type r) (i_major r) (i_minor r) (i_nlink r) (i_size r) (i_addrs r).
Definition set_i_ref (v : Z) (r : inode) : inode :=
  mk_inode (i_dev r) (i_inum r) v (i_lock r) (i_valid r) (i_type r) (i_major r) (i_minor r) (i_nlink r) (i_size r) (i_addrs r).
Definition set_i_lock (v : sleeplock) (r : inode) : inode :=
  mk_inode (i_dev r) (i_inum r) (i_ref r) v (i_valid r) (i_type r) (i_major r) (i_minor r) (i_nlink r) (i_size r) (i_addrs r).
Definition set_i_valid (v : bool) (r : inode) : inode :=
  mk_inode (i_dev r) (i_inum r) (i_ref r) (i_lock r) v (i_type r) (i_major r) (i_minor r) (i_nlink r) (i_size r) (i_addrs r).
Definition set_i_type (v : Z) (r : inode) : inode :=
  mk_inode (i_dev r) (i_inum r) (i_ref r) (i_lock r) (i_valid r) v (i_major r) (i_minor r) (i_nlink r) (i_size r) (i_addrs r).
Definition set_i_major (v : Z) (r : inode) : inode :=
  mk_inode (i_dev r) (i_inum r) (i_ref r) (i_lock r) (i_valid r) (i_type r) v (i_minor r) (i_nlink r) (i_size r) (i_addrs r).
Definition set_i_minor (v : Z) (r : inode) : inode :=
  mk_inode (i_dev r) (i_inum r) (i_ref r) (i_lock r) (i_valid r) (i_type r) (i_major r) v (i_nlink r) (i_size r) (i_addrs r).
Definition set_i_nlink (v : Z) (r : inode) : inode :=
  mk_inode (i_dev r) (i_inum r) (i_ref r) (i_lock r) (i_valid r) (i_type r) (i_major r) (i_minor r) v (i_size r) (i_addrs r).
Definition set_i_size (v : Z) (r : inode) : inode :=
  mk_inode (i_dev r) (i_inum r) (i_ref r) (i_lock r) (i_valid r) (i_type r) (i_major r) (i_minor r) (i_nlink r) v (i_addrs r).
Definition set_i_addrs (v : list Z) (r : inode) : inode :=
  mk_inode (i_dev r) (i_inum r) (i_ref r) (i_lock r) (i_valid r) (i_type r) (i_major r) (i_minor r) (i_nlink r) (i_size r) v.

(** The [type] of a [struct file]. *)
Inductive filetype := FD_NONE | FD_PIPE | FD_INODE | FD_DEVICE.

#[export] Instance filetype_eq_dec : EqDecision filetype.
Proof. solve_decision. Defined.

(** struct file. *)
Record file := mk_file {
  f_type : filetype;
  f_ref : Z;
  f_readable : bool;
  f_writable : bool;
  f_pipe : Z;
  f_ip : option nat;
  f_off : Z;
  f_major : Z;
}.

Definition set_f_type (v : filetype) (r : file) : file :=
  mk_file v (f_ref r) (f_readable r) (f_writable r) (f_pipe r) (f_ip r) (f_off r) (f_major r).
Definition set_f_ref (v : Z) (r : file) : file :=
  mk_file (f_type r) v (f_readable r) (f_writable r) (f_pipe r) (f_ip r) (f_off r) (f_major r).
Definition set_f_readable (v : bool) (r : file) : file :=
  mk_file (f_type r) (f_ref r) v (f_writable r) (f_pipe r) (f_ip r) (f_off r) (f_major r).
Definition set_f_writable (v : bool) (r : file) : file :=
  mk_file (f_type r) (f_ref r) (f_readable r) v (f_pipe r) (f_ip r) (f_off r) (f_major r).
Definition set_f_pipe (v : Z) (r : file) : file :=
  mk_file (f_type r) (f_ref r) (f_readable r) (f_writable r) v (f_ip r) (f_off r) (f_major r).
Definition set_f_ip (v : option nat) (r : file) : file :=
  mk_file (f_type r) (f_ref r) (f_readable r) (f_writable r) (f_pipe r) v (f_off r) (f_major r).
Definition set_f_off (v : Z) (r : file) : file :=
  mk_file (f_type r) (f_ref r) (f_readable r) (f_writable r) (f_pipe r) (f_ip r) v (f_major r).
Definition set_f_major (v : Z) (r : file) : file :=
  mk_file (f_type r) (f_ref r) (f_readable r) (f_writable r) (f_pipe r) (f_ip r) (f_off r) v.

(** struct pipe, without its lock. *)
Record pipe := mk_pipe {
  pi_data : list Z;
  pi_nread : Z;
  pi_nwrite : Z;
  pi_readopen : bool;
  pi_writeopen : bool;
}.

Definition set_pi_data (v : list Z) (r : pipe) : pipe :=
  mk_pipe v (pi_nread r) (pi_nwrite r) (pi_readopen r) (pi_writeopen r).
Definition set_pi_nread (v : Z) (r : pipe) : pipe :=
  mk_pipe (pi_data r) v (pi_nwrite r) (pi_readopen r) (pi_writeopen r).
Definition set_pi_nwrite (v : Z) (r : pipe) : pipe :=
  mk_pipe (pi_data r) (pi_nread r) v (pi_readopen r) (pi_writeopen r).
Definition set_pi_readopen (v : bool) (r : pipe) : pipe :=
  mk_pipe (pi_data r) (pi_nread r) (pi_nwrite r) v (pi_writeopen r).
Definition set_pi_writeopen (v : bool) (r : pipe) : pipe :=
  mk_pipe (pi_data r) (pi_nread r) (pi_nwrite r) (pi_readopen r) v.

(** enum procstate. *)
Inductive procstate := UNUSED | USED | SLEEPING | RUNNABLE | RUNNING | ZOMBIE.

#[export] Instance procstate_eq_dec : EqDecision procstate.
Proof. solve_decision. Defined.

(** struct context: the saved return address, stack pointer and callee-saved
    registers s0..s11. *)
Record context := mk_context {
  ctx_ra : Z;
  ctx_sp : Z;
  ctx_s : list Z;
}.

(** struct proc. *)
Record proc := mk_proc {
  p_state : procstate;
  p_chan : option chan;
  p_killed : bool;
  p_xstate : Z;
  p_pid : Z;
  p_parent : option nat;
  p_kstack : Z;
  p_sz : Z;
  p_pagetable : Z;
  p_trapframe : Z;
  p_context : context;
  p_ofile : list (option nat);
  p_cwd : option nat;
  p_name : list Z;
}.

Definition set_p_state (v : procstate) (r : proc) : proc :=
  mk_proc v (p_chan r) (p_killed r) (p_xstate r) (p_pid r) (p_parent r) (p_kstack r) (p_sz r) (p_pagetable r) (p_trapframe r) (p_context r) (p_ofile r) (p_cwd r) (p_name r).
Definition set_p_chan (v : option chan) (r : proc) : proc :=
  mk_proc (p_state r) v (p_killed r) (p_xstate r) (p_pid r) (p_parent r) (p_kstack r) (p_sz r) (p_pagetable r) (p_trapframe r) (p_context r) (p_ofile r) (p_cwd r) (p_name r).
Definition set_p_killed (v : bool) (r : proc) : proc :=
  mk_proc (p_state r) (p_chan r) v (p_xstate r) (p_pid r) (p_parent r) (p_kstack r) (p_sz r) (p_pagetable r) (p_trapframe r) (p_context r) (p_ofile r) (p_cwd r) (p_name r).
Definition set_p_xstate (v : Z) (r : proc) : proc :=
  mk_proc (p_state r) (p_chan r) (p_killed r) v (p_pid r) (p_parent r) (p_kstack r) (p_sz r) (p_pagetable r) (p_trapframe r) (p_context r) (p_ofile r) (p_cwd r) (p_name r).
Definition set_p_pid (v : Z) (r : proc) : proc :=
  mk_proc (p_state r) (p_chan r) (p_killed r) (p_xstate r) v (p_parent r) (p_kstack r) (p_sz r) (p_pagetable r) (p_trapframe r) (p_context r) (p_ofile r) (p_cwd r) (p_name r).
Definition set_p_parent (v : option nat) (r : proc) : proc :=
  mk_proc (p_state r) (p_chan r) (p_killed r) (p_xstate r) (p_pid r) v (p_kstack r) (p_sz r) (p_pagetable r) (p_trapframe r) (p_context r) (p_ofile r) (p_cwd r) (p_name r).
Definition set_p_kstack (v : Z) (r : proc) : proc :=
  mk_proc (p_state r) (p_chan r) (p_killed r) (p_xstate r) (p_pid r) (p_parent r) v (p_sz r) (p_pagetable r) (p_trapframe r) (p_context r) (p_ofile r) (p_cwd r) (p_name r).
Definition set_p_sz (v : Z) (r : proc) : proc :=
  mk_proc (p_state r) (p_chan r) (p_killed r) (p_xstate r) (p_pid r) (p_parent r) (p_kstack r) v (p_pagetable r) (p_trapframe r) (p_context r) (p_ofile r) (p_cwd r) (p_name r).
Definition set_p_pagetable (v : Z) (r : proc) : proc :=
  mk_proc (p_state r) (p_chan r) (p_killed r) (p_xstate r) (p_pid r) (p_parent r) (p_kstack r) (p_sz r) v (p_trapframe r) (p_context r) (p_ofile r) (p_cwd r) (p_name r).
Definition set_p_trapframe (v : Z) (r : proc) : proc :=
  mk_proc (p_state r) (p_chan r) (p_killed r) (p_xstate r) (p_pid r) (p_parent r) (p_kstack r) (p_sz r) (p_pagetable r) v (p_context r) (p_ofile r) (p_cwd r) (p_name r).
Definition set_p_context (v : context) (r : proc) : proc :=
  mk_proc (p_state r) (p_chan r) (p_killed r) (p_xstate r) (p_pid r) (p_parent r) (p_kstack r) (p_sz r) (p_pagetable r) (p_trapframe r) v (p_ofile r) (p_cwd r) (p_name r).
Definition set_p_ofile (v : list (option nat)) (r : proc) : proc :=
  mk_proc (p_state r) (p_chan r) (p_killed r) (p_xstate r) (p_pid r) (p_parent r) (p_kstack r) (p_sz r) (p_pagetable r) (p_trapframe r) (p_context r) v (p_cwd r) (p_name r).
Definition set_p_cwd (v : option nat) (r : proc) : proc :=
  mk_proc (p_state r) (p_chan r) (p_killed r) (p_xstate r) (p_pid r) (p_parent r) (p_kstack r) (p_sz r) (p_pagetable r) (p_trapframe r) (p_context r) (p_ofile r) v (p_name r).
Definition set_p_name (v : list Z) (r : proc) : proc :=
  mk_proc (p_state r) (p_chan r) (p_killed r) (p_xstate r) (p_pid r) (p_parent r) (p_kstack r) (p_sz r) (p_pagetable r) (p_trapframe r) (p_context r) (p_ofile r) (p_cwd r) v.

(** The disk behind the virtio driver: its blocks, and (a ghost) the writes it has completed, the newest first. *)
Record disk := mk_disk {
  d_blocks : gmap Z (list Z);
  d_trace : list (Z * list Z);
}.

Definition set_d_blocks (v : gmap Z (list Z)) (r : disk) : disk :=
  mk_disk v (d_trace r).
Definition set_d_trace (v : list (Z * list Z)) (r : disk) : disk :=
  mk_disk (d_blocks r) v.

(** The console: [cons] of console.c, without its lock. *)
Record console := mk_console {
  c_buf : list Z;
  c_r : Z;
  c_w : Z;
  c_e : Z;
}.

Definition set_c_buf (v : list Z) (r : console) : console :=
  mk_console v (c_r r) (c_w r) (c_e r).
Definition set_c_r (v : Z) (r : console) : console :=
  mk_console (c_buf r) v (c_w r) (c_e r).
Definition set_c_w (v : Z) (r : console) : console :=
  mk_console (c_buf r) (c_r r) v (c_e r).
Definition set_c_e (v : Z) (r : console) : console :=
  mk_console (c_buf r) (c_r r) (c_w r) v.

(** The UART: the transmit buffer of uart.c, and the device behind the registers: the bytes written to THR (newest first), the values that the next reads of LSR and of RHR return. *)
Record uart := mk_uart {
  u_buf : list Z;
  u_w : Z;
  u_r : Z;
  u_thr : list Z;
  u_lsr : list Z;
  u_rhr : list Z;
}.

Definition set_u_buf (v : list Z) (r : uart) : uart :=
  mk_uart v (u_w r) (u_r r) (u_thr r) (u_lsr r) (u_rhr r).
Definition set_u_w (v : Z) (r : uart) : uart :=
  mk_uart (u_buf r) v (u_r r) (u_thr r) (u_lsr r) (u_rhr r).
Definition set_u_r (v : Z) (r : uart) : uart :=
  mk_uart (u_buf r) (u_w r) v (u_thr r) (u_lsr r) (u_rhr r).
Definition set_u_thr (v : list Z) (r : uart) : uart :=
  mk_uart (u_buf r) (u_w r) (u_r r) v (u_lsr r) (u_rhr r).
Definition set_u_lsr (v : list Z) (r : uart) : uart :=
  mk_uart (u_buf r) (u_w r) (u_r r) (u_thr r) v (u_rhr r).
Definition set_u_rhr (v : list Z) (r : uart) : uart :=
  mk_uart (u_buf r) (u_w r) (u_r r) (u_thr r) (u_lsr r) v.

(** What a descriptor's [addr] points to: a request header, the data of a
    buffer, or a status byte of [info]; null otherwise. *)
Inductive vaddr := VNull | VReq (i : nat) | VData (b : nat) | VStatus (i : nat).

(** struct virtq_desc, struct virtio_blk_req, and an entry of [disk.info]. *)
Record virtq_desc := mk_desc { vd_addr : vaddr; vd_len : Z; vd_flags : Z; vd_next : Z }.
Record blk_req := mk_req { rq_type : Z; rq_reserved : Z; rq_sector : Z }.
Record vinfo := mk_vinfo { vi_b : option nat; vi_status : Z }.

(** The [disk] of virtio_disk.c: the descriptors, the avail and used rings
    (with the addresses of their pages), and the driver's own book-keeping. *)
Record vdisk := mk_vdisk {
  v_pages : list Z;
  v_desc : list virtq_desc;
  v_avail_idx : Z;
  v_avail : list Z;
  v_uidx : Z;
  v_used : list Z;
  v_free : list bool;
  v_used_idx : Z;
  v_info : list vinfo;
  v_ops : list blk_req;
  v_mmio : list (Z * Z);
}.

Definition set_v_pages (v : list Z) (r : vdisk) : vdisk :=
  mk_vdisk v (v_desc r) (v_avail_idx r) (v_avail r) (v_uidx r) (v_used r) (v_free r) (v_used_idx r) (v_info r) (v_ops r) (v_mmio r).
Definition set_v_desc (v : list virtq_desc) (r : vdisk) : vdisk :=
  mk_vdisk (v_pages r) v (v_avail_idx r) (v_avail r) (v_uidx r) (v_used r) (v_free r) (v_used_idx r) (v_info r) (v_ops r) (v_mmio r).
Definition set_v_avail_idx (v : Z) (r : vdisk) : vdisk :=
  mk_vdisk (v_pages r) (v_desc r) v (v_avail r) (v_uidx r) (v_used r) (v_free r) (v_used_idx r) (v_info r) (v_ops r) (v_mmio r).
Definition set_v_avail (v : list Z) (r : vdisk) : vdisk :=
  mk_vdisk (v_pages r) (v_desc r) (v_avail_idx r) v (v_uidx r) (v_used r) (v_free r) (v_used_idx r) (v_info r) (v_ops r) (v_mmio r).
Definition set_v_uidx (v : Z) (r : vdisk) : vdisk :=
  mk_vdisk (v_pages r) (v_desc r) (v_avail_idx r) (v_avail r) v (v_used r) (v_free r) (v_used_idx r) (v_info r) (v_ops r) (v_mmio r).
Definition set_v_used (v : list Z) (r : vdisk) : vdisk :=
  mk_vdisk (v_pages r) (v_desc r) (v_avail_idx r) (v_avail r) (v_uidx r) v (v_free r) (v_used_idx r) (v_info r) (v_ops r) (v_mmio r).
Definition set_v_free (v : list bool) (r : vdisk) : vdisk :=
  mk_vdisk (v_pages r) (v_desc r) (v_avail_idx r) (v_avail r) (v_uidx r) (v_used r) v (v_used_idx r) (v_info r) (v_ops r) (v_mmio r).
Definition set_v_used_idx (v : Z) (r : vdisk) : vdisk :=
  mk_vdisk (v_pages r) (v_desc r) (v_avail_idx r) (v_avail r) (v_uidx r) (v_used r) (v_free r) v (v_info r) (v_ops r) (v_mmio r).
Definition set_v_info (v : list vinfo) (r : vdisk) : vdisk :=
  mk_vdisk (v_pages r) (v_desc r) (v_avail_idx r) (v_avail r) (v_uidx r) (v_used r) (v_free r) (v_used_idx r) v (v_ops r) (v_mmio r).
Definition set_v_ops (v : list blk_req) (r : vdisk) : vdisk :=
  mk_vdisk (v_pages r) (v_desc r) (v_avail_idx r) (v_avail r) (v_uidx r) (v_used r) (v_free r) (v_used_idx r) (v_info r) v (v_mmio r).
Definition set_v_mmio (v : list (Z * Z)) (r : vdisk) : vdisk :=
  mk_vdisk (v_pages r) (v_desc r) (v_avail_idx r) (v_avail r) (v_uidx r) (v_used r) (v_free r) (v_used_idx r) (v_info r) (v_ops r) v.

(** The kernel state. [k_held] is the list of spinlocks the running CPU holds, [k_cur] the process it runs. *)
Record kstate := mk_kstate {
  k_held : list lockid;
  k_cur : option nat;
  k_procs : list proc;
  k_nextpid : Z;
  k_initproc : option nat;
  k_mem : memory;
  k_freelist : Z;
  k_disk : disk;
  k_bufs : list buf;
  k_log : log;
  k_sb : superblock;
  k_itable : list inode;
  k_ftable : list file;
  k_pipes : gmap Z pipe;
  k_ticks : Z;
  k_kpgtbl : Z;
  k_first : bool;
  k_cons : console;
  k_uart : uart;
  k_vdisk : vdisk;
}.

Definition set_k_held (v : list lockid) (r : kstate) : kstate :=
  mk_kstate v (k_cur r) (k_procs r) (k_nextpid r) (k_initproc r) (k_mem r) (k_freelist r) (k_disk r) (k_bufs r) (k_log r) (k_sb r) (k_itable r) (k_ftable r) (k_pipes r) (k_ticks r) (k_kpgtbl r) (k_first r) (k_cons r) (k_uart r) (k_vdisk r).
Definition set_k_cur (v : option nat) (r : kstate) : kstate :=
  mk_kstate (k_held r) v (k_procs r) (k_nextpid r) (k_initproc r) (k_mem r) (k_freelist r) (k_disk r) (k_bufs r) (k_log r) (k_sb r) (k_itable r) (k_ftable r) (k_pipes r) (k_ticks r) (k_kpgtbl r) (k_first r) (k_cons r) (k_uart r) (k_vdisk r).
Definition set_k_procs (v : list proc) (r : kstate) : kstate :=
  mk_kstate (k_held r) (k_cur r) v (k_nextpid r) (k_initproc r) (k_mem r) (k_freelist r) (k_disk r) (k_bufs r) (k_log r) (k_sb r) (k_itable r) (k_ftable r) (k_pipes r) (k_ticks r) (k_kpgtbl r) (k_first r) (k_cons r) (k_uart r) (k_vdisk r).
Definition set_k_nextpid (v : Z) (r : kstate) : kstate :=
  mk_kstate (k_held r) (k_cur r) (k_procs r) v (k_initproc r) (k_mem r) (k_freelist r) (k_disk r) (k_bufs r) (k_log r) (k_sb r) (k_itable r) (k_ftable r) (k_pipes r) (k_ticks r) (k_kpgtbl r) (k_first r) (k_cons r) (k_uart r) (k_vdisk r).
Definition set_k_initproc (v : option nat) (r : kstate) : kstate :=
  mk_kstate (k_held r) (k_cur r) (k_procs r) (k_nextpid r) v (k_mem r) (k_freelist r) (k_disk r) (k_bufs r) (k_log r) (k_sb r) (k_itable r) (k_ftable r) (k_pipes r) (k_ticks r) (k_kpgtbl r) (k_first r) (k_cons r) (k_uart r) (k_vdisk r).
Definition set_k_mem (v : memory) (r : kstate) : kstate :=
  mk_kstate (k_held r) (k_cur r) (k_procs r) (k_nextpid r) (k_initproc r) v (k_freelist r) (k_disk r) (k_bufs r) (k_log r) (k_sb r) (k_itable r) (k_ftable r) (k_pipes r) (k_ticks r) (k_kpgtbl r) (k_first r) (k_cons r) (k_uart r) (k_vdisk r).
Definition set_k_freelist (v : Z) (r : kstate) : kstate :=
  mk_kstate (k_held r) (k_cur r) (k_procs r) (k_nextpid r) (k_initproc r) (k_mem r) v (k_disk r) (k_bufs r) (k_log r) (k_sb r) (k_itable r) (k_ftable r) (k_pipes r) (k_ticks r) (k_kpgtbl r) (k_first r) (k_cons r) (k_uart r) (k_vdisk r).
Definition set_k_disk (v : disk) (r : kstate) : kstate :=
  mk_kstate (k_held r) (k_cur r) (k_procs r) (k_nextpid r) (k_initproc r) (k_mem r) (k_freelist r) v (k_bufs r) (k_log r) (k_sb r) (k_itable r) (k_ftable r) (k_pipes r) (k_ticks r) (k_kpgtbl r) (k_first r) (k_cons r) (k_uart r) (k_vdisk r).
Definition set_k_bufs (v : list buf) (r : kstate) : kstate :=
  mk_kstate (k_held r) (k_cur r) (k_procs r) (k_nextpid r) (k_initproc r) (k_mem r) (k_freelist r) (k_disk r) v (k_log r) (k_sb r) (k_itable r) (k_ftable r) (k_pipes r) (k_ticks r) (k_kpgtbl r) (k_first r) (k_cons r) (k_uart r) (k_vdisk r).
Definition set_k_log (v : log) (r : kstate) : kstate :=
  mk_kstate (k_held r) (k_cur r) (k_procs r) (k_nextpid r) (k_initproc r) (k_mem r) (k_freelist r) (k_disk r) (k_bufs r) v (k_sb r) (k_itable r) (k_ftable r) (k_pipes r) (k_ticks r) (k_kpgtbl r) (k_first r) (k_cons r) (k_uart r) (k_vdisk r).
Definition set_k_sb (v : superblock) (r : kstate) : kstate :=
  mk_kstate (k_held r) (k_cur r) (k_procs r) (k_nextpid r) (k_initproc r) (k_mem r) (k_freelist r) (k_disk r) (k_bufs r) (k_log r) v (k_itable r) (k_ftable r) (k_pipes r) (k_ticks r) (k_kpgtbl r) (k_first r) (k_cons r) (k_uart r) (k_vdisk r).
Definition set_k_itable (v : list inode) (r : kstate) : kstate :=
  mk_kstate (k_held r) (k_cur r) (k_procs r) (k_nextpid r) (k_initproc r) (k_mem r) (k_freelist r) (k_disk r) (k_bufs r) (k_log r) (k_sb r) v (k_ftable r) (k_pipes r) (k_ticks r) (k_kpgtbl r) (k_first r) (k_cons r) (k_uart r) (k_vdisk r).
Definition set_k_ftable (v : list file) (r : kstate) : kstate :=
  mk_kstate (k_held r) (k_cur r) (k_procs r) (k_nextpid r) (k_initproc r) (k_mem r) (k_freelist r) (k_disk r) (k_bufs r) (k_log r) (k_sb r) (k_itable r) v (k_pipes r) (k_ticks r) (k_kpgtbl r) (k_first r) (k_cons r) (k_uart r) (k_vdisk r).
Definition set_k_pipes (v : gmap Z pipe) (r : kstate) : kstate :=
  mk_kstate (k_held r) (k_cur r) (k_procs r) (k_nextpid r) (k_initproc r) (k_mem r) (k_freelist r) (k_disk r) (k_bufs r) (k_log r) (k_sb r) (k_itable r) (k_ftable r) v (k_ticks r) (k_kpgtbl r) (k_first r) (k_cons r) (k_uart r) (k_vdisk r).
Definition set_k_ticks (v : Z) (r : kstate) : kstate :=
  mk_kstate (k_held r) (k_cur r) (k_procs r) (k_nextpid r) (k_initproc r) (k_mem r) (k_freelist r) (k_disk r) (k_bufs r) (k_log r) (k_sb r) (k_itable r) (k_ftable r) (k_pipes r) v (k_kpgtbl r) (k_first r) (k_cons r) (k_uart r) (k_vdisk r).
Definition set_k_kpgtbl (v : Z) (r : kstate) : kstate :=
  mk_kstate (k_held r) (k_cur r) (k_procs r) (k_nextpid r) (k_initproc r) (k_mem r) (k_freelist r) (k_disk r) (k_bufs r) (k_log r) (k_sb r) (k_itable r) (k_ftable r) (k_pipes r) (k_ticks r) v (k_first r) (k_cons r) (k_uart r) (k_vdisk r).
Definition set_k_first (v : bool) (r : kstate) : kstate :=
  mk_kstate (k_held r) (k_cur r) (k_procs r) (k_nextpid r) (k_initproc r) (k_mem r) (k_freelist r) (k_disk r) (k_bufs r) (k_log r) (k_sb r) (k_itable r) (k_ftable r) (k_pipes r) (k_ticks r) (k_kpgtbl r) v (k_cons r) (k_uart r) (k_vdisk r).
Definition set_k_cons (v : console) (r : kstate) : kstate :=
  mk_kstate (k_held r) (k_cur r) (k_procs r) (k_nextpid r) (k_initproc r) (k_mem r) (k_freelist r) (k_disk r) (k_bufs r) (k_log r) (k_sb r) (k_itable r) (k_ftable r) (k_pipes r) (k_ticks r) (k_kpgtbl r) (k_first r) v (k_uart r) (k_vdisk r).
Definition set_k_uart (v : uart) (r : kstate) : kstate :=
  mk_kstate (k_held r) (k_cur r) (k_procs r) (k_nextpid r) (k_initproc r) (k_mem r) (k_freelist r) (k_disk r) (k_bufs r) (k_log r) (k_sb r) (k_itable r) (k_ftable r) (k_pipes r) (k_ticks r) (k_kpgtbl r) (k_first r) (k_cons r) v (k_vdisk r).
Definition set_k_vdisk (v : vdisk) (r : kstate) : kstate :=
  mk_kstate (k_held r) (k_cur r) (k_procs r) (k_nextpid r) (k_initproc r) (k_mem r) (k_freelist r) (k_disk r) (k_bufs r) (k_log r) (k_sb r) (k_itable r) (k_ftable r) (k_pipes r) (k_ticks r) (k_kpgtbl r) (k_first r) (k_cons r) (k_uart r) v.

(** Kernel operations. *)
Abbreviation K := (M kstate).

(** Evaluate projections of updated kernel states, and nothing else. *)
Ltac ks :=
  cbn [k_held k_cur k_procs k_nextpid k_initproc k_mem k_freelist k_disk k_bufs k_log k_sb k_itable k_ftable k_pipes k_ticks k_kpgtbl k_first k_cons k_uart k_vdisk
       set_k_held set_k_cur set_k_procs set_k_nextpid set_k_initproc set_k_mem set_k_freelist set_k_disk set_k_bufs set_k_log set_k_sb set_k_itable set_k_ftable set_k_pipes set_k_ticks set_k_kpgtbl set_k_first set_k_cons set_k_uart set_k_vdisk].
Tactic Notation "ks" "in" hyp(H) :=
  cbn [k_held k_cur k_procs k_nextpid k_initproc k_mem k_freelist k_disk k_bufs k_log k_sb k_itable k_ftable k_pipes k_ticks k_kpgtbl k_first k_cons k_uart k_vdisk
       set_k_held set_k_cur set_k_procs set_k_nextpid set_k_initproc set_k_mem set_k_freelist set_k_disk set_k_bufs set_k_log set_k_sb set_k_itable set_k_ftable set_k_pipes set_k_ticks set_k_kpgtbl set_k_first set_k_cons set_k_uart set_k_vdisk] in H.

(** The state of a freshly loaded kernel: every static object is zero (the
    BSS is cleared before [main] runs) and the memory and the disk are as
    given. Only [nextpid] and [first] are initialised to something else. *)
Definition zero_sleeplock : sleeplock := mk_sleeplock false 0.
Definition zero_buf : buf :=
  mk_buf false false 0 0 zero_sleeplock 0 0 0 (replicate (Z.to_nat BSIZE) 0).
Definition zero_inode : inode :=
  mk_inode 0 0 0 zero_sleeplock false 0 0 0 0 0 (replicate (Z.to_nat (NDIRECT + 1)) 0).
Definition zero_file : file := mk_file FD_NONE 0 false false 0 None 0 0.
Definition zero_proc : proc :=
  mk_proc UNUSED None false 0 0 None 0 0 0 0 (mk_context 0 0 (replicate 12 0))
    (replicate (Z.to_nat NOFILE) None) None (replicate 16 0).
Definition zero_log : log :=
  mk_log 0 0 0 false 0 (mk_loghdr 0 (replicate (Z.to_nat LOGSIZE) 0)).

Definition zero_desc : virtq_desc := mk_desc VNull 0 0 0.
Definition zero_vdisk : vdisk :=
  mk_vdisk [0; 0; 0] (replicate 8 zero_desc) 0 (replicate 8 0) 0 (replicate 8 0)
    (replicate 8 false) 0 (replicate 8 (mk_vinfo None 0)) (replicate 8 (mk_req 0 0 0)) [].

Definition kstate0 (mem : memory) (d : disk) : kstate :=
  mk_kstate [] None (replicate (Z.to_nat NPROC) zero_proc) 1 None mem 0 d
    (replicate (Z.to_nat (NBUF + 1)) zero_buf) zero_log
    (mk_superblock 0 0 0 0 0 0 0 0)
    (replicate (Z.to_nat NINODE) zero_inode)
    (replicate (Z.to_nat NFILE) zero_file) ∅ 0 0 true
    (mk_console (replicate 128 0) 0 0 0) (mk_uart (replicate 32 0) 0 0 [] [] []) zero_vdisk.

Definition empty_disk : disk := mk_disk ∅ [].
