(* ===== verification/Locks.v ===== *)
(** Spinlocks, process wake-up and sleep-locks, as one CPU sees them
    (kernel/spinlock.c, kernel/sleeplock.c and sleep/wakeup/sched of
    kernel/proc.c).

    A kernel operation is modelled between two scheduling points of one CPU;
    [k_held] lists the spinlocks this CPU holds. [holding(lk)] is membership
    in the list, and [mycpu()->noff] is its length: Spinlock.v has the
    multi-CPU model of the locks themselves and shows both facts. *)

From stdpp Require Import base numbers list gmap strings decidable.
From S2P Require Import Prelude Params Mem State.

(** ** Spinlocks *)

Definition holding (l : lockid) (s : kstate) : bool := bool_decide (l ∈ k_held s).

Definition acquire (l : lockid) : K unit :=
  let! h := gets (holding l) in
  if h then panic "acquire" else modify (fun s => set_k_held (l :: k_held s) s).

Fixpoint remove_lock (l : lockid) (h : list lockid) : list lockid :=
  match h with
  | [] => []
  | x :: h' => if decide (x = l) then h' else x :: remove_lock l h'
  end.

Definition release (l : lockid) : K unit :=
  let! h := gets (holding l) in
  if h then modify (fun s => set_k_held (remove_lock l (k_held s)) s)
  else panic "release".

(** ** The running process *)

Definition myproc : K (option nat) := gets k_cur.

(** [p->f] for a pointer [p] into the process table. *)
Definition get_proc (i : nat) : K proc :=
  let! ps := gets k_procs in of_option (ps !! i).

Definition upd_proc (i : nat) (f : proc -> proc) : K unit :=
  let! p := get_proc i in
  modify (fun s => set_k_procs (<[i := f p]> (k_procs s)) s).

(** [myproc()->f]. *)
Definition curproc : K proc :=
  let! o := myproc in let! i := of_option o in get_proc i.

Definition proc_indices : list nat := seq 0 (Z.to_nat NPROC).

(** ** wakeup, sched and sleep *)

Definition wakeup_one (ch : chan) (i : nat) : K unit :=
  let! me := myproc in
  if decide (Some i = me) then ret tt
  else
    acquire (LkProc i) ;;
    let! p := get_proc i in
    when (bool_decide (p_state p = SLEEPING) && bool_decide (p_chan p = Some ch))
      (upd_proc i (set_p_state RUNNABLE)) ;;
    release (LkProc i).

Definition wakeup (ch : chan) : K unit := for_each proc_indices (wakeup_one ch).

(** [sched] leaves the CPU: it returns, in whatever state the scheduler
    resumes the process. The scheduler's side is in Proc.v. *)
Definition sched : K unit :=
  let! me := myproc in
  let! i := of_option me in
  let! h := gets (holding (LkProc i)) in
  let! p := get_proc i in
  let! noff := gets (fun s => length (k_held s)) in
  if negb h then panic "sched p->lock"
  else if negb (bool_decide (noff = 1%nat)) then panic "sched locks"
  else if decide (p_state p = RUNNING) then panic "sched running"
  else fun s => Sleep s (Ret tt).

Definition sleep (ch : chan) (lk : lockid) : K unit :=
  let! me := myproc in
  let! i := of_option me in
  acquire (LkProc i) ;;
  release lk ;;
  upd_proc i (set_p_chan (Some ch)) ;;
  upd_proc i (set_p_state SLEEPING) ;;
  sched ;;
  upd_proc i (set_p_chan None) ;;
  release (LkProc i) ;;
  acquire lk.

(** ** Kill flags (proc.c) *)

Definition setkilled (i : nat) : K unit :=
  acquire (LkProc i) ;;
  upd_proc i (set_p_killed true) ;;
  release (LkProc i).

Definition killed (i : nat) : K bool :=
  acquire (LkProc i) ;;
  let! p := get_proc i in
  release (LkProc i) ;;
  ret (p_killed p).

(** [myproc()] where the code uses it as a pointer. *)
Definition me : K nat := let! o := myproc in of_option o.

(** ** Sleep-locks

    A sleep-lock is reached through its owner (a buffer or an inode): the
    operations below take accessors to it, the spinlock inside it and its
    address as a wait channel. *)

Record slref := mk_slref {
  sl_get : K sleeplock;
  sl_set : sleeplock -> K unit;
  sl_spin : lockid;
  sl_chan : chan;
}.

(** A bound on the rounds of a loop that sleeps until a condition holds: how
    often a process may be woken and find the condition false again. Every
    such loop of the kernel takes this one bound, so that what the library
    proves holds whatever it is. *)
Class Wakeups := wakeups : nat.

Definition acquiresleep `{Wakeups} (r : slref) : K unit :=
  acquire (sl_spin r) ;;
  loop (S wakeups)
    (fun _ =>
       let! lk := sl_get r in
       if sl_locked lk then sleep (sl_chan r) (sl_spin r) ;; ret (inl tt)
       else ret (inr tt)) tt ;;
  let! p := curproc in
  sl_set r (mk_sleeplock true (p_pid p)) ;;
  release (sl_spin r).

Definition releasesleep (r : slref) : K unit :=
  acquire (sl_spin r) ;;
  sl_set r (mk_sleeplock false 0) ;;
  wakeup (sl_chan r) ;;
  release (sl_spin r).

Definition holdingsleep (r : slref) : K bool :=
  acquire (sl_spin r) ;;
  let! lk := sl_get r in
  let! b := (if sl_locked lk
             then let! p := curproc in ret (sl_pid lk =? p_pid p)
             else ret false) in
  release (sl_spin r) ;;
  ret b.

(** ** Rules for the lock operations *)

Lemma set_k_held_id s h : h = k_held s -> set_k_held h s = s.
Proof. intros ->. by destruct s. Qed.

Lemma set_k_procs_id s ps : ps = k_procs s -> set_k_procs ps s = s.
Proof. intros ->. by destruct s. Qed.

Lemma set_k_procs_twice ps ps' s : set_k_procs ps (set_k_procs ps' s) = set_k_procs ps s.
Proof. done. Qed.

Lemma acquire_ok l s :
  l ∉ k_held s -> acquire l s = Ret tt (set_k_held (l :: k_held s) s).
Proof.
  intros H. unfold acquire. run_steps. unfold holding. by rewrite bool_decide_eq_false_2.
Qed.

Lemma remove_lock_head l h : remove_lock l (l :: h) = h.
Proof. unfold remove_lock. by rewrite decide_True. Qed.

Lemma release_ok l h s :
  k_held s = l :: h -> release l s = Ret tt (set_k_held h s).
Proof.
  intros H. unfold release. run_steps. unfold holding, modify.
  rewrite bool_decide_eq_true_2 by (rewrite H; constructor).
  by rewrite H, remove_lock_head.
Qed.

Lemma run_acquire {A} l (k : unit -> K A) s :
  l ∉ k_held s -> bind (acquire l) k s = k tt (set_k_held (l :: k_held s) s).
Proof. intros H. by rewrite (bind_Ret _ _ _ _ _ (acquire_ok l s H)). Qed.

Lemma run_release {A} l h (k : unit -> K A) s :
  k_held s = l :: h -> bind (release l) k s = k tt (set_k_held h s).
Proof. intros H. by rewrite (bind_Ret _ _ _ _ _ (release_ok l h s H)). Qed.

Lemma wp_acquire l (Q : unit -> kstate -> Prop) s :
  l ∉ k_held s -> Q tt (set_k_held (l :: k_held s) s) -> wp (acquire l) Q s.
Proof. intros H HQ. unfold wp. by rewrite acquire_ok. Qed.

Lemma wp_release l h (Q : unit -> kstate -> Prop) s :
  k_held s = l :: h -> Q tt (set_k_held h s) -> wp (release l) Q s.
Proof. intros H HQ. unfold wp. by rewrite (release_ok l h). Qed.

(** A critical section whose body leaves the lock list alone gives the list
    back. *)
Lemma wp_critical {A} l (body : K A) (Q : A -> kstate -> Prop) s :
  l ∉ k_held s ->
  wp body (fun a s' => k_held s' = l :: k_held s /\ Q a (set_k_held (k_held s) s'))
     (set_k_held (l :: k_held s) s) ->
  wp (acquire l ;; let! a := body in release l ;; ret a) Q s.
Proof.
  intros H Hb. apply wp_bind, wp_acquire; [done|]. apply wp_bind.
  eapply wp_mono; [exact Hb|]. intros a s' [Hh HQ].
  apply wp_bind. by eapply wp_release, wp_ret.
Qed.

Lemma wp_get_proc i p (Q : proc -> kstate -> Prop) s :
  k_procs s !! i = Some p -> Q p s -> wp (get_proc i) Q s.
Proof. intros Hp HQ. unfold get_proc. wp_steps. by eapply wp_of_option. Qed.

Lemma wp_upd_proc i p f (Q : unit -> kstate -> Prop) s :
  k_procs s !! i = Some p ->
  Q tt (set_k_procs (<[i := f p]> (k_procs s)) s) -> wp (upd_proc i f) Q s.
Proof. intros Hp HQ. unfold upd_proc. wp_steps. eapply wp_get_proc; [done|]. by wp_steps. Qed.

Lemma wp_curproc i p (Q : proc -> kstate -> Prop) s :
  k_cur s = Some i -> k_procs s !! i = Some p -> Q p s -> wp curproc Q s.
Proof.
  intros Hi Hp HQ. unfold curproc, myproc. wp_steps.
  eapply wp_of_option; [done|]. by eapply wp_get_proc.
Qed.

(** ** wakeup as a map over the process table *)

Definition wake1 (ch : chan) (p : proc) : proc :=
  if bool_decide (p_state p = SLEEPING) && bool_decide (p_chan p = Some ch)
  then set_p_state RUNNABLE p else p.

Definition wake (ch : chan) (cur : option nat) (ps : list proc) : list proc :=
  imap (fun i p => if decide (Some i = cur) then p else wake1 ch p) ps.

Definition no_proc_lock (h : list lockid) : Prop := forall i, LkProc i ∉ h.
Definition procs_full (s : kstate) : Prop := length (k_procs s) = Z.to_nat NPROC.

Lemma length_wake ch cur ps : length (wake ch cur ps) = length ps.
Proof. apply length_imap. Qed.

Lemma lookup_wake ch cur ps i :
  wake ch cur ps !! i =
  (fun p => if decide (Some i = cur) then p else wake1 ch p) <$> ps !! i.
Proof. unfold wake. by rewrite list_lookup_imap. Qed.

(** What a wake-up may change of a process: its state, from SLEEPING to
    RUNNABLE, when it sleeps on that channel. *)
Lemma wake1_cases ch p :
  wake1 ch p = p \/
  (p_state p = SLEEPING /\ p_chan p = Some ch /\ wake1 ch p = set_p_state RUNNABLE p).
Proof. unfold wake1. do 2 case_bool_decide; simpl; auto. Qed.

Lemma wakeup_one_ok ch i s :
  LkProc i ∉ k_held s -> (i < length (k_procs s))%nat ->
  wakeup_one ch i s =
  Ret tt (set_k_procs (alter (fun p => if decide (Some i = k_cur s) then p else wake1 ch p)
                             i (k_procs s)) s).
Proof.
  intros Hl Hi. destruct (lookup_lt_is_Some_2 (k_procs s) i Hi) as [p Hp].
  unfold wakeup_one, myproc. rewrite (bind_Ret _ _ _ (k_cur s) s) by done.
  case_decide as Hc.
  - unfold ret. f_equal. symmetry. apply set_k_procs_id.
    apply list_eq. intros j. rewrite list_lookup_alter. case_decide; [|done].
    subst. by rewrite Hp.
  - rewrite (bind_Ret _ _ _ _ _ (acquire_ok _ _ Hl)).
    assert (alter (fun p => wake1 ch p) i (k_procs s) = <[i := wake1 ch p]> (k_procs s)) as ->.
    { by apply list_alter_insert. }
    unfold get_proc, bind, gets, of_option. simpl. rewrite Hp. simpl.
    unfold wake1. destruct (bool_decide _ && bool_decide _); simpl.
    + unfold upd_proc, get_proc, bind, gets, of_option. simpl. rewrite Hp. simpl.
      rewrite (release_ok _ (k_held s)) by done. by destruct s.
    + rewrite (release_ok _ (k_held s)) by done. rewrite list_insert_id by done. by destruct s.
Qed.

Lemma wakeup_ok ch s :
  no_proc_lock (k_held s) -> procs_full s ->
  wakeup ch s = Ret tt (set_k_procs (wake ch (k_cur s) (k_procs s)) s).
Proof.
  intros Hl Hf. unfold wakeup, proc_indices. rewrite <- Hf.
  set (f i p := if decide (Some i = k_cur s) then p else wake1 ch p).
  assert (wp (for_each (seq 0 (length (k_procs s))) (wakeup_one ch))
    (fun _ s' => s' = set_k_procs (wake ch (k_cur s) (k_procs s)) s) s) as H.
  { apply (wp_for_each (fun pre s' => s' = set_k_procs
      (imap (fun i p => if decide (i < length pre)%nat then f i p else p) (k_procs s)) s)).
    - symmetry. apply set_k_procs_id. apply list_eq. intros i. rewrite list_lookup_imap.
      destruct (k_procs s !! i); done.
    - intros pre x rest s' Hpre ->.
      assert (length pre = x) as Hx.
      { apply (f_equal (fun l => l !! length pre)) in Hpre.
        rewrite list_lookup_middle in Hpre by done.
        apply lookup_seq in Hpre. lia. }
      assert (length pre < length (k_procs s))%nat.
      { apply (f_equal length) in Hpre. rewrite length_app, length_seq in Hpre.
        simpl in Hpre. lia. }
      unfold wp. rewrite wakeup_one_ok; simpl; [|done|rewrite length_imap; lia].
      rewrite set_k_procs_twice. f_equal. apply list_eq. intros j.
      destruct (decide (x = j)) as [Hj|Hne].
      + subst j. rewrite list_lookup_alter_eq, !list_lookup_imap.
        destruct (k_procs s !! x); [|done]. simpl.
        rewrite (decide_False (P := (x < length pre)%nat)) by lia.
        rewrite (decide_True (P := (x < length (pre ++ [x]))%nat)); [done|].
        rewrite length_app. simpl. lia.
      + rewrite list_lookup_alter_ne, !list_lookup_imap, length_app by done. simpl.
        destruct (k_procs s !! j); [|done]. simpl. f_equal.
        repeat case_decide; (done || lia).
    - intros s' ->. f_equal. apply list_eq. intros j.
      unfold wake. rewrite length_seq, !list_lookup_imap.
      destruct (k_procs s !! j) eqn:E; simpl; [|done].
      apply lookup_lt_Some in E. by rewrite decide_True by lia. }
  apply wp_run in H as ([] & s' & -> & ->). done.
Qed.

Lemma wp_wakeup ch (Q : unit -> kstate -> Prop) s :
  no_proc_lock (k_held s) -> procs_full s ->
  Q tt (set_k_procs (wake ch (k_cur s) (k_procs s)) s) -> wp (wakeup ch) Q s.
Proof. intros H1 H2 HQ. unfold wp. by rewrite wakeup_ok. Qed.

(** ** Process look-ups, and giving up the CPU *)

Lemma run_get_proc {A} i p (k : proc -> K A) s :
  k_procs s !! i = Some p -> bind (get_proc i) k s = k p s.
Proof. intros H. unfold get_proc. rewrite bind_assoc, run_gets, H. done. Qed.

Lemma run_curproc {A} c p (k : proc -> K A) s :
  k_cur s = Some c -> k_procs s !! c = Some p -> bind curproc k s = k p s.
Proof.
  intros Hc Hp. unfold curproc, myproc. rewrite bind_assoc, run_gets, Hc. cbn [of_option].
  by rewrite bind_assoc, run_ret, (run_get_proc c p).
Qed.

Lemma run_killed {A} i p (k : bool -> K A) s :
  LkProc i ∉ k_held s -> k_procs s !! i = Some p -> bind (killed i) k s = k (p_killed p) s.
Proof.
  intros Hl Hp. unfold killed. rewrite bind_assoc, run_acquire by done.
  rewrite bind_assoc, (run_get_proc i p) by done.
  rewrite bind_assoc, (run_release _ (k_held s)) by done. rewrite run_ret. by destruct s.
Qed.

(** Process [pr] gives up the CPU holding its own lock only, asleep on [ch]. *)
Definition asleep (pr : nat) (ch : chan) (s : kstate) : kstate :=
  set_k_held [LkProc pr] (set_k_procs (alter (fun p => set_p_state SLEEPING (set_p_chan (Some ch) p)) pr
    (k_procs s)) s).

(** What sleep does when it is resumed. *)
Definition resume (pr : nat) (lk : lockid) : K unit :=
  upd_proc pr (set_p_chan None) ;; release (LkProc pr) ;; acquire lk.

Lemma run_sleep {A} pr ch lk (k : unit -> K A) s :
  k_cur s = Some pr -> (pr < length (k_procs s))%nat -> k_held s = [lk] -> lk <> LkProc pr ->
  bind (sleep ch lk) k s = Sleep (asleep pr ch s) (bind (resume pr lk) k).
Proof.
  intros Hc Hp Hh Hne. destruct (lookup_lt_is_Some_2 _ _ Hp) as [p Ep].
  unfold sleep, myproc. rewrite bind_assoc, run_gets, Hc. cbn [of_option].
  rewrite bind_assoc, run_ret, bind_assoc, run_acquire by (rewrite Hh; set_solver).
  unfold release at 1. unfold bind at 1 2 3. unfold gets at 1. unfold holding.
  ks. rewrite Hh, bool_decide_eq_true_2 by set_solver. cbn [obind].
  unfold modify at 1. cbn [obind]. ks.
  assert (remove_lock lk [LkProc pr; lk] = [LkProc pr]) as ->.
  { unfold remove_lock. rewrite decide_False by congruence. by rewrite decide_True. }
  unfold upd_proc at 1, get_proc at 1. unfold bind at 1 2 3, gets at 1. cbn [obind]. ks.
  rewrite Ep. cbn [of_option ret obind]. unfold modify at 1. cbn [obind].
  unfold upd_proc at 1, get_proc at 1. unfold bind at 1 2 3, gets at 1. cbn [obind]. ks.
  rewrite list_lookup_insert_eq by done. cbn [of_option ret obind]. unfold modify at 1. cbn [obind].
  set (s1 := set_k_procs _ _).
  assert (Hs : sched s1 = Sleep s1 (Ret tt)).
  { unfold sched, myproc. rewrite run_gets. unfold s1; ks. rewrite Hc. cbn [of_option]. rewrite run_ret, run_gets.
    unfold holding. ks. rewrite bool_decide_eq_true_2 by set_solver.
    rewrite (run_get_proc pr (set_p_state SLEEPING (set_p_chan (Some ch) p))), run_gets.
    2:{ ks. by rewrite list_lookup_insert_eq by (by rewrite length_insert). }
    ks. cbn [length negb]. rewrite bool_decide_eq_true_2 by done. done. }
  unfold bind at 1. rewrite Hs. cbn [obind]. f_equal.
  unfold s1, asleep. rewrite (list_alter_insert _ _ _ p) by done. ks.
  by rewrite list_insert_insert_eq.
Qed.

