(* ===== verification/Kalloc.v ===== *)
(** kernel/kalloc.c: the physical page allocator.

    The free list is threaded through the free pages themselves: the first
    eight bytes of a free page hold the address of the next one. *)

From stdpp Require Import base numbers list gmap strings.
From S2P Require Import Prelude Params Mem KString State Locks.

#[local] Opaque memset st64 ld64.

Section Kalloc.
Context {L : Layout}.

Definition kfree (pa : Z) : K unit :=
  if negb (pa mod PGSIZE =? 0) || (pa <? kend) || (PHYSTOP <=? pa)
  then panic "kfree"
  else
    (* Fill with junk to catch dangling refs. *)
    modify (fun s => set_k_mem (memset pa 1 PGSIZE (k_mem s)) s) ;;
    acquire LkKmem ;;
    modify (fun s => set_k_mem (st64 (k_mem s) pa (k_freelist s)) s) ;;
    modify (set_k_freelist pa) ;;
    release LkKmem.

Definition kalloc : K Z :=
  acquire LkKmem ;;
  let! r := gets k_freelist in
  when (negb (r =? 0))
    (modify (fun s => set_k_freelist (ld64 (k_mem s) r) s)) ;;
  release LkKmem ;;
  when (negb (r =? 0))
    (modify (fun s => set_k_mem (memset r 5 PGSIZE (k_mem s)) s)) ;;
  ret r.

(** [for(; p + PGSIZE <= pa_end; p += PGSIZE) kfree(p)] *)
Definition freerange (fuel : nat) (pa_start pa_end : Z) : K unit :=
  loop fuel
    (fun p =>
       if p + PGSIZE <=? pa_end
       then kfree p ;; ret (inl (p + PGSIZE))
       else ret (inr tt))
    (PGROUNDUP pa_start).

(** One round of the loop per page below [PHYSTOP], and the last test. *)
Definition kinit : K unit :=
  freerange (Z.to_nat ((PHYSTOP - kend) / PGSIZE + 2)) kend PHYSTOP.

(** ** The free list as a list of pages *)

Definition free_page (p : Z) : Prop := p mod PGSIZE = 0 /\ kend <= p < PHYSTOP.

Fixpoint chain (m : memory) (head : Z) (l : list Z) : Prop :=
  match l with
  | [] => head = 0
  | p :: l' => head = p /\ chain m (ld64 m p) l'
  end.

(** [kmem_inv s l]: the allocator's free pages, in order, are [l]. *)
Record kmem_inv (s : kstate) (l : list Z) : Prop := {
  kmem_chain : chain (k_mem s) (k_freelist s) l;
  kmem_nodup : NoDup l;
  kmem_pages : Forall free_page l;
}.

Definition in_page (p x : Z) : Prop := p <= x < p + PGSIZE.

Lemma in_page_disjoint p q x :
  p mod PGSIZE = 0 -> q mod PGSIZE = 0 -> p <> q -> in_page p x -> ~ in_page q x.
Proof. unfold in_page. intros Hp Hq Hne Hx Hx'. plia. Qed.

(** Only the bytes of the free pages matter to the list. *)
Lemma chain_frame m m' h l :
  (forall p x, p ∈ l -> in_page p x -> rd m' x = rd m x) ->
  chain m h l -> chain m' h l.
Proof.
  revert h. induction l as [|p l IH]; intros h Hm; simpl; [done|].
  intros [-> Hc]. split; [done|].
  rewrite (ld64_ext m m').
  - apply IH; [|done]. intros q x Hq. apply Hm. by right.
  - intros x Hx. apply (Hm p); [by left|]. unfold in_page. plia.
Qed.

Section WithOk.
Context {LO : LayoutOk L}.

Lemma free_page_pos p : free_page p -> 0 < p < 2 ^ 54.
Proof using LO. intros [_ Hp]. pose proof kend_range. plia. Qed.

Lemma kfree_guard pa :
  negb (pa mod PGSIZE =? 0) || (pa <? kend) || (PHYSTOP <=? pa) = false <->
  free_page pa.
Proof using Type.
  unfold free_page. rewrite !orb_false_iff, negb_false_iff, Z.eqb_eq, Z.ltb_ge, Z.leb_gt.
  tauto.
Qed.

Definition kfree_mem (pa : Z) (s : kstate) : memory :=
  st64 (memset pa 1 PGSIZE (k_mem s)) pa (k_freelist s).

Lemma kfree_run pa s :
  free_page pa -> LkKmem ∉ k_held s ->
  kfree pa s = Ret tt (set_k_freelist pa (set_k_mem (kfree_mem pa s) s)).
Proof using Type.
  intros Hp Hl. unfold kfree. rewrite (proj2 (kfree_guard pa) Hp).
  run_steps. rewrite run_acquire by done. run_steps.
  rewrite (release_ok _ (k_held s)) by done. unfold kfree_mem. ks. reflexivity.
Qed.

Lemma kfree_panics pa s : ~ free_page pa -> kfree pa s = Panic "kfree" s.
Proof using Type.
  intros Hp. unfold kfree.
  destruct (negb _ || _ || _) eqn:E; [done|]. by apply kfree_guard in E.
Qed.

Lemma rd_kfree_mem pa s x :
  ~ in_page pa x -> rd (kfree_mem pa s) x = rd (k_mem s) x.
Proof using Type.
  unfold in_page. intros Hx. unfold kfree_mem.
  rewrite rd_st64_out by plia. rewrite rd_memset by plia. by rewrite decide_False.
Qed.

(** *** kfree pushes the page *)
Lemma kfree_spec pa s l :
  kmem_inv s l -> free_page pa -> pa ∉ l -> LkKmem ∉ k_held s ->
  exists s', kfree pa s = Ret tt s' /\ kmem_inv s' (pa :: l) /\
    s' = set_k_freelist pa (set_k_mem (kfree_mem pa s) s).
Proof using LO.
  intros [Hc Hnd Hpg] Hp Hnin Hl. eexists. split; [by apply kfree_run|].
  split; [|done]. split; simpl.
  - split; [done|]. unfold kfree_mem at 2. rewrite ld64_st64.
    rewrite u64_small.
    + eapply chain_frame; [|exact Hc]. intros q x Hq Hx. apply rd_kfree_mem.
      intros Hx'. rewrite Forall_forall in Hpg.
      eapply (in_page_disjoint q pa); eauto; [apply Hpg, Hq | apply Hp |].
      by intros ->.
    + destruct l as [|q l]; simpl in Hc; [lia|]. destruct Hc as [-> _].
      inversion Hpg as [|? ? Hq _]; subst. apply free_page_pos in Hq. lia.
  - by constructor.
  - by constructor.
Qed.

(** *** kalloc pops a page, or returns 0 when there is none *)
Lemma kalloc_empty s :
  kmem_inv s [] -> LkKmem ∉ k_held s -> kalloc s = Ret 0 s.
Proof using Type.
  intros [Hc _ _] Hl. simpl in Hc. unfold kalloc.
  rewrite run_acquire by done.
  run_steps. simpl k_freelist. rewrite Hc. simpl Z.eqb. cbv beta iota delta [negb].
  run_steps. rewrite (run_release _ (k_held s)) by done.
  run_steps. by destruct s.
Qed.

Lemma kalloc_run s p l :
  kmem_inv s (p :: l) -> LkKmem ∉ k_held s ->
  kalloc s = Ret p (set_k_mem (memset p 5 PGSIZE (k_mem s))
                      (set_k_freelist (ld64 (k_mem s) p) s)).
Proof using LO.
  intros [Hc _ Hpg] Hl. simpl in Hc. destruct Hc as [Hf _].
  inversion Hpg as [|? ? Hp _]; subst.
  pose proof (free_page_pos _ Hp) as Hpos.
  unfold kalloc.
  rewrite run_acquire by done.
  run_steps. simpl k_freelist.
  destruct (Z.eqb_spec (k_freelist s) 0) as [|_]; [lia|]. simpl negb.
  run_steps. rewrite (run_release _ (k_held s)) by done.
  run_steps. by destruct s.
Qed.

Lemma kalloc_spec s p l :
  kmem_inv s (p :: l) -> LkKmem ∉ k_held s ->
  exists s', kalloc s = Ret p s' /\ kmem_inv s' l /\ free_page p /\ (p ∉ l) /\
    s' = set_k_mem (memset p 5 PGSIZE (k_mem s))
           (set_k_freelist (ld64 (k_mem s) p) s).
Proof using LO.
  intros Hinv Hl. eexists. split; [by eapply kalloc_run|].
  destruct Hinv as [Hc Hnd Hpg]. simpl in Hc. destruct Hc as [Hf Hc].
  apply NoDup_cons in Hnd as [Hnin Hnd]. apply Forall_cons in Hpg as [Hp Hpg].
  split_and!; [split|..]; simpl; try done.
  eapply chain_frame; [|exact Hc]. intros q x Hq Hx.
  rewrite rd_memset by plia. rewrite decide_False; [done|].
  rewrite Forall_forall in Hpg.
  apply (in_page_disjoint q p); [by apply Hpg | apply Hp | by intros -> | done].
Qed.

(** ** Boot: [kinit] *)

(** The [n] pages from [p] upwards. *)
Fixpoint pages_from (p : Z) (n : nat) : list Z :=
  match n with O => [] | S n' => p :: pages_from (p + PGSIZE) n' end.

Lemma elem_of_pages_from p n q :
  p mod PGSIZE = 0 ->
  q ∈ pages_from p n <-> q mod PGSIZE = 0 /\ p <= q < p + PGSIZE * Z.of_nat n.
Proof using Type.
  revert p. induction n as [|n IH]; intros p Hp; cbn [pages_from].
  - split; [by intros ?%not_elem_of_nil | plia].
  - rewrite elem_of_cons, IH by plia. split; [intros [->|?]; plia|].
    intros [Hq ?]. destruct (decide (q = p)); [by left|right]. plia.
Qed.

Lemma freerange_loop n fuel p s l :
  (n < fuel)%nat -> p mod PGSIZE = 0 -> kend <= p ->
  p + PGSIZE * Z.of_nat n <= PHYSTOP < p + PGSIZE * (Z.of_nat n + 1) ->
  kmem_inv s l -> Forall (fun q => q < p) l -> LkKmem ∉ k_held s ->
  exists s',
    loop fuel (fun p => if p + PGSIZE <=? PHYSTOP
                        then kfree p ;; ret (inl (p + PGSIZE))
                        else ret (inr tt)) p s = Ret tt s' /\
    kmem_inv s' (reverse (pages_from p n) ++ l) /\ k_held s' = k_held s.
Proof using LO.
  revert fuel p s l. induction n as [|n IH]; intros fuel p s l Hf Hp Hk Hr Hinv Hlt Hl;
    (destruct fuel as [|fuel]; [lia|]); cbn [loop].
  - destruct (Z.leb_spec (p + PGSIZE) PHYSTOP); [plia|]. by exists s.
  - destruct (Z.leb_spec (p + PGSIZE) PHYSTOP); [|plia].
    assert (free_page p) as Hfp by (split; plia).
    destruct (kfree_spec p s l Hinv Hfp) as (s1 & E & Hinv1 & Hs1); [|done|].
    { intros Hin. rewrite Forall_forall in Hlt. apply Hlt in Hin. lia. }
    rewrite bind_assoc, (bind_Ret _ _ _ _ _ E), run_ret.
    destruct (IH fuel (p + PGSIZE) s1 (p :: l)) as (s2 & E2 & Hinv2 & Hh2);
      try plia; try done.
    { constructor; [plia|]. eapply Forall_impl; [exact Hlt|]. simpl. plia. }
    { by subst s1. }
    exists s2. split_and!; [done| |by subst s1].
    cbn [pages_from]. by rewrite reverse_cons, <- app_assoc.
Qed.

(** Boot: from an empty allocator, [kinit] returns, and the free list
    it leaves holds exactly the page-aligned frames between the end of the
    kernel and PHYSTOP, each once. *)
Theorem kinit_frees_all_ram s :
  k_freelist s = 0 -> LkKmem ∉ k_held s ->
  exists s' l, kinit s = Ret tt s' /\ kmem_inv s' l /\
    (forall p, p ∈ l <-> free_page p) /\ k_held s' = k_held s.
Proof using LO.
  intros Hf Hl. pose proof kend_range as Hr.
  assert (PGROUNDUP kend = (kend + 4095) / PGSIZE * PGSIZE) as Hup
    by (apply PGROUNDUP_spec; plia).
  set (p := PGROUNDUP kend) in *.
  set (n := Z.to_nat ((PHYSTOP - p) / PGSIZE)).
  destruct (freerange_loop n (Z.to_nat ((PHYSTOP - kend) / PGSIZE + 2)) p s [])
    as (s' & E & Hinv & Hh); [unfold n; plia..| |constructor|done|].
  { split; [done|constructor|constructor]. }
  exists s', (reverse (pages_from p n) ++ []). split_and!; [done..| |done].
  intros q. rewrite app_nil_r, elem_of_reverse, elem_of_pages_from by plia.
  unfold free_page, n. plia.
Qed.

(** ** Clients of the allocator *)

Inductive request := AllocPage | FreePage (p : Z).

(** A client that frees only pages it owns; [owned] are the pages it was
    given and has not returned. *)
Fixpoint run_client (rs : list request) (owned : list Z) : K (list Z) :=
  match rs with
  | [] => ret owned
  | AllocPage :: rs' =>
      let! p := kalloc in
      run_client rs' (if p =? 0 then owned else p :: owned)
  | FreePage p :: rs' =>
      if bool_decide (p ∈ owned)
      then kfree p ;; run_client rs' (filter (.≠ p) owned)
      else run_client rs' owned
  end.

Lemma filter_ne_perm (p : Z) (l : list Z) :
  NoDup l -> p ∈ l -> p :: filter (.≠ p) l ≡ₚ l.
Proof using Type.
  intros Hnd Hin. apply NoDup_Permutation.
  - constructor; [rewrite list_elem_of_filter; naive_solver|by apply NoDup_filter].
  - done.
  - intros x. rewrite elem_of_cons, list_elem_of_filter.
    destruct (decide (x = p)) as [->|]; naive_solver.
Qed.

(** C13. No page is ever handed out twice: whatever a client requests, as
    long as it frees only pages it owns, the allocator neither panics nor
    gets stuck, the pages it owns stay distinct and off the free list, and
    owned and free pages together are always the same set of pages. *)
Theorem allocator_conserves_pages rs owned s l :
  kmem_inv s l -> NoDup (owned ++ l) -> Forall free_page owned ->
  LkKmem ∉ k_held s ->
  exists owned' s' l', run_client rs owned s = Ret owned' s' /\
    kmem_inv s' l' /\ NoDup (owned' ++ l') /\ owned' ++ l' ≡ₚ owned ++ l.
Proof using LO.
  revert owned s l. induction rs as [|[|p] rs IH]; intros owned s l Hinv Hnd Hfo Hl.
  - by exists owned, s, l.
  - cbn [run_client]. destruct l as [|p l].
    { rewrite (bind_Ret _ _ _ _ _ (kalloc_empty s Hinv Hl)).
      rewrite Z.eqb_refl. by apply IH. }
    destruct (kalloc_spec s p l Hinv Hl) as (s1 & E & Hinv1 & Hp & _ & Hs1).
    rewrite (bind_Ret _ _ _ _ _ E).
    pose proof (free_page_pos _ Hp). destruct (Z.eqb_spec p 0); [lia|].
    assert ((p :: owned) ++ l ≡ₚ owned ++ p :: l) as HP by (simpl; by rewrite Permutation_middle).
    destruct (IH (p :: owned) s1 l) as (o' & s' & l' & ? & ? & ? & Hperm).
    { done. } { by rewrite HP. } { by constructor. } { by subst s1. }
    exists o', s', l'. split_and!; try done. by rewrite Hperm.
  - cbn [run_client]. case_bool_decide as Hin; [|by apply IH].
    assert (p ∉ l) as Hnin.
    { intros ?. apply NoDup_app in Hnd as (_ & Hd & _). by eapply Hd. }
    assert (free_page p) as Hp by (by rewrite Forall_forall in Hfo; apply Hfo).
    destruct (kfree_spec p s l Hinv Hp Hnin Hl) as (s1 & E & Hinv1 & Hs1).
    rewrite (bind_Ret _ _ _ _ _ E).
    assert (filter (.≠ p) owned ++ p :: l ≡ₚ owned ++ l) as HP.
    { rewrite <- Permutation_middle, app_comm_cons, filter_ne_perm; [done| |done].
      by apply NoDup_app in Hnd as [? _]. }
    destruct (IH (filter (.≠ p) owned) s1 (p :: l)) as (o' & s' & l' & ? & ? & ? & Hperm).
    { done. } { by rewrite HP. } { rewrite Forall_forall in *. intros q [_ Hq]%list_elem_of_filter. by apply Hfo. } { by subst s1. }
    exists o', s', l'. split_and!; try done. by rewrite Hperm.
Qed.
End WithOk.
End Kalloc.

(** The kernel image of the repository boots with every frame above it free. *)
Lemma kinit_frees_all_ram_witness :
  exists s' l, @kinit kernel_sym (kstate0 ∅ empty_disk) = Ret tt s' /\
    @kmem_inv kernel_sym s' l /\
    (forall p, p ∈ l <-> @free_page kernel_sym p) /\ k_held s' = [].
Proof.
  exact (@kinit_frees_all_ram kernel_sym kernel_sym_ok (kstate0 ∅ empty_disk) eq_refl
           (not_elem_of_nil _)).
Defined.

(** Two pages on the list, one owned: allocate both, return the owned one. *)
Definition two_free : kstate :=
  set_k_freelist 0x80024000
    (set_k_mem (st64 ∅ 0x80024000 0x80025000) (kstate0 ∅ empty_disk)).

Lemma allocator_conserves_pages_witness :
  exists owned' s' l',
    @run_client kernel_sym [AllocPage; FreePage 0x80026000; AllocPage; AllocPage]
      [0x80026000] two_free = Ret owned' s' /\
    @kmem_inv kernel_sym s' l' /\ NoDup (owned' ++ l') /\
    owned' ++ l' ≡ₚ [0x80026000] ++ [0x80024000; 0x80025000].
Proof.
  apply (@allocator_conserves_pages kernel_sym kernel_sym_ok).
  - split.
    + vm_compute. auto.
    + apply (bool_decide_unpack _). vm_compute. exact I.
    + apply (bool_decide_unpack _). vm_compute. exact I.
  - apply (bool_decide_unpack _). vm_compute. exact I.
  - apply (bool_decide_unpack _). vm_compute. exact I.
  - apply not_elem_of_nil.
Defined.
