(* ===== verification/Dll.v ===== *)
(** Circular doubly-linked lists as pairs of link functions: [n x] and [p x]
    are the next and previous node of [x]. [ring n p h l] says that following
    [n] from the head [h] visits exactly [l] and comes back, and that [p]
    goes the other way round. The buffer cache's LRU list is one. *)

From stdpp Require Import base numbers list.
From S2P Require Import Prelude.

Section Dll.
Implicit Types (n p : nat -> nat) (l : list nat) (x y h b : nat).

Fixpoint links n p x l : Prop :=
  match l with
  | [] => True
  | y :: l' => n x = y /\ p y = x /\ links n p y l'
  end.

Definition ring n p h l : Prop := links n p h (l ++ [h]).

Definition fupd (f : nat -> nat) x v : nat -> nat :=
  fun y => if decide (y = x) then v else f y.

Lemma fupd_eq f x v : fupd f x v x = v.
Proof. unfold fupd. by rewrite decide_True. Qed.
Lemma fupd_ne f x v y : y <> x -> fupd f x v y = f y.
Proof. intros. unfold fupd. by rewrite decide_False. Qed.

Lemma links_app n p x l1 y l2 :
  links n p x (l1 ++ y :: l2) <-> links n p x (l1 ++ [y]) /\ links n p y l2.
Proof.
  revert x. induction l1 as [|z l1 IH]; intros x; simpl; [tauto|]. rewrite IH. tauto.
Qed.

Lemma last_cons_default (z x : nat) l : List.last (z :: l) x = List.last l z.
Proof.
  destruct l as [|w l]; [done|].
  change (List.last (w :: l) x = List.last (w :: l) z).
  revert w. induction l as [|v l IH]; intros w; [done|]. apply (IH v).
Qed.

(** The last link of a chain. *)
Lemma links_snoc n p x l y :
  links n p x (l ++ [y]) <->
  links n p x l /\ n (List.last l x) = y /\ p y = List.last l x.
Proof.
  revert x. induction l as [|z l IH]; intros x; [simpl; tauto|].
  cbn [app links]. rewrite IH, last_cons_default. tauto.
Qed.

Lemma elem_of_last x l : List.last l x ∈ x :: l.
Proof.
  revert x. induction l as [|y l IH]; intros x; [by left|].
  destruct l as [|z l]; [simpl; right; by left|].
  change (List.last (y :: z :: l) x) with (List.last (z :: l) x).
  specialize (IH x). apply elem_of_cons in IH as [->|IH]; [by left|]. right. by right.
Qed.

(** A chain [x, l] survives a change of links outside it: [n] may change at
    the last node and outside, [p] at the first node and outside. *)
Lemma links_frame n p n' p' x l :
  links n p x l ->
  (forall z, z ∈ removelast (x :: l) -> n' z = n z) ->
  (forall z, z ∈ l -> p' z = p z) ->
  links n' p' x l.
Proof.
  revert x. induction l as [|y l IH]; intros x Hl Hn Hp; [done|].
  destruct Hl as (H1 & H2 & H3). split_and!.
  - rewrite Hn; [done|]. cbn [removelast]. by left.
  - rewrite Hp; [done|by left].
  - apply IH; [done| |].
    + intros z Hz. apply Hn. cbn [removelast]. by right.
    + intros z Hz. apply Hp. by right.
Qed.

Lemma elem_of_removelast_snoc z l x : z ∈ removelast (l ++ [x]) -> z ∈ l.
Proof. by rewrite removelast_last. Qed.

Lemma elem_of_removelast z l : z ∈ removelast l -> z ∈ l.
Proof.
  induction l as [|y l IH]; [done|]. cbn [removelast]. destruct l as [|w l].
  - by intros ?%not_elem_of_nil.
  - rewrite elem_of_cons. intros [->|H]; [by left|]. right. auto.
Qed.

Lemma removelast_cons_last z x l :
  NoDup (x :: l) -> z ∈ removelast (x :: l) -> z <> List.last l x.
Proof.
  intros Hnd Hz ->. assert (x :: l = removelast (x :: l) ++ [List.last l x]) as E.
  { rewrite (app_removelast_last x (l := x :: l)) at 1 by done.
    do 2 f_equal. simpl. by destruct l. }
  rewrite E in Hnd. apply NoDup_app in Hnd as (_ & Hd & _).
  apply (Hd _ Hz). constructor.
Qed.

(** Taking [b] out: its neighbours are linked to each other. *)
Lemma ring_unlink n p h l1 b l2 :
  NoDup (h :: l1 ++ b :: l2) -> ring n p h (l1 ++ b :: l2) ->
  ring (fupd n (p b) (n b)) (fupd p (n b) (p b)) h (l1 ++ l2).
Proof.
  unfold ring. intros Hnd Hr.
  rewrite <- app_assoc in Hr. cbn [app] in Hr.
  apply links_app in Hr as [Hl Hr]. apply links_snoc in Hl as (Hl & Hx & Hpb).
  rewrite Hpb. set (x := List.last l1 h) in *.
  assert (x ∈ h :: l1) as Hxin by apply elem_of_last.
  rewrite app_comm_cons in Hnd. apply NoDup_app in Hnd as (Hnd1 & Hd & Hnd2).
  apply NoDup_cons in Hnd2 as [Hbnin Hnd2].
  assert (exists y r, l2 ++ [h] = y :: r) as (y & r & Er) by (destruct l2; eauto).
  rewrite <- app_assoc, Er in *. simpl in Hr. destruct Hr as (Hnb & Hpy & Hr).
  rewrite Hnb.
  assert ((y ∉ r) /\ (y ∉ l1) /\ (x ∉ removelast (y :: r))) as (Hyr & Hyl & Hxr).
  { assert (forall z, z ∈ h :: l1 -> z ∉ l2) as Hd'.
    { intros z Hz Hz'. apply (Hd z Hz). by right. }
    rewrite <- Er, removelast_last. split_and!; [| |by apply Hd'].
    - assert (h ∉ l2) as Hh by (apply Hd'; by left). destruct l2 as [|y' l2]; simplify_eq/=.
      + apply not_elem_of_nil.
      + apply NoDup_cons in Hnd2 as [? _]. rewrite elem_of_app, elem_of_cons.
        apply not_elem_of_cons in Hh as [? _].
        intros [?|[?|[]%not_elem_of_nil]]; congruence.
    - intros Hy. assert (y ∈ l2 ++ [h]) as Hy' by (rewrite Er; by left).
      apply elem_of_app in Hy' as [Hy'|Hy'].
      + by apply (Hd' y); [right|].
      + apply list_elem_of_singleton in Hy' as ->.
        by apply NoDup_cons in Hnd1 as [? _]. }
  apply links_app. split; [apply links_snoc; split_and!|].
  - eapply links_frame; [done| |].
    + intros z Hz. apply fupd_ne. by eapply removelast_cons_last.
    + intros z Hz. apply fupd_ne. by intros ->.
  - fold x. apply fupd_eq.
  - fold x. apply fupd_eq.
  - eapply links_frame; [done| |].
    + intros z Hz. apply fupd_ne. by intros ->.
    + intros z Hz. apply fupd_ne. by intros ->.
Qed.

(** Putting [b], not in the ring, at its front: the four assignments of the
    source, in order. *)
Lemma ring_push n p h l b :
  NoDup (h :: l) -> b ∉ h :: l -> ring n p h l ->
  ring (fupd (fupd n b (n h)) h b) (fupd (fupd p b h) (n h) b) h (b :: l).
Proof.
  unfold ring. intros Hnd Hb Hr. apply not_elem_of_cons in Hb as [Hbh Hbl].
  assert (exists y r, l ++ [h] = y :: r) as (y & r & Er) by (destruct l; eauto).
  assert (forall z, z ∈ y :: r -> z ∈ h :: l) as Hin.
  { intros z. rewrite <- Er, elem_of_app, list_elem_of_singleton, elem_of_cons. tauto. }
  cbn [app]. rewrite Er in *. destruct Hr as (Hy & Hpy & Hr). rewrite Hy in *.
  apply NoDup_cons in Hnd as [Hhl Hnd].
  assert (b <> y) as Hby.
  { intros ->. assert (y ∈ h :: l) as [?|?]%elem_of_cons by (apply Hin; by left); congruence. }
  assert ((y ∉ r) /\ (h ∉ removelast (y :: r))) as [Hyr Hhr].
  { rewrite <- Er, removelast_last. split; [|done].
    destruct l as [|y' l]; simplify_eq/=; [apply not_elem_of_nil|].
    apply NoDup_cons in Hnd as [? _]. apply not_elem_of_cons in Hhl as [? ?].
    rewrite elem_of_app, list_elem_of_singleton. naive_solver. }
  cbn [links]. split_and!.
  - apply fupd_eq.
  - rewrite fupd_ne by done. apply fupd_eq.
  - rewrite fupd_ne, fupd_eq by done. done.
  - apply fupd_eq.
  - eapply links_frame; [done| |].
    + intros z Hz. assert (z <> h) by (by intros ->).
      rewrite !fupd_ne; [done| |done]. intros ->. apply elem_of_removelast in Hz.
      apply Hin, elem_of_cons in Hz as [?|?]; congruence.
    + intros z Hz. rewrite !fupd_ne; [done|intros ->|by intros ->].
      assert (b ∈ h :: l) as [?|?]%elem_of_cons; [|congruence|done].
      apply Hin. by right.
Qed.

(** The ring only depends on the links of its nodes. *)
Lemma ring_ext n p n' p' h l :
  (forall z, z ∈ h :: l -> n' z = n z) -> (forall z, z ∈ h :: l -> p' z = p z) ->
  ring n p h l -> ring n' p' h l.
Proof.
  intros Hn Hp Hr. eapply links_frame; [done| |].
  - intros z Hz. apply Hn. rewrite app_comm_cons, removelast_last in Hz. done.
  - intros z Hz. apply Hp. rewrite elem_of_app, list_elem_of_singleton in Hz.
    rewrite elem_of_cons. tauto.
Qed.

Lemma ring_first n p h l : ring n p h l -> n h = hd h l.
Proof. unfold ring. destruct l; simpl; tauto. Qed.
Lemma ring_last n p h l : ring n p h l -> p h = List.last l h.
Proof. unfold ring. rewrite links_snoc. tauto. Qed.

(** The successor and the predecessor of a node. *)
Lemma ring_next n p h l1 b l2 :
  ring n p h (l1 ++ b :: l2) -> n b = hd h l2.
Proof.
  unfold ring. rewrite <- app_assoc. cbn [app]. rewrite links_app.
  destruct l2; simpl; tauto.
Qed.
Lemma ring_prev n p h l1 b l2 :
  ring n p h (l1 ++ b :: l2) -> p b = List.last l1 h.
Proof.
  unfold ring. rewrite <- app_assoc. cbn [app]. rewrite links_app, links_snoc. tauto.
Qed.
End Dll.
