(* ===== verification/Cache.v ===== *)
(** The block cache as its clients see it: the interface between the file
    system (log.c, fs.c) and the buffer cache (bio.c), and the interface
    between the buffer cache and the disk driver (virtio_disk.c).

    A client's theorems are proved against [BlockCache]; Bio.v shows that
    kernel/bio.c is an instance of it. *)

From stdpp Require Import base numbers list gmap strings.
From S2P Require Import Prelude Params Mem State Locks.

(** ** Buffers and disk blocks *)

Definition nbuf : nat := Z.to_nat NBUF.

(** [b->f] for a buffer [b]. *)
Definition get_buf (i : nat) : K buf :=
  let! bs := gets k_bufs in of_option (bs !! i).

Definition upd_buf (i : nat) (f : buf -> buf) : K unit :=
  let! b := get_buf i in
  modify (fun s => set_k_bufs (<[i := f b]> (k_bufs s)) s).

(** [b->data] and stores into it. *)
Definition bdata (i : nat) : K (list Z) := let! b := get_buf i in ret (b_data b).
Definition set_bdata (i : nat) (d : list Z) : K unit := upd_buf i (set_b_data d).

Definition block_ok (d : list Z) : Prop := length d = Z.to_nat BSIZE /\ is_bytes d.

(** What the disk holds at a block. *)
Definition dblk (d : disk) (bno : Z) : list Z :=
  default (replicate (Z.to_nat BSIZE) 0) (d_blocks d !! bno).

Definition disk_ok (d : disk) : Prop := forall bno, block_ok (dblk d bno).

Definition disk_write (bno : Z) (data : list Z) (d : disk) : disk :=
  mk_disk (<[bno := data]> (d_blocks d)) ((bno, data) :: d_trace d).

Definition vupd (V : Z -> list Z) (bno : Z) (d : list Z) : Z -> list Z :=
  fun x => if decide (x = bno) then d else V x.

Lemma dblk_write bno data d x :
  dblk (disk_write bno data d) x = vupd (dblk d) bno data x.
Proof.
  unfold dblk, disk_write, vupd. simpl. case_decide as E.
  - subst. by rewrite lookup_insert_eq.
  - by rewrite lookup_insert_ne.
Qed.

Lemma disk_ok_write bno data d :
  disk_ok d -> block_ok data -> disk_ok (disk_write bno data d).
Proof. intros Hd Hb x. rewrite dblk_write. unfold vupd. by case_decide. Qed.

(** ** The processes while one of them uses the cache *)

(** Sleepers may be woken; nothing else of a process changes. *)
Definition woken (p p' : proc) : Prop :=
  p' = p \/ (p_state p = SLEEPING /\ p' = set_p_state RUNNABLE p).

Definition procs_woken : relation (list proc) := Forall2 woken.

#[export] Instance woken_preorder : PreOrder woken.
Proof.
  split; [by left|]. intros p q r [->|[Hp ->]]; [done|].
  intros [->|[Hq _]]; [by right|]. done.
Qed.

#[export] Instance procs_woken_preorder : PreOrder procs_woken.
Proof. unfold procs_woken. split; apply _. Qed.

Lemma wake_woken ch cur ps : procs_woken ps (wake ch cur ps).
Proof.
  apply Forall2_same_length_lookup_2; [by rewrite length_wake|].
  intros i p p' Hp. rewrite lookup_wake, Hp. simpl. intros [= <-].
  case_decide; [by left|]. destruct (wake1_cases ch p) as [->|(? & ? & ->)];
    [by left|by right].
Qed.

(** The process that runs, by its pid. *)
Definition running_pid (s : kstate) (pid : Z) : Prop :=
  exists i p, k_cur s = Some i /\ k_procs s !! i = Some p /\ p_pid p = pid.

Lemma running_pid_woken s s' pid :
  k_cur s' = k_cur s -> procs_woken (k_procs s) (k_procs s') ->
  running_pid s pid -> running_pid s' pid.
Proof.
  intros Hc Hw (i & p & Hi & Hp & Hpid).
  destruct (Forall2_lookup_l _ _ _ _ _ Hw Hp) as (p' & Hp' & [->|[_ ->]]);
    exists i; eexists; by rewrite Hc.
Qed.

Lemma procs_full_woken s s' :
  procs_woken (k_procs s) (k_procs s') -> procs_full s -> procs_full s'.
Proof. intros Hw. unfold procs_full. by rewrite (Forall2_length _ _ _ Hw). Qed.

(** What a cache operation may change: the buffers, the disk, and who
    sleeps. *)
Definition bio_frame (s s' : kstate) : Prop :=
  exists bs d ps, procs_woken (k_procs s) ps /\
    s' = set_k_bufs bs (set_k_disk d (set_k_procs ps s)).

#[export] Instance bio_frame_preorder : PreOrder bio_frame.
Proof.
  split.
  - intros s. exists (k_bufs s), (k_disk s), (k_procs s). split; [done|]. by destruct s.
  - intros s1 s2 s3 (bs & d & ps & Hw & ->) (bs' & d' & ps' & Hw' & ->).
    exists bs', d', ps'. split; [by etrans|done].
Qed.

Lemma bio_frame_upd s bs : bio_frame s (set_k_bufs bs s).
Proof. exists bs, (k_disk s), (k_procs s). split; [done|]. by destruct s. Qed.

(** ** The interfaces *)

(** The effect of a completed disk request: a write stores the buffer's
    data in its block, a read fetches them. *)
Definition disk_rw (i : nat) (write : bool) (b : buf) (s : kstate) : kstate :=
  if write then set_k_disk (disk_write (b_blockno b) (b_data b) (k_disk s)) s
  else set_k_bufs (<[i := set_b_data (dblk (k_disk s) (b_blockno b)) b]> (k_bufs s)) s.

(** The driver sleeps until the device reports completion, so its caller
    holds no spinlock. *)
Class DiskDriver := {
  virtio_disk_rw : nat -> bool -> K unit;
  virtio_disk_rw_ok : forall i write b s,
    k_bufs s !! i = Some b -> k_held s = [] ->
    exists ps, procs_woken (k_procs s) ps /\
      virtio_disk_rw i write s = Ret tt (set_k_procs ps (disk_rw i write b s));
}.

(** The state the boot code finds: buffers never used, and a process. *)
Record boot_state (pid : Z) (s : kstate) : Prop := {
  boot_len : length (k_bufs s) = S nbuf;
  boot_fresh : forall i b, (i < nbuf)%nat -> k_bufs s !! i = Some b ->
    b_dev b <> ROOTDEV /\ b_refcnt b = 0 /\ sl_locked (b_lock b) = false;
  boot_disk : disk_ok (k_disk s);
  boot_full : procs_full s;
  boot_pid : running_pid s pid;
}.

(** A kernel that has just booted: its first process runs. *)
Definition boot_kstate (d : disk) : kstate :=
  set_k_cur (Some 0%nat)
    (set_k_procs (<[0%nat := set_p_state RUNNING (set_p_pid 1 zero_proc)]>
                    (replicate (Z.to_nat NPROC) zero_proc)) (kstate0 ∅ d)).

Lemma boot_kstate_ok d : disk_ok d -> boot_state 1 (boot_kstate d).
Proof.
  intros Hd. split; [done| |done|done|by eexists 0%nat, _].
  intros i b Hi Hb. change (k_bufs _) with (replicate (Z.to_nat (NBUF + 1)) zero_buf) in Hb.
  apply lookup_replicate in Hb as [-> _]. done.
Qed.

(** [cache_inv pid s V P H]: in state [s] the cache shows the block contents
    [V] (through the cache: changes not yet on disk included), the blocks of
    [P] are pinned, and the running process, [pid], holds the locked buffers
    [H], by block number. *)
Class BlockCache := {
  binit : K unit;
  bread : Z -> Z -> K nat;
  bwrite : nat -> K unit;
  brelse : nat -> K unit;
  bpin : nat -> K unit;
  bunpin : nat -> K unit;
  cache_inv : Z -> kstate -> (Z -> list Z) -> gset Z -> gmap Z nat -> Prop;

  cache_procs pid s V P H :
    cache_inv pid s V P H -> procs_full s /\ running_pid s pid;
  cache_block pid s V P H bno : cache_inv pid s V P H -> block_ok (V bno);
  cache_clean pid s V P H bno :
    cache_inv pid s V P H -> bno ∉ P -> H !! bno = None ->
    V bno = dblk (k_disk s) bno;
  (* a held buffer is the block *)
  cache_held pid s V P H bno i :
    cache_inv pid s V P H -> H !! bno = Some i ->
    exists b, k_bufs s !! i = Some b /\ b_data b = V bno /\ b_blockno b = bno;
  (* the holder may change its data *)
  cache_store pid s V P H bno i d b :
    cache_inv pid s V P H -> H !! bno = Some i -> block_ok d ->
    k_bufs s !! i = Some b ->
    cache_inv pid (set_k_bufs (<[i := set_b_data d b]> (k_bufs s)) s) (vupd V bno d) P H;
  (* nothing but the buffers, the disk and the processes matters *)
  cache_frame pid s s' V P H :
    cache_inv pid s V P H ->
    k_bufs s' = k_bufs s -> k_disk s' = k_disk s -> k_cur s' = k_cur s ->
    procs_woken (k_procs s) (k_procs s') -> cache_inv pid s' V P H;
  cache_ext pid s V V' P H :
    cache_inv pid s V P H -> (forall bno, V' bno = V bno) -> cache_inv pid s V' P H;

  (* after boot the cache shows the disk *)
  binit_ok pid s :
    boot_state pid s ->
    wp binit (fun _ s' => cache_inv pid s' (dblk (k_disk s)) ∅ ∅ /\
      exists bs, s' = set_k_bufs bs s) s;
  bread_ok pid s V P H bno :
    cache_inv pid s V P H -> k_held s = [] -> H !! bno = None ->
    (bno ∈ P \/ (size (P ∪ dom H) < nbuf)%nat) ->
    wp (bread ROOTDEV bno) (fun i s' =>
      cache_inv pid s' V P (<[bno := i]> H) /\ bio_frame s s' /\
      k_disk s' = k_disk s) s;
  bwrite_ok pid s V P H bno i :
    cache_inv pid s V P H -> k_held s = [] -> H !! bno = Some i ->
    wp (bwrite i) (fun _ s' =>
      cache_inv pid s' V P H /\ bio_frame s s' /\
      k_disk s' = disk_write bno (V bno) (k_disk s)) s;
  brelse_ok pid s V P H bno i :
    cache_inv pid s V P H -> k_held s = [] -> H !! bno = Some i ->
    (bno ∈ P \/ V bno = dblk (k_disk s) bno) ->
    wp (brelse i) (fun _ s' =>
      cache_inv pid s' V P (delete bno H) /\ bio_frame s s' /\
      k_disk s' = k_disk s) s;
  bpin_ok pid s V P H bno i :
    cache_inv pid s V P H -> LkBcache ∉ k_held s -> H !! bno = Some i -> bno ∉ P ->
    wp (bpin i) (fun _ s' =>
      cache_inv pid s' V ({[bno]} ∪ P) H /\ bio_frame s s' /\
      k_disk s' = k_disk s) s;
  bunpin_ok pid s V P H bno i :
    cache_inv pid s V P H -> LkBcache ∉ k_held s -> H !! bno = Some i -> bno ∈ P ->
    wp (bunpin i) (fun _ s' =>
      cache_inv pid s' V (P ∖ {[bno]}) H /\ bio_frame s s' /\
      k_disk s' = k_disk s) s;
}.

(** ** Rules *)

Lemma wp_get_buf i b (Q : buf -> kstate -> Prop) s :
  k_bufs s !! i = Some b -> Q b s -> wp (get_buf i) Q s.
Proof. intros Hb HQ. unfold get_buf. wp_steps. by eapply wp_of_option. Qed.

Lemma wp_upd_buf i b f (Q : unit -> kstate -> Prop) s :
  k_bufs s !! i = Some b ->
  Q tt (set_k_bufs (<[i := f b]> (k_bufs s)) s) -> wp (upd_buf i f) Q s.
Proof. intros Hb HQ. unfold upd_buf. wp_steps. eapply wp_get_buf; [done|]. by wp_steps. Qed.
