(* ===== verification/Bio.v ===== *)
(** kernel/bio.c: the buffer cache.

    [bcache.buf] and [bcache.head] are the list [k_bufs], the head at index
    [NBUF]; a [struct buf *] is an index. The disk driver is an interface,
    [DiskDriver]: whatever implements [virtio_disk_rw] with the effect of a
    completed disk request will do. *)

From Stdlib Require Import FunctionalExtensionality.
From stdpp Require Import base numbers list gmap strings sorting.
From S2P Require Import Prelude Params Mem State Locks Dll Cache.

Definition bhead : nat := nbuf.

(** [&b->lock]. *)
Definition buf_lock (i : nat) : slref := {|
  sl_get := let! b := get_buf i in ret (b_lock b);
  sl_set := fun lk => upd_buf i (set_b_lock lk);
  sl_spin := LkSleepBuf i;
  sl_chan := ChBufLock i;
|}.

(** ** The operations of bio.c *)

Definition binit : K unit :=
  upd_buf bhead (set_b_prev bhead) ;;
  upd_buf bhead (set_b_next bhead) ;;
  for_each (seq 0 nbuf) (fun b =>
    let! h := get_buf bhead in
    upd_buf b (set_b_next (b_next h)) ;;
    upd_buf b (set_b_prev bhead) ;;
    upd_buf b (set_b_lock (mk_sleeplock false 0)) ;;
    let! h := get_buf bhead in
    upd_buf (b_next h) (set_b_prev b) ;;
    upd_buf bhead (set_b_next b)).

Section Ops.
Context {W : Wakeups} {D : DiskDriver}.

(** The two loops of bget; each visits every buffer at most once. *)
Definition bget_cached (dev blockno : Z) : nat -> K (nat + option nat) :=
  fun b =>
    if (b =? bhead)%nat then ret (inr None)
    else
      let! bf := get_buf b in
      if (b_dev bf =? dev) && (b_blockno bf =? blockno)
      then
        upd_buf b (fun x => set_b_refcnt (u32 (b_refcnt x + 1)) x) ;;
        release LkBcache ;;
        acquiresleep (buf_lock b) ;;
        ret (inr (Some b))
      else ret (inl (b_next bf)).

Definition bget_recycle (dev blockno : Z) : nat -> K (nat + option nat) :=
  fun b =>
    if (b =? bhead)%nat then ret (inr None)
    else
      let! bf := get_buf b in
      if b_refcnt bf =? 0
      then
        upd_buf b (set_b_dev dev) ;;
        upd_buf b (set_b_blockno blockno) ;;
        upd_buf b (set_b_valid false) ;;
        upd_buf b (set_b_refcnt 1) ;;
        release LkBcache ;;
        acquiresleep (buf_lock b) ;;
        ret (inr (Some b))
      else ret (inl (b_prev bf)).

Definition bget (dev blockno : Z) : K nat :=
  acquire LkBcache ;;
  (* Is the block already cached? *)
  let! h := get_buf bhead in
  let! r := loop (S nbuf) (bget_cached dev blockno) (b_next h) in
  match r with
  | Some b => ret b
  | None =>
      (* Not cached. Recycle the least recently used unused buffer. *)
      let! h := get_buf bhead in
      let! r := loop (S nbuf) (bget_recycle dev blockno) (b_prev h) in
      match r with
      | Some b => ret b
      | None => panic "bget: no buffers"
      end
  end.

Definition bread (dev blockno : Z) : K nat :=
  let! b := bget dev blockno in
  let! bf := get_buf b in
  when (negb (b_valid bf)) (virtio_disk_rw b false ;; upd_buf b (set_b_valid true)) ;;
  ret b.

Definition bwrite (b : nat) : K unit :=
  let! h := holdingsleep (buf_lock b) in
  if negb h then panic "bwrite" else virtio_disk_rw b true.

(** Unlink [b] and insert it after the head of the list: the body of the
    [if] in brelse. *)
Definition move_to_front (b : nat) : K unit :=
  let! bf := get_buf b in
  upd_buf (b_next bf) (set_b_prev (b_prev bf)) ;;
  let! bf := get_buf b in
  upd_buf (b_prev bf) (set_b_next (b_next bf)) ;;
  let! h := get_buf bhead in
  upd_buf b (set_b_next (b_next h)) ;;
  upd_buf b (set_b_prev bhead) ;;
  let! h := get_buf bhead in
  upd_buf (b_next h) (set_b_prev b) ;;
  upd_buf bhead (set_b_next b).

Definition brelse (b : nat) : K unit :=
  let! h := holdingsleep (buf_lock b) in
  if negb h then panic "brelse"
  else
    releasesleep (buf_lock b) ;;
    acquire LkBcache ;;
    upd_buf b (fun x => set_b_refcnt (u32 (b_refcnt x - 1)) x) ;;
    let! bf := get_buf b in
    when (b_refcnt bf =? 0) (move_to_front b) ;;   (* no one is waiting for it. *)
    release LkBcache.

Definition bpin (b : nat) : K unit :=
  acquire LkBcache ;;
  upd_buf b (fun x => set_b_refcnt (u32 (b_refcnt x + 1)) x) ;;
  release LkBcache.

Definition bunpin (b : nat) : K unit :=
  acquire LkBcache ;;
  upd_buf b (fun x => set_b_refcnt (u32 (b_refcnt x - 1)) x) ;;
  release LkBcache.
End Ops.

(** The driver as one completed request per call. *)
#[refine] Definition sync_disk : DiskDriver := {|
  virtio_disk_rw i write := let! b := get_buf i in modify (disk_rw i write b)
|}.
Proof.
  intros i write b s Hb _. exists (k_procs s). split.
  - done.
  - unfold get_buf, bind, gets, modify. simpl. rewrite Hb. simpl. f_equal.
    unfold disk_rw. by destruct write; rewrite set_k_procs_id.
Defined.

(** ** The LRU list *)

Implicit Types (bs : list buf) (i : nat).

Definition nx (bs : list buf) (i : nat) : nat := b_next (default zero_buf (bs !! i)).
Definition pv (bs : list buf) (i : nat) : nat := b_prev (default zero_buf (bs !! i)).

(** A buffer without its links. *)
Definition core (b : buf) : buf := set_b_prev 0 (set_b_next 0 b).

Lemma fupd_same f x : fupd f x (f x) = f.
Proof. apply functional_extensionality. intros y. unfold fupd. by case_decide; subst. Qed.

Lemma nx_insert bs i b :
  (i < length bs)%nat -> nx (<[i := b]> bs) = fupd (nx bs) i (b_next b).
Proof.
  intros Hi. apply functional_extensionality. intros j. unfold nx, fupd. case_decide.
  - subst. by rewrite list_lookup_insert_eq.
  - by rewrite list_lookup_insert_ne.
Qed.

Lemma pv_insert bs i b :
  (i < length bs)%nat -> pv (<[i := b]> bs) = fupd (pv bs) i (b_prev b).
Proof.
  intros Hi. apply functional_extensionality. intros j. unfold pv, fupd. case_decide.
  - subst. by rewrite list_lookup_insert_eq.
  - by rewrite list_lookup_insert_ne.
Qed.

Lemma nx_lookup bs i b : bs !! i = Some b -> nx bs i = b_next b.
Proof. unfold nx. by intros ->. Qed.
Lemma pv_lookup bs i b : bs !! i = Some b -> pv bs i = b_prev b.
Proof. unfold pv. by intros ->. Qed.

(** An update that leaves the links, or only changes them. *)
Lemma nx_insert_same bs i b b' :
  bs !! i = Some b -> b_next b' = b_next b -> nx (<[i := b']> bs) = nx bs.
Proof.
  intros Hb E. rewrite nx_insert by (by eapply lookup_lt_Some).
  rewrite E, <- (nx_lookup bs i b Hb). apply fupd_same.
Qed.
Lemma pv_insert_same bs i b b' :
  bs !! i = Some b -> b_prev b' = b_prev b -> pv (<[i := b']> bs) = pv bs.
Proof.
  intros Hb E. rewrite pv_insert by (by eapply lookup_lt_Some).
  rewrite E, <- (pv_lookup bs i b Hb). apply fupd_same.
Qed.
Lemma cores_insert bs i b b' :
  bs !! i = Some b -> core b' = core b -> core <$> <[i := b']> bs = core <$> bs.
Proof.
  intros Hb E. rewrite list_fmap_insert, E. apply list_insert_id.
  by rewrite list_lookup_fmap, Hb.
Qed.

(** The cache's list, most recently used first: all [NBUF] buffers, once. *)
Record lru (bs : list buf) (l : list nat) : Prop := {
  lru_ring : ring (nx bs) (pv bs) bhead l;
  lru_perm : l ≡ₚ seq 0 nbuf;
  lru_len : length bs = S nbuf;
}.

Lemma lru_elem bs l i : lru bs l -> (i ∈ l <-> (i < nbuf)%nat).
Proof. intros [_ Hp _]. rewrite Hp, elem_of_seq. lia. Qed.

Lemma lru_nodup bs l : lru bs l -> NoDup (bhead :: l).
Proof.
  intros [_ Hp _]. rewrite Hp. constructor; [|apply NoDup_seq].
  rewrite elem_of_seq. unfold bhead. lia.
Qed.

Lemma lru_lookup bs l i : lru bs l -> (i <= nbuf)%nat -> exists b, bs !! i = Some b.
Proof. intros [_ _ Hl] Hi. apply lookup_lt_is_Some_2. lia. Qed.

Lemma lru_insert bs l i b b' :
  lru bs l -> bs !! i = Some b -> b_next b' = b_next b -> b_prev b' = b_prev b ->
  lru (<[i := b']> bs) l.
Proof.
  intros [Hr Hp Hl] Hb En Ep. split; [|done|by rewrite length_insert].
  by rewrite (nx_insert_same _ _ b), (pv_insert_same _ _ b).
Qed.

(** Following links from node to node, as the loops of bget do. *)
Fixpoint path (f : nat -> nat) (x : nat) (l : list nat) (h : nat) : Prop :=
  match l with
  | [] => x = h
  | y :: l' => x = y /\ path f (f y) l' h
  end.

Lemma links_path n p x l h : links n p x (l ++ [h]) -> path n (n x) l h.
Proof.
  revert x. induction l as [|y l IH]; intros x; simpl; [tauto|].
  intros (Hy & _ & H). split; [done|]. by apply IH.
Qed.

Lemma links_path_rev n p x l h :
  links n p h (l ++ [x]) -> path p (p x) (reverse l) h.
Proof.
  revert x. induction l as [|y l IH] using rev_ind; intros x.
  - simpl. tauto.
  - rewrite links_snoc, reverse_snoc. simpl. rewrite List.last_last.
    intros (H & _ & ->). split; [done|]. by apply IH.
Qed.

Section Find.
Context (f : nat -> nat) (P : nat -> Prop) `{forall x, Decision (P x)}.
Context (body : nat -> K (nat + option nat)) (g : nat -> kstate) (s : kstate).

(** A loop that walks [l] and stops at the first node that satisfies [P]. *)
Lemma loop_path l h x fuel :
  path f x l h -> (length l < fuel)%nat ->
  body h s = Ret (inr None) s ->
  (forall y, y ∈ l -> P y -> body y s = Ret (inr (Some y)) (g y)) ->
  (forall y, y ∈ l -> ~ P y -> body y s = Ret (inl (f y)) s) ->
  loop fuel body x s =
  match head (filter P l) with
  | Some y => Ret (Some y) (g y)
  | None => Ret None s
  end.
Proof.
  revert x fuel. induction l as [|y l IH]; intros x fuel Hp Hf Hh Hy Hn;
    (destruct fuel as [|fuel]; [lia|]); cbn [loop].
  - simpl in Hp. subst. by rewrite (bind_Ret _ _ _ _ _ Hh).
  - destruct Hp as [-> Hp]. rewrite filter_cons. case_decide as HP.
    + rewrite (bind_Ret _ _ _ _ _ (Hy y ltac:(left) HP)). done.
    + rewrite (bind_Ret _ _ _ _ _ (Hn y ltac:(left) HP)).
      apply IH; [done|simpl in Hf; lia|done| |];
        intros z Hz; [apply Hy|apply Hn]; by right.
Qed.
End Find.

(** ** Sleep-locks of buffers *)

Section SleepLock.
Context {W : Wakeups}.

Lemma run_get_buf {A} i b (k : buf -> K A) s :
  k_bufs s !! i = Some b -> bind (get_buf i) k s = k b s.
Proof. intros Hb. unfold get_buf, bind, gets. simpl. by rewrite Hb. Qed.

Lemma run_upd_buf {A} i b f (k : unit -> K A) s :
  k_bufs s !! i = Some b ->
  bind (upd_buf i f) k s = k tt (set_k_bufs (<[i := f b]> (k_bufs s)) s).
Proof. intros Hb. unfold upd_buf, get_buf, bind, gets. simpl. by rewrite Hb. Qed.

Lemma curproc_running pid s :
  running_pid s pid -> exists p, p_pid p = pid /\ forall h, curproc (set_k_held h s) = Ret p (set_k_held h s).
Proof.
  intros (j & p & Hj & Hp & Hpid). exists p. split; [done|].
  intros h. unfold curproc, myproc, get_proc, bind, gets. simpl. rewrite Hj. simpl. by rewrite Hp.
Qed.

Lemma holdingsleep_buf i b pid s :
  k_bufs s !! i = Some b -> running_pid s pid -> LkSleepBuf i ∉ k_held s ->
  holdingsleep (buf_lock i) s =
  Ret (sl_locked (b_lock b) && (sl_pid (b_lock b) =? pid)) s.
Proof.
  intros Hb Hp Hl. unfold holdingsleep. cbn [sl_spin sl_get buf_lock].
  rewrite run_acquire by done. rewrite bind_assoc, (run_get_buf i b) by done.
  run_steps. destruct (sl_locked (b_lock b)); cbn [andb].
  - destruct (curproc_running pid s Hp) as (p & <- & E).
    rewrite bind_assoc, (bind_Ret _ _ _ _ _ (E _)). run_steps. rewrite (run_release _ (k_held s)) by done. by destruct s.
  - run_steps. rewrite (run_release _ (k_held s)) by done. by destruct s.
Qed.

Lemma acquiresleep_buf i b pid s :
  k_bufs s !! i = Some b -> running_pid s pid -> LkSleepBuf i ∉ k_held s ->
  sl_locked (b_lock b) = false ->
  acquiresleep (buf_lock i) s =
  Ret tt (set_k_bufs (<[i := set_b_lock (mk_sleeplock true pid) b]> (k_bufs s)) s).
Proof.
  intros Hb Hp Hl Hu. unfold acquiresleep. cbn [sl_spin sl_get sl_set sl_chan buf_lock].
  rewrite run_acquire by done. cbn [loop].
  rewrite !bind_assoc, (run_get_buf i b) by done. run_steps. rewrite Hu. run_steps.
  destruct (curproc_running pid s Hp) as (p & <- & E).
  rewrite (bind_Ret _ _ _ _ _ (E _)).
  rewrite (run_upd_buf i b) by done. rewrite (release_ok _ (k_held s)) by done. by destruct s.
Qed.

Lemma releasesleep_buf i b s :
  k_bufs s !! i = Some b -> LkSleepBuf i ∉ k_held s ->
  no_proc_lock (k_held s) -> procs_full s ->
  releasesleep (buf_lock i) s =
  Ret tt (set_k_procs (wake (ChBufLock i) (k_cur s) (k_procs s))
           (set_k_bufs (<[i := set_b_lock (mk_sleeplock false 0) b]> (k_bufs s)) s)).
Proof.
  intros Hb Hl Hn Hf. unfold releasesleep. cbn [sl_spin sl_get sl_set sl_chan buf_lock].
  assert (no_proc_lock (LkSleepBuf i :: k_held s)) as Hn'.
  { intros j [?|?]%elem_of_cons; [done|by eapply Hn]. }
  rewrite run_acquire by done. rewrite (run_upd_buf i b) by done.
  erewrite bind_Ret by (apply wakeup_ok; [exact Hn'|exact Hf]).
  rewrite (release_ok _ (k_held s)) by done. by destruct s.
Qed.
End SleepLock.

(** ** bget: a hit, or the least recently used free buffer *)

Definition caches (bs : list buf) (dev bno : Z) (x : nat) : Prop :=
  exists b, bs !! x = Some b /\ b_dev b = dev /\ b_blockno b = bno.
Definition unused (bs : list buf) (x : nat) : Prop :=
  exists b, bs !! x = Some b /\ b_refcnt b = 0.

#[export] Instance caches_dec bs dev bno x : Decision (caches bs dev bno x).
Proof.
  destruct (bs !! x) as [b|] eqn:E.
  - destruct (decide (b_dev b = dev /\ b_blockno b = bno)) as [[]|Hn].
    + left. by exists b.
    + right. intros (b' & Hb' & ?). rewrite E in Hb'. naive_solver.
  - right. intros (b' & Hb' & ?). congruence.
Defined.

#[export] Instance unused_dec bs x : Decision (unused bs x).
Proof.
  destruct (bs !! x) as [b|] eqn:E.
  - destruct (decide (b_refcnt b = 0)) as [|Hn].
    + left. by exists b.
    + right. intros (b' & Hb' & ?). rewrite E in Hb'. naive_solver.
  - right. intros (b' & Hb' & ?). congruence.
Defined.

(** The buffers bget leaves on a hit at [i] and after recycling [i]. *)
Definition hit_buf (pid : Z) (b : buf) : buf :=
  set_b_lock (mk_sleeplock true pid) (set_b_refcnt (u32 (b_refcnt b + 1)) b).
Definition recycled_buf (pid dev bno : Z) (b : buf) : buf :=
  set_b_lock (mk_sleeplock true pid)
    (set_b_refcnt 1 (set_b_valid false (set_b_blockno bno (set_b_dev dev b)))).

Section Bget.
Context {W : Wakeups}.
Context (pid dev bno : Z) (s : kstate) (l : list nat).
Context (Hlru : lru (k_bufs s) l) (Hpid : running_pid s pid) (Hh : k_held s = []).
Abbreviation bs := (k_bufs s).
Context (Hfree : forall x b, (x < nbuf)%nat -> bs !! x = Some b ->
  caches bs dev bno x \/ unused bs x -> sl_locked (b_lock b) = false).

Abbreviation s_in := (set_k_held [LkBcache] s).

Lemma bget_cached_body_hit y b :
  (y < nbuf)%nat -> bs !! y = Some b -> b_dev b = dev -> b_blockno b = bno ->
  bget_cached dev bno y s_in =
  Ret (inr (Some y)) (set_k_bufs (<[y := hit_buf pid b]> bs) s).
Proof using Hlru Hpid Hh Hfree.
  intros Hy Hb Hd Hn. unfold bget_cached.
  replace (y =? bhead)%nat with false by (symmetry; apply Nat.eqb_neq; unfold bhead; lia).
  rewrite (run_get_buf y b) by done. rewrite Hd, Hn, !Z.eqb_refl. cbn [andb].
  rewrite (run_upd_buf y b) by done. rewrite (run_release _ []) by done. ks.
  set (b1 := set_b_refcnt _ b).
  assert (Hb1 : <[y := b1]> bs !! y = Some b1).
  { apply list_lookup_insert_eq. by eapply lookup_lt_Some. }
  erewrite bind_Ret by (eapply (acquiresleep_buf y b1 pid);
    [done|by destruct Hpid as (j & p & ?); exists j, p|apply not_elem_of_nil|];
    change (sl_locked (b_lock b) = false); eapply Hfree; [done..|left; by exists b]).
  unfold ret. ks. rewrite list_insert_insert_eq. f_equal. rewrite <- Hh. by destruct s.
Qed.

Lemma bget_cached_body_miss y :
  (y < nbuf)%nat -> ~ caches bs dev bno y ->
  bget_cached dev bno y s_in = Ret (inl (nx bs y)) s_in.
Proof using Hlru.
  intros Hy Hn. destruct (lru_lookup bs l y Hlru) as [b Hb]; [lia|]. unfold bget_cached.
  replace (y =? bhead)%nat with false by (symmetry; apply Nat.eqb_neq; unfold bhead; lia).
  rewrite (run_get_buf y b) by done. rewrite (nx_lookup _ _ _ Hb).
  destruct (Z.eqb_spec (b_dev b) dev), (Z.eqb_spec (b_blockno b) bno); try done.
  destruct Hn. by exists b.
Qed.

Lemma bget_recycle_body_hit y b :
  (y < nbuf)%nat -> bs !! y = Some b -> b_refcnt b = 0 ->
  bget_recycle dev bno y s_in =
  Ret (inr (Some y)) (set_k_bufs (<[y := recycled_buf pid dev bno b]> bs) s).
Proof using Hlru Hpid Hh Hfree.
  intros Hy Hb Hr. unfold bget_recycle.
  replace (y =? bhead)%nat with false by (symmetry; apply Nat.eqb_neq; unfold bhead; lia).
  assert (y < length bs)%nat as Hlt by (by eapply lookup_lt_Some).
  rewrite (run_get_buf y b) by done. rewrite Hr, Z.eqb_refl.
  do 4 (erewrite run_upd_buf by (ks; first [done | by apply list_lookup_insert_eq]);
        ks; rewrite ?list_insert_insert_eq).
  rewrite (run_release _ []) by done. ks.
  set (b1 := set_b_refcnt 1 _).
  assert (Hb1 : <[y := b1]> bs !! y = Some b1) by (by apply list_lookup_insert_eq).
  erewrite bind_Ret by (eapply (acquiresleep_buf y b1 pid);
    [done|by destruct Hpid as (j & p & ?); exists j, p|apply not_elem_of_nil|];
    change (sl_locked (b_lock b) = false); eapply Hfree; [done..|right; by exists b]).
  unfold ret. ks. rewrite list_insert_insert_eq. f_equal. rewrite <- Hh. by destruct s.
Qed.

Lemma bget_recycle_body_miss y :
  (y < nbuf)%nat -> ~ unused bs y ->
  bget_recycle dev bno y s_in = Ret (inl (pv bs y)) s_in.
Proof using Hlru.
  intros Hy Hn. destruct (lru_lookup bs l y Hlru) as [b Hb]; [lia|]. unfold bget_recycle.
  replace (y =? bhead)%nat with false by (symmetry; apply Nat.eqb_neq; unfold bhead; lia).
  rewrite (run_get_buf y b) by done. rewrite (pv_lookup _ _ _ Hb).
  destruct (Z.eqb_spec (b_refcnt b) 0); [|done]. destruct Hn. by exists b.
Qed.

(** What bget does, as a function of the list: the first buffer of the block
    from the most recently used end; else the first unused one from the
    least recently used end; else panic. *)
Definition bget_result : outcome kstate nat :=
  match head (filter (caches bs dev bno) l) with
  | Some y => Ret y (set_k_bufs (alter (hit_buf pid) y bs) s)
  | None =>
      match head (filter (unused bs) (reverse l)) with
      | Some y => Ret y (set_k_bufs (alter (recycled_buf pid dev bno) y bs) s)
      | None => Panic "bget: no buffers" s_in
      end
  end.

Lemma bget_run : bget dev bno s = bget_result.
Proof using Hlru Hpid Hh Hfree.
  pose proof (lru_nodup _ _ Hlru) as Hnd.
  destruct (lru_lookup bs l bhead Hlru) as [h Hhd]; [unfold bhead; lia|].
  assert (length l = nbuf) as Hlen.
  { rewrite (lru_perm _ _ Hlru). apply length_seq. }
  unfold bget. rewrite run_acquire by (rewrite Hh; apply not_elem_of_nil).
  rewrite Hh. rewrite (run_get_buf bhead h) by done.
  unfold bget_result.
  erewrite bind_Ret with (a := head (filter (caches bs dev bno) l)); cycle 1.
  { erewrite (loop_path (nx bs) (caches bs dev bno) _
       (fun y => set_k_bufs (alter (hit_buf pid) y bs) s) _ l bhead).
    - instantiate (1 := match head (filter (caches bs dev bno) l) with
        | Some y => set_k_bufs (alter (hit_buf pid) y bs) s | None => s_in end).
      by destruct (head _).
    - rewrite <- (nx_lookup _ _ _ Hhd). eapply links_path, Hlru.
    - lia.
    - unfold bget_cached. by rewrite Nat.eqb_refl.
    - intros y Hy (b & Hb & Hd & Hn). apply (lru_elem _ _ _ Hlru) in Hy.
      rewrite (list_alter_insert _ _ _ _ Hb). by apply bget_cached_body_hit.
    - intros y Hy HP. apply (lru_elem _ _ _ Hlru) in Hy. by apply bget_cached_body_miss. }
  destruct (head (filter (caches _ _ _) l)); [done|].
  rewrite (run_get_buf bhead h) by done.
  erewrite bind_Ret with (a := head (filter (unused bs) (reverse l))); cycle 1.
  { erewrite (loop_path (pv bs) (unused bs) _
       (fun y => set_k_bufs (alter (recycled_buf pid dev bno) y bs) s) _ (reverse l) bhead).
    - instantiate (1 := match head (filter (unused bs) (reverse l)) with
        | Some y => set_k_bufs (alter (recycled_buf pid dev bno) y bs) s | None => s_in end).
      by destruct (head _).
    - rewrite <- (pv_lookup _ _ _ Hhd). eapply links_path_rev, Hlru.
    - rewrite length_reverse. lia.
    - unfold bget_recycle. by rewrite Nat.eqb_refl.
    - intros y Hy (b & Hb & Hr). rewrite elem_of_reverse in Hy.
      apply (lru_elem _ _ _ Hlru) in Hy.
      rewrite (list_alter_insert _ _ _ _ Hb). by apply bget_recycle_body_hit.
    - intros y Hy HP. rewrite elem_of_reverse in Hy.
      apply (lru_elem _ _ _ Hlru) in Hy. by apply bget_recycle_body_miss. }
  by destruct (head (filter (unused _) _)).
Qed.
End Bget.

(** ** brelse: move to the front when nobody is left *)

Definition released_buf (b : buf) : buf :=
  set_b_refcnt (u32 (b_refcnt b - 1)) (set_b_lock (mk_sleeplock false 0) b).

Definition to_front (i : nat) (l : list nat) : list nat := i :: filter (.≠ i) l.

(** The six pointer assignments of brelse, on the list of buffers: the first
    two take [i] out of the list, the others put it at the front. *)
Definition unlink (i : nat) (bs : list buf) : list buf :=
  let bs := alter (set_b_prev (pv bs i)) (nx bs i) bs in
  alter (set_b_next (nx bs i)) (pv bs i) bs.
Definition push (i : nat) (bs : list buf) : list buf :=
  let bs := alter (set_b_next (nx bs bhead)) i bs in
  let bs := alter (set_b_prev bhead) i bs in
  let bs := alter (set_b_prev i) (nx bs bhead) bs in
  alter (set_b_next i) bhead bs.

Lemma nx_alter_prev bs v x : nx (alter (set_b_prev v) x bs) = nx bs.
Proof.
  apply functional_extensionality. intros j. unfold nx. rewrite list_lookup_alter.
  case_decide; [subst|done]. by destruct (bs !! j).
Qed.
Lemma pv_alter_next bs v x : pv (alter (set_b_next v) x bs) = pv bs.
Proof.
  apply functional_extensionality. intros j. unfold pv. rewrite list_lookup_alter.
  case_decide; [subst|done]. by destruct (bs !! j).
Qed.
Lemma nx_alter_next bs v x :
  (x < length bs)%nat -> nx (alter (set_b_next v) x bs) = fupd (nx bs) x v.
Proof.
  intros Hx. apply lookup_lt_is_Some_2 in Hx as [b Hb].
  rewrite (list_alter_insert _ _ _ _ Hb).
  rewrite nx_insert by (by eapply lookup_lt_Some). done.
Qed.
Lemma pv_alter_prev bs v x :
  (x < length bs)%nat -> pv (alter (set_b_prev v) x bs) = fupd (pv bs) x v.
Proof.
  intros Hx. apply lookup_lt_is_Some_2 in Hx as [b Hb].
  rewrite (list_alter_insert _ _ _ _ Hb).
  rewrite pv_insert by (by eapply lookup_lt_Some). done.
Qed.
Lemma cores_alter_prev bs v x : core <$> alter (set_b_prev v) x bs = core <$> bs.
Proof.
  apply list_eq. intros j. rewrite !list_lookup_fmap, list_lookup_alter.
  case_decide; [subst|done]. by destruct (bs !! j).
Qed.
Lemma cores_alter_next bs v x : core <$> alter (set_b_next v) x bs = core <$> bs.
Proof.
  apply list_eq. intros j. rewrite !list_lookup_fmap, list_lookup_alter.
  case_decide; [subst|done]. by destruct (bs !! j).
Qed.

Lemma cores_relink i bs : core <$> push i (unlink i bs) = core <$> bs.
Proof.
  unfold push, unlink. by repeat first [rewrite cores_alter_next | rewrite cores_alter_prev].
Qed.
Lemma length_push i bs : length (push i bs) = length bs.
Proof. unfold push. by rewrite !length_alter. Qed.
Lemma length_unlink i bs : length (unlink i bs) = length bs.
Proof. unfold unlink. by rewrite !length_alter. Qed.

Lemma fupd_self f x y : fupd f y (f x) x = f x.
Proof. unfold fupd. by case_decide. Qed.

Lemma links_unlink i bs :
  (nx bs i < length bs)%nat -> (pv bs i < length bs)%nat ->
  nx (unlink i bs) = fupd (nx bs) (pv bs i) (nx bs i) /\
  pv (unlink i bs) = fupd (pv bs) (nx bs i) (pv bs i).
Proof.
  intros Hn Hp. unfold unlink. cbv zeta.
  rewrite pv_alter_next, nx_alter_prev, pv_alter_prev, fupd_self by done.
  by rewrite nx_alter_next, nx_alter_prev by (by rewrite length_alter).
Qed.

Lemma links_push i bs :
  (i < length bs)%nat -> (bhead < length bs)%nat -> (nx bs bhead < length bs)%nat ->
  i <> bhead ->
  nx (push i bs) = fupd (fupd (nx bs) i (nx bs bhead)) bhead i /\
  pv (push i bs) = fupd (fupd (pv bs) i bhead) (nx bs bhead) i.
Proof.
  intros Hi Hh Hn Hne. unfold push. cbv zeta.
  rewrite !nx_alter_prev, pv_alter_next.
  rewrite nx_alter_next by (by rewrite !length_alter). rewrite !nx_alter_prev.
  rewrite nx_alter_next by done. rewrite (fupd_ne _ _ _ bhead) by done.
  rewrite !pv_alter_prev, pv_alter_next by (by rewrite ?length_alter). done.
Qed.

Lemma filter_ne_split i l1 l2 :
  NoDup (l1 ++ i :: l2) -> filter (.≠ i) (l1 ++ i :: l2) = l1 ++ l2.
Proof.
  intros Hnd. apply NoDup_app in Hnd as (_ & Hd & [Hi _]%NoDup_cons).
  assert (forall l : list nat, (i ∉ l) -> filter (.≠ i) l = l) as Hf.
  { induction l as [|x l IH]; [done|]. rewrite not_elem_of_cons. intros [? ?].
    rewrite filter_cons, decide_True by done. f_equal. auto. }
  rewrite filter_app, filter_cons, decide_False by (by intros []).
  rewrite !Hf; [done|done|]. intros Hin. apply (Hd i Hin). by left.
Qed.

(** The nodes the assignments go through are buffers. *)
Lemma relink_nodes bs l1 l2 i :
  lru bs (l1 ++ i :: l2) ->
  (nx bs i < length bs)%nat /\ (pv bs i < length bs)%nat /\
  (nx (unlink i bs) bhead < length bs)%nat /\
  ring (nx (unlink i bs)) (pv (unlink i bs)) bhead (l1 ++ l2).
Proof.
  intros Hlru. pose proof (lru_nodup _ _ Hlru) as Hnd.
  assert (forall z, z ∈ bhead :: l1 ++ i :: l2 -> (z < length bs)%nat) as Hlt.
  { intros z [->|Hz]%elem_of_cons; rewrite (lru_len _ _ Hlru); [unfold bhead; lia|].
    apply (lru_elem _ _ _ Hlru) in Hz. lia. }
  pose proof (lru_ring _ _ Hlru) as Hr.
  assert (nx bs i < length bs)%nat as Hn.
  { apply Hlt. rewrite (ring_next _ _ _ _ _ _ Hr). destruct l2; simpl; set_solver. }
  assert (pv bs i < length bs)%nat as Hp.
  { apply Hlt. rewrite (ring_prev _ _ _ _ _ _ Hr).
    pose proof (elem_of_last bhead l1). set_solver. }
  destruct (links_unlink i bs Hn Hp) as [En Ep].
  apply ring_unlink in Hr; [|done]. rewrite <- En, <- Ep in Hr. split_and!; try done.
  apply Hlt. rewrite (ring_first _ _ _ _ Hr). destruct l1, l2; simpl; set_solver.
Qed.

Lemma lru_relink bs l i :
  lru bs l -> (i < nbuf)%nat -> lru (push i (unlink i bs)) (to_front i l).
Proof.
  intros Hlru Hi. pose proof (lru_nodup _ _ Hlru) as Hnd.
  assert (Hin : i ∈ l) by (by eapply lru_elem).
  destruct (list_elem_of_split _ _ Hin) as (l1 & l2 & ->).
  destruct (relink_nodes _ _ _ _ Hlru) as (_ & _ & Hh & Hr).
  unfold to_front. rewrite filter_ne_split by (by apply NoDup_cons in Hnd as [_ ?]).
  assert (bhead :: l1 ++ i :: l2 ≡ₚ i :: bhead :: l1 ++ l2) as HP by solve_Permutation.
  rewrite HP in Hnd. apply NoDup_cons in Hnd as [Hni Hnd].
  pose proof (lru_len _ _ Hlru) as Hlen.
  split.
  - destruct (links_push i (unlink i bs)) as [-> ->]; rewrite ?length_unlink;
      [unfold bhead; lia..|done|unfold bhead; lia|by apply ring_push].
  - rewrite <- (lru_perm _ _ Hlru). solve_Permutation.
  - by rewrite length_push, length_unlink.
Qed.

(** The same operations on a list of buffers that has them. *)
Lemma run_get_link {A} i (k : buf -> K A) s :
  (i < length (k_bufs s))%nat ->
  bind (get_buf i) k s = k (default zero_buf (k_bufs s !! i)) s.
Proof.
  intros Hi. apply lookup_lt_is_Some_2 in Hi as [b Hb].
  rewrite (run_get_buf i b) by done. by rewrite Hb.
Qed.
Lemma run_upd_link {A} i f (k : unit -> K A) s :
  (i < length (k_bufs s))%nat ->
  bind (upd_buf i f) k s = k tt (set_k_bufs (alter f i (k_bufs s)) s).
Proof.
  intros Hi. apply lookup_lt_is_Some_2 in Hi as [b Hb].
  rewrite (run_upd_buf i b) by done. by rewrite (list_alter_insert _ _ _ _ Hb).
Qed.

Lemma move_to_front_run i s l :
  lru (k_bufs s) l -> (i < nbuf)%nat ->
  move_to_front i s = Ret tt (set_k_bufs (push i (unlink i (k_bufs s))) s).
Proof.
  intros Hlru Hi. unfold move_to_front. set (bs1 := k_bufs s).
  assert (Hin : i ∈ l) by (by eapply lru_elem).
  destruct (list_elem_of_split _ _ Hin) as (l1 & l2 & ->).
  destruct (relink_nodes _ _ _ _ Hlru) as (Hn & Hpv & Hhd & _). fold bs1 in Hn, Hpv, Hhd.
  assert (length bs1 = S nbuf) as Hlen by apply (lru_len _ _ Hlru).
  assert (bhead < length bs1)%nat by (unfold bhead; lia).
  assert (i < length bs1)%nat by lia.
  rewrite run_get_link by done. fold bs1.
  change (b_next (default zero_buf (bs1 !! i))) with (nx bs1 i).
  change (b_prev (default zero_buf (bs1 !! i))) with (pv bs1 i).
  rewrite run_upd_link by done. fold bs1.
  set (bs2 := alter (set_b_prev (pv bs1 i)) (nx bs1 i) bs1).
  assert (length bs2 = length bs1) as Hl2 by apply length_alter.
  rewrite run_get_link by (ks; lia). ks.
  change (b_next (default zero_buf (bs2 !! i))) with (nx bs2 i).
  change (b_prev (default zero_buf (bs2 !! i))) with (pv bs2 i).
  assert (pv bs2 i = pv bs1 i) as Epv.
  { unfold bs2. rewrite pv_alter_prev by done. apply fupd_self. }
  rewrite run_upd_link by (ks; lia). ks.
  change (alter (set_b_next (nx bs2 i)) (pv bs2 i) bs2) with (unlink i bs1).
  assert (length (unlink i bs1) = length bs1) as Hl3 by apply length_unlink.
  rewrite run_get_link by (ks; lia). ks. rewrite run_upd_link by (ks; lia). ks.
  rewrite run_upd_link by (ks; rewrite length_alter; lia). ks.
  rewrite run_get_link by (ks; rewrite !length_alter; lia). ks.
  set (bs4 := alter (set_b_prev bhead) i _).
  change (b_next (default zero_buf (bs4 !! bhead))) with (nx bs4 bhead).
  assert (length bs4 = length bs1) as Hl4 by (unfold bs4; by rewrite !length_alter).
  assert (nx bs4 bhead = nx (unlink i bs1) bhead) as E4.
  { unfold bs4. rewrite nx_alter_prev, nx_alter_next by lia.
    by rewrite fupd_ne by (unfold bhead; lia). }
  rewrite run_upd_link by (ks; lia). ks.
  assert (forall bs x f s', (x < length bs)%nat -> k_bufs s' = bs ->
    upd_buf x f s' = Ret tt (set_k_bufs (alter f x bs) s')) as Hu.
  { intros bs x f s' Hx <-. apply lookup_lt_is_Some_2 in Hx as [b Hb].
    unfold upd_buf. rewrite (run_get_buf x b) by done.
    by rewrite (list_alter_insert _ _ _ _ Hb). }
  by erewrite Hu; [..|ks; reflexivity]; [|rewrite length_alter; lia].
Qed.

Definition brelse_bufs (i : nat) (b : buf) (bs : list buf) : list buf :=
  let bs := <[i := released_buf b]> bs in
  if u32 (b_refcnt b - 1) =? 0 then push i (unlink i bs) else bs.

Lemma brelse_run i b pid s l :
  lru (k_bufs s) l -> (i < nbuf)%nat -> k_bufs s !! i = Some b ->
  running_pid s pid -> procs_full s -> k_held s = [] ->
  b_lock b = mk_sleeplock true pid ->
  brelse i s =
  Ret tt (set_k_procs (wake (ChBufLock i) (k_cur s) (k_procs s))
            (set_k_bufs (brelse_bufs i b (k_bufs s)) s)).
Proof.
  intros Hlru Hi Hb Hp Hf Hh Hlk. unfold brelse.
  assert (i < length (k_bufs s))%nat as Hlt by (by eapply lookup_lt_Some).
  erewrite bind_Ret by (eapply holdingsleep_buf; [done..|rewrite Hh; apply not_elem_of_nil]).
  rewrite Hlk. cbn [sl_locked sl_pid andb]. rewrite Z.eqb_refl. cbn [negb].
  erewrite bind_Ret by (eapply releasesleep_buf; [done| | |done];
    rewrite Hh; [apply not_elem_of_nil|intros ?; apply not_elem_of_nil]).
  rewrite run_acquire by (ks; rewrite Hh; apply not_elem_of_nil).
  erewrite run_upd_buf by (ks; by apply list_lookup_insert_eq).
  ks. rewrite list_insert_insert_eq.
  change (set_b_refcnt _ _) with (released_buf b).
  set (bs1 := <[i := released_buf b]> (k_bufs s)).
  assert (Hb1 : bs1 !! i = Some (released_buf b)) by (by apply list_lookup_insert_eq).
  assert (Hlru1 : lru bs1 l) by (by eapply lru_insert).
  erewrite run_get_buf by (ks; exact Hb1).
  unfold brelse_bufs. fold bs1. change (b_refcnt (released_buf b)) with (u32 (b_refcnt b - 1)).
  destruct (u32 (b_refcnt b - 1) =? 0).
  - rewrite run_when_true.
    erewrite bind_Ret by (by eapply move_to_front_run). ks.
    rewrite (release_ok _ []) by (ks; by rewrite Hh).
    f_equal. destruct s; ks; by simpl in Hh; subst.
  - rewrite run_when_false. rewrite (release_ok _ []) by (ks; by rewrite Hh).
    f_equal. destruct s; ks; by simpl in Hh; subst.
Qed.

(** ** The invariant behind the cache's interface *)

Definition b2z (b : bool) : Z := if b then 1 else 0.

(** A buffer of the device, in a cache that shows [V], with the blocks of
    [P] pinned and those of [H] held by [pid]. *)
Record buf_ok (pid : Z) (V : Z -> list Z) (P : gset Z) (H : gmap Z nat)
    (i : nat) (b : buf) : Prop := {
  ok_valid : b_valid b = true;
  ok_data : b_data b = V (b_blockno b);
  ok_refcnt : b_refcnt b =
    b2z (bool_decide (b_blockno b ∈ P)) + b2z (bool_decide (is_Some (H !! b_blockno b)));
  ok_held : forall j, H !! b_blockno b = Some j -> j = i /\ b_lock b = mk_sleeplock true pid;
  ok_free : H !! b_blockno b = None -> sl_locked (b_lock b) = false;
}.

Record bufs_inv (pid : Z) (d : disk) (V : Z -> list Z) (P : gset Z) (H : gmap Z nat)
    (bs : list buf) : Prop := {
  bi_ok : forall i b, (i < nbuf)%nat -> bs !! i = Some b -> b_dev b = ROOTDEV ->
    buf_ok pid V P H i b;
  (* buffers not used since boot *)
  bi_fresh : forall i b, (i < nbuf)%nat -> bs !! i = Some b -> b_dev b <> ROOTDEV ->
    b_refcnt b = 0 /\ sl_locked (b_lock b) = false;
  bi_uniq : forall i j b b', (i < nbuf)%nat -> (j < nbuf)%nat ->
    bs !! i = Some b -> bs !! j = Some b' -> b_dev b = ROOTDEV -> b_dev b' = ROOTDEV ->
    b_blockno b = b_blockno b' -> i = j;
  bi_held : forall bno i, H !! bno = Some i -> (i < nbuf)%nat /\ caches bs ROOTDEV bno i;
  bi_pin : forall bno, bno ∈ P -> exists i, (i < nbuf)%nat /\ caches bs ROOTDEV bno i;
  bi_clean : forall bno, bno ∉ P -> H !! bno = None -> V bno = dblk d bno;
  bi_block : forall bno, block_ok (V bno);
  bi_disk : disk_ok d;
}.

Record bio_inv (pid : Z) (s : kstate) (V : Z -> list Z) (P : gset Z) (H : gmap Z nat)
    : Prop := {
  inv_lru : exists l, lru (k_bufs s) l;
  inv_bufs : bufs_inv pid (k_disk s) V P H (k_bufs s);
  inv_full : procs_full s;
  inv_pid : running_pid s pid;
}.

(** The links do not matter to [bufs_inv]. *)
Lemma cores_lookup bs bs' i b :
  core <$> bs' = core <$> bs -> bs' !! i = Some b ->
  exists b0, bs !! i = Some b0 /\ core b = core b0.
Proof.
  intros E Hb. apply (f_equal (.!! i)) in E. rewrite !list_lookup_fmap, Hb in E.
  destruct (bs !! i) as [b0|]; [|done]. simpl in E. exists b0. split; [done|congruence].
Qed.

Lemma core_fields b b0 : core b = core b0 ->
  b_valid b = b_valid b0 /\ b_dev b = b_dev b0 /\ b_blockno b = b_blockno b0 /\
  b_lock b = b_lock b0 /\ b_refcnt b = b_refcnt b0 /\ b_data b = b_data b0.
Proof. unfold core. destruct b, b0. simpl. by intros [=]. Qed.

Lemma caches_cores bs bs' dev bno i :
  core <$> bs' = core <$> bs -> caches bs dev bno i -> caches bs' dev bno i.
Proof.
  intros E (b & Hb & Hd & Hn). symmetry in E.
  destruct (cores_lookup _ _ _ _ E Hb) as (b' & Hb' & Hc).
  destruct (core_fields _ _ Hc) as (? & ? & ? & _). exists b'. split_and!; congruence.
Qed.

Lemma bufs_inv_cores pid d V P H bs bs' :
  core <$> bs' = core <$> bs -> bufs_inv pid d V P H bs -> bufs_inv pid d V P H bs'.
Proof.
  intros E Hi. split; [..|apply Hi|apply Hi|apply Hi].
  - intros i b Hlt Hb Hd. destruct (cores_lookup _ _ _ _ E Hb) as (b0 & Hb0 & Hc).
    destruct (core_fields _ _ Hc) as (E1 & E2 & E3 & E4 & E5 & E6). rewrite E2 in Hd.
    destruct (bi_ok _ _ _ _ _ _ Hi i b0 Hlt Hb0 Hd) as [].
    split; rewrite ?E1, ?E3, ?E4, ?E5, ?E6; done.
  - intros i b Hlt Hb Hd. destruct (cores_lookup _ _ _ _ E Hb) as (b0 & Hb0 & Hc).
    destruct (core_fields _ _ Hc) as (E1 & E2 & E3 & E4 & E5 & E6). rewrite E2 in Hd.
    rewrite E4, E5. by eapply (bi_fresh _ _ _ _ _ _ Hi i).
  - intros i j b b' Hlt Hlt' Hb Hb' Hd Hd' Hn.
    destruct (cores_lookup _ _ _ _ E Hb) as (b0 & Hb0 & Hc).
    destruct (cores_lookup _ _ _ _ E Hb') as (b0' & Hb0' & Hc').
    destruct (core_fields _ _ Hc) as (_ & E2 & E3 & _).
    destruct (core_fields _ _ Hc') as (_ & E2' & E3' & _).
    eapply (bi_uniq _ _ _ _ _ _ Hi i j b0 b0'); congruence.
  - intros bno i Hh. destruct (bi_held _ _ _ _ _ _ Hi _ _ Hh). split; [done|].
    by eapply caches_cores.
  - intros bno Hp. destruct (bi_pin _ _ _ _ _ _ Hi _ Hp) as (i & ? & ?).
    exists i. split; [done|]. by eapply caches_cores.
Qed.

(** Replacing one buffer: the general step of every operation. [b'] is the
    buffer for [bno] in the new cache; the other buffers look the same. *)
Lemma bufs_inv_insert pid d d' V V' P P' H H' bs i bno b' :
  bufs_inv pid d V P H bs -> (i < nbuf)%nat -> (i < length bs)%nat ->
  b_dev b' = ROOTDEV -> b_blockno b' = bno ->
  (* no other buffer is this block's *)
  (forall j, (j < nbuf)%nat -> caches bs ROOTDEV bno j -> j = i) ->
  (* the block [i] cached before, if another, is neither pinned nor held *)
  (forall b, bs !! i = Some b -> b_dev b = ROOTDEV -> b_blockno b <> bno ->
     b_blockno b ∉ P /\ H !! b_blockno b = None) ->
  (forall x, x <> bno -> V' x = V x) ->
  (forall x, x <> bno -> x ∈ P' <-> x ∈ P) ->
  (forall x, x <> bno -> H' !! x = H !! x) ->
  (forall j, H' !! bno = Some j -> j = i) ->
  (forall x, x <> bno -> dblk d' x = dblk d x) ->
  (bno ∉ P' -> H' !! bno = None -> V' bno = dblk d' bno) ->
  disk_ok d' -> block_ok (V' bno) ->
  buf_ok pid V' P' H' i b' ->
  bufs_inv pid d' V' P' H' (<[i := b']> bs).
Proof.
  intros Hi Hlt Hlen Hd' Hn' Huniq Hold HV HP HH HHi Hdisk Hclean Hdok Hblk Hok.
  assert (Hother : forall j b, (j < nbuf)%nat -> j <> i -> bs !! j = Some b ->
    b_dev b = ROOTDEV -> b_blockno b <> bno).
  { intros j b Hj Hne Hb Hdv E. apply Hne, Huniq; [done|]. by exists b. }
  assert (Hins : forall j b, <[i := b']> bs !! j = Some b ->
    (j = i /\ b = b') \/ (j <> i /\ bs !! j = Some b)).
  { intros j b Hb. destruct (decide (j = i)) as [->|].
    - rewrite list_lookup_insert_eq in Hb by done. left. split; [done|congruence].
    - rewrite list_lookup_insert_ne in Hb by done. by right. }
  assert (Hcach : forall x j, x <> bno -> (x ∈ P \/ is_Some (H !! x)) ->
    caches bs ROOTDEV x j -> caches (<[i := b']> bs) ROOTDEV x j).
  { intros x j Hx Hu (b & Hb & Hbd & Hbn). exists b. split; [|done].
    rewrite list_lookup_insert_ne; [done|]. intros <-.
    destruct (Hold b Hb Hbd) as [? HN]; [congruence|]. rewrite Hbn in *.
    destruct Hu as [?|[? ?]]; [done|congruence]. }
  assert (Hnew : caches (<[i := b']> bs) ROOTDEV bno i).
  { exists b'. split; [by apply list_lookup_insert_eq|done]. }
  split.
  - intros j b Hj [[-> ->]|[Hne Hb]]%Hins Hbd; [done|].
    pose proof (Hother j b Hj Hne Hb Hbd) as Hx.
    destruct (bi_ok _ _ _ _ _ _ Hi j b Hj Hb Hbd) as [O1 O2 O3 O4 O5].
    split; rewrite ?HV, ?HH by done; try done.
    rewrite O3. do 3 f_equal. apply bool_decide_ext. by rewrite HP.
  - intros j b Hj [[-> ->]|[Hne Hb]]%Hins Hbd; [done|]. by eapply bi_fresh.
  - intros j k b b0 Hj Hk [[-> ->]|[Hne Hb]]%Hins [[-> ->]|[Hne' Hb0]]%Hins Hbd Hbd0 E.
    + done.
    + exfalso. eapply (Hother k b0); congruence.
    + exfalso. eapply (Hother j b); congruence.
    + by eapply (bi_uniq _ _ _ _ _ _ Hi j k b b0).
  - intros x j Hx. destruct (decide (x = bno)) as [->|Hne].
    + by rewrite (HHi j Hx).
    + rewrite HH in Hx by done. destruct (bi_held _ _ _ _ _ _ Hi _ _ Hx).
      split; [done|]. apply Hcach; eauto.
  - intros x Hx. destruct (decide (x = bno)) as [->|Hne]; [by exists i|].
    rewrite HP in Hx by done. destruct (bi_pin _ _ _ _ _ _ Hi _ Hx) as (j & ? & ?).
    exists j. split; [done|]. apply Hcach; eauto.
  - intros x Hx HN. destruct (decide (x = bno)) as [->|Hne]; [by apply Hclean|].
    rewrite HV, Hdisk by done. apply (bi_clean _ _ _ _ _ _ Hi); [by rewrite <- HP|by rewrite <- HH].
  - intros x. destruct (decide (x = bno)) as [->|Hne]; [done|].
    rewrite HV by done. apply Hi.
  - done.
Qed.

(** A buffer nobody uses exists while fewer blocks are in use than there are
    buffers. *)
Lemma exists_unused pid d V P H bs :
  bufs_inv pid d V P H bs -> length bs = S nbuf -> (size (P ∪ dom H) < nbuf)%nat ->
  exists i, (i < nbuf)%nat /\ unused bs i.
Proof.
  intros Hi Hlen Hsz.
  destruct (decide (Exists (unused bs) (seq 0 nbuf))) as [He|Hne].
  { apply Exists_exists in He as (i & Hin & Hu). apply elem_of_seq in Hin.
    exists i. split; [lia|done]. }
  exfalso. apply not_Exists_Forall in Hne; [|apply _]. rewrite Forall_forall in Hne.
  set (f i := b_blockno (default zero_buf (bs !! i))).
  assert (Hb : forall i, (i < nbuf)%nat -> exists b, bs !! i = Some b /\
    b_dev b = ROOTDEV /\ f i = b_blockno b /\ f i ∈ P ∪ dom H).
  { intros i Hlt. destruct (lookup_lt_is_Some_2 bs i) as [b Hb]; [lia|]. exists b.
    assert (b_refcnt b <> 0) as Hr.
    { intros E. apply (Hne i); [apply elem_of_seq; lia|]. by exists b. }
    assert (b_dev b = ROOTDEV) as Hd.
    { destruct (decide (b_dev b = ROOTDEV)); [done|].
      destruct Hr. by eapply (bi_fresh _ _ _ _ _ _ Hi i). }
    assert (f i = b_blockno b) as Ef by (unfold f; by rewrite Hb).
    split_and!; try done. rewrite Ef, elem_of_union, elem_of_dom.
    rewrite (ok_refcnt _ _ _ _ _ _ (bi_ok _ _ _ _ _ _ Hi i b Hlt Hb Hd)) in Hr.
    do 2 case_bool_decide; auto. by destruct Hr. }
  assert (NoDup (f <$> seq 0 nbuf)) as Hnd.
  { apply NoDup_fmap_2_strong; [|apply NoDup_seq]. intros i j Hx Hy E.
    apply elem_of_seq in Hx, Hy.
    destruct (Hb i) as (b & ? & ? & ? & _); [lia|]. destruct (Hb j) as (b' & ? & ? & ? & _); [lia|].
    eapply (bi_uniq _ _ _ _ _ _ Hi i j b b'); try lia; congruence. }
  assert (size (list_to_set (f <$> seq 0 nbuf) : gset Z) <= size (P ∪ dom H))%nat as Hle.
  { apply subseteq_size. intros x Hx. apply elem_of_list_to_set, list_elem_of_fmap in Hx.
    destruct Hx as (i & -> & Hin%elem_of_seq). destruct (Hb i) as (? & _ & _ & _ & ?); [lia|done]. }
  rewrite size_list_to_set, length_fmap, length_seq in Hle by done. lia.
Qed.

Lemma head_filter_Some {A} (Q : A -> Prop) `{forall x, Decision (Q x)} (l : list A) y :
  head (filter Q l) = Some y -> y ∈ l /\ Q y.
Proof.
  intros E. assert (y ∈ filter Q l) as Hy by (destruct (filter Q l); [done|]; simplify_eq/=; left).
  apply list_elem_of_filter in Hy. tauto.
Qed.

Lemma head_filter_None {A} (Q : A -> Prop) `{forall x, Decision (Q x)} (l : list A) y :
  head (filter Q l) = None -> y ∈ l -> ~ Q y.
Proof.
  intros E Hy HQ. assert (y ∈ filter Q l) as Hin by (by apply list_elem_of_filter).
  destruct (filter Q l); [by apply not_elem_of_nil in Hin|done].
Qed.

Section Laws.
Context {W : Wakeups} {D : DiskDriver}.
Context (pid : Z) (s : kstate) (V : Z -> list Z) (P : gset Z) (H : gmap Z nat).
Context (Hinv : bio_inv pid s V P H).
Implicit Types (bno : Z).

(** Where bget ends up. *)
Lemma bget_cases bno :
  k_held s = [] -> H !! bno = None -> (bno ∈ P \/ (size (P ∪ dom H) < nbuf)%nat) ->
  exists i b, (i < nbuf)%nat /\ k_bufs s !! i = Some b /\
  ( (b_dev b = ROOTDEV /\ b_blockno b = bno /\
     bget ROOTDEV bno s = Ret i (set_k_bufs (<[i := hit_buf pid b]> (k_bufs s)) s))
  \/ (b_refcnt b = 0 /\ (forall j, (j < nbuf)%nat -> ~ caches (k_bufs s) ROOTDEV bno j) /\
     bget ROOTDEV bno s =
       Ret i (set_k_bufs (<[i := recycled_buf pid ROOTDEV bno b]> (k_bufs s)) s))).
Proof using Hinv.
  intros Hh HN Hcap. destruct (inv_lru _ _ _ _ _ Hinv) as [l Hl].
  pose proof (inv_bufs _ _ _ _ _ Hinv) as Hi.
  assert (Hfree : forall x b, (x < nbuf)%nat -> k_bufs s !! x = Some b ->
    caches (k_bufs s) ROOTDEV bno x \/ unused (k_bufs s) x -> sl_locked (b_lock b) = false).
  { intros x b Hx Hb Hcu. destruct (decide (b_dev b = ROOTDEV)) as [Hd|Hd].
    - pose proof (bi_ok _ _ _ _ _ _ Hi x b Hx Hb Hd) as Hok. apply Hok.
      destruct Hcu as [(b' & Hb' & _ & <-)|(b' & Hb' & Hr)]; [congruence|].
      assert (b' = b) by congruence. subst b'. rewrite (ok_refcnt _ _ _ _ _ _ Hok) in Hr.
      destruct (H !! b_blockno b); [|done]. revert Hr.
      rewrite (bool_decide_true (is_Some _)) by eauto. by case_bool_decide.
    - by eapply (bi_fresh _ _ _ _ _ _ Hi x). }
  pose proof (bget_run pid ROOTDEV bno s l Hl (inv_pid _ _ _ _ _ Hinv) Hh Hfree) as E.
  unfold bget_result in E.
  destruct (head (filter (caches _ _ _) l)) as [i|] eqn:E1.
  - apply head_filter_Some in E1 as [Hin (b & Hb & Hd & Hn)].
    exists i, b. split; [by eapply lru_elem|]. split; [done|]. left.
    by rewrite (list_alter_insert _ _ _ _ Hb) in E.
  - assert (Hmiss : forall j, (j < nbuf)%nat -> ~ caches (k_bufs s) ROOTDEV bno j).
    { intros j Hj. eapply head_filter_None; [done|]. by eapply lru_elem. }
    assert (exists i, (i < nbuf)%nat /\ unused (k_bufs s) i) as (i0 & Hi0 & Hu0).
    { destruct Hcap as [HP|Hsz].
      - destruct (bi_pin _ _ _ _ _ _ Hi _ HP) as (j & Hj & Hc). by apply Hmiss in Hc.
      - eapply exists_unused; [done|apply (lru_len _ _ Hl)|done]. }
    destruct (head (filter (unused _) (reverse l))) as [i|] eqn:E2.
    + apply head_filter_Some in E2 as [Hin (b & Hb & Hr)]. rewrite elem_of_reverse in Hin.
      exists i, b. split; [by eapply lru_elem|]. split; [done|]. right.
      by rewrite (list_alter_insert _ _ _ _ Hb) in E.
    + exfalso. eapply (head_filter_None _ _ i0); [done| |done].
      rewrite elem_of_reverse. by eapply lru_elem.
Qed.

Lemma bread_law bno :
  k_held s = [] -> H !! bno = None -> (bno ∈ P \/ (size (P ∪ dom H) < nbuf)%nat) ->
  wp (bread ROOTDEV bno) (fun i s' =>
    bio_inv pid s' V P (<[bno := i]> H) /\ bio_frame s s' /\ k_disk s' = k_disk s) s.
Proof using Hinv.
  intros Hh HN Hcap. destruct (bget_cases bno Hh HN Hcap) as (i & b & Hi & Hb & Hcase).
  assert (i < length (k_bufs s))%nat as Hlt by (by eapply lookup_lt_Some).
  destruct (inv_lru _ _ _ _ _ Hinv) as [l Hl]. pose proof (inv_bufs _ _ _ _ _ Hinv) as Hbi.
  unfold bread, wp. destruct Hcase as [(Hd & Hn & E)|(Hr & Hmiss & E)];
    rewrite (bind_Ret _ _ _ _ _ E).
  - erewrite run_get_buf by (ks; by apply list_lookup_insert_eq).
    pose proof (bi_ok _ _ _ _ _ _ Hbi i b Hi Hb Hd) as Hok.
    change (b_valid (hit_buf pid b)) with (b_valid b).
    rewrite (ok_valid _ _ _ _ _ _ Hok). cbn [negb]. rewrite run_when_false. simpl ret.
    split_and!; [split; ks; [exists l; by eapply lru_insert| |apply Hinv..]
                |apply bio_frame_upd|done].
    eapply (bufs_inv_insert _ _ _ V V P P H _ _ i bno); try done; try apply Hbi.
    + intros j Hj (b' & Hb' & Hd' & Hn').
      eapply (bi_uniq _ _ _ _ _ _ Hbi j i b' b); congruence.
    + intros b' Hb' _ Hne. congruence.
    + intros x Hx. by rewrite lookup_insert_ne.
    + intros j. rewrite lookup_insert_eq. congruence.
    + by rewrite lookup_insert_eq.
    + destruct Hok as [O1 O2 O3 O4 O5].
      split; simpl; rewrite ?Hn, ?lookup_insert_eq in *; try congruence.
      * rewrite O3, HN. rewrite (bool_decide_false (is_Some None)) by (by intros [? ?]).
        rewrite (bool_decide_true (is_Some (Some i))) by eauto.
        case_bool_decide; apply u32_small; simpl; lia.
      * intros j [= ->]. done.
  - erewrite run_get_buf by (ks; by apply list_lookup_insert_eq).
    cbn [recycled_buf set_b_lock set_b_refcnt set_b_valid set_b_blockno set_b_dev b_valid negb].
    rewrite run_when_true, bind_assoc.
    match goal with |- context [bind (virtio_disk_rw i false) _ ?s1] => set (s1' := s1) end.
    destruct (virtio_disk_rw_ok i false (recycled_buf pid ROOTDEV bno b) s1') as (ps & Hw & E2).
    { unfold s1'. ks. by apply list_lookup_insert_eq. } { done. }
    rewrite (bind_Ret _ _ _ _ _ E2). unfold disk_rw, s1'. ks.
    erewrite run_upd_buf by (ks; apply list_lookup_insert_eq; by rewrite length_insert).
    ks. rewrite !list_insert_insert_eq. simpl ret.
    assert (bno ∉ P) as HnP.
    { intros HP. destruct (bi_pin _ _ _ _ _ _ Hbi _ HP) as (j & Hj & Hc). by eapply Hmiss. }
    split_and!; [split; ks| |done].
    + exists l. by eapply lru_insert.
    + eapply (bufs_inv_insert _ _ _ V V P P H _ _ i bno); try done; try apply Hbi.
      * intros j Hj Hc. by apply Hmiss in Hc.
      * intros b' Hb' Hd' _. assert (b' = b) as -> by congruence.
        pose proof (bi_ok _ _ _ _ _ _ Hbi i b Hi Hb Hd') as Hok.
        rewrite (ok_refcnt _ _ _ _ _ _ Hok) in Hr.
        destruct (H !! b_blockno b); revert Hr; do 2 case_bool_decide; simpl; try lia; try done.
        intros _. exfalso. eauto.
      * intros x Hx. by rewrite lookup_insert_ne.
      * intros j. rewrite lookup_insert_eq. congruence.
      * by rewrite lookup_insert_eq.
      * split; simpl; rewrite ?lookup_insert_eq; try done.
        -- symmetry. by apply (bi_clean _ _ _ _ _ _ Hbi).
        -- rewrite (bool_decide_false (bno ∈ P)) by done.
           by rewrite (bool_decide_true (is_Some (Some i))) by eauto.
        -- intros j [= ->]. done.
    + eapply procs_full_woken; [|apply Hinv]. done.
    + eapply running_pid_woken; [| |apply Hinv]; done.
    + eexists _, (k_disk s), ps. split; [done|]. by destruct s.
Qed.

Lemma held_buf bno i :
  H !! bno = Some i -> exists b, (i < nbuf)%nat /\ k_bufs s !! i = Some b /\
    b_dev b = ROOTDEV /\ b_blockno b = bno /\ b_lock b = mk_sleeplock true pid /\
    buf_ok pid V P H i b.
Proof using Hinv.
  intros Hh. pose proof (inv_bufs _ _ _ _ _ Hinv) as Hbi.
  destruct (bi_held _ _ _ _ _ _ Hbi _ _ Hh) as (Hi & b & Hb & Hd & Hn).
  pose proof (bi_ok _ _ _ _ _ _ Hbi i b Hi Hb Hd) as Hok. exists b. split_and!; try done.
  apply (ok_held _ _ _ _ _ _ Hok i). by rewrite Hn.
Qed.

(** No other buffer is a held one's block. *)
Lemma held_uniq bno i j :
  H !! bno = Some i -> (j < nbuf)%nat -> caches (k_bufs s) ROOTDEV bno j -> j = i.
Proof using Hinv.
  intros Hh Hj (b' & Hb' & Hd' & Hn').
  destruct (held_buf _ _ Hh) as (b & Hi & Hb & Hd & Hn & _).
  eapply (bi_uniq _ _ _ _ _ _ (inv_bufs _ _ _ _ _ Hinv) j i b' b); congruence.
Qed.

Lemma bwrite_law bno i :
  k_held s = [] -> H !! bno = Some i ->
  wp (bwrite i) (fun _ s' =>
    bio_inv pid s' V P H /\ bio_frame s s' /\
    k_disk s' = disk_write bno (V bno) (k_disk s)) s.
Proof using Hinv.
  intros Hh Hi. destruct (held_buf _ _ Hi) as (b & Hlt & Hb & Hd & Hn & Hlk & Hok).
  pose proof (inv_bufs _ _ _ _ _ Hinv) as Hbi. unfold bwrite, wp.
  erewrite bind_Ret by (eapply holdingsleep_buf; [done|apply Hinv|rewrite Hh; apply not_elem_of_nil]).
  rewrite Hlk. cbn [sl_locked sl_pid andb]. rewrite Z.eqb_refl. cbn [negb].
  destruct (virtio_disk_rw_ok i true b s Hb Hh) as (ps & Hw & ->). unfold disk_rw.
  rewrite Hn, (ok_data _ _ _ _ _ _ Hok), Hn.
  split_and!; [split; ks| |done].
  - apply Hinv.
  - rewrite <- (list_insert_id (k_bufs s) i b Hb).
    eapply (bufs_inv_insert _ _ _ V V P P H H _ i bno); try done; try apply Hbi.
    + by eapply lookup_lt_Some.
    + intros j. by apply held_uniq.
    + intros b' Hb' _ Hne. congruence.
    + congruence.
    + intros x Hx. rewrite dblk_write. unfold vupd. by rewrite decide_False.
    + rewrite Hi. done.
    + apply disk_ok_write; apply Hbi.
  - eapply procs_full_woken; [|apply Hinv]. done.
  - eapply running_pid_woken; [| |apply Hinv]; done.
  - eexists (k_bufs s), _, ps. split; [done|]. by destruct s.
Qed.

(** Changing the reference count, the lock or the data of a held buffer. *)
Lemma held_insert bno i b b' V' P' H' :
  H !! bno = Some i -> k_bufs s !! i = Some b ->
  b_dev b' = b_dev b -> b_blockno b' = b_blockno b ->
  (forall x, x <> bno -> V' x = V x) ->
  (forall x, x <> bno -> x ∈ P' <-> x ∈ P) ->
  (forall x, x <> bno -> H' !! x = H !! x) ->
  (forall j, H' !! bno = Some j -> j = i) ->
  (bno ∉ P' -> H' !! bno = None -> V' bno = dblk (k_disk s) bno) ->
  block_ok (V' bno) ->
  buf_ok pid V' P' H' i b' ->
  bufs_inv pid (k_disk s) V' P' H' (<[i := b']> (k_bufs s)).
Proof using Hinv.
  intros Hh Hb Ed En HV HP HH HHi Hcl Hblk Hok.
  destruct (held_buf _ _ Hh) as (b0 & Hlt & Hb0 & Hd & Hn & _).
  assert (b0 = b) as -> by congruence. pose proof (inv_bufs _ _ _ _ _ Hinv) as Hbi.
  eapply (bufs_inv_insert _ _ _ V V' P P' H H' _ i bno); try done; try congruence; try apply Hbi.
  - by eapply lookup_lt_Some.
  - intros j. by apply held_uniq.
Qed.

Lemma brelse_law bno i :
  k_held s = [] -> H !! bno = Some i -> (bno ∈ P \/ V bno = dblk (k_disk s) bno) ->
  wp (brelse i) (fun _ s' =>
    bio_inv pid s' V P (delete bno H) /\ bio_frame s s' /\ k_disk s' = k_disk s) s.
Proof using Hinv.
  intros Hh Hi Hclean. destruct (held_buf _ _ Hi) as (b & Hlt & Hb & Hd & Hn & Hlk & Hok).
  destruct (inv_lru _ _ _ _ _ Hinv) as [l Hl]. pose proof (inv_bufs _ _ _ _ _ Hinv) as Hbi.
  unfold wp. rewrite (brelse_run i b pid s l) by first [done|apply Hinv].
  assert (Hl1 : lru (<[i := released_buf b]> (k_bufs s)) l) by (by eapply lru_insert).
  assert (Hrc : u32 (b_refcnt b - 1) = b2z (bool_decide (bno ∈ P))).
  { rewrite (ok_refcnt _ _ _ _ _ _ Hok), Hn, Hi.
    rewrite (bool_decide_true (is_Some (Some i))) by eauto. case_bool_decide; done. }
  assert (Hb1 : bufs_inv pid (k_disk s) V P (delete bno H)
    (<[i := released_buf b]> (k_bufs s))).
  { eapply (held_insert bno i b); try done.
    - intros x Hx. by rewrite lookup_delete_ne.
    - by rewrite lookup_delete_eq.
    - intros HnP _. by destruct Hclean.
    - apply Hbi.
    - destruct Hok as [O1 O2 O3 O4 O5].
      split; simpl; rewrite ?Hn, ?lookup_delete_eq in *; try done.
      rewrite Hrc, (bool_decide_false (is_Some None)) by (by intros [? ?]).
      cbn [b2z]. lia. }
  split_and!; [split; ks| |done].
  - unfold brelse_bufs. cbv zeta. case_match; [|by exists l].
    exists (to_front i l). by apply lru_relink.
  - unfold brelse_bufs. cbv zeta. case_match; [|done].
    eapply bufs_inv_cores; [apply cores_relink|done].
  - eapply procs_full_woken; [|apply Hinv]. apply wake_woken.
  - eapply running_pid_woken; [| |apply Hinv]; [done|apply wake_woken].
  - eexists _, (k_disk s), _. split; [apply wake_woken|]. by destruct s.
Qed.

Lemma bpin_law bno i :
  LkBcache ∉ k_held s -> H !! bno = Some i -> bno ∉ P ->
  wp (bpin i) (fun _ s' =>
    bio_inv pid s' V ({[bno]} ∪ P) H /\ bio_frame s s' /\ k_disk s' = k_disk s) s.
Proof using Hinv.
  intros Hh Hi HnP. destruct (held_buf _ _ Hi) as (b & Hlt & Hb & Hd & Hn & Hlk & Hok).
  destruct (inv_lru _ _ _ _ _ Hinv) as [l Hl]. pose proof (inv_bufs _ _ _ _ _ Hinv) as Hbi.
  unfold bpin, wp. rewrite run_acquire by done. rewrite (run_upd_buf i b) by done.
  rewrite (release_ok _ (k_held s)) by done. ks.
  split_and!; [split; ks; [exists l; by eapply lru_insert| |apply Hinv..]| |done].
  - eapply (held_insert bno i b); try done; [set_solver|congruence|rewrite Hi; done|apply Hbi|].
    destruct Hok as [O1 O2 O3 O4 O5]. split; simpl; rewrite ?Hn in *; try done.
    rewrite O3, Hi, (bool_decide_false (bno ∈ P)) by done.
    rewrite (bool_decide_true (bno ∈ {[bno]} ∪ P)) by set_solver.
    by rewrite (bool_decide_true (is_Some (Some i))) by eauto.
  - eexists _, (k_disk s), (k_procs s). split; [done|]. by destruct s.
Qed.

Lemma bunpin_law bno i :
  LkBcache ∉ k_held s -> H !! bno = Some i -> bno ∈ P ->
  wp (bunpin i) (fun _ s' =>
    bio_inv pid s' V (P ∖ {[bno]}) H /\ bio_frame s s' /\ k_disk s' = k_disk s) s.
Proof using Hinv.
  intros Hh Hi HnP. destruct (held_buf _ _ Hi) as (b & Hlt & Hb & Hd & Hn & Hlk & Hok).
  destruct (inv_lru _ _ _ _ _ Hinv) as [l Hl]. pose proof (inv_bufs _ _ _ _ _ Hinv) as Hbi.
  unfold bunpin, wp. rewrite run_acquire by done. rewrite (run_upd_buf i b) by done.
  rewrite (release_ok _ (k_held s)) by done. ks.
  split_and!; [split; ks; [exists l; by eapply lru_insert| |apply Hinv..]| |done].
  - eapply (held_insert bno i b); try done; [set_solver|congruence|rewrite Hi; done|apply Hbi|].
    destruct Hok as [O1 O2 O3 O4 O5]. split; simpl; rewrite ?Hn in *; try done.
    rewrite O3, Hi, (bool_decide_true (bno ∈ P)) by done.
    rewrite (bool_decide_false (bno ∈ P ∖ {[bno]})) by set_solver.
    by rewrite (bool_decide_true (is_Some (Some i))) by eauto.
  - eexists _, (k_disk s), (k_procs s). split; [done|]. by destruct s.
Qed.

Lemma store_law bno i d b :
  H !! bno = Some i -> block_ok d -> k_bufs s !! i = Some b ->
  bio_inv pid (set_k_bufs (<[i := set_b_data d b]> (k_bufs s)) s) (vupd V bno d) P H.
Proof using Hinv.
  intros Hi Hd Hb. destruct (held_buf _ _ Hi) as (b0 & Hlt & Hb0 & Hdv & Hn & Hlk & Hok).
  assert (b0 = b) as -> by congruence.
  destruct (inv_lru _ _ _ _ _ Hinv) as [l Hl].
  split; ks; [exists l; by eapply lru_insert| |apply Hinv..].
  eapply (held_insert bno i b); try done.
  - intros x Hx. unfold vupd. by rewrite decide_False.
  - congruence.
  - by rewrite Hi.
  - unfold vupd. by rewrite decide_True.
  - destruct Hok as [O1 O2 O3 O4 O5]. split; simpl; try done.
    unfold vupd. by rewrite decide_True.
Qed.

Lemma frame_law s' :
  k_bufs s' = k_bufs s -> k_disk s' = k_disk s -> k_cur s' = k_cur s ->
  procs_woken (k_procs s) (k_procs s') -> bio_inv pid s' V P H.
Proof using Hinv.
  intros E1 E2 E3 Hw. split; rewrite ?E1, ?E2; try apply Hinv.
  - eapply procs_full_woken; [done|apply Hinv].
  - eapply running_pid_woken; [done..|apply Hinv].
Qed.

Lemma ext_law V' : (forall bno, V' bno = V bno) -> bio_inv pid s V' P H.
Proof using Hinv.
  intros E. assert (V' = V) as ->; [|done]. by apply functional_extensionality.
Qed.
End Laws.

(** ** binit *)

(** A round of binit's loop, on the buffers. *)
Definition binit_round (i : nat) (bs : list buf) : list buf :=
  push i (alter (set_b_lock (mk_sleeplock false 0)) i bs).

Lemma nx_alter_lock bs lk x : nx (alter (set_b_lock lk) x bs) = nx bs.
Proof.
  apply functional_extensionality. intros j. unfold nx. rewrite list_lookup_alter.
  case_decide; [subst|done]. by destruct (bs !! j).
Qed.
Lemma pv_alter_lock bs lk x : pv (alter (set_b_lock lk) x bs) = pv bs.
Proof.
  apply functional_extensionality. intros j. unfold pv. rewrite list_lookup_alter.
  case_decide; [subst|done]. by destruct (bs !! j).
Qed.

Lemma binit_round_run i bs s :
  k_bufs s = bs -> length bs = S nbuf -> (i < nbuf)%nat -> (nx bs bhead < length bs)%nat ->
  (let! h := get_buf bhead in
   upd_buf i (set_b_next (b_next h)) ;;
   upd_buf i (set_b_prev bhead) ;;
   upd_buf i (set_b_lock (mk_sleeplock false 0)) ;;
   let! h := get_buf bhead in
   upd_buf (b_next h) (set_b_prev i) ;;
   upd_buf bhead (set_b_next i)) s = Ret tt (set_k_bufs (binit_round i bs) s).
Proof.
  intros <- Hlen Hi Hn. set (bs := k_bufs s) in *.
  assert (bhead < length bs)%nat as Hh by (unfold bhead; lia).
  rewrite run_get_link by done. fold bs.
  rewrite run_upd_link by (fold bs; lia). rewrite run_upd_link by (ks; rewrite length_alter; fold bs; lia).
  rewrite run_upd_link by (ks; rewrite !length_alter; fold bs; lia).
  rewrite run_get_link by (ks; rewrite !length_alter; fold bs; lia). ks. fold bs.
  set (bs3 := alter (set_b_lock _) i _).
  assert (bs3 = alter (set_b_prev bhead) i (alter (set_b_next (nx bs bhead)) i
    (alter (set_b_lock (mk_sleeplock false 0)) i bs))) as E3.
  { apply list_eq. intros j. unfold bs3. rewrite !list_lookup_alter.
    rewrite !(decide_True (P := i = i)) by done.
    case_decide; [|done]. by destruct (bs !! i). }
  clearbody bs3. change (b_next (default zero_buf (bs3 !! bhead))) with (nx bs3 bhead).
  assert (nx bs3 bhead = nx bs bhead) as En.
  { rewrite E3, nx_alter_prev, nx_alter_next by (rewrite length_alter; lia).
    rewrite nx_alter_lock. apply fupd_ne. unfold bhead. lia. }
  assert (length bs3 = length bs) as Hl3 by (rewrite E3; by rewrite !length_alter).
  rewrite run_upd_link by (ks; lia). ks.
  unfold binit_round, push. rewrite nx_alter_lock, <- E3. cbv zeta.
  assert (bhead < length (alter (set_b_prev i) (nx bs3 bhead) bs3))%nat as Hlt
    by (rewrite length_alter; lia).
  destruct (lookup_lt_is_Some_2 _ _ Hlt) as [b Hb].
  unfold upd_buf. rewrite (run_get_buf bhead b) by done. ks.
  by rewrite (list_alter_insert _ _ _ _ Hb).
Qed.

Lemma lookup_binit_round i bs j b :
  length bs = S nbuf -> (i < nbuf)%nat -> (j < nbuf)%nat ->
  binit_round i bs !! j = Some b -> exists b0, bs !! j = Some b0 /\
    b_dev b = b_dev b0 /\ b_refcnt b = b_refcnt b0 /\
    (sl_locked (b_lock b0) = false -> sl_locked (b_lock b) = false).
Proof.
  intros Hlen Hi Hj Hb.
  assert (core <$> binit_round i bs = core <$> alter (set_b_lock (mk_sleeplock false 0)) i bs) as E.
  { unfold binit_round, push. by repeat first [rewrite cores_alter_next | rewrite cores_alter_prev]. }
  destruct (cores_lookup _ _ _ _ E Hb) as (b1 & Hb1 & Hc).
  destruct (core_fields _ _ Hc) as (_ & -> & _ & -> & -> & _).
  rewrite list_lookup_alter in Hb1. case_decide; [subst i|].
  - destruct (bs !! j) as [b0|]; [|done]. exists b0. simplify_eq/=. done.
  - exists b1. done.
Qed.

Record binit_loop_inv (pid : Z) (s0 : kstate) (pre : list nat) (s : kstate) : Prop := {
  bl_state : exists bs, s = set_k_bufs bs s0;
  bl_ring : ring (nx (k_bufs s)) (pv (k_bufs s)) bhead (reverse pre);
  bl_boot : boot_state pid s;
}.

Lemma binit_loop_step pid s0 pre i rest s :
  seq 0 nbuf = pre ++ i :: rest -> binit_loop_inv pid s0 pre s ->
  binit_loop_inv pid s0 (pre ++ [i]) (set_k_bufs (binit_round i (k_bufs s)) s) /\
  (i < nbuf)%nat /\ (nx (k_bufs s) bhead < length (k_bufs s))%nat.
Proof.
  intros Hseq [[bs Hst] Hr Hb].
  assert (Hin : forall z, z ∈ pre ++ i :: rest -> (z < nbuf)%nat).
  { intros z. rewrite <- Hseq, elem_of_seq. lia. }
  assert (i < nbuf)%nat as Hi by (apply Hin; set_solver).
  pose proof (NoDup_seq 0 nbuf) as Hnd. rewrite Hseq in Hnd.
  apply NoDup_app in Hnd as (Hnd & Hd & _).
  assert (nx (k_bufs s) bhead < length (k_bufs s))%nat as Hn.
  { rewrite (boot_len _ _ Hb), (ring_first _ _ _ _ Hr).
    destruct (reverse pre) as [|z r] eqn:E; simpl; [unfold bhead; lia|].
    assert (z < nbuf)%nat; [|lia]. apply Hin, elem_of_app. left.
    rewrite <- elem_of_reverse, E. by left. }
  split; [|done]. split; ks.
  - exists (binit_round i (k_bufs s)). by rewrite Hst.
  - rewrite reverse_snoc. unfold binit_round.
    destruct (links_push i (alter (set_b_lock (mk_sleeplock false 0)) i (k_bufs s))) as [-> ->];
      rewrite ?length_alter, ?nx_alter_lock; rewrite ?(boot_len _ _ Hb) in *;
      [unfold bhead; lia.. | lia | unfold bhead; lia |].
    rewrite ?nx_alter_lock, ?pv_alter_lock. apply ring_push; [| |done].
    + constructor; [|by rewrite reverse_Permutation]. rewrite elem_of_reverse. intros Hbh.
      assert (bhead < nbuf)%nat; [|unfold bhead in *; lia]. apply Hin. set_solver.
    + rewrite not_elem_of_cons, elem_of_reverse. split; [unfold bhead; lia|].
      intros Hp. apply (Hd i Hp). by left.
  - split; ks; try apply Hb.
    + unfold binit_round. by rewrite length_push, length_alter, (boot_len _ _ Hb).
    + intros j b Hj Hbj.
      destruct (lookup_binit_round _ _ _ _ (boot_len _ _ Hb) Hi Hj Hbj) as (b0 & Hb0 & -> & -> & Hl).
      destruct (boot_fresh _ _ Hb j b0 Hj Hb0) as (? & ? & ?). auto.
Qed.

(** After binit the cache shows the disk, and nothing is pinned or held. *)
Lemma binit_run pid s :
  boot_state pid s ->
  wp binit (fun _ s' => bio_inv pid s' (dblk (k_disk s)) ∅ ∅ /\
    lru (k_bufs s') (reverse (seq 0 nbuf)) /\ exists bs, s' = set_k_bufs bs s) s.
Proof.
  intros Hboot. unfold binit.
  destruct (lookup_lt_is_Some_2 (k_bufs s) bhead) as [h Hh].
  { rewrite (boot_len _ _ Hboot). unfold bhead. lia. }
  assert (bhead < length (k_bufs s))%nat as Hlt by (by eapply lookup_lt_Some).
  apply wp_bind. eapply wp_upd_buf; [done|]. apply wp_bind.
  eapply wp_upd_buf; [ks; by apply list_lookup_insert_eq|]. ks. rewrite list_insert_insert_eq.
  apply (wp_for_each (binit_loop_inv pid s)).
  - split; ks.
    + by eexists.
    + cbn [reverse rev_append]. unfold ring. simpl. unfold nx, pv.
      by rewrite list_lookup_insert_eq.
    + split; ks; try apply Hboot; [rewrite length_insert; apply Hboot|].
      intros i b Hi Hb. rewrite list_lookup_insert_ne in Hb by (unfold bhead; lia).
      by apply (boot_fresh _ _ Hboot i).
  - intros pre i rest s1 Hseq Hinv1.
    destruct (binit_loop_step _ _ _ _ _ _ Hseq Hinv1) as (Hinv2 & Hi & Hn).
    unfold wp. erewrite binit_round_run; [done..| |done|done].
    apply (boot_len _ _ (bl_boot _ _ _ _ Hinv1)).
  - intros s1 [[bs ->] Hr Hb]. ks in Hr.
    assert (Hl : lru bs (reverse (seq 0 nbuf))).
    { split; [done|apply reverse_Permutation|apply (boot_len _ _ Hb)]. }
    split_and!; [split; ks|done|by exists bs]; [by eexists| |apply Hb..].
    assert (Hf := boot_fresh _ _ Hb). ks in Hf.
    split; [..|done|apply Hb|apply Hb].
    + intros i b Hi Hbi Hd. by destruct (Hf i b Hi Hbi).
    + intros i b Hi Hbi Hd. by destruct (Hf i b Hi Hbi) as (_ & ? & ?).
    + intros i j b b' Hi _ Hbi _ Hd. by destruct (Hf i b Hi Hbi).
    + intros bno i. by rewrite lookup_empty.
    + by intros bno ?%not_elem_of_empty.
Qed.

(** kernel/bio.c implements the block cache, over any disk driver. *)
#[refine] Definition bio_cache {W : Wakeups} {D : DiskDriver} : BlockCache := {|
  Cache.binit := binit; Cache.bread := bread; Cache.bwrite := bwrite; Cache.brelse := brelse;
  Cache.bpin := bpin; Cache.bunpin := bunpin; cache_inv := bio_inv;
  bread_ok pid s V P H bno Hi := bread_law pid s V P H Hi bno;
  bwrite_ok pid s V P H bno i Hi := bwrite_law pid s V P H Hi bno i;
  brelse_ok pid s V P H bno i Hi := brelse_law pid s V P H Hi bno i;
  bpin_ok pid s V P H bno i Hi := bpin_law pid s V P H Hi bno i;
  bunpin_ok pid s V P H bno i Hi := bunpin_law pid s V P H Hi bno i;
  cache_store pid s V P H bno i d b Hi := store_law pid s V P H Hi bno i d b;
|}.
Proof.
  - intros pid s V P H Hi. split; apply Hi.
  - intros pid s V P H bno Hi. apply Hi.
  - intros pid s V P H bno Hi. apply Hi.
  - intros pid s V P H bno i Hi Hh.
    destruct (held_buf pid s V P H Hi bno i Hh) as (b & ? & Hb & ? & Hn & ? & Hok).
    exists b. split_and!; [done| |done]. by rewrite (ok_data _ _ _ _ _ _ Hok), Hn.
  - intros pid s s' V P H Hi. by apply frame_law.
  - intros pid s V V' P H Hi. by apply ext_law.
  - intros pid s Hb. eapply wp_mono; [by apply binit_run|]. intros [] s' (? & _ & ?). done.
Defined.

(** ** A client of the cache sees a plain array of blocks *)

Inductive block_request := ReadBlock (bno : Z) | WriteBlock (bno : Z) (data : list Z).

Definition request_ok (r : block_request) : Prop :=
  match r with ReadBlock _ => True | WriteBlock _ d => block_ok d end.

Section Client.
Context {W : Wakeups} {D : DiskDriver}.

(** The reads' results, in order. *)
Fixpoint run_requests (rs : list block_request) : K (list (list Z)) :=
  match rs with
  | [] => ret []
  | ReadBlock bno :: rs' =>
      let! b := bread ROOTDEV bno in
      let! d := bdata b in
      brelse b ;;
      let! ds := run_requests rs' in
      ret (d :: ds)
  | WriteBlock bno data :: rs' =>
      let! b := bread ROOTDEV bno in
      set_bdata b data ;;
      bwrite b ;;
      brelse b ;;
      run_requests rs'
  end.

(** The same requests on an array of blocks. *)
Fixpoint array_requests (rs : list block_request) (A : Z -> list Z)
  : list (list Z) * (Z -> list Z) :=
  match rs with
  | [] => ([], A)
  | ReadBlock bno :: rs' =>
      let '(ds, A') := array_requests rs' A in (A bno :: ds, A')
  | WriteBlock bno data :: rs' => array_requests rs' (vupd A bno data)
  end.

Lemma run_requests_ok pid rs s V :
  bio_inv pid s V ∅ ∅ -> k_held s = [] -> Forall request_ok rs ->
  wp (run_requests rs) (fun ds s' =>
    bio_inv pid s' (snd (array_requests rs V)) ∅ ∅ /\ ds = fst (array_requests rs V)) s.
Proof.
  revert s V. induction rs as [|r rs IH]; intros s V Hinv Hh Hrs; [done|].
  apply Forall_cons in Hrs as [Hr Hrs].
  assert (Hbread : forall bno, wp (bread ROOTDEV bno) (fun i s' =>
    bio_inv pid s' V ∅ {[bno := i]} /\ bio_frame s s' /\ k_disk s' = k_disk s) s).
  { intros bno. eapply wp_mono; [apply (bread_law _ _ _ _ _ Hinv bno)|];
      [done|apply lookup_empty| |done].
    right. rewrite dom_empty_L, union_empty_l_L, size_empty. by apply Nat.ltb_lt. }
  destruct r as [bno|bno data]; cbn [run_requests array_requests].
  - apply wp_bind. eapply wp_mono; [apply Hbread|]. intros i s1 (Hi1 & Hf1 & Hd1).
    assert (k_held s1 = []) as Hh1 by (by destruct Hf1 as (? & ? & ? & _ & ->)).
    destruct (held_buf _ _ _ _ _ Hi1 bno i) as (b & _ & Hb & _ & Hn & _ & Hok); [apply lookup_singleton_eq|].
    apply wp_bind. unfold bdata. apply wp_bind. eapply wp_get_buf; [done|]. apply wp_ret.
    apply wp_bind. eapply wp_mono; [apply (brelse_law _ _ _ _ _ Hi1 bno)|].
    { done. } { apply lookup_singleton_eq. }
    { right. rewrite Hd1. apply (bi_clean _ _ _ _ _ _ (inv_bufs _ _ _ _ _ Hinv)); set_solver. }
    intros [] s2 (Hi2 & Hf2 & Hd2). rewrite delete_singleton_eq in Hi2.
    assert (k_held s2 = []) as Hh2 by (by destruct Hf2 as (? & ? & ? & _ & ->)).
    apply wp_bind. eapply wp_mono; [by apply IH|]. intros ds s3 [Hi3 ->].
    apply wp_ret. destruct (array_requests rs V). simpl in *. split; [done|].
    by rewrite (ok_data _ _ _ _ _ _ Hok), Hn.
  - apply wp_bind. eapply wp_mono; [apply Hbread|]. intros i s1 (Hi1 & Hf1 & Hd1).
    assert (k_held s1 = []) as Hh1 by (by destruct Hf1 as (? & ? & ? & _ & ->)).
    destruct (held_buf _ _ _ _ _ Hi1 bno i) as (b & _ & Hb & _); [apply lookup_singleton_eq|].
    apply wp_bind. eapply wp_upd_buf; [done|].
    pose proof (store_law _ _ _ _ _ Hi1 bno i data b (lookup_singleton_eq _ _) Hr Hb) as Hi2.
    apply wp_bind. eapply wp_mono; [apply (bwrite_law _ _ _ _ _ Hi2 bno i);
      [done|apply lookup_singleton_eq]|].
    intros [] s3 (Hi3 & Hf3 & Hd3).
    assert (k_held s3 = []) as Hh3 by (by destruct Hf3 as (? & ? & ? & _ & ->)).
    apply wp_bind. eapply wp_mono; [apply (brelse_law _ _ _ _ _ Hi3 bno)|].
    { done. } { apply lookup_singleton_eq. }
    { right. rewrite Hd3, dblk_write. unfold vupd. by rewrite !decide_True. }
    intros [] s4 (Hi4 & Hf4 & Hd4). rewrite delete_singleton_eq in Hi4.
    apply IH; [done| |done]. by destruct Hf4 as (? & ? & ? & _ & ->).
Qed.

(** C3. The buffer cache is transparent. After [binit], over any disk driver
    that meets its contract, any sequence of block reads and writes through
    bread, bwrite and brelse returns without panicking (however many
    distinct blocks it touches), every read returns what an array of blocks,
    starting from the disk's contents, would return, and the disk ends up
    holding the array. *)
Theorem cache_is_transparent pid rs s :
  boot_state pid s -> k_held s = [] -> Forall request_ok rs ->
  exists s', (binit ;; run_requests rs) s =
      Ret (fst (array_requests rs (dblk (k_disk s)))) s' /\
    forall bno, dblk (k_disk s') bno = snd (array_requests rs (dblk (k_disk s))) bno.
Proof.
  intros Hb Hh Hrs.
  assert (wp (binit ;; run_requests rs) (fun ds s' =>
    ds = fst (array_requests rs (dblk (k_disk s))) /\
    forall bno, dblk (k_disk s') bno = snd (array_requests rs (dblk (k_disk s))) bno) s) as Hwp.
  { apply wp_bind. eapply wp_mono; [by apply binit_run|]. intros [] s1 (Hi & _ & bs & ->).
    eapply wp_mono; [by apply run_requests_ok|]. intros ds s2 [Hi2 ->]. split; [done|].
    intros bno. symmetry. apply (bi_clean _ _ _ _ _ _ (inv_bufs _ _ _ _ _ Hi2)); set_solver. }
  apply wp_run in Hwp as (ds & s' & E & -> & Hd). by exists s'.
Qed.
End Client.

Lemma empty_disk_ok : disk_ok empty_disk.
Proof. intros bno. split; [done|]. apply (Forall_replicate (fun b => 0 <= b < 256)). lia. Qed.

Definition block_of (v : Z) : list Z := replicate (Z.to_nat BSIZE) v.

Lemma block_of_ok v : 0 <= v < 256 -> block_ok (block_of v).
Proof.
  intros Hv. split; [apply length_replicate|].
  by apply (Forall_replicate (fun b => 0 <= b < 256)).
Qed.

Lemma cache_is_transparent_witness :
  exists s', (binit ;; @run_requests 3%nat sync_disk
      [WriteBlock 7 (block_of 1); ReadBlock 8; ReadBlock 7]) (boot_kstate empty_disk) =
    Ret [block_of 0; block_of 1] s' /\
    forall bno, dblk (k_disk s') bno =
      vupd (dblk empty_disk) 7 (block_of 1) bno.
Proof.
  apply (@cache_is_transparent 3%nat sync_disk 1
    [WriteBlock 7 (block_of 1); ReadBlock 8; ReadBlock 7] (boot_kstate empty_disk)).
  - apply boot_kstate_ok, empty_disk_ok.
  - reflexivity.
  - constructor; [apply block_of_ok; lia|repeat constructor].
Defined.
