(* ===== verification/Log.v ===== *)
(** kernel/log.c: write-ahead logging of file-system blocks.

    The header block is read and written in its disk representation, a
    little-endian [int n] followed by [int block[LOGSIZE]]; an index outside
    [block] is undefined behaviour. A system crash loses everything but the
    disk, whose block writes are atomic and happen in program order. *)

From Stdlib Require Import FunctionalExtensionality.
From stdpp Require Import base numbers list gmap strings.
From S2P Require Import Prelude Params Mem State Locks Cache.

Definition upd_log (f : log -> log) : K unit :=
  modify (fun s => set_k_log (f (k_log s)) s).

(** [for (i = 0; i < bound; i++) body], the bound read in every round. *)
Fixpoint for_lt (fuel : nat) (i : nat) (bound : K Z) (body : nat -> K unit) : K unit :=
  match fuel with
  | O => fun _ => NoFuel
  | S f =>
      let! n := bound in
      if Z.of_nat i <? n then body i ;; for_lt f (S i) bound body else ret tt
  end.

(** The index is out of [block] before the loops over it go round more often. *)
Definition log_fuel : nat := Z.to_nat LOGSIZE + 2.

Definition lh_n_now : K Z := gets (fun s => lh_n (l_lh (k_log s))).

(** [log.lh.block[i]] and stores to it. *)
Definition lh_block_at (i : nat) : K Z :=
  let! l := gets k_log in of_option (lh_block (l_lh l) !! i).
Definition set_lh_block_at (i : nat) (v : Z) : K unit :=
  let! _ := lh_block_at i in
  upd_log (fun l => set_l_lh (set_lh_block (<[i := v]> (lh_block (l_lh l))) (l_lh l)) l).

(** A [struct logheader] in a block: [n] at 0, [block[i]] at [4 + 4 i]. *)
Definition hdr_n (d : list Z) : Z := s32 (get32 d 0).
Definition hdr_block (d : list Z) (i : nat) : Z := s32 (get32 d (4 + 4 * i)).
Definition sizeof_logheader : Z := 4 + 4 * LOGSIZE.

Section Ops.
Context {W : Wakeups} {C : BlockCache}.

Definition install_trans (recovering : bool) : K unit :=
  for_lt log_fuel 0 lh_n_now (fun tail =>
    let! l := gets k_log in
    let! lbuf := bread (u32 (l_dev l)) (u32 (l_start l + Z.of_nat tail + 1)) in
    let! dst := lh_block_at tail in
    let! dbuf := bread (u32 (l_dev l)) (u32 dst) in
    let! ld := bdata lbuf in
    set_bdata dbuf ld ;;                       (* copy block to dst *)
    bwrite dbuf ;;                             (* write dst to disk *)
    when (negb recovering) (bunpin dbuf) ;;
    brelse lbuf ;;
    brelse dbuf).

Definition read_head : K unit :=
  let! l := gets k_log in
  let! b := bread (u32 (l_dev l)) (u32 (l_start l)) in
  let! d := bdata b in
  upd_log (fun l => set_l_lh (set_lh_n (hdr_n d) (l_lh l)) l) ;;
  for_lt log_fuel 0 lh_n_now (fun i =>
    let! d := bdata b in
    set_lh_block_at i (hdr_block d i)) ;;
  brelse b.

Definition write_head : K unit :=
  let! l := gets k_log in
  let! b := bread (u32 (l_dev l)) (u32 (l_start l)) in
  let! d := bdata b in
  let! n := lh_n_now in
  set_bdata b (put32 d 0 n) ;;
  for_lt log_fuel 0 lh_n_now (fun i =>
    let! v := lh_block_at i in
    let! d := bdata b in
    set_bdata b (put32 d (4 + 4 * i) v)) ;;
  bwrite b ;;
  brelse b.

Definition recover_from_log : K unit :=
  read_head ;;
  install_trans true ;;
  upd_log (fun l => set_l_lh (set_lh_n 0 (l_lh l)) l) ;;
  write_head.

Definition initlog (dev : Z) (sb : superblock) : K unit :=
  if BSIZE <=? sizeof_logheader then panic "initlog: too big logheader"
  else
    upd_log (set_l_start (s32 (sb_logstart sb))) ;;
    upd_log (set_l_size (s32 (sb_nlog sb))) ;;
    upd_log (set_l_dev dev) ;;
    recover_from_log.

Definition begin_op : K unit :=
  acquire LkLog ;;
  loop (S wakeups) (fun _ =>
    let! l := gets k_log in
    if l_committing l then sleep ChLog LkLog ;; ret (inl tt)
    else if LOGSIZE <? lh_n (l_lh l) + (l_outstanding l + 1) * MAXOPBLOCKS
    then sleep ChLog LkLog ;; ret (inl tt)
    else
      upd_log (fun l => set_l_outstanding (l_outstanding l + 1) l) ;;
      release LkLog ;;
      ret (inr tt)) tt.

Definition write_log : K unit :=
  for_lt log_fuel 0 lh_n_now (fun tail =>
    let! l := gets k_log in
    let! to := bread (u32 (l_dev l)) (u32 (l_start l + Z.of_nat tail + 1)) in
    let! src := lh_block_at tail in
    let! from := bread (u32 (l_dev l)) (u32 src) in
    let! d := bdata from in
    set_bdata to d ;;
    bwrite to ;;                               (* write the log *)
    brelse from ;;
    brelse to).

Definition commit : K unit :=
  let! n := lh_n_now in
  when (0 <? n)
    (write_log ;;                              (* blocks from cache to log *)
     write_head ;;                             (* the real commit *)
     install_trans false ;;                    (* to their home locations *)
     upd_log (fun l => set_l_lh (set_lh_n 0 (l_lh l)) l) ;;
     write_head).                              (* erase from the log *)

Definition end_op : K unit :=
  acquire LkLog ;;
  upd_log (fun l => set_l_outstanding (l_outstanding l - 1) l) ;;
  let! l := gets k_log in
  if l_committing l then panic "log.committing"
  else
    let! do_commit :=
      (if l_outstanding l =? 0
       then upd_log (set_l_committing true) ;; ret true
       else wakeup ChLog ;; ret false) in
    release LkLog ;;
    when do_commit
      (commit ;;
       acquire LkLog ;;
       upd_log (set_l_committing false) ;;
       wakeup ChLog ;;
       release LkLog).

(** The search of log_write: the first [i] whose entry is the block, or
    [log.lh.n]. *)
Fixpoint find_logged (fuel i : nat) (blockno : Z) : K nat :=
  match fuel with
  | O => fun _ => NoFuel
  | S f =>
      let! n := lh_n_now in
      if Z.of_nat i <? n
      then
        let! v := lh_block_at i in
        if u32 v =? blockno then ret i else find_logged f (S i) blockno
      else ret i
  end.

Definition log_write (b : nat) : K unit :=
  acquire LkLog ;;
  let! l := gets k_log in
  if (LOGSIZE <=? lh_n (l_lh l)) || (l_size l - 1 <=? lh_n (l_lh l))
  then panic "too big a transaction"
  else if l_outstanding l <? 1 then panic "log_write outside of trans"
  else
    let! bf := get_buf b in
    let! i := find_logged log_fuel 0 (b_blockno bf) in
    set_lh_block_at i (s32 (b_blockno bf)) ;;
    let! n := lh_n_now in
    when (Z.of_nat i =? n)                     (* Add new block to log? *)
      (bpin b ;;
       upd_log (fun l => set_l_lh (set_lh_n (lh_n (l_lh l) + 1) (l_lh l)) l)) ;;
    release LkLog.
End Ops.

(** ** The disk as a sequence of writes *)

Definition writes (ws : list (Z * list Z)) (d : disk) : disk :=
  foldl (fun d w => disk_write w.1 w.2 d) d ws.

Lemma writes_app ws1 ws2 d : writes (ws1 ++ ws2) d = writes ws2 (writes ws1 d).
Proof. apply foldl_app. Qed.

Lemma writes_cons b v ws d : writes ((b, v) :: ws) d = writes ws (disk_write b v d).
Proof. done. Qed.

Lemma writes_trace ws d : d_trace (writes ws d) = reverse ws ++ d_trace d.
Proof.
  revert d. induction ws as [|[b v] ws IH]; intros d; [done|].
  rewrite writes_cons, IH. simpl.
  by rewrite reverse_cons, <- app_assoc.
Qed.

(** The trace determines the writes. *)
Lemma writes_inj ws ws' d : writes ws d = writes ws' d -> ws = ws'.
Proof.
  intros E. apply (f_equal d_trace) in E. rewrite !writes_trace in E.
  apply (inj (.++ _)) in E. by apply (inj reverse).
Qed.

(** The contents after the writes. *)
Definition vwrites (ws : list (Z * list Z)) (V : Z -> list Z) : Z -> list Z :=
  foldl (fun V w => vupd V w.1 w.2) V ws.

Lemma vwrites_cons b v ws V : vwrites ((b, v) :: ws) V = vwrites ws (vupd V b v).
Proof. done. Qed.

Lemma vwrites_app ws1 ws2 V : vwrites (ws1 ++ ws2) V = vwrites ws2 (vwrites ws1 V).
Proof. apply foldl_app. Qed.

Lemma vwrites_snoc ws b v V : vwrites (ws ++ [(b, v)]) V = vupd (vwrites ws V) b v.
Proof. by rewrite vwrites_app. Qed.

Lemma dblk_writes ws d : dblk (writes ws d) = vwrites ws (dblk d).
Proof.
  revert d. induction ws as [|[b v] ws IH]; intros d; [done|].
  rewrite writes_cons, vwrites_cons, IH. f_equal.
  apply functional_extensionality. intros x. apply dblk_write.
Qed.

Lemma vupd_eq V b v : vupd V b v b = v.
Proof. unfold vupd. by rewrite decide_True. Qed.
Lemma vupd_ne V b v x : x <> b -> vupd V b v x = V x.
Proof. intros. unfold vupd. by rewrite decide_False. Qed.
Lemma vupd_twice V b v v' : vupd (vupd V b v) b v' = vupd V b v'.
Proof. apply functional_extensionality. intros x. unfold vupd. by case_decide. Qed.
Lemma vupd_same V b v : V b = v -> vupd V b v = V.
Proof. intros <-. apply functional_extensionality. intros x. unfold vupd. by case_decide; subst. Qed.

(** A block that is not written keeps its contents; one written once has
    what was written. *)
Lemma vwrites_out ws V x : (x ∉ ws.*1) -> vwrites ws V x = V x.
Proof.
  revert V. induction ws as [|[b v] ws IH]; intros V Hx; [done|].
  rewrite fmap_cons, not_elem_of_cons in Hx. destruct Hx as [Hb Hx].
  by rewrite vwrites_cons, IH, vupd_ne.
Qed.

Lemma vwrites_agree ws V V' x : V x = V' x -> vwrites ws V x = vwrites ws V' x.
Proof.
  revert V V'. induction ws as [|[b v] ws IH]; intros V V' E; [done|].
  rewrite !vwrites_cons. apply IH. unfold vupd. by case_decide.
Qed.

Lemma vwrites_in ws V x v : NoDup ws.*1 -> (x, v) ∈ ws -> vwrites ws V x = v.
Proof.
  revert V. induction ws as [|[b w] ws IH]; intros V Hnd Hin; [by apply not_elem_of_nil in Hin|].
  rewrite fmap_cons in Hnd. apply NoDup_cons in Hnd as [Hb Hnd]. rewrite vwrites_cons.
  apply elem_of_cons in Hin as [[= -> ->]|Hin]; [|by apply IH].
  by rewrite vwrites_out, vupd_eq.
Qed.

Lemma disk_ok_writes ws d :
  disk_ok d -> Forall (fun w => block_ok w.2) ws -> disk_ok (writes ws d).
Proof.
  intros Hd Hws. revert d Hd. induction Hws as [|[b v] ws Hv Hws IH]; intros d Hd; [done|].
  apply IH. by apply disk_ok_write.
Qed.

(** ** Rules for the operations of the cache

    [St V P H d lg s]: the cache is in the state [V], [P], [H]; the disk is
    [d] and the log structure [lg]; no spinlock is held; and nothing else
    has changed since [s0]. *)

Definition log_frame (s0 s : kstate) : Prop :=
  exists bs d ps lg, procs_woken (k_procs s0) ps /\
    s = set_k_bufs bs (set_k_disk d (set_k_procs ps (set_k_log lg s0))).

#[export] Instance log_frame_preorder : PreOrder log_frame.
Proof.
  split.
  - intros s. exists (k_bufs s), (k_disk s), (k_procs s), (k_log s).
    split; [done|]. by destruct s.
  - intros s1 s2 s3 (bs & d & ps & lg & Hw & ->) (bs' & d' & ps' & lg' & Hw' & ->).
    exists bs', d', ps', lg'. split; [by etrans|done].
Qed.

Lemma bio_log_frame s s' : bio_frame s s' -> log_frame s s'.
Proof.
  intros (bs & d & ps & Hw & ->). exists bs, d, ps, (k_log s). split; [done|]. by destruct s.
Qed.

Section Rules.
Context {C : BlockCache} (pid : Z) (s0 : kstate) (Hh0 : k_held s0 = []).
Implicit Types (V : Z -> list Z) (P : gset Z) (H : gmap Z nat) (d : disk) (lg : log).

Record St V P H d lg (s : kstate) : Prop := {
  st_inv : cache_inv pid s V P H;
  st_disk : k_disk s = d;
  st_log : k_log s = lg;
  st_frame : log_frame s0 s;
}.

Lemma st_held V P H d lg s : St V P H d lg s -> k_held s = [].
Proof using Hh0. intros [_ _ _ (? & ? & ? & ? & _ & ->)]. done. Qed.

Lemma st_bio V P H d lg s V' P' H' d' s' :
  St V P H d lg s -> cache_inv pid s' V' P' H' -> bio_frame s s' -> k_disk s' = d' ->
  St V' P' H' d' lg s'.
Proof using Type.
  intros [Hi Hd Hl Hf] Hi' Hf' Hd'. split; [done..| |].
  - by destruct Hf' as (? & ? & ? & _ & ->).
  - etrans; [done|by apply bio_log_frame].
Qed.

Lemma st_upd_log V P H d lg s f :
  St V P H d lg s -> St V P H d (f lg) (set_k_log (f (k_log s)) s).
Proof using Type.
  intros [Hi Hd Hl Hf]. split; ks; [|done|by rewrite Hl|].
  - by eapply cache_frame.
  - etrans; [done|]. exists (k_bufs s), (k_disk s), (k_procs s), (f (k_log s)).
    split; [done|]. by destruct s.
Qed.

Lemma wp_upd_log V P H d lg s f (Q : unit -> kstate -> Prop) :
  St V P H d lg s -> (forall s', St V P H d (f lg) s' -> Q tt s') -> wp (upd_log f) Q s.
Proof using Type. intros Hs HQ. apply wp_modify, HQ. by eapply st_upd_log. Qed.

Lemma wp_bread V P H d lg s bno (Q : nat -> kstate -> Prop) :
  St V P H d lg s -> H !! bno = None ->
  (bno ∈ P \/ (size (P ∪ dom H) < nbuf)%nat) ->
  (forall i s', St V P (<[bno := i]> H) d lg s' -> Q i s') ->
  wp (bread ROOTDEV bno) Q s.
Proof using Hh0.
  intros Hs HN Hcap HQ. eapply wp_mono.
  - apply (bread_ok pid s V P H bno (st_inv _ _ _ _ _ _ Hs) (st_held _ _ _ _ _ _ Hs) HN Hcap).
  - intros i s' (Hi & Hf & Hd). apply HQ. eapply st_bio; [done..|].
    by rewrite Hd, (st_disk _ _ _ _ _ _ Hs).
Qed.

Lemma wp_bwrite V P H d lg s bno i (Q : unit -> kstate -> Prop) :
  St V P H d lg s -> H !! bno = Some i ->
  (forall s', St V P H (disk_write bno (V bno) d) lg s' -> Q tt s') ->
  wp (bwrite i) Q s.
Proof using Hh0.
  intros Hs Hi HQ. eapply wp_mono.
  - apply (bwrite_ok pid s V P H bno i (st_inv _ _ _ _ _ _ Hs) (st_held _ _ _ _ _ _ Hs) Hi).
  - intros [] s' (Hc & Hf & Hd). apply HQ. eapply st_bio; [done..|].
    by rewrite Hd, (st_disk _ _ _ _ _ _ Hs).
Qed.

Lemma wp_brelse V P H d lg s bno i (Q : unit -> kstate -> Prop) :
  St V P H d lg s -> H !! bno = Some i -> (bno ∈ P \/ V bno = dblk d bno) ->
  (forall s', St V P (delete bno H) d lg s' -> Q tt s') ->
  wp (brelse i) Q s.
Proof using Hh0.
  intros Hs Hi Hc HQ. eapply wp_mono.
  - apply (brelse_ok pid s V P H bno i (st_inv _ _ _ _ _ _ Hs) (st_held _ _ _ _ _ _ Hs) Hi).
    by rewrite (st_disk _ _ _ _ _ _ Hs).
  - intros [] s' (Hc' & Hf & Hd). apply HQ. eapply st_bio; [done..|].
    by rewrite Hd, (st_disk _ _ _ _ _ _ Hs).
Qed.

Lemma wp_bunpin V P H d lg s bno i (Q : unit -> kstate -> Prop) :
  St V P H d lg s -> H !! bno = Some i -> bno ∈ P ->
  (forall s', St V (P ∖ {[bno]}) H d lg s' -> Q tt s') ->
  wp (bunpin i) Q s.
Proof using Hh0.
  intros Hs Hi HP HQ. eapply wp_mono.
  - apply (bunpin_ok pid s V P H bno i (st_inv _ _ _ _ _ _ Hs)); try done.
    rewrite (st_held _ _ _ _ _ _ Hs). apply not_elem_of_nil.
  - intros [] s' (Hc' & Hf & Hd). apply HQ. eapply st_bio; [done..|].
    by rewrite Hd, (st_disk _ _ _ _ _ _ Hs).
Qed.

Lemma wp_bdata V P H d lg s bno i (Q : list Z -> kstate -> Prop) :
  St V P H d lg s -> H !! bno = Some i -> Q (V bno) s -> wp (bdata i) Q s.
Proof using Type.
  intros Hs Hi HQ.
  destruct (cache_held pid s V P H bno i (st_inv _ _ _ _ _ _ Hs) Hi) as (b & Hb & Hd & _).
  unfold bdata. apply wp_bind. eapply wp_get_buf; [done|]. apply wp_ret. by rewrite Hd.
Qed.

Lemma wp_set_bdata V P H d lg s bno i v (Q : unit -> kstate -> Prop) :
  St V P H d lg s -> H !! bno = Some i -> block_ok v ->
  (forall s', St (vupd V bno v) P H d lg s' -> Q tt s') ->
  wp (set_bdata i v) Q s.
Proof using Type.
  intros Hs Hi Hv HQ.
  destruct (cache_held pid s V P H bno i (st_inv _ _ _ _ _ _ Hs) Hi) as (b & Hb & _).
  eapply wp_upd_buf; [done|]. apply HQ. eapply st_bio; [done| |apply bio_frame_upd|].
  - eapply cache_store; [apply Hs|done..].
  - apply Hs.
Qed.

Lemma wp_lh_block V P H d lg s i v (Q : Z -> kstate -> Prop) :
  St V P H d lg s -> lh_block (l_lh lg) !! i = Some v -> Q v s -> wp (lh_block_at i) Q s.
Proof using Type.
  intros Hs Hv HQ. unfold lh_block_at. wp_steps. rewrite (st_log _ _ _ _ _ _ Hs).
  by eapply wp_of_option.
Qed.

Lemma st_ext V V' P H d lg s :
  St V P H d lg s -> (forall b, V' b = V b) -> St V' P H d lg s.
Proof using Type. intros [] HV. split; try done. by eapply cache_ext. Qed.
End Rules.

(** Taking and giving back a spinlock, between cache operations. *)
Section Spin.
Context {C : BlockCache} (pid : Z) (s0 : kstate) (Hh0 : k_held s0 = []).
Implicit Types (V : Z -> list Z) (P : gset Z) (H : gmap Z nat) (d : disk) (lg : log).

Lemma st_rehold h h' V P H d lg s :
  k_held s0 = h -> St pid s0 V P H d lg s ->
  St pid (set_k_held h' s0) V P H d lg (set_k_held h' s).
Proof using Type.
  clear Hh0. intros Hh [Hi Hd Hl (bs & d' & ps & lg' & Hw & ->)]. split; ks; [|done..|].
  - by eapply cache_frame.
  - exists bs, d', ps, lg'. split; [done|]. by destruct s0.
Qed.

Lemma wp_st_acquire l V P H d lg s (Q : unit -> kstate -> Prop) :
  St pid s0 V P H d lg s ->
  (forall s', St pid (set_k_held [l] s0) V P H d lg s' -> Q tt s') ->
  wp (acquire l) Q s.
Proof using Hh0.
  intros Hs HQ. pose proof (st_held pid s0 Hh0 _ _ _ _ _ _ Hs) as Hh.
  apply wp_acquire; rewrite Hh; [apply not_elem_of_nil|]. apply HQ. by eapply st_rehold.
Qed.

Lemma wp_st_release l V P H d lg s (Q : unit -> kstate -> Prop) :
  St pid (set_k_held [l] s0) V P H d lg s ->
  (forall s', St pid s0 V P H d lg s' -> Q tt s') ->
  wp (release l) Q s.
Proof using Hh0.
  intros [Hi Hd Hl (bs & d' & ps & lg' & Hw & Es)] HQ.
  assert (k_held s = [l]) as Hh by (by rewrite Es).
  eapply wp_release; [done|]. apply HQ. split; ks; [by eapply cache_frame|done..|].
  exists bs, d', ps, lg'. split; [done|]. rewrite Es. destruct s0; ks in Hh0. by subst.
Qed.

Lemma wp_st_wakeup ch h V P H d lg s (Q : unit -> kstate -> Prop) :
  St pid (set_k_held h s0) V P H d lg s -> no_proc_lock h ->
  (forall s', St pid (set_k_held h s0) V P H d lg s' -> Q tt s') ->
  wp (wakeup ch) Q s.
Proof using Type.
  intros Hs Hn HQ. destruct (cache_procs _ _ _ _ _ (st_inv _ _ _ _ _ _ _ _ Hs)) as [Hf _].
  apply wp_wakeup; [|done|].
  { destruct Hs as [_ _ _ (bs & d' & ps & lg' & Hw & ->)]. done. }
  apply HQ. eapply (st_bio pid _ _ _ _ _ _ _ V P H d); [done| | |by destruct Hs].
  - eapply cache_frame; [apply Hs|done..|apply wake_woken].
  - exists (k_bufs s), (k_disk s), (wake ch (k_cur s) (k_procs s)).
    split; [apply wake_woken|]. by destruct s.
Qed.

Lemma wp_st_bpin l V P H d lg s bno i (Q : unit -> kstate -> Prop) :
  St pid (set_k_held [l] s0) V P H d lg s -> l <> LkBcache ->
  H !! bno = Some i -> bno ∉ P ->
  (forall s', St pid (set_k_held [l] s0) V ({[bno]} ∪ P) H d lg s' -> Q tt s') ->
  wp (bpin i) Q s.
Proof using Type.
  intros Hs Hl Hi HP HQ. eapply wp_mono.
  - apply (bpin_ok pid s V P H bno i (st_inv _ _ _ _ _ _ _ _ Hs)); try done.
    destruct Hs as [_ _ _ (bs & d' & ps & lg' & Hw & ->)]. ks.
    rewrite list_elem_of_singleton. done.
  - intros [] s' (Hc' & Hf & Hd). apply HQ. eapply st_bio; [done..|].
    by rewrite Hd, (st_disk _ _ _ _ _ _ _ _ Hs).
Qed.
End Spin.

(** The loops over the log's entries. *)
Lemma wp_for_lt (I : nat -> kstate -> Prop) n fuel body (Q : unit -> kstate -> Prop) s :
  (n < fuel)%nat -> I O s ->
  (forall j s, I j s -> lh_n (l_lh (k_log s)) = Z.of_nat n) ->
  (forall j s, (j < n)%nat -> I j s -> wp (body j) (fun _ s' => I (S j) s') s) ->
  (forall s, I n s -> Q tt s) ->
  wp (for_lt fuel 0 lh_n_now body) Q s.
Proof.
  intros Hf H0 Hn Hbody HQ.
  cut (forall k j fuel s, (j + k = n)%nat -> (k < fuel)%nat -> I j s ->
         wp (for_lt fuel j lh_n_now body) Q s).
  { intros Hc. by apply (Hc n O). }
  clear s H0 fuel Hf.
  induction k as [|k IH]; intros j fuel s Hj Hf HI; (destruct fuel as [|fuel]; [lia|]);
    cbn [for_lt]; apply wp_bind, wp_gets; rewrite (Hn j s HI).
  - destruct (Z.ltb_spec (Z.of_nat j) (Z.of_nat n)); [lia|]. apply wp_ret, HQ.
    by replace n with j by lia.
  - destruct (Z.ltb_spec (Z.of_nat j) (Z.of_nat n)); [|lia].
    apply wp_bind. eapply wp_mono; [apply Hbody; [lia|done]|].
    intros [] s' HI'. apply IH; [lia..|done].
Qed.

(** ** The header block *)

(** A header that lists the blocks [bl]. *)
Definition hdr_is (h : list Z) (bl : list Z) : Prop :=
  hdr_n h = Z.of_nat (length bl) /\ forall k b, bl !! k = Some b -> hdr_block h k = b.

Fixpoint put_blocks (h : list Z) (i : nat) (bl : list Z) : list Z :=
  match bl with
  | [] => h
  | b :: bl' => put_blocks (put32 h (4 + 4 * i) b) (S i) bl'
  end.

(** What write_head makes of a header block. *)
Definition hdr_put (h : list Z) (bl : list Z) : list Z :=
  put_blocks (put32 h 0 (Z.of_nat (length bl))) 0 bl.

Lemma put_blocks_snoc h i bl b :
  put_blocks h i (bl ++ [b]) = put32 (put_blocks h i bl) (4 + 4 * (i + length bl)) b.
Proof.
  revert h i. induction bl as [|c bl IH]; intros h i; simpl.
  - do 2 f_equal. lia.
  - rewrite IH. do 2 f_equal. lia.
Qed.

Lemma put32_block_ok h i v :
  (i + 4 <= Z.to_nat BSIZE)%nat -> block_ok h -> block_ok (put32 h i v).
Proof.
  intros Hi [Hl Hb]. split; [rewrite length_put32; lia|].
  by apply put_at_bytes, le_bytes_bytes.
Qed.

Lemma put_blocks_ok h i bl :
  block_ok h -> (i + length bl <= 255)%nat -> block_ok (put_blocks h i bl).
Proof.
  revert h i. induction bl as [|b bl IH]; intros h i Hh Hi; [done|]. simpl in *.
  apply IH; [|lia]. apply put32_block_ok; [plia|done].
Qed.

Lemma put_blocks_before h i bl j :
  block_ok h -> (i + length bl <= 255)%nat -> (j + 4 <= 4 + 4 * i)%nat ->
  get32 (put_blocks h i bl) j = get32 h j.
Proof.
  revert h i. induction bl as [|b bl IH]; intros h i Hh Hi Hj; [done|]. simpl in *.
  assert (Hl := proj1 Hh).
  rewrite IH; [|apply put32_block_ok; [plia|done]|lia..].
  apply get32_put32_other; plia.
Qed.

Lemma put_blocks_get h i bl k b :
  block_ok h -> (i + length bl <= 255)%nat -> bl !! k = Some b ->
  get32 (put_blocks h i bl) (4 + 4 * (i + k)) = u32 b.
Proof.
  revert h i k. induction bl as [|c bl IH]; intros h i k Hh Hi Hk; [done|].
  cbn [put_blocks]. simpl length in Hi.
  assert (Hl := proj1 Hh).
  assert (block_ok (put32 h (4 + 4 * i) c)) by (apply put32_block_ok; [plia|done]).
  destruct k as [|k]; simpl in Hk.
  - injection Hk as ->. rewrite put_blocks_before by (done || lia).
    replace (i + 0)%nat with i by lia. apply get32_put32. plia.
  - replace (i + S k)%nat with (S i + k)%nat by lia. apply IH; [done|lia|done].
Qed.

Lemma s32_u32 x : 0 <= x < 2 ^ 31 -> s32 (u32 x) = x.
Proof. intros. rewrite u32_small, s32_small; lia. Qed.

Lemma hdr_put_is h bl :
  block_ok h -> (length bl <= 30)%nat -> Forall (fun b => 0 <= b < 2 ^ 31) bl ->
  block_ok (hdr_put h bl) /\ hdr_is (hdr_put h bl) bl.
Proof.
  intros Hh Hl Hb. unfold hdr_put.
  assert (block_ok (put32 h 0 (Z.of_nat (length bl)))) as Hp
    by (apply put32_block_ok; [plia|done]).
  split; [apply put_blocks_ok; [done|lia]|]. split.
  - unfold hdr_n. rewrite put_blocks_before by (done || lia).
    rewrite get32_put32 by (destruct Hh; plia). apply s32_u32. lia.
  - intros k b Hk. unfold hdr_block.
    rewrite (put_blocks_get _ 0 bl k b) by (done || lia). apply s32_u32.
    rewrite Forall_lookup in Hb. by eapply Hb.
Qed.

(** ** What each operation does to the disk *)

Section Proofs.
Context {W : Wakeups} {C : BlockCache} (pid : Z) (s0 : kstate) (Hh0 : k_held s0 = []).
Context (start size_ : Z).

(** The log occupies [size] blocks from [start]: the header and [size - 1]
    data blocks; mkfs gives it LOGSIZE blocks. *)
Record geometry : Prop := {
  geo_start : 0 <= start;
  geo_size : 1 <= size_ <= LOGSIZE;
  geo_end : start + size_ < 2 ^ 31;
}.
Context (Hgeo : geometry).

Definition in_log (b : Z) : Prop := start <= b < start + size_.
Definition data_block (b : Z) : Prop := 0 <= b < 2 ^ 31 /\ ~ in_log b.

(** The in-memory log lists the blocks [bl]. *)
Record logged (lg : log) (bl : list Z) : Prop := {
  lg_start : l_start lg = start;
  lg_size : l_size lg = size_;
  lg_dev : l_dev lg = ROOTDEV;
  lg_n : lh_n (l_lh lg) = Z.of_nat (length bl);
  lg_len : length (lh_block (l_lh lg)) = Z.to_nat LOGSIZE;
  lg_blocks : forall k b, bl !! k = Some b -> lh_block (l_lh lg) !! k = Some b;
}.

Record blocks_ok (bl : list Z) : Prop := {
  bl_nodup : NoDup bl;
  bl_data : Forall data_block bl;
  bl_room : Z.of_nat (length bl) <= size_ - 1;
}.

Lemma blocks_ok_lookup bl k b :
  blocks_ok bl -> bl !! k = Some b ->
  data_block b /\ (k < length bl)%nat /\ u32 b = b /\
  u32 (start + Z.of_nat k + 1) = start + 1 + Z.of_nat k /\
  in_log (start + 1 + Z.of_nat k).
Proof using Hgeo.
  intros [_ Hd Hr] Hk. rewrite Forall_lookup in Hd. pose proof (Hd _ _ Hk) as Hb.
  assert (k < length bl)%nat as Hlt by (by eapply lookup_lt_Some).
  destruct Hgeo as [G1 G2 G3]. destruct Hb as [Hb1 Hb2].
  split_and!; [done|done|by rewrite u32_small by lia|rewrite u32_small; lia|].
  unfold in_log. lia.
Qed.

Lemma pins_room bl : blocks_ok bl -> (size (list_to_set bl : gset Z) < nbuf)%nat.
Proof using Hgeo.
  intros [Hnd _ Hr]. rewrite size_list_to_set by done. destruct Hgeo as [_ G2 _].
  unfold nbuf. plia.
Qed.

(** The writes of write_log and of install_trans. *)
Definition log_copies (V : Z -> list Z) (bl : list Z) : list (Z * list Z) :=
  imap (fun k b => (start + 1 + Z.of_nat k, V b)) bl.
Definition home_copies (V : Z -> list Z) (bl : list Z) : list (Z * list Z) :=
  imap (fun k b => (b, V (start + 1 + Z.of_nat k))) bl.

Lemma imap_take_S {A B} (f : nat -> A -> B) (l : list A) k x :
  l !! k = Some x -> imap f (take (S k) l) = imap f (take k l) ++ [f k x].
Proof using Type.
  intros Hk. rewrite (take_S_r _ _ _ Hk), imap_app. simpl.
  assert (k < length l)%nat by (by eapply lookup_lt_Some).
  rewrite length_take. do 2 f_equal. f_equal. lia.
Qed.

Lemma log_copies_fst V bl x : x ∈ (log_copies V bl).*1 -> blocks_ok bl -> in_log x.
Proof using Hgeo.
  intros Hx Hok. apply list_elem_of_fmap in Hx as ([a v] & -> & Hin).
  apply list_elem_of_lookup in Hin as [k Hk]. unfold log_copies in Hk.
  rewrite list_lookup_imap in Hk. destruct (bl !! k) eqn:E; [|done]. simplify_eq/=.
  by destruct (blocks_ok_lookup _ _ _ Hok E) as (_ & _ & _ & _ & ?).
Qed.

Lemma home_copies_fst V bl : (home_copies V bl).*1 = bl.
Proof using Type.
  unfold home_copies. apply list_eq. intros k. rewrite list_lookup_fmap, list_lookup_imap.
  by destruct (bl !! k).
Qed.

Lemma blocks_ok_take bl k : blocks_ok bl -> blocks_ok (take k bl).
Proof using Type.
  intros [Hnd Hd Hr]. split.
  - rewrite <- (take_drop k bl) in Hnd. by apply NoDup_app in Hnd as [? _].
  - by apply Forall_take.
  - rewrite length_take. lia.
Qed.

Implicit Types (V : Z -> list Z) (P : gset Z) (d : disk) (lg : log).
Abbreviation ST := (St pid s0).

Lemma write_head_ok V P d lg bl s (Q : unit -> kstate -> Prop) :
  ST V P ∅ d lg s -> logged lg bl -> blocks_ok bl -> start ∉ P ->
  (size P < nbuf)%nat ->
  (forall s', ST (vupd V start (hdr_put (V start) bl)) P ∅
                 (disk_write start (hdr_put (V start) bl) d) lg s' -> Q tt s') ->
  wp write_head Q s.
Proof using Hh0 Hgeo.
  intros Hs Hl Hok Hst Hcap HQ. unfold write_head.
  pose proof (cache_block _ _ _ _ _ start (st_inv _ _ _ _ _ _ _ _ Hs)) as Hblk.
  assert (Hlen : (length bl <= 30)%nat) by (destruct Hok, Hgeo; plia).
  wp_steps. rewrite (st_log _ _ _ _ _ _ _ _ Hs), (lg_dev _ _ Hl), (lg_start _ _ Hl).
  rewrite (u32_small start) by (destruct Hgeo; lia). change (u32 ROOTDEV) with ROOTDEV.
  eapply wp_bread; [done|exact Hs|apply lookup_empty| |].
  { right. by rewrite dom_empty_L, union_empty_r_L. }
  intros i s1 Hs1. rewrite insert_empty in Hs1.
  apply wp_bind. eapply (wp_bdata _ _ _ _ _ _ _ _ start); [done|apply lookup_singleton_eq|].
  apply wp_bind. apply wp_gets. rewrite (st_log _ _ _ _ _ _ _ _ Hs1), (lg_n _ _ Hl).
  apply wp_bind. eapply wp_set_bdata; [exact Hs1|apply lookup_singleton_eq| |].
  { apply put32_block_ok; [plia|done]. }
  intros s2 Hs2. apply wp_bind.
  set (h0 := put32 (V start) 0 (Z.of_nat (length bl))) in *.
  apply (wp_for_lt (fun j s => ST (vupd V start (put_blocks h0 0 (take j bl))) P
    {[start := i]} d lg s) (length bl)); [unfold log_fuel; plia|done| | |].
  - intros j s' Hs'. by rewrite (st_log _ _ _ _ _ _ _ _ Hs'), (lg_n _ _ Hl).
  - intros j s' Hj Hs'. destruct (lookup_lt_is_Some_2 bl j Hj) as [b Hb].
    apply wp_bind. eapply wp_lh_block; [done|by apply (lg_blocks _ _ Hl)|].
    apply wp_bind. eapply (wp_bdata _ _ _ _ _ _ _ _ start); [done|apply lookup_singleton_eq|].
    rewrite vupd_eq.
    eapply wp_set_bdata; [exact Hs'|apply lookup_singleton_eq| |].
    { apply put32_block_ok; [plia|]. apply put_blocks_ok; [|rewrite length_take; lia].
      apply put32_block_ok; [plia|done]. }
    intros s3 Hs3. rewrite vupd_twice in Hs3.
    rewrite (take_S_r _ _ _ Hb), put_blocks_snoc, length_take.
    replace (0 + j `min` length bl)%nat with j by lia. done.
  - intros s3 Hs3. rewrite firstn_all in Hs3. change (put_blocks h0 0 bl) with (hdr_put (V start) bl) in Hs3.
    apply wp_bind. eapply wp_bwrite; [done|exact Hs3|apply lookup_singleton_eq|].
    rewrite vupd_eq. intros s4 Hs4.
    eapply wp_brelse; [done|exact Hs4|apply lookup_singleton_eq| |].
    { right. by rewrite vupd_eq, dblk_write, vupd_eq. }
    rewrite delete_singleton_eq. done.
Qed.

(** Writes into the log leave the blocks outside it. *)
Lemma log_copies_out V V' bl x :
  blocks_ok bl -> ~ in_log x -> vwrites (log_copies V' bl) V x = V x.
Proof using Hgeo. intros Hok Hx. apply vwrites_out. intros Hin. by apply log_copies_fst in Hin. Qed.

Lemma write_log_ok V d lg bl s (Q : unit -> kstate -> Prop) :
  ST V (list_to_set bl) ∅ d lg s -> logged lg bl -> blocks_ok bl ->
  (forall s', ST (vwrites (log_copies V bl) V) (list_to_set bl) ∅
                 (writes (log_copies V bl) d) lg s' -> Q tt s') ->
  wp write_log Q s.
Proof using Hh0 Hgeo.
  intros Hs Hl Hok HQ. unfold write_log.
  assert (Hlen : (length bl <= 30)%nat) by (destruct Hok, Hgeo; plia).
  apply (wp_for_lt (fun j s => ST (vwrites (log_copies V (take j bl)) V) (list_to_set bl) ∅
    (writes (log_copies V (take j bl)) d) lg s) (length bl)); [unfold log_fuel; plia|done| | |].
  - intros j s' Hs'. by rewrite (st_log _ _ _ _ _ _ _ _ Hs'), (lg_n _ _ Hl).
  - intros j s' Hj Hs'. destruct (lookup_lt_is_Some_2 bl j Hj) as [b Hb].
    destruct (blocks_ok_lookup _ _ _ Hok Hb) as (Hdb & _ & Eb & Ea & Hla).
    set (a := start + 1 + Z.of_nat j) in *.
    set (V1 := vwrites (log_copies V (take j bl)) V) in *.
    assert (a <> b) as Hne by (intros ->; by destruct Hdb).
    assert (b ∈ (list_to_set bl : gset Z)) as HbP.
    { apply elem_of_list_to_set. by eapply list_elem_of_lookup_2. }
    assert (V1 b = V b) as EV by (apply log_copies_out; [by apply blocks_ok_take|apply Hdb]).
    wp_steps. rewrite (st_log _ _ _ _ _ _ _ _ Hs'), (lg_dev _ _ Hl), (lg_start _ _ Hl), Ea.
    change (u32 ROOTDEV) with ROOTDEV.
    eapply wp_bread; [done|exact Hs'|apply lookup_empty| |].
    { right. rewrite dom_empty_L, union_empty_r_L. by apply pins_room. }
    intros to s1 Hs1. rewrite insert_empty in Hs1.
    apply wp_bind. eapply wp_lh_block; [done|by apply (lg_blocks _ _ Hl)|]. rewrite Eb.
    apply wp_bind. eapply wp_bread; [done|exact Hs1|by rewrite lookup_singleton_ne|by left|].
    intros from s2 Hs2. apply wp_bind.
    eapply (wp_bdata _ _ _ _ _ _ _ _ b); [done|apply lookup_insert_eq|]. rewrite EV.
    assert (Hto : (<[b:=from]> {[a:=to]} : gmap Z nat) !! a = Some to).
    { rewrite lookup_insert_ne by done. apply lookup_singleton_eq. }
    apply wp_bind. eapply wp_set_bdata; [exact Hs2|exact Hto| |].
    { rewrite <- EV. eapply cache_block, Hs2. }
    intros s3 Hs3. apply wp_bind. eapply wp_bwrite; [done|exact Hs3|exact Hto|].
    rewrite vupd_eq. intros s4 Hs4.
    apply wp_bind. eapply wp_brelse; [done|exact Hs4|apply lookup_insert_eq|by left|].
    rewrite delete_insert_id by (by rewrite lookup_singleton_ne). intros s5 Hs5.
    eapply wp_brelse; [done|exact Hs5|apply lookup_singleton_eq| |].
    { right. by rewrite vupd_eq, dblk_write, vupd_eq. }
    rewrite delete_singleton_eq. intros s6 Hs6. unfold log_copies.
    rewrite (imap_take_S _ _ _ _ Hb), vwrites_snoc, writes_app. exact Hs6.
  - rewrite firstn_all. exact HQ.
Qed.

(** The pins install_trans finds before round [j]: recovery pins nothing,
    commit unpins block after block. *)
Definition pins_left (recovering : bool) (bl : list Z) (j : nat) : gset Z :=
  if recovering then ∅ else list_to_set (drop j bl).

Lemma pins_left_room recovering bl j :
  blocks_ok bl -> (size (pins_left recovering bl j) < nbuf)%nat.
Proof using Hgeo.
  intros Hok. unfold pins_left. destruct recovering; [rewrite size_empty; unfold nbuf; plia|].
  eapply Nat.le_lt_trans; [|by apply (pins_room bl)]. apply subseteq_size.
  intros x. rewrite !elem_of_list_to_set. apply elem_of_drop.
Qed.

Lemma pins_left_log recovering bl j a :
  blocks_ok bl -> in_log a -> a ∉ pins_left recovering bl j.
Proof using Type.
  clear Hh0 Hgeo. intros [_ Hd _] Ha. unfold pins_left. destruct recovering; [set_solver|].
  rewrite elem_of_list_to_set. intros Hin%elem_of_drop. rewrite Forall_forall in Hd.
  by apply Hd in Hin as [_ ?].
Qed.

Lemma pins_left_S bl j b :
  NoDup bl -> bl !! j = Some b ->
  b ∈ pins_left false bl j /\ pins_left false bl j ∖ {[b]} = pins_left false bl (S j).
Proof using Type.
  clear Hh0 Hgeo. intros Hnd Hb. unfold pins_left. rewrite (drop_S _ _ _ Hb). simpl. split; [set_solver|].
  assert (b ∉ drop (S j) bl); [|set_solver].
  rewrite <- (take_drop_middle _ _ _ Hb) in Hnd.
  by apply NoDup_app in Hnd as (_ & _ & [? _]%NoDup_cons).
Qed.

Lemma install_trans_ok recovering V d lg bl s (Q : unit -> kstate -> Prop) :
  ST V (pins_left recovering bl 0) ∅ d lg s -> logged lg bl -> blocks_ok bl ->
  (forall s', ST (vwrites (home_copies V bl) V) ∅ ∅
                 (writes (home_copies V bl) d) lg s' -> Q tt s') ->
  wp (install_trans recovering) Q s.
Proof using Hh0 Hgeo.
  intros Hs Hl Hok HQ. unfold install_trans.
  assert (Hlen : (length bl <= 30)%nat) by (destruct Hok, Hgeo; plia).
  apply (wp_for_lt (fun j s => ST (vwrites (home_copies V (take j bl)) V)
    (pins_left recovering bl j) ∅ (writes (home_copies V (take j bl)) d) lg s) (length bl));
    [unfold log_fuel; plia|done| | |].
  - intros j s' Hs'. by rewrite (st_log _ _ _ _ _ _ _ _ Hs'), (lg_n _ _ Hl).
  - intros j s' Hj Hs'. destruct (lookup_lt_is_Some_2 bl j Hj) as [b Hb].
    destruct (blocks_ok_lookup _ _ _ Hok Hb) as (Hdb & _ & Eb & Ea & Hla).
    set (a := start + 1 + Z.of_nat j) in *.
    set (V1 := vwrites (home_copies V (take j bl)) V) in *.
    set (d1 := writes (home_copies V (take j bl)) d) in *. set (P := pins_left recovering bl j) in *.
    assert (a <> b) as Hne by (intros ->; by destruct Hdb).
    assert (a ∉ P) as HaP by (by apply pins_left_log).
    pose proof (pins_left_room recovering bl j Hok) as Hroom. fold P in Hroom.
    assert (V1 a = V a) as EV.
    { apply vwrites_out. rewrite home_copies_fst. intros Hin%elem_of_take.
      destruct Hin as (k & Hk & _). destruct (blocks_ok_lookup _ _ _ Hok Hk) as ([_ ?] & _). done. }
    assert (V1 a = dblk d1 a) as Hcl.
    { rewrite <- (st_disk _ _ _ _ _ _ _ _ Hs').
      eapply cache_clean; [apply Hs'|done|apply lookup_empty]. }
    wp_steps. rewrite (st_log _ _ _ _ _ _ _ _ Hs'), (lg_dev _ _ Hl), (lg_start _ _ Hl), Ea.
    change (u32 ROOTDEV) with ROOTDEV.
    eapply wp_bread; [done|exact Hs'|apply lookup_empty| |].
    { right. by rewrite dom_empty_L, union_empty_r_L. }
    intros lb s1 Hs1. rewrite insert_empty in Hs1.
    apply wp_bind. eapply wp_lh_block; [done|by apply (lg_blocks _ _ Hl)|]. rewrite Eb.
    apply wp_bind. eapply wp_bread; [done|exact Hs1|by rewrite lookup_singleton_ne| |].
    { destruct recovering.
      - right. unfold P. simpl. rewrite union_empty_l_L, dom_singleton_L, size_singleton.
        by apply Nat.ltb_lt.
      - left. by apply pins_left_S; [apply Hok|]. }
    intros db s2 Hs2.
    assert (Hlb : (<[b:=db]> {[a:=lb]} : gmap Z nat) !! a = Some lb).
    { rewrite lookup_insert_ne by done. apply lookup_singleton_eq. }
    apply wp_bind. eapply (wp_bdata _ _ _ _ _ _ _ _ a); [exact Hs2|exact Hlb|]. rewrite EV.
    apply wp_bind. eapply wp_set_bdata; [exact Hs2|apply lookup_insert_eq| |].
    { rewrite <- EV. eapply cache_block, Hs2. }
    intros s3 Hs3. apply wp_bind. eapply wp_bwrite; [done|exact Hs3|apply lookup_insert_eq|].
    rewrite vupd_eq. intros s4 Hs4.
    apply wp_bind.
    assert (forall Q' : unit -> kstate -> Prop,
      (forall s', ST (vupd V1 b (V a)) (pins_left recovering bl (S j)) (<[b:=db]> {[a:=lb]})
         (disk_write b (V a) d1) lg s' -> Q' tt s') ->
      wp (when (negb recovering) (bunpin db)) Q' s4) as Hunpin.
    { intros Q' HQ'. apply wp_when. unfold P in Hs4. destruct recovering; simpl; [by apply HQ'|].
      destruct (pins_left_S bl j b (bl_nodup _ Hok) Hb) as [HbP EP].
      eapply wp_bunpin; [done|exact Hs4|apply lookup_insert_eq|done|]. by rewrite EP. }
    apply Hunpin. intros s5 Hs5.
    apply wp_bind. eapply wp_brelse; [done|exact Hs5|exact Hlb| |].
    { right. by rewrite dblk_write, !vupd_ne. }
    intros s6 Hs6. rewrite delete_insert_ne, delete_singleton_eq in Hs6 by done.
    eapply wp_brelse; [done|exact Hs6|apply lookup_insert_eq| |].
    { right. by rewrite vupd_eq, dblk_write, vupd_eq. }
    rewrite delete_insert_id by apply lookup_empty. intros s7 Hs7. unfold home_copies.
    rewrite (imap_take_S _ _ _ _ Hb), vwrites_snoc, writes_app. exact Hs7.
  - rewrite firstn_all. intros s' Hs'. apply HQ.
    replace (pins_left recovering bl (length bl)) with (∅ : gset Z) in Hs'; [done|].
    unfold pins_left. destruct recovering; [done|]. by rewrite drop_all.
Qed.

Lemma logged_reset lg bl :
  logged lg bl -> logged (set_l_lh (set_lh_n 0 (l_lh lg)) lg) [].
Proof using Type. intros []. by split. Qed.

Lemma blocks_ok_nil : blocks_ok [].
Proof using Hgeo. split; [constructor|constructor|]. destruct Hgeo. simpl. lia. Qed.

Lemma start_in_log : in_log start.
Proof using Hgeo. unfold in_log. destruct Hgeo. lia. Qed.

Lemma start_not_copied V bl : start ∉ (log_copies V bl).*1.
Proof using Type.
  intros Hx. apply list_elem_of_fmap in Hx as ([a v] & -> & Hin).
  apply list_elem_of_lookup in Hin as [k Hk]. unfold log_copies in Hk.
  rewrite list_lookup_imap in Hk. destruct (bl !! k); [|done]. simplify_eq/=. lia.
Qed.

(** All the writes of a commit, in order. *)
Definition commit_writes (V : Z -> list Z) (bl : list Z) : list (Z * list Z) :=
  let h1 := hdr_put (V start) bl in
  log_copies V bl ++ [(start, h1)] ++ ((fun b => (b, V b)) <$> bl) ++
  [(start, hdr_put h1 [])].

Lemma commit_ok V d lg bl s (Q : unit -> kstate -> Prop) :
  ST V (list_to_set bl) ∅ d lg s -> logged lg bl -> blocks_ok bl -> bl <> [] ->
  (forall s' lg', ST (vwrites (commit_writes V bl) V) ∅ ∅
     (writes (commit_writes V bl) d) lg' s' -> logged lg' [] ->
     lg' = set_l_lh (set_lh_n 0 (l_lh lg)) lg -> Q tt s') ->
  wp commit Q s.
Proof using Hh0 Hgeo.
  intros Hs Hl Hok Hne HQ. unfold commit.
  assert (start ∉ (list_to_set bl : gset Z)) as Hst.
  { rewrite elem_of_list_to_set. intros Hin. destruct Hok as [_ Hd _].
    rewrite Forall_forall in Hd. apply Hd in Hin as [_ Hin]. by destruct Hin, start_in_log. }
  apply wp_bind, wp_gets, wp_when. rewrite (st_log _ _ _ _ _ _ _ _ Hs), (lg_n _ _ Hl).
  destruct (Z.ltb_spec 0 (Z.of_nat (length bl))); [|destruct bl; [done|simpl in *; lia]].
  apply wp_bind. eapply write_log_ok; [done..|]. intros s1 Hs1.
  set (V1 := vwrites (log_copies V bl) V) in *.
  assert (V1 start = V start) as E1 by (apply vwrites_out, start_not_copied).
  apply wp_bind. eapply write_head_ok; [done..|by apply pins_room|]. rewrite E1. intros s2 Hs2.
  set (h1 := hdr_put (V start) bl) in *.
  apply wp_bind. eapply (install_trans_ok false); [done..|]. intros s3 Hs3.
  assert (home_copies (vupd V1 start h1) bl = (fun b => (b, V b)) <$> bl) as Eh.
  { unfold home_copies. apply list_eq. intros k. rewrite list_lookup_imap, list_lookup_fmap.
    destruct (bl !! k) as [b|] eqn:Hb; [|done]. simpl. do 2 f_equal. rewrite vupd_ne by lia.
    apply vwrites_in.
    - replace (log_copies V bl).*1 with ((fun k => start + 1 + Z.of_nat k) <$> seq 0 (length bl)).
      + apply NoDup_fmap_2; [intros x y; lia|apply NoDup_seq].
      + apply list_eq. intros i. unfold log_copies. rewrite !list_lookup_fmap, list_lookup_imap.
        destruct (bl !! i) eqn:E.
        * rewrite lookup_seq_lt by (by eapply lookup_lt_Some). done.
        * rewrite lookup_seq_ge by (by apply lookup_ge_None). done.
    - apply list_elem_of_lookup. exists k. unfold log_copies. by rewrite list_lookup_imap, Hb. }
  rewrite Eh in Hs3. apply wp_bind. eapply wp_upd_log; [exact Hs3|]. intros s4 Hs4.
  assert (start ∉ bl) as Hsb by (by rewrite elem_of_list_to_set in Hst).
  assert (vwrites ((fun b => (b, V b)) <$> bl) (vupd V1 start h1) start = h1) as E3.
  { rewrite vwrites_out, vupd_eq; [done|]. by rewrite <- list_fmap_compose, list_fmap_id. }
  eapply write_head_ok; [exact Hs4|by apply (logged_reset _ bl)|apply blocks_ok_nil|set_solver|
    rewrite size_empty; unfold nbuf; plia|].
  rewrite E3. intros s5 Hs5. eapply HQ; [|by apply (logged_reset lg bl)|done].
  unfold commit_writes. rewrite !vwrites_app, !writes_app. exact Hs5.
Qed.

(** ** Recovery *)

(** The counters of system calls, which changes of the list of blocks leave. *)
Definition same_op (lg lg' : log) : Prop :=
  l_outstanding lg' = l_outstanding lg /\ l_committing lg' = l_committing lg.

Record log_config (lg : log) : Prop := {
  cf_start : l_start lg = start;
  cf_size : l_size lg = size_;
  cf_dev : l_dev lg = ROOTDEV;
  cf_len : length (lh_block (l_lh lg)) = Z.to_nat LOGSIZE;
}.

Lemma read_head_ok V d lg bl s (Q : unit -> kstate -> Prop) :
  ST V ∅ ∅ d lg s -> log_config lg -> blocks_ok bl -> hdr_is (V start) bl ->
  (forall s' lg', ST V ∅ ∅ d lg' s' -> logged lg' bl -> same_op lg lg' -> Q tt s') ->
  wp read_head Q s.
Proof using Hh0 Hgeo.
  intros Hs Hc Hok [Hn Hb] HQ. unfold read_head.
  assert (Hlen : (length bl <= 30)%nat) by (destruct Hok, Hgeo; plia).
  wp_steps. rewrite (st_log _ _ _ _ _ _ _ _ Hs), (cf_dev _ Hc), (cf_start _ Hc).
  rewrite (u32_small start) by (destruct Hgeo; lia). change (u32 ROOTDEV) with ROOTDEV.
  eapply wp_bread; [done|exact Hs|apply lookup_empty| |].
  { right. rewrite dom_empty_L, union_empty_r_L, size_empty. unfold nbuf. plia. }
  intros i s1 Hs1. rewrite insert_empty in Hs1.
  apply wp_bind. eapply (wp_bdata _ _ _ _ _ _ _ _ start); [done|apply lookup_singleton_eq|].
  apply wp_bind. eapply wp_upd_log; [exact Hs1|]. intros s2 Hs2. rewrite Hn in Hs2.
  apply wp_bind. apply (wp_for_lt (fun j s => exists lg', ST V ∅ {[start := i]} d lg' s /\
    log_config lg' /\ same_op lg lg' /\ lh_n (l_lh lg') = Z.of_nat (length bl) /\
    forall k b, bl !! k = Some b -> (k < j)%nat -> lh_block (l_lh lg') !! k = Some b)
    (length bl)); [unfold log_fuel; plia| | | |].
  - eexists. split; [exact Hs2|]. split; [|split; [done|split; [done|lia]]]. destruct Hc. by split.
  - intros j s' (lg' & Hs' & _ & _ & En & _). by rewrite (st_log _ _ _ _ _ _ _ _ Hs').
  - intros j s' Hj (lg' & Hs' & Hc' & Hop & En & Hbl).
    destruct (lookup_lt_is_Some_2 bl j Hj) as [b Hbj].
    apply wp_bind. eapply (wp_bdata _ _ _ _ _ _ _ _ start); [done|apply lookup_singleton_eq|].
    rewrite (Hb j b Hbj). unfold set_lh_block_at.
    destruct (lookup_lt_is_Some_2 (lh_block (l_lh lg')) j) as [v Hv].
    { rewrite (cf_len _ Hc'). plia. }
    apply wp_bind. eapply wp_lh_block; [done|exact Hv|].
    eapply wp_upd_log; [exact Hs'|]. intros s3 Hs3. eexists. split; [exact Hs3|].
    destruct Hc' as [C1 C2 C3 C4].
    split; [split; try done; simpl; by rewrite length_insert|].
    split; [exact Hop|]. split; [done|]. simpl.
    intros k c Hk Hlt. destruct (decide (k = j)) as [->|].
    + rewrite list_lookup_insert_eq by (by eapply lookup_lt_Some). congruence.
    + rewrite list_lookup_insert_ne by done. apply Hbl; [done|lia].
  - intros s3 (lg' & Hs3 & [C1 C2 C3 C4] & Hop & En & Hbl).
    eapply wp_brelse; [done|exact Hs3|apply lookup_singleton_eq| |].
    { right. rewrite <- (st_disk _ _ _ _ _ _ _ _ Hs).
      eapply cache_clean; [apply Hs|set_solver|apply lookup_empty]. }
    rewrite delete_singleton_eq. intros s4 Hs4. eapply HQ; [exact Hs4| |done]. split; try done.
    intros k b Hk. apply Hbl; [done|]. by eapply lookup_lt_Some.
Qed.

(** All the writes of a recovery, in order. *)
Definition recovery_writes (V : Z -> list Z) (bl : list Z) : list (Z * list Z) :=
  home_copies V bl ++ [(start, hdr_put (V start) [])].

Lemma recover_ok V d lg bl s (Q : unit -> kstate -> Prop) :
  ST V ∅ ∅ d lg s -> log_config lg -> blocks_ok bl -> hdr_is (V start) bl ->
  (forall s' lg', ST (vwrites (recovery_writes V bl) V) ∅ ∅
     (writes (recovery_writes V bl) d) lg' s' -> logged lg' [] -> same_op lg lg' -> Q tt s') ->
  wp recover_from_log Q s.
Proof using Hh0 Hgeo.
  intros Hs Hc Hok Hh HQ. unfold recover_from_log.
  apply wp_bind. eapply read_head_ok; [done..|]. intros s1 lg1 Hs1 Hl1 Hop.
  apply wp_bind. eapply (install_trans_ok true); [done..|]. intros s2 Hs2.
  apply wp_bind. eapply wp_upd_log; [exact Hs2|]. intros s3 Hs3.
  assert (vwrites (home_copies V bl) V start = V start) as E.
  { apply vwrites_out. rewrite home_copies_fst. intros Hin. destruct Hok as [_ Hd _].
    rewrite Forall_forall in Hd. apply Hd in Hin as [_ Hin]. by destruct Hin, start_in_log. }
  eapply write_head_ok; [exact Hs3|by apply (logged_reset _ bl)|apply blocks_ok_nil|set_solver|
    rewrite size_empty; unfold nbuf; plia|].
  rewrite E. intros s4 Hs4. eapply HQ; [|by apply (logged_reset lg1 bl)|done].
  unfold recovery_writes. rewrite vwrites_app, writes_app. exact Hs4.
Qed.

(** ** log_write and the transactions *)

(** The position log_write finds: the block's entry, or the end. *)
Lemma find_logged_ok s0' V P H d lg bl s bno (Q : nat -> kstate -> Prop) :
  St pid s0' V P H d lg s -> logged lg bl -> blocks_ok bl ->
  (forall i, (i <= length bl)%nat -> (bl !! i = Some bno \/ i = length bl /\ bno ∉ bl) ->
     Q i s) ->
  wp (find_logged log_fuel 0 bno) Q s.
Proof using Hgeo.
  intros Hs Hl Hok HQ.
  assert (Hlen : (length bl <= 30)%nat) by (destruct Hok, Hgeo; plia).
  cut (forall k i fuel, (i + k = length bl)%nat -> (k < fuel)%nat -> bno ∉ take i bl ->
         wp (find_logged fuel i bno) Q s).
  { intros Hc. apply (Hc (length bl)); [lia|unfold log_fuel; plia|apply not_elem_of_nil]. }
  induction k as [|k IH]; intros i fuel Hi Hf Hn; (destruct fuel as [|fuel]; [lia|]);
    cbn [find_logged]; apply wp_bind, wp_gets;
    rewrite (st_log _ _ _ _ _ _ _ _ Hs), (lg_n _ _ Hl).
  - destruct (Z.ltb_spec (Z.of_nat i) (Z.of_nat (length bl))); [lia|]. apply wp_ret, HQ; [lia|].
    right. replace i with (length bl) in * by lia. by rewrite firstn_all in Hn.
  - destruct (Z.ltb_spec (Z.of_nat i) (Z.of_nat (length bl))); [|lia].
    destruct (lookup_lt_is_Some_2 bl i) as [b Hb]; [lia|].
    apply wp_bind. eapply wp_lh_block; [done|by apply (lg_blocks _ _ Hl)|].
    destruct (blocks_ok_lookup _ _ _ Hok Hb) as (_ & _ & -> & _).
    destruct (Z.eqb_spec b bno) as [->|Hne]; [apply wp_ret, HQ; [lia|by left]|].
    apply IH; [lia..|]. rewrite (take_S_r _ _ _ Hb), elem_of_app, list_elem_of_singleton. naive_solver.
Qed.

Definition add_block (bl : list Z) (bno : Z) : list Z :=
  if decide (bno ∈ bl) then bl else bl ++ [bno].

Lemma blocks_ok_add bl bno :
  blocks_ok bl -> data_block bno -> Z.of_nat (length bl) < size_ - 1 ->
  blocks_ok (add_block bl bno).
Proof using Type.
  intros [Hnd Hd Hr] Hb Hlt. unfold add_block. case_decide; [done|]. split.
  - apply NoDup_app. split_and!; [done| |apply NoDup_singleton].
    intros x Hx ->%list_elem_of_singleton. done.
  - apply Forall_app. split; [done|]. constructor; [done|constructor].
  - rewrite length_app. simpl. lia.
Qed.

Lemma logged_set lg bl i b n :
  logged lg bl -> (i < 30)%nat -> n = Z.of_nat (length (add_block bl b)) ->
  (bl !! i = Some b \/ i = length bl /\ b ∉ bl) ->
  logged (set_l_lh (set_lh_n n (set_lh_block (<[i := b]> (lh_block (l_lh lg))) (l_lh lg))) lg)
    (add_block bl b).
Proof using Type.
  intros [L1 L2 L3 L4 L5 L6] Hi Hn Hcase. split; simpl; try done.
  - by rewrite length_insert.
  - intros k c Hk. unfold add_block in Hk. destruct (decide (k = i)) as [->|Hne].
    + rewrite list_lookup_insert_eq by (rewrite L5; plia).
      destruct Hcase as [Hb|[-> Hb]]; case_decide; try done; try congruence.
      * by apply list_elem_of_lookup_2 in Hb.
      * rewrite list_lookup_middle in Hk by done. done.
    + rewrite list_lookup_insert_ne by done. apply L6.
      case_decide as Hin; [done|]. destruct Hcase as [Hb|[-> Hb]].
      * by apply list_elem_of_lookup_2 in Hb.
      * apply lookup_app_Some in Hk as [?|[Hge Hk]]; [done|].
        apply list_lookup_singleton_Some in Hk. lia.
Qed.

Lemma log_write_ok V H d lg bl s bno i (Q : unit -> kstate -> Prop) :
  ST V (list_to_set bl) H d lg s -> H !! bno = Some i ->
  logged lg bl -> blocks_ok bl -> data_block bno ->
  Z.of_nat (length bl) < size_ - 1 -> 1 <= l_outstanding lg ->
  (forall s' lg', ST V (list_to_set (add_block bl bno)) H d lg' s' ->
     logged lg' (add_block bl bno) -> same_op lg lg' -> Q tt s') ->
  wp (log_write i) Q s.
Proof using Hh0 Hgeo.
  intros Hs Hi Hl Hok Hd Hlt Hout HQ. unfold log_write.
  assert (Hlen : (length bl < 29)%nat) by (destruct Hok, Hgeo; plia).
  apply wp_bind. eapply wp_st_acquire; [done..|]. intros s1 Hs1.
  wp_steps. rewrite (st_log _ _ _ _ _ _ _ _ Hs1), (lg_n _ _ Hl), (lg_size _ _ Hl).
  destruct (Z.leb_spec LOGSIZE (Z.of_nat (length bl))); [plia|].
  destruct (Z.leb_spec (size_ - 1) (Z.of_nat (length bl))); [lia|]. cbn [orb].
  destruct (Z.ltb_spec (l_outstanding lg) 1); [lia|].
  destruct (cache_held _ _ _ _ _ bno i (st_inv _ _ _ _ _ _ _ _ Hs1) Hi) as (b & Hb & _ & Hbn).
  apply wp_bind. eapply wp_get_buf; [done|]. rewrite Hbn.
  apply wp_bind. eapply find_logged_ok; [exact Hs1|done..|]. intros k Hk Hcase.
  destruct (lookup_lt_is_Some_2 (lh_block (l_lh lg)) k) as [v Hv].
  { rewrite (lg_len _ _ Hl). plia. }
  unfold set_lh_block_at. do 2 apply wp_bind. eapply wp_lh_block; [exact Hs1|exact Hv|].
  eapply wp_upd_log; [exact Hs1|]. intros s2 Hs2.
  rewrite (s32_small bno) in Hs2 by (destruct Hd; lia).
  apply wp_bind, wp_gets. rewrite (st_log _ _ _ _ _ _ _ _ Hs2). cbn [l_lh set_l_lh set_lh_block lh_n].
  rewrite (lg_n _ _ Hl). apply wp_bind, wp_when.
  assert (Hset := fun n => logged_set lg bl k bno n Hl).
  destruct (Z.eqb_spec (Z.of_nat k) (Z.of_nat (length bl))) as [E|E].
  - assert (k = length bl) as -> by lia. destruct Hcase as [Hc|[_ Hnin]].
    { apply lookup_lt_Some in Hc. lia. }
    apply wp_bind. eapply wp_st_bpin; [exact Hs2|done|done|by rewrite elem_of_list_to_set|].
    intros s3 Hs3. eapply wp_upd_log; [exact Hs3|]. intros s4 Hs4.
    eapply wp_st_release; [done|exact Hs4|]. intros s5 Hs5. eapply HQ.
    + unfold add_block. rewrite decide_False by done. rewrite list_to_set_app_L. simpl.
      rewrite union_empty_r_L, (union_comm_L _ {[bno]}). exact Hs5.
    + apply Hset; [lia| |by right]. cbn. rewrite (lg_n _ _ Hl).
      unfold add_block. rewrite decide_False by done. rewrite length_app. simpl. lia.
    + done.
  - destruct Hcase as [Hc|[? _]]; [|lia].
    assert (bno ∈ bl) as Hin by (by eapply list_elem_of_lookup_2).
    eapply wp_st_release; [done|exact Hs2|]. intros s5 Hs5. eapply HQ.
    + unfold add_block. rewrite decide_True by done. exact Hs5.
    + assert (forall n h, n = lh_n h -> set_lh_n n h = h) as Hid by (intros n [] ->; done).
      specialize (Hset (Z.of_nat (length (add_block bl bno))) ltac:(lia) eq_refl (or_introl Hc)).
      rewrite Hid in Hset; [exact Hset|]. simpl. rewrite (lg_n _ _ Hl).
      unfold add_block. by rewrite decide_True.
    + done.
Qed.

(** Between system calls: nothing logged, on disk or in memory. *)
Record idle V d lg : Prop := {
  id_logged : logged lg [];
  id_out : l_outstanding lg = 0;
  id_com : l_committing lg = false;
  id_hdr : hdr_is (V start) [];
}.

(** begin_op admits a call while the reservations fit LOGSIZE. *)
Lemma begin_op_admits V P d lg s o (Q : unit -> kstate -> Prop) :
  ST V P ∅ d lg s -> l_outstanding lg = o -> l_committing lg = false ->
  lh_n (l_lh lg) + (o + 1) * MAXOPBLOCKS <= LOGSIZE ->
  (forall s', ST V P ∅ d (set_l_outstanding (o + 1) lg) s' -> Q tt s') ->
  wp begin_op Q s.
Proof using Hh0.
  intros Hs Ho Hc Hn HQ. unfold begin_op.
  apply wp_bind. eapply wp_st_acquire; [done..|]. intros s1 Hs1. cbn [loop].
  wp_steps. rewrite (st_log _ _ _ _ _ _ _ _ Hs1), Hc, Ho.
  destruct (Z.ltb_spec LOGSIZE (lh_n (l_lh lg) + (o + 1) * MAXOPBLOCKS)); [lia|].
  wp_step. eapply wp_upd_log; [exact Hs1|]. intros s2 Hs2. rewrite Ho in Hs2.
  wp_step. eapply wp_st_release; [done|exact Hs2|]. intros s3 Hs3.
  apply wp_ret, wp_ret. by apply HQ.
Qed.

Lemma begin_op_ok V P d lg s (Q : unit -> kstate -> Prop) :
  ST V P ∅ d lg s -> l_outstanding lg = 0 -> l_committing lg = false ->
  lh_n (l_lh lg) = 0 ->
  (forall s', ST V P ∅ d (set_l_outstanding 1 lg) s' -> Q tt s') ->
  wp begin_op Q s.
Proof using Hh0. intros Hs Ho Hc Hn. apply (begin_op_admits V P d lg s 0); [done..|]. rewrite Hn. plia. Qed.

(** end_op of the last system call commits. *)
Lemma end_op_ok V d lg bl s (Q : unit -> kstate -> Prop) :
  ST V (list_to_set bl) ∅ d lg s -> logged lg bl -> blocks_ok bl ->
  l_outstanding lg = 1 -> l_committing lg = false ->
  (forall s' lg' ws, ws = (if decide (bl = []) then [] else commit_writes V bl) ->
     ST (vwrites ws V) ∅ ∅ (writes ws d) lg' s' ->
     logged lg' [] -> l_outstanding lg' = 0 -> l_committing lg' = false -> Q tt s') ->
  wp end_op Q s.
Proof using Hh0 Hgeo.
  intros Hs Hl Hok Ho Hc HQ. unfold end_op.
  assert (Hnp : no_proc_lock [LkLog]) by (by intros i ?%list_elem_of_singleton).
  apply wp_bind. eapply wp_st_acquire; [done..|]. intros s1 Hs1.
  apply wp_bind. eapply wp_upd_log; [exact Hs1|]. intros s2 Hs2.
  wp_steps. rewrite (st_log _ _ _ _ _ _ _ _ Hs2). cbn [l_committing l_outstanding set_l_outstanding].
  rewrite Hc, Ho. cbn [Z.sub Z.opp Z.add Z.pos_sub Z.eqb].
  apply wp_bind. apply wp_bind. eapply wp_upd_log; [exact Hs2|]. intros s3 Hs3. apply wp_ret.
  apply wp_bind. eapply wp_st_release; [done|exact Hs3|]. intros s4 Hs4. apply wp_when.
  set (lg1 := set_l_committing true _) in *.
  assert (Hl1 : logged lg1 bl) by (destruct Hl; by split).
  assert (Ho1 : l_outstanding lg1 = 0) by (unfold lg1; simpl; lia).
  apply wp_bind.
  assert (forall s5 lg5 ws, ws = (if decide (bl = []) then [] else commit_writes V bl) ->
    ST (vwrites ws V) ∅ ∅ (writes ws d) lg5 s5 -> logged lg5 [] -> l_outstanding lg5 = 0 ->
    wp (acquire LkLog;; upd_log (set_l_committing false);; wakeup ChLog;; release LkLog) Q s5)
    as Hrest.
  { intros s5 lg5 ws Hws Hs5 Hl5 Ho5. apply wp_bind. eapply wp_st_acquire; [done..|].
    intros s6 Hs6. apply wp_bind. eapply wp_upd_log; [exact Hs6|]. intros s7 Hs7.
    apply wp_bind. eapply wp_st_wakeup; [exact Hs7|done|]. intros s8 Hs8.
    eapply wp_st_release; [done|exact Hs8|]. intros s9 Hs9.
    eapply HQ; [done|exact Hs9| |done|done]. destruct Hl5. by split. }
  destruct (decide (bl = [])) as [->|Hne].
  - unfold commit. apply wp_bind, wp_gets, wp_when.
    rewrite (st_log _ _ _ _ _ _ _ _ Hs4), (lg_n _ _ Hl1). simpl.
    eapply (Hrest _ lg1 []); [done|exact Hs4|done|done].
  - eapply commit_ok; [exact Hs4|done..|]. intros s5 lg5 Hs5 Hl5 Elg.
    eapply Hrest; [done|exact Hs5|done|by rewrite Elg].
Qed.

(** ** System calls as transactions *)

(** The typical use of log_write, as its comment gives it. *)
Definition update (bno : Z) (data : list Z) : K unit :=
  let! b := bread ROOTDEV bno in
  set_bdata b data ;;
  log_write b ;;
  brelse b.

Definition transaction (ups : list (Z * list Z)) : K unit :=
  begin_op ;;
  for_each ups (fun u => update u.1 u.2) ;;
  end_op.

Lemma update_ok V d lg bl bno v s (Q : unit -> kstate -> Prop) :
  ST V (list_to_set bl) ∅ d lg s -> logged lg bl -> blocks_ok bl -> Z.of_nat (length bl) < size_ - 1 ->
  data_block bno -> block_ok v -> 1 <= l_outstanding lg ->
  (forall s' lg', ST (vupd V bno v) (list_to_set (add_block bl bno)) ∅ d lg' s' ->
     logged lg' (add_block bl bno) -> same_op lg lg' -> Q tt s') ->
  wp (update bno v) Q s.
Proof using Hh0 Hgeo.
  intros Hs Hl Hbl Hroom Hdb Hv Ho HQ. unfold update.
  apply wp_bind. eapply wp_bread; [done|exact Hs|apply lookup_empty| |].
  { right. rewrite dom_empty_L, union_empty_r_L. by apply pins_room. }
  intros i s2 Hs2. rewrite insert_empty in Hs2.
  apply wp_bind. eapply wp_set_bdata; [exact Hs2|apply lookup_singleton_eq|done|].
  intros s3 Hs3. apply wp_bind.
  eapply log_write_ok; [exact Hs3|apply lookup_singleton_eq|done|done|done|done|lia|].
  intros s4 lg4 Hs4 Hl4 Hop.
  eapply wp_brelse; [done|exact Hs4|apply lookup_singleton_eq| |].
  { left. rewrite elem_of_list_to_set. unfold add_block.
    case_decide; [done|]. rewrite elem_of_app, list_elem_of_singleton. by right. }
  rewrite delete_singleton_eq. intros s5 Hs5. by eapply HQ.
Qed.

(** log_write when every data block of the log is taken. *)
Lemma update_full V d lg bl bno v s :
  ST V (list_to_set bl) ∅ d lg s -> logged lg bl -> blocks_ok bl -> Z.of_nat (length bl) = size_ - 1 -> block_ok v ->
  exists s', update bno v s = Panic "too big a transaction" s' /\ k_log s' = lg.
Proof using Hh0 Hgeo.
  intros Hs Hl Hbl Hfull Hv. assert (Hw : wp (let! b := bread ROOTDEV bno in set_bdata b v ;; acquire LkLog ;; ret b)
    (fun b s' => k_log s' = lg) s).
  { apply wp_bind. eapply wp_bread; [done|exact Hs|apply lookup_empty| |].
    { right. rewrite dom_empty_L, union_empty_r_L. by apply pins_room. }
    intros i s2 Hs2. rewrite insert_empty in Hs2.
    apply wp_bind. eapply wp_set_bdata; [exact Hs2|apply lookup_singleton_eq|done|]. intros s3 Hs3.
    apply wp_bind. eapply wp_st_acquire; [done..|]. intros s4 Hs4. apply wp_ret. apply Hs4. }
  apply wp_run in Hw as (i & s' & E & Hlg). exists s'. split; [|done]. unfold update, log_write, bind, obind in *.
  destruct (bread ROOTDEV bno s) as [b s1| | | |]; try done. destruct (set_bdata b v s1) as [[] s2| | | |]; try done.
  destruct (acquire LkLog s2) as [[] s3| | | |]; try done. injection E as -> ->. unfold gets.
  rewrite Hlg, (lg_n _ _ Hl), (lg_size _ _ Hl). destruct (Z.leb_spec (size_ - 1) (Z.of_nat (length bl))); [|lia].
  by rewrite orb_true_r.
Qed.

(** A system call: at most MAXOPBLOCKS blocks outside the log. *)
Record tx_ok (ups : list (Z * list Z)) : Prop := {
  tx_data : Forall (fun u => data_block u.1 /\ block_ok u.2) ups;
  tx_size : Z.of_nat (length (remove_dups ups.*1)) <= MAXOPBLOCKS;
}.
Context (Hsize : MAXOPBLOCKS + 1 < size_).

(** The blocks logged after a list of updates. *)
Definition add_blocks (bl : list Z) (bs : list Z) : list Z := foldl add_block bl bs.

Lemma add_blocks_elem bl bs x : x ∈ add_blocks bl bs <-> x ∈ bl \/ x ∈ bs.
Proof using Type.
  clear Hh0 Hgeo Hsize. revert bl. induction bs as [|b bs IH]; intros bl; cbn [add_blocks foldl].
  - pose proof (not_elem_of_nil x). tauto.
  - fold (add_blocks (add_block bl b) bs). rewrite IH, elem_of_cons.
    unfold add_block. case_decide as Hin; [|rewrite elem_of_app, list_elem_of_singleton; tauto].
    split; [tauto|]. intros [?|[->|?]]; auto.
Qed.

Lemma add_blocks_nodup bl bs : NoDup bl -> NoDup (add_blocks bl bs).
Proof using Type.
  clear Hh0 Hgeo Hsize. revert bl. induction bs as [|b bs IH]; intros bl Hnd; [done|].
  apply IH. unfold add_block. case_decide; [done|]. apply NoDup_app.
  split_and!; [done| |apply NoDup_singleton]. by intros x Hx ->%list_elem_of_singleton.
Qed.

Lemma add_blocks_length bs pre :
  (length (add_blocks [] pre) <= length (remove_dups (pre ++ bs)))%nat.
Proof using Type.
  clear Hh0 Hgeo Hsize. apply submseteq_length, NoDup_submseteq.
  - apply add_blocks_nodup. constructor.
  - intros x. rewrite add_blocks_elem, elem_of_remove_dups, elem_of_app.
    pose proof (not_elem_of_nil x). tauto.
Qed.

Lemma add_blocks_app bl bs b : add_blocks bl (bs ++ [b]) = add_block (add_blocks bl bs) b.
Proof using Type. unfold add_blocks. by rewrite foldl_app. Qed.

Lemma add_blocks_ok ups pre rest :
  tx_ok ups -> ups = pre ++ rest -> blocks_ok (add_blocks [] pre.*1) /\
  Z.of_nat (length (add_blocks [] pre.*1)) < size_ - 1.
Proof using Hsize.
  intros [Hd Hs] ->. rewrite fmap_app in Hs.
  pose proof (add_blocks_length rest.*1 pre.*1).
  split; [split|lia].
  - apply add_blocks_nodup. constructor.
  - apply Forall_forall. intros x Hx. rewrite add_blocks_elem in Hx.
    destruct Hx as [?%not_elem_of_nil|Hx]; [done|].
    apply list_elem_of_fmap in Hx as (u & -> & Hu). rewrite Forall_forall in Hd.
    apply Hd. apply elem_of_app. by left.
  - lia.
Qed.

Lemma updates_ok V d lg ups s (Q : unit -> kstate -> Prop) :
  ST V ∅ ∅ d lg s -> logged lg [] -> l_outstanding lg = 1 -> l_committing lg = false ->
  tx_ok ups ->
  (forall s' lg', ST (vwrites ups V) (list_to_set (add_blocks [] ups.*1)) ∅ d lg' s' ->
     logged lg' (add_blocks [] ups.*1) -> l_outstanding lg' = 1 -> l_committing lg' = false ->
     Q tt s') ->
  wp (for_each ups (fun u => update u.1 u.2)) Q s.
Proof using Hh0 Hgeo Hsize.
  intros Hs Hl Ho Hc Hok HQ.
  apply (wp_for_each (fun pre s' => exists lg',
    ST (vwrites pre V) (list_to_set (add_blocks [] pre.*1)) ∅ d lg' s' /\
    logged lg' (add_blocks [] pre.*1) /\ l_outstanding lg' = 1 /\ l_committing lg' = false)).
  - exists lg. done.
  - intros pre [bno v] rest s1 Hups (lg1 & Hs1 & Hl1 & Ho1 & Hc1).
    destruct (add_blocks_ok ups pre ((bno, v) :: rest) Hok Hups) as [Hbl Hroom].
    assert (data_block bno /\ block_ok v) as [Hdb Hv].
    { destruct Hok as [Hd _]. rewrite Forall_forall in Hd. apply (Hd (bno, v)).
      rewrite Hups, elem_of_app. right. by left. }
    set (bl := add_blocks [] pre.*1) in *. cbn [fst snd].
    eapply update_ok; [exact Hs1|done|done|done|done|done|lia|]. intros s5 lg4 Hs5 Hl4 [Ho4 Hc4]. exists lg4.
    rewrite fmap_app. cbn [fmap list_fmap fst]. rewrite add_blocks_app, vwrites_snoc.
    split_and!; [exact Hs5|done|congruence|congruence].
  - intros s' (lg' & Hs' & Hl' & Ho' & Hc'). by eapply HQ.
Qed.
End Proofs.

(** ** Crashes *)

Section Crash.
Context {W : Wakeups} {C : BlockCache} (start size_ : Z) (Hgeo : geometry start size_).
Abbreviation in_log := (in_log start size_).
Abbreviation blocks_ok := (blocks_ok start size_).
Abbreviation home_copies := (home_copies start).
Implicit Types (V : Z -> list Z) (d : disk) (ws : list (Z * list Z)).

(** What recovery makes of the blocks outside the log, from contents [V]
    whose header lists [bl]. *)
Definition recovered V (bl : list Z) : Z -> list Z := vwrites (home_copies V bl) V.

(** The header of [d] is one that recovery can follow, and it leads to the
    contents [U] outside the log. *)
Definition recovers_to d (U : Z -> list Z) : Prop :=
  disk_ok d /\ exists bl, blocks_ok bl /\ hdr_is (dblk d start) bl /\
    forall b, ~ in_log b -> recovered (dblk d) bl b = U b.

Lemma block_not_start bl b : blocks_ok bl -> b ∈ bl -> b <> start /\ ~ in_log b.
Proof using Hgeo.
  intros [_ Hd _] Hb. rewrite Forall_forall in Hd. destruct (Hd b Hb) as [_ Hn].
  split; [|done]. intros ->. by apply Hn, start_in_log.
Qed.

(** Contents that agree outside [bl] and have a copy of the new contents of
    every block of [bl] in the log recover to the new contents. *)
Lemma recovered_new V1 V bl b :
  blocks_ok bl ->
  (forall k b, bl !! k = Some b -> V1 (start + 1 + Z.of_nat k) = V b) ->
  (b ∉ bl -> V1 b = V b) -> recovered V1 bl b = V b.
Proof using Type.
  intros Hok Hlog Hout. unfold recovered. destruct (decide (b ∈ bl)) as [Hin|Hin].
  - apply list_elem_of_lookup in Hin as [k Hk].
    rewrite (vwrites_in _ _ b (V1 (start + 1 + Z.of_nat k))); [by apply Hlog| |].
    + rewrite home_copies_fst. apply Hok.
    + apply list_elem_of_lookup. exists k. unfold Log.home_copies.
      by rewrite list_lookup_imap, Hk.
  - rewrite vwrites_out by (by rewrite home_copies_fst). auto.
Qed.

Lemma log_copies_lookup V V0 bl k b :
  bl !! k = Some b ->
  vwrites (log_copies start V bl) V0 (start + 1 + Z.of_nat k) = V b.
Proof using Type.
  intros Hk. apply vwrites_in.
  - replace (log_copies start V bl).*1
      with ((fun k => start + 1 + Z.of_nat k) <$> seq 0 (length bl)).
    + apply NoDup_fmap_2; [intros x y; lia|apply NoDup_seq].
    + apply list_eq. intros i. unfold log_copies. rewrite !list_lookup_fmap, list_lookup_imap.
      destruct (bl !! i) eqn:E.
      * rewrite lookup_seq_lt by (by eapply lookup_lt_Some). done.
      * rewrite lookup_seq_ge by (by apply lookup_ge_None). done.
  - apply list_elem_of_lookup. exists k. unfold log_copies. by rewrite list_lookup_imap, Hk.
Qed.

Lemma commit_writes_blocks V bl :
  (forall b, block_ok (V b)) -> blocks_ok bl ->
  Forall (fun w => block_ok w.2) (commit_writes start V bl).
Proof using Hgeo.
  intros HV Hok.
  assert (Hlen : (length bl <= 30)%nat) by (destruct Hok, Hgeo; plia).
  assert (Forall (fun b => 0 <= b < 2 ^ 31) bl) as Hr.
  { eapply Forall_impl; [apply Hok|]. by intros b [? _]. }
  destruct (hdr_put_is (V start) bl (HV _) Hlen Hr) as [H1 _].
  destruct (hdr_put_is _ [] H1) as [H2 _]; [simpl; lia|constructor|].
  unfold commit_writes. cbv zeta. rewrite !Forall_app. split_and!;
    [|by constructor; [|constructor]| |by constructor; [|constructor]].
  - apply Forall_lookup. intros k w. unfold log_copies. rewrite list_lookup_imap.
    destruct (bl !! k); [|done]. simpl. intros [= <-]. apply HV.
  - apply Forall_fmap, Forall_forall. intros b _. apply HV.
Qed.

(** After a commit the log is empty and the new contents are in place. *)
Lemma commit_writes_final V bl :
  (forall b, block_ok (V b)) -> blocks_ok bl ->
  hdr_is (vwrites (commit_writes start V bl) V start) [] /\
  forall b, ~ in_log b -> vwrites (commit_writes start V bl) V b = V b.
Proof using Hgeo.
  intros HV Hok. unfold commit_writes. cbv zeta.
  rewrite vwrites_app, vwrites_app, vwrites_app, (vwrites_cons start). split.
  - change (vwrites [] ?V) with V. rewrite vwrites_cons. simpl. rewrite vupd_eq.
    assert (Hlen : (length bl <= 30)%nat) by (destruct Hok, Hgeo; plia).
    apply hdr_put_is; [|simpl; lia|constructor]. apply hdr_put_is; [done..|].
    eapply Forall_impl; [apply Hok|]. by intros b [? _].
  - intros b Hb. rewrite vwrites_cons. simpl.
    assert (b <> start) by (intros ->; by apply Hb, (start_in_log _ _ Hgeo)).
    rewrite vupd_ne by done. destruct (decide (b ∈ bl)) as [Hin|Hin].
    + apply vwrites_in; [rewrite <- list_fmap_compose, list_fmap_id; apply Hok|].
      apply list_elem_of_fmap. by exists b.
    + rewrite vwrites_out by (by rewrite <- list_fmap_compose, list_fmap_id).
      rewrite vupd_ne by done. by apply (log_copies_out start size_ Hgeo).
Qed.

(** The three phases of a commit. *)
Section Commit.
Context V d (bl : list Z).
Context (Hd : disk_ok d) (HV : forall b, block_ok (V b)) (Hok : blocks_ok bl).
Context (Hh : hdr_is (dblk d start) []) (Hcl : forall b, b ∉ bl -> V b = dblk d b).
Let A := log_copies start V bl.
Let h1 := hdr_put (V start) bl.
Let B := (fun b => (b, V b)) <$> bl.

Lemma commit_homes : B.*1 = bl.
Proof using Type. unfold B. by rewrite <- list_fmap_compose, list_fmap_id. Qed.

Lemma commit_header : block_ok h1 /\ hdr_is h1 bl.
Proof using HV Hok Hgeo.
  apply hdr_put_is; [done| |].
  - destruct Hok, Hgeo. plia.
  - eapply Forall_impl; [apply Hok|]. by intros b [? _].
Qed.

Lemma log_written b : ~ in_log b -> vwrites A (dblk d) b = dblk d b.
Proof using Hgeo Hok.
  intros Hb. apply vwrites_out. intros Hin. by apply Hb, (log_copies_fst start size_ Hgeo V bl).
Qed.

Lemma crash_logging ws1 :
  disk_ok (writes ws1 d) -> (forall x, x ∈ ws1.*1 -> x ∈ A.*1) ->
  recovers_to (writes ws1 d) (dblk d).
Proof using Hgeo Hh Hok.
  intros Hdok Hsub. split; [done|]. exists []. rewrite dblk_writes.
  split_and!; [by apply (blocks_ok_nil _ _ Hgeo)| |].
  - rewrite vwrites_out; [done|]. intros Hin%Hsub. by apply start_not_copied in Hin.
  - intros b Hb. unfold recovered. simpl. apply vwrites_out. intros Hin%Hsub.
    by apply Hb, (log_copies_fst start size_ Hgeo V bl).
Qed.

Lemma crash_installing k :
  disk_ok (writes (A ++ (start, h1) :: k) d) -> (forall w, w ∈ k -> w ∈ B) ->
  recovers_to (writes (A ++ (start, h1) :: k) d) V.
Proof using Hgeo Hcl HV Hok.
  intros Hdok Hsub. split; [done|]. exists bl.
  rewrite dblk_writes, vwrites_app, vwrites_cons.
  assert (Hk : forall x, x ∉ bl ->
    vwrites k (vupd (vwrites A (dblk d)) start h1) x = vupd (vwrites A (dblk d)) start h1 x).
  { intros x Hx. apply vwrites_out. intros Hin. apply Hx. rewrite <- commit_homes.
    apply list_elem_of_fmap in Hin as (w & -> & Hw). apply list_elem_of_fmap. eauto. }
  split_and!; [done| |].
  - rewrite Hk, vupd_eq; [apply commit_header|]. intros Hin.
    by apply block_not_start in Hin as [? _].
  - intros b Hb. apply (recovered_new _ V bl b Hok).
    + intros i c Hc. rewrite Hk, vupd_ne; [by apply log_copies_lookup|lia|].
      intros Hin. apply (block_not_start _ _ Hok) in Hin as [_ Hin].
      by destruct (blocks_ok_lookup _ _ Hgeo _ _ _ Hok Hc) as (_ & _ & _ & _ & ?).
    + intros Hnin. rewrite Hk by done.
      rewrite vupd_ne by (intros ->; by apply Hb, start_in_log).
      by rewrite log_written, Hcl.
Qed.

Lemma crash_committed :
  disk_ok (writes (A ++ (start, h1) :: B ++ [(start, hdr_put h1 [])]) d) ->
  recovers_to (writes (A ++ (start, h1) :: B ++ [(start, hdr_put h1 [])]) d) V.
Proof using Hgeo Hcl HV Hok.
  intros Hdok. split; [done|]. exists [].
  rewrite dblk_writes, vwrites_app, vwrites_cons, vwrites_snoc.
  split_and!; [by apply (blocks_ok_nil _ _ Hgeo)| |].
  - rewrite vupd_eq. apply hdr_put_is; [apply commit_header|simpl; lia|constructor].
  - intros b Hb. assert (b <> start) by (intros ->; by apply Hb, start_in_log).
    unfold recovered. simpl. rewrite vupd_ne by done.
    destruct (decide (b ∈ bl)) as [Hin|Hin].
    + apply vwrites_in; [rewrite commit_homes; apply Hok|].
      apply list_elem_of_fmap. by exists b.
    + by rewrite vwrites_out, vupd_ne, log_written, Hcl by (rewrite ?commit_homes; done).
Qed.

(** A crash at any point of a commit leads to the old contents or to the new
    ones. *)
Lemma crash_in_commit ws1 ws2 :
  commit_writes start V bl = ws1 ++ ws2 ->
  recovers_to (writes ws1 d) (dblk d) \/ recovers_to (writes ws1 d) V.
Proof using Hgeo Hh Hd Hcl HV Hok.
  intros E.
  assert (Hdok : disk_ok (writes ws1 d)).
  { apply disk_ok_writes; [done|]. pose proof (commit_writes_blocks V bl HV Hok) as Hf.
    rewrite E in Hf. by apply Forall_app in Hf as [? _]. }
  unfold commit_writes in E. cbv zeta in E. fold A h1 B in E.
  apply app_eq_inv in E as [(k & EA & _)|(k & -> & E)].
  - left. apply crash_logging; [done|]. rewrite EA, fmap_app. set_solver.
  - destruct k as [|w k].
    { left. rewrite app_nil_r in *. by apply crash_logging. }
    simpl in E. injection E as <- E. right.
    apply app_eq_inv in E as [(k' & EB & _)|(k' & -> & E)].
    + apply crash_installing; [done|]. rewrite EB. set_solver.
    + destruct k' as [|w' k'].
      { rewrite app_nil_r in *. by apply crash_installing. }
      simpl in E. injection E as <- E. symmetry in E. apply app_eq_nil in E as [-> _].
      by apply crash_committed.
Qed.
End Commit.

(** A crash at any point of a recovery leads where the recovery did. *)
Section Recovery.
Context d (bl : list Z) (U : Z -> list Z).
Context (Hd : disk_ok d) (Hok : blocks_ok bl) (Hh : hdr_is (dblk d start) bl).
Context (HU : forall b, ~ in_log b -> recovered (dblk d) bl b = U b).

Lemma home_copies_in x v :
  (x, v) ∈ home_copies (dblk d) bl -> x ∈ bl /\ block_ok v.
Proof using Hd.
  intros Hin. split.
  - rewrite <- (home_copies_fst start (dblk d) bl). apply list_elem_of_fmap. by exists (x, v).
  - apply list_elem_of_lookup in Hin as [k Hk]. unfold Log.home_copies in Hk.
    rewrite list_lookup_imap in Hk. destruct (bl !! k); [|done]. simplify_eq/=. apply Hd.
Qed.

Lemma recovery_writes_ok : Forall (fun w => block_ok w.2) (recovery_writes start (dblk d) bl).
Proof using Hd.
  unfold recovery_writes. apply Forall_app. split.
  - apply Forall_forall. intros [x v] Hin. by apply home_copies_in in Hin as [_ ?].
  - constructor; [|constructor]. apply hdr_put_is; [apply Hd|simpl; lia|constructor].
Qed.

Lemma recovered_log i c :
  bl !! i = Some c -> recovered (dblk d) bl c = dblk d (start + 1 + Z.of_nat i).
Proof using Hok.
  intros Hc. apply vwrites_in; [rewrite home_copies_fst; apply Hok|].
  apply list_elem_of_lookup. exists i. unfold Log.home_copies. by rewrite list_lookup_imap, Hc.
Qed.

Lemma crash_reinstalling ws1 :
  disk_ok (writes ws1 d) -> (forall w, w ∈ ws1 -> w ∈ home_copies (dblk d) bl) ->
  recovers_to (writes ws1 d) U.
Proof using Hd Hok Hh HU Hgeo.
  intros Hdok Hsub. split; [done|]. rewrite dblk_writes.
  assert (forall x, x ∉ bl -> vwrites ws1 (dblk d) x = dblk d x) as Hout.
  { intros x Hx. apply vwrites_out. intros Hin.
    apply list_elem_of_fmap in Hin as ([y v] & -> & Hin). by apply Hsub, home_copies_in in Hin as [? _]. }
  exists bl. split_and!; [done| |].
  - rewrite Hout; [done|]. intros Hin. by apply block_not_start in Hin as [? _].
  - intros b Hb. rewrite <- HU by done.
    apply (recovered_new _ (recovered (dblk d) bl)); [done| |].
    + intros i c Hc. rewrite (recovered_log i c Hc).
      destruct (blocks_ok_lookup _ _ Hgeo _ _ _ Hok Hc) as (_ & _ & _ & _ & Hl).
      apply Hout. intros Hin. by apply (block_not_start _ _ Hok) in Hin as [_ ?].
    + intros Hin. rewrite Hout by done. symmetry. apply vwrites_out. by rewrite home_copies_fst.
Qed.

Lemma crash_in_recovery ws1 ws2 :
  recovery_writes start (dblk d) bl = ws1 ++ ws2 -> recovers_to (writes ws1 d) U.
Proof using Hd Hok Hh HU Hgeo.
  intros E.
  assert (Hdok : disk_ok (writes ws1 d)).
  { apply disk_ok_writes; [done|]. pose proof recovery_writes_ok as Hf. rewrite E in Hf.
    by apply Forall_app in Hf as [? _]. }
  unfold recovery_writes in E. apply app_eq_inv in E as [(k & EA & _)|(k & -> & E)].
  { apply crash_reinstalling; [done|]. rewrite EA. set_solver. }
  destruct k as [|w k]; simpl in E.
  { rewrite app_nil_r in *. by apply crash_reinstalling. }
  injection E as <- E. symmetry in E. apply app_eq_nil in E as [-> _].
  split; [done|]. exists []. rewrite dblk_writes, vwrites_snoc.
  split_and!; [by apply (blocks_ok_nil _ _ Hgeo)| |].
  - rewrite vupd_eq. apply hdr_put_is; [apply Hd|simpl; lia|constructor].
  - intros b Hb. unfold recovered at 1. simpl.
    rewrite vupd_ne by (intros ->; by apply Hb, start_in_log). by apply HU.
Qed.
End Recovery.

(** ** Rebooting *)

(** A kernel between system calls of process [pid], showing the contents
    [V]. *)
Definition quiescent (pid : Z) (V : Z -> list Z) (s : kstate) : Prop :=
  k_held s = [] /\ cache_inv pid s V ∅ ∅ /\ idle start size_ V (k_disk s) (k_log s).

(** The superblock's log area. *)
Context (sb : superblock) (Hsb : sb_logstart sb = start /\ sb_nlog sb = size_).

(** What happens to the disk when the machine restarts: the cache is empty,
    and the first process has initlog recover the log. *)
Definition reboot (d : disk) : outcome kstate unit :=
  (binit ;; initlog ROOTDEV sb) (boot_kstate d).

Lemma reboot_ok d bl :
  disk_ok d -> blocks_ok bl -> hdr_is (dblk d start) bl ->
  exists s', reboot d = Ret tt s' /\
    k_disk s' = writes (recovery_writes start (dblk d) bl) d /\
    exists V, quiescent 1 V s'.
Proof using Hgeo Hsb.
  intros Hd Hok Hh. destruct Hsb as [Es Ez].
  assert (wp (binit ;; initlog ROOTDEV sb) (fun _ s' =>
    k_disk s' = writes (recovery_writes start (dblk d) bl) d /\
    exists V, quiescent 1 V s') (boot_kstate d)) as Hwp.
  { apply wp_bind. eapply wp_mono; [apply binit_ok, boot_kstate_ok, Hd|].
    intros [] s1 (Hc & bs & E1). unfold initlog.
    change (BSIZE <=? sizeof_logheader) with false. cbv iota.
    assert (Hs1 : St 1 s1 (dblk d) ∅ ∅ d (k_log s1) s1) by (split; [done|by rewrite E1|done|done]).
    assert (Hh1 : k_held s1 = []) by (by rewrite E1).
    rewrite Es, Ez.
    apply wp_bind. eapply wp_upd_log; [exact Hs1|]. intros s2 Hs2.
    apply wp_bind. eapply wp_upd_log; [exact Hs2|]. intros s3 Hs3.
    apply wp_bind. eapply wp_upd_log; [exact Hs3|]. intros s4 Hs4.
    rewrite !s32_small in Hs4 by (destruct Hgeo; plia).
    eapply (recover_ok 1 s1 Hh1 start size_ Hgeo); [exact Hs4| |done|done|].
    - split; try done. by rewrite E1.
    - intros s5 lg5 Hs5 Hl5 [Ho5 Hc5]. split; [apply Hs5|]. eexists.
      split; [by eapply st_held|]. split; [apply Hs5|].
      rewrite (st_disk _ _ _ _ _ _ _ _ Hs5), (st_log _ _ _ _ _ _ _ _ Hs5).
      split; [done|by rewrite Ho5, E1|by rewrite Hc5, E1|].
      unfold recovery_writes. rewrite vwrites_snoc, vupd_eq.
      apply hdr_put_is; [apply Hd|simpl; lia|constructor]. }
  apply wp_run in Hwp as ([] & s' & E & Hd'). by exists s'.
Qed.

Lemma reboot_recovers d U :
  recovers_to d U ->
  exists s', reboot d = Ret tt s' /\ forall b, ~ in_log b -> dblk (k_disk s') b = U b.
Proof using Hgeo Hsb.
  intros (Hd & bl & Hok & Hh & HU).
  destruct (reboot_ok d bl Hd Hok Hh) as (s' & E & Hd' & _). exists s'. split; [done|].
  intros b Hb. rewrite Hd', dblk_writes. unfold recovery_writes. rewrite vwrites_snoc.
  rewrite vupd_ne by (intros ->; by apply Hb, start_in_log). by apply HU.
Qed.

(** The disks a crash can leave: the machine stops after some of the writes
    of a run from disk [d0] to disk [df], or after some of the writes of a
    recovery from such a disk, any number of times. *)
Inductive after_crashes (d0 df : disk) : disk -> Prop :=
| crash_running ws1 ws2 :
    df = writes (ws1 ++ ws2) d0 -> after_crashes d0 df (writes ws1 d0)
| crash_recovering d s1 ws1 ws2 :
    after_crashes d0 df d -> reboot d = Ret tt s1 ->
    k_disk s1 = writes (ws1 ++ ws2) d -> after_crashes d0 df (writes ws1 d).

(** If every prefix of the run recovers to contents in [Us], so does every
    disk that crashes can leave. *)
Lemma after_crashes_recover d0 ws (Us : (Z -> list Z) -> Prop) d :
  (forall ws1 ws2, ws = ws1 ++ ws2 -> exists U, Us U /\ recovers_to (writes ws1 d0) U) ->
  after_crashes d0 (writes ws d0) d -> exists U, Us U /\ recovers_to d U.
Proof using Hgeo Hsb.
  intros Hpre. induction 1 as [ws1 ws2 E|d s1 ws1 ws2 _ IH Er Ed].
  - apply writes_inj in E. by eapply Hpre.
  - destruct (IH) as (U & HU & Hd & bl & Hok & Hh & HUb). exists U. split; [done|].
    destruct (reboot_ok d bl Hd Hok Hh) as (s' & E & Hd' & _).
    rewrite Er in E. injection E as <-. rewrite Ed in Hd'. apply writes_inj in Hd'.
    eapply crash_in_recovery; [done..|]. by symmetry.
Qed.
End Crash.

(** ** Atomicity of system calls *)

Section Atomic.
Context {W : Wakeups} {C : BlockCache} (pid start size_ : Z) (Hgeo : geometry start size_).
Context (Hsize : MAXOPBLOCKS + 1 < size_).
Abbreviation in_log := (in_log start size_).
Abbreviation tx_ok := (tx_ok start size_).

Abbreviation quiescent := (quiescent start size_ pid).
(** The contents after the first [k] of the calls. *)
Definition contents_after (V : Z -> list Z) (txs : list (list (Z * list Z))) (k : nat)
  : Z -> list Z := vwrites (concat (take k txs)) V.

(** The run so far, and what its crashes lead to. *)
Record run_inv (s0 : kstate) (V0 : Z -> list Z) (pre : list (list (Z * list Z)))
    (s : kstate) : Prop := {
  ri_run : exists ws V lg, St pid s0 V ∅ ∅ (writes ws (k_disk s0)) lg s /\
    idle start size_ V (writes ws (k_disk s0)) lg /\
    (forall b, ~ in_log b -> V b = vwrites (concat pre) V0 b) /\
    forall ws1 ws2, ws = ws1 ++ ws2 -> exists k, (k <= length pre)%nat /\
      recovers_to start size_ (writes ws1 (k_disk s0)) (contents_after V0 pre k);
}.

Lemma recovers_to_ext d U U' :
  recovers_to start size_ d U -> (forall b, ~ in_log b -> U' b = U b) ->
  recovers_to start size_ d U'.
Proof using Type.
  intros (Hd & bl & Hok & Hh & HU) HE. split; [done|]. exists bl. split_and!; [done..|].
  intros b Hb. by rewrite HE, HU.
Qed.

(** One system call: the writes it makes, and what a crash after some of them
    leads to. *)
Lemma transaction_ok s0 V d lg ups s :
  k_held s0 = [] -> St pid s0 V ∅ ∅ d lg s -> idle start size_ V d lg -> tx_ok ups ->
  wp (transaction ups) (fun _ s' => exists wst V' lg',
    St pid s0 V' ∅ ∅ (writes wst d) lg' s' /\ idle start size_ V' (writes wst d) lg' /\
    (forall b, ~ in_log b -> V' b = vwrites ups V b) /\
    forall ws1 ws2, wst = ws1 ++ ws2 ->
      recovers_to start size_ (writes ws1 d) V \/
      recovers_to start size_ (writes ws1 d) (vwrites ups V)) s.
Proof using Hgeo Hsize.
  intros Hh0 Hs [I1 I2 I3 I4] Htx. unfold transaction. pose proof (lg_n _ _ _ _ I1) as Hn.
  apply wp_bind. eapply begin_op_ok; [done|exact Hs|done..|]. intros s1 Hs1.
  apply wp_bind. eapply (updates_ok pid s0 Hh0 start size_ Hgeo Hsize);
    [exact Hs1|destruct I1; by split|done|done|done|].
  intros s2 lg2 Hs2 Hl2 Ho2 Hc2.
  destruct (add_blocks_ok start size_ Hsize ups ups [] Htx) as [Hbl _]; [by rewrite app_nil_r|].
  set (bl := add_blocks [] ups.*1) in *.
  assert (Hbls : forall x, x ∈ bl <-> x ∈ ups.*1).
  { intros x. unfold bl. rewrite add_blocks_elem. pose proof (not_elem_of_nil x). tauto. }
  assert (Hold : forall b, V b = dblk d b).
  { intros b. rewrite <- (st_disk _ _ _ _ _ _ _ _ Hs).
    eapply cache_clean; [apply Hs|set_solver|apply lookup_empty]. }
  assert (HdV : dblk d = V) by (apply functional_extensionality; done).
  assert (Hdok : disk_ok d) by (intros b; rewrite HdV; eapply cache_block, Hs).
  assert (HV2 : forall b, block_ok (vwrites ups V b)) by (intros; eapply cache_block, Hs2).
  eapply (end_op_ok pid s0 Hh0 start size_ Hgeo); [exact Hs2|done..|].
  intros s3 lg3 wst Hwst Hs3 Hl3 Ho3 Hc3. exists wst, (vwrites wst (vwrites ups V)), lg3.
  split; [done|]. destruct (decide (bl = [])) as [Hnil|Hne]; subst wst.
  - split_and!; [split; try done| |].
    + simpl. rewrite vwrites_out; [done|]. rewrite <- Hbls, Hnil. apply not_elem_of_nil.
    + done.
    + intros ws1 ws2 E. symmetry in E. apply app_eq_nil in E as [-> ->]. left. split; [done|].
      exists []. change (writes [] d) with d. rewrite HdV. split_and!; [by apply (blocks_ok_nil _ _ Hgeo)|done..].
  - destruct (commit_writes_final start size_ Hgeo _ _ HV2 Hbl) as [Hf1 Hf2].
    split_and!; [by split|done|]. intros ws1 ws2 E. rewrite <- HdV at 1.
    eapply (crash_in_commit start size_ Hgeo); [done..| | |exact E]; rewrite HdV; [done|].
    intros b Hb. rewrite vwrites_out; [done|]. by rewrite <- Hbls.
Qed.

Lemma run_inv_step s0 V0 pre ups s :
  k_held s0 = [] -> run_inv s0 V0 pre s -> tx_ok ups ->
  wp (transaction ups) (fun _ s' => run_inv s0 V0 (pre ++ [ups]) s') s.
Proof using Hgeo Hsize.
  intros Hh0 [(ws & V & lg & Hs & Hid & HV & Hpre)] Htx.
  eapply wp_mono; [by eapply transaction_ok|].
  intros [] s' (wst & V' & lg' & Hs' & Hid' & HV' & Hcrash).
  assert (Hups : forall b, ~ in_log b -> vwrites ups V b = vwrites (concat (pre ++ [ups])) V0 b).
  { intros b Hb. rewrite concat_app, vwrites_app. simpl. rewrite app_nil_r.
    by apply vwrites_agree, HV. }
  split. exists (ws ++ wst), V', lg'. rewrite writes_app. split_and!; [done..| |].
  { intros b Hb. rewrite HV' by done. by apply Hups. }
  intros ws1 ws2 E. apply app_eq_inv in E as [(k & -> & E)|(k & -> & E)].
  - (* in an earlier call *)
    destruct (Hpre ws1 k eq_refl) as (n & Hn & Hrec). exists n.
    rewrite length_app. split; [lia|]. unfold contents_after in *.
    by rewrite take_app_le by lia.
  - (* in this call *)
    rewrite writes_app. destruct (Hcrash _ _ E) as [Hc|Hc].
    + exists (length pre). rewrite length_app. split; [lia|].
      unfold contents_after. rewrite take_app_length.
      eapply recovers_to_ext; [exact Hc|]. intros b Hb. by rewrite HV.
    + exists (length pre + 1)%nat. rewrite length_app. split; [simpl; lia|].
      unfold contents_after. rewrite take_ge by (rewrite length_app; simpl; lia).
      eapply recovers_to_ext; [exact Hc|]. intros b Hb. symmetry. by apply Hups.
Qed.

Lemma transactions_run txs s V :
  quiescent V s -> Forall tx_ok txs ->
  wp (for_each txs transaction) (fun _ s' => run_inv s (dblk (k_disk s)) txs s') s.
Proof using Hgeo Hsize.
  intros (Hh & Hc & Hidle) Htx.
  assert (HV : forall b, V b = dblk (k_disk s) b).
  { intros b. eapply cache_clean; [done|set_solver|apply lookup_empty]. }
  apply (wp_for_each (run_inv s (dblk (k_disk s)))); [| |done].
  - split. exists [], V, (k_log s). split_and!; [done|done|by intros; apply HV|].
    intros ws1 ws2 E. symmetry in E. apply app_eq_nil in E as [-> ->].
    exists O. split; [done|]. split.
    + intros b. simpl. rewrite <- HV. by eapply cache_block.
    + exists []. split_and!; [by apply (blocks_ok_nil _ _ Hgeo)|simpl; rewrite <- HV; apply Hidle|done].
  - intros pre ups rest s1 E Hinv. apply run_inv_step; [done..|].
    rewrite Forall_forall in Htx. apply Htx. rewrite E. set_solver.
Qed.

(** C1. Crash safety of the log. From a kernel between system calls, a
    sequence of system calls (each begin_op, updates of at most MAXOPBLOCKS
    blocks through log_write, end_op) returns, leaving on disk the updates of
    all of them. If instead the machine crashes at any point, after any
    number of further crashes during recovery, rebooting returns and leaves
    the file system with the updates of the first [k] calls, completely, and
    nothing of the others. *)
Theorem log_makes_calls_atomic sb txs s V :
  sb_logstart sb = start -> sb_nlog sb = size_ ->
  quiescent V s -> Forall tx_ok txs ->
  exists s', for_each txs transaction s = Ret tt s' /\
    (forall b, ~ in_log b ->
       dblk (k_disk s') b = contents_after (dblk (k_disk s)) txs (length txs) b) /\
    forall d, after_crashes sb (k_disk s) (k_disk s') d ->
      exists s'' k, reboot sb d = Ret tt s'' /\ (k <= length txs)%nat /\
        forall b, ~ in_log b ->
          dblk (k_disk s'') b = contents_after (dblk (k_disk s)) txs k b.
Proof using Hgeo Hsize.
  intros Es Ez Hq Htx.
  pose proof (transactions_run txs s V Hq Htx) as Hwp.
  apply wp_run in Hwp as ([] & s' & E & [(ws & V' & lg & Hs & Hid & HV & Hpre)]).
  exists s'. split_and!; [done| |].
  - intros b Hb. unfold contents_after. rewrite take_ge by done. rewrite <- HV by done.
    symmetry. eapply cache_clean; [apply Hs|set_solver|apply lookup_empty].
  - intros d. rewrite (st_disk _ _ _ _ _ _ _ _ Hs). intros Hd.
    destruct (after_crashes_recover start size_ Hgeo sb (conj Es Ez) (k_disk s) ws
      (fun U => exists k, (k <= length txs)%nat /\ U = contents_after (dblk (k_disk s)) txs k) d)
      as (U & (k & Hk & ->) & Hrec); [|done|].
    + intros ws1 ws2 Ews. destruct (Hpre ws1 ws2 Ews) as (k & Hk & Hrec). eauto.
    + destruct (reboot_recovers start size_ Hgeo sb (conj Es Ez) d _ Hrec) as (s'' & Er & Hb).
      eauto 6.
Qed.
End Atomic.
