(* ===== verification/LogBio.v ===== *)
(** The log of log.c running over the buffer cache of bio.c: the kernel's
    own configuration (the layout that mkfs.c gives a disk of FSSIZE blocks),
    and the room that the log really has. *)

From stdpp Require Import base numbers list gmap strings.
From S2P Require Import Prelude Params Mem State Locks Cache Bio Log.

(** mkfs.c: block 1 holds the superblock, the log starts at block 2 and has
    [nlog = LOGSIZE] blocks; [fsformat] are its other fields for FSSIZE
    blocks and 200 inodes. *)
Definition mkfs_sb : superblock :=
  {| sb_magic := FSMAGIC; sb_size := FSSIZE; sb_nblocks := 1954; sb_ninodes := 200;
     sb_nlog := LOGSIZE; sb_logstart := 2; sb_inodestart := 32; sb_bmapstart := 45 |}.

Lemma mkfs_geometry : geometry (sb_logstart mkfs_sb) (sb_nlog mkfs_sb).
Proof. split; simpl; plia. Qed.


(** The kernel's configuration: bio.c's cache over a driver that completes
    every request. *)
#[local] Instance cfg_wakeups : Wakeups := 4%nat.
#[local] Existing Instance sync_disk.
#[local] Existing Instance bio_cache.

(** A fresh file system and a kernel booted from it. *)
Definition booted (d : disk) : kstate :=
  match reboot mkfs_sb d with Ret _ s => s | _ => boot_kstate d end.

Lemma booted_quiescent :
  exists V, quiescent 2 LOGSIZE 1 V (booted empty_disk).
Proof.
  destruct (reboot_ok 2 LOGSIZE mkfs_geometry mkfs_sb (conj eq_refl eq_refl) empty_disk [])
    as (s & E & _ & V & Hq).
  - apply empty_disk_ok.
  - by apply (blocks_ok_nil 2 LOGSIZE mkfs_geometry).
  - split; [reflexivity|done].
  - exists V. unfold booted. by rewrite E.
Qed.

Definition two_calls : list (list (Z * list Z)) :=
  [[(50, block_of 1); (51, block_of 2)]; [(50, block_of 3)]].

Lemma two_calls_ok : Forall (tx_ok 2 LOGSIZE) two_calls.
Proof.
  assert (forall b, 46 <= b < 2000 -> data_block 2 LOGSIZE b) as Hd.
  { intros b Hb. split; [lia|]. unfold in_log. plia. }
  repeat constructor; simpl; first [apply block_of_ok; lia | lia | idtac].
  all: try (unfold in_log; plia). all: vm_compute; congruence.
Qed.

Lemma log_makes_calls_atomic_witness :
  exists s', for_each two_calls transaction (booted empty_disk) = Ret tt s' /\
    (forall b, ~ in_log 2 LOGSIZE b -> dblk (k_disk s') b =
       contents_after (dblk (k_disk (booted empty_disk))) two_calls 2 b) /\
    forall d, after_crashes mkfs_sb (k_disk (booted empty_disk)) (k_disk s') d ->
      exists s'' k, reboot mkfs_sb d = Ret tt s'' /\ (k <= 2)%nat /\
        forall b, ~ in_log 2 LOGSIZE b -> dblk (k_disk s'') b =
          contents_after (dblk (k_disk (booted empty_disk))) two_calls k b.
Proof.
  destruct booted_quiescent as [V Hq].
  apply (log_makes_calls_atomic 1 2 LOGSIZE mkfs_geometry ltac:(plia)
           mkfs_sb two_calls (booted empty_disk) V eq_refl eq_refl Hq two_calls_ok).
Defined.

(** ** How many blocks fit *)

(** Three system calls, admitted by begin_op one after the other, and the
    blocks they log, in any order. *)
Definition three_calls {W : Wakeups} {C : BlockCache} (ups : list (Z * list Z)) : K unit :=
  begin_op ;; begin_op ;; begin_op ;;
  for_each ups (fun u => update u.1 u.2).

Section Room.
Context {W : Wakeups} {C : BlockCache} (pid start size_ : Z) (Hgeo : geometry start size_).
Context (V : Z -> list Z) (s : kstate) (Hq : quiescent start size_ pid V s).
Implicit Types (ups : list (Z * list Z)).

(** The three calls are admitted; what follows runs from the state [s0]. *)
Lemma admitted : exists s0 lg, (forall m : K unit, (begin_op ;; begin_op ;; begin_op ;; m) s = m s0) /\
  St pid s V ∅ ∅ (k_disk s) lg s0 /\ logged start size_ lg [] /\ l_outstanding lg = 3.
Proof using Hq.
  destruct Hq as (Hh & Hc & [I1 I2 I3 _]). pose proof (lg_n _ _ _ _ I1) as Hn. cbn [length] in Hn.
  assert (Hs : St pid s V ∅ ∅ (k_disk s) (k_log s) s) by by split.
  assert (Hw : wp (begin_op ;; begin_op ;; begin_op) (fun _ s0 => exists lg,
    St pid s V ∅ ∅ (k_disk s) lg s0 /\ logged start size_ lg [] /\ l_outstanding lg = 3) s).
  { apply wp_bind. eapply (begin_op_admits pid s Hh) with (o := 0); [exact Hs|done|done|rewrite Hn; plia|]. intros s1 Hs1.
    apply wp_bind. eapply (begin_op_admits pid s Hh) with (o := 1); [exact Hs1|done|done|cbn; rewrite Hn; plia|]. intros s2 Hs2.
    eapply (begin_op_admits pid s Hh) with (o := 2); [exact Hs2|done|done|cbn; rewrite Hn; plia|]. intros s3 Hs3.
    eexists. split; [exact Hs3|]. split; [|done]. destruct I1. by split. }
  apply wp_run in Hw as ([] & s0 & E & lg & Hs0). exists s0, lg. split; [|done]. intros m. unfold bind, obind in *.
  destruct (begin_op s) as [[] s1| | | |]; try done. destruct (begin_op s1) as [[] s2| | | |]; try done. by rewrite E.
Qed.

(** Updates of different blocks, as long as the log has room. *)
Lemma updates_room ups s1 lg1 : St pid s V ∅ ∅ (k_disk s) lg1 s1 -> logged start size_ lg1 [] -> l_outstanding lg1 = 3 ->
  NoDup ups.*1 -> Forall (fun u => data_block start size_ u.1 /\ block_ok u.2) ups -> Z.of_nat (length ups) <= size_ - 1 ->
  wp (for_each ups (fun u => update u.1 u.2)) (fun _ s' => exists lg',
    St pid s (vwrites ups V) (list_to_set ups.*1) ∅ (k_disk s) lg' s' /\
    logged start size_ lg' ups.*1 /\ l_outstanding lg' = 3 /\ blocks_ok start size_ ups.*1) s1.
Proof using Hq Hgeo.
  intros Hs1 Hl1 Ho1 Hnd Hd Hlen. pose proof Hq as (Hh & _).
  apply (wp_for_each (fun pre s' => exists lg', St pid s (vwrites pre V) (list_to_set pre.*1) ∅ (k_disk s) lg' s' /\
    logged start size_ lg' pre.*1 /\ l_outstanding lg' = 3 /\ blocks_ok start size_ pre.*1)).
  - exists lg1. split_and!; [done..|]. by apply (blocks_ok_nil start size_ Hgeo).
  - intros pre [bno v] rest s2 E (lg2 & Hs2 & Hl2 & Ho2 & Hb2). cbn [fst snd].
    assert (bno ∉ pre.*1 /\ data_block start size_ bno /\ block_ok v /\ (length pre < length ups)%nat) as (Hnew & Hdb & Hv & Hlt).
    { rewrite E in *. rewrite fmap_app, fmap_cons in Hnd. apply NoDup_app in Hnd as (_ & Hnd & _). apply Forall_app in Hd as [_ Hd].
      apply Forall_cons in Hd as [[Hd1 Hd2] _]. rewrite length_app. cbn [length].
      split_and!; [|done|done|lia]. intros Hin. apply (Hnd _ Hin). by left. }
    assert (Hadd : add_block pre.*1 bno = (pre ++ [(bno, v)]).*1) by (unfold add_block; rewrite decide_False by done; by rewrite fmap_app).
    assert (Hroom : Z.of_nat (length pre.*1) < size_ - 1) by (rewrite length_fmap; lia).
    eapply (update_ok pid s Hh start size_ Hgeo); [exact Hs2|done|done|done|done|done|lia|]. intros s3 lg3 Hs3 Hl3 [Ho3 _].
    exists lg3. rewrite vwrites_snoc, <- Hadd. split_and!; [exact Hs3|done|congruence|by apply blocks_ok_add].
  - done.
Qed.

Lemma for_each_panic {A} (l1 : list A) x l2 (f : A -> K unit) s0 s1 msg s2 :
  for_each l1 f s0 = Ret tt s1 -> f x s1 = Panic msg s2 -> for_each (l1 ++ x :: l2) f s0 = Panic msg s2.
Proof using Type.
  revert s0. induction l1 as [|y l1 IH]; intros s0 E Ef; cbn [for_each app] in *.
  - injection E as ->. unfold bind, obind. by rewrite Ef.
  - unfold bind, obind in *. destruct (f y s0) as [[] s0'| | | |]; try done. by apply IH.
Qed.
End Room.

(** C28. begin_op reserves more than the log holds. From any kernel between
    system calls, begin_op admits three calls; if the blocks they log are
    different ones, outside the log, then all of them are logged when they are
    at most [size - 1], the data blocks of a log of [size] blocks; with one
    block more log_write panics, with exactly [size - 1] blocks in the log. So
    with the log that mkfs makes, of LOGSIZE = 3 * MAXOPBLOCKS blocks, three
    calls that log the MAXOPBLOCKS blocks reserved for each of them panic the
    kernel, at the thirtieth block. *)
Theorem begin_op_overcommits {W : Wakeups} {C : BlockCache} pid start size_ V s ups :
  geometry start size_ -> quiescent start size_ pid V s ->
  NoDup ups.*1 -> Forall (fun u => data_block start size_ u.1 /\ block_ok u.2) ups ->
  exists s',
    three_calls ups s =
      (if Z.of_nat (length ups) <=? size_ - 1 then Ret tt s' else Panic "too big a transaction" s') /\
    lh_n (l_lh (k_log s')) = Z.min (Z.of_nat (length ups)) (size_ - 1).
Proof.
  intros Hgeo Hq Hnd Hd. pose proof Hq as (Hh & _). assert (Hn0 : 0 <= size_ - 1) by (destruct Hgeo; lia).
  destruct (admitted pid start size_ V s Hq) as (s0 & lg0 & Hrun & Hs0 & Hl0 & Ho0). unfold three_calls. rewrite Hrun.
  destruct (Z.leb_spec (Z.of_nat (length ups)) (size_ - 1)) as [Hle|Hgt].
  - pose proof (updates_room pid start size_ Hgeo V s Hq ups s0 lg0 Hs0 Hl0 Ho0 Hnd Hd Hle) as Hw.
    apply wp_run in Hw as ([] & s1 & E & lg1 & Hs1 & Hl1 & _). exists s1. split; [done|].
    rewrite (st_log _ _ _ _ _ _ _ _ Hs1), (lg_n _ _ _ _ Hl1), length_fmap. lia.
  - set (n := Z.to_nat (size_ - 1)). destruct (drop n ups) as [|[bno v] rest] eqn:Ed.
    { apply (f_equal length) in Ed. rewrite length_drop in Ed. cbn in Ed. lia. }
    assert (Eups : ups = take n ups ++ (bno, v) :: rest) by (by rewrite <- Ed, take_drop).
    assert (Hlen : length (take n ups) = n) by (rewrite length_take; lia).
    assert (Hv : block_ok v) by (rewrite Eups in Hd; apply Forall_app in Hd as [_ Hd]; apply Forall_cons in Hd as [[_ Hv] _]; done).
    assert (Hw := updates_room pid start size_ Hgeo V s Hq (take n ups) s0 lg0 Hs0 Hl0 Ho0).
    rewrite Eups, fmap_app in Hnd. apply NoDup_app in Hnd as (Hnd & _).
    specialize (Hw Hnd (Forall_take _ _ _ Hd) ltac:(lia)).
    apply wp_run in Hw as ([] & s1 & E & lg1 & Hs1 & Hl1 & _ & Hb1).
    destruct (update_full pid s Hh start size_ Hgeo _ _ lg1 _ bno v s1 Hs1 Hl1 Hb1) as (s2 & Ep & Hlg); [rewrite length_fmap; lia|done|].
    exists s2. split; [rewrite Eups; by eapply for_each_panic|]. rewrite Hlg, (lg_n _ _ _ _ Hl1), length_fmap. lia.
Qed.

(** The kernel booted from a new file system, with thirty blocks. *)
Definition thirty (k : nat) : list (Z * list Z) := (fun i => (50 + Z.of_nat i, block_of 1)) <$> seq 0 k.

Lemma thirty_ok k : (k <= 30)%nat -> NoDup (thirty k).*1 /\ Forall (fun u => data_block 2 LOGSIZE u.1 /\ block_ok u.2) (thirty k).
Proof.
  intros Hk. split.
  - unfold thirty. rewrite <- list_fmap_compose. apply NoDup_fmap_2; [|apply NoDup_seq]. intros x y H. cbn in H. lia.
  - apply Forall_fmap, Forall_forall. intros i Hi%elem_of_seq. cbn [fst snd compose]. split; [|apply block_of_ok; lia].
    split; [lia|]. unfold in_log. plia.
Qed.

Lemma begin_op_overcommits_witness :
  (exists s', three_calls (thirty 29) (booted empty_disk) = Ret tt s') /\
  (exists s', three_calls (thirty 30) (booted empty_disk) = Panic "too big a transaction" s' /\ lh_n (l_lh (k_log s')) = 29).
Proof.
  destruct booted_quiescent as [V Hq]. split.
  - destruct (begin_op_overcommits 1 2 LOGSIZE V (booted empty_disk) (thirty 29) mkfs_geometry Hq) as (s' & E & _);
      [apply thirty_ok; lia..|]. exists s'. exact E.
  - destruct (begin_op_overcommits 1 2 LOGSIZE V (booted empty_disk) (thirty 30) mkfs_geometry Hq) as (s' & E & Hn);
      [apply thirty_ok; lia..|]. exists s'. split; [exact E|exact Hn].
Defined.
