(* ===== verification/Vm.v ===== *)
(** kernel/vm.c: page tables and the copying between kernel and user memory.

    A page table is a page of physical memory holding 512 64-bit entries, as
    the hardware reads it; a [pagetable_t] is its address and a [pte_t *]
    the address of an entry, 0 for a null pointer. [uint64] arithmetic that
    can wrap does. A buffer in the kernel (the [src] or [dst] of copyout and
    copyin) is the list of its bytes: what copyin stores into [dst] is part
    of its result. *)

From stdpp Require Import base numbers list gmap strings.
From S2P Require Import Prelude Params Mem KString State Locks Kalloc.

(** ** Access to physical memory *)

Definition load64 (a : Z) : K Z := gets (fun s => ld64 (k_mem s) a).
Definition store64 (a v : Z) : K unit := modify (fun s => set_k_mem (st64 (k_mem s) a v) s).
Definition mem_set (dst c n : Z) : K unit :=
  modify (fun s => set_k_mem (memset dst c n (k_mem s)) s).
Definition mem_move (dst src n : Z) : K unit :=
  modify (fun s => set_k_mem (memmove dst src n (k_mem s)) s).
(** memmove from a kernel buffer into a page, and the other way. *)
Definition mem_put (dst : Z) (src : list Z) : K unit :=
  modify (fun s => set_k_mem (write_bytes (k_mem s) dst src) s).
Definition mem_get (src n : Z) : K (list Z) :=
  gets (fun s => read_bytes (k_mem s) src (Z.to_nat n)).

(** [x & flag] as a condition. *)
Definition has (x flag : Z) : bool := negb (Z.land x flag =? 0).

Section Vm.
Context {L : Layout}.

(** ** Walking the page table *)

(** [&pagetable[i]]. *)
Definition pte_addr (pagetable i : Z) : Z := pagetable + 8 * i.

Fixpoint walk_levels (levels : list Z) (pagetable va : Z) (alloc : bool) : K Z :=
  match levels with
  | [] => ret (pte_addr pagetable (PX 0 va))
  | level :: levels' =>
      let pte := pte_addr pagetable (PX level va) in
      let! v := load64 pte in
      if has v PTE_V then walk_levels levels' (PTE2PA v) va alloc
      else if negb alloc then ret 0
      else
        let! pt := kalloc in
        if pt =? 0 then ret 0
        else
          mem_set pt 0 PGSIZE ;;
          store64 pte (Z.lor (PA2PTE pt) PTE_V) ;;
          walk_levels levels' pt va alloc
  end.

Definition walk (pagetable va : Z) (alloc : bool) : K Z :=
  if MAXVA <=? va then panic "walk" else walk_levels [2; 1] pagetable va alloc.

Definition walkaddr (pagetable va : Z) : K Z :=
  if MAXVA <=? va then ret 0
  else
    let! pte := walk pagetable va false in
    if pte =? 0 then ret 0
    else
      let! v := load64 pte in
      if negb (has v PTE_V) then ret 0
      else if negb (has v PTE_U) then ret 0
      else ret (PTE2PA v).

(** ** Adding and removing mappings *)

Definition mappages (pagetable va size pa perm : Z) : K Z :=
  if negb (va mod PGSIZE =? 0) then panic "mappages: va not aligned"
  else if negb (size mod PGSIZE =? 0) then panic "mappages: size not aligned"
  else if size =? 0 then panic "mappages: size"
  else
    let last := u64 (va + size - PGSIZE) in
    loop (Z.to_nat (size / PGSIZE + 1))
      (fun '(a, pa) =>
         let! pte := walk pagetable a true in
         if pte =? 0 then ret (inr (-1))
         else
           let! v := load64 pte in
           if has v PTE_V then panic "mappages: remap"
           else
             store64 pte (Z.lor (Z.lor (PA2PTE pa) perm) PTE_V) ;;
             if a =? last then ret (inr 0)
             else ret (inl (u64 (a + PGSIZE), u64 (pa + PGSIZE))))
      (va, pa).

Definition uvmunmap (pagetable va npages : Z) (do_free : bool) : K unit :=
  if negb (va mod PGSIZE =? 0) then panic "uvmunmap: not aligned"
  else
    let last := u64 (va + npages * PGSIZE) in
    loop (Z.to_nat (npages + 1))
      (fun a =>
         if a <? last
         then
           let! pte := walk pagetable a false in
           if pte =? 0 then panic "uvmunmap: walk"
           else
             let! v := load64 pte in
             if negb (has v PTE_V) then panic "uvmunmap: not mapped"
             else if PTE_FLAGS v =? PTE_V then panic "uvmunmap: not a leaf"
             else
               when do_free (kfree (PTE2PA v)) ;;
               store64 pte 0 ;;
               ret (inl (u64 (a + PGSIZE)))
         else ret (inr tt))
      va.

Definition uvmcreate : K Z :=
  let! pagetable := kalloc in
  if pagetable =? 0 then ret 0
  else mem_set pagetable 0 PGSIZE ;; ret pagetable.

Definition uvmfirst (pagetable : Z) (src : list Z) (sz : Z) : K unit :=
  if PGSIZE <=? sz then panic "uvmfirst: more than a page"
  else
    let! mem := kalloc in
    mem_set mem 0 PGSIZE ;;
    let! _ := mappages pagetable 0 PGSIZE mem
                (Z.lor (Z.lor (Z.lor PTE_W PTE_R) PTE_X) PTE_U) in
    mem_put mem (take (Z.to_nat sz) src).

Definition uvmdealloc (pagetable oldsz newsz : Z) : K Z :=
  if oldsz <=? newsz then ret oldsz
  else
    when (PGROUNDUP newsz <? PGROUNDUP oldsz)
      (let npages := s32 ((PGROUNDUP oldsz - PGROUNDUP newsz) / PGSIZE) in
       uvmunmap pagetable (PGROUNDUP newsz) npages true) ;;
    ret newsz.

Definition uvmalloc (pagetable oldsz newsz xperm : Z) : K Z :=
  if newsz <? oldsz then ret oldsz
  else
    let oldsz := PGROUNDUP oldsz in
    loop (Z.to_nat ((newsz - oldsz) / PGSIZE + 2))
      (fun a =>
         if a <? newsz
         then
           let! mem := kalloc in
           if mem =? 0 then
             let! _ := uvmdealloc pagetable a oldsz in ret (inr 0)
           else
             mem_set mem 0 PGSIZE ;;
             let! r := mappages pagetable a PGSIZE mem
                         (Z.lor (Z.lor PTE_R PTE_U) xperm) in
             if negb (r =? 0) then
               kfree mem ;;
               let! _ := uvmdealloc pagetable a oldsz in ret (inr 0)
             else ret (inl (u64 (a + PGSIZE)))
         else ret (inr newsz))
      oldsz.

(** ** Freeing a page table *)

(** [depth] bounds the recursion; a page table has three levels. *)
Fixpoint freewalk (depth : nat) (pagetable : Z) : K unit :=
  match depth with
  | O => fun _ => NoFuel
  | S depth' =>
      for_each (seq 0 512) (fun i =>
        let slot := pte_addr pagetable (Z.of_nat i) in
        let! pte := load64 slot in
        if has pte PTE_V && negb (has pte (Z.lor (Z.lor PTE_R PTE_W) PTE_X))
        then
          (* this PTE points to a lower-level page table. *)
          freewalk depth' (PTE2PA pte) ;;
          store64 slot 0
        else if has pte PTE_V then panic "freewalk: leaf"
        else ret tt) ;;
      kfree pagetable
  end.

Definition uvmfree (pagetable sz : Z) : K unit :=
  when (0 <? sz) (uvmunmap pagetable 0 (PGROUNDUP sz / PGSIZE) true) ;;
  freewalk 3 pagetable.

(** ** fork's copy *)

Definition uvmcopy (old new sz : Z) : K Z :=
  let err (i : Z) := uvmunmap new 0 (i / PGSIZE) true ;; ret (inr (-1)) in
  loop (Z.to_nat (sz / PGSIZE + 2))
    (fun i =>
       if i <? sz
       then
         let! pte := walk old i false in
         if pte =? 0 then panic "uvmcopy: pte should exist"
         else
           let! v := load64 pte in
           if negb (has v PTE_V) then panic "uvmcopy: page not present"
           else
             let pa := PTE2PA v in
             let flags := PTE_FLAGS v in
             let! mem := kalloc in
             if mem =? 0 then err i
             else
               mem_move mem pa PGSIZE ;;
               let! r := mappages new i PGSIZE mem flags in
               if negb (r =? 0) then kfree mem ;; err i
               else ret (inl (u64 (i + PGSIZE)))
       else ret (inr 0))
    0.

Definition uvmclear (pagetable va : Z) : K unit :=
  let! pte := walk pagetable va false in
  if pte =? 0 then panic "uvmclear"
  else
    let! v := load64 pte in
    store64 pte (Z.land v (u64 (Z.lnot PTE_U))).

(** ** Copying to and from user memory *)

Definition copyout (pagetable dstva : Z) (src : list Z) : K Z :=
  loop (length src / Z.to_nat PGSIZE + 3)
    (fun '(dstva, src) =>
       let len := Z.of_nat (length src) in
       if 0 <? len
       then
         let va0 := PGROUNDDOWN dstva in
         if MAXVA <=? va0 then ret (inr (-1))
         else
           let! pte := walk pagetable va0 false in
           if pte =? 0 then ret (inr (-1))
           else
             let! v := load64 pte in
             if negb (has v PTE_V) || negb (has v PTE_U) || negb (has v PTE_W)
             then ret (inr (-1))
             else
               let pa0 := PTE2PA v in
               let n := Z.min (PGSIZE - (dstva - va0)) len in
               mem_put (pa0 + (dstva - va0)) (take (Z.to_nat n) src) ;;
               ret (inl (u64 (va0 + PGSIZE), drop (Z.to_nat n) src))
       else ret (inr 0))
    (dstva, src).

(** The result and the bytes stored in [dst] so far. *)
Definition copyin (pagetable srcva len : Z) : K (Z * list Z) :=
  loop (Z.to_nat (len / PGSIZE + 3))
    (fun '(srcva, len, dst) =>
       if 0 <? len
       then
         let va0 := PGROUNDDOWN srcva in
         let! pa0 := walkaddr pagetable va0 in
         if pa0 =? 0 then ret (inr (-1, dst))
         else
           let n := Z.min (PGSIZE - (srcva - va0)) len in
           let! bytes := mem_get (pa0 + (srcva - va0)) n in
           ret (inl (u64 (va0 + PGSIZE), len - n, dst ++ bytes))
       else ret (inr (0, dst)))
    (srcva, len, []).

(** The inner loop of copyinstr: copy up to [n] bytes from [p], stopping at a
    NUL; the bytes stored, and whether the NUL was found. *)
Fixpoint copystr_page (n : nat) (p : Z) (m : memory) : list Z * bool :=
  match n with
  | O => ([], false)
  | S n' =>
      if rd m p =? 0 then ([0], true)
      else
        let '(bytes, got_null) := copystr_page n' (p + 1) m in
        (rd m p :: bytes, got_null)
  end.

Definition copyinstr (pagetable srcva max : Z) : K (Z * list Z) :=
  loop (Z.to_nat (max / PGSIZE + 3))
    (fun '(srcva, max, dst) =>
       if 0 <? max
       then
         let va0 := PGROUNDDOWN srcva in
         let! pa0 := walkaddr pagetable va0 in
         if pa0 =? 0 then ret (inr (-1, dst))
         else
           let n := Z.min (PGSIZE - (srcva - va0)) max in
           let! r := gets (fun s => copystr_page (Z.to_nat n) (pa0 + (srcva - va0)) (k_mem s)) in
           let '(bytes, got_null) := r in
           if got_null then ret (inr (0, dst ++ bytes))
           else ret (inl (u64 (va0 + PGSIZE), max - n, dst ++ bytes))
       else ret (inr (-1, dst)))
    (srcva, max, []).

(** ** proc.c: copying to either a user or a kernel address *)

(** Where a copy goes: a user virtual address of the running process
    (user_dst = 1), a physical address, or a buffer of the caller, who takes
    the bytes from the operation's result. *)
Inductive kdst := DstUser (va : Z) | DstPhys (pa : Z) | DstLocal.

(** Where a copy comes from. *)
Inductive ksrc := SrcUser (va : Z) | SrcPhys (pa : Z) | SrcLocal (bytes : list Z).

Definition kdst_add (d : kdst) (n : Z) : kdst :=
  match d with
  | DstUser va => DstUser (u64 (va + n))
  | DstPhys pa => DstPhys (pa + n)
  | DstLocal => DstLocal
  end.

Definition ksrc_add (d : ksrc) (n : Z) : ksrc :=
  match d with
  | SrcUser va => SrcUser (u64 (va + n))
  | SrcPhys pa => SrcPhys (pa + n)
  | SrcLocal bytes => SrcLocal (drop (Z.to_nat n) bytes)
  end.

Definition either_copyout (dst : kdst) (src : list Z) : K Z :=
  match dst with
  | DstUser va => let! p := curproc in copyout (p_pagetable p) va src
  | DstPhys pa => mem_put pa src ;; ret 0
  | DstLocal => ret 0
  end.

Definition either_copyin (src : ksrc) (len : Z) : K (Z * list Z) :=
  match src with
  | SrcUser va => let! p := curproc in copyin (p_pagetable p) va len
  | SrcPhys pa => let! bytes := mem_get pa len in ret (0, bytes)
  | SrcLocal bytes => ret (0, take (Z.to_nat len) bytes)
  end.

(** ** The kernel's own page table *)

Definition kvmmap (kpgtbl va pa sz perm : Z) : K unit :=
  let! r := mappages kpgtbl va sz pa perm in
  if negb (r =? 0) then panic "kvmmap" else ret tt.

(** proc.c: a page for each process's kernel stack, mapped high in memory,
    followed by an invalid guard page. *)
Definition proc_mapstacks (kpgtbl : Z) : K unit :=
  for_each proc_indices (fun p =>
    let! pa := kalloc in
    if pa =? 0 then panic "kalloc"
    else kvmmap kpgtbl (KSTACK (Z.of_nat p)) pa PGSIZE (Z.lor PTE_R PTE_W)).

Definition kvmmake : K Z :=
  let! kpgtbl := kalloc in
  mem_set kpgtbl 0 PGSIZE ;;
  (* uart registers *)
  kvmmap kpgtbl UART0 UART0 PGSIZE (Z.lor PTE_R PTE_W) ;;
  (* virtio mmio disk interface *)
  kvmmap kpgtbl VIRTIO0 VIRTIO0 PGSIZE (Z.lor PTE_R PTE_W) ;;
  (* PLIC *)
  kvmmap kpgtbl PLIC PLIC 0x4000000 (Z.lor PTE_R PTE_W) ;;
  (* map kernel text executable and read-only. *)
  kvmmap kpgtbl KERNBASE KERNBASE (etext - KERNBASE) (Z.lor PTE_R PTE_X) ;;
  (* map kernel data and the physical RAM we'll make use of. *)
  kvmmap kpgtbl etext etext (PHYSTOP - etext) (Z.lor PTE_R PTE_W) ;;
  (* map the trampoline for trap entry/exit *)
  kvmmap kpgtbl TRAMPOLINE trampoline PGSIZE (Z.lor PTE_R PTE_X) ;;
  (* allocate and map a kernel stack for each process. *)
  proc_mapstacks kpgtbl ;;
  ret kpgtbl.

Definition kvminit : K unit :=
  let! t := kvmmake in modify (set_k_kpgtbl t).
End Vm.
