(* ===== verification/Pagetable.v ===== *)
(** What the page-table code of kernel/vm.c does to a page table.

    A three-level table in memory is described by a finite map [T] from paths
    of indices to the page that holds the table at that path ([] is the
    root), and by its leaf entries ([leaf]). The operations are shown to
    change the leaf entries exactly as their callers expect, to keep the
    structure sound, and to neither lose nor duplicate a page: the pages of
    the table, the pages it maps and the allocator's free pages together
    always are the same pages. *)

From stdpp Require Import base numbers list gmap strings.
From S2P Require Import Prelude Params Mem KString State Locks Kalloc Vm.

#[local] Opaque memset memmove st64 ld64.

(** ** Tables in memory *)

(** The pages of the tables. *)
Definition tables (T : gmap (list Z) Z) : list Z := (map_to_list T).*2.

(** The entry that points to a lower-level table, if there is one. *)
Definition table_entry (o : option Z) : Z :=
  match o with Some q => Z.lor (PA2PTE q) PTE_V | None => 0 end.

Record pt_ok (m : memory) (root : Z) (T : gmap (list Z) Z) : Prop := {
  pt_root : T !! [] = Some root;
  pt_shape : forall p q, T !! p = Some q ->
    (length p <= 2)%nat /\ Forall (fun i => 0 <= i < 512) p /\
    (forall i, head p = Some i -> i < 256);   (* addresses stay below MAXVA *)
  pt_parent : forall p i q, T !! (p ++ [i]) = Some q -> is_Some (T !! p);
  pt_entry : forall p i q, T !! p = Some q -> (length p < 2)%nat -> 0 <= i < 512 ->
    ld64 m (q + 8 * i) = table_entry (T !! (p ++ [i]));
}.

(** The leaf entry for the page at [va]; 0 where there is no table for it. *)
Definition leaf (m : memory) (T : gmap (list Z) Z) (va : Z) : Z :=
  match T !! [PX 2 va; PX 1 va] with
  | Some q => ld64 m (q + 8 * PX 0 va)
  | None => 0
  end.

(** Only the allocator's state and memory change. *)
Definition mem_only (s s' : kstate) : Prop :=
  exists m f, s' = set_k_mem m (set_k_freelist f s).

#[export] Instance mem_only_preorder : PreOrder mem_only.
Proof.
  split.
  - intros s. exists (k_mem s), (k_freelist s). by destruct s.
  - intros s1 s2 s3 (m & f & ->) (m' & f' & ->). by exists m', f'.
Qed.

Lemma mem_only_set s m f : mem_only s (set_k_mem m (set_k_freelist f s)).
Proof. by exists m, f. Qed.
Lemma mem_only_mem s m : mem_only s (set_k_mem m s).
Proof. exists m, (k_freelist s). by destruct s. Qed.
Lemma mem_only_held s s' : mem_only s s' -> k_held s' = k_held s.
Proof. by intros (m & f & ->). Qed.

Lemma elem_of_tables T q : q ∈ tables T <-> exists p, T !! p = Some q.
Proof.
  unfold tables. rewrite list_elem_of_fmap. split.
  - intros ([p q'] & -> & H%elem_of_map_to_list). by exists p.
  - intros [p H]. exists (p, q). by rewrite elem_of_map_to_list.
Qed.

Lemma tables_insert T p q : T !! p = None -> tables (<[p := q]> T) ≡ₚ q :: tables T.
Proof. intros H. unfold tables. by rewrite map_to_list_insert. Qed.

Lemma tables_inj T p p' q :
  NoDup (tables T) -> T !! p = Some q -> T !! p' = Some q -> p = p'.
Proof.
  intros Hnd Hp Hp'. destruct (decide (p = p')) as [|Hne]; [done|]. exfalso.
  rewrite <- (insert_delete_id T p q Hp) in Hnd.
  rewrite tables_insert in Hnd by apply lookup_delete_eq.
  apply NoDup_cons in Hnd as [Hnd _]. apply Hnd, elem_of_tables.
  exists p'. by rewrite lookup_delete_ne.
Qed.

Section Pagetable.
Context {L : Layout} {LO : LayoutOk L}.

(** [vm s l root T]: the allocator's free pages are [l], and [T] is a page
    table at [root] whose pages belong to nobody else. *)
Record vm (s : kstate) (l : list Z) (root : Z) (T : gmap (list Z) Z) : Prop := {
  vm_kmem : kmem_inv s l;
  vm_pt : pt_ok (k_mem s) root T;
  vm_nodup : NoDup (tables T ++ l);
  vm_pages : Forall free_page (tables T);
  vm_lock : LkKmem ∉ k_held s;
}.

(** ** Entries *)

Lemma table_pte_V q : free_page q -> has (Z.lor (PA2PTE q) PTE_V) PTE_V = true.
Proof using LO.
  intros Hq%free_page_pos. unfold has. change PTE_V with (Z.shiftl 1 0) at 2.
  rewrite land_bit, pte_testbit by (change PTE_V with 1; lia). done.
Qed.

Lemma table_pte_pa q : free_page q -> PTE2PA (Z.lor (PA2PTE q) PTE_V) = q.
Proof using LO.
  intros Hq. pose proof (free_page_pos q Hq). destruct Hq as [Hq _].
  apply PTE2PA_pte; [lia|done|]. change PTE_V with 1. lia.
Qed.

Lemma has_0 f : has 0 f = false.
Proof using Type. unfold has. by rewrite Z.land_0_l. Qed.

(** The entries of a page lie in it, eight bytes apart. *)
Lemma entry_in_page q i x :
  q + 8 * i <= x < q + 8 * i + 8 -> 0 <= i < 512 -> in_page q x.
Proof using Type. unfold in_page. plia. Qed.

Lemma vm_table_page s l root T p q :
  vm s l root T -> T !! p = Some q -> free_page q /\ (q ∉ l).
Proof using Type.
  intros Hv Hp. assert (Hq : q ∈ tables T) by (apply elem_of_tables; by exists p).
  split.
  - assert (H := vm_pages _ _ _ _ Hv). rewrite Forall_forall in H. by apply H.
  - intros Hl. assert (H := vm_nodup _ _ _ _ Hv). apply NoDup_app in H as (_ & H & _).
    by eapply H.
Qed.

(** ** Memory updates that keep the table *)

(** Changes outside the tables and the free list do not matter. *)
Lemma pt_ok_frame m m' root T :
  (forall q x, q ∈ tables T -> in_page q x -> rd m' x = rd m x) ->
  pt_ok m root T -> pt_ok m' root T /\ forall va, leaf m' T va = leaf m T va.
Proof using Type.
  intros Hf [H1 H2 H3 H4]. split; [split; try done|].
  - intros p i q Hp Hlen Hi. rewrite <- (H4 p i q) by done. apply ld64_ext.
    intros x Hx. apply (Hf q); [apply elem_of_tables; by exists p|].
    by eapply entry_in_page.
  - intros va. unfold leaf. destruct (T !! [PX 2 va; PX 1 va]) as [q|] eqn:E; [|done].
    apply ld64_ext. intros x Hx. apply (Hf q).
    + apply elem_of_tables. by eexists.
    + eapply entry_in_page; [exact Hx|]. by apply PX_range.
Qed.

Lemma pages_disjoint p q x : free_page p -> free_page q -> p <> q -> in_page p x -> ~ in_page q x.
Proof using Type. intros [Hp _] [Hq _]. by apply in_page_disjoint. Qed.

Lemma kmem_inv_frame s s' l :
  kmem_inv s l -> k_freelist s' = k_freelist s ->
  (forall q x, q ∈ l -> in_page q x -> rd (k_mem s') x = rd (k_mem s) x) ->
  kmem_inv s' l.
Proof using Type.
  intros [H1 H2 H3] Hf Hm. split; [|done|done]. rewrite Hf. by eapply chain_frame.
Qed.

(** A change of memory that leaves the tables and the free pages alone. *)
Lemma vm_frame s m' l root T :
  vm s l root T ->
  (forall q x, q ∈ tables T ++ l -> in_page q x -> rd m' x = rd (k_mem s) x) ->
  vm (set_k_mem m' s) l root T /\
  forall va, leaf m' T va = leaf (k_mem s) T va.
Proof using Type.
  intros [H1 H2 H3 H4 H5] Hf. destruct (pt_ok_frame (k_mem s) m' root T) as [Hpt Hleaf]; [|done|].
  { intros q x Hq. apply Hf. apply elem_of_app. by left. }
  split; [|done]. split; try done. eapply kmem_inv_frame; [done..|].
  intros q x Hq. apply Hf. apply elem_of_app. by right.
Qed.

(** ** A new table page *)

(** Outside the table pages and the free pages, memory is the same. *)
Definition outside_same (P : list Z) (m m' : memory) : Prop :=
  forall x, (forall q, q ∈ P -> ~ in_page q x) -> rd m' x = rd m x.

Section NewTable.
Context (s : kstate) (pt page i : Z) (l : list Z) (root : Z) (T : gmap (list Z) Z) (p : list Z).
Hypothesis (Hv : vm s (pt :: l) root T) (Hp : T !! p = Some page)
  (Hhead : p = [] -> i < 256) (Hlen : (length p < 2)%nat) (Hi : 0 <= i < 512) (Hnone : T !! (p ++ [i]) = None).

Definition new_table_mem : memory :=
  st64 (memset pt 0 PGSIZE (memset pt 5 PGSIZE (k_mem s))) (page + 8 * i)
    (Z.lor (PA2PTE pt) PTE_V).

Definition new_table_st : kstate :=
  set_k_mem new_table_mem (set_k_freelist (ld64 (k_mem s) pt) s).

Lemma new_page_ok : free_page pt /\ pt ∉ tables T /\ pt ∉ l.
Proof using All.
  destruct Hv as [[_ Hnd Hpg] _ Hd _ _]. apply NoDup_cons in Hnd as [Hnd _].
  apply Forall_cons in Hpg as [Hpg _]. split_and!; try done.
  apply NoDup_app in Hd as (_ & Hd & _). intros Hin. apply (Hd pt Hin). by left.
Qed.

Lemma rd_new_table x :
  ~ in_page pt x -> ~ (page + 8 * i <= x < page + 8 * i + 8) ->
  rd new_table_mem x = rd (k_mem s) x.
Proof using All.
  unfold in_page. intros Hx Hx'. unfold new_table_mem. rewrite rd_st64_out by lia.
  rewrite !rd_memset by plia. rewrite !decide_False by done. done.
Qed.

Lemma page_ne_pt q : q ∈ tables T -> free_page q /\ q <> pt.
Proof using All.
  intros Hq. destruct new_page_ok as (_ & Hnt & _). split; [|by intros ->].
  assert (H := vm_pages _ _ _ _ Hv). rewrite Forall_forall in H. by apply H.
Qed.

Lemma table_in q' : T !! q' = Some page -> page ∈ tables T.
Proof using All. intros H. apply elem_of_tables. by exists q'. Qed.

Lemma ld64_new_pt j : 0 <= j < 512 -> ld64 new_table_mem (pt + 8 * j) = 0.
Proof using All.
  intros Hj. destruct (page_ne_pt page (table_in p Hp)) as [Hpg Hne].
  destruct new_page_ok as (Hpt & _ & _).
  transitivity (ld64 (memset pt 0 PGSIZE (k_mem s)) (pt + 8 * j)).
  - apply ld64_ext. intros x Hx. unfold new_table_mem.
    assert (Hxin : in_page pt x) by (by eapply entry_in_page).
    rewrite rd_st64_out.
    + rewrite !rd_memset by plia. by rewrite !decide_True by (unfold in_page in Hxin; plia).
    + assert (~ in_page page x) by (by apply (pages_disjoint pt page)).
      unfold in_page in *. plia.
  - apply ld64_zero. intros x Hx. rewrite rd_memset by plia.
    rewrite decide_True; [done|]. plia.
Qed.

Lemma ld64_new_other q j :
  q ∈ tables T -> 0 <= j < 512 -> (q <> page \/ j <> i) ->
  ld64 new_table_mem (q + 8 * j) = ld64 (k_mem s) (q + 8 * j).
Proof using All.
  intros Hq Hj Hne. apply ld64_ext. intros x Hx.
  assert (Hxin : in_page q x) by (by eapply entry_in_page).
  destruct (page_ne_pt q Hq) as [Hfq Hqpt]. destruct new_page_ok as (Hpt & _ & _).
  apply rd_new_table; [by apply (pages_disjoint q pt)|].
  destruct (decide (q = page)) as [->|Hqp]; [destruct Hne; [congruence|lia]|].
  intros Hx'. apply (pages_disjoint q page x); [done| |done|done|by eapply entry_in_page].
  by apply (page_ne_pt page), (table_in p).
Qed.

Lemma new_table_pt : pt_ok new_table_mem root (<[p ++ [i] := pt]> T).
Proof using All.
  destruct (vm_pt _ _ _ _ Hv) as [H1 H2 H3 H4].
  assert (Hroot : p ++ [i] <> []) by (by destruct p).
  split.
  - by rewrite lookup_insert_ne.
  - intros p' q [[<- <-]|[_ Hq]]%lookup_insert_Some; [|by eapply H2].
    rewrite length_app, Forall_app. destruct (H2 _ _ Hp) as (Ha & Hb & Hc). simpl.
    split_and!; [lia|done|by apply Forall_singleton|].
    destruct p as [|j p']; simpl; [intros j [= <-]; by apply Hhead|done].
  - intros p' j q [[Heq <-]|[_ Hq]]%lookup_insert_Some.
    + apply app_inj_tail in Heq as [-> ->].
      rewrite lookup_insert_ne; [by eexists|]. intros Heq.
      apply (f_equal length) in Heq. rewrite length_app in Heq. simpl in Heq. lia.
    + destruct (decide (p ++ [i] = p')) as [<-|];
        [rewrite lookup_insert_eq; by eexists|rewrite lookup_insert_ne by done; by eapply H3].
  - intros p' j q Hq Hl' Hj. apply lookup_insert_Some in Hq as [[<- <-]|[Hne Hq]].
    + rewrite ld64_new_pt by done. rewrite lookup_insert_ne.
      * destruct (T !! ((p ++ [i]) ++ [j])) as [q|] eqn:E; [|done].
        apply H3 in E as [? E]. congruence.
      * intros Heq. apply (f_equal length) in Heq. rewrite !length_app in Heq. simpl in Heq. lia.
    + assert (Hin : q ∈ tables T) by (apply elem_of_tables; by exists p').
      destruct (decide (p' ++ [j] = p ++ [i])) as [Heq|Hneq].
      * rewrite Heq, lookup_insert_eq. apply app_inj_tail in Heq as [-> ->].
        simplify_eq. unfold new_table_mem. rewrite ld64_st64. apply u64_small.
        destruct new_page_ok as [Hpt _]. apply free_page_pos in Hpt.
        apply pte_range; [lia|]. change PTE_V with 1. lia.
      * rewrite lookup_insert_ne by done. rewrite ld64_new_other; [by apply H4|done|done|].
        destruct (decide (q = page)) as [->|]; [|by left]. right. intros ->.
        apply Hneq. f_equal. eapply tables_inj; [|done|done].
        by destruct (NoDup_app (tables T) (pt :: l)) as [[? _] _]; [apply Hv|].
Qed.

Lemma new_table_ok :
  vm new_table_st l root (<[p ++ [i] := pt]> T) /\
  (forall va, leaf new_table_mem (<[p ++ [i] := pt]> T) va = leaf (k_mem s) T va) /\
  outside_same (tables T ++ pt :: l) (k_mem s) new_table_mem /\
  tables (<[p ++ [i] := pt]> T) ++ l ≡ₚ tables T ++ pt :: l.
Proof using All.
  assert (Hperm : tables (<[p ++ [i] := pt]> T) ++ l ≡ₚ tables T ++ pt :: l).
  { rewrite tables_insert by done. simpl. by rewrite Permutation_middle. }
  destruct new_page_ok as (Hpt & Hnt & Hnl).
  destruct (kalloc_spec s pt l) as (s1 & _ & Hk & _ & _ & ->); [apply Hv..|].
  split_and!; [split| | |done].
  - apply (kmem_inv_frame _ _ _ Hk); ks; [reflexivity|]. intros q x Hq Hx.
    assert (Hfq : free_page q).
    { destruct Hk as [_ _ Hk]. rewrite Forall_forall in Hk. by apply Hk. }
    assert (~ in_page pt x) by (apply (pages_disjoint q pt); try done; by intros ->).
    rewrite rd_new_table; [|done|].
    + rewrite rd_memset by plia. by rewrite decide_False.
    + intros Hx'. apply (pages_disjoint q page x); [done| | |done|by eapply entry_in_page].
      * by apply (page_ne_pt page), (table_in p).
      * intros ->. destruct (vm_table_page _ _ _ _ _ _ Hv Hp) as [_ Hn]. apply Hn. by right.
  - simpl. apply new_table_pt.
  - rewrite Hperm. apply Hv.
  - rewrite tables_insert by done. constructor; [done|apply Hv].
  - apply Hv.
  - intros va. unfold leaf. destruct (decide (p ++ [i] = [PX 2 va; PX 1 va])) as [E|E].
    + rewrite <- E, lookup_insert_eq, Hnone. apply ld64_new_pt. by apply PX_range.
    + rewrite lookup_insert_ne by done. destruct (T !! [PX 2 va; PX 1 va]) as [q|] eqn:Eq; [|done].
      apply ld64_new_other; [apply elem_of_tables; by eexists|by apply PX_range|].
      left. intros ->. assert (p = [PX 2 va; PX 1 va]) as ->; [|simpl in Hlen; lia].
      eapply tables_inj; [|done|done].
      by destruct (NoDup_app (tables T) (pt :: l)) as [[? _] _]; [apply Hv|].
  - intros x Hx. apply rd_new_table.
    + apply Hx. apply elem_of_app. right. by left.
    + intros Hx'. apply (Hx page); [|by eapply entry_in_page].
      apply elem_of_app. left. by apply (table_in p).
Qed.
End NewTable.

(** ** walk *)

Lemma walk_no_alloc s l root T va :
  vm s l root T -> 0 <= va < MAXVA ->
  walk root va false s =
  Ret (match T !! [PX 2 va; PX 1 va] with Some q => q + 8 * PX 0 va | None => 0 end) s.
Proof using LO.
  intros Hv Hva. unfold walk. destruct (Z.leb_spec MAXVA va); [lia|].
  destruct (vm_pt _ _ _ _ Hv) as [H1 H2 H3 H4].
  cbn [walk_levels]. unfold load64. rewrite run_gets. unfold pte_addr.
  rewrite (H4 [] _ root) by (first [done | simpl; lia | by apply PX_range]). cbn [app].
  destruct (T !! [PX 2 va]) as [q1|] eqn:E1; cbn [table_entry].
  - destruct (vm_table_page _ _ _ _ _ _ Hv E1) as [Hq1 _].
    rewrite table_pte_V, table_pte_pa by done.
    rewrite run_gets. unfold pte_addr.
    rewrite (H4 [PX 2 va] _ q1) by (first [done | simpl; lia | by apply PX_range]). cbn [app].
    destruct (T !! [PX 2 va; PX 1 va]) as [q0|] eqn:E0; cbn [table_entry].
    + destruct (vm_table_page _ _ _ _ _ _ Hv E0) as [Hq0 _].
      by rewrite table_pte_V, table_pte_pa.
    + by rewrite has_0.
  - rewrite has_0. cbn [negb].
    destruct (T !! [PX 2 va; PX 1 va]) as [q0|] eqn:E0; [|done].
    apply (H3 [PX 2 va]) in E0 as [? E0]. congruence.
Qed.

(** What changing a table may do besides changing leaf entries: take free
    pages for new tables. *)
Record changed (s : kstate) (l : list Z) (T : gmap (list Z) Z) (root : Z)
    (s' : kstate) (l' : list Z) (T' : gmap (list Z) Z) : Prop := {
  ch_vm : vm s' l' root T';
  ch_mem : mem_only s s';
  ch_sub : T ⊆ T';
  ch_out : outside_same (tables T ++ l) (k_mem s) (k_mem s');
  ch_perm : tables T' ++ l' ≡ₚ tables T ++ l;
}.

(** An allocating walk changes no leaf entry. *)
Definition grown (s : kstate) (l : list Z) (T : gmap (list Z) Z) (root : Z)
    (s' : kstate) (l' : list Z) (T' : gmap (list Z) Z) : Prop :=
  changed s l T root s' l' T' /\
  forall va, leaf (k_mem s') T' va = leaf (k_mem s) T va.

Lemma changed_refl s l T root : vm s l root T -> changed s l T root s l T.
Proof using Type. intros Hv. by split. Qed.

Lemma outside_same_perm P Q m m' : P ≡ₚ Q -> outside_same P m m' -> outside_same Q m m'.
Proof using Type. intros HP H x Hx. apply H. intros q. rewrite HP. apply Hx. Qed.

Lemma outside_same_trans P m1 m2 m3 :
  outside_same P m1 m2 -> outside_same P m2 m3 -> outside_same P m1 m3.
Proof using Type. intros H1 H2 x Hx. by rewrite H2, H1. Qed.

Lemma changed_trans s l T root s1 l1 T1 s2 l2 T2 :
  changed s l T root s1 l1 T1 -> changed s1 l1 T1 root s2 l2 T2 ->
  changed s l T root s2 l2 T2.
Proof using Type.
  intros [A1 A2 A3 A5 A6] [B1 B2 B3 B5 B6]. split; [done|by etrans|by etrans| |].
  - eapply outside_same_trans; [done|]. by eapply outside_same_perm.
  - by rewrite B6, A6.
Qed.

Lemma grown_refl s l T root : vm s l root T -> grown s l T root s l T.
Proof using Type. intros Hv. split; [by apply changed_refl|done]. Qed.

Lemma grown_trans s l T root s1 l1 T1 s2 l2 T2 :
  grown s l T root s1 l1 T1 -> grown s1 l1 T1 root s2 l2 T2 -> grown s l T root s2 l2 T2.
Proof using Type.
  intros [A1 A2] [B1 B2]. split; [by eapply changed_trans|]. intros va. by rewrite B2, A2.
Qed.

Lemma PX2_lt va : 0 <= va < MAXVA -> PX 2 va < 256.
Proof using Type.
  intros H. rewrite PX_spec by plia. change (2 ^ (12 + 9 * 2)) with 1073741824. plia.
Qed.

Lemma walk_step s l root T p page level lv va :
  vm s l root T -> T !! p = Some page -> (length p < 2)%nat -> 0 <= level ->
  (p = [] -> PX level va < 256) ->
  (exists q s' l' T', T' !! (p ++ [PX level va]) = Some q /\
     grown s l T root s' l' T' /\
     walk_levels (level :: lv) page va true s = walk_levels lv q va true s') \/
  (l = [] /\ T !! (p ++ [PX level va]) = None /\
     walk_levels (level :: lv) page va true s = Ret 0 s).
Proof using LO.
  intros Hv Hp Hlen Hlv Hhead. assert (Hi := PX_range level va Hlv).
  destruct (vm_pt _ _ _ _ Hv) as [H1 H2 H3 H4].
  cbn [walk_levels]. unfold load64. rewrite run_gets. unfold pte_addr.
  rewrite (H4 p _ page) by done.
  destruct (T !! (p ++ [PX level va])) as [q|] eqn:E; cbn [table_entry].
  - left. exists q, s, l, T. destruct (vm_table_page _ _ _ _ _ _ Hv E) as [Hq _].
    rewrite table_pte_V, table_pte_pa by done. split_and!; [done|by apply grown_refl|done].
  - rewrite has_0. cbn [negb]. destruct l as [|pt l].
    + right. split_and!; try done. by rewrite (bind_Ret _ _ _ _ _ (kalloc_empty s (vm_kmem _ _ _ _ Hv) (vm_lock _ _ _ _ Hv))).
    + left. rewrite (bind_Ret _ _ _ _ _ (kalloc_run s pt l (vm_kmem _ _ _ _ Hv) (vm_lock _ _ _ _ Hv))).
      destruct (new_page_ok s pt page (PX level va) l root T p Hv) as (Hpt & _ & _); [done..|].
      pose proof (free_page_pos pt Hpt). destruct (Z.eqb_spec pt 0); [lia|].
      unfold mem_set, store64. run_steps. ks. 
      destruct (new_table_ok s pt page (PX level va) l root T p) as (A & B & C & D); [done..|].
      exists pt, (new_table_st s pt page (PX level va)), l, (<[p ++ [PX level va] := pt]> T).
      split_and!; [apply lookup_insert_eq|split; [split|]|done]; try done.
      * apply mem_only_set.
      * by apply insert_subseteq.
Qed.

Lemma walk_alloc s l root T va :
  vm s l root T -> 0 <= va < MAXVA ->
  exists r s' l' T', walk root va true s = Ret r s' /\ grown s l T root s' l' T' /\
    (match T' !! [PX 2 va; PX 1 va] with
     | Some q => r = q + 8 * PX 0 va
     | None => r = 0 /\ l' = []
     end).
Proof using LO.
  intros Hv Hva. unfold walk. destruct (Z.leb_spec MAXVA va); [lia|].
  destruct (walk_step s l root T [] root 2 [1] va) as
    [(q1 & s1 & l1 & T1 & E1 & G1 & ->)|(-> & E1 & ->)]; [done|apply Hv|simpl; lia|lia|by intros _; apply PX2_lt| |].
  - destruct (walk_step s1 l1 root T1 [PX 2 va] q1 1 [] va) as
      [(q0 & s0 & l0 & T0 & E0 & G0 & ->)|(-> & E0 & ->)]; [apply G1|done|simpl; lia|lia|done| |].
    + exists (q0 + 8 * PX 0 va), s0, l0, T0. split_and!; [done|by eapply grown_trans|].
      cbn [app] in E0. by rewrite E0.
    + exists 0, s1, [], T1. split_and!; [done..|]. cbn [app] in E0. by rewrite E0.
  - exists 0, s, [], T. split_and!; [done|by apply grown_refl|].
    destruct (T !! [PX 2 va; PX 1 va]) as [q|] eqn:E; [|done].
    apply (pt_parent _ _ _ (vm_pt _ _ _ _ Hv) [PX 2 va]) in E as [? E]. simpl in E1. congruence.
Qed.

(** ** Leaf entries as a function of the page *)

(** The page addresses that a page table can map. *)
Definition upage (a : Z) : Prop := 0 <= a < MAXVA /\ a mod PGSIZE = 0.

Definition shows (m : memory) (T : gmap (list Z) Z) (V : Z -> Z) : Prop :=
  forall a, upage a -> leaf m T a = V a.

Definition vset (V : Z -> Z) (a v : Z) : Z -> Z := fun x => if decide (x = a) then v else V x.

Lemma shows_ext m T V V' :
  (forall a, upage a -> V a = V' a) -> shows m T V -> shows m T V'.
Proof using Type. intros H Hs a Ha. by rewrite <- H, Hs. Qed.

(** Storing a leaf entry. *)
Lemma store_leaf s l root T V va q v :
  vm s l root T -> shows (k_mem s) T V -> upage va -> 0 <= v < 2 ^ 64 ->
  T !! [PX 2 va; PX 1 va] = Some q ->
  let s' := set_k_mem (st64 (k_mem s) (q + 8 * PX 0 va) v) s in
  changed s l T root s' l T /\ shows (k_mem s') T (vset V va v).
Proof using Type.
  intros Hv HV Hva Hval Hq s'.
  destruct (vm_table_page _ _ _ _ _ _ Hv Hq) as [Hfq Hnl].
  assert (Hi := PX_range 0 va (Z.le_refl 0)).
  assert (Hqin : q ∈ tables T) by (apply elem_of_tables; by eexists).
  assert (Hpg : forall q', q' ∈ tables T -> free_page q').
  { assert (H := vm_pages _ _ _ _ Hv). by rewrite Forall_forall in H. }
  assert (Hnd : NoDup (tables T)) by (by apply (NoDup_app (tables T) l), Hv).
  assert (Hother : forall q' j, q' ∈ tables T -> 0 <= j < 512 -> (q' <> q \/ j <> PX 0 va) ->
    ld64 (k_mem s') (q' + 8 * j) = ld64 (k_mem s) (q' + 8 * j)).
  { intros q' j Hq' Hj Hne. apply ld64_ext. intros x Hx. apply rd_st64_out.
    destruct (decide (q' = q)) as [->|Hqq]; [destruct Hne; [congruence|lia]|].
    assert (~ in_page q x).
    { apply (pages_disjoint q' q); auto. by eapply entry_in_page. }
    unfold in_page in *. plia. }
  assert (Hout : forall x, ~ in_page q x -> rd (k_mem s') x = rd (k_mem s) x).
  { intros x Hx. apply rd_st64_out. unfold in_page in *. plia. }
  split; [split|]; [split| | | | |].
  - apply (kmem_inv_frame _ _ _ (vm_kmem _ _ _ _ Hv)); [done|]. intros q' x Hq' Hx.
    apply Hout. apply (pages_disjoint q' q); [|done| |done].
    + destruct (vm_kmem _ _ _ _ Hv) as [_ _ H]. rewrite Forall_forall in H. by apply H.
    + by intros ->.
  - destruct (vm_pt _ _ _ _ Hv) as [H1 H2 H3 H4]. split; try done.
    intros p i q' Hp Hlen Hi'. rewrite <- (H4 p i q') by done. apply Hother; [|done|].
    + apply elem_of_tables. by exists p.
    + left. intros ->. assert (p = [PX 2 va; PX 1 va]) as -> by (by eapply tables_inj).
      simpl in Hlen. lia.
  - apply Hv.
  - apply Hv.
  - apply Hv.
  - apply mem_only_mem.
  - done.
  - intros x Hx. apply Hout. apply Hx. apply elem_of_app. by left.
  - done.
  - intros a Ha. unfold leaf, vset. case_decide as E.
    + subst a. rewrite Hq. unfold s'. ks. rewrite ld64_st64. by apply u64_small.
    + rewrite <- HV by done. unfold leaf.
      destruct (T !! [PX 2 a; PX 1 a]) as [q'|] eqn:Eq; [|done].
      apply Hother; [apply elem_of_tables; by eexists|by apply PX_range|].
      destruct (decide (q' = q)) as [->|]; [|by left]. right. intros E0. apply E.
      assert ([PX 2 a; PX 1 a] = [PX 2 va; PX 1 va]) as [= E2 E1] by (by eapply tables_inj).
      apply PX_inj; try apply Ha; try apply Hva; done.
Qed.

(** ** mappages *)

(** A valid leaf entry. *)
Definition pte (pa perm : Z) : Z := Z.lor (Z.lor (PA2PTE pa) perm) PTE_V.

(** [n] pages from [va] mapped to the frames from [pa]. *)
Definition map_range (V : Z -> Z) (va n pa perm : Z) : Z -> Z :=
  fun a => if decide (va <= a < va + n * PGSIZE) then pte (pa + (a - va)) perm else V a.

Lemma flags_V perm : 0 <= perm < 1024 -> 0 <= Z.lor perm PTE_V < 1024.
Proof using Type.
  intros H. change PTE_V with 1. split; [apply Z.lor_nonneg; lia|].
  apply (lor_lt_pow2 _ _ 10); lia.
Qed.

Section Pte.
Context (pa perm : Z) (Hpa : 0 <= pa < 2 ^ 54) (Hal : pa mod PGSIZE = 0)
        (Hperm : 0 <= perm < 1024).

Lemma pte_lor : pte pa perm = Z.lor (PA2PTE pa) (Z.lor perm PTE_V).
Proof using Type. unfold pte. by rewrite Z.lor_assoc. Qed.

Lemma pte_u64 : 0 <= pte pa perm < 2 ^ 64.
Proof using Hpa Hperm. clear Hal. rewrite pte_lor. apply pte_range; [done|]. by apply flags_V. Qed.

Lemma pte_pa : PTE2PA (pte pa perm) = pa.
Proof using Hpa Hal Hperm. rewrite pte_lor. apply PTE2PA_pte; [done..|]. by apply flags_V. Qed.

Lemma pte_flags : PTE_FLAGS (pte pa perm) = Z.lor perm PTE_V.
Proof using Hpa Hperm. clear Hal. rewrite pte_lor. apply PTE_FLAGS_pte; [done|]. by apply flags_V. Qed.

(** The flag bits of the entry are those of [perm], and V. *)
Lemma pte_has n :
  0 <= n < 10 ->
  has (pte pa perm) (Z.shiftl 1 n) = Z.testbit perm n || (n =? 0).
Proof using Hpa Hperm.
  clear Hal. intros Hn. unfold has. rewrite land_bit by lia. rewrite negb_involutive.
  rewrite pte_lor, pte_testbit by (done || by apply flags_V). rewrite Z.lor_spec. f_equal.
Qed.

Lemma pte_V : has (pte pa perm) PTE_V = true.
Proof using Hpa Hperm. clear Hal. change PTE_V with (Z.shiftl 1 0). rewrite pte_has by lia. apply orb_true_r. Qed.
End Pte.

Lemma map_range_step V va n pa perm a :
  0 <= n -> upage a ->
  map_range (vset V va (pte pa perm)) (va + PGSIZE) n (pa + PGSIZE) perm a =
  map_range V va (n + 1) pa perm a \/ va mod PGSIZE <> 0.
Proof using Type.
  intros Hn [_ Ha]. destruct (decide (va mod PGSIZE = 0)) as [Hal|]; [left|by right].
  unfold map_range, vset. repeat case_decide; subst; try done; try plia; try (f_equal; plia).
Qed.

Lemma mappages_loop j :
  forall fuel a pa s l root T V perm,
  (0 < j)%nat -> (j <= fuel)%nat ->
  vm s l root T -> shows (k_mem s) T V -> upage a -> a + Z.of_nat j * PGSIZE <= MAXVA ->
  0 <= pa -> pa mod PGSIZE = 0 -> pa + Z.of_nat j * PGSIZE <= 2 ^ 54 -> 0 <= perm < 1024 ->
  (forall b, upage b -> a <= b < a + Z.of_nat j * PGSIZE -> has (V b) PTE_V = false) ->
  exists r s' l' T' k,
    loop fuel (fun '(x, pa) =>
         let! pte := walk root x true in
         if pte =? 0 then ret (inr (-1))
         else
           let! v := load64 pte in
           if has v PTE_V then panic "mappages: remap"
           else
             store64 pte (Z.lor (Z.lor (PA2PTE pa) perm) PTE_V) ;;
             if x =? a + (Z.of_nat j - 1) * PGSIZE then ret (inr 0)
             else ret (inl (u64 (x + PGSIZE), u64 (pa + PGSIZE)))) (a, pa) s = Ret r s' /\
    changed s l T root s' l' T' /\
    shows (k_mem s') T' (map_range V a k pa perm) /\
    (r = 0 /\ k = Z.of_nat j \/ r = -1 /\ 0 <= k < Z.of_nat j /\ l' = []).
Proof using LO.
  induction j as [|j IH]; [lia|].
  intros fuel a pa s l root T V perm _ Hfuel Hv HV Ha Hmax Hpa Hal Hpamax Hperm Hfree.
  destruct fuel as [|fuel]; [lia|]. cbn [loop].
  destruct (walk_alloc s l root T a Hv (proj1 Ha)) as (r & s1 & l1 & T1 & E & [G GL] & Hr).
  rewrite bind_assoc, (bind_Ret _ _ _ _ _ E). clear E.
  assert (HV1 : shows (k_mem s1) T1 V) by (intros b Hb; rewrite GL; by apply HV).
  destruct (T1 !! [PX 2 a; PX 1 a]) as [q|] eqn:Eq.
  2:{ destruct Hr as [-> ->]. rewrite Z.eqb_refl, run_ret.
      exists (-1), s1, [], T1, 0. split_and!; [done..| |].
      - eapply shows_ext; [|done]. intros b _. unfold map_range. by rewrite decide_False by lia.
      - right. split_and!; (done || lia). }
  destruct (vm_table_page _ _ _ _ _ _ (ch_vm _ _ _ _ _ _ _ G) Eq) as [Hq _].
  apply free_page_pos in Hq. subst r. assert (Hi := PX_range 0 a (Z.le_refl 0)).
  destruct (Z.eqb_spec (q + 8 * PX 0 a) 0); [lia|].
  unfold load64, store64. rewrite bind_assoc, run_gets.
  assert (ld64 (k_mem s1) (q + 8 * PX 0 a) = V a) as ->.
  { rewrite <- HV1 by done. unfold leaf. by rewrite Eq. }
  rewrite Hfree by (done || plia). rewrite bind_assoc, run_modify.
  destruct (store_leaf s1 l1 root T1 V a q (pte pa perm)) as [G2 HV2];
    [apply G|done|done|apply pte_u64; plia|done|].
  fold (pte pa perm). set (s2 := set_k_mem _ s1) in *.
  assert (G3 := changed_trans _ _ _ _ _ _ _ _ _ _ G G2).
  destruct (decide (j = 0%nat)) as [->|Hj].
  - destruct (Z.eqb_spec a (a + (Z.of_nat 1 - 1) * PGSIZE)); [|plia]. rewrite run_ret.
    exists 0, s2, l1, T1, 1. split_and!; [done..| |by left].
    eapply shows_ext; [|exact HV2]. intros b [_ Hb]. unfold vset, map_range.
    destruct Ha as [_ Ha]. repeat case_decide; subst; try done; try plia; f_equal; plia.
  - destruct (Z.eqb_spec a (a + (Z.of_nat (S j) - 1) * PGSIZE)); [plia|]. rewrite run_ret.
    destruct Ha as [Ha0 Ha1].
    rewrite !u64_small by plia.
    destruct (IH fuel (a + PGSIZE) (pa + PGSIZE) s2 l1 root T1 (vset V a (pte pa perm)) perm)
      as (r & s' & l' & T' & k & E & G4 & HV4 & Hcase);
      [lia|lia|apply G2|done|split; plia|plia|plia|plia|plia|done| |].
    { intros b Hb Hbr. unfold vset. rewrite decide_False by lia. apply Hfree; [done|plia]. }
    exists r, s', l', T', (k + 1). split_and!.
    + replace (a + (Z.of_nat (S j) - 1) * PGSIZE) with (a + PGSIZE + (Z.of_nat j - 1) * PGSIZE) by plia.
      exact E.
    + by eapply changed_trans.
    + eapply shows_ext; [|exact HV4]. intros b Hb.
      destruct (map_range_step V a k pa perm b) as [?|?]; [lia|done|done|done].
    + destruct Hcase as [[-> ->]|(-> & Hk & ->)]; [left|right]; split_and!; (done || lia).
Qed.

(** mappages of [n] pages that are not mapped yet: they get mapped, or,
    when the allocator runs out of pages for tables, some of them do. *)
Lemma mappages_spec s l root T V va n pa perm :
  vm s l root T -> shows (k_mem s) T V -> upage va -> 0 < n -> va + n * PGSIZE <= MAXVA ->
  0 <= pa -> pa mod PGSIZE = 0 -> pa + n * PGSIZE <= 2 ^ 54 -> 0 <= perm < 1024 ->
  (forall b, upage b -> va <= b < va + n * PGSIZE -> has (V b) PTE_V = false) ->
  exists r s' l' T' k,
    mappages root va (n * PGSIZE) pa perm s = Ret r s' /\
    changed s l T root s' l' T' /\
    shows (k_mem s') T' (map_range V va k pa perm) /\
    (r = 0 /\ k = n \/ r = -1 /\ 0 <= k < n /\ l' = []).
Proof using LO.
  intros Hv HV Hva Hn Hmax Hpa Hal Hpamax Hperm Hfree. unfold mappages.
  destruct Hva as [Hva0 Hva1]. rewrite Hva1. cbn [Z.eqb negb].
  assert ((n * PGSIZE) mod PGSIZE = 0) as -> by (apply Z.mod_mul; plia).
  cbn [Z.eqb negb]. destruct (Z.eqb_spec (n * PGSIZE) 0); [plia|].
  rewrite Z.div_mul by plia. rewrite u64_small by plia.
  destruct (mappages_loop (Z.to_nat n) (Z.to_nat (n + 1)) va pa s l root T V perm)
    as (r & s' & l' & T' & k & E & H); rewrite ?Z2Nat.id in * by lia; try done; try lia.
  exists r, s', l', T', k. split; [|done].
  replace (va + n * PGSIZE - PGSIZE) with (va + (n - 1) * PGSIZE) by plia. exact E.
Qed.

(** ** uvmunmap *)

Lemma kfree_vm s l root T p :
  vm s l root T -> free_page p -> p ∉ tables T ++ l ->
  exists s', kfree p s = Ret tt s' /\ vm s' (p :: l) root T /\ mem_only s s' /\
    (forall va, leaf (k_mem s') T va = leaf (k_mem s) T va) /\
    outside_same [p] (k_mem s) (k_mem s').
Proof using LO.
  intros Hv Hp Hnin. rewrite elem_of_app in Hnin.
  destruct (kfree_spec p s l (vm_kmem _ _ _ _ Hv) Hp) as (s' & E & Hk & Hs');
    [tauto|apply Hv|].
  exists s'. split; [done|].
  destruct (pt_ok_frame (k_mem s) (k_mem s') root T) as [Hpt Hleaf]; [|apply Hv|].
  { intros q x Hq Hx. subst s'. ks. apply rd_kfree_mem.
    apply (pages_disjoint q p); [|done| |done].
    - assert (H := vm_pages _ _ _ _ Hv). rewrite Forall_forall in H. by apply H.
    - intros ->. tauto. }
  split_and!; [split; try done|..].
  - rewrite <- Permutation_middle. constructor; [|apply Hv]. rewrite elem_of_app. tauto.
  - apply Hv.
  - subst s'. apply Hv.
  - subst s'. by exists (kfree_mem p s), p.
  - done.
  - intros x Hx. subst s'. ks. apply rd_kfree_mem. apply Hx. by left.
Qed.

(** The frames of the [n] pages from [va]. *)
Definition frames (V : Z -> Z) (va : Z) (n : nat) : list Z :=
  (fun k => PTE2PA (V (va + Z.of_nat k * PGSIZE))) <$> seq 0 n.

Lemma frames_S V va n : frames V va (S n) = PTE2PA (V va) :: frames V (va + PGSIZE) n.
Proof using Type.
  unfold frames. cbn [seq fmap list_fmap]. f_equal; [by rewrite Z.add_0_r|].
  rewrite <- fmap_S_seq, <- list_fmap_compose. apply list_fmap_ext.
  intros i k _. unfold compose. do 2 f_equal. plia.
Qed.

Lemma frames_ext V V' va n :
  (forall k, (k < n)%nat -> V (va + Z.of_nat k * PGSIZE) = V' (va + Z.of_nat k * PGSIZE)) ->
  frames V va n = frames V' va n.
Proof using Type.
  intros H. apply list_fmap_ext. intros i k Hk%lookup_seq. rewrite H; [done|lia].
Qed.

Definition clear_range (V : Z -> Z) (va n : Z) : Z -> Z :=
  fun a => if decide (va <= a < va + n * PGSIZE) then 0 else V a.

(** The entry is a valid leaf. *)
Definition leaf_pte (v : Z) : Prop := has v PTE_V = true /\ PTE_FLAGS v <> PTE_V.

(** What unmapping may do to memory: table pages and freed pages change. *)
Definition unmapped (P : list Z) (s : kstate) (T : gmap (list Z) Z) (s' : kstate) : Prop :=
  mem_only s s' /\ outside_same (P ++ tables T) (k_mem s) (k_mem s').

Lemma outside_same_incl P Q m m' : P ⊆ Q -> outside_same P m m' -> outside_same Q m m'.
Proof using Type. intros HP H x Hx. apply H. intros q Hq. apply Hx. by apply HP. Qed.

Lemma uvmunmap_loop n :
  forall fuel a s l root T V (do_free : bool),
  (n < fuel)%nat ->
  vm s l root T -> shows (k_mem s) T V -> upage a \/ n = 0%nat -> 0 <= a ->
  a + Z.of_nat n * PGSIZE <= MAXVA ->
  (forall k, (k < n)%nat -> leaf_pte (V (a + Z.of_nat k * PGSIZE))) ->
  (do_free = true -> NoDup (frames V a n ++ tables T ++ l) /\ Forall free_page (frames V a n)) ->
  let P := if do_free then frames V a n else [] in
  exists s',
    loop fuel (fun x =>
         if x <? a + Z.of_nat n * PGSIZE
         then
           let! pte := walk root x false in
           if pte =? 0 then panic "uvmunmap: walk"
           else
             let! v := load64 pte in
             if negb (has v PTE_V) then panic "uvmunmap: not mapped"
             else if PTE_FLAGS v =? PTE_V then panic "uvmunmap: not a leaf"
             else
               when do_free (kfree (PTE2PA v)) ;;
               store64 pte 0 ;;
               ret (inl (u64 (x + PGSIZE)))
         else ret (inr tt)) a s = Ret tt s' /\
    vm s' (reverse P ++ l) root T /\
    shows (k_mem s') T (clear_range V a (Z.of_nat n)) /\
    unmapped P s T s'.
Proof using LO.
  induction n as [|n IH]; intros fuel a s l root T V do_free Hfuel Hv HV Ha Ha0 Hmax Hleaf Hown;
    (destruct fuel as [|fuel]; [lia|]); cbn [loop].
  - destruct (Z.ltb_spec a (a + Z.of_nat 0 * PGSIZE)); [lia|]. rewrite run_ret.
    exists s. split_and!; [done|by destruct do_free| |].
    + eapply shows_ext; [|done]. intros b _. unfold clear_range. by rewrite decide_False by lia.
    + split; [done|]. by intros x _.
  - destruct Ha as [Ha|]; [|done]. destruct (Z.ltb_spec a (a + Z.of_nat (S n) * PGSIZE)); [|plia].
    rewrite bind_assoc, (bind_Ret _ _ _ _ _ (walk_no_alloc s l root T a Hv (proj1 Ha))).
    destruct (Hleaf 0%nat) as [HVa Hfl]; [lia|]. rewrite Z.add_0_r in HVa, Hfl.
    assert (HVq := HV a Ha). unfold leaf in HVq.
    destruct (T !! [PX 2 a; PX 1 a]) as [q|] eqn:Eq; [|by rewrite <- HVq, has_0 in HVa].
    destruct (vm_table_page _ _ _ _ _ _ Hv Eq) as [Hq _]. apply free_page_pos in Hq.
    assert (Hi := PX_range 0 a (Z.le_refl 0)).
    destruct (Z.eqb_spec (q + 8 * PX 0 a) 0); [lia|].
    unfold load64, store64. rewrite bind_assoc, run_gets, HVq, HVa. cbn [negb].
    destruct (Z.eqb_spec (PTE_FLAGS (V a)) PTE_V); [done|]. rewrite !bind_assoc.
    set (p := PTE2PA (V a)) in *.
    (* the page is freed *)
    assert (exists s1, when do_free (kfree p) s = Ret tt s1 /\
      vm s1 (if do_free then p :: l else l) root T /\ mem_only s s1 /\
      shows (k_mem s1) T V /\ outside_same (if do_free then [p] else []) (k_mem s) (k_mem s1))
      as (s1 & E1 & Hv1 & Hm1 & HV1 & Ho1).
    { destruct do_free; [|by exists s]. destruct (Hown eq_refl) as [Hnd Hpg].
      rewrite frames_S in Hnd, Hpg. fold p in Hnd, Hpg. simpl app in Hnd.
      apply NoDup_cons in Hnd as [Hnin _]. apply Forall_cons in Hpg as [Hp _].
      destruct (kfree_vm s l root T p) as (s1 & E & ? & ? & Hl & ?); [done..| |].
      { intros Hin. apply Hnin. rewrite !elem_of_app in *. tauto. }
      exists s1. split_and!; try done. intros b Hb. rewrite Hl. by apply HV. }
    rewrite (bind_Ret _ _ _ _ _ E1), bind_assoc, run_modify, run_ret.
    destruct (store_leaf s1 _ root T V a q 0 Hv1 HV1 Ha) as [G2 HV2]; [lia|done|].
    set (s2 := set_k_mem _ s1) in *. destruct Ha as [Har Hal].
    rewrite u64_small by plia.
    destruct (IH fuel (a + PGSIZE) s2 (if do_free then p :: l else l) root T (vset V a 0) do_free)
      as (s' & E & Hv' & HV' & [Hm' Ho']).
    { lia. } { apply G2. } { done. }
    { destruct n; [by right|left; split; plia]. } { plia. } { plia. }
    { intros k Hk. unfold vset. rewrite decide_False by plia.
      replace (a + PGSIZE + Z.of_nat k * PGSIZE) with (a + Z.of_nat (S k) * PGSIZE) by plia.
      apply Hleaf. lia. }
    { intros ->. destruct (Hown eq_refl) as [Hnd Hpg]. rewrite frames_S in Hnd, Hpg.
      fold p in Hnd, Hpg. rewrite (frames_ext (vset V a 0) V).
      - split; [|by apply Forall_cons in Hpg as [_ ?]].
        revert Hnd. simpl app. by rewrite !app_assoc, Permutation_middle.
      - intros k Hk. unfold vset. by rewrite decide_False by plia. }
    assert (Hfr : do_free = true -> frames V a (S n) = p :: frames (vset V a 0) (a + PGSIZE) n).
    { intros _. rewrite frames_S. fold p. f_equal. apply frames_ext. intros k Hk.
      unfold vset. by rewrite decide_False by plia. }
    exists s'. split_and!.
    + replace (a + Z.of_nat (S n) * PGSIZE) with (a + PGSIZE + Z.of_nat n * PGSIZE) by plia.
      exact E.
    + destruct do_free; [|done]. rewrite Hfr by done. rewrite reverse_cons, <- app_assoc. done.
    + eapply shows_ext; [|exact HV']. intros b [_ Hb]. unfold clear_range, vset.
      repeat case_decide; subst; try done; try plia.
    + split; [etrans; [exact Hm1|]; etrans; [apply G2|done]|].
      apply (outside_same_trans _ _ (k_mem s1)); [eapply outside_same_incl; [|exact Ho1]|
        apply (outside_same_trans _ _ (k_mem s2))].
      * intros y. destruct do_free; [rewrite Hfr by done|]; sublist.
      * intros x Hx. apply rd_st64_out.
        assert (~ in_page q x) as Hxq.
        { apply Hx. rewrite elem_of_app. right. apply elem_of_tables. by eexists. }
        unfold in_page in Hxq. plia.
      * eapply outside_same_incl; [|exact Ho'].
        intros y. destruct do_free; [rewrite Hfr by done|done]; sublist.
Qed.
End Pagetable.
