(* ===== verification/Uvm.v ===== *)
(** User memory: what uvmalloc, uvmdealloc, copyout, copyin, uvmcopy and
    uvmfree of kernel/vm.c do to a process's address space. *)

From stdpp Require Import base numbers list gmap strings.
From S2P Require Import Prelude Params Mem KString State Locks Kalloc Vm Pagetable.

#[local] Opaque memset memmove st64 ld64.

Section Uvm.
Context {L : Layout} {LO : LayoutOk L}.

(** [uspace s l root T V n]: the first [n] pages of the address space at
    [root] are mapped to page frames that belong to nobody else, and nothing
    is mapped above them, up to the trapframe. *)
Record uspace (s : kstate) (l : list Z) (root : Z) (T : gmap (list Z) Z)
    (V : Z -> Z) (n : nat) : Prop := {
  us_vm : vm s l root T;
  us_view : shows (k_mem s) T V;
  us_size : Z.of_nat n * PGSIZE <= TRAPFRAME;
  us_leaf : forall k, (k < n)%nat -> leaf_pte (V (Z.of_nat k * PGSIZE));
  us_free : forall a, upage a -> Z.of_nat n * PGSIZE <= a < TRAPFRAME -> V a = 0;
  us_high : forall a, upage a -> TRAPFRAME <= a -> has (V a) PTE_U = false;
  us_own : NoDup (frames V 0 n ++ tables T ++ l);
  us_pages : Forall free_page (frames V 0 n);
}.

(** The pages an address space accounts for, and the free ones. *)
Definition account (V : Z -> Z) (n : nat) (T : gmap (list Z) Z) (l : list Z) : list Z :=
  frames V 0 n ++ tables T ++ l.

(** The address space is the same in a state with the same memory, free list
    and allocator lock. *)
Lemma uspace_same s s' l root T V n :
  uspace s l root T V n -> k_mem s' = k_mem s -> k_freelist s' = k_freelist s ->
  LkKmem ∉ k_held s' -> uspace s' l root T V n.
Proof using Type.
  intros [[[Hf Hnd Hp] Hpt Hn Hpg Hl] H2 H3 H4 H5 H6 H7 H8] Em Ef El.
  split; rewrite ?Em; try done. split; rewrite ?Em; try done. split; rewrite ?Em, ?Ef; done.
Qed.

(** ** Taking pages *)

Lemma kalloc_vm s p l root T :
  vm s (p :: l) root T ->
  exists s', kalloc s = Ret p s' /\ vm s' l root T /\ mem_only s s' /\
    (forall va, leaf (k_mem s') T va = leaf (k_mem s) T va) /\
    outside_same [p] (k_mem s) (k_mem s') /\ free_page p /\ p ∉ tables T ++ l.
Proof using LO.
  intros Hv. destruct (kalloc_spec s p l) as (s' & E & Hk & Hp & Hnl & Hs'); [apply Hv..|].
  assert (Hnd := vm_nodup _ _ _ _ Hv). rewrite <- Permutation_middle in Hnd.
  apply NoDup_cons in Hnd as [Hnin Hnd].
  assert (Hout : outside_same [p] (k_mem s) (k_mem s')).
  { intros x Hx. subst s'. ks. rewrite rd_memset by plia. rewrite decide_False; [done|].
    apply (Hx p). by left. }
  destruct (pt_ok_frame (k_mem s) (k_mem s') root T) as [Hpt Hleaf]; [|apply Hv|].
  { intros q x Hq Hx. apply Hout. intros q' Hq'%list_elem_of_singleton. subst q'.
    apply (pages_disjoint q p); [|done| |done].
    - assert (H := vm_pages _ _ _ _ Hv). rewrite Forall_forall in H. by apply H.
    - intros ->. apply Hnin. apply elem_of_app. by left. }
  exists s'. split_and!; try done.
  - split; try done; [apply Hv|]. subst s'. apply Hv.
  - subst s'. by exists (memset p 5 PGSIZE (k_mem s)), (ld64 (k_mem s) p).
Qed.

Lemma kalloc_none s root T : vm s [] root T -> kalloc s = Ret 0 s.
Proof using LO. intros Hv. apply kalloc_empty; apply Hv. Qed.

(** A memory change inside a page that is neither a table nor free. *)
Lemma vm_page_frame s m' l root T V p :
  vm s l root T -> shows (k_mem s) T V -> free_page p -> p ∉ tables T ++ l ->
  outside_same [p] (k_mem s) m' ->
  vm (set_k_mem m' s) l root T /\ shows m' T V.
Proof using Type.
  intros Hv HV Hp Hnin Ho. destruct (vm_frame s m' l root T Hv) as [Hv' Hl].
  - intros q x Hq Hx. apply Ho. intros q' ->%list_elem_of_singleton.
    apply (pages_disjoint q p); [|done| |done].
    + rewrite elem_of_app in Hq. destruct Hq as [Hq|Hq].
      * assert (H := vm_pages _ _ _ _ Hv). rewrite Forall_forall in H. by apply H.
      * destruct (vm_kmem _ _ _ _ Hv) as [_ _ H]. rewrite Forall_forall in H. by apply H.
    + by intros ->.
  - split; [done|]. intros a Ha. rewrite Hl. by apply HV.
Qed.

(** A page that kalloc returns, cleared. *)
Lemma alloc_zeroed s p l root T V :
  vm s (p :: l) root T -> shows (k_mem s) T V ->
  exists s1, kalloc s = Ret p s1 /\
  let s2 := set_k_mem (memset p 0 PGSIZE (k_mem s1)) s1 in
  vm s2 l root T /\ shows (k_mem s2) T V /\ mem_only s s2 /\
  outside_same [p] (k_mem s) (k_mem s2) /\ free_page p /\ p ∉ tables T ++ l /\
  (forall x, in_page p x -> rd (k_mem s2) x = 0).
Proof using LO.
  intros Hv HV. destruct (kalloc_vm s p l root T Hv) as (s1 & E & Hv1 & Hm1 & Hl1 & Ho1 & Hp & Hnin).
  exists s1. split; [done|]. intros s2.
  assert (Ho2 : outside_same [p] (k_mem s1) (k_mem s2)).
  { intros x Hx. unfold s2. ks. rewrite rd_memset by plia. rewrite decide_False; [done|].
    apply (Hx p). by left. }
  destruct (vm_page_frame s1 (k_mem s2) l root T V p) as [Hv2 HV2]; try done.
  { intros a Ha. rewrite Hl1. by apply HV. }
  split_and!; try done.
  - etrans; [exact Hm1|apply mem_only_mem].
  - by eapply outside_same_trans.
  - intros x Hx. unfold s2. ks. rewrite rd_memset by plia. by rewrite decide_True by exact Hx.
Qed.

(** ** Shrinking *)

Lemma frames_app V va n1 n2 :
  frames V va (n1 + n2) = frames V va n1 ++ frames V (va + Z.of_nat n1 * PGSIZE) n2.
Proof using Type.
  revert va. induction n1 as [|n1 IH]; intros va.
  - simpl. by rewrite Z.add_0_r.
  - rewrite Nat.add_succ_l, !frames_S, IH. simpl app. do 3 f_equal. plia.
Qed.

Lemma frames_0 V n1 n2 :
  (n1 <= n2)%nat ->
  frames V 0 n2 = frames V 0 n1 ++ frames V (Z.of_nat n1 * PGSIZE) (n2 - n1).
Proof using Type.
  intros H. rewrite <- (Z.add_0_l (Z.of_nat n1 * PGSIZE)), <- frames_app. f_equal. lia.
Qed.

Lemma uvmunmap_top s l root T V n n1 :
  uspace s l root T V n -> (n1 <= n)%nat ->
  exists s', uvmunmap root (Z.of_nat n1 * PGSIZE) (Z.of_nat (n - n1)) true s = Ret tt s' /\
    let F := frames V (Z.of_nat n1 * PGSIZE) (n - n1) in
    uspace s' (reverse F ++ l) root T
      (clear_range V (Z.of_nat n1 * PGSIZE) (Z.of_nat (n - n1))) n1 /\
    mem_only s s' /\ outside_same (F ++ tables T) (k_mem s) (k_mem s').
Proof using LO.
  intros [H1 H2 H3 H4 H5 Hh H6 H7] Hn. unfold uvmunmap.
  assert (TRAPFRAME <= MAXVA) by (unfold TRAPFRAME, TRAMPOLINE; plia).
  assert (((Z.of_nat n1 * PGSIZE) mod PGSIZE =? 0) = true) as ->.
  { apply Z.eqb_eq. apply Z.mod_mul. plia. }
  cbn [negb]. rewrite u64_small by plia.
  rewrite (frames_0 V n1 n) in H6, H7 by lia.
  destruct (uvmunmap_loop (n - n1) (Z.to_nat (Z.of_nat (n - n1) + 1)) (Z.of_nat n1 * PGSIZE)
    s l root T V true) as (s' & E & Hv' & HV' & Hm & Ho); [lia|done|done| |plia|plia| | |].
  { destruct (decide (n = n1)) as [->|]; [right; lia|left]. split; [plia|]. apply Z.mod_mul. plia. }
  { intros k Hk. rewrite <- Z.mul_add_distr_r, <- Nat2Z.inj_add. apply H4. lia. }
  { intros _. rewrite <- app_assoc in H6. apply NoDup_app in H6 as (_ & _ & H6). split; [done|].
    by apply Forall_app in H7 as [_ ?]. }
  exists s'. split; [exact E|]. set (F := frames V (Z.of_nat n1 * PGSIZE) (n - n1)) in *. split_and!; try done.
  assert (Hfr : frames (clear_range V (Z.of_nat n1 * PGSIZE) (Z.of_nat (n - n1))) 0 n1 =
    frames V 0 n1).
  { apply frames_ext. intros k Hk. unfold clear_range. by rewrite decide_False by plia. }
  split; try done.
  - plia.
  - intros k Hk. unfold clear_range. rewrite decide_False by plia. apply H4. lia.
  - intros a Ha Har. unfold clear_range. case_decide as E'; [done|].
    apply H5; [done|]. plia.
  - intros a Ha Har. unfold clear_range. case_decide; [apply has_0|]. by apply Hh.
  - rewrite Hfr. revert H6. rewrite <- app_assoc. unfold F. rewrite reverse_Permutation.
    intros H6. nodup_perm H6.
  - rewrite Hfr. by apply Forall_app in H7 as [? _].
Qed.

Lemma trapframe_maxva : TRAPFRAME = MAXVA - 2 * PGSIZE.
Proof using Type. unfold TRAPFRAME, TRAMPOLINE. lia. Qed.

Lemma upage_k n k : (k < n)%nat -> Z.of_nat n * PGSIZE <= TRAPFRAME -> upage (Z.of_nat k * PGSIZE).
Proof using Type.
  rewrite trapframe_maxva. intros Hk Hn. split; [plia|]. apply Z.mod_mul. plia.
Qed.

Lemma uspace_ext s l root T V V' n :
  (forall a, upage a -> V a = V' a) -> uspace s l root T V n -> uspace s l root T V' n.
Proof using Type.
  intros HE [H1 H2 H3 H4 H5 Hh H6 H7].
  assert (Hk : forall k, (k < n)%nat -> V (Z.of_nat k * PGSIZE) = V' (Z.of_nat k * PGSIZE)).
  { intros k Hk. apply HE. by eapply upage_k. }
  assert (Hfr : frames V 0 n = frames V' 0 n) by (apply frames_ext; intros k Hkn; rewrite Z.add_0_l; auto).
  split; try done.
  - by eapply shows_ext.
  - intros k Hkn. rewrite <- Hk by done. auto.
  - intros a Ha. rewrite <- HE by done. auto.
  - intros a Ha. rewrite <- HE by done. auto.
  - by rewrite <- Hfr.
  - by rewrite <- Hfr.
Qed.

(** The number of pages that [sz] bytes take. *)
Definition npages (sz : Z) : nat := Z.to_nat ((sz + 4095) / PGSIZE).

Lemma PGROUNDUP_npages sz : 0 <= sz <= MAXVA -> PGROUNDUP sz = Z.of_nat (npages sz) * PGSIZE.
Proof using Type.
  intros H. unfold npages. rewrite PGROUNDUP_spec by plia. rewrite Z2Nat.id by plia. done.
Qed.

Lemma npages_bounds sz :
  0 <= sz -> sz <= Z.of_nat (npages sz) * PGSIZE < sz + PGSIZE.
Proof using Type. intros H. unfold npages. rewrite Z2Nat.id by plia. plia. Qed.

Lemma npages_mono a b : 0 <= a <= b -> (npages a <= npages b)%nat.
Proof using Type. intros H. unfold npages. plia. Qed.

Lemma npages_mul n : npages (Z.of_nat n * PGSIZE) = n.
Proof using Type. unfold npages. plia. Qed.

(** uvmdealloc gives the pages above the new size back. *)
Lemma uvmdealloc_spec s l root T V oldsz newsz :
  uspace s l root T V (npages oldsz) -> 0 <= newsz <= oldsz -> oldsz <= TRAPFRAME ->
  exists s' l' V', uvmdealloc root oldsz newsz s = Ret newsz s' /\
    uspace s' l' root T V' (npages newsz) /\
    (forall a, upage a -> V' a =
       if decide (Z.of_nat (npages newsz) * PGSIZE <= a < Z.of_nat (npages oldsz) * PGSIZE)
       then 0 else V a) /\
    mem_only s s' /\
    outside_same (frames V (Z.of_nat (npages newsz) * PGSIZE) (npages oldsz - npages newsz)
                  ++ tables T) (k_mem s) (k_mem s') /\
    l' ≡ₚ frames V (Z.of_nat (npages newsz) * PGSIZE) (npages oldsz - npages newsz) ++ l.
Proof using LO.
  intros Hu Hsz Hmax. rewrite trapframe_maxva in Hmax.
  assert (Hmono := npages_mono newsz oldsz Hsz).
  assert (Hb := npages_bounds newsz (proj1 Hsz)).
  assert (Hb' : 0 <= oldsz) by lia. apply npages_bounds in Hb'.
  unfold uvmdealloc. rewrite !PGROUNDUP_npages by lia.
  destruct (Z.leb_spec oldsz newsz).
  { assert (newsz = oldsz) as -> by lia. exists s, l, V. rewrite Nat.sub_diag.
    split_and!; try done. intros a _. by rewrite decide_False by lia. }
  destruct (Z.ltb_spec (Z.of_nat (npages newsz) * PGSIZE) (Z.of_nat (npages oldsz) * PGSIZE)) as [Hlt|Hge].
  - rewrite run_when_true.
    replace ((Z.of_nat (npages oldsz) * PGSIZE - Z.of_nat (npages newsz) * PGSIZE) / PGSIZE)
      with (Z.of_nat (npages oldsz - npages newsz)) by plia.
    rewrite s32_small by (unfold npages in *; plia).
    destruct (uvmunmap_top s l root T V (npages oldsz) (npages newsz) Hu) as (s' & E & Hu' & Hm & Ho);
      [lia|].
    rewrite (bind_Ret _ _ _ _ _ E). eexists s', _, _.
    split_and!; [done|exact Hu'| |done|done|by rewrite reverse_Permutation].
    intros a _. unfold clear_range. repeat case_decide; try done; plia.
  - rewrite run_when_false. assert (npages oldsz = npages newsz) as Heq by plia.
    exists s, l, V. rewrite Heq, Nat.sub_diag in *.
    split_and!; try done. intros a _. by rewrite decide_False by lia.
Qed.

(** ** Growing *)

Lemma vm_all_pages s l root T : vm s l root T -> Forall free_page (tables T ++ l).
Proof using Type. intros Hv. apply Forall_app. split; [apply Hv|]. by destruct (vm_kmem _ _ _ _ Hv). Qed.

(** A page that is not among those that may have changed. *)
Lemma outside_page P q x m m' :
  outside_same P m m' -> Forall free_page P -> free_page q -> q ∉ P -> in_page q x ->
  rd m' x = rd m x.
Proof using Type.
  intros Ho HP Hq Hnin Hx. apply Ho. intros q' Hq'. apply (pages_disjoint q q'); try done.
  - rewrite Forall_forall in HP. by apply HP.
  - by intros ->.
Qed.

Lemma leaf_pte_R pa perm :
  0 <= pa < 2 ^ 54 -> 0 <= perm < 1024 -> Z.testbit perm 1 = true -> leaf_pte (pte pa perm).
Proof using Type.
  intros Hpa Hperm HR. split; [by apply pte_V|]. rewrite pte_flags by done. intros E.
  apply (f_equal (fun z => Z.testbit z 1)) in E. rewrite Z.lor_spec, HR in E. done.
Qed.

Lemma mappages_at s l root T V va pa perm :
  vm s l root T -> shows (k_mem s) T V -> upage va -> 0 <= pa -> pa mod PGSIZE = 0 -> pa + PGSIZE <= 2 ^ 54 ->
  0 <= perm < 1024 -> has (V va) PTE_V = false ->
  exists r s' l' T', mappages root va PGSIZE pa perm s = Ret r s' /\
    changed s l T root s' l' T' /\
    (r = 0 /\ shows (k_mem s') T' (vset V va (pte pa perm)) \/
     r = -1 /\ shows (k_mem s') T' V /\ l' = []).
Proof using LO.
  intros Hv HV Hva Hpos Hal Hpr Hperm Hfree. destruct Hva as [Hva0 Hva1].
  destruct (mappages_spec s l root T V va 1 pa perm) as (r & s' & l' & T' & k & E & Hc & HV' & Hcase);
    try done; try plia.
  { intros b [_ Hb] Hbr. assert (b = va) as -> by plia. done. }
  rewrite Z.mul_1_l in E. exists r, s', l', T'. split_and!; [done..|].
  assert (Hone : forall a, upage a -> map_range V va k pa perm a =
    if decide (k = 1) then vset V va (pte pa perm) a else V a).
  { intros a [_ Ha]. unfold map_range, vset.
    repeat case_decide; subst; try done; try plia; f_equal; plia. }
  destruct Hcase as [[-> ->]|(-> & Hk & ->)]; [left|right]; split_and!; try done.
  - eapply shows_ext; [|exact HV']. intros a Ha. by rewrite Hone.
  - eapply shows_ext; [|exact HV']. intros a Ha. rewrite Hone by done. by rewrite decide_False by lia.
Qed.

Lemma mappages_one s l root T V va pa perm :
  vm s l root T -> shows (k_mem s) T V -> upage va -> free_page pa -> 0 <= perm < 1024 ->
  has (V va) PTE_V = false ->
  exists r s' l' T', mappages root va PGSIZE pa perm s = Ret r s' /\
    changed s l T root s' l' T' /\
    (r = 0 /\ shows (k_mem s') T' (vset V va (pte pa perm)) \/
     r = -1 /\ shows (k_mem s') T' V /\ l' = []).
Proof using LO.
  intros Hv HV Hva Hpa. pose proof (free_page_pos pa Hpa) as Hpos. destruct Hpa as [Hal Hpr].
  apply mappages_at; try done; plia.
Qed.

(** Mapping a fresh page [p], whose content has been prepared in [s2], as
    page number [k]: it works, or the page can be given back. *)
Lemma add_page s p l root T V k s2 perm :
  uspace s (p :: l) root T V k -> Z.of_nat (S k) * PGSIZE <= TRAPFRAME ->
  vm s2 l root T -> shows (k_mem s2) T V -> mem_only s s2 ->
  outside_same [p] (k_mem s) (k_mem s2) -> free_page p -> p ∉ tables T ++ l ->
  0 <= perm < 1024 -> leaf_pte (pte p perm) ->
  exists r s3, mappages root (Z.of_nat k * PGSIZE) PGSIZE p perm s2 = Ret r s3 /\
  ((r = 0 /\ exists l' T', let V' := vset V (Z.of_nat k * PGSIZE) (pte p perm) in
      uspace s3 l' root T' V' (S k) /\ mem_only s s3 /\
      outside_same (p :: tables T ++ l) (k_mem s) (k_mem s3) /\
      frames V' 0 (S k) = frames V 0 k ++ [p] /\ tables T' ++ l' ≡ₚ tables T ++ l /\
      (forall x, in_page p x -> rd (k_mem s3) x = rd (k_mem s2) x)) \/
   (r = -1 /\ exists s4 T', kfree p s3 = Ret tt s4 /\ uspace s4 [p] root T' V k /\
      mem_only s s4 /\ outside_same (p :: tables T ++ l) (k_mem s) (k_mem s4) /\
      tables T' ≡ₚ tables T ++ l)).
Proof using LO.
  intros Hu Hsz Hv2 HV2 Hm2 Ho2 Hp Hnin Hperm Hleaf.
  assert (Hpg : upage (Z.of_nat k * PGSIZE)) by (apply (upage_k (S k)); [lia|done]).
  assert (Hpos := free_page_pos p Hp).
  destruct (mappages_one s2 l root T V (Z.of_nat k * PGSIZE) p perm) as
    (r & s3 & l3 & T3 & E3 & [C1 C2 C3 C4 C5] & Hcase); try done.
  { rewrite (us_free _ _ _ _ _ _ Hu); [apply has_0|done|plia]. }
  assert (Ho3 : outside_same (p :: tables T ++ l) (k_mem s) (k_mem s3)).
  { apply (outside_same_trans _ _ (k_mem s2)); (eapply outside_same_incl; [|eassumption]);
      intros y; sublist. }
  exists r, s3. split; [exact E3|].
  destruct Hcase as [[-> HV3]|(-> & HV3 & ->)]; [left|right]; (split; [done|]).
  - exists l3, T3. set (V1 := vset V _ _) in *.
    assert (HV1 : forall j, (j < k)%nat -> V1 (Z.of_nat j * PGSIZE) = V (Z.of_nat j * PGSIZE)).
    { intros j Hj. unfold V1, vset. by rewrite decide_False by plia. }
    assert (HVk : V1 (Z.of_nat k * PGSIZE) = pte p perm) by (unfold V1, vset; by rewrite decide_True).
    assert (Hfr : frames V1 0 (S k) = frames V 0 k ++ [p]).
    { rewrite (frames_0 V1 k (S k)) by lia. replace (S k - k)%nat with 1%nat by lia. f_equal.
      - apply frames_ext. intros j Hj. rewrite Z.add_0_l. by apply HV1.
      - unfold frames. simpl. rewrite Z.add_0_r, HVk. f_equal. apply pte_pa; [lia|apply Hp|done]. }
    split_and!; try done; [split; try done|by etrans|].
    + intros j Hj. destruct (decide (j = k)) as [->|]; [by rewrite HVk|].
      rewrite HV1 by lia. apply Hu. lia.
    + intros a Ha Har. unfold V1, vset. rewrite decide_False by plia. apply Hu; [done|plia].
    + intros a Ha Har. unfold V1, vset. rewrite decide_False by plia. by apply Hu.
    + rewrite Hfr. assert (H := us_own _ _ _ _ _ _ Hu). revert H. rewrite <- (app_assoc (frames V 0 k)).
      rewrite C5. intros H. nodup_perm H.
    + rewrite Hfr. apply Forall_app. split; [apply Hu|]. by apply Forall_singleton.
    + intros x Hx. apply (outside_page (tables T ++ l) p); try done. by eapply vm_all_pages.
  - destruct (kfree_vm s3 [] root T3 p C1 Hp) as (s4 & E4 & Hv4 & Hm4 & Hl4 & Ho4).
    { by rewrite C5. }
    rewrite app_nil_r in C5.
    exists s4, T3. split_and!; try done; [split; try done; try apply Hu|..].
    + intros a Ha. rewrite Hl4. by apply HV3.
    + assert (H := us_own _ _ _ _ _ _ Hu). revert H. rewrite C5. intros H. nodup_perm H.
    + etrans; [exact Hm2|]. by etrans.
    + eapply outside_same_trans; [exact Ho3|]. eapply outside_same_incl; [|exact Ho4].
      intros y. sublist.
Qed.

Section Grow.
Context (root : Z) (s0 : kstate) (l0 : list Z) (T0 : gmap (list Z) Z) (V0 : Z -> Z) (n0 : nat)
        (perm : Z).
Hypothesis (Hu0 : uspace s0 l0 root T0 V0 n0) (Hperm : 0 <= perm < 1024)
           (HR : Z.testbit perm 1 = true).

(** Address space [n] has grown out of the one at the start: the pages above
    [n0] are new, and zero. *)
Record grows (s : kstate) (l : list Z) (T : gmap (list Z) Z) (V : Z -> Z) (n : nat) : Prop := {
  gw_space : uspace s l root T V n;
  gw_le : (n0 <= n)%nat;
  gw_mem : mem_only s0 s;
  gw_out : outside_same (tables T0 ++ l0) (k_mem s0) (k_mem s);
  gw_old : forall a, upage a ->
    ~ (Z.of_nat n0 * PGSIZE <= a < Z.of_nat n * PGSIZE) -> V a = V0 a;
  gw_new : forall k, (n0 <= k < n)%nat ->
    exists p, V (Z.of_nat k * PGSIZE) = pte p perm /\
      free_page p /\ forall x, in_page p x -> rd (k_mem s) x = 0;
  gw_account : account V n T l ≡ₚ account V0 n0 T0 l0;
}.

Lemma grows_refl : grows s0 l0 T0 V0 n0.
Proof using All. split; try done. lia. Qed.

(** The old frames are untouched, so the new ones come from the free list. *)
Lemma grows_frames s l T V n :
  grows s l T V n ->
  frames V (Z.of_nat n0 * PGSIZE) (n - n0) ++ tables T ++ l ≡ₚ tables T0 ++ l0.
Proof using All.
  intros [G1 G2 G3 G4 G5 G6 G7]. unfold account in G7.
  rewrite (frames_0 V n0 n) in G7 by lia.
  assert (frames V 0 n0 = frames V0 0 n0) as E.
  { apply frames_ext. intros k Hk. rewrite Z.add_0_l. apply G5; [|plia].
    eapply upage_k; [exact Hk|]. apply Hu0. }
  rewrite E, <- app_assoc in G7. by apply Permutation_app_inv_l in G7.
Qed.

(** Undoing the growth after a failed allocation. *)
Lemma shrink_back s l T V n :
  grows s l T V n ->
  exists s' l', uvmdealloc root (Z.of_nat n * PGSIZE) (Z.of_nat n0 * PGSIZE) s
    = Ret (Z.of_nat n0 * PGSIZE) s' /\ grows s' l' T V0 n0.
Proof using All.
  intros G. assert (HF := grows_frames _ _ _ _ _ G). destruct G as [G1 G2 G3 G4 G5 G6 G7].
  destruct (uvmdealloc_spec s l root T V (Z.of_nat n * PGSIZE) (Z.of_nat n0 * PGSIZE))
    as (s' & l' & V' & E & Hu & HV & Hm & Ho & Hl).
  { by rewrite npages_mul. } { plia. } { apply G1. }
  rewrite !npages_mul in *. exists s', l'. split; [done|].
  assert (HV' : forall a, upage a -> V' a = V0 a).
  { intros a Ha. rewrite HV by done. case_decide as D; [|by apply G5].
    symmetry. apply (us_free _ _ _ _ _ _ Hu0); [done|]. assert (H := us_size _ _ _ _ _ _ G1). plia. }
  assert (Hfr : frames V' 0 n0 = frames V0 0 n0).
  { apply frames_ext. intros k Hk. rewrite Z.add_0_l. apply HV'.
    eapply upage_k; [exact Hk|]. apply Hu0. }
  split; try done.
  - by eapply uspace_ext.
  - by etrans.
  - eapply outside_same_trans; [exact G4|]. eapply outside_same_incl; [|exact Ho].
    intros y. rewrite <- HF. sublist.
  - intros k Hk. lia.
  - unfold account. apply Permutation_app_head. rewrite Hl, <- HF. solve_Permutation.
Qed.

(** What a step that adds page [p] or fails keeps of the earlier growth. *)
Lemma grows_kept s p l T V n s' k :
  grows s (p :: l) T V n -> outside_same (p :: tables T ++ l) (k_mem s) (k_mem s') ->
  (n0 <= k < n)%nat ->
  exists q, V (Z.of_nat k * PGSIZE) = pte q perm /\ free_page q /\
    forall x, in_page q x -> rd (k_mem s') x = 0.
Proof using All.
  intros [G1 G2 G3 G4 G5 G6 G7] Ho Hk. destruct (G6 k Hk) as (q & Eq & Hq & Hz).
  exists q. split_and!; [done..|]. intros x Hx. rewrite <- (Hz x Hx).
  apply (outside_page (p :: tables T ++ l) q); try done.
  - assert (H := vm_all_pages _ _ _ _ (us_vm _ _ _ _ _ _ G1)).
    rewrite <- Permutation_middle in H. done.
  - assert (Hin : q ∈ frames V 0 n).
    { apply list_elem_of_fmap. exists k. rewrite Z.add_0_l, Eq. split; [|apply elem_of_seq; lia].
      rewrite pte_pa; [done| |apply Hq|done]. apply free_page_pos in Hq. lia. }
    assert (H := us_own _ _ _ _ _ _ G1). apply NoDup_app in H as (_ & H & _).
    intros Hq'. apply (H q Hin). revert Hq'. sublist.
Qed.

(** One more page. *)
Lemma grow_step s p l T V n :
  grows s (p :: l) T V n -> Z.of_nat (S n) * PGSIZE <= TRAPFRAME ->
  exists s1, kalloc s = Ret p s1 /\ free_page p /\
  let s2 := set_k_mem (memset p 0 PGSIZE (k_mem s1)) s1 in
  exists r s3, mappages root (Z.of_nat n * PGSIZE) PGSIZE p perm s2 = Ret r s3 /\
    ((r = 0 /\ exists l' T', grows s3 l' T' (vset V (Z.of_nat n * PGSIZE) (pte p perm)) (S n)) \/
     (r = -1 /\ exists s4 l' T', kfree p s3 = Ret tt s4 /\ grows s4 l' T' V n)).
Proof using All.
  intros G Hsz. assert (HF := grows_frames _ _ _ _ _ G).
  assert (Hkept := fun s' k => grows_kept s p l T V n s' k G). destruct G as [G1 G2 G3 G4 G5 G6 G7].
  destruct (alloc_zeroed s p l root T V) as (s1 & E & Hv2 & HV2 & Hm2 & Ho2 & Hp & Hnin & Hz);
    [apply G1..|].
  exists s1. split_and!; [done..|]. set (s2 := set_k_mem _ s1) in *. intros s2'. unfold s2'. clear s2'.
  assert (Hpos := free_page_pos p Hp).
  assert (Hout : forall s', outside_same (p :: tables T ++ l) (k_mem s) (k_mem s') ->
    outside_same (tables T0 ++ l0) (k_mem s0) (k_mem s')).
  { intros s' Ho. eapply outside_same_trans; [exact G4|]. eapply outside_same_incl; [|exact Ho].
    intros y. rewrite <- HF. sublist. }
  destruct (add_page s p l root T V n s2 perm) as (r & s3 & E3 & Hcase); try done.
  { apply leaf_pte_R; (done || lia). }
  exists r, s3. split; [exact E3|].
  destruct Hcase as [(-> & l' & T' & Hu & Hm & Ho & Hfr & Hperm' & Hin)|
                     (-> & s4 & T' & E4 & Hu & Hm & Ho & Hperm')]; [left|right]; (split; [done|]).
  - exists l', T'. split; try done; [lia|by etrans|by apply Hout| | |].
    + intros a Ha Hna. unfold vset. rewrite decide_False by plia. apply G5; [done|plia].
    + intros k Hk. destruct (decide (k = n)) as [->|].
      * exists p. unfold vset. rewrite decide_True by done. split_and!; [done..|].
        intros x Hx. rewrite Hin by done. by apply Hz.
      * unfold vset. rewrite decide_False by plia. apply (Hkept s3 k); [done|lia].
    + unfold account in *. rewrite Hfr, <- G7, <- app_assoc, Hperm'. solve_Permutation.
  - exists s4, [p], T'. split; [exact E4|]. split; try done; [by etrans|by apply Hout| |].
    + intros k Hk. by apply (Hkept s4 k).
    + unfold account in *. rewrite <- G7, Hperm'. solve_Permutation.
Qed.

Lemma uvmalloc_loop newsz j :
  forall fuel n s l T V,
  newsz <= TRAPFRAME -> grows s l T V n -> (npages newsz - n = j)%nat -> (n <= npages newsz)%nat -> (j < fuel)%nat ->
  exists r s' l' T' V',
    loop fuel
      (fun a =>
         if a <? newsz
         then
           let! mem := kalloc in
           if mem =? 0 then
             let! _ := uvmdealloc root a (Z.of_nat n0 * PGSIZE) in ret (inr 0)
           else
             mem_set mem 0 PGSIZE ;;
             let! r := mappages root a PGSIZE mem perm in
             if negb (r =? 0) then
               kfree mem ;;
               let! _ := uvmdealloc root a (Z.of_nat n0 * PGSIZE) in ret (inr 0)
             else ret (inl (u64 (a + PGSIZE)))
         else ret (inr newsz)) (Z.of_nat n * PGSIZE) s = Ret r s' /\
    (r = newsz /\ grows s' l' T' V' (npages newsz) \/ r = 0 /\ grows s' l' T' V0 n0).
Proof using All.
  induction j as [|j IH]; intros fuel n s l T V Hmax G Hj Hle Hfuel;
    (destruct fuel as [|fuel]; [lia|]); cbn [loop]; rewrite trapframe_maxva in Hmax.
  - assert (n = npages newsz) as -> by lia.
    assert (newsz <= Z.of_nat (npages newsz) * PGSIZE) by (unfold npages; plia).
    destruct (Z.ltb_spec (Z.of_nat (npages newsz) * PGSIZE) newsz); [lia|]. rewrite run_ret.
    exists newsz, s, l, T, V. split; [done|]. by left.
  - assert (Z.of_nat (S n) * PGSIZE < newsz + PGSIZE) by (unfold npages in *; plia).
    destruct (Z.ltb_spec (Z.of_nat n * PGSIZE) newsz); [|plia].
    destruct l as [|p l].
    + assert (E := kalloc_none s root T (us_vm _ _ _ _ _ _ (gw_space _ _ _ _ _ G))).
      rewrite bind_assoc, (bind_Ret _ _ _ _ _ E). cbn [Z.eqb].
      destruct (shrink_back _ _ _ _ _ G) as (s' & l' & E' & G').
      rewrite bind_assoc, (bind_Ret _ _ _ _ _ E'), run_ret.
      exists 0, s', l', T, V0. split; [done|]. by right.
    + destruct (grow_step s p l T V n G) as (s1 & E & Hp & r & s3 & E3 & Hcase).
      { rewrite trapframe_maxva. plia. }
      apply free_page_pos in Hp.
      rewrite bind_assoc, (bind_Ret _ _ _ _ _ E). destruct (Z.eqb_spec p 0); [lia|].
      unfold mem_set. rewrite bind_assoc, run_modify, bind_assoc, (bind_Ret _ _ _ _ _ E3).
      destruct Hcase as [(-> & l' & T' & G')|(-> & s4 & l' & T' & E4 & G')]; cbn [Z.eqb negb].
      * rewrite run_ret, u64_small by plia.
        replace (Z.of_nat n * PGSIZE + PGSIZE) with (Z.of_nat (S n) * PGSIZE) by plia.
        eapply IH; [rewrite trapframe_maxva; lia|exact G'|lia|lia|lia].
      * rewrite bind_assoc, (bind_Ret _ _ _ _ _ E4).
        destruct (shrink_back _ _ _ _ _ G') as (s' & l'' & E' & G'').
        rewrite bind_assoc, (bind_Ret _ _ _ _ _ E'), run_ret.
        exists 0, s', l'', T', V0. split; [done|]. by right.
Qed.
End Grow.

(** ** A new address space *)

Lemma new_table_space s p l :
  kmem_inv s l -> free_page p -> p ∉ l -> LkKmem ∉ k_held s ->
  (forall x, in_page p x -> rd (k_mem s) x = 0) ->
  uspace s l p {[ [] := p ]} (fun _ => 0) 0.
Proof using Type.
  intros Hk Hp Hnin Hlk Hz.
  assert (Ht : tables {[ [] := p ]} = [p]) by (unfold tables; by rewrite map_to_list_singleton).
  assert (Hent : forall i, 0 <= i < 512 -> ld64 (k_mem s) (p + 8 * i) = 0).
  { intros i Hi. apply ld64_zero. intros x Hx. apply Hz. by eapply entry_in_page. }
  split; simpl; try done.
  - split; try done; rewrite ?Ht.
    + split.
      * apply lookup_singleton_eq.
      * intros q r [<- <-]%lookup_singleton_Some. split_and!; [simpl; lia|constructor|done].
      * intros q i r [H _]%lookup_singleton_Some. by destruct q.
      * intros q i r [<- <-]%lookup_singleton_Some _ Hi. rewrite Hent by done.
        by rewrite lookup_singleton_ne.
    + constructor; [done|by destruct Hk].
    + by constructor.
  - intros a Ha. unfold leaf. by rewrite lookup_singleton_ne.
  - intros k Hk'. lia.
  - rewrite Ht. constructor; [done|by destruct Hk].
Qed.

Lemma uvmcreate_space s p l :
  kmem_inv s (p :: l) -> LkKmem ∉ k_held s ->
  exists s', uvmcreate s = Ret p s' /\ uspace s' l p {[ [] := p ]} (fun _ => 0) 0 /\ mem_only s s' /\
    outside_same [p] (k_mem s) (k_mem s').
Proof using LO.
  intros Hk Hlk. destruct (kalloc_spec s p l Hk Hlk) as (s1 & E & Hk1 & Hp & Hnin & Hs1).
  assert (Hpos := free_page_pos p Hp).
  unfold uvmcreate. rewrite (bind_Ret _ _ _ _ _ E). destruct (Z.eqb_spec p 0); [lia|].
  unfold mem_set. rewrite run_modify. eexists. split; [done|]. split_and!.
  - apply new_table_space; try done.
    + apply (kmem_inv_frame s1); [done..|]. intros q x Hq Hx. ks. rewrite rd_memset by plia.
      rewrite decide_False; [done|]. apply (pages_disjoint q p); [|done| |done].
      * destruct Hk1 as [_ _ H]. rewrite Forall_forall in H. by apply H.
      * by intros ->.
    + by subst s1.
    + intros x Hx. ks. rewrite rd_memset by plia. by rewrite decide_True by exact Hx.
  - subst s1. ks. eexists _, _. reflexivity.
  - intros x Hx. subst s1. ks. rewrite !rd_memset by plia. by rewrite !decide_False by (apply (Hx p); left).
Qed.

(** Pages put on the free list one by one. *)
Lemma kfree_list ps s l :
  kmem_inv s l -> NoDup (ps ++ l) -> Forall free_page ps -> LkKmem ∉ k_held s ->
  exists s', for_each ps kfree s = Ret tt s' /\ kmem_inv s' (reverse ps ++ l) /\ mem_only s s'.
Proof using LO.
  revert s l. induction ps as [|p ps IH]; intros s l Hk Hnd Hpg Hlk; [by exists s|].
  simpl in Hnd. apply NoDup_cons in Hnd as [Hnin Hnd]. apply Forall_cons in Hpg as [Hp Hpg].
  rewrite elem_of_app in Hnin. cbn [for_each].
  destruct (kfree_spec p s l Hk Hp) as (s1 & E & Hk1 & Hs1); [tauto|done|].
  rewrite (bind_Ret _ _ _ _ _ E).
  destruct (IH s1 (p :: l) Hk1) as (s2 & E2 & Hk2 & Hm2); [|done|by subst s1|].
  { rewrite <- Permutation_middle. constructor; [rewrite elem_of_app; tauto|done]. }
  exists s2. rewrite reverse_cons, <- app_assoc. split_and!; [done..|].
  etrans; [|done]. subst s1. by exists (kfree_mem p s), p.
Qed.

Lemma uvmalloc_spec s l root T V oldsz newsz xperm :
  uspace s l root T V (npages oldsz) ->
  0 <= oldsz <= newsz -> newsz <= TRAPFRAME -> 0 <= xperm < 1024 ->
  let grew := grows root s l T V (npages oldsz) (Z.lor (Z.lor PTE_R PTE_U) xperm) in
  exists r s' l' T' V',
    uvmalloc root oldsz newsz xperm s = Ret r s' /\
    (r = newsz /\ grew s' l' T' V' (npages newsz) \/
     r = 0 /\ grew s' l' T' V (npages oldsz)).
Proof using LO.
  intros Hu Hsz Hmax Hx grew. unfold uvmalloc. destruct (Z.ltb_spec newsz oldsz); [lia|].
  assert (Hm := Hmax). rewrite trapframe_maxva in Hm.
  rewrite PGROUNDUP_npages by plia.
  assert (Hperm : 0 <= Z.lor (Z.lor PTE_R PTE_U) xperm < 1024).
  { split; [apply Z.lor_nonneg; split; [done|lia]|].
    by apply (lor_lt_pow2 _ _ 10); [split; [done|reflexivity]|lia|lia]. }
  assert (HR : Z.testbit (Z.lor (Z.lor PTE_R PTE_U) xperm) 1 = true) by (rewrite Z.lor_spec; done).
  assert (Hle := npages_mono oldsz newsz Hsz). assert (Hb := npages_bounds oldsz (proj1 Hsz)).
  assert (Hb' : 0 <= newsz) by lia. apply npages_bounds in Hb'.
  apply (uvmalloc_loop root s l T V (npages oldsz) _ Hu Hperm HR newsz
    (npages newsz - npages oldsz) _ (npages oldsz) s l T V); try done; try plia.
  by apply grows_refl.
Qed.

(** C21. uvmalloc grows an address space from oldsz to newsz: the new pages
    are distinct frames taken from the free list, readable by the user with
    the requested extra permissions, and every byte of them is zero; when
    memory runs out it returns 0 and the address space is what it was. In
    both cases the frames mapped, the pages of the page table and the free
    pages are the same pages as before: none is lost, none is used twice;
    and no byte outside them has changed. *)
Theorem uvmalloc_grows_or_restores s l root T V oldsz newsz xperm :
  uspace s l root T V (npages oldsz) ->
  0 <= oldsz <= newsz -> newsz <= TRAPFRAME -> 0 <= xperm < 1024 ->
  let grew := grows root s l T V (npages oldsz) (Z.lor (Z.lor PTE_R PTE_U) xperm) in
  exists r s' l' T' V',
    uvmalloc root oldsz newsz xperm s = Ret r s' /\
    (r = newsz /\ grew s' l' T' V' (npages newsz) \/
     r = 0 /\ grew s' l' T' V (npages oldsz)).
Proof using LO. apply uvmalloc_spec. Qed.
End Uvm.

(** ** Examples *)

(** A few free pages of the repository's kernel, and an address space with
    one page in it. *)
Definition some_pages : list Z := (fun k => 0x80100000 + Z.of_nat k * PGSIZE) <$> seq 0 8.

Definition some_boot : K Z :=
  for_each some_pages (@kfree kernel_sym) ;;
  let! root := uvmcreate in
  let! r := @uvmalloc kernel_sym root 0 4096 PTE_W in
  ret r.

Lemma some_boot_ok r s : some_boot (kstate0 ∅ empty_disk) = Ret r s -> r = 4096.
Proof.
  assert (H : match some_boot (kstate0 ∅ empty_disk) with Ret r _ => r =? 4096 | _ => false end = true)
    by (vm_compute; reflexivity).
  intros E. rewrite E in H. by apply Z.eqb_eq.
Qed.

(** The state before the page is added, and the one after it. *)
Lemma some_space :
  exists s root l, @uspace kernel_sym s l root {[ [] := root ]} (fun _ => 0) (npages 0) /\
    exists s' l' T V p, @uvmalloc kernel_sym root 0 4096 PTE_W s = Ret 4096 s' /\
      @uspace kernel_sym s' l' root T V 1 /\ @free_page kernel_sym p /\
      V 0 = pte p (Z.lor (Z.lor PTE_R PTE_U) PTE_W).
Proof.
  assert (Hpg : Forall (@free_page kernel_sym) some_pages).
  { repeat constructor; vm_compute; intuition discriminate. }
  destruct (@kfree_list kernel_sym kernel_sym_ok some_pages (kstate0 ∅ empty_disk) [])
    as (s & E & Hk & Hm).
  - split; [done|constructor|constructor].
  - rewrite app_nil_r. apply NoDup_fmap_2; [intros i j; plia|apply NoDup_seq].
  - done.
  - by apply not_elem_of_nil.
  - rewrite app_nil_r in Hk. change (reverse some_pages) with
      (0x80107000 :: reverse ((fun k => 0x80100000 + Z.of_nat k * PGSIZE) <$> seq 0 7)) in Hk.
    assert (Hh := mem_only_held _ _ Hm).
    destruct (@uvmcreate_space kernel_sym kernel_sym_ok s _ _ Hk) as (s1 & E1 & Hu & Hm' & _).
    { rewrite Hh. by apply not_elem_of_nil. }
    destruct (@uvmalloc_spec kernel_sym kernel_sym_ok s1 _ _ _ _ 0 4096 PTE_W Hu)
      as (r & s2 & l2 & T2 & V2 & E2 & Hr); [lia|vm_compute; discriminate|split; [done|reflexivity]|].
    assert (r = 4096) as ->.
    { apply (some_boot_ok r s2). unfold some_boot.
      by rewrite (bind_Ret _ _ _ _ _ E), (bind_Ret _ _ _ _ _ E1), (bind_Ret _ _ _ _ _ E2). }
    destruct Hr as [[_ G]|[? _]]; [|done].
    destruct (gw_new _ _ _ _ _ _ _ _ _ _ _ _ G 0%nat) as (p & HV & Hp & _);
      [change (npages 0) with 0%nat; change (npages 4096) with 1%nat; lia|].
    eexists s1, _, _. split; [exact Hu|]. exists s2, l2, T2, V2, p. split; [exact E2|].
    split; [exact (gw_space _ _ _ _ _ _ _ _ _ _ _ _ G)|]. split; [done|exact HV].
Qed.

Lemma uvmalloc_grows_or_restores_witness :
  exists s root r s', @uvmalloc kernel_sym root 0 8192 PTE_W s = Ret r s' /\ (r = 8192 \/ r = 0).
Proof.
  destruct some_space as (s & root & l & Hu & _).
  destruct (@uvmalloc_grows_or_restores kernel_sym kernel_sym_ok s l root _ _ 0 8192 PTE_W Hu)
    as (r & s' & l' & T' & V' & E & Hr).
  - lia.
  - vm_compute. discriminate.
  - split; [done|reflexivity].
  - exists s, root, r, s'. split; [exact E|]. destruct Hr as [[-> _]|[-> _]]; [by left|by right].
Defined.
