(* ===== verification/Ucopy.v ===== *)
(** copyout, copyin and copyinstr of kernel/vm.c: what they read and write of
    a process's memory, whatever address the process passes. *)

From stdpp Require Import base numbers list gmap strings.
From S2P Require Import Prelude Params Mem KString State Locks Kalloc Vm Pagetable Uvm.

#[local] Opaque memset memmove st64 ld64.

Section Ucopy.
Context {L : Layout} {LO : LayoutOk L}.

(** ** User addresses *)

(** The page of an address, and the physical address behind it. *)
Definition page_of (x : Z) : Z := x / PGSIZE * PGSIZE.
Definition upa (V : Z -> Z) (x : Z) : Z := PTE2PA (V (page_of x)) + x mod PGSIZE.

(** The user may read, and write, the byte at [x]. *)
Definition readable (V : Z -> Z) (x : Z) : bool :=
  (x <? MAXVA) && has (V (page_of x)) PTE_V && has (V (page_of x)) PTE_U.
Definition writable (V : Z -> Z) (x : Z) : bool :=
  readable V x && has (V (page_of x)) PTE_W.

Lemma page_of_upage x : 0 <= x < MAXVA -> upage (page_of x).
Proof using Type. intros H. unfold page_of. split; [plia|]. apply Z.mod_mul. plia. Qed.

Lemma page_of_add x i : 0 <= i -> x mod PGSIZE + i < PGSIZE -> page_of (x + i) = page_of x.
Proof using Type. intros H1 H2. unfold page_of. f_equal. plia. Qed.

Lemma upa_add V x i : 0 <= i -> x mod PGSIZE + i < PGSIZE -> upa V (x + i) = upa V x + i.
Proof using Type.
  intros H1 H2. unfold upa. rewrite page_of_add by done.
  replace ((x + i) mod PGSIZE) with (x mod PGSIZE + i) by plia. lia.
Qed.

Lemma readable_page V x y :
  0 <= x < MAXVA -> page_of y = page_of x -> 0 <= y -> readable V y = readable V x.
Proof using Type.
  intros Hx E Hy. unfold readable. rewrite E.
  assert ((y <? MAXVA) = true) as ->. { apply Z.ltb_lt. unfold page_of in E. plia. }
  assert ((x <? MAXVA) = true) as -> by (apply Z.ltb_lt; lia). done.
Qed.

Lemma writable_page V x y :
  0 <= x < MAXVA -> page_of y = page_of x -> 0 <= y -> writable V y = writable V x.
Proof using Type. intros Hx E Hy. unfold writable. by rewrite (readable_page V x y), E. Qed.

Lemma writable_readable V x : writable V x = true -> readable V x = true.
Proof using Type. unfold writable. by intros [? _]%andb_true_iff. Qed.

Section Space.
Context (s : kstate) (l : list Z) (root : Z) (T : gmap (list Z) Z) (V : Z -> Z) (n : nat).
Hypothesis (Hu : uspace s l root T V n).

(** Only the process's own pages are accessible to it. *)
Lemma readable_frame x :
  0 <= x -> readable V x = true ->
  exists k, (k < n)%nat /\ page_of x = Z.of_nat k * PGSIZE /\
    PTE2PA (V (page_of x)) ∈ frames V 0 n /\ free_page (PTE2PA (V (page_of x))).
Proof using Hu.
  intros Hx Hr. unfold readable in Hr. apply andb_true_iff in Hr as [Hr HU].
  apply andb_true_iff in Hr as [Hlt HV]. apply Z.ltb_lt in Hlt.
  assert (Hpg := page_of_upage x (conj Hx Hlt)).
  set (k := Z.to_nat (x / PGSIZE)).
  assert (Hk : page_of x = Z.of_nat k * PGSIZE) by (unfold page_of, k; rewrite Z2Nat.id by plia; done).
  destruct (decide (k < n)%nat) as [Hkn|Hkn].
  - assert (Hin : PTE2PA (V (page_of x)) ∈ frames V 0 n).
    { apply list_elem_of_fmap. exists k. rewrite Z.add_0_l, <- Hk. split; [done|].
      apply elem_of_seq. lia. }
    exists k. split_and!; try done.
    assert (H := us_pages _ _ _ _ _ _ Hu). rewrite Forall_forall in H. by apply H.
  - destruct (decide (page_of x < TRAPFRAME)).
    + rewrite (us_free _ _ _ _ _ _ Hu), has_0 in HV; [done|done|]. rewrite Hk in *. plia.
    + rewrite (us_high _ _ _ _ _ _ Hu) in HU; [done|done|lia].
Qed.

Lemma upa_in_page x : in_page (PTE2PA (V (page_of x))) (upa V x).
Proof using Type. unfold in_page, upa. plia. Qed.

(** Different user bytes are different bytes of memory. *)
Lemma upa_inj x y :
  0 <= x -> 0 <= y -> readable V x = true -> readable V y = true ->
  upa V x = upa V y -> x = y.
Proof using Hu.
  intros Hx Hy Hrx Hry E.
  destruct (readable_frame x Hx Hrx) as (k & Hk & Ek & Hin & Hf).
  destruct (readable_frame y Hy Hry) as (j & Hj & Ej & Hin' & Hf').
  assert (Epa : PTE2PA (V (page_of x)) = PTE2PA (V (page_of y))).
  { destruct (decide (PTE2PA (V (page_of x)) = PTE2PA (V (page_of y)))) as [|Hne]; [done|].
    destruct (pages_disjoint _ _ (upa V x) Hf Hf' Hne (upa_in_page x)).
    rewrite E. apply upa_in_page. }
  assert (k = j) as <-.
  { assert (Hnd := us_own _ _ _ _ _ _ Hu). apply NoDup_app in Hnd as (Hnd & _).
    apply (NoDup_lookup (frames V 0 n) k j (PTE2PA (V (page_of x)))); [done|..];
      unfold frames; rewrite list_lookup_fmap, lookup_seq_lt by done; simpl; rewrite Z.add_0_l.
    - by rewrite <- Ek.
    - by rewrite <- Ej, Epa. }
  unfold upa in E. unfold page_of in *. plia.
Qed.

(** A change inside a user page keeps the address space. *)
Lemma uspace_write x m' :
  0 <= x -> readable V x = true ->
  outside_same [PTE2PA (V (page_of x))] (k_mem s) m' ->
  uspace (set_k_mem m' s) l root T V n.
Proof using Hu.
  intros Hx Hr Ho. destruct (readable_frame x Hx Hr) as (k & Hk & Ek & Hin & Hf).
  destruct Hu as [H1 H2 H3 H4 H5 Hh H6 H7].
  destruct (vm_page_frame s m' l root T V (PTE2PA (V (page_of x)))) as [Hv HV]; try done.
  apply NoDup_app in H6 as (_ & H6 & _). by apply H6.
Qed.
End Space.

(** ** copyout *)

(** How many pages the [len] bytes at [va] touch. *)
Definition spans (va len : Z) : Z :=
  if len <=? 0 then 0 else (va mod PGSIZE + len - 1) / PGSIZE + 1.

Lemma spans_fuel va len :
  spans va (Z.of_nat len) < Z.of_nat (len / Z.to_nat PGSIZE + 3).
Proof using Type.
  unfold spans. rewrite Nat2Z.inj_add, Nat2Z.inj_div. change (Z.of_nat (Z.to_nat PGSIZE)) with PGSIZE.
  destruct (Z.leb_spec (Z.of_nat len) 0); plia.
Qed.

(** The entry that walk finds for a user page. *)
Lemma walk_user s l root T V x :
  vm s l root T -> shows (k_mem s) T V -> 0 <= x < MAXVA ->
  exists p, walk root (page_of x) false s = Ret p s /\
    (p = 0 /\ V (page_of x) = 0 \/ p <> 0 /\ ld64 (k_mem s) p = V (page_of x)).
Proof using LO.
  intros Hv HV Hx. assert (Hpg := page_of_upage x Hx).
  rewrite (walk_no_alloc s l root T) by (done || apply Hpg). eexists. split; [done|].
  rewrite <- HV by done. unfold leaf.
  destruct (T !! [PX 2 (page_of x); PX 1 (page_of x)]) as [q|] eqn:E; [right|by left].
  destruct (vm_table_page _ _ _ _ _ _ Hv E) as [Hq _]. apply free_page_pos in Hq.
  assert (Hi := PX_range 0 (page_of x) (Z.le_refl 0)). split; [lia|done].
Qed.

Lemma set_k_mem_id s : set_k_mem (k_mem s) s = s.
Proof using Type. by destruct s. Qed.

(** The bytes from [a] on, as written by a completed copy. *)
Definition stored (V : Z -> Z) (va : Z) (src : list Z) (m : memory) : Prop :=
  forall i c, src !! i = Some c -> rd m (upa V (va + Z.of_nat i)) = c.

(** Nothing but user-writable bytes of the range changes. *)
Definition confined (V : Z -> Z) (va len : Z) (m m' : memory) : Prop :=
  forall y, (forall x, va <= x < va + len -> writable V x = true -> y <> upa V x) ->
  rd m' y = rd m y.

Section CopyoutPage.
Context (s : kstate) (l : list Z) (root : Z) (T : gmap (list Z) Z) (V : Z -> Z) (n : nat)
        (va : Z) (src : list Z).
Hypothesis (Hu : uspace s l root T V n) (Hva : 0 <= va) (Hw : writable V va = true)
           (Hb : is_bytes src).

Let cnt := Z.min (PGSIZE - va mod PGSIZE) (Z.of_nat (length src)).
Let m1 := write_bytes (k_mem s) (upa V va) (take (Z.to_nat cnt) src).

Lemma copyout_readable : readable V va = true /\ va < MAXVA.
Proof using All.
  unfold writable, readable in *. rewrite !andb_true_iff, Z.ltb_lt in *. tauto.
Qed.

Lemma copyout_page_space : uspace (set_k_mem m1 s) l root T V n.
Proof using All.
  destruct copyout_readable as [Hr _]. apply (uspace_write s l root T V n Hu va); [done..|].
  intros x Hx. apply rd_write_bytes_out. rewrite length_take.
  assert (Hn := Hx _ (list_elem_of_here _ _)). unfold in_page, upa in *. plia.
Qed.

Lemma copyout_page_out y :
  (forall i, 0 <= i < cnt -> y <> upa V (va + i)) -> rd m1 y = rd (k_mem s) y.
Proof using All.
  intros Hy. apply rd_write_bytes_out. rewrite length_take.
  destruct (decide (upa V va <= y < upa V va + cnt)) as [D|D]; [|lia].
  exfalso. apply (Hy (y - upa V va)); [lia|]. rewrite upa_add by (unfold cnt in *; plia). lia.
Qed.

Lemma copyout_page_in i c :
  Z.of_nat i < cnt -> src !! i = Some c -> rd m1 (upa V (va + Z.of_nat i)) = c.
Proof using All.
  intros Hi Hc. rewrite upa_add by (unfold cnt in *; plia).
  apply rd_write_bytes; [by apply Forall_take|]. rewrite lookup_take_lt; [done|lia].
Qed.

(** The other bytes of the same page are as writable as the first. *)
Lemma copyout_same_page i : 0 <= i < cnt -> writable V (va + i) = true.
Proof using All.
  intros Hi. destruct copyout_readable as [_ Hlt].
  rewrite (writable_page V va); [done|lia| |lia]. apply page_of_add; unfold cnt in *; plia.
Qed.

(** This page and the rest make the whole. *)
Lemma copyout_join va' rest m' :
  va' = page_of va + PGSIZE -> rest = drop (Z.to_nat cnt) src ->
  confined V va' (Z.of_nat (length rest)) m1 m' ->
  confined V va (Z.of_nat (length src)) (k_mem s) m' /\
  ((forall x, va' <= x < va' + Z.of_nat (length rest) -> writable V x = true) ->
   stored V va' rest m' ->
   (forall x, va <= x < va + Z.of_nat (length src) -> writable V x = true) /\
   stored V va src m').
Proof using All.
  intros Eva Erest Hc.
  assert (Hlen : Z.of_nat (length rest) = Z.of_nat (length src) - cnt).
  { subst rest. rewrite length_drop. unfold cnt. plia. }
  assert (Hva' : 0 < Z.of_nat (length rest) -> va' = va + cnt).
  { intros Hpos. subst va'. unfold page_of, cnt in *. plia. }
  assert (Hsub : forall x, va' <= x < va' + Z.of_nat (length rest) ->
    va + cnt <= x < va + Z.of_nat (length src)) by lia.
  split.
  - intros y Hy. rewrite Hc; [apply copyout_page_out|].
    + intros i Hi. apply Hy; [unfold cnt in *; lia|]. by apply copyout_same_page.
    + intros x Hx. apply Hy. apply Hsub in Hx. unfold cnt in *. plia.
  - intros Hall Hst. assert (Hw' : forall x, va <= x < va + Z.of_nat (length src) -> writable V x = true).
    { intros x Hx. destruct (decide (x < va + cnt)).
      - replace x with (va + (x - va)) by lia. apply copyout_same_page. lia.
      - apply Hall. lia. }
    split; [done|]. intros i c Hi. assert (Hil := lookup_lt_Some _ _ _ Hi).
    destruct (decide (Z.of_nat i < cnt)) as [Hic|Hic].
    + rewrite Hc; [by apply copyout_page_in|]. intros x Hx Hwx E. apply Hsub in Hx.
      apply writable_readable in Hwx.
      assert (Hwi := copyout_same_page (Z.of_nat i) ltac:(lia)). apply writable_readable in Hwi.
      apply (upa_inj s l root T V n Hu) in E; try done; unfold cnt in *; plia.
    + replace (va + Z.of_nat i) with (va' + Z.of_nat (i - Z.to_nat cnt)) by (unfold cnt in *; plia).
      apply Hst. subst rest. rewrite lookup_drop. replace (Z.to_nat cnt + (i - Z.to_nat cnt))%nat with i by lia.
      done.
Qed.
End CopyoutPage.

(** What a copy to user memory may end with. *)
Definition copyout_result (V : Z -> Z) (va : Z) (src : list Z) (r : Z) (m' : memory) : Prop :=
  r = 0 /\ (forall x, va <= x < va + Z.of_nat (length src) -> writable V x = true) /\
    stored V va src m' \/
  r = -1 /\ exists x, va <= x < va + Z.of_nat (length src) /\ writable V x = false.

Lemma copyout_fails V va src m' :
  (0 < length src)%nat -> writable V va = false -> copyout_result V va src (-1) m'.
Proof using Type. intros Hl Hw. right. split; [done|]. exists va. split; [lia|done]. Qed.

(** The tests of copyout on the page of [va]. *)
Lemma writable_tests V va :
  va < MAXVA ->
  negb (has (V (page_of va)) PTE_V) || negb (has (V (page_of va)) PTE_U) ||
    negb (has (V (page_of va)) PTE_W) = negb (writable V va).
Proof using Type.
  intros H. unfold writable, readable. destruct (Z.ltb_spec va MAXVA); [|lia]. simpl.
  by rewrite !negb_andb.
Qed.

Lemma copyout_loop root l T V n fuel :
  forall va src s,
  uspace s l root T V n -> 0 <= va < 2 ^ 64 -> is_bytes src ->
  spans va (Z.of_nat (length src)) < Z.of_nat fuel ->
  exists r m',
    loop fuel (fun '(dstva, src) =>
       let len := Z.of_nat (length src) in
       if 0 <? len
       then
         let va0 := PGROUNDDOWN dstva in
         if MAXVA <=? va0 then ret (inr (-1))
         else
           let! pte := walk root va0 false in
           if pte =? 0 then ret (inr (-1))
           else
             let! v := load64 pte in
             if negb (has v PTE_V) || negb (has v PTE_U) || negb (has v PTE_W)
             then ret (inr (-1))
             else
               let pa0 := PTE2PA v in
               let n := Z.min (PGSIZE - (dstva - va0)) len in
               mem_put (pa0 + (dstva - va0)) (take (Z.to_nat n) src) ;;
               ret (inl (u64 (va0 + PGSIZE), drop (Z.to_nat n) src))
       else ret (inr 0)) (va, src) s = Ret r (set_k_mem m' s) /\
    uspace (set_k_mem m' s) l root T V n /\
    confined V va (Z.of_nat (length src)) (k_mem s) m' /\
    copyout_result V va src r m'.
Proof using LO.
  induction fuel as [|fuel IH]; intros va src s Hu Hva Hb Hf.
  { unfold spans in Hf. destruct (Z.leb_spec (Z.of_nat (length src)) 0); plia. }
  cbn [loop]. destruct (Z.ltb_spec 0 (Z.of_nat (length src))) as [Hlen|Hlen].
  2:{ rewrite run_ret. exists 0, (k_mem s). rewrite set_k_mem_id. split_and!; [done..|].
      left. split_and!; [done|lia|]. intros i c Hi%lookup_lt_Some. lia. }
  assert (Hpd : PGROUNDDOWN va = page_of va) by (by apply PGROUNDDOWN_spec).
  assert (Hstop : writable V va = false -> exists r m', Ret (-1) s = Ret r (set_k_mem m' s) /\
    uspace (set_k_mem m' s) l root T V n /\ confined V va (Z.of_nat (length src)) (k_mem s) m' /\
    copyout_result V va src r m').
  { intros E. exists (-1), (k_mem s). rewrite set_k_mem_id. split_and!; try done.
    apply copyout_fails; [lia|done]. }
  rewrite Hpd. destruct (Z.leb_spec MAXVA (page_of va)) as [Hmax|Hmax].
  { rewrite run_ret. apply Hstop. unfold writable, readable.
    destruct (Z.ltb_spec va MAXVA); [|done]. unfold page_of in Hmax. plia. }
  assert (Hlt : va < MAXVA) by (unfold page_of in Hmax; plia).
  destruct (walk_user s l root T V va) as (p & E & Hp); [apply Hu|apply Hu|lia|].
  rewrite bind_assoc, (bind_Ret _ _ _ _ _ E).
  destruct Hp as [[-> H0]|[Hp Hld]].
  { cbn [Z.eqb]. rewrite run_ret. apply Hstop.
    assert (H := writable_tests V va Hlt). rewrite H0, has_0 in H. by destruct (writable V va). }
  destruct (Z.eqb_spec p 0); [done|].
  unfold load64. rewrite bind_assoc, run_gets, Hld, writable_tests by done.
  destruct (writable V va) eqn:Hw; cbn [negb]; [|rewrite run_ret; by apply Hstop].
  assert (va - page_of va = va mod PGSIZE) as Hoff by (unfold page_of; plia). rewrite Hoff.
  change (PTE2PA (V (page_of va)) + va mod PGSIZE) with (upa V va).
  set (cnt := Z.min (PGSIZE - va mod PGSIZE) (Z.of_nat (length src))) in *.
  unfold mem_put. rewrite bind_assoc, run_modify, run_ret.
  rewrite u64_small by (unfold page_of; plia).
  assert (Hu1 := copyout_page_space s l root T V n va src Hu (proj1 Hva) Hw Hb). fold cnt in Hu1.
  set (s1 := set_k_mem _ s) in *.
  assert (Hl' : Z.of_nat (length (drop (Z.to_nat cnt) src)) = Z.of_nat (length src) - cnt)
    by (rewrite length_drop; unfold cnt; plia).
  destruct (IH (page_of va + PGSIZE) (drop (Z.to_nat cnt) src) s1 Hu1) as
    (r & m' & E' & Hu' & Hc & Hres).
  { unfold page_of. plia. } { by apply Forall_drop. }
  { rewrite Hl'. unfold spans in *. destruct (Z.leb_spec (Z.of_nat (length src)) 0); [lia|].
    destruct (Z.leb_spec (Z.of_nat (length src) - cnt) 0); unfold cnt, page_of in *; plia. }
  exists r, m'. split; [exact E'|]. split; [exact Hu'|].
  destruct (copyout_join s l root T V n va src Hu (proj1 Hva) Hw Hb (page_of va + PGSIZE)
    (drop (Z.to_nat cnt) src) m' eq_refl eq_refl Hc) as [Hconf Hok].
  split; [exact Hconf|]. destruct Hres as [(-> & Hall & Hst)|(-> & x & Hx & Hnw)]; [left|right].
  - split; [done|]. by apply Hok.
  - split; [done|]. exists x. split; [|done]. unfold cnt, page_of in *. plia.
Qed.

Lemma copyout_spec s l root T V n dstva src :
  uspace s l root T V n -> 0 <= dstva < 2 ^ 64 -> is_bytes src ->
  exists r m', copyout root dstva src s = Ret r (set_k_mem m' s) /\
    uspace (set_k_mem m' s) l root T V n /\
    confined V dstva (Z.of_nat (length src)) (k_mem s) m' /\
    copyout_result V dstva src r m'.
Proof using LO. intros Hu Hva Hb. apply copyout_loop; try done. apply spans_fuel. Qed.

(** ** copyin *)

(** [len] user bytes from [va] on. *)
Definition ubytes (V : Z -> Z) (m : memory) (va : Z) (len : nat) : list Z :=
  (fun i => rd m (upa V (va + Z.of_nat i))) <$> seq 0 len.

Lemma ubytes_page V m va len :
  va mod PGSIZE + Z.of_nat len <= PGSIZE -> ubytes V m va len = read_bytes m (upa V va) len.
Proof using Type.
  intros H. apply list_eq. intros i. unfold ubytes. rewrite list_lookup_fmap.
  destruct (decide (i < len)%nat) as [Hi|Hi].
  - rewrite lookup_seq_lt, lookup_read_bytes by done. simpl. by rewrite upa_add by plia.
  - rewrite lookup_seq_ge by lia. simpl. symmetry. apply lookup_ge_None.
    rewrite length_read_bytes. lia.
Qed.

Lemma ubytes_S V m va len :
  ubytes V m va (S len) = rd m (upa V va) :: ubytes V m (va + 1) len.
Proof using Type.
  unfold ubytes. cbn [seq fmap list_fmap]. f_equal; [by rewrite Z.add_0_r|].
  rewrite <- fmap_S_seq, <- list_fmap_compose. apply list_fmap_ext.
  intros i k _. unfold compose. do 2 f_equal. lia.
Qed.

Lemma ubytes_app V m va n1 n2 :
  ubytes V m va (n1 + n2) = ubytes V m va n1 ++ ubytes V m (va + Z.of_nat n1) n2.
Proof using Type.
  revert va. induction n1 as [|n1 IH]; intros va; [simpl; by rewrite Z.add_0_r|].
  rewrite Nat.add_succ_l, !ubytes_S, IH. simpl app. do 3 f_equal. lia.
Qed.

Lemma walkaddr_user s l root T V n va :
  uspace s l root T V n -> 0 <= va < 2 ^ 64 ->
  walkaddr root (page_of va) s =
    Ret (if readable V va then PTE2PA (V (page_of va)) else 0) s /\
  (readable V va = true -> PTE2PA (V (page_of va)) <> 0).
Proof using LO.
  intros Hu Hva. split.
  2:{ intros Hr. destruct (readable_frame s l root T V n Hu va) as (k & _ & _ & _ & Hf); [lia|done|].
      apply free_page_pos in Hf. lia. }
  unfold walkaddr. destruct (Z.leb_spec MAXVA (page_of va)) as [Hmax|Hmax].
  { unfold readable. destruct (Z.ltb_spec va MAXVA); [|done]. unfold page_of in Hmax. plia. }
  assert (Hlt : va < MAXVA) by (unfold page_of in Hmax; plia).
  destruct (walk_user s l root T V va) as (p & E & Hp); [apply Hu|apply Hu|lia|].
  rewrite (bind_Ret _ _ _ _ _ E). unfold readable. destruct (Z.ltb_spec va MAXVA); [|lia].
  destruct Hp as [[-> H0]|[Hp Hld]]; [by rewrite H0, has_0|].
  destruct (Z.eqb_spec p 0); [done|]. unfold load64. rewrite run_gets, Hld.
  simpl andb. destruct (has (V (page_of va)) PTE_V), (has (V (page_of va)) PTE_U); done.
Qed.

Definition copyin_result (V : Z -> Z) (m : memory) (va len : Z) (r : Z) (out : list Z) : Prop :=
  r = 0 /\ (forall x, va <= x < va + len -> readable V x = true) /\
    out = ubytes V m va (Z.to_nat len) \/
  r = -1 /\ exists x, va <= x < va + len /\ readable V x = false.

(** The bytes of the page of [va], from [va] on, and the rest. *)
Lemma copyin_join V m va len va' r out :
  0 <= va < MAXVA -> 0 < len -> readable V va = true -> va' = page_of va + PGSIZE ->
  let cnt := Z.min (PGSIZE - va mod PGSIZE) len in
  copyin_result V m va' (len - cnt) r out ->
  copyin_result V m va len r (read_bytes m (upa V va) (Z.to_nat cnt) ++ out).
Proof using Type.
  intros Hva Hlen Hr -> cnt Hres.
  assert (Hcnt : 0 < cnt <= PGSIZE - va mod PGSIZE) by (unfold cnt; plia).
  assert (Hva' : 0 < len - cnt -> page_of va + PGSIZE = va + cnt) by (unfold page_of, cnt; plia).
  destruct Hres as [(-> & Hall & ->)|(-> & x & Hx & Hn)].
  - left. split_and!; [done| |].
    + intros x Hx. destruct (decide (x < va + cnt)) as [D|D]; [|apply Hall; lia].
      rewrite (readable_page V va); [done|lia| |lia].
      replace x with (va + (x - va)) by lia. apply page_of_add; lia.
    + rewrite <- (ubytes_page V) by plia.
      replace (Z.to_nat len) with (Z.to_nat cnt + Z.to_nat (len - cnt))%nat by (unfold cnt in *; lia).
      rewrite ubytes_app. f_equal. destruct (decide (0 < len - cnt)) as [D|D].
      * by rewrite Hva', Z2Nat.id by lia.
      * by replace (Z.to_nat (len - cnt)) with 0%nat by lia.
  - right. split; [done|]. exists x. split; [lia|done].
Qed.

Lemma copyin_loop root l T V n s fuel :
  uspace s l root T V n ->
  forall va len dst, 0 <= va < 2 ^ 64 -> 0 <= len -> spans va len < Z.of_nat fuel ->
  exists r out,
    loop fuel (fun '(srcva, len, dst) =>
       if 0 <? len
       then
         let va0 := PGROUNDDOWN srcva in
         let! pa0 := walkaddr root va0 in
         if pa0 =? 0 then ret (inr (-1, dst))
         else
           let n := Z.min (PGSIZE - (srcva - va0)) len in
           let! bytes := mem_get (pa0 + (srcva - va0)) n in
           ret (inl (u64 (va0 + PGSIZE), len - n, dst ++ bytes))
       else ret (inr (0, dst))) (va, len, dst) s = Ret (r, dst ++ out) s /\
    copyin_result V (k_mem s) va len r out.
Proof using LO.
  intros Hu. induction fuel as [|fuel IH]; intros va len dst Hva Hlen Hf.
  { unfold spans in Hf. destruct (Z.leb_spec len 0); plia. }
  cbn [loop]. destruct (Z.ltb_spec 0 len) as [Hpos|Hpos].
  2:{ rewrite run_ret. exists 0, []. rewrite app_nil_r. split; [done|].
      left. split_and!; [done|lia|]. by replace (Z.to_nat len) with 0%nat by lia. }
  assert (Hpd : PGROUNDDOWN va = page_of va) by (by apply PGROUNDDOWN_spec). rewrite Hpd.
  destruct (walkaddr_user s l root T V n va Hu Hva) as [E Hnz].
  rewrite bind_assoc, (bind_Ret _ _ _ _ _ E). destruct (readable V va) eqn:Hr.
  2:{ cbn [Z.eqb]. rewrite run_ret. exists (-1), []. rewrite app_nil_r. split; [done|].
      right. split; [done|]. exists va. split; [lia|done]. }
  destruct (Z.eqb_spec (PTE2PA (V (page_of va))) 0); [by destruct Hnz|].
  assert (Hlt : va < MAXVA) by (unfold readable in Hr; rewrite !andb_true_iff, Z.ltb_lt in Hr; tauto).
  assert (va - page_of va = va mod PGSIZE) as -> by (unfold page_of; plia).
  change (PTE2PA (V (page_of va)) + va mod PGSIZE) with (upa V va).
  set (cnt := Z.min (PGSIZE - va mod PGSIZE) len).
  unfold mem_get. rewrite bind_assoc, run_gets, run_ret.
  rewrite u64_small by (unfold page_of; plia).
  destruct (IH (page_of va + PGSIZE) (len - cnt) (dst ++ read_bytes (k_mem s) (upa V va) (Z.to_nat cnt)))
    as (r & out & E' & Hres).
  { unfold page_of. plia. } { unfold cnt. lia. }
  { unfold spans in *. destruct (Z.leb_spec len 0); [lia|].
    destruct (Z.leb_spec (len - cnt) 0); unfold cnt, page_of in *; plia. }
  exists r, (read_bytes (k_mem s) (upa V va) (Z.to_nat cnt) ++ out).
  rewrite app_assoc. split; [exact E'|]. eapply copyin_join; [lia|lia|done|done|exact Hres].
Qed.

Lemma copyin_spec s l root T V n srcva len :
  uspace s l root T V n -> 0 <= srcva < 2 ^ 64 -> 0 <= len ->
  exists r out, copyin root srcva len s = Ret (r, out) s /\
    copyin_result V (k_mem s) srcva len r out.
Proof using LO.
  intros Hu Hva Hlen. apply (copyin_loop root l T V n s _ Hu srcva len []); try done.
  unfold spans. destruct (Z.leb_spec len 0); plia.
Qed.

(** ** Copies byte by byte *)

Lemma writable_readable_lt V x : writable V x = true -> readable V x = true /\ x < MAXVA.
Proof using Type.
  intros H. apply writable_readable in H. split; [done|].
  unfold readable in H. rewrite !andb_true_iff, Z.ltb_lt in H. apply H.
Qed.

Lemma confined_app V va i j m m1 m' : 0 <= i -> 0 <= j ->
  confined V va i m m1 -> confined V (va + i) j m1 m' -> confined V va (i + j) m m'.
Proof using Type. intros Hi Hj H1 H2 y Hy. rewrite H2, H1; [done|..]; intros x Hx; apply Hy; lia. Qed.

(** A byte that is stored stays when the next ones are. *)
Lemma stored_cons s l root T V n va c src j m1 m' :
  uspace (set_k_mem m1 s) l root T V n -> 0 <= va -> writable V va = true ->
  rd m1 (upa V va) = c -> confined V (va + 1) j m1 m' -> stored V (va + 1) src m' -> stored V va (c :: src) m'.
Proof using Type.
  intros Hu Hva Hw Hc Hcf Hst [|k] x Hk; cbn in Hk.
  - injection Hk as <-. rewrite Z.add_0_r, Hcf; [done|].
    intros y Hy Hwy Heq. apply (upa_inj _ _ _ _ _ _ Hu) in Heq; [lia|lia|lia|by apply writable_readable..].
  - apply Hst in Hk. by replace (va + Z.of_nat (S k)) with (va + 1 + Z.of_nat k) by lia.
Qed.

(** ** The properties *)

(** C10. copyout, for whatever address and length: it never panics; it
    returns 0 exactly when every destination byte is in a page that the
    process itself may write, and then the bytes are there; otherwise it
    returns -1. In all cases the only memory that changes is user-writable
    memory of that process in that range, so that the page table, the free
    list, every other process and the kernel keep theirs. *)
Theorem copyout_confined s l root T V n dstva src :
  uspace s l root T V n -> 0 <= dstva < 2 ^ 64 -> is_bytes src ->
  exists r m', copyout root dstva src s = Ret r (set_k_mem m' s) /\
    uspace (set_k_mem m' s) l root T V n /\
    confined V dstva (Z.of_nat (length src)) (k_mem s) m' /\
    copyout_result V dstva src r m'.
Proof using LO. apply copyout_spec. Qed.

(** copyin returns the process's own bytes or fails: it changes nothing,
    never panics, returns 0 exactly when every source byte is in a page that
    the process may read, and then the bytes it copies are those bytes; what
    copyout has stored, copyin reads back. *)
Theorem copyin_reads_user_memory s l root T V n srcva len :
  uspace s l root T V n -> 0 <= srcva < 2 ^ 64 -> 0 <= len ->
  (exists r out, copyin root srcva len s = Ret (r, out) s /\
    copyin_result V (k_mem s) srcva len r out) /\
  (forall src s', is_bytes src -> Z.of_nat (length src) = len ->
    copyout root srcva src s = Ret 0 s' -> copyin root srcva len s' = Ret (0, src) s').
Proof using LO.
  intros Hu Hva Hlen. split; [by apply (copyin_spec s l root T V n)|].
  intros src s' Hb Hl E.
  destruct (copyout_spec s l root T V n srcva src Hu Hva Hb) as (r & m' & E' & Hu' & _ & Hres).
  rewrite E in E'. injection E' as <- ->.
  destruct Hres as [(_ & Hall & Hst)|(? & _)]; [|done]. rewrite Hl in Hall.
  destruct (copyin_spec _ l root T V n srcva len Hu' Hva Hlen) as (r & out & E2 & Hin).
  rewrite E2. destruct Hin as [(-> & _ & ->)|(-> & x & Hx & Hn)].
  - do 2 f_equal. apply list_eq. intros i. unfold ubytes. rewrite list_lookup_fmap.
    destruct (src !! i) as [c|] eqn:Ei.
    + assert (Hlt := lookup_lt_Some _ _ _ Ei). rewrite lookup_seq_lt by lia. simpl.
      f_equal. by apply Hst.
    + apply lookup_ge_None in Ei. by rewrite lookup_seq_ge by lia.
  - apply Hall, writable_readable in Hx. congruence.
Qed.
End Ucopy.

(** ** Examples *)

(** The page of [some_space] can be written. *)
Lemma some_writable V p :
  @free_page kernel_sym p -> V 0 = pte p (Z.lor (Z.lor PTE_R PTE_U) PTE_W) ->
  forall x, 0 <= x < 4096 -> writable V x = true.
Proof.
  intros Hp HV x Hx. apply (@free_page_pos kernel_sym kernel_sym_ok) in Hp.
  assert (page_of x = 0) as E by (unfold page_of; plia).
  unfold writable, readable. rewrite E, HV. destruct (Z.ltb_spec x MAXVA); [|plia].
  assert (Hhas : forall n, 0 <= n < 10 ->
    has (pte p (Z.lor (Z.lor PTE_R PTE_U) PTE_W)) (Z.shiftl 1 n) =
    Z.testbit (Z.lor (Z.lor PTE_R PTE_U) PTE_W) n || (n =? 0)).
  { intros n Hn. apply pte_has; [lia|by split; [done|reflexivity]|done]. }
  assert (has (pte p (Z.lor (Z.lor PTE_R PTE_U) PTE_W)) PTE_V = true) as -> by exact (Hhas 0 ltac:(lia)).
  assert (has (pte p (Z.lor (Z.lor PTE_R PTE_U) PTE_W)) PTE_U = true) as -> by exact (Hhas 4 ltac:(lia)).
  exact (Hhas 2 ltac:(lia)).
Qed.

Lemma copyout_confined_witness :
  exists s root r m', copyout root 0x800 [104; 105] s = Ret r (set_k_mem m' s) /\ r = 0.
Proof.
  destruct some_space as (_ & root & _ & _ & s & l & T & V & p & _ & Hu & Hp & HV).
  destruct (@copyout_confined kernel_sym kernel_sym_ok s l root T V 1 0x800 [104; 105] Hu)
    as (r & m' & E & _ & _ & Hr).
  - lia.
  - repeat constructor; lia.
  - exists s, root, r, m'. split; [exact E|]. destruct Hr as [(-> & _)|(_ & x & Hx & Hw)]; [done|].
    rewrite (some_writable V p Hp HV x) in Hw; [done|simpl in Hx; lia].
Defined.

Lemma copyin_reads_user_memory_witness :
  exists s root r out, copyin root 0x800 4 s = Ret (r, out) s /\ r = 0.
Proof.
  destruct some_space as (_ & root & _ & _ & s & l & T & V & p & _ & Hu & Hp & HV).
  destruct (@copyin_reads_user_memory kernel_sym kernel_sym_ok s l root T V 1 0x800 4 Hu)
    as ((r & out & E & Hr) & _).
  - lia.
  - lia.
  - exists s, root, r, out. split; [exact E|]. destruct Hr as [(-> & _)|(_ & x & Hx & Hn)]; [done|].
    rewrite (writable_readable V x) in Hn; [done|]. by apply (some_writable V p Hp HV x); lia.
Defined.
