(* ===== verification/Ufree.v ===== *)
(** freewalk and uvmfree of kernel/vm.c: taking an address space down gives
    every page of it back. *)

From stdpp Require Import base numbers list gmap strings.
From S2P Require Import Prelude Params Mem KString State Locks Kalloc Vm Pagetable Uvm.

#[local] Opaque memset memmove st64 ld64.

(** ** The tables below a path, in the order freewalk frees them *)

Fixpoint subtree (T : gmap (list Z) Z) (d : nat) (p : list Z) : list Z :=
  match T !! p with
  | None => []
  | Some q =>
      match d with
      | O => []
      | S d' => (seq 0 512 ≫= fun i => subtree T d' (p ++ [Z.of_nat i])) ++ [q]
      end
  end.

Lemma elem_of_subtree T d p q :
  q ∈ subtree T d p -> exists p', T !! (p ++ p') = Some q /\ (length p' < d)%nat.
Proof.
  revert p. induction d as [|d IH]; intros p; cbn [subtree]; destruct (T !! p) as [q0|] eqn:E;
    try by intros ?%elem_of_nil.
  rewrite elem_of_app, list_elem_of_singleton, list_elem_of_bind.
  intros [(i & H & _)| ->].
  - apply IH in H as (p' & H & Hl). exists (Z.of_nat i :: p').
    rewrite <- app_assoc in H. split; [done|simpl; lia].
  - exists []. rewrite app_nil_r. split; [done|simpl; lia].
Qed.

Section Subtree.
Context (m : memory) (root : Z) (T : gmap (list Z) Z).
Hypothesis (Hpt : pt_ok m root T) (Hnd : NoDup (tables T)).

Lemma pt_prefix p p' : is_Some (T !! (p ++ p')) -> is_Some (T !! p).
Proof using Hpt.
  clear Hnd. induction p' as [|j p' IH] using rev_ind; [by rewrite app_nil_r|].
  rewrite app_assoc. intros [q H]. apply IH. by eapply pt_parent.
Qed.

Lemma subtree_in d p p' q :
  T !! (p ++ p') = Some q -> is_Some (T !! p) -> (length p' < d)%nat -> q ∈ subtree T d p.
Proof using Hpt.
  clear Hnd. revert p p'. induction d as [|d IH]; intros p p' Hq [q0 Hp] Hl; [lia|].
  cbn [subtree]. rewrite Hp, elem_of_app, list_elem_of_singleton, list_elem_of_bind.
  destruct p' as [|i p'].
  - right. rewrite app_nil_r in Hq. congruence.
  - left. assert (Hi : 0 <= i < 512).
    { destruct (pt_shape _ _ _ Hpt _ _ Hq) as (_ & H & _).
      apply Forall_app in H as [_ H]. by apply Forall_cons in H as [? _]. }
    exists (Z.to_nat i). rewrite Z2Nat.id by lia. split; [|apply elem_of_seq; lia].
    apply (IH (p ++ [i]) p'); [by rewrite <- app_assoc| |simpl in Hl; lia].
    apply (pt_prefix (p ++ [i]) p'). rewrite <- app_assoc. by eexists.
Qed.

Lemma subtree_nodup d p : NoDup (subtree T d p).
Proof using Hnd.
  clear Hpt. revert p. induction d as [|d IH]; intros p; cbn [subtree]; destruct (T !! p) as [q|] eqn:E;
    try apply NoDup_nil_2.
  apply NoDup_app. split_and!; [|intros x Hx ->%list_elem_of_singleton|apply NoDup_singleton].
  - apply NoDup_bind; [|by intros; apply IH|apply NoDup_seq].
    intros i j x _ _ Hx Hy. apply elem_of_subtree in Hx as (px & Hx & _), Hy as (py & Hy & _).
    assert (Heq : (p ++ [Z.of_nat i]) ++ px = (p ++ [Z.of_nat j]) ++ py) by (by eapply tables_inj).
    rewrite <- !app_assoc in Heq. apply app_inv_head in Heq. by injection Heq as ->%Nat2Z.inj.
  - apply list_elem_of_bind in Hx as (i & Hx & _). apply elem_of_subtree in Hx as (px & Hx & _).
    assert (Heq : (p ++ [Z.of_nat i]) ++ px = p) by (by eapply tables_inj).
    apply (f_equal length) in Heq. rewrite !length_app in Heq. simpl in Heq. lia.
Qed.

Lemma subtree_tables : subtree T 3 [] ≡ₚ tables T.
Proof using All.
  apply NoDup_Permutation; [apply subtree_nodup|done|]. intros q. rewrite elem_of_tables. split.
  - intros (p' & H & _)%elem_of_subtree. by exists p'.
  - intros [p H]. apply (subtree_in 3 [] p); [done|by exists root; apply Hpt|].
    destruct (pt_shape _ _ _ Hpt _ _ H) as [? _]. lia.
Qed.
End Subtree.

Section Ufree.
Context {L : Layout} {LO : LayoutOk L}.

(** The entries of every table below [p] are right, and no page is mapped. *)
Definition empty_below (m : memory) (T : gmap (list Z) Z) (p : list Z) : Prop :=
  forall p' q i, T !! (p ++ p') = Some q -> 0 <= i < 512 ->
    ld64 m (q + 8 * i) =
    if decide (length (p ++ p') < 2)%nat then table_entry (T !! ((p ++ p') ++ [i])) else 0.

Lemma empty_below_child m T p i : empty_below m T p -> empty_below m T (p ++ [i]).
Proof using Type. intros H p' q j. rewrite <- app_assoc. apply H. Qed.

Lemma empty_below_frame m m' T p (P : list Z) :
  empty_below m T p -> outside_same P m m' -> Forall free_page P ->
  (forall p' q, T !! (p ++ p') = Some q -> free_page q /\ q ∉ P) ->
  empty_below m' T p.
Proof using Type.
  intros H Ho HP Hq p' q i Hp Hi. rewrite <- (H p' q i Hp Hi). apply ld64_ext. intros x Hx.
  destruct (Hq p' q Hp) as [Hf Hn]. apply (outside_page P q); try done. by eapply entry_in_page.
Qed.

(** A table entry that is not a leaf, as freewalk sees it. *)
Lemma table_entry_tests q :
  free_page q ->
  has (table_entry (Some q)) PTE_V = true /\
  has (table_entry (Some q)) (Z.lor (Z.lor PTE_R PTE_W) PTE_X) = false /\
  PTE2PA (table_entry (Some q)) = q.
Proof using LO.
  intros Hq. cbn [table_entry]. split_and!; [by apply table_pte_V| |by apply table_pte_pa].
  assert (Hpos := free_page_pos q Hq). unfold has. apply negb_false_iff, Z.eqb_eq.
  rewrite pte_value by (change PTE_V with 1; lia). change (Z.lor (Z.lor PTE_R PTE_W) PTE_X) with 14.
  apply Z.bits_inj'. intros j Hj. rewrite Z.land_spec, Z.bits_0.
  destruct (decide (j < 4)) as [D|D].
  - assert (j = 0 \/ j = 1 \/ j = 2 \/ j = 3) as Hc by lia.
    change PTE_V with 1. rewrite <- (Z.mod_pow2_bits_low _ 4) by lia.
    replace ((q / 4096 * 1024 + 1) mod 2 ^ 4) with 1 by (change (2 ^ 4) with 16; dlia).
    destruct Hc as [->|[->|[->| ->]]]; done.
  - rewrite (Z.bits_above_log2 14) by (simpl; lia). apply andb_false_r.
Qed.

(** A free-list state reached from [s] by freeing the pages [F]. *)
Record freed (s : kstate) (l F : list Z) (s' : kstate) : Prop := {
  fd_list : exists l', kmem_inv s' l' /\ l' ≡ₚ F ++ l;
  fd_mem : mem_only s s';
  fd_out : outside_same F (k_mem s) (k_mem s');
}.

Section Freewalk.
Context (m : memory) (root : Z) (T : gmap (list Z) Z).
Hypothesis (Hpt : pt_ok m root T) (Hnd : NoDup (tables T)) (Hpg : Forall free_page (tables T)).

Lemma table_free p q : T !! p = Some q -> free_page q.
Proof using Hpg.
  intros H. rewrite Forall_forall in Hpg. apply Hpg, elem_of_tables. by exists p.
Qed.

Lemma subtree_free d p : Forall free_page (subtree T d p).
Proof using Hpg.
  apply Forall_forall. intros q (p' & H & _)%elem_of_subtree. by eapply table_free.
Qed.

(** Different paths lead to different pages. *)
Lemma not_in_subtree d p p' q :
  T !! p' = Some q -> (forall p'', p' <> p ++ p'') -> q ∉ subtree T d p.
Proof using Hnd.
  intros Hq Hne (p'' & H & _)%elem_of_subtree. apply (Hne p''). by eapply tables_inj.
Qed.

(** The state inside the loop over the entries of table [q] at path [p],
    after the entries [pre]. *)
Record walked (d : nat) (p : list Z) (q : Z) (s : kstate) (l : list Z) (pre : list nat)
    (s' : kstate) : Prop := {
  wk_list : exists l', kmem_inv s' l' /\
    l' ≡ₚ (pre ≫= fun i => subtree T d (p ++ [Z.of_nat i])) ++ l;
  wk_mem : mem_only s s';
  wk_out : outside_same (q :: (pre ≫= fun i => subtree T d (p ++ [Z.of_nat i])))
    (k_mem s) (k_mem s');
  wk_rest : forall j, Z.of_nat (length pre) <= j < 512 ->
    ld64 (k_mem s') (q + 8 * j) = ld64 (k_mem s) (q + 8 * j);
}.

Lemma walked_free d p pre :
  Forall free_page (pre ≫= fun i => subtree T d (p ++ [Z.of_nat i])).
Proof using Hpg. apply Forall_bind. apply Forall_forall. intros i _. apply subtree_free. Qed.

(** The subtree of entry [i] is untouched by the work on the entries before. *)
Lemma walked_empty d p q s l pre i s' :
  T !! p = Some q -> walked d p q s l pre s' -> empty_below (k_mem s) T p -> i ∉ pre ->
  empty_below (k_mem s') T (p ++ [Z.of_nat i]).
Proof using Hnd Hpg.
  intros Hq Hw He Hi. eapply empty_below_frame; [by apply empty_below_child|apply Hw| |].
  - constructor; [by eapply table_free|apply walked_free].
  - intros p' q' Hp'. split; [by eapply table_free|].
    rewrite elem_of_cons, list_elem_of_bind. intros [->|(j & Hj & Hjp)].
    + assert (Heq : (p ++ [Z.of_nat i]) ++ p' = p) by (by eapply tables_inj).
      apply (f_equal length) in Heq. rewrite !length_app in Heq. simpl in Heq. lia.
    + revert Hj. apply (not_in_subtree _ _ _ _ Hp'). intros p'' Heq.
      rewrite <- !app_assoc in Heq. apply app_inv_head in Heq.
      injection Heq as E%Nat2Z.inj _. by subst.
Qed.

Lemma walked_skip d p q s l pre i s' :
  subtree T d (p ++ [Z.of_nat i]) = [] -> walked d p q s l pre s' ->
  walked d p q s l (pre ++ [i]) s'.
Proof using Type.
  intros Hs [H1 H2 H3 H4]. split; [|done| |].
  - by rewrite bind_app, bind_singleton, Hs, app_nil_r.
  - by rewrite bind_app, bind_singleton, Hs, app_nil_r.
  - intros j Hj. apply H4. rewrite length_app in Hj. simpl in Hj. lia.
Qed.

(** After the subtree of entry [i] is freed, the entry is cleared. *)
Lemma walked_step d p q s l pre i s' l' s1 :
  T !! p = Some q -> 0 <= Z.of_nat i < 512 -> length pre = i ->
  walked d p q s l pre s' -> kmem_inv s' l' ->
  l' ≡ₚ (pre ≫= fun i => subtree T d (p ++ [Z.of_nat i])) ++ l ->
  q ∉ l' -> q ∉ subtree T d (p ++ [Z.of_nat i]) ->
  freed s' l' (subtree T d (p ++ [Z.of_nat i])) s1 ->
  walked d p q s l (pre ++ [i])
    (set_k_mem (st64 (k_mem s1) (q + 8 * Z.of_nat i) 0) s1).
Proof using Hpg.
  intros Hq Hi Hpre [H1 H2 H3 H4] Hk Hl' Hql Hqs [(l2 & F1 & F2) F3 F4].
  assert (Hfq := table_free _ _ Hq).
  assert (Hst : forall x, ~ in_page q x ->
    rd (st64 (k_mem s1) (q + 8 * Z.of_nat i) 0) x = rd (k_mem s1) x).
  { intros x Hx. apply rd_st64_out. unfold in_page in Hx. plia. }
  split.
  - exists l2. split.
    + apply (kmem_inv_frame s1); [done..|]. intros q' x Hq' Hx. apply Hst.
      apply (pages_disjoint q' q); [|done| |done].
      * destruct F1 as [_ _ F1]. rewrite Forall_forall in F1. by apply F1.
      * intros ->. rewrite F2, elem_of_app in Hq'. tauto.
    + rewrite F2, Hl', bind_app, bind_singleton. solve_Permutation.
  - etrans; [exact H2|]. etrans; [exact F3|]. apply mem_only_mem.
  - rewrite bind_app, bind_singleton. intros x Hx. ks. rewrite Hst by (apply Hx; left).
    rewrite F4 by (intros y Hy; apply Hx; revert Hy; sublist).
    apply H3. intros y Hy. apply Hx. revert Hy. sublist.
  - intros j Hj. rewrite length_app in Hj. simpl in Hj. ks.
    rewrite ld64_st64_other by lia. rewrite <- H4 by lia. apply ld64_ext. intros x Hx.
    apply (outside_page _ q x _ _ F4); [apply subtree_free|done|done|].
    eapply entry_in_page; [exact Hx|lia].
Qed.

Lemma walked_nil d p q s l : kmem_inv s l -> walked d p q s l [] s.
Proof using Type. intros Hk. split; try done. by exists l. Qed.

Lemma subtree_0 p : subtree T 0 p = [].
Proof using Type. simpl. by destruct (T !! p). Qed.

(** One entry of the loop. *)
Lemma freewalk_entry d p q s l pre i s' :
  (forall p q s l, (length p + d = 3)%nat -> T !! p = Some q -> empty_below (k_mem s) T p ->
     kmem_inv s l -> NoDup (subtree T d p ++ l) -> LkKmem ∉ k_held s ->
     wp (freewalk d q) (fun _ s' => freed s l (subtree T d p) s') s) ->
  (length p + S d = 3)%nat -> T !! p = Some q -> empty_below (k_mem s) T p ->
  NoDup (subtree T (S d) p ++ l) -> LkKmem ∉ k_held s ->
  (i < 512)%nat -> length pre = i -> pre = seq 0 i -> walked d p q s l pre s' ->
  wp (let slot := pte_addr q (Z.of_nat i) in
      let! pte := load64 slot in
      if has pte PTE_V && negb (has pte (Z.lor (Z.lor PTE_R PTE_W) PTE_X))
      then freewalk d (PTE2PA pte) ;; store64 slot 0
      else if has pte PTE_V then panic "freewalk: leaf" else ret tt)
    (fun _ s'' => walked d p q s l (pre ++ [i]) s'') s'.
Proof using Hnd Hpg LO.
  intros IH Hlen Hq He Hdup Hlk Hi Hpre Eseq Hw. unfold load64, store64, pte_addr. wp_steps.
  rewrite (wk_rest _ _ _ _ _ _ _ Hw) by lia.
  rewrite (He [] q (Z.of_nat i)) by (rewrite ?app_nil_r; done || lia). rewrite app_nil_r.
  destruct (decide (length p < 2)%nat) as [Hlt|Hlt].
  2:{ rewrite !has_0. simpl. apply wp_ret. apply walked_skip; [|done].
      replace d with 0%nat by lia. apply subtree_0. }
  destruct (T !! (p ++ [Z.of_nat i])) as [c|] eqn:Ec.
  2:{ cbn [table_entry]. rewrite !has_0. simpl. apply wp_ret. apply walked_skip; [|done].
      destruct d; simpl; by rewrite Ec. }
  destruct (table_entry_tests c) as (-> & -> & ->); [by eapply table_free|]. simpl andb. cbv iota.
  destruct (wk_list _ _ _ _ _ _ _ Hw) as (l' & Hk & Hl').
  set (C := fun i => subtree T d (p ++ [Z.of_nat i])) in *.
  assert (Hall : NoDup ((seq 0 512 ≫= C) ++ [q] ++ l)).
  { revert Hdup. cbn [subtree]. rewrite Hq, <- app_assoc. done. }
  assert (Hsplit : seq 0 512 = pre ++ i :: seq (S i) (511 - i)).
  { subst pre. replace 512%nat with (i + S (511 - i))%nat by lia. by rewrite seq_app. }
  rewrite Hsplit, bind_app, bind_cons in Hall.
  assert (Hd1 : NoDup (C i ++ l') /\ q ∉ l' /\ q ∉ C i).
  { rewrite Hl'. assert (H1 : NoDup ([q] ++ C i ++ (pre ≫= C) ++ l)).
    { apply (NoDup_app ([q] ++ C i ++ (pre ≫= C) ++ l) (seq (S i) (511 - i) ≫= C)). nodup_perm Hall. }
    apply NoDup_cons in H1 as [H1 H2]. split; [exact H2|]. rewrite !elem_of_app in *. tauto. }
  destruct Hd1 as (Hd1 & Hql & Hqc).
  apply wp_bind. eapply wp_mono.
  { apply (IH (p ++ [Z.of_nat i]) c s' l'); try done.
    - rewrite length_app. simpl. lia.
    - eapply walked_empty; try done. subst pre. rewrite elem_of_seq. lia.
    - by rewrite (mem_only_held _ _ (wk_mem _ _ _ _ _ _ _ Hw)). }
  intros [] s1 Hf. wp_steps. eapply walked_step; try done. lia.
Qed.

Lemma freewalk_sub d :
  forall p q s l, (length p + d = 3)%nat -> T !! p = Some q -> empty_below (k_mem s) T p ->
  kmem_inv s l -> NoDup (subtree T d p ++ l) -> LkKmem ∉ k_held s ->
  wp (freewalk d q) (fun _ s' => freed s l (subtree T d p) s') s.
Proof using Hpt Hnd Hpg LO.
  induction d as [|d IH]; intros p q s l Hlen Hq He Hk Hdup Hlk.
  { destruct (pt_shape _ _ _ Hpt _ _ Hq) as [? _]. lia. }
  cbn [freewalk]. apply wp_bind. apply (wp_for_each (walked d p q s l)).
  - by apply walked_nil.
  - intros pre i rest s' Hsp Hw.
    assert (Hlp : length pre = i).
    { apply (f_equal (fun l => l !! length pre)) in Hsp.
      rewrite list_lookup_middle in Hsp by done. apply lookup_seq in Hsp. lia. }
    assert (Hi : (i < 512)%nat).
    { apply (f_equal length) in Hsp. rewrite length_app, length_seq in Hsp. simpl in Hsp. lia. }
    eapply freewalk_entry; try done.
    apply (f_equal (take i)) in Hsp. rewrite take_app_length' in Hsp by done.
    rewrite take_seq in Hsp. by replace (i `min` 512)%nat with i in Hsp by lia.
  - intros s' [(l' & Hk' & Hl') Hm Ho _].
    set (C := fun i => subtree T d (p ++ [Z.of_nat i])) in *.
    assert (Hsub : subtree T (S d) p = (seq 0 512 ≫= C) ++ [q]) by (cbn [subtree]; by rewrite Hq).
    remember (seq 0 512 ≫= C) as F eqn:HF. rewrite Hsub in *. clear HF Hsub.
    destruct (kfree_spec q s' l' Hk') as (s1 & E & Hk1 & Hs1).
    { by eapply table_free. }
    { rewrite Hl'. rewrite <- app_assoc in Hdup. intros Hin.
      assert (H : NoDup (q :: F ++ l)) by nodup_perm Hdup.
      by apply NoDup_cons in H as [H _]. }
    { by rewrite (mem_only_held _ _ Hm). }
    unfold wp. rewrite E. split.
    + exists (q :: l'). split; [done|]. rewrite Hl'. solve_Permutation.
    + etrans; [exact Hm|]. subst s1. by exists (kfree_mem q s'), q.
    + intros x Hx. subst s1. ks. rewrite rd_kfree_mem by (apply Hx; sublist).
      apply Ho. intros y Hy. apply Hx. revert Hy. sublist.
Qed.
End Freewalk.

(** The page whose leaf entry has the given indices. *)
Lemma PX_make i2 i1 i0 :
  0 <= i2 < 256 -> 0 <= i1 < 512 -> 0 <= i0 < 512 ->
  exists a, upage a /\ PX 2 a = i2 /\ PX 1 a = i1 /\ PX 0 a = i0.
Proof using Type.
  intros H2 H1 H0. set (a := i2 * 1073741824 + i1 * 2097152 + i0 * 4096).
  assert (Ha : 0 <= a < MAXVA) by (unfold a; plia). exists a.
  rewrite !PX_spec by plia. change (2 ^ (12 + 9 * 2)) with 1073741824.
  change (2 ^ (12 + 9 * 1)) with 2097152. change (2 ^ (12 + 9 * 0)) with 4096.
  split_and!; [split; [done|]| | |]; unfold a; plia.
Qed.

(** A page table that maps nothing is what freewalk expects. *)
Lemma shows_empty s l root T V :
  vm s l root T -> shows (k_mem s) T V -> (forall a, upage a -> V a = 0) ->
  empty_below (k_mem s) T [].
Proof using Type.
  intros Hv HV H0 p q i Hp Hi. simpl in *. destruct (vm_pt _ _ _ _ Hv) as [Hr Hsh Hpar Hent].
  case_decide as Hlen; [by apply Hent|].
  destruct (Hsh _ _ Hp) as (Hl & Hin & Hh).
  destruct p as [|i2 [|i1 [|]]]; simpl in *; try lia.
  apply Forall_cons in Hin as [Hi2 Hin]. apply Forall_cons in Hin as [Hi1 _].
  specialize (Hh i2 eq_refl).
  destruct (PX_make i2 i1 i) as (a & Ha & E2 & E1 & E0); [lia..|].
  rewrite <- (H0 a Ha), <- (HV a Ha). unfold leaf. by rewrite E2, E1, E0, Hp.
Qed.

Lemma freewalk_vm s l root T V :
  vm s l root T -> shows (k_mem s) T V -> (forall a, upage a -> V a = 0) ->
  exists s', freewalk 3 root s = Ret tt s' /\ mem_only s s' /\
    (exists l', kmem_inv s' l' /\ l' ≡ₚ tables T ++ l) /\
    outside_same (tables T) (k_mem s) (k_mem s').
Proof using LO.
  intros Hv HV H0.
  assert (Hnd : NoDup (tables T)) by (by apply (NoDup_app (tables T) l), Hv).
  assert (Hsub := subtree_tables (k_mem s) root T (vm_pt _ _ _ _ Hv) Hnd).
  assert (H : wp (freewalk 3 root) (fun _ s' => freed s l (subtree T 3 []) s') s).
  { apply (freewalk_sub (k_mem s) root T (vm_pt _ _ _ _ Hv) Hnd (vm_pages _ _ _ _ Hv)); try apply Hv.
    - done.
    - by eapply shows_empty.
    - rewrite Hsub. apply Hv. }
  apply wp_run in H as ([] & s' & E & [(l' & Hk & Hl) Hm Ho]).
  exists s'. split_and!; try done.
  - exists l'. split; [done|]. by rewrite Hl, Hsub.
  - by eapply outside_same_perm.
Qed.

Lemma uvmfree_spec s l root T V sz :
  uspace s l root T V (npages sz) -> 0 <= sz <= TRAPFRAME ->
  (forall a, upage a -> TRAPFRAME <= a -> V a = 0) ->
  exists s' l', uvmfree root sz s = Ret tt s' /\ kmem_inv s' l' /\
    l' ≡ₚ account V (npages sz) T l /\ mem_only s s' /\
    outside_same (frames V 0 (npages sz) ++ tables T) (k_mem s) (k_mem s').
Proof using LO.
  intros Hu Hsz Hhigh. unfold uvmfree. assert (Hsz' := Hsz). rewrite trapframe_maxva in Hsz'.
  assert (exists s1 l1 V1, when (0 <? sz) (uvmunmap root 0 (PGROUNDUP sz / PGSIZE) true) s = Ret tt s1 /\
    vm s1 l1 root T /\ shows (k_mem s1) T V1 /\ (forall a, upage a -> V1 a = 0) /\
    l1 ≡ₚ frames V 0 (npages sz) ++ l /\ mem_only s s1 /\
    outside_same (frames V 0 (npages sz) ++ tables T) (k_mem s) (k_mem s1))
    as (s1 & l1 & V1 & E & Hv1 & HV1 & H0 & Hl1 & Hm1 & Ho1).
  { destruct (Z.ltb_spec 0 sz) as [Hpos|Hpos]; cbn [when].
    - rewrite PGROUNDUP_npages, Z.div_mul by plia.
      destruct (uvmunmap_top s l root T V (npages sz) 0 Hu) as (s1 & E & Hu1 & Hm & Ho); [lia|].
      rewrite Nat.sub_0_r in *. exists s1. eexists _, _. split; [exact E|].
      split_and!; [apply Hu1|apply Hu1| |by rewrite reverse_Permutation|done|done].
      intros a Ha. unfold clear_range. case_decide as D; [done|].
      destruct (decide (a < TRAPFRAME)); [|apply Hhigh; [done|lia]].
      apply (us_free _ _ _ _ _ _ Hu); [done|]. destruct Ha. lia.
    - assert (sz = 0) as -> by lia. exists s, l, V.
      split_and!; [done|apply Hu|apply Hu| |done|done|done].
      intros a Ha. destruct (decide (a < TRAPFRAME)); [|apply Hhigh; [done|lia]].
      apply (us_free _ _ _ _ _ _ Hu); [done|]. destruct Ha. split; [|done]. change (npages 0) with 0%nat. lia. }
  rewrite (bind_Ret _ _ _ _ _ E).
  destruct (freewalk_vm s1 l1 root T V1 Hv1 HV1 H0) as (s' & E' & Hm' & (l' & Hk' & Hl') & Ho').
  exists s', l'. split_and!; try done.
  - unfold account. rewrite Hl', Hl1. solve_Permutation.
  - by etrans.
  - eapply outside_same_trans; [done|]. eapply outside_same_incl; [|done]. intros y. sublist.
Qed.

(** C22. uvmfree leaks nothing: freeing an address space (with the trapframe
    and trampoline pages unmapped before) returns without a panic, and the
    free list then holds every frame the process had mapped and every page
    of its page table, each once, besides what was free already; no other
    memory changes. *)
Theorem uvmfree_returns_all_pages s l root T V sz :
  uspace s l root T V (npages sz) -> 0 <= sz <= TRAPFRAME ->
  (forall a, upage a -> TRAPFRAME <= a -> V a = 0) ->
  exists s' l', uvmfree root sz s = Ret tt s' /\ kmem_inv s' l' /\
    l' ≡ₚ account V (npages sz) T l /\ mem_only s s' /\
    outside_same (frames V 0 (npages sz) ++ tables T) (k_mem s) (k_mem s').
Proof using LO. apply uvmfree_spec. Qed.
End Ufree.

(** ** Examples *)

Lemma uvmfree_returns_all_pages_witness :
  exists s root s' l', @uvmfree kernel_sym root 0 s = Ret tt s' /\ @kmem_inv kernel_sym s' l' /\
    root ∈ l'.
Proof.
  destruct some_space as (s & root & l & Hu & _).
  destruct (@uvmfree_returns_all_pages kernel_sym kernel_sym_ok s l root _ _ 0 Hu)
    as (s' & l' & E & Hk & Hl & _).
  - split; [lia|vm_compute; discriminate].
  - done.
  - exists s, root, s', l'. split_and!; [exact E|exact Hk|]. rewrite Hl. unfold account.
    rewrite !elem_of_app. right. left. apply elem_of_tables. exists [].
    apply lookup_singleton_eq.
Defined.
