(* ===== verification/Ufork.v ===== *)
(** uvmcopy of kernel/vm.c: fork's copy of the parent's memory. *)

From stdpp Require Import base numbers list gmap strings.
From S2P Require Import Prelude Params Mem KString State Locks Kalloc Vm Pagetable Uvm.

#[local] Opaque memset memmove st64 ld64.

Section Ufork.
Context {L : Layout} {LO : LayoutOk L}.

(** An address space is not affected by what happens to other pages. *)
Lemma uspace_keep s l s' l' root T V n P :
  uspace s l root T V n -> kmem_inv s' l' -> LkKmem ∉ k_held s' ->
  outside_same P (k_mem s) (k_mem s') -> Forall free_page P ->
  (forall q, q ∈ tables T -> q ∉ P) -> NoDup (frames V 0 n ++ tables T ++ l') ->
  uspace s' l' root T V n.
Proof using Type.
  intros [H1 H2 H3 H4 H5 Hh H6 H7] Hk Hlk Ho HP Hd Hnd.
  destruct (pt_ok_frame (k_mem s) (k_mem s') root T) as [Hpt Hleaf]; [|apply H1|].
  { intros q x Hq Hx. apply (outside_page P q); auto.
    assert (H := vm_pages _ _ _ _ H1). rewrite Forall_forall in H. by apply H. }
  split; try done; [split; try done|].
  - by apply NoDup_app in Hnd as (_ & _ & ?).
  - apply H1.
  - intros a Ha. rewrite Hleaf. by apply H2.
Qed.

Section Copy.
Context (old new : Z) (To : gmap (list Z) Z) (Vo : Z -> Z) (n : nat).
Context (s0 : kstate) (l0 : list Z) (Tn0 : gmap (list Z) Z) (Vn0 : Z -> Z).

(** The parent's [n] pages and the child's table, before the copy. *)
Hypothesis (Hold0 : uspace s0 l0 old To Vo n) (Hnew0 : uspace s0 l0 new Tn0 Vn0 0)
  (Hdis0 : NoDup (frames Vo 0 n ++ tables To ++ tables Tn0 ++ l0)).

(** The first [k] pages have been copied. *)
Record copied (s : kstate) (l : list Z) (Tn : gmap (list Z) Z) (Vn : Z -> Z) (k : nat) : Prop := {
  cp_new : uspace s l new Tn Vn k;
  cp_le : (k <= n)%nat;
  cp_mem : mem_only s0 s;
  cp_out : outside_same (tables Tn0 ++ l0) (k_mem s0) (k_mem s);
  cp_rest : forall a, upage a -> Z.of_nat k * PGSIZE <= a -> Vn a = Vn0 a;
  cp_pages : forall j, (j < k)%nat -> exists p, free_page p /\
    Vn (Z.of_nat j * PGSIZE) = pte p (PTE_FLAGS (Vo (Z.of_nat j * PGSIZE))) /\
    (forall off, 0 <= off < PGSIZE ->
       rd (k_mem s) (p + off) = rd (k_mem s0) (PTE2PA (Vo (Z.of_nat j * PGSIZE)) + off));
  cp_account : account Vn k Tn l ≡ₚ tables Tn0 ++ l0;
}.

Lemma copied_start : copied s0 l0 Tn0 Vn0 0.
Proof using Hnew0. split; try done; try lia. Qed.

Lemma start_pages : Forall free_page (tables Tn0 ++ l0).
Proof using Hnew0. eapply vm_all_pages. apply Hnew0. Qed.

(** The parent's space is there throughout. *)
Lemma copied_old s l Tn Vn k : copied s l Tn Vn k -> uspace s l old To Vo n.
Proof using All.
  intros [C1 C2 C3 C4 C5 C6 C7].
  apply (uspace_keep s0 l0 s l old To Vo n (tables Tn0 ++ l0)); try done.
  - apply C1.
  - apply C1.
  - apply start_pages.
  - intros q Hq Hin. apply NoDup_app in Hdis0 as (_ & _ & H).
    apply NoDup_app in H as (_ & H & _). by apply (H q).
  - unfold account in C7. assert (H : NoDup (frames Vo 0 n ++ tables To ++ account Vn k Tn l)).
    { unfold account. by rewrite C7. }
    unfold account in H.
    apply (NoDup_app (frames Vo 0 n ++ tables To ++ l) (frames Vn 0 k ++ tables Tn)). nodup_perm H.
Qed.

(** What the parent's pages hold does not change. *)
Lemma old_frame s l Tn Vn k j :
  copied s l Tn Vn k -> (j < n)%nat ->
  let pa := PTE2PA (Vo (Z.of_nat j * PGSIZE)) in
  free_page pa /\ pa ∉ tables Tn0 ++ l0 /\
  forall off, 0 <= off < PGSIZE -> rd (k_mem s) (pa + off) = rd (k_mem s0) (pa + off).
Proof using All.
  intros Hc Hj pa. assert (Hin : pa ∈ frames Vo 0 n).
  { apply list_elem_of_fmap. exists j. rewrite Z.add_0_l. split; [done|]. apply elem_of_seq. lia. }
  assert (Hf : free_page pa).
  { assert (H := us_pages _ _ _ _ _ _ Hold0). rewrite Forall_forall in H. by apply H. }
  assert (Hn : pa ∉ tables Tn0 ++ l0).
  { apply NoDup_app in Hdis0 as (_ & H & _). intros H'. apply (H pa Hin). revert H'. sublist. }
  split_and!; [done..|]. intros off Hoff.
  apply (outside_page _ pa _ _ _ (cp_out _ _ _ _ _ Hc)); try done; [apply start_pages|].
  unfold in_page. lia.
Qed.

(** Undoing a copy that failed. *)
Lemma copy_undo s l Tn Vn k :
  copied s l Tn Vn k ->
  exists s' l', uvmunmap new 0 (Z.of_nat k) true s = Ret tt s' /\ copied s' l' Tn Vn0 0.
Proof using All.
  intros [C1 C2 C3 C4 C5 C6 C7].
  destruct (uvmunmap_top s l new Tn Vn k 0 C1) as (s' & E & Hu & Hm & Ho); [lia|].
  rewrite Nat.sub_0_r in *. change (Z.of_nat 0 * PGSIZE) with 0 in *.
  eexists s', _. split; [exact E|].
  assert (HV : forall a, upage a -> clear_range Vn 0 (Z.of_nat k) a = Vn0 a).
  { intros a Ha. unfold clear_range. case_decide as D; [|apply C5; [done|destruct Ha; lia]].
    symmetry. apply (us_free _ _ _ _ _ _ Hnew0); [done|].
    assert (H := us_size _ _ _ _ _ _ C1). lia. }
  unfold account in C7. split; try done.
  - by eapply uspace_ext.
  - lia.
  - by etrans.
  - eapply outside_same_trans; [done|]. eapply outside_same_incl; [|done].
    intros y. rewrite <- C7. sublist.
  - intros j Hj. lia.
  - unfold account. rewrite reverse_Permutation, <- C7. simpl. solve_Permutation.
Qed.

(** The flags of a valid entry, mapped again, give the same flags. *)
Lemma copied_flags p v :
  free_page p -> leaf_pte v ->
  0 <= PTE_FLAGS v < 1024 /\ leaf_pte (pte p (PTE_FLAGS v)) /\
  PTE_FLAGS (pte p (PTE_FLAGS v)) = PTE_FLAGS v.
Proof using LO.
  intros Hp [HV Hfl]. apply free_page_pos in Hp.
  assert (Hr : 0 <= PTE_FLAGS v < 1024).
  { unfold PTE_FLAGS. change 0x3FF with (Z.ones 10). rewrite Z.land_ones by lia.
    apply Z.mod_pos_bound. done. }
  assert (Hor : Z.lor (PTE_FLAGS v) PTE_V = PTE_FLAGS v).
  { apply Z.bits_inj'. intros i Hi. rewrite Z.lor_spec. change PTE_V with (2 ^ 0).
    rewrite Z.pow2_bits_eqb by lia. destruct (Z.eqb_spec 0 i) as [<-|]; [|apply orb_false_r].
    rewrite orb_true_r. unfold PTE_FLAGS. rewrite Z.land_spec. unfold has in HV.
    change PTE_V with (Z.shiftl 1 0) in HV. rewrite land_bit, negb_involutive in HV by lia.
    by rewrite HV. }
  assert (Hpf : PTE_FLAGS (pte p (PTE_FLAGS v)) = PTE_FLAGS v) by (rewrite pte_flags; [done|lia|done]).
  split; [done|]. split; [|done]. split; [apply pte_V; (done || lia)|by rewrite Hpf].
Qed.

(** A page copied earlier is not touched by the copy of the next one. *)
Lemma copied_kept s p l Tn Vn k s' j :
  copied s (p :: l) Tn Vn k -> outside_same (p :: tables Tn ++ l) (k_mem s) (k_mem s') ->
  (j < k)%nat ->
  exists q, free_page q /\
    Vn (Z.of_nat j * PGSIZE) = pte q (PTE_FLAGS (Vo (Z.of_nat j * PGSIZE))) /\
    (forall off, 0 <= off < PGSIZE ->
       rd (k_mem s') (q + off) = rd (k_mem s0) (PTE2PA (Vo (Z.of_nat j * PGSIZE)) + off)).
Proof using All.
  intros [C1 C2 C3 C4 C5 C6 C7] Ho Hj. destruct (C6 j Hj) as (q & Hq & Eq & Hc).
  exists q. split_and!; [done..|]. intros off Hoff. rewrite <- Hc by done.
  apply (outside_page (p :: tables Tn ++ l) q); try done; [| |unfold in_page; lia].
  - assert (H := vm_all_pages _ _ _ _ (us_vm _ _ _ _ _ _ C1)).
    by rewrite <- Permutation_middle in H.
  - assert (Hin : q ∈ frames Vn 0 k).
    { apply list_elem_of_fmap. exists j. rewrite Z.add_0_l, Eq. split; [|apply elem_of_seq; lia].
      destruct (copied_flags q (Vo (Z.of_nat j * PGSIZE))) as [Hr _]; [done| |].
      - apply (us_leaf _ _ _ _ _ _ Hold0). lia.
      - rewrite pte_pa; [done| |apply Hq|done]. apply free_page_pos in Hq. lia. }
    assert (H := us_own _ _ _ _ _ _ C1). apply NoDup_app in H as (_ & H & _).
    intros Hq'. apply (H q Hin). revert Hq'. sublist.
Qed.

(** One more page. *)
Lemma copy_step s p l Tn Vn k :
  copied s (p :: l) Tn Vn k -> (k < n)%nat ->
  let v := Vo (Z.of_nat k * PGSIZE) in
  exists s1, kalloc s = Ret p s1 /\ free_page p /\
  let s2 := set_k_mem (memmove p (PTE2PA v) PGSIZE (k_mem s1)) s1 in
  exists r s3, mappages new (Z.of_nat k * PGSIZE) PGSIZE p (PTE_FLAGS v) s2 = Ret r s3 /\
    ((r = 0 /\ exists l' T', copied s3 l' T' (vset Vn (Z.of_nat k * PGSIZE) (pte p (PTE_FLAGS v))) (S k)) \/
     (r = -1 /\ exists s4 l' T', kfree p s3 = Ret tt s4 /\ copied s4 l' T' Vn k)).
Proof using All.
  intros Hc Hk v. assert (Hkept := fun s' j => copied_kept s p l Tn Vn k s' j Hc).
  destruct (old_frame _ _ _ _ _ k Hc Hk) as (Hpa & Hpn & Hpc). fold v in Hpa, Hpn, Hpc.
  destruct Hc as [C1 C2 C3 C4 C5 C6 C7]. unfold account in C7.
  destruct (kalloc_vm s p l new Tn) as (s1 & E & Hv1 & Hm1 & Hl1 & Ho1 & Hp & Hnin); [apply C1|].
  assert (Hp0 : p ∈ tables Tn0 ++ l0) by (rewrite <- C7; sublist).
  assert (Hne : PTE2PA v <> p) by (by intros <-).
  exists s1. split_and!; [done..|]. intros s2.
  assert (Ho2 : outside_same [p] (k_mem s1) (k_mem s2)).
  { intros x Hx. unfold s2. ks. rewrite rd_memmove by plia. rewrite decide_False; [done|].
    apply (Hx p). by left. }
  destruct (vm_page_frame s1 (k_mem s2) l new Tn Vn p) as [Hv2 HV2]; try done.
  { intros a Ha. rewrite Hl1. by apply C1. }
  assert (Hm2 : mem_only s s2) by (etrans; [exact Hm1|apply mem_only_mem]).
  assert (Ho02 : outside_same [p] (k_mem s) (k_mem s2)) by (by eapply outside_same_trans).
  destruct (copied_flags p v Hp) as (Hfr & Hleaf & _); [apply (us_leaf _ _ _ _ _ _ Hold0); lia|].
  assert (Hout : forall s', outside_same (p :: tables Tn ++ l) (k_mem s) (k_mem s') ->
    outside_same (tables Tn0 ++ l0) (k_mem s0) (k_mem s')).
  { intros s' Ho. eapply outside_same_trans; [exact C4|]. eapply outside_same_incl; [|exact Ho].
    intros y. rewrite <- C7. sublist. }
  destruct (add_page s p l new Tn Vn k s2 (PTE_FLAGS v)) as (r & s3 & E3 & Hcase); try done.
  { etrans; [|apply (us_size _ _ _ _ _ _ Hold0)]. plia. }
  exists r, s3. split; [exact E3|].
  destruct Hcase as [(-> & l' & T' & Hu & Hm & Ho & Hframes & Hperm & Hin)|
                     (-> & s4 & T' & E4 & Hu & Hm & Ho & Hperm)]; [left|right]; (split; [done|]).
  - exists l', T'. split; try done; [by etrans|by apply Hout| | |].
    + intros a Ha Har. unfold vset. rewrite decide_False by plia. apply C5; [done|plia].
    + intros j Hj. destruct (decide (j = k)) as [->|].
      * exists p. unfold vset. rewrite decide_True by done. split_and!; [done..|].
        intros off Hoff. rewrite Hin by (unfold in_page; lia). unfold s2. ks.
        rewrite rd_memmove by plia. rewrite decide_True by lia.
        replace (PTE2PA v + (p + off - p)) with (PTE2PA v + off) by lia.
        rewrite <- Hpc by done. apply Ho1. intros y ->%list_elem_of_singleton.
        apply (pages_disjoint (PTE2PA v) p); try done. unfold in_page. lia.
      * unfold vset. rewrite decide_False by plia. apply (Hkept s3 j); [done|lia].
    + unfold account. rewrite Hframes, <- C7, <- app_assoc, Hperm. solve_Permutation.
  - exists s4, [p], T'. split; [exact E4|]. split; try done; [by etrans|by apply Hout| |].
    + intros j Hj. by apply (Hkept s4 j).
    + unfold account. rewrite <- C7, Hperm. solve_Permutation.
Qed.

Lemma uvmcopy_loop sz (Hsz : n = npages sz) (Hpos : 0 <= sz <= TRAPFRAME) j :
  forall fuel k s l T V,
  copied s l T V k -> (n - k = j)%nat -> (j < fuel)%nat ->
  exists r s' l' T' V',
    loop fuel
    (fun i =>
       if i <? sz
       then
         let! pte := walk old i false in
         if pte =? 0 then panic "uvmcopy: pte should exist"
         else
           let! v := load64 pte in
           if negb (has v PTE_V) then panic "uvmcopy: page not present"
           else
             let pa := PTE2PA v in
             let flags := PTE_FLAGS v in
             let! mem := kalloc in
             if mem =? 0 then uvmunmap new 0 (i / PGSIZE) true ;; ret (inr (-1))
             else
               mem_move mem pa PGSIZE ;;
               let! r := mappages new i PGSIZE mem flags in
               if negb (r =? 0) then kfree mem ;; uvmunmap new 0 (i / PGSIZE) true ;; ret (inr (-1))
               else ret (inl (u64 (i + PGSIZE)))
       else ret (inr 0)) (Z.of_nat k * PGSIZE) s = Ret r s' /\
    (r = 0 /\ copied s' l' T' V' n \/ r = -1 /\ copied s' l' T' Vn0 0).
Proof using All.
  assert (Hb := npages_bounds sz (proj1 Hpos)). rewrite <- Hsz in Hb. rewrite trapframe_maxva in Hpos.
  induction j as [|j IH]; intros fuel k s l T V Hc Hj Hf; (destruct fuel as [|fuel]; [lia|]);
    cbn [loop]; assert (Hle := cp_le _ _ _ _ _ Hc).
  { destruct (Z.ltb_spec (Z.of_nat k * PGSIZE) sz); [plia|]. rewrite run_ret.
    exists 0, s, l, T, V. split; [done|]. left. split; [done|]. by replace n with k by lia. }
  destruct (Z.ltb_spec (Z.of_nat k * PGSIZE) sz); [|plia].
  assert (Ho := copied_old _ _ _ _ _ Hc).
  assert (Hpg : upage (Z.of_nat k * PGSIZE)).
  { apply (upage_k n); [lia|]. apply (us_size _ _ _ _ _ _ Hold0). }
  assert (Hleaf : leaf_pte (Vo (Z.of_nat k * PGSIZE))) by (apply (us_leaf _ _ _ _ _ _ Hold0); lia).
  rewrite bind_assoc.
  rewrite (bind_Ret _ _ _ _ _ (walk_no_alloc s l old To _ (us_vm _ _ _ _ _ _ Ho) (proj1 Hpg))).
  assert (HV := us_view _ _ _ _ _ _ Ho _ Hpg). unfold leaf in HV. destruct Hleaf as [HVb _].
  destruct (To !! [PX 2 (Z.of_nat k * PGSIZE); PX 1 (Z.of_nat k * PGSIZE)]) as [q|] eqn:Eq;
    [|by rewrite <- HV, has_0 in HVb].
  destruct (vm_table_page _ _ _ _ _ _ (us_vm _ _ _ _ _ _ Ho) Eq) as [Hq _]. apply free_page_pos in Hq.
  assert (Hi := PX_range 0 (Z.of_nat k * PGSIZE) (Z.le_refl 0)).
  destruct (Z.eqb_spec (q + 8 * PX 0 (Z.of_nat k * PGSIZE)) 0); [lia|].
  unfold load64, mem_move. rewrite bind_assoc, run_gets, HV, HVb. cbn [negb].
  rewrite Z.div_mul by plia. destruct l as [|p l].
  - assert (E := kalloc_none s new T (us_vm _ _ _ _ _ _ (cp_new _ _ _ _ _ Hc))).
    rewrite bind_assoc, (bind_Ret _ _ _ _ _ E). cbn [Z.eqb].
    destruct (copy_undo _ _ _ _ _ Hc) as (s' & l' & E' & Hc').
    rewrite bind_assoc, (bind_Ret _ _ _ _ _ E'), run_ret.
    exists (-1), s', l', T, Vn0. split; [done|]. by right.
  - destruct (copy_step s p l T V k Hc) as (s1 & E & Hp & r & s3 & E3 & Hcase); [lia|].
    apply free_page_pos in Hp.
    rewrite bind_assoc, (bind_Ret _ _ _ _ _ E). destruct (Z.eqb_spec p 0); [lia|].
    rewrite bind_assoc, run_modify, bind_assoc, (bind_Ret _ _ _ _ _ E3).
    destruct Hcase as [(-> & l' & T' & Hc')|(-> & s4 & l' & T' & E4 & Hc')]; cbn [Z.eqb negb].
    + rewrite run_ret, u64_small by plia.
      replace (Z.of_nat k * PGSIZE + PGSIZE) with (Z.of_nat (S k) * PGSIZE) by plia.
      eapply IH; [exact Hc'|lia|lia].
    + rewrite bind_assoc, (bind_Ret _ _ _ _ _ E4).
      destruct (copy_undo _ _ _ _ _ Hc') as (s' & l'' & E' & Hc'').
      rewrite bind_assoc, (bind_Ret _ _ _ _ _ E'), run_ret.
      exists (-1), s', l'', T', Vn0. split; [done|]. by right.
Qed.
End Copy.

(** What uvmcopy does. *)
Lemma uvmcopy_spec s l old To Vo new Tn Vn sz :
  uspace s l old To Vo (npages sz) -> uspace s l new Tn Vn 0 ->
  NoDup (frames Vo 0 (npages sz) ++ tables To ++ tables Tn ++ l) -> 0 <= sz <= TRAPFRAME ->
  exists r s' l' T' V' k, uvmcopy old new sz s = Ret r s' /\
    (r = 0 /\ k = npages sz \/ r = -1 /\ k = 0%nat) /\
    copied new Vo (npages sz) s l Tn Vn s' l' T' V' k /\
    uspace s' l' old To Vo (npages sz) /\
    NoDup (frames Vo 0 (npages sz) ++ tables To ++ account V' k T' l').
Proof using LO.
  intros Hold Hnew Hdis Hsz. assert (Hb := npages_bounds sz (proj1 Hsz)).
  assert (Hsz' := Hsz). rewrite trapframe_maxva in Hsz'.
  destruct (uvmcopy_loop old new To Vo (npages sz) s l Tn Vn Hold Hnew Hdis sz eq_refl Hsz
    (npages sz) (Z.to_nat (sz / PGSIZE + 2)) 0 s l Tn Vn) as (r & s' & l' & T' & V' & E & Hcase).
  { by apply copied_start. } { lia. } { plia. }
  assert (Hboth : forall V' k, copied new Vo (npages sz) s l Tn Vn s' l' T' V' k ->
    uspace s' l' old To Vo (npages sz) /\
    NoDup (frames Vo 0 (npages sz) ++ tables To ++ account V' k T' l')).
  { intros V1 k Hc. split; [by eapply copied_old|]. by rewrite (cp_account _ _ _ _ _ _ _ _ _ _ _ _ Hc). }
  destruct Hcase as [[-> Hc]|[-> Hc]].
  - exists 0, s', l', T', V', (npages sz). split_and!; [exact E|by left|done|..]; by eapply Hboth.
  - exists (-1), s', l', T', Vn, 0%nat. split_and!; [exact E|by right|done|..]; by eapply Hboth.
Qed.

(** fork's copy: uvmcopy of the parent's sz bytes into the child's empty
    page table returns 0 or -1 and never panics. On success each page of the
    child is a frame of its own, with the parent's permissions and the
    parent's bytes; on failure the child is empty again. In both cases the
    parent's address space is as it was, the frames and tables of the two are
    disjoint, the child's frames, its tables and the free pages are exactly
    the pages that its tables and the free list had at the start, and
    nothing outside these has changed. *)
Theorem uvmcopy_copies_memory s l old To Vo new Tn Vn sz :
  uspace s l old To Vo (npages sz) -> uspace s l new Tn Vn 0 ->
  NoDup (frames Vo 0 (npages sz) ++ tables To ++ tables Tn ++ l) -> 0 <= sz <= TRAPFRAME ->
  exists r s' l' T' V' k, uvmcopy old new sz s = Ret r s' /\
    (r = 0 /\ k = npages sz \/ r = -1 /\ k = 0%nat) /\
    copied new Vo (npages sz) s l Tn Vn s' l' T' V' k /\
    uspace s' l' old To Vo (npages sz) /\
    NoDup (frames Vo 0 (npages sz) ++ tables To ++ account V' k T' l').
Proof using LO. exact (uvmcopy_spec s l old To Vo new Tn Vn sz). Qed.
End Ufork.

(** ** Example *)

(** An empty address space, and one with a page in it. *)
Definition two_boot : K Z :=
  for_each some_pages (@kfree kernel_sym) ;;
  let! child := uvmcreate in
  let! root := uvmcreate in
  let! r := @uvmalloc kernel_sym root 0 4096 PTE_W in
  ret r.

Lemma two_boot_ok r s : two_boot (kstate0 ∅ empty_disk) = Ret r s -> r = 4096.
Proof.
  assert (H : match two_boot (kstate0 ∅ empty_disk) with Ret r _ => r =? 4096 | _ => false end = true)
    by (vm_compute; reflexivity).
  intros E. rewrite E in H. by apply Z.eqb_eq.
Qed.

Lemma two_spaces :
  exists s l old To Vo new Tn Vn,
    @uspace kernel_sym s l old To Vo (npages 4096) /\ @uspace kernel_sym s l new Tn Vn 0 /\
    NoDup (frames Vo 0 (npages 4096) ++ tables To ++ tables Tn ++ l).
Proof.
  destruct (@kfree_list kernel_sym kernel_sym_ok some_pages (kstate0 ∅ empty_disk) [])
    as (s & E & Hk & Hm).
  { split; [done|constructor|constructor]. }
  { rewrite app_nil_r. apply NoDup_fmap_2; [intros i j; plia|apply NoDup_seq]. }
  { repeat constructor; vm_compute; intuition discriminate. }
  { by apply not_elem_of_nil. }
  rewrite app_nil_r in Hk. change (reverse some_pages) with
    (0x80107000 :: 0x80106000 :: reverse ((fun k => 0x80100000 + Z.of_nat k * PGSIZE) <$> seq 0 6)) in Hk.
  set (l0 := reverse _) in Hk. assert (Hh := mem_only_held _ _ Hm).
  destruct (@uvmcreate_space kernel_sym kernel_sym_ok s _ _ Hk) as (s1 & E1 & Hu1 & Hm1 & _).
  { rewrite Hh. by apply not_elem_of_nil. }
  destruct (@uvmcreate_space kernel_sym kernel_sym_ok s1 0x80106000 l0) as (s2 & E2 & Hu2 & Hm2 & Ho2).
  { apply Hu1. } { apply Hu1. }
  destruct (@uvmalloc_spec kernel_sym kernel_sym_ok s2 _ _ _ _ 0 4096 PTE_W Hu2)
    as (r & s3 & l3 & T3 & V3 & E3 & Hr); [lia|vm_compute; discriminate|split; [done|reflexivity]|].
  assert (r = 4096) as ->.
  { apply (two_boot_ok r s3). unfold two_boot. by rewrite (bind_Ret _ _ _ _ _ E),
      (bind_Ret _ _ _ _ _ E1), (bind_Ret _ _ _ _ _ E2), (bind_Ret _ _ _ _ _ E3). }
  destruct Hr as [[_ G]|[? _]]; [|done].
  assert (Hg := gw_account _ _ _ _ _ _ _ _ _ _ _ _ G). unfold account in Hg.
  assert (Htab : forall q : Z, tables {[ [] := q ]} = [q])
    by (intros q; unfold tables; by rewrite map_to_list_singleton).
  rewrite Htab in Hg. change (frames _ 0 (npages 0)) with (@nil Z) in Hg. simpl app in Hg.
  assert (Hall : NoDup (frames V3 0 (npages 4096) ++ tables T3 ++ tables {[ [] := 0x80107000 ]} ++ l3)).
  { rewrite Htab. assert (H := us_own _ _ _ _ _ _ Hu1). rewrite Htab in H. simpl in H.
    rewrite <- Hg in H. nodup_perm H. }
  eexists s3, l3, _, T3, V3, 0x80107000, _, _.
  split; [exact (gw_space _ _ _ _ _ _ _ _ _ _ _ _ G)|]. split; [|exact Hall].
  assert (Hv3 := us_vm _ _ _ _ _ _ (gw_space _ _ _ _ _ _ _ _ _ _ _ _ G)).
  apply (uspace_keep s1 (0x80106000 :: l0) s3 l3 _ _ _ 0 (0x80106000 :: l0) Hu1).
  - apply Hv3.
  - apply Hv3.
  - apply (outside_same_trans _ _ (k_mem s2)).
    + eapply outside_same_incl; [|exact Ho2]. intros y. sublist.
    + eapply outside_same_incl; [|exact (gw_out _ _ _ _ _ _ _ _ _ _ _ _ G)].
      intros y. rewrite Htab. sublist.
  - destruct (vm_kmem _ _ _ _ (us_vm _ _ _ _ _ _ Hu1)) as [_ _ H]. exact H.
  - intros q. rewrite Htab, list_elem_of_singleton. intros -> Hin.
    assert (H := us_own _ _ _ _ _ _ Hu1). rewrite Htab in H. simpl in H.
    by apply NoDup_cons in H as [H _].
  - simpl. apply (NoDup_app (tables {[ [] := 0x80107000 ]} ++ l3)
      (frames V3 0 (npages 4096) ++ tables T3)). nodup_perm Hall.
Qed.

Lemma uvmcopy_copies_memory_witness :
  exists s old new r s', @uvmcopy kernel_sym old new 4096 s = Ret r s' /\ (r = 0 \/ r = -1).
Proof.
  destruct two_spaces as (s & l & old & To & Vo & new & Tn & Vn & Ho & Hn & Hd).
  destruct (@uvmcopy_copies_memory kernel_sym kernel_sym_ok s l old To Vo new Tn Vn 4096 Ho Hn Hd)
    as (r & s' & l' & T' & V' & k & E & Hr & _).
  - split; [lia|vm_compute; discriminate].
  - exists s, old, new, r, s'. split; [exact E|]. destruct Hr as [[-> _]|[-> _]]; [by left|by right].
Defined.
