(* ===== verification/Virtio.v ===== *)
(** kernel/virtio_disk.c: the driver of the virtio block device.

    The descriptor table and the two rings are pages shared with the device;
    they are held here as the arrays they contain ([k_vdisk]), with what a
    descriptor points to named instead of given by its address. Writes to the
    device's registers are recorded ([v_mmio], newest first); what it answers
    to reads is an argument. Memory barriers have no effect in this model. *)

From stdpp Require Import base numbers list gmap strings.
From S2P Require Import Prelude Params Mem KString State Locks Cache Kalloc Vm.

(** ** virtio.h *)

Definition NUM : Z := 8.
Definition VIRTIO_MMIO_MAGIC_VALUE : Z := 0x000.
Definition VIRTIO_MMIO_VERSION : Z := 0x004.
Definition VIRTIO_MMIO_DEVICE_ID : Z := 0x008.
Definition VIRTIO_MMIO_VENDOR_ID : Z := 0x00c.
Definition VIRTIO_MMIO_DEVICE_FEATURES : Z := 0x010.
Definition VIRTIO_MMIO_DRIVER_FEATURES : Z := 0x020.
Definition VIRTIO_MMIO_QUEUE_SEL : Z := 0x030.
Definition VIRTIO_MMIO_QUEUE_NUM_MAX : Z := 0x034.
Definition VIRTIO_MMIO_QUEUE_NUM : Z := 0x038.
Definition VIRTIO_MMIO_QUEUE_READY : Z := 0x044.
Definition VIRTIO_MMIO_QUEUE_NOTIFY : Z := 0x050.
Definition VIRTIO_MMIO_INTERRUPT_STATUS : Z := 0x060.
Definition VIRTIO_MMIO_INTERRUPT_ACK : Z := 0x064.
Definition VIRTIO_MMIO_STATUS : Z := 0x070.
Definition VIRTIO_MMIO_QUEUE_DESC_LOW : Z := 0x080.
Definition VIRTIO_MMIO_QUEUE_DESC_HIGH : Z := 0x084.
Definition VIRTIO_MMIO_DRIVER_DESC_LOW : Z := 0x090.
Definition VIRTIO_MMIO_DRIVER_DESC_HIGH : Z := 0x094.
Definition VIRTIO_MMIO_DEVICE_DESC_LOW : Z := 0x0a0.
Definition VIRTIO_MMIO_DEVICE_DESC_HIGH : Z := 0x0a4.
Definition VIRTIO_CONFIG_S_ACKNOWLEDGE : Z := 1.
Definition VIRTIO_CONFIG_S_DRIVER : Z := 2.
Definition VIRTIO_CONFIG_S_DRIVER_OK : Z := 4.
Definition VIRTIO_CONFIG_S_FEATURES_OK : Z := 8.
Definition VRING_DESC_F_NEXT : Z := 1.
Definition VRING_DESC_F_WRITE : Z := 2.
Definition VIRTIO_BLK_T_IN : Z := 0.
Definition VIRTIO_BLK_T_OUT : Z := 1.

(** ** The driver's data *)

Definition get_vdisk : K vdisk := gets k_vdisk.
Definition upd_vdisk (f : vdisk -> vdisk) : K unit :=
  modify (fun s => set_k_vdisk (f (k_vdisk s)) s).

(** [*R(r) = v] *)
Definition write_reg (r v : Z) : K unit :=
  upd_vdisk (fun d => set_v_mmio ((r, u32 v) :: v_mmio d) d).

(** disk.desc[i], disk.info[i]: undefined outside the arrays. *)
Definition get_desc (i : nat) : K virtq_desc :=
  let! d := get_vdisk in of_option (v_desc d !! i).
Definition set_desc (i : nat) (x : virtq_desc) : K unit :=
  let! _ := get_desc i in
  upd_vdisk (fun d => set_v_desc (<[i := x]> (v_desc d)) d).
Definition get_info (i : nat) : K vinfo :=
  let! d := get_vdisk in of_option (v_info d !! i).
Definition set_info (i : nat) (x : vinfo) : K unit :=
  let! _ := get_info i in
  upd_vdisk (fun d => set_v_info (<[i := x]> (v_info d)) d).
Definition set_ops (i : nat) (x : blk_req) : K unit :=
  let! d := get_vdisk in
  let! _ := of_option (v_ops d !! i) in
  upd_vdisk (fun d => set_v_ops (<[i := x]> (v_ops d)) d).

(** The features the driver turns off: RO, SCSI, CONFIG_WCE, MQ, ANY_LAYOUT,
    EVENT_IDX, INDIRECT_DESC. *)
Definition features_off : list Z := [5; 7; 11; 12; 27; 29; 28].
Definition negotiate (features : Z) : Z :=
  foldl (fun f bit => Z.land f (Z.lnot (Z.shiftl 1 bit))) features features_off.

Section Virtio.
Context {W : Wakeups} {L : Layout}.

Definition virtio_disk_init (R : Z -> Z) : K unit :=
  if negb (R VIRTIO_MMIO_MAGIC_VALUE =? 0x74726976) ||
     negb (R VIRTIO_MMIO_VERSION =? 2) ||
     negb (R VIRTIO_MMIO_DEVICE_ID =? 2) ||
     negb (R VIRTIO_MMIO_VENDOR_ID =? 0x554d4551)
  then panic "could not find virtio disk"
  else
    (* reset device *)
    write_reg VIRTIO_MMIO_STATUS 0 ;;
    let status := VIRTIO_CONFIG_S_ACKNOWLEDGE in
    write_reg VIRTIO_MMIO_STATUS status ;;
    let status := Z.lor status VIRTIO_CONFIG_S_DRIVER in
    write_reg VIRTIO_MMIO_STATUS status ;;
    (* negotiate features *)
    write_reg VIRTIO_MMIO_DRIVER_FEATURES (negotiate (R VIRTIO_MMIO_DEVICE_FEATURES)) ;;
    (* tell device that feature negotiation is complete. *)
    let status := Z.lor status VIRTIO_CONFIG_S_FEATURES_OK in
    write_reg VIRTIO_MMIO_STATUS status ;;
    (* re-read status to ensure FEATURES_OK is set. *)
    let status := R VIRTIO_MMIO_STATUS in
    if negb (has status VIRTIO_CONFIG_S_FEATURES_OK)
    then panic "virtio disk FEATURES_OK unset"
    else
      (* initialize queue 0. *)
      write_reg VIRTIO_MMIO_QUEUE_SEL 0 ;;
      if negb (R VIRTIO_MMIO_QUEUE_READY =? 0)
      then panic "virtio disk should not be ready"
      else if R VIRTIO_MMIO_QUEUE_NUM_MAX =? 0
      then panic "virtio disk has no queue 0"
      else if R VIRTIO_MMIO_QUEUE_NUM_MAX <? NUM
      then panic "virtio disk max queue too short"
      else
        (* allocate and zero queue memory. *)
        let! desc := kalloc in
        let! avail := kalloc in
        let! used := kalloc in
        upd_vdisk (set_v_pages [desc; avail; used]) ;;
        if (desc =? 0) || (avail =? 0) || (used =? 0) then panic "virtio disk kalloc"
        else
          mem_set desc 0 PGSIZE ;;
          mem_set avail 0 PGSIZE ;;
          mem_set used 0 PGSIZE ;;
          upd_vdisk (fun d =>
            set_v_desc (replicate (Z.to_nat NUM) zero_desc)
              (set_v_avail_idx 0 (set_v_avail (replicate (Z.to_nat NUM) 0)
                (set_v_uidx 0 (set_v_used (replicate (Z.to_nat NUM) 0) d))))) ;;
          (* set queue size. *)
          write_reg VIRTIO_MMIO_QUEUE_NUM NUM ;;
          (* write physical addresses. *)
          write_reg VIRTIO_MMIO_QUEUE_DESC_LOW desc ;;
          write_reg VIRTIO_MMIO_QUEUE_DESC_HIGH (Z.shiftr desc 32) ;;
          write_reg VIRTIO_MMIO_DRIVER_DESC_LOW avail ;;
          write_reg VIRTIO_MMIO_DRIVER_DESC_HIGH (Z.shiftr avail 32) ;;
          write_reg VIRTIO_MMIO_DEVICE_DESC_LOW used ;;
          write_reg VIRTIO_MMIO_DEVICE_DESC_HIGH (Z.shiftr used 32) ;;
          (* queue is ready. *)
          write_reg VIRTIO_MMIO_QUEUE_READY 1 ;;
          (* all NUM descriptors start out unused. *)
          upd_vdisk (set_v_free (replicate (Z.to_nat NUM) true)) ;;
          (* tell device we're completely ready. *)
          write_reg VIRTIO_MMIO_STATUS (Z.lor status VIRTIO_CONFIG_S_DRIVER_OK).

(** ** Descriptors *)

(** A free descriptor, marked non-free; None for -1. *)
Definition alloc_desc : K (option nat) :=
  for_return (seq 0 (Z.to_nat NUM)) (fun i =>
    let! d := get_vdisk in
    let! free := of_option (v_free d !! i) in
    if free : bool then
      upd_vdisk (fun d => set_v_free (<[i := false]> (v_free d)) d) ;;
      ret (Some i)
    else ret None).

Definition free_desc (i : nat) : K unit :=
  if NUM <=? Z.of_nat i then panic "free_desc 1"
  else
    let! d := get_vdisk in
    let! free := of_option (v_free d !! i) in
    if free : bool then panic "free_desc 2"
    else
      set_desc i zero_desc ;;
      upd_vdisk (fun d => set_v_free (<[i := true]> (v_free d)) d) ;;
      wakeup ChDiskFree.

(** At most NUM descriptors can be freed before free_desc panics. *)
Definition free_chain (i : nat) : K unit :=
  loop (Z.to_nat NUM + 1) (fun i =>
    let! x := get_desc i in
    free_desc i ;;
    if has (vd_flags x) VRING_DESC_F_NEXT
    then ret (inl (Z.to_nat (vd_next x)))
    else ret (inr tt)) i.

(** The three descriptors; None for -1. *)
Definition alloc3_desc : K (option (nat * nat * nat)) :=
  let! i0 := alloc_desc in
  match i0 with
  | None => ret None
  | Some i0 =>
      let! i1 := alloc_desc in
      match i1 with
      | None => free_desc i0 ;; ret None
      | Some i1 =>
          let! i2 := alloc_desc in
          match i2 with
          | None => free_desc i0 ;; free_desc i1 ;; ret None
          | Some i2 => ret (Some (i0, i1, i2))
          end
      end
  end.

(** ** Requests *)

Definition virtio_disk_rw (b : nat) (write : bool) : K unit :=
  let! bf := get_buf b in
  let sector := u32 (b_blockno bf * (BSIZE / 512)) in
  acquire LkDisk ;;
  (* allocate the three descriptors. *)
  let! idx := loop (S wakeups) (fun _ =>
    let! o := alloc3_desc in
    match o with
    | Some idx => ret (inr idx)
    | None => sleep ChDiskFree LkDisk ;; ret (inl tt)
    end) tt in
  let '(i0, i1, i2) := idx in
  (* format the three descriptors. *)
  set_ops i0 (mk_req (if write then VIRTIO_BLK_T_OUT else VIRTIO_BLK_T_IN) 0 sector) ;;
  set_desc i0 (mk_desc (VReq i0) 16 VRING_DESC_F_NEXT (Z.of_nat i1)) ;;
  set_desc i1 (mk_desc (VData b) BSIZE
    (Z.lor (if write then 0 else VRING_DESC_F_WRITE) VRING_DESC_F_NEXT) (Z.of_nat i2)) ;;
  let! inf := get_info i0 in
  set_info i0 (mk_vinfo (vi_b inf) 0xff) ;;   (* device writes 0 on success *)
  set_desc i2 (mk_desc (VStatus i0) 1 VRING_DESC_F_WRITE 0) ;;
  (* record struct buf for virtio_disk_intr(). *)
  upd_buf b (set_b_disk true) ;;
  set_info i0 (mk_vinfo (Some b) 0xff) ;;
  (* tell the device the first index in our chain of descriptors. *)
  upd_vdisk (fun d =>
    set_v_avail (<[Z.to_nat (v_avail_idx d mod NUM) := Z.of_nat i0]> (v_avail d)) d) ;;
  (* tell the device another avail ring entry is available. *)
  upd_vdisk (fun d => set_v_avail_idx (u16 (v_avail_idx d + 1)) d) ;;
  write_reg VIRTIO_MMIO_QUEUE_NOTIFY 0 ;;
  (* Wait for virtio_disk_intr() to say request has finished. *)
  loop (S wakeups) (fun _ =>
    let! bf := get_buf b in
    if b_disk bf then sleep (ChBuf b) LkDisk ;; ret (inl tt)
    else ret (inr tt)) tt ;;
  let! inf := get_info i0 in
  set_info i0 (mk_vinfo None (vi_status inf)) ;;
  free_chain i0 ;;
  release LkDisk.

(** [status] is what the interrupt status register answers. The used ring
    has NUM entries, and the device adds no entry for a request it was not
    given. *)
Definition virtio_disk_intr (status : Z) : K unit :=
  acquire LkDisk ;;
  write_reg VIRTIO_MMIO_INTERRUPT_ACK (Z.land status 3) ;;
  loop (Z.to_nat NUM + 1) (fun _ =>
    let! d := get_vdisk in
    if negb (v_used_idx d =? v_uidx d) then
      let! id := of_option (v_used d !! Z.to_nat (v_used_idx d mod NUM)) in
      let! inf := get_info (Z.to_nat id) in
      if negb (vi_status inf =? 0) then panic "virtio_disk_intr status"
      else
        let! b := of_option (vi_b inf) in
        upd_buf b (set_b_disk false) ;;      (* disk is done with buf *)
        wakeup (ChBuf b) ;;
        upd_vdisk (fun d => set_v_used_idx (u16 (v_used_idx d + 1)) d) ;;
        ret (inl tt)
    else ret (inr tt)) tt ;;
  release LkDisk.
End Virtio.
