(* ===== verification/Console.v ===== *)
(** kernel/uart.c, kernel/printf.c and kernel/console.c: the serial line, the
    kernel's formatted output and the line discipline of the console.

    The 16550a behind the registers is part of the state: the values that
    successive reads of LSR and RHR return are given ([u_lsr], [u_rhr]; when
    they are used up the transmitter is idle and no input waits), and what
    is written to THR is recorded ([u_thr]). [panicked] is always 0: a panic
    ends the model's run. *)

From stdpp Require Import base numbers list gmap strings.
From S2P Require Import Prelude Params Mem State Locks Kalloc Vm.

(** ** uart.c *)

Definition LSR_RX_READY : Z := 1.
Definition LSR_TX_IDLE : Z := 0x20.
Definition UART_TX_BUF_SIZE : Z := 32.

Definition upd_uart (f : uart -> uart) : K unit :=
  modify (fun s => set_k_uart (f (k_uart s)) s).

(** ReadReg(LSR), ReadReg(RHR), WriteReg(THR, c). *)
Definition read_lsr : K Z :=
  let! u := gets k_uart in
  match u_lsr u with
  | [] => ret LSR_TX_IDLE
  | v :: l => upd_uart (set_u_lsr l) ;; ret v
  end.
Definition read_rhr : K Z :=
  let! u := gets k_uart in
  match u_rhr u with
  | [] => ret 0
  | v :: l => upd_uart (set_u_rhr l) ;; ret (u8 v)
  end.
Definition write_thr (c : Z) : K unit :=
  upd_uart (fun u => set_u_thr (u8 c :: u_thr u) u).

(** It spins until LSR says idle, at the latest when the given values end. *)
Definition uartputc_sync (c : Z) : K unit :=
  let! u := gets k_uart in
  loop (length (u_lsr u) + 1) (fun _ =>
    let! v := read_lsr in
    if Z.land v LSR_TX_IDLE =? 0 then ret (inl tt) else ret (inr tt)) tt ;;
  write_thr c.

(** The buffer holds at most UART_TX_BUF_SIZE characters. *)
Definition uartstart : K unit :=
  loop (Z.to_nat UART_TX_BUF_SIZE + 2) (fun _ =>
    let! u := gets k_uart in
    if u_w u =? u_r u then ret (inr tt)       (* transmit buffer is empty. *)
    else
      let! v := read_lsr in
      if Z.land v LSR_TX_IDLE =? 0 then ret (inr tt)  (* THR is full. *)
      else
        let! c := of_option (u_buf u !! Z.to_nat (u_r u mod UART_TX_BUF_SIZE)) in
        upd_uart (set_u_r (u64 (u_r u + 1))) ;;
        (* maybe uartputc() is waiting for space in the buffer. *)
        wakeup ChUart ;;
        write_thr c ;;
        ret (inl tt)) tt.

Section Console.
Context {W : Wakeups} {L : Layout}.

Definition uartputc (c : Z) : K unit :=
  acquire LkUart ;;
  loop (S wakeups) (fun _ =>
    let! u := gets k_uart in
    if u_w u =? u64 (u_r u + UART_TX_BUF_SIZE)
    then sleep ChUart LkUart ;; ret (inl tt)  (* buffer is full. *)
    else ret (inr tt)) tt ;;
  upd_uart (fun u =>
    set_u_w (u64 (u_w u + 1))
      (set_u_buf (<[Z.to_nat (u_w u mod UART_TX_BUF_SIZE) := u8 c]> (u_buf u)) u)) ;;
  uartstart ;;
  release LkUart.

Definition uartgetc : K Z :=
  let! v := read_lsr in
  if negb (Z.land v LSR_RX_READY =? 0) then read_rhr else ret (-1).

(** ** printf.c *)

Definition BACKSPACE : Z := 0x100.

Definition consputc (c : Z) : K unit :=
  if c =? BACKSPACE then
    (* if the user typed backspace, overwrite with a space. *)
    uartputc_sync 8 ;; uartputc_sync 32 ;; uartputc_sync 8
  else uartputc_sync c.

Definition digits : list Z := bytes_of "0123456789abcdef".

(** The do-while loop of printint: the characters in [buf], first digit
    first; storing outside [buf[16]] is undefined. *)
Fixpoint printint_digits (fuel : nat) (x base : Z) (buf : list Z) : K (list Z) :=
  match fuel with
  | O => fun _ => NoFuel
  | S f =>
      if (length buf <? 16)%nat then
        let! d := of_option (digits !! Z.to_nat (x mod base)) in
        let buf := buf ++ [d] in
        if x / base =? 0 then ret buf else printint_digits f (x / base) base buf
      else undef
  end.

Definition printint (xx base : Z) (sign : bool) : K unit :=
  let neg := sign && (xx <? 0) in
  let x := if neg then u64 (- xx) else u64 xx in
  let! buf := printint_digits 65 x base [] in
  let! buf := (if neg
               then if (length buf <? 16)%nat then ret (buf ++ [45]) else undef
               else ret buf) in
  for_each (reverse buf) consputc.

Definition printptr (x : Z) : K unit :=
  consputc 48 ;; consputc 120 ;;
  for_each (seq 0 16) (fun i =>
    let! d := of_option (digits !! Z.to_nat (Z.shiftr (u64 (Z.shiftl x (4 * Z.of_nat i))) 60)) in
    consputc d).

(** The arguments of a printf: integers, and strings (None for null). *)
Inductive parg := PInt (v : Z) | PStr (s : option (list Z)).

Definition arg_int (args : list parg) : K (Z * list parg) :=
  match args with PInt v :: l => ret (v, l) | _ => undef end.
Definition arg_str (args : list parg) : K (option (list Z) * list parg) :=
  match args with PStr v :: l => ret (v, l) | _ => undef end.

(** [va_arg(ap, int)] and [va_arg(ap, uint64)] as the [long long] argument
    of printint. *)
Definition print_int (args : list parg) (base : Z) (sign : bool) : K (list parg) :=
  let! a := arg_int args in printint (s32 a.1) base sign ;; ret a.2.
Definition print_long (args : list parg) (base : Z) (sign : bool) : K (list parg) :=
  let! a := arg_int args in printint (s64 a.1) base sign ;; ret a.2.

(** The loop over the format; the end of the list is the NUL. *)
Fixpoint printf_loop (fuel : nat) (fmt : list Z) (args : list parg) : K unit :=
  match fuel with
  | O => fun _ => NoFuel
  | S f =>
      match fmt with
      | [] => ret tt
      | cx :: fmt' =>
          if negb (cx =? 37) then consputc cx ;; printf_loop f fmt' args
          else
            let c0 := default 0 (fmt' !! 0%nat) in
            let c1 := if c0 =? 0 then 0 else default 0 (fmt' !! 1%nat) in
            let c2 := if c1 =? 0 then 0 else default 0 (fmt' !! 2%nat) in
            let eqc c x := c =? x in
            if eqc c0 100 then
              let! a := print_int args 10 true in printf_loop f (drop 1 fmt') a
            else if eqc c0 108 && eqc c1 100 then
              let! a := print_long args 10 true in printf_loop f (drop 2 fmt') a
            else if eqc c0 108 && eqc c1 108 && eqc c2 100 then
              let! a := print_long args 10 true in printf_loop f (drop 3 fmt') a
            else if eqc c0 117 then
              let! a := print_int args 10 false in printf_loop f (drop 1 fmt') a
            else if eqc c0 108 && eqc c1 117 then
              let! a := print_long args 10 false in printf_loop f (drop 2 fmt') a
            else if eqc c0 108 && eqc c1 108 && eqc c2 117 then
              let! a := print_long args 10 false in printf_loop f (drop 3 fmt') a
            else if eqc c0 120 then
              let! a := print_int args 16 false in printf_loop f (drop 1 fmt') a
            else if eqc c0 108 && eqc c1 120 then
              let! a := print_long args 16 false in printf_loop f (drop 2 fmt') a
            else if eqc c0 108 && eqc c1 108 && eqc c2 120 then
              let! a := print_long args 16 false in printf_loop f (drop 3 fmt') a
            else if eqc c0 112 then
              let! a := arg_int args in
              printptr (u64 a.1) ;; printf_loop f (drop 1 fmt') a.2
            else if eqc c0 115 then
              let! a := arg_str args in
              for_each (default (bytes_of "(null)") a.1) consputc ;;
              printf_loop f (drop 1 fmt') a.2
            else if eqc c0 37 then consputc 37 ;; printf_loop f (drop 1 fmt') args
            else if eqc c0 0 then ret tt
            else
              (* Print unknown % sequence to draw attention. *)
              consputc 37 ;; consputc c0 ;; printf_loop f (drop 1 fmt') args
      end
  end.

(** After printfinit, [pr.locking] is 1. *)
Definition printf (fmt : list Z) (args : list parg) : K unit :=
  acquire LkPr ;;
  printf_loop (S (length fmt)) fmt args ;;
  release LkPr.

(** ** proc.c: procdump *)

Definition state_name (st : procstate) : list Z :=
  bytes_of (match st with
            | UNUSED => "unused" | USED => "used" | SLEEPING => "sleep "
            | RUNNABLE => "runble" | RUNNING => "run   " | ZOMBIE => "zombie"
            end).

(** A char array as the string it holds. *)
Fixpoint cstr (l : list Z) : list Z :=
  match l with
  | [] => []
  | c :: l' => if c =? 0 then [] else c :: cstr l'
  end.

Definition newline : list Z := [10].

Definition procdump : K unit :=
  printf newline [] ;;
  for_each proc_indices (fun i =>
    let! p := get_proc i in
    if decide (p_state p = UNUSED) then ret tt
    else
      printf (bytes_of "%d %s %s")
        [PInt (p_pid p); PStr (Some (state_name (p_state p))); PStr (Some (cstr (p_name p)))] ;;
      printf newline []).

(** ** console.c *)

Definition INPUT_BUF_SIZE : Z := 128.
Definition Ctl (x : Z) : Z := x - 64.     (* C(x), Control-x *)

Definition upd_cons (f : console -> console) : K unit :=
  modify (fun s => set_k_cons (f (k_cons s)) s).

Definition consolewrite (src : ksrc) (n : Z) : K Z :=
  loop (Z.to_nat n + 1) (fun i =>
    if i <? n then
      let! r := either_copyin (ksrc_add src i) 1 in
      if r.1 =? -1 then ret (inr i)
      else
        let! c := of_option (r.2 !! 0%nat) in
        uartputc c ;;
        ret (inl (i + 1))
    else ret (inr i)) 0.

(** Wait until the interrupt handler has put some input into the buffer;
    [false] when the process was killed. *)
Definition cons_wait : K bool :=
  loop (S wakeups) (fun _ =>
    let! c := gets k_cons in
    if c_r c =? c_w c then
      let! p := me in
      let! k := killed p in
      if k then ret (inr false)
      else sleep ChCons LkCons ;; ret (inl tt)
    else ret (inr true)) tt.

(** One round of the loop, with [n] bytes to go: [inr None] is the return
    of -1, [inr (Some n)] the end of the loop. *)
Definition consoleread_round (target : Z) (x : Z * kdst) : K ((Z * kdst) + option Z) :=
  let '(n, dst) := x in
  if 0 <? n then
    let! ok := cons_wait in
    if negb ok then release LkCons ;; ret (inr None)
    else
      let! cs := gets k_cons in
      let! c := of_option (c_buf cs !! Z.to_nat (c_r cs mod INPUT_BUF_SIZE)) in
      upd_cons (fun cs => set_c_r (u32 (c_r cs + 1)) cs) ;;
      if c =? Ctl 68 then (* end-of-file *)
        (* Save ^D for next time, to make sure caller gets a 0-byte result. *)
        when (n <? target) (upd_cons (fun cs => set_c_r (u32 (c_r cs - 1)) cs)) ;;
        ret (inr (Some n))
      else
        (* copy the input byte to the user-space buffer. *)
        let! e := either_copyout dst [c] in
        if e =? -1 then ret (inr (Some n))
        else
          let n := n - 1 in
          if c =? 10 then ret (inr (Some n)) (* a whole line has arrived *)
          else ret (inl (n, kdst_add dst 1))
  else ret (inr (Some n)).

Definition consoleread (dst : kdst) (n : Z) : K Z :=
  acquire LkCons ;;
  let! r := loop (Z.to_nat n + 1) (consoleread_round n) (n, dst) in
  match r with
  | None => ret (-1)
  | Some n' => release LkCons ;; ret (n - n')
  end.

Definition consoleintr (c : Z) : K unit :=
  acquire LkCons ;;
  (if c =? Ctl 80 then procdump              (* Print process list. *)
   else if c =? Ctl 85 then                  (* Kill line. *)
     let! cs := gets k_cons in
     loop (Z.to_nat (u32 (c_e cs - c_w cs)) + 1) (fun _ =>
       let! cs := gets k_cons in
       if negb (c_e cs =? c_w cs) then
         let! ch := of_option (c_buf cs !! Z.to_nat (u32 (c_e cs - 1) mod INPUT_BUF_SIZE)) in
         if negb (ch =? 10) then
           upd_cons (fun cs => set_c_e (u32 (c_e cs - 1)) cs) ;;
           consputc BACKSPACE ;;
           ret (inl tt)
         else ret (inr tt)
       else ret (inr tt)) tt
   else if (c =? Ctl 72) || (c =? 0x7f) then (* Backspace, Delete key *)
     let! cs := gets k_cons in
     when (negb (c_e cs =? c_w cs))
       (upd_cons (fun cs => set_c_e (u32 (c_e cs - 1)) cs) ;;
        consputc BACKSPACE)
   else
     let! cs := gets k_cons in
     when (negb (c =? 0) && (u32 (c_e cs - c_r cs) <? INPUT_BUF_SIZE))
       (let c := if c =? 13 then 10 else c in
        (* echo back to the user. *)
        consputc c ;;
        (* store for consumption by consoleread(). *)
        upd_cons (fun cs =>
          set_c_e (u32 (c_e cs + 1))
            (set_c_buf (<[Z.to_nat (c_e cs mod INPUT_BUF_SIZE) := u8 c]> (c_buf cs)) cs)) ;;
        let! cs := gets k_cons in
        when ((c =? 10) || (c =? Ctl 68) || (u32 (c_e cs - c_r cs) =? INPUT_BUF_SIZE))
          (* a whole line (or end-of-file) has arrived. *)
          (upd_cons (fun cs => set_c_w (c_e cs) cs) ;;
           wakeup ChCons))) ;;
  release LkCons.

Definition uartintr : K unit :=
  (* read and process incoming characters. *)
  let! u := gets k_uart in
  loop (length (u_lsr u) + 1) (fun _ =>
    let! c := uartgetc in
    if c =? -1 then ret (inr tt)
    else consoleintr c ;; ret (inl tt)) tt ;;
  (* send buffered characters. *)
  acquire LkUart ;;
  uartstart ;;
  release LkUart.
End Console.
