(* ===== verification/KPrintf.v ===== *)
(** printint of kernel/printf.c: which characters it prints, and when it
    writes past the end of its buffer. *)

From stdpp Require Import base numbers list strings.
From S2P Require Import Prelude Params Mem Digits State Locks Console.

(** The characters of a number, as printint prints them: an optional sign,
    then the digits, most significant first. *)
Definition digit_char (d : Z) : Z := default 0 (digits !! Z.to_nat d).
Definition number (neg : bool) (base x : Z) : list Z :=
  (if neg then [45] else []) ++ reverse (digit_char <$> rdigits 65 base x).

Lemma kdigit_lookup d : 0 <= d < 16 -> digits !! Z.to_nat d = Some (digit_char d).
Proof.
  intros Hd. unfold digit_char. destruct (lookup_lt_is_Some_2 digits (Z.to_nat d)) as [c ->]; [|done].
  change (length digits) with 16%nat. lia.
Qed.

Section Printint.
Context (base : Z) (Hb : 1 < base <= 16).

(** The loop: the digits, or a store past the end of the buffer. *)
Lemma kprintint_digits_run f x buf s :
  0 <= x < base ^ Z.of_nat f -> (0 < f)%nat ->
  printint_digits f x base buf s =
    if (length buf + length (rdigits f base x) <=? 16)%nat then Ret (buf ++ (digit_char <$> rdigits f base x)) s
    else Undef s.
Proof using Hb.
  revert x buf. induction f as [|f IH]; intros x buf Hx Hf; [lia|]. cbn [printint_digits rdigits fmap list_fmap length].
  destruct (Nat.ltb_spec (length buf) 16) as [Hl|Hl].
  2:{ rewrite (proj2 (Nat.leb_gt _ 16)) by lia. done. }
  rewrite kdigit_lookup by (pose proof (Z.mod_pos_bound x base); lia). unfold of_option. rewrite run_ret.
  destruct (Z.eqb_spec (x / base) 0) as [Ez|Ez].
  - cbn [length list_fmap fmap]. destruct (Nat.leb_spec (length buf + 1) 16); [done|lia].
  - apply (div_small base ltac:(lia)) in Hx. destruct f as [|f]; [cbn in Hx; lia|].
    rewrite IH by (done || lia). rewrite length_app. cbn [length].
    replace (length buf + 1 + length (rdigits (S f) base (x / base)))%nat
      with (length buf + S (length (rdigits (S f) base (x / base))))%nat by lia.
    rewrite <- app_assoc. done.
Qed.
End Printint.

(** printint prints the characters of the number when they fit. *)
Lemma kprintint_run xx base sign s :
  base = 10 \/ base = 16 -> - 2 ^ 63 <= xx < 2 ^ 63 ->
  let neg := sign && (xx <? 0) in
  let x := if neg then - xx else u64 xx in
  dvalue base (rdigits 65 base x) = x /\
  printint xx base sign s =
    (if (length (number neg base x) <=? 16)%nat then for_each (number neg base x) consputc s else Undef s).
Proof.
  intros Hbase Hxx neg x. assert (Hb : 1 < base <= 16) by lia.
  assert (Hx : 0 <= x < base ^ Z.of_nat 65).
  { assert (0 <= x < 2 ^ 64) by (unfold x, neg; destruct sign, (Z.ltb_spec xx 0); cbn; pose proof (u64_range xx); lia).
    assert (2 ^ Z.of_nat 65 <= base ^ Z.of_nat 65) by (apply Z.pow_le_mono_l; lia).
    change (2 ^ Z.of_nat 65) with (2 * 2 ^ 64) in *. lia. }
  split; [apply rdigits_value; lia|].
  unfold printint. fold neg.
  replace (if neg then u64 (- xx) else u64 xx) with x.
  2:{ unfold x. destruct neg eqn:En; [|done]. unfold neg in En. apply andb_true_iff in En as [_ En%Z.ltb_lt].
      by rewrite u64_small by lia. }
  unfold bind at 1. rewrite (kprintint_digits_run base) by (done || lia). cbn [length app].
  unfold number. rewrite length_app, length_reverse, length_fmap.
  destruct (Nat.leb_spec (0 + length (rdigits 65 base x)) 16) as [Hl|Hl].
  - cbn [obind]. destruct neg; cbn [length].
    + rewrite length_fmap. destruct (Nat.ltb_spec (length (rdigits 65 base x)) 16) as [Hl'|Hl'].
      * rewrite run_ret, (proj2 (Nat.leb_le _ 16)) by lia. by rewrite reverse_app.
      * rewrite (proj2 (Nat.leb_gt _ 16)) by lia. done.
    + rewrite run_ret, (proj2 (Nat.leb_le _ 16)) by lia. done.
  - cbn [obind]. rewrite (proj2 (Nat.leb_gt _ 16)) by lia. done.
Qed.

(** C40. printint of the kernel's printf, for the bases it is called with and
    any 64-bit argument: it prints the sign and the digits of the number, in
    order and without leading zeros, when they are at most 16 characters; with
    more, it writes past the end of its 16-byte buffer. Sixteen characters are
    not enough: ten to the power 16 (an ordinary value for %ld or %lu) and
    minus ten to the power 15 need seventeen. *)
Theorem printint_overflows_buffer xx base sign s :
  base = 10 \/ base = 16 -> - 2 ^ 63 <= xx < 2 ^ 63 ->
  let neg := sign && (xx <? 0) in
  let x := if neg then - xx else u64 xx in
  dvalue base (rdigits 65 base x) = x /\
  printint xx base sign s =
    (if (length (number neg base x) <=? 16)%nat then for_each (number neg base x) consputc s else Undef s) /\
  printint (10 ^ 16) 10 sign s = Undef s /\ printint (- 10 ^ 15) 10 true s = Undef s.
Proof.
  intros Hbase Hxx neg x. destruct (kprintint_run xx base sign s Hbase Hxx) as [H1 H2].
  split; [exact H1|]. split; [exact H2|split; vm_compute; destruct sign; reflexivity].
Qed.

Lemma printint_overflows_buffer_witness :
  exists s, printint 42 10 true s = for_each [52; 50] consputc s.
Proof.
  destruct (printint_overflows_buffer 42 10 true (kstate0 ∅ empty_disk)) as (_ & E & _).
  - by left.
  - lia.
  - by exists (kstate0 ∅ empty_disk).
Defined.
