(* ===== verification/Fs.v ===== *)
(** kernel/fs.c: the file system: blocks, inodes, directories, path names.

    An inode pointer is an index into the inode table, a [struct buf *] an
    index into the buffer cache, and on-disk structures are read and written
    as bytes of blocks. A path or a file name is the list of its bytes up to
    the NUL; a [char name[DIRSIZ]] is the list of its 14 bytes. *)

From stdpp Require Import base numbers list gmap strings.
From S2P Require Import Prelude Params Mem State Locks Cache Kalloc Vm Console Log.

(** ** On-disk structures *)

(** struct dinode: [type], [major], [minor], [nlink] (shorts), [size] and
    [addrs] (uints). *)
Definition dinode_off (inum : Z) : nat := Z.to_nat (inum mod IPB * sizeof_dinode).
Definition di_type (d : list Z) (o : nat) : Z := s16 (get16 d o).
Definition di_major (d : list Z) (o : nat) : Z := s16 (get16 d (o + 2)).
Definition di_minor (d : list Z) (o : nat) : Z := s16 (get16 d (o + 4)).
Definition di_nlink (d : list Z) (o : nat) : Z := s16 (get16 d (o + 6)).
Definition di_size (d : list Z) (o : nat) : Z := get32 d (o + 8).
Definition di_addr (d : list Z) (o i : nat) : Z := get32 d (o + 12 + 4 * i).

(** The addresses written as an array of uints at offset [o]. *)
Fixpoint put_addrs (d : list Z) (o : nat) (addrs : list Z) : list Z :=
  match addrs with
  | [] => d
  | a :: l => put_addrs (put32 d o a) (o + 4) l
  end.

Definition dinode_addrs : list nat := seq 0 (Z.to_nat (NDIRECT + 1)).

(** struct dirent: [inum] (a ushort) and [name[DIRSIZ]]. *)
Definition de_inum (de : list Z) : Z := get16 de 0.
Definition de_name (de : list Z) : list Z := get_at de 2 (Z.to_nat DIRSIZ).

(** strncmp(s, t, n) on strings given by their bytes: past the end is the
    NUL. *)
Fixpoint strncmp_bytes (n : nat) (s t : list Z) : Z :=
  match n with
  | O => 0
  | S n' =>
      let a := default 0 (s !! 0%nat) in
      let b := default 0 (t !! 0%nat) in
      if negb (a =? 0) && (a =? b) then strncmp_bytes n' (drop 1 s) (drop 1 t)
      else a - b
  end.

(** strncpy(dst, s, n): the [n] bytes it stores. *)
Definition strncpy_bytes (n : nat) (s : list Z) : list Z :=
  let c := cstr (take n s) in c ++ replicate (n - length c) 0.

Definition namecmp (s t : list Z) : Z := strncmp_bytes (Z.to_nat DIRSIZ) s t.

(** ** The inode table *)

Definition get_inode (i : nat) : K inode :=
  let! t := gets k_itable in of_option (t !! i).

Definition upd_inode (i : nat) (f : inode -> inode) : K unit :=
  let! ip := get_inode i in
  modify (fun s => set_k_itable (<[i := f ip]> (k_itable s)) s).

(** [&ip->lock]. *)
Definition inode_lock (i : nat) : slref := {|
  sl_get := let! ip := get_inode i in ret (i_lock ip);
  sl_set := fun lk => upd_inode i (set_i_lock lk);
  sl_spin := LkSleepInode i;
  sl_chan := ChInodeLock i;
|}.

Definition ninode : nat := Z.to_nat NINODE.

(** ip->addrs[i] *)
Definition get_addr (ip : nat) (i : nat) : K Z :=
  let! n := get_inode ip in of_option (i_addrs n !! i).
Definition set_addr (ip : nat) (i : nat) (v : Z) : K unit :=
  let! _ := get_addr ip i in
  upd_inode ip (fun n => set_i_addrs (<[i := v]> (i_addrs n)) n).

Section Fs.
Context {W : Wakeups} {L : Layout} {C : BlockCache}.

(** ** Superblock *)

Definition decode_sb (d : list Z) : superblock :=
  mk_superblock (get32 d 0) (get32 d 4) (get32 d 8) (get32 d 12) (get32 d 16)
    (get32 d 20) (get32 d 24) (get32 d 28).

Definition readsb (dev : Z) : K unit :=
  let! bp := bread (u32 dev) 1 in
  let! d := bdata bp in
  modify (set_k_sb (decode_sb d)) ;;
  brelse bp.

Definition fsinit (dev : Z) : K unit :=
  readsb dev ;;
  let! sb := gets k_sb in
  if negb (sb_magic sb =? FSMAGIC) then panic "invalid file system"
  else initlog dev sb.

(** ** Blocks *)

Definition bzero (dev bno : Z) : K unit :=
  let! bp := bread (u32 dev) (u32 bno) in
  set_bdata bp (replicate (Z.to_nat BSIZE) 0) ;;
  log_write bp ;;
  brelse bp.

(** The inner loop of balloc: the first bit that is free in a bitmap block,
    from [bi] on. *)
Definition balloc_scan (b : Z) (bp : nat) : Z -> K (Z + option Z) :=
  fun bi =>
    let! sb := gets k_sb in
    if (bi <? BPB) && (b + bi <? sb_size sb)
    then
      let m := Z.shiftl 1 (bi mod 8) in
      let! d := bdata bp in
      let! byte := of_option (d !! Z.to_nat (bi / 8)) in
      if Z.land byte m =? 0                       (* Is block free? *)
      then
        set_bdata bp (<[Z.to_nat (bi / 8) := u8 (Z.lor byte m)]> d) ;;  (* Mark block in use. *)
        log_write bp ;;
        brelse bp ;;
        ret (inr (Some (b + bi)))
      else ret (inl (bi + 1))
    else ret (inr None).

(** One round of the outer loop: a bitmap block. *)
Definition balloc_round (dev b : Z) : K (Z + Z) :=
  let! sb := gets k_sb in
  if b <? sb_size sb
  then
    let! bp := bread dev (BBLOCK b (sb_bmapstart sb)) in
    let! r := loop (Z.to_nat BPB + 1) (balloc_scan b bp) 0 in
    match r with
    | Some blk => bzero dev blk ;; ret (inr blk)
    | None => brelse bp ;; ret (inl (b + BPB))
    end
  else
    printf (bytes_of "balloc: out of blocks" ++ newline) [] ;;
    ret (inr 0).

Definition balloc (dev : Z) : K Z :=
  let! sb := gets k_sb in
  loop (Z.to_nat (sb_size sb / BPB + 2)) (balloc_round dev) 0.

Definition bfree (dev b : Z) : K unit :=
  let! sb := gets k_sb in
  let! bp := bread (u32 dev) (BBLOCK b (sb_bmapstart sb)) in
  let bi := b mod BPB in
  let m := Z.shiftl 1 (bi mod 8) in
  let! d := bdata bp in
  let! byte := of_option (d !! Z.to_nat (bi / 8)) in
  if Z.land byte m =? 0 then panic "freeing free block"
  else
    set_bdata bp (<[Z.to_nat (bi / 8) := u8 (Z.land byte (Z.lnot m))]> d) ;;
    log_write bp ;;
    brelse bp.

(** ** Inodes *)

Definition iinit : K unit :=
  for_each (seq 0 ninode) (fun i => upd_inode i (set_i_lock (mk_sleeplock false 0))).

(** One round of iget's loop: entry [i], and the first free entry so far. *)
Definition iget_round (dev inum : Z) : nat * option nat -> K ((nat * option nat) + (nat + option nat)) :=
  fun '(i, empty) =>
    if (i <? ninode)%nat
    then
      let! ip := get_inode i in
      if (0 <? i_ref ip) && (i_dev ip =? dev) && (i_inum ip =? inum)
      then
        upd_inode i (fun n => set_i_ref (i_ref n + 1) n) ;;
        release LkItable ;;
        ret (inr (inl i))
      else
        (* Remember empty slot. *)
        let empty := match empty with
                     | None => if i_ref ip =? 0 then Some i else None
                     | Some _ => empty
                     end in
        ret (inl (S i, empty))
    else ret (inr (inr empty)).

Definition iget (dev inum : Z) : K nat :=
  acquire LkItable ;;
  (* Is the inode already in the table? *)
  let! r := loop (S ninode) (iget_round dev inum) (O, None) in
  match r with
  | inl i => ret i
  | inr None => panic "iget: no inodes"
  | inr (Some i) =>
      (* Recycle an inode entry. *)
      upd_inode i (set_i_dev dev) ;;
      upd_inode i (set_i_inum inum) ;;
      upd_inode i (set_i_ref 1) ;;
      upd_inode i (set_i_valid false) ;;
      release LkItable ;;
      ret i
  end.

Definition ialloc (dev type : Z) : K (option nat) :=
  let! sb := gets k_sb in
  loop (Z.to_nat (sb_ninodes sb) + 1) (fun inum =>
    let! sb := gets k_sb in
    if inum <? sb_ninodes sb
    then
      let! bp := bread dev (IBLOCK inum (sb_inodestart sb)) in
      let! d := bdata bp in
      let o := dinode_off inum in
      if di_type d o =? 0                      (* a free inode *)
      then
        set_bdata bp (put16 (put_at d o (replicate (Z.to_nat sizeof_dinode) 0)) o type) ;;
        log_write bp ;;                        (* mark it allocated on the disk *)
        brelse bp ;;
        let! i := iget dev inum in
        ret (inr (Some i))
      else
        brelse bp ;;
        ret (inl (inum + 1))
    else
      printf (bytes_of "ialloc: no inodes" ++ newline) [] ;;
      ret (inr None)) 1.

(** The dinode of an in-memory inode, stored at [o] of a block. *)
Definition put_dinode (d : list Z) (o : nat) (ip : inode) : list Z :=
  let d := put16 d o (i_type ip) in
  let d := put16 d (o + 2) (i_major ip) in
  let d := put16 d (o + 4) (i_minor ip) in
  let d := put16 d (o + 6) (i_nlink ip) in
  let d := put32 d (o + 8) (i_size ip) in
  put_addrs d (o + 12) (i_addrs ip).

Definition iupdate (ip : nat) : K unit :=
  let! n := get_inode ip in
  let! sb := gets k_sb in
  let! bp := bread (i_dev n) (IBLOCK (i_inum n) (sb_inodestart sb)) in
  let! n := get_inode ip in
  let! d := bdata bp in
  set_bdata bp (put_dinode d (dinode_off (i_inum n)) n) ;;
  log_write bp ;;
  brelse bp.

Definition idup (ip : nat) : K nat :=
  acquire LkItable ;;
  upd_inode ip (fun n => set_i_ref (i_ref n + 1) n) ;;
  release LkItable ;;
  ret ip.

Definition load_dinode (d : list Z) (o : nat) (n : inode) : inode :=
  set_i_addrs (di_addr d o <$> dinode_addrs)
    (set_i_size (di_size d o)
       (set_i_nlink (di_nlink d o)
          (set_i_minor (di_minor d o)
             (set_i_major (di_major d o)
                (set_i_type (di_type d o) n))))).

Definition ilock (ip : nat) : K unit :=
  let! n := get_inode ip in
  if i_ref n <? 1 then panic "ilock"
  else
    acquiresleep (inode_lock ip) ;;
    let! n := get_inode ip in
    if negb (i_valid n)
    then
      let! sb := gets k_sb in
      let! bp := bread (i_dev n) (IBLOCK (i_inum n) (sb_inodestart sb)) in
      let! d := bdata bp in
      upd_inode ip (load_dinode d (dinode_off (i_inum n))) ;;
      brelse bp ;;
      upd_inode ip (set_i_valid true) ;;
      let! n := get_inode ip in
      if i_type n =? 0 then panic "ilock: no type" else ret tt
    else ret tt.

Definition iunlock (ip : nat) : K unit :=
  let! h := holdingsleep (inode_lock ip) in
  let! n := get_inode ip in
  if negb h || (i_ref n <? 1) then panic "iunlock"
  else releasesleep (inode_lock ip).

(** ** Inode content *)

(** The entry [bn] of the indirect block at [addr], allocated if necessary. *)
Definition bmap_indirect (dev addr bn : Z) : K Z :=
  let! bp := bread dev addr in
  let! a := bdata bp in
  let addr := get32 a (4 * Z.to_nat bn) in
  let! addr :=
    (if addr =? 0
     then
       let! addr := balloc dev in
       when (negb (addr =? 0))
         (let! a := bdata bp in
          set_bdata bp (put32 a (4 * Z.to_nat bn) addr) ;;
          log_write bp) ;;
       ret addr
     else ret addr) in
  brelse bp ;;
  ret addr.

Definition bmap (ip : nat) (bn : Z) : K Z :=
  let! n := get_inode ip in
  if bn <? NDIRECT
  then
    let! addr := get_addr ip (Z.to_nat bn) in
    if addr =? 0
    then
      let! addr := balloc (i_dev n) in
      if addr =? 0 then ret 0
      else set_addr ip (Z.to_nat bn) addr ;; ret addr
    else ret addr
  else
    let bn := bn - NDIRECT in
    if bn <? NINDIRECT
    then
      (* Load indirect block, allocating if necessary. *)
      let! addr := get_addr ip (Z.to_nat NDIRECT) in
      if addr =? 0
      then
        let! addr := balloc (i_dev n) in
        if addr =? 0 then ret 0
        else
          set_addr ip (Z.to_nat NDIRECT) addr ;;
          bmap_indirect (i_dev n) addr bn
      else bmap_indirect (i_dev n) addr bn
    else panic "bmap: out of range".

Definition itrunc (ip : nat) : K unit :=
  let! n := get_inode ip in
  for_each (seq 0 (Z.to_nat NDIRECT)) (fun i =>
    let! a := get_addr ip i in
    when (negb (a =? 0))
      (bfree (i_dev n) a ;;
       set_addr ip i 0)) ;;
  let! ind := get_addr ip (Z.to_nat NDIRECT) in
  when (negb (ind =? 0))
    (let! bp := bread (i_dev n) ind in
     for_each (seq 0 (Z.to_nat NINDIRECT)) (fun j =>
       let! a := bdata bp in
       when (negb (get32 a (4 * j) =? 0)) (bfree (i_dev n) (get32 a (4 * j)))) ;;
     brelse bp ;;
     bfree (i_dev n) ind ;;
     set_addr ip (Z.to_nat NDIRECT) 0) ;;
  upd_inode ip (set_i_size 0) ;;
  iupdate ip.

Definition iput (ip : nat) : K unit :=
  acquire LkItable ;;
  let! n := get_inode ip in
  when ((i_ref n =? 1) && i_valid n && (i_nlink n =? 0))
    ((* inode has no links and no other references: truncate and free. *)
     acquiresleep (inode_lock ip) ;;
     release LkItable ;;
     itrunc ip ;;
     upd_inode ip (set_i_type 0) ;;
     iupdate ip ;;
     upd_inode ip (set_i_valid false) ;;
     releasesleep (inode_lock ip) ;;
     acquire LkItable) ;;
  upd_inode ip (fun n => set_i_ref (i_ref n - 1) n) ;;
  release LkItable.

Definition iunlockput (ip : nat) : K unit := iunlock ip ;; iput ip.

(** struct stat. *)
Record stat := mk_stat { st_dev : Z; st_ino : Z; st_type : Z; st_nlink : Z; st_size : Z }.

Definition stati (ip : nat) : K stat :=
  let! n := get_inode ip in
  ret (mk_stat (i_dev n) (i_inum n) (i_type n) (i_nlink n) (i_size n)).

(** One round of readi's loop: [tot] bytes read so far, [out] those bytes. *)
Definition readi_round (ip : nat) (n : Z) : Z * Z * kdst * list Z ->
    K ((Z * Z * kdst * list Z) + (Z * list Z)) :=
  fun '(tot, off, dst, out) =>
    if tot <? n
    then
      let! addr := bmap ip (off / BSIZE) in
      if addr =? 0 then ret (inr (s32 tot, out))
      else
        let! ino := get_inode ip in
        let! bp := bread (i_dev ino) addr in
        let m := Z.min (n - tot) (BSIZE - off mod BSIZE) in
        let! d := bdata bp in
        let bytes := get_at d (Z.to_nat (off mod BSIZE)) (Z.to_nat m) in
        let! r := either_copyout dst bytes in
        if r =? -1
        then brelse bp ;; ret (inr (-1, out))
        else
          brelse bp ;;
          ret (inl (tot + m, off + m, kdst_add dst m, out ++ bytes))
    else ret (inr (s32 tot, out)).

(** The number of bytes read, and the bytes. *)
Definition readi (ip : nat) (dst : kdst) (off n : Z) : K (Z * list Z) :=
  let! ino := get_inode ip in
  if (i_size ino <? off) || (u32 (off + n) <? off) then ret (0, [])
  else
    let n := if i_size ino <? u32 (off + n) then i_size ino - off else n in
    loop (Z.to_nat (n / BSIZE) + 3) (readi_round ip n) (0, off, dst, []).

(** One round of writei's loop. *)
Definition writei_round (ip : nat) (n : Z) : Z * Z * ksrc -> K ((Z * Z * ksrc) + (Z * Z)) :=
  fun '(tot, off, src) =>
    if tot <? n
    then
      let! addr := bmap ip (off / BSIZE) in
      if addr =? 0 then ret (inr (tot, off))
      else
        let! ino := get_inode ip in
        let! bp := bread (i_dev ino) addr in
        let m := Z.min (n - tot) (BSIZE - off mod BSIZE) in
        let! r := either_copyin src m in
        let! d := bdata bp in
        set_bdata bp (put_at d (Z.to_nat (off mod BSIZE)) r.2) ;;
        if r.1 =? -1
        then brelse bp ;; ret (inr (tot, off))
        else
          log_write bp ;;
          brelse bp ;;
          ret (inl (tot + m, off + m, ksrc_add src m))
    else ret (inr (tot, off)).

Definition writei (ip : nat) (src : ksrc) (off n : Z) : K Z :=
  let! ino := get_inode ip in
  if (i_size ino <? off) || (u32 (off + n) <? off) then ret (-1)
  else if MAXFILE * BSIZE <? u32 (off + n) then ret (-1)
  else
    let! r := loop (Z.to_nat (n / BSIZE) + 3) (writei_round ip n) (0, off, src) in
    let '(tot, off) := r in
    let! ino := get_inode ip in
    when (i_size ino <? off) (upd_inode ip (set_i_size off)) ;;
    (* write the i-node back to disk even if the size didn't change *)
    iupdate ip ;;
    ret (s32 tot).

(** ** Directories *)

(** One round of dirlookup's loop: the entry at offset [off]. *)
Definition dirlookup_round (dp : nat) (name : list Z) : Z -> K (Z + option (nat * Z)) := fun off =>
  let! d := get_inode dp in
  if off <? i_size d
  then
    let! r := readi dp DstLocal off sizeof_dirent in
    if negb (r.1 =? sizeof_dirent) then panic "dirlookup read"
    else if de_inum r.2 =? 0 then ret (inl (off + sizeof_dirent))
    else if namecmp name (de_name r.2) =? 0
    then
      (* entry matches path element *)
      let! ip := iget (i_dev d) (de_inum r.2) in
      ret (inr (Some (ip, off)))
    else ret (inl (off + sizeof_dirent))
  else ret (inr None).

(** The inode and its offset, if the name is found. *)
Definition dirlookup (dp : nat) (name : list Z) : K (option (nat * Z)) :=
  let! d := get_inode dp in
  if negb (i_type d =? T_DIR) then panic "dirlookup not DIR"
  else loop (Z.to_nat (i_size d / sizeof_dirent) + 2) (dirlookup_round dp name) 0.

(** One round of dirlink's search for an empty entry. *)
Definition dirlink_round (dp : nat) : Z -> K (Z + Z) := fun off =>
  let! d := get_inode dp in
  if off <? i_size d
  then
    let! r := readi dp DstLocal off sizeof_dirent in
    if negb (r.1 =? sizeof_dirent) then panic "dirlink read"
    else if de_inum r.2 =? 0 then ret (inr off)
    else ret (inl (off + sizeof_dirent))
  else ret (inr off).

Definition dirlink (dp : nat) (name : list Z) (inum : Z) : K Z :=
  (* Check that name is not present. *)
  let! r := dirlookup dp name in
  match r with
  | Some (ip, _) => iput ip ;; ret (-1)
  | None =>
      (* Look for an empty dirent. *)
      let! d := get_inode dp in
      let! off := loop (Z.to_nat (i_size d / sizeof_dirent) + 2) (dirlink_round dp) 0 in
      let de := le_bytes 2 inum ++ strncpy_bytes (Z.to_nat DIRSIZ) name in
      let! r := writei dp (SrcLocal de) off sizeof_dirent in
      if negb (r =? sizeof_dirent) then ret (-1) else ret 0
  end.

(** ** Paths *)

Definition is_slash (c : Z) : bool := c =? 47.

(** [while ( *path == '/') path++]. *)
Fixpoint skip_slashes (path : list Z) : list Z :=
  match path with
  | [] => []
  | c :: p => if is_slash c then skip_slashes p else path
  end.

(** The bytes up to the next slash or the end, and the rest. *)
Fixpoint take_elem (path : list Z) : list Z * list Z :=
  match path with
  | [] => ([], [])
  | c :: p => if is_slash c then ([], path)
              else let '(e, r) := take_elem p in (c :: e, r)
  end.

(** The rest of the path and [name]; None where the code returns 0. *)
Definition skipelem (path name : list Z) : option (list Z * list Z) :=
  let path := skip_slashes path in
  match path with
  | [] => None
  | _ =>
      let '(s, rest) := take_elem path in
      let len := Z.of_nat (length s) in
      let name :=
        if DIRSIZ <=? len then put_at name 0 (take (Z.to_nat DIRSIZ) s)
        else put_at name 0 (s ++ [0]) in
      Some (skip_slashes rest, name)
  end.

(** One round of namex's loop. *)
Definition namex_round (parent : bool) : list Z * list Z * nat ->
    K ((list Z * list Z * nat) + (option nat * list Z)) :=
  fun '(path, name, ip) =>
    match skipelem path name with
    | None =>
        if parent then iput ip ;; ret (inr (None, name))
        else ret (inr (Some ip, name))
    | Some (path, name) =>
        ilock ip ;;
        let! n := get_inode ip in
        if negb (i_type n =? T_DIR)
        then iunlockput ip ;; ret (inr (None, name))
        else if parent && bool_decide (path = [])
        then
          (* Stop one level early. *)
          iunlock ip ;; ret (inr (Some ip, name))
        else
          let! r := dirlookup ip name in
          match r with
          | None => iunlockput ip ;; ret (inr (None, name))
          | Some (next, _) =>
              iunlockput ip ;;
              ret (inl (path, name, next))
          end
    end.

(** The inode, and [name] as the walk leaves it. *)
Definition namex (path : list Z) (parent : bool) (name : list Z)
  : K (option nat * list Z) :=
  let! ip :=
    match path with
    | 47 :: _ => iget ROOTDEV ROOTINO
    | _ => let! p := curproc in let! cwd := of_option (p_cwd p) in idup cwd
    end in
  loop (S (length path)) (namex_round parent) (path, name, ip).

Definition empty_name : list Z := replicate (Z.to_nat DIRSIZ) 0.

Definition namei (path : list Z) : K (option nat) :=
  let! r := namex path false empty_name in ret r.1.

Definition nameiparent (path : list Z) : K (option nat * list Z) :=
  namex path true empty_name.
End Fs.
