(* ===== verification/Itable.v ===== *)
(** The inode table: iget and idup of kernel/fs.c keep one entry per inode in
    use, with its reference count. *)

From stdpp Require Import base numbers list gmap strings.
From S2P Require Import Prelude Params Mem State Locks Cache Console Log Fs.

Implicit Types (t : list inode) (n : inode).

(** An entry in use for inode [inum] of device [dev]. *)
Definition holds_inode (dev inum : Z) n : bool :=
  (0 <? i_ref n) && (i_dev n =? dev) && (i_inum n =? inum).

Definition recycle (dev inum : Z) n : inode :=
  set_i_valid false (set_i_ref 1 (set_i_inum inum (set_i_dev dev n))).

(** The first entry that satisfies [P]. *)
Definition find_inode (P : inode -> bool) t : option nat :=
  fst <$> list_find (fun n => P n = true) t.

(** iget as a function on the table. *)
Definition iget_table (dev inum : Z) t : option (nat * list inode) :=
  match find_inode (holds_inode dev inum) t with
  | Some i => Some (i, alter (fun n => set_i_ref (i_ref n + 1) n) i t)
  | None =>
      match find_inode (fun n => i_ref n =? 0) t with
      | Some i => Some (i, alter (recycle dev inum) i t)
      | None => None
      end
  end.

Section Iget.

Lemma run_get_inode {A} i n (k : inode -> K A) s :
  k_itable s !! i = Some n -> bind (get_inode i) k s = k n s.
Proof using Type. intros H. unfold get_inode. rewrite bind_assoc, run_gets, H. done. Qed.

Lemma run_upd_inode {A} i n f (k : unit -> K A) s :
  k_itable s !! i = Some n ->
  bind (upd_inode i f) k s = k tt (set_k_itable (<[i := f n]> (k_itable s)) s).
Proof using Type. intros H. unfold upd_inode. rewrite bind_assoc, (run_get_inode i n) by done. done. Qed.

(** The loop's memory of the first free entry among the first [i]. *)
Definition free_before t (i : nat) : option nat := find_inode (fun n => i_ref n =? 0) (take i t).

Lemma free_before_S t i n :
  t !! i = Some n ->
  free_before t (S i) = match free_before t i with
    | Some e => Some e
    | None => if i_ref n =? 0 then Some i else None
    end.
Proof using Type.
  intros Hn. unfold free_before, find_inode. rewrite (take_S_r _ _ _ Hn).
  destruct (list_find (fun n => (i_ref n =? 0) = true) (take i t)) as [[e m]|] eqn:E.
  - by rewrite (list_find_app_l _ _ _ _ _ E).
  - rewrite list_find_app_r by done.
    assert (length (take i t) = i) as -> by (rewrite length_take; apply lookup_lt_Some in Hn; lia).
    cbn. destruct (i_ref n =? 0) eqn:E0; [rewrite decide_True by done|rewrite decide_False by done]; cbn;
done.
Qed.

Lemma find_inode_take P t i n :
  t !! i = Some n -> find_inode P (take i t) = None ->
  find_inode P (take (S i) t) = None /\ P n = false \/
  find_inode P t = Some i /\ P n = true.
Proof using Type.
  intros Hn H. unfold find_inode in *. apply fmap_None in H.
  destruct (P n) eqn:E; [right|left]; (split; [|done]).
  - assert (list_find (fun n => P n = true) t = Some (i, n)) as ->; [|done].
    apply list_find_Some. split_and!; [done|done|]. intros j y Hj Hji.
    apply list_find_None in H. rewrite Forall_lookup in H. apply (H j). by rewrite lookup_take_lt.
  - rewrite (take_S_r _ _ _ Hn). apply fmap_None, list_find_app_None. split; [done|].
    cbn. by rewrite decide_False by congruence.
Qed.

Lemma iget_loop dev inum s h k i :
  length (k_itable s) = ninode -> k_held s = LkItable :: h -> (i + k = ninode)%nat ->
  find_inode (holds_inode dev inum) (take i (k_itable s)) = None ->
  loop (S k) (iget_round dev inum) (i, free_before (k_itable s) i) s =
  match find_inode (holds_inode dev inum) (k_itable s) with
  | Some j => Ret (inl j) (set_k_held h (set_k_itable
      (alter (fun n => set_i_ref (i_ref n + 1) n) j (k_itable s)) s))
  | None => Ret (inr (find_inode (fun n => i_ref n =? 0) (k_itable s))) s
  end.
Proof using Type.
  intros Hlen Hh. revert i. induction k as [|k IH]; intros i Hi Hnone; cbn [loop]; unfold iget_round at 1.
  - assert (i = ninode) as -> by lia. rewrite Nat.ltb_irrefl, run_ret.
    rewrite take_ge in Hnone by lia. rewrite Hnone. unfold free_before. by rewrite take_ge by lia.
  - assert (Hlt : (i < length (k_itable s))%nat) by lia.
    rewrite (proj2 (Nat.ltb_lt i ninode)) by lia.
    destruct (lookup_lt_is_Some_2 _ _ Hlt) as [n Hn]. rewrite bind_assoc, (run_get_inode i n) by done.
    fold (holds_inode dev inum n).
    destruct (find_inode_take (holds_inode dev inum) _ _ _ Hn Hnone) as [[H1 H2]|[H1 H2]]; rewrite H2.
    + rewrite run_ret, <- (IH (S i)) by (done || lia). rewrite (free_before_S _ _ _ Hn). cbn [loop].
      by destruct (free_before (k_itable s) i).
    + rewrite H1, (list_alter_insert _ _ _ _ Hn).
      rewrite bind_assoc, (run_upd_inode i n) by done. rewrite bind_assoc, (run_release _ h) by done. done.
Qed.

Lemma iget_run dev inum s :
  length (k_itable s) = ninode -> LkItable ∉ k_held s ->
  iget dev inum s =
  match iget_table dev inum (k_itable s) with
  | Some (i, t) => Ret i (set_k_itable t s)
  | None => Panic "iget: no inodes" (set_k_held (LkItable :: k_held s) s)
  end.
Proof using Type.
  intros Hlen Hl. unfold iget, iget_table. rewrite run_acquire by done.
  set (s1 := set_k_held _ s).
  pose proof (iget_loop dev inum s1 (k_held s) ninode 0 Hlen eq_refl eq_refl eq_refl) as E.
  change (free_before (k_itable s1) 0) with (@None nat) in E.
  change (k_itable s1) with (k_itable s) in E.
  destruct (find_inode (holds_inode dev inum) (k_itable s)) as [i|]; rewrite (bind_Ret _ _ _ _ _ E).
  - by destruct s.
  - destruct (find_inode (fun n => i_ref n =? 0) (k_itable s)) as [i|] eqn:Ef; [|done].
    unfold find_inode in Ef. apply fmap_Some in Ef as ([i' n] & Ef & ->).
    apply list_find_Some in Ef as (Hn & _ & _). cbn [fst].
    assert (Hi := lookup_lt_Some _ _ _ Hn).
    rewrite (list_alter_insert _ _ _ _ Hn), (run_upd_inode i' n) by done.
    unfold s1. ks. do 3 (erewrite run_upd_inode by (ks; apply list_lookup_insert_eq; rewrite ?length_insert; lia); ks;
      rewrite list_insert_insert_eq).
    rewrite (run_release _ (k_held s)) by done. unfold ret, recycle. by destruct s.
Qed.
End Iget.

(** ** The table's invariant *)

(** At most one entry per inode in use, and no negative count. *)
Record itable_ok t : Prop := {
  it_len : length t = ninode;
  it_refs : Forall (fun n => 0 <= i_ref n) t;
  it_unique : forall i j n m, t !! i = Some n -> t !! j = Some m -> 0 < i_ref n -> 0 < i_ref m ->
    i_dev n = i_dev m -> i_inum n = i_inum m -> i = j;
}.

(** The references to an inode, summed over the table. *)
Definition refs (dev inum : Z) t : Z :=
  foldr (fun n acc => (if holds_inode dev inum n then i_ref n else 0) + acc) 0 t.

Definition contrib (dev inum : Z) n : Z := if holds_inode dev inum n then i_ref n else 0.

Lemma refs_insert dev inum t i n m :
  t !! i = Some n ->
  refs dev inum (<[i := m]> t) = refs dev inum t - contrib dev inum n + contrib dev inum m.
Proof.
  unfold refs, contrib. revert i. induction t as [|x t IH]; intros i Hi; [done|].
  destruct i as [|i].
  - injection Hi as ->. change (<[0%nat:=m]> (n :: t)) with (m :: t). cbn [foldr]. lia.
  - change (<[S i:=m]> (x :: t)) with (x :: <[i:=m]> t). cbn [foldr]. rewrite (IH i) by done. lia.
Qed.

Lemma holds_inode_spec dev inum n :
  holds_inode dev inum n = true <-> 0 < i_ref n /\ i_dev n = dev /\ i_inum n = inum.
Proof. unfold holds_inode. rewrite !andb_true_iff, Z.ltb_lt, !Z.eqb_eq. tauto. Qed.

Lemma find_inode_Some P t i :
  find_inode P t = Some i -> exists n, t !! i = Some n /\ P n = true.
Proof.
  unfold find_inode. intros ([j n] & E & ->)%fmap_Some. apply list_find_Some in E as (? & ? & _). by exists n.
Qed.

Lemma find_inode_None P t i n : find_inode P t = None -> t !! i = Some n -> P n = false.
Proof.
  unfold find_inode. intros H%fmap_None Hn. apply list_find_None in H.
  rewrite Forall_lookup in H. specialize (H _ _ Hn). by destruct (P n).
Qed.

(** One entry changes to one for the inode it already held, or for an inode
    that no other entry holds. *)
Lemma itable_ok_insert t i n m :
  itable_ok t -> t !! i = Some n -> 0 <= i_ref m ->
  (forall j k, t !! j = Some k -> j <> i -> 0 < i_ref k -> ~ (i_dev k = i_dev m /\ i_inum k = i_inum m)) ->
  itable_ok (<[i := m]> t).
Proof.
  intros [H1 H2 H3] Hn Hm Hu. split; [by rewrite length_insert|by apply Forall_insert|].
  intros a b x y Ha Hb Hx Hy Hd Hi. apply list_lookup_insert_Some in Ha, Hb.
  destruct Ha as [(<- & <- & _)|[Hai Ha]], Hb as [(<- & <- & _)|[Hbi Hb]]; try done.
  - destruct (Hu b y Hb); [done|done|done].
  - destruct (Hu a x Ha); [done|done|done].
  - by eapply H3.
Qed.

Lemma contrib_other dev inum dev' inum' n :
  (i_dev n, i_inum n) = (dev, inum) -> (dev', inum') <> (dev, inum) -> contrib dev' inum' n = 0.
Proof.
  intros [= <- <-] Hne. unfold contrib. destruct (holds_inode dev' inum' n) eqn:E; [|done].
  apply holds_inode_spec in E as (_ & <- & <-). done.
Qed.

Lemma contrib_self n : 0 <= i_ref n -> contrib (i_dev n) (i_inum n) n = i_ref n.
Proof.
  intros H. unfold contrib. destruct (holds_inode (i_dev n) (i_inum n) n) eqn:E; [done|].
  unfold holds_inode in E. rewrite !Z.eqb_refl, !andb_true_r in E. apply Z.ltb_ge in E. lia.
Qed.

(** [t'] is [t] with one reference more to inode [inum] of [dev], at entry
    [i]. *)
Record one_more (dev inum : Z) t (i : nat) (t' : list inode) : Prop := {
  om_ok : itable_ok t';
  om_entry : exists n, t' !! i = Some n /\ i_dev n = dev /\ i_inum n = inum /\ 0 < i_ref n;
  om_refs : refs dev inum t' = refs dev inum t + 1;
  om_others : forall dev' inum', (dev', inum') <> (dev, inum) -> refs dev' inum' t' = refs dev' inum' t;
}.

Lemma one_more_inc t i n :
  itable_ok t -> t !! i = Some n -> 0 < i_ref n ->
  one_more (i_dev n) (i_inum n) t i (<[i := set_i_ref (i_ref n + 1) n]> t).
Proof.
  intros Hok Hn Hr. split.
  - eapply itable_ok_insert; [done|done|cbn; lia|].
    intros j k Hk Hji Hkr [Hd Hi]. apply Hji. by eapply (it_unique _ Hok).
  - eexists. split; [apply list_lookup_insert_eq; by eapply lookup_lt_Some|]. split_and!; try done. cbn. lia.
  - rewrite (refs_insert _ _ _ _ n) by done.
    pose proof (contrib_self n). pose proof (contrib_self (set_i_ref (i_ref n + 1) n)). cbn in *. lia.
  - intros d' u' Hne. rewrite (refs_insert _ _ _ _ n) by done.
    rewrite !(contrib_other (i_dev n) (i_inum n)) by done. lia.
Qed.

Lemma one_more_recycle dev inum t i n :
  itable_ok t -> t !! i = Some n -> i_ref n = 0 -> find_inode (holds_inode dev inum) t = None ->
  one_more dev inum t i (<[i := recycle dev inum n]> t).
Proof.
  intros Hok Hn Hr Hf.
  assert (Hz : forall d u, contrib d u n = 0).
  { intros d u. unfold contrib. destruct (holds_inode d u n) eqn:E; [|done]. apply holds_inode_spec in E. lia. }
  split.
  - eapply itable_ok_insert; [done|done|cbn; lia|].
    intros j k Hk Hji Hkr [Hd Hi]. apply (find_inode_None _ _ _ _ Hf) in Hk.
    assert (holds_inode dev inum k = true) by (by apply holds_inode_spec). congruence.
  - eexists. split; [apply list_lookup_insert_eq; by eapply lookup_lt_Some|]. done.
  - rewrite (refs_insert _ _ _ _ n), Hz by done. pose proof (contrib_self (recycle dev inum n)). cbn in *. lia.
  - intros d' u' Hne. rewrite (refs_insert _ _ _ _ n), Hz by done.
    rewrite (contrib_other dev inum d' u' (recycle dev inum n)) by done. lia.
Qed.

Lemma refs_none dev inum t : find_inode (holds_inode dev inum) t = None -> refs dev inum t = 0.
Proof.
  intros Hf. assert (Hall : Forall (fun n => holds_inode dev inum n = false) t).
  { apply Forall_lookup. intros i n. by apply find_inode_None. }
  clear Hf. induction Hall as [|x t Hx _ IH]; [done|]. unfold refs in *. cbn [foldr]. by rewrite Hx, IH.
Qed.

Lemma iget_table_spec dev inum t :
  itable_ok t ->
  match iget_table dev inum t with
  | Some (i, t') => one_more dev inum t i t'
  | None => refs dev inum t = 0 /\ Forall (fun n => 0 < i_ref n) t
  end.
Proof.
  intros Hok. unfold iget_table.
  destruct (find_inode (holds_inode dev inum) t) as [i|] eqn:Ef.
  - apply find_inode_Some in Ef as (n & Hn & (Hr & <- & <-)%holds_inode_spec).
    rewrite (list_alter_insert _ _ _ _ Hn). by apply one_more_inc.
  - destruct (find_inode (fun n => i_ref n =? 0) t) as [i|] eqn:Ee.
    + apply find_inode_Some in Ee as (n & Hn & Hr%Z.eqb_eq).
      rewrite (list_alter_insert _ _ _ _ Hn). by apply one_more_recycle.
    + split; [by apply refs_none|]. apply Forall_lookup. intros i n Hn.
      apply (find_inode_None _ _ _ _ Ee) in Hn as Hne. apply Z.eqb_neq in Hne.
      pose proof (it_refs _ Hok) as Hp. rewrite Forall_lookup in Hp. specialize (Hp _ _ Hn). cbn in Hp. lia.
Qed.

(** The inode table: iget returns an entry that holds exactly the inode
    asked for, the entry already in use for it when there is one, so that
    two entries never stand for the same inode; the inode's references grow
    by one and those of every other inode stay. Only when all NINODE entries
    are in use, none of them for this inode, does it panic. idup counts one
    reference more for the same inode. *)
Theorem iget_keeps_one_entry dev inum s :
  itable_ok (k_itable s) -> LkItable ∉ k_held s ->
  ((exists i t, iget dev inum s = Ret i (set_k_itable t s) /\ one_more dev inum (k_itable s) i t) \/
   iget dev inum s = Panic "iget: no inodes" (set_k_held (LkItable :: k_held s) s) /\
     refs dev inum (k_itable s) = 0 /\ Forall (fun n => 0 < i_ref n) (k_itable s)) /\
  (forall i n, k_itable s !! i = Some n -> 0 < i_ref n ->
     exists t, idup i s = Ret i (set_k_itable t s) /\
       one_more (i_dev n) (i_inum n) (k_itable s) i t).
Proof.
  intros Hok Hl. split.
  - rewrite iget_run by (done || apply Hok). pose proof (iget_table_spec dev inum _ Hok) as Hs.
    destruct (iget_table dev inum (k_itable s)) as [[i t]|]; [left; by exists i, t|by right].
  - intros i n Hn Hr. unfold idup. rewrite run_acquire by done.
    rewrite (run_upd_inode i n) by done. rewrite (run_release _ (k_held s)) by done.
    eexists. split; [unfold ret; f_equal; by destruct s|]. by apply one_more_inc.
Qed.

Lemma iget_keeps_one_entry_witness :
  exists i t, iget 1 7 (kstate0 ∅ empty_disk) = Ret i (set_k_itable t (kstate0 ∅ empty_disk)) /\
    one_more 1 7 (replicate ninode zero_inode) i t.
Proof.
  destruct (iget_keeps_one_entry 1 7 (kstate0 ∅ empty_disk)) as [[Hi|(_ & _ & Hall)] _].
  - split; [reflexivity|by apply Forall_replicate|].
    intros i j n m Hn _ Hr. apply lookup_replicate in Hn as [-> _]. cbn in Hr. lia.
  - apply not_elem_of_nil.
  - exact Hi.
  - exfalso. apply (Forall_lookup_1 _ _ 0 zero_inode) in Hall; [cbn in Hall; lia|reflexivity].
Defined.
