(* ===== verification/FsTx.v ===== *)
(** What the file system does to blocks between begin_op and end_op.

    [intx o s0 V bl H s] is the state of the cache and the log as fs.c sees
    it: block [b] contains [V b] (changes not yet on disk included), the
    blocks [bl] are in the log, the process holds the buffers [H], [o] system
    calls are outstanding, and everything else of the kernel is as in [s0].
    The rules say what bread, a look at the data, a store followed by
    log_write, and brelse do to it. *)

From Stdlib Require Import FunctionalExtensionality.
From stdpp Require Import base numbers list gmap strings.
From S2P Require Import Prelude Params Mem State Locks Cache Log Fs.

Section Tx.
Context {W : Wakeups} {C : BlockCache} (pid start size_ : Z).
Implicit Types (V : Z -> list Z) (H : gmap Z nat) (bl : list Z).

Record intx (o : Z) (s0 : kstate) V bl H (s : kstate) : Prop := {
  it_held : k_held s0 = [];
  it_st : exists lg, St pid s0 V (list_to_set bl) H (k_disk s0) lg s /\
    logged start size_ lg bl /\ l_outstanding lg = o /\ l_committing lg = false /\
    (forall b, b ∉ bl -> V b = dblk (k_disk s0) b);
  it_blocks : blocks_ok start size_ bl;
  it_hdr : hdr_is (V start) [];
}.

(** Room in the cache for one more buffer. *)
Definition room bl H : Prop := (length bl + size H < nbuf)%nat.

Context (Hgeo : geometry start size_).

Lemma intx_block o s0 V bl H s b : intx o s0 V bl H s -> block_ok (V b).
Proof using Type.
  intros [_ (lg & Hs & _) _ _]. exact (cache_block _ _ _ _ _ b (st_inv _ _ _ _ _ _ _ _ Hs)).
Qed.

Lemma intx_length o s0 V bl H s b : intx o s0 V bl H s -> length (V b) = Z.to_nat BSIZE.
Proof using Type. intros Ht. by destruct (intx_block _ _ _ _ _ _ b Ht). Qed.

(** The rest of the kernel state. *)
Lemma intx_rest o s0 V bl H s :
  intx o s0 V bl H s ->
  k_sb s = k_sb s0 /\ k_itable s = k_itable s0 /\ k_held s = [] /\ k_cur s = k_cur s0 /\
  k_mem s = k_mem s0 /\ k_freelist s = k_freelist s0 /\ k_ftable s = k_ftable s0.
Proof using Type.
  intros [Hh (lg & [_ _ _ (bs & d' & ps & lg' & _ & ->)] & _) _ _]. by rewrite <- Hh.
Qed.

Lemma wp_tx_bread o s0 V bl H s b (Q : nat -> kstate -> Prop) :
  intx o s0 V bl H s -> H !! b = None -> room bl H ->
  (forall i s', intx o s0 V bl (<[b := i]> H) s' -> Q i s') ->
  wp (bread ROOTDEV b) Q s.
Proof using Type.
  clear Hgeo. intros [Hh (lg & Hs & Hl & Ho & Hc & Hcl) Hb Hhd] HN Hr HQ.
  eapply wp_bread; [done|exact Hs|done| |].
  { right. unfold room in Hr. rewrite <- size_dom in Hr.
    assert (size (list_to_set bl : gset Z) <= length bl)%nat.
    { change (length (elements (list_to_set bl : gset Z)) <= length bl)%nat.
      apply submseteq_length, NoDup_submseteq.
      - apply NoDup_elements.
      - intros x Hx. by rewrite elem_of_elements, elem_of_list_to_set in Hx. }
    pose proof (size_union_alt (list_to_set bl : gset Z) (dom H)) as E.
    assert (size (dom H ∖ (list_to_set bl : gset Z)) <= size (dom H))%nat.
    { apply subseteq_size. set_solver. }
    lia. }
  intros i s' Hs'. apply HQ. split; try done. by exists lg.
Qed.

Lemma wp_tx_bdata o s0 V bl H s b i (Q : list Z -> kstate -> Prop) :
  intx o s0 V bl H s -> H !! b = Some i -> Q (V b) s -> wp (bdata i) Q s.
Proof using Type. intros [_ (lg & Hs & _) _ _] Hi HQ. by eapply wp_bdata. Qed.

Lemma wp_tx_brelse o s0 V bl H s b i (Q : unit -> kstate -> Prop) :
  intx o s0 V bl H s -> H !! b = Some i ->
  (forall s', intx o s0 V bl (delete b H) s' -> Q tt s') ->
  wp (brelse i) Q s.
Proof using Type.
  intros [Hh (lg & Hs & Hl & Ho & Hc & Hcl) Hb Hhd] Hi HQ.
  eapply wp_brelse; [done|exact Hs|done| |].
  { destruct (decide (b ∈ bl)); [left; by rewrite elem_of_list_to_set|right; by apply Hcl]. }
  intros s' Hs'. apply HQ. split; try done. by exists lg.
Qed.

Lemma elem_of_add_block bl b x : x ∈ add_block bl b <-> x ∈ bl \/ x = b.
Proof using Type.
  clear Hgeo. unfold add_block. case_decide; [|rewrite elem_of_app, list_elem_of_singleton; tauto].
  split; [tauto|]. by intros [?| ->].
Qed.

Lemma length_add_block bl b : (length bl <= length (add_block bl b) <= S (length bl))%nat.
Proof using Type.
  clear Hgeo. unfold add_block. case_decide; [lia|]. rewrite length_app. simpl. lia.
Qed.

Lemma put_block_ok d i v :
  block_ok d -> is_bytes v -> (i + length v <= Z.to_nat BSIZE)%nat -> block_ok (put_at d i v).
Proof using Type.
  clear Hgeo. intros [Hl Hb] Hv Hi. split; [rewrite length_put_at; lia|]. by apply put_at_bytes.
Qed.

(** A store and its log_write. *)
Lemma wp_tx_update_end o s0 V bl H s b i v (Q : unit -> kstate -> Prop) :
  intx o s0 V bl H s -> 1 <= o -> H !! b = Some i -> block_ok v ->
  data_block start size_ b -> Z.of_nat (length bl) < size_ - 1 ->
  (forall s', intx o s0 (vupd V b v) (add_block bl b) H s' -> Q tt s') ->
  wp (set_bdata i v ;; log_write i) Q s.
Proof using Hgeo.
  intros [Hh (lg & Hs & Hl & Ho & Hc & Hcl) Hb Hhd] H1 Hi Hv Hd Hlt HQ.
  apply wp_bind. eapply wp_set_bdata; [exact Hs|done|done|]. intros s1 Hs1.
  eapply (log_write_ok pid s0 Hh start size_ Hgeo); [exact Hs1|done..|lia|].
  intros s2 lg2 Hs2 Hl2 [Ho2 Hc2]. apply HQ. split; [done| |by apply blocks_ok_add|].
  2:{ rewrite vupd_ne; [done|]. intros <-. by apply Hd, (start_in_log _ _ Hgeo). }
  exists lg2. split_and!; [done|done|congruence|congruence|].
  intros x Hx. rewrite elem_of_add_block in Hx. rewrite vupd_ne by tauto. apply Hcl. tauto.
Qed.

Lemma wp_tx_update {A} o s0 V bl H s b i v (k : unit -> K A) (Q : A -> kstate -> Prop) :
  intx o s0 V bl H s -> 1 <= o -> H !! b = Some i -> block_ok v ->
  data_block start size_ b -> Z.of_nat (length bl) < size_ - 1 ->
  (forall s', intx o s0 (vupd V b v) (add_block bl b) H s' -> wp (k tt) Q s') ->
  wp (set_bdata i v ;; let! u := log_write i in k u) Q s.
Proof using Hgeo.
  intros Ht H1 Hi Hv Hd Hlt HQ. apply wp_bind.
  eapply wp_mono.
  - apply (wp_bind_inv (set_bdata i v) (fun _ => log_write i)).
    apply (wp_tx_update_end o s0 V bl H s b i v (fun u => wp (k u) Q)); done.
  - cbv beta. intros [] s' Hs'. by apply wp_bind.
Qed.

Lemma intx_itable o s0 V bl H s t :
  intx o s0 V bl H s -> intx o (set_k_itable t s0) V bl H (set_k_itable t s).
Proof using Type.
  intros [Hh (lg & [Hi Hd Hl (bs & d' & ps & lg' & Hw & ->)] & Hr) Hb Hhd].
  split; [done| |done|done]. exists lg. split; [|done]. split; ks; [|done|done|].
  - by eapply cache_frame.
  - exists bs, d', ps, lg'. split; [done|]. by destruct s0.
Qed.

(** ** Inodes in memory *)

Lemma wp_tx_get_inode o s0 V bl H s ip n (Q : inode -> kstate -> Prop) :
  intx o s0 V bl H s -> k_itable s0 !! ip = Some n -> Q n s -> wp (get_inode ip) Q s.
Proof using Type.
  intros Ht Hn HQ. unfold get_inode. wp_steps. eapply wp_of_option; [|done].
  destruct (intx_rest _ _ _ _ _ _ Ht) as (_ & -> & _). done.
Qed.

Lemma wp_tx_upd_inode o s0 V bl H s ip n f (Q : unit -> kstate -> Prop) :
  intx o s0 V bl H s -> k_itable s0 !! ip = Some n ->
  (forall s', intx o (set_k_itable (<[ip := f n]> (k_itable s0)) s0) V bl H s' -> Q tt s') ->
  wp (upd_inode ip f) Q s.
Proof using Type.
  intros Ht Hn HQ. unfold upd_inode. apply wp_bind. eapply wp_tx_get_inode; [done..|].
  wp_steps. apply HQ. destruct (intx_rest _ _ _ _ _ _ Ht) as (_ & -> & _). by apply intx_itable.
Qed.

Lemma wp_tx_sb o s0 V bl H s (Q : superblock -> kstate -> Prop) :
  intx o s0 V bl H s -> Q (k_sb s0) s -> wp (gets k_sb) Q s.
Proof using Type.
  intros Ht HQ. apply wp_gets. by destruct (intx_rest _ _ _ _ _ _ Ht) as (-> & _).
Qed.

(** ** System calls *)

(** What a crash during a system call that takes [V] to [V'] leads to. *)
Definition crash_atomic V V' (d : disk) (ws : list (Z * list Z)) : Prop :=
  forall ws1 ws2, ws = ws1 ++ ws2 ->
    recovers_to start size_ (writes ws1 d) V \/ recovers_to start size_ (writes ws1 d) V'.

Lemma wp_tx_begin V s (Q : unit -> kstate -> Prop) :
  quiescent start size_ pid V s ->
  (forall s', intx 1 s V [] ∅ s' -> Q tt s') -> wp begin_op Q s.
Proof using Hgeo.
  intros (Hh & Hc & [Hl Ho Hcm Hhd]) HQ.
  assert (Hs : St pid s V ∅ ∅ (k_disk s) (k_log s) s) by (by split).
  eapply (begin_op_ok pid s Hh); [exact Hs|done|done|apply Hl|]. intros s1 Hs1.
  apply HQ. split; [done| |by apply (blocks_ok_nil _ _ Hgeo)|done].
  exists (set_l_outstanding 1 (k_log s)). split_and!; try done; [destruct Hl; by split|].
  intros b _. eapply cache_clean; [exact Hc|set_solver|apply lookup_empty].
Qed.

(** end_op of the only system call commits: afterwards the contents are on
    disk, and a crash on the way leads to the contents before the call or to
    those after it. *)
Lemma wp_tx_end s0 V0 V bl s (Q : unit -> kstate -> Prop) :
  intx 1 s0 V bl ∅ s -> (forall b, V0 b = dblk (k_disk s0) b /\ block_ok (V0 b)) ->
  (forall s' V' ws, quiescent start size_ pid V' s' ->
     (forall b, ~ in_log start size_ b -> V' b = V b /\ dblk (k_disk s') b = V b) ->
     k_disk s' = writes ws (k_disk s0) -> crash_atomic V0 V (k_disk s0) ws ->
     log_frame s0 s' -> Q tt s') ->
  wp end_op Q s.
Proof using Hgeo.
  intros [Hh (lg & Hs & Hl & Ho & Hc & Hcl) Hb Hhd] HV0 HQ.
  set (d := k_disk s0) in *.
  assert (HV : forall b, block_ok (V b)) by (intros; eapply cache_block, Hs).
  assert (Hbd := bl_data _ _ _ Hb).
  assert (HdV : dblk d = V0) by (apply functional_extensionality; intros; by destruct (HV0 x)).
  assert (Hdok : disk_ok d) by (intros b; rewrite HdV; apply HV0).
  eapply (end_op_ok pid s0 Hh start size_ Hgeo); [exact Hs|done..|].
  intros s' lg' ws Hws Hs' Hl' Ho' Hc'.
  assert (Hclean : forall b, vwrites ws V b = dblk (k_disk s') b).
  { intros b. eapply cache_clean; [apply Hs'|set_solver|apply lookup_empty]. }
  assert (Hfin : hdr_is (vwrites ws V start) [] /\
    forall b, ~ in_log start size_ b -> vwrites ws V b = V b).
  { destruct (decide (bl = [])); subst ws; [done|]. by apply (commit_writes_final start size_ Hgeo). }
  destruct Hfin as [Hf1 Hf2]. apply (HQ s' (vwrites ws V) ws).
  - split_and!; [by eapply st_held|apply Hs'|].
    rewrite (st_disk _ _ _ _ _ _ _ _ Hs'), (st_log _ _ _ _ _ _ _ _ Hs'). by split.
  - intros b Hb'. rewrite <- Hclean. by rewrite Hf2.
  - apply Hs'.
  - intros ws1 ws2 E. destruct (decide (bl = [])) as [->|Hne]; subst ws.
    + symmetry in E. apply app_eq_nil in E as [-> ->]. left. change (writes [] d) with d.
      split; [done|]. exists []. split_and!; [by apply (blocks_ok_nil _ _ Hgeo)| |by rewrite HdV].
      rewrite <- Hcl; [done|apply not_elem_of_nil].
    + rewrite <- HdV. eapply (crash_in_commit start size_ Hgeo); [done|done|done| |done|exact E].
      rewrite <- Hcl; [done|]. intros Hin. rewrite Forall_forall in Hbd.
      by apply (Hbd start Hin), (start_in_log _ _ Hgeo).
  - apply Hs'.
Qed.
End Tx.
