(* ===== verification/FsBlocks.v ===== *)
(** The block bitmap: bzero, balloc and bfree of kernel/fs.c allocate and free
    disk blocks as a set. *)

From stdpp Require Import base numbers list gmap strings.
From S2P Require Import Prelude Params Mem State Locks Cache Console Log Fs FsTx.

(** ** The bitmap *)

(** The first block after the bitmap: what lies before it is meta data. *)
Definition dstart (sb : superblock) : Z := sb_bmapstart sb + sb_size sb / BPB + 1.

(** The block and the byte that hold the bit of block [b], and the bit. *)
Definition bm_block (sb : superblock) (b : Z) : Z := sb_bmapstart sb + b / BPB.
Definition bm_byte (b : Z) : nat := Z.to_nat (b mod BPB / 8).
Definition used (sb : superblock) (V : Z -> list Z) (b : Z) : bool :=
  Z.testbit (default 0 (V (bm_block sb b) !! bm_byte b)) (b mod 8).

(** The layout mkfs gives a disk: boot block, superblock, log, inodes, bitmap,
    data. *)
Record fs_layout (start size_ : Z) (sb : superblock) : Prop := {
  fl_log : 0 <= start /\ start + size_ <= sb_inodestart sb;
  fl_inodes : sb_inodestart sb <= sb_bmapstart sb;
  fl_data : dstart sb <= sb_size sb;
  fl_size : sb_size sb < 2 ^ 31;
}.

(** Meta data are in use. *)
Definition meta_used (sb : superblock) (V : Z -> list Z) : Prop :=
  forall b, 0 <= b < dstart sb -> used sb V b = true.

(** Setting and clearing a bit of a byte. *)
Lemma u8_testbit y k : 0 <= k < 8 -> Z.testbit (u8 y) k = Z.testbit y k.
Proof. intros Hk. unfold u8. change 256 with (2 ^ 8). apply Z.mod_pow2_bits_low. lia. Qed.

Definition put_bit (u : bool) (x n : Z) : Z :=
  if u then u8 (Z.lor x (Z.shiftl 1 n)) else u8 (Z.land x (Z.lnot (Z.shiftl 1 n))).

Lemma put_bit_testbit u x n k :
  0 <= n < 8 -> 0 <= k < 8 ->
  Z.testbit (put_bit u x n) k = if decide (k = n) then u else Z.testbit x k.
Proof.
  intros Hn Hk. unfold put_bit. destruct u; rewrite u8_testbit by done.
  - rewrite Z.lor_spec, Z.shiftl_1_l, Z.pow2_bits_eqb by lia.
    destruct (Z.eqb_spec n k) as [->|]; case_decide; subst; try done;
      rewrite ?orb_true_r, ?orb_false_r; done.
  - rewrite Z.land_spec, Z.lnot_spec, Z.shiftl_1_l, Z.pow2_bits_eqb by lia.
    destruct (Z.eqb_spec n k) as [->|]; case_decide; subst; try done;
      rewrite ?andb_false_r, ?andb_true_r; done.
Qed.

(** The contents after the bit of [b] is changed. *)
Definition bm_data (sb : superblock) (u : bool) (V : Z -> list Z) (b : Z) : list Z :=
  let d := V (bm_block sb b) in
  <[bm_byte b := put_bit u (default 0 (d !! bm_byte b)) (b mod 8)]> d.
Definition mark (sb : superblock) (u : bool) (V : Z -> list Z) (b : Z) : Z -> list Z :=
  vupd V (bm_block sb b) (bm_data sb u V b).

Lemma bm_byte_lt b : (bm_byte b < Z.to_nat BSIZE)%nat.
Proof. unfold bm_byte. plia. Qed.

Lemma bm_data_ok sb u V b : block_ok (V (bm_block sb b)) -> block_ok (bm_data sb u V b).
Proof.
  intros [Hl Hb]. split; unfold bm_data; [by rewrite length_insert|].
  apply Forall_insert; [done|]. unfold put_bit. destruct u; apply u8_range.
Qed.

Lemma used_mark sb u V b x :
  length (V (bm_block sb b)) = Z.to_nat BSIZE -> 0 <= b -> 0 <= x ->
  used sb (mark sb u V b) x = if decide (x = b) then u else used sb V x.
Proof.
  intros Hl Hb Hx. unfold used, mark, vupd. pose proof (bm_byte_lt b) as Hlt.
  destruct (decide (bm_block sb x = bm_block sb b)) as [E|E].
  2:{ case_decide as E'; [by subst|done]. }
  rewrite E. unfold bm_data. destruct (decide (bm_byte x = bm_byte b)) as [E2|E2].
  - rewrite E2, list_lookup_insert_eq by lia. change (default 0 (Some ?z)) with z. rewrite put_bit_testbit by dlia.
    do 2 case_decide; try done; subst; try done. exfalso.
    unfold bm_block, bm_byte in *. plia.
  - rewrite list_lookup_insert_ne by done. case_decide as E'; [by subst|done].
Qed.

(** ** Allocating and freeing *)

Section Alloc.
Context {W : Wakeups} {C : BlockCache} (pid start size_ : Z).
Context (Hgeo : geometry start size_).
Implicit Types (V : Z -> list Z) (H : gmap Z nat) (bl : list Z) (sb : superblock).
Notation intx := (intx pid start size_).

Definition zero_block : list Z := replicate (Z.to_nat BSIZE) 0.

Lemma zero_block_ok : block_ok zero_block.
Proof using Type. split; [apply length_replicate|by apply Forall_replicate]. Qed.

(** Blocks that the log may hold: every block outside it. *)
Lemma layout_block sb b : fs_layout start size_ sb ->
  sb_inodestart sb <= b < sb_size sb -> data_block start size_ b.
Proof using Hgeo.
  intros [H1 H2 H3 H4] Hb. destruct Hgeo. split; [lia|]. unfold in_log. lia.
Qed.

Lemma bm_block_range sb b : fs_layout start size_ sb -> 0 <= b < sb_size sb ->
  sb_bmapstart sb <= bm_block sb b < dstart sb.
Proof using Type. intros Hl Hb. unfold bm_block, dstart. plia. Qed.

Lemma BBLOCK_bm sb b : fs_layout start size_ sb -> 0 <= b < sb_size sb ->
  BBLOCK b (sb_bmapstart sb) = bm_block sb b.
Proof using Hgeo.
  intros Hl Hb. destruct Hgeo as [G1 G2 _]. pose proof (bm_block_range sb b Hl Hb). destruct Hl as [L1 L2 L3 L4].
  unfold BBLOCK, bm_block in *. rewrite u32_small; lia.
Qed.

Lemma wp_bzero o s0 V bl H s b (Q : unit -> kstate -> Prop) :
  intx o s0 V bl H s -> 1 <= o -> H !! b = None -> room bl H ->
  data_block start size_ b -> Z.of_nat (length bl) < size_ - 1 ->
  (forall s', intx o s0 (vupd V b zero_block) (add_block bl b) H s' -> Q tt s') ->
  wp (bzero ROOTDEV b) Q s.
Proof using Hgeo.
  intros Ht Ho HN Hr Hd Hlt HQ. unfold bzero.
  assert (u32 ROOTDEV = ROOTDEV) as -> by done. rewrite (u32_small b) by (destruct Hd; lia).
  apply wp_bind. eapply wp_tx_bread; [exact Ht|done|done|]. intros i s1 Ht1.
  eapply wp_tx_update; [done|exact Ht1|done|apply lookup_insert_eq|apply zero_block_ok|done|done|].
  intros s2 Ht2. eapply wp_tx_brelse; [exact Ht2|apply lookup_insert_eq|].
  intros s3 Ht3. rewrite delete_insert_id in Ht3 by done. by apply HQ.
Qed.

(** Looking at the bit of block [b + bi]. *)
Lemma balloc_scan_round o s0 V bl H s sb b i bi (Q : Z + option Z -> kstate -> Prop) :
  intx o s0 V bl H s -> k_sb s0 = sb -> b mod BPB = 0 -> H !! bm_block sb b = Some i ->
  0 <= bi < BPB -> 0 <= b -> b + bi < sb_size sb ->
  (if used sb V (b + bi) then Q (inl (bi + 1)) s
   else wp (set_bdata i (bm_data sb true V (b + bi)) ;; log_write i ;; brelse i ;;
            ret (inr (Some (b + bi)))) Q s) ->
  wp (balloc_scan b i bi) Q s.
Proof using Type.
  intros Ht Hsb Hb8 Hi Hbi Hb Hlt HQ. unfold balloc_scan.
  apply wp_bind. eapply wp_tx_sb; [exact Ht|]. rewrite Hsb.
  rewrite (proj2 (Z.ltb_lt bi BPB)), (proj2 (Z.ltb_lt (b + bi) (sb_size sb))) by lia. cbn [andb].
  assert (Eb : bm_block sb (b + bi) = bm_block sb b) by (unfold bm_block; f_equal; plia).
  assert (Ey : Z.to_nat (bi / 8) = bm_byte (b + bi)) by (unfold bm_byte; f_equal; plia).
  assert (Em : bi mod 8 = (b + bi) mod 8) by plia.
  apply wp_bind. eapply wp_tx_bdata; [exact Ht|done|]. rewrite <- Eb, Ey, Em.
  pose proof (intx_length _ _ _ _ _ _ _ _ _ (bm_block sb (b + bi)) Ht) as Hlen.
  destruct (lookup_lt_is_Some_2 (V (bm_block sb (b + bi))) (bm_byte (b + bi))) as [byte Hbyte].
  { rewrite Hlen. apply bm_byte_lt. }
  apply wp_bind. eapply wp_of_option; [exact Hbyte|].
  unfold used in HQ. rewrite Hbyte in HQ. change (default 0 (Some byte)) with byte in HQ.
  rewrite land_bit by plia. destruct (Z.testbit byte ((b + bi) mod 8)); cbn [negb]; [by apply wp_ret|].
  unfold bm_data, put_bit in HQ. by rewrite Hbyte in HQ.
Qed.

(** The bits of one bitmap block, from [bi] on: the first that is clear,
    unless the block or the disk ends before. *)
Lemma balloc_scan_ok o s0 V bl H s sb b i k bi (Q : option Z -> kstate -> Prop) :
  intx o s0 V bl H s -> 1 <= o -> k_sb s0 = sb -> fs_layout start size_ sb ->
  0 <= b < sb_size sb -> b mod BPB = 0 -> H !! bm_block sb b = Some i ->
  Z.of_nat (length bl) < size_ - 1 ->
  0 <= bi -> bi + Z.of_nat k <= BPB -> b + bi + Z.of_nat k <= sb_size sb ->
  (forall x, b + bi <= x < b + bi + Z.of_nat k -> used sb V x = true) ->
  (bi + Z.of_nat k = BPB \/ b + bi + Z.of_nat k = sb_size sb \/
   used sb V (b + bi + Z.of_nat k) = false) ->
  (let x := b + bi + Z.of_nat k in
   if (bi + Z.of_nat k <? BPB) && (x <? sb_size sb)
   then forall s', intx o s0 (mark sb true V x) (add_block bl (bm_block sb x))
          (delete (bm_block sb b) H) s' -> Q (Some x) s'
   else Q None s) ->
  forall fuel, (k < fuel)%nat -> wp (loop fuel (balloc_scan b i) bi) Q s.
Proof using Hgeo.
  intros Ht Ho Hsb Hl Hb Hb8 Hi Hroom. revert bi.
  induction k as [|k IH]; intros bi Hbi H1 H2 Hused Hstop HQ fuel Hf;
    (destruct fuel as [|fuel]; [lia|]); apply wp_loop.
  - cbv zeta in HQ. change (Z.of_nat 0) with 0 in *. rewrite !Z.add_0_r in *.
    destruct ((bi <? BPB) && (b + bi <? sb_size sb)) eqn:E.
    2:{ unfold balloc_scan. apply wp_bind. eapply wp_tx_sb; [exact Ht|]. rewrite Hsb, E. by apply wp_ret. }
    apply andb_true_iff in E as [E1%Z.ltb_lt E2%Z.ltb_lt].
    assert (Hu : used sb V (b + bi) = false) by (destruct Hstop as [?|[?|?]]; [lia|lia|done]).
    assert (Eb : bm_block sb (b + bi) = bm_block sb b) by (unfold bm_block; f_equal; plia).
    eapply balloc_scan_round; [done|done|done|done|lia|lia|done|]. rewrite Hu.
    eapply (wp_tx_update _ _ _ Hgeo) with (b := bm_block sb (b + bi));
      [exact Ht|done|by rewrite Eb| | |done|].
    { apply bm_data_ok. by eapply intx_block. }
    { eapply layout_block; [done|]. pose proof (bm_block_range sb (b + bi) Hl ltac:(lia)).
      destruct Hl. lia. }
    intros s1 Ht1. apply wp_bind. eapply wp_tx_brelse with (b := bm_block sb b); [exact Ht1|done|].
    intros s2 Ht2. apply wp_ret. by apply HQ.
  - eapply balloc_scan_round; [done|done|done|done|lia|lia|lia|].
    rewrite Hused by lia.
    replace (b + bi + Z.of_nat (S k)) with (b + (bi + 1) + Z.of_nat k) in * by lia.
    replace (bi + Z.of_nat (S k)) with (bi + 1 + Z.of_nat k) in * by lia.
    apply IH; try done; try lia. intros x Hx. apply Hused. lia.
Qed.

(** The lowest free block, and the contents once it is allocated. *)
Definition first_free sb V (b : Z) : Prop :=
  0 <= b < sb_size sb /\ used sb V b = false /\ forall x, 0 <= x < b -> used sb V x = true.
Definition balloced sb V (b : Z) : Z -> list Z := vupd (mark sb true V b) b zero_block.

Lemma first_free_data sb V b : meta_used sb V -> first_free sb V b -> dstart sb <= b < sb_size sb.
Proof using Type.
  intros Hm (Hr & Hu & _). split; [|lia]. destruct (decide (dstart sb <= b)); [done|].
  rewrite Hm in Hu; [done|lia].
Qed.

(** One bitmap block of balloc's outer loop: all its bits set. *)
Lemma balloc_block_full o s0 V bl H s sb b n i (Q : option Z -> kstate -> Prop) :
  intx o s0 V bl H s -> 1 <= o -> k_sb s0 = sb -> fs_layout start size_ sb ->
  0 <= b < sb_size sb -> b mod BPB = 0 -> H !! bm_block sb b = Some i ->
  Z.of_nat (length bl) < size_ - 1 ->
  n = Z.min BPB (sb_size sb - b) -> (forall x, b <= x < b + n -> used sb V x = true) ->
  Q None s -> wp (loop (Z.to_nat BPB + 1) (balloc_scan b i) 0) Q s.
Proof using Hgeo.
  intros Ht Ho Hsb Hl Hb Hb8 Hi Hlt Hn Hu HQ.
  assert (En : Z.of_nat (Z.to_nat n) = n) by plia.
  eapply (balloc_scan_ok o s0 V bl H s sb b i (Z.to_nat n) 0); try done; rewrite ?En; try plia.
  - intros x Hx. apply Hu. lia.
  - cbv zeta. destruct (Z.ltb_spec (0 + n) BPB), (Z.ltb_spec (b + 0 + n) (sb_size sb)); try done. lia.
Qed.

Lemma balloc_loop o s0 V bl H s sb b (Q : Z -> kstate -> Prop) :
  intx o s0 V bl H s -> 1 <= o -> k_sb s0 = sb -> fs_layout start size_ sb -> meta_used sb V ->
  Z.of_nat (length bl) + 1 < size_ - 1 -> (S (length bl) + size H < nbuf)%nat ->
  (forall x, 0 <= x < sb_size sb -> H !! bm_block sb x = None) ->
  first_free sb V b -> H !! b = None ->
  (forall s', intx o s0 (balloced sb V b) (add_block (add_block bl (bm_block sb b)) b) H s' -> Q b s') ->
  forall k c f s, intx o s0 V bl H s -> 0 <= c -> b / BPB = c / BPB + Z.of_nat k -> c mod BPB = 0 ->
    (k < f)%nat ->
  wp (loop f (balloc_round ROOTDEV) c) Q s.
Proof using Hgeo.
  intros _ Ho Hsb Hl Hm Hlt Hroom HN Hff HNb HQ. pose proof (first_free_data _ _ _ Hm Hff) as Hbd.
  destruct Hff as (Hb & Hu & Hlow).
  induction k as [|k IH]; intros c f s1 Ht Hc Hk Hc8 Hf; (destruct f as [|f]; [lia|]); apply wp_loop;
    unfold balloc_round at 1; apply wp_bind; (eapply wp_tx_sb; [exact Ht|]); rewrite Hsb;
    (destruct (Z.ltb_spec c (sb_size sb)) as [Hcs|]; [|plia]);
    rewrite BBLOCK_bm by (done || lia); apply wp_bind;
    (eapply wp_tx_bread; [exact Ht|by apply HN|unfold room; lia|]); intros i s2 Ht2; apply wp_bind.
  - eapply (balloc_scan_ok o s0 V bl _ s2 sb c i (Z.to_nat (b - c)) 0); try done; try plia.
    { apply lookup_insert_eq. }
    { intros x Hx. apply Hlow. plia. }
    { right. right. replace (c + 0 + Z.of_nat (Z.to_nat (b - c))) with b by plia. done. }
    replace (c + 0 + Z.of_nat (Z.to_nat (b - c))) with b by plia. cbv zeta.
    destruct (Z.ltb_spec (0 + Z.of_nat (Z.to_nat (b - c))) BPB); [|plia].
    destruct (Z.ltb_spec b (sb_size sb)); [|lia]. cbn [andb]. intros s3 Ht3.
    rewrite delete_insert_id in Ht3 by (by apply HN). apply wp_bind.
    pose proof (length_add_block bl (bm_block sb b)).
    eapply wp_bzero; [exact Ht3|done|done|unfold room; lia|eapply layout_block; [done|]|lia|].
    { destruct Hl. unfold dstart in *. plia. }
    intros s4 Ht4. by apply wp_ret, HQ.
  - eapply balloc_block_full; [exact Ht2|done|done|done|lia|done|apply lookup_insert_eq|lia|done| |].
    { intros x Hx. apply Hlow. plia. }
    apply wp_bind. eapply wp_tx_brelse; [exact Ht2|apply lookup_insert_eq|]. intros s3 Ht3.
    rewrite delete_insert_id in Ht3 by (by apply HN). apply wp_ret.
    apply IH; [done|plia|plia|plia|lia].
Qed.

Lemma wp_balloc o s0 V bl H s sb b (Q : Z -> kstate -> Prop) :
  intx o s0 V bl H s -> 1 <= o -> k_sb s0 = sb -> fs_layout start size_ sb -> meta_used sb V ->
  Z.of_nat (length bl) + 1 < size_ - 1 -> (S (length bl) + size H < nbuf)%nat ->
  (forall x, 0 <= x < sb_size sb -> H !! bm_block sb x = None) ->
  first_free sb V b -> H !! b = None ->
  (forall s', intx o s0 (balloced sb V b) (add_block (add_block bl (bm_block sb b)) b) H s' -> Q b s') ->
  wp (balloc ROOTDEV) Q s.
Proof using Hgeo.
  intros Ht Ho Hsb Hl Hm Hlt Hroom HN Hff HNb HQ. unfold balloc. apply wp_bind.
  eapply wp_tx_sb; [exact Ht|]. rewrite Hsb. destruct Hff as (Hb & Hff).
  eapply (balloc_loop o s0 V bl H s sb b Q) with (k := Z.to_nat (b / BPB)); try done; plia.
Qed.

(** With every bit set, balloc prints its message and returns 0. *)
Lemma balloc_full_loop o s0 V bl H sb :
  1 <= o -> k_sb s0 = sb -> fs_layout start size_ sb -> Z.of_nat (length bl) < size_ - 1 -> room bl H ->
  (forall x, 0 <= x < sb_size sb -> H !! bm_block sb x = None) ->
  (forall x, 0 <= x < sb_size sb -> used sb V x = true) ->
  forall k c s f, intx o s0 V bl H s -> 0 <= c -> c mod BPB = 0 ->
    sb_size sb <= c + Z.of_nat k * BPB -> (k < f)%nat ->
  exists s', intx o s0 V bl H s' /\
    loop f (balloc_round ROOTDEV) c s =
    (printf (bytes_of "balloc: out of blocks" ++ newline) [] ;; ret 0) s'.
Proof using Hgeo.
  intros Ho Hsb Hl Hlt Hroom HN Hu. induction k as [|k IH]; intros c s f Ht Hc Hc8 Hk Hf;
    (destruct f as [|f]; [lia|]).
  - exists s. split; [done|]. cbn [loop]. unfold balloc_round at 1. rewrite bind_assoc, run_gets.
    destruct (intx_rest _ _ _ _ _ _ _ _ _ Ht) as (-> & _). rewrite Hsb.
    destruct (Z.ltb_spec c (sb_size sb)); [lia|]. rewrite bind_assoc. by apply bind_ext.
  - destruct (Z.ltb_spec c (sb_size sb)) as [Hcs|Hcs].
    2:{ destruct (IH c s (S f) Ht Hc Hc8 ltac:(plia) ltac:(lia)) as (s' & Ht' & E).
        exists s'. split; [done|exact E]. }
    assert (Hwp : wp (balloc_round ROOTDEV c) (fun r s' => r = inl (c + BPB) /\ intx o s0 V bl H s') s).
    { unfold balloc_round. apply wp_bind. eapply wp_tx_sb; [exact Ht|]. rewrite Hsb.
      destruct (Z.ltb_spec c (sb_size sb)); [|lia]. rewrite BBLOCK_bm by (done || lia).
      apply wp_bind. eapply wp_tx_bread; [exact Ht|by apply HN|done|]. intros i s2 Ht2. apply wp_bind.
      eapply balloc_block_full; [exact Ht2|done|done|done|lia|done|apply lookup_insert_eq|lia|done| |].
      { intros x Hx. apply Hu. lia. }
      apply wp_bind. eapply wp_tx_brelse; [exact Ht2|apply lookup_insert_eq|]. intros s3 Ht3.
      rewrite delete_insert_id in Ht3 by (by apply HN). by apply wp_ret. }
    apply wp_run in Hwp as (r & s1 & E & -> & Ht1). cbn [loop]. rewrite (bind_Ret _ _ _ _ _ E).
    apply IH; [done|plia|plia|plia|lia].
Qed.

(** bfree clears the bit of a block in use, and panics on a free one. *)
Lemma wp_bfree o s0 V bl H s sb b (Q : unit -> kstate -> Prop) :
  intx o s0 V bl H s -> 1 <= o -> k_sb s0 = sb -> fs_layout start size_ sb ->
  Z.of_nat (length bl) < size_ - 1 -> room bl H ->
  0 <= b < sb_size sb -> H !! bm_block sb b = None -> used sb V b = true ->
  (forall s', intx o s0 (mark sb false V b) (add_block bl (bm_block sb b)) H s' -> Q tt s') ->
  wp (bfree ROOTDEV b) Q s.
Proof using Hgeo.
  intros Ht Ho Hsb Hl Hlt Hroom Hb HN Hu HQ. unfold bfree. apply wp_bind.
  eapply wp_tx_sb; [exact Ht|]. rewrite Hsb, BBLOCK_bm by done. change (u32 ROOTDEV) with ROOTDEV.
  apply wp_bind. eapply wp_tx_bread; [exact Ht|done|done|]. intros i s1 Ht1.
  apply wp_bind. eapply wp_tx_bdata; [exact Ht1|apply lookup_insert_eq|].
  fold (bm_byte b). destruct (lookup_lt_is_Some_2 (V (bm_block sb b)) (bm_byte b)) as [byte Hbyte].
  { rewrite (intx_length _ _ _ _ _ _ _ _ _ (bm_block sb b) Ht). apply bm_byte_lt. }
  apply wp_bind. eapply wp_of_option; [exact Hbyte|].
  replace (b mod BPB mod 8) with (b mod 8) by plia.
  unfold used in Hu. rewrite Hbyte in Hu. change (default 0 (Some byte)) with byte in Hu.
  rewrite land_bit, Hu by plia. cbn [negb].
  assert (Ed : <[bm_byte b := u8 (Z.land byte (Z.lnot (Z.shiftl 1 (b mod 8))))]> (V (bm_block sb b)) =
    bm_data sb false V b) by (unfold bm_data, put_bit; by rewrite Hbyte).
  rewrite Ed. eapply (wp_tx_update _ _ _ Hgeo) with (b := bm_block sb b);
    [exact Ht1|done|apply lookup_insert_eq| | |done|].
  { apply bm_data_ok. by eapply intx_block. }
  { eapply layout_block; [done|]. pose proof (bm_block_range sb b Hl Hb). destruct Hl. lia. }
  intros s2 Ht2. eapply wp_tx_brelse; [exact Ht2|apply lookup_insert_eq|]. intros s3 Ht3.
  rewrite delete_insert_id in Ht3 by done. by apply HQ.
Qed.

Lemma mark_other sb u V b x : x <> bm_block sb b -> mark sb u V b x = V x.
Proof using Type. apply vupd_ne. Qed.

Lemma used_balloced sb V b x :
  length (V (bm_block sb b)) = Z.to_nat BSIZE -> bm_block sb x <> b -> 0 <= b -> 0 <= x ->
  used sb (balloced sb V b) x = bool_decide (x = b) || used sb V x.
Proof using Type.
  intros Hl Hne Hb Hx. unfold used at 1, balloced. rewrite vupd_ne by done.
  fold (used sb (mark sb true V b) x). rewrite used_mark by done.
  case_decide; case_bool_decide; done.
Qed.

Lemma wp_bfree_free o s0 V bl H s sb b :
  intx o s0 V bl H s -> k_sb s0 = sb -> fs_layout start size_ sb -> room bl H ->
  0 <= b < sb_size sb -> H !! bm_block sb b = None -> used sb V b = false ->
  exists s', bfree ROOTDEV b s = Panic "freeing free block" s'.
Proof using Hgeo.
  intros Ht Hsb Hl Hroom Hb HN Hu.
  assert (Hr : wp (bread ROOTDEV (bm_block sb b)) (fun i s' =>
    intx o s0 V bl (<[bm_block sb b := i]> H) s') s) by (eapply wp_tx_bread; [exact Ht|done|done|done]).
  apply wp_run in Hr as (i & s1 & E & Ht1). exists s1. unfold bfree. rewrite run_gets.
  destruct (intx_rest _ _ _ _ _ _ _ _ _ Ht) as (-> & _). rewrite Hsb, BBLOCK_bm by done.
  change (u32 ROOTDEV) with ROOTDEV. rewrite (bind_Ret _ _ _ _ _ E).
  assert (Hd : wp (bdata i) (fun d s' => d = V (bm_block sb b) /\ s' = s1) s1)
    by (eapply wp_tx_bdata; [exact Ht1|apply lookup_insert_eq|done]).
  apply wp_run in Hd as (d & s2 & E2 & -> & ->). rewrite (bind_Ret _ _ _ _ _ E2).
  fold (bm_byte b). destruct (lookup_lt_is_Some_2 (V (bm_block sb b)) (bm_byte b)) as [byte Hbyte].
  { rewrite (intx_length _ _ _ _ _ _ _ _ _ (bm_block sb b) Ht). apply bm_byte_lt. }
  rewrite Hbyte. cbn [of_option]. rewrite run_ret.
  replace (b mod BPB mod 8) with (b mod 8) by plia.
  unfold used in Hu. rewrite Hbyte in Hu. change (default 0 (Some byte)) with byte in Hu.
  by rewrite land_bit, Hu by plia.
Qed.

(** Block allocation: inside a transaction, balloc returns the lowest
    block whose bitmap bit is clear, never one of the meta data (boot block,
    superblock, log, inodes, bitmap); the block is then zeroed, its bit set,
    no other bit and no other block changed, and both blocks are in the log.
    When every block is in use it prints a message and returns 0. *)
Theorem balloc_takes_free_block o s0 V bl H s sb :
  intx o s0 V bl H s -> 1 <= o -> k_sb s0 = sb -> fs_layout start size_ sb -> meta_used sb V ->
  Z.of_nat (length bl) + 1 < size_ - 1 -> (S (length bl) + size H < nbuf)%nat ->
  (forall x, 0 <= x < sb_size sb -> H !! bm_block sb x = None) ->
  (forall b, first_free sb V b -> H !! b = None ->
     exists s' V', balloc ROOTDEV s = Ret b s' /\
       intx o s0 V' (add_block (add_block bl (bm_block sb b)) b) H s' /\
       dstart sb <= b < sb_size sb /\ V' b = zero_block /\
       (forall x, 0 <= x < sb_size sb -> used sb V' x = bool_decide (x = b) || used sb V x) /\
       forall x, x <> b -> x <> bm_block sb b -> V' x = V x) /\
  ((forall x, 0 <= x < sb_size sb -> used sb V x = true) ->
     exists s', intx o s0 V bl H s' /\
       balloc ROOTDEV s =
       (printf (bytes_of "balloc: out of blocks" ++ newline) [] ;; ret 0) s').
Proof using Hgeo.
  intros Ht Ho Hsb Hl Hm Hlt Hroom HN. split.
  - intros b Hff HNb. assert (Hwp : wp (balloc ROOTDEV) (fun r s' => r = b /\
      intx o s0 (balloced sb V b) (add_block (add_block bl (bm_block sb b)) b) H s') s)
      by (by eapply wp_balloc).
    apply wp_run in Hwp as (r & s' & E & -> & Ht').
    pose proof (first_free_data _ _ _ Hm Hff) as Hbd. exists s', (balloced sb V b).
    split_and!; try done; try lia.
    + unfold balloced. by rewrite vupd_eq.
    + intros x Hx. pose proof (bm_block_range sb x Hl Hx). destruct Hl, Hgeo. unfold dstart in *.
      apply used_balloced; [by eapply intx_length|unfold bm_block in *; plia|plia|lia].
    + intros x H1 H2. unfold balloced. by rewrite vupd_ne, mark_other.
  - intros Hu. unfold balloc. rewrite run_gets.
    destruct (intx_rest _ _ _ _ _ _ _ _ _ Ht) as (-> & _). rewrite Hsb.
    eapply (balloc_full_loop o s0 V bl H sb Ho Hsb Hl) with (k := Z.to_nat (sb_size sb / BPB + 1));
      try done; unfold room; try plia. destruct Hl, Hgeo. unfold dstart in *. plia.
Qed.

(** Freeing: bfree clears exactly the bit of the block it is given, so
    that freeing what balloc returned gives back the bitmap of before; it
    panics on a block that is free. *)
Theorem bfree_frees o s0 V bl H s sb b :
  intx o s0 V bl H s -> 1 <= o -> k_sb s0 = sb -> fs_layout start size_ sb ->
  Z.of_nat (length bl) < size_ - 1 -> room bl H ->
  0 <= b < sb_size sb -> H !! bm_block sb b = None ->
  (used sb V b = true -> exists s' V', bfree ROOTDEV b s = Ret tt s' /\
     intx o s0 V' (add_block bl (bm_block sb b)) H s' /\
     (forall x, 0 <= x -> used sb V' x = negb (bool_decide (x = b)) && used sb V x) /\
     forall x, x <> bm_block sb b -> V' x = V x) /\
  (used sb V b = false -> exists s', bfree ROOTDEV b s = Panic "freeing free block" s').
Proof using Hgeo.
  intros Ht Ho Hsb Hl Hlt Hroom Hb HN. split; [intros Hu|intros Hu; by eapply wp_bfree_free].
  assert (Hwp : wp (bfree ROOTDEV b) (fun _ s' =>
    intx o s0 (mark sb false V b) (add_block bl (bm_block sb b)) H s') s) by (by eapply wp_bfree).
  apply wp_run in Hwp as ([] & s' & E & Ht'). exists s', (mark sb false V b). split_and!; try done.
  - intros x Hx. rewrite used_mark; [|by eapply intx_length|lia|done].
    case_decide; case_bool_decide; done.
  - intros x Hx. by apply mark_other.
Qed.
End Alloc.
