(* ===== verification/FsBoot.v ===== *)
(** A small file system image and the kernel booted from it, as the examples
    of the file-system files use them: mkfs's layout for FSSIZE blocks, the
    bitmap saying that the meta data are in use. *)

From Stdlib Require Import FunctionalExtensionality.
From stdpp Require Import base numbers list gmap strings.
From S2P Require Import Prelude Params Mem State Locks Cache Bio Log LogBio Fs FsTx FsBlocks.

#[global] Instance fs_wakeups : Wakeups := 4%nat.
#[global] Instance fs_cache : BlockCache := @bio_cache fs_wakeups sync_disk.

(** 46 blocks of meta data; [more] of the following ones are in use too. *)
Definition image_bitmap : list Z :=
  put_at zero_block 0 [255; 255; 255; 255; 255; 63].
Definition image (blocks : gmap Z (list Z)) : disk := mk_disk (<[45 := image_bitmap]> blocks) [].

Lemma image_layout : fs_layout 2 LOGSIZE mkfs_sb.
Proof. split; unfold dstart; simpl; plia. Qed.

Lemma image_ok blocks : map_Forall (fun _ => block_ok) blocks -> disk_ok (image blocks).
Proof.
  intros Hb b. unfold dblk, image. cbn [d_blocks].
  destruct (decide (b = 45)) as [->|Hne].
  - rewrite lookup_insert_eq. split; [reflexivity|]. unfold image_bitmap. apply put_at_bytes.
    + by apply Forall_replicate.
    + repeat constructor; lia.
  - rewrite lookup_insert_ne by done. destruct (blocks !! b) eqn:E; [by apply (Hb b)|].
    apply zero_block_ok.
Qed.

(** The kernel after the log, which is empty, is recovered: the blocks are
    those of the disk. *)
Lemma disk_boots d t :
  disk_ok d -> dblk d 2 = zero_block ->
  exists kb, reboot mkfs_sb d = Ret tt kb /\
    quiescent 2 LOGSIZE 1 (dblk d) (set_k_itable t (set_k_sb mkfs_sb kb)).
Proof.
  intros Hok H2.
  destruct (reboot_ok 2 LOGSIZE mkfs_geometry mkfs_sb (conj eq_refl eq_refl) d [])
    as (s & E & Hd & V & Hh & Hc & Hid).
  - done.
  - by apply (blocks_ok_nil 2 LOGSIZE mkfs_geometry).
  - rewrite H2. split; [reflexivity|done].
  - exists s. split; [done|]. assert (HV : V = dblk d).
    { apply functional_extensionality. intros b.
      assert (E' := cache_clean 1 s V ∅ ∅ b Hc (not_elem_of_empty b) (lookup_empty b)).
      rewrite E', Hd, dblk_writes. unfold recovery_writes. rewrite vwrites_snoc.
      change (home_copies 2 (dblk d) []) with (@nil (Z * list Z)). rewrite H2.
      unfold vupd. case_decide as Eb; [|done]. subst. rewrite H2. by vm_compute. }
    subst V. split; [exact Hh|]. split; [|exact Hid]. by eapply cache_frame.
Qed.

Lemma image_boots blocks t :
  map_Forall (fun _ => block_ok) blocks -> blocks !! 2 = None ->
  exists s V, quiescent 2 LOGSIZE 1 V s /\ k_sb s = mkfs_sb /\ k_itable s = t /\
    forall b, b <> 2 -> V b = dblk (image blocks) b.
Proof.
  intros Hb H2. destruct (disk_boots (image blocks) t) as (kb & _ & Hq).
  - by apply image_ok.
  - unfold dblk, image. cbn [d_blocks]. by rewrite lookup_insert_ne, H2 by done.
  - by exists (set_k_itable t (set_k_sb mkfs_sb kb)), (dblk (image blocks)).
Qed.

(** The image's bitmap: blocks 0..45 in use, the others free. *)
Lemma image_used V b :
  V 45 = image_bitmap -> 0 <= b < FSSIZE -> used mkfs_sb V b = (b <? 46).
Proof.
  intros HV Hb. assert (E : forall n : nat, (n < 2000)%nat ->
    used mkfs_sb (fun _ => image_bitmap) (Z.of_nat n) = (Z.of_nat n <? 46)).
  { intros n Hn. apply (Forall_lookup_1 (fun n => used mkfs_sb (fun _ => image_bitmap) (Z.of_nat n) =
      (Z.of_nat n <? 46)) (seq 0 2000) n); [|by apply lookup_seq_lt].
    apply Forall_forall. intros x Hx.
    assert (Ht : forallb (fun n => Bool.eqb (used mkfs_sb (fun _ => image_bitmap) (Z.of_nat n))
      (Z.of_nat n <? 46)) (seq 0 2000) = true) by (vm_compute; reflexivity).
    rewrite forallb_forall in Ht. apply Bool.eqb_prop, Ht. by apply list_elem_of_In. }
  specialize (E (Z.to_nat b)). rewrite Z2Nat.id in E by lia. rewrite <- E by plia.
  unfold used. assert (bm_block mkfs_sb b = 45) as -> by (unfold bm_block; simpl; plia). by rewrite HV.
Qed.

Lemma image_meta V : V 45 = image_bitmap -> meta_used mkfs_sb V.
Proof.
  intros HV b Hb. change (dstart mkfs_sb) with 46 in Hb. rewrite image_used; [|done|plia].
  apply Z.ltb_lt. lia.
Qed.

(** A system call has begun in the booted kernel. *)
Lemma image_begins blocks t :
  map_Forall (fun _ => block_ok) blocks -> blocks !! 2 = None ->
  exists s0 s V, intx 1 2 LOGSIZE 1 s0 V [] ∅ s /\ k_sb s0 = mkfs_sb /\ k_itable s0 = t /\
    V 45 = image_bitmap /\ forall b, b <> 2 -> V b = dblk (image blocks) b.
Proof.
  intros Hb H2. destruct (image_boots blocks t Hb H2) as (s0 & V & Hq & Hsb & Ht & HV).
  assert (Hwp : wp begin_op (fun _ s => intx 1 2 LOGSIZE 1 s0 V [] ∅ s) s0)
    by (by eapply wp_tx_begin; [exact mkfs_geometry| |]).
  apply wp_run in Hwp as (_ & s & _ & Hs). exists s0, s, V. split_and!; try done.
  rewrite HV by done. unfold dblk, image. cbn [d_blocks]. by rewrite lookup_insert_eq.
Qed.

Lemma balloc_takes_free_block_witness :
  exists s s', balloc ROOTDEV s = Ret 46 s'.
Proof.
  destruct (image_begins ∅ [] (map_Forall_empty _) (lookup_empty 2)) as (s0 & s & V & Ht & Hsb & _ & H45 & _).
  destruct (balloc_takes_free_block 1 2 LOGSIZE mkfs_geometry 1 s0 V [] ∅ s mkfs_sb) as [H _].
  - exact Ht.
  - lia.
  - exact Hsb.
  - exact image_layout.
  - by apply image_meta.
  - vm_compute. reflexivity.
  - vm_compute. lia.
  - intros x _. apply lookup_empty.
  - destruct (H 46) as (s' & V' & E & _).
    + split; [simpl; plia|]. split; [by rewrite image_used by (done || plia)|].
      intros x Hx. rewrite image_used by (done || plia). apply Z.ltb_lt. lia.
    + apply lookup_empty.
    + by exists s, s'.
Defined.

Lemma bfree_frees_witness :
  exists s s', bfree ROOTDEV 50 s = Panic "freeing free block" s'.
Proof.
  destruct (image_begins ∅ [] (map_Forall_empty _) (lookup_empty 2)) as (s0 & s & V & Ht & Hsb & _ & H45 & _).
  destruct (bfree_frees 1 2 LOGSIZE mkfs_geometry 1 s0 V [] ∅ s mkfs_sb 50) as [_ H].
  - exact Ht.
  - lia.
  - exact Hsb.
  - exact image_layout.
  - vm_compute. reflexivity.
  - vm_compute. lia.
  - simpl. plia.
  - apply lookup_empty.
  - destruct H as (s' & E); [by rewrite image_used by (done || plia)|]. by exists s, s'.
Defined.
