(* ===== verification/FsInode.v ===== *)
(** Inodes of kernel/fs.c: dinodes on disk (iupdate, ilock), the blocks of a
    file (bmap) and its bytes (readi, writei). *)

From stdpp Require Import base numbers list gmap strings.
From S2P Require Import Prelude Params Mem State Locks Cache Vm Console Log Fs FsTx FsBlocks.

(** ** struct dinode *)

Definition dinode_bytes (n : inode) : list Z :=
  le_bytes 2 (i_type n) ++ le_bytes 2 (i_major n) ++ le_bytes 2 (i_minor n) ++
  le_bytes 2 (i_nlink n) ++ le_bytes 4 (i_size n) ++ concat (le_bytes 4 <$> i_addrs n).

Lemma length_addr_bytes l : length (concat (le_bytes 4 <$> l)) = (4 * length l)%nat.
Proof.
  induction l as [|a l IH]; [done|]. cbn [fmap list_fmap concat length].
  rewrite length_app, length_le_bytes. fold (le_bytes 4 <$> l). lia.
Qed.

Lemma length_dinode_bytes n :
  length (i_addrs n) = 13%nat -> length (dinode_bytes n) = 64%nat.
Proof.
  intros H. unfold dinode_bytes. rewrite !length_app, !length_le_bytes, length_addr_bytes. lia.
Qed.

Lemma dinode_bytes_bytes n : is_bytes (dinode_bytes n).
Proof.
  assert (Ha : forall l, is_bytes (concat (le_bytes 4 <$> l))).
  { induction l; [constructor|]. cbn [fmap list_fmap concat]. apply Forall_app. split; [apply le_bytes_bytes|done]. }
  unfold dinode_bytes, is_bytes. rewrite !Forall_app. split_and!; try apply le_bytes_bytes. apply Ha.
Qed.

Lemma put_addrs_bytes l : forall d o,
  (o + 4 * length l <= length d)%nat ->
  put_addrs d o l = put_at d o (concat (le_bytes 4 <$> l)).
Proof.
  induction l as [|a l IH]; intros d o H; cbn [put_addrs].
  - unfold put_at. cbn [fmap list_fmap concat]. simpl. rewrite Nat.add_0_r. by rewrite take_drop.
  - cbn [length] in H. rewrite IH by (rewrite length_put32; lia). unfold put32.
    rewrite <- (length_le_bytes 4 a) at 2.
    rewrite put_put by (rewrite length_le_bytes, length_addr_bytes; lia). done.
Qed.

Lemma put_dinode_bytes d o n :
  (o + 64 <= length d)%nat -> length (i_addrs n) = 13%nat ->
  put_dinode d o n = put_at d o (dinode_bytes n).
Proof.
  intros H Hl. unfold put_dinode, put16, put32, dinode_bytes.
  assert (Hput : forall j v w, j = (o + length v)%nat -> (j + length w <= length d)%nat ->
    put_at (put_at d o v) j w = put_at d o (v ++ w)) by (intros; subst; apply put_put; lia).
  rewrite !Hput by (rewrite ?length_app, ?length_le_bytes; lia).
  rewrite put_addrs_bytes by (rewrite length_put_at; rewrite ?length_app, ?length_le_bytes; lia).
  rewrite Hput by (rewrite ?length_app, ?length_le_bytes, ?length_addr_bytes; lia).
  by rewrite <- !app_assoc.
Qed.

Lemma get_addr_bytes l i a :
  l !! i = Some a -> get_at (concat (le_bytes 4 <$> l)) (4 * i) 4 = le_bytes 4 a.
Proof.
  revert i. induction l as [|c l IH]; intros i Hi; [done|]. cbn [fmap list_fmap concat].
  destruct i as [|i].
  - injection Hi as ->. change (4 * 0)%nat with 0%nat.
    rewrite get_at_app_l by (rewrite length_le_bytes; lia). apply get_at_all, length_le_bytes.
  - rewrite get_at_app_r by (rewrite length_le_bytes; lia). rewrite length_le_bytes.
    replace (4 * S i - 4)%nat with (4 * i)%nat by lia. by apply IH.
Qed.

(** The fields fit their C types. *)
Record inode_ok (n : inode) : Prop := {
  io_type : -32768 <= i_type n < 32768;
  io_major : -32768 <= i_major n < 32768;
  io_minor : -32768 <= i_minor n < 32768;
  io_nlink : -32768 <= i_nlink n < 32768;
  io_size : 0 <= i_size n < 2 ^ 32;
  io_len : length (i_addrs n) = 13%nat;
  io_addrs : Forall (fun a => 0 <= a < 2 ^ 32) (i_addrs n);
}.

Lemma s16_bytes x : -32768 <= x < 32768 -> s16 (le_val (le_bytes 2 x)) = x.
Proof. intros H. rewrite le_val_bytes. change (256 ^ Z.of_nat 2) with 65536. unfold s16. dlia. Qed.

Lemma u32_bytes x : 0 <= x < 2 ^ 32 -> le_val (le_bytes 4 x) = x.
Proof. intros H. rewrite le_val_bytes. change (256 ^ Z.of_nat 4) with (2 ^ 32). by apply Z.mod_small. Qed.

(** What [load_dinode] takes from memory. *)
Definition same_fields (n m : inode) : inode :=
  set_i_addrs (i_addrs n) (set_i_size (i_size n) (set_i_nlink (i_nlink n)
    (set_i_minor (i_minor n) (set_i_major (i_major n) (set_i_type (i_type n) m))))).

Lemma load_put_dinode d o n m :
  (o + 64 <= length d)%nat -> inode_ok n ->
  load_dinode (put_dinode d o n) o m = same_fields n m.
Proof.
  intros Hd [H1 H2 H3 H4 H5 H6 H7]. pose proof (length_dinode_bytes n H6) as Hlen.
  rewrite put_dinode_bytes by done.
  assert (Hget : forall k c, (k + c <= 64)%nat -> get_at (put_at d o (dinode_bytes n)) (o + k) c =
    get_at (dinode_bytes n) k c) by (intros; apply get_put_inside; lia).
  assert (H0 : get_at (put_at d o (dinode_bytes n)) o 2 = get_at (dinode_bytes n) 0 2).
  { rewrite <- (Hget 0%nat 2%nat) by lia. f_equal. lia. }
  unfold load_dinode, same_fields, di_type, di_major, di_minor, di_nlink, di_size, di_addr, get16, get32.
  assert (Haddr : forall i, (i < 13)%nat -> le_val (get_at (put_at d o (dinode_bytes n)) (o + 12 + 4 * i) 4) =
    default 0 (i_addrs n !! i)).
  { intros i Hi. replace (o + 12 + 4 * i)%nat with (o + (12 + 4 * i))%nat by lia. rewrite Hget by lia.
    destruct (lookup_lt_is_Some_2 (i_addrs n) i) as [a Ha]; [lia|]. rewrite Ha. cbn [default].
    unfold dinode_bytes. do 5 rewrite get_at_app_r by (rewrite !length_le_bytes; lia).
    rewrite !length_le_bytes. replace (12 + 4 * i - 2 - 2 - 2 - 2 - 4)%nat with (4 * i)%nat by lia.
    rewrite (get_addr_bytes _ _ a) by done. apply u32_bytes. rewrite Forall_lookup in H7. by eapply H7. }
  rewrite H0, !Hget by lia.
  assert (Ea : (fun i => le_val (get_at (put_at d o (dinode_bytes n)) (o + 12 + 4 * i) 4)) <$> dinode_addrs =
    i_addrs n).
  { apply list_eq. intros i. unfold dinode_addrs. rewrite list_lookup_fmap.
    change (Z.to_nat (NDIRECT + 1)) with 13%nat. destruct (decide (i < 13)%nat) as [Hi|Hi].
    - rewrite lookup_seq_lt by done. cbn [fmap option_fmap option_map]. rewrite Nat.add_0_l, Haddr by done.
      destruct (lookup_lt_is_Some_2 (i_addrs n) i) as [a ->]; [lia|done].
    - rewrite lookup_seq_ge by lia. symmetry. apply lookup_ge_None. lia. }
  rewrite Ea. unfold dinode_bytes.
  repeat first [rewrite get_at_app_l by (rewrite length_le_bytes; lia)
               |rewrite get_at_app_r by (rewrite length_le_bytes; lia); rewrite !length_le_bytes].
  cbn [Nat.sub]. rewrite !get_at_all by apply length_le_bytes.
  by rewrite !s16_bytes, u32_bytes.
Qed.

(** The other dinodes of the block keep their bytes. *)
Lemma load_put_dinode_other d o o' n m :
  (o + 64 <= length d)%nat -> length (i_addrs n) = 13%nat -> (o' + 64 <= o \/ o + 64 <= o')%nat ->
  load_dinode (put_dinode d o n) o' m = load_dinode d o' m.
Proof.
  intros Hd Hl Ho. pose proof (length_dinode_bytes n Hl) as Hlen. rewrite put_dinode_bytes by done.
  assert (Hget : forall k c, (k + c <= 64)%nat -> get_at (put_at d o (dinode_bytes n)) (o' + k) c =
    get_at d (o' + k) c) by (intros; apply get_put_other; lia).
  assert (H0 : get_at (put_at d o (dinode_bytes n)) o' 2 = get_at d o' 2).
  { pose proof (Hget 0%nat 2%nat ltac:(lia)) as E. by rewrite Nat.add_0_r in E. }
  unfold load_dinode, di_type, di_major, di_minor, di_nlink, di_size, get16, get32.
  rewrite H0, !Hget by lia. f_equal. apply list_fmap_ext. intros i j Hj.
  apply lookup_seq in Hj as [-> Hj]. change (Z.to_nat (NDIRECT + 1)) with 13%nat in Hj.
  unfold di_addr, get32. f_equal. replace (o' + 12 + 4 * (0 + i))%nat with (o' + (12 + 4 * i))%nat by lia.
  apply Hget. lia.
Qed.

(** ** The blocks of a file *)

(** The address of block [bn] of the file, 0 where there is none. *)
Definition addr_at (n : inode) (i : nat) : Z := default 0 (i_addrs n !! i).
Definition ind_at (V : Z -> list Z) (n : inode) (j : Z) : Z :=
  get32 (V (addr_at n 12)) (4 * Z.to_nat j).
Definition fblk (V : Z -> list Z) (n : inode) (bn : Z) : Z :=
  if bn <? NDIRECT then addr_at n (Z.to_nat bn)
  else if addr_at n 12 =? 0 then 0 else ind_at V n (bn - NDIRECT).

(** The byte at offset [off], and [len] bytes from there. *)
Definition fbyte (V : Z -> list Z) (n : inode) (off : Z) : Z :=
  default 0 (V (fblk V n (off / BSIZE)) !! Z.to_nat (off mod BSIZE)).
Definition fdata (V : Z -> list Z) (n : inode) (off : Z) (len : nat) : list Z :=
  (fun i => fbyte V n (off + Z.of_nat i)) <$> seq 0 len.

Lemma length_fdata V n off len : length (fdata V n off len) = len.
Proof. unfold fdata. by rewrite length_fmap, length_seq. Qed.

Lemma fdata_app V n off l1 l2 :
  fdata V n off (l1 + l2) = fdata V n off l1 ++ fdata V n (off + Z.of_nat l1) l2.
Proof.
  unfold fdata. rewrite seq_app, fmap_app. f_equal. replace (0 + l1)%nat with (l1 + 0)%nat by lia.
  rewrite <- (fmap_add_seq l1 0 l2), <- list_fmap_compose.
  apply list_fmap_ext. intros i j _. unfold compose. f_equal. lia.
Qed.

(** Bytes inside one block. *)
Lemma fdata_block V n off len :
  0 <= off -> off mod BSIZE + Z.of_nat len <= BSIZE ->
  length (V (fblk V n (off / BSIZE))) = Z.to_nat BSIZE ->
  fdata V n off len = get_at (V (fblk V n (off / BSIZE))) (Z.to_nat (off mod BSIZE)) len.
Proof.
  intros Ho Hl Hb. apply list_eq. intros i. unfold fdata. rewrite list_lookup_fmap, lookup_get_at.
  case_decide as Hi.
  - rewrite lookup_seq_lt by done. cbn [fmap option_fmap option_map]. unfold fbyte.
    replace ((off + Z.of_nat (0 + i)) / BSIZE) with (off / BSIZE) by plia.
    replace (Z.to_nat ((off + Z.of_nat (0 + i)) mod BSIZE)) with (Z.to_nat (off mod BSIZE) + i)%nat by plia.
    destruct (lookup_lt_is_Some_2 (V (fblk V n (off / BSIZE))) (Z.to_nat (off mod BSIZE) + i)%nat) as [c ->];
      [plia|done].
  - by rewrite lookup_seq_ge by lia.
Qed.

Section Inode.
Context {W : Wakeups} {C : BlockCache} (pid start size_ : Z).
Context (Hgeo : geometry start size_).
Implicit Types (V : Z -> list Z) (H : gmap Z nat) (bl : list Z) (sb : superblock).
Notation intx := (intx pid start size_).

Lemma wp_get_addr o s0 V bl H s ip n i (Q : Z -> kstate -> Prop) :
  intx o s0 V bl H s -> k_itable s0 !! ip = Some n -> (i < length (i_addrs n))%nat ->
  Q (addr_at n i) s -> wp (get_addr ip i) Q s.
Proof using Type.
  intros Ht Hn Hi HQ. unfold get_addr. apply wp_bind. eapply wp_tx_get_inode; [done..|].
  destruct (lookup_lt_is_Some_2 _ _ Hi) as [a Ha]. eapply wp_of_option; [done|].
  unfold addr_at in HQ. by rewrite Ha in HQ.
Qed.

(** bmap of a block that the file has: its address, and nothing changes. *)
Lemma wp_bmap_there o s0 V bl H s ip n bn (Q : Z -> kstate -> Prop) :
  intx o s0 V bl H s -> k_itable s0 !! ip = Some n -> i_dev n = ROOTDEV ->
  length (i_addrs n) = 13%nat -> 0 <= bn < MAXFILE -> fblk V n bn <> 0 ->
  H !! addr_at n 12 = None -> room bl H ->
  (forall s', intx o s0 V bl H s' -> Q (fblk V n bn) s') ->
  wp (bmap ip bn) Q s.
Proof using Type.
  intros Ht Hn Hdev Hlen Hbn Hne HN Hroom HQ. unfold bmap. apply wp_bind.
  eapply wp_tx_get_inode; [done..|]. rewrite Hdev. unfold fblk in *.
  destruct (Z.ltb_spec bn NDIRECT) as [Hd|Hd].
  - apply wp_bind. eapply wp_get_addr; [done..|plia|].
    destruct (Z.eqb_spec (addr_at n (Z.to_nat bn)) 0); [done|]. apply wp_ret. by apply HQ.
  - destruct (Z.ltb_spec (bn - NDIRECT) NINDIRECT); [|plia].
    apply wp_bind. eapply wp_get_addr; [done..|plia|]. change (Z.to_nat NDIRECT) with 12%nat.
    destruct (Z.eqb_spec (addr_at n 12) 0) as [E|E]; [done|]. unfold bmap_indirect.
    apply wp_bind. eapply wp_tx_bread; [exact Ht|done|done|]. intros i s1 Ht1.
    apply wp_bind. eapply wp_tx_bdata; [exact Ht1|apply lookup_insert_eq|].
    fold (ind_at V n (bn - NDIRECT)). destruct (Z.eqb_spec (ind_at V n (bn - NDIRECT)) 0); [done|].
    apply wp_bind, wp_ret. apply wp_bind.
    eapply wp_tx_brelse; [exact Ht1|apply lookup_insert_eq|]. intros s2 Ht2.
    rewrite delete_insert_id in Ht2 by done. apply wp_ret. by apply HQ.
Qed.

(** ** readi *)

(** How many blocks the [len] bytes at [off] touch. *)
Definition fspan (off len : Z) : nat :=
  if len <=? 0 then 0%nat else Z.to_nat ((off mod BSIZE + len - 1) / BSIZE + 1).

Lemma fspan_next off len m :
  0 <= off -> 0 < len -> m = Z.min len (BSIZE - off mod BSIZE) ->
  (S (fspan (off + m) (len - m)) <= fspan off len)%nat.
Proof using Type.
  clear Hgeo. intros Ho Hl Hm. unfold fspan. destruct (Z.leb_spec len 0); [lia|].
  destruct (Z.leb_spec (len - m) 0); plia.
Qed.

Lemma fspan_bound off len : (fspan off len < Z.to_nat (len / BSIZE) + 3)%nat.
Proof using Type. clear Hgeo. unfold fspan. destruct (Z.leb_spec len 0); plia. Qed.

(** The bytes [off, off + len) of the file are all in blocks it has. *)
Definition mapped V (n : inode) (off len : Z) : Prop :=
  forall x, off <= x < off + len -> fblk V n (x / BSIZE) <> 0.

Lemma readi_loop o s0 V bl s ip n len f (Q : Z * list Z -> kstate -> Prop) :
  k_itable s0 !! ip = Some n -> i_dev n = ROOTDEV -> length (i_addrs n) = 13%nat -> room bl ∅ ->
  len < 2 ^ 31 ->
  forall tot off out, intx o s0 V bl ∅ s -> 0 <= tot <= len -> 0 <= off ->
  off + (len - tot) <= MAXFILE * BSIZE -> mapped V n off (len - tot) ->
  (fspan off (len - tot) < f)%nat ->
  (forall s', intx o s0 V bl ∅ s' -> Q (len, out ++ fdata V n off (Z.to_nat (len - tot))) s') ->
  wp (loop f (readi_round ip len) (tot, off, DstLocal, out)) Q s.
Proof using Type.
  intros Hn Hdev Hlen Hroom Hl31. revert s.
  induction f as [|f IH]; intros s tot off out Ht Htot Hoff Hmax Hmap Hf HQ; [lia|].
  apply wp_loop. unfold readi_round. destruct (Z.ltb_spec tot len) as [Hlt|Hge].
  2:{ apply wp_ret. rewrite s32_small by lia. assert (tot = len) as -> by lia.
      rewrite Z.sub_diag in HQ. change (fdata V n off (Z.to_nat 0)) with (@nil Z) in HQ.
      rewrite app_nil_r in HQ. by apply HQ. }
  assert (Hb : fblk V n (off / BSIZE) <> 0) by (apply Hmap; lia).
  apply wp_bind. eapply wp_bmap_there; [exact Ht|done|done|done|plia|done|apply lookup_empty|done|].
  intros s1 Ht1. destruct (Z.eqb_spec (fblk V n (off / BSIZE)) 0); [done|].
  apply wp_bind. eapply wp_tx_get_inode; [done..|]. rewrite Hdev.
  apply wp_bind. eapply wp_tx_bread; [exact Ht1|apply lookup_empty|done|]. intros i s2 Ht2.
  apply wp_bind. eapply wp_tx_bdata; [exact Ht2|apply lookup_insert_eq|].
  set (m := Z.min (len - tot) (BSIZE - off mod BSIZE)).
  assert (Hm : 0 < m <= len - tot /\ off mod BSIZE + m <= BSIZE) by (unfold m; plia).
  rewrite <- fdata_block; [|done|plia|by eapply intx_length].
  apply wp_bind, wp_ret. cbn [Z.eqb]. apply wp_bind.
  eapply wp_tx_brelse; [exact Ht2|apply lookup_insert_eq|]. intros s3 Ht3.
  rewrite delete_insert_id in Ht3 by apply lookup_empty. apply wp_ret.
  apply IH; try done; try lia.
  - intros x Hx. apply Hmap. lia.
  - pose proof (fspan_next off (len - tot) m Hoff ltac:(lia) eq_refl).
    replace (len - (tot + m)) with (len - tot - m) by lia. lia.
  - intros s4 Ht4. replace (len - (tot + m)) with (len - tot - m) by lia.
    rewrite <- app_assoc. replace (fdata V n off (Z.to_nat m) ++ fdata V n (off + m) (Z.to_nat (len - tot - m)))
      with (fdata V n off (Z.to_nat (len - tot))); [by apply HQ|].
    rewrite <- (Z2Nat.id m) at 2 by lia. rewrite <- fdata_app. f_equal. lia.
Qed.

(** How many bytes readi reads. *)
Definition read_len (n : inode) (off len : Z) : Z :=
  if (i_size n <? off) || (u32 (off + len) <? off) then 0
  else if i_size n <? u32 (off + len) then i_size n - off else len.

Lemma wp_readi o s0 V bl s ip n off len (Q : Z * list Z -> kstate -> Prop) :
  intx o s0 V bl ∅ s -> k_itable s0 !! ip = Some n -> i_dev n = ROOTDEV ->
  length (i_addrs n) = 13%nat -> room bl ∅ -> 0 <= off -> 0 <= len < 2 ^ 32 ->
  0 <= i_size n <= MAXFILE * BSIZE -> mapped V n 0 (i_size n) ->
  (forall s', intx o s0 V bl ∅ s' ->
     Q (read_len n off len, fdata V n off (Z.to_nat (read_len n off len))) s') ->
  wp (readi ip DstLocal off len) Q s.
Proof using Type.
  intros Ht Hn Hdev Hlen Hroom Hoff Hl Hsz Hmap HQ. unfold readi. apply wp_bind.
  eapply wp_tx_get_inode; [done..|]. unfold read_len in HQ.
  destruct (Z.ltb_spec (i_size n) off) as [Hs|Hs]; [by apply wp_ret, HQ|]. cbn [orb] in *.
  destruct (Z.ltb_spec (u32 (off + len)) off) as [Hw|Hw]; [by apply wp_ret, HQ|].
  assert (Hu : u32 (off + len) = off + len) by (unfold u32 in *; plia). rewrite Hu in *.
  set (m := if i_size n <? off + len then i_size n - off else len) in *.
  assert (Hm : 0 <= m /\ off + m <= i_size n) by (unfold m; destruct (Z.ltb_spec (i_size n) (off + len)); lia).
  eapply (readi_loop o s0 V bl s ip n m); try done; rewrite ?Z.sub_0_r; try lia; try plia.
  - intros x Hx. apply Hmap. lia.
  - apply fspan_bound.
  - exact HQ.
Qed.
End Inode.
