(* ===== verification/FsBmap.v ===== *)
(** bmap of kernel/fs.c: the blocks of a file, allocated on demand, direct or
    through the indirect block. *)

From stdpp Require Import base numbers list gmap strings.
From S2P Require Import Prelude Params Mem State Locks Cache Vm Console Log Fs FsTx FsBlocks FsInode.

Implicit Types (V : Z -> list Z) (H : gmap Z nat) (bl : list Z) (sb : superblock) (n : inode).

(** A block of the data area that is marked as in use. *)
Definition data_used sb V (a : Z) : Prop := dstart sb <= a < sb_size sb /\ used sb V a = true.

(** The blocks of a file are in the data area, in use, and each is in one
    place of the file only. *)
Record file_ok sb V n : Prop := {
  fo_dev : i_dev n = ROOTDEV;
  fo_len : length (i_addrs n) = 13%nat;
  fo_blk : forall bn, 0 <= bn < MAXFILE -> fblk V n bn = 0 \/ data_used sb V (fblk V n bn);
  fo_ind : addr_at n 12 = 0 \/ data_used sb V (addr_at n 12);
  fo_inj : forall x y, 0 <= x < MAXFILE -> 0 <= y < MAXFILE ->
    fblk V n x <> 0 -> fblk V n x = fblk V n y -> x = y;
  fo_ind_ne : forall bn, 0 <= bn < MAXFILE -> fblk V n bn <> 0 -> fblk V n bn <> addr_at n 12;
}.

(** At least [k] blocks are free. *)
Definition has_free sb V (k : nat) : Prop :=
  exists fl, NoDup fl /\ (k <= length fl)%nat /\
    Forall (fun b => 0 <= b < sb_size sb /\ used sb V b = false) fl.

(** The lowest free block exists. *)
Lemma has_free_first sb V k : has_free sb V (S k) -> exists b, first_free sb V b.
Proof.
  intros ([|b fl] & _ & Hk & Hall); [simpl in Hk; lia|].
  apply Forall_cons in Hall as [[Hb Hu] _].
  assert (Hex : forall m, (forall x, 0 <= x < Z.of_nat m -> used sb V x = true) \/
    exists x, 0 <= x < Z.of_nat m /\ used sb V x = false /\ forall y, 0 <= y < x -> used sb V y = true).
  { induction m as [|m [IH|(x & Hx & Hux & Hlow)]]; [left; lia| |].
    - destruct (used sb V (Z.of_nat m)) eqn:E.
      + left. intros x Hx. destruct (decide (x = Z.of_nat m)) as [->|]; [done|]. apply IH. lia.
      + right. exists (Z.of_nat m). split_and!; [lia|lia|done|done].
    - right. exists x. split_and!; [lia|lia|done|done]. }
  destruct (Hex (Z.to_nat (sb_size sb))) as [Hn|(x & Hx & Hux & Hlow)].
  - rewrite Hn in Hu; [done|lia].
  - exists x. split_and!; [lia|lia|done|done].
Qed.

(** ** The contents after a block is allocated *)

(** [V'] has the blocks of [V] and [b], which is new. *)
Record allocated sb V (b : Z) V' : Prop := {
  al_data : dstart sb <= b < sb_size sb;
  al_free : used sb V b = false;
  al_used : forall x, 0 <= x < sb_size sb -> used sb V' x = bool_decide (x = b) || used sb V x;
  al_zero : V' b = zero_block;
  al_same : forall x, x <> b -> x < sb_bmapstart sb \/ dstart sb <= x -> V' x = V x;
}.

Section Allocated.
Context (start size_ : Z) (Hgeo : geometry start size_).

Lemma balloced_allocated sb V b :
  fs_layout start size_ sb -> (forall x, length (V x) = Z.to_nat BSIZE) ->
  meta_used sb V -> first_free sb V b -> allocated sb V b (balloced sb V b).
Proof using Hgeo.
  intros Hl Hlen Hm Hff. pose proof (first_free_data _ _ _ Hm Hff) as Hb.
  assert (Hbm := bm_block_range start size_ sb b Hl ltac:(destruct Hl, Hgeo; unfold dstart in *; plia)).
  split.
  - done.
  - apply Hff.
  - intros x Hx. pose proof (bm_block_range start size_ sb x Hl Hx). apply used_balloced; [done|lia| |lia].
    destruct Hl, Hgeo; unfold dstart in *; plia.
  - unfold balloced. apply vupd_eq.
  - intros x Hxb Hx. unfold balloced. rewrite vupd_ne, mark_other by lia. done.
Qed.
End Allocated.

Lemma allocated_ne sb V b V' a : allocated sb V b V' -> data_used sb V a -> a <> b.
Proof. intros Ha [_ Hu] ->. rewrite (al_free _ _ _ _ Ha) in Hu. done. Qed.

Lemma allocated_keep sb V b V' a : allocated sb V b V' -> data_used sb V a -> V' a = V a.
Proof.
  intros Ha Hd. apply (al_same _ _ _ _ Ha); [by eapply allocated_ne|]. destruct Hd as [? _]. lia.
Qed.

Lemma allocated_used sb V b V' a :
  0 <= dstart sb -> allocated sb V b V' -> data_used sb V a -> data_used sb V' a.
Proof.
  intros H0 Ha [Hr Hu]. split; [done|]. rewrite (al_used _ _ _ _ Ha), Hu by lia. apply orb_true_r.
Qed.

Lemma allocated_new sb V b V' : 0 <= dstart sb -> allocated sb V b V' -> data_used sb V' b.
Proof.
  intros H0 Ha. pose proof (al_data _ _ _ _ Ha) as Hb. split; [done|].
  by rewrite (al_used _ _ _ _ Ha), bool_decide_eq_true_2 by lia.
Qed.

Lemma allocated_meta sb V b V' :
  dstart sb <= sb_size sb -> allocated sb V b V' -> meta_used sb V -> meta_used sb V'.
Proof.
  intros Hl Ha Hm x Hx. rewrite (al_used _ _ _ _ Ha), Hm by lia. apply orb_true_r.
Qed.

Lemma allocated_free sb V b V' k :
  allocated sb V b V' -> has_free sb V (S k) -> has_free sb V' k.
Proof.
  intros Ha (fl & Hnd & Hk & Hall). exists (filter (fun x => x <> b) fl). split_and!.
  - by apply NoDup_filter.
  - destruct (decide (b ∈ fl)) as [Hin|Hin].
    + assert (E : fl ≡ₚ b :: filter (fun x => x <> b) fl).
      { apply NoDup_Permutation; [done|constructor; [rewrite list_elem_of_filter; tauto|by apply NoDup_filter]|].
        intros x. rewrite elem_of_cons, list_elem_of_filter. destruct (decide (x = b)) as [->|]; tauto. }
      apply Permutation_length in E. simpl in E. lia.
    + assert (E : filter (fun x => x <> b) fl = fl); [|rewrite E; lia].
      clear Hnd Hk Hall. induction fl as [|x fl IH]; [done|]. rewrite filter_cons_True by (intros ->; apply Hin; by left).
      f_equal. apply IH. intros ?. apply Hin. by right.
  - apply Forall_forall. intros x [Hx Hxf]%list_elem_of_filter. rewrite Forall_forall in Hall.
    destruct (Hall x Hxf) as [Hr Hu]. split; [done|]. rewrite (al_used _ _ _ _ Ha), Hu by done.
    by rewrite bool_decide_eq_false_2.
Qed.

(** ** The file after bmap *)

Record bmapped sb V n (bn a : Z) V' n' : Prop := {
  bm_there : fblk V' n' bn = a;
  bm_nz : a <> 0;
  bm_old : fblk V n bn <> 0 -> a = fblk V n bn;
  bm_others : forall x, 0 <= x < MAXFILE -> x <> bn -> fblk V' n' x = fblk V n x;
  bm_fields : n' = set_i_addrs (i_addrs n') n;
  bm_file : file_ok sb V' n';
  bm_used : forall y, data_used sb V y -> data_used sb V' y /\ (y <> addr_at n 12 -> V' y = V y);
  bm_low : forall y, y < sb_bmapstart sb -> V' y = V y;
  bm_fresh : fblk V n bn = 0 -> V' a = zero_block /\ used sb V a = false;
  bm_meta : meta_used sb V';
  bm_ind : addr_at n' 12 = addr_at n 12 \/
    addr_at n 12 = 0 /\ addr_at n' 12 <> 0 /\ used sb V (addr_at n' 12) = false;
}.

Definition set_addr_at (n : inode) (i : nat) (a : Z) : inode := set_i_addrs (<[i := a]> (i_addrs n)) n.

Lemma addr_at_set n i a k :
  (i < length (i_addrs n))%nat -> addr_at (set_addr_at n i a) k = if decide (k = i) then a else addr_at n k.
Proof.
  intros Hi. unfold addr_at, set_addr_at. cbn [i_addrs set_i_addrs]. case_decide as E.
  - subst. by rewrite list_lookup_insert_eq.
  - by rewrite list_lookup_insert_ne.
Qed.

(** A change that leaves the addresses and the indirect block alone. *)
Lemma fblk_same V V' n n' x :
  (forall i, (i < 13)%nat -> addr_at n' i = addr_at n i) ->
  (addr_at n 12 = 0 \/ V' (addr_at n 12) = V (addr_at n 12)) -> 0 <= x ->
  fblk V' n' x = fblk V n x.
Proof.
  intros Ha Hi Hx. unfold fblk, ind_at. rewrite (Ha 12%nat) by lia.
  destruct (Z.ltb_spec x NDIRECT); [apply Ha; plia|].
  destruct (Z.eqb_spec (addr_at n 12) 0); [done|]. destruct Hi as [|E]; [done|by rewrite E].
Qed.

Lemma get32_zero i : (i + 4 <= Z.to_nat BSIZE)%nat -> get32 zero_block i = 0.
Proof.
  intros Hi. unfold get32. assert (get_at zero_block i 4 = [0; 0; 0; 0]) as ->; [|done].
  unfold get_at, zero_block. rewrite drop_replicate, take_replicate.
  replace (4 `min` (Z.to_nat BSIZE - i))%nat with 4%nat by lia. done.
Qed.

Section Pure.
Context (sb : superblock) (V : Z -> list Z) (b : Z) (V' : Z -> list Z) (n : inode) (Hlay : dstart sb <= sb_size sb) (H0 : 0 < dstart sb).
Context (Hf : file_ok sb V n) (Ha : allocated sb V b V') (Hm : meta_used sb V).

Lemma ind_kept : addr_at n 12 = 0 \/ V' (addr_at n 12) = V (addr_at n 12).
Proof using Hf Ha. destruct (fo_ind _ _ _ Hf) as [|Hd]; [by left|right]. by eapply allocated_keep. Qed.

Lemma b_not_in_file bn : 0 <= bn < MAXFILE -> fblk V n bn <> b.
Proof using Hf Ha H0.
  intros Hbn E. pose proof (al_data _ _ _ _ Ha). destruct (fo_blk _ _ _ Hf bn Hbn) as [E'|Hd]; [lia|].
  by apply (allocated_ne _ _ _ _ _ Ha Hd).
Qed.

(** [n'] has [b] as block [bn] and its other blocks where [n] has them. *)
Lemma bmapped_intro bn V2 n' :
  0 <= bn < MAXFILE -> fblk V n bn = 0 ->
  i_dev n' = ROOTDEV -> length (i_addrs n') = 13%nat -> n' = set_i_addrs (i_addrs n') n ->
  addr_at n' 12 = addr_at n 12 -> fblk V2 n' bn = b ->
  (forall x, 0 <= x < MAXFILE -> x <> bn -> fblk V2 n' x = fblk V n x) ->
  (forall y, 0 <= y < sb_size sb -> used sb V2 y = used sb V' y) ->
  (forall y, y <> addr_at n 12 \/ addr_at n 12 = 0 -> V2 y = V' y) ->
  bmapped sb V n bn b V2 n'.
Proof using All.
  intros Hbn Hz Hdev Hlen Hfld Hind Hthere Hoth Hus Hsame. pose proof (al_data _ _ _ _ Ha) as Hb.
  assert (Hdu : forall y, data_used sb V' y -> data_used sb V2 y).
  { intros y [Hr Hu]. split; [done|]. by rewrite Hus by lia. }
  assert (Hkeep : forall y, data_used sb V y -> data_used sb V2 y).
  { intros y Hy. apply Hdu. eapply allocated_used; [lia|done..]. }
  assert (Hib : addr_at n 12 <> b).
  { destruct (fo_ind _ _ _ Hf) as [->|Hd]; [lia|]. by eapply allocated_ne. }
  split; try done.
  - lia.
  - split; try done.
    + intros x Hx. destruct (decide (x = bn)) as [->|Hne].
      * right. rewrite Hthere. apply Hdu. eapply allocated_new; [lia|done].
      * rewrite Hoth by done. destruct (fo_blk _ _ _ Hf x Hx); [by left|right; auto].
    + rewrite Hind. destruct (fo_ind _ _ _ Hf); [by left|right; auto].
    + intros x y Hx Hy Hne E. destruct (decide (x = bn)) as [->|Hx'], (decide (y = bn)) as [->|Hy']; try done.
      * rewrite Hthere, Hoth in E by done. by destruct (b_not_in_file y Hy).
      * rewrite Hthere, Hoth in E by done. by destruct (b_not_in_file x Hx).
      * rewrite !Hoth in E by done. rewrite Hoth in Hne by done. by eapply (fo_inj _ _ _ Hf).
    + intros x Hx Hne. rewrite Hind. destruct (decide (x = bn)) as [->|Hx']; [by rewrite Hthere; auto|].
      rewrite Hoth in * by done. by apply (fo_ind_ne _ _ _ Hf).
  - intros y Hy. split; [auto|]. intros Hne. rewrite Hsame by auto. by eapply allocated_keep.
  - intros y Hy. rewrite Hsame; [apply (al_same _ _ _ _ Ha); [unfold dstart in *; plia|by left]|].
    destruct (fo_ind _ _ _ Hf) as [|[Hd _]]; [by right|left]. unfold dstart in *. plia.
  - intros _. rewrite Hsame by auto. split; apply Ha.
  - intros y Hy. rewrite Hus by lia. by eapply allocated_meta.
  - by left.
Qed.

(** A direct block. *)
Lemma bmapped_direct bn :
  0 <= bn < NDIRECT -> fblk V n bn = 0 -> bmapped sb V n bn b V' (set_addr_at n (Z.to_nat bn) b).
Proof using All.
  intros Hbn Hz. pose proof (fo_len _ _ _ Hf) as Hlen.
  set (n' := set_addr_at n (Z.to_nat bn) b).
  assert (Haddr : forall k, addr_at n' k = if decide (k = Z.to_nat bn) then b else addr_at n k)
    by (intros; apply addr_at_set; plia).
  assert (Hind : addr_at n' 12 = addr_at n 12) by (rewrite Haddr, decide_False by plia; done).
  apply bmapped_intro; try done; [plia|apply Hf|unfold n', set_addr_at; cbn; by rewrite length_insert| |].
  - unfold fblk. destruct (Z.ltb_spec bn NDIRECT); [|plia]. by rewrite Haddr, decide_True.
  - intros x Hx Hne. unfold fblk, ind_at. rewrite Hind. destruct (Z.ltb_spec x NDIRECT).
    + by rewrite Haddr, decide_False by plia.
    + destruct (Z.eqb_spec (addr_at n 12) 0); [done|]. destruct ind_kept as [|E]; [done|by rewrite E].
Qed.

(** A block found through the indirect block. *)
Lemma bmapped_indirect j :
  0 <= j < NINDIRECT -> addr_at n 12 <> 0 -> ind_at V n j = 0 ->
  length (V (addr_at n 12)) = Z.to_nat BSIZE -> b < 2 ^ 32 ->
  bmapped sb V n (NDIRECT + j) b
    (vupd V' (addr_at n 12) (put32 (V' (addr_at n 12)) (4 * Z.to_nat j) b)) n.
Proof using All.
  intros Hj Hne Hz Hlen Hb32. set (ind := addr_at n 12) in *.
  assert (Hdi : data_used sb V ind) by (by destruct (fo_ind _ _ _ Hf)).
  assert (Ei : V' ind = V ind) by (by eapply allocated_keep).
  assert (Hind : forall k, 0 <= k < NINDIRECT -> ind_at (vupd V' ind (put32 (V' ind) (4 * Z.to_nat j) b)) n k =
    if decide (k = j) then b else ind_at V n k).
  { intros k Hk. unfold ind_at. fold ind. rewrite vupd_eq, Ei. case_decide as E.
    - subst. rewrite get32_put32 by plia. apply u32_small. pose proof (al_data _ _ _ _ Ha). lia.
    - rewrite get32_put32_other by plia. done. }
  apply bmapped_intro; [plia| |apply Hf|apply Hf|by destruct n|done| | | |].
  - unfold fblk. fold ind. destruct (Z.ltb_spec (NDIRECT + j) NDIRECT); [plia|].
    destruct (Z.eqb_spec ind 0); [done|]. by replace (NDIRECT + j - NDIRECT) with j by lia.
  - unfold fblk. fold ind. destruct (Z.ltb_spec (NDIRECT + j) NDIRECT); [plia|].
    destruct (Z.eqb_spec ind 0); [done|]. rewrite Hind by plia. by rewrite decide_True by lia.
  - intros x Hx Hxj. unfold fblk. fold ind. destruct (Z.ltb_spec x NDIRECT); [done|].
    destruct (Z.eqb_spec ind 0); [done|]. rewrite Hind by plia. by rewrite decide_False by lia.
  - intros y Hy. unfold used. rewrite vupd_ne; [done|]. destruct Hdi as [Hr _].
    unfold bm_block, dstart in *. plia.
  - intros y [Hy|Hy]; [by rewrite vupd_ne|done].
Qed.

(** The indirect block itself: all its entries are 0. *)
Lemma indirect_added :
  addr_at n 12 = 0 ->
  let n' := set_addr_at n 12 b in
  file_ok sb V' n' /\ forall x, 0 <= x < MAXFILE -> fblk V' n' x = fblk V n x.
Proof using All.
  intros Hz n'. pose proof (fo_len _ _ _ Hf) as Hlen. pose proof (al_data _ _ _ _ Ha) as Hb.
  assert (Haddr : forall k, addr_at n' k = if decide (k = 12%nat) then b else addr_at n k)
    by (intros; apply addr_at_set; lia).
  assert (Hsame : forall x, 0 <= x < MAXFILE -> fblk V' n' x = fblk V n x).
  { intros x Hx. unfold fblk, ind_at. rewrite (Haddr 12%nat), Hz.
    destruct (Z.ltb_spec x NDIRECT); [by rewrite Haddr, decide_False by plia|].
    rewrite decide_True by done. destruct (Z.eqb_spec b 0); [done|].
    rewrite (al_zero _ _ _ _ Ha), get32_zero by plia. done. }
  split; [|done]. split.
  - apply Hf.
  - unfold n', set_addr_at. cbn. by rewrite length_insert.
  - intros x Hx. rewrite Hsame by done. destruct (fo_blk _ _ _ Hf x Hx); [by left|right].
    eapply allocated_used; [lia|done..].
  - right. rewrite Haddr, decide_True by done. eapply allocated_new; [lia|done].
  - intros x y Hx Hy Hne E. rewrite !Hsame in E by done. rewrite Hsame in Hne by done. by eapply (fo_inj _ _ _ Hf).
  - intros x Hx _. rewrite Hsame, Haddr, decide_True by done. by apply b_not_in_file.
Qed.
End Pure.

Lemma has_free_le sb V k k' : (k' <= k)%nat -> has_free sb V k -> has_free sb V k'.
Proof. intros Hk (fl & F1 & F2 & F3). exists fl. split_and!; [done|lia|done]. Qed.

Lemma bmapped_there sb V n bn :
  meta_used sb V -> file_ok sb V n -> fblk V n bn <> 0 -> bmapped sb V n bn (fblk V n bn) V n.
Proof. intros Hm Hf Hne. split; try done; [by destruct n|by left]. Qed.

(** The indirect block allocated, then an entry of it. *)
Lemma bmapped_after_indirect sb V b V1 n bn a V' :
  0 < dstart sb -> dstart sb <= sb_size sb -> file_ok sb V n -> allocated sb V b V1 -> addr_at n 12 = 0 ->
  0 <= bn < MAXFILE ->
  (forall x, 0 <= x < MAXFILE -> fblk V1 (set_addr_at n 12 b) x = fblk V n x) ->
  fblk V n bn = 0 ->
  bmapped sb V1 (set_addr_at n 12 b) bn a V' (set_addr_at n 12 b) ->
  bmapped sb V n bn a V' (set_addr_at n 12 b).
Proof.
  intros Hp1 Hp2 Hf Hal Hz Hbn Hsame Hn0 [B1 B2 B0 B3 B4 B5 B6 B7 B8 B9 B10]. pose proof (al_data _ _ _ _ Hal) as Hb.
  assert (Eb : addr_at (set_addr_at n 12 b) 12 = b)
    by (rewrite addr_at_set, decide_True; [done|done|rewrite (fo_len _ _ _ Hf); lia]).
  split; try done.
  - intros x Hx Hne. by rewrite B3, Hsame.
  - intros y Hy. assert (Hy1 : data_used sb V1 y) by (eapply allocated_used; [lia|done..]).
    destruct (B6 y Hy1) as [H1 H2]. split; [done|]. intros _. rewrite H2.
    + by eapply allocated_keep.
    + rewrite Eb. by eapply allocated_ne.
  - intros y Hy. rewrite B7 by done. apply (al_same _ _ _ _ Hal); [unfold dstart in *; plia|by left].
  - intros _. destruct B8 as [H1 H2]; [by rewrite Hsame|]. split; [done|].
    destruct B5 as [_ _ Hblk _ _ Hine]. assert (a <> b).
    { intros ->. apply (Hine bn Hbn); [by rewrite B1|by rewrite B1, Eb]. }
    assert (Hd : data_used sb V' a) by (destruct (Hblk bn Hbn) as [E|Hd]; [congruence|by rewrite B1 in Hd]).
    destruct Hd as [Hr _]. rewrite (al_used _ _ _ _ Hal) in H2 by lia.
    by apply orb_false_iff in H2 as [_ ?].
  - right. rewrite Eb. split_and!; [done|lia|apply Hal].
Qed.

Section Bmap.
Context {W : Wakeups} {C : BlockCache} (pid start size_ : Z).
Context (Hgeo : geometry start size_).
Context (sb : superblock) (Hlay : fs_layout start size_ sb).
Notation intx := (intx pid start size_).

Lemma layout_pos : 0 < dstart sb /\ dstart sb <= sb_size sb.
Proof using Hgeo Hlay. destruct Hlay, Hgeo. split; [unfold dstart in *; plia|done]. Qed.

(** balloc in terms of [allocated], with the buffers [H] of data blocks
    held. *)
Lemma wp_balloc_new o s0 V bl H s (Q : Z -> kstate -> Prop) :
  intx o s0 V bl H s -> 1 <= o -> k_sb s0 = sb -> meta_used sb V -> has_free sb V 1 ->
  Z.of_nat (length bl) + 1 < size_ - 1 -> (S (length bl) + size H < nbuf)%nat ->
  (forall a i, H !! a = Some i -> data_used sb V a) ->
  (forall b V' bl' s', allocated sb V b V' -> (length bl' <= length bl + 2)%nat ->
     intx o s0 V' bl' H s' -> Q b s') ->
  wp (balloc ROOTDEV) Q s.
Proof using Hgeo Hlay.
  intros Ht Ho Hsb Hm Hfr Hlt Hroom HH HQ. destruct (has_free_first _ _ _ Hfr) as [b Hff].
  pose proof (first_free_data _ _ _ Hm Hff) as Hb.
  assert (HN : forall a, ~ data_used sb V a -> H !! a = None).
  { intros a Ha. destruct (H !! a) eqn:E; [|done]. by apply HH in E. }
  assert (Hal : allocated sb V b (balloced sb V b)).
  { eapply balloced_allocated; try done. intros x. by eapply intx_length. }
  eapply (wp_balloc _ _ _ Hgeo o s0 V bl H s sb b); try done.
  - intros x Hx. apply HN. intros [Hr _]. pose proof (bm_block_range start size_ sb x Hlay Hx). lia.
  - apply HN. intros Hd. by apply (allocated_ne _ _ _ _ _ Hal Hd).
  - intros s' Ht'. eapply HQ; [exact Hal| |exact Ht'].
    pose proof (length_add_block bl (bm_block sb b)).
    pose proof (length_add_block (add_block bl (bm_block sb b)) b). lia.
Qed.

Lemma wp_set_addr o s0 V bl H s ip n i a (Q : unit -> kstate -> Prop) :
  intx o s0 V bl H s -> k_itable s0 !! ip = Some n -> (i < length (i_addrs n))%nat ->
  (forall s', intx o (set_k_itable (<[ip := set_addr_at n i a]> (k_itable s0)) s0) V bl H s' -> Q tt s') ->
  wp (set_addr ip i a) Q s.
Proof using Type.
  intros Ht Hn Hi HQ. unfold set_addr. apply wp_bind. eapply wp_get_addr; [done..|].
  eapply wp_tx_upd_inode; [done..|]. exact HQ.
Qed.

(** The inode table with entry [ip] replaced. *)
Definition with_inode (ip : nat) (n : inode) (s0 : kstate) : kstate :=
  set_k_itable (<[ip := n]> (k_itable s0)) s0.

Lemma with_inode_id ip n s0 : k_itable s0 !! ip = Some n -> with_inode ip n s0 = s0.
Proof using Type. intros Hn. unfold with_inode. rewrite list_insert_id by done. by destruct s0. Qed.

Lemma with_inode_twice ip n m s0 : with_inode ip n (with_inode ip m s0) = with_inode ip n s0.
Proof using Type. unfold with_inode. ks. by rewrite list_insert_insert_eq. Qed.

Lemma with_inode_lookup ip n m s0 :
  k_itable s0 !! ip = Some m -> k_itable (with_inode ip n s0) !! ip = Some n.
Proof using Type. intros Hm. apply list_lookup_insert_eq. by eapply lookup_lt_Some. Qed.

Lemma wp_bmap_indirect o s0 V bl s n j (Q : Z -> kstate -> Prop) :
  intx o s0 V bl ∅ s -> 1 <= o -> k_sb s0 = sb -> meta_used sb V -> file_ok sb V n ->
  0 <= j < NINDIRECT -> addr_at n 12 <> 0 -> has_free sb V 1 ->
  Z.of_nat (length bl) + 3 < size_ - 1 ->
  (forall a V' bl' s', bmapped sb V n (NDIRECT + j) a V' n -> (length bl' <= length bl + 3)%nat ->
     (forall k, has_free sb V (S k) -> has_free sb V' k) ->
     intx o s0 V' bl' ∅ s' -> Q a s') ->
  wp (bmap_indirect ROOTDEV (addr_at n 12) j) Q s.
Proof using Hgeo Hlay.
  intros Ht Ho Hsb Hm Hf Hj Hne Hfr Hlt HQ. destruct layout_pos as [Hp1 Hp2].
  assert (Hb30 : (length bl < 26)%nat) by (destruct Hgeo; plia).
  assert (Hind : data_used sb V (addr_at n 12)) by (by destruct (fo_ind _ _ _ Hf)).
  assert (Hblk : data_block start size_ (addr_at n 12)).
  { eapply (layout_block start size_ Hgeo sb); [done|]. destruct Hind as [? _], Hlay. unfold dstart in *. plia. }
  unfold bmap_indirect.
  apply wp_bind. eapply wp_tx_bread; [exact Ht|apply lookup_empty|unfold room; rewrite map_size_empty; unfold nbuf; plia|].
  intros i s1 Ht1. rewrite insert_empty in Ht1.
  apply wp_bind. eapply wp_tx_bdata; [exact Ht1|apply lookup_singleton_eq|].
  fold (ind_at V n j). destruct (Z.eqb_spec (ind_at V n j) 0) as [Hz|Hnz].
  - apply wp_bind. apply wp_bind. eapply wp_balloc_new; [exact Ht1|done|done|done|done|lia| | |].
    { rewrite map_size_singleton. unfold nbuf. plia. }
    { intros a k [<- _]%lookup_singleton_Some. done. }
    intros b V' bl1 s2 Hal Hl1 Ht2. pose proof (al_data _ _ _ _ Hal) as Hb.
    destruct (Z.eqb_spec b 0); [lia|]. cbn [negb]. apply wp_bind, wp_when. cbv iota. apply wp_bind.
    eapply wp_tx_bdata; [exact Ht2|apply lookup_singleton_eq|].
    eapply (wp_tx_update_end _ _ _ Hgeo); [exact Ht2|done|apply lookup_singleton_eq| |done|lia|].
    { apply put32_block_ok; [plia|by eapply intx_block]. }
    intros s3 Ht3. apply wp_ret. apply wp_bind.
    eapply wp_tx_brelse; [exact Ht3|apply lookup_singleton_eq|]. rewrite delete_singleton_eq.
    intros s4 Ht4. apply wp_ret. eapply HQ; [|..|exact Ht4].
    + eapply (bmapped_indirect sb V b V' n); try done; [by eapply intx_length|destruct Hlay; lia].
    + pose proof (length_add_block bl1 (addr_at n 12)). lia.
    + intros k Hk. destruct (allocated_free _ _ _ _ _ Hal Hk) as (fl & F1 & F2 & F3).
      exists fl. split_and!; [done|done|]. eapply Forall_impl; [exact F3|]. intros x [Hx Hu]. split; [done|].
      rewrite <- Hu. unfold used. rewrite vupd_ne; [done|]. destruct Hind as [Hr _].
      unfold bm_block, dstart in *. plia.
  - apply wp_bind, wp_ret. apply wp_bind.
    eapply wp_tx_brelse; [exact Ht1|apply lookup_singleton_eq|]. rewrite delete_singleton_eq.
    intros s2 Ht2. apply wp_ret. apply (HQ _ V bl s2); [|lia| |done].
    + assert (E : fblk V n (NDIRECT + j) = ind_at V n j).
      { unfold fblk. destruct (Z.ltb_spec (NDIRECT + j) NDIRECT); [plia|].
        destruct (Z.eqb_spec (addr_at n 12) 0); [done|]. f_equal. lia. }
      rewrite <- E. apply bmapped_there; [done|done|by rewrite E].
    + intros k Hk. by eapply has_free_le, Hk; lia.
Qed.

(** bmap on any block of a file: the file has it afterwards, at the address
    returned. *)
Lemma wp_bmap o s0 V bl s ip n bn (Q : Z -> kstate -> Prop) :
  intx o s0 V bl ∅ s -> 1 <= o -> k_sb s0 = sb -> meta_used sb V ->
  k_itable s0 !! ip = Some n -> file_ok sb V n -> 0 <= bn < MAXFILE -> has_free sb V 2 ->
  Z.of_nat (length bl) + 5 < size_ - 1 ->
  (forall a V' n' bl' s', bmapped sb V n bn a V' n' -> (length bl' <= length bl + 5)%nat ->
     (forall k, has_free sb V (2 + k) -> has_free sb V' k) ->
     intx o (with_inode ip n' s0) V' bl' ∅ s' -> Q a s') ->
  wp (bmap ip bn) Q s.
Proof using Hgeo Hlay.
  intros Ht Ho Hsb Hm Hn Hf Hbn Hfr Hlt HQ. destruct layout_pos as [Hp1 Hp2].
  pose proof (fo_dev _ _ _ Hf) as Hdev. pose proof (fo_len _ _ _ Hf) as Hlen.
  assert (Hnb : (length bl + 6 < nbuf)%nat) by (unfold nbuf; destruct Hgeo; plia).
  destruct (decide (fblk V n bn = 0)) as [Hz|Hnz].
  2:{ eapply wp_bmap_there; [exact Ht|done|done|done|done|done|apply lookup_empty|
        unfold room; rewrite map_size_empty; lia|].
      intros s' Ht'. apply (HQ _ V n bl s'); [by apply bmapped_there|lia| |by rewrite with_inode_id].
      intros k Hk. eapply has_free_le, Hk. lia. }
  unfold bmap. apply wp_bind. eapply wp_tx_get_inode; [done..|]. rewrite Hdev.
  destruct (Z.ltb_spec bn NDIRECT) as [Hd|Hd].
  - apply wp_bind. eapply wp_get_addr; [done..|plia|].
    assert (E : addr_at n (Z.to_nat bn) = 0).
    { unfold fblk in Hz. by destruct (Z.ltb_spec bn NDIRECT); [|lia]. }
    rewrite E. cbn [Z.eqb]. apply wp_bind.
    eapply wp_balloc_new; [exact Ht|done|done|done|by eapply has_free_le, Hfr; lia|lia|
      rewrite map_size_empty; lia|by intros a i ?%lookup_empty_Some|].
    intros b V' bl1 s1 Hal Hl1 Ht1. pose proof (al_data _ _ _ _ Hal) as Hb.
    destruct (Z.eqb_spec b 0); [lia|]. apply wp_bind.
    eapply wp_set_addr; [exact Ht1|done|plia|]. intros s2 Ht2. apply wp_ret.
    apply (HQ _ V' (set_addr_at n (Z.to_nat bn) b) bl1 s2); [|lia| |done].
    + apply bmapped_direct; try done. lia.
    + intros k Hk. eapply allocated_free; [done|]. eapply has_free_le, Hk. lia.
  - destruct (Z.ltb_spec (bn - NDIRECT) NINDIRECT) as [Hi|]; [|plia].
    apply wp_bind. eapply wp_get_addr; [done..|plia|]. change (Z.to_nat NDIRECT) with 12%nat.
    destruct (Z.eqb_spec (addr_at n 12) 0) as [E|E].
    + apply wp_bind. eapply wp_balloc_new; [exact Ht|done|done|done|by eapply has_free_le, Hfr; lia|lia|
        rewrite map_size_empty; lia|by intros a i ?%lookup_empty_Some|].
      intros b V1 bl1 s1 Hal Hl1 Ht1. pose proof (al_data _ _ _ _ Hal) as Hb.
      destruct (Z.eqb_spec b 0); [lia|]. apply wp_bind.
      eapply wp_set_addr; [exact Ht1|done|lia|]. intros s2 Ht2.
      destruct (indirect_added sb V b V1 n Hp2 Hp1 Hf Hal Hm E) as [Hf1 Hsame].
      set (n1 := set_addr_at n 12 b) in *.
      assert (Ea : b = addr_at n1 12) by (unfold n1; rewrite addr_at_set, decide_True by (done || lia); done).
      assert (Hm1 : meta_used sb V1) by (by eapply allocated_meta).
      rewrite Ea. eapply (wp_bmap_indirect o _ V1 bl1 s2 n1); try done; [plia|lia| |lia|].
      { eapply allocated_free; [done|]. eapply has_free_le, Hfr. lia. }
      intros a V' bl' s' Hbm Hl' Hfree Ht'.
      replace (NDIRECT + (bn - NDIRECT)) with bn in Hbm by lia.
      apply (HQ a V' n1 bl' s'); [|lia| |done].
      * by eapply bmapped_after_indirect.
      * intros k Hk. apply Hfree. eapply allocated_free; [done|]. exact Hk.
    + eapply wp_bmap_indirect; try done; [plia|by eapply has_free_le, Hfr; lia|lia|].
      intros a V' bl' s' Hbm Hl' Hfree Ht'. replace (NDIRECT + (bn - NDIRECT)) with bn in Hbm by lia.
      apply (HQ a V' n bl' s'); [done|lia| |by rewrite with_inode_id].
      intros k Hk. apply Hfree. eapply has_free_le, Hk. lia.
Qed.
End Bmap.
