(* ===== verification/FsWrite.v ===== *)
(** writei of kernel/fs.c: bytes written to a file are the bytes read from
    it, other files keep theirs. *)

From stdpp Require Import base numbers list gmap strings.
From S2P Require Import Prelude Params Mem State Locks Cache Kalloc Vm Pagetable Uvm Ucopy Console Log Fs FsTx FsBlocks FsInode FsBmap.

Implicit Types (V : Z -> list Z) (H : gmap Z nat) (bl : list Z) (sb : superblock) (n : inode).

(** [V'] and [n'] are the contents and the inode after [bytes] have been
    written at offset [off]. *)
Record wrote sb V n (off : Z) (bytes : list Z) V' n' : Prop := {
  wr_file : file_ok sb V' n';
  wr_meta : meta_used sb V';
  wr_fields : n' = set_i_addrs (i_addrs n') n;
  wr_there : forall bn, 0 <= bn < MAXFILE -> fblk V n bn <> 0 -> fblk V' n' bn = fblk V n bn;
  wr_new : forall bn, 0 <= bn < MAXFILE -> fblk V n bn = 0 -> fblk V' n' bn <> 0 ->
    used sb V (fblk V' n' bn) = false;
  wr_ind : addr_at n' 12 = addr_at n 12 \/
    addr_at n 12 = 0 /\ addr_at n' 12 <> 0 /\ used sb V (addr_at n' 12) = false;
  wr_mapped : mapped V' n' off (Z.of_nat (length bytes));
  wr_bytes : forall i c, bytes !! i = Some c -> fbyte V' n' (off + Z.of_nat i) = c;
  wr_keep : forall x, 0 <= x < MAXFILE * BSIZE -> ~ (off <= x < off + Z.of_nat (length bytes)) ->
    fblk V' n' (x / BSIZE) <> 0 ->
    fbyte V' n' x = if fblk V n (x / BSIZE) =? 0 then 0 else fbyte V n x;
  wr_frame : forall y, data_used sb V y -> data_used sb V' y /\
    ((forall bn, 0 <= bn < MAXFILE -> fblk V n bn <> y) -> y <> addr_at n 12 -> V' y = V y);
  wr_low : forall y, y < sb_bmapstart sb -> V' y = V y;
}.

Lemma wrote_nil sb V n off : meta_used sb V -> file_ok sb V n -> wrote sb V n off [] V n.
Proof.
  intros Hm Hf. split; try done.
  - by destruct n.
  - by left.
  - intros x Hx. simpl in Hx. lia.
  - intros x Hx _ Hne. by destruct (Z.eqb_spec (fblk V n (x / BSIZE)) 0).
Qed.

Lemma wrote_app sb V n off b1 V1 n1 b2 V2 n2 :
  0 < dstart sb -> 0 <= off -> off + Z.of_nat (length (b1 ++ b2)) <= MAXFILE * BSIZE ->
  wrote sb V n off b1 V1 n1 -> wrote sb V1 n1 (off + Z.of_nat (length b1)) b2 V2 n2 ->
  wrote sb V n off (b1 ++ b2) V2 n2.
Proof.
  intros Hd0 H0 Hmax A B. rewrite length_app in *.
  assert (Hblk : forall x, 0 <= x < MAXFILE * BSIZE -> 0 <= x / BSIZE < MAXFILE) by (intros; plia).
  assert (Hth : forall bn, 0 <= bn < MAXFILE -> fblk V n bn <> 0 -> fblk V2 n2 bn = fblk V n bn).
  { intros bn Hbn Hne. rewrite (wr_there _ _ _ _ _ _ _ B), (wr_there _ _ _ _ _ _ _ A); try done.
    by rewrite (wr_there _ _ _ _ _ _ _ A). }
  assert (Hused : forall y, used sb V1 y = false -> dstart sb <= y < sb_size sb -> used sb V y = false).
  { intros y Hy Hr. destruct (used sb V y) eqn:E; [|done].
    destruct (wr_frame _ _ _ _ _ _ _ A y) as [[_ Hu] _]; [by split|congruence]. }
  split; try apply B.
  - rewrite (wr_fields _ _ _ _ _ _ _ B) at 1. by rewrite (wr_fields _ _ _ _ _ _ _ A).
  - done.
  - intros bn Hbn Hz Hne. destruct (decide (fblk V1 n1 bn = 0)) as [E|E].
    + apply Hused; [by apply (wr_new _ _ _ _ _ _ _ B)|].
      destruct (fo_blk _ _ _ (wr_file _ _ _ _ _ _ _ B) bn Hbn) as [|[? _]]; done.
    + rewrite (wr_there _ _ _ _ _ _ _ B) in * by done. by apply (wr_new _ _ _ _ _ _ _ A).
  - destruct (wr_ind _ _ _ _ _ _ _ B) as [->|(E1 & E2 & E3)]; [apply A|].
    destruct (wr_ind _ _ _ _ _ _ _ A) as [E|(_ & E4 & _)]; [|done].
    right. rewrite <- E. split_and!; [done|done|]. apply Hused; [done|].
    destruct (fo_ind _ _ _ (wr_file _ _ _ _ _ _ _ B)) as [|[? _]]; done.
  - intros x Hx. rewrite length_app in Hx. destruct (decide (off + Z.of_nat (length b1) <= x)) as [Hge|Hlt].
    + apply (wr_mapped _ _ _ _ _ _ _ B). lia.
    + pose proof (wr_mapped _ _ _ _ _ _ _ A x ltac:(lia)) as Hm.
      rewrite (wr_there _ _ _ _ _ _ _ B); [done|apply Hblk; lia|done].
  - intros i c Hi. apply lookup_app_Some in Hi as [Hi|[Hge Hi]].
    + pose proof (lookup_lt_Some _ _ _ Hi) as Hlt.
      assert (Hm : fblk V1 n1 ((off + Z.of_nat i) / BSIZE) <> 0) by (apply (wr_mapped _ _ _ _ _ _ _ A); lia).
      rewrite (wr_keep _ _ _ _ _ _ _ B); [|lia|lia|].
      * destruct (Z.eqb_spec (fblk V1 n1 ((off + Z.of_nat i) / BSIZE)) 0); [done|]. by apply (wr_bytes _ _ _ _ _ _ _ A).
      * by rewrite (wr_there _ _ _ _ _ _ _ B) by (done || apply Hblk; lia).
    + replace (off + Z.of_nat i) with (off + Z.of_nat (length b1) + Z.of_nat (i - length b1)) by lia.
      by apply (wr_bytes _ _ _ _ _ _ _ B).
  - intros x Hx Hout Hne. rewrite length_app in Hout. rewrite (wr_keep _ _ _ _ _ _ _ B) by (done || lia).
    destruct (Z.eqb_spec (fblk V1 n1 (x / BSIZE)) 0) as [E|E].
    + destruct (Z.eqb_spec (fblk V n (x / BSIZE)) 0) as [|E']; [done|].
      rewrite (wr_there _ _ _ _ _ _ _ A) in E by (done || by apply Hblk). done.
    + apply (wr_keep _ _ _ _ _ _ _ A); [lia|lia|done].
  - intros y Hy. destruct (wr_frame _ _ _ _ _ _ _ A y Hy) as [Hy1 HA].
    destruct (wr_frame _ _ _ _ _ _ _ B y Hy1) as [Hy2 HB]. split; [done|]. intros Hnf Hni.
    rewrite HB, HA; try done.
    + intros bn Hbn E. destruct (decide (fblk V n bn = 0)) as [Ez|Ez].
      * destruct Hy as [Hr Hu]. assert (used sb V (fblk V1 n1 bn) = false); [|congruence].
        apply (wr_new _ _ _ _ _ _ _ A); try done. lia.
      * rewrite (wr_there _ _ _ _ _ _ _ A) in E by done. by apply (Hnf bn).
    + destruct (wr_ind _ _ _ _ _ _ _ A) as [->|(_ & _ & Hu)]; [done|]. intros ->. destruct Hy. congruence.
  - intros y Hy. by rewrite (wr_low _ _ _ _ _ _ _ B), (wr_low _ _ _ _ _ _ _ A).
Qed.

(** ** One round of writei: a store into the block that bmap returned *)

Section Store.
Context (sb : superblock) (V : Z -> list Z) (n : inode) (V1 : Z -> list Z) (n1 : inode) (off a : Z) (bytes : list Z).
Context (Hd0 : 0 < dstart sb) (Hf : file_ok sb V n) (Hoff : 0 <= off < MAXFILE * BSIZE).
Context (Hbm : bmapped sb V n (off / BSIZE) a V1 n1) (Hlen : length (V1 a) = Z.to_nat BSIZE).
Context (Hin : off mod BSIZE + Z.of_nat (length bytes) <= BSIZE).
Let V2 := vupd V1 a (put_at (V1 a) (Z.to_nat (off mod BSIZE)) bytes).

Lemma store_bn : 0 <= off / BSIZE < MAXFILE.
Proof using All. plia. Qed.

Lemma store_data : data_used sb V1 a.
Proof using All.
  destruct (fo_blk _ _ _ (bm_file _ _ _ _ _ _ _ Hbm) (off / BSIZE) store_bn) as [E|Hd];
    rewrite (bm_there _ _ _ _ _ _ _ Hbm) in *; [|done]. by destruct (bm_nz _ _ _ _ _ _ _ Hbm).
Qed.

Lemma store_fblk x : 0 <= x -> fblk V2 n1 x = fblk V1 n1 x.
Proof using All.
  intros Hx. apply fblk_same; [done| |done]. right. unfold V2. rewrite vupd_ne; [done|].
  intros E. pose proof (bm_there _ _ _ _ _ _ _ Hbm) as Ha.
  apply (fo_ind_ne _ _ _ (bm_file _ _ _ _ _ _ _ Hbm) (off / BSIZE) store_bn); rewrite Ha; [apply Hbm|done].
Qed.

Lemma store_used y : 0 <= y < sb_size sb -> used sb V2 y = used sb V1 y.
Proof using All.
  intros Hy. unfold used, V2. rewrite vupd_ne; [done|]. destruct store_data as [? _].
  unfold bm_block, dstart in *. plia.
Qed.

Lemma store_data_used y : data_used sb V1 y -> data_used sb V2 y.
Proof using All. intros [Hr Hu]. split; [done|]. by rewrite store_used by lia. Qed.

Lemma store_file : file_ok sb V2 n1.
Proof using All.
  destruct (bm_file _ _ _ _ _ _ _ Hbm) as [F1 F2 F3 F4 F5 F6]. split; try done.
  - intros bn Hbn. rewrite store_fblk by lia. destruct (F3 bn Hbn); [by left|right]. by apply store_data_used.
  - destruct F4; [by left|right]. by apply store_data_used.
  - intros x y Hx Hy. rewrite !store_fblk by lia. by apply F5.
  - intros bn Hbn. rewrite store_fblk by lia. by apply F6.
Qed.

(** Bytes of the block that was stored into. *)
Lemma store_byte x :
  x / BSIZE = off / BSIZE ->
  fbyte V2 n1 x = if decide (off <= x < off + Z.of_nat (length bytes))
                  then default 0 (bytes !! Z.to_nat (x - off)) else fbyte V1 n1 x.
Proof using All.
  intros E. unfold fbyte. rewrite E, store_fblk by apply store_bn. rewrite (bm_there _ _ _ _ _ _ _ Hbm).
  unfold V2. rewrite vupd_eq, lookup_put_at by plia. do 2 case_decide; try plia.
  do 2 f_equal. plia.
Qed.

Lemma store_byte_other x :
  0 <= x < MAXFILE * BSIZE -> x / BSIZE <> off / BSIZE -> fblk V1 n1 (x / BSIZE) <> 0 ->
  fbyte V2 n1 x = fbyte V1 n1 x.
Proof using All.
  intros Hx Hne Hz. unfold fbyte. rewrite store_fblk by plia. unfold V2. rewrite vupd_ne; [done|].
  rewrite <- (bm_there _ _ _ _ _ _ _ Hbm). intros E. apply Hne.
  eapply (fo_inj _ _ _ (bm_file _ _ _ _ _ _ _ Hbm)); [plia|apply store_bn|done|done].
Qed.

(** A byte of the file before the store. *)
Lemma bmapped_byte x :
  0 <= x < MAXFILE * BSIZE -> fblk V1 n1 (x / BSIZE) <> 0 ->
  fbyte V1 n1 x = if fblk V n (x / BSIZE) =? 0 then 0 else fbyte V n x.
Proof using All.
  intros Hx Hne. assert (Hbx : 0 <= x / BSIZE < MAXFILE) by plia.
  assert (Hkeep : fblk V n (x / BSIZE) <> 0 -> V1 (fblk V n (x / BSIZE)) = V (fblk V n (x / BSIZE))).
  { intros Hz. destruct (fo_blk _ _ _ Hf _ Hbx) as [|Hd]; [done|].
    destruct (bm_used _ _ _ _ _ _ _ Hbm _ Hd) as [_ K]. apply K. by apply (fo_ind_ne _ _ _ Hf). }
  unfold fbyte. destruct (decide (x / BSIZE = off / BSIZE)) as [E|E].
  - rewrite E in *. rewrite (bm_there _ _ _ _ _ _ _ Hbm) in *.
    destruct (Z.eqb_spec (fblk V n (off / BSIZE)) 0) as [Hz|Hz].
    + destruct (bm_fresh _ _ _ _ _ _ _ Hbm Hz) as [-> _]. unfold zero_block.
      rewrite lookup_replicate_2 by plia. done.
    + by rewrite (bm_old _ _ _ _ _ _ _ Hbm Hz), Hkeep.
  - rewrite (bm_others _ _ _ _ _ _ _ Hbm) in * by done.
    destruct (Z.eqb_spec (fblk V n (x / BSIZE)) 0) as [Hz|Hz]; [done|]. by rewrite Hkeep.
Qed.

Lemma store_wrote : (0 < length bytes)%nat -> dstart sb <= sb_size sb -> wrote sb V n off bytes V2 n1.
Proof using All.
  intros Hb Hsz. assert (Hthere := bm_there _ _ _ _ _ _ _ Hbm). split.
  - apply store_file.
  - intros y Hy. rewrite store_used by lia. by apply (bm_meta _ _ _ _ _ _ _ Hbm).
  - apply Hbm.
  - intros bn Hbn Hne. rewrite store_fblk by lia. destruct (decide (bn = off / BSIZE)) as [->|E].
    + rewrite Hthere. by apply (bm_old _ _ _ _ _ _ _ Hbm).
    + by apply (bm_others _ _ _ _ _ _ _ Hbm).
  - intros bn Hbn Hz. rewrite store_fblk by lia. destruct (decide (bn = off / BSIZE)) as [->|E].
    + rewrite Hthere. intros _. by apply (bm_fresh _ _ _ _ _ _ _ Hbm).
    + by rewrite (bm_others _ _ _ _ _ _ _ Hbm).
  - apply Hbm.
  - intros x Hx. rewrite store_fblk by plia. replace (x / BSIZE) with (off / BSIZE) by plia.
    rewrite Hthere. apply Hbm.
  - intros i c Hi. pose proof (lookup_lt_Some _ _ _ Hi). rewrite store_byte by plia.
    rewrite decide_True by lia. replace (Z.to_nat (off + Z.of_nat i - off)) with i by lia. by rewrite Hi.
  - intros x Hx Hout. rewrite store_fblk by plia. intros Hne. rewrite <- bmapped_byte by done.
    destruct (decide (x / BSIZE = off / BSIZE)) as [E|E]; [|by apply store_byte_other].
    rewrite store_byte by done. by rewrite decide_False.
  - intros y Hy. destruct (bm_used _ _ _ _ _ _ _ Hbm y Hy) as [Hy1 K]. split; [by apply store_data_used|].
    intros Hnf Hni. unfold V2. rewrite vupd_ne; [by apply K|]. intros ->.
    destruct (decide (fblk V n (off / BSIZE) = 0)) as [Hz|Hz].
    + destruct (bm_fresh _ _ _ _ _ _ _ Hbm Hz) as [_ Hu]. destruct Hy. congruence.
    + apply (Hnf (off / BSIZE) store_bn). symmetry. by apply (bm_old _ _ _ _ _ _ _ Hbm).
  - intros y Hy. unfold V2. rewrite vupd_ne; [by apply (bm_low _ _ _ _ _ _ _ Hbm)|].
    destruct store_data as [Hr _]. unfold dstart in *. plia.
Qed.

Lemma store_free k : has_free sb V1 k -> has_free sb V2 k.
Proof using All.
  intros (fl & F1 & F2 & F3). exists fl. split_and!; [done|done|]. eapply Forall_impl; [exact F3|].
  intros x [Hx Hu]. split; [done|]. by rewrite store_used.
Qed.
End Store.

(** ** The loop of writei *)

(** What a copy from user space depends on is the same. *)
Definition user_same (s0 s : kstate) : Prop :=
  k_mem s = k_mem s0 /\ k_freelist s = k_freelist s0 /\ k_held s = [] /\ k_cur s = k_cur s0 /\
  procs_woken (k_procs s0) (k_procs s).

(** either_copyin reads [bytes] from [src]. *)
Definition src_gives (s0 : kstate) (src : ksrc) (bytes : list Z) : Prop :=
  ksrc_add src 0 = src /\
  forall s i m, user_same s0 s -> 0 <= i -> 0 <= m -> i + m <= Z.of_nat (length bytes) ->
    either_copyin (ksrc_add src i) m s = Ret (0, get_at bytes (Z.to_nat i) (Z.to_nat m)) s.

Lemma ksrc_add_add src i j : 0 <= i -> 0 <= j -> ksrc_add (ksrc_add src i) j = ksrc_add src (i + j).
Proof.
  intros Hi Hj. destruct src; cbn [ksrc_add].
  - f_equal. unfold u64. rewrite Zplus_mod_idemp_l. f_equal. lia.
  - f_equal. lia.
  - rewrite drop_drop. do 2 f_equal. lia.
Qed.

Lemma src_gives_local s0 bytes : src_gives s0 (SrcLocal bytes) bytes.
Proof.
  split; [done|]. intros s i m _ Hi Hm Hl. reflexivity.
Qed.

(** The user memory of the running process as a source. *)
Lemma ubytes_get (U : Z -> Z) m va len i k :
  (i + k <= len)%nat -> get_at (ubytes U m va len) i k = ubytes U m (va + Z.of_nat i) k.
Proof.
  intros H. replace len with (i + (k + (len - i - k)))%nat by lia. rewrite !ubytes_app.
  assert (Hl : forall va k, length (ubytes U m va k) = k) by (intros; unfold ubytes; by rewrite length_fmap, length_seq).
  rewrite get_at_app_r, Hl by (rewrite Hl; lia). rewrite Nat.sub_diag.
  rewrite get_at_app_l by (rewrite Hl; lia). by apply get_at_all.
Qed.

Lemma src_gives_user {L : Layout} {LO : LayoutOk L} s0 l T U np c p va len :
  k_cur s0 = Some c -> k_procs s0 !! c = Some p -> k_held s0 = [] ->
  uspace s0 l (p_pagetable p) T U np -> 0 <= va -> va + Z.of_nat len < 2 ^ 64 ->
  (forall x, va <= x < va + Z.of_nat len -> readable U x = true) ->
  src_gives s0 (SrcUser va) (ubytes U (k_mem s0) va len).
Proof.
  intros Hc Hp Hh Hu Hva Hend Hrd.
  assert (Hl : length (ubytes U (k_mem s0) va len) = len) by (unfold ubytes; by rewrite length_fmap, length_seq).
  split; [cbn; f_equal; rewrite Z.add_0_r; apply u64_small; lia|].
  intros s i m (Em & Ef & Eh & Ec & Hw) Hi Hm Him. rewrite Hl in Him. cbn [ksrc_add either_copyin].
  rewrite u64_small by lia. destruct (Forall2_lookup_l _ _ _ _ _ Hw Hp) as (p' & Hp' & Hwk).
  assert (Ep : p_pagetable p' = p_pagetable p) by (destruct Hwk as [->|[_ ->]]; done).
  assert (Hcur : curproc s = Ret p' s).
  { assert (Hq : wp curproc (fun q s' => q = p' /\ s' = s) s) by (eapply wp_curproc; [by rewrite Ec|done|done]).
    apply wp_run in Hq as (q & s' & E & -> & ->). done. }
  unfold bind. rewrite Hcur. cbn [obind]. rewrite Ep.
  assert (Hu' : uspace s l (p_pagetable p) T U np).
  { eapply uspace_same; [exact Hu|done|done|]. rewrite Eh. apply not_elem_of_nil. }
  destruct (copyin_spec s l (p_pagetable p) T U np (va + i) m Hu' ltac:(lia) ltac:(lia)) as (r & out & -> & Hres).
  destruct Hres as [(-> & _ & ->)|(_ & x & Hx & Hf)].
  - rewrite Em, ubytes_get by lia. do 3 f_equal. lia.
  - rewrite Hrd in Hf by lia. done.
Qed.

Section Write.
Context {W : Wakeups} {C : BlockCache} (pid start size_ : Z).
Context (Hgeo : geometry start size_).
Context (sb : superblock) (Hlay : fs_layout start size_ sb).
Notation intx := (intx pid start size_).

Lemma intx_user o s0 V bl H s : intx o s0 V bl H s -> user_same s0 s.
Proof using Type.
  intros [Hh (lg & [_ _ _ (bs & d' & ps & lg' & Hw & ->)] & _) _ _]. done.
Qed.

Lemma src_gives_with_inode s0 ip n src bytes :
  src_gives s0 src bytes -> src_gives (with_inode ip n s0) src bytes.
Proof using Type. intros [H1 H2]. split; [done|]. intros s i m Hu. by apply H2. Qed.

(** Budget: a round of the loop adds at most 6 blocks to the log and takes
    at most 2 free ones. *)
Lemma writei_loop o src all : 1 <= o -> forall f s0 V bl s ip n tot off (Q : Z * Z -> kstate -> Prop),
  intx o s0 V bl ∅ s -> k_sb s0 = sb -> meta_used sb V -> k_itable s0 !! ip = Some n ->
  file_ok sb V n -> src_gives s0 src all -> is_bytes all ->
  0 <= tot <= Z.of_nat (length all) -> 0 <= off ->
  let rest := drop (Z.to_nat tot) all in
  let k := fspan off (Z.of_nat (length all) - tot) in
  off + Z.of_nat (length rest) <= MAXFILE * BSIZE ->
  (k < f)%nat -> has_free sb V (2 * k) -> Z.of_nat (length bl) + 6 * Z.of_nat k < size_ - 1 ->
  (forall V' n' bl' s', wrote sb V n off rest V' n' -> (length bl' <= length bl + 6 * k)%nat ->
     intx o (with_inode ip n' s0) V' bl' ∅ s' -> Q (Z.of_nat (length all), off + Z.of_nat (length rest)) s') ->
  wp (loop f (writei_round ip (Z.of_nat (length all))) (tot, off, ksrc_add src tot)) Q s.
Proof using Hgeo Hlay.
  intros Ho. destruct (layout_pos start size_ Hgeo sb Hlay) as [Hd0 Hd1].
  induction f as [|f IH]; intros s0 V bl s ip n tot off Q Ht Hsb Hm Hn Hf Hsrc Hby Htot Hoff rest k Hmax Hk Hfr Hlt HQ; [lia|].
  assert (Hrest : length rest = Z.to_nat (Z.of_nat (length all) - tot)) by (unfold rest; rewrite length_drop; lia).
  apply wp_loop. unfold writei_round. destruct (Z.ltb_spec tot (Z.of_nat (length all))) as [Hl|Hl].
  2:{ apply wp_ret. assert (Hr0 : rest = []) by (apply length_zero_iff_nil; lia). rewrite Hr0 in *.
      replace tot with (Z.of_nat (length all)) by lia. replace off with (off + Z.of_nat (length (@nil Z))) by (simpl; lia).
      apply (HQ V n bl s); [by apply wrote_nil|lia|]. by rewrite with_inode_id. }
  set (m := Z.min (Z.of_nat (length all) - tot) (BSIZE - off mod BSIZE)) in *.
  assert (Hm0 : 0 < m <= Z.of_nat (length all) - tot /\ off mod BSIZE + m <= BSIZE) by (unfold m; plia).
  pose proof (fspan_next off (Z.of_nat (length all) - tot) m Hoff ltac:(lia) eq_refl) as Hspan. fold k in Hspan.
  apply wp_bind. eapply (wp_bmap pid start size_ Hgeo sb Hlay); [exact Ht|done|done|done|exact Hn|done|plia| |lia|].
  { eapply has_free_le, Hfr. lia. }
  intros a V1 n1 bl1 s1 Hbm Hl1 Hfree Ht1.
  destruct (Z.eqb_spec a 0) as [E|_]; [by destruct (bm_nz _ _ _ _ _ _ _ Hbm)|].
  assert (Hn1 : k_itable (with_inode ip n1 s0) !! ip = Some n1) by (by eapply with_inode_lookup).
  apply wp_bind. eapply wp_tx_get_inode; [done..|].
  rewrite (fo_dev _ _ _ (bm_file _ _ _ _ _ _ _ Hbm)).
  assert (Hb30 : (length bl1 < nbuf)%nat) by (unfold nbuf; destruct Hgeo; plia).
  apply wp_bind. eapply wp_tx_bread; [exact Ht1|apply lookup_empty|unfold room; rewrite map_size_empty; lia|].
  intros i s2 Ht2. rewrite insert_empty in Ht2.
  set (chunk := get_at all (Z.to_nat tot) (Z.to_nat m)).
  assert (Hchunk : length chunk = Z.to_nat m) by (apply length_get_at; lia).
  apply wp_bind. unfold wp at 1. fold m.
  rewrite (proj2 (src_gives_with_inode _ ip n1 _ _ Hsrc) s2 tot m) by (lia || by eapply intx_user).
  fold chunk. apply wp_bind. eapply wp_tx_bdata; [exact Ht2|apply lookup_singleton_eq|]. cbn [fst snd Z.eqb].
  assert (Hlen : length (V1 a) = Z.to_nat BSIZE) by (by eapply intx_length).
  assert (Hbyt : is_bytes chunk) by (by apply get_at_bytes).
  destruct (store_data sb V n V1 n1 off a chunk ltac:(done) ltac:(done) ltac:(lia) Hbm Hlen ltac:(lia)) as [Hda _].
  pose proof (store_wrote sb V n V1 n1 off a chunk ltac:(done) ltac:(done) ltac:(lia) Hbm Hlen ltac:(lia)
    ltac:(lia) ltac:(done)) as Hw1.
  pose proof (store_free sb V n V1 n1 off a chunk ltac:(done) ltac:(done) ltac:(lia) Hbm Hlen ltac:(lia)) as Hfr1.
  set (V2 := vupd V1 a (put_at (V1 a) (Z.to_nat (off mod BSIZE)) chunk)) in *.
  eapply (wp_tx_update pid start size_ Hgeo); [exact Ht2|done|apply lookup_singleton_eq| | |lia|].
  { apply put_block_ok; [by eapply intx_block|done|plia]. }
  { eapply (layout_block start size_ Hgeo sb); [done|]. destruct Hlay. unfold dstart in *. plia. }
  intros s3 Ht3. apply wp_bind. eapply wp_tx_brelse; [exact Ht3|apply lookup_singleton_eq|].
  rewrite delete_singleton_eq. intros s4 Ht4. apply wp_ret. rewrite ksrc_add_add by lia.
  fold V2 in Ht4. pose proof (length_add_block bl1 a) as Hl2.
  replace (Z.of_nat (length all) - tot - m) with (Z.of_nat (length all) - (tot + m)) in Hspan by lia.
  assert (Esplit : rest = chunk ++ drop (Z.to_nat (tot + m)) all).
  { unfold rest, chunk, get_at. rewrite Z2Nat.inj_add, <- drop_drop by lia. by rewrite take_drop. }
  assert (Hrest2 : (length chunk + length (drop (Z.to_nat (tot + m)) all) = length rest)%nat)
    by (rewrite Esplit, length_app; done).
  eapply (IH (with_inode ip n1 s0) V2 (add_block bl1 a) s4 ip n1 (tot + m) (off + m)); try done; try lia.
  - apply Hw1.
  - apply Hw1.
  - apply Hfr1, Hfree. eapply has_free_le, Hfr. lia.
  - intros V' n' bl' s' Hw Hl' Ht'. rewrite with_inode_twice in Ht'.
    replace (off + m + Z.of_nat (length (drop (Z.to_nat (tot + m)) all))) with (off + Z.of_nat (length rest)) by lia.
    apply (HQ V' n' bl' s'); [|lia|done]. rewrite Esplit. eapply wrote_app; [done|done| |exact Hw1|].
    + rewrite length_app. lia.
    + by replace (off + Z.of_nat (length chunk)) with (off + m) by lia.
Qed.

(** ** iupdate *)

(** The block of an inode, its dinode there, and the contents after
    iupdate. *)
Definition iblock (j : Z) : Z := IBLOCK j (sb_inodestart sb).
Definition dinode_of V (j : Z) (m : inode) : inode := load_dinode (V (iblock j)) (dinode_off j) m.
Definition iupdated V n : Z -> list Z :=
  vupd V (iblock (i_inum n)) (put_dinode (V (iblock (i_inum n))) (dinode_off (i_inum n)) n).

(** Dinode [j] is between the start of the inodes and the bitmap. *)
Definition inum_ok (j : Z) : Prop := 0 <= j /\ sb_inodestart sb + j / IPB < sb_bmapstart sb.

Lemma iblock_range j : inum_ok j -> sb_inodestart sb <= iblock j < sb_bmapstart sb /\
  iblock j = j / IPB + sb_inodestart sb.
Proof using Hgeo Hlay.
  intros [H1 H2]. destruct Hlay, Hgeo. unfold iblock, IBLOCK. unfold dstart in *.
  change IPB with 16 in *. rewrite u32_small; plia.
Qed.

Lemma dinode_off_range j : 0 <= j -> (dinode_off j + 64 <= Z.to_nat BSIZE)%nat.
Proof using Type. clear. intros Hi. unfold dinode_off. change IPB with 16. change sizeof_dinode with 64. plia. Qed.

Lemma dinode_off_apart j k :
  inum_ok j -> inum_ok k -> j <> k -> iblock j = iblock k ->
  (dinode_off j + 64 <= dinode_off k \/ dinode_off k + 64 <= dinode_off j)%nat.
Proof using Hgeo Hlay.
  intros Hj Hk Hne E. destruct (iblock_range j Hj) as [_ Ej], (iblock_range k Hk) as [_ Ek].
  destruct Hj, Hk. unfold dinode_off. change IPB with 16 in *. change sizeof_dinode with 64. plia.
Qed.

Lemma wp_iupdate o s0 V bl s ip n (Q : unit -> kstate -> Prop) :
  intx o s0 V bl ∅ s -> 1 <= o -> k_sb s0 = sb -> k_itable s0 !! ip = Some n ->
  i_dev n = ROOTDEV -> length (i_addrs n) = 13%nat -> inum_ok (i_inum n) -> Z.of_nat (length bl) < size_ - 1 ->
  (forall s', intx o s0 (iupdated V n) (add_block bl (iblock (i_inum n))) ∅ s' -> Q tt s') ->
  wp (iupdate ip) Q s.
Proof using Hgeo Hlay.
  intros Ht Ho Hsb Hn Hdev Hlen Hi Hlt HQ. destruct (iblock_range _ Hi) as [Hr _].
  pose proof (dinode_off_range _ (proj1 Hi)) as Hoff.
  unfold iupdate. apply wp_bind. eapply wp_tx_get_inode; [done..|].
  apply wp_bind. eapply wp_tx_sb; [done|]. rewrite Hdev, Hsb. fold (iblock (i_inum n)).
  apply wp_bind. eapply wp_tx_bread; [exact Ht|apply lookup_empty| |].
  { unfold room. rewrite map_size_empty. unfold nbuf. destruct Hgeo. plia. }
  intros i s1 Ht1. rewrite insert_empty in Ht1.
  apply wp_bind. eapply wp_tx_get_inode; [done..|].
  apply wp_bind. eapply wp_tx_bdata; [exact Ht1|apply lookup_singleton_eq|].
  eapply (wp_tx_update pid start size_ Hgeo); [exact Ht1|done|apply lookup_singleton_eq| | |done|].
  { rewrite put_dinode_bytes by (done || erewrite intx_length by exact Ht1; done).
    apply put_block_ok; [by eapply intx_block|apply dinode_bytes_bytes|rewrite length_dinode_bytes; done]. }
  { eapply (layout_block start size_ Hgeo sb); [done|]. destruct Hlay. unfold dstart in *. plia. }
  intros s2 Ht2. eapply wp_tx_brelse; [exact Ht2|apply lookup_singleton_eq|].
  rewrite delete_singleton_eq. exact HQ.
Qed.

(** iupdate changes the inode's dinode, no other dinode and no other block. *)
Lemma iupdated_same V n m :
  inum_ok (i_inum n) -> inode_ok n -> length (V (iblock (i_inum n))) = Z.to_nat BSIZE ->
  dinode_of (iupdated V n) (i_inum n) m = same_fields n m.
Proof using Type.
  intros [Hi _] Hn Hlen. unfold dinode_of, iupdated. rewrite vupd_eq. apply load_put_dinode; [|done].
  rewrite Hlen. by apply dinode_off_range.
Qed.

Lemma iupdated_other V n j m :
  inum_ok (i_inum n) -> inum_ok j -> j <> i_inum n -> length (i_addrs n) = 13%nat ->
  length (V (iblock (i_inum n))) = Z.to_nat BSIZE ->
  dinode_of (iupdated V n) j m = dinode_of V j m.
Proof using Hgeo Hlay.
  intros Hi Hj Hne Hl Hlen. unfold dinode_of, iupdated. destruct (decide (iblock j = iblock (i_inum n))) as [E|E].
  - rewrite E, vupd_eq. apply load_put_dinode_other; [|done|].
    + rewrite Hlen. by apply dinode_off_range, Hi.
    + destruct (dinode_off_apart j (i_inum n)); auto.
  - by rewrite vupd_ne.
Qed.

Lemma iupdated_high V n y : inum_ok (i_inum n) -> sb_bmapstart sb <= y -> iupdated V n y = V y.
Proof using Hgeo Hlay. intros Hi Hy. destruct (iblock_range _ Hi). apply vupd_ne. lia. Qed.

(** Files depend on the bitmap and the data area only. *)
Lemma used_high V V' y :
  (forall x, sb_bmapstart sb <= x -> V' x = V x) -> 0 <= y -> used sb V' y = used sb V y.
Proof using Type. intros Hs Hy. unfold used, bm_block. rewrite Hs; [done|]. plia. Qed.

Lemma data_used_high V V' y :
  (forall x, sb_bmapstart sb <= x -> V' x = V x) -> data_used sb V y -> data_used sb V' y.
Proof using Hgeo Hlay.
  intros Hs [Hr Hu]. destruct (layout_pos start size_ Hgeo sb Hlay). split; [done|]. by rewrite (used_high V) by (done || lia).
Qed.

Lemma data_high V y : data_used sb V y -> sb_bmapstart sb <= y.
Proof using Hgeo Hlay.
  destruct (layout_pos start size_ Hgeo sb Hlay). destruct Hlay. intros [Hr _]. unfold dstart in *. plia.
Qed.

(** A file whose blocks stay in use and whose indirect block is not
    changed. *)
Lemma file_ok_keep V V' n :
  file_ok sb V n -> (forall y, data_used sb V y -> data_used sb V' y) ->
  (addr_at n 12 <> 0 -> V' (addr_at n 12) = V (addr_at n 12)) ->
  file_ok sb V' n /\ forall bn, 0 <= bn -> fblk V' n bn = fblk V n bn.
Proof using Type.
  intros [F1 F2 F3 F4 F5 F6] Hu Hi.
  assert (Hb : forall bn, 0 <= bn -> fblk V' n bn = fblk V n bn).
  { intros bn Hbn. apply fblk_same; [done| |done]. destruct (decide (addr_at n 12 = 0)); auto. }
  split; [|done]. split; try done.
  - intros bn Hbn. rewrite Hb by lia. destruct (F3 bn Hbn); auto.
  - destruct F4; auto.
  - intros x y Hx Hy. rewrite !Hb by lia. auto.
  - intros bn Hbn. rewrite Hb by lia. auto.
Qed.

(** ** writei *)

(** A file as system calls find it: its blocks are its own, it has the blocks
    of all its bytes, and its inode fits the disk format. *)
Record file_wf V n : Prop := {
  fw_file : file_ok sb V n;
  fw_inode : inode_ok n;
  fw_inum : inum_ok (i_inum n);
  fw_size : i_size n <= MAXFILE * BSIZE;
  fw_mapped : mapped V n 0 (i_size n);
}.

(** Two files share no block. *)
Definition has_block V n (a : Z) : Prop :=
  a <> 0 /\ (a = addr_at n 12 \/ exists bn, 0 <= bn < MAXFILE /\ fblk V n bn = a).
Definition disjoint_files V n m : Prop := forall a, has_block V m a -> ~ has_block V n a.

(** [m] is the same file in [V'] as in [V]. *)
Definition same_file V V' m : Prop :=
  file_ok sb V' m /\ (forall bn, 0 <= bn < MAXFILE -> fblk V' m bn = fblk V m bn) /\
  forall x, 0 <= x < MAXFILE * BSIZE -> fblk V m (x / BSIZE) <> 0 -> fbyte V' m x = fbyte V m x.

(** [V'] and [n'] are the contents and the inode after a successful
    [writei (ip, bytes, off)]. *)
Record written V n (off : Z) (bytes : list Z) V' n' : Prop := {
  wn_fields : n' = set_i_size (Z.max (i_size n) (off + Z.of_nat (length bytes))) (set_i_addrs (i_addrs n') n);
  wn_wf : file_wf V' n';
  wn_meta : meta_used sb V';
  wn_disk : forall m, dinode_of V' (i_inum n) m = same_fields n' m;
  wn_dinodes : forall j m, inum_ok j -> j <> i_inum n -> dinode_of V' j m = dinode_of V j m;
  wn_bytes : fdata V' n' off (length bytes) = bytes;
  wn_keep : forall x, 0 <= x < i_size n -> ~ (off <= x < off + Z.of_nat (length bytes)) ->
    fbyte V' n' x = fbyte V n x;
  wn_others : forall m, file_ok sb V m -> disjoint_files V n m -> same_file V V' m;
}.

Lemma file_ok_addrs V n : file_ok sb V n -> Forall (fun a => 0 <= a < 2 ^ 32) (i_addrs n).
Proof using Hgeo Hlay.
  intros Hf. destruct (layout_pos start size_ Hgeo sb Hlay) as [Hd0 _]. destruct Hlay as [_ _ _ Hsz].
  apply Forall_lookup. intros i a Ha.
  assert (Hi : (i < 13)%nat) by (rewrite <- (fo_len _ _ _ Hf); by eapply lookup_lt_Some).
  assert (E : addr_at n i = a) by (unfold addr_at; by rewrite Ha).
  assert (Hd : a = 0 \/ data_used sb V a); [|destruct Hd as [->|[Hr _]]; lia].
  destruct (decide (i = 12%nat)) as [->|Hne]; [rewrite <- E; apply Hf|].
  assert (Ef : fblk V n (Z.of_nat i) = a).
  { unfold fblk. destruct (Z.ltb_spec (Z.of_nat i) NDIRECT); [|plia]. by rewrite Nat2Z.id. }
  rewrite <- Ef. apply Hf. plia.
Qed.

(** The blocks of a file that shares none with the one written to. *)
Lemma wrote_others V n off bytes V1 n1 m :
  wrote sb V n off bytes V1 n1 -> file_ok sb V m -> disjoint_files V n m -> same_file V V1 m.
Proof using Type.
  intros Hw Hm Hdis.
  assert (Hkeep : forall a, has_block V m a -> V1 a = V a).
  { intros a Ha. assert (Hd : data_used sb V a).
    { destruct Ha as [Hz [->|(bn & Hbn & <-)]]; [by destruct (fo_ind _ _ _ Hm)|by destruct (fo_blk _ _ _ Hm bn Hbn)]. }
    destruct (wr_frame _ _ _ _ _ _ _ Hw a Hd) as [_ K]. pose proof (proj1 Ha) as Hz. apply K.
    - intros bn Hbn E. apply (Hdis a Ha). split; [done|]. right. by exists bn.
    - intros E. apply (Hdis a Ha). split; [done|]. by left. }
  destruct (file_ok_keep V V1 m Hm) as [Hf1 Hb].
  - intros y Hy. by apply (wr_frame _ _ _ _ _ _ _ Hw).
  - intros Hz. apply Hkeep. split; [done|by left].
  - split; [done|]. split; [intros; apply Hb; lia|]. intros x Hx Hz. unfold fbyte. rewrite Hb by plia.
    rewrite Hkeep; [done|]. split; [done|]. right. exists (x / BSIZE). split; [plia|done].
Qed.

Section Written.
Context (V : Z -> list Z) (n : inode) (off : Z) (bytes : list Z) (V1 : Z -> list Z) (n1 : inode).
Context (Hwf : file_wf V n) (Hw : wrote sb V n off bytes V1 n1) (HV1 : forall b, length (V1 b) = Z.to_nat BSIZE).
Context (Hoff : 0 <= off <= i_size n) (Hmax : off + Z.of_nat (length bytes) <= MAXFILE * BSIZE).
Let n2 := set_i_size (Z.max (i_size n) (off + Z.of_nat (length bytes))) n1.
Let V2 := iupdated V1 n2.

Lemma written_inum : i_inum n2 = i_inum n.
Proof using All. unfold n2. cbn. rewrite (wr_fields _ _ _ _ _ _ _ Hw). by destruct n. Qed.

Lemma written_high y : sb_bmapstart sb <= y -> V2 y = V1 y.
Proof using All. intros Hy. apply iupdated_high; [rewrite written_inum; apply Hwf|done]. Qed.

Lemma written_file m : file_ok sb V1 m -> same_file V1 V2 m.
Proof using All.
  intros Hm. destruct (file_ok_keep V1 V2 m Hm) as [Hf Hb].
  - intros y. apply data_used_high, written_high.
  - intros Hz. apply written_high. destruct (fo_ind _ _ _ Hm); [done|]. by eapply data_high.
  - split; [done|]. split; [intros; apply Hb; lia|]. intros x Hx Hz. unfold fbyte. rewrite Hb by plia.
    rewrite written_high; [done|]. destruct (fo_blk _ _ _ Hm (x / BSIZE)); [plia|done|]. by eapply data_high.
Qed.

Lemma written_inode : inode_ok n2.
Proof using All.
  pose proof (fw_inode _ _ Hwf) as [I1 I2 I3 I4 I5 I6 I7]. pose proof (fw_size _ _ Hwf) as Hs.
  pose proof (wr_fields _ _ _ _ _ _ _ Hw) as Ef.
  unfold n2. split; cbn; try (rewrite Ef; done).
  - plia.
  - apply (wr_file _ _ _ _ _ _ _ Hw).
  - eapply file_ok_addrs, Hw.
Qed.

(** The blocks of the bytes the file has now. *)
Lemma written_mapped x : 0 <= x < i_size n2 -> fblk V1 n1 (x / BSIZE) <> 0.
Proof using All.
  unfold n2. cbn. intros Hx. pose proof (fw_size _ _ Hwf).
  destruct (decide (off <= x < off + Z.of_nat (length bytes))) as [Hin|Hout].
  - by apply (wr_mapped _ _ _ _ _ _ _ Hw).
  - assert (Hz : fblk V n (x / BSIZE) <> 0) by (apply (fw_mapped _ _ Hwf); lia).
    rewrite (wr_there _ _ _ _ _ _ _ Hw); [done|plia|done].
Qed.

Lemma written_byte x : 0 <= x < i_size n2 -> fbyte V2 n2 x = fbyte V1 n1 x.
Proof using All.
  intros Hx. pose proof (written_mapped x Hx) as Hz. pose proof (fw_size _ _ Hwf).
  change (fbyte V2 n1 x = fbyte V1 n1 x). apply written_file; [apply Hw| |done].
  unfold n2 in Hx. cbn in Hx. plia.
Qed.

Lemma written_intro : written V n off bytes V2 n2.
Proof using All.
  pose proof (fw_size _ _ Hwf) as Hs. destruct (layout_pos start size_ Hgeo sb Hlay) as [Hd0 Hd1].
  destruct (written_file n1 (wr_file _ _ _ _ _ _ _ Hw)) as (Hf2 & Hb2 & _). split.
  - unfold n2. cbn. by rewrite (wr_fields _ _ _ _ _ _ _ Hw) at 1.
  - split.
    + destruct Hf2. by split.
    + apply written_inode.
    + rewrite written_inum. apply Hwf.
    + unfold n2. cbn. lia.
    + intros x Hx. change (fblk V2 n1 (x / BSIZE) <> 0).
      rewrite Hb2; [apply written_mapped; lia|]. unfold n2 in Hx. cbn in Hx. plia.
  - intros y Hy. rewrite (used_high V1) by (apply written_high || lia). by apply (wr_meta _ _ _ _ _ _ _ Hw).
  - intros m. rewrite <- written_inum. apply iupdated_same; [rewrite written_inum; apply Hwf|apply written_inode|done].
  - intros j m Hj Hne. unfold V2. rewrite iupdated_other; try done.
    + unfold dinode_of. rewrite (wr_low _ _ _ _ _ _ _ Hw); [done|]. by apply iblock_range.
    + rewrite written_inum. apply Hwf.
    + by rewrite written_inum.
    + apply (fo_len _ _ _ (wr_file _ _ _ _ _ _ _ Hw)).
  - apply list_eq. intros i. unfold fdata. rewrite list_lookup_fmap.
    destruct (decide (i < length bytes)%nat) as [Hi|Hi].
    + rewrite lookup_seq_lt by done. cbn. destruct (lookup_lt_is_Some_2 bytes i Hi) as [c Hc]. rewrite Hc. f_equal.
      change (0 + i)%nat with i. rewrite written_byte by (unfold n2; cbn; lia).
      by apply (wr_bytes _ _ _ _ _ _ _ Hw).
    + rewrite lookup_seq_ge, lookup_ge_None_2 by lia. done.
  - intros x Hx Hout. rewrite written_byte by (unfold n2; cbn; lia).
    assert (Hz : fblk V n (x / BSIZE) <> 0) by (apply (fw_mapped _ _ Hwf); lia).
    rewrite (wr_keep _ _ _ _ _ _ _ Hw); [|lia|done|rewrite (wr_there _ _ _ _ _ _ _ Hw); [done|plia|done]].
    by destruct (Z.eqb_spec (fblk V n (x / BSIZE)) 0).
  - intros m Hm Hdis. destruct (wrote_others V n off bytes V1 n1 m Hw Hm Hdis) as (A1 & A2 & A3).
    destruct (written_file m A1) as (B1 & B2 & B3). split; [done|]. split.
    + intros bn Hbn. by rewrite B2, A2.
    + intros x Hx Hz. rewrite B3, A3; try done. rewrite A2; [done|plia].
Qed.
End Written.

Lemma wp_writei o s0 V bl s ip n src off bytes (Q : Z -> kstate -> Prop) :
  intx o s0 V bl ∅ s -> 1 <= o -> k_sb s0 = sb -> meta_used sb V -> k_itable s0 !! ip = Some n ->
  file_wf V n -> src_gives s0 src bytes -> is_bytes bytes ->
  0 <= off <= i_size n -> off + Z.of_nat (length bytes) <= MAXFILE * BSIZE ->
  let k := fspan off (Z.of_nat (length bytes)) in
  has_free sb V (2 * k) -> Z.of_nat (length bl) + 6 * Z.of_nat k + 1 < size_ - 1 ->
  (forall V' n' bl' s', written V n off bytes V' n' -> (length bl' <= length bl + 6 * k + 1)%nat ->
     intx o (with_inode ip n' s0) V' bl' ∅ s' -> Q (Z.of_nat (length bytes)) s') ->
  wp (writei ip src off (Z.of_nat (length bytes))) Q s.
Proof using W Hgeo Hlay.
  intros Ht Ho Hsb Hm Hn Hwf Hsrc Hby Hoff Hmax k Hfr Hlt HQ. unfold writei.
  apply wp_bind. eapply wp_tx_get_inode; [done..|].
  assert (Hu : u32 (off + Z.of_nat (length bytes)) = off + Z.of_nat (length bytes)) by (apply u32_small; plia).
  rewrite Hu. destruct (Z.ltb_spec (i_size n) off); [lia|].
  destruct (Z.ltb_spec (off + Z.of_nat (length bytes)) off); [lia|]. cbn [orb].
  destruct (Z.ltb_spec (MAXFILE * BSIZE) (off + Z.of_nat (length bytes))); [lia|].
  apply wp_bind. rewrite <- (proj1 Hsrc).
  eapply (writei_loop o src bytes Ho _ s0 V bl s ip n); try done; try lia.
  - apply Hwf.
  - rewrite Z.sub_0_r. apply fspan_bound.
  - by rewrite Z.sub_0_r.
  - rewrite Z.sub_0_r. fold k. lia.
  - rewrite Z.sub_0_r. cbn [drop]. fold k. intros V1 n1 bl1 s1 Hw Hl1 Ht1. change (drop (Z.to_nat 0) bytes) with bytes in *.
    assert (Hn1 : k_itable (with_inode ip n1 s0) !! ip = Some n1) by (by eapply with_inode_lookup).
    assert (Esz : i_size n1 = i_size n) by (by rewrite (wr_fields _ _ _ _ _ _ _ Hw)).
    apply wp_bind. eapply wp_tx_get_inode; [exact Ht1|done|]. rewrite Esz.
    set (n2 := set_i_size (Z.max (i_size n) (off + Z.of_nat (length bytes))) n1).
    assert (HV1 : forall b, length (V1 b) = Z.to_nat BSIZE) by (intros; by eapply intx_length).
    pose proof (written_intro V n off bytes V1 n1 Hwf Hw HV1 Hoff Hmax) as Hwn. fold n2 in Hwn.
    assert (Hrest : forall s2, intx o (with_inode ip n2 s0) V1 bl1 ∅ s2 ->
      wp (iupdate ip ;; ret (s32 (Z.of_nat (length bytes)))) Q s2).
    { intros s2 Ht2. apply wp_bind. eapply (wp_iupdate o (with_inode ip n2 s0)); try done.
      - by eapply with_inode_lookup.
      - apply (fo_dev _ _ _ (fw_file _ _ (wn_wf _ _ _ _ _ _ Hwn))).
      - apply (fo_len _ _ _ (fw_file _ _ (wn_wf _ _ _ _ _ _ Hwn))).
      - apply Hwn.
      - lia.
      - intros s3 Ht3. apply wp_ret. rewrite s32_small by plia.
        eapply HQ; [exact Hwn| |exact Ht3]. pose proof (length_add_block bl1 (iblock (i_inum n2))). lia. }
    apply wp_bind, wp_when. destruct (Z.ltb_spec (i_size n) (off + Z.of_nat (length bytes))) as [Hg|Hg].
    + eapply wp_tx_upd_inode; [exact Ht1|done|]. intros s2 Ht2. apply Hrest.
      replace n2 with (set_i_size (off + Z.of_nat (length bytes)) n1) by (unfold n2; f_equal; lia).
      change (intx o (with_inode ip (set_i_size (off + Z.of_nat (length bytes)) n1) (with_inode ip n1 s0)) V1 bl1 ∅ s2) in Ht2.
      by rewrite with_inode_twice in Ht2.
    + apply Hrest. replace n2 with n1; [done|]. unfold n2. rewrite Z.max_l, <- Esz by lia. by destruct n1.
Qed.

(** ** The properties *)

(** C4. writei of [bytes] into a file at an offset up to its size, with room
    in the log and on the disk: it returns the number of bytes; the file then
    has them at that offset, keeps every other byte it had, and its size is
    the larger of the old one and the end of the write; the dinode on disk is
    the inode in memory and no other dinode changes; every file that shares
    no block with it keeps its blocks and bytes; and readi at that offset
    returns the bytes. *)
Theorem writei_then_readi o s0 V bl s ip n src off bytes :
  intx o s0 V bl ∅ s -> 1 <= o -> k_sb s0 = sb -> meta_used sb V -> k_itable s0 !! ip = Some n ->
  file_wf V n -> src_gives s0 src bytes -> is_bytes bytes ->
  0 <= off <= i_size n -> off + Z.of_nat (length bytes) <= MAXFILE * BSIZE ->
  let len := Z.of_nat (length bytes) in
  let k := fspan off len in
  has_free sb V (2 * k) -> Z.of_nat (length bl) + 6 * Z.of_nat k + 1 < size_ - 1 ->
  exists V' n' bl' s' s'', writei ip src off len s = Ret len s' /\
    intx o (with_inode ip n' s0) V' bl' ∅ s' /\ written V n off bytes V' n' /\
    readi ip DstLocal off len s' = Ret (len, bytes) s''.
Proof using W Hgeo Hlay.
  intros Ht Ho Hsb Hm Hn Hwf Hsrc Hby Hoff Hmax len k Hfr Hlt.
  assert (Hwp : wp (writei ip src off len) (fun r s' => r = len /\ exists V' n' bl',
    written V n off bytes V' n' /\ (length bl' <= length bl + 6 * k + 1)%nat /\
    intx o (with_inode ip n' s0) V' bl' ∅ s') s).
  { eapply wp_writei; try done. intros V' n' bl' s' Hw Hl Ht'. split; [done|]. by exists V', n', bl'. }
  apply wp_run in Hwp as (r & s' & E & -> & V' & n' & bl' & Hw & Hl & Ht').
  pose proof (wn_wf _ _ _ _ _ _ Hw) as Hwf'.
  assert (Esz : i_size n' = Z.max (i_size n) (off + len)) by (by rewrite (wn_fields _ _ _ _ _ _ Hw)).
  assert (Hrd : wp (readi ip DstLocal off len) (fun r _ => r = (len, bytes)) s').
  { eapply (wp_readi _ _ _ o _ V' bl' s' ip n'); try done.
    - by eapply with_inode_lookup.
    - apply (fo_dev _ _ _ (fw_file _ _ Hwf')).
    - apply (fo_len _ _ _ (fw_file _ _ Hwf')).
    - unfold room. rewrite map_size_empty. unfold nbuf. destruct Hgeo. plia.
    - lia.
    - unfold len. plia.
    - split; [lia|apply Hwf'].
    - apply Hwf'.
    - intros s'' _. assert (Er : read_len n' off len = len).
      { unfold read_len. rewrite u32_small by (unfold len; plia).
        destruct (Z.ltb_spec (i_size n') off), (Z.ltb_spec (off + len) off), (Z.ltb_spec (i_size n') (off + len));
          cbn [orb]; lia. }
      rewrite Er. unfold len. rewrite Nat2Z.id. f_equal. apply Hw. }
  apply wp_run in Hrd as (r & s'' & E' & ->). by exists V', n', bl', s', s''.
Qed.

(** C26. The bounds of readi and writei, for every offset and length below
    2^32: writei at an offset beyond the file's size, or whose end exceeds the
    largest file (or wraps around), returns -1 and changes nothing; readi
    beyond the size, or with an end that wraps around, returns 0 and no
    bytes. *)
Theorem file_bounds s ip n src dst off len :
  k_itable s !! ip = Some n -> 0 <= off < 2 ^ 32 -> 0 <= len < 2 ^ 32 ->
  (i_size n < off \/ MAXFILE * BSIZE < off + len -> writei ip src off len s = Ret (-1) s) /\
  (i_size n < off \/ 2 ^ 32 <= off + len -> readi ip dst off len s = Ret (0, []) s).
Proof using Type.
  clear Hgeo Hlay. intros Hn Hoff Hlen.
  assert (Hget : get_inode ip s = Ret n s) by (unfold get_inode; rewrite run_gets, Hn; done).
  assert (Hu : u32 (off + len) = off + len \/ 2 ^ 32 <= off + len /\ u32 (off + len) < off)
    by (unfold u32; dlia).
  split; intros Hb; [unfold writei|unfold readi]; unfold bind; rewrite Hget; cbn [obind].
  - destruct (Z.ltb_spec (i_size n) off); [done|]. destruct (Z.ltb_spec (u32 (off + len)) off); [done|].
    cbn [orb]. destruct (Z.ltb_spec (MAXFILE * BSIZE) (u32 (off + len))); [done|]. lia.
  - destruct (Z.ltb_spec (i_size n) off); [done|]. destruct (Z.ltb_spec (u32 (off + len)) off); [done|].
    pose proof (u32_range (off + len)). lia.
Qed.
End Write.
