(* ===== verification/FsLock.v ===== *)
(** ilock and iunlock of kernel/fs.c inside a transaction: the sleep-lock of
    an inode, and reading the inode from disk the first time. *)

From stdpp Require Import base numbers list gmap strings.
From S2P Require Import Prelude Params Mem State Locks Cache Kalloc Vm Console Log Fs Itable FsTx FsBlocks FsInode FsBmap FsWrite.

Implicit Types (V : Z -> list Z) (H : gmap Z nat) (bl : list Z) (sb : superblock) (n : inode).

(** Process [pid] holds the sleep-lock; nobody does. *)
Definition locked_by (pid : Z) n : inode := set_i_lock (mk_sleeplock true pid) n.
Definition unlocked n : inode := set_i_lock (mk_sleeplock false 0) n.

Section Lock.
Context {W : Wakeups} {C : BlockCache} (pid start size_ : Z).
Context (Hgeo : geometry start size_).
Notation intx := (intx pid start size_).

Lemma intx_running o s0 V bl H s : intx o s0 V bl H s -> running_pid s pid /\ procs_full s.
Proof using Type.
  intros [_ (lg & [Hi _ _ _] & _) _ _]. by destruct (cache_procs _ _ _ _ _ Hi).
Qed.

Lemma intx_woken o s0 V bl H s ps :
  intx o s0 V bl H s -> procs_woken (k_procs s) ps -> intx o s0 V bl H (set_k_procs ps s).
Proof using Type.
  intros [Hh (lg & [Hi Hd Hl Hf] & Hr) Hb Hhd] Hw.
  split; [done| |done|done]. exists lg. split; [|done]. split; ks; [|done|done|].
  - by eapply cache_frame.
  - destruct Hf as (bs & d' & ps' & lg' & Hw' & ->). exists bs, d', ps, lg'. split; [|done]. etrans; [done|exact Hw].
Qed.

Lemma acquiresleep_free ip n s :
  k_held s = [] -> running_pid s pid -> k_itable s !! ip = Some n -> sl_locked (i_lock n) = false ->
  acquiresleep (inode_lock ip) s = Ret tt (with_inode ip (locked_by pid n) s).
Proof using Type.
  intros Hh (c & p & Hc & Hp & Epid) Hn Hl. unfold acquiresleep, inode_lock. cbn [sl_get sl_set sl_spin sl_chan].
  rewrite run_acquire by (rewrite Hh; apply not_elem_of_nil). rewrite run_loop.
  rewrite bind_assoc, (bind_assoc (get_inode ip)), (run_get_inode ip n) by done. rewrite run_ret, Hl, run_ret.
  rewrite (run_curproc c p) by done. rewrite (run_upd_inode ip n) by done.
  rewrite (release_ok _ []) by (unfold with_inode; ks; by rewrite Hh). unfold with_inode, locked_by. rewrite Epid.
  f_equal. destruct s; cbn in *. by rewrite Hh.
Qed.

Lemma wp_lock_inode o s0 V bl H s ip n (Q : unit -> kstate -> Prop) :
  intx o s0 V bl H s -> k_itable s0 !! ip = Some n -> sl_locked (i_lock n) = false ->
  (forall s', intx o (with_inode ip (locked_by pid n) s0) V bl H s' -> Q tt s') ->
  wp (acquiresleep (inode_lock ip)) Q s.
Proof using Type.
  intros Ht Hn Hl HQ. destruct (intx_rest _ _ _ _ _ _ _ _ _ Ht) as (_ & Ei & Hh & _).
  unfold wp. rewrite (acquiresleep_free ip n); [|done|by eapply intx_running|by rewrite Ei|done].
  apply HQ. unfold with_inode. rewrite Ei. by apply intx_itable.
Qed.

(** ilock of an inode that is in memory. *)
Lemma wp_ilock_valid o s0 V bl H s ip n (Q : unit -> kstate -> Prop) :
  intx o s0 V bl H s -> k_itable s0 !! ip = Some n -> 1 <= i_ref n ->
  sl_locked (i_lock n) = false -> i_valid n = true ->
  (forall s', intx o (with_inode ip (locked_by pid n) s0) V bl H s' -> Q tt s') ->
  wp (ilock ip) Q s.
Proof using Type.
  intros Ht Hn Hr Hl Hv HQ. unfold ilock. apply wp_bind. eapply wp_tx_get_inode; [done..|].
  destruct (Z.ltb_spec (i_ref n) 1); [lia|]. apply wp_bind. eapply wp_lock_inode; [done..|]. intros s1 Ht1.
  apply wp_bind. eapply wp_tx_get_inode; [exact Ht1|by eapply with_inode_lookup|]. cbn. rewrite Hv.
  apply wp_ret. by apply HQ.
Qed.

(** ilock of an inode that is not: its fields come from the dinode. *)
Lemma wp_ilock_load o s0 V bl s ip n sb (Q : unit -> kstate -> Prop) :
  intx o s0 V bl ∅ s -> k_itable s0 !! ip = Some n -> k_sb s0 = sb -> i_dev n = ROOTDEV -> 1 <= i_ref n ->
  sl_locked (i_lock n) = false -> i_valid n = false -> room bl ∅ ->
  let m := set_i_valid true (dinode_of sb V (i_inum n) (locked_by pid n)) in
  i_type m <> 0 ->
  (forall s', intx o (with_inode ip m s0) V bl ∅ s' -> Q tt s') ->
  wp (ilock ip) Q s.
Proof using Type.
  intros Ht Hn Hsb Hdev Hr Hl Hv Hroom m Hm HQ. unfold ilock. apply wp_bind. eapply wp_tx_get_inode; [done..|].
  destruct (Z.ltb_spec (i_ref n) 1); [lia|]. apply wp_bind. eapply wp_lock_inode; [done..|]. intros s1 Ht1.
  assert (Hn1 : k_itable (with_inode ip (locked_by pid n) s0) !! ip = Some (locked_by pid n))
    by (by eapply with_inode_lookup).
  apply wp_bind. eapply wp_tx_get_inode; [done..|]. cbn [locked_by set_i_lock i_valid i_dev i_inum].
  rewrite Hv, Hdev. cbn [negb]. apply wp_bind. eapply wp_tx_sb; [done|].
  change (k_sb (with_inode ip (locked_by pid n) s0)) with (k_sb s0). rewrite Hsb. fold (iblock sb (i_inum n)).
  apply wp_bind. eapply wp_tx_bread; [exact Ht1|apply lookup_empty|done|]. intros i s2 Ht2. rewrite insert_empty in Ht2.
  apply wp_bind. eapply wp_tx_bdata; [exact Ht2|apply lookup_singleton_eq|].
  apply wp_bind. eapply wp_tx_upd_inode; [exact Ht2|done|]. intros s3 Ht3.
  fold (dinode_of sb V (i_inum n) (locked_by pid n)) in Ht3. fold (with_inode ip (dinode_of sb V (i_inum n) (locked_by pid n)) (with_inode ip (locked_by pid n) s0)) in Ht3.
  rewrite with_inode_twice in Ht3.
  apply wp_bind. eapply wp_tx_brelse; [exact Ht3|apply lookup_singleton_eq|]. rewrite delete_singleton_eq.
  intros s4 Ht4. apply wp_bind. eapply wp_tx_upd_inode; [exact Ht4|by eapply with_inode_lookup|].
  intros s5 Ht5. fold m in Ht5. fold (with_inode ip m (with_inode ip (dinode_of sb V (i_inum n) (locked_by pid n)) s0)) in Ht5.
  rewrite with_inode_twice in Ht5. apply wp_bind. eapply wp_tx_get_inode; [exact Ht5|by eapply with_inode_lookup|].
  destruct (Z.eqb_spec (i_type m) 0); [done|]. apply wp_ret. by apply HQ.
Qed.

Lemma holdingsleep_held ip n s :
  k_held s = [] -> running_pid s pid -> k_itable s !! ip = Some n -> i_lock n = mk_sleeplock true pid ->
  holdingsleep (inode_lock ip) s = Ret true s.
Proof using Type.
  intros Hh (c & p & Hc & Hp & Epid) Hn Hl. unfold holdingsleep, inode_lock. cbn [sl_get sl_set sl_spin sl_chan].
  rewrite run_acquire by (rewrite Hh; apply not_elem_of_nil).
  rewrite bind_assoc, (run_get_inode ip n) by done. rewrite run_ret, Hl. cbn [sl_locked sl_pid].
  rewrite bind_assoc, (run_curproc c p) by done. rewrite run_ret, Epid, Z.eqb_refl.
  rewrite (run_release _ []) by (ks; by rewrite Hh). f_equal. destruct s; cbn in *. by rewrite Hh.
Qed.

Lemma releasesleep_ok ip n s :
  k_held s = [] -> procs_full s -> k_itable s !! ip = Some n ->
  releasesleep (inode_lock ip) s =
    Ret tt (set_k_procs (wake (ChInodeLock ip) (k_cur s) (k_procs s)) (with_inode ip (unlocked n) s)).
Proof using Type.
  intros Hh Hf Hn. unfold releasesleep, inode_lock. cbn [sl_set sl_spin sl_chan].
  rewrite run_acquire by (rewrite Hh; apply not_elem_of_nil).
  rewrite (run_upd_inode ip n) by done. unfold bind. rewrite wakeup_ok; [|unfold with_inode; ks|done].
  2:{ rewrite Hh. intros i Hi. by apply elem_of_cons in Hi as [?|?%elem_of_nil]. }
  cbn [obind]. rewrite (release_ok _ []) by (unfold with_inode; ks; by rewrite Hh). f_equal.
  destruct s; cbn in *. unfold with_inode. cbn. by rewrite Hh.
Qed.

Lemma wp_iunlock o s0 V bl H s ip n (Q : unit -> kstate -> Prop) :
  intx o s0 V bl H s -> k_itable s0 !! ip = Some n -> 1 <= i_ref n -> i_lock n = mk_sleeplock true pid ->
  (forall s', intx o (with_inode ip (unlocked n) s0) V bl H s' -> Q tt s') ->
  wp (iunlock ip) Q s.
Proof using Type.
  intros Ht Hn Hr Hl HQ. destruct (intx_rest _ _ _ _ _ _ _ _ _ Ht) as (_ & Ei & Hh & _).
  destruct (intx_running _ _ _ _ _ _ Ht) as [Hrun Hfull].
  unfold wp, iunlock. unfold bind at 1. rewrite (holdingsleep_held ip n) by (done || by rewrite Ei).
  cbn [obind]. rewrite (run_get_inode ip n) by (by rewrite Ei). cbn [negb orb].
  destruct (Z.ltb_spec (i_ref n) 1); [lia|]. rewrite (releasesleep_ok ip n) by (done || by rewrite Ei).
  apply HQ. apply intx_woken; [|unfold with_inode; ks; apply wake_woken].
  unfold with_inode. rewrite Ei. by apply intx_itable.
Qed.

(** C25. Inodes on disk: iupdate stores the inode's fields in its dinode, and
    no other dinode of the disk changes; ilock of a table entry for that inode
    that is not in memory reads exactly those fields back, and the entry is
    then locked by the caller and valid. *)
Theorem inode_disk_roundtrip sb o s0 V bl s ip n :
  fs_layout start size_ sb ->
  intx o s0 V bl ∅ s -> 1 <= o -> k_sb s0 = sb -> k_itable s0 !! ip = Some n -> i_dev n = ROOTDEV ->
  inode_ok n -> inum_ok sb (i_inum n) -> i_type n <> 0 -> Z.of_nat (length bl) < size_ - 1 ->
  let V' := iupdated sb V n in let bl' := add_block bl (iblock sb (i_inum n)) in
  (exists s', iupdate ip s = Ret tt s' /\ intx o s0 V' bl' ∅ s') /\
  (forall j m, inum_ok sb j -> j <> i_inum n -> dinode_of sb V' j m = dinode_of sb V j m) /\
  (forall s1 s2 jp m, intx o s1 V' bl' ∅ s2 -> k_sb s1 = sb -> k_itable s1 !! jp = Some m ->
     i_dev m = ROOTDEV -> i_inum m = i_inum n -> 1 <= i_ref m -> sl_locked (i_lock m) = false -> i_valid m = false ->
     exists s3, ilock jp s2 = Ret tt s3 /\
       intx o (with_inode jp (set_i_valid true (same_fields n (locked_by pid m))) s1) V' bl' ∅ s3).
Proof using Hgeo.
  intros Hlay Ht Ho Hsb Hn Hdev Hok Hin Hty Hlt V' bl'.
  assert (Hlen : length (V (iblock sb (i_inum n))) = Z.to_nat BSIZE) by (by eapply intx_length).
  split_and!.
  - assert (Hwp : wp (iupdate ip) (fun _ s' => intx o s0 V' bl' ∅ s') s)
      by (eapply (wp_iupdate _ _ _ Hgeo sb Hlay); try done; apply Hok).
    apply wp_run in Hwp as ([] & s' & E & Ht'). by exists s'.
  - intros j m Hj Hne. eapply (iupdated_other start size_ Hgeo); try done. apply Hok.
  - intros s1 s2 jp m Ht2 Hsb2 Hm Hdm Him Hr Hl Hv.
    assert (Hroom : room bl' ∅).
    { unfold room. rewrite map_size_empty. pose proof (length_add_block bl (iblock sb (i_inum n))).
      unfold bl', nbuf. destruct Hgeo. plia. }
    assert (Em : dinode_of sb V' (i_inum m) (locked_by pid m) = same_fields n (locked_by pid m))
      by (rewrite Him; by apply iupdated_same).
    assert (Hwp : wp (ilock jp) (fun _ s3 =>
      intx o (with_inode jp (set_i_valid true (same_fields n (locked_by pid m))) s1) V' bl' ∅ s3) s2).
    { eapply wp_ilock_load; [exact Ht2|done|done|done|done|done|done|done| |]; rewrite Em; [done|]. by intros s3. }
    apply wp_run in Hwp as ([] & s3 & E & Ht3). by exists s3.
Qed.
End Lock.
