(* ===== verification/FsDir.v ===== *)
(** Directories of kernel/fs.c: dirlookup and dirlink as operations on a map
    from names to inode numbers. *)

From stdpp Require Import base numbers list gmap strings.
From S2P Require Import Prelude Params Mem State Locks Cache Kalloc Vm Console Log Fs Itable FsTx FsBlocks FsInode FsBmap FsWrite FsLock.

Implicit Types (V : Z -> list Z) (H : gmap Z nat) (bl : list Z) (sb : superblock) (n : inode).

(** ** Names *)

(** The name in a [char[DIRSIZ]], which has a NUL only if it is shorter. *)
Definition cname (l : list Z) : list Z := cstr (take (Z.to_nat DIRSIZ) l).

(** strncmp, as the comparison of the strings up to [k] bytes. *)
Lemma strncmp_bytes_spec k : forall s t,
  strncmp_bytes k s t = 0 <-> cstr (take k s) = cstr (take k t).
Proof.
  induction k as [|k IH]; intros s t; cbn [strncmp_bytes]; [by rewrite !take_0|].
  destruct s as [|a s], t as [|b t]; cbn [lookup list_lookup default take cstr drop id].
  - done.
  - cbn [Z.eqb negb andb]. destruct (Z.eqb_spec b 0) as [->|]; [done|]. split; [lia|done].
  - destruct (Z.eqb_spec a 0) as [->|]; [done|]. cbn [negb andb]. split; [lia|done].
  - destruct (Z.eqb_spec a 0) as [->|Ha]; cbn [negb andb].
    + destruct (Z.eqb_spec b 0) as [->|]; [done|]. split; [lia|done].
    + destruct (Z.eqb_spec a b) as [->|Hab].
      * destruct (Z.eqb_spec b 0); [done|]. rewrite IH, !drop_0. split; [by intros ->|by intros [=]].
      * destruct (Z.eqb_spec b 0); [split; [lia|done]|]. split; [lia|by intros [=]].
Qed.

Lemma namecmp_spec s t : namecmp s t = 0 <-> cname s = cname t.
Proof. apply strncmp_bytes_spec. Qed.

(** ** The directory as a list of entries, and as a map *)

Definition ent V n (k : nat) : list Z := fdata V n (Z.of_nat k * sizeof_dirent) (Z.to_nat sizeof_dirent).
Definition nents n : nat := Z.to_nat (i_size n / sizeof_dirent).
Definition ents V n : list (list Z) := ent V n <$> seq 0 (nents n).

Definition matches (name : list Z) (de : list Z) : Prop := de_inum de <> 0 /\ cname name = cname (de_name de).
#[export] Instance matches_dec name de : Decision (matches name de) := _.

(** The inode number that the entries give a name. *)
Definition dir_lookup (es : list (list Z)) (name : list Z) : option Z :=
  (fun '(_, de) => de_inum de) <$> list_find (matches name) es.

(** A directory: a file that consists of whole entries. *)
Record dir_ok sb V n : Prop := {
  do_wf : file_wf sb V n;
  do_type : i_type n = T_DIR;
  do_whole : i_size n mod sizeof_dirent = 0;
}.

Lemma ents_lookup V n k : (k < nents n)%nat -> ents V n !! k = Some (ent V n k).
Proof. intros Hk. unfold ents. rewrite list_lookup_fmap, lookup_seq_lt by done. done. Qed.

Lemma length_ents V n : length (ents V n) = nents n.
Proof. unfold ents. by rewrite length_fmap, length_seq. Qed.

Lemma dir_size sb V n : dir_ok sb V n -> i_size n = Z.of_nat (nents n) * sizeof_dirent.
Proof.
  intros [[_ [_ _ _ _ Hs _ _] _ _ _] _ Hw]. unfold nents. rewrite Z2Nat.id by plia. plia.
Qed.

(** ** Adding an entry *)

Lemma dir_lookup_app es es' name :
  dir_lookup (es ++ es') name = match dir_lookup es name with Some i => Some i | None => dir_lookup es' name end.
Proof.
  unfold dir_lookup. destruct (list_find (matches name) es) as [[i de]|] eqn:E.
  - by rewrite (list_find_app_l _ _ _ _ _ E).
  - rewrite list_find_app_r by done. by destruct (list_find (matches name) es') as [[i de]|].
Qed.

Lemma dir_lookup_cons de es name :
  dir_lookup (de :: es) name = if decide (matches name de) then Some (de_inum de) else dir_lookup es name.
Proof.
  unfold dir_lookup. cbn [list_find]. case_decide; [done|].
  by destruct (list_find (matches name) es) as [[i d]|].
Qed.

(** The entries with entry [k] replaced, or one added at the end. *)
Definition put_ent (es : list (list Z)) (k : nat) (de : list Z) : list (list Z) := take k es ++ de :: drop (S k) es.

Definition free_slot (es : list (list Z)) (k : nat) : Prop :=
  k = length es \/ exists old, es !! k = Some old /\ de_inum old = 0.

Lemma dir_lookup_put es k de name name' :
  free_slot es k -> de_inum de <> 0 -> cname (de_name de) = cname name -> dir_lookup es name = None ->
  dir_lookup (put_ent es k de) name' =
    if decide (cname name' = cname name) then Some (de_inum de) else dir_lookup es name'.
Proof.
  intros Hk Hz Hc Hn.
  assert (E : forall nm, dir_lookup es nm =
    match dir_lookup (take k es) nm with Some i => Some i | None => dir_lookup (drop (S k) es) nm end).
  { intros nm. destruct Hk as [->|(old & Hold & Hoz)].
    - rewrite firstn_all. rewrite drop_ge by lia. by destruct (dir_lookup es nm).
    - rewrite <- (take_drop_middle _ _ _ Hold) at 1. rewrite dir_lookup_app, dir_lookup_cons.
      by rewrite decide_False by (intros [? _]; done). }
  unfold put_ent. rewrite dir_lookup_app, dir_lookup_cons, (E name').
  assert (Hm : matches name' de <-> cname name' = cname name) by (unfold matches; rewrite Hc; tauto).
  destruct (decide (cname name' = cname name)) as [Ec|Ec].
  - assert (Hnil : dir_lookup (take k es) name' = None).
    { assert (Hn' : dir_lookup es name' = None).
      { rewrite <- Hn. unfold dir_lookup. f_equal. apply list_find_ext. intros x. unfold matches. by rewrite Ec. }
      rewrite E in Hn'. by destruct (dir_lookup (take k es) name'). }
    rewrite Hnil. by rewrite decide_True by tauto.
  - by rewrite decide_False by tauto.
Qed.

(** The bytes of an entry. *)
Definition dirent_bytes (inum : Z) (name : list Z) : list Z :=
  le_bytes 2 inum ++ strncpy_bytes (Z.to_nat DIRSIZ) name.

Lemma cstr_nonzero l : Forall (fun c => c <> 0) (cstr l).
Proof. induction l as [|c l IH]; cbn; [constructor|]. destruct (Z.eqb_spec c 0); by constructor. Qed.

Lemma cstr_pad l k : Forall (fun c => c <> 0) l -> cstr (l ++ replicate k 0) = l.
Proof.
  induction 1 as [|c l Hc _ IH]; [by destruct k|]. cbn. destruct (Z.eqb_spec c 0); [done|]. by rewrite IH.
Qed.

Lemma length_cstr l : (length (cstr l) <= length l)%nat.
Proof. induction l as [|c l IH]; cbn; [done|]. destruct (c =? 0); cbn; lia. Qed.

Lemma length_strncpy_bytes k l : length (strncpy_bytes k l) = k.
Proof.
  unfold strncpy_bytes. rewrite length_app, length_replicate.
  pose proof (length_cstr (take k l)). rewrite length_take in *. lia.
Qed.

Lemma length_dirent inum name : length (dirent_bytes inum name) = Z.to_nat sizeof_dirent.
Proof. unfold dirent_bytes. rewrite length_app, length_le_bytes, length_strncpy_bytes. done. Qed.

Lemma dirent_inum inum name : 0 <= inum < 65536 -> de_inum (dirent_bytes inum name) = inum.
Proof.
  intros Hi. unfold de_inum, get16, dirent_bytes. rewrite get_at_app_l by (rewrite length_le_bytes; lia).
  rewrite get_at_all, le_val_bytes by apply length_le_bytes. by apply Z.mod_small.
Qed.

Lemma dirent_name inum name : cname (de_name (dirent_bytes inum name)) = cname name.
Proof.
  unfold de_name, dirent_bytes. rewrite get_at_app_r by (rewrite length_le_bytes; lia).
  rewrite length_le_bytes, get_at_all by apply length_strncpy_bytes. unfold cname.
  rewrite take_ge by (by rewrite length_strncpy_bytes). apply cstr_pad, cstr_nonzero.
Qed.

Lemma dirent_is_bytes inum name : is_bytes name -> is_bytes (dirent_bytes inum name).
Proof.
  intros Hn. apply Forall_app. split; [apply le_bytes_bytes|]. apply Forall_app. split.
  - assert (Hc : forall l, is_bytes l -> is_bytes (cstr l)).
    { induction 1 as [|c l Hc _ IH]; cbn; [constructor|]. destruct (c =? 0); by constructor. }
    by apply Hc, Forall_take.
  - by apply Forall_replicate.
Qed.

(** The entries after a write of one of them. *)
Lemma ents_written sb V n k de V' n' :
  dir_ok sb V n -> (k <= nents n)%nat -> length de = Z.to_nat sizeof_dirent ->
  written sb V n (Z.of_nat k * sizeof_dirent) de V' n' ->
  dir_ok sb V' n' /\ ents V' n' = put_ent (ents V n) k de.
Proof.
  intros Hd Hk Hl Hw. pose proof (dir_size _ _ _ Hd) as Hsz.
  assert (Esz : i_size n' = Z.max (i_size n) (Z.of_nat k * sizeof_dirent + sizeof_dirent)).
  { rewrite (wn_fields _ _ _ _ _ _ _ Hw). cbn. plia. }
  assert (Hd' : dir_ok sb V' n').
  { split; [apply Hw| |].
    - rewrite (wn_fields _ _ _ _ _ _ _ Hw). exact (do_type _ _ _ Hd).
    - rewrite Esz, Hsz.
      replace (Z.max _ _) with (Z.max (Z.of_nat (nents n)) (Z.of_nat k + 1) * sizeof_dirent) by plia.
      by apply Z_mod_mult. }
  split; [done|].
  assert (Hn' : nents n' = (nents n `max` S k)%nat).
  { pose proof (dir_size _ _ _ Hd') as Hsz'. plia. }
  apply list_eq. intros i. unfold put_ent.
  assert (Htk : length (take k (ents V n)) = k) by (rewrite length_take, length_ents; lia).
  destruct (decide (i < nents n')%nat) as [Hi|Hi].
  2:{ rewrite !lookup_ge_None_2; [done| |by rewrite length_ents; lia].
      rewrite length_app, Htk. cbn [length]. rewrite length_drop, length_ents. lia. }
  rewrite ents_lookup by done. destruct (decide (i = k)) as [->|Hik].
  - rewrite lookup_app_r, Htk, Nat.sub_diag by lia. cbn. f_equal. unfold ent.
    rewrite <- Hl. apply Hw.
  - assert (Hkeep : ent V' n' i = ent V n i).
    { unfold ent, fdata. apply list_fmap_ext. intros j ? Hj%lookup_seq. destruct Hj as [-> Hj].
      apply (wn_keep _ _ _ _ _ _ _ Hw); plia. }
    rewrite Hkeep. destruct (decide (i < k)%nat).
    + rewrite lookup_app_l, lookup_take_lt by lia. by rewrite ents_lookup by lia.
    + rewrite lookup_app_r, Htk by lia. rewrite lookup_cons_ne_0 by lia.
      rewrite lookup_drop. replace (S k + pred (i - k))%nat with i by lia. by rewrite ents_lookup by lia.
Qed.

Section Dir.
Context {W : Wakeups} {C : BlockCache} (pid start size_ : Z).
Context (Hgeo : geometry start size_).
Context (sb : superblock) (Hlay : fs_layout start size_ sb).
Notation intx := (intx pid start size_).

Lemma wp_tx_iget o s0 V bl H s inum i t (Q : nat -> kstate -> Prop) :
  intx o s0 V bl H s -> length (k_itable s0) = ninode -> iget_table ROOTDEV inum (k_itable s0) = Some (i, t) ->
  (forall s', intx o (set_k_itable t s0) V bl H s' -> Q i s') ->
  wp (iget ROOTDEV inum) Q s.
Proof using Type.
  intros Ht Hl Ei HQ. destruct (intx_rest _ _ _ _ _ _ _ _ _ Ht) as (_ & Et & Hh & _).
  unfold wp. rewrite iget_run by (rewrite ?Et, ?Hh; (done || apply not_elem_of_nil)). rewrite Et, Ei.
  by apply HQ, intx_itable.
Qed.

(** Reading one entry. *)
Lemma wp_read_ent o s0 V bl s dp n k (Q : Z * list Z -> kstate -> Prop) :
  intx o s0 V bl ∅ s -> k_itable s0 !! dp = Some n -> dir_ok sb V n -> room bl ∅ -> (k < nents n)%nat ->
  (forall s', intx o s0 V bl ∅ s' -> Q (sizeof_dirent, ent V n k) s') ->
  wp (readi dp DstLocal (Z.of_nat k * sizeof_dirent) sizeof_dirent) Q s.
Proof using Type.
  intros Ht Hn Hd Hr Hk HQ. pose proof (dir_size _ _ _ Hd) as Hsz. destruct (do_wf _ _ _ Hd) as [Hf Hi _ Hmax Hmap].
  pose proof (io_size _ Hi) as Hs.
  assert (Hrl : read_len n (Z.of_nat k * sizeof_dirent) sizeof_dirent = sizeof_dirent).
  { unfold read_len. rewrite u32_small by plia. destruct (Z.ltb_spec (i_size n) (Z.of_nat k * sizeof_dirent)); [plia|].
    destruct (Z.ltb_spec (Z.of_nat k * sizeof_dirent + sizeof_dirent) (Z.of_nat k * sizeof_dirent)); [plia|]. cbn [orb].
    destruct (Z.ltb_spec (i_size n) (Z.of_nat k * sizeof_dirent + sizeof_dirent)); plia. }
  eapply wp_readi; [exact Ht|done|apply Hf|apply Hf|done|plia|plia|lia|done|].
  intros s' Ht'. rewrite Hrl. by apply HQ.
Qed.

(** The loop of dirlookup from entry [k] on. *)
Lemma dirlookup_loop o s0 V bl dp n name : k_itable s0 !! dp = Some n -> dir_ok sb V n -> room bl ∅ ->
  length (k_itable s0) = ninode ->
  forall f s k (Q : option (nat * Z) -> kstate -> Prop),
  intx o s0 V bl ∅ s -> (k <= nents n)%nat -> (nents n - k < f)%nat ->
  match list_find (matches name) (drop k (ents V n)) with
  | None => forall s', intx o s0 V bl ∅ s' -> Q None s'
  | Some (j, de) => exists i t, iget_table ROOTDEV (de_inum de) (k_itable s0) = Some (i, t) /\
      forall s', intx o (set_k_itable t s0) V bl ∅ s' -> Q (Some (i, Z.of_nat (k + j) * sizeof_dirent)) s'
  end ->
  wp (loop f (dirlookup_round dp name) (Z.of_nat k * sizeof_dirent)) Q s.
Proof using Type.
  intros Hn Hd Hr Hlen. pose proof (dir_size _ _ _ Hd) as Hsz.
  induction f as [|f IH]; intros s k Q Ht Hk Hf HQ; [lia|]. apply wp_loop. unfold dirlookup_round.
  apply wp_bind. eapply wp_tx_get_inode; [done..|]. rewrite Hsz.
  destruct (Z.ltb_spec (Z.of_nat k * sizeof_dirent) (Z.of_nat (nents n) * sizeof_dirent)) as [Hlt|Hge].
  2:{ apply wp_ret. rewrite drop_ge in HQ by (rewrite length_ents; plia). by apply HQ. }
  assert (Hkn : (k < nents n)%nat) by plia.
  rewrite (drop_S _ _ _ (ents_lookup V n k Hkn)) in HQ. cbn [list_find] in HQ.
  apply wp_bind. eapply wp_read_ent; [exact Ht|done..|]. intros s1 Ht1. cbn [fst snd]. rewrite Z.eqb_refl. cbn [negb].
  assert (Hnext : ~ matches name (ent V n k) ->
    wp (loop f (dirlookup_round dp name) (Z.of_nat (S k) * sizeof_dirent)) Q s1).
  { intros Hm. rewrite decide_False in HQ by done. apply (IH s1 (S k)); [done|lia|lia|].
    destruct (list_find (matches name) (drop (S k) (ents V n))) as [[j de]|]; cbn in HQ; [|done].
    by replace (S k + j)%nat with (k + S j)%nat by lia. }
  assert (Enext : Z.of_nat k * sizeof_dirent + sizeof_dirent = Z.of_nat (S k) * sizeof_dirent) by plia.
  destruct (Z.eqb_spec (de_inum (ent V n k)) 0) as [Hz|Hz].
  { apply wp_ret. rewrite Enext. apply Hnext. by intros [? _]. }
  destruct (Z.eqb_spec (namecmp name (de_name (ent V n k))) 0) as [Hc|Hc]; rewrite namecmp_spec in Hc.
  - rewrite decide_True in HQ by done. destruct HQ as (i & t & Ei & HQ).
    apply wp_bind. rewrite (fo_dev _ _ _ (fw_file _ _ _ (do_wf _ _ _ Hd))).
    eapply wp_tx_iget; [exact Ht1|done|exact Ei|]. intros s2 Ht2. apply wp_ret.
    rewrite Nat.add_0_r in HQ. by apply HQ.
  - apply wp_ret. rewrite Enext. apply Hnext. by intros [_ ?].
Qed.

Lemma wp_dirlookup o s0 V bl s dp n name (Q : option (nat * Z) -> kstate -> Prop) :
  intx o s0 V bl ∅ s -> k_itable s0 !! dp = Some n -> dir_ok sb V n -> room bl ∅ ->
  length (k_itable s0) = ninode ->
  match list_find (matches name) (ents V n) with
  | None => forall s', intx o s0 V bl ∅ s' -> Q None s'
  | Some (j, de) => exists i t, iget_table ROOTDEV (de_inum de) (k_itable s0) = Some (i, t) /\
      forall s', intx o (set_k_itable t s0) V bl ∅ s' -> Q (Some (i, Z.of_nat j * sizeof_dirent)) s'
  end ->
  wp (dirlookup dp name) Q s.
Proof using Type.
  intros Ht Hn Hd Hr Hlen HQ. unfold dirlookup. apply wp_bind. eapply wp_tx_get_inode; [done..|].
  rewrite (do_type _ _ _ Hd), Z.eqb_refl. cbn [negb].
  apply (dirlookup_loop o s0 V bl dp n name Hn Hd Hr Hlen _ s 0 Q Ht); [lia| |exact HQ]. unfold nents. lia.
Qed.

(** A free entry of the inode table is enough for iget. *)
Lemma iget_table_free t inum :
  Exists (fun n => i_ref n = 0) t -> exists i t', iget_table ROOTDEV inum t = Some (i, t').
Proof using Type.
  intros Hex. unfold iget_table. destruct (find_inode (holds_inode ROOTDEV inum) t); [eauto|].
  destruct (find_inode (fun n => i_ref n =? 0) t) eqn:E; [eauto|].
  apply Exists_exists in Hex as (n & [i Hi]%list_elem_of_lookup & Hz).
  apply (find_inode_None _ _ _ _ E) in Hi. by rewrite Hz in Hi.
Qed.

(** iput of a reference that is not the last one, or of an inode that is not
    in memory: the count goes down. *)
Lemma wp_iput_drop o s0 V bl H s ip n (Q : unit -> kstate -> Prop) :
  intx o s0 V bl H s -> k_itable s0 !! ip = Some n ->
  i_ref n <> 1 \/ i_valid n = false \/ i_nlink n <> 0 ->
  (forall s', intx o (with_inode ip (set_i_ref (i_ref n - 1) n) s0) V bl H s' -> Q tt s') ->
  wp (iput ip) Q s.
Proof using Type.
  intros Ht Hn Hlast HQ. destruct (intx_rest _ _ _ _ _ _ _ _ _ Ht) as (_ & Et & Hh & _).
  unfold wp, iput. rewrite run_acquire by (rewrite Hh; apply not_elem_of_nil).
  rewrite (run_get_inode ip n) by (ks; by rewrite Et).
  assert (Ec : (i_ref n =? 1) && i_valid n && (i_nlink n =? 0) = false).
  { destruct Hlast as [Hne|[->|Hne]]; [by apply Z.eqb_neq in Hne as ->|by rewrite andb_false_r|].
    apply Z.eqb_neq in Hne as ->. apply andb_false_r. }
  rewrite Ec, run_when_false, (run_upd_inode ip n) by (ks; by rewrite Et).
  rewrite (release_ok _ []) by (ks; by rewrite Hh). apply HQ.
  unfold with_inode. rewrite <- Et. ks.
  replace (set_k_held [] _) with (set_k_itable (<[ip := set_i_ref (i_ref n - 1) n]> (k_itable s)) s)
    by (destruct s; cbn in *; by rewrite Hh).
  by apply intx_itable.
Qed.

(** Two inode tables that differ at most in entries that both do not use. *)
Definition same_in_use (t t' : list inode) : Prop :=
  Forall2 (fun m m' => m' = m \/ (i_ref m = 0 /\ i_ref m' = 0)) t t'.

Lemma same_in_use_refl t : same_in_use t t.
Proof using Type. unfold same_in_use. induction t; constructor; auto. Qed.

Lemma same_in_use_insert t i m m' : t !! i = Some m -> i_ref m = 0 -> i_ref m' = 0 -> same_in_use t (<[i := m']> t).
Proof using Type.
  unfold same_in_use. revert i. induction t as [|x t IH]; intros [|i] Hi Hz Hz'; try done; cbn in *.
  - injection Hi as ->. constructor; [by right|apply same_in_use_refl].
  - constructor; [by left|by apply IH].
Qed.

(** What iget leaves at the entry it returns. *)
Lemma iget_table_entry inum t i t' :
  itable_ok t -> iget_table ROOTDEV inum t = Some (i, t') ->
  exists n, t' !! i = Some n /\ (i_ref n <> 1 \/ i_valid n = false) /\
    same_in_use t (<[i := set_i_ref (i_ref n - 1) n]> t') /\
    forall d u, refs d u (<[i := set_i_ref (i_ref n - 1) n]> t') = refs d u t.
Proof using Type.
  intros Hok E. unfold iget_table in E.
  destruct (find_inode (holds_inode ROOTDEV inum) t) as [j|] eqn:Ef.
  - injection E as <- <-. apply find_inode_Some in Ef as (n & Hn & (Hr & _ & _)%holds_inode_spec).
    rewrite (list_alter_insert _ _ _ _ Hn). eexists. split; [apply list_lookup_insert_eq; by eapply lookup_lt_Some|].
    split; [left; cbn; lia|]. rewrite list_insert_insert_eq.
    cbn [i_ref set_i_ref]. replace (i_ref n + 1 - 1) with (i_ref n) by lia.
    rewrite list_insert_id by (rewrite Hn; by destruct n). split; [apply same_in_use_refl|done].
  - destruct (find_inode (fun n => i_ref n =? 0) t) as [j|] eqn:Ee; [|done]. injection E as <- <-.
    apply find_inode_Some in Ee as (n & Hn & Hz%Z.eqb_eq).
    rewrite (list_alter_insert _ _ _ _ Hn). eexists. split; [apply list_lookup_insert_eq; by eapply lookup_lt_Some|].
    split; [right; done|]. rewrite list_insert_insert_eq. split; [by eapply same_in_use_insert|]. intros d u. rewrite (refs_insert _ _ _ _ n) by done.
    assert (Hc0 : forall m, i_ref m = 0 -> contrib d u m = 0).
    { intros m Hm. unfold contrib. destruct (holds_inode d u m) eqn:Eh; [|done]. apply holds_inode_spec in Eh. lia. }
    rewrite !Hc0 by (cbn; done). lia.
Qed.

(** The first free slot. *)
Lemma dirlink_search o s0 V bl dp n : k_itable s0 !! dp = Some n -> dir_ok sb V n -> room bl ∅ ->
  forall f s k (Q : Z -> kstate -> Prop),
  intx o s0 V bl ∅ s -> (k <= nents n)%nat -> (nents n - k < f)%nat ->
  (forall j s', free_slot (ents V n) j -> (j <= nents n)%nat -> intx o s0 V bl ∅ s' -> Q (Z.of_nat j * sizeof_dirent) s') ->
  wp (loop f (dirlink_round dp) (Z.of_nat k * sizeof_dirent)) Q s.
Proof using Type.
  intros Hn Hd Hr. pose proof (dir_size _ _ _ Hd) as Hsz.
  induction f as [|f IH]; intros s k Q Ht Hk Hf HQ; [lia|]. apply wp_loop. unfold dirlink_round.
  apply wp_bind. eapply wp_tx_get_inode; [done..|]. rewrite Hsz.
  destruct (Z.ltb_spec (Z.of_nat k * sizeof_dirent) (Z.of_nat (nents n) * sizeof_dirent)) as [Hlt|Hge].
  2:{ apply wp_ret. apply HQ; [left; rewrite length_ents; plia|done|done]. }
  assert (Hkn : (k < nents n)%nat) by plia.
  apply wp_bind. eapply wp_read_ent; [exact Ht|done..|]. intros s1 Ht1. cbn [fst snd]. rewrite Z.eqb_refl. cbn [negb].
  destruct (Z.eqb_spec (de_inum (ent V n k)) 0) as [Hz|Hz].
  - apply wp_ret. apply HQ; [right; exists (ent V n k); by rewrite ents_lookup|done|done].
  - apply wp_ret. replace (Z.of_nat k * sizeof_dirent + sizeof_dirent) with (Z.of_nat (S k) * sizeof_dirent) by plia.
    apply IH; [done|lia|lia|done].
Qed.

Lemma dir_lookup_find es name :
  dir_lookup es name = match list_find (matches name) es with Some (_, de) => Some (de_inum de) | None => None end.
Proof using Type. unfold dir_lookup. by destruct (list_find (matches name) es) as [[]|]. Qed.

(** ** The properties *)

(** C6. A directory is a map from names (of at most DIRSIZ bytes) to inode
    numbers, and dirlookup is look-up in it: for a name the directory does
    not have it returns 0 and changes nothing; otherwise it returns an inode
    table entry for the inode the map gives the name, with one reference
    more, and the offset of an entry with that name and number. *)
Theorem dirlookup_is_map_lookup o s0 V bl s dp n name :
  intx o s0 V bl ∅ s -> k_itable s0 !! dp = Some n -> dir_ok sb V n -> room bl ∅ ->
  itable_ok (k_itable s0) -> Exists (fun m => i_ref m = 0) (k_itable s0) ->
  match dir_lookup (ents V n) name with
  | None => exists s', dirlookup dp name s = Ret None s' /\ intx o s0 V bl ∅ s'
  | Some inum => exists i k de t s',
      dirlookup dp name s = Ret (Some (i, Z.of_nat k * sizeof_dirent)) s' /\
      ents V n !! k = Some de /\ matches name de /\ de_inum de = inum /\
      one_more ROOTDEV inum (k_itable s0) i t /\ intx o (set_k_itable t s0) V bl ∅ s'
  end.
Proof using Type.
  intros Ht Hn Hd Hr Hok Hfree. rewrite dir_lookup_find.
  destruct (list_find (matches name) (ents V n)) as [[k de]|] eqn:E.
  - destruct (iget_table_free _ (de_inum de) Hfree) as (i & t & Ei).
    pose proof (iget_table_spec ROOTDEV (de_inum de) _ Hok) as Hom. rewrite Ei in Hom.
    assert (Hwp : wp (dirlookup dp name) (fun r s' => r = Some (i, Z.of_nat k * sizeof_dirent) /\
      intx o (set_k_itable t s0) V bl ∅ s') s).
    { eapply wp_dirlookup; [done..|apply Hok|]. rewrite E. exists i, t. split; [done|]. by intros s' Ht'. }
    apply wp_run in Hwp as (r & s' & Er & -> & Ht').
    apply list_find_Some in E as (Hk & Hm & _). by exists i, k, de, t, s'.
  - assert (Hwp : wp (dirlookup dp name) (fun r s' => r = None /\ intx o s0 V bl ∅ s') s).
    { eapply wp_dirlookup; [done..|apply Hok|]. rewrite E. by intros s' Ht'. }
    apply wp_run in Hwp as (r & s' & Er & -> & Ht'). by exists s'.
Qed.

(** C5. dirlink is insertion into that map: a name that is present is refused
    with -1, no block changes, no entry of the inode table that is in use
    changes and every inode has the references it had (an unused entry may
    have been filled and let go again); a name that is not is added with its inode number, returning 0, and every
    other name keeps its number; the directory stays one, and the write has
    the effects of [written] on it, on the other files and on the dinodes. *)
Theorem dirlink_is_map_insert o s0 V bl s dp n name inum :
  intx o s0 V bl ∅ s -> 1 <= o -> k_sb s0 = sb -> meta_used sb V ->
  k_itable s0 !! dp = Some n -> dir_ok sb V n -> i_size n + sizeof_dirent <= MAXFILE * BSIZE ->
  is_bytes name -> 0 < inum < 65536 ->
  itable_ok (k_itable s0) -> Exists (fun m => i_ref m = 0) (k_itable s0) ->
  has_free sb V 2 -> Z.of_nat (length bl) + 7 < size_ - 1 ->
  match dir_lookup (ents V n) name with
  | Some _ => exists t s', dirlink dp name inum s = Ret (-1) s' /\ intx o (set_k_itable t s0) V bl ∅ s' /\
      same_in_use (k_itable s0) t /\ forall d u, refs d u t = refs d u (k_itable s0)
  | None => exists V' n' bl' s', dirlink dp name inum s = Ret 0 s' /\
      intx o (with_inode dp n' s0) V' bl' ∅ s' /\ dir_ok sb V' n' /\
      (exists off, written sb V n off (dirent_bytes inum name) V' n') /\
      forall name', dir_lookup (ents V' n') name' =
        if decide (cname name' = cname name) then Some inum else dir_lookup (ents V n) name'
  end.
Proof using W Hgeo Hlay.
  intros Ht Ho Hsb Hm Hn Hd Hmax Hnm Hin Hok Hfree Hfr Hlt.
  assert (Hr : room bl ∅) by (unfold room; rewrite map_size_empty; unfold nbuf; destruct Hgeo; plia).
  pose proof (dir_lookup_find (ents V n) name) as El.
  destruct (list_find (matches name) (ents V n)) as [[k de]|] eqn:E; rewrite El.
  - destruct (iget_table_free _ (de_inum de) Hfree) as (i & t & Ei).
    destruct (iget_table_entry _ _ _ _ Hok Ei) as (m & Hmi & Hlast & Huse & Hrefs).
    assert (Hwp : wp (dirlink dp name inum) (fun r s' => r = -1 /\
      intx o (set_k_itable (<[i := set_i_ref (i_ref m - 1) m]> t) s0) V bl ∅ s') s).
    { unfold dirlink. apply wp_bind. eapply wp_dirlookup; [done..|apply Hok|]. rewrite E. exists i, t. split; [done|].
      intros s1 Ht1. apply wp_bind. eapply wp_iput_drop; [exact Ht1|exact Hmi|tauto|]. intros s2 Ht2. by apply wp_ret. }
    apply wp_run in Hwp as (r & s' & Er & -> & Ht'). by eexists _, s'.
  - assert (Hwp : wp (dirlink dp name inum) (fun r s' => r = 0 /\ exists k V' n' bl',
      free_slot (ents V n) k /\ (k <= nents n)%nat /\
      written sb V n (Z.of_nat k * sizeof_dirent) (dirent_bytes inum name) V' n' /\
      intx o (with_inode dp n' s0) V' bl' ∅ s') s).
    { unfold dirlink. apply wp_bind. eapply wp_dirlookup; [done..|apply Hok|]. rewrite E. intros s1 Ht1.
      apply wp_bind. eapply wp_tx_get_inode; [done..|]. apply wp_bind.
      apply (dirlink_search o s0 V bl dp n Hn Hd Hr _ s1 0); [done|lia|unfold nents; lia|].
      intros k s2 Hk Hkn Ht2. fold (dirent_bytes inum name). apply wp_bind.
      pose proof (dir_size _ _ _ Hd) as Hsz.
      assert (Elen : Z.of_nat (length (dirent_bytes inum name)) = sizeof_dirent) by (rewrite length_dirent; done).
      assert (Hsp : fspan (Z.of_nat k * sizeof_dirent) sizeof_dirent = 1%nat)
        by (unfold fspan; change (sizeof_dirent <=? 0) with false; change sizeof_dirent with 16; plia).
      rewrite <- Elen. eapply (wp_writei _ _ _ Hgeo sb Hlay); [exact Ht2|done|done|done|exact Hn|apply Hd|
        apply src_gives_local|by apply dirent_is_bytes|plia|plia| | |].
      - rewrite Elen, Hsp. done.
      - rewrite Elen, Hsp. lia.
      - intros V' n' bl' s' Hw _ Ht'. rewrite Elen, Z.eqb_refl. apply wp_ret. split; [done|]. rewrite Elen in Hw. by exists k, V', n', bl'. }
    apply wp_run in Hwp as (r & s' & Er & -> & k & V' & n' & bl' & Hk & Hkn & Hw & Ht').
    destruct (ents_written _ _ _ _ _ _ _ Hd Hkn (length_dirent inum name) Hw) as [Hd' Ees].
    exists V', n', bl', s'. split_and!; try done; [by eexists|].
    intros name'. rewrite Ees. pose proof (dirent_inum inum name ltac:(lia)) as Ei.
    rewrite (dir_lookup_put _ _ _ name), Ei; [done|done|rewrite Ei; lia|apply dirent_name|done].
Qed.
End Dir.
