(* ===== verification/FsPath.v ===== *)
(** Path names of kernel/fs.c: skipelem against splitting at the slashes. *)

From stdpp Require Import base numbers list gmap strings.
From S2P Require Import Prelude Params Mem State Locks Cache Kalloc Vm Console Log Fs Itable FsTx FsBlocks FsInode FsBmap FsWrite FsLock FsDir.

Implicit Types (path name e : list Z).

(** ** Splitting a path *)

(** The parts between slashes, empty ones included. *)
Fixpoint split_slash path : list (list Z) :=
  match path with
  | [] => [[]]
  | c :: p =>
      if is_slash c then [] :: split_slash p
      else match split_slash p with
           | [] => [[c]]
           | e :: es => (c :: e) :: es
           end
  end.

(** The elements of a path. *)
Definition elems path : list (list Z) := filter (fun e => e <> []) (split_slash path).

Lemma split_slash_cons path : exists e es, split_slash path = e :: es.
Proof. destruct path as [|c p]; cbn; [eauto|]. destruct (is_slash c); [eauto|]. destruct (split_slash p); eauto. Qed.

Lemma elems_slash c path : is_slash c = true -> elems (c :: path) = elems path.
Proof. intros Hc. unfold elems. cbn. rewrite Hc. by rewrite filter_cons_False by (by intros []). Qed.

Lemma elems_skip_slashes path : elems (skip_slashes path) = elems path.
Proof.
  induction path as [|c p IH]; [done|]. cbn [skip_slashes]. destruct (is_slash c) eqn:E; [|done].
  by rewrite IH, elems_slash.
Qed.

(** Taking the first element splits off the first part. *)
Lemma take_elem_split path :
  split_slash path = match (take_elem path).2 with
    | [] => [(take_elem path).1]
    | _ :: r => (take_elem path).1 :: split_slash r
    end.
Proof.
  induction path as [|c p IH]; [done|]. cbn. destruct (is_slash c) eqn:E; [done|].
  rewrite IH. destruct (take_elem p) as [e r]. cbn. by destruct r.
Qed.

Lemma take_elem_app path : (take_elem path).1 ++ (take_elem path).2 = path.
Proof.
  induction path as [|c p IH]; [done|]. cbn. destruct (is_slash c); [done|].
  destruct (take_elem p) as [e r]. cbn in *. by rewrite IH.
Qed.

Lemma take_elem_rest path c r : (take_elem path).2 = c :: r -> is_slash c = true.
Proof.
  induction path as [|d p IH]; [done|]. cbn. destruct (is_slash d) eqn:E; [by intros [= -> ->]|].
  destruct (take_elem p) as [e r']. exact IH.
Qed.

Lemma skip_slashes_head path c p : skip_slashes path = c :: p -> is_slash c = false.
Proof. induction path as [|d q IH]; [done|]. cbn. destruct (is_slash d) eqn:E; [done|]. by intros [= -> ->]. Qed.

Lemma skip_slashes_le path : (length (skip_slashes path) <= length path)%nat.
Proof. induction path as [|c p IH]; [done|]. cbn. destruct (is_slash c); cbn; lia. Qed.

Lemma elems_take path c p :
  path = c :: p -> is_slash c = false ->
  (take_elem path).1 <> [] /\ elems path = (take_elem path).1 :: elems (take_elem path).2.
Proof.
  intros -> Hc. assert (Hne : (take_elem (c :: p)).1 <> []) by (cbn; rewrite Hc; by destruct (take_elem p)).
  split; [done|]. unfold elems at 1. rewrite take_elem_split.
  destruct ((take_elem (c :: p)).2) as [|d r] eqn:E.
  - by rewrite filter_cons_True.
  - rewrite filter_cons_True by done. f_equal. rewrite elems_slash; [done|]. by eapply take_elem_rest.
Qed.

(** No slash in an element. *)
Lemma take_elem_clean path : Forall (fun c => is_slash c = false) (take_elem path).1.
Proof.
  induction path as [|c p IH]; [constructor|]. cbn. destruct (is_slash c) eqn:E; [constructor|].
  destruct (take_elem p). by constructor.
Qed.

(** ** skipelem *)

Definition no_nul (l : list Z) : Prop := Forall (fun c => c <> 0) l.

Lemma cname_put name e :
  length name = Z.to_nat DIRSIZ -> no_nul e ->
  let name' := if DIRSIZ <=? Z.of_nat (length e) then put_at name 0 (take (Z.to_nat DIRSIZ) e)
               else put_at name 0 (e ++ [0]) in
  length name' = Z.to_nat DIRSIZ /\ cname name' = take (Z.to_nat DIRSIZ) e.
Proof.
  intros Hl He. assert (Hid : forall l, no_nul l -> cstr l = l).
  { induction 1 as [|c l Hc _ IH]; [done|]. cbn. destruct (Z.eqb_spec c 0); [done|]. by rewrite IH. }
  destruct (Z.leb_spec DIRSIZ (Z.of_nat (length e))) as [Hb|Hb]; intros name'; unfold name'.
  - assert (Ht : length (take (Z.to_nat DIRSIZ) e) = Z.to_nat DIRSIZ) by (rewrite length_take; plia).
    split; [rewrite length_put_at; plia|]. unfold put_at, cname. rewrite take_0, Ht. cbn [app].
    rewrite drop_ge, app_nil_r by lia. rewrite take_take, Nat.min_id. apply Hid. by apply Forall_take.
  - split; [rewrite length_put_at; rewrite ?length_app; cbn [length]; plia|].
    rewrite (take_ge e) by plia. unfold put_at, cname. rewrite take_0. cbn [app].
    rewrite <- app_assoc. rewrite take_app, (take_ge e) by plia. cbn [app].
    replace (Z.to_nat DIRSIZ - length e)%nat with (S (Z.to_nat DIRSIZ - length e - 1)) by plia. cbn [take].
    generalize (take (Z.to_nat DIRSIZ - length e - 1) (drop (0 + length (e ++ [0])) name)). intros z.
    clear -He. induction He as [|c l Hc _ IH]; [done|]. cbn. destruct (Z.eqb_spec c 0); [done|]. by rewrite IH.
Qed.

Definition skipelem_result path name : Prop :=
  match elems path with
  | [] => skipelem path name = None
  | e :: es => exists rest name', skipelem path name = Some (rest, name') /\
      elems rest = es /\ (rest = [] <-> es = []) /\ (forall c p, rest = c :: p -> is_slash c = false) /\
      length name' = Z.to_nat DIRSIZ /\ cname name' = take (Z.to_nat DIRSIZ) e /\
      no_nul rest /\ (length rest < length path)%nat
  end.

Lemma skipelem_spec path name :
  no_nul path -> length name = Z.to_nat DIRSIZ -> skipelem_result path name.
Proof.
  intros Hp Hl. unfold skipelem_result, skipelem. rewrite <- (elems_skip_slashes path).
  assert (Hsk : forall p, no_nul p -> no_nul (skip_slashes p)).
  { induction 1 as [|c p Hc Hf IH]; cbn; [constructor|]. destruct (is_slash c); [done|by constructor]. }
  pose proof (skip_slashes_le path) as Hle. apply Hsk in Hp.
  destruct (skip_slashes path) as [|c p] eqn:E; [done|].
  apply skip_slashes_head in E. destruct (elems_take _ c p eq_refl E) as [Hne ->].
  pose proof (take_elem_app (c :: p)) as Happ. destruct (take_elem (c :: p)) as [e r]. cbn [fst snd] in *.
  rewrite <- Happ in Hp. apply Forall_app in Hp as [He Hr].
  destruct (cname_put name e Hl He) as [Hl' Hc].
  eexists _, _. split_and!; [done|apply elems_skip_slashes| | |done|done|by apply Hsk|].
  - rewrite <- elems_skip_slashes. split; [by intros ->|]. destruct (skip_slashes r) as [|d q] eqn:Er; [done|].
    apply skip_slashes_head in Er. destruct (elems_take _ d q eq_refl Er) as [_ ->]. done.
  - intros d q. apply skip_slashes_head.
  - pose proof (skip_slashes_le r). apply (f_equal length) in Happ. rewrite length_app in Happ. cbn [length] in *.
    destruct e; [done|]. cbn [length] in *. lia.
Qed.

(** The names that namex's loop [while((path = skipelem(path, name)) != 0)]
    looks up, in its fuel. *)
Fixpoint visited (fuel : nat) path name : option (list (list Z)) :=
  match fuel with
  | O => None
  | S f => match skipelem path name with
           | None => Some []
           | Some (path, name) => cons (cname name) <$> visited f path name
           end
  end.

Lemma visited_elems fuel path name :
  (length path < fuel)%nat -> no_nul path -> length name = Z.to_nat DIRSIZ ->
  visited fuel path name = Some (take (Z.to_nat DIRSIZ) <$> elems path).
Proof.
  revert path name. induction fuel as [|f IH]; intros path name Hf Hp Hl; [lia|]. cbn [visited].
  pose proof (skipelem_spec path name Hp Hl) as Hs. unfold skipelem_result in Hs.
  destruct (elems path) as [|e es]; [by rewrite Hs|].
  destruct Hs as (rest & name' & -> & <- & _ & _ & Hl' & Hc & Hr & Hlt). rewrite IH by (done || lia).
  cbn. by rewrite Hc.
Qed.

(** skipelem against splitting the path at its slashes: it returns 0
    exactly for a path with no element (empty or all slashes); otherwise the
    name it stores is the first element, cut at DIRSIZ bytes, and the path it
    returns has the remaining elements, starts with no slash, and is empty
    exactly when the element was the last one. The path gets shorter every
    time, so namex's loop ends, after looking up exactly the elements of the
    path in order: the model's bound on it, the length of the path plus one,
    is always enough. *)
Theorem skipelem_splits_paths path name :
  no_nul path -> length name = Z.to_nat DIRSIZ ->
  skipelem_result path name /\
  visited (S (length path)) path name = Some (take (Z.to_nat DIRSIZ) <$> elems path).
Proof. intros Hp Hl. split; [by apply skipelem_spec|]. apply visited_elems; [lia|done|done]. Qed.

(** "//usr//ls/" *)
Lemma skipelem_splits_paths_witness :
  visited 11 [47; 47; 117; 115; 114; 47; 47; 108; 115; 47] empty_name =
    Some [[117; 115; 114]; [108; 115]].
Proof.
  destruct (skipelem_splits_paths [47; 47; 117; 115; 114; 47; 47; 108; 115; 47] empty_name) as [_ H].
  - repeat constructor; lia.
  - reflexivity.
  - exact H.
Defined.
