(* ===== verification/FsNamei.v ===== *)
(** namei and nameiparent of kernel/fs.c: path names are resolved in the
    directory tree on the disk, and the walk keeps the inode table's
    references. *)

From stdpp Require Import base numbers list gmap strings.
From S2P Require Import Prelude Params Mem State Locks Cache Vm Console Log Fs Itable FsTx FsBlocks FsInode FsBmap FsWrite FsLock FsDir FsPath.

Implicit Types (V : Z -> list Z) (bl : list Z) (t : list inode) (n : inode).

(** ** References and free entries *)

Ltac eqbs := repeat (match goal with
  | |- context [Z.eqb ?a ?b] => destruct (Z.eqb_spec a b)
  | H : context [Z.eqb ?a ?b] |- _ => destruct (Z.eqb_spec a b)
  end).

Definition one (b : bool) : Z := if b then 1 else 0.

(** The reference that a walk holds to inode [j]. *)
Definition ref_to (j d u : Z) : Z := one (bool_decide ((d, u) = (ROOTDEV, j))).

Definition nfree t : Z := foldr (fun n acc => one (i_ref n =? 0) + acc) 0 t.

Lemma nfree_insert t i n m : t !! i = Some n ->
  nfree (<[i := m]> t) = nfree t - one (i_ref n =? 0) + one (i_ref m =? 0).
Proof.
  revert i. induction t as [|x t IH]; intros [|i] E; simplify_eq/=; [lia|]. rewrite (IH i) by done. lia.
Qed.

Lemma nfree_exists t : 0 < nfree t -> Exists (fun n => i_ref n = 0) t.
Proof.
  induction t as [|x t IH]; simpl; [lia|]. destruct (Z.eqb_spec (i_ref x) 0); [by left|].
  simpl. intros H. right. by apply IH.
Qed.

Lemma contrib_eq d u n : 0 <= i_ref n ->
  contrib d u n = if decide ((d, u) = (i_dev n, i_inum n)) then i_ref n else 0.
Proof.
  intros Hr. case_decide as E; [injection E as -> ->; by apply contrib_self|]. by eapply contrib_other.
Qed.

(** iget changes one entry. *)
Lemma iget_table_cases j t i t' :
  iget_table ROOTDEV j t = Some (i, t') -> exists n, t !! i = Some n /\
    (0 < i_ref n /\ i_dev n = ROOTDEV /\ i_inum n = j /\ t' = <[i := set_i_ref (i_ref n + 1) n]> t \/
     i_ref n = 0 /\ find_inode (holds_inode ROOTDEV j) t = None /\ t' = <[i := recycle ROOTDEV j n]> t).
Proof.
  unfold iget_table. destruct (find_inode (holds_inode ROOTDEV j) t) as [k|] eqn:Ef.
  - intros [= <- <-]. apply find_inode_Some in Ef as (n & Hn & (Hr & Hd & Hi)%holds_inode_spec).
    exists n. split; [done|]. left. by rewrite (list_alter_insert _ _ _ _ Hn).
  - destruct (find_inode (fun n => i_ref n =? 0) t) as [k|] eqn:Ee; [|discriminate]. intros [= <- <-].
    apply find_inode_Some in Ee as (n & Hn & Hr%Z.eqb_eq). exists n. split; [done|]. right.
    by rewrite (list_alter_insert _ _ _ _ Hn).
Qed.

Lemma find_inode_none (Q : inode -> bool) t : (forall k y, t !! k = Some y -> Q y = false) -> find_inode Q t = None.
Proof.
  intros Hq. unfold find_inode. apply fmap_None, list_find_None, Forall_lookup. intros k y Hy E.
  specialize (Hq k y Hy). congruence.
Qed.

(** ** The tree on the disk *)

Section Tree.
Context (sb : superblock) (V : Z -> list Z).

(** The inode [j] as it is on the disk. *)
Definition disk_inode (j : Z) : inode :=
  dinode_of sb V j (mk_inode ROOTDEV j 0 (mk_sleeplock false 0) false 0 0 0 0 0 []).

(** [P] is a set of allocated inodes with links, closed under the names in
    its directories. *)
Definition tree_ok (P : Z -> Prop) : Prop := forall j, P j ->
  inum_ok sb j /\ i_type (disk_inode j) <> 0 /\ i_nlink (disk_inode j) <> 0 /\
  (i_type (disk_inode j) = T_DIR -> dir_ok sb V (disk_inode j) /\
   forall name k, dir_lookup (ents V (disk_inode j)) name = Some k -> P k).

(** From inode [j], the inode of a path, or of its parent directory. *)
Fixpoint walk (parent : bool) (j : Z) (es : list (list Z)) : option Z :=
  match es with
  | [] => if parent then None else Some j
  | e :: es' =>
      if negb (i_type (disk_inode j) =? T_DIR) then None
      else if parent && bool_decide (es' = []) then Some j
      else match dir_lookup (ents V (disk_inode j)) e with
           | Some k => walk parent k es'
           | None => None
           end
  end.

(** ** The table in a walk *)

Context (P : Z -> Prop).

(** An entry that no process has locked; in use it is for an inode of the
    tree and, when it is valid, has the fields that are on the disk. *)
Definition entry_ok n : Prop :=
  sl_locked (i_lock n) = false /\
  (0 < i_ref n -> i_dev n = ROOTDEV /\ P (i_inum n) /\ (i_valid n = true -> dinode_of sb V (i_inum n) n = n)).

Record table_ok t : Prop := {
  tk_table : itable_ok t;
  tk_entries : Forall entry_ok t;
}.

(** The entry after ilock, without its lock. *)
Definition loaded n : inode := set_i_valid true (dinode_of sb V (i_inum n) n).

Lemma loaded_valid n : entry_ok n -> 0 < i_ref n -> i_valid n = true -> loaded n = n.
Proof using Type.
  intros [_ He] Hr Hv. destruct (He Hr) as (_ & _ & E). unfold loaded. rewrite E by done.
  destruct n; cbn in *. by subst.
Qed.

Lemma table_insert t i n m :
  table_ok t -> t !! i = Some n -> entry_ok m -> 0 <= i_ref m ->
  (0 < i_ref m -> (0 < i_ref n /\ i_dev m = i_dev n /\ i_inum m = i_inum n) \/
     find_inode (holds_inode (i_dev m) (i_inum m)) t = None) ->
  table_ok (<[i := m]> t).
Proof using Type.
  intros [Ht He] Hn Hm Hr Hu. split; [|by apply Forall_insert].
  destruct (decide (0 < i_ref m)) as [Hp|Hp].
  - eapply itable_ok_insert; [done|done|done|]. intros j k Hk Hji Hkr [Hd Hi].
    destruct (Hu Hp) as [(Hnr & Ed & Ei)|Hf].
    + apply Hji. eapply (it_unique _ Ht); [done|done|done|done|congruence|congruence].
    + apply (find_inode_None _ _ _ _ Hf) in Hk.
      assert (holds_inode (i_dev m) (i_inum m) k = true) by (by apply holds_inode_spec). congruence.
  - destruct Ht as [H1 H2 H3]. split; [by rewrite length_insert|by apply Forall_insert|].
    intros a b x y Ha Hb Hx Hy. apply list_lookup_insert_Some in Ha, Hb.
    destruct Ha as [(<- & <- & _)|[Hai Ha]]; [lia|]. destruct Hb as [(<- & <- & _)|[Hbi Hb]]; [lia|]. by apply H3.
Qed.

Lemma entry_ok_at t i n : table_ok t -> t !! i = Some n -> entry_ok n /\ 0 <= i_ref n.
Proof using Type.
  intros [Ht He] Hn. rewrite Forall_lookup in He. pose proof (it_refs _ Ht) as Hr. rewrite Forall_lookup in Hr.
  split; [by eapply He|by eapply Hr].
Qed.

(** The walk holds a reference to inode [j] at entry [i], and there is room
    for the next one. *)
Record at_inode t (i : nat) (j : Z) : Prop := {
  ai_table : table_ok t;
  ai_entry : exists n, t !! i = Some n /\ 1 <= i_ref n /\ i_inum n = j /\ 2 <= nfree t + one (i_ref n =? 1);
}.

(** The entry of [ip] when its reference has been dropped again. *)
Definition dropped n : inode := set_i_ref (i_ref n - 1) (unlocked (loaded n)).

Lemma loaded_ok n r : entry_ok n -> 0 < i_ref n -> 0 <= r -> entry_ok (set_i_ref r (unlocked (loaded n))).
Proof using Type.
  intros [_ He] Hr _. destruct (He Hr) as (Hd & HP & _). split; [done|]. intros _. cbn. split_and!; try done.
Qed.

(** Loading, locking and unlocking the entry change no reference. *)
Lemma refs_same_ref t i n m d u : t !! i = Some n -> i_dev m = i_dev n -> i_inum m = i_inum n -> 0 <= i_ref n ->
  0 <= i_ref m -> refs d u (<[i := m]> t) = refs d u t +
    (if decide ((d, u) = (i_dev n, i_inum n)) then i_ref m - i_ref n else 0).
Proof using Type.
  intros Hn Hd Hi Hr Hm. rewrite (refs_insert _ _ _ _ n), !contrib_eq by done. rewrite Hd, Hi. case_decide; lia.
Qed.

(** Dropping the reference at [ip]. *)
Lemma drop_step t ip n :
  table_ok t -> t !! ip = Some n -> 1 <= i_ref n ->
  table_ok (<[ip := dropped n]> t) /\
  forall d u, refs d u (<[ip := dropped n]> t) = refs d u t - ref_to (i_inum n) d u.
Proof using Type.
  intros Ht Hn Hr. destruct (entry_ok_at _ _ _ Ht Hn) as [He _]. split.
  - eapply table_insert; [done|done| |cbn; lia|].
    + apply loaded_ok; [done|lia|lia].
    + cbn. intros _. left. split_and!; [lia|done|done].
  - intros d u. rewrite (refs_same_ref t ip n) by (done || (cbn; lia)). destruct He as [_ He].
    destruct (He ltac:(lia)) as (Hd & _). unfold ref_to, one. rewrite Hd. cbn.
    case_decide; case_bool_decide; try done; lia.
Qed.

(** Taking a reference to [j], while [ip] is locked, and dropping [ip]. *)
Definition stepped t (ip : nat) n (t2 : list inode) : list inode :=
  match t2 !! ip with Some m => <[ip := set_i_ref (i_ref m - 1) (unlocked m)]> t2 | None => t2 end.

Lemma entry_inc n : entry_ok n -> 0 < i_ref n -> entry_ok (set_i_ref (i_ref n + 1) n).
Proof using Type.
  intros [Hl He] Hr. split; [done|]. intros _. destruct (He Hr) as (Hd & HP & Hv). cbn. split_and!; [done|done|].
  intros E. specialize (Hv E). change (set_i_ref (i_ref n + 1) (dinode_of sb V (i_inum n) n) = set_i_ref (i_ref n + 1) n).
  by rewrite Hv.
Qed.

Lemma entry_recycle n j : entry_ok n -> P j -> entry_ok (recycle ROOTDEV j n).
Proof using Type. intros [Hl _] HP. split; [done|]. intros _. by split_and!. Qed.

(** What the walk needs of the entry [m] of [ip] to unlock and drop it. *)
Definition droppable pid n m : Prop :=
  1 <= i_ref m /\ i_lock m = mk_sleeplock true pid /\ i_valid m = true /\ i_nlink m = i_nlink (loaded n).

(** iget changed another entry, [i], into [y]. *)
Lemma step_other pid t ip n j i x y :
  at_inode t ip (i_inum n) -> t !! ip = Some n -> i <> ip -> t !! i = Some x ->
  entry_ok y -> i_dev y = ROOTDEV -> i_inum y = j -> i_ref y = i_ref x + 1 ->
  (0 < i_ref x /\ i_dev y = i_dev x /\ i_inum y = i_inum x \/
   i_ref x = 0 /\ find_inode (holds_inode ROOTDEV j) (<[ip := dropped n]> t) = None) ->
  let t2 := <[i := y]> (<[ip := locked_by pid (loaded n)]> t) in
  (exists m, t2 !! ip = Some m /\ droppable pid n m) /\ at_inode (stepped t ip n t2) i j /\
  forall d u, refs d u (stepped t ip n t2) = refs d u t - ref_to (i_inum n) d u + ref_to j d u.
Proof using Type.
  intros [Ht (n' & Hn' & Hr & _ & Hs)] Hn Hne Hx Hey Hyd Hyi Hyr Hxy t2. assert (n' = n) as -> by congruence. clear Hn'.
  pose proof (lookup_lt_Some _ _ _ Hn) as Hlt. pose proof (lookup_lt_Some _ _ _ Hx) as Hlti.
  destruct (entry_ok_at _ _ _ Ht Hx) as [_ Hxr]. destruct (drop_step t ip n Ht Hn Hr) as [Hdt Hdr].
  assert (Hi0 : (<[ip := dropped n]> t) !! i = Some x) by (by rewrite list_lookup_insert_ne).
  assert (E2 : t2 !! ip = Some (locked_by pid (loaded n))).
  { unfold t2. rewrite list_lookup_insert_ne by done. by apply list_lookup_insert_eq. }
  assert (Es : stepped t ip n t2 = <[i := y]> (<[ip := dropped n]> t)).
  { unfold stepped. rewrite E2. unfold t2. rewrite list_insert_insert_ne by done. by rewrite list_insert_insert_eq. }
  split; [by exists (locked_by pid (loaded n))|]. rewrite Es. split; [split|].
  - eapply table_insert; [done|done|done|lia|]. intros _. rewrite Hyd, Hyi in *. destruct Hxy as [Hxy|[_ Hf]]; [by left|by right].
  - exists y. split; [apply list_lookup_insert_eq; by rewrite length_insert|]. split; [lia|]. split; [done|].
    rewrite (nfree_insert _ _ x), (nfree_insert _ _ n) by done. cbn. unfold one in *. eqbs; lia.
  - intros d u. rewrite (refs_insert _ _ _ _ x), Hdr by done. rewrite !contrib_eq, Hyd, Hyi, Hyr by lia. unfold ref_to, one.
    destruct Hxy as [(_ & E1 & E3)|[E0 _]]; [rewrite <- E1, <- E3, Hyd, Hyi|rewrite E0];
      repeat case_decide; repeat case_bool_decide; try congruence; lia.
Qed.

Lemma path_step pid t ip n j i t2 :
  at_inode t ip (i_inum n) -> t !! ip = Some n -> P j ->
  iget_table ROOTDEV j (<[ip := locked_by pid (loaded n)]> t) = Some (i, t2) ->
  (exists m, t2 !! ip = Some m /\ droppable pid n m) /\ at_inode (stepped t ip n t2) i j /\
  forall d u, refs d u (stepped t ip n t2) = refs d u t - ref_to (i_inum n) d u + ref_to j d u.
Proof using Type.
  intros Hat Hn HP Hg. pose proof Hat as [Ht (n' & Hn' & Hr & _ & Hs)]. assert (n' = n) as -> by congruence. clear Hn'.
  pose proof (lookup_lt_Some _ _ _ Hn) as Hlt. destruct (entry_ok_at _ _ _ Ht Hn) as [He _].
  set (n1 := locked_by pid (loaded n)) in *. set (t1 := <[ip := n1]> t) in *.
  assert (Ht1 : forall k, k <> ip -> t1 !! k = t !! k) by (intros; unfold t1; by rewrite list_lookup_insert_ne).
  assert (Hip : t1 !! ip = Some n1) by (by apply list_lookup_insert_eq).
  destruct (iget_table_cases _ _ _ _ Hg) as (x & Hx & Hcase). destruct (decide (i = ip)) as [->|Hne].
  - (* the inode itself, as for the name "." *)
    rewrite Hip in Hx. injection Hx as <-. destruct Hcase as [(_ & _ & Hxi & ->)|[Hz _]]; [|cbn in Hz; lia].
    assert (E2 : (<[ip := set_i_ref (i_ref n1 + 1) n1]> t1) !! ip = Some (set_i_ref (i_ref n1 + 1) n1))
      by (apply list_lookup_insert_eq; unfold t1; by rewrite length_insert).
    assert (Es : stepped t ip n (<[ip := set_i_ref (i_ref n1 + 1) n1]> t1) =
      <[ip := set_i_ref (i_ref n) (unlocked (loaded n))]> t).
    { unfold stepped. rewrite E2. unfold t1. rewrite !list_insert_insert_eq. cbn.
      by replace (i_ref n + 1 - 1) with (i_ref n) by lia. }
    split; [eexists; split; [exact E2|]; split; [cbn; lia|done]|]. rewrite Es. split; [split|].
    + eapply table_insert; [done|done|apply loaded_ok; [done|lia|lia]|cbn; lia|]. cbn. intros _. left. by split_and!; try lia.
    + eexists. split; [by apply list_lookup_insert_eq|]. rewrite (nfree_insert _ _ n) by done. cbn in Hxi |- *.
      split_and!; [done|done|lia].
    + intros d u. rewrite (refs_same_ref t ip n) by (done || (cbn; lia)). cbn in Hxi |- *. rewrite Hxi. case_decide; lia.
  - rewrite (Ht1 i Hne) in Hx. destruct (entry_ok_at _ _ _ Ht Hx) as [Hex _].
    destruct Hcase as [(Hxr & Hxd & Hxi & ->)|(Hxr & Hf & ->)].
    + apply (step_other pid t ip n j i x); try done; [by apply entry_inc|]. by left.
    + apply (step_other pid t ip n j i x); try done; [by apply entry_recycle|cbn; lia|]. right. split; [done|].
      apply find_inode_none. intros k y Hy. apply list_lookup_insert_Some in Hy as [(<- & <- & _)|[Hk Hy]].
      * pose proof (find_inode_None _ _ ip n1 Hf Hip) as Hz.
        destruct (holds_inode ROOTDEV j (dropped n)) eqn:E; [|done]. apply holds_inode_spec in E as (E1 & E3 & E4). cbn in E1, E3, E4.
        assert (holds_inode ROOTDEV j n1 = true); [|congruence]. apply holds_inode_spec. cbn. split_and!; [lia|done|done].
      * apply (find_inode_None _ _ k y Hf). by rewrite Ht1.
Qed.
End Tree.

(** ** The walk *)

Section Namei.
Context {W : Wakeups} {L : Layout} {C : BlockCache} (pid start size_ : Z).
Context (Hgeo : geometry start size_).
Context (sb : superblock) (Hlay : fs_layout start size_ sb).
Context (V : Z -> list Z) (P : Z -> Prop) (Htree : tree_ok sb V P).
Notation intx := (intx pid start size_).
Notation table_ok := (table_ok sb V P).
Notation at_inode := (at_inode sb V P).
Notation loaded := (loaded sb V).

Lemma dinode_fields j n m :
  i_type (dinode_of sb V j n) = i_type (dinode_of sb V j m) /\ i_nlink (dinode_of sb V j n) = i_nlink (dinode_of sb V j m) /\
  i_size (dinode_of sb V j n) = i_size (dinode_of sb V j m) /\ i_addrs (dinode_of sb V j n) = i_addrs (dinode_of sb V j m).
Proof using Type. done. Qed.

Lemma fblk_addrs n m bn : i_addrs n = i_addrs m -> fblk V n bn = fblk V m bn.
Proof using Type. intros E. unfold fblk, ind_at, addr_at. by rewrite E. Qed.

Lemma ents_fields n m : i_addrs n = i_addrs m -> i_size n = i_size m -> ents V n = ents V m.
Proof using Type.
  intros Ea Es. unfold ents, nents, ent, fdata, fbyte. rewrite Es. apply list_fmap_ext. intros k x _.
  apply list_fmap_ext. intros i y _. by rewrite (fblk_addrs n m).
Qed.

(** The directory in memory is the one on the disk. *)
Lemma dir_ok_loaded n l : i_dev n = ROOTDEV -> dir_ok sb V (disk_inode sb V (i_inum n)) ->
  dir_ok sb V (set_i_lock l (loaded n)).
Proof using Type.
  intros Hd [[[F1 F2 F3 F4 F5 F6] [I1 I2 I3 I4 I5 I6 I7] F F' F''] D2 D3]. split; [|exact D2|exact D3].
  split; [|by split|exact F|exact F'|exact F'']. by split.
Qed.

Lemma wp_ilock_ok o s0 t bl s ip n (Q : unit -> kstate -> Prop) :
  intx o (set_k_itable t s0) V bl ∅ s -> k_sb s0 = sb -> table_ok t -> t !! ip = Some n -> 1 <= i_ref n -> room bl ∅ ->
  (forall s', intx o (set_k_itable (<[ip := locked_by pid (loaded n)]> t) s0) V bl ∅ s' -> Q tt s') ->
  wp (ilock ip) Q s.
Proof using Htree.
  intros Ht Hsb Htk Hn Hr Hroom HQ. destruct (entry_ok_at _ _ _ _ _ _ Htk Hn) as [He _].
  pose proof He as [Hl Hu]. destruct (Hu ltac:(lia)) as (Hdev & HP & _). destruct (i_valid n) eqn:Ev.
  - eapply wp_ilock_valid; [exact Ht|exact Hn|done|done|done|]. intros s' Ht'. apply HQ.
    rewrite (loaded_valid _ _ _ _ He) by (done || lia). exact Ht'.
  - eapply (wp_ilock_load _ _ _ _ _ _ _ _ _ _ sb); [exact Ht|exact Hn|done|done|done|done|done|done| |].
    + destruct (Htree _ HP) as (_ & Hty & _). exact Hty.
    + exact HQ.
Qed.

Lemma wp_iunlockput o s0 t bl s ip m (Q : unit -> kstate -> Prop) :
  intx o (set_k_itable t s0) V bl ∅ s -> t !! ip = Some m -> 1 <= i_ref m -> i_lock m = mk_sleeplock true pid ->
  i_nlink m <> 0 ->
  (forall s', intx o (set_k_itable (<[ip := set_i_ref (i_ref m - 1) (unlocked m)]> t) s0) V bl ∅ s' -> Q tt s') ->
  wp (iunlockput ip) Q s.
Proof using Type.
  intros Ht Hm Hr Hl Hk HQ. unfold iunlockput. apply wp_bind. eapply wp_iunlock; [exact Ht|exact Hm|done|done|].
  intros s1 Ht1. eapply wp_iput_drop; [exact Ht1|by eapply with_inode_lookup|by right; right|]. intros s2 Ht2. apply HQ.
  rewrite with_inode_twice in Ht2. exact Ht2.
Qed.

Lemma dir_lookup_cname es e name : cname name = cname e -> dir_lookup es name = dir_lookup es e.
Proof using Type.
  intros E. unfold dir_lookup. f_equal. apply list_find_ext. intros de. unfold matches. by rewrite E.
Qed.

(** What the walk returns: the entry of the inode it ends at, with one more
    reference to it than [base], and [name] the last element of the path. *)
Definition found (s0 : kstate) (base : Z -> Z -> Z) bl o (last : option (list Z)) (r : option Z) (v : option nat * list Z) (s : kstate) : Prop :=
  exists t, table_ok t /\ intx o (set_k_itable t s0) V bl ∅ s /\
    match r with
    | Some j => exists i n, v.1 = Some i /\ t !! i = Some n /\ 1 <= i_ref n /\ i_inum n = j /\
        (forall e, last = Some e -> cname v.2 = take (Z.to_nat DIRSIZ) e) /\
        forall d u, refs d u t = base d u + ref_to j d u
    | None => v.1 = None /\ forall d u, refs d u t = base d u
    end.

(** The references of the table but for the walk's own. *)
Definition less_one t (j d u : Z) : Z := refs d u t - ref_to j d u.

(** The outcome of a walk that goes on is the outcome of the whole walk. *)
Lemma found_step s0 base base' bl o last last' r v s :
  (forall d u, base' d u = base d u) -> (forall e, last = Some e -> last' = Some e) ->
  found s0 base' bl o last' r v s -> found s0 base bl o last r v s.
Proof using Type.
  intros Hr Hl (t2 & H1 & H2 & H3). exists t2. split; [done|]. split; [done|]. destruct r as [j'|].
  - destruct H3 as (i & n & E1 & E2 & E3 & E4 & E5 & E6). exists i, n. split_and!; try done; [by auto|].
    intros d u. by rewrite E6, Hr.
  - destruct H3 as [E1 E2]. split; [done|]. intros d u. by rewrite E2, Hr.
Qed.

(** Giving up at [ip]. *)
Lemma wp_walk_none o s0 t bl s ip n name last :
  intx o (set_k_itable (<[ip := locked_by pid (loaded n)]> t) s0) V bl ∅ s -> table_ok t -> t !! ip = Some n -> 1 <= i_ref n ->
  wp (iunlockput ip ;; ret (inr (None, name) : (list Z * list Z * nat) + (option nat * list Z)))
    (fun r s' => match r with inr v => found s0 (less_one t (i_inum n)) bl o last None v s' | _ => False end) s.
Proof using Htree.
  intros Ht Htk Hn Hr. destruct (entry_ok_at _ _ _ _ _ _ Htk Hn) as [[_ Hu] _]. destruct (Hu ltac:(lia)) as (_ & HP & _).
  destruct (Htree _ HP) as (_ & _ & Hk & _). destruct (drop_step _ _ _ _ _ _ Htk Hn Hr) as [Hd1 Hd2].
  apply wp_bind. eapply wp_iunlockput; [exact Ht|by apply list_lookup_insert_eq; eapply lookup_lt_Some|done|done|exact Hk|].
  intros s' Ht'. apply wp_ret. rewrite list_insert_insert_eq in Ht'.
  exists (<[ip := dropped sb V n]> t). split_and!; [done|exact Ht'|done|done].
Qed.

Lemma table_nonempty t : 0 < nfree t -> forall j, exists i t', iget_table ROOTDEV j t = Some (i, t').
Proof using Type. intros Hf j. apply (iget_table_free t j). by apply nfree_exists. Qed.

Lemma cname_take name e : cname name = take (Z.to_nat DIRSIZ) e -> cname name = cname e.
Proof using Type.
  intros E. assert (Hz : Forall (fun c => c <> 0) (take (Z.to_nat DIRSIZ) e)) by (rewrite <- E; apply cstr_nonzero).
  rewrite E. unfold cname. pose proof (cstr_pad _ 0 Hz) as Hp. rewrite app_nil_r in Hp. by rewrite Hp.
Qed.

(** Dropping an entry as it is. *)
Lemma drop_plain t ip n : table_ok t -> t !! ip = Some n -> 1 <= i_ref n ->
  table_ok (<[ip := set_i_ref (i_ref n - 1) n]> t) /\
  forall d u, refs d u (<[ip := set_i_ref (i_ref n - 1) n]> t) = refs d u t - ref_to (i_inum n) d u.
Proof using Type.
  intros Htk Hn Hr. destruct (entry_ok_at _ _ _ _ _ _ Htk Hn) as [[Hl Hu] _]. destruct (Hu ltac:(lia)) as (Hd & HP & Hv). split.
  - eapply table_insert; [done|done| |cbn; lia|].
    + split; [done|]. intros _. split; [done|]. split; [done|]. intros E. specialize (Hv E).
      change (set_i_ref (i_ref n - 1) (dinode_of sb V (i_inum n) n) = set_i_ref (i_ref n - 1) n). by rewrite Hv.
    + cbn. intros _. left. split_and!; [lia|done|done].
  - intros d u. rewrite (refs_same_ref t ip n) by (done || (cbn; lia)). rewrite Hd. unfold ref_to, one. cbn.
    case_decide; case_bool_decide; try done; lia.
Qed.

(** iput of the walk's own reference: the inode has links, so nothing is freed. *)
Lemma wp_walk_iput o s0 t bl s ip n (Q : unit -> kstate -> Prop) :
  intx o (set_k_itable t s0) V bl ∅ s -> table_ok t -> t !! ip = Some n -> 1 <= i_ref n ->
  (forall s', intx o (set_k_itable (<[ip := set_i_ref (i_ref n - 1) n]> t) s0) V bl ∅ s' -> Q tt s') ->
  wp (iput ip) Q s.
Proof using Htree.
  intros Ht Htk Hn Hr HQ. destruct (entry_ok_at _ _ _ _ _ _ Htk Hn) as [[_ Hu] _]. destruct (Hu ltac:(lia)) as (_ & HP & Hv).
  eapply wp_iput_drop; [exact Ht|exact Hn| |exact HQ]. destruct (i_valid n) eqn:E; [|by right; left]. right; right.
  rewrite <- (Hv eq_refl). destruct (Htree _ HP) as (_ & _ & Hk & _). exact Hk.
Qed.

(** The result of one round: the walk is over, or goes on at the next
    element from the next inode. *)
Definition round_ok s0 t j bl o (parent : bool) (path : list Z) (last0 : option (list Z))
    (r : (list Z * list Z * nat) + (option nat * list Z)) (s : kstate) : Prop :=
  match r with
  | inr v => found s0 (less_one t j) bl o (match last (elems path) with Some e => Some e | None => last0 end)
      (walk sb V parent j (elems path)) v s
  | inl (path', name', ip') => exists t' k e, at_inode t' ip' k /\ intx o (set_k_itable t' s0) V bl ∅ s /\
      elems path = e :: elems path' /\ walk sb V parent j (elems path) = walk sb V parent k (elems path') /\
      (length path' < length path)%nat /\ no_nul path' /\ length name' = Z.to_nat DIRSIZ /\
      cname name' = take (Z.to_nat DIRSIZ) e /\
      forall d u, less_one t' k d u = less_one t j d u
  end.

Lemma wp_namex_round o parent s0 bl path name ip t s last0 j :
  k_sb s0 = sb -> room bl ∅ -> intx o (set_k_itable t s0) V bl ∅ s -> at_inode t ip j ->
  no_nul path -> length name = Z.to_nat DIRSIZ -> (forall e, last0 = Some e -> cname name = take (Z.to_nat DIRSIZ) e) ->
  wp (namex_round parent (path, name, ip)) (round_ok s0 t j bl o parent path last0) s.
Proof using Htree.
  intros Hsb Hroom Ht Hat Hnul Hlen Hlast. pose proof Hat as [Htk (n & Hn & Hr & <- & Hfree)].
  pose proof (skipelem_spec path name Hnul Hlen) as Hsk. unfold skipelem_result in Hsk. unfold namex_round.
  destruct (elems path) as [|e es] eqn:Ees.
  { rewrite Hsk. destruct parent.
    - apply wp_bind. eapply wp_walk_iput; [done..|]. intros s' Ht'. apply wp_ret. unfold round_ok. rewrite Ees.
      destruct (drop_plain t ip n Htk Hn Hr). eexists. split; [done|]. split; [exact Ht'|]. by split.
    - apply wp_ret. unfold round_ok. rewrite Ees. exists t. split; [done|]. split; [done|]. exists ip, n.
      split_and!; try done. intros d u. unfold less_one. lia. }
  destruct Hsk as (rest & name' & -> & Er & Hre & _ & Hl' & Hc' & Hnul' & Hlt).
  apply wp_bind. eapply wp_ilock_ok; [done..|]. intros s1 Ht1.
  set (n1 := locked_by pid (loaded n)) in *. set (t1 := <[ip := n1]> t) in *.
  assert (Hn1 : t1 !! ip = Some n1) by (by apply list_lookup_insert_eq; eapply lookup_lt_Some).
  destruct (entry_ok_at _ _ _ _ _ _ Htk Hn) as [[_ Hu] Hr0]. destruct (Hu ltac:(lia)) as (Hdev & HP & _).
  destruct (Htree _ HP) as (_ & Hty & Hnl & Hdir).
  apply wp_bind. eapply wp_tx_get_inode; [exact Ht1|exact Hn1|].
  change (i_type n1) with (i_type (disk_inode sb V (i_inum n))).
  assert (Ew : walk sb V parent (i_inum n) (e :: es) =
    if negb (i_type (disk_inode sb V (i_inum n)) =? T_DIR) then None
    else if parent && bool_decide (es = []) then Some (i_inum n)
    else match dir_lookup (ents V (disk_inode sb V (i_inum n))) e with
         | Some k => walk sb V parent k es | None => None end) by done.
  destruct (Z.eqb_spec (i_type (disk_inode sb V (i_inum n))) T_DIR) as [Hd|Hd]; cbn [negb] in Ew |- *.
  2:{ eapply wp_mono; [eapply wp_walk_none; done|]. intros [?|v] s' Hf; [done|]. unfold round_ok. rewrite Ees, Ew. exact Hf. }
  assert (Ebd : bool_decide (rest = []) = bool_decide (es = [])) by (by apply bool_decide_ext). rewrite Ebd.
  destruct (parent && bool_decide (es = [])) eqn:Epar.
  { apply wp_bind. eapply wp_iunlock; [exact Ht1|exact Hn1|done|done|]. intros s2 Ht2. apply wp_ret.
    unfold round_ok. rewrite Ees, Ew. unfold with_inode in Ht2. cbn [k_itable set_k_itable] in Ht2. unfold t1 in Ht2.
    rewrite list_insert_insert_eq in Ht2. exists (<[ip := set_i_ref (i_ref n) (unlocked (loaded n))]> t).
    apply andb_true_iff in Epar as [_ Hes%bool_decide_eq_true_1].
    split; [|split; [exact Ht2|]].
    - eapply table_insert; [done|done|apply loaded_ok; [by apply (entry_ok_at _ _ _ _ _ _ Htk Hn)|lia|lia]|cbn; lia|].
      cbn. intros _. left. by split_and!; try lia.
    - exists ip, (set_i_ref (i_ref n) (unlocked (loaded n))). split_and!; try done.
      + by apply list_lookup_insert_eq; eapply lookup_lt_Some.
      + intros e'. rewrite Hes. cbn. by intros [= <-].
      + intros d u. rewrite (refs_same_ref t ip n) by (done || (cbn; lia)). unfold less_one. cbn. case_decide; lia. }
  destruct (Hdir Hd) as [Hdok Hcl].
  assert (Hde : ents V n1 = ents V (disk_inode sb V (i_inum n))) by (by apply ents_fields).
  assert (Ht1len : length (k_itable (set_k_itable t1 s0)) = ninode).
  { cbn. unfold t1. rewrite length_insert. apply (it_len _ (tk_table _ _ _ _ Htk)). }
  assert (Hlk : dir_lookup (ents V n1) name' = dir_lookup (ents V (disk_inode sb V (i_inum n))) e).
  { rewrite Hde. by apply dir_lookup_cname, cname_take. }
  apply wp_bind. eapply (wp_dirlookup _ _ _ sb); [exact Ht1|exact Hn1|by apply dir_ok_loaded|done|done|].
  rewrite dir_lookup_find in Hlk. destruct (list_find (matches name') (ents V n1)) as [[k de]|] eqn:Efind.
  - symmetry in Hlk. destruct (table_nonempty t1) with (j := de_inum de) as (i & t2 & Hg).
    { unfold t1. rewrite (nfree_insert _ _ n) by done. cbn. unfold one in *. eqbs; lia. }
    exists i, t2. split; [done|]. intros s2 Ht2.
    destruct (path_step sb V P pid t ip n (de_inum de) i t2 Hat Hn (Hcl _ _ Hlk) Hg) as ((m & Hm & Hm1 & Hm2 & Hm3 & Hm4) & Hat' & Hrf).
    apply wp_bind. eapply wp_iunlockput; [exact Ht2|exact Hm|done|done|rewrite Hm4; exact Hnl|]. intros s3 Ht3. apply wp_ret.
    assert (Es : stepped t ip n t2 = <[ip := set_i_ref (i_ref m - 1) (unlocked m)]> t2) by (unfold stepped; by rewrite Hm).
    rewrite <- Es in Ht3. unfold round_ok. rewrite Ees. exists (stepped t ip n t2), (de_inum de), e.
    split_and!; try done; [by rewrite Er|by rewrite Ew, Hlk, Er|]. intros d u. unfold less_one. rewrite Hrf. lia.
  - intros s2 Ht2. eapply wp_mono; [eapply wp_walk_none; done|]. intros [?|v] s' Hf; [done|].
    unfold round_ok. rewrite Ees, Ew, <- Hlk. exact Hf.
Qed.

Lemma namex_loop o parent s0 bl : k_sb s0 = sb -> room bl ∅ -> forall f path name ip t s last0 j,
  intx o (set_k_itable t s0) V bl ∅ s -> at_inode t ip j -> (length path < f)%nat ->
  no_nul path -> length name = Z.to_nat DIRSIZ -> (forall e, last0 = Some e -> cname name = take (Z.to_nat DIRSIZ) e) ->
  wp (loop f (namex_round parent) (path, name, ip))
    (found s0 (less_one t j) bl o (match last (elems path) with Some e => Some e | None => last0 end)
       (walk sb V parent j (elems path))) s.
Proof using Htree.
  intros Hsb Hroom. induction f as [|f IH]; intros path name ip t s last0 j Ht Hat Hf Hnul Hlen Hlast; [lia|].
  apply wp_loop. eapply wp_mono; [by eapply (wp_namex_round o parent s0 bl path name ip t s last0 j)|].
  intros [[[path' name'] ip']|v] s'; [|by intros ?].
  intros (t' & k & e & Hat' & Ht' & Ee & Ew & Hlt & Hnul' & Hlen' & Hc' & Hrf).
  eapply wp_mono; [eapply (IH path' name' ip' t' s' (Some e) k); [done|done|lia|done|done|by intros ? [= <-]]|].
  intros v s'' Hv. rewrite Ew. eapply found_step; [exact Hrf| |exact Hv]. rewrite Ee, last_cons.
  by destruct (last (elems path')).
Qed.

(** Where the walk starts: at the root, or at the current directory. *)
Definition starts_at (s : kstate) t (path : list Z) (j : Z) : Prop :=
  match path with
  | 47 :: _ => j = ROOTINO
  | _ => exists c p cwd n, k_cur s = Some c /\ k_procs s !! c = Some p /\ p_cwd p = Some cwd /\
      t !! cwd = Some n /\ 1 <= i_ref n /\ i_inum n = j
  end.

Lemma wp_tx_idup o s0 t bl s ip n (Q : nat -> kstate -> Prop) :
  intx o (set_k_itable t s0) V bl ∅ s -> t !! ip = Some n ->
  (forall s', intx o (set_k_itable (<[ip := set_i_ref (i_ref n + 1) n]> t) s0) V bl ∅ s' -> Q ip s') ->
  wp (idup ip) Q s.
Proof using Type.
  intros Ht Hn HQ. destruct (intx_rest _ _ _ _ _ _ _ _ _ Ht) as (_ & Et & Hh & _).
  unfold wp, idup. rewrite run_acquire by (rewrite Hh; apply not_elem_of_nil).
  rewrite (run_upd_inode ip n) by (ks; by rewrite Et). rewrite (run_release _ []) by (ks; by rewrite Hh).
  apply HQ. replace (set_k_held [] _) with (set_k_itable (<[ip := set_i_ref (i_ref n + 1) n]> t) s)
    by (destruct s; cbn in *; subst; done).
  by apply (intx_itable _ _ _ _ _ _ _ _ _ (<[ip := set_i_ref (i_ref n + 1) n]> t)) in Ht.
Qed.

Lemma at_inode_start t i n t' j : table_ok t -> 2 <= nfree t -> P j -> t !! i = Some n ->
  (0 < i_ref n /\ i_dev n = ROOTDEV /\ i_inum n = j /\ t' = <[i := set_i_ref (i_ref n + 1) n]> t \/
   i_ref n = 0 /\ find_inode (holds_inode ROOTDEV j) t = None /\ t' = <[i := recycle ROOTDEV j n]> t) ->
  at_inode t' i j /\ forall d u, less_one t' j d u = refs d u t.
Proof using Type.
  intros Htk Hfree HP Hn Hcase. pose proof (lookup_lt_Some _ _ _ Hn) as Hlt.
  destruct (entry_ok_at _ _ _ _ _ _ Htk Hn) as [He Hr]. unfold less_one, ref_to, one.
  destruct Hcase as [(Hp & Hd & Hi & ->)|(Hz & Hf & ->)].
  - split; [split|].
    + eapply table_insert; [done|done|by apply entry_inc|cbn; lia|]. intros _. by left.
    + eexists. split; [by apply list_lookup_insert_eq|]. rewrite (nfree_insert _ _ n) by done. cbn. unfold one. eqbs; lia.
    + intros d u. rewrite (refs_same_ref t i n) by (done || (cbn; lia)). rewrite Hd, Hi. cbn.
      case_decide; case_bool_decide; try done; lia.
  - split; [split|].
    + eapply table_insert; [done|done|by apply entry_recycle|cbn; lia|]. intros _. by right.
    + eexists. split; [by apply list_lookup_insert_eq|]. rewrite (nfree_insert _ _ n) by done. cbn. unfold one. eqbs; lia.
    + intros d u. rewrite (refs_insert _ _ _ _ n), !contrib_eq by (done || (cbn; lia)). cbn. rewrite Hz.
      repeat case_decide; repeat case_bool_decide; try congruence; lia.
Qed.

Lemma wp_namex o parent s0 bl path s j :
  k_sb s0 = sb -> room bl ∅ -> intx o s0 V bl ∅ s -> table_ok (k_itable s0) -> 2 <= nfree (k_itable s0) ->
  P ROOTINO -> starts_at s (k_itable s0) path j -> no_nul path ->
  wp (namex path parent empty_name)
    (found s0 (fun d u => refs d u (k_itable s0)) bl o (last (elems path)) (walk sb V parent j (elems path))) s.
Proof using Htree.
  intros Hsb Hroom Ht Htk Hfree HP Hst Hnul. unfold namex.
  set (start0 := match path with 47 :: _ => iget ROOTDEV ROOTINO | _ => _ end).
  assert (Hstart : wp start0 (fun ip s' => exists t', at_inode t' ip j /\ intx o (set_k_itable t' s0) V bl ∅ s' /\
    forall d u, less_one t' j d u = refs d u (k_itable s0)) s).
  { assert (Hroot : wp (iget ROOTDEV ROOTINO) (fun ip s' => exists t', at_inode t' ip ROOTINO /\ intx o (set_k_itable t' s0) V bl ∅ s' /\
      forall d u, less_one t' ROOTINO d u = refs d u (k_itable s0)) s).
    { destruct (table_nonempty (k_itable s0) ltac:(lia) ROOTINO) as (i & t' & Hg).
      eapply wp_tx_iget; [exact Ht|apply (it_len _ (tk_table _ _ _ _ Htk))|exact Hg|]. intros s' Ht'.
      destruct (iget_table_cases _ _ _ _ Hg) as (n & Hn & Hcase). exists t'.
      destruct (at_inode_start _ _ _ _ _ Htk Hfree HP Hn Hcase). by split_and!. }
    assert (Hcwd : (exists c p cwd n, k_cur s = Some c /\ k_procs s !! c = Some p /\ p_cwd p = Some cwd /\
        k_itable s0 !! cwd = Some n /\ 1 <= i_ref n /\ i_inum n = j) ->
      wp (let! p := curproc in let! cwd := of_option (p_cwd p) in idup cwd)
        (fun ip s' => exists t', at_inode t' ip j /\ intx o (set_k_itable t' s0) V bl ∅ s' /\
          forall d u, less_one t' j d u = refs d u (k_itable s0)) s).
    { intros (c & p & cwd & n & Hc & Hp & Hw & Hn & Hr & <-). unfold wp. rewrite (run_curproc c p) by done. rewrite Hw.
      change (wp (idup cwd) (fun ip s' => exists t', at_inode t' ip (i_inum n) /\ intx o (set_k_itable t' s0) V bl ∅ s' /\
        forall d u, less_one t' (i_inum n) d u = refs d u (k_itable s0)) s).
      destruct (entry_ok_at _ _ _ _ _ _ Htk Hn) as [[_ Hu] _]. destruct (Hu ltac:(lia)) as (Hd & HPn & _).
      assert (Es0 : set_k_itable (k_itable s0) s0 = s0) by (by destruct s0).
      eapply wp_tx_idup; [rewrite Es0; exact Ht|exact Hn|].
      assert (Hp0 : 0 < i_ref n) by lia.
      destruct (at_inode_start (k_itable s0) cwd n _ (i_inum n) Htk Hfree HPn Hn
        (or_introl (conj Hp0 (conj Hd (conj eq_refl eq_refl))))) as [Ha Hb].
      intros s' Ht'. eexists. split; [exact Ha|]. by split. }
    unfold start0. unfold starts_at in Hst. repeat (case_match; try by apply Hcwd). rewrite Hst. exact Hroot. }
  apply wp_bind. eapply wp_mono; [exact Hstart|]. intros ip s' (t' & Hat & Ht' & Hrf).
  eapply wp_mono; [eapply (namex_loop o parent s0 bl Hsb Hroom _ path empty_name ip t' s' None j); try done; lia|].
  intros v s'' Hv. eapply found_step; [exact Hrf| |exact Hv]. by intros e ->.
Qed.

(** C8. Path names: in a transaction, with every entry of the inode table
    unlocked, coherent with the disk, and two of them free, namei of a path
    returns the inode that resolving its elements one after the other in the
    directories on the disk ends at, or none when an element is missing or
    is not in a directory; nameiparent returns the directory before the last
    element, and that element. The references of the table grow by exactly
    the one to the inode returned, and the disk is unchanged. *)
Theorem namei_resolves_paths o s0 bl s path j :
  intx o s0 V bl ∅ s -> k_sb s0 = sb -> room bl ∅ -> table_ok (k_itable s0) -> 2 <= nfree (k_itable s0) ->
  P ROOTINO -> starts_at s (k_itable s0) path j -> no_nul path ->
  let base d u := refs d u (k_itable s0) in
  (exists v s', namei path s = Ret v s' /\
     found s0 base bl o None (walk sb V false j (elems path)) (v, []) s') /\
  (exists v s', nameiparent path s = Ret v s' /\
     found s0 base bl o (last (elems path)) (walk sb V true j (elems path)) v s').
Proof using Htree.
  intros Ht Hsb Hroom Htk Hfree HP Hst Hnul base. split.
  - apply wp_run. unfold namei. apply wp_bind. eapply wp_mono; [by eapply wp_namex|]. intros [v nm] s' Hf. apply wp_ret.
    destruct Hf as (t & H1 & H2 & H3). exists t. split; [done|]. split; [done|].
    destruct (walk sb V false j (elems path)) as [k|]; [|exact H3].
    destruct H3 as (i & n & E1 & E2 & E3 & E4 & _ & E6). by exists i, n.
  - apply wp_run. unfold nameiparent. by eapply wp_namex.
Qed.
End Namei.
