(* ===== verification/Pipe.v ===== *)
(** kernel/pipe.c: pipes.

    A pipe lives in a page of its own: [k_pipes] maps the address of the page
    to the [struct pipe] in it. [nread] and [nwrite] are 32-bit counters that
    wrap around. pipealloc, which also needs the file table, is in File.v. *)

From stdpp Require Import base numbers list gmap strings.
From S2P Require Import Prelude Params Mem State Locks Kalloc Vm Pagetable Uvm Ucopy.

Definition PIPESIZE : Z := 1024.

Definition get_pipe (pi : Z) : K pipe :=
  let! m := gets k_pipes in of_option (m !! pi).

Definition upd_pipe (pi : Z) (f : pipe -> pipe) : K unit :=
  let! p := get_pipe pi in
  modify (fun s => set_k_pipes (<[pi := f p]> (k_pipes s)) s).

Definition pipe_full (p : pipe) : bool := pi_nwrite p =? u32 (pi_nread p + PIPESIZE).
Definition pipe_empty (p : pipe) : bool := pi_nread p =? pi_nwrite p.

(** [pi->data[pi->nwrite++ % PIPESIZE] = ch] *)
Definition pipe_put (ch : Z) (p : pipe) : pipe :=
  set_pi_nwrite (u32 (pi_nwrite p + 1))
    (set_pi_data (<[Z.to_nat (pi_nwrite p mod PIPESIZE) := ch]> (pi_data p)) p).
(** [ch = pi->data[pi->nread++ % PIPESIZE]] *)
Definition pipe_next (p : pipe) : option Z := pi_data p !! Z.to_nat (pi_nread p mod PIPESIZE).
Definition pipe_get (p : pipe) : pipe := set_pi_nread (u32 (pi_nread p + 1)) p.

(** The pipe that pipealloc makes: kalloc has filled its page with 5. *)
Definition new_pipe : pipe :=
  mk_pipe (replicate (Z.to_nat PIPESIZE) 5) 0 0 true true.

Section Pipe.
Context {W : Wakeups} {L : Layout}.

Definition pipeclose (pi : Z) (writable : bool) : K unit :=
  acquire (LkPipe pi) ;;
  (if writable
   then upd_pipe pi (set_pi_writeopen false) ;; wakeup (ChPipeRead pi)
   else upd_pipe pi (set_pi_readopen false) ;; wakeup (ChPipeWrite pi)) ;;
  let! p := get_pipe pi in
  if negb (pi_readopen p) && negb (pi_writeopen p)
  then
    release (LkPipe pi) ;;
    kfree pi ;;
    modify (fun s => set_k_pipes (delete pi (k_pipes s)) s)
  else release (LkPipe pi).

(** One round of the loop of pipewrite, with [i] bytes written: [inr None]
    is the return of -1, [inr (Some i)] the end of the loop. *)
Definition pipewrite_round (pi addr n : Z) (pr : nat) (i : Z) : K (Z + option Z) :=
  if i <? n then
    let! p := get_pipe pi in
    let! k := (if negb (pi_readopen p) then ret true else killed pr) in
    if k then release (LkPipe pi) ;; ret (inr None)
    else
      let! p := get_pipe pi in
      if pipe_full p then
        wakeup (ChPipeRead pi) ;;
        sleep (ChPipeWrite pi) (LkPipe pi) ;;
        ret (inl i)
      else
        let! prp := get_proc pr in
        let! c := copyin (p_pagetable prp) (u64 (addr + i)) 1 in
        if c.1 =? -1 then ret (inr (Some i))
        else
          let! ch := of_option (c.2 !! 0%nat) in
          upd_pipe pi (pipe_put ch) ;;
          ret (inl (i + 1))
  else ret (inr (Some i)).

(** What follows the loop, and the two together. *)
Definition pipewrite_end (pi : Z) (r : option Z) : K Z :=
  match r with
  | None => ret (-1)
  | Some i =>
      wakeup (ChPipeRead pi) ;;
      release (LkPipe pi) ;;
      ret i
  end.

Definition pipewrite_from (fuel : nat) (pi addr n : Z) (pr : nat) (i : Z) : K Z :=
  let! r := loop fuel (pipewrite_round pi addr n pr) i in
  pipewrite_end pi r.

(** A round either stores a byte or sleeps: at most [n] of the first kind,
    and [wakeups] of the second. *)
Definition pipewrite (pi addr n : Z) : K Z :=
  let! pr := me in
  acquire (LkPipe pi) ;;
  pipewrite_from (Z.to_nat n + 1 + wakeups) pi addr n pr 0.

(** [while(pi->nread == pi->nwrite && pi->writeopen)]: false where the
    function returns -1. *)
Definition piperead_wait (pi : Z) (pr : nat) (_ : unit) : K (unit + bool) :=
  let! p := get_pipe pi in
  if pipe_empty p && pi_writeopen p then
    let! k := killed pr in
    if k then release (LkPipe pi) ;; ret (inr false)
    else sleep (ChPipeRead pi) (LkPipe pi) ;; ret (inl tt)
  else ret (inr true).

(** One round of the copying loop, with [i] bytes copied. *)
Definition piperead_round (pi addr n : Z) (pr : nat) (i : Z) : K (Z + Z) :=
  if i <? n then
    let! p := get_pipe pi in
    if pipe_empty p then ret (inr i)
    else
      let! ch := of_option (pipe_next p) in
      upd_pipe pi pipe_get ;;
      let! prp := get_proc pr in
      let! e := copyout (p_pagetable prp) (u64 (addr + i)) [ch] in
      if e =? -1 then ret (inr i) else ret (inl (i + 1))
  else ret (inr i).

Definition piperead_from (fuel : nat) (pi addr n : Z) (pr : nat) : K Z :=
  let! ok := loop fuel (piperead_wait pi pr) tt in
  if negb ok then ret (-1)
  else
    let! i := loop (Z.to_nat n + 1) (piperead_round pi addr n pr) 0 in
    wakeup (ChPipeWrite pi) ;;
    release (LkPipe pi) ;;
    ret i.

Definition piperead (pi addr n : Z) : K Z :=
  let! pr := me in
  acquire (LkPipe pi) ;;
  piperead_from (S wakeups) pi addr n pr.
End Pipe.

(** ** The ring buffer as a queue *)

Record pipe_ok (p : pipe) : Prop := {
  po_len : length (pi_data p) = Z.to_nat PIPESIZE;
  po_r : 0 <= pi_nread p < 2 ^ 32;
  po_w : 0 <= pi_nwrite p < 2 ^ 32;
  po_cnt : u32 (pi_nwrite p - pi_nread p) <= PIPESIZE;
  po_bytes : is_bytes (pi_data p);
}.

(** How many bytes wait, and which. *)
Definition pipe_count (p : pipe) : nat := Z.to_nat (u32 (pi_nwrite p - pi_nread p)).
Definition pipe_slot (p : pipe) (i : nat) : nat :=
  Z.to_nat ((pi_nread p + Z.of_nat i) mod PIPESIZE).
Definition queue (p : pipe) : list Z :=
  (fun i => default 0 (pi_data p !! pipe_slot p i)) <$> seq 0 (pipe_count p).

Lemma length_queue p : length (queue p) = pipe_count p.
Proof. unfold queue. by rewrite length_fmap, length_seq. Qed.

Lemma pipe_count_le p : pipe_ok p -> (pipe_count p <= 1024)%nat.
Proof. intros H. pose proof (po_cnt p H). unfold pipe_count, PIPESIZE in *. lia. Qed.

Lemma pipe_empty_spec p : pipe_ok p -> pipe_empty p = true <-> queue p = [].
Proof.
  intros H. rewrite <- length_zero_iff_nil, length_queue. unfold pipe_empty, pipe_count, u32.
  rewrite Z.eqb_eq. destruct H as [_ Hr Hw _ _]. dlia.
Qed.

Lemma pipe_full_spec p : pipe_ok p -> pipe_full p = true <-> length (queue p) = 1024%nat.
Proof.
  intros H. rewrite length_queue. unfold pipe_full, pipe_count, u32, PIPESIZE.
  rewrite Z.eqb_eq. destruct H as [_ Hr Hw _ _]. dlia.
Qed.

(** The counters wrap at 2^32, a multiple of the buffer's size, so the slots
    go on without a jump. *)
Lemma slot_wrap x : u32 x mod PIPESIZE = x mod PIPESIZE.
Proof. unfold u32, PIPESIZE. dlia. Qed.

Lemma pipe_put_spec p ch :
  pipe_ok p -> pipe_full p = false -> 0 <= ch < 256 ->
  pipe_ok (pipe_put ch p) /\ queue (pipe_put ch p) = queue p ++ [ch].
Proof.
  intros H Hf Hc. assert (Hlt : (pipe_count p < 1024)%nat).
  { pose proof (pipe_count_le p H). destruct (decide (pipe_count p = 1024%nat)) as [E|]; [|lia].
    rewrite <- length_queue in E. apply (pipe_full_spec p H) in E. congruence. }
  destruct H as [H1 H2 H3 H4 H5]. split.
  - split; unfold pipe_put; cbn [pi_data pi_nread pi_nwrite set_pi_data set_pi_nwrite].
    + by rewrite length_insert.
    + done.
    + apply u32_range.
    + unfold pipe_count, u32, PIPESIZE in *. dlia.
    + by apply Forall_insert.
  - assert (Ec : pipe_count (pipe_put ch p) = (pipe_count p + 1)%nat).
    { unfold pipe_count, pipe_put, u32 in *. cbn [pi_nread pi_nwrite set_pi_data set_pi_nwrite]. dlia. }
    assert (Es : Z.to_nat (pi_nwrite p mod PIPESIZE) = pipe_slot p (pipe_count p)).
    { unfold pipe_slot, pipe_count, u32, PIPESIZE in *. f_equal. dlia. }
    unfold queue. rewrite Ec, seq_app, fmap_app. f_equal.
    + apply list_fmap_ext. intros i j Hj. apply lookup_seq in Hj as [-> Hi].
      unfold pipe_put. cbn [pi_data pi_nread set_pi_data set_pi_nwrite]. rewrite Es.
      change (pipe_slot (set_pi_nwrite _ _) ?x) with (pipe_slot p x).
      rewrite list_lookup_insert_ne; [done|]. unfold pipe_slot, PIPESIZE. dlia.
    + cbn. f_equal. unfold pipe_put. cbn [pi_data set_pi_data set_pi_nwrite].
      change (pipe_slot (set_pi_nwrite _ _) ?x) with (pipe_slot p x).
      rewrite Es, list_lookup_insert_eq; [done|]. rewrite H1. unfold pipe_slot, PIPESIZE. dlia.
Qed.

Lemma pipe_get_spec p :
  pipe_ok p -> pipe_empty p = false ->
  exists ch, pipe_next p = Some ch /\ 0 <= ch < 256 /\
    pipe_ok (pipe_get p) /\ queue p = ch :: queue (pipe_get p).
Proof.
  intros H He. assert (Hpos : (0 < pipe_count p)%nat).
  { destruct (decide (pipe_count p = 0%nat)) as [E|]; [|lia].
    rewrite <- length_queue in E. apply length_zero_iff_nil, (pipe_empty_spec p H) in E. congruence. }
  destruct H as [H1 H2 H3 H4 H5].
  destruct (lookup_lt_is_Some_2 (pi_data p) (Z.to_nat (pi_nread p mod PIPESIZE))) as [ch Hch].
  { rewrite H1. unfold PIPESIZE. dlia. }
  exists ch. split_and!; try done.
  - unfold is_bytes in H5. rewrite Forall_lookup in H5. by eapply H5.
  - unfold is_bytes in H5. rewrite Forall_lookup in H5. by eapply H5.
  - split; unfold pipe_get; cbn [pi_data pi_nread pi_nwrite set_pi_nread]; try done.
    + apply u32_range.
    + unfold pipe_count, u32, PIPESIZE in *. dlia.
  - assert (Ec : pipe_count p = S (pipe_count (pipe_get p))).
    { unfold pipe_count, pipe_get, u32 in *. cbn [pi_nread pi_nwrite set_pi_nread]. dlia. }
    unfold queue. rewrite Ec. cbn [seq fmap list_fmap]. f_equal.
    + unfold pipe_slot. change (Z.of_nat 0) with 0. by rewrite Z.add_0_r, Hch.
    + rewrite <- fmap_S_seq, <- list_fmap_compose. apply list_fmap_ext. intros i j _.
      unfold compose, pipe_get. cbn [pi_data set_pi_nread]. do 2 f_equal.
      unfold pipe_slot, u32, PIPESIZE. cbn [pi_nread set_pi_nread]. f_equal. dlia.
Qed.

(** *** Every history of a pipe *)

(** [history p w r]: [w] is what has been written to the pipe and [r] what
    has been read from it, byte by byte, since it was made. *)
Inductive history : pipe -> list Z -> list Z -> Prop :=
| history_new : history new_pipe [] []
| history_put p w r ch : history p w r -> pipe_full p = false -> 0 <= ch < 256 ->
    history (pipe_put ch p) (w ++ [ch]) r
| history_get p w r ch : history p w r -> pipe_empty p = false -> pipe_next p = Some ch ->
    history (pipe_get p) w (r ++ [ch])
| history_close_read p w r : history p w r -> history (set_pi_readopen false p) w r
| history_close_write p w r : history p w r -> history (set_pi_writeopen false p) w r.

Lemma new_pipe_ok : pipe_ok new_pipe.
Proof. split; [done|cbn; lia|cbn; lia|done|by apply Forall_replicate]. Qed.

(** C23. A pipe is a first-in first-out queue of at most 1024 bytes, however
    long it is used: what has been written is what has been read, followed by
    what waits in the ring buffer, also after the 32-bit counters nread and
    nwrite have wrapped around; the tests of pipewrite and piperead (full,
    empty) are exactly "1024 bytes wait" and "no byte waits". *)
Theorem pipe_is_fifo p w r :
  history p w r ->
  w = r ++ queue p /\ (length (queue p) <= 1024)%nat /\ pipe_ok p /\
  (pipe_full p = true <-> length (queue p) = 1024%nat) /\
  (pipe_empty p = true <-> w = r).
Proof.
  intros H. assert (w = r ++ queue p /\ pipe_ok p) as [Hq Hok].
  { induction H as [|p w r ch _ [-> Hok] Hf Hc|p w r ch _ [-> Hok] He Hn|p w r _ [-> Hok]|p w r _ [-> Hok]].
    - split; [done|apply new_pipe_ok].
    - destruct (pipe_put_spec p ch Hok Hf Hc) as [Hok' ->]. by rewrite <- app_assoc.
    - destruct (pipe_get_spec p Hok He) as (ch' & Hn' & _ & Hok' & ->).
      rewrite Hn in Hn'. injection Hn' as <-. by rewrite <- app_assoc.
    - split; [done|]. destruct Hok. by split.
    - split; [done|]. destruct Hok. by split. }
  split_and!; [done| |done|by apply pipe_full_spec..|].
  - rewrite length_queue. by apply pipe_count_le.
  - rewrite (pipe_empty_spec p Hok), Hq. split; [by intros ->; rewrite app_nil_r|].
    intros E. apply (f_equal length) in E. rewrite length_app in E. apply length_zero_iff_nil. lia.
Qed.

Lemma pipe_is_fifo_witness :
  exists p, history p [7; 8] [7] /\ queue p = [8].
Proof.
  exists (pipe_get (pipe_put 8 (pipe_put 7 new_pipe))).
  assert (H : history (pipe_get (pipe_put 8 (pipe_put 7 new_pipe))) [7; 8] [7]).
  { apply (history_get _ _ [] 7); [|reflexivity|reflexivity].
    apply (history_put _ [7]); [|reflexivity|lia].
    apply (history_put _ []); [constructor|reflexivity|lia]. }
  split; [exact H|]. destruct (pipe_is_fifo _ _ _ H) as [E _]. symmetry. exact (app_inv_head [7] [8] _ E).
Defined.

(** ** Writers and readers *)

#[local] Opaque copyin copyout.

(** The state after a change of the pipe at [pi]. *)
Definition with_pipe (pi : Z) (p : pipe) (s : kstate) : kstate :=
  set_k_pipes (<[pi := p]> (k_pipes s)) s.

Lemma with_pipe_twice pi p p' s : with_pipe pi p (with_pipe pi p' s) = with_pipe pi p s.
Proof. unfold with_pipe. ks. by rewrite insert_insert_eq. Qed.

Lemma with_pipe_id pi p s : k_pipes s !! pi = Some p -> with_pipe pi p s = s.
Proof. intros H. unfold with_pipe. rewrite insert_id by done. by destruct s. Qed.

Lemma run_get_pipe {A} pi p (k : pipe -> K A) s :
  k_pipes s !! pi = Some p -> bind (get_pipe pi) k s = k p s.
Proof. intros H. unfold get_pipe. rewrite bind_assoc, run_gets, H. done. Qed.

Lemma run_upd_pipe {A} pi p f (k : unit -> K A) s :
  k_pipes s !! pi = Some p -> bind (upd_pipe pi f) k s = k tt (with_pipe pi (f p) s).
Proof. intros H. unfold upd_pipe. rewrite bind_assoc, (run_get_pipe pi p) by done. done. Qed.


Lemma run_wakeup {A} ch (k : unit -> K A) s :
  no_proc_lock (k_held s) -> procs_full s ->
  bind (wakeup ch) k s = k tt (set_k_procs (wake ch (k_cur s) (k_procs s)) s).
Proof. intros H1 H2. by rewrite (bind_Ret _ _ _ _ _ (wakeup_ok ch s H1 H2)). Qed.

Section Transfer.
Context {W : Wakeups} {L : Layout} {LO : LayoutOk L}.
Context (s : kstate) (l : list Z) (root : Z) (T : gmap (list Z) Z) (V : Z -> Z) (np : nat).
Context (pr : nat) (prp : proc) (pi addr n : Z).
Hypothesis (Hu : uspace s l root T V np).
Hypothesis (Hcur : k_cur s = Some pr).
Hypothesis (Hprp : k_procs s !! pr = Some prp).
Hypothesis (Hroot : p_pagetable prp = root).
Hypothesis (Hheld : k_held s = [LkPipe pi]).
Hypothesis (Hfull : procs_full s).
Hypothesis (Haddr : 0 <= addr < 2 ^ 64).

Lemma pipe_lock_only : no_proc_lock (k_held s).
Proof using Hheld. intros i. rewrite Hheld. by intros ?%list_elem_of_singleton. Qed.

(** The user address of byte [i] does not wrap, when the ones before it can
    be read. *)
Definition reached (i : Z) : Prop := 0 <= i /\ (i = 0 \/ addr + i <= MAXVA).

Lemma reached_addr i : reached i -> u64 (addr + i) = addr + i /\ 0 <= addr + i < 2 ^ 64.
Proof using Haddr.
  intros [H1 H2]. assert (0 <= addr + i < 2 ^ 64) as H by plia.
  split; [|done]. by apply u64_small.
Qed.

Lemma reached_S i : reached i -> readable V (addr + i) = true -> reached (i + 1).
Proof using Type.
  intros [H1 _] Hr. unfold readable in Hr. rewrite !andb_true_iff, Z.ltb_lt in Hr.
  split; [lia|]. right. lia.
Qed.

(** The reader of the byte at [addr + i]. *)
Lemma run_copyin1 {A} i p (k : Z * list Z -> K A) :
  reached i ->
  exists out, bind (copyin root (u64 (addr + i)) 1) k (with_pipe pi p s) =
    k (if readable V (addr + i) then (0, [rd (k_mem s) (upa V (addr + i))]) else (-1, out))
      (with_pipe pi p s).
Proof using Hu Haddr LO.
  intros Hi. destruct (reached_addr i Hi) as [-> Hr].
  destruct (copyin_spec (with_pipe pi p s) l root T V np (addr + i) 1) as (r & out & E & Hres);
    [|done|lia|].
  { eapply uspace_same; [exact Hu|done|done|apply Hu]. }
  exists out. rewrite (bind_Ret _ _ _ _ _ E). destruct Hres as [(-> & Hall & ->)|(-> & x & Hx & Hn)].
  - rewrite Hall by lia. change (Z.to_nat 1) with 1%nat. by rewrite ubytes_S.
  - assert (x = addr + i) as -> by lia. by rewrite Hn.
Qed.

Section Write.
Context (Hk : p_killed prp = false).

Lemma pipewrite_step i p :
  reached i -> i < n -> pi_readopen p = true -> pipe_full p = false ->
  pipewrite_round pi addr n pr i (with_pipe pi p s) =
    if readable V (addr + i)
    then Ret (inl (i + 1)) (with_pipe pi (pipe_put (rd (k_mem s) (upa V (addr + i))) p) s)
    else Ret (inr (Some i)) (with_pipe pi p s).
Proof using All.
  intros Hi Hn Ho Hf. unfold pipewrite_round. rewrite (proj2 (Z.ltb_lt _ _) Hn).
  assert (Hp : k_pipes (with_pipe pi p s) !! pi = Some p) by apply lookup_insert_eq.
  rewrite (run_get_pipe pi p), Ho by done. cbn [negb].
  rewrite (run_killed pr prp), Hk by (done || apply pipe_lock_only).
  rewrite (run_get_pipe pi p), Hf by done. rewrite (run_get_proc pr prp), Hroot by done.
  destruct (run_copyin1 i p (fun c =>
        if c.1 =? -1 then ret (inr (Some i))
        else
          let! ch := of_option (c.2 !! 0%nat) in
          upd_pipe pi (pipe_put ch) ;; ret (inl (i + 1))) Hi) as (out & ->).
  destruct (readable V (addr + i)); cbn [fst snd Z.eqb]; [|done].
  change (of_option ([?x] !! 0%nat)) with (@ret kstate Z x).
  rewrite run_ret, (run_upd_pipe pi p) by done. unfold ret. by rewrite with_pipe_twice.
Qed.

Lemma pipewrite_blocks i p :
  i < n -> pi_readopen p = true -> pipe_full p = true ->
  pipewrite_round pi addr n pr i (with_pipe pi p s) =
    Sleep (asleep pr (ChPipeWrite pi)
      (set_k_procs (wake (ChPipeRead pi) (Some pr) (k_procs s)) (with_pipe pi p s)))
      (resume pr (LkPipe pi) ;; ret (inl i)).
Proof using All.
  intros Hn Ho Hf. unfold pipewrite_round. rewrite (proj2 (Z.ltb_lt _ _) Hn).
  assert (Hp : k_pipes (with_pipe pi p s) !! pi = Some p) by apply lookup_insert_eq.
  rewrite (run_get_pipe pi p), Ho by done. cbn [negb].
  rewrite (run_killed pr prp), Hk by (done || apply pipe_lock_only).
  rewrite (run_get_pipe pi p), Hf by done.
  rewrite run_wakeup by (done || apply pipe_lock_only).
  rewrite (run_sleep pr); [by rewrite <- Hcur|done| |done|done].
  ks. rewrite length_wake. by apply lookup_lt_Some in Hprp.
Qed.

Definition write_outcome (w : nat) (i : Z) (p : pipe) : Prop :=
  exists j p', i <= j <= n /\ pipe_ok p' /\
    queue p' = queue p ++ ubytes V (k_mem s) (addr + i) (Z.to_nat (j - i)) /\
    pi_readopen p' = pi_readopen p /\ pi_writeopen p' = pi_writeopen p /\
    let s' := set_k_procs (wake (ChPipeRead pi) (Some pr) (k_procs s)) (with_pipe pi p' s) in
    ((j = n \/ readable V (addr + j) = false) /\
       pipewrite_from (Z.to_nat (n - i) + 1 + w) pi addr n pr i (with_pipe pi p s) =
         Ret j (set_k_held [] s') \/
     j < n /\ length (queue p') = 1024%nat /\
       pipewrite_from (Z.to_nat (n - i) + 1 + w) pi addr n pr i (with_pipe pi p s) =
         Sleep (asleep pr (ChPipeWrite pi) s')
           (resume pr (LkPipe pi) ;; pipewrite_from (Z.to_nat (n - j) + w) pi addr n pr j)).

Lemma pipewrite_from_S f i s0 :
  pipewrite_from (S f) pi addr n pr i s0 =
  bind (pipewrite_round pi addr n pr i) (fun r =>
    match r with inl v => pipewrite_from f pi addr n pr v | inr b => pipewrite_end pi b end) s0.
Proof using Type. apply run_loop. Qed.

Lemma pipewrite_end_run i p :
  pipewrite_end pi (Some i) (with_pipe pi p s) =
  Ret i (set_k_held [] (set_k_procs (wake (ChPipeRead pi) (Some pr) (k_procs s)) (with_pipe pi p s))).
Proof using Hcur Hheld Hfull.
  unfold pipewrite_end. rewrite run_wakeup by (done || apply pipe_lock_only).
  rewrite (run_release _ []) by done. by rewrite <- Hcur.
Qed.

Lemma pipewrite_from_spec w i p :
  pipe_ok p -> pi_readopen p = true -> reached i -> i <= n -> write_outcome w i p.
Proof using All.
  remember (Z.to_nat (n - i)) as d eqn:Hd. revert i p Hd.
  induction d as [|d IH]; intros i p Hd Hp Ho Hi Hin; unfold write_outcome; rewrite <- Hd.
  - exists i, p. assert (i = n) as -> by lia. rewrite Z.sub_diag, app_nil_r. split_and!; try done; [lia..|].
    left. split; [by left|]. change (0 + 1 + w)%nat with (S w). rewrite pipewrite_from_S.
    unfold pipewrite_round at 1. rewrite Z.ltb_irrefl, run_ret. apply pipewrite_end_run.
  - change (S d + 1 + w)%nat with (S (d + 1 + w)). rewrite pipewrite_from_S.
    destruct (pipe_full p) eqn:Hf.
    { exists i, p. rewrite Z.sub_diag, app_nil_r. split_and!; try done; [lia..|].
      right. split_and!; [lia|by apply pipe_full_spec|].
      rewrite (bind_Sleep _ _ _ _ _ (pipewrite_blocks i p ltac:(lia) Ho Hf)), bind_assoc_fun.
      by replace (Z.to_nat (n - i) + w)%nat with (d + 1 + w)%nat by lia. }
    pose proof (pipewrite_step i p Hi ltac:(lia) Ho Hf) as E.
    destruct (readable V (addr + i)) eqn:Hr; rewrite (bind_Ret _ _ _ _ _ E).
    2:{ exists i, p. rewrite Z.sub_diag, app_nil_r. split_and!; try done; [lia..|].
        left. split; [by right|]. apply pipewrite_end_run. }
    destruct (pipe_put_spec p (rd (k_mem s) (upa V (addr + i))) Hp Hf (rd_range _ _)) as [Hp' Hq].
    destruct (IH (i + 1) (pipe_put (rd (k_mem s) (upa V (addr + i))) p))
      as (j & p' & Hj & Hok & Hq' & Ho' & Hw' & Hres); [lia|done|done|by apply reached_S|lia|].
    replace (Z.to_nat (n - (i + 1))) with d in Hres by lia.
    exists j, p'. split_and!; try done; [lia|lia|].
    rewrite Hq', Hq, <- app_assoc. replace (Z.to_nat (j - i)) with (S (Z.to_nat (j - (i + 1)))) by lia.
    rewrite ubytes_S. simpl app. do 3 f_equal. lia.
Qed.
End Write.

(** *** Reading *)

(** The state after bytes were taken from the pipe and stored. *)
Definition taken (m : memory) (p : pipe) : kstate := set_k_mem m (with_pipe pi p s).

Definition read_outcome (i : Z) (p : pipe) (m : memory) (j : Z) (p' : pipe) (m' : memory) : Prop :=
  let d := Z.to_nat (j - i) in
  i <= j <= n /\ (d <= length (queue p))%nat /\ pipe_ok p' /\
  pi_readopen p' = pi_readopen p /\ pi_writeopen p' = pi_writeopen p /\
  uspace (set_k_mem m' s) l root T V np /\
  stored V (addr + i) (take d (queue p)) m' /\
  confined V (addr + i) (j - i) m m' /\
  ((j = n \/ d = length (queue p)) /\ queue p' = drop d (queue p) \/
   writable V (addr + j) = false /\ j < n /\ (d < length (queue p))%nat /\
     queue p' = drop (S d) (queue p)).

Lemma read_outcome_stop i p m :
  i <= n -> pipe_ok p -> uspace (set_k_mem m s) l root T V np ->
  (i = n \/ queue p = []) -> read_outcome i p m i p m.
Proof using Type.
  intros Hin Hp Hu1 Hs. unfold read_outcome. rewrite Z.sub_diag. change (Z.to_nat 0) with 0%nat.
  split_and!; try done; try lia.
  left. split; [|done]. destruct Hs as [->| ->]; [by left|by right].
Qed.

(** A byte stored, then the rest. *)
Lemma read_outcome_cons i p ch m m1 j p' m' :
  0 <= addr + i -> queue p = ch :: queue (pipe_get p) ->
  writable V (addr + i) = true -> rd m1 (upa V (addr + i)) = ch -> confined V (addr + i) 1 m m1 ->
  uspace (set_k_mem m1 s) l root T V np ->
  read_outcome (i + 1) (pipe_get p) m1 j p' m' -> read_outcome i p m j p' m'.
Proof using Type.
  intros H0 Hq Hw Hch Hc1 Hu1 (Hj & Hlen & Hp' & Ho & Ho' & Hu' & Hst & Hc & Hres).
  unfold read_outcome. replace (Z.to_nat (j - i)) with (S (Z.to_nat (j - (i + 1)))) by lia.
  rewrite Hq. cbn [length take drop]. split_and!; try done; try lia; [| |].
  - replace (addr + (i + 1)) with (addr + i + 1) in * by lia. exact (stored_cons s l root T V np _ _ _ _ m1 m' Hu1 H0 Hw Hch Hc Hst).
  - replace (addr + (i + 1)) with (addr + i + 1) in * by lia.
    replace (j - i) with (1 + (j - (i + 1))) by lia. eapply confined_app; [lia..|exact Hc1|exact Hc].
  - destruct Hres as [[H1 H2]|(H1 & H2 & H3 & H4)]; [left|right]; split_and!; try done; [|lia].
    destruct H1 as [H1|H1]; [by left|right; lia].
Qed.

Lemma piperead_loop f i p m :
  (Z.to_nat (n - i) < f)%nat -> reached i -> i <= n -> pipe_ok p ->
  uspace (set_k_mem m s) l root T V np ->
  exists j p' m', loop f (piperead_round pi addr n pr) i (taken m p) = Ret j (taken m' p') /\
    read_outcome i p m j p' m'.
Proof using All.
  revert i p m. induction f as [|f IH]; intros i p m Hf Hi Hin Hp Hu1; [lia|].
  cbn [loop]. unfold piperead_round at 1.
  assert (Hpi : k_pipes (taken m p) !! pi = Some p) by apply lookup_insert_eq.
  destruct (Z.ltb_spec i n) as [Hlt|Hge].
  2:{ exists i, p, m. split; [done|]. apply read_outcome_stop; try done. left. lia. }
  rewrite bind_assoc, (run_get_pipe pi p) by done.
  destruct (pipe_empty p) eqn:He.
  { exists i, p, m. split; [done|]. apply read_outcome_stop; try done. right. by apply pipe_empty_spec. }
  destruct (pipe_get_spec p Hp He) as (ch & -> & Hch & Hp1 & Hq). cbn [of_option].
  rewrite bind_assoc, run_ret, bind_assoc, (run_upd_pipe pi p) by done.
  rewrite bind_assoc, (run_get_proc pr prp), Hroot by done.
  change (with_pipe pi (pipe_get p) (taken m p)) with (set_k_mem m (with_pipe pi (pipe_get p) (with_pipe pi p s))).
  rewrite with_pipe_twice. fold (taken m (pipe_get p)).
  destruct (reached_addr i Hi) as [-> Hr].
  destruct (copyout_spec (taken m (pipe_get p)) l root T V np (addr + i) [ch])
    as (r & m1 & E & Hu2 & Hc & Hres).
  { eapply uspace_same; [exact Hu1|done|done|apply Hu]. } { done. } { by constructor. }
  change (set_k_mem m1 (taken m (pipe_get p))) with (taken m1 (pipe_get p)) in *.
  rewrite bind_assoc, (bind_Ret _ _ _ _ _ E). destruct Hres as [(-> & Hall & Hst)|(-> & x & Hx & Hnw)].
  - cbn [Z.eqb]. rewrite run_ret. assert (Hw := Hall (addr + i) ltac:(simpl; lia)).
    destruct (writable_readable_lt V _ Hw) as [Hrd _].
    assert (Hu3 : uspace (set_k_mem m1 s) l root T V np).
    { eapply uspace_same; [exact Hu2|done|done|apply Hu]. }
    destruct (IH (i + 1) (pipe_get p) m1) as (j & p' & m' & E' & Ho);
      [lia|by apply reached_S|lia|done|done|].
    exists j, p', m'. split; [exact E'|]. eapply read_outcome_cons; try done; [lia|].
    rewrite <- (Z.add_0_r (addr + i)). by apply (Hst 0%nat).
  - cbn in Hx. assert (x = addr + i) as -> by lia. exists i, (pipe_get p), m1. split; [done|].
    unfold read_outcome. rewrite Z.sub_diag, Hq. change (Z.to_nat 0) with 0%nat.
    split_and!; try done; [simpl; lia| | |].
    + eapply uspace_same; [exact Hu2|done|done|apply Hu].
    + intros y Hy. apply Hc. intros x' Hx' Hw. cbn in Hx'.
      assert (x' = addr + i) as -> by lia. congruence.
    + right. split_and!; try done. simpl. lia.
Qed.

Lemma piperead_from_S f s0 :
  piperead_from (S f) pi addr n pr s0 =
  bind (piperead_wait pi pr tt) (fun r => match r with
    | inl _ => piperead_from f pi addr n pr
    | inr ok => if negb ok then ret (-1) else
        let! i := loop (Z.to_nat n + 1) (piperead_round pi addr n pr) 0 in
        wakeup (ChPipeWrite pi) ;; release (LkPipe pi) ;; ret i
    end) s0.
Proof using Type.
  unfold piperead_from. rewrite run_loop. apply bind_ext. by intros [[]|b] s1.
Qed.

Lemma piperead_from_spec w p :
  k_pipes s !! pi = Some p -> pipe_ok p -> 0 <= n ->
  if pipe_empty p && pi_writeopen p
  then if p_killed prp
       then piperead_from (S w) pi addr n pr s = Ret (-1) (set_k_held [] s)
       else piperead_from (S w) pi addr n pr s =
         Sleep (asleep pr (ChPipeRead pi) s)
           (resume pr (LkPipe pi) ;; piperead_from w pi addr n pr)
  else exists j p' m', piperead_from (S w) pi addr n pr s =
         Ret j (set_k_held [] (set_k_procs (wake (ChPipeWrite pi) (Some pr) (k_procs s)) (taken m' p'))) /\
         read_outcome 0 p (k_mem s) j p' m'.
Proof using All.
  intros Hpi Hp Hn. rewrite piperead_from_S.
  unfold piperead_wait. rewrite bind_assoc, (run_get_pipe pi p) by done.
  destruct (pipe_empty p && pi_writeopen p).
  - rewrite bind_assoc, (run_killed pr prp) by (done || apply pipe_lock_only).
    destruct (p_killed prp).
    + rewrite bind_assoc, (run_release _ []) by done. by rewrite run_ret.
    + rewrite bind_assoc, (run_sleep pr); [|done|by apply lookup_lt_Some in Hprp|done|done].
      f_equal. 
  - rewrite run_ret. cbn [negb].
    destruct (piperead_loop (Z.to_nat n + 1) 0 p (k_mem s)) as (j & p' & m' & E & Ho);
      [lia|split; [lia|by left]|lia|done|by rewrite set_k_mem_id|].
    assert (Es : taken (k_mem s) p = s).
    { unfold taken. rewrite with_pipe_id by done. apply set_k_mem_id. }
    rewrite Es in E. rewrite (bind_Ret _ _ _ _ _ E).
    rewrite run_wakeup by (done || apply pipe_lock_only).
    rewrite (run_release _ []) by done. exists j, p', m'. split; [|done]. by rewrite <- Hcur.
Qed.

(** pipewrite, up to its next scheduling point, from byte [i] on (0 when
    the function starts): while the read end is open and the process is not
    killed, it appends the process's bytes to the queue in order; it returns
    the number of bytes written, [n] unless the next byte cannot be read from
    the process's memory; when the buffer is full it wakes the readers and
    sleeps, and when resumed goes on at the byte it had reached. With the read
    end closed or the process killed it returns -1 and writes nothing. *)
Theorem pipewrite_appends w i p :
  k_pipes s !! pi = Some p -> pipe_ok p -> reached i -> i <= n ->
  (pi_readopen p = true -> p_killed prp = false ->
   exists j p', i <= j <= n /\ pipe_ok p' /\
     queue p' = queue p ++ ubytes V (k_mem s) (addr + i) (Z.to_nat (j - i)) /\
     let s' := set_k_procs (wake (ChPipeRead pi) (Some pr) (k_procs s)) (with_pipe pi p' s) in
     ((j = n \/ readable V (addr + j) = false) /\
        pipewrite_from (Z.to_nat (n - i) + 1 + w) pi addr n pr i s = Ret j (set_k_held [] s') \/
      j < n /\ length (queue p') = 1024%nat /\
        pipewrite_from (Z.to_nat (n - i) + 1 + w) pi addr n pr i s =
          Sleep (asleep pr (ChPipeWrite pi) s')
            (resume pr (LkPipe pi) ;; pipewrite_from (Z.to_nat (n - j) + w) pi addr n pr j))) /\
  (pi_readopen p = false \/ p_killed prp = true -> i < n ->
     pipewrite_from (S w) pi addr n pr i s = Ret (-1) (set_k_held [] s)) /\
  pipewrite pi addr n (set_k_held [] s) =
    pipewrite_from (Z.to_nat n + 1 + wakeups) pi addr n pr 0 s.
Proof using All.
  intros Hpi Hp Hi Hin. split_and!.
  - intros Ho Hk. destruct (pipewrite_from_spec Hk w i p Hp Ho Hi Hin)
      as (j & p' & Hj & Hok & Hq & _ & _ & Hres).
    rewrite (with_pipe_id pi p s) in Hres by done. by exists j, p'.
  - intros Hc Hlt. rewrite pipewrite_from_S. unfold pipewrite_round.
    rewrite (proj2 (Z.ltb_lt _ _) Hlt), bind_assoc, (run_get_pipe pi p) by done.
    assert (forall (k : bool -> K Z),
      bind (if negb (pi_readopen p) then ret true else killed pr) k s = k true s) as Hb.
    { intros k. destruct Hc as [-> | Hk]; [done|]. destruct (pi_readopen p); [|done]. cbn [negb].
      by rewrite (run_killed pr prp), Hk by (done || apply pipe_lock_only). }
    rewrite bind_assoc, Hb, bind_assoc, (run_release _ []) by done. done.
  - unfold pipewrite, me, myproc. rewrite bind_assoc, run_gets. ks. rewrite Hcur. cbn [of_option].
    rewrite run_ret, run_acquire by (ks; apply not_elem_of_nil). ks. rewrite <- Hheld. by destruct s.
Qed.

(** piperead, up to its next scheduling point: on an empty pipe with an
    open write end it sleeps (and starts over when woken), or returns -1 when
    the process is killed; otherwise it copies bytes to the process in the
    order of the queue, as many as were asked for and are there, and wakes
    the writers; only the process's own writable memory at the destination
    changes. If a byte cannot be stored it stops with the bytes stored so
    far, and that byte is gone from the pipe. *)
Theorem piperead_takes w p :
  k_pipes s !! pi = Some p -> pipe_ok p -> 0 <= n ->
  (if pipe_empty p && pi_writeopen p
   then if p_killed prp
        then piperead_from (S w) pi addr n pr s = Ret (-1) (set_k_held [] s)
        else piperead_from (S w) pi addr n pr s =
          Sleep (asleep pr (ChPipeRead pi) s)
            (resume pr (LkPipe pi) ;; piperead_from w pi addr n pr)
   else exists j p' m', piperead_from (S w) pi addr n pr s =
          Ret j (set_k_held [] (set_k_procs (wake (ChPipeWrite pi) (Some pr) (k_procs s)) (taken m' p'))) /\
          0 <= j <= Z.of_nat (length (queue p)) /\
          stored V addr (take (Z.to_nat j) (queue p)) m' /\
          confined V addr j (k_mem s) m' /\
          (j = Z.min n (Z.of_nat (length (queue p))) /\ queue p' = drop (Z.to_nat j) (queue p) \/
           writable V (addr + j) = false /\ j < Z.min n (Z.of_nat (length (queue p))) /\
             queue p' = drop (S (Z.to_nat j)) (queue p))) /\
  piperead pi addr n (set_k_held [] s) = piperead_from (S wakeups) pi addr n pr s.
Proof using All.
  intros Hpi Hp Hn. split.
  - pose proof (piperead_from_spec w p Hpi Hp Hn) as H.
    destruct (pipe_empty p && pi_writeopen p); [done|].
    destruct H as (j & p' & m' & E & Hj & Hlen & _ & _ & _ & _ & Hst & Hc & Hres).
    rewrite Z.sub_0_r, Z.add_0_r in *. exists j, p', m'. split_and!; try done; try lia.
    destruct Hres as [[H1 ->]|(H1 & H2 & H3 & ->)]; [left|right]; split_and!; try done; lia.
  - unfold piperead, me, myproc. rewrite bind_assoc, run_gets. ks. rewrite Hcur. cbn [of_option].
    rewrite run_ret, run_acquire by (ks; apply not_elem_of_nil). ks. rewrite <- Hheld. by destruct s.
Qed.
End Transfer.

(** ** Examples *)

(** A state with the address space of [some_space], a running process and a
    pipe whose lock it holds. *)
Definition some_writer (root : Z) (p : pipe) (s : kstate) : kstate :=
  set_k_held [LkPipe 4096] (set_k_cur (Some 0%nat)
    (set_k_procs (set_p_pagetable root zero_proc :: replicate 63 zero_proc)
      (set_k_pipes {[4096 := p]} s))).

Lemma some_writer_space `{Layout} s l root T V n p :
  uspace s l root T V n -> uspace (some_writer root p s) l root T V n.
Proof.
  intros Hu. eapply uspace_same; [exact Hu|done|done|].
  by intros ?%list_elem_of_singleton.
Qed.

Lemma pipewrite_appends_witness :
  exists s s', @pipewrite 0%nat 4096 0 3 s = Ret 3 s' /\ exists p, k_pipes s' !! 4096 = Some p /\
    length (queue p) = 3%nat.
Proof.
  destruct some_space as (_ & root & _ & _ & s & l & T & V & f & _ & Hu & Hf & HV).
  set (s1 := some_writer root new_pipe s).
  destruct (@pipewrite_appends 0%nat kernel_sym kernel_sym_ok s1 l root T V 1 0
    (set_p_pagetable root zero_proc) 4096 0 3 (some_writer_space s l root T V 1 new_pipe Hu)
    eq_refl eq_refl eq_refl eq_refl eq_refl ltac:(lia) 0 0 new_pipe)
    as (H & _ & E); [reflexivity|exact new_pipe_ok|split; [lia|by left]|lia|].
  destruct (H eq_refl eq_refl) as (j & p' & Hj & Hok & Hq & Hres).
  change (queue new_pipe) with (@nil Z) in Hq. simpl app in Hq.
  assert (Hlen : length (queue p') = Z.to_nat j).
  { rewrite Hq. unfold ubytes. rewrite length_fmap, length_seq. lia. }
  destruct Hres as [[Hs Hr]|(_ & Hl & _)]; [|rewrite Hl in Hlen; lia].
  assert (j = 3) as ->.
  { destruct Hs as [|Hs]; [done|]. destruct (decide (j = 3)); [done|].
    rewrite (writable_readable V (0 + j)) in Hs; [done|]. apply (some_writable V f Hf HV). lia. }
  eexists (set_k_held [] s1), _. split; [rewrite E; exact Hr|].
  exists p'. split; [|exact Hlen]. apply lookup_insert_eq.
Defined.

Lemma piperead_takes_witness :
  exists s s', @piperead 0%nat 4096 8 2 s = Ret 1 s' /\ exists p, k_pipes s' !! 4096 = Some p /\
    queue p = [].
Proof.
  destruct some_space as (_ & root & _ & _ & s & l & T & V & f & _ & Hu & Hf & HV).
  set (p := pipe_put 65 new_pipe). set (s1 := some_writer root p s).
  assert (Hp : pipe_ok p) by (apply pipe_put_spec; [exact new_pipe_ok|reflexivity|lia]).
  assert (Hq : queue p = [65]) by reflexivity.
  destruct (@piperead_takes 0%nat kernel_sym kernel_sym_ok s1 l root T V 1 0
    (set_p_pagetable root zero_proc) 4096 8 2 (some_writer_space s l root T V 1 p Hu)
    eq_refl eq_refl eq_refl eq_refl eq_refl ltac:(lia) 0 p eq_refl Hp)
    as (H & E); [lia|].
  change (pipe_empty p && pi_writeopen p) with false in H. cbv iota in H.
  destruct H as (j & p' & m' & Hr & Hj & _ & _ & Hres). rewrite Hq in Hj, Hres.
  destruct Hres as [[Hj' Hq']|(Hw & Hlt & _)].
  - change (Z.min 2 (Z.of_nat (length [65]))) with 1 in Hj'. subst j.
    eexists (set_k_held [] s1), _. split; [rewrite E; exact Hr|].
    exists p'. split; [|exact Hq']. apply lookup_insert_eq.
  - exfalso. rewrite (some_writable V f Hf HV) in Hw; [done|]. cbn in Hlt. lia.
Defined.
