(* ===== verification/ConsLine.v ===== *)
(** kernel/console.c: the line discipline. consoleintr edits the line that is
    being typed and consoleread takes whole lines, through one ring buffer of
    128 bytes with three 32-bit indices; here both are shown to be operations
    on two lists, the bytes that can be read and the line being edited, and
    what is echoed is what a terminal needs to show that line. *)

From stdpp Require Import base numbers list gmap strings.
From S2P Require Import Prelude Params Mem Digits State Locks Kalloc Vm Pagetable Uvm Ucopy Console KPrintf Pipe.

(** ** The serial line *)

(** What is left of the LSR values after waiting for an idle transmitter. *)
Fixpoint tx_wait (l : list Z) : list Z :=
  match l with
  | [] => []
  | v :: l' => if Z.land v LSR_TX_IDLE =? 0 then tx_wait l' else l'
  end.

Definition send (c : Z) (u : uart) : uart :=
  set_u_thr (u8 c :: u_thr u) (set_u_lsr (tx_wait (u_lsr u)) u).
Fixpoint sends (cs : list Z) (u : uart) : uart :=
  match cs with [] => u | c :: cs' => sends cs' (send c u) end.

(** The state after sending [cs]. *)
Definition sent (cs : list Z) (s : kstate) : kstate := set_k_uart (sends cs (k_uart s)) s.

Lemma sends_app cs1 cs2 u : sends (cs1 ++ cs2) u = sends cs2 (sends cs1 u).
Proof. revert u. induction cs1 as [|c cs1 IH]; intros u; cbn; [done|apply IH]. Qed.

Lemma sent_app cs1 cs2 s : sent (cs1 ++ cs2) s = sent cs2 (sent cs1 s).
Proof. unfold sent. ks. by rewrite sends_app. Qed.

Lemma sent_nil s : sent [] s = s.
Proof. by destruct s. Qed.

Lemma sent_thr cs s : u_thr (k_uart (sent cs s)) = reverse (u8 <$> cs) ++ u_thr (k_uart s).
Proof.
  unfold sent. ks. generalize (k_uart s). induction cs as [|c cs IH]; intros u; cbn [sends fmap list_fmap]; [done|].
  rewrite IH, reverse_cons, <- app_assoc. done.
Qed.

Lemma uartputc_sync_ok c s : uartputc_sync c s = Ret tt (sent [c] s).
Proof.
  unfold uartputc_sync. rewrite run_gets. cbv beta.
  assert (H : forall l s0, u_lsr (k_uart s0) = l ->
    loop (length l + 1) (fun _ : unit =>
      let! v := read_lsr in
      if Z.land v LSR_TX_IDLE =? 0 then ret (inl tt) else ret (inr tt)) tt s0
    = Ret tt (set_k_uart (set_u_lsr (tx_wait l) (k_uart s0)) s0)).
  { induction l as [|v l IH]; intros s0 Hl; cbn [length Nat.add loop tx_wait].
    - unfold read_lsr. rewrite !bind_assoc, run_gets, Hl, run_ret.
      change (Z.land LSR_TX_IDLE LSR_TX_IDLE =? 0) with false. cbv iota. rewrite run_ret. unfold ret. f_equal.
      destruct s0 as [? ? ? ? ? ? ? ? ? ? ? ? ? ? ? ? ? ? u ?]. cbn in *. destruct u. cbn in *. by subst.
    - unfold read_lsr. rewrite !bind_assoc, run_gets, Hl. unfold upd_uart.
      rewrite !bind_assoc, run_modify, run_ret. destruct (Z.land v LSR_TX_IDLE =? 0); rewrite run_ret.
      + by rewrite IH.
      + done. }
  rewrite (bind_Ret _ _ _ _ _ (H _ s eq_refl)). done.
Qed.

(** What the console shows for a character or BACKSPACE. *)
Definition shown (c : Z) : list Z := if c =? BACKSPACE then [8; 32; 8] else [c].

Lemma consputc_ok c s : consputc c s = Ret tt (sent (shown c) s).
Proof.
  unfold consputc, shown. destruct (c =? BACKSPACE); [|apply uartputc_sync_ok].
  rewrite (bind_Ret _ _ _ _ _ (uartputc_sync_ok 8 s)), (bind_Ret _ _ _ _ _ (uartputc_sync_ok 32 _)).
  by rewrite uartputc_sync_ok.
Qed.

Lemma run_consputc {A} c (k : unit -> K A) s : bind (consputc c) k s = k tt (sent (shown c) s).
Proof. by rewrite (bind_Ret _ _ _ _ _ (consputc_ok c s)). Qed.

Lemma consputs_ok cs s : Forall (fun c => 0 <= c < 256) cs -> for_each cs consputc s = Ret tt (sent cs s).
Proof.
  revert s. induction cs as [|c cs IH]; intros s H; cbn [for_each]; [by rewrite sent_nil|].
  apply Forall_cons in H as [Hc H]. rewrite run_consputc, IH by done.
  unfold shown. destruct (Z.eqb_spec c BACKSPACE) as [E|_]; [unfold BACKSPACE in E; lia|].
  by rewrite <- (sent_app [c]).
Qed.

(** ** procdump *)

(** The characters of an int. *)
Definition int_chars (v : Z) : list Z := number (v <? 0) 10 (if v <? 0 then - v else v).

Lemma knumber_bytes neg base x : 1 < base <= 16 -> is_bytes (number neg base x).
Proof.
  intros Hb. unfold number. apply Forall_app. split; [destruct neg; [apply Forall_singleton; lia|constructor]|].
  apply Forall_reverse, Forall_fmap. eapply Forall_impl; [apply (rdigits_range base); lia|].
  intros d Hd. cbn in *. unfold digit_char. pose proof (kdigit_lookup d ltac:(lia)) as E. rewrite E.
  assert (Hall : is_bytes digits) by (by apply (bool_decide_unpack _); vm_compute).
  unfold is_bytes in Hall. rewrite Forall_lookup in Hall. by eapply Hall.
Qed.

Lemma run_print_int {A} v l (k : list parg -> K A) s : - 2 ^ 31 <= v < 2 ^ 31 ->
  bind (print_int (PInt v :: l) 10 true) k s = k l (sent (int_chars v) s).
Proof.
  intros Hv. unfold print_int. rewrite !bind_assoc. cbn [arg_int]. rewrite run_ret. cbn [fst snd].
  rewrite s32_small, bind_assoc by lia.
  destruct (kprintint_run v 10 true s ltac:(by left) ltac:(lia)) as [_ E]. cbn [andb] in E.
  replace (if v <? 0 then - v else u64 v) with (if v <? 0 then - v else v) in E.
  2:{ destruct (Z.ltb_spec v 0); [done|]. rewrite u64_small; lia. }
  fold (int_chars v) in E. rewrite (proj2 (Nat.leb_le _ 16)) in E.
  - rewrite consputs_ok in E by (apply knumber_bytes; lia). by rewrite (bind_Ret _ _ _ _ _ E), run_ret.
  - unfold int_chars, number. rewrite length_app, length_reverse, length_fmap.
    assert (length (rdigits 65 10 (if (v <? 0)%Z then (- v)%Z else v)) <= 10)%nat.
    { apply (rdigits_length 10); [lia|]. destruct (Z.ltb_spec v 0); change (10 ^ Z.of_nat 10) with 10000000000; lia. }
    destruct (v <? 0)%Z; cbn [length]; lia.
Qed.

Lemma run_consputs {A} cs (k : unit -> K A) s : is_bytes cs -> bind (for_each cs consputc) k s = k tt (sent cs s).
Proof. intros H. by rewrite (bind_Ret _ _ _ _ _ (consputs_ok cs s H)). Qed.

Lemma printf_newline s : LkPr ∉ k_held s -> printf newline [] s = Ret tt (sent [10] s).
Proof.
  intros H. unfold printf. rewrite run_acquire by done. cbn [printf_loop newline length Z.eqb negb Pos.eqb].
  rewrite bind_assoc, run_consputc, run_ret. rewrite (release_ok _ (k_held s)) by done. by destruct s.
Qed.

(** The line of a process. *)
Definition proc_line (p : proc) : list Z :=
  if decide (p_state p = UNUSED) then []
  else int_chars (p_pid p) ++ [32] ++ state_name (p_state p) ++ [32] ++ cstr (p_name p) ++ [10].

Lemma cstr_bytes l : is_bytes l -> is_bytes (cstr l).
Proof. induction 1 as [|c l Hc _ IH]; cbn; [constructor|]. destruct (c =? 0); by constructor. Qed.

(** The directives of procdump's format. *)
Lemma printf_d f fmt args :
  printf_loop (S f) (37 :: 100 :: fmt) args = (let! a := print_int args 10 true in printf_loop f fmt a).
Proof. done. Qed.
Lemma printf_s f fmt l args :
  printf_loop (S f) (37 :: 115 :: fmt) (PStr (Some l) :: args) = (for_each l consputc ;; printf_loop f fmt args).
Proof. done. Qed.
Lemma printf_blank f fmt args :
  printf_loop (S f) (32 :: fmt) args = (consputc 32 ;; printf_loop f fmt args).
Proof. done. Qed.

Lemma printf_proc p s : LkPr ∉ k_held s -> - 2 ^ 31 <= p_pid p < 2 ^ 31 -> is_bytes (p_name p) ->
  printf (bytes_of "%d %s %s")
    [PInt (p_pid p); PStr (Some (state_name (p_state p))); PStr (Some (cstr (p_name p)))] s =
  Ret tt (sent (int_chars (p_pid p) ++ [32] ++ state_name (p_state p) ++ [32] ++ cstr (p_name p)) s).
Proof.
  intros H Hpid Hname. unfold printf. rewrite run_acquire by done.
  change (bytes_of "%d %s %s") with [37; 100; 32; 37; 115; 32; 37; 115].
  change (S (length _)) with 9%nat. rewrite printf_d, bind_assoc, run_print_int by done.
  rewrite printf_blank, bind_assoc, run_consputc, printf_s, bind_assoc, run_consputs.
  2:{ by destruct (p_state p); apply (bool_decide_unpack _); vm_compute. }
  rewrite printf_blank, bind_assoc, run_consputc, printf_s, bind_assoc, run_consputs by (by apply cstr_bytes).
  change (printf_loop 4 [] []) with (@ret kstate unit tt). rewrite run_ret.
  rewrite (release_ok _ (k_held s)) by done. rewrite !sent_app. by destruct s.
Qed.

Lemma procdump_ok s : procs_full s -> LkPr ∉ k_held s ->
  Forall (fun p => - 2 ^ 31 <= p_pid p < 2 ^ 31 /\ is_bytes (p_name p)) (k_procs s) ->
  procdump s = Ret tt (sent (10 :: (k_procs s ≫= proc_line)) s).
Proof.
  intros Hf Hpr Hall. unfold procdump. rewrite (bind_Ret _ _ _ _ _ (printf_newline s Hpr)).
  change (10 :: (k_procs s ≫= proc_line)) with ([10] ++ (k_procs s ≫= proc_line)). rewrite sent_app. set (s1 := sent [10] s).
  change (k_procs s) with (k_procs s1) in *. assert (Hf1 : procs_full s1) by done.
  assert (Hpr1 : LkPr ∉ k_held s1) by done. clearbody s1. clear s Hf Hpr. unfold proc_indices.
  unfold procs_full in Hf1. rewrite <- Hf1. clear Hf1.
  assert (G : forall pre l s, k_procs s = pre ++ l -> LkPr ∉ k_held s -> k_procs s = k_procs s1 ->
    for_each (seq (length pre) (length l)) (fun i =>
      let! p := get_proc i in
      if decide (p_state p = UNUSED) then ret tt
      else
        printf (bytes_of "%d %s %s")
          [PInt (p_pid p); PStr (Some (state_name (p_state p))); PStr (Some (cstr (p_name p)))] ;;
        printf newline []) s = Ret tt (sent (l ≫= proc_line) s)).
  2:{ by apply (G [] (k_procs s1) s1). }
  intros pre l. revert pre. induction l as [|p l IH]; intros pre s Hs Hp He; cbn [length seq for_each]; [by rewrite sent_nil|].
  rewrite bind_assoc, (run_get_proc _ p) by (rewrite Hs; by apply list_lookup_middle).
  cbn [mbind list_bind]. rewrite sent_app.
  assert (Hpp : - 2 ^ 31 <= p_pid p < 2 ^ 31 /\ is_bytes (p_name p)).
  { rewrite Forall_lookup in Hall. apply (Hall (length pre)). rewrite <- He, Hs. by apply list_lookup_middle. }
  destruct (decide (p_state p = UNUSED)) as [E|E].
  - assert (proc_line p = []) as -> by (unfold proc_line; by rewrite decide_True). rewrite run_ret, sent_nil. specialize (IH (pre ++ [p]) s). rewrite length_app, Nat.add_1_r in IH.
    apply IH; [by rewrite <- app_assoc|done|done].
  - assert (Hl : proc_line p = (int_chars (p_pid p) ++ [32] ++ state_name (p_state p) ++ [32] ++ cstr (p_name p)) ++ [10]).
    { unfold proc_line. rewrite decide_False by done. by rewrite <- !app_assoc. }
    rewrite bind_assoc, (bind_Ret _ _ _ _ _ (printf_proc p s Hp (proj1 Hpp) (proj2 Hpp))).
    rewrite (bind_Ret _ _ _ _ _ (printf_newline (sent _ s) Hp)), <- sent_app, <- Hl.
    set (s2 := sent _ s). specialize (IH (pre ++ [p]) s2). rewrite length_app, Nat.add_1_r in IH.
    apply IH; [by rewrite <- app_assoc|done|done].
Qed.

(** ** The terminal the console implements *)

(** The bytes that consoleread can take, and the line being edited. *)
Record term := mk_term { t_avail : list Z; t_edit : list Z }.

Definition t_count (t : term) : nat := (length (t_avail t) + length (t_edit t))%nat.

(** What a key does. *)
Definition type_char (c : Z) (t : term) : term :=
  if c =? Ctl 80 then t
  else if c =? Ctl 85 then mk_term (t_avail t) []
  else if (c =? Ctl 72) || (c =? 0x7f) then mk_term (t_avail t) (removelast (t_edit t))
  else if negb (c =? 0) && (t_count t <? 128)%nat then
    let c := if c =? 13 then 10 else c in
    let line := t_edit t ++ [c] in
    if (c =? 10) || (c =? Ctl 68) || (S (t_count t) =? 128)%nat
    then mk_term (t_avail t ++ line) [] else mk_term (t_avail t) line
  else t.

(** Whether it wakes the readers. *)
Definition wakes (c : Z) (t : term) : bool :=
  if c =? Ctl 80 then false
  else if c =? Ctl 85 then false
  else if (c =? Ctl 72) || (c =? 0x7f) then false
  else if negb (c =? 0) && (t_count t <? 128)%nat then
    let c := if c =? 13 then 10 else c in
    (c =? 10) || (c =? Ctl 68) || (S (t_count t) =? 128)%nat
  else false.

(** What it shows. *)
Definition erase : list Z := [8; 32; 8].
Definition echo (c : Z) (t : term) (ps : list proc) : list Z :=
  if c =? Ctl 80 then 10 :: (ps ≫= proc_line)
  else if c =? Ctl 85 then concat (replicate (length (t_edit t)) erase)
  else if (c =? Ctl 72) || (c =? 0x7f) then match t_edit t with [] => [] | _ => erase end
  else if negb (c =? 0) && (t_count t <? 128)%nat then [if c =? 13 then 10 else c]
  else [].

(** The ring buffer and its indices hold the two lists. *)
Record cons_rep (cs : console) (t : term) : Prop := {
  cr_len : length (c_buf cs) = Z.to_nat INPUT_BUF_SIZE;
  cr_bytes : is_bytes (c_buf cs);
  cr_r : 0 <= c_r cs < 2 ^ 32;
  cr_w : c_w cs = u32 (c_r cs + Z.of_nat (length (t_avail t)));
  cr_e : c_e cs = u32 (c_r cs + Z.of_nat (t_count t));
  cr_max : (t_count t <= 128)%nat;
  cr_room : t_edit t <> [] -> (t_count t < 128)%nat;
  cr_data : forall k x, (t_avail t ++ t_edit t) !! k = Some x ->
    c_buf cs !! Z.to_nat ((c_r cs + Z.of_nat k) mod INPUT_BUF_SIZE) = Some x;
  cr_edit : 10 ∉ t_edit t;
}.

Lemma term_count t : length (t_avail t ++ t_edit t) = t_count t.
Proof. by rewrite length_app. Qed.

Lemma cr_slot (r : Z) (i : Z) : u32 (r + i) mod INPUT_BUF_SIZE = (r + i) mod INPUT_BUF_SIZE.
Proof. unfold u32, INPUT_BUF_SIZE. dlia. Qed.

Section Rep.
Context (cs : console) (t : term) (HR : cons_rep cs t).

Lemma rep_used : u32 (c_e cs - c_r cs) = Z.of_nat (t_count t).
Proof using HR. destruct HR as [_ _ Hr _ -> Hm _ _ _]. unfold u32. dlia. Qed.

Lemma rep_editing : u32 (c_e cs - c_w cs) = Z.of_nat (length (t_edit t)).
Proof using HR. destruct HR as [_ _ Hr -> -> Hm _ _ _]. unfold u32, t_count in *. dlia. Qed.

Lemma rep_no_edit : (c_e cs =? c_w cs) = bool_decide (t_edit t = []).
Proof using HR.
  pose proof rep_editing as H. destruct HR as [_ _ Hr Hw He Hm _ _ _].
  assert (0 <= c_e cs < 2 ^ 32 /\ 0 <= c_w cs < 2 ^ 32) by (rewrite Hw, He; split; apply u32_range).
  case_bool_decide as E.
  - rewrite E in H. cbn in H. apply Z.eqb_eq. unfold u32 in H. dlia.
  - apply Z.eqb_neq. intros Ee. rewrite Ee, Z.sub_diag in H. destruct (t_edit t); [done|]. change (u32 0) with 0 in H. cbn [length] in H. lia.
Qed.

Lemma rep_no_avail : (c_r cs =? c_w cs) = bool_decide (t_avail t = []).
Proof using HR.
  destruct HR as [_ _ Hr Hw He Hm _ _ _]. unfold t_count in Hm. rewrite Hw. case_bool_decide as E.
  - rewrite E. cbn. rewrite Z.add_0_r. apply Z.eqb_eq. unfold u32. dlia.
  - apply Z.eqb_neq. destruct (t_avail t) as [|a l]; [done|]. cbn [length] in *. unfold u32. dlia.
Qed.

(** The line loses its last character. *)
Lemma rep_backspace line c : t_edit t = line ++ [c] ->
  c_buf cs !! Z.to_nat (u32 (c_e cs - 1) mod INPUT_BUF_SIZE) = Some c /\
  cons_rep (set_c_e (u32 (c_e cs - 1)) cs) (mk_term (t_avail t) line).
Proof using HR.
  intros E. destruct HR as [H1 H2 Hr Hw He Hm Hroom Hd Hed]. unfold t_count in *. rewrite E, length_app in *. cbn [length] in *.
  split.
  - rewrite He. rewrite <- (Hd (length (t_avail t ++ line)) c).
    2:{ rewrite app_assoc. by apply list_lookup_middle. }
    do 2 f_equal. rewrite length_app. unfold u32, INPUT_BUF_SIZE. dlia.
  - split; cbn [c_buf c_r c_w c_e set_c_e t_avail t_edit]; try done.
    + rewrite He. unfold t_count. cbn. unfold u32. dlia.
    + unfold t_count. cbn. lia.
    + unfold t_count. cbn. lia.
    + intros k x Hk. apply Hd. rewrite app_assoc. by apply lookup_app_l_Some.
    + rewrite not_elem_of_app in Hed. tauto.
Qed.

(** A character is added to the line, and the line to what can be read. *)
Definition put (c : Z) : console :=
  set_c_e (u32 (c_e cs + 1)) (set_c_buf (<[Z.to_nat (c_e cs mod INPUT_BUF_SIZE) := c]> (c_buf cs)) cs).

Lemma put_data c : (t_count t < 128)%nat -> forall k x, (t_avail t ++ t_edit t ++ [c]) !! k = Some x ->
  c_buf (put c) !! Z.to_nat ((c_r cs + Z.of_nat k) mod INPUT_BUF_SIZE) = Some x.
Proof using HR.
  intros Hlt k x. rewrite app_assoc. cbn [put c_buf set_c_e set_c_buf]. destruct HR as [H1 H2 Hr Hw He Hm _ Hd Hed].
  rewrite He, cr_slot. intros [Hk|[Hk Hx]]%lookup_app_Some.
  - pose proof (lookup_lt_Some _ _ _ Hk) as Hlk. rewrite term_count in Hlk.
    rewrite list_lookup_insert_ne; [by apply Hd|]. unfold INPUT_BUF_SIZE. dlia.
  - apply list_lookup_singleton_Some in Hx as [Hz <-]. rewrite term_count in *.
    replace (Z.of_nat k) with (Z.of_nat (t_count t)) by lia. rewrite list_lookup_insert_eq; [done|].
    rewrite H1. unfold INPUT_BUF_SIZE. dlia.
Qed.

Lemma put_used c : (t_count t < 128)%nat -> u32 (c_e (put c) - c_r (put c)) = Z.of_nat (S (t_count t)).
Proof using HR. intros H. destruct HR as [_ _ Hr _ He Hm _ _ _]. cbn. rewrite He. unfold u32. dlia. Qed.

Lemma cons_rep_put c : (t_count t < 128)%nat -> 0 <= c < 256 -> c <> 10 -> S (t_count t) <> 128%nat ->
  cons_rep (put c) (mk_term (t_avail t) (t_edit t ++ [c])).
Proof using HR.
  intros Hlt Hc Hn Hf. pose proof (put_data c Hlt) as Hp. destruct HR as [H1 H2 Hr Hw He Hm _ Hd Hed].
  assert (Hcount : t_count (mk_term (t_avail t) (t_edit t ++ [c])) = S (t_count t)).
  { unfold t_count. cbn. rewrite length_app. cbn. lia. }
  split; try done; rewrite ?Hcount.
  - cbn. by rewrite length_insert.
  - cbn. by apply Forall_insert.
  - cbn. rewrite He. unfold u32. dlia.
  - lia.
  - lia.
  - cbn. rewrite not_elem_of_app, list_elem_of_singleton. auto.
Qed.

Lemma rep_commit c : (t_count t < 128)%nat -> 0 <= c < 256 ->
  cons_rep (set_c_w (c_e (put c)) (put c)) (mk_term (t_avail t ++ t_edit t ++ [c]) []).
Proof using HR.
  intros Hlt Hc. pose proof (put_data c Hlt) as Hp. destruct HR as [H1 H2 Hr Hw He Hm _ Hd Hed].
  assert (Hl : length (t_avail t ++ t_edit t ++ [c]) = S (t_count t)).
  { unfold t_count. rewrite !length_app. cbn. lia. }
  assert (Hcount : t_count (mk_term (t_avail t ++ t_edit t ++ [c]) []) = S (t_count t)) by (unfold t_count at 1; cbn [t_avail t_edit length]; lia).
  split; try done; rewrite ?Hcount.
  - cbn. by rewrite length_insert.
  - cbn. by apply Forall_insert.
  - cbn [t_avail]. rewrite Hl. cbn. rewrite He. unfold u32. dlia.
  - cbn. rewrite He. unfold u32. dlia.
  - lia.
  - by rewrite app_nil_r.
  - apply not_elem_of_nil.
Qed.
End Rep.

(** ** consoleintr *)

Definition with_cons (cs : console) (s : kstate) : kstate := set_k_cons cs s.

Lemma sent_with_cons out cs s : sent out (with_cons cs s) = with_cons cs (sent out s).
Proof. done. Qed.

Lemma run_upd_cons {A} f (k : unit -> K A) s : bind (upd_cons f) k s = k tt (with_cons (f (k_cons s)) s).
Proof. done. Qed.

(** Kill line: one erasure for every character. *)
Lemma kill_line_ok a line : forall cs s0, cons_rep cs (mk_term a line) -> k_cons s0 = cs ->
  exists cs', cons_rep cs' (mk_term a []) /\
  loop (length line + 1) (fun _ : unit =>
       let! cs := gets k_cons in
       if negb (c_e cs =? c_w cs) then
         let! ch := of_option (c_buf cs !! Z.to_nat (u32 (c_e cs - 1) mod INPUT_BUF_SIZE)) in
         if negb (ch =? 10) then
           upd_cons (fun cs => set_c_e (u32 (c_e cs - 1)) cs) ;;
           consputc BACKSPACE ;;
           ret (inl tt)
         else ret (inr tt)
       else ret (inr tt)) tt s0 =
  Ret tt (with_cons cs' (sent (concat (replicate (length line) erase)) s0)).
Proof.
  induction line as [|c line IH] using rev_ind; intros cs s0 HR Hcs.
  - exists cs. split; [done|]. cbn [length Nat.add loop]. rewrite bind_assoc, run_gets, Hcs.
    rewrite (rep_no_edit cs _ HR). cbn [t_edit]. rewrite bool_decide_eq_true_2 by done. cbn [negb].
    rewrite run_ret. unfold ret. f_equal. cbn [replicate concat]. rewrite sent_nil, <- Hcs. by destruct s0.
  - replace (replicate (length (line ++ [c])) erase) with (erase :: replicate (length line) erase)
      by (by rewrite length_app, Nat.add_1_r).
    replace (length (line ++ [c]) + 1)%nat with (S (length line + 1)) by (rewrite length_app; cbn; lia).
    cbn [loop]. rewrite bind_assoc, run_gets, Hcs.
    rewrite (rep_no_edit cs _ HR). cbn [t_edit]. rewrite bool_decide_eq_false_2 by (by destruct line). cbn [negb].
    destruct (rep_backspace cs _ HR line c eq_refl) as [Hch HR']. rewrite Hch. cbn [of_option]. rewrite bind_assoc, run_ret.
    assert (Hc : (c =? 10) = false).
    { apply Z.eqb_neq. intros ->. destruct HR. cbn in *. set_solver. }
    rewrite Hc. cbn [negb]. rewrite bind_assoc, run_upd_cons, bind_assoc, run_consputc, run_ret, Hcs.
    destruct (IH _ (sent (shown BACKSPACE) (with_cons (set_c_e (u32 (c_e cs - 1)) cs) s0)) HR' eq_refl) as (cs' & HR2 & ->).
    exists cs'. split; [done|]. f_equal.
Qed.

Definition dump_ok (p : proc) : Prop := - 2 ^ 31 <= p_pid p < 2 ^ 31 /\ is_bytes (p_name p).

Section Consoleintr.
Context {W : Wakeups} {L : Layout}.
Context (s : kstate) (t : term) (c : Z).
Context (Hheld : k_held s = []) (Hfull : procs_full s) (Hc : 0 <= c < 256).
Context (HR : cons_rep (k_cons s) t) (Hdump : Forall dump_ok (k_procs s)).

(** A character that is not a command. *)
Lemma insert_ok : exists cs', cons_rep cs'
    (if negb (c =? 0) && (t_count t <? 128)%nat then
       let c := if c =? 13 then 10 else c in
       let line := t_edit t ++ [c] in
       if (c =? 10) || (c =? Ctl 68) || (S (t_count t) =? 128)%nat
       then mk_term (t_avail t ++ line) [] else mk_term (t_avail t) line
     else t) /\
  ((let! cs := gets k_cons in
    when (negb (c =? 0) && (u32 (c_e cs - c_r cs) <? INPUT_BUF_SIZE))
      (let c := if c =? 13 then 10 else c in
       consputc c ;;
       upd_cons (fun cs =>
         set_c_e (u32 (c_e cs + 1))
           (set_c_buf (<[Z.to_nat (c_e cs mod INPUT_BUF_SIZE) := u8 c]> (c_buf cs)) cs)) ;;
       let! cs := gets k_cons in
       when ((c =? 10) || (c =? Ctl 68) || (u32 (c_e cs - c_r cs) =? INPUT_BUF_SIZE))
         (upd_cons (fun cs => set_c_w (c_e cs) cs) ;;
          wakeup ChCons))) ;; release LkCons) (set_k_held (LkCons :: k_held s) s) =
  Ret tt (set_k_procs
    (if if negb (c =? 0) && (t_count t <? 128)%nat then
          let c := if c =? 13 then 10 else c in
          (c =? 10) || (c =? Ctl 68) || (S (t_count t) =? 128)%nat
        else false
     then wake ChCons (k_cur s) (k_procs s) else k_procs s)
    (with_cons cs' (sent (if negb (c =? 0) && (t_count t <? 128)%nat then [if c =? 13 then 10 else c] else []) s))).
Proof using All.
  rewrite bind_assoc, run_gets. ks. rewrite (rep_used _ t HR).
  replace (Z.of_nat (t_count t) <? INPUT_BUF_SIZE) with (t_count t <? 128)%nat.
  2:{ unfold INPUT_BUF_SIZE. destruct (Nat.ltb_spec (t_count t) 128), (Z.ltb_spec (Z.of_nat (t_count t)) 128); lia. }
  destruct (negb (c =? 0) && (t_count t <? 128)%nat) eqn:Eg.
  2:{ exists (k_cons s). split; [done|]. rewrite run_when_false, (release_ok _ (k_held s)), sent_nil by done.
      unfold with_cons. by destruct s. }
  apply andb_true_iff in Eg as [_ Hlt%Nat.ltb_lt]. rewrite run_when_true. cbv zeta.
  set (d := if c =? 13 then 10 else c). assert (Hd : 0 <= d < 256) by (unfold d; destruct (c =? 13); lia).
  assert (Hsh : shown d = [d]).
  { unfold shown. destruct (Z.eqb_spec d BACKSPACE) as [E|]; [unfold BACKSPACE in E; lia|done]. }
  rewrite bind_assoc, run_consputc, Hsh, bind_assoc, run_upd_cons, bind_assoc, run_gets.
  rewrite u8_small by done.
  change (k_cons (sent [d] (set_k_held (LkCons :: k_held s) s))) with (k_cons s).
  fold (put (k_cons s) d). change (k_cons (with_cons (put (k_cons s) d) _)) with (put (k_cons s) d).
  rewrite (put_used _ t HR) by done.
  replace (Z.of_nat (S (t_count t)) =? INPUT_BUF_SIZE) with (S (t_count t) =? 128)%nat.
  2:{ unfold INPUT_BUF_SIZE. destruct (Nat.eqb_spec (S (t_count t)) 128), (Z.eqb_spec (Z.of_nat (S (t_count t))) 128); lia. }
  destruct ((d =? 10) || (d =? Ctl 68) || (S (t_count t) =? 128)%nat) eqn:Ew.
  - eexists. split; [by apply (rep_commit _ t HR)|]. rewrite run_when_true, bind_assoc, run_upd_cons.
    rewrite run_wakeup; [|intros i; ks; rewrite Hheld; by intros ?%list_elem_of_singleton|done].
    rewrite (release_ok _ (k_held s)) by done. unfold with_cons, sent. by destruct s.
  - rewrite run_when_false, (release_ok _ (k_held s)) by done.
    apply orb_false_iff in Ew as [[E1%Z.eqb_neq _]%orb_false_iff E3%Nat.eqb_neq].
    eexists. split; [by apply (cons_rep_put _ t HR)|]. unfold with_cons, sent. by destruct s.
Qed.

Lemma consoleintr_ok : exists cs', cons_rep cs' (type_char c t) /\
  consoleintr c s =
    Ret tt (set_k_procs (if wakes c t then wake ChCons (k_cur s) (k_procs s) else k_procs s)
      (with_cons cs' (sent (echo c t (k_procs s)) s))).
Proof using All.
  unfold consoleintr. rewrite run_acquire by (rewrite Hheld; apply not_elem_of_nil).
  unfold type_char, wakes, echo.
  destruct (Z.eqb_spec c (Ctl 80)) as [->|H80].
  { exists (k_cons s). split; [done|].
    assert (Hpr : LkPr ∉ LkCons :: k_held s) by (rewrite Hheld; by intros ?%list_elem_of_singleton).
    rewrite (bind_Ret _ _ _ _ _ (procdump_ok (set_k_held (LkCons :: k_held s) s) Hfull Hpr Hdump)).
    rewrite (release_ok _ (k_held s)) by done. cbn [negb andb]. unfold with_cons, sent. by destruct s. }
  destruct (Z.eqb_spec c (Ctl 85)) as [->|H85].
  { cbn [negb andb]. rewrite bind_assoc, run_gets. ks. rewrite (rep_editing _ t HR), Nat2Z.id.
    destruct (kill_line_ok (t_avail t) (t_edit t) (k_cons s) (set_k_held (LkCons :: k_held s) s))
      as (cs' & HR' & E); [by destruct t|done|].
    exists cs'. split; [done|]. rewrite (bind_Ret _ _ _ _ _ E), (release_ok _ (k_held s)) by done.
    unfold with_cons, sent. by destruct s. }
  destruct ((c =? Ctl 72) || (c =? 127)).
  { rewrite bind_assoc, run_gets. ks. rewrite (rep_no_edit _ t HR).
    destruct (t_edit t) as [|x l] eqn:Ee.
    - rewrite bool_decide_eq_true_2 by done. cbn [negb]. rewrite run_when_false.
      exists (k_cons s). split; [by destruct t; cbn in *; subst|].
      rewrite (release_ok _ (k_held s)) by done. rewrite sent_nil. unfold with_cons. by destruct s.
    - rewrite bool_decide_eq_false_2 by done. cbn [negb]. rewrite run_when_true.
      destruct (exists_last (l := x :: l) ltac:(done)) as (line & last & E). rewrite E, removelast_last.
      destruct (rep_backspace _ t HR line last) as [_ HR']; [by rewrite Ee|].
      eexists. split; [exact HR'|].
      rewrite bind_assoc, run_upd_cons, run_consputc. rewrite (release_ok _ (k_held s)) by done.
      change (shown BACKSPACE) with erase. unfold with_cons, sent. by destruct s. }
  apply insert_ok.
Qed.
End Consoleintr.

(** ** consoleread *)

(** At most [n] bytes up to the end of a line, and what is left; [None] when
    the line is not complete. An end-of-file (control-D) ends a line; it is
    taken away only by the read that starts with it. *)
Fixpoint line_take (n : nat) (first : bool) (a : list Z) : option (list Z * list Z) :=
  match n, a with
  | O, _ => Some ([], a)
  | S _, [] => None
  | S n', c :: a' =>
      if c =? Ctl 68 then Some ([], if first then a' else a)
      else if c =? 10 then Some ([c], a')
      else match line_take n' false a' with
           | Some (out, rest) => Some (c :: out, rest)
           | None => None
           end
  end.

(** The reader takes the first byte. *)
Lemma rep_take cs c a e : cons_rep cs (mk_term (c :: a) e) ->
  c_buf cs !! Z.to_nat (c_r cs mod INPUT_BUF_SIZE) = Some c /\ 0 <= c < 256 /\
  cons_rep (set_c_r (u32 (c_r cs + 1)) cs) (mk_term a e) /\
  u32 (u32 (c_r cs + 1) - 1) = c_r cs.
Proof.
  intros [H1 H2 Hr Hw He Hm Hroom Hd Hed]. unfold t_count in *. cbn [t_avail t_edit length] in *.
  pose proof (Hd 0%nat c eq_refl) as H0. rewrite Z.add_0_r in H0.
  split_and!; [exact H0|..].
  - unfold is_bytes in H2. rewrite Forall_lookup in H2. by apply (H2 _ _ H0).
  - unfold is_bytes in H2. rewrite Forall_lookup in H2. by apply (H2 _ _ H0).
  - split; unfold t_count; cbn [t_avail t_edit c_buf c_r c_w c_e set_c_r]; try done.
    + apply u32_range.
    + rewrite Hw. unfold u32. dlia.
    + rewrite He. unfold u32. dlia.
    + lia.
    + intros k x Hk. rewrite <- (Hd (S k) x) by done. do 2 f_equal. unfold u32, INPUT_BUF_SIZE. dlia.
  - unfold u32. dlia.
Qed.

Section Consoleread.
Context {W : Wakeups} {L : Layout} {LO : LayoutOk L}.
Context (s : kstate) (l : list Z) (root : Z) (T : gmap (list Z) Z) (V : Z -> Z) (np : nat).
Context (pr : nat) (prp : proc) (addr n : Z) (edit : list Z).
Hypothesis (Hu : uspace s l root T V np).
Hypothesis (Hcur : k_cur s = Some pr).
Hypothesis (Hprp : k_procs s !! pr = Some prp).
Hypothesis (Hroot : p_pagetable prp = root).
Hypothesis (Hheld : k_held s = []).
Hypothesis (Haddr : 0 <= addr < 2 ^ 64).

(** The state while the lock is held. *)
Definition reading (m : memory) (cs : console) : kstate :=
  set_k_mem m (with_cons cs (set_k_held [LkCons] s)).

Lemma run_cons_wait {A} m cs c a (k : bool -> K A) : cons_rep cs (mk_term (c :: a) edit) ->
  bind cons_wait k (reading m cs) = k true (reading m cs).
Proof using Type.
  intros HR. unfold cons_wait. rewrite run_loop, bind_assoc, run_gets.
  change (k_cons (reading m cs)) with cs. rewrite (rep_no_avail _ _ HR). cbn [t_avail].
  rewrite bool_decide_eq_false_2 by done. by rewrite run_ret.
Qed.

Lemma run_copyout1 {A} m cs i c (k : Z -> K A) :
  uspace (set_k_mem m s) l root T V np -> reached addr i -> 0 <= c < 256 ->
  exists m', uspace (set_k_mem m' s) l root T V np /\ confined V (addr + i) 1 m m' /\
    if writable V (addr + i)
    then rd m' (upa V (addr + i)) = c /\
      bind (either_copyout (DstUser (addr + i)) [c]) k (reading m cs) = k 0 (reading m' cs)
    else bind (either_copyout (DstUser (addr + i)) [c]) k (reading m cs) = k (-1) (reading m' cs).
Proof using All.
  intros Hu1 Hi Hc. destruct (reached_addr addr Haddr i Hi) as [_ Hr].
  destruct (copyout_spec (reading m cs) l root T V np (addr + i) [c]) as (r & m' & E & Hu2 & Hcf & Hres).
  { eapply uspace_same; [exact Hu1|done..|]. intros ?%list_elem_of_singleton. done. }
  { done. } { by constructor. }
  exists m'. cbn [length] in *. change (Z.of_nat 1) with 1 in *. split_and!.
  - eapply uspace_same; [exact Hu2|done..|]. ks. rewrite Hheld. apply not_elem_of_nil.
  - exact Hcf.
  - assert (E' : forall k : Z -> K A, bind (either_copyout (DstUser (addr + i)) [c]) k (reading m cs) = k r (reading m' cs)).
    { intros k'. unfold either_copyout, curproc, myproc. rewrite !bind_assoc, run_gets. ks.
      change (k_cur (reading m cs)) with (k_cur s). rewrite Hcur. cbn [of_option]. rewrite bind_assoc, run_ret.
      rewrite (run_get_proc pr prp), Hroot by done. by rewrite (bind_Ret _ _ _ _ _ E). }
    rewrite E'. destruct Hres as [(-> & Hall & Hst)|(-> & x & Hx & Hnw)].
    + rewrite (Hall (addr + i)) by (cbn [length]; lia). split; [|done]. rewrite <- (Z.add_0_r (addr + i)). by apply (Hst 0%nat).
    + assert (x = addr + i) as -> by (cbn [length] in Hx; lia). by rewrite Hnw.
Qed.

(** What a read has done when it stops, [out] being what it was to deliver
    of [a] and [rest] what was to be left. *)
Definition read_done (i : Z) (a out rest : list Z) (m : memory) (j : nat) (cs' : console) (m' : memory) : Prop :=
  (j <= length out)%nat /\ uspace (set_k_mem m' s) l root T V np /\
  stored V (addr + i) (take j out) m' /\ confined V (addr + i) (Z.of_nat j) m m' /\
  (j = length out /\ cons_rep cs' (mk_term rest edit) \/
   (j < length out)%nat /\ writable V (addr + i + Z.of_nat j) = false /\ cons_rep cs' (mk_term (drop (S j) a) edit)).

Lemma read_done_all i a out rest m cs' :
  out = [] -> uspace (set_k_mem m s) l root T V np -> cons_rep cs' (mk_term rest edit) ->
  read_done i a out rest m 0 cs' m.
Proof using Type. intros -> Hm HR. split_and!; try done. by left. Qed.

(** A byte is delivered, then the others. *)
Lemma read_done_cons i c a out rest m m1 j cs' m' :
  0 <= addr + i -> uspace (set_k_mem m1 s) l root T V np -> writable V (addr + i) = true ->
  rd m1 (upa V (addr + i)) = c -> confined V (addr + i) 1 m m1 ->
  read_done (i + 1) a out rest m1 j cs' m' -> read_done i (c :: a) (c :: out) rest m (S j) cs' m'.
Proof using Type.
  intros H0 Hu1 Hw Hc Hc1 (Hj & Hu' & Hst & Hcf & Hres). unfold read_done.
  replace (addr + (i + 1)) with (addr + i + 1) in * by lia. cbn [length take drop].
  split_and!; [lia|done|exact (stored_cons s l root T V np _ _ _ _ m1 m' Hu1 H0 Hw Hc Hcf Hst)| |].
  - rewrite Nat2Z.inj_succ, <- Z.add_1_l. eapply confined_app; [lia..|exact Hc1|exact Hcf].
  - replace (addr + i + Z.of_nat (S j)) with (addr + i + 1 + Z.of_nat j) by lia.
    destruct Hres as [[-> ?]|(? & ? & ?)]; [left|right]; split_and!; try done. lia.
Qed.

Lemma consoleread_loop k : forall i f a out rest cs m,
  (k < f)%nat -> reached addr i -> n = i + Z.of_nat k -> cons_rep cs (mk_term a edit) ->
  uspace (set_k_mem m s) l root T V np -> line_take k (bool_decide (i = 0)) a = Some (out, rest) ->
  exists j cs' m', loop f (consoleread_round n) (Z.of_nat k, DstUser (addr + i)) (reading m cs) =
      Ret (Some (Z.of_nat k - Z.of_nat j)) (reading m' cs') /\
    read_done i a out rest m j cs' m'.
Proof using All.
  induction k as [|k IH]; intros i f a out rest cs m Hf Hi Hn HR Hm Hl;
    (destruct f as [|f]; [lia|]); cbn [loop consoleread_round].
  - cbn in Hl. injection Hl as <- <-. exists 0%nat, cs, m. split; [done|]. by apply read_done_all.
  - destruct a as [|c a]; [done|]. destruct (reached_addr addr Haddr i Hi) as [_ Hr].
    rewrite (proj2 (Z.ltb_lt _ _)) by lia. rewrite bind_assoc, (run_cons_wait m cs c a) by done. cbn [negb].
    rewrite bind_assoc, run_gets. change (k_cons (reading m cs)) with cs.
    destruct (rep_take cs c a edit HR) as (-> & Hc & HR' & Hback). cbn [of_option].
    rewrite bind_assoc, run_ret, bind_assoc, run_upd_cons.
    change (with_cons _ (reading m cs)) with (reading m (set_c_r (u32 (c_r cs + 1)) cs)).
    cbn [line_take] in Hl. destruct (c =? Ctl 68) eqn:Ed.
    { injection Hl as <- <-. destruct (decide (i = 0)) as [->|Hne].
      - rewrite bool_decide_eq_true_2 by done. rewrite (proj2 (Z.ltb_ge _ _)) by lia.
        rewrite bind_assoc, run_when_false, run_ret. exists 0%nat. eexists _, _.
        split; [by rewrite Z.sub_0_r|]. by apply read_done_all.
      - rewrite bool_decide_eq_false_2 by done. rewrite (proj2 (Z.ltb_lt _ _)) by (destruct Hi; lia).
        rewrite bind_assoc, run_when_true, run_upd_cons, run_ret. exists 0%nat, cs, m.
        split; [|by apply read_done_all]. rewrite Z.sub_0_r.
        assert (set_c_r (u32 (u32 (c_r cs + 1) - 1)) (set_c_r (u32 (c_r cs + 1)) cs) = cs) as E
          by (rewrite Hback; by destruct cs).
        change (k_cons (reading m (set_c_r (u32 (c_r cs + 1)) cs))) with (set_c_r (u32 (c_r cs + 1)) cs).
        change (c_r (set_c_r ?x cs)) with x. rewrite E. done. }
    destruct (run_copyout1 m (set_c_r (u32 (c_r cs + 1)) cs) i c
      (fun e => let! r := (if e =? -1 then ret (inr (Some (Z.of_nat (S k))))
                else if c =? 10 then ret (inr (Some (Z.of_nat (S k) - 1)))
                else ret (inl (Z.of_nat (S k) - 1, kdst_add (DstUser (addr + i)) 1))) in
        match r with inl v => loop f (consoleread_round n) v | inr b => ret b end) Hm Hi Hc)
      as (m1 & Hm1 & Hcf & Hcase).
    rewrite bind_assoc. destruct (writable V (addr + i)) eqn:Hw; [destruct Hcase as [Hrd E]|rename Hcase into E];
      rewrite E; cbn [Z.eqb Pos.eqb].
    2:{ rewrite run_ret. exists 0%nat. eexists _, m1. split; [by rewrite Z.sub_0_r|].
        assert (Hpos : (0 < length out)%nat).
        { destruct (c =? 10); [by injection Hl as <- <-; cbn; lia|].
          destruct (line_take k false a) as [[o r]|]; [|done]. injection Hl as <- <-. cbn. lia. }
        split_and!; [lia|done|done| |right; split_and!; [done|by rewrite Z.add_0_r|done]].
        intros y _. apply Hcf. intros x Hx Hwx. assert (x = addr + i) as -> by lia. congruence. }
    destruct (c =? 10).
    { injection Hl as <- <-. rewrite run_ret. exists 1%nat. eexists _, m1. split; [done|].
      apply (read_done_cons i c a [] a m m1 0); try done; [lia|]. by apply read_done_all. }
    destruct (line_take k false a) as [[o r]|] eqn:El; [|done]. injection Hl as <- <-.
    rewrite run_ret. cbn [kdst_add]. destruct (writable_readable_lt V _ Hw) as [Hrd' _].
    pose proof (reached_S V addr i Hi Hrd') as Hi'. destruct (reached_addr addr Haddr _ Hi') as [Ha _].
    replace (u64 (addr + i + 1)) with (addr + (i + 1)) by (by rewrite <- Ha; f_equal; lia).
    replace (Z.of_nat (S k) - 1) with (Z.of_nat k) by lia.
    destruct (IH (i + 1) f a o r (set_c_r (u32 (c_r cs + 1)) cs) m1) as (j & cs' & m' & E' & Hdone);
      [lia|done|lia|done|done|by rewrite bool_decide_eq_false_2 by (destruct Hi; lia)|].
    exists (S j), cs', m'. split; [|apply (read_done_cons i c a o r m m1 j); try done; lia].
    rewrite E'. do 2 f_equal. lia.
Qed.

(** consoleread on the bytes that can be read. *)
Lemma consoleread_ok a out rest :
  cons_rep (k_cons s) (mk_term a edit) -> 0 <= n -> line_take (Z.to_nat n) true a = Some (out, rest) ->
  exists j cs' m', consoleread (DstUser addr) n s = Ret (Z.of_nat j) (set_k_mem m' (with_cons cs' s)) /\
    read_done 0 a out rest (k_mem s) j cs' m'.
Proof using All.
  intros HR Hn Hl. unfold consoleread. rewrite run_acquire by (rewrite Hheld; apply not_elem_of_nil).
  destruct (consoleread_loop (Z.to_nat n) 0 (Z.to_nat n + 1) a out rest (k_cons s) (k_mem s))
    as (j & cs' & m' & E & Hd); try done; [lia|split; [lia|by left]|lia|by rewrite set_k_mem_id|].
  rewrite Z.add_0_r, Z2Nat.id in E by done. exists j, cs', m'. split; [|done].
  assert (Es : set_k_held (LkCons :: k_held s) s = reading (k_mem s) (k_cons s)).
  { unfold reading, with_cons. rewrite Hheld. by destruct s. }
  rewrite Es, (bind_Ret _ _ _ _ _ E), (run_release _ []) by done.
  unfold ret. f_equal; [lia|]. unfold reading, with_cons. rewrite <- Hheld. by destruct s.
Qed.

(** With nothing to read it gives up the CPU, or returns when killed. *)
Lemma consoleread_empty : cons_rep (k_cons s) (mk_term [] edit) -> 0 < n ->
  if p_killed prp then consoleread (DstUser addr) n s = Ret (-1) s
  else exists k, consoleread (DstUser addr) n s = Sleep (asleep pr ChCons (set_k_held [LkCons] s)) k.
Proof using All.
  intros HR Hn. unfold consoleread. rewrite run_acquire by (rewrite Hheld; apply not_elem_of_nil).
  rewrite Nat.add_1_r, run_loop. cbn [consoleread_round]. rewrite (proj2 (Z.ltb_lt _ _)) by done.
  rewrite bind_assoc. unfold cons_wait. rewrite run_loop, bind_assoc, run_gets. ks.
  rewrite (rep_no_avail _ _ HR), bool_decide_eq_true_2 by done.
  unfold me, myproc. rewrite !bind_assoc, run_gets. ks. rewrite Hcur. cbn [of_option]. rewrite run_ret.
  rewrite bind_assoc, (run_killed pr prp); [|ks; rewrite Hheld; by intros ?%list_elem_of_singleton|done].
  destruct (p_killed prp).
  - rewrite run_ret. cbn [negb]. rewrite bind_assoc, (run_release _ (k_held s)), run_ret by done.
    unfold ret. f_equal. by destruct s.
  - rewrite bind_assoc, (run_sleep pr); [|done|by apply lookup_lt_Some in Hprp|by rewrite Hheld|done].
    rewrite Hheld. by eexists.
Qed.
End Consoleread.

(** ** Typing, then reading *)

(** The terminal, what it has shown and the processes after some keys. *)
Fixpoint session (cur : option nat) (keys : list Z) (t : term) (ps : list proc) : term * list Z * list proc :=
  match keys with
  | [] => (t, [], ps)
  | c :: keys' =>
      let r := session cur keys' (type_char c t) (if wakes c t then wake ChCons cur ps else ps) in
      (r.1.1, echo c t ps ++ r.1.2, r.2)
  end.

Lemma wake_dump_ok ch cur ps : Forall dump_ok ps -> Forall dump_ok (wake ch cur ps).
Proof.
  rewrite !Forall_lookup. intros H i p. rewrite lookup_wake. intros (q & Hq & E)%fmap_Some. specialize (H i q Hq).
  case_decide; subst; [done|]. by destruct (wake1_cases ch q) as [->|(_ & _ & ->)].
Qed.

Lemma session_ok `{Wakeups} `{Layout} keys : forall s t,
  k_held s = [] -> procs_full s -> is_bytes keys -> cons_rep (k_cons s) t -> Forall dump_ok (k_procs s) ->
  let r := session (k_cur s) keys t (k_procs s) in
  exists cs', cons_rep cs' r.1.1 /\
    for_each keys consoleintr s = Ret tt (set_k_procs r.2 (with_cons cs' (sent r.1.2 s))).
Proof.
  induction keys as [|c keys IH]; intros s t Hh Hf Hb HR Hd; cbn [session for_each fst snd].
  - exists (k_cons s). split; [done|]. rewrite sent_nil. by destruct s.
  - apply Forall_cons in Hb as [Hc Hb].
    destruct (consoleintr_ok s t c Hh Hf Hc HR Hd) as (cs1 & HR1 & E). rewrite (bind_Ret _ _ _ _ _ E).
    set (ps1 := if wakes c t then wake ChCons (k_cur s) (k_procs s) else k_procs s) in *.
    assert (Hd1 : Forall dump_ok ps1) by (unfold ps1; destruct (wakes c t); [by apply wake_dump_ok|done]).
    assert (Hf1 : length ps1 = Z.to_nat NPROC) by (unfold ps1; destruct (wakes c t); rewrite ?length_wake; done).
    destruct (IH (set_k_procs ps1 (with_cons cs1 (sent (echo c t (k_procs s)) s))) (type_char c t) Hh Hf1 Hb HR1 Hd1)
      as (cs2 & HR2 & ->).
    exists cs2. split; [exact HR2|]. by rewrite sent_app.
Qed.

Lemma session_me keys cur pr p : cur = Some pr -> forall t ps, ps !! pr = Some p ->
  (session cur keys t ps).2 !! pr = Some p.
Proof.
  intros ->. induction keys as [|c keys IH]; intros t ps Hp; cbn [session fst snd]; [done|].
  apply IH. destruct (wakes c t); [|done]. rewrite lookup_wake, Hp. cbn. by rewrite decide_True.
Qed.

Section Terminal.
Context {W : Wakeups} {L : Layout} {LO : LayoutOk L}.
Context (s : kstate) (l : list Z) (root : Z) (T : gmap (list Z) Z) (V : Z -> Z) (np : nat).
Context (pr : nat) (prp : proc) (addr n : Z).

(** C24. The console is a line-buffered terminal. Whatever keys are typed,
    consoleintr returns after each, and the ring buffer then holds what the
    keys mean (characters, end of line, backspace, kill line, end of file,
    with at most 128 bytes kept) and the echo is what shows it; control-P
    prints the process list. A read then returns the bytes of the first
    line, up to the number asked for and without the end-of-file mark, stored
    in the process's own memory, and leaves the rest; if a byte cannot be
    stored it returns those before it, and that byte is lost. With no line it
    sleeps, or returns -1 when killed. *)
Theorem console_is_line_terminal keys t :
  uspace s l root T V np -> k_cur s = Some pr -> k_procs s !! pr = Some prp -> p_pagetable prp = root ->
  k_held s = [] -> procs_full s -> Forall dump_ok (k_procs s) -> 0 <= addr < 2 ^ 64 -> 0 <= n ->
  is_bytes keys -> cons_rep (k_cons s) t ->
  let r := session (k_cur s) keys t (k_procs s) in
  exists s1, for_each keys consoleintr s = Ret tt s1 /\
    cons_rep (k_cons s1) r.1.1 /\ u_thr (k_uart s1) = reverse (u8 <$> r.1.2) ++ u_thr (k_uart s) /\
    (t_avail r.1.1 = [] -> 0 < n ->
     if p_killed prp then consoleread (DstUser addr) n s1 = Ret (-1) s1
     else exists k, consoleread (DstUser addr) n s1 = Sleep (asleep pr ChCons (set_k_held [LkCons] s1)) k) /\
    (forall line rest, line_take (Z.to_nat n) true (t_avail r.1.1) = Some (line, rest) ->
     exists j cs' m', consoleread (DstUser addr) n s1 = Ret (Z.of_nat j) (set_k_mem m' (with_cons cs' s1)) /\
       stored V addr (take j line) m' /\ confined V addr (Z.of_nat j) (k_mem s) m' /\
       (j = length line /\ cons_rep cs' (mk_term rest (t_edit r.1.1)) \/
        (j < length line)%nat /\ writable V (addr + Z.of_nat j) = false /\
          cons_rep cs' (mk_term (drop (S j) (t_avail r.1.1)) (t_edit r.1.1)))).
Proof using LO.
  intros Hu Hcur Hprp Hroot Hh Hf Hd Ha Hn Hb HR r.
  destruct (session_ok keys s t Hh Hf Hb HR Hd) as (cs1 & HR1 & E). fold r in HR1, E.
  set (s1 := set_k_procs r.2 (with_cons cs1 (sent r.1.2 s))) in *. exists s1.
  assert (Hu1 : uspace s1 l root T V np).
  { eapply uspace_same; [exact Hu|done..|]. change (k_held s1) with (k_held s). rewrite Hh. apply not_elem_of_nil. }
  assert (Hp1 : k_procs s1 !! pr = Some prp) by (by apply session_me).
  destruct (r.1.1) as [a e] eqn:Er. cbn [t_avail t_edit] in *. split_and!; [exact E|exact HR1|apply sent_thr| |].
  - intros -> H0. exact (consoleread_empty s1 l root T V np pr prp addr n e Hu1 Hcur Hp1 Hroot Hh Ha HR1 H0).
  - intros line rest Hl.
    destruct (consoleread_ok s1 l root T V np pr prp addr n e Hu1 Hcur Hp1 Hroot Hh Ha a line rest HR1 Hn Hl)
      as (j & cs' & m' & E' & _ & _ & Hst & Hcf & Hres). rewrite Z.add_0_r in *. by exists j, cs', m'.
Qed.
End Terminal.

(** ** "hi", a backspace, "!" and return *)

Definition some_keys : list Z := [104; 105; 127; 33; 13].

Lemma kstate_cons_rep : cons_rep (mk_console (replicate 128 0) 0 0 0) (mk_term [] []).
Proof.
  split; cbn -[replicate]; try done; try lia.
  - by apply Forall_replicate.
  - apply not_elem_of_nil.
Qed.

Lemma console_is_line_terminal_witness :
  exists s s1 s2, for_each some_keys consoleintr s = Ret tt s1 /\
    u_thr (k_uart s1) = [10; 33; 8; 32; 8; 105; 104] /\
    @consoleread 0%nat (DstUser 8) 10 s1 = Ret 3 s2.
Proof.
  destruct some_space as (_ & root & _ & _ & s & l & T & V & f & _ & Hu & Hf & HV).
  set (s0 := set_k_uart (mk_uart [] 0 0 [] [] []) (with_cons (mk_console (replicate 128 0) 0 0 0)
    (set_k_held [] (some_writer root new_pipe s)))).
  assert (Hu0 : @uspace kernel_sym s0 l root T V 1).
  { eapply uspace_same; [exact Hu|done..|apply not_elem_of_nil]. }
  destruct (@console_is_line_terminal 0%nat kernel_sym kernel_sym_ok s0 l root T V 1 0 (set_p_pagetable root zero_proc)
    8 10 some_keys (mk_term [] [])) as (s1 & E & _ & Ht & _ & Hrd); try done; try lia.
  - apply Forall_cons. split; [|apply Forall_replicate]; (split; [cbn; lia|by apply Forall_replicate]).
  - by apply (bool_decide_unpack _); vm_compute.
  - exact kstate_cons_rep.
  - assert (Hs : (session (k_cur s0) some_keys (mk_term [] []) (k_procs s0)).1 =
      (mk_term [104; 33; 10] [], [104; 105; 8; 32; 8; 33; 10])) by (vm_compute; reflexivity).
    rewrite Hs in Ht, Hrd. destruct (Hrd [104; 33; 10] [] eq_refl) as (j & cs' & m' & E' & _ & _ & Hj).
    exists s0, s1, (set_k_mem m' (with_cons cs' s1)). split_and!; [exact E|exact Ht|].
    destruct Hj as [[-> _]|(Hj & Hw & _)]; [exact E'|].
    cbn in Hj. rewrite (some_writable V f Hf HV) in Hw; [done|lia].
Defined.
