(* ===== verification/File.v ===== *)
(** kernel/file.c: open files, and pipealloc of kernel/pipe.c, which makes
    two of them. A [struct file *] is an index into the file table. *)

From stdpp Require Import base numbers list gmap strings.
From S2P Require Import Prelude Params Mem State Locks Cache Kalloc Vm Console Log Fs Pipe.

Definition nfile : nat := Z.to_nat NFILE.

Definition get_file (f : nat) : K file :=
  let! t := gets k_ftable in of_option (t !! f).

Definition upd_file (f : nat) (g : file -> file) : K unit :=
  let! x := get_file f in
  modify (fun s => set_k_ftable (<[f := g x]> (k_ftable s)) s).

Section File.
Context {W : Wakeups} {L : Layout} {C : BlockCache}.

Definition filealloc : K (option nat) :=
  acquire LkFtable ;;
  let! r := for_return (seq 0 nfile) (fun f =>
    let! x := get_file f in
    if f_ref x =? 0 then
      upd_file f (set_f_ref 1) ;;
      release LkFtable ;;
      ret (Some f)
    else ret None) in
  match r with
  | Some f => ret (Some f)
  | None => release LkFtable ;; ret None
  end.

Definition filedup (f : nat) : K nat :=
  acquire LkFtable ;;
  let! x := get_file f in
  if f_ref x <? 1 then panic "filedup"
  else
    upd_file f (fun x => set_f_ref (f_ref x + 1) x) ;;
    release LkFtable ;;
    ret f.

Definition fileclose (f : nat) : K unit :=
  acquire LkFtable ;;
  let! x := get_file f in
  if f_ref x <? 1 then panic "fileclose"
  else
    upd_file f (fun x => set_f_ref (f_ref x - 1) x) ;;
    let! ff := get_file f in
    if 0 <? f_ref ff then release LkFtable
    else
      upd_file f (set_f_ref 0) ;;
      upd_file f (set_f_type FD_NONE) ;;
      release LkFtable ;;
      match f_type ff with
      | FD_PIPE => pipeclose (f_pipe ff) (f_writable ff)
      | FD_INODE | FD_DEVICE =>
          begin_op ;;
          let! ip := of_option (f_ip ff) in
          iput ip ;;
          end_op
      | FD_NONE => ret tt
      end.

(** struct stat in memory: int dev; uint ino; short type; short nlink;
    (padding) uint64 size. *)
Definition stat_bytes (st : stat) : list Z :=
  le_bytes 4 (st_dev st) ++ le_bytes 4 (st_ino st) ++ le_bytes 2 (st_type st) ++
  le_bytes 2 (st_nlink st) ++ le_bytes 4 0 ++ le_bytes 8 (st_size st).

Definition filestat (f : nat) (addr : Z) : K Z :=
  let! x := get_file f in
  match f_type x with
  | FD_INODE | FD_DEVICE =>
      let! ip := of_option (f_ip x) in
      ilock ip ;;
      let! st := stati ip in
      iunlock ip ;;
      let! p := curproc in
      let! r := copyout (p_pagetable p) addr (stat_bytes st) in
      if r <? 0 then ret (-1) else ret 0
  | _ => ret (-1)
  end.

(** devsw: only the console is installed. *)
Definition devsw_read (major : Z) : option (kdst -> Z -> K Z) :=
  if major =? CONSOLE then Some consoleread else None.
Definition devsw_write (major : Z) : option (ksrc -> Z -> K Z) :=
  if major =? CONSOLE then Some consolewrite else None.

Definition fileread (f : nat) (addr n : Z) : K Z :=
  let! x := get_file f in
  if negb (f_readable x) then ret (-1)
  else
    match f_type x with
    | FD_PIPE => piperead (f_pipe x) addr n
    | FD_DEVICE =>
        if (f_major x <? 0) || (NDEV <=? f_major x) then ret (-1)
        else match devsw_read (f_major x) with
             | None => ret (-1)
             | Some read => read (DstUser addr) n
             end
    | FD_INODE =>
        let! ip := of_option (f_ip x) in
        ilock ip ;;
        let! x := get_file f in
        let! r := readi ip (DstUser addr) (f_off x) (u32 n) in
        when (0 <? r.1) (upd_file f (fun x => set_f_off (u32 (f_off x + r.1)) x)) ;;
        iunlock ip ;;
        ret r.1
    | FD_NONE => panic "fileread"
    end.

(** The bytes filewrite writes in one transaction. *)
Definition filewrite_max : Z := (MAXOPBLOCKS - 1 - 1 - 2) / 2 * BSIZE.

(** One round of filewrite's loop: a transaction of its own. *)
Definition filewrite_round (f ip : nat) (addr n : Z) : Z -> K (Z + Z) := fun i =>
  if i <? n then
    let n1 := Z.min (n - i) filewrite_max in
    begin_op ;;
    ilock ip ;;
    let! x := get_file f in
    let! r := writei ip (SrcUser (u64 (addr + i))) (f_off x) n1 in
    when (0 <? r) (upd_file f (fun x => set_f_off (u32 (f_off x + r)) x)) ;;
    iunlock ip ;;
    end_op ;;
    if negb (r =? n1) then ret (inr i)   (* error from writei *)
    else ret (inl (i + r))
  else ret (inr i).

Definition filewrite (f : nat) (addr n : Z) : K Z :=
  let! x := get_file f in
  if negb (f_writable x) then ret (-1)
  else
    match f_type x with
    | FD_PIPE => pipewrite (f_pipe x) addr n
    | FD_DEVICE =>
        if (f_major x <? 0) || (NDEV <=? f_major x) then ret (-1)
        else match devsw_write (f_major x) with
             | None => ret (-1)
             | Some write => write (SrcUser addr) n
             end
    | FD_INODE =>
        let! ip := of_option (f_ip x) in
        let! i := loop (Z.to_nat (n / filewrite_max) + 2) (filewrite_round f ip addr n) 0 in
        ret (if i =? n then n else -1)
    | FD_NONE => panic "filewrite"
    end.

(** ** pipe.c: pipealloc *)

(** The two files, read end first; None where the code returns -1. *)
Definition pipealloc : K (option (nat * nat)) :=
  let bad (pi : Z) (f0 f1 : option nat) : K (option (nat * nat)) :=
    when (negb (pi =? 0)) (kfree pi) ;;
    match f0 with Some f => fileclose f | None => ret tt end ;;
    match f1 with Some f => fileclose f | None => ret tt end ;;
    ret None in
  let! f0 := filealloc in
  match f0 with
  | None => bad 0 None None
  | Some r =>
      let! f1 := filealloc in
      match f1 with
      | None => bad 0 f0 None
      | Some w =>
          let! pi := kalloc in
          if pi =? 0 then bad 0 f0 f1
          else
            modify (fun s => set_k_pipes (<[pi := new_pipe]> (k_pipes s)) s) ;;
            upd_file r (fun x => set_f_pipe pi (set_f_writable false
              (set_f_readable true (set_f_type FD_PIPE x)))) ;;
            upd_file w (fun x => set_f_pipe pi (set_f_writable true
              (set_f_readable false (set_f_type FD_PIPE x)))) ;;
            ret (Some (r, w))
      end
  end.
End File.
