(* ===== verification/FsFile.v ===== *)
(** write on a file, kernel/file.c's filewrite over fs.c and log.c: the whole
    system call is one transaction, and a crash leaves the file system as it
    was before the call or as it is after it. *)

From stdpp Require Import base numbers list gmap strings.
From S2P Require Import Prelude Params Mem State Locks Cache Kalloc Vm Console Log Fs FsTx FsBlocks FsInode FsBmap FsWrite FsLock Pipe File.

Implicit Types (V : Z -> list Z) (H : gmap Z nat) (bl : list Z) (sb : superblock) (n : inode).

(** The state with inode [ip] and file [f] replaced. *)
Definition with_file (f : nat) (x : file) (s : kstate) : kstate := set_k_ftable (<[f := x]> (k_ftable s)) s.

Section FileWrite.
Context {W : Wakeups} {L : Layout} {C : BlockCache} (pid start size_ : Z).
Context (Hgeo : geometry start size_).
Context (sb : superblock) (Hlay : fs_layout start size_ sb).
Notation intx := (intx pid start size_).

Lemma intx_ftable o s0 V bl H s t :
  intx o s0 V bl H s -> intx o (set_k_ftable t s0) V bl H (set_k_ftable t s).
Proof using Type.
  intros [Hh (lg & [Hi Hd Hl (bs & d' & ps & lg' & Hw & ->)] & Hr) Hb Hhd].
  split; [done| |done|done]. exists lg. split; [|done]. split; ks; [|done|done|].
  - by eapply cache_frame.
  - exists bs, d', ps, lg'. split; [done|]. by destruct s0.
Qed.

Lemma wp_tx_get_file o s0 V bl H s f x (Q : file -> kstate -> Prop) :
  intx o s0 V bl H s -> k_ftable s0 !! f = Some x -> Q x s -> wp (get_file f) Q s.
Proof using Type.
  intros Ht Hx HQ. unfold get_file. wp_steps. eapply wp_of_option; [|done].
  destruct (intx_rest _ _ _ _ _ _ _ _ _ Ht) as (_ & _ & _ & _ & _ & _ & ->). done.
Qed.

Lemma wp_tx_upd_file o s0 V bl H s f x g (Q : unit -> kstate -> Prop) :
  intx o s0 V bl H s -> k_ftable s0 !! f = Some x ->
  (forall s', intx o (with_file f (g x) s0) V bl H s' -> Q tt s') ->
  wp (upd_file f g) Q s.
Proof using Type.
  intros Ht Hx HQ. unfold upd_file. apply wp_bind. eapply wp_tx_get_file; [done..|].
  wp_steps. apply HQ. destruct (intx_rest _ _ _ _ _ _ _ _ _ Ht) as (_ & _ & _ & _ & _ & _ & ->). by apply intx_ftable.
Qed.

(** The lock of an inode is no part of the file. *)
Lemma file_wf_lock V n l : file_wf sb V n -> file_wf sb V (set_i_lock l n).
Proof using Type. intros [[F1 F2 F3 F4 F5 F6] [I1 I2 I3 I4 I5 I6 I7] [N1 N2] S M]. repeat (split; try done). Qed.

Lemma written_lock V n off bytes V' n' l l' :
  written sb V (set_i_lock l n) off bytes V' n' -> i_lock n = l' ->
  written sb V n off bytes V' (set_i_lock l' n').
Proof using Type.
  intros [A1 A2 A3 A4 A5 A6 A7 A8] El. split; try done.
  - rewrite A1, <- El. by destruct n.
  - by apply file_wf_lock.
Qed.

(** What the state before a system call needs for [filewrite f addr len] of
    [bytes] to succeed. *)
Record can_write V (s : kstate) (f : nat) (x : file) (ip : nat) n (addr : Z) (bytes : list Z) : Prop := {
  cw_quiet : quiescent start size_ pid V s;
  cw_sb : k_sb s = sb;
  cw_meta : meta_used sb V;
  cw_file : k_ftable s !! f = Some x;
  cw_writable : f_writable x = true;
  cw_type : f_type x = FD_INODE;
  cw_ip : f_ip x = Some ip;
  cw_inode : k_itable s !! ip = Some n;
  cw_ref : 1 <= i_ref n;
  cw_lock : i_lock n = mk_sleeplock false 0;
  cw_valid : i_valid n = true;
  cw_wf : file_wf sb V n;
  cw_src : src_gives s (SrcUser addr) bytes;
  cw_bytes : is_bytes bytes;
  cw_len : 0 < Z.of_nat (length bytes) <= filewrite_max;
  cw_off : 0 <= f_off x <= i_size n;
  cw_max : f_off x + Z.of_nat (length bytes) <= MAXFILE * BSIZE;
  cw_free : has_free sb V 8;
  cw_log : 26 < size_;
}.

(** What the call does. *)
Definition file_written V s f x ip n (bytes : list Z) (s' : kstate) : Prop :=
  exists V1 n' V' ws,
    written sb V n (f_off x) bytes V1 n' /\
    quiescent start size_ pid V' s' /\
    (forall b, ~ in_log start size_ b -> V' b = V1 b /\ dblk (k_disk s') b = V1 b) /\
    k_itable s' = <[ip := n']> (k_itable s) /\
    k_ftable s' = <[f := set_f_off (f_off x + Z.of_nat (length bytes)) x]> (k_ftable s) /\
    k_disk s' = writes ws (k_disk s) /\ crash_atomic start size_ V V1 (k_disk s) ws.

Lemma wp_filewrite_round V s f x ip n addr bytes (Q : Z + Z -> kstate -> Prop) :
  can_write V s f x ip n addr bytes ->
  (forall s', file_written V s f x ip n bytes s' -> Q (inl (Z.of_nat (length bytes))) s') ->
  wp (filewrite_round f ip addr (Z.of_nat (length bytes)) 0) Q s.
Proof using Hgeo Hlay.
  intros [Hq Hsb Hm Hx Hxw Hxt Hxi Hn Hr Hl Hv Hwf Hsrc Hby Hlen Hoff Hmax Hfr Hlog] HQ.
  unfold filewrite_round. destruct (Z.ltb_spec 0 (Z.of_nat (length bytes))); [|lia].
  rewrite Z.sub_0_r, Z.min_l by lia. apply wp_bind. eapply (wp_tx_begin _ _ _ Hgeo); [exact Hq|]. intros s1 Ht1.
  apply wp_bind. eapply wp_ilock_valid; [exact Ht1|done|done|by rewrite Hl|done|]. intros s2 Ht2.
  set (nl := locked_by pid n) in *. set (sl := with_inode ip nl s) in *.
  assert (Hnl : k_itable sl !! ip = Some nl) by (by eapply with_inode_lookup).
  apply wp_bind. eapply wp_tx_get_file; [exact Ht2|exact Hx|]. apply wp_bind.
  assert (Hk : (fspan (f_off x) (Z.of_nat (length bytes)) <= 4)%nat).
  { unfold fspan. destruct (Z.leb_spec (Z.of_nat (length bytes)) 0); [lia|].
    change filewrite_max with 3072 in Hlen. plia. }
  assert (Esrc : SrcUser (u64 (addr + 0)) = SrcUser addr) by apply Hsrc.
  rewrite Esrc. eapply (wp_writei _ _ _ Hgeo sb Hlay); [exact Ht2|done|done|done|exact Hnl|by apply file_wf_lock|
    by apply src_gives_with_inode|done|done|done| |simpl; lia|].
  { eapply has_free_le, Hfr. lia. }
  intros V1 n1 bl1 s3 Hw Hl1 Ht3. unfold sl in Ht3. rewrite with_inode_twice in Ht3.
  destruct (Z.ltb_spec 0 (Z.of_nat (length bytes))); [|lia]. apply wp_bind, wp_when.
  eapply wp_tx_upd_file; [exact Ht3|exact Hx|]. intros s4 Ht4.
  rewrite u32_small in Ht4 by plia.
  set (x' := set_f_off (f_off x + Z.of_nat (length bytes)) x) in *.
  assert (Hn1 : k_itable (with_file f x' (with_inode ip n1 s)) !! ip = Some n1) by (by eapply with_inode_lookup).
  apply wp_bind. eapply wp_iunlock; [exact Ht4|exact Hn1| | |].
  { rewrite (wn_fields _ _ _ _ _ _ _ Hw). done. }
  { by rewrite (wn_fields _ _ _ _ _ _ _ Hw). }
  intros s5 Ht5. apply wp_bind. eapply (wp_tx_end _ _ _ Hgeo _ V); [exact Ht5| |].
  { destruct Hq as (_ & Hc & _). intros b. split; [|by eapply cache_block].
    change (k_disk (with_inode ip (unlocked n1) (with_file f x' (with_inode ip n1 s)))) with (k_disk s).
    eapply cache_clean; [exact Hc|set_solver|apply lookup_empty]. }
  intros s6 V' ws Hq' HV' Hd' Hca Hfrm. destruct (Z.eqb_spec (Z.of_nat (length bytes)) (Z.of_nat (length bytes))); [|done].
  apply wp_ret, HQ. destruct Hfrm as (bs & d & ps & lg & _ & ->).
  exists V1, (unlocked n1), V', ws. split_and!; try done.
  - eapply written_lock; [exact Hw|done].
  - unfold with_inode, with_file. ks. by rewrite list_insert_insert_eq.
Qed.

(** C2. write on a file, filewrite with at most one transaction's worth of
    bytes ([filewrite_max], 3072; a longer write is several transactions, and
    a crash can come between them), from a state where no system call is in progress: it returns the
    number of bytes; the file then has them (in the sense of [written]), its
    offset has advanced, everything is on disk and no system call is in
    progress; and whatever prefix of the call's disk writes a crash cuts off,
    recovery finds the contents before the call or those after it. *)
Theorem filewrite_crash_atomic V s f x ip n addr bytes :
  can_write V s f x ip n addr bytes ->
  exists s', filewrite f addr (Z.of_nat (length bytes)) s = Ret (Z.of_nat (length bytes)) s' /\
    file_written V s f x ip n bytes s'.
Proof using Hgeo Hlay.
  intros Hcw. assert (Hwp : wp (filewrite f addr (Z.of_nat (length bytes)))
    (fun r s' => r = Z.of_nat (length bytes) /\ file_written V s f x ip n bytes s') s).
  { unfold filewrite. apply wp_bind.
    assert (Hget : wp (get_file f) (fun y s1 => y = x /\ s1 = s) s).
    { unfold get_file. wp_steps. eapply wp_of_option; [apply Hcw|done]. }
    eapply wp_mono; [exact Hget|]. intros y s1 [-> ->].
    rewrite (cw_writable _ _ _ _ _ _ _ _ Hcw), (cw_type _ _ _ _ _ _ _ _ Hcw). cbn [negb].
    apply wp_bind. eapply wp_of_option; [apply Hcw|]. apply wp_bind.
    replace (Z.to_nat (Z.of_nat (length bytes) / filewrite_max) + 2)%nat
      with (S (S (Z.to_nat (Z.of_nat (length bytes) / filewrite_max)))) by lia.
    apply wp_loop. eapply wp_filewrite_round; [exact Hcw|]. intros s2 Hfw.
    apply wp_loop. unfold filewrite_round. rewrite Z.ltb_irrefl. apply wp_ret. apply wp_ret.
    by rewrite Z.eqb_refl. }
  apply wp_run in Hwp as (r & s' & E & -> & Hf). by exists s'.
Qed.
End FileWrite.
