(* ===== verification/FsExamples.v ===== *)
(** Examples for the file-system properties: an empty file on the image of
    FsBoot, written to from kernel and from user memory. *)

From stdpp Require Import base numbers list gmap strings.
From S2P Require Import Prelude Params Mem State Locks Cache Kalloc Bio Vm Pagetable Uvm Ucopy Console Log LogBio Fs Itable FsTx FsBlocks FsBoot FsInode FsBmap FsWrite FsLock FsDir Pipe File FsFile.

#[local] Instance ex_layout : Layout := kernel_sym.

(** An empty file, inode 2, in use by one descriptor. *)
Definition empty_file : inode :=
  mk_inode ROOTDEV 2 1 (mk_sleeplock false 0) true T_FILE 0 0 1 0 (replicate 13 0).

Lemma empty_file_fblk V bn : 0 <= bn < MAXFILE -> fblk V empty_file bn = 0.
Proof.
  intros Hbn. unfold fblk. destruct (Z.ltb_spec bn NDIRECT); [|done].
  unfold addr_at. cbn [empty_file i_addrs]. destruct (replicate 13 0 !! Z.to_nat bn) eqn:E; [|done].
  by apply lookup_replicate in E as [-> _].
Qed.

Lemma empty_file_wf V : file_wf mkfs_sb V empty_file.
Proof.
  split; [split| | | |].
  - done.
  - done.
  - intros bn Hbn. left. by apply empty_file_fblk.
  - by left.
  - intros x y Hx Hy Hne. by rewrite empty_file_fblk in Hne.
  - intros bn Hbn Hne. by rewrite empty_file_fblk in Hne.
  - split; try done. by apply Forall_replicate.
  - by vm_compute.
  - cbn. plia.
  - intros x Hx. cbn in Hx. lia.
Qed.

Lemma image_free V k : V 45 = image_bitmap -> (k <= 100)%nat -> has_free mkfs_sb V k.
Proof.
  intros HV Hk. exists (seqZ 46 100). split_and!; [apply NoDup_seqZ|by rewrite length_seqZ|].
  apply Forall_forall. intros b Hb%elem_of_seqZ. split; [simpl; plia|].
  rewrite image_used by (done || plia). apply Z.ltb_ge. lia.
Qed.

Lemma writei_then_readi_witness :
  exists s s', writei 0 (SrcLocal [104; 105; 33]) 0 3 s = Ret 3 s'.
Proof.
  destruct (image_begins ∅ [empty_file] (map_Forall_empty _) (lookup_empty 2))
    as (s0 & s & V & Ht & Hsb & Hit & H45 & _).
  destruct (writei_then_readi 1 2 LOGSIZE mkfs_geometry mkfs_sb image_layout 1 s0 V [] s 0 empty_file
    (SrcLocal [104; 105; 33]) 0 [104; 105; 33]) as (V' & n' & bl' & s' & s'' & E & _).
  - exact Ht.
  - lia.
  - exact Hsb.
  - by apply image_meta.
  - by rewrite Hit.
  - apply empty_file_wf.
  - apply src_gives_local.
  - repeat constructor; lia.
  - simpl. lia.
  - simpl. plia.
  - apply image_free; [done|]. vm_compute. lia.
  - by vm_compute.
  - by exists s, s'.
Defined.

Lemma inode_disk_roundtrip_witness :
  exists s s', iupdate 0 s = Ret tt s'.
Proof.
  destruct (image_begins ∅ [empty_file] (map_Forall_empty _) (lookup_empty 2))
    as (s0 & s & V & Ht & Hsb & Hit & H45 & _).
  destruct (inode_disk_roundtrip 1 2 LOGSIZE mkfs_geometry mkfs_sb 1 s0 V [] s 0 empty_file) as [(s' & E & _) _].
  - exact image_layout.
  - exact Ht.
  - lia.
  - exact Hsb.
  - by rewrite Hit.
  - reflexivity.
  - apply (empty_file_wf V).
  - apply (empty_file_wf V).
  - discriminate.
  - by vm_compute.
  - by exists s, s'.
Defined.

Lemma file_bounds_witness :
  exists s, writei 0 (SrcLocal [104]) 1 1 s = Ret (-1) s.
Proof.
  set (s := set_k_itable [empty_file] (kstate0 ∅ empty_disk)).
  destruct (file_bounds s 0 empty_file (SrcLocal [104]) DstLocal 1 1) as [H _].
  - reflexivity.
  - lia.
  - lia.
  - exists s. apply H. left. simpl. lia.
Defined.

(** The booted kernel, its process with one page of memory and an open,
    empty file. *)
Definition open_file : file := mk_file FD_INODE 1 false true 0 (Some 0%nat) 0 0.

(** bio.c's cache does not look at a process but for its pid. *)
Lemma quiescent_proc V s c p p' m fl ft :
  quiescent 2 LOGSIZE 1 V s -> k_cur s = Some c -> k_procs s !! c = Some p -> p_pid p' = 1 ->
  quiescent 2 LOGSIZE 1 V
    (set_k_mem m (set_k_freelist fl (set_k_ftable ft (set_k_procs (<[c := p']> (k_procs s)) s)))).
Proof.
  intros (Hh & [Hl Hb Hf Hp] & Hid) Hc Hpc Hpid. split; [done|]. split; [|done]. split; [done|done| |].
  - unfold procs_full in *. ks. by rewrite length_insert.
  - exists c, p'. ks. split_and!; [done| |done]. apply list_lookup_insert_eq. by eapply lookup_lt_Some.
Qed.

Lemma user_boots :
  exists s V bytes, length bytes = 3%nat /\
    can_write 1 2 LOGSIZE mkfs_sb V s 0 open_file 0 empty_file 0x800 bytes.
Proof.
  destruct some_space as (_ & root & _ & _ & su & l & T & U & pg & _ & Hu & Hpg & HU).
  destruct (image_boots ∅ [empty_file] (map_Forall_empty _) (lookup_empty 2)) as (s & V & Hq & Hsb & Hit & HV).
  assert (H45 : V 45 = image_bitmap) by (rewrite HV by done; by unfold dblk, image; cbn [d_blocks]; rewrite lookup_insert_eq).
  pose proof Hq as (Hh & Hc & _). destruct (cache_procs _ _ _ _ _ Hc) as [_ (c & p & Hcur & Hp & Hpid)].
  pose (s1 := set_k_mem (k_mem su) (set_k_freelist (k_freelist su) (set_k_ftable [open_file]
    (set_k_procs (<[c := set_p_pagetable root p]> (k_procs s)) s)))).
  assert (Hq1 : quiescent 2 LOGSIZE 1 V s1) by (by apply (quiescent_proc V s c p)).
  assert (Hu1 : uspace s1 l root T U 1).
  { eapply uspace_same; [exact Hu|done|done|]. change (k_held s1) with (k_held s). rewrite Hh. apply not_elem_of_nil. }
  assert (Hsrc : src_gives s1 (SrcUser 0x800) (ubytes U (k_mem s1) 0x800 3)).
  { eapply (@src_gives_user _ kernel_sym_ok s1 l T U 1 c (set_p_pagetable root p)); try done.
    - unfold s1. ks. apply list_lookup_insert_eq. by eapply lookup_lt_Some.
    - intros x Hx. apply writable_readable. apply (some_writable U pg Hpg HU). lia. }
  exists s1, V, (ubytes U (k_mem s1) 0x800 3). split; [done|]. split; try done.
  - by apply image_meta.
  - change (k_itable s1) with (k_itable s). by rewrite Hit.
  - apply empty_file_wf.
  - apply Forall_forall. intros b Hb. unfold ubytes in Hb. apply list_elem_of_fmap in Hb as (i & -> & _).
    apply rd_range.
  - apply image_free; [done|lia].
Qed.

Lemma filewrite_crash_atomic_witness :
  exists s s', filewrite 0 0x800 3 s = Ret 3 s'.
Proof.
  destruct user_boots as (s & V & bytes & Hl & Hcw).
  destruct (filewrite_crash_atomic 1 2 LOGSIZE mkfs_geometry mkfs_sb image_layout V s 0 open_file 0 empty_file 0x800 bytes)
    as (s' & E & _).
  - exact Hcw.
  - rewrite Hl in E. by exists s, s'.
Defined.

(** ** Directories *)

(** An empty directory, inode 1, at entry 0 of the table. *)
Definition empty_dir : inode := set_i_type T_DIR (set_i_inum 1 empty_file).
Definition dir_table : list inode := <[0%nat := empty_dir]> (replicate ninode zero_inode).

Lemma empty_dir_ok V : dir_ok mkfs_sb V empty_dir.
Proof.
  pose proof (empty_file_wf V) as [F [I1 I2 I3 I4 I5 I6 I7] _ S M]. split; [|done|done]. split; try done.
  by destruct F.
Qed.

Lemma dir_table_ok : itable_ok dir_table /\ Exists (fun m => i_ref m = 0) dir_table.
Proof.
  split.
  - assert (H0 : itable_ok (replicate ninode zero_inode)).
    { split; [done|by apply Forall_replicate|]. intros i j n m Hn _ Hr. apply lookup_replicate in Hn as [-> _]. cbn in Hr. lia. }
    eapply itable_ok_insert; [done|done|cbn; lia|].
    intros j k Hk _ Hr. apply lookup_replicate in Hk as [-> _]. cbn in Hr. lia.
  - apply Exists_exists. exists zero_inode. split; [|done]. apply list_elem_of_lookup. by exists 1%nat.
Qed.

Lemma dirlookup_is_map_lookup_witness :
  exists s s', dirlookup 0 [97] s = Ret None s'.
Proof.
  destruct (image_begins ∅ dir_table (map_Forall_empty _) (lookup_empty 2)) as (s0 & s & V & Ht & Hsb & Hit & H45 & _).
  pose proof (dirlookup_is_map_lookup 1 2 LOGSIZE mkfs_sb 1 s0 V [] s 0 empty_dir [97]) as H.
  destruct H as (s' & E & _).
  - exact Ht.
  - by rewrite Hit.
  - apply empty_dir_ok.
  - vm_compute; lia.
  - rewrite Hit. apply dir_table_ok.
  - rewrite Hit. apply dir_table_ok.
  - by exists s, s'.
Defined.

Lemma dirlink_is_map_insert_witness :
  exists s s', dirlink 0 [97] 7 s = Ret 0 s'.
Proof.
  destruct (image_begins ∅ dir_table (map_Forall_empty _) (lookup_empty 2)) as (s0 & s & V & Ht & Hsb & Hit & H45 & _).
  pose proof (dirlink_is_map_insert 1 2 LOGSIZE mkfs_geometry mkfs_sb image_layout 1 s0 V [] s 0 empty_dir [97] 7) as H.
  destruct H as (V' & n' & bl' & s' & E & _).
  - exact Ht.
  - lia.
  - exact Hsb.
  - by apply image_meta.
  - by rewrite Hit.
  - apply empty_dir_ok.
  - simpl. plia.
  - repeat constructor; lia.
  - lia.
  - rewrite Hit. apply dir_table_ok.
  - rewrite Hit. apply dir_table_ok.
  - by apply image_free; [|lia].
  - by vm_compute.
  - by exists s, s'.
Defined.
