(* ===== verification/Proc.v ===== *)
(** kernel/proc.c: processes: allocation, fork, exit, wait, kill and the
    scheduler's side of a context switch. (sleep, wakeup, sched, killed and
    setkilled are in Locks.v; either_copyout and either_copyin in Vm.v;
    procdump in Console.v; proc_mapstacks in Vm.v.)

    A trapframe is a page of physical memory, its fields 64-bit words at the
    offsets of [struct trapframe]. *)

From stdpp Require Import base numbers list gmap strings.
From S2P Require Import Prelude Params Mem KString State Locks Cache Kalloc Vm Console Log Fs Pipe File.

(** ** Trapframes *)

Definition sizeof_trapframe : Z := 288.
Definition tf_kernel_satp : Z := 0.
Definition tf_kernel_sp : Z := 8.
Definition tf_kernel_trap : Z := 16.
Definition tf_epc : Z := 24.
Definition tf_kernel_hartid : Z := 32.
Definition tf_sp : Z := 48.
Definition tf_a0 : Z := 112.
Definition tf_a1 : Z := 120.
Definition tf_a7 : Z := 168.

(** safestrcpy(dst, src, n) between char arrays. *)
Definition safestrcpy_bytes (dst src : list Z) (n : nat) : list Z :=
  put_at dst 0 (cstr (take (n - 1) src) ++ [0]).

Section Proc.
Context {W : Wakeups} {L : Layout} {C : BlockCache}.

(** ** The process table *)

Definition procinit : K unit :=
  for_each proc_indices (fun i =>
    upd_proc i (set_p_state UNUSED) ;;
    upd_proc i (set_p_kstack (KSTACK (Z.of_nat i)))).

Definition allocpid : K Z :=
  acquire LkPid ;;
  let! pid := gets k_nextpid in
  modify (set_k_nextpid (s32 (pid + 1))) ;;
  release LkPid ;;
  ret pid.

Definition proc_pagetable (p : nat) : K Z :=
  (* An empty page table. *)
  let! pagetable := uvmcreate in
  if pagetable =? 0 then ret 0
  else
    (* map the trampoline code at the highest user virtual address. *)
    let! r := mappages pagetable TRAMPOLINE PGSIZE trampoline (Z.lor PTE_R PTE_X) in
    if r <? 0 then uvmfree pagetable 0 ;; ret 0
    else
      (* map the trapframe page just below the trampoline page *)
      let! pp := get_proc p in
      let! r := mappages pagetable TRAPFRAME PGSIZE (p_trapframe pp) (Z.lor PTE_R PTE_W) in
      if r <? 0 then
        uvmunmap pagetable TRAMPOLINE 1 false ;;
        uvmfree pagetable 0 ;;
        ret 0
      else ret pagetable.

Definition proc_freepagetable (pagetable sz : Z) : K unit :=
  uvmunmap pagetable TRAMPOLINE 1 false ;;
  uvmunmap pagetable TRAPFRAME 1 false ;;
  uvmfree pagetable sz.

Definition freeproc (p : nat) : K unit :=
  let! pp := get_proc p in
  when (negb (p_trapframe pp =? 0)) (kfree (p_trapframe pp)) ;;
  upd_proc p (set_p_trapframe 0) ;;
  when (negb (p_pagetable pp =? 0)) (proc_freepagetable (p_pagetable pp) (p_sz pp)) ;;
  upd_proc p (set_p_pagetable 0) ;;
  upd_proc p (set_p_sz 0) ;;
  upd_proc p (set_p_pid 0) ;;
  upd_proc p (set_p_parent None) ;;
  upd_proc p (fun x => set_p_name (<[0%nat := 0]> (p_name x)) x) ;;
  upd_proc p (set_p_chan None) ;;
  upd_proc p (set_p_killed false) ;;
  upd_proc p (set_p_xstate 0) ;;
  upd_proc p (set_p_state UNUSED).

(** Returns with the new process's lock held. *)
Definition allocproc : K (option nat) :=
  let! r := for_return proc_indices (fun p =>
    acquire (LkProc p) ;;
    let! pp := get_proc p in
    if decide (p_state pp = UNUSED) then ret (Some p)
    else release (LkProc p) ;; ret None) in
  match r with
  | None => ret None
  | Some p =>
      let! pid := allocpid in
      upd_proc p (set_p_pid pid) ;;
      upd_proc p (set_p_state USED) ;;
      (* Allocate a trapframe page. *)
      let! tf := kalloc in
      upd_proc p (set_p_trapframe tf) ;;
      if tf =? 0 then
        freeproc p ;;
        release (LkProc p) ;;
        ret None
      else
        (* An empty user page table. *)
        let! pt := proc_pagetable p in
        upd_proc p (set_p_pagetable pt) ;;
        if pt =? 0 then
          freeproc p ;;
          release (LkProc p) ;;
          ret None
        else
          (* Set up new context to start executing at forkret *)
          upd_proc p (fun x => set_p_context
            (mk_context forkret_addr (p_kstack x + PGSIZE) (replicate 12 0)) x) ;;
          ret (Some p)
  end.

Definition initcode : list Z := [
  0x17; 0x05; 0x00; 0x00; 0x13; 0x05; 0x45; 0x02;
  0x97; 0x05; 0x00; 0x00; 0x93; 0x85; 0x35; 0x02;
  0x93; 0x08; 0x70; 0x00; 0x73; 0x00; 0x00; 0x00;
  0x93; 0x08; 0x20; 0x00; 0x73; 0x00; 0x00; 0x00;
  0xef; 0xf0; 0x9f; 0xff; 0x2f; 0x69; 0x6e; 0x69;
  0x74; 0x00; 0x00; 0x24; 0x00; 0x00; 0x00; 0x00;
  0x00; 0x00; 0x00; 0x00].

Definition userinit : K unit :=
  let! o := allocproc in
  modify (set_k_initproc o) ;;
  let! p := of_option o in
  let! pp := get_proc p in
  (* allocate one user page and copy initcode's instructions into it. *)
  uvmfirst (p_pagetable pp) initcode (Z.of_nat (length initcode)) ;;
  upd_proc p (set_p_sz PGSIZE) ;;
  (* prepare for the very first "return" from kernel to user. *)
  store64 (p_trapframe pp + tf_epc) 0 ;;
  store64 (p_trapframe pp + tf_sp) PGSIZE ;;
  upd_proc p (fun x => set_p_name (safestrcpy_bytes (p_name x) (bytes_of "initcode") 16) x) ;;
  let! cwd := namei (bytes_of "/") in
  upd_proc p (set_p_cwd cwd) ;;
  upd_proc p (set_p_state RUNNABLE) ;;
  release (LkProc p).

Definition growproc (n : Z) : K Z :=
  let! i := me in
  let! p := get_proc i in
  let sz := p_sz p in
  if 0 <? n then
    let! sz := uvmalloc (p_pagetable p) sz (u64 (sz + n)) PTE_W in
    if sz =? 0 then ret (-1)
    else upd_proc i (set_p_sz sz) ;; ret 0
  else if n <? 0 then
    let! sz := uvmdealloc (p_pagetable p) sz (u64 (sz + n)) in
    upd_proc i (set_p_sz sz) ;; ret 0
  else upd_proc i (set_p_sz sz) ;; ret 0.

(** ** fork, exit, wait *)

Definition nofile : nat := Z.to_nat NOFILE.

Definition get_ofile (p fd : nat) : K (option nat) :=
  let! pp := get_proc p in of_option (p_ofile pp !! fd).
Definition set_ofile (p fd : nat) (f : option nat) : K unit :=
  upd_proc p (fun x => set_p_ofile (<[fd := f]> (p_ofile x)) x).

Definition fork : K Z :=
  let! p := me in
  (* Allocate process. *)
  let! o := allocproc in
  match o with
  | None => ret (-1)
  | Some np =>
      let! pp := get_proc p in
      let! npp := get_proc np in
      (* Copy user memory from parent to child. *)
      let! r := uvmcopy (p_pagetable pp) (p_pagetable npp) (p_sz pp) in
      if r <? 0 then
        freeproc np ;;
        release (LkProc np) ;;
        ret (-1)
      else
        upd_proc np (set_p_sz (p_sz pp)) ;;
        (* copy saved user registers. *)
        mem_move (p_trapframe npp) (p_trapframe pp) sizeof_trapframe ;;
        (* Cause fork to return 0 in the child. *)
        store64 (p_trapframe npp + tf_a0) 0 ;;
        (* increment reference counts on open file descriptors. *)
        for_each (seq 0 nofile) (fun i =>
          let! f := get_ofile p i in
          match f with
          | None => ret tt
          | Some f => let! f' := filedup f in set_ofile np i (Some f')
          end) ;;
        let! cwd := of_option (p_cwd pp) in
        let! cwd := idup cwd in
        upd_proc np (set_p_cwd (Some cwd)) ;;
        upd_proc np (fun x => set_p_name (safestrcpy_bytes (p_name x) (p_name pp) 16) x) ;;
        let! npp := get_proc np in
        let pid := p_pid npp in
        release (LkProc np) ;;
        acquire LkWait ;;
        upd_proc np (set_p_parent (Some p)) ;;
        release LkWait ;;
        acquire (LkProc np) ;;
        upd_proc np (set_p_state RUNNABLE) ;;
        release (LkProc np) ;;
        ret pid
  end.

(** Pass p's abandoned children to init. *)
Definition reparent (p : nat) : K unit :=
  for_each proc_indices (fun pp =>
    let! x := get_proc pp in
    if decide (p_parent x = Some p) then
      let! init := gets k_initproc in
      upd_proc pp (set_p_parent init) ;;
      let! i := of_option init in
      wakeup (ChProc i)
    else ret tt).

Definition exit (status : Z) : K unit :=
  let! p := me in
  let! init := gets k_initproc in
  if decide (init = Some p) then panic "init exiting"
  else
    (* Close all open files. *)
    for_each (seq 0 nofile) (fun fd =>
      let! f := get_ofile p fd in
      match f with
      | None => ret tt
      | Some f => fileclose f ;; set_ofile p fd None
      end) ;;
    begin_op ;;
    let! pp := get_proc p in
    let! cwd := of_option (p_cwd pp) in
    iput cwd ;;
    end_op ;;
    upd_proc p (set_p_cwd None) ;;
    acquire LkWait ;;
    (* Give any children to init. *)
    reparent p ;;
    (* Parent might be sleeping in wait(). *)
    let! pp := get_proc p in
    let! parent := of_option (p_parent pp) in
    wakeup (ChProc parent) ;;
    acquire (LkProc p) ;;
    upd_proc p (set_p_xstate status) ;;
    upd_proc p (set_p_state ZOMBIE) ;;
    release LkWait ;;
    (* Jump into the scheduler, never to return. *)
    sched ;;
    panic "zombie exit".

(** The scan of wait: the result of the call, or whether there are
    children. *)
Fixpoint wait_scan (l : list nat) (p : nat) (addr : Z) (havekids : bool) : K (Z + bool) :=
  match l with
  | [] => ret (inr havekids)
  | pp :: l' =>
      let! x := get_proc pp in
      if decide (p_parent x = Some p) then
        (* make sure the child isn't still in exit() or swtch(). *)
        acquire (LkProc pp) ;;
        let! x := get_proc pp in
        if decide (p_state x = ZOMBIE) then
          (* Found one. *)
          let pid := p_pid x in
          let! par := get_proc p in
          let! r := (if addr =? 0 then ret 0
                     else copyout (p_pagetable par) addr (le_bytes 4 (p_xstate x))) in
          if r <? 0 then
            release (LkProc pp) ;;
            release LkWait ;;
            ret (inl (-1))
          else
            freeproc pp ;;
            release (LkProc pp) ;;
            release LkWait ;;
            ret (inl pid)
        else
          release (LkProc pp) ;;
          wait_scan l' p addr true
      else wait_scan l' p addr havekids
  end.

(** One round of the loop of wait. *)
Definition wait_round (p : nat) (addr : Z) (_ : unit) : K (unit + Z) :=
  let! r := wait_scan proc_indices p addr false in
  match r with
  | inl pid => ret (inr pid)
  | inr havekids =>
      (* No point waiting if we don't have any children. *)
      let! k := (if havekids then killed p else ret true) in
      if k then release LkWait ;; ret (inr (-1))
      else
        (* Wait for a child to exit. *)
        sleep (ChProc p) LkWait ;;
        ret (inl tt)
  end.

Definition wait (addr : Z) : K Z :=
  let! p := me in
  acquire LkWait ;;
  loop (S wakeups) (wait_round p addr) tt.

(** ** Scheduling *)

(** Give up the CPU for one scheduling round. *)
Definition yield : K unit :=
  let! p := me in
  acquire (LkProc p) ;;
  upd_proc p (set_p_state RUNNABLE) ;;
  sched ;;
  release (LkProc p).

Definition kill (pid : Z) : K Z :=
  let! r := for_return proc_indices (fun p =>
    acquire (LkProc p) ;;
    let! x := get_proc p in
    if p_pid x =? pid then
      upd_proc p (set_p_killed true) ;;
      (* Wake process from sleep(). *)
      when (bool_decide (p_state x = SLEEPING)) (upd_proc p (set_p_state RUNNABLE)) ;;
      release (LkProc p) ;;
      ret (Some 0)
    else
      release (LkProc p) ;;
      ret None) in
  ret (default (-1) r).

(** The body of the scheduler's loop for process [p], around its swtch: the
    code before it (true when the process is to run), and after it. *)
Definition scheduler_pick (p : nat) : K bool :=
  acquire (LkProc p) ;;
  let! x := get_proc p in
  if decide (p_state x = RUNNABLE) then
    upd_proc p (set_p_state RUNNING) ;;
    modify (set_k_cur (Some p)) ;;
    ret true
  else release (LkProc p) ;; ret false.

Definition scheduler_back (p : nat) : K unit :=
  modify (set_k_cur None) ;;
  release (LkProc p).
End Proc.

(** ** The kernel threads of one CPU

    Every process has a kernel thread: what it goes on to do when the
    scheduler switches to it. [None] when it is not in the kernel. *)

Record machine := mk_machine {
  m_k : kstate;
  m_threads : gmap nat (kstate -> outcome kstate unit);
}.

(** One round of the scheduler's loop, for process [p]: run its thread until
    it gives up the CPU in [sched] ([Sleep]), or leaves the kernel ([Ret]);
    it stays current in the second case. *)
Definition scheduler_round (p : nat) (m : machine) : outcome machine unit :=
  match scheduler_pick p (m_k m) with
  | Ret true s =>
      match m_threads m !! p with
      | None => Undef m
      | Some thread =>
          match thread s with
          | Sleep s' k =>
              match scheduler_back p s' with
              | Ret _ s'' => Ret tt (mk_machine s'' (<[p := k]> (m_threads m)))
              | Panic msg s'' => Panic msg (mk_machine s'' (m_threads m))
              | _ => Undef m
              end
          | Ret _ s' => Ret tt (mk_machine s' (delete p (m_threads m)))
          | Panic msg s' => Panic msg (mk_machine s' (m_threads m))
          | Undef s' => Undef (mk_machine s' (m_threads m))
          | NoFuel => NoFuel
          end
      end
  | Ret false s => Ret tt (mk_machine s (m_threads m))
  | Panic msg s => Panic msg (mk_machine s (m_threads m))
  | _ => Undef m
  end.
