(* ===== verification/ProcMem.v ===== *)
(** The memory of a process: proc_pagetable, proc_freepagetable and freeproc of
    kernel/proc.c lose no page, and map the trampoline and the trapframe. *)

From stdpp Require Import base numbers list gmap strings.
From S2P Require Import Prelude Params Mem KString State Locks Cache Kalloc Vm Pagetable Uvm Ufork Ufree Console Log Fs Pipe File Proc.

#[local] Opaque memset memmove st64 ld64.

Section ProcMem.
Context {W : Wakeups} {L : Layout} {LO : LayoutOk L} {C : BlockCache}.

(** ** The two pages above user memory *)

Lemma high_pages a : upage a -> TRAPFRAME <= a -> a = TRAPFRAME \/ a = TRAMPOLINE.
Proof using Type. intros [Ha1 Ha2] Ha. unfold TRAPFRAME, TRAMPOLINE in *. plia. Qed.

Lemma upage_high : upage TRAPFRAME /\ upage TRAMPOLINE /\ TRAPFRAME < TRAMPOLINE.
Proof using Type. unfold upage, TRAPFRAME, TRAMPOLINE. split_and!; plia. Qed.

Lemma map_high s l root T V n a pa perm :
  uspace s l root T V n -> upage a -> TRAPFRAME <= a -> has (V a) PTE_V = false ->
  0 <= pa -> pa mod PGSIZE = 0 -> pa + PGSIZE <= 2 ^ 54 -> 0 <= perm < 1024 -> Z.testbit perm 4 = false ->
  exists r s' l' T', mappages root a PGSIZE pa perm s = Ret r s' /\ mem_only s s' /\
    outside_same (tables T ++ l) (k_mem s) (k_mem s') /\ tables T' ++ l' ≡ₚ tables T ++ l /\
    (r = 0 /\ uspace s' l' root T' (vset V a (pte pa perm)) n \/ r = -1 /\ uspace s' l' root T' V n).
Proof using LO.
  intros [H1 H2 H3 H4 H5 Hh H6 H7] Ha Hhi HV Hpa Hal Hmx Hperm HU.
  destruct (mappages_at s l root T V a pa perm H1 H2 Ha Hpa Hal Hmx Hperm HV)
    as (r & s' & l' & T' & E & [C1 C2 C3 C4 C5] & Hcase).
  exists r, s', l', T'. split_and!; try done.
  assert (Hfr : frames (vset V a (pte pa perm)) 0 n = frames V 0 n).
  { apply frames_ext. intros k Hk. unfold vset. rewrite decide_False by plia. done. }
  destruct Hcase as [[-> HV']|(-> & HV' & ->)]; [left|right]; (split; [done|]).
  - split; try done.
    + intros k Hk. unfold vset. rewrite decide_False by plia. by apply H4.
    + intros b Hb Hbr. unfold vset. rewrite decide_False by lia. by apply H5.
    + intros b Hb Hbr. unfold vset. case_decide; [|by apply Hh].
      unfold PTE_U. rewrite pte_has by (done || plia). by rewrite HU.
    + rewrite Hfr, C5. done.
    + by rewrite Hfr.
  - split; try done. by rewrite C5.
Qed.

Lemma unmap_high s l root T V n a :
  uspace s l root T V n -> upage a -> TRAPFRAME <= a -> leaf_pte (V a) ->
  exists s', uvmunmap root a 1 false s = Ret tt s' /\ uspace s' l root T (vset V a 0) n /\ mem_only s s' /\
    outside_same (tables T) (k_mem s) (k_mem s').
Proof using LO.
  intros [H1 H2 H3 H4 H5 Hh H6 H7] Ha Hhi Hleaf. unfold uvmunmap. destruct Ha as [Ha0 Ha1]. rewrite Ha1. cbn [Z.eqb negb].
  rewrite u64_small by plia.
  destruct (uvmunmap_loop 1 (Z.to_nat (1 + 1)) a s l root T V false) as (s' & E & Hv' & HV' & Hm & Ho);
    [simpl; lia|done|done|by left|plia|plia| |done|].
  { intros k Hk. assert (k = 0%nat) as -> by lia. by rewrite Z.add_0_r. }
  exists s'. split; [exact E|]. split; [|by split].
  assert (Hfr : frames (vset V a 0) 0 n = frames V 0 n).
  { apply frames_ext. intros k Hk. unfold vset. rewrite decide_False by plia. done. }
  split; rewrite ?Hfr; try done.
  - eapply shows_ext; [|exact HV']. intros b [Hb0 Hb1]. unfold clear_range, vset. repeat case_decide; try done; plia.
  - intros k Hk. unfold vset. rewrite decide_False by plia. by apply H4.
  - intros b Hb Hbr. unfold vset. case_decide; [done|]. by apply H5.
  - intros b Hb Hbr. unfold vset. case_decide; [apply has_0|]. by apply Hh.
Qed.

(** ** proc_pagetable *)

(** The trampoline and the trapframe [tf] are mapped. *)
Definition high_mapped (tf : Z) (V : Z -> Z) : Prop :=
  V TRAMPOLINE = pte trampoline (Z.lor PTE_R PTE_X) /\ V TRAPFRAME = pte tf (Z.lor PTE_R PTE_W).

Lemma trampoline_ok : 0 <= trampoline /\ trampoline mod PGSIZE = 0 /\ trampoline + PGSIZE <= 2 ^ 54.
Proof using LO.
  pose proof trampoline_range. pose proof trampoline_aligned. pose proof etext_range. pose proof kend_range. split_and!; [plia|done|plia].
Qed.

Lemma page_ok p : free_page p -> 0 <= p /\ p mod PGSIZE = 0 /\ p + PGSIZE <= 2 ^ 54.
Proof using LO. intros Hp. pose proof (free_page_pos p Hp). destruct Hp as [Hal Hr]. split_and!; [lia|done|plia]. Qed.

(** An address space that could not be completed is freed. *)
Lemma abandon s l root T V :
  uspace s l root T V 0 -> (forall a, upage a -> TRAPFRAME <= a -> V a = 0) ->
  exists s' l', uvmfree root 0 s = Ret tt s' /\ kmem_inv s' l' /\ l' ≡ₚ tables T ++ l /\ mem_only s s' /\
    outside_same (tables T) (k_mem s) (k_mem s').
Proof using LO.
  intros Hu Hh. destruct (uvmfree_spec s l root T V 0 Hu) as (s' & l' & E & Hk & Hl & Hm & Ho);
    [unfold TRAPFRAME, TRAMPOLINE; plia|done|]. by exists s', l'.
Qed.

Lemma proc_pagetable_ok s l p pp :
  kmem_inv s l -> LkKmem ∉ k_held s -> k_procs s !! p = Some pp -> free_page (p_trapframe pp) ->
  exists root s' l', proc_pagetable p s = Ret root s' /\ mem_only s s' /\
    outside_same l (k_mem s) (k_mem s') /\
    (root = 0 /\ kmem_inv s' l' /\ l' ≡ₚ l \/
     root <> 0 /\ exists T V, uspace s' l' root T V 0 /\ high_mapped (p_trapframe pp) V /\ tables T ++ l' ≡ₚ l).
Proof using LO.
  intros Hk Hlk Hp Htf. unfold proc_pagetable. destruct l as [|root l].
  { exists 0, s, []. assert (E : uvmcreate s = Ret 0 s).
    { unfold uvmcreate. rewrite (bind_Ret _ _ _ _ _ (kalloc_empty s Hk Hlk)). done. }
    rewrite (bind_Ret _ _ _ _ _ E). split_and!; [done|reflexivity|done|]. by left. }
  destruct (uvmcreate_space s root l Hk Hlk) as (s1 & E1 & Hu1 & Hm1 & Ho1).
  rewrite (bind_Ret _ _ _ _ _ E1).
  assert (Hroot : free_page root) by (destruct Hk as [_ _ Hf]; by apply Forall_cons in Hf as [? _]).
  pose proof (free_page_pos root Hroot). destruct (Z.eqb_spec root 0); [lia|].
  destruct upage_high as (Hup1 & Hup2 & Hlt). destruct trampoline_ok as (Ht1 & Ht2 & Ht3).
  destruct (page_ok _ Htf) as (Hf1 & Hf2 & Hf3).
  assert (Ht : tables {[ [] := root ]} = [root]) by (unfold tables; by rewrite map_to_list_singleton).
  destruct (map_high s1 l root _ _ 0 TRAMPOLINE trampoline (Z.lor PTE_R PTE_X) Hu1 Hup2)
    as (r & s2 & l2 & T2 & E2 & Hm2 & Ho2 & Hp2 & Hcase); try done.
  rewrite Ht in Ho2, Hp2. rewrite (bind_Ret _ _ _ _ _ E2).
  assert (Hout2 : outside_same (root :: l) (k_mem s) (k_mem s2)).
  { eapply outside_same_trans; [eapply outside_same_incl; [|exact Ho1]; intros y; sublist|exact Ho2]. }
  destruct Hcase as [[-> Hu2]|[-> Hu2]]; cbn [Z.ltb Z.compare].
  2:{ destruct (abandon s2 l2 root T2 _ Hu2) as (s3 & l3 & E3 & Hk3 & Hl3 & Hm3 & Ho3); [done|].
      rewrite (bind_Ret _ _ _ _ _ E3). exists 0, s3, l3. split_and!; [done|by repeat (etrans; [eassumption|])| |].
      - eapply outside_same_trans; [exact Hout2|]. eapply outside_same_incl; [|exact Ho3].
        intros y Hy. assert (Hy' : y ∈ [root] ++ l) by (rewrite <- Hp2, elem_of_app; by left). done.
      - left. split_and!; [done|done|]. by rewrite Hl3, Hp2. }
  assert (Hps2 : k_procs s2 !! p = Some pp) by (destruct Hm1 as (? & ? & ->), Hm2 as (? & ? & ->); exact Hp).
  rewrite (run_get_proc p pp) by done.
  destruct (map_high s2 l2 root T2 _ 0 TRAPFRAME (p_trapframe pp) (Z.lor PTE_R PTE_W) Hu2 Hup1)
    as (r & s3 & l3 & T3 & E3 & Hm3 & Ho3 & Hp3 & Hcase); try done.
  rewrite (bind_Ret _ _ _ _ _ E3).
  assert (Hin3 : forall y, y ∈ tables T2 ++ l2 -> y ∈ root :: l) by (intros y; by rewrite Hp2).
  assert (Hout3 : outside_same (root :: l) (k_mem s) (k_mem s3)).
  { eapply outside_same_trans; [exact Hout2|]. eapply outside_same_incl; [exact Hin3|exact Ho3]. }
  destruct Hcase as [[-> Hu3]|[-> Hu3]]; cbn [Z.ltb Z.compare].
  - exists root, s3, l3. split_and!; [done|by repeat (etrans; [eassumption|])|done|]. right. split; [lia|].
    eexists T3, _. split; [exact Hu3|]. split.
    + split; unfold vset; [rewrite decide_False by lia; by rewrite decide_True|by rewrite decide_True].
    + by rewrite Hp3, Hp2.
  - destruct (unmap_high s3 l3 root T3 _ 0 TRAMPOLINE Hu3 Hup2) as (s4 & E4 & Hu4 & Hm4 & Ho4); [lia| |].
    { unfold vset. rewrite decide_True by done. apply leaf_pte_R; [plia|done|done]. }
    rewrite (bind_Ret _ _ _ _ _ E4).
    destruct (abandon s4 l3 root T3 _ Hu4) as (s5 & l5 & E5 & Hk5 & Hl5 & Hm5 & Ho5).
    { intros a Ha Hhi. unfold vset. repeat case_decide; done. }
    rewrite (bind_Ret _ _ _ _ _ E5). exists 0, s5, l5. split_and!; [done|by repeat (etrans; [eassumption|])| |].
    + assert (Hin4 : forall y, y ∈ tables T3 -> y ∈ root :: l).
      { intros y Hy. apply Hin3. rewrite <- Hp3, elem_of_app. by left. }
      eapply outside_same_trans; [exact Hout3|].
      eapply outside_same_trans; (eapply outside_same_incl; [exact Hin4|eassumption]).
    + left. split_and!; [done|done|]. by rewrite Hl5, Hp3, Hp2.
Qed.

(** ** proc_freepagetable *)

Lemma proc_freepagetable_ok s l root T V sz tf :
  uspace s l root T V (npages sz) -> 0 <= sz <= TRAPFRAME -> high_mapped tf V -> free_page tf ->
  exists s' l', proc_freepagetable root sz s = Ret tt s' /\ kmem_inv s' l' /\
    l' ≡ₚ account V (npages sz) T l /\ mem_only s s' /\
    outside_same (frames V 0 (npages sz) ++ tables T) (k_mem s) (k_mem s').
Proof using LO.
  intros Hu Hsz [HV1 HV2] Htf. unfold proc_freepagetable. destruct upage_high as (Hup1 & Hup2 & Hlt).
  destruct trampoline_ok as (Ht1 & Ht2 & Ht3). destruct (page_ok _ Htf) as (Hf1 & Hf2 & Hf3).
  destruct (unmap_high s l root T V _ TRAMPOLINE Hu Hup2) as (s1 & E1 & Hu1 & Hm1 & Ho1); [lia| |].
  { rewrite HV1. apply leaf_pte_R; [plia|done|done]. }
  rewrite (bind_Ret _ _ _ _ _ E1).
  destruct (unmap_high s1 l root T _ _ TRAPFRAME Hu1 Hup1) as (s2 & E2 & Hu2 & Hm2 & Ho2); [lia| |].
  { unfold vset. rewrite decide_False by lia. rewrite HV2. apply leaf_pte_R; [plia|done|done]. }
  rewrite (bind_Ret _ _ _ _ _ E2). set (V2 := vset (vset V TRAMPOLINE 0) TRAPFRAME 0) in *.
  assert (Hfr : frames V2 0 (npages sz) = frames V 0 (npages sz)).
  { apply frames_ext. intros k Hk. pose proof (us_size _ _ _ _ _ _ Hu). unfold V2, vset. rewrite !decide_False by plia. done. }
  destruct (uvmfree_spec s2 l root T V2 sz Hu2 Hsz) as (s3 & l3 & E3 & Hk3 & Hl3 & Hm3 & Ho3).
  { intros a Ha Hhi. unfold V2, vset. destruct (high_pages a Ha Hhi) as [-> | ->]; repeat case_decide; done. }
  exists s3, l3. split_and!; [done|done| |by repeat (etrans; [eassumption|])|].
  - unfold account in *. by rewrite Hl3, Hfr.
  - rewrite Hfr in Ho3. eapply outside_same_trans; [|exact Ho3].
    eapply outside_same_trans; (eapply outside_same_incl; [|eassumption]); intros y; sublist.
Qed.

(** ** One process's record *)

Definition with_proc (p : nat) (q : proc) (s : kstate) : kstate := set_k_procs (<[p := q]> (k_procs s)) s.

Lemma with_proc_twice p q r s : with_proc p q (with_proc p r s) = with_proc p q s.
Proof using Type. unfold with_proc. ks. by rewrite list_insert_insert_eq. Qed.

Lemma with_proc_at p q r s : k_procs s !! p = Some r -> k_procs (with_proc p q s) !! p = Some q.
Proof using Type. intros H. unfold with_proc. ks. apply list_lookup_insert_eq. by eapply lookup_lt_Some. Qed.

Lemma run_upd_proc {A} p q f (k : unit -> K A) s :
  k_procs s !! p = Some q -> bind (upd_proc p f) k s = k tt (with_proc p (f q) s).
Proof using Type. intros H. unfold upd_proc. rewrite bind_assoc, (run_get_proc p q) by done. done. Qed.

(** The same update again: the record [r] of [p] is in [with_proc]. *)
Lemma run_upd_again {A} p q r f (k : unit -> K A) s :
  k_procs s !! p = Some q -> bind (upd_proc p f) k (with_proc p r s) = k tt (with_proc p (f r) s).
Proof using Type.
  intros H. rewrite (run_upd_proc p r) by (by eapply with_proc_at). by rewrite with_proc_twice.
Qed.

Lemma upd_last p q r f s :
  k_procs s !! p = Some q -> upd_proc p f (with_proc p r s) = Ret tt (with_proc p (f r) s).
Proof using Type.
  intros H. unfold upd_proc. rewrite (run_get_proc p r) by (by eapply with_proc_at). unfold modify.
  fold (with_proc p (f r) (with_proc p r s)). by rewrite with_proc_twice.
Qed.

Lemma run_get_again {A} p q r (k : proc -> K A) s :
  k_procs s !! p = Some q -> bind (get_proc p) k (with_proc p r s) = k r (with_proc p r s).
Proof using Type. intros H. by rewrite (run_get_proc p r) by (by eapply with_proc_at). Qed.

(** ** freeproc *)

(** What freeproc leaves in the record. *)
Definition freed_proc (q : proc) : proc :=
  mk_proc UNUSED None false 0 0 None (p_kstack q) 0 0 0 (p_context q) (p_ofile q) (p_cwd q) (<[0%nat := 0]> (p_name q)).

(** Memory, the free list and the record of [p] change. *)
Definition mem_proc (p : nat) (q : proc) (s s' : kstate) : Prop :=
  exists m f, s' = with_proc p q (set_k_mem m (set_k_freelist f s)).

Lemma mem_only_proc p q s s' : mem_only s s' -> mem_proc p q s (with_proc p q s').
Proof using Type. intros (m & f & ->). by exists m, f. Qed.

(** The pages of a process: its trapframe, its frames and its page table. *)
Record proc_mem (s : kstate) (l : list Z) (q : proc) (T : gmap (list Z) Z) (V : Z -> Z) : Prop := {
  pm_space : uspace s l (p_pagetable q) T V (npages (p_sz q));
  pm_size : 0 <= p_sz q <= TRAPFRAME;
  pm_high : high_mapped (p_trapframe q) V;
  pm_tf : free_page (p_trapframe q);
  pm_own : NoDup (p_trapframe q :: account V (npages (p_sz q)) T l);
}.

Definition proc_pages (q : proc) (T : gmap (list Z) Z) (V : Z -> Z) : list Z :=
  p_trapframe q :: frames V 0 (npages (p_sz q)) ++ tables T.

Lemma freeproc_tail p q r s : k_procs s !! p = Some q ->
  (upd_proc p (set_p_pagetable 0) ;; upd_proc p (set_p_sz 0) ;; upd_proc p (set_p_pid 0) ;;
   upd_proc p (set_p_parent None) ;; upd_proc p (fun x => set_p_name (<[0%nat := 0]> (p_name x)) x) ;;
   upd_proc p (set_p_chan None) ;; upd_proc p (set_p_killed false) ;; upd_proc p (set_p_xstate 0) ;;
   upd_proc p (set_p_state UNUSED)) (with_proc p (set_p_trapframe 0 r) s) =
  Ret tt (with_proc p (freed_proc r) s).
Proof using Type.
  intros H. do 8 rewrite (run_upd_again p q) by done. by rewrite (upd_last p q).
Qed.

(** A slot without memory. *)
Lemma freeproc_empty p q s :
  k_procs s !! p = Some q -> p_trapframe q = 0 -> p_pagetable q = 0 ->
  freeproc p s = Ret tt (with_proc p (freed_proc q) s).
Proof using Type.
  intros Hp Ht Hr. unfold freeproc. rewrite (run_get_proc p q) by done. rewrite Ht, Hr. cbn [Z.eqb negb].
  rewrite run_when_false, (run_upd_proc p q), run_when_false by done. by apply (freeproc_tail p q).
Qed.

(** A slot with a trapframe and no page table. *)
Lemma freeproc_tf p q s l :
  k_procs s !! p = Some q -> kmem_inv s l -> LkKmem ∉ k_held s -> free_page (p_trapframe q) ->
  p_trapframe q ∉ l -> p_pagetable q = 0 ->
  exists s', freeproc p s = Ret tt s' /\ mem_proc p (freed_proc q) s s' /\ kmem_inv s' (p_trapframe q :: l) /\
    outside_same [p_trapframe q] (k_mem s) (k_mem s').
Proof using LO.
  intros Hp Hk Hlk Ht Hnin Hr. unfold freeproc. rewrite (run_get_proc p q) by done. rewrite Hr.
  pose proof (free_page_pos _ Ht). destruct (Z.eqb_spec (p_trapframe q) 0); [lia|]. cbn [Z.eqb negb].
  rewrite run_when_true. destruct (kfree_spec _ s l Hk Ht Hnin Hlk) as (s1 & E1 & Hk1 & Hs1). rewrite (bind_Ret _ _ _ _ _ E1).
  assert (Hp1 : k_procs s1 !! p = Some q) by (by subst s1).
  rewrite (run_upd_proc p q), run_when_false by done. rewrite (freeproc_tail p q) by done. eexists. split; [done|].
  split_and!.
  - apply mem_only_proc. subst s1. by exists (kfree_mem (p_trapframe q) s), (p_trapframe q).
  - by destruct Hk1.
  - intros x Hx. subst s1. unfold with_proc. ks. apply rd_kfree_mem. apply Hx. by left.
Qed.

(** A process with its memory. *)
Lemma freeproc_ok p q s l T V :
  k_procs s !! p = Some q -> proc_mem s l q T V ->
  exists s' l', freeproc p s = Ret tt s' /\ mem_proc p (freed_proc q) s s' /\ kmem_inv s' l' /\
    l' ≡ₚ proc_pages q T V ++ l /\ outside_same (proc_pages q T V) (k_mem s) (k_mem s').
Proof using LO.
  intros Hp [Hu Hsz Hh Ht Hnd]. unfold freeproc. rewrite (run_get_proc p q) by done.
  pose proof (free_page_pos _ Ht). destruct (Z.eqb_spec (p_trapframe q) 0); [lia|]. cbn [negb]. rewrite run_when_true.
  pose proof (us_vm _ _ _ _ _ _ Hu) as Hvm. apply NoDup_cons in Hnd as [Hnin Hnd]. unfold account in Hnin, Hnd. rewrite !elem_of_app in Hnin.
  destruct (kfree_spec (p_trapframe q) s l (vm_kmem _ _ _ _ Hvm) Ht) as (s1 & E1 & Hk1 & Hs1); [tauto|apply Hvm|].
  rewrite (bind_Ret _ _ _ _ _ E1). assert (Hp1 : k_procs s1 !! p = Some q) by (by subst s1).
  assert (Ho1 : outside_same [p_trapframe q] (k_mem s) (k_mem s1)).
  { intros x Hx. subst s1. ks. apply rd_kfree_mem. apply Hx. by left. }
  assert (Hm1 : mem_only s s1) by (subst s1; by exists (kfree_mem (p_trapframe q) s), (p_trapframe q)).
  assert (Hlk1 : LkKmem ∉ k_held s1) by (subst s1; apply Hvm).
  assert (Hu1 : uspace s1 (p_trapframe q :: l) (p_pagetable q) T V (npages (p_sz q))).
  { eapply (uspace_keep s l); [exact Hu|exact Hk1|done|exact Ho1|by apply Forall_singleton| |].
    - intros y Hy ->%list_elem_of_singleton. tauto.
    - rewrite <- !Permutation_middle. constructor; [rewrite !elem_of_app; tauto|done]. }
  assert (Hroot : p_pagetable q <> 0).
  { assert (Hin : p_pagetable q ∈ tables T) by (apply elem_of_tables; exists []; apply Hvm).
    pose proof (vm_pages _ _ _ _ Hvm) as Hf. rewrite Forall_forall in Hf. pose proof (free_page_pos _ (Hf _ Hin)). lia. }
  rewrite (run_upd_proc p q) by done. destruct (Z.eqb_spec (p_pagetable q) 0); [done|]. cbn [negb]. rewrite run_when_true.
  set (s2 := with_proc p _ s1).
  assert (Hu2 : uspace s2 (p_trapframe q :: l) (p_pagetable q) T V (npages (p_sz q))) by (by apply (uspace_same s1)).
  destruct (proc_freepagetable_ok s2 _ _ T V (p_sz q) (p_trapframe q) Hu2 Hsz Hh Ht) as (s3 & l3 & E3 & Hk3 & Hl3 & Hm3 & Ho3).
  rewrite (bind_Ret _ _ _ _ _ E3). destruct Hm3 as (m3 & f3 & ->).
  change (set_k_mem m3 (set_k_freelist f3 s2)) with (with_proc p (set_p_trapframe 0 q) (set_k_mem m3 (set_k_freelist f3 s1))).
  rewrite (freeproc_tail p q) by done. eexists _, l3. split; [done|]. split_and!.
  - apply mem_only_proc. etrans; [exact Hm1|]. by exists m3, f3.
  - by destruct Hk3.
  - unfold proc_pages, account in *. rewrite Hl3. solve_Permutation.
  - unfold proc_pages. eapply (outside_same_trans _ _ (k_mem s1)); (eapply outside_same_incl; [|eassumption]); intros y; sublist.
Qed.
End ProcMem.
