(* ===== verification/Fork.v ===== *)
(** allocproc and fork of kernel/proc.c: the child is a copy of its parent,
    and no page is lost whether fork succeeds or not. *)

From stdpp Require Import base numbers list gmap strings.
From S2P Require Import Prelude Params Mem KString State Locks Cache Kalloc Vm Pagetable Uvm Ufork Ufree Console Log Fs Itable Pipe File Proc ProcMem.

#[local] Opaque memset memmove st64 ld64.

Section Fork.
Context {W : Wakeups} {L : Layout} {LO : LayoutOk L} {C : BlockCache}.

(** ** allocproc *)

(** A slot that is not in use owns nothing. *)
Definition idle (q : proc) : Prop :=
  p_trapframe q = 0 /\ p_pagetable q = 0 /\ p_sz q = 0 /\ p_ofile q = replicate nofile None.

Definition unused (q : proc) : Prop := p_state q = UNUSED.
#[global] Instance unused_dec q : Decision (unused q) := decide (p_state q = UNUSED).

Definition alloc_scan (p : nat) : K (option nat) :=
  acquire (LkProc p) ;;
  let! pp := get_proc p in
  if decide (p_state pp = UNUSED) then ret (Some p)
  else release (LkProc p) ;; ret None.

Lemma alloc_scan_run p q s : k_held s = [] -> k_procs s !! p = Some q ->
  alloc_scan p s = if decide (unused q) then Ret (Some p) (set_k_held [LkProc p] s) else Ret None s.
Proof using Type.
  intros Hh Hp. unfold alloc_scan. rewrite run_acquire by (rewrite Hh; apply not_elem_of_nil).
  rewrite (run_get_proc p q) by done. rewrite Hh. unfold unused. case_decide as E; [done|].
  rewrite (run_release _ []) by done. unfold ret. f_equal. destruct s; cbn in *. by rewrite Hh.
Qed.

(** The scan finds the first unused slot. *)
Lemma alloc_scan_loop s : k_held s = [] -> forall k i, (i + k = length (k_procs s))%nat ->
  for_return (seq i k) alloc_scan s =
  match list_find unused (drop i (k_procs s)) with
  | Some (j, _) => Ret (Some (i + j)%nat) (set_k_held [LkProc (i + j)] s)
  | None => Ret None s
  end.
Proof using Type.
  intros Hh. induction k as [|k IH]; intros i Hi; cbn [seq for_return].
  - by rewrite drop_ge by lia.
  - destruct (lookup_lt_is_Some_2 (k_procs s) i) as [q Hq]; [lia|]. rewrite (drop_S _ q i) by done. cbn [list_find].
    pose proof (alloc_scan_run i q s Hh Hq) as E. case_decide as Hu; rewrite (bind_Ret _ _ _ _ _ E).
    + by rewrite Nat.add_0_r.
    + rewrite (IH (S i)) by lia. destruct (list_find unused (drop (S i) (k_procs s))) as [[j x]|]; cbn; [|done].
      by replace (i + S j)%nat with (S (i + j)) by lia.
Qed.

(** The state after allocproc, or a system call that began with it. *)
Definition after (i : nat) (q : proc) (held : list lockid) (m : memory) (f : Z) (s : kstate) : kstate :=
  set_k_held held (set_k_nextpid (s32 (k_nextpid s + 1)) (with_proc i q (set_k_mem m (set_k_freelist f s)))).

Definition new_proc (q : proc) (pid tf root : Z) : proc :=
  set_p_context (mk_context forkret_addr (p_kstack q + PGSIZE) (replicate 12 0))
    (set_p_pagetable root (set_p_trapframe tf (set_p_state USED (set_p_pid pid q)))).

(** What allocproc does with the pages: the new process has its trapframe and
    an empty address space, or everything is on the free list again. *)
Definition allocated_proc (i : nat) (q : proc) (l : list Z) (s : kstate) (r : option nat) (s' : kstate) : Prop :=
  exists m f l', outside_same l (k_mem s) m /\
  match r with
  | None => s' = after i (freed_proc q) [] m f s /\ kmem_inv s' l' /\ l' ≡ₚ l
  | Some i' => i' = i /\ exists tf root T V, let q' := new_proc q (k_nextpid s) tf root in
      s' = after i q' [LkProc i] m f s /\ proc_mem s' l' q' T V /\ proc_pages q' T V ++ l' ≡ₚ l
  end.

Lemma allocpid_run {A} s (k : Z -> K A) : LkPid ∉ k_held s ->
  bind allocpid k s = k (k_nextpid s) (set_k_nextpid (s32 (k_nextpid s + 1)) s).
Proof using Type.
  intros Hl. unfold allocpid. rewrite bind_assoc, run_acquire by done. rewrite bind_assoc, run_gets.
  rewrite bind_assoc, run_modify, bind_assoc. rewrite (run_release _ (k_held s)) by done. rewrite run_ret. by destruct s.
Qed.

Lemma freed_fields q pid tf root :
  freed_proc (set_p_pagetable root (set_p_trapframe tf (set_p_state USED (set_p_pid pid q)))) = freed_proc q.
Proof using Type. done. Qed.

(** The rest of allocproc, in a slot that has its trapframe. *)
Lemma allocproc_table s0 s l i q tf :
  k_procs s0 !! i = Some q -> idle q -> free_page tf -> tf ∉ l -> kmem_inv s l ->
  (exists m f, s = after i (set_p_trapframe tf (set_p_state USED (set_p_pid (k_nextpid s0) q))) [LkProc i] m f s0) ->
  exists r s', (let! pt := proc_pagetable i in
      upd_proc i (set_p_pagetable pt) ;;
      if pt =? 0 then freeproc i ;; release (LkProc i) ;; ret None
      else upd_proc i (fun x => set_p_context (mk_context forkret_addr (p_kstack x + PGSIZE) (replicate 12 0)) x) ;;
           ret (Some i)) s = Ret r s' /\
    exists m f l', outside_same (tf :: l) (k_mem s) m /\
    match r with
    | None => s' = after i (freed_proc q) [] m f s0 /\ kmem_inv s' l' /\ l' ≡ₚ tf :: l
    | Some i' => i' = i /\ exists root T V, let q' := new_proc q (k_nextpid s0) tf root in
        s' = after i q' [LkProc i] m f s0 /\ proc_mem s' l' q' T V /\ proc_pages q' T V ++ l' ≡ₚ tf :: l
    end.
Proof using LO.
  intros Hq (Hi1 & Hi2 & Hi3 & Hi4) Htf Hnin Hk (m & f & ->). pose proof (lookup_lt_Some _ _ _ Hq) as Hlt.
  set (q1 := set_p_trapframe tf _) in *. set (s := after i q1 _ m f s0) in *.
  assert (Hp1 : k_procs s !! i = Some q1) by (by apply list_lookup_insert_eq).
  assert (Hlk : LkKmem ∉ k_held s) by (unfold s, after; ks; set_solver).
  destruct (proc_pagetable_ok s l i q1 Hk Hlk Hp1 Htf) as (root & s2 & l2 & E2 & (m2 & f2 & Es2) & Ho2 & Hcase).
  rewrite (bind_Ret _ _ _ _ _ E2). assert (Hp2 : k_procs s2 !! i = Some q1) by (by rewrite Es2).
  rewrite (run_upd_proc i q1) by done. destruct Hcase as [(-> & Hk2 & Hl2)|(Hr & T & V & Hu2 & Hh2 & Hp3)].
  - cbn [Z.eqb]. set (q2 := set_p_pagetable 0 q1).
    assert (Hp3 : k_procs (with_proc i q2 s2) !! i = Some q2) by (by eapply with_proc_at).
    destruct (freeproc_tf i q2 (with_proc i q2 s2) l2 Hp3) as (s3 & E3 & (m3 & f3 & Es3) & Hk3 & Ho3); try done.
    { by destruct Hk2. } { unfold with_proc. ks. by rewrite Es2. } { cbn. by rewrite Hl2. }
    rewrite (bind_Ret _ _ _ _ _ E3). rewrite (run_release _ []) by (by rewrite Es3, Es2).
    eexists None, _. split; [done|]. exists m3, f3, (tf :: l2). split.
    + rewrite Es3 in Ho3. cbn in Ho3. eapply (outside_same_trans _ _ (k_mem s2)); (eapply outside_same_incl; [|eassumption]); intros y; sublist.
    + split_and!; [|by destruct Hk3|by rewrite Hl2].
      rewrite Es3, Es2. unfold s, after, with_proc. ks. by rewrite !list_insert_insert_eq.
  - destruct (Z.eqb_spec root 0); [done|]. rewrite (run_upd_again i q1) by done.
    eexists (Some i), _. split; [done|]. exists m2, f2, l2. split.
    { rewrite Es2 in Ho2. cbn in Ho2. eapply outside_same_incl; [|exact Ho2]. intros y; sublist. }
    split; [done|]. exists root, T, V. set (q' := new_proc q (k_nextpid s0) tf root).
    assert (Es : with_proc i q' s2 = after i q' [LkProc i] m2 f2 s0).
    { rewrite Es2. unfold s, after, with_proc. ks. by rewrite !list_insert_insert_eq. }
    assert (Hn0 : npages (p_sz q') = 0%nat) by (change (p_sz q') with (p_sz q); by rewrite Hi3).
    split; [exact Es|]. split; [split|].
    + rewrite Hn0. apply (uspace_same s2); [exact Hu2|done|done|]. apply Hu2.
    + change (p_sz q') with (p_sz q). rewrite Hi3. unfold TRAPFRAME, TRAMPOLINE. plia.
    + done.
    + done.
    + rewrite Hn0. unfold account. cbn [frames seq fmap list_fmap app]. rewrite Hp3. constructor; [done|apply Hk].
    + unfold proc_pages. rewrite Hn0. cbn [frames seq fmap list_fmap app]. by rewrite Hp3.
Qed.

(** allocproc after its scan. *)
Definition alloc_fill (p : nat) : K (option nat) :=
  let! pid := allocpid in
  upd_proc p (set_p_pid pid) ;;
  upd_proc p (set_p_state USED) ;;
  let! tf := kalloc in
  upd_proc p (set_p_trapframe tf) ;;
  if tf =? 0 then freeproc p ;; release (LkProc p) ;; ret None
  else
    let! pt := proc_pagetable p in
    upd_proc p (set_p_pagetable pt) ;;
    if pt =? 0 then freeproc p ;; release (LkProc p) ;; ret None
    else
      upd_proc p (fun x => set_p_context (mk_context forkret_addr (p_kstack x + PGSIZE) (replicate 12 0)) x) ;;
      ret (Some p).

Lemma allocproc_split :
  allocproc = bind (for_return proc_indices alloc_scan) (fun r => match r with None => ret None | Some p => alloc_fill p end).
Proof using Type. reflexivity. Qed.

(** The slot [i] with its pid, before it has memory. *)
Definition named_proc (q : proc) (pid : Z) : proc := set_p_state USED (set_p_pid pid q).

Lemma after_with i q q' held m f s : with_proc i q' (after i q held m f s) = after i q' held m f s.
Proof using Type. unfold after, with_proc. ks. by rewrite list_insert_insert_eq. Qed.

Lemma after_at i q r held m f s : k_procs s !! i = Some r -> k_procs (after i q held m f s) !! i = Some q.
Proof using Type. intros H. unfold after, with_proc. ks. apply list_lookup_insert_eq. by eapply lookup_lt_Some. Qed.

Lemma after_kmem i q held m f s l : kmem_inv s l -> k_mem s = m -> k_freelist s = f -> kmem_inv (after i q held m f s) l.
Proof using Type. intros [H1 H2 H3] <- <-. by split. Qed.

(** The first steps: a pid, and the state USED. *)
Lemma alloc_fill_named s i q :
  k_procs s !! i = Some q ->
  alloc_fill i (set_k_held [LkProc i] s) =
  (let! tf := kalloc in
   upd_proc i (set_p_trapframe tf) ;;
   if tf =? 0 then freeproc i ;; release (LkProc i) ;; ret None
   else
     let! pt := proc_pagetable i in
     upd_proc i (set_p_pagetable pt) ;;
     if pt =? 0 then freeproc i ;; release (LkProc i) ;; ret None
     else
       upd_proc i (fun x => set_p_context (mk_context forkret_addr (p_kstack x + PGSIZE) (replicate 12 0)) x) ;;
       ret (Some i)) (after i (named_proc q (k_nextpid s)) [LkProc i] (k_mem s) (k_freelist s) s).
Proof using LO.
  intros Hq. unfold alloc_fill. rewrite allocpid_run by (ks; set_solver).
  rewrite (run_upd_proc i q) by done. rewrite (run_upd_again i q) by done. by destruct s.
Qed.

(** kalloc and the update of the record that follows it. *)
Lemma after_mem s i q q' held m f m' f' :
  with_proc i q' (set_k_mem m' (set_k_freelist f' (after i q held m f s))) = after i q' held m' f' s.
Proof using Type. unfold after, with_proc. ks. by rewrite list_insert_insert_eq. Qed.

Lemma outside_memset p c P m : p ∈ P -> outside_same P m (memset p c PGSIZE m).
Proof using Type. intros Hp x Hx. rewrite rd_memset by plia. rewrite decide_False; [reflexivity|]. by apply (Hx p). Qed.

Lemma alloc_fill_ok s l i q :
  k_procs s !! i = Some q -> idle q -> kmem_inv s l ->
  exists r s', alloc_fill i (set_k_held [LkProc i] s) = Ret r s' /\ allocated_proc i q l s r s'.
Proof using LO.
  intros Hq Hi Hk. rewrite (alloc_fill_named s i q Hq). set (q1 := named_proc q (k_nextpid s)).
  pose proof (after_kmem i q1 [LkProc i] _ _ s l Hk eq_refl eq_refl) as Hk1.
  pose proof (after_at i q1 q [LkProc i] (k_mem s) (k_freelist s) s Hq) as Hq1.
  assert (Hlk1 : LkKmem ∉ k_held (after i q1 [LkProc i] (k_mem s) (k_freelist s) s)) by (unfold after; ks; set_solver).
  destruct l as [|tf l].
  - rewrite (bind_Ret _ _ _ _ _ (kalloc_empty _ Hk1 Hlk1)). rewrite (run_upd_proc i q1) by exact Hq1. cbn [Z.eqb]. rewrite after_with.
    set (q2 := set_p_trapframe 0 q1). pose proof (after_at i q2 q [LkProc i] (k_mem s) (k_freelist s) s Hq) as Hq2.
    rewrite (bind_Ret _ _ _ _ _ (freeproc_empty i q2 _ Hq2 eq_refl (proj1 (proj2 Hi)))). rewrite after_with.
    rewrite (run_release _ []) by reflexivity. eexists None, _. split; [reflexivity|].
    exists (k_mem s), (k_freelist s), []. split; [intros ? ?; reflexivity|]. split; [reflexivity|].
    split; [|reflexivity]. by apply (after_kmem i (freed_proc q)).
  - destruct (kalloc_spec _ tf l Hk1 Hlk1) as (s3 & E3 & Hk3 & Htf & Hnin & Es3). rewrite (bind_Ret _ _ _ _ _ E3).
    assert (Hq3 : k_procs s3 !! i = Some q1) by (rewrite Es3; exact Hq1).
    rewrite (run_upd_proc i q1) by exact Hq3. pose proof (free_page_pos _ Htf). destruct (Z.eqb_spec tf 0); [lia|].
    set (s4 := with_proc i _ s3).
    assert (E4 : s4 = after i (set_p_trapframe tf q1) [LkProc i] (memset tf 5 PGSIZE (k_mem s)) (ld64 (k_mem s) tf) s).
    { unfold s4. rewrite Es3. apply after_mem. }
    assert (Hk4 : kmem_inv s4 l) by (destruct Hk3; by split).
    destruct (allocproc_table s s4 l i q tf Hq Hi Htf Hnin Hk4 (ex_intro _ _ (ex_intro _ _ E4))) as (r & s' & E & m & f & l' & Ho & Hcase).
    exists r, s'. split; [exact E|]. exists m, f, l'. split.
    { eapply (outside_same_trans _ _ (k_mem s4)); [|exact Ho]. rewrite E4. apply outside_memset. by left. }
    destruct r as [i'|]; [|exact Hcase]. destruct Hcase as (-> & root & T & V & Hc). split; [done|]. by exists tf, root, T, V.
Qed.

Lemma allocproc_ok s l :
  k_held s = [] -> procs_full s -> kmem_inv s l -> Forall (fun q => unused q -> idle q) (k_procs s) ->
  match list_find unused (k_procs s) with
  | None => allocproc s = Ret None s
  | Some (i, q) => exists r s', allocproc s = Ret r s' /\ allocated_proc i q l s r s'
  end.
Proof using LO.
  intros Hh Hfull Hk Hidle. pose proof (alloc_scan_loop s Hh (length (k_procs s)) 0 eq_refl) as Hscan. rewrite drop_0 in Hscan.
  rewrite allocproc_split. unfold proc_indices. rewrite <- Hfull.
  destruct (list_find unused (k_procs s)) as [[i q]|] eqn:Ef; rewrite (bind_Ret _ _ _ _ _ Hscan); [|reflexivity].
  apply list_find_Some in Ef as (Hq & Hu & _). rewrite Forall_lookup in Hidle.
  exact (alloc_fill_ok s l i q Hq (Hidle i q Hq Hu) Hk).
Qed.
(** ** The copy of the parent's memory *)

Lemma after_mem_only i q held m f s s' : mem_only (after i q held m f s) s' -> exists m' f', s' = after i q held m' f' s.
Proof using Type. intros (m' & f' & ->). by exists m', f'. Qed.

(** A process's memory is kept by changes to free pages only. *)
Lemma proc_mem_keep s l q T V s' l' :
  proc_mem s l q T V -> kmem_inv s' l' -> LkKmem ∉ k_held s' -> outside_same l (k_mem s) (k_mem s') ->
  (exists P, P ++ l' ≡ₚ l) -> proc_mem s' l' q T V.
Proof using LO.
  intros [H1 H2 H3 H4 H5] Hk Hlk Ho [P HP]. unfold account in H5.
  assert (Hnd : NoDup (p_trapframe q :: frames V 0 (npages (p_sz q)) ++ tables T ++ P ++ l')) by (by rewrite HP).
  assert (Hnd' : NoDup (p_trapframe q :: frames V 0 (npages (p_sz q)) ++ tables T ++ l')).
  { apply (NoDup_app (p_trapframe q :: frames V 0 (npages (p_sz q)) ++ tables T ++ l') P). nodup_perm Hnd. }
  split; try done. apply (uspace_keep s l s' l' _ T V _ l H1); try done.
  - apply (us_vm _ _ _ _ _ _ H1).
  - intros y Hy Hl. apply NoDup_cons in H5 as [_ H5]. apply NoDup_app in H5 as (_ & _ & H5).
    apply NoDup_app in H5 as (_ & H5 & _). by apply (H5 y).
  - by apply NoDup_cons in Hnd' as [_ ?].
Qed.

(** The pages of the child hold what the parent's held in [m]. *)
Definition pages_copied (V V' : Z -> Z) (n : nat) (m m' : memory) : Prop :=
  forall j, (j < n)%nat -> exists p, (p ∈ frames V' 0 n) /\ free_page p /\
    V' (Z.of_nat j * PGSIZE) = pte p (PTE_FLAGS (V (Z.of_nat j * PGSIZE))) /\
    forall off, 0 <= off < PGSIZE -> rd m' (p + off) = rd m (PTE2PA (V (Z.of_nat j * PGSIZE)) + off).

Lemma fork_copy s l pp T V i q held m f l1 tf root Tn Vn :
  proc_mem s l pp T V ->
  let q1 := new_proc q (k_nextpid s) tf root in let s1 := after i q1 held m f s in
  outside_same l (k_mem s) m -> p_sz q = 0 -> proc_mem s1 l1 q1 Tn Vn -> proc_pages q1 Tn Vn ++ l1 ≡ₚ l ->
  exists r m' f' l' T' V', uvmcopy (p_pagetable pp) root (p_sz pp) s1 = Ret r (after i q1 held m' f' s) /\
    let s2 := after i q1 held m' f' s in outside_same l (k_mem s) m' /\
    (r = -1 /\ proc_mem s2 l' q1 T' V' /\ proc_pages q1 T' V' ++ l' ≡ₚ l \/
     r = 0 /\ let q2 := set_p_sz (p_sz pp) q1 in
       proc_mem s2 l' q2 T' V' /\ proc_pages q2 T' V' ++ l' ≡ₚ l /\ pages_copied V V' (npages (p_sz pp)) (k_mem s) m').
Proof using LO.
  intros Hpar q1 s1 Ho Hsz [Hu1 _ Hhigh Htf Hown] Hperm.
  assert (Hn0 : npages (p_sz q1) = 0%nat) by (change (p_sz q1) with (p_sz q); by rewrite Hsz).
  unfold proc_pages, account in Hown, Hperm. rewrite Hn0 in Hu1, Hown, Hperm. cbn [frames seq fmap list_fmap app] in Hown, Hperm.
  assert (Hpar1 : proc_mem s1 l1 pp T V).
  { eapply proc_mem_keep; [exact Hpar|apply Hu1|apply Hu1|exact Ho|exists (p_trapframe q1 :: tables Tn)]. by rewrite <- Hperm. }
  destruct Hpar as [Hup Hps Hph Hpt Hpo]. unfold account in Hpo.
  assert (Hdis : NoDup (frames V 0 (npages (p_sz pp)) ++ tables T ++ tables Tn ++ l1)).
  { rewrite <- Hperm in Hpo. apply (NoDup_app (p_trapframe q1 :: p_trapframe pp :: nil)). nodup_perm Hpo. }
  destruct (uvmcopy_spec s1 l1 (p_pagetable pp) T V root Tn Vn (p_sz pp) (pm_space _ _ _ _ _ Hpar1) Hu1 Hdis Hps)
    as (r & s2 & l2 & T2 & V2 & k & E & Hr & [C1 C2 C3 C4 C5 C6 C7] & _ & _).
  destruct (after_mem_only _ _ _ _ _ _ _ C3) as (m2 & f2 & ->). exists r, m2, f2, l2, T2, V2. split; [exact E|]. cbv zeta.
  assert (Hk : Z.of_nat k * PGSIZE <= TRAPFRAME) by apply C1. destruct upage_high as (Hup1 & Hup2 & Hlt).
  assert (Hh2 : high_mapped (p_trapframe q1) V2) by (split; rewrite C5 by (done || lia); apply Hhigh).
  assert (Hall : p_trapframe q1 :: account V2 k T2 l2 ≡ₚ l) by (by rewrite C7, <- Hperm).
  assert (Hnd : NoDup l) by (destruct (us_vm _ _ _ _ _ _ Hup) as [[]]; done).
  split.
  { eapply outside_same_trans; [exact Ho|]. eapply outside_same_incl; [|exact C4]. intros y. rewrite <- Hperm. sublist. }
  destruct Hr as [[-> ->]|[-> ->]]; [right|left]; (split; [done|]).
  - split_and!; [split; [exact C1|exact Hps|exact Hh2|exact Htf|]|..].
    + rewrite <- Hall in Hnd. exact Hnd.
    + rewrite <- Hall. unfold proc_pages, account. cbn [p_sz set_p_sz p_trapframe]. solve_Permutation.
    + intros j Hj. destruct (C6 j Hj) as (p & Hp & HV & Hb). exists p.
      assert (Hin : p ∈ frames V2 0 (npages (p_sz pp))).
      { apply list_elem_of_fmap. exists j. rewrite Z.add_0_l, HV. split; [|apply elem_of_seq; lia].
        destruct (page_ok p Hp) as (? & ? & ?). symmetry. apply pte_pa; [plia|done|]. unfold PTE_FLAGS. change 0x3FF with (Z.ones 10). rewrite Z.land_ones by lia. apply Z.mod_pos_bound. lia. }
      split_and!; [exact Hin|exact Hp|exact HV|]. intros off Hoff. refine (eq_trans (Hb off Hoff) _).
      assert (Hfr : PTE2PA (V (Z.of_nat j * PGSIZE)) ∈ frames V 0 (npages (p_sz pp))).
      { apply list_elem_of_fmap. exists j. rewrite Z.add_0_l. split; [done|apply elem_of_seq; lia]. }
      pose proof (us_pages _ _ _ _ _ _ Hup) as Hpg. rewrite Forall_forall in Hpg.
      apply (outside_page l (PTE2PA (V (Z.of_nat j * PGSIZE))) _ (k_mem s) m Ho); [apply Hup|by apply Hpg| |unfold in_page; lia].
      apply NoDup_cons in Hpo as [_ Hpo]. apply NoDup_app in Hpo as (_ & Hpo & _). intros Hl. apply (Hpo _ Hfr). rewrite elem_of_app. by right.
  - split_and!; [split; rewrite ?Hn0; [exact C1| |exact Hh2|exact Htf|]|..].
    + change (p_sz q1) with (p_sz q). rewrite Hsz. unfold TRAPFRAME, TRAMPOLINE. plia.
    + rewrite <- Hall in Hnd. exact Hnd.
    + rewrite <- Hall. unfold proc_pages, account. rewrite Hn0. solve_Permutation.
Qed.
(** A write to a page of the process itself, not a page table nor free. *)
Lemma proc_mem_write s l q T V s' p :
  proc_mem s l q T V -> outside_same [p] (k_mem s) (k_mem s') -> free_page p -> p ∉ tables T ++ l ->
  k_freelist s' = k_freelist s -> LkKmem ∉ k_held s' -> proc_mem s' l q T V.
Proof using LO.
  intros [H1 H2 H3 H4 H5] Ho Hp Hnin Hf Hlk. pose proof (us_vm _ _ _ _ _ _ H1) as [[Hc Hnd Hpg] _ _ _ _].
  rewrite elem_of_app in Hnin. split; try done. apply (uspace_keep s l s' l _ T V _ [p] H1); try done.
  - split; try done. rewrite Hf. eapply chain_frame; [|exact Hc]. intros y x Hy Hx.
    rewrite Forall_forall in Hpg. apply (outside_page [p] y x _ _ Ho); [by apply Forall_singleton|by apply Hpg| |done].
    intros ->%list_elem_of_singleton. tauto.
  - by apply Forall_singleton.
  - intros y Hy ->%list_elem_of_singleton. tauto.
  - by apply NoDup_cons in H5 as [_ ?].
Qed.

(** The child's registers: the parent's, with a0 = 0. *)
Definition child_tf (m : memory) (tf src : Z) : memory := st64 (memmove tf src sizeof_trapframe m) (tf + tf_a0) 0.

Lemma read_bytes_move n m m' a b :
  (forall k, 0 <= k < Z.of_nat n -> rd m' (a + k) = rd m (b + k)) -> read_bytes m' a n = read_bytes m b n.
Proof using Type.
  revert a b. induction n as [|n IH]; intros a b H; cbn [read_bytes]; [done|]. f_equal.
  - generalize (H 0 ltac:(lia)). by rewrite !Z.add_0_r.
  - apply IH. intros k Hk. generalize (H (1 + k) ltac:(lia)). by rewrite !Z.add_assoc.
Qed.

Lemma ld64_move m m' a b : (forall k, 0 <= k < 8 -> rd m' (a + k) = rd m (b + k)) -> ld64 m' a = ld64 m b.
Proof using Type. intros H. with_strategy transparent [ld64] unfold ld64. f_equal. by apply read_bytes_move. Qed.

Lemma child_tf_regs m tf src off :
  0 <= off -> off + 8 <= sizeof_trapframe -> off mod 8 = 0 ->
  ld64 (child_tf m tf src) (tf + off) = if decide (off = tf_a0) then 0 else ld64 m (src + off).
Proof using Type.
  unfold child_tf, sizeof_trapframe, tf_a0. intros H0 H1 H2. case_decide as D.
  - subst off. by rewrite ld64_st64.
  - apply ld64_move. intros k Hk. rewrite rd_st64_out by plia. rewrite rd_memmove by lia.
    rewrite decide_True by lia. f_equal. lia.
Qed.

Lemma child_tf_out m tf src : outside_same [tf] m (child_tf m tf src).
Proof using Type.
  intros x Hx. specialize (Hx tf ltac:(by left)). unfold in_page in Hx. unfold child_tf.
  rewrite rd_st64_out by (unfold tf_a0; plia). rewrite rd_memmove by (unfold sizeof_trapframe; lia).
  rewrite decide_False; [done|]. unfold sizeof_trapframe. plia.
Qed.

(** ** Open files *)

(** How often descriptor table [ofs] refers to file [f]. *)
Definition fd_count (f : nat) (ofs : list (option nat)) : Z := Z.of_nat (length (filter (fun o => o = Some f) ofs)).

(** The file table with one more reference for each descriptor of [ofs]. *)
Definition dup_refs (ofs : list (option nat)) (t : list file) : list file :=
  imap (fun f x => set_f_ref (f_ref x + fd_count f ofs) x) t.

Lemma fd_count_snoc f ofs o : fd_count f (ofs ++ [o]) = fd_count f ofs + (if decide (o = Some f) then 1 else 0).
Proof using Type.
  unfold fd_count. rewrite filter_app, length_app, filter_cons, filter_nil. case_decide; cbn [length]; lia.
Qed.

Lemma set_f_ref_0 x : set_f_ref (f_ref x + 0) x = x.
Proof using Type. rewrite Z.add_0_r. by destruct x. Qed.

Lemma dup_refs_nil t : dup_refs [] t = t.
Proof using Type.
  apply list_eq. intros f. unfold dup_refs. rewrite list_lookup_imap.
  destruct (t !! f) as [x|]; cbn; [f_equal; apply set_f_ref_0|done].
Qed.

Lemma dup_refs_none ofs t : dup_refs (ofs ++ [None]) t = dup_refs ofs t.
Proof using Type.
  apply list_eq. intros f. unfold dup_refs. rewrite !list_lookup_imap. destruct (t !! f) as [x|]; cbn; [|done].
  rewrite fd_count_snoc, decide_False by done. by rewrite Z.add_0_r.
Qed.

Lemma dup_refs_some ofs t f x : t !! f = Some x ->
  dup_refs ofs t !! f = Some (set_f_ref (f_ref x + fd_count f ofs) x) /\
  dup_refs (ofs ++ [Some f]) t = <[f := set_f_ref (f_ref x + fd_count f ofs + 1) x]> (dup_refs ofs t).
Proof using Type.
  intros Hx. unfold dup_refs. split; [rewrite list_lookup_imap; by rewrite Hx|].
  apply list_eq. intros g. pose proof (lookup_lt_Some _ _ _ Hx). rewrite list_lookup_imap. destruct (decide (g = f)) as [->|D].
  - rewrite list_lookup_insert_eq by (by rewrite length_imap). rewrite Hx. cbn.
    rewrite fd_count_snoc, decide_True by done. by rewrite Z.add_assoc.
  - rewrite list_lookup_insert_ne by done. rewrite list_lookup_imap. destruct (t !! g) as [y|]; cbn; [|done].
    rewrite fd_count_snoc, decide_False by (intros [= ->]; done). by rewrite Z.add_0_r.
Qed.
Lemma run_get_file {A} fd x (k : file -> K A) s : k_ftable s !! fd = Some x -> bind (get_file fd) k s = k x s.
Proof using Type. intros H. unfold get_file. rewrite bind_assoc, run_gets, H. cbn [of_option]. apply run_ret. Qed.

(** ** The state while fork fills in the child *)

Section Forked.
Context (s : kstate) (p i : nat) (pp q0 : proc).
Hypothesis (Hp : k_procs s !! p = Some pp) (Hi : k_procs s !! i = Some q0) (Hne : p <> i).

Definition forked (q : proc) held m f t it : kstate := set_k_itable it (set_k_ftable t (after i q held m f s)).

Lemma after_forked q held m f : after i q held m f s = forked q held m f (k_ftable s) (k_itable s).
Proof using Type. reflexivity. Qed.

Lemma forked_child q held m f t it : k_procs (forked q held m f t it) !! i = Some q.
Proof using Hi. by apply (after_at i q q0 held m f s). Qed.

Lemma forked_parent q held m f t it : k_procs (forked q held m f t it) !! p = Some pp.
Proof using Hp Hne. unfold forked, after, with_proc. ks. by rewrite list_lookup_insert_ne. Qed.

Lemma forked_upd {A} g (k : unit -> K A) q held m f t it :
  bind (upd_proc i g) k (forked q held m f t it) = k tt (forked (g q) held m f t it).
Proof using Hi.
  rewrite (run_upd_proc i q) by apply forked_child. f_equal. unfold forked, after, with_proc. ks. by rewrite list_insert_insert_eq.
Qed.

Lemma forked_filedup fd x q m f t it :
  t !! fd = Some x -> 1 <= f_ref x ->
  filedup fd (forked q [LkProc i] m f t it) = Ret fd (forked q [LkProc i] m f (<[fd := set_f_ref (f_ref x + 1) x]> t) it).
Proof using Type.
  intros Hx Hr. unfold filedup. rewrite run_acquire by (unfold forked, after; ks; clear; set_solver).
  rewrite (run_get_file fd x) by exact Hx. destruct (Z.ltb_spec (f_ref x) 1) as [Hlt|_]; [clear -Hlt Hr; lia|].
  unfold upd_file. rewrite bind_assoc, (run_get_file fd x) by exact Hx. rewrite run_modify.
  rewrite (run_release _ [LkProc i]) by reflexivity. reflexivity.
Qed.

Lemma forked_release {A} lk (k : unit -> K A) q m f t it :
  bind (release lk) k (forked q [lk] m f t it) = k tt (forked q [] m f t it).
Proof using Type. rewrite (run_release _ []) by reflexivity. reflexivity. Qed.

Lemma forked_acquire {A} lk (k : unit -> K A) q m f t it :
  bind (acquire lk) k (forked q [] m f t it) = k tt (forked q [lk] m f t it).
Proof using Type. rewrite run_acquire by apply not_elem_of_nil. reflexivity. Qed.

(** The loop over the descriptors. *)
Lemma forked_dup q m f t it : length (p_ofile pp) = nofile ->
  (forall fd fl, p_ofile pp !! fd = Some (Some fl) -> exists x, t !! fl = Some x /\ 1 <= f_ref x) ->
  forall k j, (j + k = nofile)%nat ->
  for_each (seq j k) (fun fd =>
      let! fl := get_ofile p fd in
      match fl with
      | None => ret tt
      | Some fl => let! fl' := filedup fl in set_ofile i fd (Some fl')
      end)
    (forked (set_p_ofile (take j (p_ofile pp) ++ replicate k None) q) [LkProc i] m f (dup_refs (take j (p_ofile pp)) t) it) =
  Ret tt (forked (set_p_ofile (p_ofile pp) q) [LkProc i] m f (dup_refs (p_ofile pp) t) it).
Proof using Hp Hi Hne.
  intros Hlen Hok. induction k as [|k IH]; intros j Hj; cbn [seq for_each].
  - cbn [replicate]. rewrite app_nil_r. by rewrite !take_ge by lia.
  - destruct (lookup_lt_is_Some_2 (p_ofile pp) j) as [o Ho]; [lia|]. unfold get_ofile. rewrite !bind_assoc.
    rewrite (run_get_proc p pp) by apply forked_parent. rewrite Ho. cbn [of_option]. rewrite run_ret.
    specialize (IH (S j) ltac:(lia)). rewrite (take_S_r _ _ _ Ho) in IH.
    assert (Hlt : length (take j (p_ofile pp)) = j) by (rewrite length_take; lia).
    destruct o as [fl|].
    + destruct (Hok _ _ Ho) as (x & Hx & Hr). destruct (dup_refs_some (take j (p_ofile pp)) t fl x Hx) as [H1 H2].
      rewrite bind_assoc. erewrite bind_Ret; [|eapply forked_filedup; [exact H1|cbn; unfold fd_count; lia]].
      unfold set_ofile. rewrite forked_upd. cbn [p_ofile set_p_ofile f_ref set_f_ref] in *.
      rewrite insert_app_r_alt by lia. rewrite Hlt, Nat.sub_diag. cbn [replicate insert list_insert]. rewrite H2, <- app_assoc in IH. exact IH.
    + rewrite run_ret. rewrite dup_refs_none, <- app_assoc in IH. exact IH.
Qed.
Lemma forked_idup c n q m f t it :
  it !! c = Some n ->
  idup c (forked q [LkProc i] m f t it) = Ret c (forked q [LkProc i] m f t (<[c := set_i_ref (i_ref n + 1) n]> it)).
Proof using Type.
  intros Hn. unfold idup. rewrite run_acquire by (unfold forked, after; ks; clear; set_solver).
  rewrite (run_upd_inode c n) by exact Hn. rewrite (run_release _ [LkProc i]) by reflexivity. reflexivity.
Qed.

(** The child's record in the end. *)
Definition child_proc (q : proc) (c : nat) : proc :=
  set_p_state RUNNABLE (set_p_parent (Some p) (set_p_name (safestrcpy_bytes (p_name q) (p_name pp) 16)
    (set_p_cwd (Some c) (set_p_ofile (p_ofile pp) q)))).

(** fork after the copy of the memory. *)
Definition fork_fill (p : nat) (pp : proc) (i : nat) (tf : Z) : K Z :=
  mem_move tf (p_trapframe pp) sizeof_trapframe ;;
  store64 (tf + tf_a0) 0 ;;
  for_each (seq 0 nofile) (fun fd =>
    let! fl := get_ofile p fd in
    match fl with
    | None => ret tt
    | Some fl => let! fl' := filedup fl in set_ofile i fd (Some fl')
    end) ;;
  let! cwd := of_option (p_cwd pp) in
  let! cwd := idup cwd in
  upd_proc i (set_p_cwd (Some cwd)) ;;
  upd_proc i (fun x => set_p_name (safestrcpy_bytes (p_name x) (p_name pp) 16) x) ;;
  let! npp := get_proc i in
  let pid := p_pid npp in
  release (LkProc i) ;;
  acquire LkWait ;;
  upd_proc i (set_p_parent (Some p)) ;;
  release LkWait ;;
  acquire (LkProc i) ;;
  upd_proc i (set_p_state RUNNABLE) ;;
  release (LkProc i) ;;
  ret pid.

Lemma fork_finish q m f t it c n :
  length (p_ofile pp) = nofile -> p_ofile q = replicate nofile None ->
  (forall fd fl, p_ofile pp !! fd = Some (Some fl) -> exists x, t !! fl = Some x /\ 1 <= f_ref x) ->
  p_cwd pp = Some c -> it !! c = Some n ->
  fork_fill p pp i (p_trapframe q) (forked q [LkProc i] m f t it) =
  Ret (p_pid q) (forked (child_proc q c) [] (child_tf m (p_trapframe q) (p_trapframe pp)) f
    (dup_refs (p_ofile pp) t) (<[c := set_i_ref (i_ref n + 1) n]> it)).
Proof using Hp Hi Hne.
  intros Hlen Hof Hok Hc Hn. unfold fork_fill, mem_move, store64. rewrite !run_modify.
  assert (Hq : q = set_p_ofile (take 0 (p_ofile pp) ++ replicate nofile None) q) by (destruct q; cbn in *; by subst).
  pose proof (forked_dup q (child_tf m (p_trapframe q) (p_trapframe pp)) f t it Hlen Hok nofile 0 eq_refl) as Hd.
  rewrite <- Hq in Hd. change (take 0 (p_ofile pp)) with (@nil (option nat)) in Hd. rewrite dup_refs_nil in Hd.
  rewrite (bind_Ret _ _ _ _ _ Hd). rewrite Hc. cbn [of_option]. rewrite run_ret.
  rewrite (bind_Ret _ _ _ _ _ (forked_idup c n _ _ _ _ _ Hn)). rewrite !forked_upd.
  erewrite run_get_proc by apply forked_child. cbv zeta.
  rewrite forked_release, forked_acquire, forked_upd, forked_release, forked_acquire, forked_upd, forked_release. reflexivity.
Qed.
End Forked.
(** ** fork *)

Definition procs_idle (s : kstate) : Prop := Forall (fun q => unused q -> idle q) (k_procs s).

(** The running process [p], with its memory, its open files and its current
    directory, in a kernel that holds no lock. *)
Record fork_ready (s : kstate) (l : list Z) (p : nat) (pp : proc) T V (c : nat) (n : inode) : Prop := {
  fr_held : k_held s = [];
  fr_full : procs_full s;
  fr_cur : k_cur s = Some p;
  fr_proc : k_procs s !! p = Some pp;
  fr_live : ~ unused pp;
  fr_mem : proc_mem s l pp T V;
  fr_idle : procs_idle s;
  fr_fds : length (p_ofile pp) = nofile;
  fr_files : forall fd fl, p_ofile pp !! fd = Some (Some fl) -> exists x, k_ftable s !! fl = Some x /\ 1 <= f_ref x;
  fr_cwd : p_cwd pp = Some c;
  fr_inode : k_itable s !! c = Some n;
}.

(** No child: the parent and its memory are as before, and so is the set of
    free pages; at most one unused slot was used and is free again. *)
Definition fork_failed (s : kstate) (l : list Z) (pp : proc) T V (s' : kstate) : Prop :=
  exists l', l' ≡ₚ l /\ proc_mem s' l' pp T V /\ outside_same l (k_mem s) (k_mem s') /\
    (s' = s \/ exists i q q' m f, k_procs s !! i = Some q /\ unused q /\ unused q' /\ s' = after i q' [] m f s).

(** The child in slot [i]: pages of its own taken from the free ones, with the
    parent's bytes and permissions; the parent's registers but a0; the
    parent's descriptors, each counted once more, and current directory. *)
Definition fork_child (s : kstate) (l : list Z) (p : nat) (pp : proc) T V (c : nat) (n : inode) (i : nat) (s' : kstate) : Prop :=
  exists q tf root m f T' V' l',
    let q' := child_proc p pp (set_p_sz (p_sz pp) (new_proc q (k_nextpid s) tf root)) c in
    k_procs s !! i = Some q /\ unused q /\
    s' = forked s i q' [] m f (dup_refs (p_ofile pp) (k_ftable s)) (<[c := set_i_ref (i_ref n + 1) n]> (k_itable s)) /\
    proc_mem s' l' pp T V /\ proc_mem s' l' q' T' V' /\ proc_pages q' T' V' ++ l' ≡ₚ l /\
    outside_same l (k_mem s) m /\ pages_copied V V' (npages (p_sz pp)) (k_mem s) m /\
    forall off, 0 <= off -> off + 8 <= sizeof_trapframe -> off mod 8 = 0 ->
      ld64 m (tf + off) = if decide (off = tf_a0) then 0 else ld64 (k_mem s) (p_trapframe pp + off).

Lemma procs_idle_after i q' held m f t it s : procs_idle s -> (unused q' -> idle q') ->
  procs_idle (forked s i q' held m f t it).
Proof using Type. intros Hs Hq. apply Forall_insert; done. Qed.

Lemma idle_freed q pid tf root : idle q -> idle (freed_proc (new_proc q pid tf root)).
Proof using Type. intros (_ & _ & _ & H). split_and!; done. Qed.

Lemma proc_mem_fields s l q T V q' : proc_mem s l q T V -> p_pagetable q' = p_pagetable q -> p_sz q' = p_sz q ->
  p_trapframe q' = p_trapframe q -> proc_mem s l q' T V.
Proof using Type. intros [H1 H2 H3 H4 H5] E1 E2 E3. by split; rewrite ?E1, ?E2, ?E3. Qed.

(** After allocproc, when uvmcopy found no page. *)
Lemma fork_undo s l pp T V i q m f l' tf root T' V' :
  procs_idle s -> k_procs s !! i = Some q -> unused q -> idle q -> proc_mem s l pp T V ->
  let q1 := new_proc q (k_nextpid s) tf root in
  proc_mem (after i q1 [LkProc i] m f s) l' q1 T' V' -> proc_pages q1 T' V' ++ l' ≡ₚ l -> outside_same l (k_mem s) m ->
  exists s', (freeproc i ;; release (LkProc i) ;; ret (-1)) (after i q1 [LkProc i] m f s) = Ret (-1) s' /\
    procs_idle s' /\ fork_failed s l pp T V s'.
Proof using LO.
  intros Hpi Hq Hu Hidle Hpar q1 Hm Hperm Ho. set (s1 := after i q1 [LkProc i] m f s) in *.
  destruct (freeproc_ok i q1 s1 l' T' V' (after_at _ _ _ _ _ _ _ Hq) Hm) as (s2 & l2 & E & (m2 & f2 & E2) & Hk & Hl & Ho2).
  rewrite (bind_Ret _ _ _ _ _ E). assert (Es2 : s2 = after i (freed_proc q1) [LkProc i] m2 f2 s) by (rewrite E2; apply after_mem).
  rewrite (run_release _ []) by (by rewrite Es2). eexists. split; [reflexivity|]. split.
  { rewrite Es2. apply (procs_idle_after i (freed_proc q1) [] m2 f2 (k_ftable s) (k_itable s) s Hpi). intros _. by apply idle_freed. }
  rewrite Es2 in *. exists l2. rewrite Hperm in Hl. split; [exact Hl|].
  assert (Ho' : outside_same l (k_mem s) m2).
  { eapply outside_same_trans; [exact Ho|]. eapply outside_same_incl; [|exact Ho2]. intros y Hy. rewrite <- Hperm, elem_of_app. by left. }
  split_and!.
  - eapply proc_mem_keep; [exact Hpar| |apply not_elem_of_nil|exact Ho'|]; [|exists []; exact Hl]. destruct Hk; by split.
  - exact Ho'.
  - right. exists i, q, (freed_proc q1), m2, f2. split_and!; done.
Qed.
(** After the copy of the memory. *)
Lemma fork_done s l p pp T V c n i q m f l' tf root T' V' :
  fork_ready s l p pp T V c n -> k_procs s !! i = Some q -> unused q -> idle q ->
  let q2 := set_p_sz (p_sz pp) (new_proc q (k_nextpid s) tf root) in
  proc_mem (after i (new_proc q (k_nextpid s) tf root) [LkProc i] m f s) l' q2 T' V' -> proc_pages q2 T' V' ++ l' ≡ₚ l ->
  outside_same l (k_mem s) m -> pages_copied V V' (npages (p_sz pp)) (k_mem s) m ->
  fork_child s l p pp T V c n i
    (forked s i (child_proc p pp q2 c) [] (child_tf m tf (p_trapframe pp)) f (dup_refs (p_ofile pp) (k_ftable s))
       (<[c := set_i_ref (i_ref n + 1) n]> (k_itable s))).
Proof using LO.
  intros Hr Hq Hu Hidle q2 Hm Hperm Ho Hcp. set (s' := forked _ _ _ _ _ _ _ _).
  assert (Htf : tf ∈ l) by (rewrite <- Hperm; unfold proc_pages; by left).
  assert (Hpar : proc_mem (after i (new_proc q (k_nextpid s) tf root) [LkProc i] m f s) l' pp T V).
  { eapply proc_mem_keep; [apply Hr|apply Hm|apply Hm|exact Ho|by eexists]. }
  pose proof (child_tf_out m tf (p_trapframe pp)) as Hco. pose proof (pm_tf _ _ _ _ _ Hm) as Hfree.
  destruct (fr_mem _ _ _ _ _ _ _ _ Hr) as [Hup _ _ Hptf Hpo]. unfold account in Hpo.
  pose proof (pm_own _ _ _ _ _ Hm) as Hown. unfold account in Hown. apply NoDup_cons in Hown as [Hown _]. rewrite !elem_of_app in Hown.
  apply NoDup_cons in Hpo as [Hpn Hpo]. rewrite !elem_of_app in Hpn.
  apply NoDup_app in Hpo as (_ & _ & Hpo). apply NoDup_app in Hpo as (_ & Hpo & _).
  exists q, tf, root, (child_tf m tf (p_trapframe pp)), f, T', V', l'. cbv zeta. fold q2. split_and!; [exact Hq|exact Hu|reflexivity|..].
  - eapply (proc_mem_write _ _ _ _ _ s' tf Hpar Hco Hfree); [|reflexivity|apply not_elem_of_nil].
    rewrite elem_of_app. intros [Hx|Hx]; [by apply (Hpo tf)|]. apply Hown. by right; right.
  - eapply (proc_mem_fields _ _ q2); [|reflexivity..].
    eapply (proc_mem_write _ _ _ _ _ s' tf Hm Hco Hfree); [|reflexivity|apply not_elem_of_nil].
    rewrite elem_of_app. intros Hx. apply Hown. tauto.
  - exact Hperm.
  - eapply outside_same_trans; [exact Ho|]. eapply outside_same_incl; [|exact Hco]. intros y ->%list_elem_of_singleton. exact Htf.
  - intros j Hj. destruct (Hcp j Hj) as (pg & Hin & Hpg & HV & Hb). exists pg. split_and!; [exact Hin|exact Hpg|exact HV|].
    intros off Hoff. refine (eq_trans _ (Hb off Hoff)).
    apply (outside_page [tf] pg _ _ _ Hco); [by apply Forall_singleton|exact Hpg| |unfold in_page; lia].
    intros ->%list_elem_of_singleton. apply Hown. by left.
  - intros off H0 H1 H2. rewrite child_tf_regs by assumption. case_decide; [reflexivity|]. apply ld64_ext. intros x Hx.
    apply (outside_page l (p_trapframe pp) _ _ _ Ho); [apply Hup|exact Hptf| |unfold in_page, sizeof_trapframe in *; plia].
    intros Hx'. apply Hpn. by right; right.
Qed.

Lemma fork_alloc s p : k_cur s = Some p ->
  fork s = (let! o := allocproc in
    match o with
    | None => ret (-1)
    | Some np =>
        let! pp := get_proc p in
        let! npp := get_proc np in
        let! r := uvmcopy (p_pagetable pp) (p_pagetable npp) (p_sz pp) in
        if r <? 0 then freeproc np ;; release (LkProc np) ;; ret (-1)
        else upd_proc np (set_p_sz (p_sz pp)) ;; fork_fill p pp np (p_trapframe npp)
    end) s.
Proof using Type. intros Hc. unfold fork, me, myproc. rewrite bind_assoc, run_gets, Hc. reflexivity. Qed.

Lemma fork_ok s l p pp T V c n :
  fork_ready s l p pp T V c n ->
  exists r s', fork s = Ret r s' /\ procs_idle s' /\
    (r = -1 /\ fork_failed s l pp T V s' \/
     r = k_nextpid s /\ exists i, fork_child s l p pp T V c n i s').
Proof using LO.
  intros Hr. pose proof Hr as [Hh Hfull Hcur Hp Hlive Hmem Hidle Hfds Hfl Hcwd Hino]. rewrite (fork_alloc s p Hcur).
  pose proof (us_vm _ _ _ _ _ _ (pm_space _ _ _ _ _ Hmem)) as Hvm. pose proof (allocproc_ok s l Hh Hfull (vm_kmem _ _ _ _ Hvm) Hidle) as Ha.
  destruct (list_find unused (k_procs s)) as [[i q]|] eqn:Ef.
  2:{ rewrite (bind_Ret _ _ _ _ _ Ha). eexists _, s. split; [reflexivity|]. split; [exact Hidle|]. left. split; [reflexivity|].
      exists l. split_and!; [reflexivity|exact Hmem|intros ? ?; reflexivity|by left]. }
  apply list_find_Some in Ef as (Hq & Hu & _). pose proof (proj1 (Forall_lookup _ _) Hidle i q Hq Hu) as Hi.
  destruct Ha as (o & s1 & E & m & f & l1 & Ho & Hcase). rewrite (bind_Ret _ _ _ _ _ E). destruct o as [i'|].
  2:{ destruct Hcase as (-> & Hk & Hl). eexists _, _. split; [reflexivity|]. split.
      - apply (procs_idle_after i _ [] m f (k_ftable s) (k_itable s) s Hidle). intros _. destruct Hi as (_ & _ & _ & Hi). split_and!; done.
      - left. split; [reflexivity|]. exists l1. split_and!; [exact Hl| |exact Ho|].
        + eapply proc_mem_keep; [exact Hmem|exact Hk|apply not_elem_of_nil|exact Ho|by exists []].
        + right. exists i, q, (freed_proc q), m, f. split_and!; done. }
  destruct Hcase as (-> & tf & root & Tn & Vn & -> & Hm1 & Hperm). set (q1 := new_proc q (k_nextpid s) tf root) in *.
  assert (Hne : p <> i) by (intros ->; congruence).
  rewrite (run_get_proc p pp) by exact (forked_parent s p i pp Hp Hne q1 [LkProc i] m f (k_ftable s) (k_itable s)).
  rewrite (run_get_proc i q1) by (by apply (after_at i q1 q)).
  destruct (fork_copy s l pp T V i q [LkProc i] m f l1 tf root Tn Vn Hmem Ho (proj1 (proj2 (proj2 Hi))) Hm1 Hperm)
    as (r & m2 & f2 & l2 & T2 & V2 & E2 & Ho2 & Hcase). rewrite (bind_Ret _ _ _ _ _ E2).
  destruct Hcase as [(-> & Hm2 & Hp2)|(-> & Hm2 & Hp2 & Hcp)]; cbn [Z.ltb Z.compare].
  - destruct (fork_undo s l pp T V i q m2 f2 l2 tf root T2 V2 Hidle Hq Hu Hi Hmem Hm2 Hp2 Ho2) as (s' & E' & Hi' & Hf').
    exists (-1), s'. split; [exact E'|]. split; [exact Hi'|]. by left.
  - rewrite after_forked. rewrite (forked_upd s i q Hq). fold q1.
    pose proof (fork_finish s p i pp q Hp Hq Hne (set_p_sz (p_sz pp) q1) m2 f2 _ _ c n Hfds (proj2 (proj2 (proj2 Hi))) Hfl Hcwd Hino) as Efin.
    eexists _, _. split; [exact Efin|]. split; [by apply procs_idle_after|]. right. split; [reflexivity|]. exists i.
    apply (fork_done s l p pp T V c n i q m2 f2 l2 tf root T2 V2); try assumption.
Qed.

(** C14. fork never panics and returns -1 or the child's pid. It returns -1 only
    with the parent, its memory and the set of free pages as before and
    every table but the slot it tried unchanged. Otherwise the child is
    RUNNABLE with the next pid and the caller as its parent; its trapframe,
    page table and frames are pages that were free, disjoint from the
    parent's; each of its pages has the parent's bytes and permissions; its
    saved registers are the parent's except a0 = 0; it has the parent's
    descriptors and current directory, and exactly these references are
    counted once more. Unused slots own no memory, before and after. *)
Theorem fork_copies_process s l p pp T V c n :
  fork_ready s l p pp T V c n ->
  exists r s', fork s = Ret r s' /\ procs_idle s' /\
    (r = -1 /\ fork_failed s l pp T V s' \/
     r = k_nextpid s /\ exists i, fork_child s l p pp T V c n i s').
Proof using LO. apply fork_ok. Qed.
End Fork.

(** ** Example *)

Definition fork_boot : K (option nat) :=
  for_each some_pages (@kfree kernel_sym) ;; @allocproc kernel_sym.

Lemma fork_boot_ok r s : fork_boot (kstate0 ∅ empty_disk) = Ret r s -> r = Some 0%nat.
Proof.
  assert (H : match fork_boot (kstate0 ∅ empty_disk) with Ret r _ => bool_decide (r = Some 0%nat) | _ => false end = true)
    by (vm_compute; reflexivity).
  intros E. rewrite E in H. by apply bool_decide_eq_true in H.
Qed.

(** A process with one open file and a current directory. *)
Definition a_parent (q : proc) : proc :=
  set_p_state RUNNING (set_p_cwd (Some 0%nat) (set_p_ofile (<[0%nat := Some 0%nat]> (p_ofile q)) q)).

(** Process 0 runs as such a process. *)
Definition start_parent (s : kstate) : kstate :=
  set_k_cur (Some 0%nat) (set_k_ftable (<[0%nat := set_f_ref 1 zero_file]> (k_ftable s))
    (set_k_held [] (set_k_procs (alter a_parent 0%nat (k_procs s)) s))).

Lemma start_parent_after q m f s : (0 < length (k_procs s))%nat ->
  start_parent (after 0 q [LkProc 0] m f s) =
  set_k_cur (Some 0%nat) (set_k_ftable (<[0%nat := set_f_ref 1 zero_file]> (k_ftable s)) (after 0 (a_parent q) [] m f s)).
Proof. intros H. unfold start_parent, after, with_proc. ks. destruct (k_procs s) as [|x ps]; [cbn in H; lia|done]. Qed.

Lemma fork_example_ok r s : (fork_boot ;; modify start_parent ;; @fork kernel_sym) (kstate0 ∅ empty_disk) = Ret r s -> r = 2.
Proof.
  assert (H : match (fork_boot ;; modify start_parent ;; @fork kernel_sym) (kstate0 ∅ empty_disk) with Ret r _ => r =? 2 | _ => false end = true)
    by (vm_compute; reflexivity).
  intros E. rewrite E in H. by apply Z.eqb_eq in H.
Qed.

Lemma fork_ready_example :
  exists s l pp T V c n, @fork_ready kernel_sym s l 0 pp T V c n /\ p_state pp = RUNNING /\
    Forall (fun x => p_state x <> ZOMBIE) (k_procs s) /\ forall r s', @fork kernel_sym s = Ret r s' -> r = 2.
Proof.
  destruct (@kfree_list kernel_sym kernel_sym_ok some_pages (kstate0 ∅ empty_disk) []) as (s & E & Hk & m0 & f0 & Es).
  { split; [done|constructor|constructor]. }
  { rewrite app_nil_r. apply NoDup_fmap_2; [intros i j; plia|apply NoDup_seq]. }
  { repeat constructor; vm_compute; intuition discriminate. }
  { by apply not_elem_of_nil. }
  rewrite app_nil_r in Hk. assert (Hi : Forall (fun q => unused q -> idle q) (k_procs s)).
  { rewrite Es. apply Forall_replicate. intros _. by split_and!. }
  pose proof (@allocproc_ok kernel_sym kernel_sym_ok s (reverse some_pages)) as Ha. specialize (Ha ltac:(by rewrite Es) ltac:(by rewrite Es) Hk Hi).
  assert (Ef : list_find unused (k_procs s) = Some (0%nat, zero_proc)) by (rewrite Es; reflexivity). rewrite Ef in Ha.
  destruct Ha as (r & s' & E' & m & f & l & Ho & Hcase). rewrite (fork_boot_ok r s' (eq_trans (bind_Ret _ (fun _ => allocproc) _ _ _ E) E')) in Hcase.
  destruct Hcase as (_ & tf & root & T & V & Es' & Hm & _).
  set (q := new_proc zero_proc (k_nextpid s) tf root) in *. set (pp := a_parent q).
  exists (set_k_cur (Some 0%nat) (set_k_ftable (<[0%nat := set_f_ref 1 zero_file]> (k_ftable s)) (after 0 pp [] m f s))), l, pp, T, V, 0%nat, zero_inode.
  split; [|split_and!].
  2:{ reflexivity. }
  2:{ subst s. apply Forall_insert; [by apply Forall_replicate|done]. }
  2:{ intros r' s'' Ef'. apply (fork_example_ok r' s''). rewrite (bind_Ret _ _ _ _ _ (eq_trans (bind_Ret _ (fun _ => allocproc) _ _ _ E) E')).
      rewrite run_modify, Es', (start_parent_after q m f s); [exact Ef'|rewrite Es; by apply Nat.ltb_lt]. }
  subst s. split; try reflexivity.
  - discriminate.
  - eapply (proc_mem_fields _ _ q); [|reflexivity..]. destruct Hm as [Hu H2 H3 H4 H5]. split; try assumption.
    apply (uspace_same s'); [exact Hu|by rewrite Es'|by rewrite Es'|apply not_elem_of_nil].
  - apply Forall_insert; [exact Hi|]. discriminate.
  - intros fd fl Hfd. exists (set_f_ref 1 zero_file). destruct fd as [|fd]; [|exfalso].
    + cbn in Hfd. injection Hfd as <-. split; [reflexivity|]. cbn. lia.
    + change (replicate (Z.to_nat NOFILE - 1) (@None nat) !! fd = Some (Some fl)) in Hfd. by apply lookup_replicate in Hfd as [? _].
Qed.

Lemma fork_copies_process_witness :
  exists s r s', @fork kernel_sym s = Ret r s' /\ (r = -1 \/ r = k_nextpid s).
Proof.
  destruct fork_ready_example as (s & l & pp & T & V & c & n & Hr & _).
  destruct (@fork_copies_process kernel_sym kernel_sym_ok s l 0 pp T V c n Hr) as (r & s' & E & _ & Hc).
  exists s, r, s'. split; [exact E|]. destruct Hc as [[-> _]|[-> _]]; [by left|by right].
Defined.
