(* ===== verification/Wait.v ===== *)
(** wait of kernel/proc.c: a zombie child is reaped, its status delivered and
    all its memory given back; without one the caller sleeps, or returns -1
    when it has no children or is killed. *)

From stdpp Require Import base numbers list gmap strings.
From S2P Require Import Prelude Params Mem State Locks Cache Kalloc Vm Pagetable Uvm Ucopy Ufork Console Log Fs Pipe File Proc ProcMem Fork.

#[local] Opaque copyout freeproc.

(** ** The children of a process *)

Definition child_of (p : nat) (x : proc) : Prop := p_parent x = Some p.
Definition zombie_of (p : nat) (x : proc) : Prop := p_parent x = Some p /\ p_state x = ZOMBIE.

#[export] Instance child_of_dec p x : Decision (child_of p x).
Proof. unfold child_of. apply _. Defined.
#[export] Instance zombie_of_dec p x : Decision (zombie_of p x).
Proof. unfold zombie_of. apply _. Defined.

Definition has_child (p : nat) (ps : list proc) : bool := existsb (fun x => bool_decide (child_of p x)) ps.

Lemma unlocked s h : k_held s = [] -> set_k_held [] (set_k_held h s) = s.
Proof. intros <-. by destruct s. Qed.

Section Wait.
Context {W : Wakeups} {L : Layout} {LO : LayoutOk L}.

(** What wait does with the zombie [pp] that it has found and locked. *)
Definition reap (p pp : nat) (addr : Z) (x : proc) : K (Z + bool) :=
  let! par := get_proc p in
  let! r := (if addr =? 0 then ret 0 else copyout (p_pagetable par) addr (le_bytes 4 (p_xstate x))) in
  if r <? 0 then release (LkProc pp) ;; release LkWait ;; ret (inl (-1))
  else freeproc pp ;; release (LkProc pp) ;; release LkWait ;; ret (inl (p_pid x)).

(** The scan from slot [a] on, with the wait lock held. *)
Lemma wait_scan_run p addr s : k_held s = [LkWait] -> forall k a h,
  (a + k = length (k_procs s))%nat ->
  wait_scan (seq a k) p addr h s =
  match list_find (zombie_of p) (drop a (k_procs s)) with
  | Some (i, x) => reap p (a + i) addr x (set_k_held [LkProc (a + i); LkWait] s)
  | None => Ret (inr (h || has_child p (drop a (k_procs s)))) s
  end.
Proof using Type.
  intros Hh. induction k as [|k IH]; intros a h Ha; cbn [seq wait_scan].
  - rewrite drop_ge by lia. cbn. by rewrite orb_false_r.
  - destruct (lookup_lt_is_Some_2 (k_procs s) a) as [x Hx]; [lia|]. rewrite (drop_S _ x a) by done.
    rewrite (run_get_proc a x) by done. cbn [list_find has_child existsb].
    destruct (decide (p_parent x = Some p)) as [Hp|Hp].
    + rewrite run_acquire by (rewrite Hh; by intros ?%list_elem_of_singleton).
      rewrite Hh, (run_get_proc a x) by done.
      destruct (decide (p_state x = ZOMBIE)) as [Hz|Hz].
      * rewrite decide_True by done. by rewrite Nat.add_0_r.
      * rewrite decide_False by (by intros [_ ?]). rewrite (run_release _ [LkWait]) by done.
        replace (set_k_held [LkWait] (set_k_held [LkProc a; LkWait] s)) with s by (rewrite <- Hh; by destruct s).
        rewrite (IH (S a)) by lia. rewrite (bool_decide_eq_true_2 (child_of p x)) by done.
        destruct (list_find (zombie_of p) (drop (S a) (k_procs s))) as [[j y]|]; cbn.
        { by replace (a + S j)%nat with (S (a + j)) by lia. }
        { by rewrite orb_true_r. }
    + rewrite decide_False by (by intros [? _]). rewrite (IH (S a)) by lia.
      rewrite (bool_decide_eq_false_2 (child_of p x)) by done.
      destruct (list_find (zombie_of p) (drop (S a) (k_procs s))) as [[j y]|]; cbn; [|done].
      by replace (a + S j)%nat with (S (a + j)) by lia.
Qed.

Lemma wait_run p addr s : k_held s = [] -> procs_full s -> k_cur s = Some p ->
  wait addr s = loop (S wakeups) (wait_round p addr) tt (set_k_held [LkWait] s).
Proof using Type.
  intros Hh Hf Hc. unfold wait, me, myproc. rewrite bind_assoc, run_gets, Hc. cbn [of_option]. rewrite run_ret.
  rewrite run_acquire by (rewrite Hh; apply not_elem_of_nil). by rewrite Hh.
Qed.

(** ** Reaping *)

Lemma confined_frames s l root T V n va len m' : uspace s l root T V n -> 0 <= va ->
  confined V va len (k_mem s) m' -> outside_same (frames V 0 n) (k_mem s) m'.
Proof using Type.
  intros Hu Hva Hc y Hy. apply Hc. intros x Hx Hw ->. apply writable_readable in Hw.
  destruct (readable_frame s l root T V n Hu x ltac:(lia) Hw) as (k & _ & _ & Hin & _).
  apply (Hy _ Hin). unfold in_page, upa. plia.
Qed.

Context (s : kstate) (l : list Z) (p : nat) (pp : proc) (T : gmap (list Z) Z) (V : Z -> Z).
Context (i : nat) (x : proc) (Tc : gmap (list Z) Z) (Vc : Z -> Z) (addr : Z).

(** The parent and its zombie child, whose pages are its own. *)
Record wait_ready : Prop := {
  wr_held : k_held s = [];
  wr_full : procs_full s;
  wr_cur : k_cur s = Some p;
  wr_proc : k_procs s !! p = Some pp;
  wr_run : p_state pp <> ZOMBIE;
  wr_mem : uspace s l (p_pagetable pp) T V (npages (p_sz pp));
  wr_find : list_find (zombie_of p) (k_procs s) = Some (i, x);
  wr_child : proc_mem s l x Tc Vc;
  wr_own : NoDup (proc_pages x Tc Vc ++ account V (npages (p_sz pp)) T l);
  wr_addr : 0 <= addr < 2 ^ 64;
}.

Context (HW : wait_ready).

Lemma child_slot : k_procs s !! i = Some x /\ i <> p.
Proof using HW.
  destruct HW as [_ _ _ Hp Hr _ Hf _ _ _]. apply list_find_Some in Hf as (Hx & [_ Hz] & _).
  split; [done|]. intros ->. congruence.
Qed.

Definition locked_child (m : memory) : kstate := set_k_mem m (set_k_held [LkProc i; LkWait] s).

Lemma kmem_unheld m : LkKmem ∉ k_held (locked_child m).
Proof using Type. cbn. intros [?|?%list_elem_of_singleton]%elem_of_cons; done. Qed.

(** The copy of the status to the parent. *)
Lemma status_copied : exists r m,
  (if addr =? 0 then ret 0 else copyout (p_pagetable pp) addr (le_bytes 4 (p_xstate x))) (locked_child (k_mem s)) =
    Ret r (locked_child m) /\
  confined V addr 4 (k_mem s) m /\ uspace (locked_child m) l (p_pagetable pp) T V (npages (p_sz pp)) /\
  (addr = 0 /\ r = 0 /\ m = k_mem s \/ addr <> 0 /\ copyout_result V addr (le_bytes 4 (p_xstate x)) r m).
Proof using LO HW.
  destruct HW as [_ _ _ _ _ Hu _ _ _ Ha].
  assert (Hu1 : uspace (locked_child (k_mem s)) l (p_pagetable pp) T V (npages (p_sz pp))).
  { eapply uspace_same; [exact Hu|done..|apply kmem_unheld]. }
  destruct (Z.eqb_spec addr 0) as [E|E].
  - exists 0, (k_mem s). split_and!; [done|by intros y _|done|by left].
  - destruct (copyout_spec _ l _ T V _ addr (le_bytes 4 (p_xstate x)) Hu1 Ha (le_bytes_bytes _ _))
      as (r & m & E1 & Hu2 & Hc & Hres).
    exists r, m. split_and!; [exact E1|exact Hc|exact Hu2|by right].
Qed.

(** The child's pages are untouched by it, and freed. *)
Lemma child_kept m : confined V addr 4 (k_mem s) m ->
  uspace (locked_child m) l (p_pagetable pp) T V (npages (p_sz pp)) -> proc_mem (locked_child m) l x Tc Vc.
Proof using LO HW.
  intros Hc Hu1. destruct HW as [_ _ _ _ _ Hu _ [H1 H2 H3 H4 H5] Hown [Ha _]].
  apply (confined_frames s l _ T V _ addr 4 m Hu Ha) in Hc. unfold proc_pages, account in *.
  split; try done.
  apply (uspace_keep s l (locked_child m) l (p_pagetable x) Tc Vc _ (frames V 0 (npages (p_sz pp)))); try done.
  - apply Hu1.
  - apply kmem_unheld.
  - apply Hu.
  - intros q Hq Hq'. apply NoDup_app in Hown as (_ & Hd & _). apply (Hd q); sublist.
  - apply NoDup_cons in H5. apply H5.
Qed.

(** Everything the child had is free again; the parent keeps what it has. *)
Definition reaped (m : memory) (f : Z) (l' : list Z) : Prop :=
  let s' := with_proc i (freed_proc x) (set_k_mem m (set_k_freelist f s)) in
  kmem_inv s' l' /\ l' ≡ₚ proc_pages x Tc Vc ++ l /\
  uspace s' l' (p_pagetable pp) T V (npages (p_sz pp)) /\
  (addr <> 0 -> stored V addr (le_bytes 4 (p_xstate x)) m) /\
  (forall y, (forall q, q ∈ proc_pages x Tc Vc -> ~ in_page q y) ->
     (forall z, addr <= z < addr + 4 -> y <> upa V z) -> rd m y = rd (k_mem s) y).

Lemma proc_pages_free : Forall free_page (proc_pages x Tc Vc).
Proof using HW.
  destruct (wr_child HW) as [H1 _ _ H4 _]. unfold proc_pages. constructor; [done|].
  apply Forall_app. split; [apply H1|apply H1].
Qed.

Lemma reaped_after m m' f l' :
  confined V addr 4 (k_mem s) m -> uspace (locked_child m) l (p_pagetable pp) T V (npages (p_sz pp)) ->
  (addr <> 0 -> (forall y, addr <= y < addr + 4 -> writable V y = true) /\ stored V addr (le_bytes 4 (p_xstate x)) m) ->
  kmem_inv (with_proc i (freed_proc x) (set_k_mem m' (set_k_freelist f s))) l' ->
  l' ≡ₚ proc_pages x Tc Vc ++ l -> outside_same (proc_pages x Tc Vc) m m' -> reaped m' f l'.
Proof using LO HW.
  intros Hc Hu1 Hst Hk Hl Ho. pose proof proc_pages_free as Hfree. destruct HW as [Hh _ _ _ _ Hu _ _ Hown [Ha _]].
  pose proof Hown as Hown2. apply NoDup_app in Hown as (_ & Hd & _). unfold account in *.
  split_and!; [done|done| | |].
  - apply (uspace_keep (locked_child m) l _ l' _ T V _ (proc_pages x Tc Vc) Hu1); try done.
    + cbn. rewrite Hh. apply not_elem_of_nil.
    + intros q Hq Hq'. apply (Hd q Hq'). sublist.
    + rewrite Hl. nodup_perm Hown2.
  - intros Hne k c Hk'. destruct (Hst Hne) as [Hw Hs]. pose proof (lookup_lt_Some _ _ _ Hk') as Hlt.
    rewrite length_le_bytes in Hlt. specialize (Hw (addr + Z.of_nat k) ltac:(lia)).
    apply writable_readable in Hw. destruct (readable_frame _ _ _ _ _ _ Hu (addr + Z.of_nat k) ltac:(lia) Hw) as (? & _ & _ & Hin & Hfp).
    rewrite (outside_page _ _ _ m m' Ho Hfree Hfp).
    + by apply Hs.
    + intros Hin'. apply (Hd _ Hin'). sublist.
    + unfold in_page, upa. plia.
  - intros y Hy Hz. rewrite Ho by done. apply Hc. intros z Hzr _. by apply Hz.
Qed.

Lemma reap_ok : exists m f l',
  (addr <> 0 /\ (exists y, addr <= y < addr + 4 /\ writable V y = false) /\
     reap p i addr x (locked_child (k_mem s)) = Ret (inl (-1)) (set_k_mem m s) /\ confined V addr 4 (k_mem s) m) \/
  ((addr = 0 \/ forall y, addr <= y < addr + 4 -> writable V y = true) /\
     reap p i addr x (locked_child (k_mem s)) =
       Ret (inl (p_pid x)) (with_proc i (freed_proc x) (set_k_mem m (set_k_freelist f s))) /\ reaped m f l').
Proof using LO HW.
  destruct child_slot as [Hx Hne]. pose proof (wr_held HW) as Hh.
  destruct status_copied as (r & m & E & Hc & Hu1 & Hr). unfold reap.
  rewrite (run_get_proc p pp) by apply (wr_proc HW). rewrite (bind_Ret _ _ _ _ _ E).
  assert (Hcase : r = -1 /\ addr <> 0 /\ (exists y, addr <= y < addr + 4 /\ writable V y = false) \/
    r = 0 /\ (addr <> 0 -> (forall y, addr <= y < addr + 4 -> writable V y = true) /\ stored V addr (le_bytes 4 (p_xstate x)) m)).
  { destruct Hr as [(-> & -> & _)|[Ha [(-> & Hw & Hs)|(-> & Hw)]]]; [by right|by right|by left]. }
  destruct Hcase as [(-> & Ha & Hw)|(-> & Hst)]; cbn [Z.ltb Z.compare].
  - exists m, 0, []. left. split_and!; [done|done| |done].
    rewrite (run_release _ [LkWait]), (run_release _ []) by done.
    unfold ret. f_equal. apply (unlocked (set_k_mem m s)). exact Hh.
  - destruct (freeproc_ok i x (locked_child m) l Tc Vc Hx (child_kept m Hc Hu1)) as (s' & l' & E' & (m' & f & ->) & Hk & Hl & Ho).
    rewrite (bind_Ret _ _ _ _ _ E'), (run_release _ [LkWait]), (run_release _ []) by done.
    exists m', f, l'. right. split_and!.
    + destruct (decide (addr = 0)) as [|Ha]; [by left|right; apply (Hst Ha)].
    + unfold ret. f_equal. apply (unlocked (with_proc i (freed_proc x) (set_k_mem m' (set_k_freelist f s)))). exact Hh.
    + apply (reaped_after m m' f l'); try done. by destruct Hk.
Qed.

Lemma wait_found : exists m f l',
  (addr <> 0 /\ (exists y, addr <= y < addr + 4 /\ writable V y = false) /\
     wait addr s = Ret (-1) (set_k_mem m s) /\ confined V addr 4 (k_mem s) m) \/
  ((addr = 0 \/ forall y, addr <= y < addr + 4 -> writable V y = true) /\
     wait addr s = Ret (p_pid x) (with_proc i (freed_proc x) (set_k_mem m (set_k_freelist f s))) /\ reaped m f l').
Proof using LO HW.
  assert (E : forall v s', reap p i addr x (locked_child (k_mem s)) = Ret (inl v) s' -> wait addr s = Ret v s').
  { intros v s' Hr. rewrite (wait_run p) by apply HW. cbn [loop]. unfold wait_round at 1, proc_indices.
    rewrite bind_assoc, <- (wr_full HW).
    pose proof (wait_scan_run p addr (set_k_held [LkWait] s) eq_refl (length (k_procs s)) 0 false eq_refl) as Hs.
    rewrite drop_0 in Hs. change (k_procs (set_k_held [LkWait] s)) with (k_procs s) in Hs. rewrite (wr_find HW) in Hs.
    cbn [Nat.add] in Hs. rewrite (bind_Ret _ _ _ _ _ (eq_trans Hs Hr)). done. }
  destruct reap_ok as (m & f & l' & [(H1 & H2 & H3 & H4)|(H1 & H2 & H3)]); exists m, f, l'; [left|right]; split_and!; auto.
Qed.
End Wait.

(** C15. wait, with the caller's children in any state. If a child is a
    zombie, wait frees the first one in the table: its slot is unused again,
    its trapframe, its memory and its page table are on the free list, the
    caller's memory is intact, its exit status is stored at the address given
    (unless it is 0), and its pid is the result; if the status cannot be
    stored the result is -1 and the child stays. With no zombie, wait sleeps
    until it is woken and scans again; when it has no child, or is killed, it
    returns -1. *)
Theorem wait_reaps_children `{Wakeups} `{LayoutOk} s l p pp T V addr :
  k_held s = [] -> procs_full s -> k_cur s = Some p -> k_procs s !! p = Some pp -> p_state pp <> ZOMBIE ->
  uspace s l (p_pagetable pp) T V (npages (p_sz pp)) -> 0 <= addr < 2 ^ 64 ->
  match list_find (zombie_of p) (k_procs s) with
  | Some (i, x) => forall Tc Vc, proc_mem s l x Tc Vc ->
      NoDup (proc_pages x Tc Vc ++ account V (npages (p_sz pp)) T l) ->
      exists m f l',
      (addr <> 0 /\ (exists y, addr <= y < addr + 4 /\ writable V y = false) /\
         wait addr s = Ret (-1) (set_k_mem m s) /\ confined V addr 4 (k_mem s) m) \/
      ((addr = 0 \/ forall y, addr <= y < addr + 4 -> writable V y = true) /\
         wait addr s = Ret (p_pid x) (with_proc i (freed_proc x) (set_k_mem m (set_k_freelist f s))) /\
         reaped s l pp T V i x Tc Vc addr m f l')
  | None =>
      if has_child p (k_procs s) && negb (p_killed pp)
      then wait addr s = Sleep (asleep p (ChProc p) (set_k_held [LkWait] s))
             (resume p LkWait ;; loop wakeups (wait_round p addr) tt)
      else wait addr s = Ret (-1) s
  end.
Proof.
  intros Hh Hf Hc Hp Hr Hu Ha. destruct (list_find (zombie_of p) (k_procs s)) as [[i x]|] eqn:Ef.
  { intros Tc Vc Hm Hown. apply (wait_found s l p pp T V i x Tc Vc addr). by split. }
  rewrite (wait_run p) by done. set (s1 := set_k_held [LkWait] s).
  assert (Hs : wait_scan proc_indices p addr false s1 = Ret (inr (has_child p (k_procs s))) s1).
  { unfold proc_indices. rewrite <- Hf.
    rewrite (wait_scan_run p addr s1 eq_refl (length (k_procs s)) 0 false eq_refl), drop_0.
    change (k_procs s1) with (k_procs s). by rewrite Ef. }
  assert (Hrel : forall k : unit + Z -> K Z, bind (release LkWait ;; ret (inr (-1))) k s1 = k (inr (-1)) s).
  { intros k. rewrite bind_assoc, (run_release _ []), run_ret by done. f_equal. by apply unlocked. }
  destruct (has_child p (k_procs s)); cbn [andb].
  - destruct (p_killed pp) eqn:Ek; cbn [negb loop]; unfold wait_round at 1; rewrite bind_assoc, (bind_Ret _ _ _ _ _ Hs);
      rewrite bind_assoc, (run_killed p pp), Ek by (done || by intros ?%list_elem_of_singleton).
    + by rewrite Hrel.
    + rewrite bind_assoc, (run_sleep p); [done|done|by apply lookup_lt_Some in Hp|done|done].
  - cbn [loop]. unfold wait_round at 1. rewrite bind_assoc, (bind_Ret _ _ _ _ _ Hs), bind_assoc, run_ret. by rewrite Hrel.
Qed.

(** ** From fork to wait *)

(** What exit leaves of a process that it has made a zombie. *)
Definition zombie (status : Z) (q : proc) : proc := set_p_state ZOMBIE (set_p_xstate status q).

Lemma zombie_pages status q T V : proc_pages (zombie status q) T V = proc_pages q T V.
Proof. reflexivity. Qed.

Lemma find_new_zombie p ps i x : list_find (zombie_of p) ps = None -> (i < length ps)%nat -> zombie_of p x ->
  list_find (zombie_of p) (<[i := x]> ps) = Some (i, x).
Proof.
  intros Hn Hi Hx. apply list_find_Some. split_and!; [by apply list_lookup_insert_eq|done|].
  intros j y Hj Hlt Hz. rewrite list_lookup_insert_ne in Hj by lia.
  apply list_find_None in Hn. rewrite Forall_lookup in Hn. by apply (Hn j y).
Qed.

(** A child that fork made, once it has exited, can be waited for. *)
Lemma zombie_ready `{LayoutOk} s l p pp T V i q q' m f t it T' V' l' status addr :
  k_held s = [] -> procs_full s -> k_cur s = Some p -> k_procs s !! p = Some pp -> ~ unused pp ->
  proc_mem s l pp T V -> p_state pp <> ZOMBIE -> list_find (zombie_of p) (k_procs s) = None ->
  k_procs s !! i = Some q -> unused q -> p_parent q' = Some p ->
  let s1 := forked s i q' [] m f t it in
  proc_mem s1 l' pp T V -> proc_mem s1 l' q' T' V' -> proc_pages q' T' V' ++ l' ≡ₚ l -> 0 <= addr < 2 ^ 64 ->
  wait_ready (with_proc i (zombie status q') s1) l' p pp T V i (zombie status q') T' V' addr.
Proof.
  intros Hh Hfull Hcur Hp Hlive Hmem Hr Hz Hq Hun Hpar s1 Hm Hmc Hperm Ha.
  assert (Hi : (i < length (k_procs s))%nat) by (by eapply lookup_lt_Some).
  assert (Hps : k_procs (with_proc i (zombie status q') s1) = <[i := zombie status q']> (k_procs s))
    by apply list_insert_insert_eq.
  assert (Hne : i <> p) by (intros ->; rewrite Hp in Hq; injection Hq as <-; exact (Hlive Hun)).
  split.
  - reflexivity.
  - unfold procs_full. rewrite Hps, length_insert. exact Hfull.
  - exact Hcur.
  - rewrite Hps, list_lookup_insert_ne by exact Hne. exact Hp.
  - exact Hr.
  - apply (uspace_same s1 _ _ _ _ _ _ (pm_space _ _ _ _ _ Hm)); [reflexivity..|apply not_elem_of_nil].
  - rewrite Hps. apply find_new_zombie; [exact Hz|exact Hi|by split].
  - apply (proc_mem_fields _ _ q'); [|reflexivity..]. destruct Hmc as [H1 H2 H3 H4 H5]. split; try assumption.
    apply (uspace_same s1 _ _ _ _ _ _ H1); [reflexivity..|apply not_elem_of_nil].
  - rewrite zombie_pages. destruct Hmem as [_ _ _ _ H5]. apply NoDup_cons in H5 as [_ H5].
    unfold account in *. rewrite <- Hperm in H5. nodup_perm H5.
  - exact Ha.
Qed.

Lemma child_proc_fields p pp q c : p_parent (child_proc p pp q c) = Some p /\ p_pid (child_proc p pp q c) = p_pid q.
Proof. done. Qed.

(** It has exactly the pages that fork took. *)
Lemma forked_child_waits `{LayoutOk} s l p pp T V c n i s1 status addr :
  fork_ready s l p pp T V c n -> p_state pp <> ZOMBIE -> list_find (zombie_of p) (k_procs s) = None ->
  fork_child s l p pp T V c n i s1 -> 0 <= addr < 2 ^ 64 ->
  exists q T' V' l', k_procs s1 !! i = Some q /\ p_pid q = k_nextpid s /\ proc_pages q T' V' ++ l' ≡ₚ l /\
    wait_ready (with_proc i (zombie status q) s1) l' p pp T V i (zombie status q) T' V' addr.
Proof.
  intros [Hh Hfull Hcur Hp Hlive Hmem _ _ _ _ _] Hr Hz
    (q & tf & root & m & f & T' & V' & l' & Hq & Hun & -> & Hm & Hmc & Hperm & _) Ha.
  destruct (child_proc_fields p pp (set_p_sz (p_sz pp) (new_proc q (k_nextpid s) tf root)) c) as [Hpar Hpid].
  eexists _, T', V', l'. split; [exact (forked_child s i q Hq _ [] m f _ _)|]. split; [exact Hpid|]. split; [exact Hperm|].
  exact (zombie_ready s l p pp T V i q _ m f _ _ T' V' l' status addr Hh Hfull Hcur Hp Hlive Hmem Hr Hz Hq Hun Hpar Hm Hmc Hperm Ha).
Qed.

(** fork, the exit of the child and wait: wait returns the pid that fork
    returned, and the free pages are those before the fork. *)
Theorem fork_then_wait `{Wakeups} `{LayoutOk} s l p pp T V c n status :
  fork_ready s l p pp T V c n -> p_state pp <> ZOMBIE -> list_find (zombie_of p) (k_procs s) = None ->
  exists r s1, fork s = Ret r s1 /\
    (r = -1 \/ r = k_nextpid s /\ exists i q s2 l2,
       k_procs s1 !! i = Some q /\ wait 0 (with_proc i (zombie status q) s1) = Ret r s2 /\
       kmem_inv s2 l2 /\ l2 ≡ₚ l /\ k_procs s2 !! i = Some (freed_proc (zombie status q))).
Proof.
  intros Hf Hr Hz. destruct (fork_ok s l p pp T V c n Hf) as (r & s1 & E & _ & Hcase).
  exists r, s1. split; [exact E|]. destruct Hcase as [[-> _]|[-> (i & Hc)]]; [by left|right; split; [reflexivity|]].
  destruct (forked_child_waits s l p pp T V c n i s1 status 0 Hf Hr Hz Hc) as (q & T' & V' & l' & Hq & <- & Hperm & HW); [lia|].
  destruct (wait_found _ l' p pp T V i (zombie status q) T' V' 0 HW) as (m & f & l2 & [(? & _)|(_ & E2 & Hk & Hl & _)]); [done|].
  exists i, q. eexists _, l2. split; [exact Hq|]. split; [exact E2|]. split; [exact Hk|]. split.
  - rewrite Hl, zombie_pages. exact Hperm.
  - apply (with_proc_at i _ (zombie status q)). apply (with_proc_at i _ q). exact Hq.
Qed.

Lemma wait_reaps_children_witness : exists s s', @wait 0%nat kernel_sym 0 s = Ret 2 s'.
Proof.
  destruct fork_ready_example as (s & l & pp & T & V & c & n & Hf & Hr & Hnz & H2).
  destruct (@fork_ok kernel_sym kernel_sym_ok s l 0 pp T V c n Hf) as (r & s1 & E & _ & Hcase).
  pose proof (H2 r s1 E) as ->. destruct Hcase as [[? _]|[Hpid (i & Hc)]]; [done|].
  assert (Hz : list_find (zombie_of 0) (k_procs s) = None).
  { apply list_find_None. eapply Forall_impl; [exact Hnz|]. intros x Hx [_ ?]. done. }
  destruct (@forked_child_waits kernel_sym kernel_sym_ok s l 0 pp T V c n i s1 7 0 Hf ltac:(by rewrite Hr) Hz Hc ltac:(lia))
    as (q & T' & V' & l' & _ & Hq & _ & HW).
  pose proof HW as [W1 W2 W3 W4 W5 W6 W7 W8 W9 W10].
  pose proof (@wait_reaps_children 0%nat kernel_sym kernel_sym_ok _ l' 0 pp T V 0 W1 W2 W3 W4 W5 W6 W10) as H.
  rewrite W7 in H. destruct (H T' V' W8 W9) as (m & f & l2 & [(? & _)|(_ & E2 & _)]); [done|].
  eexists _, _. rewrite E2. change (p_pid (zombie 7 q)) with (p_pid q). rewrite Hq, <- Hpid. reflexivity.
Defined.
