(* ===== verification/Exec.v ===== *)
(** kernel/exec.c: replacing a process's memory by a program from an ELF
    file.

    The ELF header and the program headers are read into local buffers and
    decoded at the offsets of [struct elfhdr] and [struct proghdr]; [argv] is
    an array of addresses of NUL-terminated strings in kernel pages. *)

From stdpp Require Import base numbers list gmap strings.
From S2P Require Import Prelude Params Mem KString State Locks Cache Kalloc Vm Console Log Fs Pipe File Proc.

(** ** elf.h *)

Definition get64 (l : list Z) (i : nat) : Z := le_val (get_at l i 8).

Definition sizeof_elfhdr : Z := 64.
Definition elf_magic (b : list Z) : Z := get32 b 0.
Definition elf_entry (b : list Z) : Z := get64 b 24.
Definition elf_phoff (b : list Z) : Z := get64 b 32.
Definition elf_phnum (b : list Z) : Z := get16 b 56.

Definition sizeof_proghdr : Z := 56.
Definition ph_type (b : list Z) : Z := get32 b 0.
Definition ph_flags (b : list Z) : Z := get32 b 4.
Definition ph_off (b : list Z) : Z := get64 b 8.
Definition ph_vaddr (b : list Z) : Z := get64 b 16.
Definition ph_filesz (b : list Z) : Z := get64 b 32.
Definition ph_memsz (b : list Z) : Z := get64 b 40.

Definition flags2perm (flags : Z) : Z :=
  let perm := if has flags 1 then PTE_X else 0 in
  if has flags 2 then Z.lor perm PTE_W else perm.

Section Exec.
Context {W : Wakeups} {L : Layout} {C : BlockCache}.

(** Load a program segment into pagetable at virtual address va. *)
Definition loadseg (pagetable va : Z) (ip : nat) (offset sz : Z) : K Z :=
  loop (Z.to_nat (sz / PGSIZE) + 2) (fun i =>
    if i <? sz then
      let! pa := walkaddr pagetable (u64 (va + i)) in
      if pa =? 0 then panic "loadseg: address should exist"
      else
        let n := if sz - i <? PGSIZE then sz - i else PGSIZE in
        let! r := readi ip (DstPhys pa) (u32 (offset + i)) n in
        if negb (r.1 =? n) then ret (inr (-1))
        else ret (inl (u32 (i + PGSIZE)))
    else ret (inr 0)) 0.

(** The bad: label; [pagetable] and [ip] as they are at the jump. *)
Definition exec_bad (pagetable sz : Z) (ip : option nat) : K Z :=
  when (negb (pagetable =? 0)) (proc_freepagetable pagetable sz) ;;
  match ip with
  | Some ip => iunlockput ip ;; end_op
  | None => ret tt
  end ;;
  ret (-1).

(** The loop over the program headers: the size of the image so far, and
    whether every segment was loaded. *)
Definition exec_load (pagetable : Z) (ip : nat) (elf : list Z) : K (bool * Z) :=
  loop (Z.to_nat (elf_phnum elf) + 1) (fun '(i, off, sz) =>
    if i <? elf_phnum elf then
      let next sz := ret (inl (i + 1, s32 (off + sizeof_proghdr), sz)) in
      let! r := readi ip DstLocal (u32 off) sizeof_proghdr in
      let ph := r.2 in
      if negb (r.1 =? sizeof_proghdr) then ret (inr (false, sz))
      else if negb (ph_type ph =? ELF_PROG_LOAD) then next sz
      else if ph_memsz ph <? ph_filesz ph then ret (inr (false, sz))
      else if u64 (ph_vaddr ph + ph_memsz ph) <? ph_vaddr ph then ret (inr (false, sz))
      else if negb (ph_vaddr ph mod PGSIZE =? 0) then ret (inr (false, sz))
      else
        let! sz1 := uvmalloc pagetable sz (u64 (ph_vaddr ph + ph_memsz ph))
                      (flags2perm (ph_flags ph)) in
        if sz1 =? 0 then ret (inr (false, sz))
        else
          let! r := loadseg pagetable (ph_vaddr ph) ip (u32 (ph_off ph)) (u32 (ph_filesz ph)) in
          if r <? 0 then ret (inr (false, sz1)) else next sz1
    else ret (inr (true, sz))) (0, s32 (elf_phoff elf), 0).

(** strlen(s) of a string in a kernel page. *)
Definition kstrlen (s : Z) : K Z :=
  let! r := gets (fun st => strlen (Z.to_nat PGSIZE) s (k_mem st)) in
  match r with Some n => ret n | None => fun _ => NoFuel end.

(** Push the argument strings: argc, sp and ustack, or None for bad. *)
Definition exec_args (pagetable stackbase sp : Z) (argv : list Z)
  : K (option (Z * Z * list Z)) :=
  loop (Z.to_nat MAXARG + 2) (fun '(argc, sp, ustack) =>
    let! arg := of_option (argv !! Z.to_nat argc) in
    if arg =? 0 then ret (inr (Some (argc, sp, ustack)))
    else if MAXARG <=? argc then ret (inr None)
    else
      let! len := kstrlen arg in
      let sp := u64 (sp - (len + 1)) in
      let sp := u64 (sp - sp mod 16) in     (* riscv sp must be 16-byte aligned *)
      if sp <? stackbase then ret (inr None)
      else
        let! bytes := mem_get arg (len + 1) in
        let! r := copyout pagetable sp bytes in
        if r <? 0 then ret (inr None)
        else ret (inl (argc + 1, sp, ustack ++ [sp]))) (0, sp, []).

(** The part of the path after its last slash. *)
Fixpoint path_last (last s : list Z) : list Z :=
  match s with
  | [] => last
  | c :: s' => if is_slash c then path_last s' s' else path_last last s'
  end.

Definition exec (path : list Z) (argv : list Z) : K Z :=
  let! p := me in
  begin_op ;;
  let! o := namei path in
  match o with
  | None => end_op ;; ret (-1)
  | Some ip =>
      ilock ip ;;
      (* Check ELF header *)
      let! r := readi ip DstLocal 0 sizeof_elfhdr in
      let elf := r.2 in
      if negb (r.1 =? sizeof_elfhdr) then exec_bad 0 0 (Some ip)
      else if negb (elf_magic elf =? ELF_MAGIC) then exec_bad 0 0 (Some ip)
      else
        let! pagetable := proc_pagetable p in
        if pagetable =? 0 then exec_bad 0 0 (Some ip)
        else
          (* Load program into memory. *)
          let! r := exec_load pagetable ip elf in
          let sz := r.2 in
          if negb r.1 then exec_bad pagetable sz (Some ip)
          else
            iunlockput ip ;;
            end_op ;;
            let! pp := get_proc p in
            let oldsz := p_sz pp in
            (* Allocate some pages at the next page boundary. Make the first
               inaccessible as a stack guard. Use the rest as the user stack. *)
            let sz := PGROUNDUP sz in
            let! sz1 := uvmalloc pagetable sz (u64 (sz + (USERSTACK + 1) * PGSIZE)) PTE_W in
            if sz1 =? 0 then exec_bad pagetable sz None
            else
              let sz := sz1 in
              uvmclear pagetable (u64 (sz - (USERSTACK + 1) * PGSIZE)) ;;
              let stackbase := u64 (sz - USERSTACK * PGSIZE) in
              (* Push argument strings, prepare rest of stack in ustack. *)
              let! a := exec_args pagetable stackbase sz argv in
              match a with
              | None => exec_bad pagetable sz None
              | Some (argc, sp, ustack) =>
                  (* push the array of argv[] pointers. *)
                  let sp := u64 (sp - (argc + 1) * 8) in
                  let sp := u64 (sp - sp mod 16) in
                  if sp <? stackbase then exec_bad pagetable sz None
                  else
                    let! r := copyout pagetable sp (mjoin (le_bytes 8 <$> ustack ++ [0])) in
                    if r <? 0 then exec_bad pagetable sz None
                    else
                      store64 (p_trapframe pp + tf_a1) sp ;;
                      (* Save program name for debugging. *)
                      upd_proc p (fun x => set_p_name
                        (safestrcpy_bytes (p_name x) (path_last path path) 16) x) ;;
                      (* Commit to the user image. *)
                      let! pp := get_proc p in
                      let oldpagetable := p_pagetable pp in
                      upd_proc p (set_p_pagetable pagetable) ;;
                      upd_proc p (set_p_sz sz) ;;
                      store64 (p_trapframe pp + tf_epc) (elf_entry elf) ;;
                      store64 (p_trapframe pp + tf_sp) sp ;;
                      proc_freepagetable oldpagetable oldsz ;;
                      ret argc
              end
  end.
End Exec.
