(* ===== verification/Syscall.v ===== *)
(** kernel/syscall.c and kernel/sysproc.c: fetching system call arguments
    from user registers and memory, and the system calls about processes.
    The dispatcher, which needs every system call, is in Trap.v.

    A buffer that a function fills for its caller is part of its result. *)

From stdpp Require Import base numbers list gmap strings.
From S2P Require Import Prelude Params Mem KString State Locks Cache Kalloc Vm Console Log Fs Pipe File Proc Exec.

Section Syscall.
Context {W : Wakeups} {L : Layout} {C : BlockCache}.

(** ** syscall.c: arguments *)

(** The uint64 at addr of the current process; None for -1. *)
Definition fetchaddr (addr : Z) : K (option Z) :=
  let! p := curproc in
  if (p_sz p <=? addr) || (p_sz p <? u64 (addr + 8)) then ret None
  else
    let! r := copyin (p_pagetable p) addr 8 in
    if negb (r.1 =? 0) then ret None else ret (Some (le_val r.2)).

(** The length of the string, or -1, and the bytes stored in [buf]. *)
Definition fetchstr (addr max : Z) : K (Z * list Z) :=
  let! p := curproc in
  let! r := copyinstr (p_pagetable p) addr max in
  if r.1 <? 0 then ret (-1, r.2)
  else ret (Z.of_nat (length (cstr r.2)), r.2).

Definition argraw (n : Z) : K Z :=
  let! p := curproc in
  if (0 <=? n) && (n <=? 5) then load64 (p_trapframe p + tf_a0 + 8 * n)
  else panic "argraw".

Definition argint (n : Z) : K Z := let! v := argraw n in ret (s32 v).
Definition argaddr (n : Z) : K Z := argraw n.

Definition argstr (n max : Z) : K (Z * list Z) :=
  let! addr := argaddr n in fetchstr addr max.

(** ** sysproc.c *)

Definition sys_exit : K Z :=
  let! n := argint 0 in
  exit n ;;
  ret 0.

Definition sys_getpid : K Z := let! p := curproc in ret (p_pid p).

Definition sys_fork : K Z := fork.

Definition sys_wait : K Z := let! p := argaddr 0 in wait p.

Definition sys_sbrk : K Z :=
  let! n := argint 0 in
  let! p := curproc in
  let addr := p_sz p in
  let! r := growproc n in
  if r <? 0 then ret (-1) else ret addr.

Definition sys_sleep : K Z :=
  let! n := argint 0 in
  let n := if n <? 0 then 0 else n in
  acquire LkTicks ;;
  let! ticks0 := gets k_ticks in
  loop (S wakeups) (fun _ =>
    let! ticks := gets k_ticks in
    if u32 (ticks - ticks0) <? n then
      let! p := me in
      let! k := killed p in
      if k then release LkTicks ;; ret (inr (-1))
      else sleep ChTicks LkTicks ;; ret (inl tt)
    else release LkTicks ;; ret (inr 0)) tt.

Definition sys_kill : K Z := let! pid := argint 0 in kill pid.

(** How many clock tick interrupts have occurred since start. *)
Definition sys_uptime : K Z :=
  acquire LkTicks ;;
  let! xticks := gets k_ticks in
  release LkTicks ;;
  ret xticks.
End Syscall.
