(* ===== verification/Sysfile.v ===== *)
(** kernel/sysfile.c: the system calls about files. *)

From stdpp Require Import base numbers list gmap strings.
From S2P Require Import Prelude Params Mem KString State Locks Cache Kalloc Vm Console Log Fs Pipe File Proc Exec Syscall.

Section Sysfile.
Context {W : Wakeups} {L : Layout} {C : BlockCache}.

(** ** File descriptors *)

(** The descriptor and its file; None for -1. *)
Definition argfd (n : Z) : K (option (nat * nat)) :=
  let! fd := argint n in
  if (fd <? 0) || (NOFILE <=? fd) then ret None
  else
    let! p := me in
    let! f := get_ofile p (Z.to_nat fd) in
    match f with
    | None => ret None
    | Some f => ret (Some (Z.to_nat fd, f))
    end.

(** A file descriptor for the given file; -1 when the table is full. *)
Definition fdalloc (f : nat) : K Z :=
  let! p := me in
  let! r := for_return (seq 0 nofile) (fun fd =>
    let! o := get_ofile p fd in
    match o with
    | None => set_ofile p fd (Some f) ;; ret (Some (Z.of_nat fd))
    | Some _ => ret None
    end) in
  ret (default (-1) r).

Definition sys_dup : K Z :=
  let! a := argfd 0 in
  match a with
  | None => ret (-1)
  | Some (_, f) =>
      let! fd := fdalloc f in
      if fd <? 0 then ret (-1)
      else let! _ := filedup f in ret fd
  end.

Definition sys_read : K Z :=
  let! p := argaddr 1 in
  let! n := argint 2 in
  let! a := argfd 0 in
  match a with
  | None => ret (-1)
  | Some (_, f) => fileread f p n
  end.

Definition sys_write : K Z :=
  let! p := argaddr 1 in
  let! n := argint 2 in
  let! a := argfd 0 in
  match a with
  | None => ret (-1)
  | Some (_, f) => filewrite f p n
  end.

Definition sys_close : K Z :=
  let! a := argfd 0 in
  match a with
  | None => ret (-1)
  | Some (fd, f) =>
      let! p := me in
      set_ofile p fd None ;;
      fileclose f ;;
      ret 0
  end.

Definition sys_fstat : K Z :=
  let! st := argaddr 1 in
  let! a := argfd 0 in
  match a with
  | None => ret (-1)
  | Some (_, f) => filestat f st
  end.

(** ** Links *)

(** [ip->nlink += d], on a short. *)
Definition add_nlink (ip : nat) (d : Z) : K unit :=
  upd_inode ip (fun n => set_i_nlink (s16 (i_nlink n + d)) n).

(** Create the path new as a link to the same inode as old. *)
Definition sys_link : K Z :=
  let! old := argstr 0 MAXPATH in
  if old.1 <? 0 then ret (-1)
  else
    let! new := argstr 1 MAXPATH in
    if new.1 <? 0 then ret (-1)
    else
      begin_op ;;
      let! o := namei (cstr old.2) in
      match o with
      | None => end_op ;; ret (-1)
      | Some ip =>
          ilock ip ;;
          let! n := get_inode ip in
          if i_type n =? T_DIR then iunlockput ip ;; end_op ;; ret (-1)
          else
            add_nlink ip 1 ;;
            iupdate ip ;;
            iunlock ip ;;
            let bad : K Z :=
              ilock ip ;;
              add_nlink ip (-1) ;;
              iupdate ip ;;
              iunlockput ip ;;
              end_op ;;
              ret (-1) in
            let! r := nameiparent (cstr new.2) in
            match r.1 with
            | None => bad
            | Some dp =>
                ilock dp ;;
                let! d := get_inode dp in
                let! n := get_inode ip in
                let! e := (if negb (i_dev d =? i_dev n) then ret (-1)
                           else dirlink dp r.2 (i_inum n)) in
                if e <? 0 then iunlockput dp ;; bad
                else
                  iunlockput dp ;;
                  iput ip ;;
                  end_op ;;
                  ret 0
            end
      end.

(** Is the directory dp empty except for "." and ".." ? *)
Definition isdirempty (dp : nat) : K bool :=
  let! d := get_inode dp in
  loop (Z.to_nat (i_size d / sizeof_dirent) + 2) (fun off =>
    let! d := get_inode dp in
    if off <? i_size d then
      let! r := readi dp DstLocal off sizeof_dirent in
      if negb (r.1 =? sizeof_dirent) then panic "isdirempty: readi"
      else if negb (de_inum r.2 =? 0) then ret (inr false)
      else ret (inl (off + sizeof_dirent))
    else ret (inr true)) (2 * sizeof_dirent).

Definition dot : list Z := bytes_of ".".
Definition dotdot : list Z := bytes_of "..".

Definition sys_unlink : K Z :=
  let! path := argstr 0 MAXPATH in
  if path.1 <? 0 then ret (-1)
  else
    begin_op ;;
    let! r := nameiparent (cstr path.2) in
    let name := r.2 in
    match r.1 with
    | None => end_op ;; ret (-1)
    | Some dp =>
        let bad : K Z := iunlockput dp ;; end_op ;; ret (-1) in
        ilock dp ;;
        (* Cannot unlink "." or "..". *)
        if (namecmp name dot =? 0) || (namecmp name dotdot =? 0) then bad
        else
          let! o := dirlookup dp name in
          match o with
          | None => bad
          | Some (ip, off) =>
              ilock ip ;;
              let! n := get_inode ip in
              if i_nlink n <? 1 then panic "unlink: nlink < 1"
              else
                let! empty := (if i_type n =? T_DIR then isdirempty ip else ret true) in
                if negb empty then iunlockput ip ;; bad
                else
                  let de := replicate (Z.to_nat sizeof_dirent) 0 in
                  let! w := writei dp (SrcLocal de) off sizeof_dirent in
                  if negb (w =? sizeof_dirent) then panic "unlink: writei"
                  else
                    let! n := get_inode ip in
                    when (i_type n =? T_DIR) (add_nlink dp (-1) ;; iupdate dp) ;;
                    iunlockput dp ;;
                    add_nlink ip (-1) ;;
                    iupdate ip ;;
                    iunlockput ip ;;
                    end_op ;;
                    ret 0
          end
    end.

(** ** Creating files *)

(** The inode, locked; None for a null pointer. *)
Definition create (path : list Z) (type major minor : Z) : K (option nat) :=
  let! r := nameiparent path in
  let name := r.2 in
  match r.1 with
  | None => ret None
  | Some dp =>
      ilock dp ;;
      let! o := dirlookup dp name in
      match o with
      | Some (ip, _) =>
          iunlockput dp ;;
          ilock ip ;;
          let! n := get_inode ip in
          if (type =? T_FILE) && ((i_type n =? T_FILE) || (i_type n =? T_DEVICE))
          then ret (Some ip)
          else iunlockput ip ;; ret None
      | None =>
          let! d := get_inode dp in
          let! a := ialloc (i_dev d) type in
          match a with
          | None => iunlockput dp ;; ret None
          | Some ip =>
              ilock ip ;;
              upd_inode ip (set_i_major major) ;;
              upd_inode ip (set_i_minor minor) ;;
              upd_inode ip (set_i_nlink 1) ;;
              iupdate ip ;;
              let fail : K (option nat) :=
                (* something went wrong. de-allocate ip. *)
                upd_inode ip (set_i_nlink 0) ;;
                iupdate ip ;;
                iunlockput ip ;;
                iunlockput dp ;;
                ret None in
              let! n := get_inode ip in
              let! e :=
                (if type =? T_DIR   (* Create . and .. entries. *)
                 then let! e := dirlink ip dot (i_inum n) in
                      if e <? 0 then ret e
                      else let! d := get_inode dp in dirlink ip dotdot (i_inum d)
                 else ret 0) in
              if e <? 0 then fail
              else
                let! e := dirlink dp name (i_inum n) in
                if e <? 0 then fail
                else
                  (* now that success is guaranteed: *)
                  when (type =? T_DIR) (add_nlink dp 1 ;; iupdate dp) ;;
                  iunlockput dp ;;
                  ret (Some ip)
          end
      end
  end.

(** The inode that sys_open opens, locked; None where it returns -1. *)
Definition open_inode (path : list Z) (omode : Z) : K (option nat) :=
  if has omode O_CREATE then create path T_FILE 0 0
  else
    let! o := namei path in
    match o with
    | None => ret None
    | Some ip =>
        ilock ip ;;
        let! n := get_inode ip in
        if (i_type n =? T_DIR) && negb (omode =? O_RDONLY)
        then iunlockput ip ;; ret None
        else ret (Some ip)
    end.

Definition sys_open : K Z :=
  let! omode := argint 1 in
  let! path := argstr 0 MAXPATH in
  if path.1 <? 0 then ret (-1)
  else
    begin_op ;;
    let! o := open_inode (cstr path.2) omode in
    match o with
    | None => end_op ;; ret (-1)
    | Some ip =>
        let! n := get_inode ip in
        if (i_type n =? T_DEVICE) && ((i_major n <? 0) || (NDEV <=? i_major n))
        then iunlockput ip ;; end_op ;; ret (-1)
        else
          let! f := filealloc in
          let! fd := match f with None => ret (-1) | Some f => fdalloc f end in
          match f with
          | None => iunlockput ip ;; end_op ;; ret (-1)
          | Some f =>
              if fd <? 0
              then fileclose f ;; iunlockput ip ;; end_op ;; ret (-1)
              else
                (if i_type n =? T_DEVICE
                 then upd_file f (fun x => set_f_major (i_major n) (set_f_type FD_DEVICE x))
                 else upd_file f (fun x => set_f_off 0 (set_f_type FD_INODE x))) ;;
                upd_file f (set_f_ip (Some ip)) ;;
                upd_file f (set_f_readable (negb (has omode O_WRONLY))) ;;
                upd_file f (set_f_writable (has omode O_WRONLY || has omode O_RDWR)) ;;
                when (has omode O_TRUNC && (i_type n =? T_FILE)) (itrunc ip) ;;
                iunlock ip ;;
                end_op ;;
                ret fd
          end
    end.

Definition sys_mkdir : K Z :=
  begin_op ;;
  let! path := argstr 0 MAXPATH in
  let! o := (if path.1 <? 0 then ret None else create (cstr path.2) T_DIR 0 0) in
  match o with
  | None => end_op ;; ret (-1)
  | Some ip => iunlockput ip ;; end_op ;; ret 0
  end.

Definition sys_mknod : K Z :=
  begin_op ;;
  let! major := argint 1 in
  let! minor := argint 2 in
  let! path := argstr 0 MAXPATH in
  let! o := (if path.1 <? 0 then ret None
             else create (cstr path.2) T_DEVICE (s16 major) (s16 minor)) in
  match o with
  | None => end_op ;; ret (-1)
  | Some ip => iunlockput ip ;; end_op ;; ret 0
  end.

Definition sys_chdir : K Z :=
  let! p := me in
  begin_op ;;
  let! path := argstr 0 MAXPATH in
  let! o := (if path.1 <? 0 then ret None else namei (cstr path.2)) in
  match o with
  | None => end_op ;; ret (-1)
  | Some ip =>
      ilock ip ;;
      let! n := get_inode ip in
      if negb (i_type n =? T_DIR) then iunlockput ip ;; end_op ;; ret (-1)
      else
        iunlock ip ;;
        let! pp := get_proc p in
        let! cwd := of_option (p_cwd pp) in
        iput cwd ;;
        end_op ;;
        upd_proc p (set_p_cwd (Some ip)) ;;
        ret 0
  end.

(** ** exec and pipe *)

(** for(i = 0; i < NELEM(argv) && argv[i] != 0; i++) kfree(argv[i]); *)
Fixpoint free_argv (argv : list Z) : K unit :=
  match argv with
  | [] => ret tt
  | a :: l => if a =? 0 then ret tt else kfree a ;; free_argv l
  end.

(** The loop that copies the arguments in: whether it succeeded, and argv. *)
Definition fetch_argv (uargv : Z) : K (bool * list Z) :=
  loop (Z.to_nat MAXARG + 1) (fun '(i, argv) =>
    if MAXARG <=? i then ret (inr (false, argv))
    else
      let! o := fetchaddr (u64 (uargv + 8 * i)) in
      match o with
      | None => ret (inr (false, argv))
      | Some uarg =>
          if uarg =? 0 then ret (inr (true, argv))
          else
            let! page := kalloc in
            let argv := <[Z.to_nat i := page]> argv in
            if page =? 0 then ret (inr (false, argv))
            else
              let! r := fetchstr uarg PGSIZE in
              mem_put page r.2 ;;
              if r.1 <? 0 then ret (inr (false, argv))
              else ret (inl (i + 1, argv))
      end) (0, replicate (Z.to_nat MAXARG) 0).

Definition sys_exec : K Z :=
  let! uargv := argaddr 1 in
  let! path := argstr 0 MAXPATH in
  if path.1 <? 0 then ret (-1)
  else
    let! r := fetch_argv uargv in
    let '(ok, argv) := r in
    if ok then
      let! r := exec (cstr path.2) argv in
      free_argv argv ;;
      ret r
    else free_argv argv ;; ret (-1).

Definition sys_pipe : K Z :=
  let! p := me in
  let! fdarray := argaddr 0 in
  let! o := pipealloc in
  match o with
  | None => ret (-1)
  | Some (rf, wf) =>
      let close_both : K Z := fileclose rf ;; fileclose wf ;; ret (-1) in
      let! fd0 := fdalloc rf in
      if fd0 <? 0 then close_both
      else
        let! fd1 := fdalloc wf in
        if fd1 <? 0 then set_ofile p (Z.to_nat fd0) None ;; close_both
        else
          let! pp := get_proc p in
          let! r := copyout (p_pagetable pp) fdarray (le_bytes 4 fd0) in
          let! r := (if r <? 0 then ret r
                     else copyout (p_pagetable pp) (u64 (fdarray + 4)) (le_bytes 4 fd1)) in
          if r <? 0 then
            set_ofile p (Z.to_nat fd0) None ;;
            set_ofile p (Z.to_nat fd1) None ;;
            close_both
          else ret 0
  end.
End Sysfile.
