(* ===== verification/Trap.v ===== *)
(** kernel/syscall.c's dispatcher, kernel/trap.c, forkret of kernel/proc.c
    and the boot sequence of kernel/main.c.

    The supervisor's control registers that the trap code reads are given
    with each trap ([csrs]); those it writes are its result. What the
    interrupt controller answers to plic_claim, and the disk when asked why it
    interrupts, is part of them. *)

From stdpp Require Import base numbers list gmap strings.
From S2P Require Import Prelude Params Mem KString State Locks Cache Kalloc Vm Virtio Console Log Fs Pipe File Proc Exec Syscall Sysfile.

(** The control registers at a trap. *)
Record csrs := mk_csrs {
  r_sstatus : Z;
  r_sepc : Z;
  r_scause : Z;
  r_stval : Z;
  r_satp : Z;
  r_tp : Z;          (* the hart id *)
  plic_irq : Z;      (* what the PLIC's claim register holds *)
  vdisk_status : Z;  (* the disk's interrupt status register *)
}.

(** How the trap code leaves the CPU: the registers written, and where
    trampoline.S's userret is entered with which page table. *)
Record user_return := mk_user_return {
  w_stvec : Z;
  w_sstatus : Z;
  w_sepc : Z;
  ur_jump : Z;
  ur_satp : Z;
}.

Section Trap.
Context {W : Wakeups} {L : Layout} {C : BlockCache}.

(** ** syscall.c *)

(** The entries of syscalls[], by the numbers of syscall.h. *)
Definition syscalls : list (option (K Z)) := [
  None;
  Some sys_fork; Some sys_exit; Some sys_wait; Some sys_pipe; Some sys_read;
  Some sys_kill; Some sys_exec; Some sys_fstat; Some sys_chdir; Some sys_dup;
  Some sys_getpid; Some sys_sbrk; Some sys_sleep; Some sys_uptime; Some sys_open;
  Some sys_write; Some sys_mknod; Some sys_unlink; Some sys_link; Some sys_mkdir;
  Some sys_close].

Definition syscall_entry (num : Z) : option (K Z) :=
  if (0 <? num) && (num <? Z.of_nat (length syscalls))
  then mjoin (syscalls !! Z.to_nat num) else None.

Definition syscall : K unit :=
  let! i := me in
  let! p := get_proc i in
  let! a7 := load64 (p_trapframe p + tf_a7) in
  let num := s32 a7 in
  match syscall_entry num with
  | Some f =>
      let! r := f in
      let! p := get_proc i in
      store64 (p_trapframe p + tf_a0) r
  | None =>
      printf (bytes_of "%d %s: unknown sys call %d" ++ newline)
        [PInt (p_pid p); PStr (Some (cstr (p_name p))); PInt num] ;;
      store64 (p_trapframe p + tf_a0) (-1)
  end.

(** ** trap.c *)

Definition clockintr (c : csrs) : K unit :=
  when (r_tp c =? 0)
    (acquire LkTicks ;;
     modify (fun s => set_k_ticks (u32 (k_ticks s + 1)) s) ;;
     wakeup ChTicks ;;
     release LkTicks).

(** 2 for a timer interrupt, 1 for another device, 0 if not recognized. *)
Definition devintr (c : csrs) : K Z :=
  if r_scause c =? 0x8000000000000009 then
    (* this is a supervisor external interrupt, via PLIC. *)
    let irq := plic_irq c in
    (if irq =? UART0_IRQ then uartintr
     else if irq =? VIRTIO0_IRQ then virtio_disk_intr (vdisk_status c)
     else when (negb (irq =? 0))
            (printf (bytes_of "unexpected interrupt irq=%d" ++ newline) [PInt irq])) ;;
    ret 1
  else if r_scause c =? 0x8000000000000005 then
    clockintr c ;;
    ret 2
  else ret 0.

Definition usertrapret (c : csrs) : K user_return :=
  let! p := curproc in
  let trampoline_uservec := TRAMPOLINE + (uservec - trampoline) in
  let tf := p_trapframe p in
  (* set up trapframe values that uservec will need when the process next
     traps into the kernel. *)
  store64 (tf + tf_kernel_satp) (r_satp c) ;;
  store64 (tf + tf_kernel_sp) (p_kstack p + PGSIZE) ;;
  store64 (tf + tf_kernel_trap) usertrap_addr ;;
  store64 (tf + tf_kernel_hartid) (r_tp c) ;;
  (* set S Previous Privilege mode to User, enable interrupts in user mode. *)
  let x := Z.land (r_sstatus c) (u64 (Z.lnot SSTATUS_SPP)) in
  let x := Z.lor x SSTATUS_SPIE in
  let! epc := load64 (tf + tf_epc) in
  ret (mk_user_return trampoline_uservec x epc
         (TRAMPOLINE + (userret - trampoline)) (MAKE_SATP (p_pagetable p))).

(** [c] at the trap, [c'] when the code gets to usertrapret (a system call
    or a yield may have taken interrupts in between). *)
Definition usertrap (c c' : csrs) : K user_return :=
  if has (r_sstatus c) SSTATUS_SPP then panic "usertrap: not from user mode"
  else
    let! i := me in
    let! p := get_proc i in
    (* save user program counter. *)
    store64 (p_trapframe p + tf_epc) (r_sepc c) ;;
    let! which_dev :=
      (if r_scause c =? 8 then
         (* system call *)
         let! k := killed i in
         when k (exit (-1)) ;;
         (* return to the instruction after the ecall. *)
         let! epc := load64 (p_trapframe p + tf_epc) in
         store64 (p_trapframe p + tf_epc) (epc + 4) ;;
         syscall ;;
         ret 0
       else
         let! dev := devintr c in
         if negb (dev =? 0) then ret dev
         else
           printf (bytes_of "usertrap(): unexpected scause 0x%lx pid=%d" ++ newline)
             [PInt (r_scause c); PInt (p_pid p)] ;;
           printf (bytes_of "            sepc=0x%lx stval=0x%lx" ++ newline)
             [PInt (r_sepc c); PInt (r_stval c)] ;;
           setkilled i ;;
           ret 0) in
    let! k := killed i in
    when k (exit (-1)) ;;
    (* give up the CPU if this is a timer interrupt. *)
    when (which_dev =? 2) yield ;;
    usertrapret c'.

(** sepc and sstatus as they are restored. *)
Definition kerneltrap (c : csrs) : K (Z * Z) :=
  let sepc := r_sepc c in
  let sstatus := r_sstatus c in
  if negb (has sstatus SSTATUS_SPP) then panic "kerneltrap: not from supervisor mode"
  else if has sstatus SSTATUS_SIE then panic "kerneltrap: interrupts enabled"
  else
    let! which_dev := devintr c in
    if which_dev =? 0 then
      printf (bytes_of "scause=0x%lx sepc=0x%lx stval=0x%lx" ++ newline)
        [PInt (r_scause c); PInt sepc; PInt (r_stval c)] ;;
      panic "kerneltrap"
    else
      let! p := myproc in
      (* give up the CPU if this is a timer interrupt. *)
      when ((which_dev =? 2) && bool_decide (p <> None)) yield ;;
      ret (sepc, sstatus).

(** ** proc.c *)

(** A fork child's very first scheduling by scheduler() will swtch here. *)
Definition forkret (c : csrs) : K user_return :=
  (* Still holding p->lock from scheduler. *)
  let! i := me in
  release (LkProc i) ;;
  let! first := gets k_first in
  when first
    (fsinit ROOTDEV ;;
     modify (set_k_first false)) ;;
  usertrapret c.

(** ** main.c

    [R] is what the disk's registers answer. The other devices' set-up
    (consoleinit, plicinit, plicinithart), the lock initialisations and the
    switch to paging leave the modelled state alone; consoleinit's entries in
    devsw are those of File.v. *)
Definition main (R : Z -> Z) : K unit :=
  printf newline [] ;;
  printf (bytes_of "xv6 kernel is booting" ++ newline) [] ;;
  printf newline [] ;;
  kinit ;;              (* physical page allocator *)
  kvminit ;;            (* create kernel page table *)
  procinit ;;           (* process table *)
  binit ;;              (* buffer cache *)
  iinit ;;              (* inode table *)
  virtio_disk_init R ;; (* emulated hard disk *)
  userinit.             (* first user process *)
End Trap.
