(* ===== verification/Hart.v ===== *)
(** The registers of one hart: the accessors of kernel/riscv.h, kernel/start.c,
    kernel/plic.c, and the functions elsewhere that only program registers
    (trapinithart, kvminithart, uartinit, cpuid).

    The control registers behave as the privileged architecture defines them:
    sstatus and sie are views of mstatus and mie; machine registers can be
    accessed in machine mode only, stimecmp and time in supervisor mode only
    when the machine registers allow it; an access that is not allowed is an
    illegal instruction ([Panic]). Stores to device registers are recorded in
    order ([h_io]). What plic_claim reads is given. *)

From stdpp Require Import base numbers list gmap strings.
From S2P Require Import Prelude Params.

Inductive mode := User | Supervisor | Machine.

#[export] Instance mode_eq_dec : EqDecision mode.
Proof. solve_decision. Defined.

Record hart := mk_hart {
  h_mode : mode;
  h_pc : Z;
  h_mhartid : Z;
  h_mstatus : Z;
  h_mepc : Z;
  h_medeleg : Z;
  h_mideleg : Z;
  h_mie : Z;
  h_menvcfg : Z;
  h_mcounteren : Z;
  h_pmpcfg0 : Z;
  h_pmpaddr0 : Z;
  h_satp : Z;
  h_stvec : Z;
  h_sepc : Z;
  h_scause : Z;
  h_stval : Z;
  h_stimecmp : Z;
  h_time : Z;
  h_tp : Z;
  h_io : list (Z * Z);   (* address, value *)
}.

Definition set_h_mode (v : mode) (h : hart) : hart := mk_hart v (h_pc h) (h_mhartid h) (h_mstatus h) (h_mepc h) (h_medeleg h) (h_mideleg h) (h_mie h) (h_menvcfg h) (h_mcounteren h) (h_pmpcfg0 h) (h_pmpaddr0 h) (h_satp h) (h_stvec h) (h_sepc h) (h_scause h) (h_stval h) (h_stimecmp h) (h_time h) (h_tp h) (h_io h).
Definition set_h_pc (v : Z) (h : hart) : hart := mk_hart (h_mode h) v (h_mhartid h) (h_mstatus h) (h_mepc h) (h_medeleg h) (h_mideleg h) (h_mie h) (h_menvcfg h) (h_mcounteren h) (h_pmpcfg0 h) (h_pmpaddr0 h) (h_satp h) (h_stvec h) (h_sepc h) (h_scause h) (h_stval h) (h_stimecmp h) (h_time h) (h_tp h) (h_io h).
Definition set_h_mhartid (v : Z) (h : hart) : hart := mk_hart (h_mode h) (h_pc h) v (h_mstatus h) (h_mepc h) (h_medeleg h) (h_mideleg h) (h_mie h) (h_menvcfg h) (h_mcounteren h) (h_pmpcfg0 h) (h_pmpaddr0 h) (h_satp h) (h_stvec h) (h_sepc h) (h_scause h) (h_stval h) (h_stimecmp h) (h_time h) (h_tp h) (h_io h).
Definition set_h_mstatus (v : Z) (h : hart) : hart := mk_hart (h_mode h) (h_pc h) (h_mhartid h) v (h_mepc h) (h_medeleg h) (h_mideleg h) (h_mie h) (h_menvcfg h) (h_mcounteren h) (h_pmpcfg0 h) (h_pmpaddr0 h) (h_satp h) (h_stvec h) (h_sepc h) (h_scause h) (h_stval h) (h_stimecmp h) (h_time h) (h_tp h) (h_io h).
Definition set_h_mepc (v : Z) (h : hart) : hart := mk_hart (h_mode h) (h_pc h) (h_mhartid h) (h_mstatus h) v (h_medeleg h) (h_mideleg h) (h_mie h) (h_menvcfg h) (h_mcounteren h) (h_pmpcfg0 h) (h_pmpaddr0 h) (h_satp h) (h_stvec h) (h_sepc h) (h_scause h) (h_stval h) (h_stimecmp h) (h_time h) (h_tp h) (h_io h).
Definition set_h_medeleg (v : Z) (h : hart) : hart := mk_hart (h_mode h) (h_pc h) (h_mhartid h) (h_mstatus h) (h_mepc h) v (h_mideleg h) (h_mie h) (h_menvcfg h) (h_mcounteren h) (h_pmpcfg0 h) (h_pmpaddr0 h) (h_satp h) (h_stvec h) (h_sepc h) (h_scause h) (h_stval h) (h_stimecmp h) (h_time h) (h_tp h) (h_io h).
Definition set_h_mideleg (v : Z) (h : hart) : hart := mk_hart (h_mode h) (h_pc h) (h_mhartid h) (h_mstatus h) (h_mepc h) (h_medeleg h) v (h_mie h) (h_menvcfg h) (h_mcounteren h) (h_pmpcfg0 h) (h_pmpaddr0 h) (h_satp h) (h_stvec h) (h_sepc h) (h_scause h) (h_stval h) (h_stimecmp h) (h_time h) (h_tp h) (h_io h).
Definition set_h_mie (v : Z) (h : hart) : hart := mk_hart (h_mode h) (h_pc h) (h_mhartid h) (h_mstatus h) (h_mepc h) (h_medeleg h) (h_mideleg h) v (h_menvcfg h) (h_mcounteren h) (h_pmpcfg0 h) (h_pmpaddr0 h) (h_satp h) (h_stvec h) (h_sepc h) (h_scause h) (h_stval h) (h_stimecmp h) (h_time h) (h_tp h) (h_io h).
Definition set_h_menvcfg (v : Z) (h : hart) : hart := mk_hart (h_mode h) (h_pc h) (h_mhartid h) (h_mstatus h) (h_mepc h) (h_medeleg h) (h_mideleg h) (h_mie h) v (h_mcounteren h) (h_pmpcfg0 h) (h_pmpaddr0 h) (h_satp h) (h_stvec h) (h_sepc h) (h_scause h) (h_stval h) (h_stimecmp h) (h_time h) (h_tp h) (h_io h).
Definition set_h_mcounteren (v : Z) (h : hart) : hart := mk_hart (h_mode h) (h_pc h) (h_mhartid h) (h_mstatus h) (h_mepc h) (h_medeleg h) (h_mideleg h) (h_mie h) (h_menvcfg h) v (h_pmpcfg0 h) (h_pmpaddr0 h) (h_satp h) (h_stvec h) (h_sepc h) (h_scause h) (h_stval h) (h_stimecmp h) (h_time h) (h_tp h) (h_io h).
Definition set_h_pmpcfg0 (v : Z) (h : hart) : hart := mk_hart (h_mode h) (h_pc h) (h_mhartid h) (h_mstatus h) (h_mepc h) (h_medeleg h) (h_mideleg h) (h_mie h) (h_menvcfg h) (h_mcounteren h) v (h_pmpaddr0 h) (h_satp h) (h_stvec h) (h_sepc h) (h_scause h) (h_stval h) (h_stimecmp h) (h_time h) (h_tp h) (h_io h).
Definition set_h_pmpaddr0 (v : Z) (h : hart) : hart := mk_hart (h_mode h) (h_pc h) (h_mhartid h) (h_mstatus h) (h_mepc h) (h_medeleg h) (h_mideleg h) (h_mie h) (h_menvcfg h) (h_mcounteren h) (h_pmpcfg0 h) v (h_satp h) (h_stvec h) (h_sepc h) (h_scause h) (h_stval h) (h_stimecmp h) (h_time h) (h_tp h) (h_io h).
Definition set_h_satp (v : Z) (h : hart) : hart := mk_hart (h_mode h) (h_pc h) (h_mhartid h) (h_mstatus h) (h_mepc h) (h_medeleg h) (h_mideleg h) (h_mie h) (h_menvcfg h) (h_mcounteren h) (h_pmpcfg0 h) (h_pmpaddr0 h) v (h_stvec h) (h_sepc h) (h_scause h) (h_stval h) (h_stimecmp h) (h_time h) (h_tp h) (h_io h).
Definition set_h_stvec (v : Z) (h : hart) : hart := mk_hart (h_mode h) (h_pc h) (h_mhartid h) (h_mstatus h) (h_mepc h) (h_medeleg h) (h_mideleg h) (h_mie h) (h_menvcfg h) (h_mcounteren h) (h_pmpcfg0 h) (h_pmpaddr0 h) (h_satp h) v (h_sepc h) (h_scause h) (h_stval h) (h_stimecmp h) (h_time h) (h_tp h) (h_io h).
Definition set_h_sepc (v : Z) (h : hart) : hart := mk_hart (h_mode h) (h_pc h) (h_mhartid h) (h_mstatus h) (h_mepc h) (h_medeleg h) (h_mideleg h) (h_mie h) (h_menvcfg h) (h_mcounteren h) (h_pmpcfg0 h) (h_pmpaddr0 h) (h_satp h) (h_stvec h) v (h_scause h) (h_stval h) (h_stimecmp h) (h_time h) (h_tp h) (h_io h).
Definition set_h_scause (v : Z) (h : hart) : hart := mk_hart (h_mode h) (h_pc h) (h_mhartid h) (h_mstatus h) (h_mepc h) (h_medeleg h) (h_mideleg h) (h_mie h) (h_menvcfg h) (h_mcounteren h) (h_pmpcfg0 h) (h_pmpaddr0 h) (h_satp h) (h_stvec h) (h_sepc h) v (h_stval h) (h_stimecmp h) (h_time h) (h_tp h) (h_io h).
Definition set_h_stval (v : Z) (h : hart) : hart := mk_hart (h_mode h) (h_pc h) (h_mhartid h) (h_mstatus h) (h_mepc h) (h_medeleg h) (h_mideleg h) (h_mie h) (h_menvcfg h) (h_mcounteren h) (h_pmpcfg0 h) (h_pmpaddr0 h) (h_satp h) (h_stvec h) (h_sepc h) (h_scause h) v (h_stimecmp h) (h_time h) (h_tp h) (h_io h).
Definition set_h_stimecmp (v : Z) (h : hart) : hart := mk_hart (h_mode h) (h_pc h) (h_mhartid h) (h_mstatus h) (h_mepc h) (h_medeleg h) (h_mideleg h) (h_mie h) (h_menvcfg h) (h_mcounteren h) (h_pmpcfg0 h) (h_pmpaddr0 h) (h_satp h) (h_stvec h) (h_sepc h) (h_scause h) (h_stval h) v (h_time h) (h_tp h) (h_io h).
Definition set_h_time (v : Z) (h : hart) : hart := mk_hart (h_mode h) (h_pc h) (h_mhartid h) (h_mstatus h) (h_mepc h) (h_medeleg h) (h_mideleg h) (h_mie h) (h_menvcfg h) (h_mcounteren h) (h_pmpcfg0 h) (h_pmpaddr0 h) (h_satp h) (h_stvec h) (h_sepc h) (h_scause h) (h_stval h) (h_stimecmp h) v (h_tp h) (h_io h).
Definition set_h_tp (v : Z) (h : hart) : hart := mk_hart (h_mode h) (h_pc h) (h_mhartid h) (h_mstatus h) (h_mepc h) (h_medeleg h) (h_mideleg h) (h_mie h) (h_menvcfg h) (h_mcounteren h) (h_pmpcfg0 h) (h_pmpaddr0 h) (h_satp h) (h_stvec h) (h_sepc h) (h_scause h) (h_stval h) (h_stimecmp h) (h_time h) v (h_io h).
Definition set_h_io (v : list (Z * Z)) (h : hart) : hart := mk_hart (h_mode h) (h_pc h) (h_mhartid h) (h_mstatus h) (h_mepc h) (h_medeleg h) (h_mideleg h) (h_mie h) (h_menvcfg h) (h_mcounteren h) (h_pmpcfg0 h) (h_pmpaddr0 h) (h_satp h) (h_stvec h) (h_sepc h) (h_scause h) (h_stval h) (h_stimecmp h) (h_time h) (h_tp h) v.

Definition HM : Type -> Type := M hart.

(** ** Access to control registers *)

Definition in_machine {A} (m : HM A) : HM A := fun h =>
  match h_mode h with Machine => m h | _ => Panic "illegal instruction" h end.
Definition in_supervisor {A} (m : HM A) : HM A := fun h =>
  match h_mode h with User => Panic "illegal instruction" h | _ => m h end.

(** The bits of mstatus that sstatus shows, the interrupts that can be
    delegated to the supervisor, the bits that enable stimecmp and time. *)
Definition sstatus_mask : Z := 0x80000003000de762.
Definition delegable : Z := 0x222.
Definition STCE : Z := 63.
Definition TM : Z := 1.

(** [x] with the bits of [mask] from [v]. *)
Definition merge (mask x v : Z) : Z := Z.lor (Z.land x (u64 (Z.lnot mask))) (Z.land v mask).

Definition timer_access {A} (m : HM A) : HM A := fun h =>
  match h_mode h with
  | Machine => m h
  | Supervisor => if Z.testbit (h_menvcfg h) STCE && Z.testbit (h_mcounteren h) TM then m h else Panic "illegal instruction" h
  | User => Panic "illegal instruction" h
  end.

Definition time_access {A} (m : HM A) : HM A := fun h =>
  match h_mode h with
  | Machine => m h
  | Supervisor => if Z.testbit (h_mcounteren h) TM then m h else Panic "illegal instruction" h
  | User => Panic "illegal instruction" h
  end.

Definition r_mhartid : HM Z := in_machine (gets h_mhartid).
Definition r_mstatus : HM Z := in_machine (gets h_mstatus).
Definition r_medeleg : HM Z := in_machine (gets h_medeleg).
Definition r_mideleg : HM Z := in_machine (gets h_mideleg).
Definition r_mie : HM Z := in_machine (gets h_mie).
Definition r_menvcfg : HM Z := in_machine (gets h_menvcfg).
Definition r_mcounteren : HM Z := in_machine (gets h_mcounteren).
Definition w_mstatus (x : Z) : HM unit := in_machine (modify (set_h_mstatus x)).
Definition w_mepc (x : Z) : HM unit := in_machine (modify (set_h_mepc x)).
Definition w_medeleg (x : Z) : HM unit := in_machine (modify (set_h_medeleg x)).
Definition w_mie (x : Z) : HM unit := in_machine (modify (set_h_mie x)).
Definition w_menvcfg (x : Z) : HM unit := in_machine (modify (set_h_menvcfg x)).
Definition w_mcounteren (x : Z) : HM unit := in_machine (modify (set_h_mcounteren x)).
Definition w_pmpcfg0 (x : Z) : HM unit := in_machine (modify (set_h_pmpcfg0 x)).
Definition w_pmpaddr0 (x : Z) : HM unit := in_machine (modify (set_h_pmpaddr0 x)).
Definition w_mideleg (x : Z) : HM unit := in_machine (modify (set_h_mideleg (Z.land x delegable))).
Definition r_satp : HM Z := in_supervisor (gets h_satp).
Definition r_stvec : HM Z := in_supervisor (gets h_stvec).
Definition r_sepc : HM Z := in_supervisor (gets h_sepc).
Definition r_scause : HM Z := in_supervisor (gets h_scause).
Definition r_stval : HM Z := in_supervisor (gets h_stval).
Definition w_satp (x : Z) : HM unit := in_supervisor (modify (set_h_satp x)).
Definition w_stvec (x : Z) : HM unit := in_supervisor (modify (set_h_stvec x)).
Definition w_sepc (x : Z) : HM unit := in_supervisor (modify (set_h_sepc x)).
Definition r_sstatus : HM Z := in_supervisor (gets (fun h => Z.land (h_mstatus h) sstatus_mask)).
Definition w_sstatus (x : Z) : HM unit :=
  in_supervisor (modify (fun h => set_h_mstatus (merge sstatus_mask (h_mstatus h) x) h)).
Definition r_sie : HM Z := in_supervisor (gets (fun h => Z.land (h_mie h) (h_mideleg h))).
Definition w_sie (x : Z) : HM unit :=
  in_supervisor (modify (fun h => set_h_mie (merge (h_mideleg h) (h_mie h) x) h)).
Definition r_stimecmp : HM Z := timer_access (gets h_stimecmp).
Definition w_stimecmp (x : Z) : HM unit := timer_access (modify (set_h_stimecmp x)).
Definition r_time : HM Z := time_access (gets h_time).
Definition r_tp : HM Z := gets h_tp.
Definition w_tp (x : Z) : HM unit := modify (set_h_tp x).

(** enable and disable device interrupts; are they enabled? *)
Definition intr_on : HM unit := let! x := r_sstatus in w_sstatus (Z.lor x SSTATUS_SIE).
Definition intr_off : HM unit := let! x := r_sstatus in w_sstatus (Z.land x (u64 (Z.lnot SSTATUS_SIE))).
Definition intr_get : HM bool := let! x := r_sstatus in ret (negb (Z.land x SSTATUS_SIE =? 0)).

(** A store to a device register. *)
Definition mmio (a v : Z) : HM unit := modify (fun h => set_h_io (h_io h ++ [(a, v)]) h).

(** ** start.c *)

Definition MSTATUS_MPP_MASK : Z := Z.shiftl 3 11.
Definition MSTATUS_MPP_S : Z := Z.shiftl 1 11.
Definition SIE_SEIE : Z := Z.shiftl 1 9.
Definition SIE_STIE : Z := Z.shiftl 1 5.
Definition SIE_SSIE : Z := Z.shiftl 1 1.
Definition MIE_STIE : Z := Z.shiftl 1 5.

(** ask each hart to generate timer interrupts. *)
Definition timerinit : HM unit :=
  (* enable supervisor-mode timer interrupts. *)
  let! x := r_mie in w_mie (Z.lor x MIE_STIE) ;;
  (* enable the sstc extension (i.e. stimecmp). *)
  let! x := r_menvcfg in w_menvcfg (Z.lor x (Z.shiftl 1 63)) ;;
  (* allow supervisor to use stimecmp and time. *)
  let! x := r_mcounteren in w_mcounteren (Z.lor x 2) ;;
  (* ask for the very first timer interrupt. *)
  let! x := r_time in w_stimecmp (u64 (x + 1000000)).

(** The mode in the MPP field. *)
Definition mpp (x : Z) : mode :=
  let v := Z.land (Z.shiftr x 11) 3 in
  if v =? 0 then User else if v =? 1 then Supervisor else Machine.

(** mret: to the mode in MPP at mepc; MIE becomes MPIE, MPIE 1, MPP user. *)
Definition mret : HM unit := in_machine (modify (fun h =>
  let x := h_mstatus h in
  let y := merge (Z.lor (Z.lor (Z.shiftl 1 3) (Z.shiftl 1 7)) MSTATUS_MPP_MASK) x
             (Z.lor (if Z.testbit x 7 then Z.shiftl 1 3 else 0) (Z.shiftl 1 7)) in
  set_h_mode (mpp x) (set_h_pc (h_mepc h) (set_h_mstatus y h)))).

(** entry.S jumps here in machine mode; [main_addr] is the address of main. *)
Definition start (main_addr : Z) : HM unit :=
  (* set M Previous Privilege mode to Supervisor, for mret. *)
  let! x := r_mstatus in
  let x := Z.land x (u64 (Z.lnot MSTATUS_MPP_MASK)) in
  let x := Z.lor x MSTATUS_MPP_S in
  w_mstatus x ;;
  (* set M Exception Program Counter to main, for mret. *)
  w_mepc main_addr ;;
  (* disable paging for now. *)
  w_satp 0 ;;
  (* delegate all interrupts and exceptions to supervisor mode. *)
  w_medeleg 0xffff ;;
  w_mideleg 0xffff ;;
  let! x := r_sie in
  w_sie (Z.lor (Z.lor (Z.lor x SIE_SEIE) SIE_STIE) SIE_SSIE) ;;
  (* give supervisor mode access to all of physical memory. *)
  w_pmpaddr0 0x3fffffffffffff ;;
  w_pmpcfg0 0xf ;;
  (* ask for clock interrupts. *)
  timerinit ;;
  (* keep each CPU's hartid in its tp register, for cpuid(). *)
  let! id := r_mhartid in
  w_tp (s32 id) ;;
  (* switch to supervisor mode and jump to main(). *)
  mret.

(** ** Registers elsewhere *)

Definition cpuid : HM Z := let! id := r_tp in ret (s32 id).

Section Hart.
Context {L : Layout}.

(** set up to take exceptions and traps while in the kernel. *)
Definition trapinithart : HM unit := w_stvec kernelvec.

(** turn on paging; the fences have no effect on the registers. *)
Definition kvminithart (kernel_pagetable : Z) : HM unit := w_satp (MAKE_SATP kernel_pagetable).
End Hart.

(** ask for the next timer interrupt (the end of clockintr). *)
Definition next_tick : HM unit := let! x := r_time in w_stimecmp (u64 (x + 1000000)).

(** ** plic.c *)

Definition PLIC_SENABLE (hart : Z) : Z := PLIC + 0x2080 + hart * 0x100.
Definition PLIC_SPRIORITY (hart : Z) : Z := PLIC + 0x201000 + hart * 0x2000.
Definition PLIC_SCLAIM (hart : Z) : Z := PLIC + 0x201004 + hart * 0x2000.

Definition plicinit : HM unit :=
  (* set desired IRQ priorities non-zero (otherwise disabled). *)
  mmio (PLIC + UART0_IRQ * 4) 1 ;;
  mmio (PLIC + VIRTIO0_IRQ * 4) 1.

Definition plicinithart : HM unit :=
  let! hart := cpuid in
  (* set enable bits for this hart's S-mode for the uart and virtio disk. *)
  mmio (PLIC_SENABLE hart) (Z.lor (Z.shiftl 1 UART0_IRQ) (Z.shiftl 1 VIRTIO0_IRQ)) ;;
  (* set this hart's S-mode priority threshold to 0. *)
  mmio (PLIC_SPRIORITY hart) 0.

(** [claim a]: what a load of the claim register at [a] answers. *)
Definition plic_claim (claim : Z -> Z) : HM Z :=
  let! hart := cpuid in
  ret (s32 (u32 (claim (PLIC_SCLAIM hart)))).

Definition plic_complete (irq : Z) : HM unit :=
  let! hart := cpuid in
  mmio (PLIC_SCLAIM hart) (u32 irq).

(** ** uartinit of uart.c *)

Definition IER : Z := 1.
Definition FCR : Z := 2.
Definition LCR : Z := 3.
Definition WriteReg (reg v : Z) : HM unit := mmio (UART0 + reg) v.

Definition uartinit : HM unit :=
  (* disable interrupts. *)
  WriteReg IER 0x00 ;;
  (* special mode to set baud rate. *)
  WriteReg LCR (Z.shiftl 1 7) ;;
  (* LSB, then MSB for baud rate of 38.4K. *)
  WriteReg 0 0x03 ;;
  WriteReg 1 0x00 ;;
  (* leave set-baud mode, and set word length to 8 bits, no parity. *)
  WriteReg LCR 3 ;;
  (* reset and enable FIFOs. *)
  WriteReg FCR (Z.lor 1 (Z.shiftl 3 1)) ;;
  (* enable transmit and receive interrupts. *)
  WriteReg IER (Z.lor (Z.shiftl 1 1) 1).

(** ** Traps and returns

    What the hardware does at a trap that supervisor mode handles, and at
    sret. Pending interrupts are numbered as in sip: 1 software, 5 timer,
    9 external. *)

(** [x] with bit [n] set to [b]. *)
Definition setb (n : Z) (b : bool) (x : Z) : Z := if b then Z.setbit x n else Z.clearbit x n.

Definition SIE_bit : Z := 1.
Definition SPIE_bit : Z := 5.
Definition SPP_bit : Z := 8.

(** A trap to supervisor mode: the interrupted pc in sepc, the mode in SPP,
    SIE saved in SPIE and cleared, on to stvec. *)
Definition trap_S (cause tval : Z) (h : hart) : hart :=
  let x := h_mstatus h in
  let x' := setb SPP_bit (bool_decide (h_mode h <> User))
              (setb SPIE_bit (Z.testbit x SIE_bit) (setb SIE_bit false x)) in
  set_h_mode Supervisor (set_h_pc (h_stvec h) (set_h_sepc (h_pc h)
    (set_h_scause cause (set_h_stval tval (set_h_mstatus x' h))))).

(** An interrupt that is delegated and enabled in mie is taken in user mode
    always, in supervisor mode when SIE is set. *)
Definition takes_S (i : Z) (h : hart) : bool :=
  Z.testbit (h_mideleg h) i && Z.testbit (h_mie h) i &&
  match h_mode h with
  | User => true
  | Supervisor => Z.testbit (h_mstatus h) SIE_bit
  | Machine => false
  end.
Definition interrupt_S (i : Z) (h : hart) : option hart :=
  if takes_S i h then Some (trap_S (2 ^ 63 + i) 0 h) else None.

(** The timer's interrupt is pending. *)
Definition timer_pending (h : hart) : bool :=
  Z.testbit (h_menvcfg h) STCE && (h_stimecmp h <=? h_time h).

(** An exception from user mode that is delegated. *)
Definition exception_S (cause tval : Z) (h : hart) : option hart :=
  if Z.testbit (h_medeleg h) cause && bool_decide (h_mode h <> Machine)
  then Some (trap_S cause tval h) else None.

(** sret: to the mode in SPP at sepc; SIE becomes SPIE, SPIE 1, SPP user. *)
Definition sret : HM unit := in_supervisor (modify (fun h =>
  let x := h_mstatus h in
  let x' := setb SPP_bit false (setb SPIE_bit true (setb SIE_bit (Z.testbit x SPIE_bit) x)) in
  set_h_mode (if Z.testbit x SPP_bit then Supervisor else User)
    (set_h_pc (h_sepc h) (set_h_mstatus x' h)))).

(** ** Lemmas on bits *)

Lemma testbit_setb n b x m : 0 <= n -> Z.testbit (setb n b x) m = if m =? n then b else Z.testbit x m.
Proof.
  intros Hn. unfold setb. destruct (Z.eqb_spec m n) as [->|Hm], b.
  - by apply Z.setbit_eq.
  - by apply Z.clearbit_eq.
  - apply Z.setbit_neq; lia.
  - apply Z.clearbit_neq; lia.
Qed.

Lemma testbit_u64_not m n : 0 <= n < 64 -> Z.testbit (u64 (Z.lnot m)) n = negb (Z.testbit m n).
Proof.
  intros Hn. unfold u64. change 18446744073709551616 with (2 ^ 64).
  rewrite Z.mod_pow2_bits_low, Z.lnot_spec by lia. done.
Qed.

Lemma testbit_merge mask x v n : 0 <= n < 64 ->
  Z.testbit (merge mask x v) n = if Z.testbit mask n then Z.testbit v n else Z.testbit x n.
Proof.
  intros Hn. unfold merge. rewrite Z.lor_spec, !Z.land_spec, testbit_u64_not by done.
  by destruct (Z.testbit mask n), (Z.testbit x n), (Z.testbit v n).
Qed.

(** Bit [n] of an expression of the accessors. *)
Ltac bit_lia := cbv delta [SIE_bit SPIE_bit SPP_bit]; lia.
Ltac bits :=
  repeat first
    [ rewrite Z.lor_spec | rewrite Z.land_spec | rewrite testbit_u64_not by bit_lia
    | rewrite testbit_merge by bit_lia | rewrite testbit_setb by bit_lia ].

(** [hart_run] executes accessors on explicit registers; [hsimpl] reads registers back. *)
Ltac hart_run :=
  lazy [
    start timerinit mret sret in_machine in_supervisor timer_access time_access r_mhartid
    r_mstatus r_mie r_menvcfg r_mcounteren r_sie r_sstatus r_time r_tp cpuid w_mstatus w_mepc
    w_satp w_medeleg w_mideleg w_sie w_mie w_menvcfg w_mcounteren w_stimecmp w_pmpaddr0
    w_pmpcfg0 w_tp w_sstatus w_sepc w_stvec intr_on intr_off mmio WriteReg uartinit plicinit
    plicinithart kvminithart trapinithart next_tick bind obind gets modify ret set_h_mode
    set_h_pc set_h_mhartid set_h_mstatus set_h_mepc set_h_medeleg set_h_mideleg set_h_mie
    set_h_menvcfg set_h_mcounteren set_h_pmpcfg0 set_h_pmpaddr0 set_h_satp set_h_stvec
    set_h_sepc set_h_scause set_h_stval set_h_stimecmp set_h_time set_h_tp set_h_io h_mode h_pc
    h_mhartid h_mstatus h_mepc h_medeleg h_mideleg h_mie h_menvcfg h_mcounteren h_pmpcfg0
    h_pmpaddr0 h_satp h_stvec h_sepc h_scause h_stval h_stimecmp h_time h_tp h_io];
  reflexivity.
Ltac hsimpl :=
  cbn [
    set_h_mode set_h_pc set_h_mhartid set_h_mstatus set_h_mepc set_h_medeleg set_h_mideleg
    set_h_mie set_h_menvcfg set_h_mcounteren set_h_pmpcfg0 set_h_pmpaddr0 set_h_satp set_h_stvec
    set_h_sepc set_h_scause set_h_stval set_h_stimecmp set_h_time set_h_tp set_h_io h_mode h_pc
    h_mhartid h_mstatus h_mepc h_medeleg h_mideleg h_mie h_menvcfg h_mcounteren h_pmpcfg0
    h_pmpaddr0 h_satp h_stvec h_sepc h_scause h_stval h_stimecmp h_time h_tp h_io].

(** ** Start-up *)

(** Entry 0 of the physical memory protection lets the lower modes read,
    write and execute at [a] (mode TOR: from 0 to pmpaddr0 * 4). *)
Definition pmp_allows (h : hart) (a : Z) : bool :=
  (Z.land (h_pmpcfg0 h) 7 =? 7) && (Z.land (Z.shiftr (h_pmpcfg0 h) 3) 3 =? 1) &&
  (0 <=? a) && (a <? Z.shiftl (h_pmpaddr0 h) 2).

(** The supervisor's interrupts are delegated and enabled, and it may use the timer. *)
Definition delegated (h : hart) : Prop :=
  (forall i, i ∈ [1; 5; 9] -> Z.testbit (h_mideleg h) i = true /\ Z.testbit (h_mie h) i = true) /\
  (forall c, 0 <= c < 16 -> Z.testbit (h_medeleg h) c = true) /\
  Z.testbit (h_menvcfg h) STCE = true /\ Z.testbit (h_mcounteren h) TM = true.

(** The registers that main() of main.c programs: kvminithart and
    trapinithart on each hart, the UART and the interrupt controller's
    priorities by hart 0 (consoleinit, plicinit), plicinithart on each. *)
Definition main_registers `{Layout} (kernel_pagetable : Z) : HM unit :=
  let! id := cpuid in
  (if id =? 0 then
     uartinit ;;
     kvminithart kernel_pagetable ;;
     trapinithart ;;
     plicinit ;;
     plicinithart
   else
     kvminithart kernel_pagetable ;;
     trapinithart ;;
     plicinithart).

Lemma mpp_supervisor x : 0 <= x ->
  mpp (Z.lor (Z.land x (u64 (Z.lnot MSTATUS_MPP_MASK))) MSTATUS_MPP_S) = Supervisor.
Proof.
  intros Hx. unfold mpp. set (y := Z.lor _ _).
  replace (Z.land (Z.shiftr y 11) 3) with 1; [done|].
  apply Z.bits_inj'. intros n Hn. rewrite Z.land_spec, Z.shiftr_spec by done.
  change 3 with (Z.ones 2). destruct (decide (n = 0)) as [->|]; [|destruct (decide (n = 1)) as [->|]].
  - unfold y. bits. by rewrite orb_true_r.
  - unfold y. bits. by rewrite andb_false_r.
  - rewrite Z.ones_spec_high, andb_false_r by lia.
    rewrite <- (Z.pow_0_r 2), Z.pow2_bits_false; [done|lia].
Qed.

(** What [start] leaves. *)
Lemma start_run main_addr h : h_mode h = Machine -> 0 <= h_mstatus h ->
  exists h', start main_addr h = Ret tt h' /\
    h_mode h' = Supervisor /\ h_pc h' = main_addr /\ h_satp h' = 0 /\
    h_tp h' = s32 (h_mhartid h) /\ h_io h' = h_io h /\ h_time h' = h_time h /\
    h_stimecmp h' = u64 (h_time h + 1000000) /\
    delegated h' /\ (forall a, 0 <= a < 2 ^ 56 - 4 -> pmp_allows h' a = true).
Proof.
  intros Hm Hx. destruct h as [md pc id st me med mid mie menv mct pc0 pa0 satp stv sep sca stval cmp tm tp io].
  simpl in *. subst md. eexists. split; [hart_run|]. hsimpl. rewrite mpp_supervisor by done.
  split_and!; [done..| |].
  { split_and!.
  - intros i Hi. rewrite !elem_of_cons in Hi.
    destruct Hi as [->|[->|[->|Hi%elem_of_nil]]]; [| | |done]; hsimpl; split; bits; by rewrite ?orb_true_r.
  - intros c Hc. hsimpl. change 65535 with (Z.ones 16). rewrite Z.ones_spec_low by lia. done.
  - hsimpl. bits. by rewrite orb_true_r.
  - hsimpl. bits. by rewrite orb_true_r. }
  intros a Ha. unfold pmp_allows. hsimpl. change (Z.shiftl 18014398509481983 2) with (2 ^ 56 - 4).
  rewrite !andb_true_iff. split_and!; [done|done|lia|lia].
Qed.

Lemma next_tick_run h : h_mode h = Supervisor -> delegated h ->
  next_tick h = Ret tt (set_h_stimecmp (u64 (h_time h + 1000000)) h).
Proof.
  intros Hm (_ & _ & Hs & Ht).
  unfold next_tick, r_time, w_stimecmp, time_access, timer_access, bind, gets, modify.
  rewrite Hm, Ht. cbn [obind]. by rewrite Hm, Ht, Hs.
Qed.

(** Hart [h] later, between two instructions: at [pc], at time [t]. *)
Definition running (pc t : Z) (h : hart) : hart := set_h_time t (set_h_pc pc h).

(** What main() does to the registers, and the scheduler's first intr_on. *)
Lemma main_registers_run `{Layout} kpt h : h_mode h = Supervisor ->
  exists h', (main_registers kpt ;; intr_on) h = Ret tt h' /\
    h_mode h' = Supervisor /\ h_satp h' = MAKE_SATP kpt /\ h_stvec h' = kernelvec /\
    Z.testbit (h_mstatus h') SIE_bit = true /\ (delegated h -> delegated h') /\
    h_stimecmp h' = h_stimecmp h /\
    h_io h' = h_io h ++
      (if s32 (h_tp h) =? 0
       then [(UART0 + 1, 0); (UART0 + 3, 128); (UART0, 3); (UART0 + 1, 0); (UART0 + 3, 3);
             (UART0 + 2, 7); (UART0 + 1, 3); (PLIC + 40, 1); (PLIC + 4, 1)]
       else []) ++
      [(PLIC + 0x2080 + s32 (h_tp h) * 256, 1026); (PLIC + 0x201000 + s32 (h_tp h) * 8192, 0)] /\
    h_tp h' = h_tp h /\ (forall a, pmp_allows h' a = pmp_allows h a).
Proof.
  intros Hm. destruct h as [md pc id st me med mid mie menv mct pc0 pa0 satp stv sep sca stval cmp tm tp io].
  hsimpl. cbn [h_mode] in Hm. subst md. unfold main_registers, cpuid, r_tp, gets, ret, bind. cbn [obind h_tp].
  destruct (s32 tp =? 0).
  - eexists. split; [hart_run|]. hsimpl.
    split_and!; [done..| bits; apply orb_true_r | done | done | by rewrite <- !(assoc_L app) | done | done].
  - eexists. split; [hart_run|]. hsimpl.
    split_and!; [done..| bits; apply orb_true_r | done | done | by rewrite <- !(assoc_L app) | done | done].
Qed.

(** ** The trap hardware *)

Lemma s32_idem x : s32 (s32 x) = s32 x.
Proof. apply s32_small. unfold s32. dlia. Qed.

Lemma trap_S_regs cause tval h :
  let h' := trap_S cause tval h in
  h_mode h' = Supervisor /\ h_pc h' = h_stvec h /\ h_sepc h' = h_pc h /\
  h_scause h' = cause /\ h_stval h' = tval /\ h_satp h' = h_satp h /\ h_tp h' = h_tp h /\
  h_time h' = h_time h /\
  (delegated h -> delegated h') /\
  forall n, 0 <= n < 64 -> Z.testbit (h_mstatus h') n =
    if n =? SPP_bit then bool_decide (h_mode h <> User)
    else if n =? SPIE_bit then Z.testbit (h_mstatus h) SIE_bit
    else if n =? SIE_bit then false else Z.testbit (h_mstatus h) n.
Proof. split_and!; [done..|]. intros n Hn. unfold trap_S. hsimpl. by bits. Qed.

Lemma interrupt_S_taken i h : delegated h -> i ∈ [1; 5; 9] -> h_mode h <> Machine ->
  (h_mode h = User \/ Z.testbit (h_mstatus h) SIE_bit = true) ->
  interrupt_S i h = Some (trap_S (2 ^ 63 + i) 0 h).
Proof.
  intros [Hi _] Hin Hm HS. destruct (Hi _ Hin) as [H1 H2].
  unfold interrupt_S, takes_S. rewrite H1, H2.
  destruct (h_mode h); [done| |done]. destruct HS as [|HS]; [done|]. by rewrite HS.
Qed.

(** C20. Booting a hart enables its interrupts: started in machine mode with
    any registers, the code of start(), of main() that programs registers,
    and the scheduler's first intr_on() execute without an illegal
    instruction, and leave the hart in supervisor mode with the kernel's page
    table, its hart id in tp, all physical memory accessible, and the UART
    and the disk enabled for it at the interrupt controller. From then on,
    wherever the kernel is interrupted: once the first period is over the
    timer is pending; a software, timer or external interrupt is taken by
    supervisor mode at kernelvec, with the interrupted pc saved, interrupts
    off and the state kerneltrap() insists on; and setting the next period as
    clockintr() does is allowed and clears the request. *)
Theorem boot_takes_interrupts `{Layout} main_addr kpt h :
  h_mode h = Machine -> 0 <= h_mstatus h ->
  exists h', (start main_addr ;; main_registers kpt ;; intr_on) h = Ret tt h' /\
    h_mode h' = Supervisor /\ h_satp h' = MAKE_SATP kpt /\ h_tp h' = s32 (h_mhartid h) /\
    (forall a, 0 <= a < 2 ^ 56 - 4 -> pmp_allows h' a = true) /\
    (PLIC_SENABLE (s32 (h_mhartid h)), Z.lor (Z.shiftl 1 UART0_IRQ) (Z.shiftl 1 VIRTIO0_IRQ)) ∈ h_io h' /\
    forall pc t, u64 (h_time h + 1000000) <= t < 2 ^ 64 - 1000000 ->
      timer_pending (running pc t h') = true /\
      forall i, i ∈ [1; 5; 9] ->
        exists h1, interrupt_S i (running pc t h') = Some h1 /\
          h_mode h1 = Supervisor /\ h_pc h1 = kernelvec /\ h_sepc h1 = pc /\ h_scause h1 = 2 ^ 63 + i /\
          Z.testbit (h_mstatus h1) SPP_bit = true /\ Z.testbit (h_mstatus h1) SIE_bit = false /\
          exists h2, next_tick h1 = Ret tt h2 /\ timer_pending h2 = false.

Proof.
  intros Hm Hx.
  destruct (start_run main_addr h Hm Hx) as (h0 & E0 & Hm0 & _ & _ & Htp & _ & _ & Hcmp & Hd & Hpmp).
  destruct (main_registers_run kpt h0 Hm0) as (h' & E1 & Hm' & Hsatp & Hvec & HS & Hd' & Hc' & Hio & Htp' & Hpmp').
  exists h'. split; [unfold bind at 1; by rewrite E0|]. rewrite Htp, Htp', s32_idem in *.
  split_and!; [done..| |rewrite Hio, elem_of_app, elem_of_app; by do 2 right; left|].
  { intros a Ha. rewrite <- (Hpmp a Ha). by apply Hpmp'. }
  intros pc t Ht. apply Hd' in Hd. rewrite Hcmp in Hc'. split.
  { unfold timer_pending, running. hsimpl. destruct Hd as (_ & _ & -> & _). rewrite Hc'. lia. }
  intros i Hi. eexists. split; [apply interrupt_S_taken; try done; [unfold running; hsimpl; by rewrite Hm' | by right]|].
  destruct (trap_S_regs (2 ^ 63 + i) 0 (running pc t h')) as (Hm1 & Hpc & Hsepc & Hsc & _ & _ & _ & Htm & Hd1 & Hst).
  split_and!; [done | by rewrite Hpc | done | done | | |].
  - rewrite Hst by done. unfold running. hsimpl. by rewrite Hm'.
  - by rewrite Hst by done.
  - eexists. split; [by apply next_tick_run; [|apply Hd1]|].
    unfold timer_pending. hsimpl. destruct (Hd1 Hd) as (_ & _ & -> & _). rewrite Htm. cbn [andb].
    apply Z.leb_gt. unfold running. hsimpl. unfold u64 in *. rewrite Z.mod_small; [lia|]. dlia.
Qed.

Definition reset_hart : hart := mk_hart Machine 0x80000000 2 0 0 0 0 0 0 0 0 0 0 0 0 0 0 0 0 0 [].

Lemma boot_takes_interrupts_witness :
  h_mode reset_hart = Machine /\ 0 <= h_mstatus reset_hart /\
  exists h', (start 0x80000e00 ;; @main_registers kernel_sym 0x87fff000 ;; intr_on) reset_hart = Ret tt h' /\
    h_tp h' = 2.
Proof.
  split_and!; [done..|].
  destruct (@boot_takes_interrupts kernel_sym 0x80000e00 0x87fff000 reset_hart) as (h' & E & _ & _ & Htp & _); [done..|].
  exists h'. split; [exact E|]. exact Htp.
Defined.
