(* ===== verification/HartTrap.v ===== *)
(** trap.c on the registers of a hart: what the trap code reads is what the
    hardware left, and the registers it writes take the hart back.

    [csrs_of] is the view that Trap.v's functions have of a hart; the
    registers they answer are written as the source does before the last
    instruction of kernelvec.S and of trampoline.S, sret. *)

From stdpp Require Import base numbers list gmap strings.
From S2P Require Import Prelude Params Mem State Locks Cache Vm Proc Trap Hart.

(** The registers as trap.c reads them; what the interrupt controller and
    the disk answer is given. *)
Definition csrs_of (irq status : Z) (h : hart) : csrs :=
  mk_csrs (Z.land (h_mstatus h) sstatus_mask) (h_sepc h) (h_scause h) (h_stval h) (h_satp h) (h_tp h) irq status.

(** The end of kerneltrap, and kernelvec.S's sret. *)
Definition kernel_return (r : Z * Z) : HM unit :=
  w_sepc r.1 ;;
  w_sstatus r.2 ;;
  sret.

(** The registers usertrapret writes after intr_off(), and the page table
    that userret of trampoline.S switches to before its sret. *)
Definition user_registers (r : user_return) : HM unit :=
  w_stvec (Trap.w_stvec r) ;;
  w_sstatus (Trap.w_sstatus r) ;;
  w_sepc (Trap.w_sepc r) ;;
  w_satp (ur_satp r).

Lemma has_bit x n : 0 <= n < 64 -> Z.testbit sstatus_mask n = true ->
  has (Z.land x sstatus_mask) (Z.shiftl 1 n) = Z.testbit x n.
Proof. intros Hn Hm. unfold has. rewrite land_bit, negb_involutive, Z.land_spec, Hm by lia. apply andb_true_r. Qed.

Lemma kernel_return_run sepc sstatus h : h_mode h = Supervisor -> Z.testbit sstatus SPP_bit = true ->
  exists h', kernel_return (sepc, sstatus) h = Ret tt h' /\
    h_mode h' = Supervisor /\ h_pc h' = sepc /\
    forall n, 0 <= n < 64 -> Z.testbit (h_mstatus h') n =
      if n =? SPP_bit then false else if n =? SPIE_bit then true
      else if n =? SIE_bit then Z.testbit sstatus SPIE_bit
      else if Z.testbit sstatus_mask n then Z.testbit sstatus n else Z.testbit (h_mstatus h) n.
Proof.
  intros Hm HP. destruct h as [md pc id st me med mid mie menv mct pc0 pa0 satp stv sep sca stval cmp tm tp io].
  cbn [h_mode] in Hm. subst md. eexists. split; [unfold kernel_return; hart_run|]. hsimpl. cbn [fst snd].
  split_and!; [|done|].
  - rewrite testbit_merge by done. change (Z.testbit sstatus_mask SPP_bit) with true. by rewrite HP.
  - intros n Hn. bits. done.
Qed.

(** A hart in the kernel with interrupts on, as start and the scheduler leave it. *)
Definition running_hart : hart :=
  mk_hart Supervisor 0x80001f00 0 0x22 0 0xffff 0x222 0x222 (2 ^ 63) 2 0xf 0x3fffffffffffff
    (2 ^ 63 + 0x87fff) 0 0 0 0 2000000 2000000 0 [].

Lemma running_delegated : delegated running_hart.
Proof.
  split_and!; [|intros c Hc; change (h_medeleg running_hart) with (Z.ones 16); by apply Z.ones_spec_low; lia|done|done].
  intros i Hi. rewrite !elem_of_cons in Hi. by destruct Hi as [->|[->|[->|Hi%elem_of_nil]]].
Qed.

Section HartTrap.
Context {L : Layout}.

(** kerneltrap past its checks, for a cause that devintr knows. *)
Lemma kerneltrap_eq c s :
  has (Trap.r_sstatus c) SSTATUS_SPP = true -> has (Trap.r_sstatus c) SSTATUS_SIE = false ->
  Trap.r_scause c = 0x8000000000000005 \/ Trap.r_scause c = 0x8000000000000009 ->
  kerneltrap c s =
    (let! which_dev := devintr c in
     let! p := myproc in
     when ((which_dev =? 2) && bool_decide (p <> None)) yield ;;
     ret (Trap.r_sepc c, Trap.r_sstatus c)) s.
Proof using Type.
  intros HP HI Hc. unfold kerneltrap. rewrite HP, HI. cbn [negb]. unfold devintr.
  destruct Hc as [-> | ->]; cbn [Z.eqb Pos.eqb]; by rewrite !bind_assoc.
Qed.

(** C18. An interrupt in the kernel is transparent: taken at any instruction
    of kernel code (supervisor mode, interrupts on), a timer or external
    interrupt enters kernelvec with the registers that make neither of
    kerneltrap()'s checks fail and that devintr() recognizes, so the handler
    serves the device, yields the CPU only to a timer interrupt of a process,
    and answers the registers at the trap; when it puts them back, whatever
    happened to the hart's registers meanwhile (other processes' traps during
    the yield), sret returns to the interrupted instruction in supervisor mode
    with interrupts on and the rest of sstatus, SPIE and SPP apart, as it
    was. *)
Theorem kernel_interrupt_transparent h i irq status :
  delegated h -> h_mode h = Supervisor -> Z.testbit (h_mstatus h) SIE_bit = true ->
  h_stvec h = kernelvec -> i = 5 \/ i = 9 ->
  exists h1, interrupt_S i h = Some h1 /\ h_mode h1 = Supervisor /\ h_pc h1 = kernelvec /\
    let c := csrs_of irq status h1 in
    let r := (h_pc h, Trap.r_sstatus c) in
    (forall s, kerneltrap c s =
       (let! which_dev := devintr c in
        let! p := myproc in
        when ((which_dev =? 2) && bool_decide (p <> None)) yield ;;
        ret r) s) /\
    (i = 5 -> forall s, devintr c s = (clockintr c ;; ret 2) s) /\
    forall h2, h_mode h2 = Supervisor ->
      exists h3, kernel_return r h2 = Ret tt h3 /\
        h_mode h3 = Supervisor /\ h_pc h3 = h_pc h /\ Z.testbit (h_mstatus h3) SIE_bit = true /\
        forall n, 0 <= n < 64 -> Z.testbit sstatus_mask n = true -> n <> SPIE_bit -> n <> SPP_bit ->
          Z.testbit (h_mstatus h3) n = Z.testbit (h_mstatus h) n.
Proof using Type.
  intros Hd Hm HS Hv Hi. exists (trap_S (2 ^ 63 + i) 0 h).
  destruct (trap_S_regs (2 ^ 63 + i) 0 h) as (Hm1 & Hpc & Hsepc & Hsc & _ & _ & _ & _ & _ & Hst).
  split_and!; [|done|congruence|].
  { apply interrupt_S_taken; [done| |by rewrite Hm|by right]. destruct Hi as [->| ->]; set_solver. }
  set (h1 := trap_S _ _ _) in *. cbv zeta. change (2 ^ 63) with 9223372036854775808 in Hsc. split_and!.
  - intros s. rewrite <- Hsepc. apply kerneltrap_eq.
    + cbn [csrs_of Trap.r_sstatus]. unfold SSTATUS_SPP. rewrite has_bit, Hst by done. by rewrite Hm.
    + cbn [csrs_of Trap.r_sstatus]. unfold SSTATUS_SIE. by rewrite has_bit, Hst by done.
    + cbn [csrs_of Trap.r_scause]. rewrite Hsc. destruct Hi as [->| ->]; auto.
  - intros -> s. unfold devintr. cbn [csrs_of Trap.r_scause]. by rewrite Hsc.
  - intros h2 Hm2. cbn [csrs_of Trap.r_sstatus].
    assert (forall n, 0 <= n < 64 -> Z.testbit sstatus_mask n = true ->
      Z.testbit (Z.land (h_mstatus h1) sstatus_mask) n = Z.testbit (h_mstatus h1) n) as Hl
      by (intros n _ Hn; by rewrite Z.land_spec, Hn, andb_true_r).
    destruct (kernel_return_run (h_pc h) (Z.land (h_mstatus h1) sstatus_mask) h2 Hm2) as (h3 & E & Hm3 & Hp3 & Hb).
    { rewrite Hl, Hst by done. by rewrite Hm. }
    assert (Z.testbit (h_mstatus h3) SIE_bit = true) as H3.
    { rewrite Hb by done. cbn [Z.eqb Pos.eqb SPP_bit SPIE_bit SIE_bit]. rewrite Hl, Hst by done. exact HS. }
    exists h3. split_and!; [done..|]. intros n Hn Hk H5 H8.
    destruct (decide (n = SIE_bit)) as [->|H1]; [congruence|]. rewrite Hb, Hk, (Hl n), (Hst n) by done.
    by destruct (Z.eqb_spec n SPP_bit), (Z.eqb_spec n SPIE_bit), (Z.eqb_spec n SIE_bit).
Qed.

Lemma intr_off_run h : h_mode h = Supervisor ->
  exists h', intr_off h = Ret tt h' /\ h_mode h' = Supervisor /\ h_satp h' = h_satp h /\ h_tp h' = h_tp h /\
    (delegated h -> delegated h') /\
    forall n, 0 <= n < 64 -> Z.testbit (h_mstatus h') n = if n =? SIE_bit then false else Z.testbit (h_mstatus h) n.
Proof using Type.
  intros Hm. destruct h as [md pc id st me med mid mie menv mct pc0 pa0 satp stv sep sca stval cmp tm tp io].
  cbn [h_mode] in Hm. subst md. eexists. split; [hart_run|]. hsimpl. split_and!; [done..|].
  intros n Hn. unfold SSTATUS_SIE. bits. rewrite Z.shiftl_1_l, Z.pow2_bits_eqb by done.
  rewrite (Z.eqb_sym 1 n). change 1 with SIE_bit at 1.
  destruct (Z.testbit sstatus_mask n) eqn:Hk, (Z.eqb_spec n SIE_bit) as [->|];
    rewrite ?andb_true_r, ?andb_false_r; done.
Qed.

(** The state of the kernel that usertrapret leaves. *)
Lemma usertrapret_run c s p pp : k_cur s = Some p -> k_procs s !! p = Some pp ->
  exists m, usertrapret c s =
    Ret (mk_user_return (TRAMPOLINE + (uservec - trampoline))
           (Z.lor (Z.land (Trap.r_sstatus c) (u64 (Z.lnot SSTATUS_SPP))) SSTATUS_SPIE)
           (ld64 (k_mem s) (p_trapframe pp + tf_epc))
           (TRAMPOLINE + (userret - trampoline)) (MAKE_SATP (p_pagetable pp)))
        (set_k_mem m s) /\
    let tf := p_trapframe pp in
    ld64 m (tf + tf_kernel_satp) = u64 (Trap.r_satp c) /\
    ld64 m (tf + tf_kernel_sp) = u64 (p_kstack pp + PGSIZE) /\
    ld64 m (tf + tf_kernel_trap) = u64 usertrap_addr /\
    ld64 m (tf + tf_kernel_hartid) = u64 (Trap.r_tp c) /\
    (forall a, a < tf \/ tf + 40 <= a \/ tf + 24 <= a < tf + 32 -> rd m a = rd (k_mem s) a).
Proof using Type.
  intros Hc Hp. unfold tf_kernel_satp, tf_kernel_sp, tf_kernel_trap, tf_epc, tf_kernel_hartid.
  eexists (st64 (st64 (st64 (st64 (k_mem s) (p_trapframe pp + 0) _) (p_trapframe pp + 8) _)
                  (p_trapframe pp + 16) _) (p_trapframe pp + 32) _).
  split.
  { unfold usertrapret, curproc, myproc, get_proc. rewrite bind_assoc. run_steps. rewrite Hc.
    unfold of_option at 1. rewrite bind_assoc. run_steps. rewrite bind_assoc. run_steps. rewrite Hp.
    unfold of_option. run_steps. unfold store64, load64. run_steps. f_equal.
    f_equal. cbn [k_mem set_k_mem]. rewrite !ld64_st64_other by (unfold tf_kernel_satp, tf_kernel_sp, tf_kernel_trap, tf_epc, tf_kernel_hartid; lia).
    done. }
  cbv zeta. split_and!.
  - by rewrite !ld64_st64_other, ld64_st64 by lia.
  - by rewrite !ld64_st64_other, ld64_st64 by lia.
  - by rewrite !ld64_st64_other, ld64_st64 by lia.
  - by rewrite ld64_st64 by lia.
  - intros a Ha. by rewrite !rd_st64_out by lia.
Qed.

Lemma user_registers_run ur h : h_mode h = Supervisor ->
  exists h', user_registers ur h = Ret tt h' /\
    h_mode h' = Supervisor /\ h_stvec h' = Trap.w_stvec ur /\ h_sepc h' = Trap.w_sepc ur /\ h_satp h' = ur_satp ur /\
    (delegated h -> delegated h') /\
    forall n, 0 <= n < 64 -> Z.testbit sstatus_mask n = true -> Z.testbit (h_mstatus h') n = Z.testbit (Trap.w_sstatus ur) n.
Proof using Type.
  intros Hm. destruct h as [md pc id st me med mid mie menv mct pc0 pa0 satp stv sep sca stval cmp tm tp io].
  cbn [h_mode] in Hm. subst md. eexists. split; [unfold user_registers; hart_run|]. hsimpl. split_and!; [done..|].
  intros n Hn Hk. bits. by rewrite Hk.
Qed.

Lemma sret_run h : h_mode h = Supervisor ->
  exists h', sret h = Ret tt h' /\ h_mode h' = (if Z.testbit (h_mstatus h) SPP_bit then Supervisor else User) /\
    h_pc h' = h_sepc h /\ h_stvec h' = h_stvec h /\ h_satp h' = h_satp h /\ (delegated h -> delegated h').
Proof using Type.
  intros Hm. destruct h as [md pc id st me med mid mie menv mct pc0 pa0 satp stv sep sca stval cmp tm tp io].
  cbn [h_mode] in Hm. subst md. eexists. split; [hart_run|]. hsimpl. by split_and!.
Qed.

(** C17. Returning to user space: for the process running on a hart in
    supervisor mode, usertrapret() turns interrupts off and stores in the
    process's trapframe what uservec needs (the kernel's page table, the
    process's kernel stack, usertrap's address, the hart id), writing nothing
    else of memory; no interrupt can be taken from there to the sret of
    trampoline.S, while stvec already points to uservec; and the sret enters
    user mode at the saved user pc, with the process's page table. There,
    wherever the program gets to, every interrupt and every exception that
    user code can raise is taken by supervisor mode in the trampoline's
    uservec, with the user's pc in sepc, interrupts off, and as a trap from
    user mode, so that usertrap()'s check passes. *)
Theorem usertrapret_enters_user h s p pp irq status :
  delegated h -> h_mode h = Supervisor -> k_cur s = Some p -> k_procs s !! p = Some pp ->
  exists h0, intr_off h = Ret tt h0 /\ (forall i, takes_S i h0 = false) /\
  exists ur m, usertrapret (csrs_of irq status h0) s = Ret ur (set_k_mem m s) /\
    (let tf := p_trapframe pp in
     ld64 m (tf + tf_kernel_satp) = u64 (h_satp h) /\
     ld64 m (tf + tf_kernel_sp) = u64 (p_kstack pp + PGSIZE) /\
     ld64 m (tf + tf_kernel_trap) = u64 usertrap_addr /\
     ld64 m (tf + tf_kernel_hartid) = u64 (h_tp h) /\
     (forall a, a < tf \/ tf + 40 <= a \/ tf + 24 <= a < tf + 32 -> rd m a = rd (k_mem s) a)) /\
  exists hk, user_registers ur h0 = Ret tt hk /\ (forall i, takes_S i hk = false) /\
  exists hu, sret hk = Ret tt hu /\
    h_mode hu = User /\ h_pc hu = ld64 (k_mem s) (p_trapframe pp + tf_epc) /\
    h_satp hu = MAKE_SATP (p_pagetable pp) /\
    forall pc, let hp := set_h_pc pc hu in
      (forall i, i ∈ [1; 5; 9] -> interrupt_S i hp = Some (trap_S (2 ^ 63 + i) 0 hp)) /\
      (forall cause tval, 0 <= cause < 16 -> exception_S cause tval hp = Some (trap_S cause tval hp)) /\
      (forall cause tval, let h1 := trap_S cause tval hp in
        h_mode h1 = Supervisor /\ h_pc h1 = TRAMPOLINE + (uservec - trampoline) /\ h_sepc h1 = pc /\
        h_scause h1 = cause /\ has (Trap.r_sstatus (csrs_of irq status h1)) SSTATUS_SPP = false /\
        forall i, takes_S i h1 = false).
Proof using Type.
  intros Hd Hm Hc Hp.
  assert (forall h i, h_mode h = Supervisor -> Z.testbit (h_mstatus h) SIE_bit = false -> takes_S i h = false) as Hoff
    by (intros h' i Hm' HS; unfold takes_S; rewrite Hm', HS; apply andb_false_r).
  destruct (intr_off_run h Hm) as (h0 & E0 & Hm0 & Hsatp & Htp & Hd0 & Hb0).
  exists h0. split_and!; [done|intros i; apply Hoff; [done|by rewrite Hb0]|].
  destruct (usertrapret_run (csrs_of irq status h0) s p pp Hc Hp) as (m & E1 & Ht).
  cbn [csrs_of Trap.r_satp Trap.r_tp] in Ht. rewrite Hsatp, Htp in Ht.
  eexists _, m. split_and!; [exact E1|exact Ht|]. clear Ht.
  match goal with |- exists hk, user_registers ?u _ = _ /\ _ => destruct (user_registers_run u h0 Hm0) as (hk & E2 & Hmk & Hv & Hse & Hsa & Hdk & Hbk) end.
  cbn [Trap.w_stvec Trap.w_sepc ur_satp Trap.w_sstatus csrs_of Trap.r_sstatus] in *.
  exists hk. split_and!; [done| |].
  { intros i. apply Hoff; [done|]. rewrite Hbk by done. bits. by rewrite Hb0. }
  destruct (sret_run hk Hmk) as (hu & E3 & Hmu & Hpu & Hvu & Hsu & Hdu).
  assert (h_mode hu = User) as Hus.
  { rewrite Hmu, Hbk by done. bits. by rewrite andb_false_r. }
  exists hu. split_and!; [done|done|congruence|congruence|].
  intros pc.  set (hp := set_h_pc pc hu). pose proof (Hdu (Hdk (Hd0 Hd))) as Hdp. split_and!.
  - intros i Hi. apply interrupt_S_taken; [done..| |left; done]. unfold hp. hsimpl. by rewrite Hus.
  - intros cause tval Hca. unfold exception_S. destruct Hdp as (_ & Hex & _). unfold hp. hsimpl. by rewrite Hex, Hus.
  - intros cause tval. set (h1 := trap_S cause tval hp). destruct (trap_S_regs cause tval hp) as (H1 & H2 & H3 & H4 & _ & _ & _ & _ & _ & H5).
    split_and!; [done| |done|done| |].
    + unfold h1. rewrite H2. unfold hp. hsimpl. congruence.
    + unfold SSTATUS_SPP. rewrite has_bit by done. unfold h1. rewrite H5 by done.
      unfold hp. hsimpl. by rewrite Hus.
    + intros i. apply Hoff; [done|]. unfold h1. by rewrite H5.
Qed.

End HartTrap.

#[local] Existing Instance kernel_sym.

Lemma kernel_interrupt_transparent_witness :
  exists h1, interrupt_S 5 (set_h_stvec kernelvec running_hart) = Some h1 /\ h_mode h1 = Supervisor /\
    h_pc h1 = kernelvec.
Proof.
  destruct (kernel_interrupt_transparent (set_h_stvec kernelvec running_hart) 5 0 0)
    as (h1 & E & Hm & Hp & _).
  - exact running_delegated.
  - reflexivity.
  - reflexivity.
  - reflexivity.
  - by left.
  - exists h1. split_and!; [exact E|exact Hm|exact Hp].
Defined.

Definition one_process : kstate := set_k_cur (Some 0%nat) (set_k_procs [zero_proc] (kstate0 ∅ empty_disk)).

Lemma usertrapret_enters_user_witness :
  exists h0, intr_off running_hart = Ret tt h0 /\
  exists ur m, usertrapret (csrs_of 0 0 h0) one_process = Ret ur (set_k_mem m one_process) /\
  exists hk, user_registers ur h0 = Ret tt hk /\ exists hu, sret hk = Ret tt hu /\ h_mode hu = User.
Proof.
  destruct (usertrapret_enters_user running_hart one_process 0%nat zero_proc 0 0)
    as (h0 & E0 & _ & ur & m & E1 & _ & hk & E2 & _ & hu & E3 & Hm & _).
  - exact running_delegated.
  - reflexivity.
  - reflexivity.
  - reflexivity.
  - exists h0. split; [exact E0|]. exists ur, m. split; [exact E1|]. exists hk. split; [exact E2|].
    exists hu. split; [exact E3|exact Hm].
Defined.
