(* ===== verification/Asm.v ===== *)
(** The assembly of the kernel that saves and restores registers: uservec
    and userret of kernel/trampoline.S, kernel/swtch.S and kernelvec.S; and
    kernel/entry.S.

    An instruction acts on the integer registers, sscratch, satp and memory;
    loads and stores go through an address translation, for the trampoline
    the hardware's walk of the page table that satp names ([sv39]). *)

From stdpp Require Import base numbers list gmap strings.
From S2P Require Import Prelude Params Mem State Kalloc Vm Pagetable Uvm Proc ProcMem Fork.

Inductive reg :=
  | ra | sp | gp | tp | t0 | t1 | t2 | s0 | s1 | a0 | a1 | a2 | a3 | a4 | a5 | a6 | a7
  | s2 | s3 | s4 | s5 | s6 | s7 | s8 | s9 | s10 | s11 | t3 | t4 | t5 | t6.

#[export] Instance reg_eq_dec : EqDecision reg.
Proof. solve_decision. Defined.

Inductive instr :=
  | sd (r : reg) (off : Z) (base : reg)
  | ld (r : reg) (off : Z) (base : reg)
  | li (r : reg) (v : Z)
  | addi (r r1 : reg) (v : Z)
  | add (r r1 r2 : reg)
  | mul (r r1 r2 : reg)
  | csrw_sscratch (r : reg)
  | csrr_sscratch (r : reg)
  | csrw_satp (r : reg)
  | sfence_vma.

Record cpu_regs := mk_cpu_regs {
  c_reg : reg -> Z;
  c_sscratch : Z;
  c_satp : Z;
  c_mem : memory;
}.

Definition set_reg (r : reg) (v : Z) (f : reg -> Z) : reg -> Z := fun x => if decide (x = r) then v else f x.

(** The translation of an address: [None] is a page fault. *)
Definition translation := memory -> Z -> Z -> option Z.   (* memory, satp, address *)

Definition exec (tr : translation) (i : instr) (c : cpu_regs) : option cpu_regs :=
  let '(mk_cpu_regs f sc satp m) := c in
  match i with
  | sd r off base => a ← tr m satp (u64 (f base + off)); Some (mk_cpu_regs f sc satp (st64 m a (f r)))
  | ld r off base => a ← tr m satp (u64 (f base + off)); Some (mk_cpu_regs (set_reg r (ld64 m a) f) sc satp m)
  | li r v => Some (mk_cpu_regs (set_reg r v f) sc satp m)
  | addi r r1 v => Some (mk_cpu_regs (set_reg r (u64 (f r1 + v)) f) sc satp m)
  | add r r1 r2 => Some (mk_cpu_regs (set_reg r (u64 (f r1 + f r2)) f) sc satp m)
  | mul r r1 r2 => Some (mk_cpu_regs (set_reg r (u64 (f r1 * f r2)) f) sc satp m)
  | csrw_sscratch r => Some (mk_cpu_regs f (f r) satp m)
  | csrr_sscratch r => Some (mk_cpu_regs (set_reg r sc f) sc satp m)
  | csrw_satp r => Some (mk_cpu_regs f sc (f r) m)
  | sfence_vma => Some c
  end.

Fixpoint run (tr : translation) (code : list instr) (c : cpu_regs) : option cpu_regs :=
  match code with
  | [] => Some c
  | i :: code' => c' ← exec tr i c; run tr code' c'
  end.

Definition stores (l : list (reg * Z)) (base : reg) : list instr := (fun ro => sd ro.1 ro.2 base) <$> l.
Definition loads (l : list (reg * Z)) (base : reg) : list instr := (fun ro => ld ro.1 ro.2 base) <$> l.

(** The registers in the trapframe, a0 apart. *)
Definition trapframe_regs : list (reg * Z) := [
  (ra, 40); (sp, 48); (gp, 56); (tp, 64); (t0, 72); (t1, 80); (t2, 88); (s0, 96); (s1, 104);
  (a1, 120); (a2, 128); (a3, 136); (a4, 144); (a5, 152); (a6, 160); (a7, 168);
  (s2, 176); (s3, 184); (s4, 192); (s5, 200); (s6, 208); (s7, 216); (s8, 224); (s9, 232);
  (s10, 240); (s11, 248); (t3, 256); (t4, 264); (t5, 272); (t6, 280)].

(** uservec up to its jump, to the address in t0. *)
Definition uservec_code : list instr :=
  (* save user a0 in sscratch so a0 can be used to get at TRAPFRAME. *)
  [csrw_sscratch a0; li a0 TRAPFRAME] ++
  (* save the user registers in TRAPFRAME *)
  stores trapframe_regs a0 ++
  (* save the user a0 in p->trapframe->a0 *)
  [csrr_sscratch t0; sd t0 112 a0;
   (* kernel stack pointer, hartid, usertrap(), kernel page table *)
   ld sp 8 a0; ld tp 32 a0; ld t0 16 a0; ld t1 0 a0;
   sfence_vma; csrw_satp t1; sfence_vma].

(** userret up to its sret. *)
Definition userret_code : list instr :=
  (* switch to the user page table. *)
  [sfence_vma; csrw_satp a0; sfence_vma; li a0 TRAPFRAME] ++
  (* restore all but a0 from TRAPFRAME *)
  loads trapframe_regs a0 ++
  (* restore user a0 *)
  [ld a0 112 a0].

(** The registers of struct context. *)
Definition context_regs : list (reg * Z) := [
  (ra, 0); (sp, 8); (s0, 16); (s1, 24); (s2, 32); (s3, 40); (s4, 48); (s5, 56); (s6, 64);
  (s7, 72); (s8, 80); (s9, 88); (s10, 96); (s11, 104)].

(** swtch(old, new), up to its ret to the address in ra. *)
Definition swtch_code : list instr := stores context_regs a0 ++ loads context_regs a1.

(** kernelvec, before and after its call of kerneltrap. *)
Definition kernelvec_regs : list (reg * Z) := [
  (t0, 32); (t1, 40); (t2, 48); (a0, 72); (a1, 80); (a2, 88); (a3, 96); (a4, 104); (a5, 112);
  (a6, 120); (a7, 128); (t3, 216); (t4, 224); (t5, 232); (t6, 240)].
Definition kernelvec_enter : list instr :=
  [addi sp sp (-256)] ++ stores ([(ra, 0); (sp, 8); (gp, 16); (tp, 24)] ++ kernelvec_regs) sp.
Definition kernelvec_leave : list instr :=
  (* not tp (contains hartid), in case we moved CPUs *)
  [ld ra 0 sp; ld sp 8 sp; ld gp 16 sp] ++ loads kernelvec_regs sp ++ [addi sp sp 256].

(** _entry, up to its call of start: [stack0] is the address of start.c's
    array, [hartid] what the register mhartid holds. *)
Definition entry_code (stack0 hartid : Z) : list instr := [
  (* sp = stack0 + (hartid * 4096) *)
  li sp stack0; li a0 (1024 * 4); li a1 hartid; addi a1 a1 1; mul a0 a0 a1; add sp sp a0].

(** ** Address translation *)

(** The hardware's walk of a page table (Sv39) for a read or write: at
    [level], the table at [a]. An entry with a permission is a leaf. *)
Fixpoint sv39_walk (level : nat) (m : memory) (a va : Z) : option Z :=
  let e := ld64 m (a + 8 * PX (Z.of_nat level) va) in
  if negb (has e PTE_V) then None
  else if has e PTE_R || has e PTE_X then Some (PTE2PA e + va mod 2 ^ PXSHIFT (Z.of_nat level))
  else match level with O => None | S l => sv39_walk l m (PTE2PA e) va end.

(** The translation that satp names: none, or a table in its low 44 bits. *)
Definition sv39 : translation := fun m satp va =>
  if Z.shiftr satp 60 =? 0 then Some va
  else if Z.shiftr satp 60 =? 8 then sv39_walk 2 m (Z.shiftl (Z.land satp (2 ^ 44 - 1)) 12) va
  else None.

(** ** Saving and restoring *)

Lemma run_app tr l l' c : run tr (l ++ l') c = c' ← run tr l c; run tr l' c'.
Proof. revert c. induction l as [|i l IH]; intros c; simpl; [done|]. destruct (exec tr i c); simpl; [apply IH|done]. Qed.

Ltac run_more := repeat first [rewrite run_app | progress cbn [run exec mbind option_bind]].

Definition save (l : list (reg * Z)) (p : Z) (f : reg -> Z) (m : memory) : memory :=
  foldl (fun m ro => st64 m (p + ro.2) (f ro.1)) m l.
Definition restore (l : list (reg * Z)) (p : Z) (m : memory) (f : reg -> Z) : reg -> Z :=
  foldl (fun f ro => set_reg ro.1 (ld64 m (p + ro.2)) f) f l.

(** The registers and slots of a list: different registers in different
    doublewords of [n] bytes. *)
Record layout_ok (n : Z) (l : list (reg * Z)) : Prop := {
  lo_regs : NoDup l.*1;
  lo_slots : NoDup l.*2;
  lo_range : Forall (fun ro : reg * Z => 0 <= ro.2 /\ ro.2 + 8 <= n /\ ro.2 mod 8 = 0) l;
}.

Definition layout_okb (n : Z) (l : list (reg * Z)) : bool :=
  bool_decide (NoDup l.*1) && bool_decide (NoDup l.*2) &&
  forallb (fun ro : reg * Z => (0 <=? ro.2) && (ro.2 + 8 <=? n) && (ro.2 mod 8 =? 0)) l.

Lemma layout_okb_ok n l : layout_okb n l = true -> layout_ok n l.
Proof.
  unfold layout_okb. rewrite !andb_true_iff, !bool_decide_eq_true, forallb_forall.
  intros [[H1 H2] H3]. split; [done..|]. apply Forall_forall. intros ro Hro%list_elem_of_In%H3. lia.
Qed.

(** [n] bytes at address [base] are those at [p], also when they change. *)
Definition maps (tr : translation) (satp base p n : Z) (m : memory) : Prop :=
  forall m' k, (forall x, x < p \/ p + n <= x -> rd m' x = rd m x) -> 0 <= k < n ->
    tr m' satp (u64 (base + k)) = Some (p + k).

Lemma maps_keep tr satp base p n m m' : maps tr satp base p n m ->
  (forall x, x < p \/ p + n <= x -> rd m' x = rd m x) -> maps tr satp base p n m'.
Proof. intros H Hm m2 k H2 Hk. apply H; [|done]. intros x Hx. by rewrite H2, Hm. Qed.

Lemma rd_save l p f n m x : Forall (fun ro : reg * Z => 0 <= ro.2 /\ ro.2 + 8 <= n /\ ro.2 mod 8 = 0) l ->
  x < p \/ p + n <= x -> rd (save l p f m) x = rd m x.
Proof.
  intros Hl Hx. revert m. induction Hl as [|[r o] l [H1 [H2 _]] _ IH]; intros m; [done|].
  simpl in *. rewrite IH. apply rd_st64_out. lia.
Qed.

Lemma ld64_save_other l p f n m o : Forall (fun ro : reg * Z => 0 <= ro.2 /\ ro.2 + 8 <= n /\ ro.2 mod 8 = 0) l ->
  o mod 8 = 0 -> o ∉ l.*2 -> ld64 (save l p f m) (p + o) = ld64 m (p + o).
Proof.
  intros Hl Ho. revert m. induction Hl as [|[r o'] l (H1 & H2 & H3) _ IH]; intros m Hn; [done|].
  simpl in *. apply not_elem_of_cons in Hn as [Hne Hn]. rewrite IH by done. apply ld64_st64_other.
  assert (o + 8 <= o' \/ o' + 8 <= o) by dlia. lia.
Qed.

Lemma ld64_save l p f n m r o : layout_ok n l -> (r, o) ∈ l -> ld64 (save l p f m) (p + o) = u64 (f r).
Proof.
  intros [_ Hs Hl]. revert m. induction Hl as [|[r' o'] l (H1 & H2 & H3) Hl IH]; intros m Hin; [by apply elem_of_nil in Hin|].
  simpl in *. apply NoDup_cons in Hs as [Hn Hs]. apply elem_of_cons in Hin as [[= -> ->]|Hin].
  - by rewrite (ld64_save_other _ _ _ n), ld64_st64.
  - by apply IH.
Qed.

Lemma restore_other l p m f r : r ∉ l.*1 -> restore l p m f r = f r.
Proof.
  revert f. induction l as [|[r' o'] l IH]; intros f Hn; [done|]. simpl in *.
  apply not_elem_of_cons in Hn as [Hne Hn]. rewrite IH by done. unfold set_reg. by rewrite decide_False.
Qed.

Lemma restore_at l p m f r o : NoDup l.*1 -> (r, o) ∈ l -> restore l p m f r = ld64 m (p + o).
Proof.
  revert f. induction l as [|[r' o'] l IH]; intros f Hnd Hin; [by apply elem_of_nil in Hin|].
  simpl in *. apply NoDup_cons in Hnd as [Hn Hnd]. apply elem_of_cons in Hin as [[= -> ->]|Hin]; [|by apply IH].
  change (restore l p m (set_reg r' (ld64 m (p + o')) f) r' = ld64 m (p + o')).
  rewrite restore_other by done. unfold set_reg. by rewrite decide_True.
Qed.

Lemma run_stores tr l b f sc satp p n m :
  maps tr satp (f b) p n m -> Forall (fun ro : reg * Z => 0 <= ro.2 /\ ro.2 + 8 <= n /\ ro.2 mod 8 = 0) l ->
  run tr (stores l b) (mk_cpu_regs f sc satp m) = Some (mk_cpu_regs f sc satp (save l p f m)).
Proof.
  intros Hm Hl. revert m Hm. induction Hl as [|[r o] l (H1 & H2 & H3) _ IH]; intros m Hm; [done|].
  cbn [stores fmap list_fmap run exec fst snd] in *. rewrite (Hm m o) by (done || lia). cbn.
  apply IH. eapply maps_keep; [exact Hm|]. intros x Hx. apply rd_st64_out. lia.
Qed.

Lemma run_loads tr l b f sc satp p n m :
  maps tr satp (f b) p n m -> Forall (fun ro : reg * Z => 0 <= ro.2 /\ ro.2 + 8 <= n /\ ro.2 mod 8 = 0) l -> b ∉ l.*1 ->
  run tr (loads l b) (mk_cpu_regs f sc satp m) = Some (mk_cpu_regs (restore l p m f) sc satp m).
Proof.
  intros Hm Hl. revert f Hm. induction Hl as [|[r o] l (H1 & H2 & H3) _ IH]; intros f Hm Hb; [done|].
  cbn [loads fmap list_fmap run exec fst snd] in *. apply not_elem_of_cons in Hb as [Hne Hb].
  rewrite (Hm m o) by (done || lia). cbn. apply IH; [|done]. unfold set_reg. by rewrite decide_False.
Qed.

(** ** The hardware's walk and the page tables of Pagetable.v *)

Section Asm.
Context {L : Layout} {LO : LayoutOk L}.

Lemma satp_table root : free_page root ->
  Z.shiftr (MAKE_SATP root) 60 = 8 /\ Z.shiftl (Z.land (MAKE_SATP root) (2 ^ 44 - 1)) 12 = root.
Proof using LO.
  intros Hr. pose proof (free_page_pos root Hr) as Hp. destruct Hr as [Hal _].
  unfold MAKE_SATP, SATP_SV39. change (Z.shiftl 8 60) with (2 ^ 19 * 2 ^ 44). rewrite (Z.shiftr_div_pow2 root) by lia.
  change PGSIZE with 4096 in Hal. change (2 ^ 12) with 4096.
  assert (0 <= root / 4096 < 2 ^ 44) by dlia.
  rewrite (lor_disjoint_add (2 ^ 19) (root / 4096) 44) by lia.
  change (2 ^ 44 - 1) with (Z.ones 44). rewrite Z.land_ones, Z.shiftr_div_pow2, Z.shiftl_mul_pow2 by lia. split; dlia.
Qed.

(** An entry for a lower-level table is not a leaf. *)
Lemma table_entry_flags q : free_page q ->
  has (Z.lor (PA2PTE q) PTE_V) PTE_R = false /\ has (Z.lor (PA2PTE q) PTE_V) PTE_X = false.
Proof using LO.
  intros Hq%free_page_pos. unfold has, PTE_R, PTE_X.
  split; rewrite land_bit, pte_testbit by (change PTE_V with 1; lia); done.
Qed.

Lemma PX_in_page level a k : 0 <= level -> a mod PGSIZE = 0 -> 0 <= k < PGSIZE -> 0 <= a -> a + k < 2 ^ 64 ->
  PX level (a + k) = PX level a.
Proof using Type.
  intros Hl Ha Hk Hp Hlt. rewrite !PX_spec by lia. rewrite Z.pow_add_r by lia. rewrite <- !Z.div_div by lia.
  do 2 f_equal. change (2 ^ 12) with 4096. change PGSIZE with 4096 in *. dlia.
Qed.

(** One level down. *)
Lemma sv39_table s l root T p page i q lv va :
  vm s l root T -> T !! p = Some page -> (length p < 2)%nat -> PX (Z.of_nat (S lv)) va = i ->
  T !! (p ++ [i]) = Some q -> sv39_walk (S lv) (k_mem s) page va = sv39_walk lv (k_mem s) q va.
Proof using LO.
  intros Hv Hp Hlen Hi Hq. destruct (vm_table_page _ _ _ _ _ _ Hv Hq) as [Hqf _].
  cbn [sv39_walk]. rewrite Hi, (pt_entry _ _ _ (vm_pt _ _ _ _ Hv) p i page Hp Hlen) by (rewrite <- Hi; apply PX_range; lia).
  rewrite Hq. cbn [table_entry]. destruct (table_entry_flags q Hqf) as [HR HX].
  rewrite table_pte_V, HR, HX, table_pte_pa by done. done.
Qed.

(** The address the walk finds is the one of the leaf entry. *)
Lemma sv39_leaf s l root T va : vm s l root T -> 0 <= va < MAXVA ->
  has (leaf (k_mem s) T va) PTE_V = true -> has (leaf (k_mem s) T va) PTE_R = true ->
  sv39 (k_mem s) (MAKE_SATP root) va = Some (PTE2PA (leaf (k_mem s) T va) + va mod PGSIZE).
Proof using LO.
  intros Hv Hva HV HR. pose proof (vm_pt _ _ _ _ Hv) as Hpt. pose proof (pt_root _ _ _ Hpt) as Hroot.
  destruct (vm_table_page _ _ _ _ _ _ Hv Hroot) as [Hrf _]. destruct (satp_table root Hrf) as [H60 H44].
  unfold sv39. rewrite H60, H44. cbn [Z.eqb Pos.eqb].
  unfold leaf in *. destruct (T !! [PX 2 va; PX 1 va]) as [q|] eqn:Hq; [|by rewrite has_0 in HV].
  destruct (pt_parent _ _ _ Hpt [PX 2 va] (PX 1 va) q Hq) as [q1 Hq1].
  rewrite (sv39_table s l root T [] root (PX 2 va) q1 1 va) by (done || simpl; lia).
  rewrite (sv39_table s l root T [PX 2 va] q1 (PX 1 va) q 0 va) by (done || simpl; lia).
  unfold sv39_walk. change (Z.of_nat 0) with 0. rewrite HV, HR. done.
Qed.

(** The trapframe is where uservec and userret look for it. *)
Lemma trapframe_mapped s l q T V : proc_mem s l q T V ->
  maps sv39 (MAKE_SATP (p_pagetable q)) TRAPFRAME (p_trapframe q) PGSIZE (k_mem s).
Proof using LO.
  intros Hq m' k Hm Hk.
  assert (proc_mem (set_k_mem m' s) l q T V) as Hq'.
  { apply (proc_mem_write s l q T V _ (p_trapframe q)); try done.
    - intros x Hx. apply Hm. destruct (decide (in_page (p_trapframe q) x)) as [Hi|Hi]; [|unfold in_page in Hi; lia].
      destruct (Hx (p_trapframe q)); [by apply list_elem_of_singleton|done].
    - apply (pm_tf _ _ _ _ _ Hq).
    - pose proof (pm_own _ _ _ _ _ Hq) as [Hn _]%NoDup_cons. unfold account in Hn. set_solver.
    - apply (vm_lock _ _ _ _ (us_vm _ _ _ _ _ _ (pm_space _ _ _ _ _ Hq))). }
  clear Hq. destruct Hq' as [Hs _ [_ Hh] Ht _]. destruct Hs as [Hv Hsh _ _ _ _ _ _].
  assert (0 <= TRAPFRAME + k < MAXVA) as Hr by plia.
  assert (leaf m' T (TRAPFRAME + k) = pte (p_trapframe q) (Z.lor PTE_R PTE_W)) as Hl.
  { rewrite <- Hh, <- (Hsh TRAPFRAME) by (apply upage_high). unfold leaf. by rewrite !PX_in_page by plia. }
  replace (u64 (TRAPFRAME + k)) with (TRAPFRAME + k) by (unfold u64; plia).
  assert (0 <= p_trapframe q < 2 ^ 54) by (pose proof (free_page_pos _ Ht); lia). destruct Ht as [Hal _].
  change m' with (k_mem (set_k_mem m' s)). rewrite (sv39_leaf _ l _ T); [|done..| |].
  - cbn [k_mem set_k_mem]. rewrite Hl, pte_pa by done. f_equal. plia.
  - cbn [k_mem set_k_mem]. rewrite Hl. by apply pte_V.
  - cbn [k_mem set_k_mem]. rewrite Hl. unfold PTE_R at 2. by rewrite pte_has.
Qed.

(** ** uservec and userret *)

Lemma trapframe_regs_ok : layout_ok PGSIZE trapframe_regs.
Proof using Type. by apply layout_okb_ok. Qed.

Lemma a0_apart : a0 ∉ trapframe_regs.*1 /\ 112 ∉ trapframe_regs.*2.
Proof using Type. by apply (bool_decide_unpack _). Qed.

Lemma slots_in r o (k : list (reg * Z)) : (r, o) ∈ k -> r ∈ k.*1 /\ o ∈ k.*2.
Proof using Type. intros H. split; apply list_elem_of_fmap; by exists (r, o). Qed.

Lemma uservec_split : uservec_code =
  [csrw_sscratch a0; li a0 TRAPFRAME] ++ stores trapframe_regs a0 ++ [csrr_sscratch t0] ++
  stores [(t0, 112)] a0 ++ loads [(sp, 8); (tp, 32); (t0, 16); (t1, 0)] a0 ++ [sfence_vma; csrw_satp t1; sfence_vma].
Proof using Type. reflexivity. Qed.

Lemma uservec_run s l q T V f sc : proc_mem s l q T V ->
  let tf := p_trapframe q in let m := k_mem s in
  exists c, run sv39 uservec_code (mk_cpu_regs f sc (MAKE_SATP (p_pagetable q)) m) = Some c /\
    (forall r o, (r, o) ∈ (a0, 112) :: trapframe_regs -> ld64 (c_mem c) (tf + o) = u64 (f r)) /\
    (forall o, o ∈ [0; 8; 16; 24; 32] -> ld64 (c_mem c) (tf + o) = ld64 m (tf + o)) /\
    (forall x, x < tf \/ tf + PGSIZE <= x -> rd (c_mem c) x = rd m x) /\
    c_reg c sp = ld64 m (tf + tf_kernel_sp) /\ c_reg c tp = ld64 m (tf + tf_kernel_hartid) /\
    c_reg c t0 = ld64 m (tf + tf_kernel_trap) /\ c_satp c = ld64 m (tf + tf_kernel_satp).
Proof using LO.
  intros Hq tf m. pose proof (trapframe_mapped _ _ _ _ _ Hq) as Hm. fold tf m in Hm.
  pose proof trapframe_regs_ok as [Hnr Hns Hr].
  set (f1 := set_reg a0 TRAPFRAME f). set (m1 := save trapframe_regs tf f1 m).
  set (f2 := set_reg t0 (f a0) f1). set (m2 := save [(t0, 112)] tf f2 m1).
  set (f3 := restore [(sp, 8); (tp, 32); (t0, 16); (t1, 0)] tf m2 f2).
  assert (forall x, x < tf \/ tf + PGSIZE <= x -> rd m1 x = rd m x) as Hm1 by (intros x Hx; by apply (rd_save _ _ _ PGSIZE)).
  assert (Forall (fun ro : reg * Z => 0 <= ro.2 /\ ro.2 + 8 <= PGSIZE /\ ro.2 mod 8 = 0) [(t0, 112)]) as H112
    by (by repeat constructor).
  assert (forall x, x < tf \/ tf + PGSIZE <= x -> rd m2 x = rd m x) as Hm2
    by (intros x Hx; unfold m2; by rewrite (rd_save _ _ _ PGSIZE), Hm1).
  assert (forall o, o mod 8 = 0 -> o ∉ trapframe_regs.*2 -> o <> 112 -> ld64 m2 (tf + o) = ld64 m (tf + o)) as Hk.
  { intros o Ho Hn Hne. unfold m2. rewrite (ld64_save_other _ _ _ PGSIZE) by (done || by apply not_elem_of_cons; split; [|apply not_elem_of_nil]).
    by apply (ld64_save_other _ _ _ PGSIZE). }
  pose proof a0_apart as [Hna Hn112].
  assert (forall o, o ∈ [0; 8; 16; 24; 32] -> ld64 m2 (tf + o) = ld64 m (tf + o)) as Hlow.
  { assert (Forall (fun o => o mod 8 = 0 /\ o ∉ trapframe_regs.*2 /\ o <> 112) [0; 8; 16; 24; 32]) as Hf
      by (by apply (bool_decide_unpack _)).
    intros o Ho. rewrite Forall_forall in Hf. destruct (Hf o Ho) as (H1 & H2 & H3). by apply Hk. }
  exists (mk_cpu_regs f3 (f a0) (f3 t1) m2). split.
  { rewrite uservec_split. run_more. fold f1.
    rewrite (run_stores _ _ _ _ _ _ tf PGSIZE) by done. run_more. fold m1 f2.
    rewrite (run_stores _ _ _ _ _ _ tf PGSIZE) by (done || by apply (maps_keep _ _ _ _ _ m)).
    run_more. fold m2.
    rewrite (run_loads _ _ _ _ _ _ tf PGSIZE);
      [reflexivity|by apply (maps_keep _ _ _ _ _ m)|by repeat constructor|by apply (bool_decide_unpack _)]. }
  assert (forall r o, (r, o) ∈ [(sp, 8); (tp, 32); (t0, 16); (t1, 0)] -> f3 r = ld64 m (tf + o)) as Hf3.
  { intros r o Hin. unfold f3. rewrite (restore_at _ _ _ _ _ o) by (done || by apply (bool_decide_unpack _)).
    apply Hlow. destruct (slots_in _ _ _ Hin) as [_ Ho]. revert Ho. clear. set_solver. }
  cbn [c_mem c_reg c_satp]. split_and!; [|done|done|apply Hf3; clear; set_solver..].
  intros r o Hin. unfold m2. apply elem_of_cons in Hin as [[= -> ->]|Hin].
  - rewrite (ld64_save _ _ _ PGSIZE _ t0); [done|by apply layout_okb_ok|by apply list_elem_of_singleton].
  - destruct (slots_in _ _ _ Hin) as [Hi1 Hi2]. rewrite (ld64_save_other _ _ _ PGSIZE); [|done| |].
    + unfold m1. rewrite (ld64_save _ _ _ PGSIZE _ r) by done. f_equal. unfold f1, set_reg.
      rewrite decide_False; [done|]. by intros ->.
    + rewrite Forall_forall in Hr. by apply (Hr (r, o)).
    + by intros ->%list_elem_of_singleton.
Qed.

Lemma userret_run s l q T V g sc satp : proc_mem s l q T V -> g a0 = MAKE_SATP (p_pagetable q) ->
  exists c, run sv39 userret_code (mk_cpu_regs g sc satp (k_mem s)) = Some c /\
    c_satp c = MAKE_SATP (p_pagetable q) /\ c_mem c = k_mem s /\
    forall r o, (r, o) ∈ (a0, 112) :: trapframe_regs -> c_reg c r = ld64 (k_mem s) (p_trapframe q + o).
Proof using LO.
  intros Hq Ha. pose proof (trapframe_mapped _ _ _ _ _ Hq) as Hm. pose proof trapframe_regs_ok as [Hnr Hns Hr].
  set (tf := p_trapframe q) in *. set (m := k_mem s) in *.
  set (g1 := set_reg a0 TRAPFRAME g). set (g2 := restore trapframe_regs tf m g1).
  assert (g2 a0 = TRAPFRAME) as Hg2 by (unfold g2; by rewrite restore_other by apply a0_apart).
  exists (mk_cpu_regs (set_reg a0 (ld64 m (tf + 112)) g2) sc (g a0) m). split.
  { change userret_code with ([sfence_vma; csrw_satp a0; sfence_vma; li a0 TRAPFRAME] ++ loads trapframe_regs a0 ++ [ld a0 112 a0]).
    run_more. fold g1. rewrite Ha. rewrite (run_loads _ _ _ _ _ _ tf PGSIZE) by (done || apply a0_apart).
    run_more. fold g2. rewrite Hg2, (Hm m 112) by (done || plia). done. }
  cbn [c_satp c_mem c_reg]. split_and!; [done..|]. intros r o Hin. unfold set_reg.
  apply elem_of_cons in Hin as [[= -> ->]|Hin]; [by rewrite decide_True|].
  destruct (slots_in _ _ _ Hin) as [Hi1 _]. rewrite decide_False by (intros ->; by apply (proj1 a0_apart)).
  by apply restore_at.
Qed.

(** Every register but a0 has its slot. *)
Lemma slot_of r : r <> a0 -> exists o, (r, o) ∈ trapframe_regs.
Proof using Type.
  intros H. assert (exists o, bool_decide ((r, o) ∈ trapframe_regs) = true) as [o Ho%bool_decide_eq_true]; [|by exists o].
  destruct r; try done; eexists; apply bool_decide_eq_true; unfold trapframe_regs; by repeat (left || right).
Qed.

(** C16. A user program's registers survive a trap: from any registers of a
    process in user space, uservec stores all of them in the process's
    trapframe, found at TRAPFRAME by the hardware's walk of the process's own
    page table, touches no other memory, and comes out with the kernel's stack
    pointer, hart id and page table and usertrap's address, as the trapframe
    has them. When the process next leaves the kernel, with whatever page table
    it has then (after sbrk or exec) that maps the same trapframe, and the
    saved registers are the same except that a0 is the result [v] of a system
    call, userret switches to that page table and restores every register, with
    [v] in a0. *)
Theorem user_registers_survive_traps s l q T V f sc :
  proc_mem s l q T V -> (forall r, 0 <= f r < 2 ^ 64) ->
  let tf := p_trapframe q in
  exists c, run sv39 uservec_code (mk_cpu_regs f sc (MAKE_SATP (p_pagetable q)) (k_mem s)) = Some c /\
    (forall x, x < tf \/ tf + PGSIZE <= x -> rd (c_mem c) x = rd (k_mem s) x) /\
    (forall o, o ∈ [tf_kernel_satp; tf_kernel_sp; tf_kernel_trap; tf_epc; tf_kernel_hartid] ->
       ld64 (c_mem c) (tf + o) = ld64 (k_mem s) (tf + o)) /\
    ld64 (c_mem c) (tf + tf_a0) = f a0 /\ ld64 (c_mem c) (tf + tf_a7) = f a7 /\
    c_reg c sp = ld64 (k_mem s) (tf + tf_kernel_sp) /\ c_reg c tp = ld64 (k_mem s) (tf + tf_kernel_hartid) /\
    c_reg c t0 = ld64 (k_mem s) (tf + tf_kernel_trap) /\ c_satp c = ld64 (k_mem s) (tf + tf_kernel_satp) /\
    forall s' l' q' T' V' g sc' satp' v,
      proc_mem s' l' q' T' V' -> p_trapframe q' = tf -> g a0 = MAKE_SATP (p_pagetable q') ->
      (forall r o, (r, o) ∈ trapframe_regs -> ld64 (k_mem s') (tf + o) = ld64 (c_mem c) (tf + o)) ->
      ld64 (k_mem s') (tf + tf_a0) = v ->
      exists c', run sv39 userret_code (mk_cpu_regs g sc' satp' (k_mem s')) = Some c' /\
        c_satp c' = MAKE_SATP (p_pagetable q') /\ c_mem c' = k_mem s' /\
        forall r, c_reg c' r = if decide (r = a0) then v else f r.
Proof using LO.
  intros Hq Hf tf. destruct (uservec_run s l q T V f sc Hq) as (c & E & Hs & Hk & Ho & H1 & H2 & H3 & H4).
  fold tf in Hs, Hk, Ho, H1, H2, H3, H4. assert (forall r o, (r, o) ∈ (a0, 112) :: trapframe_regs -> ld64 (c_mem c) (tf + o) = f r) as Hs'.
  { intros r o Hin. rewrite (Hs r o Hin). apply u64_small. apply Hf. }
  exists c. split_and!; [done|done|done|by apply Hs'; left|by apply Hs'; apply (bool_decide_unpack _)|done|done|done|done|].
  intros s' l' q' T' V' g sc' satp' v Hq' Htf Hg Hr Hv.
  destruct (userret_run s' l' q' T' V' g sc' satp' Hq' Hg) as (c' & E' & Hsa & Hm & Hregs).
  exists c'. split_and!; [done..|]. intros r. rewrite Htf in Hregs. case_decide as Hr0; [subst r|].
  - rewrite (Hregs a0 112) by (by left). exact Hv.
  - destruct (slot_of r) as [o Hin]; [done|]. rewrite (Hregs r o), (Hr r o), (Hs' r o) by (done || by right). done.
Qed.
End Asm.

Lemma user_registers_survive_traps_witness :
  exists s q f c, run sv39 uservec_code (mk_cpu_regs f 0 (MAKE_SATP (p_pagetable q)) (k_mem s)) = Some c /\
    ld64 (c_mem c) (p_trapframe q + tf_a7) = 7.
Proof.
  destruct fork_ready_example as (s & l & pp & T & V & c & n & Hr & _).
  destruct (@user_registers_survive_traps kernel_sym kernel_sym_ok s l pp T V (fun _ => 7) 0 (fr_mem _ _ _ _ _ _ _ _ Hr))
    as (c' & E & _ & _ & _ & H7 & _).
  - intros _. split; [discriminate|reflexivity].
  - exists s, pp, (fun _ => 7), c'. split; [exact E|exact H7].
Defined.

(** ** swtch *)

(** The kernel's data is mapped where it is. *)
Definition direct : translation := fun _ _ a => Some a.

Lemma maps_direct satp base n m : 0 <= base -> base + n <= 2 ^ 64 -> maps direct satp base base n m.
Proof. intros H1 H2 m' k _ Hk. unfold direct. rewrite u64_small by lia. done. Qed.

Lemma context_regs_ok : layout_ok 112 context_regs.
Proof. by apply layout_okb_ok. Qed.

(** A struct context in kernel memory. *)
Definition context_at (p : Z) : Prop := 0 <= p /\ p + 112 <= 2 ^ 64.
Definition contexts_apart (p q : Z) : Prop := p + 112 <= q \/ q + 112 <= p.

Lemma swtch_run f sc satp m : context_at (f a0) -> context_at (f a1) ->
  exists c, run direct swtch_code (mk_cpu_regs f sc satp m) = Some c /\
    c_mem c = save context_regs (f a0) f m /\
    forall r, c_reg c r = restore context_regs (f a1) (c_mem c) f r.
Proof.
  intros [H0 H0'] [H1 H1']. pose proof context_regs_ok as [Hn _ Hr].
  exists (mk_cpu_regs (restore context_regs (f a1) (save context_regs (f a0) f m) f) sc satp (save context_regs (f a0) f m)).
  split; [|done]. unfold swtch_code. rewrite run_app, (run_stores _ _ _ _ _ _ (f a0) 112) by (done || by apply maps_direct).
  cbn [mbind option_bind].
  by rewrite (run_loads _ _ _ _ _ _ (f a1) 112) by (done || (by apply maps_direct) || by apply (bool_decide_unpack _)).
Qed.

(** C19. A context switch and the switch back: swtch(old, new) returns to the
    address saved in new on the stack saved there, with the callee-saved
    registers of new, keeping the other registers, and writes only old.
    Whenever, on any CPU, some thread switches to old again (from a context
    other than old) and old is still as it was left, swtch returns to the
    first caller with its return address, its stack pointer and all its
    callee-saved registers. *)
Theorem swtch_resumes f sc satp m :
  context_at (f a0) -> context_at (f a1) -> contexts_apart (f a0) (f a1) -> (forall r, 0 <= f r < 2 ^ 64) ->
  exists c, run direct swtch_code (mk_cpu_regs f sc satp m) = Some c /\
    (forall r o, (r, o) ∈ context_regs -> c_reg c r = ld64 m (f a1 + o)) /\
    (forall r, r ∉ context_regs.*1 -> c_reg c r = f r) /\
    (forall x, x < f a0 \/ f a0 + 112 <= x -> rd (c_mem c) x = rd m x) /\
    forall g sc' satp' m',
      g a1 = f a0 -> context_at (g a0) -> contexts_apart (g a0) (f a0) ->
      (forall x, f a0 <= x < f a0 + 112 -> rd m' x = rd (c_mem c) x) ->
      exists c', run direct swtch_code (mk_cpu_regs g sc' satp' m') = Some c' /\
        forall r o, (r, o) ∈ context_regs -> c_reg c' r = f r.
Proof.
  intros H0 H1 Hap Hf. pose proof context_regs_ok as Hok. pose proof Hok as [Hn _ Hr].
  destruct (swtch_run f sc satp m H0 H1) as (c & E & Hm & Hc). exists c. split_and!; [done|..].
  - intros r o Hin. rewrite Hc, (restore_at _ _ _ _ _ o), Hm by done. apply ld64_ext. intros x Hx.
    apply (rd_save _ _ _ 112); [done|]. rewrite Forall_forall in Hr. destruct (Hr _ Hin) as (? & ? & _).
    unfold contexts_apart in Hap. cbn [snd] in *. lia.
  - intros r Hin. by rewrite Hc, restore_other.
  - intros x Hx. rewrite Hm. by apply (rd_save _ _ _ 112).
  - intros g sc' satp' m' Hg Hg0 Hap' Hold.
    destruct (swtch_run g sc' satp' m') as (c' & E' & Hm' & Hc'); [done|by rewrite Hg|].
    exists c'. split; [done|]. intros r o Hin. rewrite Hc', (restore_at _ _ _ _ _ o), Hm', Hg by done.
    rewrite Forall_forall in Hr. pose proof (Hr _ Hin) as (Ho1 & Ho2 & _). cbn [snd] in *.
    transitivity (ld64 (c_mem c) (f a0 + o)).
    + apply ld64_ext. intros x Hx. rewrite (rd_save _ _ _ 112); [apply Hold; lia|by apply Forall_forall|].
      unfold contexts_apart in Hap'. lia.
    + rewrite Hm, (ld64_save _ _ _ 112 _ r) by done. apply u64_small, Hf.
Qed.

Lemma swtch_resumes_witness :
  let f r := if decide (r = a0) then 0x80010000 else if decide (r = a1) then 0x80020000 else 5 in
  exists c, run direct swtch_code (mk_cpu_regs f 0 0 ∅) = Some c /\
    exists c', run direct swtch_code (mk_cpu_regs (set_reg a1 0x80010000 (set_reg a0 0x80020000 (c_reg c))) 0 0 (c_mem c)) = Some c' /\
      c_reg c' s3 = 5.
Proof.
  intros f. destruct (swtch_resumes f 0 0 ∅) as (c & E & _ & _ & _ & H).
  - split; [discriminate|discriminate].
  - split; [discriminate|discriminate].
  - left. discriminate.
  - intros r. unfold f. destruct (decide (r = a0)), (decide (r = a1)); split; (discriminate || reflexivity).
  - destruct (H (set_reg a1 0x80010000 (set_reg a0 0x80020000 (c_reg c))) 0 0 (c_mem c)) as (c' & E' & H').
    + reflexivity.
    + split; discriminate.
    + right. discriminate.
    + reflexivity.
    + exists c. split; [exact E|]. exists c'. split; [exact E'|]. apply (H' s3 40). by apply (bool_decide_unpack _).
Defined.

(** ** kernelvec *)

Lemma kernelvec_layout : layout_ok 256 ([(ra, 0); (sp, 8); (gp, 16); (tp, 24)] ++ kernelvec_regs).
Proof. by apply layout_okb_ok. Qed.

(** Interrupted kernel code keeps its registers: kernelvec saves the
    caller-saved ones below its stack pointer; when kerneltrap returns,
    having kept the callee-saved ones, its stack pointer and the frame, every
    register but tp is as it was; tp is the one of the CPU the thread is on
    then. *)
Theorem kernelvec_restores tr f sc satp p m :
  maps tr satp (u64 (f sp - 256)) p 256 m -> (forall r, 0 <= f r < 2 ^ 64) -> 256 <= f sp ->
  exists c, run tr kernelvec_enter (mk_cpu_regs f sc satp m) = Some c /\
    (forall x, x < p \/ p + 256 <= x -> rd (c_mem c) x = rd m x) /\
    forall g sc' satp' m',
      (forall r, r ∈ [sp; s0; s1; s2; s3; s4; s5; s6; s7; s8; s9; s10; s11] -> g r = c_reg c r) ->
      maps tr satp' (g sp) p 256 m' -> (forall x, p <= x < p + 256 -> rd m' x = rd (c_mem c) x) ->
      exists c', run tr kernelvec_leave (mk_cpu_regs g sc' satp' m') = Some c' /\
        c_mem c' = m' /\ forall r, c_reg c' r = if decide (r = tp) then g tp else f r.
Proof.
  intros Hm Hf Hsp. pose proof kernelvec_layout as Hok. pose proof Hok as [_ _ Hr].
  set (f1 := set_reg sp (u64 (f sp - 256)) f).
  set (K := [(ra, 0); (sp, 8); (gp, 16); (tp, 24)] ++ kernelvec_regs) in *.
  assert (forall r, u64 (f1 r) = f1 r) as H64.
  { intros r. unfold f1, set_reg. case_decide; [unfold u64; dlia|]. apply u64_small, Hf. }
  exists (mk_cpu_regs f1 sc satp (save K p f1 m)). cbn [c_reg c_mem]. split_and!.
  { unfold kernelvec_enter. run_more. fold f1 K. rewrite (run_stores _ _ _ _ _ _ p 256) by done. done. }
  { intros x Hx. by apply (rd_save _ _ _ 256). }
  intros g sc' satp' m' Hg Hm' Hfr.
  assert (forall r o, (r, o) ∈ K -> ld64 m' (p + o) = f1 r) as Hld.
  { intros r o Hin. rewrite <- H64, <- (ld64_save K p f1 256 m r o) by done. apply ld64_ext. intros x Hx. apply Hfr.
    rewrite Forall_forall in Hr. destruct (Hr _ Hin) as (? & ? & _). cbn [snd] in *. lia. }
  assert (g sp = f1 sp) as Hgsp by (apply Hg; by left).
  set (g1 := set_reg sp (ld64 m' (p + 8)) (set_reg ra (ld64 m' (p + 0)) g)).
  set (g2 := restore ((gp, 16) :: kernelvec_regs) p m' g1).
  assert (g1 sp = g sp) as Hg1 by (unfold g1, set_reg; rewrite decide_True, Hgsp by done; apply Hld; right; by left).
  exists (mk_cpu_regs (set_reg sp (u64 (g2 sp + 256)) g2) sc' satp' m'). split_and!; [|done|].
  { change kernelvec_leave with ([ld ra 0 sp; ld sp 8 sp] ++ loads ((gp, 16) :: kernelvec_regs) sp ++ [addi sp sp 256]).
    run_more. rewrite (Hm' m' 0) by (done || lia). run_more. change (set_reg ra _ g sp) with (g sp).
    rewrite (Hm' m' 8) by (done || lia). run_more. fold g1.
    rewrite (run_loads _ _ _ _ _ _ p 256); [done|by rewrite Hg1| |by apply (bool_decide_unpack _)].
    unfold K in Hr. rewrite Forall_app in Hr. destruct Hr as [_ Hr]. by constructor. }
  intros r. cbn [c_reg].
  assert (forall r o, (r, o) ∈ (gp, 16) :: kernelvec_regs -> g2 r = f1 r) as Hin2.
  { intros r' o Hin. unfold g2. rewrite (restore_at _ _ _ _ _ o) by (done || by apply (bool_decide_unpack _)). apply Hld.
    unfold K. apply elem_of_cons in Hin as [Hin|Hin]; [rewrite Hin; by right; right; left|].
    apply elem_of_app. by right. }
  assert (forall r, r ∉ ((gp, 16) :: kernelvec_regs).*1 -> g2 r = g1 r) as Hout2
    by (intros r' Hin; unfold g2; by apply restore_other).
  destruct (decide (r = sp)) as [->|Hrsp].
  { unfold set_reg at 1. rewrite decide_True, Hout2, Hg1, Hgsp by (done || by apply (bool_decide_unpack _)).
    rewrite decide_False by done. unfold f1, set_reg, u64. rewrite decide_True by done.
    specialize (Hf sp). rewrite (Z.mod_small (f sp - 256)), Z.mod_small by lia. lia. }
  unfold set_reg at 1. rewrite decide_False by done.
  assert (f1 r = f r) as Hfr1 by (unfold f1, set_reg; by rewrite decide_False).
  destruct (decide (r ∈ ((gp, 16) :: kernelvec_regs).*1)) as [Hin|Hin].
  - apply list_elem_of_fmap in Hin as ([r' o] & -> & Hin). cbn [fst] in *. rewrite (Hin2 r' o Hin), Hfr1.
    by destruct (decide (r' = tp)) as [->|]; [exfalso; revert Hin; apply (bool_decide_unpack _)|].
  - rewrite Hout2 by done. unfold g1, set_reg. rewrite decide_False by done.
    destruct (decide (r = tp)) as [->|Htp]; [done|]. rewrite <- Hfr1.
    destruct (decide (r = ra)) as [->|]; [apply Hld; by left|]. apply Hg.
    clear -Hin Hrsp Htp n. destruct r; try done; try (by exfalso; apply Hin; apply (bool_decide_unpack _)); by apply (bool_decide_unpack _).
Qed.

(** ** _entry *)

(** The stack pointer is the end of the hart's own 4096 bytes of stack0,
    whose size is 4096 * NCPU. *)
Lemma entry_stack tr stack0 id f sc satp m :
  0 <= stack0 -> stack0 + 4096 * NCPU < 2 ^ 64 -> 0 <= id < NCPU ->
  exists c, run tr (entry_code stack0 id) (mk_cpu_regs f sc satp m) = Some c /\
    c_mem c = m /\ c_reg c sp = stack0 + id * 4096 + 4096 /\ c_reg c sp <= stack0 + 4096 * NCPU.
Proof.
  intros H1 H2 Hid. change NCPU with 8 in *. eexists. split; [reflexivity|]. cbn [c_mem c_reg].
  split; [done|]. change (let v := u64 (stack0 + u64 (4096 * u64 (id + 1))) in
    v = stack0 + id * 4096 + 4096 /\ v <= stack0 + 4096 * 8).
  rewrite (u64_small (id + 1)), (u64_small (4096 * (id + 1))), u64_small by lia. lia.
Qed.
