(* ===== verification/Spinlock.v ===== *)
(** kernel/spinlock.c on several CPUs.

    The other files run one CPU between two scheduling points and keep the
    spinlocks it holds in a list. Here are the locks themselves: each CPU
    executes acquire, release, push_off and pop_off one atomic access at a
    time, interleaved in any order with the other CPUs, and the list is what
    the theorems show it to be. *)

From stdpp Require Import base numbers list strings decidable sets relations.
From S2P Require Import Prelude.

(** ** struct spinlock and struct cpu *)

Record spinlock := mk_spinlock { lk_locked : bool; lk_cpu : option nat }.

(** Where a CPU is inside acquire or release of lock [l]:
    [AcqSpin]: before the next atomic swap of the loop; [AcqOwner]: the swap
    found 0, lk->cpu is still to be set; [RelFree]: lk->cpu is cleared, the
    store to lk->locked is still to come; [RelPop]: before pop_off. *)
Inductive point := Outside | AcqSpin (l : nat) | AcqOwner (l : nat)
                 | RelFree (l : nat) | RelPop.

#[export] Instance point_eq_dec : EqDecision point.
Proof. solve_decision. Defined.

(** [c_sie] is the interrupt enable bit of sstatus. Ghosts: [c_held] lists
    the locks acquired and not yet released, [c_pushes] counts the push_offs
    made outside of acquire, [c_was] is the enable bit when [c_noff] last
    left 0. *)
Record cpu := mk_cpu {
  c_noff : Z;
  c_intena : bool;
  c_sie : bool;
  c_at : point;
  c_held : list nat;
  c_pushes : nat;
  c_was : bool;
}.

Definition set_at (p : point) (c : cpu) : cpu :=
  mk_cpu (c_noff c) (c_intena c) (c_sie c) p (c_held c) (c_pushes c) (c_was c).
Definition set_held (h : list nat) (c : cpu) : cpu :=
  mk_cpu (c_noff c) (c_intena c) (c_sie c) (c_at c) h (c_pushes c) (c_was c).
Definition set_pushes (n : nat) (c : cpu) : cpu :=
  mk_cpu (c_noff c) (c_intena c) (c_sie c) (c_at c) (c_held c) n (c_was c).
Definition set_sie (b : bool) (c : cpu) : cpu :=
  mk_cpu (c_noff c) (c_intena c) b (c_at c) (c_held c) (c_pushes c) (c_was c).

Definition initlock : spinlock := mk_spinlock false None.

Definition push_off (c : cpu) : cpu :=
  let old := c_sie c in
  mk_cpu (c_noff c + 1)
    (if c_noff c =? 0 then old else c_intena c) false
    (c_at c) (c_held c) (c_pushes c) (if c_noff c =? 0 then old else c_was c).

(** The message of the panic, or the CPU afterwards. *)
Definition pop_off (c : cpu) : string + cpu :=
  if c_sie c then inl "pop_off - interruptible"%string
  else if c_noff c <? 1 then inl "pop_off"%string
  else
    let noff := c_noff c - 1 in
    inr (mk_cpu noff (c_intena c) ((noff =? 0) && c_intena c)
           (c_at c) (c_held c) (c_pushes c) (c_was c)).

Definition holding (i : nat) (lk : spinlock) : bool :=
  lk_locked lk && bool_decide (lk_cpu lk = Some i).

(** ** The machine *)

Record mach := mk_mach { m_locks : list spinlock; m_cpus : list cpu }.

Definition upd_cpu (i : nat) (c : cpu) (m : mach) : mach :=
  mk_mach (m_locks m) (<[i := c]> (m_cpus m)).
Definition upd_lock (l : nat) (lk : spinlock) (m : mach) : mach :=
  mk_mach (<[l := lk]> (m_locks m)) (m_cpus m).

(** What a CPU does next. *)
Inductive act := Acquire (l : nat) | Release (l : nat) | PushOff | PopOff
               | IntrOn | IntrOff | Continue.

(** Drop one occurrence. *)
Fixpoint drop_lock (l : nat) (h : list nat) : list nat :=
  match h with
  | [] => []
  | x :: h' => if decide (x = l) then h' else x :: drop_lock l h'
  end.

(** One atomic access of CPU [i]: a panic, or the machine afterwards; None
    when the access is not there to be made. *)
Definition exec (i : nat) (a : act) (m : mach) : option (string + mach) :=
  c ← m_cpus m !! i;
  match a, c_at c with
  | Acquire l, Outside =>
      lk ← m_locks m !! l;
      let c := push_off c in
      if holding i lk then Some (inl "acquire"%string)
      else Some (inr (upd_cpu i (set_at (AcqSpin l) c) m))
  | Release l, Outside =>
      lk ← m_locks m !! l;
      if holding i lk
      then Some (inr (upd_cpu i (set_at (RelFree l) c)
                        (upd_lock l (mk_spinlock (lk_locked lk) None) m)))
      else Some (inl "release"%string)
  | PushOff, Outside =>
      Some (inr (upd_cpu i (set_pushes (S (c_pushes c)) (push_off c)) m))
  | PopOff, Outside =>
      (* matched with a push_off of the same CPU *)
      match c_pushes c with
      | O => None
      | S n =>
          match pop_off c with
          | inl msg => Some (inl msg)
          | inr c' => Some (inr (upd_cpu i (set_pushes n c') m))
          end
      end
  | IntrOn, Outside => if c_noff c =? 0 then Some (inr (upd_cpu i (set_sie true c) m)) else None
  | IntrOff, Outside => if c_noff c =? 0 then Some (inr (upd_cpu i (set_sie false c) m)) else None
  | Continue, AcqSpin l =>
      (* __sync_lock_test_and_set(&lk->locked, 1) *)
      lk ← m_locks m !! l;
      let m := upd_lock l (mk_spinlock true (lk_cpu lk)) m in
      if lk_locked lk then Some (inr m)
      else Some (inr (upd_cpu i (set_at (AcqOwner l) c) m))
  | Continue, AcqOwner l =>
      lk ← m_locks m !! l;
      Some (inr (upd_cpu i (set_held (l :: c_held c) (set_at Outside c))
                   (upd_lock l (mk_spinlock (lk_locked lk) (Some i)) m)))
  | Continue, RelFree l =>
      lk ← m_locks m !! l;
      Some (inr (upd_cpu i (set_held (drop_lock l (c_held c)) (set_at RelPop c))
                   (upd_lock l (mk_spinlock false (lk_cpu lk)) m)))
  | Continue, RelPop =>
      match pop_off c with
      | inl msg => Some (inl msg)
      | inr c' => Some (inr (upd_cpu i (set_at Outside c') m))
      end
  | _, _ => None
  end.

Inductive step : mach -> mach -> Prop :=
| step_exec i a m m' : exec i a m = Some (inr m') -> step m m'.

Definition fresh_cpu : cpu := mk_cpu 0 false false Outside [] 0 false.
Definition boot (ncpu nlock : nat) : mach :=
  mk_mach (replicate nlock initlock) (replicate ncpu fresh_cpu).

(** ** The invariant *)

(** The CPU has [l] for itself: from the successful swap to the store that
    frees it. *)
Definition owns (c : cpu) (l : nat) : Prop := l ∈ c_held c \/ c_at c = AcqOwner l.

(** How many push_offs of the CPU are not yet popped. *)
Definition depth (c : cpu) : nat :=
  length (c_held c) + c_pushes c +
  match c_at c with AcqSpin _ | AcqOwner _ | RelPop => 1 | _ => 0 end.

Record cpu_ok (c : cpu) : Prop := {
  ok_noff : c_noff c = Z.of_nat (depth c);
  ok_off : (0 < depth c)%nat -> c_sie c = false /\ c_intena c = c_was c;
  ok_nodup : NoDup (c_held c);
  ok_acq : forall l, c_at c = AcqSpin l \/ c_at c = AcqOwner l -> l ∉ c_held c;
  ok_rel : forall l, c_at c = RelFree l -> l ∈ c_held c;
}.

(** It is between the two stores to the lock's fields. *)
Definition transit (c : cpu) (l : nat) : Prop := c_at c = AcqOwner l \/ c_at c = RelFree l.

#[export] Instance transit_dec c l : Decision (transit c l).
Proof. unfold transit. apply _. Defined.

(** A lock's fields say who has it. *)
Definition lock_ok (m : mach) (l : nat) (lk : spinlock) : Prop :=
  match lk_locked lk with
  | false => lk_cpu lk = None /\ forall i c, m_cpus m !! i = Some c -> ~ owns c l
  | true => exists i c, m_cpus m !! i = Some c /\ owns c l /\
      (forall j c', m_cpus m !! j = Some c' -> owns c' l -> j = i) /\
      lk_cpu lk = (if decide (transit c l) then None else Some i)
  end.

Record mach_ok (m : mach) : Prop := {
  ok_cpus : forall i c, m_cpus m !! i = Some c -> cpu_ok c;
  ok_locks : forall l lk, m_locks m !! l = Some lk -> lock_ok m l lk;
}.

(** ** Preservation *)

(** Case analysis on whether an updated entry of a list is the one looked up. *)
Ltac case_insert :=
  rewrite list_lookup_insert;
  match goal with |- context [decide (?a = ?b /\ ?p)] =>
    destruct (decide (a = b /\ p)) as [[<- _]|] end.

(** A lock's state depends on a CPU only through what it owns. *)
Lemma lock_ok_upd i c c' m l lk :
  m_cpus m !! i = Some c ->
  (owns c' l <-> owns c l) -> (owns c l -> transit c' l <-> transit c l) ->
  lock_ok m l lk -> lock_ok (upd_cpu i c' m) l lk.
Proof.
  intros Hi Ho Ht. unfold lock_ok. simpl.
  assert (Hlk : (i < length (m_cpus m))%nat) by by eapply lookup_lt_Some.
  destruct (lk_locked lk).
  - intros (j & d & Hj & Hd & Hu & Hc).
    assert (Hun : forall j' d', <[i := c']> (m_cpus m) !! j' = Some d' -> owns d' l -> j' = j).
    { intros j' d'. case_insert; [|eauto].
      intros [= <-] ?%Ho. eauto. }
    destruct (decide (i = j)) as [<-|Hne].
    + simplify_eq. exists i, c'. rewrite list_lookup_insert_eq by done.
      split_and!; try done; [by apply Ho|].
      rewrite Hc. destruct (decide (transit c l)), (decide (transit c' l)); naive_solver.
    + exists j, d. rewrite list_lookup_insert_ne by done. done.
  - intros [Hn Hu]. split; [done|]. intros j d. case_insert; [|eauto]. intros [= <-] ?%Ho. by eapply Hu.
Qed.

Lemma holding_iff m i c l lk :
  mach_ok m -> m_cpus m !! i = Some c -> c_at c = Outside -> m_locks m !! l = Some lk ->
  holding i lk = true <-> l ∈ c_held c.
Proof.
  intros [_ Hl] Hi Hat Hlk. specialize (Hl _ _ Hlk). unfold holding, lock_ok in *.
  destruct (lk_locked lk); simpl.
  - destruct Hl as (j & d & Hj & Hd & Hu & ->). rewrite bool_decide_eq_true.
    destruct (decide (transit d l)) as [Ht|Ht]; split; try done.
    + intros Hin. assert (i = j) as <- by (eapply Hu; [done|by left]).
      simplify_eq. destruct Ht; congruence.
    + intros [= ->]. simplify_eq. destruct Hd; [done|congruence].
    + intros Hin. f_equal. symmetry. eapply Hu; [done|by left].
  - split; [done|]. intros Hin. by destruct (proj2 Hl i c Hi); left.
Qed.

Lemma elem_of_drop_lock l l' h : NoDup h -> l' ∈ drop_lock l h <-> l' ∈ h /\ l' <> l.
Proof.
  induction 1 as [|x h Hx Hh IH]; simpl; [set_solver|]. case_decide; set_solver.
Qed.

Lemma drop_lock_NoDup l h : NoDup h -> NoDup (drop_lock l h).
Proof.
  induction 1 as [|x h Hx Hh IH]; simpl; [constructor|]. case_decide; [done|].
  constructor; [|done]. rewrite elem_of_drop_lock by done. set_solver.
Qed.

Lemma length_drop_lock l h : l ∈ h -> length h = S (length (drop_lock l h)).
Proof.
  induction h as [|x h IH]; simpl; [by intros ?%elem_of_nil|].
  intros [->|Hin]%elem_of_cons; case_decide; simpl; try done. by rewrite <- IH.
Qed.

(** A step that only changes CPU [i], and what it owns not at all. *)
Lemma mach_ok_cpu m i c c' :
  mach_ok m -> m_cpus m !! i = Some c -> cpu_ok c' ->
  (forall l, owns c' l <-> owns c l) -> (forall l, owns c l -> transit c' l <-> transit c l) ->
  mach_ok (upd_cpu i c' m).
Proof.
  intros [Hc Hl] Hi Hok Ho Ht. split.
  - intros j d. simpl. case_insert; naive_solver.
  - intros l lk Hlk. eapply lock_ok_upd; eauto.
Qed.

(** A step that changes CPU [i] and lock [l]. *)
Lemma mach_ok_lock m i c c' l lk' :
  mach_ok m -> m_cpus m !! i = Some c -> cpu_ok c' ->
  (forall l', l' <> l -> owns c' l' <-> owns c l') ->
  (forall l', l' <> l -> owns c l' -> transit c' l' <-> transit c l') ->
  lock_ok (upd_cpu i c' m) l lk' ->
  mach_ok (upd_cpu i c' (upd_lock l lk' m)).
Proof.
  intros [Hc Hl] Hi Hok Ho Ht Hnew. split.
  - intros j d. simpl. case_insert; naive_solver.
  - intros l' lk. simpl. rewrite list_lookup_insert. case_decide as E.
    + destruct E as [<- _]. intros [= <-]. exact Hnew.
    + intros Hlk. destruct (decide (l = l')) as [->|Hne].
      { destruct E. split; [done|]. by eapply lookup_lt_Some. }
      apply (lock_ok_upd i c); auto. by apply Hl.
Qed.

Lemma set_at_id p c : c_at c = p -> set_at p c = c.
Proof. intros <-. by destruct c. Qed.

Lemma push_off_ok c p n :
  cpu_ok c -> c_at c = Outside ->
  (p = Outside /\ n = S (c_pushes c) \/
   n = c_pushes c /\ exists l, p = AcqSpin l /\ l ∉ c_held c) ->
  cpu_ok (set_pushes n (set_at p (push_off c))).
Proof.
  intros [H1 H2 H3 H4 H5] Hat Hp. unfold depth in *. rewrite Hat in *.
  assert (Hd : depth (set_pushes n (set_at p (push_off c))) =
    S (length (c_held c) + c_pushes c)).
  { unfold depth. simpl. destruct Hp as [[-> ->]|[-> (l & -> & _)]]; lia. }
  split; rewrite ?Hd; simpl; try done; [lia| | |].
  - intros _. split; [done|]. destruct (Z.eqb_spec (c_noff c) 0); [done|].
    apply H2. lia.
  - intros l Hl. destruct Hp as [[-> _]|[_ (l' & -> & Hl')]]; naive_solver.
  - intros l Hl. destruct Hp as [[-> _]|[_ (l' & -> & Hl')]]; done.
Qed.

(** pop_off never panics where it is matched, and it undoes the push. *)
Lemma pop_off_ok c n :
  cpu_ok c -> (c_at c = RelPop /\ n = c_pushes c \/ c_at c = Outside /\ c_pushes c = S n) ->
  exists c', pop_off c = inr c' /\ cpu_ok (set_pushes n (set_at Outside c')) /\
    c_held c' = c_held c /\ c_at c' = c_at c /\ c_pushes c' = c_pushes c /\
    c_sie c' = (if (c_noff c =? 1) then c_was c else false) /\
    c_noff c' = c_noff c - 1.
Proof.
  intros [H1 H2 H3 H4 H5] Hp.
  assert (Hd : depth c = S (length (c_held c) + n)).
  { unfold depth. destruct Hp as [[-> ->]|[-> ->]]; lia. }
  rewrite Hd in *. destruct H2 as [Hs Hi]; [lia|].
  unfold pop_off. rewrite Hs. destruct (Z.ltb_spec (c_noff c) 1); [lia|].
  eexists. split; [done|]. simpl. rewrite Hi.
  split_and!; try done; [|destruct (Z.eqb_spec (c_noff c - 1) 0),
                           (Z.eqb_spec (c_noff c) 1); try lia; done].
  split; simpl; try done; unfold depth; simpl; [lia| |].
  - intros Hpos. split; [|done]. destruct (Z.eqb_spec (c_noff c - 1) 0); [lia|done].
  - by intros l [|].
Qed.

(** A lock that CPU [i] holds outside any transition is locked by it. *)
Lemma held_lock_ok m i c l lk :
  mach_ok m -> m_cpus m !! i = Some c -> l ∈ c_held c -> m_locks m !! l = Some lk ->
  lk_locked lk = true /\ (forall j d, m_cpus m !! j = Some d -> owns d l -> j = i).
Proof.
  intros [_ Hl] Hi Hin Hlk. specialize (Hl _ _ Hlk). unfold lock_ok in Hl.
  destruct (lk_locked lk).
  - destruct Hl as (j & d & Hj & Hd & Hu & _). split; [done|].
    assert (i = j) as -> by (eapply Hu; [done|by left]). done.
  - by destruct (proj2 Hl i c Hi); left.
Qed.

Lemma lock_ok_mine i c' m l lk :
  (i < length (m_cpus m))%nat -> lk_locked lk = true -> owns c' l ->
  lk_cpu lk = (if decide (transit c' l) then None else Some i) ->
  (forall j d, m_cpus m !! j = Some d -> j <> i -> ~ owns d l) ->
  lock_ok (upd_cpu i c' m) l lk.
Proof.
  intros Hlen Hlk Ho Hc Hu. unfold lock_ok. rewrite Hlk. simpl. exists i, c'.
  rewrite list_lookup_insert_eq by done. split_and!; try done.
  intros j d. case_insert; [done|]. intros Hj Hd.
  destruct (decide (j = i)); [done|]. by destruct (Hu j d).
Qed.

Lemma cpu_ok_at c p h :
  cpu_ok c ->
  (exists l, c_at c = AcqSpin l /\ p = AcqOwner l /\ h = c_held c) \/
  (exists l, c_at c = AcqOwner l /\ p = Outside /\ h = l :: c_held c) \/
  (exists l, c_at c = Outside /\ p = RelFree l /\ h = c_held c /\ l ∈ c_held c) \/
  (exists l, c_at c = RelFree l /\ p = RelPop /\ h = drop_lock l (c_held c)) ->
  cpu_ok (set_held h (set_at p c)).
Proof.
  intros [H1 H2 H3 H4 H5] Hp.
  assert (Hd : depth (set_held h (set_at p c)) = depth c).
  { unfold depth. destruct Hp as [(l & E & -> & ->)|[(l & E & -> & ->)|
      [(l & E & -> & -> & Hin)|(l & E & -> & ->)]]]; rewrite E; simpl; try lia.
    rewrite (length_drop_lock l (c_held c)) by auto. lia. }
  split; rewrite ?Hd; simpl; try done;
    destruct Hp as [(l & E & -> & ->)|[(l & E & -> & ->)|
      [(l & E & -> & -> & Hin)|(l & E & -> & ->)]]]; simpl; try done.
  - constructor; auto.
  - by apply drop_lock_NoDup.
  - intros l' [|[= <-]]; [done|]. auto.
  - by intros l' [|].
  - by intros l' [|].
  - by intros l' [|].
  - by intros l' [= <-].
Qed.

(** A swap that finds the lock taken changes nothing. *)
Lemma swap_taken m l lk :
  m_locks m !! l = Some lk -> lk_locked lk = true ->
  upd_lock l (mk_spinlock true (lk_cpu lk)) m = m.
Proof.
  intros Hl Hlk. unfold upd_lock. rewrite list_insert_id; [by destruct m|].
  rewrite Hl. destruct lk. simpl in *. by subst.
Qed.
(** What a CPU owns and where it is, by cases. *)
Ltac points := unfold owns, transit; simpl; intuition congruence.

Section Steps.
Context (m : mach) (i : nat) (c : cpu).
Hypothesis (Hm : mach_ok m) (Hi : m_cpus m !! i = Some c).

Lemma this_cpu_ok : cpu_ok c.
Proof using Hm Hi. by eapply ok_cpus. Qed.
Lemma this_cpu_lt : (i < length (m_cpus m))%nat.
Proof using Hi. by eapply lookup_lt_Some. Qed.
#[local] Hint Resolve this_cpu_ok this_cpu_lt : core.

Lemma acquire_start_ok l lk :
  c_at c = Outside -> m_locks m !! l = Some lk -> holding i lk = false ->
  mach_ok (upd_cpu i (set_at (AcqSpin l) (push_off c)) m).
Proof using Hm Hi.
  intros Hat Hl Hh. assert (l ∉ c_held c).
  { rewrite <- (holding_iff m i c l lk) by done. by rewrite Hh. }
  eapply mach_ok_cpu; [done..| | |]; [|points|points].
  apply (push_off_ok c (AcqSpin l) (c_pushes c)); eauto.
Qed.

Lemma swap_free_ok l lk :
  c_at c = AcqSpin l -> m_locks m !! l = Some lk -> lk_locked lk = false ->
  mach_ok (upd_cpu i (set_at (AcqOwner l) c) (upd_lock l (mk_spinlock true (lk_cpu lk)) m)).
Proof using Hm Hi.
  intros Hat Hl Hlk. assert (Hlo := ok_locks m Hm _ _ Hl).
  unfold lock_ok in Hlo. rewrite Hlk in Hlo. destruct Hlo as [Hn Hu].
  eapply mach_ok_lock; [done..| | | |]; [|points|points|].
  - apply (cpu_ok_at c (AcqOwner l) (c_held c)); eauto 10.
  - apply lock_ok_mine; simpl; [done|done|by right| |by eauto].
    rewrite decide_True; [done|by left].
Qed.

Lemma set_owner_ok l lk :
  c_at c = AcqOwner l -> m_locks m !! l = Some lk ->
  mach_ok (upd_cpu i (set_held (l :: c_held c) (set_at Outside c))
             (upd_lock l (mk_spinlock (lk_locked lk) (Some i)) m)).
Proof using Hm Hi.
  intros Hat Hl. assert (Hlo := ok_locks m Hm _ _ Hl). unfold lock_ok in Hlo.
  assert (Ho : owns c l) by by right.
  destruct (lk_locked lk) eqn:Hlk; [|by destruct (proj2 Hlo i c Hi)].
  destruct Hlo as (j & d & Hj & Hd & Hu & _).
  assert (i = j) as <- by eauto.
  eapply mach_ok_lock; [done..| | | |].
  - apply (cpu_ok_at c Outside (l :: c_held c)); eauto 10.
  - intros l'. unfold owns. simpl. rewrite elem_of_cons. intuition congruence.
  - points.
  - apply lock_ok_mine; simpl; [done|done|left; by constructor|done|].
    intros k e Hk Hne He. by destruct Hne; eauto.
Qed.

Lemma release_start_ok l lk :
  c_at c = Outside -> m_locks m !! l = Some lk -> holding i lk = true ->
  mach_ok (upd_cpu i (set_at (RelFree l) c)
             (upd_lock l (mk_spinlock (lk_locked lk) None) m)).
Proof using Hm Hi.
  intros Hat Hl Hh.
  assert (Hin : l ∈ c_held c) by by apply (holding_iff m i c l lk).
  destruct (held_lock_ok m i c l lk) as [Hlk Hu]; try done.
  eapply mach_ok_lock; [done..| | | |]; [|points|points|].
  - apply (cpu_ok_at c (RelFree l) (c_held c)); eauto 10.
  - apply lock_ok_mine; simpl; [done|done|by left| |].
    + rewrite decide_True; [done|by right].
    + intros k e Hk Hne He. by destruct Hne; eauto.
Qed.

Lemma free_lock_ok l lk :
  c_at c = RelFree l -> m_locks m !! l = Some lk ->
  mach_ok (upd_cpu i (set_held (drop_lock l (c_held c)) (set_at RelPop c))
             (upd_lock l (mk_spinlock false (lk_cpu lk)) m)).
Proof using Hm Hi.
  intros Hat Hl. assert (Hlo := ok_locks m Hm _ _ Hl). unfold lock_ok in Hlo.
  assert (Hin : l ∈ c_held c) by by eapply ok_rel.
  destruct (lk_locked lk) eqn:Hlk; [|by destruct (proj2 Hlo i c Hi); left].
  destruct Hlo as (j & d & Hj & Hd & Hu & Hcpu).
  assert (i = j) as <- by (eapply Hu; [done|by left]). simplify_eq.
  rewrite decide_True in Hcpu by (by right).
  assert (Hnd := ok_nodup c this_cpu_ok).
  eapply mach_ok_lock; [done..| | | |].
  - apply (cpu_ok_at c RelPop (drop_lock l (c_held c))); eauto 10.
  - intros l' Hne. unfold owns. simpl. rewrite elem_of_drop_lock by done. intuition congruence.
  - points.
  - split; [done|]. intros k e. simpl. destruct (decide (k = i)) as [->|Hne].
    + rewrite list_lookup_insert_eq by done.
      intros [= <-] [Ho|Ho]; simpl in *; [|done].
      by apply elem_of_drop_lock in Ho as [_ ?].
    + rewrite list_lookup_insert_ne by done. intros Hk He. by destruct Hne; eauto.
Qed.

Lemma pop_end_ok c' :
  c_at c = RelPop -> pop_off c = inr c' -> mach_ok (upd_cpu i (set_at Outside c') m).
Proof using Hm Hi.
  intros Hat E. destruct (pop_off_ok c (c_pushes c)) as (d & E' & Hok & Hh & Ha & Hp & _);
    [done|by left|].
  rewrite E in E'. injection E' as <-. rewrite <- Hp in Hok.
  eapply mach_ok_cpu; [done..|exact Hok| |].
  - intros l. unfold owns. simpl. rewrite Hh, Hat. intuition congruence.
  - points.
Qed.

Lemma push_pop_ok :
  c_at c = Outside ->
  mach_ok (upd_cpu i (set_pushes (S (c_pushes c)) (push_off c)) m) /\
  (forall n c', c_pushes c = S n -> pop_off c = inr c' ->
     mach_ok (upd_cpu i (set_pushes n c') m)).
Proof using Hm Hi.
  intros Hat. split.
  - eapply mach_ok_cpu; [done..| |done|done].
    rewrite <- (set_at_id Outside (push_off c)) by done.
    apply (push_off_ok c Outside (S (c_pushes c))); eauto.
  - intros n c' Hn E. destruct (pop_off_ok c n) as (d & E' & Hok & Hh & Ha & _);
      [done|by right|].
    rewrite E in E'. injection E' as <-. rewrite Hat in Ha. rewrite set_at_id in Hok by done.
    eapply mach_ok_cpu; [done..|exact Hok| |].
    + intros l. unfold owns. simpl. by rewrite Hh, Ha, Hat.
    + intros l. unfold transit. simpl. by rewrite Ha, Hat.
Qed.

Lemma set_sie_ok b :
  c_at c = Outside -> c_noff c = 0 -> mach_ok (upd_cpu i (set_sie b c) m).
Proof using Hm Hi.
  intros Hat H0. eapply mach_ok_cpu; [done..| |done|done].
  destruct this_cpu_ok as [H1 H2 H3 H4 H5]. split; try done.
  unfold depth in *. simpl. rewrite Hat in *. lia.
Qed.

End Steps.

Lemma exec_ok i a m m' : mach_ok m -> exec i a m = Some (inr m') -> mach_ok m'.
Proof.
  intros Hm. unfold exec. destruct (m_cpus m !! i) as [c|] eqn:Hi; [simpl|done].
  destruct a as [l|l| | | | |], (c_at c) as [|l'|l'|l'|] eqn:Hat; try done;
    try (destruct (m_locks m !! _) as [lk|] eqn:Hl; [simpl|done]).
  - destruct (holding i lk) eqn:Hh; intros; simplify_eq. by eapply acquire_start_ok.
  - destruct (holding i lk) eqn:Hh; intros; simplify_eq. by eapply release_start_ok.
  - intros; simplify_eq. by apply push_pop_ok.
  - destruct (c_pushes c) eqn:Hn; [done|]. destruct (pop_off c) eqn:E; intros; simplify_eq.
    by eapply (push_pop_ok m i c).
  - destruct (Z.eqb_spec (c_noff c) 0); intros; simplify_eq. by apply set_sie_ok.
  - destruct (Z.eqb_spec (c_noff c) 0); intros; simplify_eq. by apply set_sie_ok.
  - destruct (lk_locked lk) eqn:Hlk; intros; simplify_eq.
    + by rewrite (swap_taken m).
    + by eapply swap_free_ok.
  - intros; simplify_eq. by eapply set_owner_ok.
  - intros; simplify_eq. by eapply free_lock_ok.
  - destruct (pop_off c) eqn:E; intros; simplify_eq. by eapply pop_end_ok.
Qed.

Lemma boot_ok ncpu nlock : mach_ok (boot ncpu nlock).
Proof.
  split; simpl.
  - intros i c [-> _]%lookup_replicate. split; unfold depth; simpl; try done; try (intros; lia);
      [constructor|by intros l [|]].
  - intros l lk [-> _]%lookup_replicate. split; [done|]. simpl.
    intros i c [-> _]%lookup_replicate [H|H]; [|done]. by apply elem_of_nil in H.
Qed.

Lemma reachable_ok ncpu nlock m : rtc step (boot ncpu nlock) m -> mach_ok m.
Proof.
  assert (H0 := boot_ok ncpu nlock).
  induction 1 as [m|m1 m2 m3 [i a m m' E] _ IH]; [done|].
  apply IH. by eapply exec_ok.
Qed.

Lemma pop_off_no_panic c msg :
  cpu_ok c -> (c_at c = RelPop \/ c_at c = Outside /\ c_pushes c <> 0%nat) ->
  pop_off c <> inl msg.
Proof.
  intros Hc Hp. destruct (pop_off_ok c (if decide (c_at c = RelPop) then c_pushes c
    else pred (c_pushes c))) as (c' & E & _); [done| |by rewrite E].
  case_decide; [by left|]. right. destruct Hp as [|[? ?]]; [done|]. split; [done|lia].
Qed.

Lemma panics_iff m i c a msg :
  mach_ok m -> m_cpus m !! i = Some c ->
  exec i a m = Some (inl msg) <->
  c_at c = Outside /\ exists l, (l < length (m_locks m))%nat /\
    (a = Acquire l /\ l ∈ c_held c /\ msg = "acquire"%string \/
     a = Release l /\ l ∉ c_held c /\ msg = "release"%string).
Proof.
  intros Hm Hi. assert (Hc : cpu_ok c) by by eapply ok_cpus.
  assert (Hh : forall l lk, c_at c = Outside -> m_locks m !! l = Some lk ->
    (holding i lk = true <-> l ∈ c_held c) /\ (l < length (m_locks m))%nat).
  { intros l lk Hat Hl. split; [by apply (holding_iff m)|by eapply lookup_lt_Some]. }
  split.
  - unfold exec. rewrite Hi. simpl.
    destruct a as [l|l| | | | |], (c_at c) as [|l'|l'|l'|] eqn:Hat; try done;
      try (destruct (m_locks m !! _) as [lk|] eqn:Hl; [simpl|done]); try done.
    + destruct (holding i lk) eqn:E; intros [= <-]. split; [done|].
      exists l. destruct (Hh l lk eq_refl Hl) as [Hx Hlt]. split; [done|].
      left. split_and!; [done|by apply Hx|done].
    + destruct (holding i lk) eqn:E; intros [= <-]. split; [done|].
      exists l. destruct (Hh l lk eq_refl Hl) as [Hx Hlt]. split; [done|].
      right. split_and!; [done| |done]. intros Hin%Hx. congruence.
    + destruct (c_pushes c) eqn:Hn; [done|]. destruct (pop_off c) eqn:E; intros [= <-].
      destruct (pop_off_no_panic c s Hc); [|done]. right. by rewrite Hn.
    + by destruct (_ =? _).
    + by destruct (_ =? _).
    + by destruct (lk_locked lk).
    + destruct (pop_off c) eqn:E; intros [= <-].
      destruct (pop_off_no_panic c s Hc); [|done]. by left.
  - intros (Hat & l & Hlt & Hcase). unfold exec. rewrite Hi. simpl. rewrite Hat.
    destruct (lookup_lt_is_Some_2 _ _ Hlt) as [lk Hl].
    destruct (Hh l lk Hat Hl) as [Hx _].
    destruct Hcase as [(-> & Hin & ->)|(-> & Hin & ->)]; rewrite Hl; simpl.
    + by rewrite (proj2 Hx Hin).
    + destruct (holding i lk); [|done]. by destruct Hin; apply Hx.
Qed.

(** ** The properties *)

(** C11. Mutual exclusion on any number of CPUs: whatever the CPUs call and
    however their accesses interleave, at most one of them is between the
    successful swap of acquire and the freeing store of release of the same
    lock, and holding(lk) answers exactly whether the asking CPU is. *)
Theorem spinlock_mutual_exclusion ncpu nlock m i c l lk :
  rtc step (boot ncpu nlock) m -> m_cpus m !! i = Some c -> m_locks m !! l = Some lk ->
  (forall j d, m_cpus m !! j = Some d -> owns c l -> owns d l -> i = j) /\
  (c_at c = Outside -> holding i lk = bool_decide (l ∈ c_held c)) /\
  NoDup (c_held c).
Proof.
  intros Hm%reachable_ok Hi Hl. split_and!.
  - intros j d Hj Hc Hd. assert (Hlo := ok_locks m Hm _ _ Hl). unfold lock_ok in Hlo.
    destruct (lk_locked lk); [|by destruct (proj2 Hlo i c Hi)].
    destruct Hlo as (k & e & _ & _ & Hu & _). by rewrite (Hu i c), (Hu j d).
  - intros Hat. destruct (holding i lk) eqn:E; symmetry.
    + apply bool_decide_eq_true. by apply (holding_iff m i c l lk).
    + apply bool_decide_eq_false. rewrite <- (holding_iff m i c l lk) by done. by rewrite E.
  - by eapply ok_nodup, ok_cpus.
Qed.

(** Runs a sequence of accesses, each by the given CPU. *)
Fixpoint run (l : list (nat * act)) (m : mach) : option (string + mach) :=
  match l with
  | [] => Some (inr m)
  | (i, a) :: l' => r ← exec i a m; match r with inl e => Some (inl e) | inr m' => run l' m' end
  end.

Lemma run_reach l m m' : run l m = Some (inr m') -> rtc step m m'.
Proof.
  revert m. induction l as [|[i a] l IH]; simpl; intros m.
  - intros [= <-]. done.
  - destruct (exec i a m) as [[e|m1]|] eqn:E; simpl; intros H; simplify_eq.
    eapply rtc_l; [by econstructor|by apply IH].
Qed.

(** CPU 0 has lock 1 and is acquiring lock 0; CPU 1, which also wants lock 1,
    has spun once. *)
Definition contended : list (nat * act) :=
  [(0, Acquire 1); (0, Continue); (1, Acquire 1); (0, Continue); (1, Continue);
   (0, Acquire 0); (0, Continue)]%nat.
Definition contended_mach : mach :=
  match run contended (boot 2 2) with Some (inr m) => m | _ => boot 2 2 end.

Lemma spinlock_mutual_exclusion_witness :
  exists c lk, m_cpus contended_mach !! 0%nat = Some c /\
    m_locks contended_mach !! 1%nat = Some lk /\ owns c 1 /\ NoDup (c_held c).
Proof.
  do 2 eexists. split; [reflexivity|]. split; [reflexivity|]. split; [left; by constructor|].
  eapply (spinlock_mutual_exclusion 2 2 contended_mach 0 _ 1); [|reflexivity|reflexivity].
  apply (run_reach contended). reflexivity.
Defined.

(** C27. The locks' use of the interrupt flag: a CPU's noff is the number of
    its unfinished push_offs (locks held included), its interrupts are off
    while there is one, and the pop_off that ends the last of them puts the
    flag back to what it was before the first; acquire and release panic
    exactly on a lock that the CPU already holds or does not hold, and
    pop_off never does. *)
Theorem spinlock_interrupt_discipline ncpu nlock m i c :
  rtc step (boot ncpu nlock) m -> m_cpus m !! i = Some c ->
  c_noff c = Z.of_nat (depth c) /\
  ((0 < depth c)%nat -> c_sie c = false) /\
  (forall c', pop_off c = inr c' -> c_noff c = 1 -> c_sie c' = c_was c) /\
  (forall a msg, exec i a m = Some (inl msg) <->
     c_at c = Outside /\ exists l, (l < length (m_locks m))%nat /\
       (a = Acquire l /\ l ∈ c_held c /\ msg = "acquire"%string \/
        a = Release l /\ l ∉ c_held c /\ msg = "release"%string)).
Proof.
  intros Hm%reachable_ok Hi. assert (Hc : cpu_ok c) by by eapply ok_cpus.
  split_and!; [apply Hc|intros Hd; by apply (ok_off c Hc)| |].
  - unfold pop_off. destruct (c_sie c) eqn:Hs; [done|].
    intros c' E H1. rewrite H1 in E. simpl in E. simplify_eq. simpl.
    apply (ok_off c Hc). assert (H := ok_noff c Hc). lia.
  - intros a msg. by apply panics_iff.
Qed.

Lemma spinlock_interrupt_discipline_witness :
  exists c, m_cpus contended_mach !! 1%nat = Some c /\ c_noff c = 1 /\ c_sie c = false.
Proof.
  eexists. split; [reflexivity|]. split; [reflexivity|].
  eapply (spinlock_interrupt_discipline 2 2 contended_mach 1); [|reflexivity|].
  - apply (run_reach contended). reflexivity.
  - unfold depth. simpl. lia.
Defined.
