(* ===== verification/Sleeplock.v ===== *)
(** kernel/sleeplock.c on several CPUs, with sleep, wakeup, sched and the
    scheduler of kernel/proc.c: no wakeup is lost.

    [n] processes use one sleep-lock; each runs on a CPU of its own when it is
    not asleep, one step at a time, interleaved in any order. A spinlock is
    its holder; acquire blocks while another process has it (Spinlock.v shows
    what acquire and release do themselves), and acquire and release panic as
    the code does. The scheduler's side of a switch is [SlSched] (it releases
    the lock of the process that has switched to it) and [pick]. *)

From stdpp Require Import base numbers list strings decidable sets relations.
From S2P Require Import Prelude State.

(** Where a process is: in acquiresleep, in the sleep it calls, between the
    two functions, in releasesleep, in the wakeup it calls (at process [j]). *)
Inductive point :=
| Idle
| AsAcquire | AsTest | AsTake | AsPid | AsRelease
| SlAcquire | SlRelease | SlChan | SlState | SlSched | SlAsleep | SlTidy | SlRelProc | SlReacquire
| Inside
| RsAcquire | RsClear | RsPid | WkNext (j : nat) | WkTest (j : nat) | WkRelease (j : nat) | RsRelease.

#[export] Instance point_eq_dec : EqDecision point.
Proof. solve_decision. Defined.

(** The sleep-lock (its spinlock, locked and pid; process [i] has the pid [S i]), and of each process its
    spinlock, its state, whether it has the sleep-lock as its channel, and
    where it is. *)
Record sstate := mk_sstate {
  lk : option nat;
  locked : bool;
  pid : nat;
  plock : nat -> option nat;
  pstate : nat -> procstate;
  pchan : nat -> bool;
  at_ : nat -> point;
}.

Definition upd {A} (i : nat) (v : A) (f : nat -> A) : nat -> A := fun x => if decide (x = i) then v else f x.

Definition set_lk v s := mk_sstate v (locked s) (pid s) (plock s) (pstate s) (pchan s) (at_ s).
Definition set_locked v s := mk_sstate (lk s) v (pid s) (plock s) (pstate s) (pchan s) (at_ s).
Definition set_pid v s := mk_sstate (lk s) (locked s) v (plock s) (pstate s) (pchan s) (at_ s).
Definition set_plock j v s := mk_sstate (lk s) (locked s) (pid s) (upd j v (plock s)) (pstate s) (pchan s) (at_ s).
Definition set_pstate j v s := mk_sstate (lk s) (locked s) (pid s) (plock s) (upd j v (pstate s)) (pchan s) (at_ s).
Definition set_pchan j v s := mk_sstate (lk s) (locked s) (pid s) (plock s) (pstate s) (upd j v (pchan s)) (at_ s).
Definition goto i v s := mk_sstate (lk s) (locked s) (pid s) (plock s) (pstate s) (pchan s) (upd i v (at_ s)).

#[local] Arguments Nat.leb : simpl never.
#[local] Arguments Nat.ltb : simpl never.

Section Sleeplock.
Context (n : nat).

(** A step: nothing while blocked, a panic, or the state afterwards. *)
Definition outcome_ : Type := option (string + sstate).

Definition acquire_lk (i : nat) (p : point) (s : sstate) : outcome_ :=
  match lk s with
  | None => Some (inr (goto i p (set_lk (Some i) s)))
  | Some h => if decide (h = i) then Some (inl "acquire"%string) else None
  end.
Definition release_lk (i : nat) (p : point) (s : sstate) : outcome_ :=
  if decide (lk s = Some i) then Some (inr (goto i p (set_lk None s))) else Some (inl "release"%string).
Definition acquire_p (i j : nat) (p : point) (s : sstate) : outcome_ :=
  match plock s j with
  | None => Some (inr (goto i p (set_plock j (Some i) s)))
  | Some h => if decide (h = i) then Some (inl "acquire"%string) else None
  end.
Definition release_p (i j : nat) (p : point) (s : sstate) : outcome_ :=
  if decide (plock s j = Some i) then Some (inr (goto i p (set_plock j None s))) else Some (inl "release"%string).

Definition acquiresleep (i : nat) (s : sstate) : outcome_ :=
  match at_ s i with
  | AsAcquire => acquire_lk i AsTest s
  | AsTest => Some (inr (goto i (if locked s then SlAcquire else AsTake) s))
  | AsTake => Some (inr (goto i AsPid (set_locked true s)))
  | AsPid => Some (inr (goto i AsRelease (set_pid (S i) s)))
  | AsRelease => release_lk i Inside s
  | _ => None
  end.

(** sleep(lk, &lk->lk); sched()'s checks, its swtch, and the scheduler's
    release of the process's lock. *)
Definition sched (i : nat) (s : sstate) : outcome_ :=
  if negb (bool_decide (plock s i = Some i)) then Some (inl "sched p->lock"%string)
  else if bool_decide (lk s = Some i) then Some (inl "sched locks"%string)
  else if bool_decide (pstate s i = RUNNING) then Some (inl "sched running"%string)
  else Some (inr (goto i SlAsleep (set_plock i None s))).

Definition sleep (i : nat) (s : sstate) : outcome_ :=
  match at_ s i with
  | SlAcquire => acquire_p i i SlRelease s
  | SlRelease => release_lk i SlChan s
  | SlChan => Some (inr (goto i SlState (set_pchan i true s)))
  | SlState => Some (inr (goto i SlSched (set_pstate i SLEEPING s)))
  | SlSched => sched i s
  | SlTidy => Some (inr (goto i SlRelProc (set_pchan i false s)))
  | SlRelProc => release_p i i SlReacquire s
  | SlReacquire => acquire_lk i AsTest s      (* sleep returns; the loop tests again *)
  | _ => None
  end.

Definition wakeup (i : nat) (s : sstate) : outcome_ :=
  match at_ s i with
  | WkNext j =>
      if decide (j < n)%nat then
        if decide (j = i) then Some (inr (goto i (WkNext (S j)) s)) else acquire_p i j (WkTest j) s
      else Some (inr (goto i RsRelease s))
  | WkTest j =>
      Some (inr (goto i (WkRelease j)
        (if bool_decide (pstate s j = SLEEPING) && pchan s j then set_pstate j RUNNABLE s else s)))
  | WkRelease j => release_p i j (WkNext (S j)) s
  | _ => None
  end.

Definition releasesleep (i : nat) (s : sstate) : outcome_ :=
  match at_ s i with
  | RsAcquire => acquire_lk i RsClear s
  | RsClear => Some (inr (goto i RsPid (set_locked false s)))
  | RsPid => Some (inr (goto i (WkNext 0) (set_pid 0 s)))
  | RsRelease => release_lk i Idle s
  | _ => None
  end.

(** holdingsleep changes nothing between its acquire and its release: the
    answer, once the spinlock is free. *)
Definition holdingsleep (i : nat) (s : sstate) : option bool :=
  match lk s with
  | None => Some (locked s && (pid s =? S i)%nat)
  | Some _ => None
  end.

(** A process calls acquiresleep, and releasesleep when it has the lock. *)
Definition call (i : nat) (s : sstate) : outcome_ :=
  match at_ s i with
  | Idle => Some (inr (goto i AsAcquire s))
  | Inside => Some (inr (goto i RsAcquire s))
  | _ => None
  end.

Definition exec (i : nat) (s : sstate) : outcome_ :=
  match at_ s i with
  | Idle | Inside => call i s
  | AsAcquire | AsTest | AsTake | AsPid | AsRelease => acquiresleep i s
  | RsAcquire | RsClear | RsPid | RsRelease => releasesleep i s
  | WkNext _ | WkTest _ | WkRelease _ => wakeup i s
  | _ => sleep i s
  end.

(** A scheduler takes the lock of a runnable process and switches to it. *)
Definition pick (i : nat) (s : sstate) : option sstate :=
  if bool_decide (at_ s i = SlAsleep) && bool_decide (plock s i = None) && bool_decide (pstate s i = RUNNABLE)
  then Some (goto i SlTidy (set_pstate i RUNNING (set_plock i (Some i) s)))
  else None.

(** kill() of a process makes it runnable if it sleeps. *)
Definition kill (i : nat) (s : sstate) : option sstate :=
  if bool_decide (plock s i = None) && bool_decide (pstate s i = SLEEPING)
  then Some (set_pstate i RUNNABLE s) else None.

Inductive step : sstate -> sstate -> Prop :=
| step_exec i s s' : (i < n)%nat -> exec i s = Some (inr s') -> step s s'
| step_pick i s s' : (i < n)%nat -> pick i s = Some s' -> step s s'
| step_kill i s s' : (i < n)%nat -> kill i s = Some s' -> step s s'.

Definition initsleeplock (s : sstate) : sstate := set_pid 0 (set_locked false (set_lk None s)).

(** The processes run; the memory of the lock is what it happens to be until
    it is initialized. *)
Definition boot : sstate :=
  initsleeplock (mk_sstate (Some 0%nat) true 7 (fun _ => None) (fun _ => RUNNING) (fun _ => false) (fun _ => Idle)).

(** ** The invariant *)

Definition holds_lk (p : point) : bool :=
  match p with
  | AsTest | AsTake | AsPid | AsRelease | SlAcquire | SlRelease | RsClear | RsPid
  | WkNext _ | WkTest _ | WkRelease _ | RsRelease => true
  | _ => false
  end.

(** Process [i] at [p] has the lock of process [j]. *)
Definition holds_p (i j : nat) (p : point) : bool :=
  match p with
  | SlRelease | SlChan | SlState | SlSched | SlTidy | SlRelProc => bool_decide (i = j)
  | WkTest k | WkRelease k => bool_decide (k = j)
  | _ => false
  end.

(** It has the sleep-lock. *)
Definition owns (p : point) : bool :=
  match p with AsPid | AsRelease | Inside | RsAcquire | RsClear => true | _ => false end.

(** lk->pid is its pid. *)
Definition has_pid (p : point) : bool :=
  match p with AsRelease | Inside | RsAcquire | RsClear => true | _ => false end.

(** A wakeup at [p] that has still to look at process [i]. *)
Definition before (i : nat) (p : point) : bool :=
  match p with
  | RsPid => true
  | WkNext j | WkTest j => (j <=? i)%nat
  | WkRelease j => (j <? i)%nat
  | _ => false
  end.

(** Process [i] has given up the lock to sleep, or sleeps. *)
Definition waits_at (p : point) (st : procstate) : bool :=
  match p with
  | SlChan | SlState | SlSched => true
  | SlAsleep => bool_decide (st = SLEEPING)
  | _ => false
  end.
Definition waits (i : nat) (s : sstate) : bool := waits_at (at_ s i) (pstate s i).

(** The states a process can have at a point. *)
Definition state_ok (p : point) (st : procstate) (chan : bool) : Prop :=
  match p with
  | SlState => st = RUNNING /\ chan = true
  | SlSched => st = SLEEPING /\ chan = true
  | SlAsleep => (st = SLEEPING \/ st = RUNNABLE) /\ chan = true
  | _ => st = RUNNING
  end.

(** What the sleep-lock is where its spinlock is held. *)
Definition locked_ok (p : point) (b : bool) : Prop :=
  match p with
  | AsTake | RsPid => b = false
  | SlAcquire | SlRelease => b = true
  | _ => True
  end.

(** A wakeup does not lock its own process. *)
Definition point_ok (i : nat) (p : point) : Prop :=
  match p with WkTest j | WkRelease j => j <> i /\ (j < n)%nat | _ => True end.

Record Inv (s : sstate) : Prop := {
  inv_lk : forall i, (i < n)%nat -> (lk s = Some i <-> holds_lk (at_ s i) = true);
  inv_lk_range : forall i, lk s = Some i -> (i < n)%nat;
  inv_p : forall i j, (i < n)%nat -> (plock s j = Some i <-> holds_p i j (at_ s i) = true);
  inv_p_range : forall i j, plock s j = Some i -> (i < n)%nat;
  inv_owns : forall i j, (i < n)%nat -> (j < n)%nat -> owns (at_ s i) = true -> owns (at_ s j) = true -> i = j;
  inv_locked : locked s = true <-> exists i, (i < n)%nat /\ owns (at_ s i) = true;
  inv_pid : forall i, (i < n)%nat -> has_pid (at_ s i) = true -> pid s = S i;
  inv_state : forall i, (i < n)%nat -> state_ok (at_ s i) (pstate s i) (pchan s i);
  inv_test : forall i, (i < n)%nat -> locked_ok (at_ s i) (locked s);
  inv_point : forall i, (i < n)%nat -> point_ok i (at_ s i);
  inv_wake : forall i, (i < n)%nat -> waits i s = true ->
    locked s = true \/ exists w, (w < n)%nat /\ w <> i /\ before i (at_ s w) = true;
}.

Lemma sl_inv_boot : Inv boot.
Proof using Type.
  split; cbn; try done.
  - split; [done|]. by intros (i & _ & H).
Qed.

Lemma holds_p_self i j p : holds_p i j p = true -> i = j \/ exists k, (p = WkTest k \/ p = WkRelease k) /\ k = j.
Proof using Type. destruct p; cbn; try done; intros H%bool_decide_eq_true; eauto. Qed.

Lemma inv_lk_other s i k : Inv s -> (i < n)%nat -> (k < n)%nat -> k <> i ->
  holds_lk (at_ s i) = true -> holds_lk (at_ s k) = false.
Proof using Type.
  intros HI Hi Hk Hne H. apply (inv_lk s HI i Hi) in H.
  destruct (holds_lk (at_ s k)) eqn:E; [|done]. apply (inv_lk s HI k Hk) in E. congruence.
Qed.

Lemma inv_p_other s i k j : Inv s -> (i < n)%nat -> (k < n)%nat -> k <> i ->
  holds_p i j (at_ s i) = true -> holds_p k j (at_ s k) = false.
Proof using Type.
  intros HI Hi Hk Hne H. apply (inv_p s HI i j Hi) in H.
  destruct (holds_p k j (at_ s k)) eqn:E; [|done]. apply (inv_p s HI k j Hk) in E. congruence.
Qed.

Lemma inv_owner_unlocked s k : Inv s -> (k < n)%nat -> locked s = false -> owns (at_ s k) = false.
Proof using Type.
  intros HI Hk H. destruct (owns (at_ s k)) eqn:E; [|done].
  assert (locked s = true) by (apply (inv_locked s HI); eauto). congruence.
Qed.

Lemma locked_ok_free p b b' : holds_lk p = false -> locked_ok p b -> locked_ok p b'.
Proof using Type. by destruct p. Qed.

Lemma has_pid_owns p : has_pid p = true -> owns p = true.
Proof using Type. by destruct p. Qed.

(** Process [i] goes to [p]: what has to be seen of it alone. *)
Record Move (i : nat) (p : point) (s s' : sstate) : Prop := {
  mv_at : forall k, at_ s' k = if decide (k = i) then p else at_ s k;
  mv_lk : lk s' = if holds_lk p then Some i else if holds_lk (at_ s i) then None else lk s;
  mv_lk_free : holds_lk p = true -> holds_lk (at_ s i) = true \/ lk s = None;
  mv_p : forall j, plock s' j = if holds_p i j p then Some i else if holds_p i j (at_ s i) then None else plock s j;
  mv_p_free : forall j, holds_p i j p = true -> holds_p i j (at_ s i) = true \/ plock s j = None;
  mv_locked : locked s' = if owns p then true else if owns (at_ s i) then false else locked s;
  mv_locked_free : owns p = true -> owns (at_ s i) = true \/ locked s = false;
  mv_locked_holds : locked s' = locked s \/ holds_lk (at_ s i) = true;
  mv_pid : has_pid p = true -> pid s' = S i;
  mv_pid_other : pid s' = pid s \/ owns (at_ s i) = true \/ locked s = false;
  mv_state : state_ok p (pstate s' i) (pchan s' i);
  mv_state_other : forall k, (k < n)%nat -> k <> i -> state_ok (at_ s k) (pstate s' k) (pchan s' k);
  mv_test : locked_ok p (locked s');
  mv_point : point_ok i p;
  mv_wake : waits i s' = true -> waits i s = true \/ locked s' = true;
  mv_wake_other : forall k, (k < n)%nat -> k <> i -> waits k s' = true -> waits k s = true;
  mv_wake_locked : forall k, (k < n)%nat -> locked s = true -> locked s' = true \/ (k = i -> waits i s' = false) /\ (k <> i -> before k p = true);
  mv_wake_before : forall k, (k < n)%nat -> k <> i -> waits k s' = true -> before k (at_ s i) = true ->
    locked s' = true \/ before k p = true;
}.

Section Move.
Context (i : nat) (p : point) (s s' : sstate).
Context (HI : Inv s) (Hi : (i < n)%nat) (M : Move i p s s').

Lemma move_lk k : (k < n)%nat -> (lk s' = Some k <-> holds_lk (at_ s' k) = true).
Proof using HI Hi M.
  intros Hk. rewrite (mv_lk _ _ _ _ M), (mv_at _ _ _ _ M). case_decide as E.
  - subst k. destruct (holds_lk p); [done|]. destruct (holds_lk (at_ s i)) eqn:E; [done|].
    rewrite (inv_lk s HI i Hi), E. done.
  - pose proof (inv_lk s HI k Hk) as Hlk. destruct (holds_lk p) eqn:Ep.
    + destruct (mv_lk_free _ _ _ _ M Ep) as [Ha|Hf].
      * rewrite (inv_lk_other s i k HI Hi Hk E Ha). split; [congruence|done].
      * rewrite <- Hlk, Hf. split; congruence.
    + destruct (holds_lk (at_ s i)) eqn:Ea; [|done]. by rewrite (inv_lk_other s i k HI Hi Hk E Ea).
Qed.

Lemma move_p k j : (k < n)%nat -> (plock s' j = Some k <-> holds_p k j (at_ s' k) = true).
Proof using HI Hi M.
  intros Hk. rewrite (mv_p _ _ _ _ M), (mv_at _ _ _ _ M). case_decide as E.
  - subst k. destruct (holds_p i j p); [done|]. destruct (holds_p i j (at_ s i)) eqn:E; [done|].
    rewrite (inv_p s HI i j Hi), E. done.
  - pose proof (inv_p s HI k j Hk) as Hlk. destruct (holds_p i j p) eqn:Ep.
    + destruct (mv_p_free _ _ _ _ M j Ep) as [Ha|Hf].
      * rewrite (inv_p_other s i k j HI Hi Hk E Ha). split; [congruence|done].
      * rewrite <- Hlk, Hf. split; congruence.
    + destruct (holds_p i j (at_ s i)) eqn:Ea; [|done]. by rewrite (inv_p_other s i k j HI Hi Hk E Ea).
Qed.

Lemma move_owner k : (k < n)%nat -> k <> i -> owns p = true -> owns (at_ s k) = false.
Proof using HI Hi M.
  intros Hk Hne Hp. destruct (mv_locked_free _ _ _ _ M Hp) as [Ha|Hf].
  - destruct (owns (at_ s k)) eqn:E; [|done]. by destruct Hne; apply (inv_owns s HI).
  - by apply inv_owner_unlocked.
Qed.

Lemma move_locked : locked s' = true <-> exists k, (k < n)%nat /\ owns (at_ s' k) = true.
Proof using HI Hi M.
  rewrite (mv_locked _ _ _ _ M). destruct (owns p) eqn:Ep.
  - split; [intros _|done]. exists i. rewrite (mv_at _ _ _ _ M), decide_True by done. done.
  - destruct (owns (at_ s i)) eqn:Ea.
    + split; [done|]. intros (k & Hk & H). rewrite (mv_at _ _ _ _ M) in H. case_decide as E; [congruence|].
      destruct E. by apply (inv_owns s HI).
    + rewrite (inv_locked s HI). split; intros (k & Hk & H); exists k; (split; [done|]).
      * rewrite (mv_at _ _ _ _ M). case_decide; congruence.
      * rewrite (mv_at _ _ _ _ M) in H. case_decide; congruence.
Qed.

Lemma move_wake k : (k < n)%nat -> waits k s' = true ->
  locked s' = true \/ exists w, (w < n)%nat /\ w <> k /\ before k (at_ s' w) = true.
Proof using HI Hi M.
  intros Hk Hw. assert (waits k s = true \/ locked s' = true) as [Hs|?].
  { destruct (decide (k = i)) as [->|]; [by apply (mv_wake _ _ _ _ M)|left; by apply (mv_wake_other _ _ _ _ M)]. }
  2: by left.
  destruct (inv_wake s HI k Hk Hs) as [Hl|(w & Hwn & Hne & Hb)].
  - destruct (mv_wake_locked _ _ _ _ M k Hk Hl) as [?|[H1 H2]]; [by left|].
    destruct (decide (k = i)) as [->|E]; [|right; exists i; rewrite (mv_at _ _ _ _ M), decide_True by done; auto].
    by rewrite H1 in Hw.
  - destruct (decide (w = i)) as [->|E].
    + destruct (mv_wake_before _ _ _ _ M k Hk) as [?|?]; auto. right. exists i. by rewrite (mv_at _ _ _ _ M), decide_True by done.
    + right. exists w. by rewrite (mv_at _ _ _ _ M), decide_False by done.
Qed.

Lemma move_inv : Inv s'.
Proof using HI Hi M.
  split.
  - apply move_lk.
  - intros k. rewrite (mv_lk _ _ _ _ M). destruct (holds_lk p); [by intros [= ->]|].
    destruct (holds_lk (at_ s i)); [done|]. apply (inv_lk_range s HI).
  - intros. by apply move_p.
  - intros k j. rewrite (mv_p _ _ _ _ M). destruct (holds_p i j p); [by intros [= ->]|].
    destruct (holds_p i j (at_ s i)); [done|]. apply (inv_p_range s HI).
  - intros k j Hk Hj. rewrite !(mv_at _ _ _ _ M). repeat case_decide; subst; try done.
    + intros Hp. by rewrite (move_owner j) by done.
    + intros ? Hp. by rewrite (move_owner k) in * by done.
    + by apply (inv_owns s HI).
  - apply move_locked.
  - intros k Hk. rewrite (mv_at _ _ _ _ M). case_decide as E; [by subst; apply (mv_pid _ _ _ _ M)|].
    intros Hh. pose proof (has_pid_owns _ Hh) as Hok. destruct (mv_pid_other _ _ _ _ M) as [->|[Ho|Hl]].
    + by apply (inv_pid s HI).
    + by destruct E; apply (inv_owns s HI).
    + by rewrite (inv_owner_unlocked s k) in Hok.
  - intros k Hk. rewrite (mv_at _ _ _ _ M). case_decide; subst; [apply (mv_state _ _ _ _ M)|by apply (mv_state_other _ _ _ _ M)].
  - intros k Hk. rewrite (mv_at _ _ _ _ M). case_decide as E; [apply (mv_test _ _ _ _ M)|].
    pose proof (inv_test s HI k Hk) as Ht. destruct (mv_locked_holds _ _ _ _ M) as [->|Ha]; [done|].
    eapply locked_ok_free, Ht. by apply (inv_lk_other s i k).
  - intros k Hk. rewrite (mv_at _ _ _ _ M). case_decide; subst; [apply (mv_point _ _ _ _ M)|by apply (inv_point s HI)].
  - apply move_wake.
Qed.
End Move.


(** ** Each step keeps the invariant, and none panics *)

Definition good (r : outcome_) : Prop :=
  match r with None => True | Some (inl _) => False | Some (inr s') => Inv s' end.

Ltac mv E :=
  split; unfold waits; cbn; unfold upd; intros; rewrite ?E; cbn;
  repeat match goal with
  | H : context [decide (?a = ?b)] |- _ => case_decide; subst
  | |- context [decide (?a = ?b)] => case_decide; subst
  | H : bool_decide (?a = ?b) = true |- _ => apply bool_decide_eq_true in H; subst
  | |- context [bool_decide (?a = ?b)] => case_bool_decide; subst
  end; cbn in *; rewrite ?E in *; auto; try done; try congruence; try (tauto || match goal with H : forall j, plock _ j = _ <-> _ |- _ => apply H, bool_decide_eq_true; done end);
  cbn in *; rewrite ?Nat.leb_le, ?Nat.ltb_lt in *; try (lia || (right; lia)).

Ltac facts i E :=
  match goal with HI : Inv ?s, Hi : (i < n)%nat |- _ =>
    let Hlk := fresh "Hlk" in let Hp := fresh "Hp" in let Hst := fresh "Hst" in
    let Ht := fresh "Ht" in let Hpid := fresh "Hpid" in let Hpt := fresh "Hpt" in let Ho := fresh "Ho" in
    pose proof (inv_lk s HI i Hi) as Hlk; pose proof (fun j => inv_p s HI i j Hi) as Hp;
    pose proof (inv_state s HI i Hi) as Hst; pose proof (inv_test s HI i Hi) as Ht;
    pose proof (inv_point s HI i Hi) as Hpt; pose proof (inv_pid s HI i Hi) as Hpid; pose proof (inv_state s HI);
    pose proof (fun H => proj2 (inv_locked s HI) (ex_intro _ i (conj Hi H))) as Ho;
    rewrite E in Hlk, Hp, Hst, Ht, Hpt, Hpid, Ho; cbn in Hlk, Hp, Hst, Ht, Hpt, Hpid, Ho
  end.

Section Steps.
Context (s : sstate) (HI : Inv s).

Lemma acquire_lk_good i p : (i < n)%nat -> holds_lk (at_ s i) = false ->
  (lk s = None -> Inv (goto i p (set_lk (Some i) s))) -> good (acquire_lk i p s).
Proof using HI.
  intros Hi Hh HJ. unfold acquire_lk. destruct (lk s) as [h|] eqn:E; [|by apply HJ].
  case_decide; [subst h|done]. apply (inv_lk s HI i Hi) in E. cbn. congruence.
Qed.

Lemma release_lk_good i p : (i < n)%nat -> holds_lk (at_ s i) = true ->
  (lk s = Some i -> Inv (goto i p (set_lk None s))) -> good (release_lk i p s).
Proof using HI. intros Hi Hh HJ. apply (inv_lk s HI i Hi) in Hh. unfold release_lk. rewrite decide_True by done. exact (HJ Hh). Qed.

Lemma acquire_p_good i j p : (i < n)%nat -> holds_p i j (at_ s i) = false ->
  (plock s j = None -> Inv (goto i p (set_plock j (Some i) s))) -> good (acquire_p i j p s).
Proof using HI.
  intros Hi Hh HJ. unfold acquire_p. destruct (plock s j) as [h|] eqn:E; [|by apply HJ].
  case_decide; [subst h|done]. apply (inv_p s HI i j Hi) in E. cbn. congruence.
Qed.

Lemma release_p_good i j p : (i < n)%nat -> holds_p i j (at_ s i) = true ->
  (plock s j = Some i -> Inv (goto i p (set_plock j None s))) -> good (release_p i j p s).
Proof using HI. intros Hi Hh HJ. apply (inv_p s HI i j Hi) in Hh. unfold release_p. rewrite decide_True by done. exact (HJ Hh). Qed.

(** The lock of [j] is in other hands: [j] does not fall asleep meanwhile. *)
Lemma other_holds_p i j : (i < n)%nat -> (j < n)%nat -> j <> i -> plock s j = Some i ->
  (waits j s = true -> pstate s j = SLEEPING /\ pchan s j = true) /\ (pstate s j = SLEEPING -> at_ s j = SlAsleep).
Proof using HI.
  intros Hi Hj Hne Hl. pose proof (inv_state s HI j Hj) as Hst. pose proof (proj2 (inv_p s HI j j Hj)) as Hp.
  unfold waits. destruct (at_ s j); cbn in *; split; try congruence; try done.
  all: try (rewrite Hp in Hl by (by apply bool_decide_eq_true); congruence).
  all: try (destruct Hst; congruence).
  intros H%bool_decide_eq_true. tauto.
Qed.

Lemma astest_good i : (i < n)%nat -> at_ s i = AsTest -> good (acquiresleep i s).
Proof using HI.
  intros Hi E. facts i E. unfold acquiresleep. rewrite E. unfold good.
  destruct (locked s) eqn:El.
  - apply (move_inv i SlAcquire s); [done..|mv E].
  - apply (move_inv i AsTake s); [done..|mv E].
Qed.

Lemma sched_good i : (i < n)%nat -> at_ s i = SlSched -> good (sched i s).
Proof using HI.
  intros Hi E. facts i E. unfold sched.
  rewrite (bool_decide_eq_true_2 (plock s i = Some i)) by (by apply Hp, bool_decide_eq_true).
  rewrite bool_decide_eq_false_2 by (by rewrite Hlk). destruct Hst as [Hst Hc].
  rewrite bool_decide_eq_false_2 by congruence.
  apply (move_inv i SlAsleep s); [done..|mv E].
Qed.

Lemma wknext_good i j : (i < n)%nat -> at_ s i = WkNext j -> good (wakeup i s).
Proof using HI.
  intros Hi E. facts i E. unfold wakeup. rewrite E. repeat case_decide; subst.
  - apply (move_inv i (WkNext (S i)) s); [done..|mv E].
  - apply acquire_p_good; [done|by rewrite E|intros Hfree].
    apply (move_inv i (WkTest j) s); [done..|mv E].
  - apply (move_inv i RsRelease s); [done..|mv E].
Qed.

Lemma wktest_good i j : (i < n)%nat -> at_ s i = WkTest j -> good (wakeup i s).
Proof using HI.
  intros Hi E. facts i E. destruct Hpt as [Hne Hj]. unfold wakeup. rewrite E.
  assert (Hown : plock s j = Some i) by (by apply Hp, bool_decide_eq_true).
  destruct (other_holds_p i j Hi Hj Hne Hown) as [Hwt Hsl].
  destruct (bool_decide (pstate s j = SLEEPING) && pchan s j) eqn:Et; unfold good.
  - apply andb_true_iff in Et as [Et%bool_decide_eq_true Hc]. specialize (Hsl Et).
    apply (move_inv i (WkRelease j) s); [done..|mv E]; rewrite Hsl in *; cbn in *; auto; done.
  - assert (Hnw : waits j s = true -> False).
    { intros [H1 H2]%Hwt. by rewrite H1, H2, bool_decide_eq_true_2 in Et. }
    apply (move_inv i (WkRelease j) s); [done..|mv E].
    right. destruct (decide (k = j)) as [->|]; [done|lia].
Qed.

Lemma exec_good i : (i < n)%nat -> good (exec i s).
Proof using HI.
  intros Hi.  unfold exec.
  destruct (at_ s i) eqn:E.
  all: try (by apply astest_good).
  all: try (by eapply wknext_good).
  all: try (by eapply wktest_good).
  all: unfold call, acquiresleep, releasesleep, sleep, wakeup; rewrite E; facts i E.
  all: try (apply acquire_lk_good; [done|by rewrite E|intros Hfree]).
  all: try (apply release_lk_good; [done|by rewrite E|intros Hheld]).
  all: try (apply acquire_p_good; [done|by rewrite E|intros Hfree]).
  all: try (apply release_p_good; [done|by rewrite E; cbn; rewrite bool_decide_eq_true|intros Hheld]).
  all: try (by apply sched_good).
  all: unfold good; try done.
  all: try match goal with |- Inv (goto ?x ?p _) => apply (move_inv x p s); [done..|mv E] end.
Qed.

Lemma pick_inv i s' : (i < n)%nat -> pick i s = Some s' -> Inv s'.
Proof using HI.
  unfold pick. intros Hi. repeat case_bool_decide; try done. intros [= <-].
  match goal with E : at_ s i = SlAsleep |- _ => facts i E; apply (move_inv i SlTidy s); [done..|mv E] end.
Qed.

Lemma kill_inv i s' : (i < n)%nat -> kill i s = Some s' -> Inv s'.
Proof using HI.
  unfold kill. intros Hi. repeat case_bool_decide; try done. intros [= <-].
  assert (E : at_ s i = SlAsleep).
  { pose proof (inv_state s HI i Hi) as Hst. pose proof (proj2 (inv_p s HI i i Hi)) as Hp.
    destruct (at_ s i); cbn in *; try congruence; try (destruct Hst; congruence).
    rewrite Hp in * by (by apply bool_decide_eq_true). congruence. }
  facts i E. apply (move_inv i SlAsleep s); [done..|mv E].
Qed.

(** ** Progress *)

Definition moves (i : nat) : Prop := exists s', exec i s = Some (inr s') \/ pick i s = Some s'.

Lemma exec_moves i : (i < n)%nat -> exec i s <> None -> moves i.
Proof using HI.
  intros Hi Hne. pose proof (exec_good i Hi) as Hg. destruct (exec i s) as [[m|s']|] eqn:Ex; [done| |done].
  exists s'. by left.
Qed.

(** Who holds the lock of a process waits for nothing. *)
Lemma holder_p_moves h j : plock s j = Some h -> moves h.
Proof using HI.
  intros H. pose proof (inv_p_range s HI h j H) as Hh. apply exec_moves; [done|].
  apply (inv_p s HI h j Hh) in H. unfold exec, sleep, wakeup, sched, release_p, release_lk.
  destruct (at_ s h); cbn in *; try done; repeat case_match; done.
Qed.

(** Who holds the spinlock of the sleep-lock waits for such a process only. *)
Lemma holder_lk_moves h : lk s = Some h -> exists i, (i < n)%nat /\ moves i.
Proof using HI.
  intros H. pose proof (inv_lk_range s HI h H) as Hh.
  assert (exec h s <> None \/ exists j g, plock s j = Some g) as [?|(j & g & Hg)].
  - apply (inv_lk s HI h Hh) in H.
    unfold exec, acquiresleep, releasesleep, sleep, wakeup, acquire_p, release_p, release_lk.
    destruct (at_ s h); cbn in *; try done; repeat case_match; eauto.
  - exists h. split; [done|]. by apply exec_moves.
  - exists g. split; [by apply (inv_p_range s HI g j)|by apply (holder_p_moves g j)].
Qed.

(** With the spinlock free, who does not sleep moves. *)
Lemma awake_moves i : (i < n)%nat -> lk s = None -> at_ s i <> SlAsleep -> moves i.
Proof using HI.
  intros Hi Hlk Ha. apply exec_moves; [done|].
  assert (holds_lk (at_ s i) = false).
  { destruct (holds_lk (at_ s i)) eqn:E; [|done]. apply (inv_lk s HI i Hi) in E. congruence. }
  unfold exec, call, acquiresleep, releasesleep, sleep, wakeup, acquire_lk, release_p, sched. rewrite Hlk.
  destruct (at_ s i); cbn in *; try done; repeat case_match; done.
Qed.

Lemma some_moves : (0 < n)%nat -> exists i, (i < n)%nat /\ moves i.
Proof using HI.
  intros Hn. destruct (lk s) as [h|] eqn:Hlk; [by apply (holder_lk_moves h)|].
  destruct (decide (at_ s 0%nat = SlAsleep)) as [E|E]; [|exists 0%nat; split; [done|by apply awake_moves]].
  destruct (plock s 0%nat) as [h|] eqn:Hp.
  { exists h. split; [by apply (inv_p_range s HI h 0)|by apply (holder_p_moves h 0)]. }
  destruct (decide (pstate s 0%nat = RUNNABLE)) as [Er|Er].
  { exists 0%nat. split; [done|]. eexists. right. unfold pick. by rewrite !bool_decide_eq_true_2. }
  assert (Hst := inv_state s HI 0 Hn). rewrite E in Hst. cbn in Hst. destruct Hst as [[Hs|?] _]; [|done].
  destruct (inv_wake s HI 0 Hn) as [Hl|(w & Hw & _ & Hb)].
  - unfold waits. rewrite E. cbn. by rewrite bool_decide_eq_true_2.
  - apply (inv_locked s HI) in Hl as (i & Hi & Ho). exists i. split; [done|].
    apply awake_moves; [done..|]. intros Ha. by rewrite Ha in Ho.
  - assert (lk s = Some w); [|congruence]. apply (inv_lk s HI w Hw). by destruct (at_ s w).
Qed.
End Steps.

Lemma sl_inv_step s s' : Inv s -> step s s' -> Inv s'.
Proof using Type.
  intros HI Hst. destruct Hst as [i s s' Hi H|i s s' Hi H|i s s' Hi H]; [|exact (pick_inv _ HI i _ Hi H)|exact (kill_inv _ HI i _ Hi H)].
  pose proof (exec_good _ HI i Hi) as Hg. by rewrite H in Hg.
Qed.

Lemma sl_inv_reachable s : rtc step boot s -> Inv s.
Proof using Type.
  intros H. assert (HJ : forall a b, rtc step a b -> Inv a -> Inv b); [|by apply (HJ boot); [|apply sl_inv_boot]].
  intros a b Hab. induction Hab as [|? ? ? Hs _ IH]; [done|]. intros. apply IH. by eapply sl_inv_step.
Qed.

Lemma holdingsleep_owner s i : Inv s -> (i < n)%nat -> lk s = None -> (holdingsleep i s = Some true <-> owns (at_ s i) = true).
Proof using Type.
  intros HI Hi Hlk. unfold holdingsleep. rewrite Hlk.
  assert (Hop : forall k, (k < n)%nat -> owns (at_ s k) = true -> pid s = S k).
  { intros k Hk Ho. apply (inv_pid s HI k Hk). pose proof (proj2 (inv_lk s HI k Hk)) as Hl.
    destruct (at_ s k); cbn in *; try done. rewrite Hl in Hlk; done. }
  split.
  - intros [= [Hl Hp%Nat.eqb_eq]%andb_true_iff]. apply (inv_locked s HI) in Hl as (k & Hk & Ho).
    rewrite (Hop k Hk Ho) in Hp. by injection Hp as <-.
  - intros Ho. rewrite (Hop i Hi Ho), Nat.eqb_refl. f_equal.
    rewrite (proj2 (inv_locked s HI)); [done|by exists i].
Qed.

(** C12. However the [n] processes that use a sleep-lock are interleaved, with
    wakeups, the scheduler and kill among them: at most one process has the
    lock, and holdingsleep says who; a process that sleeps on the lock does so
    while the lock is taken or while a releasesleep that is to wake it is
    under way; acquire, release and sched do not panic; and some process can
    go on, so the wakeup a sleeper needs is never lost. *)
Theorem sleeplock_no_lost_wakeup s : rtc step boot s -> (0 < n)%nat ->
  (forall i j, (i < n)%nat -> (j < n)%nat -> at_ s i = Inside -> at_ s j = Inside -> i = j) /\
  (forall i, (i < n)%nat -> lk s = None -> holdingsleep i s = Some (bool_decide (at_ s i = Inside \/ at_ s i = RsAcquire))) /\
  (forall i, (i < n)%nat -> pstate s i = SLEEPING ->
     locked s = true \/ exists w, (w < n)%nat /\ w <> i /\ before i (at_ s w) = true) /\
  (forall i m, (i < n)%nat -> exec i s <> Some (inl m)) /\
  (exists i s', (i < n)%nat /\ (exec i s = Some (inr s') \/ pick i s = Some s')).
Proof using Type.
  intros Hr Hn. pose proof (sl_inv_reachable s Hr) as HI. split_and!.
  - intros i j Hi Hj Ei Ej. by apply (inv_owns s HI); rewrite ?Ei, ?Ej.
  - intros i Hi Hlk. pose proof (holdingsleep_owner s i HI Hi Hlk) as [H1 H2].
    assert (Hnl : holds_lk (at_ s i) = false).
    { destruct (holds_lk (at_ s i)) eqn:E; [|done]. apply (inv_lk s HI i Hi) in E. congruence. }
    unfold holdingsleep in *. rewrite Hlk in *. f_equal. destruct (locked s && (pid s =? S i)%nat).
    + specialize (H1 eq_refl). rewrite bool_decide_eq_true_2; [done|]. destruct (at_ s i); cbn in *; auto; done.
    + rewrite bool_decide_eq_false_2; [done|]. intros [E|E]; rewrite E in H2; by specialize (H2 eq_refl).
  - intros i Hi Hs. apply (inv_wake s HI i Hi). pose proof (inv_state s HI i Hi) as Hst. unfold waits.
    destruct (at_ s i); cbn in *; try congruence; try (destruct Hst; congruence); try done. by rewrite bool_decide_eq_true_2.
  - intros i m Hi E. pose proof (exec_good s HI i Hi) as Hg. by rewrite E in Hg.
  - destruct (some_moves s HI Hn) as (i & Hi & s' & H). eauto.
Qed.
End Sleeplock.

(** ** A run of two processes *)

Fixpoint run (n : nat) (is_ : list nat) (s : sstate) : option sstate :=
  match is_ with
  | [] => Some s
  | i :: is' =>
      if decide (i < n)%nat then
        match exec n i s with
        | Some (inr s') => run n is' s'
        | _ => None
        end
      else None
  end.

Lemma run_reachable n is_ s s' : run n is_ s = Some s' -> rtc (step n) s s'.
Proof.
  revert s. induction is_ as [|i is' IH]; cbn; intros s H; [by injection H as ->|].
  case_decide; [|done]. destruct (exec n i s) as [[?|s1]|] eqn:E; try done.
  eapply rtc_l; [by eapply step_exec|by apply IH].
Qed.

(** Process 0 takes the lock; process 1 finds it taken and sleeps. *)
Definition contended : list nat := replicate 6 0%nat ++ replicate 8 1%nat.

Lemma sleeplock_no_lost_wakeup_witness : exists s, run 2 contended boot = Some s /\
  pstate s 1 = SLEEPING /\ locked s = true /\ at_ s 0 = Inside /\
  exists i s', (i < 2)%nat /\ (exec 2 i s = Some (inr s') \/ pick i s = Some s').
Proof.
  destruct (run 2 contended boot) as [s|] eqn:E; [|by vm_compute in E].
  exists s. split; [done|].
  pose proof (sleeplock_no_lost_wakeup 2 s (run_reachable 2 contended boot s E) ltac:(lia)) as (_ & _ & _ & _ & H).
  split_and!; [..|exact H]; vm_compute in E; injection E as <-; reflexivity.
Defined.
