(* ===== verification/User.v ===== *)
(** User processes: the world a program of user/ sees through its system
    calls, and the calls the text tools make.

    What a descriptor delivers is a stream of chunks: each [read] returns at
    most one chunk, as pipes and the console do, or fails. The theorems about
    programs quantify over the streams, so over every way the kernel may cut
    the input into reads. [u_wres] is what the coming [write]s return (when it
    is empty they write everything). A program that calls [exit] does not
    return: its outcome is [Panic "exit"] with the status in the world. *)

From stdpp Require Import base numbers list gmap strings.
From S2P Require Import Prelude Params Mem.

Inductive chunk := Data (bytes : list Z) | ReadError.

Record uworld := mk_uworld {
  u_fds : gmap Z (list chunk);            (* open descriptors *)
  u_files : gmap (list Z) (list chunk);   (* what open finds, by path *)
  u_out : list (Z * list Z);              (* what has been written *)
  u_wres : list Z;
  u_status : option Z;
}.

Definition set_u_fds v w := mk_uworld v (u_files w) (u_out w) (u_wres w) (u_status w).
Definition set_u_out v w := mk_uworld (u_fds w) (u_files w) v (u_wres w) (u_status w).
Definition set_u_wres v w := mk_uworld (u_fds w) (u_files w) (u_out w) v (u_status w).
Definition set_u_status v w := mk_uworld (u_fds w) (u_files w) (u_out w) (u_wres w) v.

Definition U : Type -> Type := M uworld.

(** ** System calls *)

Definition exit {A} (status : Z) : U A := fun w => Panic "exit" (set_u_status (Some status) w).

(** One read of at most [n] bytes from a stream: the result, the bytes and
    the stream that is left. *)
Definition read_stream (n : Z) (st : list chunk) : Z * list Z * list chunk :=
  if n <=? 0 then (0, [], st)
  else
    match st with
    | [] => (0, [], [])
    | ReadError :: st => (-1, [], st)
    | Data d :: st =>
        let k := Z.to_nat n in
        (Z.of_nat (length (take k d)), take k d,
         if (length d <=? k)%nat then st else Data (drop k d) :: st)
    end.

(** The result of read and the bytes it stores. *)
Definition read (fd n : Z) : U (Z * list Z) :=
  let! fds := gets u_fds in
  match fds !! fd with
  | None => ret (-1, [])
  | Some st =>
      let '(r, bytes, st) := read_stream n st in
      modify (set_u_fds (<[fd := st]> fds)) ;;
      ret (r, bytes)
  end.

Definition write (fd : Z) (bytes : list Z) : U Z :=
  let! fds := gets u_fds in
  match fds !! fd with
  | None => ret (-1)
  | Some _ =>
      let! rs := gets u_wres in
      match rs with
      | [] =>
          modify (fun w => set_u_out (u_out w ++ [(fd, bytes)]) w) ;;
          ret (Z.of_nat (length bytes))
      | r :: rs =>
          modify (fun w => set_u_wres rs (set_u_out (u_out w ++ [(fd, take (Z.to_nat r) bytes)]) w)) ;;
          ret r
      end
  end.

(** The lowest descriptor that is not open. *)
Definition fdalloc (fds : gmap Z (list chunk)) : option Z :=
  snd <$> list_find (fun fd => fds !! fd = None) (Z.of_nat <$> seq 0 (Z.to_nat NOFILE)).

Definition open (path : list Z) : U Z :=
  let! w := get in
  match u_files w !! path, fdalloc (u_fds w) with
  | Some st, Some fd => modify (set_u_fds (<[fd := st]> (u_fds w))) ;; ret fd
  | _, _ => ret (-1)
  end.

Definition close (fd : Z) : U Z :=
  let! fds := gets u_fds in
  match fds !! fd with
  | None => ret (-1)
  | Some _ => modify (set_u_fds (delete fd fds)) ;; ret 0
  end.

(** ** Streams *)

(** The bytes of a stream up to its end or an error, and whether there is
    one. [Data []] is an end of file, as the console's control-D. *)
Fixpoint stream_bytes (st : list chunk) : list Z :=
  match st with
  | [] => []
  | ReadError :: _ => []
  | Data [] :: _ => []
  | Data d :: st => d ++ stream_bytes st
  end.

Fixpoint stream_fails (st : list chunk) : bool :=
  match st with
  | [] => false
  | ReadError :: _ => true
  | Data [] :: _ => false
  | Data _ :: st => stream_fails st
  end.

(** A bound on the reads that a stream can answer with data. *)
Definition stream_size (st : list chunk) : nat :=
  foldr (fun c n => match c with Data d => (S (length d) + n)%nat | ReadError => S n end) 0%nat st.

Definition input (fd : Z) (w : uworld) : list chunk := default [] (u_fds w !! fd).

(** What has been written to a descriptor. *)
Definition output (fd : Z) (w : uworld) : list Z := concat (snd <$> filter (fun o => o.1 = fd) (u_out w)).

(** Every descriptor a program writes to is open and writes do not fail. *)
Definition writes_ok (w : uworld) : Prop := u_wres w = [] /\ is_Some (u_fds w !! 1) /\ is_Some (u_fds w !! 2).

(** A read: no data at the end or at an error; otherwise a non-empty prefix
    of what is left. *)
Lemma read_stream_spec n st :
  0 < n ->
  match read_stream n st with
  | (r, bytes, st') =>
      (r <= 0 /\ bytes = [] /\ stream_bytes st = [] /\ (r < 0 <-> stream_fails st = true)) \/
      (r = Z.of_nat (length bytes) /\ 0 < r <= n /\ stream_bytes st = bytes ++ stream_bytes st' /\
       stream_fails st = stream_fails st' /\ (stream_size st' < stream_size st)%nat)
  end.
Proof.
  intros Hn. unfold read_stream. destruct (Z.leb_spec n 0); [lia|].
  destruct st as [|[d|] st]; [left; done| |left; cbn; split_and!; try done; lia].
  destruct d as [|c d].
  { left. rewrite take_nil. cbn. split_and!; try done; lia. }
  right. set (e := c :: d). assert (He : (0 < length e)%nat) by (cbn; lia).
  assert (Hs : forall l st, l <> [] -> stream_bytes (Data l :: st) = l ++ stream_bytes st /\
    stream_fails (Data l :: st) = stream_fails st) by (intros [|x l]; done).
  destruct (Hs e st) as [Eb Ef]; [done|]. rewrite Eb, Ef.
  assert (Esz : forall l, stream_size (Data l :: st) = (S (length l) + stream_size st)%nat) by done.
  destruct (Nat.leb_spec (length e) (Z.to_nat n)) as [Hle|Hgt].
  - rewrite take_ge by lia. split_and!; [done|lia|lia|done|done|]. rewrite Esz. lia.
  - assert (Hd : drop (Z.to_nat n) e <> []) by (intros E; apply (f_equal length) in E; rewrite length_drop in E; change (length []) with 0%nat in E; lia).
    destruct (Hs (drop (Z.to_nat n) e) st Hd) as [-> ->].
    rewrite length_take. split_and!; [done|lia|lia| |done|].
    + by rewrite app_assoc, take_drop.
    + rewrite !Esz, length_drop. lia.
Qed.
