(* ===== verification/ULib.v ===== *)
(** user/ulib.c: the C library of the user programs.

    A [char *] that is only read is the list of the bytes from it to the end
    of its array; a function that runs past that end has no result. memmove,
    memset and memcmp work on memory. *)

From stdpp Require Import base numbers list gmap strings.
From S2P Require Import Prelude Params Mem KString User.

Fixpoint strlen (s : list Z) : option nat :=
  match s with
  | [] => None
  | c :: s => if c =? 0 then Some 0%nat else S <$> strlen s
  end.

Fixpoint strcmp (p q : list Z) : option Z :=
  match p, q with
  | a :: p', b :: q' =>
      if negb (a =? 0) && (a =? b) then strcmp p' q' else Some (u8 a - u8 b)
  | _, _ => None
  end.

(** The index of the first [c]; [Some None] where the code returns 0. *)
Fixpoint strchr (s : list Z) (c : Z) : option (option nat) :=
  match s with
  | [] => None
  | x :: s =>
      if x =? 0 then Some None
      else if x =? c then Some (Some 0%nat)
      else match strchr s c with Some (Some i) => Some (Some (S i)) | r => r end
  end.

(** The bytes strcpy stores. *)
Fixpoint strcpy (t : list Z) : option (list Z) :=
  match t with
  | [] => None
  | c :: t => if c =? 0 then Some [0] else cons c <$> strcpy t
  end.

(** An [int] that overflows is undefined. *)
Fixpoint atoi_loop (n : Z) (s : list Z) : option Z :=
  match s with
  | [] => None
  | c :: s =>
      if (48 <=? c) && (c <=? 57)
      then if n * 10 + c - 48 <? 2 ^ 31 then atoi_loop (n * 10 + c - 48) s else None
      else Some n
  end.

Definition atoi (s : list Z) : option Z := atoi_loop 0 s.

Definition memset (dst c n : Z) (m : memory) : memory := memset_loop (Z.to_nat n) dst c m.

Definition memmove (dst src n : Z) (m : memory) : memory :=
  if dst <? src then memmove_up (Z.to_nat n) dst src m
  else memmove_down (Z.to_nat n) (dst + n) (src + n) m.

Fixpoint memcmp_loop (n : nat) (p q : Z) (m : memory) : Z :=
  match n with
  | O => 0
  | S n => if negb (rd m p =? rd m q) then rd m p - rd m q else memcmp_loop n (p + 1) (q + 1) m
  end.
Definition memcmp (p q n : Z) (m : memory) : Z := memcmp_loop (Z.to_nat n) p q m.

Definition memcpy (dst src n : Z) (m : memory) : memory := memmove dst src n m.

(** One round of gets: [buf] holds the bytes stored so far. *)
Definition gets_round (max : Z) (buf : list Z) : U (list Z + list Z) :=
  if Z.of_nat (length buf) + 1 <? max
  then
    let! r := read 0 1 in
    if r.1 <? 1 then ret (inr buf)
    else
      let! c := of_option (r.2 !! 0%nat) in
      let buf := buf ++ [c] in
      if (c =? 10) || (c =? 13) then ret (inr buf) else ret (inl buf)
  else ret (inr buf).

(** The bytes that gets stores in its buffer, the NUL included. *)
Definition gets (max : Z) : U (list Z) :=
  let! buf := loop (S (Z.to_nat (max - 1))) (gets_round max) [] in ret (buf ++ [0]).

(** start: main's return is an exit. *)
Definition start {A} (main : U unit) : U A := main ;; exit 0.

(** ** Strings *)

(** The bytes of an array that holds the string [l]. *)
Definition holds (l rest : list Z) : list Z := l ++ 0 :: rest.
Definition no_nul (l : list Z) : Prop := Forall (fun c => c <> 0) l.

(** The string that starts at [l]. *)
Fixpoint cstring (l : list Z) : list Z :=
  match l with
  | [] => []
  | c :: l => if c =? 0 then [] else c :: cstring l
  end.

Lemma cstring_holds l rest : no_nul l -> cstring (l ++ 0 :: rest) = l.
Proof. induction 1 as [|c l Hc _ IH]; [done|]. cbn. destruct (Z.eqb_spec c 0); [done|]. by rewrite IH. Qed.

Lemma strlen_holds l rest : no_nul l -> strlen (holds l rest) = Some (length l).
Proof.
  unfold holds. induction 1 as [|c l Hc _ IH]; [done|]. cbn. destruct (Z.eqb_spec c 0); [done|]. by rewrite IH.
Qed.

Lemma strcmp_holds l rest l' rest' :
  no_nul l -> no_nul l' -> is_bytes l -> is_bytes l' ->
  exists r, strcmp (holds l rest) (holds l' rest') = Some r /\ (r = 0 <-> l = l').
Proof.
  unfold holds. intros Hl. revert l'. induction Hl as [|c l Hc Hl IH]; intros l' Hl' Hb Hb'.
  - destruct l' as [|c' l']; cbn.
    + by exists 0.
    + apply Forall_cons in Hl' as [? _]. apply Forall_cons in Hb' as [? _]. exists (u8 0 - u8 c'). split; [done|].
      rewrite !u8_small by lia. split; [lia|done].
  - apply Forall_cons in Hb as [Hcb Hb]. destruct l' as [|c' l'].
    + cbn. destruct (Z.eqb_spec c 0); [done|]. cbn [negb andb]. exists (u8 c - u8 0). split; [done|].
      rewrite !u8_small by lia. split; [lia|done].
    + apply Forall_cons in Hl' as [? Hl']. apply Forall_cons in Hb' as [? Hb']. cbn.
      destruct (Z.eqb_spec c 0); [done|]. cbn [negb andb]. destruct (Z.eqb_spec c c') as [->|Hne].
      * destruct (IH l' Hl' Hb Hb') as (r & -> & Hr). exists r. split; [done|]. rewrite Hr. split; [by intros ->|by intros [=]].
      * exists (u8 c - u8 c'). split; [done|]. rewrite !u8_small by done. split; [lia|by intros [=]].
Qed.

Lemma strchr_holds l rest c :
  no_nul l -> c <> 0 ->
  strchr (holds l rest) c = Some (fst <$> list_find (fun x => x = c) l).
Proof.
  unfold holds. intros Hl Hc. induction Hl as [|x l Hx _ IH]; [done|]. cbn.
  destruct (Z.eqb_spec x 0); [done|]. destruct (Z.eqb_spec x c) as [->|Hne].
  - by rewrite decide_True.
  - rewrite decide_False by done. rewrite IH. by destruct (list_find (fun x => x = c) l) as [[i y]|].
Qed.

Lemma strcpy_holds l rest : no_nul l -> strcpy (holds l rest) = Some (l ++ [0]).
Proof.
  unfold holds. induction 1 as [|c l Hc _ IH]; [done|]. cbn. destruct (Z.eqb_spec c 0); [done|]. by rewrite IH.
Qed.

(** The user library's strlen, strcmp, strchr and strcpy on
    NUL-terminated strings: the length, whether two strings are equal, the
    first occurrence of a character, a copy with its NUL; memmove copies as if
    through a temporary buffer, however the two ranges overlap, and changes
    nothing outside the destination. *)
Theorem ulib_strings l rest l' rest' c dst src n m x :
  no_nul l -> no_nul l' -> is_bytes l -> is_bytes l' -> c <> 0 -> 0 <= n ->
  strlen (holds l rest) = Some (length l) /\
  (exists r, strcmp (holds l rest) (holds l' rest') = Some r /\ (r = 0 <-> l = l')) /\
  strchr (holds l rest) c = Some (fst <$> list_find (fun x => x = c) l) /\
  strcpy (holds l rest) = Some (l ++ [0]) /\
  rd (memmove dst src n m) x = if decide (dst <= x < dst + n) then rd m (src + (x - dst)) else rd m x.
Proof.
  intros Hl Hl' Hb Hb' Hc Hn. split_and!.
  - by apply strlen_holds.
  - by apply strcmp_holds.
  - by apply strchr_holds.
  - by apply strcpy_holds.
  - unfold memmove. destruct (Z.ltb_spec dst src) as [Hd|Hd].
    + rewrite rd_memmove_up by lia. by rewrite Z2Nat.id.
    + rewrite rd_memmove_down by lia. rewrite Z2Nat.id by done.
      repeat case_decide; try lia; try done; f_equal; lia.
Qed.

(** "ls" and "cat" *)
Lemma ulib_strings_witness :
  strlen (holds [108; 115] []) = Some 2%nat.
Proof.
  destruct (ulib_strings [108; 115] [] [99; 97; 116] [] 47 0x1000 0x1002 8 ∅ 0x1001) as (H & _).
  - repeat constructor; lia.
  - repeat constructor; lia.
  - repeat constructor; lia.
  - repeat constructor; lia.
  - lia.
  - lia.
  - exact H.
Defined.

(** ** gets *)

Definition is_eol (c : Z) : bool := (c =? 10) || (c =? 13).

(** The first line of [l], its end included, at most [k] bytes. *)
Fixpoint line_of (k : nat) (l : list Z) : list Z :=
  match k, l with
  | S k, c :: l => if is_eol c then [c] else c :: line_of k l
  | _, _ => []
  end.

(** The line is complete: it has its end, or [k] bytes. *)
Definition line_full (k : nat) (l : list Z) : Prop :=
  length (line_of k l) = k \/ exists c, last (line_of k l) = Some c /\ is_eol c = true.

Lemma length_line_of k l : (length (line_of k l) <= k)%nat.
Proof. revert l. induction k as [|k IH]; intros [|c l]; cbn; try lia. destruct (is_eol c); cbn; [lia|]. specialize (IH l). lia. Qed.

(** One read of one byte. *)
Lemma read_byte w fd st :
  u_fds w !! fd = Some st ->
  match stream_bytes st with
  | [] => exists r st', r < 1 /\ read fd 1 w = Ret (r, []) (set_u_fds (<[fd := st']> (u_fds w)) w)
  | c :: l => exists st', stream_bytes st' = l /\ stream_fails st' = stream_fails st /\
      read fd 1 w = Ret (1, [c]) (set_u_fds (<[fd := st']> (u_fds w)) w)
  end.
Proof.
  intros Hst. pose proof (read_stream_spec 1 st ltac:(lia)) as Hs.
  assert (Er : read fd 1 w = Ret (read_stream 1 st).1 (set_u_fds (<[fd := (read_stream 1 st).2]> (u_fds w)) w)).
  { unfold read. rewrite run_gets, Hst. by destruct (read_stream 1 st) as [[r b] st']. }
  destruct (read_stream 1 st) as [[r b] st'].
  destruct Hs as [(Hr & -> & -> & _)|(-> & Hr & Eb & Ef & _)].
  - exists r, st'. split; [lia|exact Er].
  - rewrite Eb. destruct b as [|c [|d b]]; [cbn in Hr; lia| |cbn in Hr; lia]. cbn [app]. exists st'. done.
Qed.

Lemma gets_loop max k : forall buf w st,
  u_fds w !! 0 = Some st -> Z.of_nat (length buf) + Z.of_nat k + 1 = max ->
  exists w' st', loop (S k) (gets_round max) buf w = Ret (buf ++ line_of k (stream_bytes st)) w' /\
    w' = set_u_fds (<[0 := st']> (u_fds w)) w /\
    (line_full k (stream_bytes st) ->
     stream_bytes st' = drop (length (line_of k (stream_bytes st))) (stream_bytes st)).
Proof.
  induction k as [|k IH]; intros buf w st Hst Hlen; cbn [loop]; unfold gets_round at 1.
  - destruct (Z.ltb_spec (Z.of_nat (length buf) + 1) max); [lia|]. rewrite run_ret.
    exists w, st. rewrite app_nil_r. split; [done|]. split; [by rewrite insert_id by done; destruct w|done].
  - destruct (Z.ltb_spec (Z.of_nat (length buf) + 1) max); [|lia]. pose proof (read_byte w 0 st Hst) as Hr.
    destruct (stream_bytes st) as [|c l] eqn:Eb.
    + destruct Hr as (r & st' & Hr & Er). rewrite bind_assoc, (bind_Ret _ _ _ _ _ Er). cbn [fst].
      destruct (Z.ltb_spec r 1); [|lia]. rewrite run_ret. eexists _, st'. rewrite app_nil_r. split; [done|]. split; [done|].
      intros [E|(d & E & _)]; done.
    + destruct Hr as (st' & Eb' & Ef & Er). rewrite bind_assoc, (bind_Ret _ _ _ _ _ Er). cbn [fst snd lookup list_lookup].
      destruct (Z.ltb_spec 1 1); [lia|]. cbn [of_option]. rewrite bind_assoc, run_ret. fold (is_eol c). cbn [line_of].
      destruct (is_eol c) eqn:Ec; rewrite run_ret.
      * eexists _, st'. split; [done|]. split; [done|]. intros _. cbn. by rewrite drop_0.
      * destruct (IH (buf ++ [c]) (set_u_fds (<[0 := st']> (u_fds w)) w) st') as (w' & st'' & E & Ew & Hd).
        { cbn. apply lookup_insert_eq. }
        { rewrite length_app. cbn [length]. lia. }
        rewrite Eb' in *. exists w', st''. rewrite <- app_assoc in E. split; [exact E|]. split.
        { rewrite Ew. cbn. by rewrite insert_insert_eq. }
        intros Hf. cbn [length drop]. apply Hd. destruct Hf as [Hf|(d & Hl & Hd')].
        { left. cbn [line_of] in Hf. rewrite Ec in Hf. cbn in Hf. lia. }
        { right. exists d. split; [|done]. cbn [line_of] in Hl. rewrite Ec in Hl.
          destruct (line_of k l) eqn:El; [cbn in Hl; injection Hl as <-; congruence|]. by rewrite last_cons_cons in Hl. }
Qed.

(** gets, whatever reads the input arrives in: it stores the first line
    of the input, with its newline or carriage return, cut at max-1 bytes, and
    a NUL, never more than max bytes; when it stored a whole line, or as much
    of one as fits, the input goes on right behind it. *)
Theorem gets_reads_line max w st :
  u_fds w !! 0 = Some st -> 1 <= max ->
  exists st', let line := line_of (Z.to_nat (max - 1)) (stream_bytes st) in
    gets max w = Ret (line ++ [0]) (set_u_fds (<[0 := st']> (u_fds w)) w) /\
    (length line + 1 <= Z.to_nat max)%nat /\
    (line_full (Z.to_nat (max - 1)) (stream_bytes st) ->
     stream_bytes st' = drop (length line) (stream_bytes st)).
Proof.
  intros Hst Hmax. set (k := Z.to_nat (max - 1)).
  destruct (gets_loop max k [] w st Hst ltac:(unfold k; cbn; lia)) as (w' & st' & E & -> & Hd).
  exists st'. split_and!; [| |exact Hd].
  - unfold gets. fold k. by rewrite (bind_Ret _ _ _ _ _ E).
  - pose proof (length_line_of k (stream_bytes st)). unfold k in *. lia.
Qed.

(** "ab", then "c\nd" arriving later *)
Lemma gets_reads_line_witness :
  exists w w', gets 100 w = Ret [97; 98; 99; 10; 0] w'.
Proof.
  pose (w := mk_uworld {[ 0 := [Data [97; 98]; Data [99; 10; 100]] ]} ∅ [] [] None).
  destruct (gets_reads_line 100 w [Data [97; 98]; Data [99; 10; 100]]) as (st' & E & _).
  - reflexivity.
  - lia.
  - exists w. eexists. exact E.
Defined.
