(* ===== verification/UPrintf.v ===== *)
(** user/printf.c: formatted output of the user programs, one write per
    character. *)

From stdpp Require Import base numbers list gmap strings.
From S2P Require Import Prelude Params Mem Digits User ULib.

Definition digits : list Z := bytes_of "0123456789ABCDEF".

Definition putc (fd c : Z) : U unit := write fd [u8 c] ;; ret tt.

(** The do-while loop of printint: the characters in [buf], least significant
    digit first; a store outside [buf[16]] is undefined. *)
Fixpoint printint_digits (fuel : nat) (x base : Z) (buf : list Z) : U (list Z) :=
  match fuel with
  | O => fun _ => NoFuel
  | S f =>
      if (length buf <? 16)%nat then
        let! d := of_option (digits !! Z.to_nat (x mod base)) in
        let buf := buf ++ [d] in
        if x / base =? 0 then ret buf else printint_digits f (x / base) base buf
      else undef
  end.

(** [xx] is an int, [x] a uint. *)
Definition printint (fd xx base : Z) (sgn : bool) : U unit :=
  let neg := sgn && (xx <? 0) in
  let x := if neg then u32 (- xx) else u32 xx in
  let! buf := printint_digits 33 x base [] in
  let! buf := (if neg
               then if (length buf <? 16)%nat then ret (buf ++ [45]) else undef
               else ret buf) in
  for_each (reverse buf) (putc fd).

Definition printptr (fd x : Z) : U unit :=
  putc fd 48 ;; putc fd 120 ;;
  for_each (seq 0 16) (fun i =>
    let! d := of_option (digits !! Z.to_nat (Z.shiftr (u64 (Z.shiftl x (4 * Z.of_nat i))) 60)) in
    putc fd d).

(** Arguments: integers, and strings (None for null). *)
Inductive uarg := AInt (v : Z) | AStr (s : option (list Z)).

Definition arg_int (args : list uarg) : U (Z * list uarg) :=
  match args with AInt v :: l => ret (v, l) | _ => undef end.
Definition arg_str (args : list uarg) : U (option (list Z) * list uarg) :=
  match args with AStr v :: l => ret (v, l) | _ => undef end.

(** [va_arg(ap, int)] or [va_arg(ap, uint64)] passed as the int of
    printint. *)
Definition print_int (fd : Z) (args : list uarg) (base : Z) (sgn : bool) : U (list uarg) :=
  let! a := arg_int args in printint fd (s32 a.1) base sgn ;; ret a.2.

(** What follows a '%': the rest of the format and of the arguments. *)
Definition vprintf_conv (fd : Z) (fmt : list Z) (args : list uarg) : U (list Z * list uarg) :=
  let c0 := default 0 (fmt !! 0%nat) in
  let c1 := default 0 (fmt !! 1%nat) in
  let c2 := if c1 =? 0 then 0 else default 0 (fmt !! 2%nat) in
  let eqc c x := c =? x in
  let int k base sgn := let! a := print_int fd args base sgn in ret (drop k fmt, a) in
  if eqc c0 100 then int 1%nat 10 true
  else if eqc c0 108 && eqc c1 100 then int 2%nat 10 true
  else if eqc c0 108 && eqc c1 108 && eqc c2 100 then int 3%nat 10 true
  else if eqc c0 117 then int 1%nat 10 false
  else if eqc c0 108 && eqc c1 117 then int 2%nat 10 false
  else if eqc c0 108 && eqc c1 108 && eqc c2 117 then int 3%nat 10 false
  else if eqc c0 120 then int 1%nat 16 false
  else if eqc c0 108 && eqc c1 120 then int 2%nat 16 false
  else if eqc c0 108 && eqc c1 108 && eqc c2 120 then int 3%nat 16 false
  else if eqc c0 112 then
    let! a := arg_int args in printptr fd (u64 a.1) ;; ret (drop 1 fmt, a.2)
  else if eqc c0 115 then
    let! a := arg_str args in
    for_each (default (bytes_of "(null)") a.1) (putc fd) ;; ret (drop 1 fmt, a.2)
  else if eqc c0 37 then putc fd 37 ;; ret (drop 1 fmt, args)
  else
    (* Unknown % sequence.  Print it to draw attention. *)
    putc fd 37 ;; putc fd c0 ;; ret (drop 1 fmt, args).

(** The loop over the format; the end of the list is the NUL. *)
Fixpoint vprintf_loop (fuel : nat) (fd : Z) (fmt : list Z) (args : list uarg) : U unit :=
  match fuel with
  | O => fun _ => NoFuel
  | S f =>
      match fmt with
      | [] => ret tt
      | c0 :: fmt' =>
          if c0 =? 37 then
            match fmt' with
            | [] => ret tt
            | _ => let! r := vprintf_conv fd fmt' args in vprintf_loop f fd r.1 r.2
            end
          else putc fd c0 ;; vprintf_loop f fd fmt' args
      end
  end.

Definition vprintf (fd : Z) (fmt : list Z) (args : list uarg) : U unit :=
  vprintf_loop (S (length fmt)) fd fmt args.

Definition fprintf (fd : Z) (fmt : list Z) (args : list uarg) : U unit := vprintf fd fmt args.
Definition printf (fmt : list Z) (args : list uarg) : U unit := vprintf 1 fmt args.

(** ** Output *)

(** A descriptor that takes everything written to it. *)
Definition can_write (fd : Z) (w : uworld) : Prop := is_Some (u_fds w !! fd) /\ u_wres w = [].

(** The world after the characters have been written one by one. *)
Definition emits (fd : Z) (chars : list Z) (w : uworld) : uworld :=
  set_u_out (u_out w ++ ((fun c => (fd, [c])) <$> chars)) w.

Lemma emits_nil fd w : emits fd [] w = w.
Proof. unfold emits. cbn. rewrite app_nil_r. by destruct w. Qed.

Lemma emits_app fd l l' w : emits fd l' (emits fd l w) = emits fd (l ++ l') w.
Proof. unfold emits. cbn. by rewrite fmap_app, app_assoc. Qed.

Lemma can_write_emits fd fd' l w : can_write fd w -> can_write fd (emits fd' l w).
Proof. done. Qed.

Lemma write_run fd bytes w :
  can_write fd w -> write fd bytes w = Ret (Z.of_nat (length bytes)) (set_u_out (u_out w ++ [(fd, bytes)]) w).
Proof.
  intros [[st Hst] Hr]. unfold write. rewrite run_gets, Hst, run_gets, Hr. done.
Qed.

Lemma putc_run fd c w : can_write fd w -> 0 <= c < 256 -> putc fd c w = Ret tt (emits fd [c] w).
Proof. intros Hw Hc. unfold putc. by rewrite (bind_Ret _ _ _ _ _ (write_run _ _ _ Hw)), u8_small. Qed.

Lemma puts_run fd l w : can_write fd w -> is_bytes l -> for_each l (putc fd) w = Ret tt (emits fd l w).
Proof.
  intros Hw Hl. revert w Hw. induction Hl as [|c l Hc _ IH]; intros w Hw; cbn [for_each].
  - by rewrite emits_nil.
  - rewrite (bind_Ret _ _ _ _ _ (putc_run fd c w Hw Hc)), IH by done. by rewrite emits_app.
Qed.

(** ** Numbers *)

Definition digit_char (d : Z) : Z := default 0 (digits !! Z.to_nat d).

(** The characters of a number. *)
Definition number (neg : bool) (base x : Z) : list Z :=
  (if neg then [45] else []) ++ reverse (digit_char <$> rdigits 33 base x).

Lemma digit_lookup d : 0 <= d < 16 -> digits !! Z.to_nat d = Some (digit_char d).
Proof.
  intros Hd. unfold digit_char. destruct (lookup_lt_is_Some_2 digits (Z.to_nat d)) as [c ->]; [|done].
  change (length digits) with 16%nat. lia.
Qed.

Lemma digit_byte d : 0 <= d < 16 -> 0 <= digit_char d < 256.
Proof.
  intros Hd. assert (H : Forall (fun c => 0 <= c < 256) digits) by (repeat constructor; lia).
  rewrite Forall_lookup in H. eapply H, digit_lookup, Hd.
Qed.

Lemma printint_digits_run base f x buf w :
  1 < base <= 16 -> 0 <= x < base ^ Z.of_nat f -> (0 < f)%nat ->
  (length buf + length (rdigits f base x) <= 16)%nat ->
  printint_digits f x base buf w = Ret (buf ++ (digit_char <$> rdigits f base x)) w.
Proof.
  intros Hb. revert x buf. induction f as [|f IH]; intros x buf Hx Hf Hl; [lia|].
  cbn [printint_digits rdigits fmap list_fmap length] in *.
  destruct (Nat.ltb_spec (length buf) 16) as [_|?]; [|lia].
  rewrite digit_lookup by (pose proof (Z.mod_pos_bound x base); lia). unfold of_option. rewrite run_ret.
  destruct (Z.eqb_spec (x / base) 0) as [Ez|Ez]; [done|].
  apply (div_small base ltac:(lia)) in Hx. destruct f as [|f]; [cbn in Hx; lia|].
  rewrite IH by (done || lia || (rewrite length_app; cbn [length]; lia)). by rewrite <- app_assoc.
Qed.

(** At most ten digits. *)
Lemma rdigits_u32 base f x : base = 10 \/ base = 16 -> 0 <= x < 2 ^ 32 -> (length (rdigits f base x) <= 10)%nat.
Proof.
  intros Hb Hx. apply (rdigits_length base ltac:(lia) f x 9). split; [lia|].
  destruct Hb as [-> | ->]; (eapply Z.lt_le_trans; [apply Hx|vm_compute; discriminate]).
Qed.

Lemma number_bytes neg base x : 1 < base <= 16 -> is_bytes (number neg base x).
Proof.
  intros Hb. unfold number, is_bytes. apply Forall_app. split; [destruct neg; repeat constructor; lia|].
  apply Forall_reverse, Forall_fmap. eapply Forall_impl; [apply rdigits_range; lia|].
  cbv beta. intros d Hd. apply digit_byte. lia.
Qed.

Lemma printint_run fd xx base sgn w :
  base = 10 \/ base = 16 -> - 2 ^ 31 <= xx < 2 ^ 31 -> can_write fd w ->
  let neg := sgn && (xx <? 0) in
  let x := if neg then - xx else u32 xx in
  printint fd xx base sgn w = Ret tt (emits fd (number neg base x) w).
Proof.
  intros Hbase Hxx Hw neg x. assert (Hb : 1 < base <= 16) by lia.
  assert (Hx : 0 <= x < 2 ^ 32).
  { unfold x, neg; destruct sgn, (Z.ltb_spec xx 0); cbn; pose proof (u32_range xx); lia. }
  assert (Hlen := rdigits_u32 base 33 x Hbase Hx).
  unfold printint. fold neg. replace (if neg then u32 (- xx) else u32 xx) with x.
  2:{ unfold x. destruct neg eqn:En; [|done]. unfold neg in En. apply andb_true_iff in En as [_ En%Z.ltb_lt].
      by rewrite u32_small by lia. }
  assert (Hpow : x < base ^ Z.of_nat 33).
  { assert (2 ^ Z.of_nat 33 <= base ^ Z.of_nat 33) by (apply Z.pow_le_mono_l; lia).
    change (2 ^ Z.of_nat 33) with (2 * 2 ^ 32) in *. lia. }
  rewrite (bind_Ret _ _ _ _ _ (printint_digits_run base 33 x [] w Hb ltac:(lia) ltac:(lia) ltac:(cbn [length]; lia))).
  cbn [app]. pose proof (number_bytes neg base x Hb) as Hby. unfold number in *.
  destruct neg.
  - rewrite length_fmap. destruct (Nat.ltb_spec (length (rdigits 33 base x)) 16); [|lia]. rewrite run_ret.
    rewrite reverse_app. by apply puts_run.
  - rewrite run_ret. by apply puts_run.
Qed.

(** ** The properties *)

Lemma digit_decimal d : 0 <= d < 10 -> digit_char d = 48 + d.
Proof.
  intros Hd. assert (H : Forall (fun d => digit_char d = 48 + d) (Z.of_nat <$> seq 0 10)) by (by repeat constructor).
  rewrite Forall_forall in H. apply H. apply list_elem_of_fmap. exists (Z.to_nat d). split; [lia|].
  apply elem_of_seq. lia.
Qed.

(** atoi of digits, most significant first. *)
Lemma atoi_loop_digits ds : Forall (fun d => 0 <= d < 10) ds -> forall n rest,
  0 <= n -> n * 10 ^ Z.of_nat (length ds) + dvalue 10 (reverse ds) < 2 ^ 31 ->
  atoi_loop n ((digit_char <$> ds) ++ 0 :: rest) = Some (n * 10 ^ Z.of_nat (length ds) + dvalue 10 (reverse ds)).
Proof.
  assert (Hval : forall l d, dvalue 10 (l ++ [d]) = dvalue 10 l + d * 10 ^ Z.of_nat (length l)).
  { induction l as [|a l IH]; intros d; cbn [app dvalue foldr length].
    - cbn. lia.
    - fold (dvalue 10 (l ++ [d])) (dvalue 10 l). rewrite IH, Nat2Z.inj_succ, Z.pow_succ_r by lia. lia. }
  assert (Hpos : forall l, Forall (fun d => 0 <= d < 10) l -> 0 <= dvalue 10 l).
  { induction 1 as [|a l Ha _ IH]; [done|]. cbn [dvalue foldr]. fold (dvalue 10 l). lia. }
  induction 1 as [|d ds Hd Hds IH]; intros n rest Hn Hlt.
  - cbn [length Z.of_nat] in *. rewrite Z.mul_1_r. change (dvalue 10 (reverse [])) with 0. cbn. f_equal. lia.
  - rewrite reverse_cons, Hval, length_reverse in *. cbn [length] in *. rewrite Nat2Z.inj_succ, Z.pow_succ_r in * by lia.
    cbn [fmap list_fmap app atoi_loop]. rewrite digit_decimal by done.
    destruct (Z.leb_spec 48 (48 + d)), (Z.leb_spec (48 + d) 57); try lia. cbn [andb].
    pose proof (Hpos (reverse ds) (proj2 (Forall_reverse _ _) Hds)) as Hp.
    assert (Hpow : 1 <= 10 ^ Z.of_nat (length ds)) by (apply (Z.pow_le_mono_r 10 0); lia).
    destruct (Z.ltb_spec (n * 10 + (48 + d) - 48) (2 ^ 31)) as [_|?]; [|nia].
    rewrite IH; [|lia|nia]. f_equal. nia.
Qed.

(** printint of the user library's printf, for the bases it is called
    with and any int: it prints, one character per write, the sign and the
    digits of the number, at most eleven characters, so its 16-byte buffer
    never overflows (unlike the kernel's, which takes 64-bit numbers); and
    atoi of what it prints for a non-negative int in decimal is that int. *)
Theorem printint_prints_number fd xx base sgn w rest :
  base = 10 \/ base = 16 -> - 2 ^ 31 <= xx < 2 ^ 31 -> can_write fd w ->
  let neg := sgn && (xx <? 0) in
  let x := if neg then - xx else u32 xx in
  printint fd xx base sgn w = Ret tt (emits fd (number neg base x) w) /\
  dvalue base (rdigits 33 base x) = x /\
  (length (number neg base x) <= 11)%nat /\
  (base = 10 -> 0 <= xx -> atoi (number neg base x ++ 0 :: rest) = Some xx).
Proof.
  intros Hbase Hxx Hw neg x.
  assert (Hx : 0 <= x < 2 ^ 32).
  { unfold x, neg; destruct sgn, (Z.ltb_spec xx 0); cbn; pose proof (u32_range xx); lia. }
  assert (Hval : dvalue base (rdigits 33 base x) = x).
  { apply rdigits_value; [lia|]. split; [lia|].
    assert (2 ^ Z.of_nat 33 <= base ^ Z.of_nat 33) by (apply Z.pow_le_mono_l; lia).
    change (2 ^ Z.of_nat 33) with (2 * 2 ^ 32) in *. lia. }
  split_and!.
  - by apply printint_run.
  - done.
  - unfold number. rewrite length_app, length_reverse, length_fmap.
    pose proof (rdigits_u32 base 33 x Hbase Hx). destruct neg; cbn [length]; lia.
  - intros -> H0. assert (En : neg = false) by (unfold neg; destruct (Z.ltb_spec xx 0); [lia|by destruct sgn]).
    assert (Ex : x = xx) by (unfold x; rewrite En, u32_small; lia). unfold number, atoi. rewrite En, Ex in *. cbn [app].
    rewrite <- fmap_reverse, atoi_loop_digits.
    + rewrite reverse_involutive, Hval. done.
    + apply Forall_reverse, rdigits_range. lia.
    + lia.
    + rewrite reverse_involutive, Hval. lia.
Qed.

Lemma printint_prints_number_witness :
  exists w w', printint 1 (-42) 10 true w = Ret tt w'.
Proof.
  pose (w := mk_uworld {[ 1 := [] ]} ∅ [] [] None).
  destruct (printint_prints_number 1 (-42) 10 true w []) as (E & _).
  - by left.
  - lia.
  - split; [by eexists|done].
  - exists w. eexists. exact E.
Defined.
