(* ===== verification/UText.v ===== *)
(** Text tools of user/: cat, wc, echo. *)

From stdpp Require Import base numbers list gmap strings.
From S2P Require Import Prelude Params Mem Digits User ULib UPrintf.

(** ** cat.c *)

(** One round of cat's loop; leaves it with read's result. *)
Definition cat_round (fd : Z) (_ : unit) : U (unit + Z) :=
  let! r := read fd 512 in
  if 0 <? r.1
  then
    let! n := write 1 r.2 in
    if negb (n =? r.1)
    then fprintf 2 (bytes_of "cat: write error" ++ [10]) [] ;; exit 1
    else ret (inl tt)
  else ret (inr r.1).

Definition cat (fd : Z) : U unit :=
  let! f := Prelude.gets (fun w => S (stream_size (input fd w))) in
  let! n := loop f (cat_round fd) tt in
  if n <? 0 then fprintf 2 (bytes_of "cat: read error" ++ [10]) [] ;; exit 1 else ret tt.

(** [argv] without the program's name. *)
Definition cat_main (argv : list (list Z)) : U unit :=
  match argv with
  | [] => cat 0 ;; exit 0
  | _ =>
      for_each argv (fun arg =>
        let! fd := open arg in
        if fd <? 0
        then fprintf 2 (bytes_of "cat: cannot open %s" ++ [10]) [AStr (Some arg)] ;; exit 1
        else cat fd ;; close fd ;; ret tt) ;;
      exit 0
  end.

(** ** wc.c *)

Definition wc_space : list Z := [32; 13; 9; 10; 11; 0].

Record wc_state := mk_wc { wc_l : Z; wc_w : Z; wc_c : Z; wc_in : bool }.

(** [strchr(" \r\t\n\v", c)] finds [c]. *)
Definition is_space (c : Z) : bool :=
  match ULib.strchr wc_space c with Some (Some _) => true | _ => false end.

(** The counts after one more byte. *)
Definition wc_byte (s : wc_state) (b : Z) : wc_state :=
  let c := s32 (wc_c s + 1) in
  let l := if b =? 10 then s32 (wc_l s + 1) else wc_l s in
  if is_space b then mk_wc l (wc_w s) c false
  else if negb (wc_in s) then mk_wc l (s32 (wc_w s + 1)) c true
  else mk_wc l (wc_w s) c (wc_in s).

Definition wc_round (fd : Z) (s : wc_state) : U (wc_state + (wc_state * Z)) :=
  let! r := read fd 512 in
  if 0 <? r.1 then ret (inl (foldl wc_byte s r.2)) else ret (inr (s, r.1)).

Definition wc (fd : Z) (name : list Z) : U unit :=
  let! f := Prelude.gets (fun w => S (stream_size (input fd w))) in
  let! r := loop f (wc_round fd) (mk_wc 0 0 0 false) in
  if r.2 <? 0 then printf (bytes_of "wc: read error" ++ [10]) [] ;; exit 1
  else printf (bytes_of "%d %d %d %s" ++ [10])
         [AInt (wc_l r.1); AInt (wc_w r.1); AInt (wc_c r.1); AStr (Some name)].

Definition wc_main (argv : list (list Z)) : U unit :=
  match argv with
  | [] => wc 0 [] ;; exit 0
  | _ =>
      for_each argv (fun arg =>
        let! fd := open arg in
        if fd <? 0
        then printf (bytes_of "wc: cannot open %s" ++ [10]) [AStr (Some arg)] ;; exit 1
        else wc fd arg ;; close fd ;; ret tt) ;;
      exit 0
  end.

(** ** echo.c *)

Fixpoint echo_loop (argv : list (list Z)) : U unit :=
  match argv with
  | [] => ret tt
  | arg :: rest =>
      write 1 arg ;;
      match rest with
      | [] => write 1 [10] ;; ret tt
      | _ => write 1 [32] ;; echo_loop rest
      end
  end.

Definition echo_main (argv : list (list Z)) : U unit := echo_loop argv ;; exit 0.

(** ** What a run has written *)

(** [w'] is [w] after [bytes] have been written to descriptor 1, in some
    number of writes, and some of descriptor [fd] has been read. *)
Definition ran (fd : Z) (bytes : list Z) (w w' : uworld) : Prop :=
  exists outs st, Forall (fun o => o.1 = 1) outs /\ concat (snd <$> outs) = bytes /\
    w' = set_u_out (u_out w ++ outs) (set_u_fds (<[fd := st]> (u_fds w)) w).

Lemma ran_can_write fd bytes w w' fd' : ran fd bytes w w' -> can_write fd' w -> can_write fd' w'.
Proof.
  intros (outs & st & _ & _ & ->) [Hf Hr]. split; [|done]. cbn. destruct (decide (fd = fd')) as [->|].
  - rewrite lookup_insert_eq. eauto.
  - by rewrite lookup_insert_ne.
Qed.

Lemma outs_output w outs :
  Forall (fun o => o.1 = 1) outs -> output 1 (set_u_out (u_out w ++ outs) w) = output 1 w ++ concat (snd <$> outs).
Proof.
  intros Ho. unfold output. cbn. rewrite filter_app, fmap_app, concat_app. do 3 f_equal.
  induction Ho as [|o l Hx _ IH]; [done|]. by rewrite filter_cons_True, IH.
Qed.

Lemma ran_output fd bytes w w' : ran fd bytes w w' -> output 1 w' = output 1 w ++ bytes.
Proof.
  intros (outs & st & Ho & <- & ->). exact (outs_output (set_u_fds (<[fd := st]> (u_fds w)) w) outs Ho).
Qed.

Lemma ran_trans fd b1 b2 w1 w2 w3 : ran fd b1 w1 w2 -> ran fd b2 w2 w3 -> ran fd (b1 ++ b2) w1 w3.
Proof.
  intros (o1 & st1 & F1 & E1 & ->) (o2 & st2 & F2 & E2 & ->). exists (o1 ++ o2), st2. split; [by apply Forall_app|].
  split; [by rewrite fmap_app, concat_app, E1, E2|]. destruct w1. cbn. unfold set_u_out, set_u_fds. cbn.
  by rewrite insert_insert_eq, app_assoc.
Qed.

(** Characters printed one by one. *)
Lemma emits_ran fd bytes w w' l : ran fd bytes w w' -> ran fd (bytes ++ l) w (emits 1 l w').
Proof.
  intros (o & st & Fo & <- & ->). exists (o ++ ((fun c => (1, [c])) <$> l)), st. split_and!.
  - apply Forall_app. split; [done|]. apply Forall_fmap. by apply Forall_true.
  - rewrite fmap_app, concat_app. f_equal. induction l as [|c l IH]; [done|]. cbn. by f_equal.
  - unfold emits. destruct w. cbn. by rewrite app_assoc.
Qed.

(** A read of a stream, as a step of such a run. *)
Lemma read_ran fd n w st :
  u_fds w !! fd = Some st -> 0 < n ->
  exists r bytes st' w', read fd n w = Ret (r, bytes) w' /\ ran fd [] w w' /\ u_fds w' !! fd = Some st' /\
    ((r <= 0 /\ bytes = [] /\ stream_bytes st = [] /\ (r < 0 <-> stream_fails st = true)) \/
     (r = Z.of_nat (length bytes) /\ 0 < r <= n /\ stream_bytes st = bytes ++ stream_bytes st' /\
      stream_fails st = stream_fails st' /\ (stream_size st' < stream_size st)%nat)).
Proof.
  intros Hst Hn. pose proof (read_stream_spec n st Hn) as Hs.
  assert (Er : read fd n w = Ret (read_stream n st).1 (set_u_fds (<[fd := (read_stream n st).2]> (u_fds w)) w)).
  { unfold read. rewrite run_gets, Hst. by destruct (read_stream n st) as [[r b] st']. }
  destruct (read_stream n st) as [[r b] st']. exists r, b, st'. eexists. split; [exact Er|]. split.
  - exists [], st'. split; [constructor|]. split; [done|]. cbn. rewrite app_nil_r. by destruct w.
  - split; [cbn; apply lookup_insert_eq|exact Hs].
Qed.

Lemma write_ran fd bytes w st :
  can_write 1 w -> u_fds w !! fd = Some st ->
  exists w', write 1 bytes w = Ret (Z.of_nat (length bytes)) w' /\ ran fd bytes w w' /\ u_fds w' !! fd = Some st.
Proof.
  intros Hw Hst. eexists. split; [by apply write_run|]. split; [|done].
  exists [(1, bytes)], st. split; [by constructor|]. split; [cbn; by rewrite app_nil_r|]. rewrite insert_id by done. by destruct w.
Qed.

(** ** cat *)

Lemma cat_loop fd : forall f w st,
  u_fds w !! fd = Some st -> can_write 1 w -> (stream_size st < f)%nat ->
  exists r w', loop f (cat_round fd) tt w = Ret r w' /\ ran fd (stream_bytes st) w w' /\
    (r < 0 <-> stream_fails st = true).
Proof.
  induction f as [|f IH]; intros w st Hst Hw Hf; [lia|]. cbn [loop]. unfold cat_round at 1.
  destruct (read_ran fd 512 w st Hst ltac:(lia)) as (r & b & st' & w1 & Er & Hr & Hst' & Hcase).
  rewrite bind_assoc, (bind_Ret _ _ _ _ _ Er). cbn [fst snd].
  destruct Hcase as [(H1 & -> & Eb & H2)|(-> & H1 & Eb & Ef & Hs)].
  - destruct (Z.ltb_spec 0 r); [lia|]. rewrite run_ret. exists r, w1. by rewrite Eb.
  - destruct (Z.ltb_spec 0 (Z.of_nat (length b))); [|lia].
    pose proof (ran_can_write _ _ _ _ 1 Hr Hw) as Hw1.
    destruct (write_ran fd b w1 st' Hw1 Hst') as (w2 & Ew & Hr2 & Hst2).
    rewrite bind_assoc, (bind_Ret _ _ _ _ _ Ew), Z.eqb_refl. cbn [negb]. rewrite run_ret.
    destruct (IH w2 st' Hst2 (ran_can_write _ _ _ _ 1 Hr2 Hw1) ltac:(lia)) as (r & w3 & El & Hr3 & Hfail).
    exists r, w3. split; [exact El|]. split; [|by rewrite Ef]. rewrite Eb.
    change (b ++ stream_bytes st') with ([] ++ (b ++ stream_bytes st')). eapply ran_trans; [exact Hr|].
    by eapply ran_trans.
Qed.

Lemma cat_run fd w st :
  u_fds w !! fd = Some st -> can_write 1 w -> stream_fails st = false ->
  exists w', cat fd w = Ret tt w' /\ ran fd (stream_bytes st) w w'.
Proof.
  intros Hst Hw Hf. unfold cat. rewrite run_gets. unfold input. rewrite Hst. cbn [default].
  destruct (cat_loop fd (S (stream_size st)) w st Hst Hw ltac:(lia)) as (r & w' & El & Hr & Hfail).
  unfold id. rewrite (bind_Ret _ _ _ _ _ El). rewrite Hf in Hfail.
  destruct (Z.ltb_spec r 0); [by destruct Hfail as [Hf' _]; specialize (Hf' ltac:(lia))|]. by exists w'.
Qed.

(** A character string printed with no conversions. *)
Definition plain (c : Z) : bool := (0 <=? c) && (c <? 256) && negb (c =? 37).

Lemma vprintf_plain fd l w :
  can_write fd w -> forallb plain l = true -> vprintf fd l [] w = Ret tt (emits fd l w).
Proof.
  unfold vprintf. intros Hw Hp. revert w Hw. induction l as [|c l IH]; intros w Hw; cbn [length vprintf_loop].
  - by rewrite emits_nil.
  - cbn [forallb] in Hp. apply andb_true_iff in Hp as [Hc Hp]. unfold plain in Hc.
    destruct (Z.leb_spec 0 c), (Z.ltb_spec c 256), (Z.eqb_spec c 37); try done.
    rewrite (bind_Ret _ _ _ _ _ (putc_run fd c w Hw ltac:(lia))), IH by done. by rewrite emits_app.
Qed.

(** The files of the arguments, one after the other. *)
Definition contents (w : uworld) (argv : list (list Z)) : list Z :=
  concat ((fun a => stream_bytes (default [] (u_files w !! a))) <$> argv).

Definition readable_files (w : uworld) (argv : list (list Z)) : Prop :=
  Forall (fun a => exists st, u_files w !! a = Some st /\ stream_fails st = false) argv.

Lemma fdalloc_fresh fds fd : fdalloc fds = Some fd -> fds !! fd = None /\ 0 <= fd.
Proof.
  unfold fdalloc. intros ([i x] & E & ->)%fmap_Some. apply list_find_Some in E as (Hi & Hx & _). cbn. split; [done|].
  apply list_lookup_fmap_Some in Hi as (k & -> & _). lia.
Qed.

(** A file opened, run through [body], and closed: the descriptors are as
    before. *)
Lemma open_close w arg st (body : Z -> U unit) bytes :
  is_Some (fdalloc (u_fds w)) -> u_files w !! arg = Some st -> can_write 1 w ->
  (forall fd w1, u_fds w1 !! fd = Some st -> can_write 1 w1 -> exists w2, body fd w1 = Ret tt w2 /\ ran fd bytes w1 w2) ->
  exists fd outs, 0 <= fd /\ Forall (fun o => o.1 = 1) outs /\ concat (snd <$> outs) = bytes /\
    (let! fd := open arg in body fd ;; close fd ;; ret tt) w = Ret tt (set_u_out (u_out w ++ outs) w) /\
    open arg w = Ret fd (set_u_fds (<[fd := st]> (u_fds w)) w).
Proof.
  intros [fd Hfd] Hst Hw Hbody. destruct (fdalloc_fresh _ _ Hfd) as [Hnone Hpos].
  assert (Eo : open arg w = Ret fd (set_u_fds (<[fd := st]> (u_fds w)) w)).
  { unfold open. rewrite run_get, Hst, Hfd. done. }
  set (w1 := set_u_fds (<[fd := st]> (u_fds w)) w) in *.
  assert (Hw1 : can_write 1 w1).
  { destruct Hw as [[s1 H1] Hr]. split; [|done]. unfold w1. cbn. rewrite lookup_insert_ne; [eauto|]. intros ->. congruence. }
  destruct (Hbody fd w1) as (w2 & Eb & outs & st' & Ho & Ec & ->); [apply lookup_insert_eq|done|].
  exists fd, outs. split_and!; try done.
  rewrite (bind_Ret _ _ _ _ _ Eo), (bind_Ret _ _ _ _ _ Eb). unfold close. rewrite bind_assoc, run_gets. cbn.
  rewrite lookup_insert_eq, bind_assoc, run_modify. unfold ret, bind. cbn. f_equal.
  destruct w. unfold set_u_fds, set_u_out. cbn in *. f_equal. rewrite !delete_insert_eq. by apply delete_id.
Qed.

(** The loop over the arguments of cat and of wc. *)
Lemma each_file w (body : list Z -> Z -> U unit) (fail : list Z -> U unit) (text : list Z -> list Z) argv :
  is_Some (fdalloc (u_fds w)) -> can_write 1 w -> readable_files w argv ->
  (forall arg fd w1 st, arg ∈ argv -> u_files w !! arg = Some st -> stream_fails st = false ->
     u_fds w1 !! fd = Some st -> can_write 1 w1 ->
     exists w2, body arg fd w1 = Ret tt w2 /\ ran fd (text arg) w1 w2) ->
  exists outs, Forall (fun o => o.1 = 1) outs /\ concat (snd <$> outs) = concat (text <$> argv) /\
    for_each argv (fun arg =>
      let! fd := open arg in
      if fd <? 0 then fail arg else body arg fd ;; close fd ;; ret tt) w =
    Ret tt (set_u_out (u_out w ++ outs) w).
Proof.
  intros Hfd Hw Hall Hbody. revert w Hfd Hw Hall Hbody.
  induction argv as [|arg argv IH]; intros w Hfd Hw Hall Hbody.
  - exists []. split; [constructor|]. split; [done|]. cbn. rewrite app_nil_r. by destruct w.
  - apply Forall_cons in Hall as [(st & Hst & Hf) Hall].
    destruct (open_close w arg st (body arg) (text arg) Hfd Hst Hw) as (fd & o1 & Hpos & F1 & C1 & E1 & Eo).
    { intros fd w1 H1 H2. eapply Hbody; [by left|done..]. }
    rewrite (bind_Ret _ _ _ _ _ Eo) in E1.
    destruct (IH (set_u_out (u_out w ++ o1) w)) as (o2 & F2 & C2 & E2); [done|done|done| |].
    { intros a fd' w1 st' Ha. apply Hbody. by right. }
    exists (o1 ++ o2). split; [by apply Forall_app|]. split; [cbn [fmap list_fmap concat]; by rewrite fmap_app, concat_app, C1, C2|].
    cbn [for_each]. rewrite bind_assoc, (bind_Ret _ _ _ _ _ Eo).
    destruct (Z.ltb_spec fd 0); [lia|]. rewrite (bind_Ret _ _ _ _ _ E1), E2. cbn. by rewrite app_assoc.
Qed.

(** cat, however the kernel cuts its input into reads: with no arguments
    it copies standard input to standard output, with arguments the contents
    of the files, one after the other, and exits with status 0; a read that
    fails makes it write what it had read, a message to descriptor 2, and exit
    with status 1. *)
Theorem cat_copies argv w st :
  can_write 1 w -> can_write 2 w -> u_fds w !! 0 = Some st ->
  (stream_fails st = false -> exists w',
     cat_main [] w = Panic "exit" (set_u_status (Some 0) w') /\ output 1 w' = output 1 w ++ stream_bytes st) /\
  (stream_fails st = true -> exists w',
     cat_main [] w = Panic "exit" (set_u_status (Some 1) w') /\ output 1 w' = output 1 w ++ stream_bytes st) /\
  (argv <> [] -> readable_files w argv -> is_Some (fdalloc (u_fds w)) -> exists w',
     cat_main argv w = Panic "exit" (set_u_status (Some 0) w') /\ output 1 w' = output 1 w ++ contents w argv).
Proof.
  intros Hw Hw2 Hst. split_and!.
  - intros Hf. destruct (cat_run 0 w st Hst Hw Hf) as (w' & E & Hr). exists w'. split; [|by eapply ran_output].
    unfold cat_main. by rewrite (bind_Ret _ _ _ _ _ E).
  - intros Hf. unfold cat_main, cat. rewrite bind_assoc, run_gets. unfold input. rewrite Hst. cbn [default]. unfold id.
    destruct (cat_loop 0 (S (stream_size st)) w st Hst Hw ltac:(lia)) as (r & w1 & El & Hr & Hfail).
    rewrite bind_assoc, (bind_Ret _ _ _ _ _ El). destruct (Z.ltb_spec r 0) as [_|Hge]; [|by apply Hfail in Hf; lia].
    rewrite bind_assoc. unfold fprintf.
    rewrite (bind_Ret _ _ _ _ _ (vprintf_plain 2 (bytes_of "cat: read error" ++ [10]) w1 (ran_can_write _ _ _ _ 2 Hr Hw2) eq_refl)).
    eexists. split; [done|]. rewrite <- (ran_output _ _ _ _ Hr). unfold output, emits. cbn. rewrite filter_app, fmap_app, concat_app.
    cbn. by rewrite app_nil_r.
  - intros Hne Hall Hfd.
    destruct (each_file w (fun _ => cat) (fun arg => fprintf 2 (bytes_of "cat: cannot open %s" ++ [10]) [AStr (Some arg)] ;; exit 1)
      (fun a => stream_bytes (default [] (u_files w !! a))) argv Hfd Hw Hall) as (outs & Fo & Co & E).
    { intros arg fd w1 st' _ Hs Hf' Hfd' Hw1. rewrite Hs. by apply cat_run. }
    exists (set_u_out (u_out w ++ outs) w). split.
    + unfold cat_main. destruct argv; [done|]. by rewrite (bind_Ret _ _ _ _ _ E).
    + unfold contents. rewrite <- Co. by apply outs_output.
Qed.

Lemma cat_copies_witness :
  exists w w', cat_main [] w = Panic "exit" (set_u_status (Some 0) w') /\ output 1 w' = [104; 105; 33].
Proof.
  pose (w := mk_uworld (<[0 := [Data [104; 105]; Data [33]]]> {[ 1 := []; 2 := [] ]}) ∅ [] [] None).
  destruct (cat_copies [] w [Data [104; 105]; Data [33]]) as (H & _).
  - split; [by eexists|done].
  - split; [by eexists|done].
  - reflexivity.
  - destruct H as (w' & E & Ho); [reflexivity|]. exists w, w'. split; [exact E|exact Ho].
Defined.

(** ** wc *)

(** The parts of a text between white space, empty ones included. *)
Fixpoint split_space (l : list Z) : list (list Z) :=
  match l with
  | [] => [[]]
  | c :: l =>
      if is_space c then [] :: split_space l
      else match split_space l with e :: es => (c :: e) :: es | [] => [[c]] end
  end.

Definition count_words (l : list Z) : Z := Z.of_nat (length (filter (fun e => e <> []) (split_space l))).
Definition count_lines (l : list Z) : Z := Z.of_nat (length (filter (fun c => c = 10) l)).

(** The words of [l] when a word may already have begun. *)
Definition words_from (inword : bool) (l : list Z) : Z :=
  if inword then Z.of_nat (length (filter (fun e => e <> []) (drop 1 (split_space l)))) else count_words l.

Lemma words_from_space inword b l : is_space b = true -> words_from inword (b :: l) = words_from false l.
Proof.
  intros Hb. unfold words_from, count_words. cbn [split_space]. rewrite Hb.
  destruct inword; [done|]. by rewrite filter_cons_False by (intros []; done).
Qed.

Lemma words_from_char inword b l :
  is_space b = false -> words_from inword (b :: l) = (if inword then 0 else 1) + words_from true l.
Proof.
  intros Hb. unfold words_from, count_words. cbn [split_space]. rewrite Hb.
  assert (Hne : split_space l <> []) by (destruct l as [|c l']; cbn; [done|destruct (is_space c); [done|by destruct (split_space l')]]).
  destruct (split_space l) as [|e es]; [done|]. destruct inword; cbn [drop]; [done|].
  rewrite filter_cons_True by done. cbn [length]. rewrite drop_0. lia.
Qed.

Lemma count_lines_cons b l : count_lines (b :: l) = (if b =? 10 then 1 else 0) + count_lines l.
Proof.
  unfold count_lines. destruct (Z.eqb_spec b 10).
  - rewrite filter_cons_True by done. cbn [length]. lia.
  - rewrite filter_cons_False by done. lia.
Qed.

Lemma words_from_bound inword l : 0 <= words_from inword l <= Z.of_nat (length l) + 1.
Proof.
  revert inword. induction l as [|b l IH]; intros inword.
  - destruct inword; vm_compute; intuition discriminate.
  - cbn [length]. destruct (is_space b) eqn:E.
    + rewrite words_from_space by done. specialize (IH false). lia.
    + rewrite words_from_char by done. specialize (IH true). destruct inword; lia.
Qed.

Lemma wc_bytes_run l : forall s,
  0 <= wc_c s -> 0 <= wc_l s <= wc_c s -> 0 <= wc_w s <= wc_c s -> wc_c s + Z.of_nat (length l) < 2 ^ 31 ->
  foldl wc_byte s l = mk_wc (wc_l s + count_lines l) (wc_w s + words_from (wc_in s) l)
    (wc_c s + Z.of_nat (length l)) (wc_in (foldl wc_byte s l)).
Proof.
  induction l as [|b l IH]; intros s H1 H2 H3 H4; cbn [foldl length] in *.
  - unfold count_lines. cbn. destruct s as [a b c i]. cbn in *.
    assert (words_from i [] = 0) as -> by (by destruct i). f_equal; lia.
  - assert (Ec : wc_c (wc_byte s b) = wc_c s + 1).
    { unfold wc_byte. destruct (is_space b), (negb (wc_in s)); cbn; rewrite s32_small; lia. }
    assert (El : wc_l (wc_byte s b) = wc_l s + if b =? 10 then 1 else 0).
    { unfold wc_byte. destruct (is_space b), (negb (wc_in s)), (b =? 10); cbn; rewrite ?s32_small; lia. }
    assert (Ew : wc_w (wc_byte s b) + words_from (wc_in (wc_byte s b)) l = wc_w s + words_from (wc_in s) (b :: l) /\
      wc_w s <= wc_w (wc_byte s b) <= wc_w s + 1).
    { unfold wc_byte. destruct (is_space b) eqn:Es; cbn [wc_w wc_in].
      - rewrite words_from_space by done. lia.
      - rewrite words_from_char by done. destruct (wc_in s) eqn:Ei; cbn [negb wc_w wc_in]; rewrite ?s32_small; lia. }
    rewrite IH by (rewrite ?Ec, ?El; destruct (b =? 10); lia). rewrite Ec, El, count_lines_cons, (proj1 Ew).
    f_equal; lia.
Qed.

Lemma wc_loop fd : forall f w st s,
  u_fds w !! fd = Some st -> (stream_size st < f)%nat ->
  exists r w', loop f (wc_round fd) s w = Ret (foldl wc_byte s (stream_bytes st), r) w' /\ ran fd [] w w' /\
    (r < 0 <-> stream_fails st = true).
Proof.
  induction f as [|f IH]; intros w st s Hst Hf; [lia|]. cbn [loop]. unfold wc_round at 1.
  destruct (read_ran fd 512 w st Hst ltac:(lia)) as (r & b & st' & w1 & Er & Hr & Hst' & Hcase).
  rewrite bind_assoc, (bind_Ret _ _ _ _ _ Er). cbn [fst snd].
  destruct Hcase as [(H1 & -> & Eb & H2)|(-> & H1 & Eb & Ef & Hs)].
  - destruct (Z.ltb_spec 0 r); [lia|]. rewrite run_ret. exists r, w1. by rewrite Eb.
  - destruct (Z.ltb_spec 0 (Z.of_nat (length b))); [|lia]. rewrite run_ret.
    destruct (IH w1 st' (foldl wc_byte s b) Hst' ltac:(lia)) as (r & w2 & El & Hr2 & Hfail).
    exists r, w2. rewrite Eb, foldl_app. split; [exact El|]. split; [by eapply (ran_trans fd [] [])|by rewrite Ef].
Qed.

(** The line wc prints. *)
Definition decimal (x : Z) : list Z := number false 10 x.
Definition wc_line (text name : list Z) : list Z :=
  decimal (count_lines text) ++ [32] ++ decimal (count_words text) ++ [32] ++
  decimal (Z.of_nat (length text)) ++ [32] ++ name ++ [10].

Lemma print_int_run fd a args w :
  0 <= a < 2 ^ 31 -> can_write fd w -> print_int fd (AInt a :: args) 10 true w = Ret args (emits fd (decimal a) w).
Proof.
  intros Ha Hw. unfold print_int, arg_int. rewrite run_ret. cbn [fst snd]. rewrite s32_small by lia.
  pose proof (printint_run fd a 10 true w ltac:(by left) ltac:(lia) Hw) as E. cbn zeta in E.
  destruct (Z.ltb_spec a 0); [lia|]. cbn [andb] in E. rewrite u32_small in E by lia.
  by rewrite (bind_Ret _ _ _ _ _ E).
Qed.

(** The conversions of vprintf, one at a time. *)
Lemma vprintf_d f a rest args w : 0 <= a < 2 ^ 31 -> can_write 1 w ->
  vprintf_loop (S f) 1 (37 :: 100 :: rest) (AInt a :: args) w = vprintf_loop f 1 rest args (emits 1 (decimal a) w).
Proof.
  intros Ha Hw.
  change (vprintf_loop (S f) 1 (37 :: 100 :: rest) (AInt a :: args)) with
    (let! r := (let! b := print_int 1 (AInt a :: args) 10 true in ret (rest, b)) in vprintf_loop f 1 r.1 r.2).
  by rewrite bind_assoc, (bind_Ret _ _ _ _ _ (print_int_run 1 a args w Ha Hw)), run_ret.
Qed.

Lemma vprintf_char f b rest args w : 0 <= b < 256 -> b <> 37 -> can_write 1 w ->
  vprintf_loop (S f) 1 (b :: rest) args w = vprintf_loop f 1 rest args (emits 1 [b] w).
Proof.
  intros Hb Hne Hw. cbn [vprintf_loop]. destruct (Z.eqb_spec b 37); [done|].
  by rewrite (bind_Ret _ _ _ _ _ (putc_run 1 b w Hw Hb)).
Qed.

Lemma vprintf_s f name rest args w : is_bytes name -> can_write 1 w ->
  vprintf_loop (S f) 1 (37 :: 115 :: rest) (AStr (Some name) :: args) w = vprintf_loop f 1 rest args (emits 1 name w).
Proof.
  intros Hn Hw.
  change (vprintf_loop (S f) 1 (37 :: 115 :: rest) (AStr (Some name) :: args)) with
    (let! r := (for_each name (putc 1) ;; ret (rest, args)) in vprintf_loop f 1 r.1 r.2).
  by rewrite bind_assoc, (bind_Ret _ _ _ _ _ (puts_run 1 name w Hw Hn)), run_ret.
Qed.

Lemma wc_printf l w c name u :
  0 <= l < 2 ^ 31 -> 0 <= w < 2 ^ 31 -> 0 <= c < 2 ^ 31 -> is_bytes name -> can_write 1 u ->
  printf (bytes_of "%d %d %d %s" ++ [10]) [AInt l; AInt w; AInt c; AStr (Some name)] u =
  Ret tt (emits 1 (decimal l ++ [32] ++ decimal w ++ [32] ++ decimal c ++ [32] ++ name ++ [10]) u).
Proof.
  intros Hl Hw Hc Hn Hu. unfold printf, vprintf.
  change (bytes_of "%d %d %d %s" ++ [10]) with [37; 100; 32; 37; 100; 32; 37; 100; 32; 37; 115; 10]. cbn [length].
  rewrite vprintf_d, vprintf_char, vprintf_d, vprintf_char, vprintf_d, vprintf_char, vprintf_s, vprintf_char by (done || lia).
  cbn [vprintf_loop]. unfold ret. by rewrite !emits_app.
Qed.

Lemma wc_run fd name w st :
  u_fds w !! fd = Some st -> can_write 1 w -> stream_fails st = false -> is_bytes name ->
  Z.of_nat (length (stream_bytes st)) < 2 ^ 31 - 1 ->
  exists w', wc fd name w = Ret tt w' /\ ran fd (wc_line (stream_bytes st) name) w w'.
Proof.
  intros Hst Hw Hf Hn Hlen. unfold wc. rewrite run_gets. unfold input. rewrite Hst. cbn [default]. unfold id.
  destruct (wc_loop fd (S (stream_size st)) w st (mk_wc 0 0 0 false) Hst ltac:(lia)) as (r & w1 & El & Hr & Hfail).
  rewrite (bind_Ret _ _ _ _ _ El). cbn [fst snd].
  destruct (Z.ltb_spec r 0) as [Hlt|_]; [by apply Hfail in Hlt; congruence|].
  rewrite wc_bytes_run by (cbn; lia). cbn [wc_l wc_w wc_c wc_in]. rewrite !Z.add_0_l.
  pose proof (words_from_bound false (stream_bytes st)) as Hwb.
  assert (Hlb : 0 <= count_lines (stream_bytes st) <= Z.of_nat (length (stream_bytes st))).
  { unfold count_lines. pose proof (length_filter (fun c => c = 10) (stream_bytes st)). lia. }
  rewrite wc_printf by (done || lia || by eapply ran_can_write). eexists. split; [done|].
  exact (emits_ran fd [] w w1 _ Hr).
Qed.

(** wc, however the kernel cuts its input into reads: for standard input,
    or for each file named, it prints a line with the number of newlines, of
    words (maximal runs of characters that are not white space) and of bytes,
    and the name, and exits with status 0. *)
Theorem wc_counts argv w st :
  can_write 1 w -> u_fds w !! 0 = Some st -> stream_fails st = false ->
  Z.of_nat (length (stream_bytes st)) < 2 ^ 31 - 1 ->
  (exists w', wc_main [] w = Panic "exit" (set_u_status (Some 0) w') /\
     output 1 w' = output 1 w ++ wc_line (stream_bytes st) []) /\
  (argv <> [] -> readable_files w argv -> is_Some (fdalloc (u_fds w)) -> Forall is_bytes argv ->
   Forall (fun a => Z.of_nat (length (stream_bytes (default [] (u_files w !! a)))) < 2 ^ 31 - 1) argv ->
   exists w', wc_main argv w = Panic "exit" (set_u_status (Some 0) w') /\
     output 1 w' = output 1 w ++
       concat ((fun a => wc_line (stream_bytes (default [] (u_files w !! a))) a) <$> argv)).
Proof.
  intros Hw Hst Hf Hlen. split.
  - destruct (wc_run 0 [] w st Hst Hw Hf ltac:(constructor) Hlen) as (w' & E & Hr). exists w'.
    split; [|by eapply ran_output]. unfold wc_main. by rewrite (bind_Ret _ _ _ _ _ E).
  - intros Hne Hall Hfd Hby Hsz. rewrite Forall_forall in Hby, Hsz.
    destruct (each_file w (fun arg fd => wc fd arg)
      (fun arg => printf (bytes_of "wc: cannot open %s" ++ [10]) [AStr (Some arg)] ;; exit 1)
      (fun a => wc_line (stream_bytes (default [] (u_files w !! a))) a) argv Hfd Hw Hall) as (outs & Fo & Co & E).
    { intros arg fd w1 st' Ha Hs Hf' Hfd' Hw1. specialize (Hsz arg Ha). rewrite Hs in *. apply wc_run; auto. }
    exists (set_u_out (u_out w ++ outs) w). split.
    + unfold wc_main. destruct argv; [done|]. by rewrite (bind_Ret _ _ _ _ _ E).
    + rewrite <- Co. by apply outs_output.
Qed.

(** "a b\n" *)
Lemma wc_counts_witness :
  exists w w', wc_main [] w = Panic "exit" (set_u_status (Some 0) w') /\ output 1 w' = [49; 32; 50; 32; 52; 32; 10].
Proof.
  pose (w := mk_uworld (<[0 := [Data [97; 32]; Data [98; 10]]]> {[ 1 := []; 2 := [] ]}) ∅ [] [] None).
  destruct (wc_counts [] w [Data [97; 32]; Data [98; 10]]) as ((w' & E & Ho) & _).
  - split; [by eexists|done].
  - reflexivity.
  - reflexivity.
  - simpl. lia.
  - exists w, w'. split; [exact E|]. exact Ho.
Defined.

(** ** echo *)

(** The arguments separated by blanks, and a newline. *)
Definition echo_line (argv : list (list Z)) : list Z :=
  match argv with
  | [] => []
  | arg :: rest => arg ++ concat ((fun a => 32 :: a) <$> rest) ++ [10]
  end.

Lemma echo_run argv w :
  can_write 1 w -> exists outs, echo_loop argv w = Ret tt (set_u_out (u_out w ++ outs) w) /\
    Forall (fun o => o.1 = 1) outs /\ concat (snd <$> outs) = echo_line argv.
Proof.
  revert w. induction argv as [|arg argv IH]; intros w Hw; cbn [echo_loop].
  - exists []. rewrite app_nil_r. split; [by destruct w|]. by split.
  - rewrite (bind_Ret _ _ _ _ _ (write_run 1 arg w Hw)). set (w1 := set_u_out (u_out w ++ [(1, arg)]) w).
    assert (Hw1 : can_write 1 w1) by exact Hw. destruct argv as [|a argv].
    + exists [(1, arg); (1, [10])]. rewrite (bind_Ret _ _ _ _ _ (write_run 1 [10] w1 Hw1)). split; [|split; [by repeat constructor|done]].
      unfold ret, w1. destruct w. cbn. by rewrite <- app_assoc.
    + rewrite (bind_Ret _ _ _ _ _ (write_run 1 [32] w1 Hw1)).
      destruct (IH (set_u_out (u_out w ++ [(1, arg); (1, [32])]) w) Hw) as (outs & E & Fo & Co).
      exists ((1, arg) :: (1, [32]) :: outs). split_and!.
      * unfold w1. cbn [u_out set_u_out]. rewrite <- app_assoc. etrans; [exact E|]. destruct w. cbn. by rewrite <- app_assoc.
      * by repeat constructor.
      * cbn [fmap list_fmap concat snd]. rewrite Co. cbn [echo_line fmap list_fmap concat app]. by rewrite <- app_assoc.
Qed.
