(* ===== verification/UGrep.v ===== *)
(** user/grep.c: the regular-expression matcher against a declarative
    semantics, and the loop over the lines of the input.

    A pattern or a line is the list of its characters; where the code looks at
    the terminating NUL, the list ends. *)

From stdpp Require Import base numbers list gmap strings.
From S2P Require Import Prelude Params Mem User ULib UPrintf UText.

(** ** The matcher *)

(** matchstar: [c*re] at the beginning of [text]; [mh] is [matchhere re]. *)
Fixpoint matchstar (c : Z) (mh : list Z -> bool) (text : list Z) : bool :=
  if mh text then true
  else match text with
       | [] => false
       | d :: text => if (d =? c) || (c =? 46) then matchstar c mh text else false
       end.

(** matchhere: [re] at the beginning of [text]. *)
Fixpoint matchhere (re text : list Z) : bool :=
  match re with
  | [] => true
  | c :: re1 =>
      match re1 with
      | [] =>
          if c =? 36 then match text with [] => true | _ => false end
          else match text with
               | [] => false
               | d :: text => if (c =? 46) || (c =? d) then matchhere re1 text else false
               end
      | c1 :: re2 =>
          if c1 =? 42 then matchstar c (matchhere re2) text
          else match text with
               | [] => false
               | d :: text => if (c =? 46) || (c =? d) then matchhere re1 text else false
               end
      end
  end.

(** The do-while loop of match: [re] at some place of [text], the end
    included. *)
Fixpoint match_anywhere (re text : list Z) : bool :=
  if matchhere re text then true
  else match text with [] => false | _ :: text => match_anywhere re text end.

Definition match_ (re text : list Z) : bool :=
  match re with
  | c :: re1 => if c =? 94 then matchhere re1 text else match_anywhere re text
  | [] => match_anywhere re text
  end.

(** ** What patterns mean *)

(** One character of a pattern and one of the text. *)
Definition char_matches (c d : Z) : Prop := c = 46 \/ c = d.

(** [here re text]: [re] matches a prefix of [text]. *)
Inductive here : list Z -> list Z -> Prop :=
| here_nil text : here [] text
| here_end : here [36] []
| here_star c re t1 t2 : Forall (char_matches c) t1 -> here re t2 -> here (c :: 42 :: re) (t1 ++ t2)
| here_char c d re text :
    (forall r, re <> 42 :: r) -> ~ (c = 36 /\ re = []) -> char_matches c d ->
    here re text -> here (c :: re) (d :: text).

(** A pattern that begins with '^' matches at the beginning only. *)
Definition matches_text (re text : list Z) : Prop :=
  match re with
  | c :: re1 => if decide (c = 94) then here re1 text else exists t1 t2, text = t1 ++ t2 /\ here re t2
  | [] => True
  end.

Lemma char_matches_spec c d : (c =? 46) || (c =? d) = true <-> char_matches c d.
Proof. unfold char_matches. by rewrite orb_true_iff, !Z.eqb_eq. Qed.

Lemma matchstar_spec c mh text :
  matchstar c mh text = true <-> exists t1 t2, text = t1 ++ t2 /\ Forall (char_matches c) t1 /\ mh t2 = true.
Proof.
  induction text as [|d text IH]; cbn [matchstar].
  - destruct (mh []) eqn:E; split; try done.
    + intros _. by exists [], [].
    + intros (t1 & t2 & [-> ->]%eq_sym%app_nil & _ & H). congruence.
  - destruct (mh (d :: text)) eqn:E.
    { split; [|done]. intros _. by exists [], (d :: text). }
    assert (Ec : (d =? c) || (c =? 46) = true <-> char_matches c d).
    { rewrite <- char_matches_spec, !orb_true_iff, !Z.eqb_eq. intuition congruence. }
    destruct ((d =? c) || (c =? 46)).
    + rewrite IH. split.
      * intros (t1 & t2 & -> & Ht & Hm). exists (d :: t1), t2. split; [done|]. split; [|done]. constructor; [by apply Ec|done].
      * intros (t1 & t2 & Et & Ht & Hm). destruct t1 as [|x t1]; [cbn in Et; subst; congruence|].
        injection Et as -> ->. apply Forall_cons in Ht as [_ Ht]. by exists t1, t2.
    + split; [done|]. intros (t1 & t2 & Et & Ht & Hm). destruct t1 as [|x t1]; [cbn in Et; subst; congruence|].
      injection Et as -> ->. apply Forall_cons in Ht as [Hx _]. by apply Ec in Hx.
Qed.

Lemma matchhere_spec re : forall text, matchhere re text = true <-> here re text.
Proof.
  assert (Hchar : forall c re1 text, (forall r, re1 <> 42 :: r) -> ~ (c = 36 /\ re1 = []) ->
    (forall text, matchhere re1 text = true <-> here re1 text) ->
    match text with [] => false | d :: text => if (c =? 46) || (c =? d) then matchhere re1 text else false end = true <->
    here (c :: re1) text).
  { intros c re1 text H1 H2 IH. destruct text as [|d text].
    - split; [done|]. inversion 1 as [| |c' re' t1 t2 Hf Hh|]; subst; [by destruct H2|by destruct (H1 re')].
    - destruct ((c =? 46) || (c =? d)) eqn:E.
      + rewrite IH. apply char_matches_spec in E. split; [by apply here_char|].
        inversion 1 as [| |c' re' t1 t2 Hf Hh|]; subst; [by destruct (H1 re')|done].
      + split; [done|]. inversion 1 as [| |c' re' t1 t2 Hf Hh|c' d' re' t' _ _ Hm _]; subst; [by destruct (H1 re')|].
        apply char_matches_spec in Hm. congruence. }
  assert (Hstar : forall c re2 text, (forall text, matchhere re2 text = true <-> here re2 text) ->
    matchstar c (matchhere re2) text = true <-> here (c :: 42 :: re2) text).
  { intros c re2 text IH. rewrite matchstar_spec. split.
    - intros (t1 & t2 & -> & Hf & Hm). apply here_star; [done|by apply IH].
    - inversion 1 as [| |c' re' t1 t2 Hf Hh|c' d re' t' Hns]; subst; [|by destruct (Hns re2)].
      exists t1, t2. split; [done|]. split; [done|]. by apply IH. }
  assert (Hind : forall n re, (length re <= n)%nat -> forall text, matchhere re text = true <-> here re text);
    [|by apply (Hind (length re))].
  clear re. induction n as [|n IH]; intros [|c [|c1 re2]] Hn text; cbn [length] in Hn; try lia; cbn [matchhere].
  - split; [intros _; constructor|done].
  - split; [intros _; constructor|done].
  - destruct (Z.eqb_spec c 36) as [->|Hc].
    + destruct text; split; try done; [intros _; constructor|].
      inversion 1 as [| | |c' d' re' t' _ Hne]; subst. by destruct Hne.
    + apply (Hchar c [] text); [done|by intros [? _]|]. intros t. apply (IH []). cbn. lia.
  - destruct (Z.eqb_spec c1 42) as [->|Hc].
    + apply Hstar. intros t. apply IH. lia.
    + apply (Hchar c (c1 :: re2) text); [by intros r [=]|by intros [_ ?]|]. intros t. apply (IH (c1 :: re2)). cbn. lia.
Qed.

Lemma match_anywhere_spec re text :
  match_anywhere re text = true <-> exists t1 t2, text = t1 ++ t2 /\ here re t2.
Proof.
  induction text as [|d text IH]; cbn [match_anywhere].
  - destruct (matchhere re []) eqn:E.
    + apply matchhere_spec in E. split; [|done]. intros _. by exists [], [].
    + split; [done|]. intros (t1 & t2 & [-> ->]%eq_sym%app_nil & H). apply matchhere_spec in H. congruence.
  - destruct (matchhere re (d :: text)) eqn:E.
    + apply matchhere_spec in E. split; [|done]. intros _. by exists [], (d :: text).
    + rewrite IH. split.
      * intros (t1 & t2 & -> & H). by exists (d :: t1), t2.
      * intros (t1 & t2 & Et & H). destruct t1 as [|x t1]; [cbn in Et; subst; apply matchhere_spec in H; congruence|].
        injection Et as -> ->. by exists t1, t2.
Qed.

(** C38. The matcher of grep decides the meaning of its patterns: '.' stands
    for any character, 'c*' for any number of them, '$' at the end of the
    pattern for the end of the line, '^' at its beginning for the beginning,
    every other character for itself; without '^' the pattern may match
    anywhere. In particular it always terminates. *)
Theorem match_decides_pattern re text : match_ re text = true <-> matches_text re text.
Proof.
  unfold match_, matches_text. destruct re as [|c re].
  - rewrite match_anywhere_spec. split; [done|]. intros _. exists [], text. split; [done|constructor].
  - destruct (Z.eqb_spec c 94); case_decide; try done; [apply matchhere_spec|apply match_anywhere_spec].
Qed.

Lemma match_decides_pattern_examples :
  match_ (bytes_of "^a.*c$") (bytes_of "abbc") = true /\ match_ (bytes_of "^a.*c$") (bytes_of "abbcd") = false.
Proof. by vm_compute. Qed.

(** ** The loop over the input *)

(** One line of the buffer: [p] is where it starts. *)
Definition grep_line (pattern : list Z) : list Z * nat -> U ((list Z * nat) + (list Z * nat)) :=
  fun '(buf, p) =>
    let! r := of_option (strchr (drop p buf) 10) in
    match r with
    | None => ret (inr (buf, p))
    | Some i =>
        let q := (p + i)%nat in
        let buf := <[q := 0]> buf in
        if match_ pattern (cstring (drop p buf))
        then
          let buf := <[q := 10]> buf in
          write 1 (get_at buf p (q + 1 - p)) ;;
          ret (inl (buf, (q + 1)%nat))
        else ret (inl (buf, (q + 1)%nat))
    end.

Definition BUFSIZE : nat := 1024.

(** One read: [m] bytes of an unfinished line are in the buffer. *)
Definition grep_round (pattern : list Z) (fd : Z) : list Z * nat -> U ((list Z * nat) + list Z) :=
  fun '(buf, m) =>
    let! r := read fd (Z.of_nat (BUFSIZE - m - 1)) in
    if 0 <? r.1
    then
      let buf := put_at buf m r.2 in
      let m := (m + length r.2)%nat in
      let buf := <[m := 0]> buf in
      let! x := loop (S BUFSIZE) (grep_line pattern) (buf, 0%nat) in
      let '(buf, p) := x in
      if (0 <? m)%nat
      then ret (inl (put_at buf 0 (get_at buf p (m - p)), (m - p)%nat))
      else ret (inl (buf, m))
    else ret (inr buf).

(** The buffer is static: a call finds what the one before left in it. *)
Definition grep (pattern : list Z) (fd : Z) (buf : list Z) : U (list Z) :=
  let! f := Prelude.gets (fun w => S (stream_size (input fd w))) in
  loop f (grep_round pattern fd) (buf, 0%nat).

Fixpoint grep_files (pattern : list Z) (argv : list (list Z)) (buf : list Z) : U unit :=
  match argv with
  | [] => ret tt
  | arg :: argv =>
      let! fd := open arg in
      if fd <? 0
      then printf (bytes_of "grep: cannot open %s" ++ [10]) [AStr (Some arg)] ;; exit 1
      else
        let! buf := grep pattern fd buf in
        close fd ;; grep_files pattern argv buf
  end.

Definition grep_main (argv : list (list Z)) : U unit :=
  let buf := replicate BUFSIZE 0 in
  match argv with
  | [] => fprintf 2 (bytes_of "usage: grep pattern [file ...]" ++ [10]) [] ;; exit 1
  | [pattern] => grep pattern 0 buf ;; exit 0
  | pattern :: argv => grep_files pattern argv buf ;; exit 0
  end.

(** ** What it prints *)

(** The lines of a text that end in a newline, and what follows the last. *)
Fixpoint lines_from (cur text : list Z) : list (list Z) * list Z :=
  match text with
  | [] => ([], cur)
  | c :: text =>
      if c =? 10 then let '(ls, r) := lines_from [] text in (cur :: ls, r)
      else lines_from (cur ++ [c]) text
  end.
Definition lines (text : list Z) : list (list Z) * list Z := lines_from [] text.

Definition selected (pattern : list Z) (ls : list (list Z)) : list Z :=
  concat ((fun l => l ++ [10]) <$> filter (fun l => match_ pattern l = true) ls).

Lemma lines_from_app cur x y :
  lines_from cur (x ++ y) =
  ((lines_from cur x).1 ++ (lines_from (lines_from cur x).2 y).1, (lines_from (lines_from cur x).2 y).2).
Proof.
  revert cur. induction x as [|c x IH]; intros cur; cbn [app lines_from fst snd]; [by destruct (lines_from cur y)|].
  destruct (c =? 10); [|apply IH]. rewrite IH. by destruct (lines_from [] x).
Qed.

(** A text with a first newline, and one with none. *)
Lemma lines_from_none cur x : Forall (fun c => c <> 10) x -> lines_from cur x = ([], cur ++ x).
Proof.
  intros Hx. revert cur. induction Hx as [|c x Hc _ IH]; intros cur; cbn [lines_from]; [by rewrite app_nil_r|].
  destruct (Z.eqb_spec c 10); [done|]. by rewrite IH, <- app_assoc.
Qed.

Lemma lines_cons l x : Forall (fun c => c <> 10) l -> lines (l ++ 10 :: x) = (l :: (lines x).1, (lines x).2).
Proof.
  intros Hl. unfold lines. rewrite lines_from_app, lines_from_none by done. cbn [fst snd app lines_from Z.eqb Pos.eqb].
  by destruct (lines_from [] x).
Qed.

Lemma lines_pending x y : Forall (fun c => c <> 10) x ->
  lines (x ++ y) = lines_from x y.
Proof.
  intros Hx. unfold lines. rewrite lines_from_app, lines_from_none by done. cbn [fst snd app].
  by destruct (lines_from x y).
Qed.

Lemma lines_rest_clean x : Forall (fun c => c <> 10) (lines x).2.
Proof.
  unfold lines. assert (H : forall cur, Forall (fun c => c <> 10) cur -> Forall (fun c => c <> 10) (lines_from cur x).2); [|by apply H].
  induction x as [|c x IH]; intros cur Hc; cbn [lines_from]; [done|]. destruct (Z.eqb_spec c 10).
  - destruct (lines_from [] x) eqn:E. cbn. specialize (IH [] ltac:(constructor)). by rewrite E in IH.
  - apply IH. apply Forall_app. split; [done|]. by repeat constructor.
Qed.

(** All of a text is in its lines and the rest. *)
Lemma lines_concat x : concat ((fun l => l ++ [10]) <$> (lines x).1) ++ (lines x).2 = x.
Proof.
  unfold lines. assert (H : forall cur, concat ((fun l => l ++ [10]) <$> (lines_from cur x).1) ++ (lines_from cur x).2 = cur ++ x); [|by apply H].
  induction x as [|c x IH]; intros cur; cbn [lines_from]; [by rewrite app_nil_r|]. destruct (Z.eqb_spec c 10) as [->|].
  - specialize (IH []). destruct (lines_from [] x). cbn in *. by rewrite <- !app_assoc, IH.
  - by rewrite IH, <- app_assoc.
Qed.

Lemma selected_app pattern a b : selected pattern (a ++ b) = selected pattern a ++ selected pattern b.
Proof. unfold selected. by rewrite filter_app, fmap_app, concat_app. Qed.

(** The first newline of the buffer from [p] on, and the buffer with a NUL in
    its place. *)
Lemma buffer_line buf p l x :
  drop p buf = l ++ 10 :: x ->
  let q := (p + length l)%nat in
  buf !! q = Some 10 /\ drop p (<[q := 0]> buf) = l ++ 0 :: x /\
  drop (q + 1) (<[q := 0]> buf) = x /\ drop (q + 1) buf = x /\ get_at buf p (q + 1 - p) = l ++ [10].
Proof.
  intros E q. assert (Hq : buf !! q = Some 10).
  { unfold q. rewrite <- lookup_drop, E, lookup_app_r, Nat.sub_diag by lia. done. }
  assert (Hd : drop (q + 1) buf = x).
  { unfold q. replace (p + length l + 1)%nat with (p + (length l + 1))%nat by lia. rewrite <- drop_drop, E.
    rewrite drop_app_ge by lia. by replace (length l + 1 - length l)%nat with 1%nat by lia. }
  split_and!; try done.
  - unfold q. rewrite drop_insert_ge by lia. replace (p + length l - p)%nat with (length l) by lia.
    rewrite E, insert_app_r_alt, Nat.sub_diag by lia. done.
  - by rewrite drop_insert_lt by lia.
  - unfold get_at. rewrite E. replace (q + 1 - p)%nat with (length l + 1)%nat by (unfold q; lia).
    rewrite take_app_ge by lia. by replace (length l + 1 - length l)%nat with 1%nat by lia.
Qed.

Lemma grep_lines_run pattern fd st junk : forall f buf p X w,
  drop p buf = X ++ 0 :: junk -> no_nul X -> (length X < f)%nat -> can_write 1 w -> u_fds w !! fd = Some st ->
  exists buf' p' w', loop f (grep_line pattern) (buf, p) w = Ret (buf', p') w' /\
    ran fd (selected pattern (lines X).1) w w' /\ u_fds w' !! fd = Some st /\ length buf' = length buf /\
    drop p' buf' = (lines X).2 ++ 0 :: junk /\ (p' + length (lines X).2 = p + length X)%nat.
Proof.
  assert (Hrefl : forall w, u_fds w !! fd = Some st -> ran fd [] w w).
  { intros w Hst. exists [], st. split; [constructor|]. split; [done|]. rewrite app_nil_r, insert_id by done. by destruct w. }
  induction f as [|f IH]; intros buf p X w Hd Hn Hf Hw Hst; [lia|]. cbn [loop]. unfold grep_line at 1.
  rewrite Hd. fold (holds X junk). rewrite strchr_holds by done. cbn [of_option]. rewrite bind_assoc, run_ret.
  destruct (list_find (fun x => x = 10) X) as [[i y]|] eqn:Ef.
  2:{ apply list_find_None in Ef. cbn [fmap option_fmap option_map]. rewrite run_ret. exists buf, p, w. unfold lines. rewrite lines_from_none by done. cbn [fst snd app].
      split_and!; try done. by apply Hrefl. }
  apply list_find_Some in Ef as (Hi & -> & Hbefore). cbn [fmap option_fmap option_map fst].
  set (l := take i X). set (X' := drop (S i) X).
  assert (EX : X = l ++ 10 :: X') by (symmetry; by apply take_drop_middle).
  assert (Hli : length l = i) by (unfold l; rewrite length_take; apply lookup_lt_Some in Hi; lia).
  assert (Hl : Forall (fun c => c <> 10) l).
  { apply Forall_lookup. intros j c Hj. unfold l in Hj. apply lookup_take_Some in Hj as [Hj Hji]. by eapply Hbefore. }
  rewrite EX in Hd, Hn. rewrite <- app_assoc in Hd. apply Forall_app in Hn as [Hnl [_ HnX]%Forall_cons].
  destruct (buffer_line buf p l (X' ++ 0 :: junk) Hd) as (Hq & Hd0 & Hd1 & Hd2 & Hget). rewrite Hli in *.
  rewrite Hd0, cstring_holds by done. 
  assert (EL : lines X = (l :: (lines X').1, (lines X').2)) by (rewrite EX; by apply lines_cons). rewrite EL. cbn [fst snd].
  assert (HX : (length X' < f)%nat) by (rewrite EX in Hf; rewrite length_app in Hf; cbn [length] in Hf; lia).
  assert (Hlen : (p + i + 1 + length X' = p + length X)%nat) by (rewrite EX, length_app; cbn [length]; lia).
  destruct (match_ pattern l) eqn:Em.
  - rewrite list_insert_insert_eq, list_insert_id by done. rewrite Hget.
    destruct (write_ran fd (l ++ [10]) w st Hw Hst) as (w1 & Ew & Hr1 & Hst1).
    rewrite bind_assoc, (bind_Ret _ _ _ _ _ Ew), run_ret.
    destruct (IH buf (p + i + 1)%nat X' w1 Hd2 HnX HX (ran_can_write _ _ _ _ 1 Hr1 Hw) Hst1)
      as (buf' & p' & w2 & E & Hr & H3 & H4 & H5 & H6).
    exists buf', p', w2. split_and!; try done; [|lia].
    unfold selected. rewrite filter_cons_True by done. cbn [fmap list_fmap concat]. by eapply ran_trans.
  - rewrite run_ret. destruct (IH (<[(p + i)%nat := 0]> buf) (p + i + 1)%nat X' w Hd1 HnX HX Hw Hst)
      as (buf' & p' & w2 & E & Hr & H3 & H4 & H5 & H6).
    exists buf', p', w2. rewrite length_insert in H4. split_and!; try done; [|lia].
    unfold selected. rewrite filter_cons_False by congruence. done.
Qed.

(** All lines fit into the buffer. *)
Definition short_lines (text : list Z) : Prop :=
  Forall (fun l => (length l <= 1022)%nat) ((lines text).1 ++ [(lines text).2]).

Lemma lines_from_prefix cur text :
  exists l ls, (lines_from cur text).1 ++ [(lines_from cur text).2] = l :: ls /\ (length cur <= length l)%nat.
Proof.
  revert cur. induction text as [|c text IH]; intros cur; cbn [lines_from].
  - by exists cur, [].
  - destruct (c =? 10).
    + destruct (lines_from [] text). by eexists _, _.
    + destruct (IH (cur ++ [c])) as (l & ls & E & Hl). exists l, ls. split; [done|]. rewrite length_app in Hl. lia.
Qed.

Lemma short_pending pend text : Forall (fun c => c <> 10) pend -> short_lines (pend ++ text) -> (length pend <= 1022)%nat.
Proof.
  intros Hp Hs. unfold short_lines in Hs. rewrite lines_pending in Hs by done.
  destruct (lines_from_prefix pend text) as (l & ls & E & Hl). rewrite E in Hs. apply Forall_cons in Hs as [? _]. lia.
Qed.

(** The lines of a text of which a first part has been dealt with. *)
Lemma lines_split x y :
  lines (x ++ y) = ((lines x).1 ++ (lines ((lines x).2 ++ y)).1, (lines ((lines x).2 ++ y)).2).
Proof.
  unfold lines at 1. rewrite lines_from_app. rewrite (lines_pending (lines x).2 y) by apply lines_rest_clean. done.
Qed.

Lemma grep_loop pattern fd : forall f buf pend w st,
  length buf = BUFSIZE -> take (length pend) buf = pend -> Forall (fun c => c <> 10) pend -> no_nul pend ->
  no_nul (stream_bytes st) -> short_lines (pend ++ stream_bytes st) ->
  u_fds w !! fd = Some st -> can_write 1 w -> (stream_size st < f)%nat ->
  exists buf' w', loop f (grep_round pattern fd) (buf, length pend) w = Ret buf' w' /\ length buf' = BUFSIZE /\
    ran fd (selected pattern (lines (pend ++ stream_bytes st)).1) w w'.
Proof.
  induction f as [|f IH]; intros buf pend w st Hlen Htk Hnl Hnn Hns Hsh Hst Hw Hf; [lia|].
  pose proof (short_pending _ _ Hnl Hsh) as Hm. cbn [loop]. unfold grep_round at 1.
  set (k := Z.of_nat (BUFSIZE - length pend - 1)). assert (Hk : 0 < k) by (unfold k, BUFSIZE; lia).
  destruct (read_ran fd k w st Hst Hk) as (r & b & st' & w1 & Er & Hr & Hst' & Hcase).
  rewrite bind_assoc, (bind_Ret _ _ _ _ _ Er). cbn [fst snd].
  destruct Hcase as [(H1 & -> & Eb & H2)|(-> & H1 & Eb & Ef & Hs)].
  - destruct (Z.ltb_spec 0 r); [lia|]. rewrite run_ret. exists buf, w1. split; [done|]. split; [done|].
    rewrite Eb, app_nil_r. unfold lines. by rewrite lines_from_none.
  - destruct (Z.ltb_spec 0 (Z.of_nat (length b))); [|lia]. rewrite Eb in *. apply Forall_app in Hns as [Hnb Hns].
    set (m := (length pend + length b)%nat). assert (Hm1 : (m < BUFSIZE)%nat) by (unfold m, k in *; lia).
    set (buf1 := put_at buf (length pend) b). assert (Hl1 : length buf1 = BUFSIZE).
    { unfold buf1. rewrite length_put_at; [done|]. unfold m in Hm1. lia. }
    assert (Et1 : take m buf1 = pend ++ b).
    { unfold buf1, put_at. rewrite Htk, take_app_ge by (unfold m; lia).
      replace (m - length pend)%nat with (length b) by (unfold m; lia). by rewrite take_app_length. }
    set (X := pend ++ b). assert (HX : length X = m) by (unfold X, m; by rewrite length_app).
    assert (Ed : drop 0 (<[m := 0]> buf1) = X ++ 0 :: drop (S m) buf1).
    { rewrite drop_0. unfold X. rewrite <- Et1. destruct (lookup_lt_is_Some_2 buf1 m) as [c Hc]; [lia|].
      rewrite <- (take_drop_middle buf1 m c Hc) at 1. rewrite insert_app_r_alt by (rewrite length_take; lia).
      rewrite length_take. by replace (m - m `min` length buf1)%nat with 0%nat by lia. }
    destruct (grep_lines_run pattern fd st' (drop (S m) buf1) (S BUFSIZE) (<[m := 0]> buf1) 0 X w1 Ed)
      as (buf2 & p & w2 & El & Hr2 & Hst2 & Hl2 & Hd2 & Hp2).
    { apply Forall_app. by split. } { lia. } { by eapply ran_can_write. } { done. }
    rewrite bind_assoc, (bind_Ret _ _ _ _ _ El). destruct (Nat.ltb_spec 0 m); [|lia]. rewrite run_ret.
    set (pend' := (lines X).2) in *. assert (Emp : (m - p)%nat = length pend') by lia. rewrite Emp.
    assert (Eg : get_at buf2 p (length pend') = pend') by (unfold get_at; by rewrite Hd2, take_app_length).
    rewrite Eg. rewrite length_insert in Hl2.
    assert (Hl3 : length (put_at buf2 0 pend') = BUFSIZE) by (rewrite length_put_at; lia).
    assert (El3 : lines (X ++ stream_bytes st') = ((lines X).1 ++ (lines (pend' ++ stream_bytes st')).1, (lines (pend' ++ stream_bytes st')).2))
      by apply lines_split.
    unfold X in El3. rewrite <- app_assoc in El3. fold X in El3.
    destruct (IH (put_at buf2 0 pend') pend' w2 st') as (buf3 & w3 & E3 & Hl4 & Hr3); try done.
    + unfold put_at. rewrite take_0. cbn [app]. by rewrite take_app_length.
    + apply lines_rest_clean.
    + pose proof (lines_concat X) as Ec. assert (HnX : no_nul X) by (apply Forall_app; by split).
      rewrite <- Ec in HnX. apply Forall_app in HnX as [_ ?]. done.
    + unfold short_lines in *. rewrite El3 in Hsh. cbn [fst snd] in Hsh. rewrite <- app_assoc in Hsh. by apply Forall_app in Hsh as [_ ?].
    + eapply ran_can_write; [exact Hr2|]. by eapply ran_can_write.
    + lia.
    + exists buf3, w3. split; [exact E3|]. split; [done|]. rewrite El3. cbn [fst]. rewrite selected_app.
      eapply (ran_trans fd []); [exact Hr|]. by eapply ran_trans.
Qed.

(** grep, however the kernel cuts its input into reads: for a text
    without NUL bytes whose lines have at most 1022 characters, it prints
    exactly the lines that match the pattern, in order, each with its newline;
    what follows the last newline is never printed. *)
Theorem grep_selects_lines pattern buf fd w st :
  length buf = BUFSIZE -> u_fds w !! fd = Some st -> can_write 1 w ->
  no_nul (stream_bytes st) -> short_lines (stream_bytes st) ->
  exists buf' w', grep pattern fd buf w = Ret buf' w' /\ length buf' = BUFSIZE /\
    output 1 w' = output 1 w ++ selected pattern (lines (stream_bytes st)).1.
Proof.
  intros Hlen Hst Hw Hn Hs. unfold grep. rewrite run_gets. unfold input. rewrite Hst. cbn [default]. unfold id.
  destruct (grep_loop pattern fd (S (stream_size st)) buf [] w st) as (buf' & w' & E & Hl & Hr);
    try done; [by apply Forall_nil|lia|].
  exists buf', w'. split; [exact E|]. split; [done|]. by eapply ran_output.
Qed.

(** "ab\nc\n", pattern "b" *)
Lemma grep_selects_lines_witness :
  exists w buf' w', grep [98] 0 (replicate BUFSIZE 0) w = Ret buf' w' /\ output 1 w' = [97; 98; 10].
Proof.
  pose (w := mk_uworld (<[0 := [Data [97]; Data [98; 10; 99]; Data [10]]]> {[ 1 := []; 2 := [] ]}) ∅ [] [] None).
  destruct (grep_selects_lines [98] (replicate BUFSIZE 0) 0 w [Data [97]; Data [98; 10; 99]; Data [10]])
    as (buf' & w' & E & _ & Ho).
  - reflexivity.
  - reflexivity.
  - split; [by eexists|done].
  - repeat constructor; lia.
  - repeat constructor; cbn; lia.
  - exists w, buf', w'. split; [exact E|exact Ho].
Defined.
