(* ===== verification/Sh.v ===== *)
(** user/sh.c: the shell's parser.

    The command line is [s], its bytes up to the NUL at [es]; a [char *] into
    it is an index, and the variable [*ps] that the parsing functions share is
    the state of the parser's monad. [panic] ends the process: it is the
    outcome [Panic]. An execcmd is completed after redirections have been
    wrapped around it, through the pointer [cmd]; here parseexec collects the
    arguments and the redirections and builds the nodes when both are known. *)

From stdpp Require Import base numbers list gmap strings.
From S2P Require Import Prelude Params Mem User ULib.

Definition MAXARGS : nat := 10.

(** A counted string: its first character and the one behind its last. *)
Definition span : Type := nat * nat.

Inductive cmd :=
| EXEC (argv : list span)
| REDIR (c : cmd) (file : span) (mode fd : Z)
| PIPE (left right : cmd)
| LIST (left right : cmd)
| BACK (c : cmd).

Definition whitespace : list Z := [32; 9; 13; 10; 11].
Definition symbols : list Z := bytes_of "<|>&;()".
Definition one_of (toks : list Z) (c : Z) : bool := bool_decide (c ∈ toks).

(** How many characters at the front satisfy [f]. *)
Fixpoint span_len (f : Z -> bool) (l : list Z) : nat :=
  match l with
  | c :: l => if f c then S (span_len f l) else 0%nat
  | [] => 0%nat
  end.

Definition is_white (c : Z) : bool := one_of whitespace c.
Definition is_word (c : Z) : bool := negb (one_of whitespace c) && negb (one_of symbols c).

Section Parser.
Context (s : list Z).

Definition P : Type -> Type := M nat.

(** [while(s < es && strchr(whitespace, *s)) s++] *)
Definition skip_white (i : nat) : nat := (i + span_len is_white (drop i s))%nat.

(** The token, and where it begins and ends. *)
Definition gettoken : P (Z * span) := fun ps =>
  let i := skip_white ps in
  let done tok e := Ret (tok, (i, e)) (skip_white e) in
  match s !! i with
  | None => done 0 i
  | Some c =>
      if one_of (bytes_of "|();&<") c then done c (i + 1)%nat
      else if c =? 62 then
        match s !! (i + 1)%nat with
        | Some d => if d =? 62 then done 43 (i + 2)%nat else done 62 (i + 1)%nat
        | None => done 62 (i + 1)%nat
        end
      else done 97 (i + span_len is_word (drop i s))%nat
  end.

Definition peek (toks : list Z) : P bool := fun ps =>
  let i := skip_white ps in
  Ret (match s !! i with None => false | Some c => one_of toks c end) i.

(** A redirection: the file, the mode it is opened with, the descriptor. *)
Definition redir : Type := span * Z * Z.

Definition wrap (c : cmd) (rs : list redir) : cmd :=
  foldl (fun c '(file, mode, fd) => REDIR c file mode fd) c rs.

(** A round of parseredirs' loop: the redirections so far. *)
Definition redirs_round (rs : list redir) : P (list redir + list redir) :=
  let! b := peek (bytes_of "<>") in
  if b then
    let! t := gettoken in
    let! f := gettoken in
    if negb (f.1 =? 97) then panic "missing file for redirection"
    else
      ret (inl (rs ++
        (if t.1 =? 60 then [(f.2, O_RDONLY, 0)]
         else if t.1 =? 62 then [(f.2, Z.lor (Z.lor O_WRONLY O_CREATE) O_TRUNC, 1)]
         else if t.1 =? 43 then [(f.2, Z.lor O_WRONLY O_CREATE, 1)]
         else [])))
  else ret (inr rs).

Definition parseredirs : P (list redir) := loop (S (length s)) redirs_round [].

(** A round of parseexec's loop: the arguments and the redirections. *)
Definition args_round : list span * list redir -> P ((list span * list redir) + (list span * list redir)) :=
  fun '(argv, rs) =>
    let! b := peek (bytes_of "|)&;") in
    if b then ret (inr (argv, rs))
    else
      let! t := gettoken in
      if t.1 =? 0 then ret (inr (argv, rs))
      else if negb (t.1 =? 97) then panic "syntax"
      else
        let argv := argv ++ [t.2] in
        if (MAXARGS <=? length argv)%nat then panic "too many args"
        else
          let! rs' := parseredirs in
          ret (inl (argv, rs ++ rs')).

Definition parse_args : P cmd :=
  let! rs := parseredirs in
  let! r := loop (S (length s)) args_round ([], rs) in
  ret (wrap (EXEC r.1) r.2).

(** A round of parseline's loop. *)
Definition back_round (c : cmd) : P (cmd + cmd) :=
  let! b := peek (bytes_of "&") in
  if b then gettoken ;; ret (inl (BACK c)) else ret (inr c).

Fixpoint parseline (fuel : nat) : P cmd :=
  match fuel with
  | O => fun _ => NoFuel
  | S f =>
      let! c := parsepipe f in
      let! c := loop (S (length s)) back_round c in
      let! b := peek (bytes_of ";") in
      if b then gettoken ;; let! r := parseline f in ret (LIST c r) else ret c
  end
with parsepipe (fuel : nat) : P cmd :=
  match fuel with
  | O => fun _ => NoFuel
  | S f =>
      let! c := parseexec f in
      let! b := peek (bytes_of "|") in
      if b then gettoken ;; let! r := parsepipe f in ret (PIPE c r) else ret c
  end
with parseexec (fuel : nat) : P cmd :=
  match fuel with
  | O => fun _ => NoFuel
  | S f =>
      let! b := peek (bytes_of "(") in
      if b then parseblock f else parse_args
  end
with parseblock (fuel : nat) : P cmd :=
  match fuel with
  | O => fun _ => NoFuel
  | S f =>
      let! b := peek (bytes_of "(") in
      if negb b then panic "parseblock"
      else
        gettoken ;;
        let! c := parseline f in
        let! b := peek (bytes_of ")") in
        if negb b then panic "syntax - missing )"
        else
          gettoken ;;
          let! rs := parseredirs in
          ret (wrap c rs)
  end.

(** Every recursive call is four deep at most before a token is consumed. *)
Definition parse_fuel : nat := (4 * length s + 4)%nat.

Definition parse : P cmd :=
  let! c := parseline parse_fuel in
  peek [] ;;
  let! ps := get in
  if negb (ps =? length s)%nat then panic "syntax" else ret c.
End Parser.

(** nulterminate, on the whole buffer. *)
Fixpoint nulterminate (c : cmd) (buf : list Z) : list Z :=
  match c with
  | EXEC argv => foldl (fun buf '(_, eq) => <[eq := 0]> buf) buf argv
  | REDIR c file _ _ => <[file.2 := 0]> (nulterminate c buf)
  | PIPE l r => nulterminate r (nulterminate l buf)
  | LIST l r => nulterminate r (nulterminate l buf)
  | BACK c => nulterminate c buf
  end.

(** parsecmd: the command and the buffer it points into. *)
Definition parsecmd (s : list Z) : outcome nat (cmd * list Z) :=
  obind (parse s 0%nat) (fun c ps => Ret (c, nulterminate c (s ++ [0])) ps).

(** ** The commands as runcmd sees them *)

Inductive ast :=
| AExec (argv : list (list Z))
| ARedir (c : ast) (file : list Z) (mode fd : Z)
| APipe (left right : ast)
| AList (left right : ast)
| ABack (c : ast).

(** The strings that the pointers of a command point to. *)
Fixpoint resolve (buf : list Z) (c : cmd) : ast :=
  match c with
  | EXEC argv => AExec ((fun '(q, _) => cstring (drop q buf)) <$> argv)
  | REDIR c file mode fd => ARedir (resolve buf c) (cstring (drop file.1 buf)) mode fd
  | PIPE l r => APipe (resolve buf l) (resolve buf r)
  | LIST l r => AList (resolve buf l) (resolve buf r)
  | BACK c => ABack (resolve buf c)
  end.

Definition show (s : list Z) : option ast :=
  match parsecmd s with Ret (c, buf) _ => Some (resolve buf c) | _ => None end.
