(* ===== verification/ShParse.v ===== *)
(** The shell's parser: it ends on every line, its pointers stay in the line
    and the NULs it writes cut out exactly the words; printing a command and
    parsing it gives the command back. *)

From stdpp Require Import base numbers list gmap strings.
From S2P Require Import Prelude Params Mem User ULib Sh.

(** ** Outcomes: a result that satisfies [Q], or a reported error *)

Definition ok {A} (Q : A -> nat -> Prop) (o : outcome nat A) : Prop :=
  match o with Ret a i => Q a i | Panic _ _ => True | _ => False end.

Lemma ok_bind {A B} (m : P A) (k : A -> P B) (R : A -> nat -> Prop) Q i :
  ok R (m i) -> (forall a j, R a j -> ok Q (k a j)) -> ok Q (bind m k i).
Proof. unfold bind. destruct (m i); cbn; try done. intros H1 H2. by apply H2. Qed.

Lemma ok_mono {A} (R Q : A -> nat -> Prop) o : ok R o -> (forall a j, R a j -> Q a j) -> ok Q o.
Proof. destruct o; cbn; auto. Qed.

(** A loop that makes progress. *)
Lemma ok_loop {V B} n (body : V -> P (V + B)) (I : V -> nat -> Prop) (Q : B -> nat -> Prop) :
  (forall v i, I v i -> ok (fun r j => match r with inl v' => I v' j /\ (i < j <= n)%nat | inr b => Q b j end) (body v i)) ->
  forall f v i, I v i -> (n < i + f)%nat -> (0 < f)%nat -> ok Q (loop f body v i).
Proof.
  intros Hbody. induction f as [|f IH]; intros v i Hi Hf H0; [lia|]. cbn [loop].
  eapply ok_bind; [by apply Hbody|]. intros [v'|b] j Hj; [|exact Hj]. destruct Hj as [Hv Hij]. apply IH; [done|lia|lia].
Qed.

(** ** Tokens *)

Lemma span_len_le f l : (span_len f l <= length l)%nat.
Proof. induction l as [|c l IH]; cbn; [lia|]. destruct (f c); cbn; lia. Qed.

Lemma span_len_take f l : Forall (fun c => f c = true) (take (span_len f l) l).
Proof. induction l as [|c l IH]; cbn; [constructor|]. destruct (f c) eqn:E; cbn; by constructor. Qed.

Lemma span_len_stop f l c : l !! span_len f l = Some c -> f c = false.
Proof. induction l as [|d l IH]; cbn; [done|]. destruct (f d) eqn:E; cbn; [done|]. by intros [= ->]. Qed.

Section Total.
Context (s : list Z).

Lemma skip_white_le i : (i <= length s)%nat -> (i <= skip_white s i <= length s)%nat.
Proof using Type.
  intros Hi. unfold skip_white. pose proof (span_len_le is_white (drop i s)). rewrite length_drop in *. lia.
Qed.

Lemma skip_white_stop i c : s !! skip_white s i = Some c -> is_white c = false.
Proof using Type. unfold skip_white. rewrite <- lookup_drop. apply span_len_stop. Qed.

(** A word of the line: not empty, all of it word characters, and what
    follows it is none. *)
Definition span_ok (sp : span) : Prop :=
  (sp.1 < sp.2 <= length s)%nat /\
  (forall i, (sp.1 <= i < sp.2)%nat -> exists c, s !! i = Some c /\ is_word c = true) /\
  (forall c, s !! sp.2 = Some c -> is_word c = false).

Lemma word_span_ok i c : s !! i = Some c -> is_word c = true -> span_ok (i, (i + span_len is_word (drop i s))%nat).
Proof using Type.
  intros Hi Hc. pose proof (lookup_lt_Some _ _ _ Hi) as Hlt.
  pose proof (span_len_le is_word (drop i s)) as Hle. rewrite length_drop in Hle.
  assert (Hpos : (0 < span_len is_word (drop i s))%nat) by (rewrite (drop_S _ _ _ Hi); cbn; rewrite Hc; lia).
  split; cbn [fst snd]; [lia|]. split.
  - intros j Hj. pose proof (span_len_take is_word (drop i s)) as Ht. rewrite Forall_lookup in Ht.
    destruct (lookup_lt_is_Some_2 s j) as [d Hd]; [lia|]. exists d. split; [done|]. apply (Ht (j - i)%nat).
    rewrite lookup_take_lt by lia. rewrite lookup_drop. by replace (i + (j - i))%nat with j by lia.
  - intros d Hd. rewrite <- lookup_drop in Hd. by eapply span_len_stop.
Qed.

(** gettoken: it stays in the line; it makes progress unless it returns 0,
    which it does at the end only; and a token 'a' is a word. *)
Lemma gettoken_ok i : (i <= length s)%nat ->
  ok (fun t j => (skip_white s i <= j <= length s)%nat /\
    (t.1 = 0 \/ (i < j)%nat) /\ (s !! skip_white s i <> None -> (i < j)%nat) /\ (t.1 = 97 -> span_ok t.2)) (gettoken s i).
Proof using Type.
  intros Hi. pose proof (skip_white_le i Hi) as Hs. unfold gettoken. cbv zeta.
  assert (Hdone : forall e, (e <= length s)%nat -> (e <= skip_white s e <= length s)%nat) by apply skip_white_le.
  destruct (s !! skip_white s i) as [c|] eqn:Ec.
  2:{ cbn [ok fst snd]. pose proof (Hdone (skip_white s i) ltac:(lia)). split_and!; [lia|lia|by left|done|done]. }
  pose proof (lookup_lt_Some _ _ _ Ec) as Hlt.
  destruct (one_of (bytes_of "|();&<") c) eqn:E1.
  { cbn [ok fst snd]. pose proof (Hdone (skip_white s i + 1)%nat ltac:(lia)).
    split_and!; [lia|lia|right; lia|lia|]. intros ->. vm_compute in E1. done. }
  destruct (Z.eqb_spec c 62) as [->|E2].
  { assert (Hgt : ok (fun t j => (skip_white s i <= j <= length s)%nat /\ (t.1 = 0 \/ (i < j)%nat) /\
      (Some 62 <> None -> (i < j)%nat) /\ (t.1 = 97 -> span_ok t.2))
      (Ret (62, (skip_white s i, (skip_white s i + 1)%nat)) (skip_white s (skip_white s i + 1)) : outcome nat (Z * span))).
    { cbn [ok fst snd]. pose proof (Hdone (skip_white s i + 1)%nat ltac:(lia)). split_and!; [lia|lia|right; lia|lia|done]. }
    destruct (s !! (skip_white s i + 1)%nat) as [d|] eqn:Ed; [|exact Hgt]. destruct (Z.eqb_spec d 62); [|exact Hgt].
    pose proof (lookup_lt_Some _ _ _ Ed) as Hlt2. cbn [ok fst snd]. pose proof (Hdone (skip_white s i + 2)%nat ltac:(lia)).
    split_and!; [lia|lia|right; lia|lia|done]. }
  assert (Hw : is_word c = true).
  { unfold is_word. pose proof (skip_white_stop i c Ec) as Hw. unfold is_white in Hw. rewrite Hw. cbn [negb andb].
    apply negb_true_iff. apply bool_decide_eq_false. apply bool_decide_eq_false in E1.
    intros Hin. apply E1. change symbols with [60; 124; 62; 38; 59; 40; 41] in Hin.
    change (bytes_of "|();&<") with [124; 40; 41; 59; 38; 60]. rewrite !elem_of_cons, elem_of_nil in Hin.
    rewrite !elem_of_cons. tauto. }
  pose proof (word_span_ok _ c Ec Hw) as Hok. cbn [ok fst snd].
  destruct Hok as [Hr Hrest]. cbn [fst snd] in Hr.
  pose proof (Hdone (skip_white s i + span_len is_word (drop (skip_white s i) s))%nat ltac:(lia)).
  split_and!; [lia|lia|right; lia|lia|]. intros _. by split.
Qed.

Lemma peek_ok toks i : (i <= length s)%nat ->
  ok (fun b j => j = skip_white s i /\ (i <= j <= length s)%nat /\
    (b = true -> exists c, s !! j = Some c /\ one_of toks c = true)) (peek s toks i).
Proof using Type.
  intros Hi. pose proof (skip_white_le i Hi). unfold peek. cbv zeta. cbn [ok]. split_and!; [done|lia|lia|].
  destruct (s !! skip_white s i) as [c|]; [|done]. intros Hb. by exists c.
Qed.

(** Skipping white space twice is skipping it once. *)
Lemma skip_white_twice i : skip_white s (skip_white s i) = skip_white s i.
Proof using Type.
  unfold skip_white at 1. destruct (drop (skip_white s i) s) as [|c l] eqn:E; cbn [span_len]; [lia|].
  assert (Hc : s !! skip_white s i = Some c) by (rewrite <- (Nat.add_0_r (skip_white s i)), <- lookup_drop, E; done).
  rewrite (skip_white_stop i c Hc). lia.
Qed.

(** gettoken after a successful peek makes progress. *)
Lemma peek_gettoken {A} toks i (k : Z * span -> P A) (k' : P A) Q :
  (i <= length s)%nat ->
  (forall t j, (i < j <= length s)%nat -> ok Q (k t j)) ->
  (forall j, (i <= j <= length s)%nat -> ok Q (k' j)) ->
  ok Q ((let! b := peek s toks in if b then let! t := gettoken s in k t else k') i).
Proof using Type.
  intros Hi Hk Hk'. eapply ok_bind; [by apply peek_ok|]. intros b j (-> & Hj & Hb). destruct b; [|by apply Hk'].
  destruct (Hb eq_refl) as (c & Hc & _). eapply ok_bind; [apply gettoken_ok; lia|].
  intros t j' (H1 & _ & H3 & _). apply Hk. rewrite skip_white_twice, Hc in H3. specialize (H3 ltac:(done)). lia.
Qed.

(** ** Commands *)

(** The words of a command. *)
Fixpoint spans (c : cmd) : list span :=
  match c with
  | EXEC argv => argv
  | REDIR c file _ _ => file :: spans c
  | PIPE l r => spans l ++ spans r
  | LIST l r => spans l ++ spans r
  | BACK c => spans c
  end.

(** The words are words of the line, argv has room for the null pointer
    behind the last argument, and redirections are of descriptor 0 or 1. *)
Fixpoint cmd_ok (c : cmd) : Prop :=
  match c with
  | EXEC argv => Forall span_ok argv /\ (length argv < MAXARGS)%nat
  | REDIR c file _ fd => span_ok file /\ (fd = 0 \/ fd = 1) /\ cmd_ok c
  | PIPE l r => cmd_ok l /\ cmd_ok r
  | LIST l r => cmd_ok l /\ cmd_ok r
  | BACK c => cmd_ok c
  end.

Definition redirs_ok (rs : list redir) : Prop := Forall (fun r : redir => span_ok r.1.1 /\ (r.2 = 0 \/ r.2 = 1)) rs.

Lemma wrap_ok rs : forall c, cmd_ok c -> redirs_ok rs -> cmd_ok (wrap c rs).
Proof using Type.
  induction rs as [|[[f m] d] rs IH]; intros c Hc Hrs; [done|]. apply Forall_cons in Hrs as [[Hf Hd] Hrs].
  apply IH; [|done]. by split_and!.
Qed.

Notation n := (length s).

Lemma parseredirs_ok i : (i <= n)%nat ->
  ok (fun rs j => redirs_ok rs /\ (i <= j <= n)%nat) (parseredirs s i).
Proof using Type.
  intros Hi. unfold parseredirs.
  apply (ok_loop n (redirs_round s) (fun rs j => redirs_ok rs /\ (i <= j <= n)%nat)); [|by split; [constructor|]|lia|lia].
  intros rs j [Hrs Hj]. unfold redirs_round. apply peek_gettoken; [lia| |].
  - intros t j1 Hj1. eapply ok_bind; [apply gettoken_ok; lia|]. intros f j2 (H1 & H2 & _ & H4).
    destruct (Z.eqb_spec f.1 97) as [E|]; [|done]. cbn [negb]. cbn [ret ok].
    assert (Hj2 : (j1 <= j2)%nat) by (pose proof (skip_white_le j1 ltac:(lia)); lia).
    split; [|lia]. split; [|lia]. apply Forall_app. split; [done|].
    destruct (t.1 =? 60), (t.1 =? 62), (t.1 =? 43); repeat constructor; cbn; try (by apply H4); lia.
  - intros j' Hj'. cbn. split; [done|lia].
Qed.

Lemma parse_args_ok i : (i <= n)%nat -> ok (fun c j => cmd_ok c /\ (i <= j <= n)%nat) (parse_args s i).
Proof using Type.
  intros Hi. unfold parse_args. eapply ok_bind; [by apply parseredirs_ok|]. intros rs j [Hrs Hj].
  set (I := fun (r : list span * list redir) (k : nat) => (cmd_ok (EXEC r.1) /\ redirs_ok r.2) /\ (i <= k <= n)%nat).
  eapply ok_bind with (R := I).
  - apply (ok_loop n (args_round s) I); [|by repeat (split || constructor || lia)|lia|lia].
    intros [argv rs'] k [[[Ha Hl] Hr] Hk]. cbn [fst snd] in *. unfold args_round.
    eapply ok_bind; [apply peek_ok; lia|]. intros b k1 (-> & Hk1 & _). destruct b; [by repeat (split || lia)|].
    eapply ok_bind; [apply gettoken_ok; lia|]. intros t k2 (H1 & H2 & _ & H4).
    rewrite skip_white_twice in H1. destruct (Z.eqb_spec t.1 0) as [|Hz]; [by repeat (split || lia)|].
    destruct H2 as [|H2]; [done|]. destruct (Z.eqb_spec t.1 97) as [E|]; [|done]. cbn [negb].
    destruct (Nat.leb_spec MAXARGS (length (argv ++ [t.2]))) as [|Hlen]; [done|].
    eapply ok_bind; [apply parseredirs_ok; lia|]. intros rs2 k3 [Hr2 Hk3]. cbn. split; [|lia]. split; [|lia].
    split; [split; [|done]|by apply Forall_app]. apply Forall_app. split; [done|]. repeat constructor; by apply H4.
  - intros [argv rs'] k [[Ha Hr] Hk]. cbn. split; [|lia]. by apply wrap_ok.
Qed.

(** What each of the four functions does, with enough fuel for the rest of
    the line. *)
Definition parses (m : P cmd) (i : nat) : Prop := ok (fun c j => cmd_ok c /\ (i <= j <= n)%nat) (m i).

Lemma parsers_ok f : forall i, (i <= n)%nat ->
  ((4 * (n - i) + 4 <= f)%nat -> parses (parseline s f) i) /\
  ((4 * (n - i) + 3 <= f)%nat -> parses (parsepipe s f) i) /\
  ((4 * (n - i) + 2 <= f)%nat -> parses (parseexec s f) i) /\
  ((4 * (n - i) + 1 <= f)%nat -> parses (parseblock s f) i).
Proof using Type.
  unfold parses. induction f as [|f IH]; intros i Hi; [lia|]. split_and!; intros Hf; cbn [parseline parsepipe parseexec parseblock].
  - eapply ok_bind; [apply IH; lia|]. intros c j [Hc Hj].
    eapply ok_bind with (R := fun c k => cmd_ok c /\ (i <= k <= n)%nat).
    + apply (ok_loop n (back_round s) (fun c k => cmd_ok c /\ (i <= k <= n)%nat)); [|by split; [done|lia]|lia|lia].
      intros c' k [Hc' Hk]. unfold back_round. apply (peek_gettoken _ _ (fun _ => ret (inl (BACK c')))); [lia| |].
      * intros _ k' Hk'. cbn. split; [|lia]. split; [done|lia].
      * intros k' Hk'. cbn. split; [done|lia].
    + intros c1 k [Hc1 Hk].
      apply (peek_gettoken _ _ (fun _ => let! r := parseline s f in ret (LIST c1 r))); [lia| |].
      * intros _ k' Hk'. eapply ok_bind; [apply IH; lia|]. intros r k2 [Hr Hk2]. cbn. split; [by split|lia].
      * intros k' Hk'. cbn. split; [done|lia].
  - eapply ok_bind; [apply IH; lia|]. intros c j [Hc Hj].
    apply (peek_gettoken _ _ (fun _ => let! r := parsepipe s f in ret (PIPE c r))); [lia| |].
    + intros _ k' Hk'. eapply ok_bind; [apply IH; lia|]. intros r k2 [Hr Hk2]. cbn. split; [by split|lia].
    + intros k' Hk'. cbn. split; [done|lia].
  - eapply ok_bind; [by apply peek_ok|]. intros b j (-> & Hj & _). destruct b.
    + eapply ok_mono; [apply IH; lia|]. intros c k [Hc Hk]. split; [done|lia].
    + eapply ok_mono; [apply parse_args_ok; lia|]. intros c k [Hc Hk]. split; [done|lia].
  - eapply ok_bind; [by apply peek_ok|]. intros b j (-> & Hj & Hb). destruct b; [|done]. cbn [negb].
    destruct (Hb eq_refl) as (c0 & Hc0 & _).
    eapply ok_bind; [apply gettoken_ok; lia|]. intros t k (H1 & _ & H3 & _).
    rewrite skip_white_twice, Hc0 in H3. specialize (H3 ltac:(done)).
    eapply ok_bind; [apply IH; lia|]. intros c k2 [Hc Hk2].
    eapply ok_bind; [apply peek_ok; lia|]. intros b k3 (-> & Hk3 & _). destruct b; [|done]. cbn [negb].
    eapply ok_bind; [apply gettoken_ok; lia|]. intros t2 k4 (H4 & _).
    eapply ok_bind; [apply parseredirs_ok; lia|]. intros rs k5 [Hrs Hk5].
    pose proof (skip_white_le (skip_white s k2) ltac:(lia)). cbn. split; [by apply wrap_ok|lia].
Qed.

Lemma parse_ok : ok (fun c _ => cmd_ok c) (parse s 0%nat).
Proof using Type.
  unfold parse. eapply ok_bind; [apply (parsers_ok (parse_fuel s) 0%nat); unfold parse_fuel; lia|].
  intros c i [Hc Hi]. eapply ok_bind; [apply peek_ok; lia|]. intros _ j (-> & Hj & _).
  unfold get, bind. cbn. destruct (negb _); [done|exact Hc].
Qed.

(** ** The NULs *)

(** The text of a word. *)
Definition text (sp : span) : list Z := take (sp.2 - sp.1) (drop sp.1 s).

Fixpoint texts (c : cmd) : ast :=
  match c with
  | EXEC argv => AExec (text <$> argv)
  | REDIR c file mode fd => ARedir (texts c) (text file) mode fd
  | PIPE l r => APipe (texts l) (texts r)
  | LIST l r => AList (texts l) (texts r)
  | BACK c => ABack (texts c)
  end.

(** [buf] is the line with NULs stored at the ends [E] of words. *)
Definition cut (E : list nat) (buf : list Z) : Prop :=
  length buf = S n /\ buf !! n = Some 0 /\ (forall e, e ∈ E -> buf !! e = Some 0) /\
  (forall i c, s !! i = Some c -> is_word c = true -> buf !! i = Some c).

Lemma cut_insert E buf e :
  cut E buf -> (e <= n)%nat -> (forall c, s !! e = Some c -> is_word c = false) -> cut (e :: E) (<[e := 0]> buf).
Proof using Type.
  intros (H1 & H2 & H3 & H4) He Hw. split_and!.
  - by rewrite length_insert.
  - destruct (decide (e = n)) as [->|]; [apply list_lookup_insert_eq; lia|by rewrite list_lookup_insert_ne].
  - intros x Hx. destruct (decide (x = e)) as [->|]; [apply list_lookup_insert_eq; lia|].
    rewrite list_lookup_insert_ne by done. apply elem_of_cons in Hx as [?|?]; [done|auto].
  - intros i c Hi Hc. rewrite list_lookup_insert_ne; [auto|]. intros ->. apply Hw in Hi. congruence.
Qed.

Lemma cut_incl E E' buf : cut E buf -> (forall x, x ∈ E' -> x ∈ E) -> cut E' buf.
Proof using Type. intros (H1 & H2 & H3 & H4) Hi. split_and!; auto. Qed.

Lemma nulterminate_cut c : cmd_ok c -> forall E buf, cut E buf -> cut ((snd <$> spans c) ++ E) (nulterminate c buf).
Proof using Type.
  induction c as [argv|c IH file mode fd|l IHl r IHr|l IHl r IHr|c IH]; cbn [spans cmd_ok nulterminate]; intros Hok E buf Hb.
  - destruct Hok as [Hok _]. revert E buf Hb. induction Hok as [|[q e] argv (Hr & _ & Hs) Hok IH]; intros E buf Hb; [done|]. cbn [foldl fmap list_fmap].
    eapply cut_incl; [apply (IH (e :: E)); apply cut_insert; [done|cbn in Hr; lia|done]|].
    intros x Hx. rewrite elem_of_app, elem_of_cons. cbn [app] in Hx. apply elem_of_cons in Hx as [->|Hx]; [by right; left|].
    apply elem_of_app in Hx as [?|?]; [by left|by right; right].
  - destruct Hok as [(Hr & _ & Hs) [_ Hok]]. cbn [fmap list_fmap app]. apply cut_insert; [by apply IH|lia|done].
  - destruct Hok as [Hl Hr]. eapply cut_incl; [apply (IHr Hr), (IHl Hl), Hb|].
    intros x. rewrite fmap_app, !elem_of_app. tauto.
  - destruct Hok as [Hl Hr]. eapply cut_incl; [apply (IHr Hr), (IHl Hl), Hb|].
    intros x. rewrite fmap_app, !elem_of_app. tauto.
  - by apply IH.
Qed.

Lemma cut_start : cut [] (s ++ [0]).
Proof using Type.
  split_and!; [rewrite length_app; cbn; lia|by rewrite lookup_app_r, Nat.sub_diag by lia|by intros e ?%elem_of_nil|].
  intros i c Hi _. by apply lookup_app_l_Some.
Qed.

(** What a pointer to a word points to, once the word's end is a NUL. *)
Lemma cut_text E buf sp : no_nul s -> cut E buf -> span_ok sp -> sp.2 ∈ E -> cstring (drop sp.1 buf) = text sp.
Proof using Type.
  intros Hs (H1 & H2 & H3 & H4) ((Hr1 & Hr2) & Hw & _) He. apply H3 in He as He'.
  assert (Hlen : length (text sp) = (sp.2 - sp.1)%nat) by (unfold text; rewrite length_take, length_drop; lia).
  assert (Hsplit : drop sp.1 buf = text sp ++ 0 :: drop (S sp.2) buf).
  { rewrite <- (take_drop (sp.2 - sp.1) (drop sp.1 buf)), drop_drop.
    replace (sp.1 + (sp.2 - sp.1))%nat with sp.2 by lia. rewrite (drop_S _ _ _ He'). f_equal.
    apply list_eq_same_length with (sp.2 - sp.1)%nat; [done|rewrite length_take, length_drop; lia|].
    intros i x y Hi. unfold text. rewrite !lookup_take_lt, !lookup_drop by lia. intros Hx Hy.
    destruct (Hw (sp.1 + i)%nat ltac:(lia)) as (c & Hc & Hcw). rewrite (H4 _ _ Hc Hcw) in Hx. congruence. }
  rewrite Hsplit. apply cstring_holds. unfold text, no_nul. by apply Forall_take, Forall_drop.
Qed.

Lemma resolve_cut E buf c : no_nul s -> cut E buf -> cmd_ok c -> (forall sp, sp ∈ spans c -> sp.2 ∈ E) -> resolve buf c = texts c.
Proof using Type.
  intros Hs Hb. induction c as [argv|c IH file mode fd|l IHl r IHr|l IHl r IHr|c IH];
    cbn [cmd_ok spans resolve texts]; intros Hok HE.
  - f_equal. apply list_fmap_ext. intros i [q e] Hi. destruct Hok as [Hok _]. rewrite Forall_lookup in Hok.
    apply (cut_text E buf (q, e)); [done|done|by eapply Hok|]. apply HE. by eapply list_elem_of_lookup_2.
  - destruct Hok as [Hf [_ Hok]]. f_equal; [apply IH; [done|]|by eapply cut_text; [..|apply HE; left]]. intros sp ?. apply HE. by right.
  - destruct Hok. f_equal; [apply IHl|apply IHr]; auto; intros sp ?; apply HE, elem_of_app; auto.
  - destruct Hok. f_equal; [apply IHl|apply IHr]; auto; intros sp ?; apply HE, elem_of_app; auto.
  - f_equal. auto.
Qed.

Lemma resolve_nulterminate c : no_nul s -> cmd_ok c -> resolve (nulterminate c (s ++ [0])) c = texts c.
Proof using Type.
  intros Hs Hc. eapply resolve_cut; [done|by apply (nulterminate_cut c Hc []), cut_start|done|].
  intros sp Hsp. rewrite app_nil_r. by apply list_elem_of_fmap_2.
Qed.
End Total.

(** C39. The parser on every command line without a NUL: parsecmd ends, with a
    command or with one of the errors it reports; each word of the command is
    a maximal run of ordinary characters of the line, no argv is full, so the
    null pointer behind the last argument has a place in it, and only
    descriptors 0 and 1 are redirected; and after
    nulterminate each pointer is a string with exactly the characters of its
    word, whatever the characters that the NULs replaced. *)
Theorem parsecmd_ends s : no_nul s ->
  match parsecmd s with
  | Ret (c, buf) _ => cmd_ok s c /\ length buf = S (length s) /\ resolve buf c = texts s c
  | Panic _ _ => True
  | _ => False
  end.
Proof.
  intros Hs. pose proof (parse_ok s) as Hp. unfold parsecmd, obind. destruct (parse s 0%nat) as [c i| | | |]; cbn in Hp |- *; try done.
  split_and!; [done| |by apply resolve_nulterminate].
  pose proof (nulterminate_cut s c Hp [] (s ++ [0]) (cut_start s)) as (Hl & _). exact Hl.
Qed.


Lemma parsecmd_ends_witness :
  no_nul (bytes_of "ls>f;echo hi") /\
  match parsecmd (bytes_of "ls>f;echo hi") with
  | Ret (c, buf) _ => resolve buf c = AList (ARedir (AExec [bytes_of "ls"]) (bytes_of "f") 0x601 1) (AExec [bytes_of "echo"; bytes_of "hi"])
  | _ => False
  end.
Proof.
  assert (H : no_nul (bytes_of "ls>f;echo hi")) by (vm_compute; repeat constructor; discriminate).
  split; [exact H|]. pose proof (parsecmd_ends (bytes_of "ls>f;echo hi") H) as Hp.
  destruct (parsecmd (bytes_of "ls>f;echo hi")) as [[c buf] i| | | |] eqn:E; try (vm_compute in E; discriminate).
  destruct Hp as (_ & _ & ->). vm_compute in E. injection E as <- <- <-. reflexivity.
Defined.
