(* ===== verification/ShPrint.v ===== *)
(** The shell's grammar: printing a command and parsing the line gives the
    command back. *)

From stdpp Require Import base numbers list gmap strings.
From S2P Require Import Prelude Params Mem User ULib Sh ShParse.

(** ** Printing

    A command is a list of tokens and a line is the tokens with a space before
    each. [pr k c] prints [c] where the grammar wants a line (0), a pipeline
    followed by [&]s (1), a pipeline (2) or a simple command (3), in
    parentheses when [c] is of a lower level than that. *)

Definition token : Type := list Z.
Definition line_of (ts : list token) : list Z := concat (cons 32 <$> ts).

Definition redir_token (mode fd : Z) : token :=
  if fd =? 0 then bytes_of "<" else if Z.testbit mode 10 then bytes_of ">" else bytes_of ">>".

Definition level (c : ast) : nat :=
  match c with AExec _ | ARedir _ _ _ _ => 3 | APipe _ _ => 2 | ABack _ => 1 | AList _ _ => 0 end.

Definition paren (b : bool) (ts : list token) : list token :=
  if b then bytes_of "(" :: ts ++ [bytes_of ")"] else ts.

Fixpoint pr (k : nat) (c : ast) : list token :=
  paren (level c <? k)%nat
    match c with
    | AExec argv => argv
    | ARedir c file mode fd => pr 3 c ++ [redir_token mode fd; file]
    | APipe l r => pr 3 l ++ bytes_of "|" :: pr 2 r
    | ABack c => pr 1 c ++ [bytes_of "&"]
    | AList l r => pr 1 l ++ bytes_of ";" :: pr 0 r
    end.

(** The commands a line can denote. *)
Definition word_ok (w : list Z) : Prop := w <> [] /\ Forall (fun c => is_word c = true /\ c <> 0) w.

Definition mode_ok (mode fd : Z) : Prop :=
  (mode, fd) ∈ [(O_RDONLY, 0); (Z.lor (Z.lor O_WRONLY O_CREATE) O_TRUNC, 1); (Z.lor O_WRONLY O_CREATE, 1)].

Fixpoint valid (c : ast) : Prop :=
  match c with
  | AExec argv => Forall word_ok argv /\ (length argv < MAXARGS)%nat
  | ARedir c file mode fd => valid c /\ word_ok file /\ mode_ok mode fd
  | APipe l r => valid l /\ valid r
  | AList l r => valid l /\ valid r
  | ABack c => valid c
  end.

(** ** Tokens in the line *)

Definition sym_ok (t : token) : Prop :=
  t ∈ [[60]; [62]; [62; 62]; [124]; [38]; [59]; [40]; [41]].
Definition tok_ok (t : token) : Prop := word_ok t \/ sym_ok t.

(** What gettoken returns for a token. *)
Definition code (t : token) : Z :=
  if bool_decide (sym_ok t) then if bool_decide (t = [62; 62]) then 43 else default 0 (head t) else 97.

(** The first character of the first token. *)
Definition next (ts : list token) : Z := default 0 (head (default [] (head ts))).

Lemma tok_cons t : tok_ok t -> exists c t', t = c :: t' /\ is_white c = false.
Proof.
  intros [[Hn Hw]|Hs].
  - destruct t as [|c t]; [done|]. exists c, t. split; [done|]. apply Forall_cons in Hw as [[Hc _] _].
    unfold is_word in Hc. apply andb_true_iff in Hc as [Hc _]. by apply negb_true_iff in Hc.
  - unfold sym_ok in Hs. repeat (apply elem_of_cons in Hs as [->|Hs]; [by do 2 eexists|]). by apply elem_of_nil in Hs.
Qed.

Definition gives {A} (Q : A -> nat -> Prop) (o : outcome nat A) : Prop :=
  match o with Ret a i => Q a i | _ => False end.

Lemma gives_bind {A B} (m : P A) (k : A -> P B) (R : A -> nat -> Prop) Q i :
  gives R (m i) -> (forall a j, R a j -> gives Q (k a j)) -> gives Q (bind m k i).
Proof. unfold bind. destruct (m i); cbn; try done. intros H1 H2. by apply H2. Qed.

Lemma gives_mono {A} (R Q : A -> nat -> Prop) o : gives R o -> (forall a j, R a j -> Q a j) -> gives Q o.
Proof. destruct o; cbn; auto. Qed.

Section Line.
Context (s : list Z).

(** The parser stands before the tokens [ts]. *)
Definition on (i : nat) (ts : list token) : Prop :=
  (i <= length s)%nat /\ Forall tok_ok ts /\ drop (skip_white s i) s = drop 1 (line_of ts).

Lemma on_start i ts : (i <= length s)%nat -> Forall tok_ok ts -> drop i s = line_of ts -> on i ts.
Proof using Type.
  intros Hi Hts Hd. split_and!; [done|done|]. unfold skip_white. rewrite Hd, <- drop_drop, Hd.
  destruct Hts as [|t ts Ht Hts]; [done|]. destruct (tok_cons t Ht) as (c & t' & -> & Hc).
  change (line_of ((c :: t') :: ts)) with (32 :: (c :: t') ++ line_of ts). cbn [span_len app].
  change (is_white 32) with true. rewrite Hc. done.
Qed.

Lemma on_skip i ts : on i ts -> on (skip_white s i) ts.
Proof using Type.
  intros (Hi & Ht & Hd). pose proof (skip_white_le s i Hi). split_and!; [lia|done|]. by rewrite skip_white_twice.
Qed.

Lemma on_here i t ts : on i (t :: ts) -> drop (skip_white s i) s = t ++ line_of ts.
Proof using Type. intros (_ & _ & ->). unfold line_of. cbn [fmap list_fmap concat app drop]. done. Qed.

(** Behind a token. *)
Lemma on_next i t ts : on i (t :: ts) -> on (skip_white s (skip_white s i + length t)) ts.
Proof using Type.
  intros Hon. pose proof (on_here i t ts Hon) as Hd. destruct Hon as (Hi & Hts & _). apply on_skip.
  pose proof (skip_white_le s i Hi). apply (f_equal length) in Hd as Hlen. rewrite length_drop, length_app in Hlen.
  apply on_start; [lia|by apply Forall_cons in Hts as [_ ?]|]. by rewrite <- drop_drop, Hd, drop_app_length.
Qed.

Lemma on_end i : on i [] -> skip_white s i = length s.
Proof using Type.
  intros (Hi & _ & Hd). pose proof (skip_white_le s i Hi). apply (f_equal length) in Hd. rewrite length_drop in Hd. cbn in Hd. lia.
Qed.

Lemma peek_on cs i ts : on i ts -> one_of cs 0 = false ->
  gives (fun b j => b = one_of cs (next ts) /\ on j ts) (peek s cs i).
Proof using Type.
  intros Hon H0. unfold peek. cbv zeta. cbn [gives]. split; [|by apply on_skip].
  destruct ts as [|t ts].
  - rewrite (on_end i Hon), lookup_ge_None_2 by lia. done.
  - pose proof (on_here i t ts Hon) as Hd. destruct Hon as (_ & Hts & _). apply Forall_cons in Hts as [Ht _].
    destruct (tok_cons t Ht) as (c & t' & -> & _).
    rewrite <- (Nat.add_0_r (skip_white s i)), <- lookup_drop, Hd. done.
Qed.

Lemma line_of_head ts c : head (line_of ts) = Some c -> c = 32.
Proof using Type. destruct ts; cbn; [done|]. by intros [= <-]. Qed.

Lemma span_len_word w ts : Forall (fun c => is_word c = true /\ c <> 0) w -> span_len is_word (w ++ line_of ts) = length w.
Proof using Type.
  induction 1 as [|c w [Hc _] Hw IH]; cbn [app span_len].
  - destruct (line_of ts) as [|c l] eqn:E; [done|]. cbn [span_len].
    rewrite (line_of_head ts c) by by rewrite E. done.
  - rewrite Hc, IH. done.
Qed.

Lemma word_not_sym c : is_word c = true -> one_of (bytes_of "|();&<") c = false /\ c <> 62.
Proof using Type.
  unfold is_word. intros [_ H]%andb_true_iff. apply negb_true_iff, bool_decide_eq_false in H.
  change symbols with [60; 124; 62; 38; 59; 40; 41] in H. split; [|intros ->; apply H; by do 2 right; left].
  apply bool_decide_eq_false. change (bytes_of "|();&<") with [124; 40; 41; 59; 38; 60]. intros Hin. apply H.
  rewrite !elem_of_cons, elem_of_nil in Hin. rewrite !elem_of_cons. tauto.
Qed.

Lemma word_code w : word_ok w -> code w = 97.
Proof using Type.
  intros [Hn Hw]. unfold code. rewrite bool_decide_eq_false_2; [done|]. intros Hs. unfold sym_ok in Hs.
  destruct w as [|c w]; [done|]. apply Forall_cons in Hw as [[Hc _] _]. destruct (word_not_sym c Hc) as [H1 H2].
  repeat (apply elem_of_cons in Hs as [Hs|Hs]; [injection Hs; intros _ ->; done|]). by apply elem_of_nil in Hs.
Qed.

(** gettoken takes the next token. *)
Lemma gettoken_on i t ts : on i (t :: ts) ->
  gives (fun r j => r.1 = code t /\ text s r.2 = t /\ on j ts) (gettoken s i).
Proof using Type.
  intros Hon. pose proof (on_here i t ts Hon) as Hd. pose proof (on_next i t ts Hon) as Hnx.
  destruct Hon as (_ & Hts & _). apply Forall_cons in Hts as [Ht _].
  assert (Hl : forall k, s !! (skip_white s i + k)%nat = (t ++ line_of ts) !! k) by (intros k; by rewrite <- lookup_drop, Hd).
  assert (Htx : text s (skip_white s i, (skip_white s i + length t)%nat) = t).
  { unfold text. cbn [fst snd]. replace (skip_white s i + length t - skip_white s i)%nat with (length t) by lia.
    by rewrite Hd, take_app_length. }
  unfold gettoken. cbv zeta. pose proof (Hl 0%nat) as H0. pose proof (Hl 1%nat) as H1. rewrite Nat.add_0_r in H0. rewrite H0, H1.
  destruct Ht as [Hw|Hs].
  - rewrite word_code by done. destruct Hw as [Hn Hw]. destruct t as [|c t]; [done|]. cbn [app lookup list_lookup].
    apply Forall_cons in Hw as Hw'. destruct Hw' as [[Hc _] _]. destruct (word_not_sym c Hc) as [-> Hne].
    rewrite (proj2 (Z.eqb_neq _ _) Hne), Hd, span_len_word by done. by split_and!.
  - unfold sym_ok in Hs. destruct (decide (t = [62])) as [->|Hne].
    + cbn [app lookup list_lookup]. change (one_of (bytes_of "|();&<") 62) with false. cbn [Z.eqb].
      destruct (line_of ts) as [|d l] eqn:E; cbn [head]; [by split_and!|].
      rewrite (line_of_head ts d) by by rewrite E. by split_and!.
    + repeat (apply elem_of_cons in Hs as [->|Hs]; [by (destruct (Hne eq_refl) || split_and!)|]). by apply elem_of_nil in Hs.
Qed.

Lemma gettoken_end i : on i [] -> gives (fun r j => r.1 = 0 /\ on j []) (gettoken s i).
Proof using Type.
  intros Hon. pose proof (on_end i Hon) as He. unfold gettoken. cbv zeta. rewrite He, lookup_ge_None_2 by lia.
  cbn [gives fst]. split; [done|]. rewrite <- He. by apply on_skip, on_skip.
Qed.

Lemma on_length i ts : on i ts -> (length ts <= length s)%nat.
Proof using Type.
  intros (Hi & Hts & Hd). apply (f_equal length) in Hd. rewrite !length_drop in Hd.
  assert (Hl : (2 * length ts <= length (line_of ts))%nat).
  { clear Hd. induction Hts as [|t ts Ht Hts IH]; [done|]. destruct (tok_cons t Ht) as (c & t' & -> & _).
    change (line_of ((c :: t') :: ts)) with (32 :: (c :: t') ++ line_of ts). cbn [length]. rewrite length_app. cbn [length]. lia. }
  lia.
Qed.

(** ** What may follow *)

(** Nothing, or a token that begins with one of [cs]. *)
Definition stop (cs : list Z) (ts : list token) : Prop := ts = [] \/ one_of cs (next ts) = true.

Lemma stop_not cs cs' ts : stop cs ts -> forallb (fun c => negb (one_of cs' c)) (0 :: cs) = true -> one_of cs' (next ts) = false.
Proof using Type.
  intros [->|H] Hf; rewrite forallb_forall in Hf.
  - apply negb_true_iff, Hf. by left.
  - apply negb_true_iff, Hf. right. apply bool_decide_eq_true in H. by apply list_elem_of_In.
Qed.

Lemma stop_more cs cs' ts : stop cs ts -> forallb (one_of cs') cs = true -> stop cs' ts.
Proof using Type.
  intros [->|H] Hf; [by left|]. right. rewrite forallb_forall in Hf. apply Hf.
  apply bool_decide_eq_true in H. by apply list_elem_of_In.
Qed.

Lemma word_next w ts cs : word_ok w -> forallb (one_of symbols) cs = true -> one_of cs (next (w :: ts)) = false.
Proof using Type.
  intros [Hn Hw] Hf. destruct w as [|c w]; [done|]. apply Forall_cons in Hw as [[Hc _] _].
  unfold next. cbn [head default]. apply bool_decide_eq_false. intros Hin. rewrite forallb_forall in Hf.
  apply list_elem_of_In in Hin. apply Hf in Hin. change (one_of symbols c = true) in Hin. unfold is_word in Hc. rewrite Hin, andb_false_r in Hc. done.
Qed.

(** ** Redirections *)

Definition aredir : Type := list Z * Z * Z.
Definition redir_ok (r : aredir) : Prop := word_ok r.1.1 /\ mode_ok r.1.2 r.2.
Definition redir_tokens (rs : list aredir) : list token :=
  concat ((fun r : aredir => [redir_token r.1.2 r.2; r.1.1]) <$> rs).
Definition redir_text (r : redir) : aredir := (text s r.1.1, r.1.2, r.2).
Definition rewrap (c : ast) (rs : list aredir) : ast :=
  foldl (fun c (r : aredir) => ARedir c r.1.1 r.1.2 r.2) c rs.

Lemma texts_wrap rs : forall c, texts s (wrap c rs) = rewrap (texts s c) (redir_text <$> rs).
Proof using Type. induction rs as [|[[f m] d] rs IH]; intros c; [done|]. apply IH. Qed.

Lemma redir_next r ts : redir_ok r -> next (redir_token r.1.2 r.2 :: ts) = 60 \/ next (redir_token r.1.2 r.2 :: ts) = 62.
Proof using Type.
  destruct r as [[f m] d]. intros [_ Hm]. cbn [fst snd] in *. unfold mode_ok in Hm.
  repeat (apply elem_of_cons in Hm as [[= -> ->]|Hm]; [by (left + right)|]). by apply elem_of_nil in Hm.
Qed.

Lemma redirs_loop rest : one_of (bytes_of "<>") (next rest) = false -> forall rs f acc i,
  Forall redir_ok rs -> (length rs < f)%nat -> on i (redir_tokens rs ++ rest) ->
  gives (fun rs' j => redir_text <$> rs' = (redir_text <$> acc) ++ rs /\ on j rest) (loop f (redirs_round s) acc i).
Proof using Type.
  intros Hrest. induction rs as [|r rs IH]; intros [|f] acc i Hrs Hf Hon; [cbn in Hf; lia| |cbn in Hf; lia|]; cbn [loop].
  - eapply gives_bind with (R := fun r j => r = inr acc /\ on j rest).
    + unfold redirs_round. eapply gives_bind; [by apply peek_on|]. intros b j [-> Hj]. cbn [app redir_tokens fmap list_fmap concat] in *.
      rewrite Hrest. done.
    + intros b j [-> Hj]. cbn. by rewrite app_nil_r.
  - apply Forall_cons in Hrs as [Hr Hrs]. destruct r as [[w m] d].
    change (redir_tokens (_ :: rs) ++ rest) with (redir_token m d :: w :: redir_tokens rs ++ rest) in Hon.
    eapply gives_bind with (R := fun r j => exists sp, r = inl (acc ++ [(sp, m, d)]) /\ text s sp = w /\ on j (redir_tokens rs ++ rest)).
    + unfold redirs_round. eapply gives_bind; [by apply peek_on|]. intros b j [-> Hj].
      assert (one_of (bytes_of "<>") (next (redir_token m d :: w :: redir_tokens rs ++ rest)) = true) as ->
        by (destruct (redir_next (w, m, d) (w :: redir_tokens rs ++ rest) Hr) as [E|E]; cbn [fst snd] in E; by rewrite E).
      eapply gives_bind; [by apply gettoken_on|]. intros t j1 (Ht & _ & Hj1).
      eapply gives_bind; [by apply gettoken_on|]. intros t2 j2 (Ht2 & Htx & Hj2).
      destruct Hr as [Hw Hm]. cbn [fst snd] in Hw, Hm. rewrite (word_code w Hw) in Ht2. rewrite Ht2. cbn [Z.eqb Pos.eqb negb ret gives].
      exists t2.2. split; [|done]. rewrite Ht. unfold mode_ok in Hm.
      repeat (apply elem_of_cons in Hm as [[= -> ->]|Hm]; [done|]). by apply elem_of_nil in Hm.
    + intros v j (sp & -> & <- & Hj). cbn [gives]. cbn in Hf.
      pose proof (IH f (acc ++ [(sp, m, d)]) j Hrs ltac:(lia) Hj) as H. rewrite fmap_app, <- app_assoc in H. exact H.
Qed.

Lemma redir_tokens_length rs : length (redir_tokens rs) = (2 * length rs)%nat.
Proof using Type. unfold redir_tokens. induction rs as [|r rs IH]; [done|]. cbn [fmap list_fmap concat]. rewrite length_app, IH. cbn [length]. lia. Qed.

Lemma parseredirs_on rest rs i :
  one_of (bytes_of "<>") (next rest) = false -> Forall redir_ok rs -> on i (redir_tokens rs ++ rest) ->
  gives (fun rs' j => redir_text <$> rs' = rs /\ on j rest) (parseredirs s i).
Proof using Type.
  intros Hrest Hrs Hon. pose proof (on_length _ _ Hon) as Hl. rewrite length_app, redir_tokens_length in Hl.
  apply (redirs_loop rest Hrest rs (S (length s)) [] i); [done|lia|done].
Qed.

(** ** Simple commands *)

Notation ends := (bytes_of "|)&;").

(** No redirection comes next. *)
Lemma args_next argv rest : Forall word_ok argv -> stop ends rest -> one_of (bytes_of "<>") (next (argv ++ rest)) = false.
Proof using Type.
  intros [|w argv' Hw _] Hrest; [by eapply stop_not|]. by apply word_next.
Qed.

Lemma args_done argv rs f rest i : stop ends rest -> on i rest ->
  gives (fun r j => r = (argv, rs) /\ on j rest) (loop (S f) (args_round s) (argv, rs) i).
Proof using Type.
  intros Hrest Hon. cbn [loop]. eapply gives_bind with (R := fun r j => r = inr (argv, rs) /\ on j rest).
  - unfold args_round. eapply gives_bind; [by apply peek_on|]. intros b j [-> Hj]. destruct Hrest as [->| ->]; [|done].
    change (one_of ends (next [])) with false. eapply gives_bind; [by apply gettoken_end|]. intros t j' [-> Hj']. done.
  - intros r j [-> Hj]. done.
Qed.

(** The redirections that come before the next argument: all of them when
    there is no argument left, none otherwise. *)
Lemma parseredirs_here argv rs rest i :
  Forall word_ok argv -> Forall redir_ok rs -> stop ends rest -> on i (argv ++ redir_tokens rs ++ rest) ->
  gives (fun rs' j => exists later, (redir_text <$> rs') ++ later = rs /\ (argv = [] -> later = []) /\
    on j (argv ++ redir_tokens later ++ rest)) (parseredirs s i).
Proof using Type.
  intros Hargv Hrs Hrest Hon. destruct argv as [|w argv].
  - eapply gives_mono; [apply (parseredirs_on rest rs); [by apply (args_next [])|done|done]|].
    intros rs' j [Hrs' Hj]. exists []. by rewrite app_nil_r.
  - apply Forall_cons in Hargv as [Hw _]. eapply gives_mono; [apply (parseredirs_on (w :: argv ++ redir_tokens rs ++ rest) []); [by apply (word_next w)|done|exact Hon]|].
    intros rs' j [Hrs' Hj]. exists rs. by rewrite Hrs'.
Qed.

Lemma args_loop rest : stop ends rest -> forall argv f acc racc rs i,
  Forall word_ok argv -> Forall redir_ok rs -> (argv = [] -> rs = []) -> (length argv < f)%nat ->
  (length acc + length argv < MAXARGS)%nat -> on i (argv ++ redir_tokens rs ++ rest) ->
  gives (fun r j => text s <$> r.1 = (text s <$> acc) ++ argv /\ redir_text <$> r.2 = (redir_text <$> racc) ++ rs /\ on j rest)
    (loop f (args_round s) (acc, racc) i).
Proof using Type.
  intros Hrest. induction argv as [|w argv IH]; intros [|f] acc racc rs i Hargv Hrs He Hf Hm Hon; [cbn in Hf; lia| |cbn in Hf; lia|].
  - rewrite He in * by done. eapply gives_mono; [by apply (args_done acc racc f rest)|]. intros r j [-> Hj]. cbn [fst snd].
    by rewrite !app_nil_r.
  - apply Forall_cons in Hargv as [Hw Hargv]. cbn [app length] in Hon, Hm, Hf. cbn [loop].
    eapply gives_bind with (R := fun r j => exists sp rs' later, r = inl (acc ++ [sp], racc ++ rs') /\ text s sp = w /\
      (redir_text <$> rs') ++ later = rs /\ (argv = [] -> later = []) /\ on j (argv ++ redir_tokens later ++ rest)).
    + unfold args_round. eapply gives_bind; [by apply peek_on|]. intros b j [-> Hj]. rewrite word_next by done.
      eapply gives_bind; [by apply gettoken_on|]. intros t j1 (Ht & Htx & Hj1). rewrite (word_code w Hw) in Ht. rewrite Ht.
      cbn [Z.eqb Pos.eqb negb]. rewrite length_app. cbn [length]. rewrite (proj2 (Nat.leb_gt _ _)) by lia.
      eapply gives_bind; [by apply (parseredirs_here argv rs rest)|].
      intros rs' j2 (later & H1 & H2 & H3). cbn. by exists t.2, rs', later.
    + intros v j (sp & rs' & later & -> & <- & <- & Hl & Hj). cbn [gives]. apply Forall_app in Hrs as [_ Hrs].
      eapply gives_mono; [apply (IH f (acc ++ [sp]) (racc ++ rs') later j); [done|done|done|lia|rewrite length_app; cbn; lia|done]|].
      intros r k (H1 & H2 & H3). rewrite H1, H2, !fmap_app, <- !app_assoc. done.
Qed.

Lemma parse_args_on argv rs rest i :
  Forall word_ok argv -> (length argv < MAXARGS)%nat -> Forall redir_ok rs -> stop ends rest ->
  on i (argv ++ redir_tokens rs ++ rest) ->
  gives (fun c j => texts s c = rewrap (AExec argv) rs /\ on j rest) (parse_args s i).
Proof using Type.
  intros Hargv Hm Hrs Hrest Hon. unfold parse_args. pose proof (on_length _ _ Hon) as Hl. rewrite length_app in Hl.
  eapply gives_bind; [by apply (parseredirs_here argv rs rest)|]. intros rs0 j (later & <- & Hlater & Hj).
  apply Forall_app in Hrs as [_ Hrs].
  eapply gives_bind; [apply (args_loop rest Hrest argv _ [] rs0 later j); [done..|lia|done|done]|].
  intros r k (H1 & H2 & Hk). cbn [ret gives]. rewrite texts_wrap, H2. cbn [texts]. by rewrite H1.
Qed.

(** ** Commands *)

Lemma pr_high k c : (k <= level c)%nat -> pr k c = pr 0 c.
Proof using Type. intros Hk. destruct c; cbn [pr]; cbn [level] in *; by rewrite (proj2 (Nat.ltb_ge _ _)). Qed.

Lemma pr_low k c : (level c < k)%nat -> pr k c = bytes_of "(" :: pr 0 c ++ [bytes_of ")"].
Proof using Type. intros Hk. destruct c; cbn [pr]; cbn [level] in *; by rewrite (proj2 (Nat.ltb_lt _ _)). Qed.

(** A simple command without its redirections. *)
Fixpoint unredir (c : ast) : ast * list aredir :=
  match c with
  | ARedir c file mode fd => let r := unredir c in (r.1, r.2 ++ [(file, mode, fd)])
  | _ => (c, [])
  end.

Lemma unredir_spec c : valid c -> let r := unredir c in
  c = rewrap r.1 r.2 /\ pr 3 c = pr 3 r.1 ++ redir_tokens r.2 /\ valid r.1 /\ Forall redir_ok r.2 /\
  ((exists argv, r.1 = AExec argv) \/ (level r.1 < 3)%nat).
Proof using Type.
  induction c as [argv|c IH file mode fd|l _ r _|l _ r _|c _]; intros Hv; cbn [unredir]; cbv zeta; cbn [fst snd];
    rewrite ?app_nil_r; try (split_and!; [done|done|done|constructor|]; (by left; eexists) || (right; cbn; lia)).
  destruct Hv as (Hv & Hf & Hm). destruct (IH Hv) as (H1 & H2 & H3 & H4 & H5). split_and!; [| |done| |done].
  - unfold rewrap. rewrite foldl_snoc. cbn [fst snd]. f_equal. exact H1.
  - change (pr 3 (ARedir c file mode fd)) with (pr 3 c ++ [redir_token mode fd; file]). rewrite H2, <- app_assoc. f_equal.
    unfold redir_tokens. rewrite fmap_app, concat_app. done.
  - apply Forall_app. split; [done|]. constructor; [by split|constructor].
Qed.

Definition yields (m : P cmd) (c : ast) (i : nat) (rest : list token) : Prop :=
  gives (fun c' j => texts s c' = c /\ on j rest) (m i).

Definition reads (m : nat -> P cmd) (k extra : nat) (cs : list Z) (f : nat) : Prop :=
  forall c i rest, valid c -> (4 * length (pr k c) + extra <= f)%nat -> on i (pr k c ++ rest) -> stop cs rest -> yields (m f) c i rest.

Notation reads_line := (reads (parseline s) 0 4 (bytes_of ")")).
Notation reads_pipe := (reads (parsepipe s) 2 3 (bytes_of "&;)")).
Notation reads_exec := (reads (parseexec s) 3 2 ends).

(** A simple command, given that lines are read with less fuel. *)
Lemma exec_step f : (forall f', (f' < f)%nat -> reads_line f') -> reads_exec f.
Proof using Type.
  intros IH c i rest Hv Hf Hon Hrest. destruct (unredir_spec c Hv) as (Hc & Hp & Hv0 & Hrs & Hk).
  destruct (unredir c) as [c0 rs]. cbn [fst snd] in *. rewrite Hp, <- app_assoc in Hon. rewrite Hp, length_app in Hf.
  destruct f as [|f]; [lia|]. unfold yields. cbn [parseexec]. eapply gives_bind; [by apply peek_on|]. intros b j [-> Hj].
  destruct Hk as [[argv ->]|Hk].
  - change (pr 3 (AExec argv)) with argv in *. destruct Hv0 as [Hargv Hlen].
    assert (one_of (bytes_of "(") (next ((argv : list token) ++ redir_tokens rs ++ rest)) = false) as Hnp.
    { destruct Hargv as [|w argv' Hw _]; [|by apply word_next]. destruct Hrs as [|r rs Hr _]; [by eapply stop_not|].
      cbn [app]. change (redir_tokens (r :: rs) ++ rest) with (redir_token r.1.2 r.2 :: r.1.1 :: redir_tokens rs ++ rest).
      destruct (redir_next r (r.1.1 :: redir_tokens rs ++ rest) Hr) as [-> | ->]; done. }
    unfold token in *. rewrite Hnp, Hc. by apply parse_args_on.
  - rewrite pr_low in * by done. cbn [app length] in *. rewrite <- app_assoc in Hj. rewrite length_app in Hf. cbn [app length] in *.
    change (one_of (bytes_of "(") (next (bytes_of "(" :: pr 0 c0 ++ bytes_of ")" :: redir_tokens rs ++ rest))) with true.
    destruct f as [|f]; [lia|]. cbn [parseblock]. eapply gives_bind; [by apply peek_on|]. intros b j1 [-> Hj1].
    change (one_of (bytes_of "(") (next (bytes_of "(" :: pr 0 c0 ++ bytes_of ")" :: redir_tokens rs ++ rest))) with true. cbn [negb].
    eapply gives_bind; [by apply gettoken_on|]. intros t j2 (_ & _ & Hj2).
    eapply gives_bind; [apply (IH f ltac:(lia) c0 j2 (bytes_of ")" :: redir_tokens rs ++ rest)); [done|lia|done|by right]|].
    intros c' j3 [Hc' Hj3]. eapply gives_bind; [by apply peek_on|]. intros b j4 [-> Hj4].
    change (one_of (bytes_of ")") (next (bytes_of ")" :: redir_tokens rs ++ rest))) with true. cbn [negb].
    eapply gives_bind; [by apply gettoken_on|]. intros t' j5 (_ & _ & Hj5).
    eapply gives_bind; [apply (parseredirs_on rest rs); [by apply (args_next [])|done|done]|].
    intros rs' j6 [Hrs' Hj6]. cbn [ret gives]. by rewrite texts_wrap, Hc', Hrs', <- Hc.
Qed.

Lemma pipe_step f : (forall f', (f' < f)%nat -> reads_exec f' /\ reads_pipe f') -> reads_pipe f.
Proof using Type.
  intros IH c i rest Hv Hf Hon Hrest. destruct f as [|f]; [lia|]. destruct (IH f ltac:(lia)) as [IHe IHp].
  unfold yields. cbn [parsepipe]. destruct c as [| |l r| |].
  3: { cbn [pr level paren Nat.ltb Nat.leb] in *. rewrite <- app_assoc in Hon. rewrite length_app in Hf. cbn [length app] in *. destruct Hv as [Hvl Hvr].
    eapply gives_bind; [apply (IHe l i (bytes_of "|" :: pr 2 r ++ rest)); [done|lia|done|by right]|]. intros cl j [Hl Hj].
    eapply gives_bind; [by apply peek_on|]. intros b j1 [-> Hj1].
    change (one_of (bytes_of "|") (next (bytes_of "|" :: pr 2 r ++ rest))) with true.
    eapply gives_bind; [by apply gettoken_on|]. intros t j2 (_ & _ & Hj2).
    eapply gives_bind; [by apply (IHp r j2 rest); [|lia|..]|]. intros cr j3 [Hr Hj3]. cbn. by rewrite Hl, Hr. }
  all: match goal with H : valid ?c |- _ => assert (Hp : pr 2 c = pr 3 c) by done; rewrite Hp in Hf, Hon;
    eapply gives_bind; [apply (IHe c i rest); [done|lia|done|by eapply stop_more]|] end; intros c' j [Hc Hj];
    (eapply gives_bind; [by apply peek_on|]); intros b j1 [-> Hj1];
    by rewrite (stop_not _ (bytes_of "|") rest Hrest).
Qed.

(** A pipeline and the [&]s behind it, for any continuation of the loop. *)
Lemma back_run f Q : reads_pipe f -> forall c i rest, valid c ->
  (4 * length (pr 1 c) + 3 <= f)%nat -> on i (pr 1 c ++ rest) -> stop (bytes_of "&;)") rest ->
  (forall c' j m, texts s c' = c -> on j rest -> (length rest < m)%nat -> gives Q (loop m (back_round s) c' j)) ->
  gives Q ((let! c := parsepipe s f in loop (S (length s)) (back_round s) c) i).
Proof using Type.
  intros Hpipe. induction c as [argv|c _ file mode fd|l _ r _|l _ r _|c IH]; intros i rest Hv Hf Hon Hrest Hk.
  5: { cbn [pr level paren Nat.ltb Nat.leb] in Hf, Hon. rewrite <- app_assoc in Hon. rewrite length_app in Hf. cbn [app length] in *.
    apply (IH i (bytes_of "&" :: rest)); [done|lia|done|by right|]. intros c' j [|m] Hc Hj Hm; [lia|]. cbn [loop length] in *.
    eapply gives_bind with (R := fun r j => r = inl (BACK c') /\ on j rest).
    - unfold back_round. eapply gives_bind; [by apply peek_on|]. intros b j1 [-> Hj1].
      change (one_of (bytes_of "&") (next (bytes_of "&" :: rest))) with true.
      eapply gives_bind; [by apply gettoken_on|]. intros t j2 (_ & _ & Hj2). done.
    - intros v j1 [-> Hj1]. cbn [gives]. apply Hk; [cbn; by rewrite Hc|done|lia]. }
  all: match goal with H : valid ?c |- _ => assert (Hp : pr 1 c = pr 2 c) by done end; rewrite Hp in Hf, Hon;
    (eapply gives_bind; [by eapply Hpipe|]); intros c' j [Hc Hj];
    apply Hk; [done|done|]; pose proof (on_length _ _ Hj); lia.
Qed.

Lemma back_done rest c j m : on j rest -> stop (bytes_of ";)") rest -> (length rest < m)%nat ->
  gives (fun c' k => c' = c /\ on k rest) (loop m (back_round s) c j).
Proof using Type.
  intros Hj Hrest Hm. destruct m as [|m]; [lia|]. cbn [loop].
  eapply gives_bind with (R := fun r j => r = inr c /\ on j rest); [|by intros v j' [-> Hj']].
  unfold back_round. eapply gives_bind; [by apply peek_on|]. intros b j1 [-> Hj1].
  by rewrite (stop_not _ (bytes_of "&") rest Hrest).
Qed.

Lemma gives_assoc {A B C} (m : P A) (k : A -> P B) (g : B -> P C) Q i :
  gives Q (bind (bind m k) g i) -> gives Q (bind m (fun a => bind (k a) g) i).
Proof using Type. unfold bind. by destruct (m i). Qed.

(** The first pipeline of a line, up to the [;] or the end. *)
Lemma line_head f c i rest : reads_pipe f -> valid c ->
  (4 * length (pr 1 c) + 3 <= f)%nat -> on i (pr 1 c ++ rest) -> stop (bytes_of ";)") rest ->
  gives (fun c' j => texts s c' = c /\ on j rest) ((let! c := parsepipe s f in loop (S (length s)) (back_round s) c) i).
Proof using Type.
  intros Hp Hv Hf Hon Hrest. eapply (back_run f _ Hp c i rest Hv Hf Hon); [by eapply stop_more|].
  intros c' j m Hc Hj Hm. eapply gives_mono; [by apply (back_done rest c')|]. intros c1 k [-> Hk]. done.
Qed.

Lemma line_step f : (forall f', (f' < f)%nat -> reads_pipe f' /\ reads_line f') -> reads_line f.
Proof using Type.
  intros IH c i rest Hv Hf Hon Hrest. destruct f as [|f]; [lia|]. destruct (IH f ltac:(lia)) as [IHp IHl].
  unfold yields. cbn [parseline]. apply gives_assoc. destruct c as [| | |l r|].
  4: { cbn [pr level paren Nat.ltb Nat.leb] in Hf, Hon. rewrite <- app_assoc in Hon. rewrite length_app in Hf. cbn [length app] in *. destruct Hv as [Hvl Hvr].
    eapply gives_bind; [apply (line_head f l i (bytes_of ";" :: pr 0 r ++ rest)); [done|done|lia|done|by right]|]. intros cl j [Hl Hj].
    eapply gives_bind; [by apply peek_on|]. intros b j1 [-> Hj1].
    change (one_of (bytes_of ";") (next (bytes_of ";" :: pr 0 r ++ rest))) with true.
    eapply gives_bind; [by apply gettoken_on|]. intros t j2 (_ & _ & Hj2).
    eapply gives_bind; [by apply (IHl r j2 rest); [|lia|..]|]. intros cr j3 [Hr Hj3]. cbn. by rewrite Hl, Hr. }
  all: match goal with H : valid ?c |- _ => assert (Hp : pr 0 c = pr 1 c) by done; rewrite Hp in Hf, Hon;
    eapply gives_bind; [apply (line_head f c i rest); [done|done|lia|done|by eapply stop_more]|] end; intros c' j [Hc Hj];
    (eapply gives_bind; [by apply peek_on|]); intros b j1 [-> Hj1];
    by rewrite (stop_not _ (bytes_of ";") rest Hrest).
Qed.

Lemma readers f : reads_line f /\ reads_pipe f /\ reads_exec f.
Proof using Type.
  induction f as [f IH] using lt_wf_ind.
  split_and!; [apply line_step|apply pipe_step|apply exec_step]; intros f' Hf'; destruct (IH f' Hf') as (? & ? & ?); done.
Qed.

Lemma parse_on c : valid c -> Forall tok_ok (pr 0 c) -> s = line_of (pr 0 c) ->
  gives (fun c' _ => texts s c' = c) (parse s 0%nat).
Proof using Type.
  intros Hv Ht Hs. assert (Hon : on 0 (pr 0 c ++ [])) by (rewrite app_nil_r; apply on_start; [lia|done|done]).
  pose proof (on_length _ _ Hon) as Hl. rewrite app_nil_r in Hl.
  unfold parse. eapply gives_bind; [eapply (proj1 (readers _)); [done|unfold parse_fuel; lia|done|by left]|].
  intros c' i [Hc Hi]. eapply gives_bind with (R := fun _ j => j = length s); [by apply on_end|].
  intros _ j ->. unfold get, bind. cbn. by rewrite Nat.eqb_refl.
Qed.
End Line.

(** ** The round trip *)

Lemma redir_token_ok mode fd : mode_ok mode fd -> tok_ok (redir_token mode fd).
Proof.
  unfold mode_ok. intros Hm. right. repeat (apply elem_of_cons in Hm as [[= -> ->]|Hm]; [by apply (bool_decide_unpack _)|]).
  by apply elem_of_nil in Hm.
Qed.

Lemma sym_tok_ok t : bool_decide (sym_ok t) = true -> tok_ok t.
Proof. intros H. right. by apply bool_decide_eq_true in H. Qed.

Lemma paren_ok b ts : Forall tok_ok ts -> Forall tok_ok (paren b ts).
Proof.
  intros H. destruct b; [|done]. constructor; [by apply sym_tok_ok|]. apply Forall_app. split; [done|].
  constructor; [by apply sym_tok_ok|constructor].
Qed.

Lemma pr_ok c : valid c -> forall k, Forall tok_ok (pr k c).
Proof.
  induction c as [argv|c IH file mode fd|l IHl r IHr|l IHl r IHr|c IH]; intros Hv k; cbn [pr]; apply paren_ok.
  - eapply Forall_impl; [apply Hv|]. intros w Hw. by left.
  - destruct Hv as (Hv & Hf & Hm). apply Forall_app. split; [by apply IH|].
    constructor; [by apply redir_token_ok|]. constructor; [by left|constructor].
  - destruct Hv. apply Forall_app. split; [by apply IHl|]. constructor; [by apply sym_tok_ok|by apply IHr].
  - destruct Hv. apply Forall_app. split; [by apply IHl|]. constructor; [by apply sym_tok_ok|by apply IHr].
  - apply Forall_app. split; [by apply IH|]. constructor; [by apply sym_tok_ok|constructor].
Qed.

Lemma line_no_nul ts : Forall tok_ok ts -> no_nul (line_of ts).
Proof.
  unfold no_nul, line_of. induction 1 as [|t ts Ht Hts IH]; [constructor|]. cbn [fmap list_fmap concat].
  apply Forall_app. split; [|done]. constructor; [done|]. destruct Ht as [[_ Hw]|Hs].
  - eapply Forall_impl; [exact Hw|]. by intros c [_ Hc].
  - unfold sym_ok in Hs. repeat (apply elem_of_cons in Hs as [->|Hs]; [by repeat constructor|]). by apply elem_of_nil in Hs.
Qed.

(** C37. Every command a line can denote is what the shell parses its printed
    form to: simple commands with up to nine arguments, redirections in all
    three forms, pipelines, background commands, sequences and any nesting of
    them in parentheses, each at the precedence the grammar gives it. *)
Theorem parse_print_roundtrip c : valid c -> show (line_of (pr 0 c)) = Some c.
Proof.
  intros Hv. pose proof (pr_ok c Hv 0%nat) as Ht. pose proof (parse_on _ c Hv Ht eq_refl) as Hp.
  pose proof (parse_ok (line_of (pr 0 c))) as Hok. unfold show, parsecmd, obind.
  destruct (parse (line_of (pr 0 c)) 0%nat) as [c' i| | | |]; cbn in Hp, Hok; try done.
  rewrite resolve_nulterminate; [by rewrite Hp|by apply line_no_nul|done].
Qed.

(** [( cat <in | wc ) >>log & ; echo done] *)
Definition example_ast : ast :=
  AList (ABack (ARedir (APipe (ARedir (AExec [bytes_of "cat"]) (bytes_of "in") O_RDONLY 0) (AExec [bytes_of "wc"]))
    (bytes_of "log") (Z.lor O_WRONLY O_CREATE) 1)) (AExec [bytes_of "echo"; bytes_of "done"]).

Lemma parse_print_roundtrip_witness :
  line_of (pr 0 example_ast) = bytes_of " ( cat < in | wc ) >> log & ; echo done" /\
  show (line_of (pr 0 example_ast)) = Some example_ast.
Proof.
  split; [reflexivity|]. apply parse_print_roundtrip. cbn [valid example_ast length].
  repeat match goal with
  | |- _ /\ _ => split
  | |- word_ok _ => split; [discriminate|repeat constructor; discriminate]
  | |- Forall word_ok _ => constructor
  | |- mode_ok _ _ => repeat (apply elem_of_cons; first [left; reflexivity | right])
  | |- (_ < _)%nat => vm_compute; lia
  end.
Defined.
