(* ===== verification/ShRun.v ===== *)
(** user/sh.c: running commands: runcmd, fork1, panic, getcmd and main.

    A process is a tree of system calls. [runs n m F es n'] says that the
    process that does [m] with descriptor table [F] does [es]: the list of the
    programs it runs (with arguments and descriptor table), of its reads,
    waits and changes of directory, and of the processes it creates, each with
    the list of what it does, for some results of the calls the kernel may
    give. Pipes are numbered from [n] on over the whole run. A fork has two
    results, 0 in the child and a pid in the parent; both go on with the same
    table. Lists are not in the order of time across processes.
    A null [cmd] does not occur: parsecmd returns a command or exits. *)

From stdpp Require Import base numbers list gmap strings.
From S2P Require Import Prelude Params Mem User ULib UPrintf Sh ShParse.

(** ** Programs *)

(** What a descriptor refers to: a file the shell was started with, one that
    it has opened, or an end of a pipe. *)
Inductive sfile :=
| Given (n : nat)
| Opened (path : list Z) (mode : Z)
| Pipe (id : nat) (writer : bool).

Notation table := (gmap Z sfile) (only parsing).

Inductive shcall :=
| CClose (fd : Z)
| CDup (fd : Z)
| CPipe
| COpen (path : list Z) (mode : Z)
| CFork
| CWait
| CExit (status : Z)
| CExec (path : list Z) (argv : list (list Z))
| CRead (fd n : Z)
| CWrite (fd : Z) (bytes : list Z)
| CChdir (path : list Z)
| CMknod (path : list Z) (major minor : Z).

Inductive shprog (A : Type) : Type :=
| SDone (a : A)
| SSys (c : shcall) (k : Z * list Z -> shprog A)
| SStop.
Arguments SDone {A} a.
Arguments SSys {A} c k.
Arguments SStop {A}.

Fixpoint sbind {A B} (m : shprog A) (k : A -> shprog B) : shprog B :=
  match m with
  | SDone a => k a
  | SSys c k' => SSys c (fun r => sbind (k' r) k)
  | SStop => SStop
  end.

Declare Scope sh_scope.
Delimit Scope sh_scope with sh.
Bind Scope sh_scope with shprog.
Notation "'do' x <- m ; k" := (sbind m (fun x => k)) (at level 200, x name, m at level 100, k at level 200) : sh_scope.
Notation "m ;; k" := (sbind m (fun _ => k)) : sh_scope.

Definition sys1 (c : shcall) : shprog Z := SSys c (fun r => SDone r.1).
Definition sh_exit {A} (status : Z) : shprog A := SSys (CExit status) (fun _ => SStop).

(** fprintf is the sequence of its writes. *)
Fixpoint swrites (l : list (Z * list Z)) : shprog unit :=
  match l with
  | [] => SDone tt
  | (fd, bytes) :: l => (sys1 (CWrite fd bytes) ;; swrites l)%sh
  end.

Definition fprintf_writes (fd : Z) (fmt : list Z) (args : list uarg) : list (Z * list Z) :=
  match UPrintf.fprintf fd fmt args (mk_uworld {[fd := []]} ∅ [] [] None) with
  | Ret _ w => u_out w
  | _ => []
  end.

Definition sh_fprintf (fd : Z) (fmt : string) (args : list uarg) : shprog unit :=
  swrites (fprintf_writes fd (bytes_of fmt) args).

Open Scope sh_scope.

Definition newline : string := String (Ascii.ascii_of_nat 10) "".

Definition sh_panic {A} (s : string) : shprog A :=
  sh_fprintf 2 ("%s" ++ newline) [AStr (Some (bytes_of s))] ;; sh_exit 1.

Definition fork1 : shprog Z :=
  do pid <- sys1 CFork;
  if pid =? -1 then sh_panic "fork" else SDone pid.

Fixpoint runcmd (c : ast) : shprog unit :=
  match c with
  | AExec argv =>
      match argv with
      | [] => sh_exit 1
      | arg0 :: _ =>
          sys1 (CExec arg0 argv) ;;
          sh_fprintf 2 ("exec %s failed" ++ newline) [AStr (Some arg0)] ;;
          sh_exit 0
      end
  | ARedir c file mode fd =>
      sys1 (CClose fd) ;;
      do r <- sys1 (COpen file mode);
      if r <? 0 then
        sh_fprintf 2 ("open %s failed" ++ newline) [AStr (Some file)] ;;
        sh_exit 1
      else runcmd c
  | AList l r =>
      do pid <- fork1;
      if pid =? 0 then runcmd l
      else
        sys1 CWait ;;
        runcmd r
  | APipe l r =>
      do p <- SSys CPipe SDone;
      if p.1 <? 0 then sh_panic "pipe"
      else
        let p0 := nth 0 p.2 0 in
        let p1 := nth 1 p.2 0 in
        do pid <- fork1;
        if pid =? 0 then
          sys1 (CClose 1) ;;
          sys1 (CDup p1) ;;
          sys1 (CClose p0) ;;
          sys1 (CClose p1) ;;
          runcmd l
        else
          do pid <- fork1;
          if pid =? 0 then
            sys1 (CClose 0) ;;
            sys1 (CDup p0) ;;
            sys1 (CClose p0) ;;
            sys1 (CClose p1) ;;
            runcmd r
          else
            sys1 (CClose p0) ;;
            sys1 (CClose p1) ;;
            sys1 CWait ;;
            sys1 CWait ;;
            sh_exit 0
  | ABack c =>
      do pid <- fork1;
      if pid =? 0 then runcmd c else sh_exit 0
  end.

(** gets (ulib.c) with at most [k] reads left: the bytes before the NUL. *)
Fixpoint sh_gets (k : nat) (buf : list Z) : shprog (list Z) :=
  match k with
  | O => SDone buf
  | S k =>
      do r <- SSys (CRead 0 1) SDone;
      if r.1 <? 1 then SDone buf
      else
        let c := nth 0 r.2 0 in
        if (c =? 10) || (c =? 13) then SDone (buf ++ [c]) else sh_gets k (buf ++ [c])
  end.

Definition sh_nbuf : nat := 100.

(** getcmd: the buffer, or None at the end of the input. *)
Definition getcmd : shprog (option (list Z)) :=
  sys1 (CWrite 2 (bytes_of "$ ")) ;;
  do line <- sh_gets (sh_nbuf - 1) [];
  let buf := line ++ replicate (sh_nbuf - length line) 0 in
  if nth 0 buf 0 =? 0 then SDone None else SDone (Some buf).

(** What main does with a line. *)
Definition sh_line (buf : list Z) : shprog unit :=
  if (nth 0 buf 0 =? 99) && (nth 1 buf 0 =? 100) && (nth 2 buf 0 =? 32) then
    let dir := drop 3 (take (length (cstring buf) - 1) buf) in
    do r <- sys1 (CChdir (cstring dir));
    if r <? 0 then sh_fprintf 2 ("cannot cd %s" ++ newline) [AStr (Some (cstring dir))] else SDone tt
  else
    do pid <- fork1;
    if pid =? 0 then
      match parsecmd (cstring buf) with
      | Ret (c, buf') _ => runcmd (resolve buf' c)
      | Panic msg _ => sh_panic msg
      | _ => SStop
      end
    else sys1 CWait ;; SDone tt.

(** main's second loop, for at most [n] lines. *)
Fixpoint sh_lines (n : nat) : shprog unit :=
  match n with
  | O => SStop
  | S n =>
      do o <- getcmd;
      match o with
      | None => sh_exit 0
      | Some buf => sh_line buf ;; sh_lines n
      end
  end.

(** Its first loop: descriptors 0, 1 and 2 are open afterwards. *)
Fixpoint sh_open (n : nat) : shprog unit :=
  match n with
  | O => SStop
  | S n =>
      do fd <- sys1 (COpen (bytes_of "console") O_RDWR);
      if fd <? 0 then SDone tt
      else if 3 <=? fd then sys1 (CClose fd) ;; SDone tt
      else sh_open n
  end.

Definition sh_main (n : nat) : shprog unit :=
  sh_open (Z.to_nat NOFILE + 1) ;; sh_lines n.

(** ** What the calls do to the process's descriptors *)

Definition free_fd (F : table) : option Z :=
  snd <$> list_find (fun fd => F !! fd = None) (Z.of_nat <$> seq 0 (Z.to_nat NOFILE)).

(** The calls that change at most the table: their result and the table after
    them. *)
Inductive sh_step (F : table) : shcall -> Z * list Z -> table -> Prop :=
| st_close fd f : F !! fd = Some f -> sh_step F (CClose fd) (0, []) (delete fd F)
| st_close_bad fd : F !! fd = None -> sh_step F (CClose fd) (-1, []) F
| st_dup fd f fd' : F !! fd = Some f -> free_fd F = Some fd' -> sh_step F (CDup fd) (fd', []) (<[fd' := f]> F)
| st_dup_bad fd : F !! fd = None \/ free_fd F = None -> sh_step F (CDup fd) (-1, []) F
| st_open path mode fd : free_fd F = Some fd -> sh_step F (COpen path mode) (fd, []) (<[fd := Opened path mode]> F)
| st_open_bad path mode : sh_step F (COpen path mode) (-1, []) F
| st_write fd bytes r : sh_step F (CWrite fd bytes) (r, []) F
| st_mknod path major minor r : sh_step F (CMknod path major minor) (r, []) F.

(** What a process does, in order: the programs it runs, with the table they
    get; the processes it creates, each with what that one does; its waits,
    its reads with the bytes they returned, its changes of directory. *)
Inductive event :=
| EExec (path : list Z) (argv : list (list Z)) (F : table)
| EFork (child : list event)
| EWait
| ERead (bytes : list Z)
| EChdir (path : list Z).

(** [runs n m F es n']: with pipes numbered from [n] on, a process that does
    [m] with the table [F] does [es], for some results of its calls and of
    those of the processes it creates; the pipes made by all of them have the
    numbers below [n']. exec does not return when it succeeds; a child goes
    on with a copy of its parent's table. *)
Inductive runs {A} : nat -> shprog A -> table -> list event -> nat -> Prop :=
| run_done n a F : runs n (SDone a) F [] n
| run_stop n F : runs n SStop F [] n
| run_exit n status k F : runs n (SSys (CExit status) k) F [] n
| run_exec n path argv k F : runs n (SSys (CExec path argv) k) F [EExec path argv F] n
| run_exec_bad n path argv k F es n' :
    runs n (k (-1, [])) F es n' -> runs n (SSys (CExec path argv) k) F (EExec path argv F :: es) n'
| run_fork n k F pid cs n1 es n2 : 0 < pid ->
    runs n (k (0, [])) F cs n1 -> runs n1 (k (pid, [])) F es n2 -> runs n (SSys CFork k) F (EFork cs :: es) n2
| run_fork_bad n k F es n' : runs n (k (-1, [])) F es n' -> runs n (SSys CFork k) F es n'
| run_wait n k F r es n' : runs n (k (r, [])) F es n' -> runs n (SSys CWait k) F (EWait :: es) n'
| run_read n fd len k F bytes es n' : Z.of_nat (length bytes) <= Z.max 0 len ->
    runs n (k (Z.of_nat (length bytes), bytes)) F es n' -> runs n (SSys (CRead fd len) k) F (ERead bytes :: es) n'
| run_read_bad n fd len k F es n' : runs n (k (-1, [])) F es n' -> runs n (SSys (CRead fd len) k) F (ERead [] :: es) n'
| run_chdir n path k F r es n' : runs n (k (r, [])) F es n' -> runs n (SSys (CChdir path) k) F (EChdir path :: es) n'
| run_pipe n k F fd0 fd1 es n' : free_fd F = Some fd0 -> free_fd (<[fd0 := Pipe n false]> F) = Some fd1 ->
    runs (S n) (k (0, [fd0; fd1])) (<[fd1 := Pipe n true]> (<[fd0 := Pipe n false]> F)) es n' -> runs n (SSys CPipe k) F es n'
| run_pipe_bad n k F es n' : runs n (k (-1, [])) F es n' -> runs n (SSys CPipe k) F es n'
| run_step n c k F r F' es n' : sh_step F c r F' -> runs n (k r) F' es n' -> runs n (SSys c k) F es n'.

(** ** What a command asks for *)

(** [plumbing n c F es n']: running the command [c] with the descriptors [F]
    is doing [es]. Each program gets [F] with the command's redirections; the
    two sides of a bar get the two ends of ONE pipe, the next one, and both
    are waited for; the first command of a list is waited for before the
    second starts, one in the background is not. A call that fails leaves the
    rest of the command out. *)
Inductive plumbing : nat -> ast -> table -> list event -> nat -> Prop :=
| pl_empty n F : plumbing n (AExec []) F [] n
| pl_exec n arg0 argv F : plumbing n (AExec (arg0 :: argv)) F [EExec arg0 (arg0 :: argv) F] n
| pl_redir n c file mode fd F es n' :
    plumbing n c (<[fd := Opened file mode]> F) es n' -> plumbing n (ARedir c file mode fd) F es n'
| pl_redir_bad n c file mode fd F : plumbing n (ARedir c file mode fd) F [] n
| pl_pipe n l r F ls n1 rs n2 :
    plumbing (S n) l (<[1 := Pipe n true]> F) ls n1 -> plumbing n1 r (<[0 := Pipe n false]> F) rs n2 ->
    plumbing n (APipe l r) F [EFork ls; EFork rs; EWait; EWait] n2
| pl_pipe_one n l r F ls n1 : (* the second fork fails *)
    plumbing (S n) l (<[1 := Pipe n true]> F) ls n1 -> plumbing n (APipe l r) F [EFork ls] n1
| pl_pipe_none n l r F : plumbing n (APipe l r) F [] (S n) (* the first *)
| pl_pipe_bad n l r F : plumbing n (APipe l r) F [] n
| pl_list n l r F ls n1 rs n2 :
    plumbing n l F ls n1 -> plumbing n1 r F rs n2 -> plumbing n (AList l r) F (EFork ls :: EWait :: rs) n2
| pl_list_bad n l r F : plumbing n (AList l r) F [] n
| pl_back n c F cs n' : plumbing n c F cs n' -> plumbing n (ABack c) F [EFork cs] n'
| pl_back_bad n c F : plumbing n (ABack c) F [] n.

(** ** Calls in a program *)

Definition silent (c : shcall) : bool :=
  match c with
  | CClose _ | CDup _ | COpen _ _ | CWrite _ _ | CMknod _ _ _ => true
  | _ => false
  end.

Section Calls.
Context {A : Type}.
Implicit Types (F : table) (es : list event) (n : nat).

Lemma runs_silent n c (k : Z * list Z -> shprog A) F es n' : silent c = true ->
  runs n (SSys c k) F es n' <-> exists r F', sh_step F c r F' /\ runs n (k r) F' es n'.
Proof.
  intros Hc. split.
  - intros E. inversion E; subst; try discriminate Hc. eauto.
  - intros (r & F' & Hs & E). by eapply run_step.
Qed.

(** A call with one result. *)
Lemma runs_det n c (k : Z -> shprog A) F es n' r F' : silent c = true ->
  (forall r1 F1, sh_step F c r1 F1 <-> r1 = (r, []) /\ F1 = F') -> runs n (sbind (sys1 c) k) F es n' <-> runs n (k r) F' es n'.
Proof.
  intros Hc Hd. cbn [sys1 sbind]. rewrite runs_silent by done. split.
  - by intros (r1 & F1 & (-> & ->)%Hd & E).
  - intros E. exists (r, []), F'. split; [by apply Hd|done].
Qed.

Lemma runs_close n fd f (k : Z -> shprog A) F es n' : F !! fd = Some f ->
  runs n (sbind (sys1 (CClose fd)) k) F es n' <-> runs n (k 0) (delete fd F) es n'.
Proof.
  intros Hf. apply runs_det; [done|]. intros r F1. split.
  - intros Hs. inversion Hs; subst; [done|congruence].
  - intros [-> ->]. by econstructor.
Qed.

Lemma runs_dup n fd f fd' (k : Z -> shprog A) F es n' : F !! fd = Some f -> free_fd F = Some fd' ->
  runs n (sbind (sys1 (CDup fd)) k) F es n' <-> runs n (k fd') (<[fd' := f]> F) es n'.
Proof.
  intros Hf Hd. apply runs_det; [done|]. intros r F1. split.
  - intros Hs. inversion Hs; subst; [|destruct H0; congruence]. by simplify_eq.
  - intros [-> ->]. by econstructor.
Qed.

Lemma runs_write n fd bytes (k : shprog A) F es n' :
  runs n (sbind (sys1 (CWrite fd bytes)) (fun _ => k)) F es n' <-> runs n k F es n'.
Proof.
  cbn [sys1 sbind]. rewrite runs_silent by done. split.
  - intros (r & F1 & Hs & E). by inversion Hs; subst.
  - intros E. exists (0, []), F. split; [constructor|done].
Qed.

Lemma runs_writes n l (k : unit -> shprog A) F es n' : runs n (sbind (swrites l) k) F es n' <-> runs n (k tt) F es n'.
Proof.
  induction l as [|[fd bytes] l IH]; cbn [swrites]; [done|]. rewrite <- IH. apply (runs_write n fd bytes (sbind (swrites l) k)).
Qed.

Lemma runs_wait n (k : Z -> shprog A) F es n' :
  runs n (sbind (sys1 CWait) k) F es n' <-> exists r es', es = EWait :: es' /\ runs n (k r) F es' n'.
Proof.
  cbn [sys1 sbind]. split.
  - intros E. inversion E as [| | | | | | |n0 k0 F0 r es0 n1 E'| | | | | |? ? ? ? ? ? ? ? Hs]; subst; [by exists r, es0|inversion Hs].
  - intros (r & es' & -> & E). by eapply run_wait.
Qed.

Lemma runs_chdir n path (k : Z -> shprog A) F es n' :
  runs n (sbind (sys1 (CChdir path)) k) F es n' <-> exists r es', es = EChdir path :: es' /\ runs n (k r) F es' n'.
Proof.
  cbn [sys1 sbind]. split.
  - intros E. inversion E as [| | | | | | | | | |n0 p0 k0 F0 r es0 n1 E'| | |? ? ? ? ? ? ? ? Hs]; subst; [by exists r, es0|inversion Hs].
  - intros (r & es' & -> & E). by eapply run_chdir.
Qed.

(** A byte read from the standard input, or none: the end, or an error. *)
Lemma runs_read1 n (k : Z * list Z -> shprog A) F es n' :
  runs n (SSys (CRead 0 1) k) F es n' <->
  (exists c es', es = ERead [c] :: es' /\ runs n (k (1, [c])) F es' n') \/
  (exists r es', r < 1 /\ (r = 0 \/ r = -1) /\ es = ERead [] :: es' /\ runs n (k (r, [])) F es' n').
Proof.
  split.
  - intros E. inversion E as [| | | | | | | |n0 fd len k0 F0 bytes es0 n1 Hl E'|n0 fd len k0 F0 es0 n1 E'| | | |? ? ? ? ? ? ? ? Hs]; subst; [| |inversion Hs].
    + destruct bytes as [|c [|c' bytes]]; cbn [length] in *; [right|left|lia].
      * exists 0, es0. split_and!; [lia|by left|done|exact E'].
      * exists c, es0. by split.
    + right. exists (-1), es0. split_and!; [lia|by right|done|exact E'].
  - intros [(c & es' & -> & E)|(r & es' & _ & [-> | ->] & -> & E)].
    + by apply (run_read n 0 1 k F [c]).
    + by apply (run_read n 0 1 k F []).
    + by apply run_read_bad.
Qed.

Lemma runs_exit n status F es n' : runs n (sh_exit status : shprog A) F es n' <-> es = [] /\ n' = n.
Proof.
  unfold sh_exit. split.
  - intros E. inversion E as [| | | | | | | | | | | | |? ? ? ? ? ? ? ? Hs]; subst; [done|inversion Hs].
  - intros [-> ->]. constructor.
Qed.

Lemma runs_panic n s F es n' : runs n (sh_panic s : shprog A) F es n' <-> es = [] /\ n' = n.
Proof. unfold sh_panic, sh_fprintf. rewrite runs_writes. apply runs_exit. Qed.

Lemma runs_print_exit n fd fmt args status F es n' :
  runs n (sh_fprintf fd fmt args ;; sh_exit status : shprog A) F es n' <-> es = [] /\ n' = n.
Proof. unfold sh_fprintf. rewrite runs_writes. apply runs_exit. Qed.
End Calls.

Lemma runs_exec {A} n path argv (k : shprog A) F es n' : (forall es1 n1, runs n k F es1 n1 <-> es1 = [] /\ n1 = n) ->
  runs n (sbind (sys1 (CExec path argv)) (fun _ => k)) F es n' <-> es = [EExec path argv F] /\ n' = n.
Proof.
  intros Hk. cbn [sys1 sbind]. split.
  - intros E. inversion E as [| | | |n0 p0 a0 k0 F0 es0 n1 E'| | | | | | | | |? ? ? ? ? ? ? ? Hs]; subst; [done| |inversion Hs].
    by apply Hk in E' as [-> ->].
  - intros [-> ->]. constructor.
Qed.

(** Sequences: a program that never returns ends its process; grouping does
    not matter. *)
Fixpoint noret {A} (m : shprog A) : Prop :=
  match m with
  | SDone _ => False
  | SSys _ k => forall r, noret (k r)
  | SStop => True
  end.

(** What follows a call counts only by its runs. *)
Lemma runs_sys {A B} c (k1 : Z * list Z -> shprog A) (k2 : Z * list Z -> shprog B) n F es n' :
  (forall r n F es n', runs n (k1 r) F es n' -> runs n (k2 r) F es n') -> runs n (SSys c k1) F es n' -> runs n (SSys c k2) F es n'.
Proof.
  intros Hk E. inversion E; subst; try solve [constructor].
  - apply run_exec_bad. by apply Hk.
  - eapply run_fork; [eassumption|apply Hk; eassumption|by apply Hk].
  - apply run_fork_bad. by apply Hk.
  - eapply run_wait. apply Hk. eassumption.
  - apply run_read; [done|by apply Hk].
  - apply run_read_bad. by apply Hk.
  - eapply run_chdir. apply Hk. eassumption.
  - eapply run_pipe; [eassumption..|by apply Hk].
  - apply run_pipe_bad. by apply Hk.
  - eapply run_step; [eassumption|by apply Hk].
Qed.

Lemma runs_noret {A B} n (m : shprog A) (k : A -> shprog B) F es n' : noret m -> runs n (sbind m k) F es n' <-> runs n m F es n'.
Proof.
  revert n F es n'. induction m as [a|c k' IH|]; intros n F es n' Hm; cbn [noret sbind] in *; [done| |].
  - split; apply runs_sys; intros r ? ? ? ?; by apply IH.
  - split; intros E; inversion E; constructor.
Qed.

Lemma runs_assoc {A B C} n (m : shprog A) (f : A -> shprog B) (g : B -> shprog C) F es n' :
  runs n (sbind (sbind m f) g) F es n' <-> runs n (sbind m (fun a => sbind (f a) g)) F es n'.
Proof.
  revert n F es n'. induction m as [a|c k IH|]; intros n F es n'; cbn [sbind]; [done| |done].
  split; apply runs_sys; intros r ? ? ? ?; by apply IH.
Qed.

Lemma noret_bind {A B} (m : shprog A) (f : A -> shprog B) : (forall a, noret (f a)) -> noret (sbind m f).
Proof. intros Hf. induction m as [a|c k IH|]; cbn; [apply Hf|exact IH|done]. Qed.

Lemma noret_exit {A} status : noret (sh_exit status : shprog A).
Proof. by intros r. Qed.

Lemma noret_panic {A} s : noret (sh_panic s : shprog A).
Proof. apply noret_bind. intros _. apply noret_exit. Qed.

Lemma sbind_stop {A B} n s (k : A -> shprog B) F es n' : runs n (sbind (sh_panic s) k) F es n' <-> es = [] /\ n' = n.
Proof. rewrite runs_noret by apply noret_panic. apply runs_panic. Qed.

Lemma runs_fork {A} n (k : Z -> shprog A) F es n' :
  runs n (sbind fork1 k) F es n' <->
  es = [] /\ n' = n \/
  exists pid cs es' n1, 0 < pid /\ es = EFork cs :: es' /\ runs n (k 0) F cs n1 /\ runs n1 (k pid) F es' n'.
Proof.
  unfold fork1. cbn [sys1 sbind]. split.
  - intros E. inversion E as [| | | | |n0 k0 F0 pid cs n1 es0 n2 Hp Ec Ep|n0 k0 F0 es0 n1 E'| | | | | | |? ? ? ? ? ? ? ? Hs]; subst; [right|left|inversion Hs].
    + cbn [fst] in *. destruct (Z.eqb_spec pid (-1)); [lia|]. by exists pid, cs, es0, n1.
    + by apply sbind_stop in E'.
  - intros [[-> ->]|(pid & cs & es' & n1 & Hp & -> & Ec & Ep)].
    + apply run_fork_bad. by apply sbind_stop.
    + apply (run_fork n _ F pid cs n1 es' n'); [done|exact Ec|]. cbn [fst]. destruct (Z.eqb_spec pid (-1)); [lia|exact Ep].
Qed.

(** ** Descriptors *)

(** The three standard descriptors are open. *)
Definition ready (F : table) : Prop := is_Some (F !! 0) /\ is_Some (F !! 1) /\ is_Some (F !! 2).

(** Two more can be opened. *)
Definition roomy (F : table) : Prop :=
  exists a b, 0 <= a < NOFILE /\ 0 <= b < NOFILE /\ a <> b /\ F !! a = None /\ F !! b = None.

Lemma free_fd_spec F fd : free_fd F = Some fd <-> 0 <= fd < NOFILE /\ F !! fd = None /\ forall j, 0 <= j < fd -> is_Some (F !! j).
Proof.
  unfold free_fd. split.
  - intros H. apply fmap_Some in H as ([i y] & Hf & ->). apply list_find_Some in Hf as (Hy & Hn & Hl). cbn [snd].
    apply list_lookup_fmap_Some in Hy as (j & -> & [-> Hj]%lookup_seq). split_and!; [unfold NOFILE in *; lia|unfold NOFILE in *; lia|done|].
    intros k Hk. destruct (F !! k) eqn:E; [by eexists|]. exfalso. apply (Hl (Z.to_nat k) k); [|lia|done].
    apply list_lookup_fmap_Some. exists (Z.to_nat k). split; [lia|]. apply lookup_seq. lia.
  - intros (Hr & Hn & Hl). apply fmap_Some. exists (Z.to_nat fd, fd). split; [|done]. apply list_find_Some. split_and!; [|done|].
    + apply list_lookup_fmap_Some. exists (Z.to_nat fd). split; [lia|]. apply lookup_seq. unfold NOFILE in *. lia.
    + intros j y Hy Hj. apply list_lookup_fmap_Some in Hy as (k & -> & [-> _]%lookup_seq). destruct (Hl (Z.of_nat (0 + j))) as [f Hf]; [lia|]. congruence.
Qed.

Lemma free_fd_exists F a : 0 <= a < NOFILE -> F !! a = None -> exists fd, free_fd F = Some fd.
Proof.
  intros Ha Hn. destruct (free_fd F) as [fd|] eqn:E; [by exists fd|]. exfalso. unfold free_fd in E.
  apply fmap_None, list_find_None in E. rewrite Forall_forall in E. apply (E a); [|done].
  apply list_elem_of_fmap. exists (Z.to_nat a). split; [lia|]. apply elem_of_seq. unfold NOFILE in *. lia.
Qed.

Lemma ready_insert F fd f : ready F -> ready (<[fd := f]> F).
Proof. intros (H0 & H1 & H2). unfold ready. rewrite !lookup_insert_is_Some'. tauto. Qed.

Lemma roomy_insert F fd f : is_Some (F !! fd) -> roomy F -> roomy (<[fd := f]> F).
Proof.
  intros [g Hg] (a & b & Ha & Hb & Hne & Na & Nb). exists a, b. split_and!; try lia; [|]; by rewrite lookup_insert_ne by congruence.
Qed.

Lemma low_some F : ready F -> forall j, 0 <= j < 3 -> is_Some (F !! j).
Proof. intros (H0 & H1 & H2) j Hj. assert (j = 0 \/ j = 1 \/ j = 2) as [-> | [-> | ->]] by lia; done. Qed.

(** After [close(fd)] of a standard descriptor the next one opened is [fd]. *)
Lemma reopen F fd : (forall j, 0 <= j < fd -> is_Some (F !! j)) -> 0 <= fd < 3 -> free_fd (delete fd F) = Some fd.
Proof.
  intros Hl Hr. apply free_fd_spec. split_and!; [lia|unfold NOFILE; lia|apply lookup_delete_eq|].
  intros j Hj. rewrite lookup_delete_ne by lia. by apply Hl.
Qed.

(** The descriptors of a pipe, and the child that puts one in place of a
    standard one and closes both. *)
Lemma pipe_fds F id fd0 fd1 : ready F -> free_fd F = Some fd0 -> free_fd (<[fd0 := Pipe id false]> F) = Some fd1 ->
  3 <= fd0 /\ 3 <= fd1 /\ fd0 <> fd1 /\ F !! fd0 = None /\ F !! fd1 = None.
Proof.
  intros Hr H0 H1. apply free_fd_spec in H0 as (R0 & N0 & _), H1 as (R1 & N1 & _).
  destruct (decide (fd1 = fd0)) as [->|D]; [by rewrite lookup_insert_eq in N1|]. rewrite lookup_insert_ne in N1 by done.
  assert (Hge : forall fd, F !! fd = None -> 0 <= fd -> 3 <= fd).
  { intros fd Hn Hf. destruct (Z.lt_ge_cases fd 3) as [Hlt|]; [|done]. destruct (low_some F Hr fd) as [g Hg]; [lia|congruence]. }
  split_and!; [by apply Hge; [|lia]|by apply Hge; [|lia]|done|done|done].
Qed.

Lemma pipe_child {A} m F id fd0 fd1 fd w (p : shprog A) es m' :
  ready F -> free_fd F = Some fd0 -> free_fd (<[fd0 := Pipe id false]> F) = Some fd1 -> fd = 0 \/ fd = 1 ->
  runs m (sbind (sys1 (CClose fd)) (fun _ => sbind (sys1 (CDup (if w : bool then fd1 else fd0))) (fun _ =>
    sbind (sys1 (CClose fd0)) (fun _ => sbind (sys1 (CClose fd1)) (fun _ => p)))))
    (<[fd1 := Pipe id true]> (<[fd0 := Pipe id false]> F)) es m' <->
  runs m p (<[fd := Pipe id w]> F) es m'.
Proof.
  intros Hr H0 H1 Hfd. destruct (pipe_fds F id fd0 fd1 Hr H0 H1) as (G0 & G1 & Hne & N0 & N1).
  destruct (low_some F Hr fd) as [f Hf]; [lia|].
  rewrite (runs_close _ _ f) by (rewrite !lookup_insert_ne by lia; done).
  rewrite (runs_dup _ _ (Pipe id w) fd).
  2:{ rewrite lookup_delete_ne by (destruct w; lia). destruct w; [by rewrite lookup_insert_eq|by rewrite lookup_insert_ne, lookup_insert_eq by lia]. }
  2:{ apply reopen; [|lia]. intros j Hj. rewrite !lookup_insert_ne by lia. apply (low_some F Hr). lia. }
  rewrite (runs_close _ _ (Pipe id false)).
  2:{ rewrite lookup_insert_ne, lookup_delete_ne, lookup_insert_ne by lia. apply lookup_insert_eq. }
  rewrite (runs_close _ _ (Pipe id true)).
  2:{ rewrite lookup_delete_ne, lookup_insert_ne, lookup_delete_ne by lia. apply lookup_insert_eq. }
  match goal with |- runs m p ?T es m' <-> _ => replace T with (<[fd := Pipe id w]> F); [done|] end.
  apply map_eq. intros j. destruct (decide (j = fd)) as [->|D]; [rewrite lookup_insert_eq, !lookup_delete_ne by lia; by rewrite lookup_insert_eq|].
  rewrite lookup_insert_ne by done. destruct (decide (j = fd1)) as [->|D1]; [by rewrite lookup_delete_eq|]. rewrite lookup_delete_ne by done.
  destruct (decide (j = fd0)) as [->|D0]; [by rewrite lookup_delete_eq|]. rewrite lookup_delete_ne, lookup_insert_ne, lookup_delete_ne by done.
  by rewrite !lookup_insert_ne by done.
Qed.

(** Redirections are of descriptor 0 or 1. *)
Fixpoint redirs01 (c : ast) : Prop :=
  match c with
  | AExec _ => True
  | ARedir c _ _ fd => (fd = 0 \/ fd = 1) /\ redirs01 c
  | APipe l r => redirs01 l /\ redirs01 r
  | AList l r => redirs01 l /\ redirs01 r
  | ABack c => redirs01 c
  end.

(** ** runcmd *)

Lemma runcmd_exec n argv F es n' : runs n (runcmd (AExec argv)) F es n' <-> plumbing n (AExec argv) F es n'.
Proof.
  destruct argv as [|arg0 argv]; cbn [runcmd].
  - rewrite runs_exit. split; [intros [-> ->]; constructor|intros E; by inversion E].
  - rewrite runs_exec by (intros es1 n1; apply runs_print_exit). split; [intros [-> ->]; constructor|intros E; by inversion E].
Qed.

Lemma runcmd_redir n c file mode fd F es n' : fd = 0 \/ fd = 1 -> ready F ->
  runs n (runcmd (ARedir c file mode fd)) F es n' <-> runs n (runcmd c) (<[fd := Opened file mode]> F) es n' \/ es = [] /\ n' = n.
Proof.
  intros Hfd Hr. cbn [runcmd]. destruct (low_some F Hr fd) as [f Hf]; [lia|]. rewrite (runs_close _ _ f) by done. cbn [sys1 sbind].
  assert (Hfree : free_fd (delete fd F) = Some fd) by (apply reopen; [intros j Hj; apply (low_some F Hr); lia|lia]).
  rewrite runs_silent by done. split.
  - intros (r & F' & Hs & E). inversion Hs; subst; cbn [fst] in E; [left|right].
    + simplify_eq. destruct (Z.ltb_spec fd 0); [lia|]. by rewrite insert_delete_eq in E.
    + cbn [Z.ltb Z.compare] in E. by apply runs_print_exit in E.
  - intros [E|E].
    + exists (fd, []), (<[fd := Opened file mode]> (delete fd F)). split; [by constructor|]. cbn [fst].
      destruct (Z.ltb_spec fd 0); [lia|]. by rewrite insert_delete_eq.
    + exists (-1, []), (delete fd F). split; [constructor|]. cbn [fst Z.ltb Z.compare]. by apply runs_print_exit.
Qed.

(** The end of the parent of a pipeline. *)
Lemma pipe_parent n F id fd0 fd1 es n' : ready F -> free_fd F = Some fd0 -> free_fd (<[fd0 := Pipe id false]> F) = Some fd1 ->
  runs n (sbind (sys1 (CClose fd0)) (fun _ => sbind (sys1 (CClose fd1)) (fun _ => sbind (sys1 CWait) (fun _ => sbind (sys1 CWait) (fun _ => sh_exit 0)))) : shprog unit)
    (<[fd1 := Pipe id true]> (<[fd0 := Pipe id false]> F)) es n' <-> es = [EWait; EWait] /\ n' = n.
Proof.
  intros Hr H0 H1. destruct (pipe_fds F id fd0 fd1 Hr H0 H1) as (G0 & G1 & Hn & N0 & N1).
  rewrite (runs_close _ _ (Pipe id false)) by (rewrite lookup_insert_ne by done; apply lookup_insert_eq).
  rewrite (runs_close _ _ (Pipe id true)) by (rewrite lookup_delete_ne by done; apply lookup_insert_eq).
  rewrite runs_wait. split.
  - intros (r & es' & -> & E). apply runs_wait in E as (r' & es'' & -> & E). by apply runs_exit in E as [-> ->].
  - intros [-> ->]. exists 0, [EWait]. split; [done|]. apply runs_wait. exists 0, []. split; [done|]. by apply runs_exit.
Qed.

(** The two descriptors of the next pipe. *)
Lemma pipe_free F id : roomy F -> exists fd0 fd1, free_fd F = Some fd0 /\ free_fd (<[fd0 := Pipe id false]> F) = Some fd1.
Proof.
  intros (a & b & Ha & Hb & Hne & Na & Nb). destruct (free_fd_exists F a Ha Na) as [fd0 H0]. exists fd0.
  assert (H1 : exists fd1, free_fd (<[fd0 := Pipe id false]> F) = Some fd1).
  { destruct (decide (fd0 = a)) as [->|D]; [apply (free_fd_exists _ b)|apply (free_fd_exists _ a)]; try done; by rewrite lookup_insert_ne. }
  destruct H1 as [fd1 H1]. by exists fd1.
Qed.

(** The two sides of a bar, when pipe() succeeds. *)
Lemma pipe_sides n l r F id fd0 fd1 es n' : ready F -> free_fd F = Some fd0 -> free_fd (<[fd0 := Pipe id false]> F) = Some fd1 ->
  runs n (do pid <- fork1;
    if pid =? 0 then sys1 (CClose 1) ;; sys1 (CDup fd1) ;; sys1 (CClose fd0) ;; sys1 (CClose fd1) ;; runcmd l
    else do pid <- fork1;
      if pid =? 0 then sys1 (CClose 0) ;; sys1 (CDup fd0) ;; sys1 (CClose fd0) ;; sys1 (CClose fd1) ;; runcmd r
      else sys1 (CClose fd0) ;; sys1 (CClose fd1) ;; sys1 CWait ;; sys1 CWait ;; sh_exit 0)
    (<[fd1 := Pipe id true]> (<[fd0 := Pipe id false]> F)) es n' <->
  es = [] /\ n' = n \/
  exists ls n1, runs n (runcmd l) (<[1 := Pipe id true]> F) ls n1 /\
    (es = [EFork ls] /\ n' = n1 \/
     exists rs, runs n1 (runcmd r) (<[0 := Pipe id false]> F) rs n' /\ es = [EFork ls; EFork rs; EWait; EWait]).
Proof.
  intros Hr H0 H1. rewrite runs_fork. split.
  - intros [E|(pid & ls & es1 & n1 & Hp & -> & El & E)]; [by left|right]. exists ls, n1. cbn [Z.eqb] in El.
    apply (pipe_child n F id fd0 fd1 1 true (runcmd l) ls n1 Hr H0 H1) in El; [|by right]. split; [done|].
    destruct (Z.eqb_spec pid 0); [lia|]. apply runs_fork in E as [[-> ->]|(pid' & rs & es2 & n2 & Hp' & -> & Er & E)]; [by left|right].
    cbn [Z.eqb] in Er. apply (pipe_child n1 F id fd0 fd1 0 false (runcmd r) rs n2 Hr H0 H1) in Er; [|by left].
    destruct (Z.eqb_spec pid' 0); [lia|]. apply (pipe_parent n2 F id fd0 fd1) in E as [-> ->]; [|done..]. by exists rs.
  - intros [E|(ls & n1 & El & E)]; [by left|right]. exists 1, ls.
    apply (pipe_child n F id fd0 fd1 1 true (runcmd l) ls n1 Hr H0 H1) in El; [|by right].
    destruct E as [[-> ->]|(rs & Er & ->)].
    + exists [], n1. split_and!; [lia|done|exact El|]. cbn [Z.eqb]. apply runs_fork. by left.
    + apply (pipe_child n1 F id fd0 fd1 0 false (runcmd r) rs n' Hr H0 H1) in Er; [|by left].
      exists [EFork rs; EWait; EWait], n1. split_and!; [lia|done|exact El|]. cbn [Z.eqb]. apply runs_fork. right.
      exists 1, rs, [EWait; EWait], n'. split_and!; [lia|done|exact Er|]. cbn [Z.eqb]. by apply pipe_parent.
Qed.

Lemma runcmd_pipe n l r F es n' : ready F -> roomy F ->
  runs n (runcmd (APipe l r)) F es n' <->
  es = [] /\ (n' = n \/ n' = S n) \/
  exists ls n1, runs (S n) (runcmd l) (<[1 := Pipe n true]> F) ls n1 /\
    (es = [EFork ls] /\ n' = n1 \/
     exists rs, runs n1 (runcmd r) (<[0 := Pipe n false]> F) rs n' /\ es = [EFork ls; EFork rs; EWait; EWait]).
Proof.
  intros Hr Hm. cbn [runcmd]. cbn [sbind]. split.
  - intros E. inversion E as [| | | | | | | | | | |n0 k F0 fd0 fd1 es0 n1 H0 H1 E'|n0 k F0 es0 n1 E'|? ? ? ? ? ? ? ? Hs]; subst; [| |inversion Hs].
    + cbn [fst snd Z.ltb Z.compare nth] in E'. apply pipe_sides in E' as [[-> ->]|E']; [left; naive_solver|by right|done..].
    + cbn [fst Z.ltb Z.compare] in E'. apply runs_panic in E' as [-> ->]. left. by split; [|left].
  - destruct (pipe_free F n Hm) as (fd0 & fd1 & H0 & H1). intros [(-> & [-> | ->])|E].
    + apply run_pipe_bad. cbn [fst Z.ltb Z.compare]. by apply runs_panic.
    + apply (run_pipe n _ F fd0 fd1); [done..|]. cbn [fst snd Z.ltb Z.compare nth]. apply pipe_sides; [done..|]. by left.
    + apply (run_pipe n _ F fd0 fd1); [done..|]. cbn [fst snd Z.ltb Z.compare nth]. apply pipe_sides; [done..|]. by right.
Qed.

Lemma runcmd_plumbing c : redirs01 c -> forall n F es n', ready F -> roomy F -> runs n (runcmd c) F es n' <-> plumbing n c F es n'.
Proof.
  induction c as [argv|c IH file mode fd|l IHl r IHr|l IHl r IHr|c IH]; cbn [redirs01]; intros Hc n F es n' Hr Hm.
  - apply runcmd_exec.
  - destruct Hc as [Hfd Hc]. rewrite runcmd_redir by done. assert (Hs : is_Some (F !! fd)) by (apply (low_some F Hr); lia).
    rewrite IH by (done || by apply ready_insert || by apply roomy_insert).
    split; [intros [E|[-> ->]]; by constructor|intros E; inversion E; subst; auto].
  - destruct Hc as [Hl Hrc]. rewrite runcmd_pipe by done.
    assert (P0 : is_Some (F !! 0)) by apply Hr. assert (P1 : is_Some (F !! 1)) by apply Hr.
    setoid_rewrite IHl; [|done|by apply ready_insert|by apply roomy_insert].
    setoid_rewrite IHr; [|done|by apply ready_insert|by apply roomy_insert]. split.
    + intros [[-> [-> | ->]]|(ls & n1 & El & [[-> ->]|(rs & Er & ->)])]; by econstructor.
    + intros E. inversion E; subst; [right; naive_solver|right; naive_solver|left; naive_solver|left; naive_solver].
  - destruct Hc as [Hl Hrc]. cbn [runcmd]. rewrite runs_fork. split.
    + intros [[-> ->]|(pid & cs & es' & n1 & Hp & -> & Ec & E)]; [constructor|]. destruct (Z.eqb_spec pid 0); [lia|].
      apply runs_wait in E as (r0 & es'' & -> & E). econstructor; [by apply IHl|by apply IHr].
    + intros E. inversion E; subst; [right|by left]. exists 1, ls, (EWait :: rs), n1. split_and!; [lia|done|by apply IHl|].
      cbn [Z.eqb]. apply runs_wait. exists 0, rs. split; [done|by apply IHr].
  - cbn [runcmd]. rewrite runs_fork. split.
    + intros [[-> ->]|(pid & cs & es' & n1 & Hp & -> & Ec & E)]; [constructor|]. destruct (Z.eqb_spec pid 0); [lia|].
      apply runs_exit in E as [-> ->]. constructor. by apply IH.
    + intros E. inversion E; subst; [right|by left]. exists 1, cs, [], n'. split_and!; [lia|done|by apply IH|]. cbn [Z.eqb]. by apply runs_exit.
Qed.

Lemma noret_runcmd c : noret (runcmd c).
Proof.
  induction c as [argv|c IH file mode fd|l IHl r IHr|l IHl r IHr|c IH]; cbn [runcmd].
  - destruct argv; [apply noret_exit|]. apply noret_bind. intros _. apply noret_bind. intros _. apply noret_exit.
  - apply noret_bind. intros _. apply noret_bind. intros n. destruct (n <? 0); [|done]. apply noret_bind. intros _. apply noret_exit.
  - apply noret_bind. intros p. destruct (p.1 <? 0); [apply noret_panic|].
    apply noret_bind. intros pid. destruct (pid =? 0); [by do 4 (apply noret_bind; intros _)|].
    apply noret_bind. intros pid'. destruct (pid' =? 0); do 4 (apply noret_bind; intros _); [done|apply noret_exit].
  - apply noret_bind. intros pid. destruct (pid =? 0); [done|]. by apply noret_bind.
  - apply noret_bind. intros pid. destruct (pid =? 0); [done|apply noret_exit].
Qed.

(** ** The shell *)

(** A line as the shell reads it, byte by byte: up to and with its newline or
    carriage return, or all there is at the end of the input, or as much as
    the buffer takes. *)
Definition line_end (c : Z) : Prop := c = 10 \/ c = 13.
Definition bytes_read (l : list Z) : list event := (fun c => ERead [c]) <$> l.

Inductive line_input (max : nat) (l : list Z) : list event -> Prop :=
| li_ended w c : l = w ++ [c] -> line_end c -> Forall (fun c => ~ line_end c) w -> (length l <= max)%nat -> line_input max l (bytes_read l)
| li_full : Forall (fun c => ~ line_end c) l -> length l = max -> line_input max l (bytes_read l)
| li_eof : Forall (fun c => ~ line_end c) l -> (length l < max)%nat -> line_input max l (bytes_read l ++ [ERead []]).

Lemma line_input_0 l rd : line_input 0 l rd <-> l = [] /\ rd = [].
Proof.
  split.
  - intros E. inversion E as [w c Hl _ _ Hn|_ Hn|_ Hn]; subst; [rewrite length_app in Hn; cbn in Hn; lia| |lia]. by apply nil_length_inv in Hn as ->.
  - intros [-> ->]. by apply li_full.
Qed.

Lemma line_input_nil m rd : line_input (S m) [] rd <-> rd = [ERead []].
Proof.
  split.
  - intros E. inversion E as [w c Hl| |]; [by destruct w|done|done].
  - intros ->. apply (li_eof _ []); [done|cbn; lia].
Qed.

Lemma line_input_end m c l rd : line_end c -> line_input (S m) (c :: l) rd <-> l = [] /\ rd = [ERead [c]].
Proof.
  intros Hc. split.
  - intros E. inversion E as [w c' Hl _ Hw _|Hw _|Hw _]; subst.
    + destruct w as [|c0 w]; injection Hl as -> ->; [done|]. by apply Forall_cons in Hw as [[] _].
    + by apply Forall_cons in Hw as [[] _].
    + by apply Forall_cons in Hw as [[] _].
  - intros [-> ->]. apply (li_ended _ [c] [] c); [done|done|done|cbn; lia].
Qed.

Lemma line_input_more m c l rd : ~ line_end c -> line_input (S m) (c :: l) rd <-> exists rd', rd = ERead [c] :: rd' /\ line_input m l rd'.
Proof.
  intros Hc. split.
  - intros E. inversion E as [w c' Hl He Hw Hn|Hw Hn|Hw Hn]; subst; cbn [length] in Hn.
    + destruct w as [|c0 w]; injection Hl as -> ->; [done|]. apply Forall_cons in Hw as [_ Hw]. eexists. split; [done|].
      eapply li_ended; eauto. lia.
    + apply Forall_cons in Hw as [_ Hw]. eexists. split; [done|]. apply li_full; [done|lia].
    + apply Forall_cons in Hw as [_ Hw]. eexists. split; [done|]. apply li_eof; [done|lia].
  - intros (rd' & -> & E). inversion E as [w c' -> He Hw Hn|Hw Hn|Hw Hn]; subst.
    + apply (li_ended _ (c :: w ++ [c']) (c :: w) c'); [done|done|by constructor|cbn [length]; lia].
    + apply (li_full _ (c :: l)); [by constructor|cbn [length]; lia].
    + apply (li_eof _ (c :: l)); [by constructor|cbn [length]; lia].
Qed.

Lemma line_end_eqb c : (c =? 10) || (c =? 13) = true <-> line_end c.
Proof. unfold line_end. rewrite orb_true_iff, !Z.eqb_eq. done. Qed.

Lemma gets_runs {A} n (K : list Z -> shprog A) F n' : forall m buf es,
  runs n (sbind (sh_gets m buf) K) F es n' <->
  exists l rd es', es = rd ++ es' /\ line_input m l rd /\ runs n (K (buf ++ l)) F es' n'.
Proof.
  induction m as [|m IH]; intros buf es; cbn [sh_gets].
  { cbn [sbind]. split.
    - intros E. exists [], [], es. split_and!; [done|by apply line_input_0|by rewrite app_nil_r].
    - intros (l & rd & es' & -> & [-> ->]%line_input_0 & E). by rewrite app_nil_r in E. }
  rewrite runs_assoc. cbn [sbind]. rewrite runs_read1. split.
  - intros [(c & es' & -> & E)|(r & es' & Hr & _ & -> & E)]; cbn [fst snd nth] in E.
    + change (1 <? 1) with false in E. cbv iota in E. destruct (_ || _) eqn:Hc.
      * apply line_end_eqb in Hc. cbn [sbind] in E. exists [c], [ERead [c]], es'. split_and!; [done|by apply line_input_end|done].
      * assert (He : ~ line_end c) by (rewrite <- line_end_eqb; congruence). apply IH in E as (l & rd & es1 & -> & Hl & E).
        exists (c :: l), (ERead [c] :: rd), es1. split_and!; [done|apply line_input_more; eauto|]. by rewrite <- app_assoc in E.
    + destruct (Z.ltb_spec r 1); [|lia]. cbn [sbind] in E. exists [], [ERead []], es'. split_and!; [done|by apply line_input_nil|by rewrite app_nil_r].
  - intros (l & rd & es' & -> & Hl & E). destruct l as [|c l].
    { apply line_input_nil in Hl as ->. right. exists 0, es'. split_and!; [lia|by left|done|]. cbn [fst Z.ltb Z.compare sbind]. by rewrite app_nil_r in E. }
    left. destruct ((c =? 10) || (c =? 13)) eqn:Hc.
    + pose proof Hc as He. apply line_end_eqb in He. apply line_input_end in Hl as [-> ->]; [|done]. exists c, es'. split; [done|].
      cbn [fst snd nth]. change (1 <? 1) with false. cbv iota. rewrite Hc. exact E.
    + assert (He : ~ line_end c) by (rewrite <- line_end_eqb; congruence). apply line_input_more in Hl as (rd' & -> & Hl); [|done].
      exists c, (rd' ++ es'). split; [done|]. cbn [fst snd nth]. change (1 <? 1) with false. cbv iota. rewrite Hc. apply IH.
      exists l, rd', es'. split_and!; [done|done|]. by rewrite <- app_assoc.
Qed.

Lemma cstring_no_nul l : no_nul (cstring l).
Proof. unfold no_nul. induction l as [|c l IH]; cbn [cstring]; [constructor|]. destruct (Z.eqb_spec c 0); by constructor. Qed.

Lemma parsed_redirs s buf c : cmd_ok s c -> redirs01 (resolve buf c).
Proof. induction c; cbn [cmd_ok resolve redirs01]; naive_solver. Qed.

(** parsecmd and runcmd in the child. *)
Definition sh_child (line : list Z) : shprog unit :=
  match parsecmd line with
  | Ret (c, buf') _ => runcmd (resolve buf' c)
  | Panic msg _ => sh_panic msg
  | _ => SStop
  end.

Lemma noret_child line : noret (sh_child line).
Proof. unfold sh_child. destruct (parsecmd line) as [[c b] i| | | |]; [apply noret_runcmd|apply noret_panic|done..]. Qed.

(** What the child does with a line: nothing when it does not parse. *)
Inductive line_runs (n : nat) (l : list Z) (F : table) : list event -> nat -> Prop :=
| lr_run c es n' : show (cstring l) = Some c -> plumbing n c F es n' -> line_runs n l F es n'
| lr_error : show (cstring l) = None -> line_runs n l F [] n.

Lemma child_runs n l F es n' : ready F -> roomy F -> runs n (sh_child (cstring l)) F es n' <-> line_runs n l F es n'.
Proof.
  intros Hr Hm. transitivity (match show (cstring l) with Some c => plumbing n c F es n' | None => es = [] /\ n' = n end).
  - unfold sh_child, show. pose proof (parse_ok (cstring l)) as Hok. unfold parsecmd, obind.
    destruct (parse (cstring l) 0%nat) as [c i|msg i| | |]; cbn in Hok; try done.
    + apply runcmd_plumbing; [by eapply parsed_redirs|done|done].
    + apply runs_panic.
  - destruct (show (cstring l)) as [c|] eqn:E; split.
    + intros H. by eapply lr_run.
    + intros H. inversion H; congruence.
    + intros [-> ->]. by apply lr_error.
    + intros H. inversion H; [congruence|done].
Qed.

Definition is_cd (buf : list Z) : bool := (nth 0 buf 0 =? 99) && (nth 1 buf 0 =? 100) && (nth 2 buf 0 =? 32).

(** The directory a cd line names: what follows, less its last character. *)
Definition cd_arg (l : list Z) : option (list Z) :=
  if is_cd l then Some (removelast (cstring (drop 3 l))) else None.

(** [session F n es n']: what the shell does with one line of its input after
    the other. Its descriptors stay [F]. It ends at an empty line (the end of
    the input), or when fork fails; and [es] may stop after any line. *)
Inductive session (F : table) : nat -> list event -> nat -> Prop :=
| se_now n : session F n [] n
| se_end n l rd : line_input (sh_nbuf - 1) l rd -> hd 0 l = 0 -> session F n rd n
| se_cd n l rd dir es n' : line_input (sh_nbuf - 1) l rd -> hd 0 l <> 0 -> cd_arg l = Some dir ->
    session F n es n' -> session F n (rd ++ EChdir dir :: es) n'
| se_nofork n l rd : line_input (sh_nbuf - 1) l rd -> hd 0 l <> 0 -> cd_arg l = None -> session F n rd n
| se_line n l rd cs n1 es n2 : line_input (sh_nbuf - 1) l rd -> hd 0 l <> 0 -> cd_arg l = None ->
    line_runs n l F cs n1 -> session F n1 es n2 -> session F n (rd ++ EFork cs :: EWait :: es) n2.

Lemma nth_pad i l n : nth i (l ++ replicate n 0) 0 = nth i l 0.
Proof.
  destruct (Nat.lt_ge_cases i (length l)) as [Hi|Hi]; [by rewrite app_nth1|]. rewrite app_nth2, (nth_overflow l) by lia.
  generalize (i - length l)%nat. induction n as [|n IH]; intros [|j]; cbn; done.
Qed.

Lemma cstring_pad l n : cstring (l ++ replicate n 0) = cstring l.
Proof. induction l as [|c l IH]; cbn [app cstring]; [by destruct n|]. by rewrite IH. Qed.

(** Chopping the last character of a string in its buffer. *)
Lemma cstring_chop l : cstring (take (length (cstring l) - 1) l) = removelast (cstring l).
Proof.
  induction l as [|c l IH]; cbn [cstring]; [done|]. destruct (Z.eqb_spec c 0) as [->|Hc]; [done|]. cbn [length].
  destruct (cstring l) as [|c' s] eqn:E; [done|]. cbn [length] in *.
  replace (S (S (length s)) - 1)%nat with (S (length s)) by lia. cbn [take cstring]. destruct (Z.eqb_spec c 0); [done|].
  replace (S (length s) - 1)%nat with (length s) in IH by lia. cbn [removelast]. f_equal. exact IH.
Qed.

Lemma cd_dir l n : is_cd l = true ->
  let buf := l ++ replicate n 0 in cstring (drop 3 (take (length (cstring buf) - 1) buf)) = removelast (cstring (drop 3 l)).
Proof.
  unfold is_cd. intros [[H0 H1]%andb_true_iff H2]%andb_true_iff. cbv zeta. rewrite cstring_pad.
  destruct l as [|a [|b [|c d]]]; cbn [nth] in *; [done..|]. apply Z.eqb_eq in H0 as ->, H1 as ->, H2 as ->.
  change (drop 3 (99 :: 100 :: 32 :: d)) with d. cbn [app cstring Z.eqb length]. rewrite <- cstring_chop. destruct (cstring d) as [|c s] eqn:E; [done|].
  cbn [length Nat.sub take drop]. rewrite Nat.sub_0_r, take_app_le; [done|].
  assert (Hle : (length (cstring d) <= length d)%nat).
  { clear. induction d as [|x d IH]; cbn [cstring length]; [done|]. destruct (x =? 0); cbn [length]; lia. }
  rewrite E in Hle. cbn [length] in Hle. lia.
Qed.

Lemma sh_line_runs n l m (k : unit -> shprog unit) F es n' : ready F -> roomy F ->
  runs n (sbind (sh_line (l ++ replicate m 0)) k) F es n' <->
  match cd_arg l with
  | Some dir => exists es', es = EChdir dir :: es' /\ runs n (k tt) F es' n'
  | None => es = [] /\ n' = n \/
      exists cs n1 es', es = EFork cs :: EWait :: es' /\ line_runs n l F cs n1 /\ runs n1 (k tt) F es' n'
  end.
Proof.
  intros Hr Hm. unfold sh_line. fold (is_cd (l ++ replicate m 0)). unfold cd_arg.
  assert (Hcd : is_cd (l ++ replicate m 0) = is_cd l) by (unfold is_cd; by rewrite !nth_pad). rewrite Hcd. destruct (is_cd l) eqn:E.
  - rewrite cd_dir by done. rewrite runs_assoc, runs_chdir. split.
    + intros (r & es' & -> & H). exists es'. split; [done|]. destruct (r <? 0); [|done]. unfold sh_fprintf in H. by apply runs_writes in H.
    + intros (es' & -> & H). by exists 0, es'.
  - rewrite cstring_pad. fold (sh_child (cstring l)). rewrite runs_assoc, runs_fork. split.
    + intros [H|(pid & cs & es' & n1 & Hp & -> & Hc & H)]; [by left|right]. cbn [Z.eqb] in Hc. rewrite runs_noret in Hc by apply noret_child.
      apply child_runs in Hc; [|done..]. destruct (Z.eqb_spec pid 0); [lia|]. rewrite runs_assoc, runs_wait in H.
      destruct H as (r & es1 & -> & H). by exists cs, n1, es1.
    + intros [H|(cs & n1 & es' & -> & Hc & H)]; [by left|right]. exists 1, cs, (EWait :: es'), n1. split_and!; [lia|done| |].
      * cbn [Z.eqb]. rewrite runs_noret by apply noret_child. by apply child_runs.
      * cbn [Z.eqb]. rewrite runs_assoc, runs_wait. by exists 0, es'.
Qed.

Lemma sh_getcmd_runs n (K : option (list Z) -> shprog unit) F es n' :
  runs n (sbind getcmd K) F es n' <->
  exists l rd es', es = rd ++ es' /\ line_input (sh_nbuf - 1) l rd /\
    runs n (K (if hd 0 l =? 0 then None else Some (l ++ replicate (sh_nbuf - length l) 0))) F es' n'.
Proof.
  unfold getcmd. rewrite runs_assoc, runs_write, runs_assoc, gets_runs. cbn [app].
  assert (Hk : forall l es', runs n (sbind (let buf := l ++ replicate (sh_nbuf - length l) 0 in
    if nth 0 buf 0 =? 0 then SDone None else SDone (Some buf)) K) F es' n' <->
    runs n (K (if hd 0 l =? 0 then None else Some (l ++ replicate (sh_nbuf - length l) 0))) F es' n').
  { intros l es'. cbv zeta. rewrite nth_pad. replace (nth 0 l 0) with (hd 0 l) by (by destruct l). by destruct (_ =? 0). }
  by setoid_rewrite Hk.
Qed.

Lemma sh_lines_session m F : ready F -> roomy F -> forall n es n', runs n (sh_lines m) F es n' -> session F n es n'.
Proof.
  intros Hr Hm. induction m as [|m IH]; intros n es n' E; cbn [sh_lines] in E.
  { inversion E; subst; constructor. }
  apply sh_getcmd_runs in E as (l & rd & es1 & -> & Hl & E). destruct (Z.eqb_spec (hd 0 l) 0) as [H0|H0].
  - apply runs_exit in E as [-> ->]. rewrite app_nil_r. by eapply se_end.
  - apply sh_line_runs in E; [|done..]. destruct (cd_arg l) as [dir|] eqn:Hcd.
    + destruct E as (es2 & -> & E). eapply se_cd; eauto.
    + destruct E as [[-> ->]|(cs & n1 & es2 & -> & Hc & E)]; [rewrite app_nil_r; by eapply se_nofork|]. eapply se_line; eauto.
Qed.

Lemma session_sh_lines F n es n' : ready F -> roomy F -> session F n es n' -> exists m, runs n (sh_lines m) F es n'.
Proof.
  intros Hr Hm. induction 1 as [n|n l rd Hl H0|n l rd dir es n' Hl H0 Hcd _ [m IH]|n l rd Hl H0 Hcd|n l rd cs n1 es n2 Hl H0 Hcd Hc _ [m IH]].
  { exists 0%nat. constructor. }
  1: exists 1%nat. 2: exists (S m). 3: exists 1%nat. 4: exists (S m).
  all: cbn [sh_lines]; apply sh_getcmd_runs; eexists l, rd, _; split_and!; [..|done|]; [try done; by rewrite app_nil_r|]; destruct (Z.eqb_spec (hd 0 l) 0); try done.
  - by apply runs_exit.
  - apply sh_line_runs; [done..|]. rewrite Hcd. by exists es.
  - apply sh_line_runs; [done..|]. rewrite Hcd. by left.
  - apply sh_line_runs; [done..|]. rewrite Hcd. right. by exists cs, n1, es.
Qed.

(** The first loop of main leaves the descriptors alone when 0, 1 and 2 are open. *)
Lemma sh_open_runs m n (k : unit -> shprog unit) F es n' : ready F -> roomy F -> runs n (sbind (sh_open (S m)) k) F es n' <-> runs n (k tt) F es n'.
Proof.
  intros Hr (a & b & Ha & _ & _ & Na & _). cbn [sh_open]. rewrite runs_assoc. cbn [sys1 sbind]. rewrite runs_silent by done.
  destruct (free_fd_exists F a Ha Na) as [fd Hfd]. pose proof Hfd as Hs. apply free_fd_spec in Hs as (R & N & _).
  assert (G : 3 <= fd). { destruct (Z.lt_ge_cases fd 3); [|done]. destruct (low_some F Hr fd) as [g Hg]; [lia|congruence]. }
  assert (Hcl : forall y f, runs n (sbind (sys1 (CClose fd) ;; SDone tt) k) (<[fd := f]> F) y n' <-> runs n (k tt) F y n').
  { intros y f. rewrite runs_assoc. rewrite (runs_close _ _ f) by apply lookup_insert_eq. by rewrite delete_insert_id. }
  split.
  - intros (r & F' & Hs & E). inversion Hs; subst; cbn [fst] in E.
    + simplify_eq. destruct (Z.ltb_spec fd 0); [lia|]. destruct (Z.leb_spec 3 fd); [|lia]. by apply Hcl in E.
    + done.
  - intros E. exists (fd, []), (<[fd := Opened (bytes_of "console") O_RDWR]> F). split; [by constructor|]. cbn [fst].
    destruct (Z.ltb_spec fd 0); [lia|]. destruct (Z.leb_spec 3 fd); [|lia]. by apply Hcl.
Qed.

(** C35. runcmd runs a command as it is written, and in no other way, when
    descriptors 0, 1 and 2 are open and two more can be had, and redirections
    are of 0 or 1, as the parser makes them: in every run, with the failures of calls that may happen, the process and those it
    creates call exec for the command's simple commands, each with its words
    and with the shell's descriptor table changed only as the command says: a
    redirected descriptor is the file opened, and the two sides of a bar have
    as descriptor 1 and as descriptor 0 the write end and the read end of one
    and the same new pipe, and no other descriptor of it. The first command
    of a list, and both sides of a bar, are waited for; one in the background
    is not. Every such run can happen. *)
Theorem runcmd_connects_programs n c F es n' :
  redirs01 c -> ready F -> roomy F -> (runs n (runcmd c) F es n' <-> plumbing n c F es n').
Proof. intros Hc Hr Hm. by apply runcmd_plumbing. Qed.

(** C36. The shell as a whole, started with descriptors 0, 1 and 2 open and two
    more to be had: what it does is a session: it reads a line, byte by byte, up to its newline,
    the end of the input or 99 bytes; for a cd it changes directory to what
    the line names, otherwise it creates a process that runs the command that
    this line, and nothing else, parses to (none when it does not parse), and
    waits; then the next line, until the end of the input or a fork that
    fails. Its own descriptors are never changed, and
    every session can happen. *)
Theorem shell_runs_typed_lines F n es n' :
  ready F -> roomy F -> ((exists m, runs n (sh_main m) F es n') <-> session F n es n').
Proof.
  intros Hr Hm. unfold sh_main. change (Z.to_nat NOFILE + 1)%nat with (S 16). split.
  - intros [m E]. rewrite sh_open_runs in E by done. by eapply sh_lines_session.
  - intros E. destruct (session_sh_lines F n es n' Hr Hm E) as [m Hm']. exists m. by rewrite sh_open_runs.
Qed.

(** ** Examples *)

Definition login : table := {[ 0 := Given 0; 1 := Given 0; 2 := Given 0 ]}.

Lemma login_ok : ready login /\ roomy login.
Proof. split; [by repeat split; eexists|]. exists 3, 4. unfold NOFILE. split_and!; try lia; reflexivity. Qed.

(** [cat < in | wc], as the shell's third pipe. *)
Definition some_cmd : ast := APipe (ARedir (AExec [bytes_of "cat"]) (bytes_of "in") O_RDONLY 0) (AExec [bytes_of "wc"]).
Definition some_events (n : nat) : list event :=
  [EFork [EExec (bytes_of "cat") [bytes_of "cat"] (<[0 := Opened (bytes_of "in") O_RDONLY]> (<[1 := Pipe n true]> login))];
   EFork [EExec (bytes_of "wc") [bytes_of "wc"] (<[0 := Pipe n false]> login)]; EWait; EWait].

Lemma some_plumbing n : plumbing n some_cmd login (some_events n) (S n).
Proof. eapply pl_pipe; [|constructor]. constructor. constructor. Qed.

Lemma runcmd_connects_programs_witness : runs 2 (runcmd some_cmd) login (some_events 2) 3.
Proof.
  apply (runcmd_connects_programs 2 some_cmd login (some_events 2) 3); [cbn; tauto|apply login_ok|apply login_ok|].
  apply some_plumbing.
Defined.

(** The same line typed twice, with a cd between and the end of the input
    after: the second pipe is another one. *)
Definition a_line : list Z := bytes_of "cat < in | wc" ++ [10].

Lemma typed_input w : Forall (fun c => ~ line_end c) w -> (length w < 99)%nat -> line_input (sh_nbuf - 1) (w ++ [10]) (bytes_read (w ++ [10])).
Proof. intros Hw Hl. apply (li_ended _ _ w 10); [done|by left|done|]. rewrite length_app. cbn. lia. Qed.

Lemma shell_runs_typed_lines_witness :
  exists m, runs 0 (sh_main m) login
    (bytes_read a_line ++ EFork (some_events 0) :: EWait ::
     (bytes_read (bytes_of "cd d" ++ [10]) ++ EChdir (bytes_of "d") ::
      (bytes_read a_line ++ EFork (some_events 1) :: EWait :: [ERead []]))) 2.
Proof.
  apply (shell_runs_typed_lines login 0 _ 2); [apply login_ok|apply login_ok|].
  assert (Ha : line_input (sh_nbuf - 1) a_line (bytes_read a_line)).
  { apply typed_input; [|vm_compute; lia]. repeat constructor; intros [H|H]; discriminate H. }
  eapply se_line; [exact Ha|done|done| |].
  { eapply lr_run; [vm_compute; reflexivity|apply some_plumbing]. }
  eapply (se_cd login 1 (bytes_of "cd d" ++ [10])); [|done|reflexivity|].
  { apply typed_input; [|vm_compute; lia]. repeat constructor; intros [H|H]; discriminate H. }
  eapply se_line; [exact Ha|done|done| |].
  { eapply lr_run; [vm_compute; reflexivity|apply some_plumbing]. }
  apply (se_end _ _ []); [|done]. by apply line_input_nil.
Defined.
