(* ===== verification/UInit.v ===== *)
(** user/init.c, as a tree of system calls (ShRun.v). *)

From stdpp Require Import base numbers list gmap strings.
From S2P Require Import Prelude Params Mem User ULib UPrintf Sh ShParse ShRun.

Definition init_argv : list (list Z) := [bytes_of "sh"].

(** The inner loop, for at most [k] children: true when the shell exited. *)
Fixpoint wait_shell (k : nat) (pid : Z) : shprog unit :=
  match k with
  | O => SStop
  | S k =>
      do wpid <- sys1 CWait;
      if wpid =? pid then SDone tt                     (* the shell exited; restart it. *)
      else if wpid <? 0 then
        sh_fprintf 1 ("init: wait returned an error" ++ newline) [] ;;
        sh_exit 1
      else wait_shell k pid                            (* it was a parentless process; do nothing. *)
  end.

(** The outer loop, for at most [n] shells. *)
Fixpoint init_loop (n k : nat) : shprog unit :=
  match n with
  | O => SStop
  | S n =>
      sh_fprintf 1 ("init: starting sh" ++ newline) [] ;;
      do pid <- sys1 CFork;
      if pid <? 0 then
        sh_fprintf 1 ("init: fork failed" ++ newline) [] ;;
        sh_exit 1
      else if pid =? 0 then
        sys1 (CExec (bytes_of "sh") init_argv) ;;
        sh_fprintf 1 ("init: exec sh failed" ++ newline) [] ;;
        sh_exit 1
      else
        wait_shell k pid ;;
        init_loop n k
  end.

Definition init_main (n k : nat) : shprog unit :=
  do fd <- sys1 (COpen (bytes_of "console") O_RDWR);
  (if fd <? 0 then
     sys1 (CMknod (bytes_of "console") CONSOLE 0) ;;
     sys1 (COpen (bytes_of "console") O_RDWR) ;;
     SDone tt
   else SDone tt) ;;
  sys1 (CDup 0) ;;   (* stdout *)
  sys1 (CDup 0) ;;   (* stderr *)
  init_loop n k.

(** ** What it runs *)

Definition console_file : sfile := Opened (bytes_of "console") O_RDWR.
Definition console_table : gmap Z sfile := {[ 0 := console_file; 1 := console_file; 2 := console_file ]}.

(** What init does: waits, and processes that each run the shell with the
    table [F]. *)
Definition shells_only (F : gmap Z sfile) : list event -> Prop :=
  Forall (fun e => e = EWait \/ e = EFork [EExec (bytes_of "sh") init_argv F]).

Lemma wait_shell_runs i k pid (K : unit -> shprog unit) F es j :
  runs i (sbind (wait_shell k pid) K) F es j ->
  exists w es', es = replicate w EWait ++ es' /\ (es' = [] \/ runs i (K tt) F es' j).
Proof.
  revert es. induction k as [|k IH]; intros es E; cbn [wait_shell] in E; [inversion E; exists 0%nat, []; by auto|].
  rewrite runs_assoc, runs_wait in E. destruct E as (r & es' & -> & E). destruct (r =? pid); [by exists 1%nat, es'; auto|].
  destruct (r <? 0).
  - unfold sh_fprintf in E. rewrite runs_assoc, runs_writes, runs_noret, runs_exit in E by apply noret_exit.
    destruct E as [-> ->]. exists 1%nat, []. by auto.
  - apply IH in E as (w & es'' & -> & E). by exists (S w), es''.
Qed.

Lemma init_loop_runs n k F i es j : runs i (init_loop n k) F es j -> shells_only F es.
Proof.
  revert i es. induction n as [|n IH]; intros i es E; cbn [init_loop] in E; [inversion E; constructor|].
  unfold sh_fprintf in E. rewrite runs_writes in E. cbn [sys1 sbind] in E.
  inversion E as [| | | | |n0 k0 F0 pid cs n1 es0 n2 Hp Ec Ep|n0 k0 F0 es0 n1 E'| | | | | | |? ? ? ? ? ? ? ? Hs]; subst; [| |inversion Hs].
  - cbn [fst] in *. change (0 <? 0) with false in Ec. change (0 =? 0) with true in Ec. cbv iota in Ec.
    apply (runs_exec i) in Ec as [-> ->]; [|intros; apply runs_print_exit]. constructor; [by right|].
    destruct (Z.ltb_spec pid 0); [lia|]. destruct (Z.eqb_spec pid 0); [lia|].
    apply wait_shell_runs in Ep as (w & es' & -> & Ep). apply Forall_app. split; [apply Forall_replicate; by left|].
    destruct Ep as [-> |Ep]; [constructor|by eapply IH].
  - cbn [fst] in E'. change (-1 <? 0) with true in E'. cbv iota in E'. rewrite runs_writes, runs_exit in E'. destruct E' as [-> _]. constructor.
Qed.

(** init only ever runs the shell, and with the console as its input, output
    and error output, unless the console can be neither opened nor made: the
    shell then has no descriptor. And it does run it, and waits. *)
Theorem init_runs_shell i n k es j :
  (runs i (init_main n k) ∅ es j -> shells_only console_table es \/ shells_only ∅ es) /\
  runs i (init_main 1 1) ∅ [EFork [EExec (bytes_of "sh") init_argv console_table]; EWait] i.
Proof.
  split.
  - unfold init_main. cbn [sys1 sbind]. intros E. rewrite runs_silent in E by done. destruct E as (r & F & Hs & E).
    assert (Hdup : forall F', runs i (sys1 (CDup 0) ;; sys1 (CDup 0) ;; init_loop n k) F' es j ->
      F' = {[ 0 := console_file ]} \/ F' = ∅ -> shells_only console_table es \/ shells_only ∅ es).
    { intros F' E' [-> | ->].
      - rewrite (runs_dup _ 0 console_file 1), (runs_dup _ 0 console_file 2) in E' by reflexivity.
        left. by apply init_loop_runs in E'.
      - cbn [sys1 sbind] in E'. rewrite runs_silent in E' by done. destruct E' as (r1 & F1 & Hs1 & E').
        inversion Hs1; subst; [done|]. rewrite runs_silent in E' by done. destruct E' as (r2 & F2 & Hs2 & E').
        inversion Hs2; subst; [done|]. right. by apply init_loop_runs in E'. }
    inversion Hs; subst; cbn [fst] in E.
    + match goal with H : free_fd ∅ = Some _ |- _ => injection H as <- end. cbn [Z.ltb Z.compare] in E. apply Hdup in E; [done|by left].
    + change (-1 <? 0) with true in E. cbn [sys1 sbind] in E. rewrite runs_silent in E by done.
      destruct E as (r1 & F1 & Hs1 & E). inversion Hs1; subst. rewrite runs_silent in E by done.
      destruct E as (r2 & F2 & Hs2 & E). apply Hdup in E; [done|]. inversion Hs2; subst; [left|by right].
      match goal with H : free_fd ∅ = Some _ |- _ => injection H as <- end. done.
  - unfold init_main. eapply (run_step i _ _ _ (0, [])); [by apply (st_open ∅ _ _ 0)|]. cbn [fst].
    change (0 <? 0) with false. cbv iota. cbn [sbind].
    rewrite (runs_dup _ 0 console_file 1), (runs_dup _ 0 console_file 2) by reflexivity.
    cbn [init_loop]. unfold sh_fprintf. rewrite runs_writes. eapply (run_fork i _ _ 1 _ i); [lia| |].
    + apply (runs_exec i); [|done]. intros. apply runs_print_exit.
    + cbn [sbind fst]. change (1 <? 0) with false. change (1 =? 0) with false. cbv iota. cbn [wait_shell sbind sys1].
      eapply (run_wait i _ _ 1). cbn [sbind fst]. change (1 =? 1) with true. cbv iota. cbn [sbind]. constructor.
Qed.

(** The shell is started as shell_runs_typed_lines (ShRun.v) asks. *)
Lemma console_table_ready : ready console_table /\ roomy console_table.
Proof. split; [by repeat split; eexists|]. exists 3, 4. unfold NOFILE. split_and!; try lia; reflexivity. Qed.
