(* ===== verification/UDir.v ===== *)
(** The file system as a user program that reads directories sees it: open,
    fstat, stat (ulib.c), read and close on a file system that does not change
    meanwhile, and trees of directories in it. *)

From stdpp Require Import base numbers list gmap strings.
From S2P Require Import Prelude Params Mem Fs User ULib UPrintf ShRun.

#[local] Open Scope xv6_scope.

(** What fstat tells of a file, and its bytes. *)
Record ufile := mk_ufile { uf_type : Z; uf_ino : Z; uf_size : Z; uf_data : list Z }.

Record dworld := mk_dworld {
  d_files : list Z -> option ufile;      (* by path *)
  d_fds : gmap Z (ufile * nat);          (* open descriptors: file and offset *)
  d_out : list (Z * list Z);             (* what has been written *)
  d_status : option Z;
}.

Definition set_d_fds v w := mk_dworld (d_files w) v (d_out w) (d_status w).
Definition set_d_out v w := mk_dworld (d_files w) (d_fds w) v (d_status w).
Definition set_d_status v w := mk_dworld (d_files w) (d_fds w) (d_out w) v.

Definition D : Type -> Type := M dworld.

(** ** System calls *)

Definition d_exit {A} (status : Z) : D A := fun w => Panic "exit" (set_d_status (Some status) w).

(** The lowest descriptor that is not open. *)
Definition fds_all : list Z := Z.of_nat <$> seq 0 (Z.to_nat NOFILE).
Definition d_fdalloc (fds : gmap Z (ufile * nat)) : option Z := snd <$> list_find (fun fd => fds !! fd = None) fds_all.

Definition d_open (path : list Z) : D Z :=
  let! w := get in
  match d_files w path, d_fdalloc (d_fds w) with
  | Some f, Some fd => modify (set_d_fds (<[fd := (f, 0%nat)]> (d_fds w))) ;; ret fd
  | _, _ => ret (-1)
  end.

(** The result, and the struct stat when it is 0. *)
Definition d_fstat (fd : Z) : D (Z * option ufile) :=
  let! fds := Prelude.gets d_fds in
  match fds !! fd with
  | Some (f, _) => ret (0, Some f)
  | None => ret (-1, None)
  end.

Definition d_close (fd : Z) : D Z :=
  let! fds := Prelude.gets d_fds in
  match fds !! fd with
  | None => ret (-1)
  | Some _ => modify (set_d_fds (delete fd fds)) ;; ret 0
  end.

(** Files and directories give as many bytes as are asked for and there. *)
Definition d_read (fd n : Z) : D (Z * list Z) :=
  let! fds := Prelude.gets d_fds in
  match fds !! fd with
  | None => ret (-1, [])
  | Some (f, off) =>
      let bytes := take (Z.to_nat n) (drop off (uf_data f)) in
      modify (set_d_fds (<[fd := (f, (off + length bytes)%nat)]> fds)) ;;
      ret (Z.of_nat (length bytes), bytes)
  end.

(** printf is the sequence of its writes (UPrintf.v). *)
Definition d_fprintf (fd : Z) (fmt : string) (args : list uarg) : D unit :=
  modify (fun w => set_d_out (d_out w ++ fprintf_writes fd (bytes_of fmt) args) w).
Definition d_printf (fmt : string) (args : list uarg) : D unit := d_fprintf 1 fmt args.

(** ** stat of ulib.c *)

Definition stat (n : list Z) : D (Z * option ufile) :=
  let! fd := d_open n in
  if fd <? 0 then ret (-1, None)
  else
    let! r := d_fstat fd in
    d_close fd ;;
    ret r.

(** ** What the calls do *)

(** The number of descriptors left. *)
Definition nfree (fds : gmap Z (ufile * nat)) : nat := size ((list_to_set fds_all : gset Z) ∖ dom fds).

Lemma fdalloc_some fds : (0 < nfree fds)%nat ->
  exists fd, d_fdalloc fds = Some fd /\ fds !! fd = None /\ fd ∈ fds_all /\ 0 <= fd.
Proof.
  intros H. unfold nfree in H. apply size_pos_elem_of in H as [x Hx].
  rewrite elem_of_difference, elem_of_list_to_set, not_elem_of_dom in Hx. destruct Hx as [Hx Hn].
  destruct (list_find_elem_of (fun fd => fds !! fd = None) fds_all x Hx Hn) as [[k fd] E].
  unfold d_fdalloc. rewrite E. apply list_find_Some in E as (Hk & Hf & _). apply list_elem_of_lookup_2 in Hk.
  exists fd. split_and!; [done..|]. apply list_elem_of_fmap in Hk as (? & -> & _). lia.
Qed.

Lemma dir_nfree_insert fds fd v : fds !! fd = None -> fd ∈ fds_all -> nfree fds = S (nfree (<[fd := v]> fds)).
Proof.
  intros Hn Hin. unfold nfree. rewrite dom_insert_L. apply not_elem_of_dom in Hn.
  transitivity (size ({[fd]} ∪ (list_to_set fds_all : gset Z) ∖ ({[fd]} ∪ dom fds))).
  - f_equal. apply set_eq. intros x. rewrite !elem_of_union, !elem_of_difference, elem_of_union, elem_of_singleton, elem_of_list_to_set.
    destruct (decide (x = fd)) as [->|]; tauto.
  - rewrite size_union by set_solver. by rewrite size_singleton.
Qed.

Lemma nfree_same fds fd v v' : fds !! fd = Some v -> nfree (<[fd := v']> fds) = nfree fds.
Proof. intros H. unfold nfree. f_equal. f_equal. apply dom_insert_lookup_L. by exists v. Qed.

Lemma d_open_run path w f : d_files w path = Some f -> (0 < nfree (d_fds w))%nat ->
  exists fd, d_fds w !! fd = None /\ fd ∈ fds_all /\ (fd <? 0) = false /\
    d_open path w = Ret fd (set_d_fds (<[fd := (f, 0%nat)]> (d_fds w)) w).
Proof.
  intros Hf Hn. destruct (fdalloc_some _ Hn) as (fd & Ha & Hl & Hin & Hp). exists fd. split_and!; [done..|lia|].
  unfold d_open. rewrite run_get, Hf, Ha. done.
Qed.

Lemma set_fds_back w fd v : d_fds w !! fd = None -> set_d_fds (delete fd (<[fd := v]> (d_fds w))) w = w.
Proof. intros H. rewrite delete_insert_id by done. by destruct w. Qed.

Lemma stat_run path w f : d_files w path = Some f -> (0 < nfree (d_fds w))%nat -> stat path w = Ret (0, Some f) w.
Proof.
  intros Hf Hn. destruct (d_open_run path w f Hf Hn) as (fd & Hl & _ & Hp & E). unfold stat.
  rewrite (bind_Ret _ _ _ _ _ E), Hp. unfold d_fstat. rewrite bind_assoc, run_gets. cbn [d_fds set_d_fds].
  rewrite lookup_insert_eq. run_steps. unfold d_close. rewrite bind_assoc, run_gets. cbn [d_fds set_d_fds].
  rewrite lookup_insert_eq, bind_assoc. run_steps. f_equal. exact (set_fds_back w fd _ Hl).
Qed.

(** ** What printf writes *)

Definition singles (fd : Z) (l : list Z) : list (Z * list Z) := (fun c => (fd, [c])) <$> l.

Lemma print_string_writes fd l : is_bytes l ->
  fprintf_writes fd (bytes_of ("%s" ++ newline)) [AStr (Some l)] = singles fd (l ++ [10]).
Proof.
  intros Hl. unfold fprintf_writes. set (w := mk_uworld _ _ _ _ _).
  assert (UPrintf.fprintf fd (bytes_of ("%s" ++ newline)) [AStr (Some l)] w = Ret tt (emits fd (l ++ [10]) w)) as ->.
  { assert (can_write fd w) as Hw by (split; [cbn; rewrite lookup_singleton_eq; by eexists|done]).
    change ((let! r := vprintf_conv fd [115; 10] [AStr (Some l)] in vprintf_loop 3 fd r.1 r.2) w
            = Ret tt (emits fd (l ++ [10]) w)).
    change (vprintf_conv fd [115; 10] [AStr (Some l)]) with (for_each l (putc fd) ;; ret ([10], @nil uarg)).
    rewrite bind_assoc, (bind_Ret _ _ _ _ _ (puts_run fd l w Hw Hl)). run_steps. cbn [fst snd].
    change ((putc fd 10 ;; vprintf_loop 2 fd [] []) (emits fd l w) = Ret tt (emits fd (l ++ [10]) w)).
    rewrite (bind_Ret _ _ _ _ _ (putc_run fd 10 (emits fd l w) Hw ltac:(done))). by rewrite emits_app. }
  done.
Qed.
