(* ===== verification/UFind.v ===== *)
(** user/find.c, over the file system as directory-reading programs see it
    (UDir.v).

    A string is the list of its bytes without the NUL; the arrays that strcmp
    walks are given as they are, so that a comparison that runs past the end
    of de.name is undefined. [fuel] bounds the depth of the recursion and the
    entries of a directory. *)

From stdpp Require Import base numbers list gmap strings.
From S2P Require Import Prelude Params Mem Fs User ULib UPrintf ShRun UDir.

#[local] Open Scope xv6_scope.

Definition nameComparison (name1 name2 : list Z) : D Z :=
  let! r := of_option (strcmp name1 name2) in
  ret (if r =? 0 then 1 else 0).

(** A string literal, or an argument, in memory. *)
Definition literal (s : string) : list Z := holds (bytes_of s) [].

Definition sizeof_buf : Z := 512.

(** One turn of the loop over the entries of the directory open at [fd]. *)
Definition find_round (find : list Z -> list Z -> D unit) (fileName currentDir : list Z) (fd : Z) : D (unit + unit) :=
  let! r := d_read fd sizeof_dirent in
  if negb (r.1 =? sizeof_dirent) then ret (inr tt)
  else
    let de := r.2 in
    if de_inum de =? 0 then ret (inl tt)
    else
      let! dot := nameComparison (de_name de) (literal ".") in
      let! dots := (if dot =? 1 then ret 1 else nameComparison (de_name de) (literal "..")) in
      if dots =? 1 then ret (inl tt)
      else
        (* currentDir, a slash, the DIRSIZ bytes of the name and a NUL *)
        let buf := cstring (currentDir ++ [47] ++ de_name de ++ [0]) in
        let! st := stat buf in
        match st with
        | (_, None) =>
            d_printf ("ls: cannot stat %s" ++ newline) [AStr (Some buf)] ;;
            ret (inl tt)
        | (_, Some f) =>
            let! same := nameComparison (holds fileName []) (de_name de) in
            when (same =? 1) (d_printf ("%s" ++ newline) [AStr (Some buf)]) ;;
            when (uf_type f =? T_DIR) (find fileName buf) ;;
            ret (inl tt)
        end.

Fixpoint find (fuel : nat) (fileName currentDir : list Z) : D unit :=
  match fuel with
  | O => fun _ => NoFuel
  | S fuel =>
      let! fd := d_open currentDir in
      if fd <? 0 then d_fprintf 2 ("ls: cannot open %s" ++ newline) [AStr (Some fileName)]
      else
        let! r := d_fstat fd in
        if r.1 <? 0 then
          d_fprintf 2 ("ls: cannot stat %s" ++ newline) [AStr (Some fileName)] ;;
          d_close fd ;;
          ret tt
        else if sizeof_buf <? Z.of_nat (length currentDir) + 1 + DIRSIZ + 1 then
          d_printf ("ls: path too long" ++ newline) []
        else
          loop (S fuel) (fun _ => find_round (find fuel) fileName currentDir fd) tt ;;
          d_close fd ;;
          ret tt
  end.

Definition find_main (fuel : nat) (argv : list (list Z)) : D unit :=
  match argv with
  | [_; dir; name] =>
      find fuel name dir ;;
      d_exit 0
  | _ =>
      d_printf ("Error: Arguments do not fit the command parameter(s)." ++ newline) [] ;;
      d_exit 0
  end.

(** ** Directory trees *)

Inductive tree :=
| File (type ino size : Z) (data : list Z)
| Dir (ino : Z) (es : entries)
with entries :=
| ENil
| ESkip (de : list Z) (es : entries)                      (* a free slot, ".", ".." *)
| ENext (inum : Z) (name : list Z) (t : tree) (es : entries).

Scheme tree_mut := Induction for tree Sort Prop
  with entries_mut := Induction for entries Sort Prop.
Combined Scheme tree_entries_ind from tree_mut, entries_mut.

Definition dirent (inum : Z) (name : list Z) : list Z :=
  le_bytes 2 inum ++ name ++ replicate (Z.to_nat DIRSIZ - length name) 0.

Fixpoint dir_bytes (es : entries) : list Z :=
  match es with
  | ENil => []
  | ESkip de es => de ++ dir_bytes es
  | ENext inum name _ es => dirent inum name ++ dir_bytes es
  end.

(** A name that strcmp can compare: short enough for a NUL. *)
Definition name_ok (name : list Z) : Prop :=
  no_nul name /\ is_bytes name /\ (0 < length name < Z.to_nat DIRSIZ)%nat /\
  name <> bytes_of "." /\ name <> bytes_of "..".

Definition skipped (de : list Z) : Prop :=
  length de = Z.to_nat sizeof_dirent /\
  (de_inum de = 0 \/ exists inum, de = dirent inum (bytes_of ".") \/ de = dirent inum (bytes_of "..")).

(** The path of an entry of [d]. *)
Definition below (d name : list Z) : list Z := d ++ [47] ++ name.

Definition node_file (t : tree) : ufile :=
  match t with
  | File type ino size data => mk_ufile type ino size data
  | Dir ino es => mk_ufile T_DIR ino (Z.of_nat (length (dir_bytes es))) (dir_bytes es)
  end.

(** The file system has the tree at path [d]. *)
Fixpoint tree_at (fs : list Z -> option ufile) (d : list Z) (t : tree) : Prop :=
  fs d = Some (node_file t) /\
  match t with
  | File type _ _ _ => type <> T_DIR
  | Dir _ es =>
      (* the names in it fit find's buffer *)
      Z.of_nat (length d) + 1 + DIRSIZ + 1 <= sizeof_buf /\ entries_at fs d es
  end
with entries_at (fs : list Z -> option ufile) (d : list Z) (es : entries) : Prop :=
  match es with
  | ENil => True
  | ESkip de es => skipped de /\ entries_at fs d es
  | ENext inum name t es =>
      0 < inum < 65536 /\ name_ok name /\ tree_at fs (below d name) t /\ entries_at fs d es
  end.

(** The paths under [d] of the entries named [name], each directory before
    what is in it. *)
Fixpoint found (name d : list Z) (t : tree) : list (list Z) :=
  match t with
  | File _ _ _ _ => []
  | Dir _ es => found_in name d es
  end
with found_in (name d : list Z) (es : entries) : list (list Z) :=
  match es with
  | ENil => []
  | ESkip _ es => found_in name d es
  | ENext _ n t es =>
      (if decide (n = name) then [below d n] else []) ++ found name (below d n) t ++ found_in name d es
  end.

(** Descriptors needed at the same time: one for each directory on the way,
    and one for stat. *)
Fixpoint tree_fds (t : tree) : nat :=
  match t with
  | File _ _ _ _ => 1
  | Dir _ es => S (entries_fds es)
  end
with entries_fds (es : entries) : nat :=
  match es with
  | ENil => 0
  | ESkip _ es => entries_fds es
  | ENext _ _ t es => Nat.max (tree_fds t) (entries_fds es)
  end.

Fixpoint tree_size (t : tree) : nat :=
  match t with
  | File _ _ _ _ => 1
  | Dir _ es => S (S (entries_size es))
  end
with entries_size (es : entries) : nat :=
  match es with
  | ENil => 0
  | ESkip _ es => S (entries_size es)
  | ENext _ _ t es => S (tree_size t + entries_size es)
  end.

(** ** Entries *)

Lemma dirent_length inum name : (length name <= Z.to_nat DIRSIZ)%nat -> length (dirent inum name) = Z.to_nat sizeof_dirent.
Proof.
  intros H. unfold dirent. rewrite !length_app, length_le_bytes, length_replicate.
  change (Z.to_nat sizeof_dirent) with (2 + Z.to_nat DIRSIZ)%nat. lia.
Qed.

Lemma find_dirent_inum inum name : de_inum (dirent inum name) = u16 inum.
Proof. unfold de_inum, get16, get_at, dirent. rewrite drop_0, take_app_length' by (by rewrite length_le_bytes). by rewrite le_val_bytes. Qed.

Lemma find_dirent_name inum name : (length name < Z.to_nat DIRSIZ)%nat ->
  de_name (dirent inum name) = holds name (replicate (Z.to_nat DIRSIZ - S (length name)) 0).
Proof.
  intros H. unfold de_name, get_at, dirent, holds. rewrite drop_app_length' by (by rewrite length_le_bytes).
  rewrite take_ge by (rewrite length_app, length_replicate; lia). f_equal.
  by replace (Z.to_nat DIRSIZ - length name)%nat with (S (Z.to_nat DIRSIZ - S (length name))) by lia.
Qed.

Lemma nameComparison_run l r l' r' w : no_nul l -> no_nul l' -> is_bytes l -> is_bytes l' ->
  nameComparison (holds l r) (holds l' r') w = Ret (if decide (l = l') then 1 else 0) w.
Proof.
  intros H1 H2 H3 H4. destruct (strcmp_holds l r l' r' H1 H2 H3 H4) as (c & E & Hc).
  unfold nameComparison. rewrite E. cbn [of_option]. run_steps. f_equal.
  destruct (Z.eqb_spec c 0), (decide (l = l')); try done; tauto.
Qed.

Lemma bytes_of_dots : no_nul (bytes_of ".") /\ is_bytes (bytes_of ".") /\ no_nul (bytes_of "..") /\ is_bytes (bytes_of "..").
Proof. by split_and!; repeat constructor. Qed.

Lemma below_cstring d name k : no_nul d -> no_nul name ->
  cstring (d ++ [47] ++ holds name (replicate k 0) ++ [0]) = below d name.
Proof.
  intros Hd Hn. transitivity (cstring (below d name ++ 0 :: replicate k 0 ++ [0])).
  - f_equal. unfold below, holds. by rewrite <- !app_assoc.
  - apply cstring_holds. unfold below, no_nul in *. rewrite !Forall_app. split_and!; try done. by repeat constructor.
Qed.

Definition lines (l : list (list Z)) : list (Z * list Z) := concat ((fun p => singles 1 (p ++ [10])) <$> l).

Lemma lines_app l l' : lines (l ++ l') = lines l ++ lines l'.
Proof. unfold lines. by rewrite fmap_app, concat_app. Qed.

Lemma below_ok d name : no_nul d -> is_bytes d -> name_ok name -> no_nul (below d name) /\ is_bytes (below d name).
Proof.
  intros H1 H2 (H3 & H4 & _). unfold below, no_nul, is_bytes in *. rewrite !Forall_app. split_and!; try done; by repeat constructor.
Qed.

(** The world after lines were printed, with other descriptors. *)
Definition after_lines (l : list (list Z)) (fds : gmap Z (ufile * nat)) (w : dworld) : dworld :=
  set_d_out (d_out w ++ lines l) (set_d_fds fds w).

Section Round.
Context (rec : list Z -> list Z -> D unit) (name d : list Z) (fd : Z) (f : ufile) (pre : list Z) (w : dworld).
Context (Hfd : d_fds w !! fd = Some (f, length pre)).

(** The world with the descriptor moved over the entry. *)
Definition moved (de : list Z) : dworld := set_d_fds (<[fd := (f, length (pre ++ de))]> (d_fds w)) w.

Lemma read_entry de rest : uf_data f = pre ++ de ++ rest -> length de = Z.to_nat sizeof_dirent ->
  d_read fd sizeof_dirent w = Ret (sizeof_dirent, de) (moved de).
Proof using Hfd.
  intros Hd Hl. unfold d_read. rewrite run_gets, Hfd, Hd, drop_app_length.
  rewrite take_app_length' by done. run_steps. unfold moved. rewrite Hl, length_app, Hl. done.
Qed.

Lemma round_end : uf_data f = pre ->
  find_round rec name d fd w = Ret (inr tt) (moved []).
Proof using Hfd.
  intros Hd. unfold find_round, d_read. rewrite bind_assoc, run_gets, Hfd, Hd, drop_all, take_nil.
  rewrite bind_assoc. run_steps. cbn [fst snd length]. unfold moved. by rewrite app_nil_r, Nat.add_0_r.
Qed.

Lemma round_skip de rest : uf_data f = pre ++ de ++ rest -> skipped de ->
  find_round rec name d fd w = Ret (inl tt) (moved de).
Proof using Hfd.
  intros Hd [Hl Hs]. unfold find_round. rewrite (bind_Ret _ _ _ _ _ (read_entry de rest Hd Hl)). cbn [fst snd].
  rewrite Z.eqb_refl. cbn [negb]. destruct (Z.eqb_spec (de_inum de) 0) as [|Hi]; [done|].
  destruct Hs as [Hs|[inum Hs]]; [done|]. destruct bytes_of_dots as (H1 & H2 & H3 & H4).
  destruct Hs as [-> | ->]; rewrite find_dirent_name by (vm_compute; lia); unfold literal.
  - rewrite (bind_Ret _ _ _ _ _ (nameComparison_run _ _ _ _ _ H1 H1 H2 H2)). done.
  - rewrite (bind_Ret _ _ _ _ _ (nameComparison_run _ _ _ _ _ H3 H1 H4 H2)). change (0 =? 1) with false. cbv iota.
    rewrite (bind_Ret _ _ _ _ _ (nameComparison_run _ _ _ _ _ H3 H3 H4 H4)). done.
Qed.

(** An entry: its line if the name fits, and the recursive call. *)
Lemma round_entry inum n t rest : uf_data f = pre ++ dirent inum n ++ rest ->
  0 < inum < 65536 -> name_ok n -> no_nul d -> is_bytes d -> no_nul name -> is_bytes name ->
  d_files w (below d n) = Some (node_file t) -> (0 < nfree (d_fds w))%nat ->
  find_round rec name d fd w =
    (when (uf_type (node_file t) =? T_DIR) (rec name (below d n)) ;; ret (inl tt))
      (set_d_out (d_out w ++ lines (if decide (n = name) then [below d n] else [])) (moved (dirent inum n))).
Proof using Hfd.
  intros Hd Hi Hn Hd1 Hd2 Hn1 Hn2 Hf Hfree. pose proof Hn as (N1 & N2 & [N3 N3'] & N4 & N5).
  destruct bytes_of_dots as (H1 & H2 & H3 & H4).
  unfold find_round. rewrite (bind_Ret _ _ _ _ _ (read_entry _ rest Hd ltac:(apply dirent_length; lia))). cbn [fst snd].
  rewrite Z.eqb_refl. cbn [negb]. rewrite find_dirent_inum. unfold u16. rewrite Z.mod_small by lia.
  rewrite (proj2 (Z.eqb_neq inum 0)) by lia. rewrite find_dirent_name by done. unfold literal.
  rewrite (bind_Ret _ _ _ _ _ (nameComparison_run _ _ _ _ _ N1 H1 N2 H2)), decide_False by done.
  change (0 =? 1) with false. cbv iota.
  rewrite (bind_Ret _ _ _ _ _ (nameComparison_run _ _ _ _ _ N1 H3 N2 H4)), decide_False by done.
  change (0 =? 1) with false. cbv iota zeta. rewrite below_cstring by done.
  rewrite (bind_Ret _ _ _ _ _ (stat_run (below d n) (moved (dirent inum n)) (node_file t) Hf ltac:(unfold moved; cbn [d_fds set_d_fds]; rewrite (nfree_same _ _ _ _ Hfd); exact Hfree))).
  rewrite (bind_Ret _ _ _ _ _ (nameComparison_run _ _ _ _ _ Hn1 N1 Hn2 N2)).
  destruct (decide (name = n)) as [->|Hne].
  - rewrite decide_True by done. change (1 =? 1) with true. unfold d_printf, d_fprintf. run_steps.
    destruct (below_ok d n) as [_ Hb]; [done..|]. rewrite print_string_writes by done.
    unfold lines. cbn [fmap list_fmap concat]. by rewrite app_nil_r.
  - rewrite decide_False by done. change (0 =? 1) with false. run_steps. cbn [lines fmap list_fmap concat].
    by rewrite app_nil_r.
Qed.
End Round.

(** ** The whole tree *)

Section Find.
Context (fs : list Z -> option ufile) (name : list Z) (Hn1 : no_nul name) (Hn2 : is_bytes name).

Definition finds (t : tree) : Prop := forall d fuel w, d_files w = fs -> tree_at fs d t -> no_nul d -> is_bytes d ->
  uf_type (node_file t) = T_DIR -> (tree_fds t <= nfree (d_fds w))%nat -> (tree_size t <= fuel)%nat ->
  find fuel name d w = Ret tt (set_d_out (d_out w ++ lines (found name d t)) w).

Definition finds_in (es : entries) : Prop := forall d fd f pre fuel g w,
  d_files w = fs -> entries_at fs d es -> no_nul d -> is_bytes d ->
  d_fds w !! fd = Some (f, length pre) -> uf_data f = pre ++ dir_bytes es ->
  (entries_fds es <= nfree (d_fds w))%nat -> (entries_size es < g)%nat -> (entries_size es <= fuel)%nat ->
  loop g (fun _ => find_round (find fuel) name d fd) tt w =
    Ret tt (after_lines (found_in name d es) (<[fd := (f, length (uf_data f))]> (d_fds w)) w).

Lemma tree_fds_pos t : (0 < tree_fds t)%nat.
Proof using Type. destruct t; cbn; lia. Qed.

Lemma finds_next inum n t es : finds t -> finds_in es -> finds_in (ENext inum n t es).
Proof using Hn1 Hn2.
  intros Ht Hes d fd f pre fuel g w Hw Hat Hd1 Hd2 Hfd Hdata Hfds Hg Hfuel.
  cbn [entries_at entries_fds entries_size dir_bytes found_in] in *. destruct Hat as (Hi & Hn & Hta & Hat).
  pose proof (tree_fds_pos t). destruct g as [|g]; [lia|]. cbn [loop].
  assert (d_files w (below d n) = Some (node_file t)) as Hf by (rewrite Hw; destruct t; apply Hta).
  set (w1 := set_d_out (d_out w ++ lines (if decide (n = name) then [below d n] else [])) (moved fd f pre w (dirent inum n))).
  assert (nfree (d_fds w1) = nfree (d_fds w)) as Hnf by (apply (nfree_same _ _ _ _ Hfd)).
  set (w2 := set_d_out (d_out w1 ++ lines (found name (below d n) t)) w1).
  assert (find_round (find fuel) name d fd w = Ret (inl tt) w2) as E.
  { rewrite (round_entry _ _ _ _ _ _ _ Hfd inum n t (dir_bytes es)) by (done || lia). fold w1.
    destruct (Z.eqb_spec (uf_type (node_file t)) T_DIR) as [HT|HT].
    - destruct (below_ok d n Hd1 Hd2 Hn) as [Hb1 Hb2]. rewrite run_when_true.
      rewrite (bind_Ret _ _ _ _ _ (Ht (below d n) fuel w1 Hw Hta Hb1 Hb2 HT ltac:(lia) ltac:(lia))). done.
    - rewrite run_when_false. unfold w2. destruct t as [ty ino sz data|ino es']; [|done]. cbn [found lines fmap list_fmap concat].
      by rewrite app_nil_r. }
  rewrite (bind_Ret _ _ _ _ _ E). cbv beta iota.
  rewrite (Hes d fd f (pre ++ dirent inum n)) by (done || (by rewrite <- app_assoc) || (unfold w2; cbn [d_fds set_d_out]; lia) || (apply lookup_insert_eq) || lia).
  f_equal. unfold after_lines, w2, w1, moved. cbn [d_out d_fds set_d_out set_d_fds d_files d_status].
  rewrite insert_insert_eq, !lines_app, !app_assoc. done.
Qed.

Lemma finds_all : (forall t, finds t) /\ (forall es, finds_in es).
Proof using Hn1 Hn2.
  apply tree_entries_ind.
  - intros ty ino sz data d fuel w _ (_ & Hne) _ _ HT. done.
  - intros ino es Hes d fuel w Hw (Hf & Hlen & Hat) Hd1 Hd2 _ Hfds Hfuel. cbn [tree_fds tree_size found] in *.
    destruct fuel as [|fuel]; [lia|]. cbn [find]. rewrite <- Hw in Hf.
    destruct (d_open_run d w _ Hf ltac:(lia)) as (fd & Hnone & Hin & Hneg & E).
    set (f := node_file (Dir ino es)) in *.
    rewrite (bind_Ret _ _ _ _ _ E), Hneg. unfold d_fstat. rewrite bind_assoc, run_gets. cbn [d_fds set_d_fds].
    rewrite lookup_insert_eq. run_steps. cbn [fst]. change (0 <? 0) with false. cbv iota.
    rewrite (proj2 (Z.ltb_ge _ _)) by lia.
    set (w1 := set_d_fds _ w).
    rewrite (bind_Ret _ _ _ _ _ (Hes d fd f [] fuel (S fuel) w1 Hw Hat Hd1 Hd2 ltac:(apply lookup_insert_eq) ltac:(done)
      ltac:(unfold w1; cbn [d_fds set_d_fds]; rewrite (dir_nfree_insert _ fd (f, 0%nat)) in Hfds by done; lia) ltac:(lia) ltac:(lia))).
    unfold d_close. rewrite bind_assoc, run_gets. unfold after_lines, w1. cbn [d_fds set_d_out set_d_fds].
    rewrite lookup_insert_eq, bind_assoc. run_steps. f_equal. cbn [d_out set_d_fds].
    rewrite insert_insert_eq, delete_insert_id by done. by destruct w.
  - intros d fd f pre fuel g w Hw _ _ _ Hfd Hdata _ Hg _. cbn [dir_bytes found_in] in *. rewrite app_nil_r in Hdata.
    destruct g as [|g]; [lia|]. cbn [loop]. rewrite (bind_Ret _ _ _ _ _ (round_end _ name d _ _ _ _ Hfd Hdata)).
    cbv iota. f_equal. unfold after_lines, moved. rewrite app_nil_r, Hdata. cbn [lines fmap list_fmap concat].
    rewrite app_nil_r. by destruct w.
  - intros de es Hes d fd f pre fuel g w Hw [Hs Hat] Hd1 Hd2 Hfd Hdata Hfds Hg Hfuel.
    cbn [dir_bytes found_in entries_size entries_fds] in *. destruct g as [|g]; [lia|]. cbn [loop].
    rewrite (bind_Ret _ _ _ _ _ (round_skip _ name d _ _ _ _ Hfd _ _ Hdata Hs)). cbv iota.
    rewrite (Hes d fd f (pre ++ de)) by (done || (by rewrite <- app_assoc) || (unfold moved; cbn [d_fds set_d_fds]; rewrite (nfree_same _ _ _ _ Hfd); lia) || (apply lookup_insert_eq) || lia).
    f_equal. unfold after_lines, moved. cbn [d_fds set_d_fds d_out]. by rewrite insert_insert_eq.
  - intros inum n t Ht es Hes. by apply finds_next.
Qed.
End Find.

(** C31. find(1) prints exactly the entries with the given name: run as
    "find dir name" on any tree of directories under dir (names shorter than
    DIRSIZ, paths that fit its buffer, not deeper than the descriptors the
    process has left), it terminates with status 0, having written one line
    with the path of every entry of that name, at any depth, each once, a
    directory before what is in it and entries in directory order, and nothing
    else; free slots and the entries for the directory itself and its parent
    are passed over, and every descriptor it opened is closed. *)
Theorem find_prints_paths fuel prog dir name ino es w :
  tree_at (d_files w) dir (Dir ino es) -> no_nul dir -> is_bytes dir -> no_nul name -> is_bytes name ->
  (tree_fds (Dir ino es) <= nfree (d_fds w))%nat -> (tree_size (Dir ino es) <= fuel)%nat ->
  find_main fuel [prog; dir; name] w =
    Panic "exit" (set_d_status (Some 0) (set_d_out (d_out w ++ lines (found name dir (Dir ino es))) w)).
Proof.
  intros Hat Hd1 Hd2 Hn1 Hn2 Hfds Hfuel. unfold find_main.
  rewrite (bind_Ret _ _ _ _ _ (proj1 (finds_all (d_files w) name Hn1 Hn2) (Dir ino es) dir fuel w eq_refl Hat Hd1 Hd2 eq_refl Hfds Hfuel)).
  done.
Qed.

(** A small tree: ./a, ./a/b and ./b. *)
Definition a_file : tree := File 2 7 0 [].
Definition dots (self parent : Z) (es : entries) : entries :=
  ESkip (dirent self (bytes_of ".")) (ESkip (dirent parent (bytes_of "..")) es).
Definition a_dir : tree := Dir 5 (dots 5 1 (ENext 7 (bytes_of "b") a_file ENil)).
Definition a_root : entries :=
  dots 1 1 (ENext 5 (bytes_of "a") a_dir (ESkip (replicate 16 0) (ENext 8 (bytes_of "b") a_file ENil))).
Definition a_fs (path : list Z) : option ufile :=
  if decide (path = bytes_of ".") then Some (node_file (Dir 1 a_root))
  else if decide (path = bytes_of "./a") then Some (node_file a_dir)
  else if decide (path = bytes_of "./a/b") then Some (node_file a_file)
  else if decide (path = bytes_of "./b") then Some (node_file a_file)
  else None.
Definition a_world : dworld := mk_dworld a_fs ∅ [] None.

Lemma name_ok_dec name : bool_decide (no_nul name /\ is_bytes name /\ (0 < length name < Z.to_nat DIRSIZ)%nat /\
  name <> bytes_of "." /\ name <> bytes_of "..") = true -> name_ok name.
Proof. by intros H%bool_decide_eq_true. Qed.

Lemma skipped_dot self parent : skipped (dirent self (bytes_of ".")) /\ skipped (dirent parent (bytes_of "..")).
Proof. split; (split; [done|right; eexists; (by left) || (by right)]). Qed.

Lemma a_root_at : tree_at a_fs (bytes_of ".") (Dir 1 a_root).
Proof.
  split; [done|]. split; [vm_compute; discriminate|]. cbn [entries_at a_root dots].
  destruct (skipped_dot 1 1) as [S1 S2]. destruct (skipped_dot 5 1) as [S3 S4].
  split_and!; try done; try (by apply name_ok_dec); [|by split; [|left]].
  split; [done|]. split; [vm_compute; discriminate|]. cbn [entries_at dots].
  split_and!; try done; by apply name_ok_dec.
Qed.

Lemma find_prints_paths_witness :
  exists w, find_main 20 [bytes_of "find"; bytes_of "."; bytes_of "b"] a_world = Panic "exit" w /\
    concat (snd <$> d_out w) = bytes_of "./a/b" ++ [10] ++ bytes_of "./b" ++ [10].
Proof.
  eexists. split.
  - apply (find_prints_paths 20 (bytes_of "find") (bytes_of ".") (bytes_of "b") 1 a_root a_world).
    + exact a_root_at.
    + by repeat constructor.
    + by repeat constructor.
    + by repeat constructor.
    + by repeat constructor.
    + vm_compute. lia.
    + vm_compute. lia.
  - vm_compute. reflexivity.
Defined.

(** A name of all DIRSIZ bytes has no NUL in its entry, so looking for it
    makes strcmp read past the end of the entry. *)
Lemma find_long_name inum name : no_nul name -> is_bytes name -> length name = Z.to_nat DIRSIZ ->
  forall w, nameComparison (holds name []) (de_name (dirent inum name)) w = Undef w.
Proof.
  intros Hn _ Hl w. unfold nameComparison. replace (strcmp _ _) with (@None Z); [done|].
  unfold de_name, get_at, dirent. rewrite drop_app_length' by (by rewrite length_le_bytes).
  rewrite Hl, Nat.sub_diag. cbn [replicate]. rewrite app_nil_r, take_ge by lia. clear Hl. unfold holds.
  induction Hn as [|c l Hc _ IH]; [done|]. cbn [app strcmp]. rewrite Z.eqb_refl, (proj2 (Z.eqb_neq c 0)) by done. done.
Qed.
