(* ===== verification/ULs.v ===== *)
(** user/ls.c over the file system of UDir.v; user/rm.c, mkdir.c, ln.c and
    kill.c over a record of the calls they make. *)

From stdpp Require Import base numbers list gmap strings.
From S2P Require Import Prelude Params Mem Fs User ULib UPrintf ShRun UDir UFind.

#[local] Open Scope xv6_scope.

(** ** ls *)

(** fmtname's loop: from [p] back to the last slash; the index after it. *)
Fixpoint fmt_scan (path : list Z) (p : nat) : nat :=
  if bool_decide (path !! p = Some 47) then S p
  else match p with O => 0%nat | S p => fmt_scan path p end.

Definition fmtname (path : list Z) : list Z :=
  (* Find first character after last slash. *)
  let p := drop (fmt_scan path (length path)) path in
  (* Return blank-padded name. *)
  if (Z.to_nat DIRSIZ <=? length p)%nat then p
  else p ++ replicate (Z.to_nat DIRSIZ - length p) 32.

Definition ls_print (path : list Z) (f : ufile) : D unit :=
  d_printf ("%s %d %d %d" ++ newline) [AStr (Some (fmtname path)); AInt (uf_type f); AInt (uf_ino f); AInt (s32 (uf_size f))].

Definition ls_round (path : list Z) (fd : Z) : D (unit + unit) :=
  let! r := d_read fd sizeof_dirent in
  if negb (r.1 =? sizeof_dirent) then ret (inr tt)
  else
    let de := r.2 in
    if de_inum de =? 0 then ret (inl tt)
    else
      let buf := cstring (path ++ [47] ++ de_name de ++ [0]) in
      let! st := stat buf in
      match st with
      | (_, None) =>
          d_printf ("ls: cannot stat %s" ++ newline) [AStr (Some buf)] ;;
          ret (inl tt)
      | (_, Some f) =>
          ls_print buf f ;;
          ret (inl tt)
      end.

Definition ls (fuel : nat) (path : list Z) : D unit :=
  let! fd := d_open path in
  if fd <? 0 then d_fprintf 2 ("ls: cannot open %s" ++ newline) [AStr (Some path)]
  else
    let! r := d_fstat fd in
    match r with
    | (_, None) =>
        d_fprintf 2 ("ls: cannot stat %s" ++ newline) [AStr (Some path)] ;;
        d_close fd ;;
        ret tt
    | (_, Some f) =>
        (if (uf_type f =? T_DEVICE) || (uf_type f =? T_FILE) then ls_print path f
         else if uf_type f =? T_DIR then
           if sizeof_buf <? Z.of_nat (length path) + 1 + DIRSIZ + 1 then
             d_printf ("ls: path too long" ++ newline) []
           else loop fuel (fun _ => ls_round path fd) tt
         else ret tt) ;;
        d_close fd ;;
        ret tt
    end.

Definition ls_main (fuel : nat) (argv : list (list Z)) : D unit :=
  match drop 1 argv with
  | [] => ls fuel (bytes_of ".") ;; d_exit 0
  | paths => for_each paths (ls fuel) ;; d_exit 0
  end.

(** *** The name after the last slash *)

Lemma fmt_scan_le path p : (fmt_scan path p <= S p)%nat.
Proof. induction p as [|p IH]; cbn; case_bool_decide; lia. Qed.

Lemma fmt_scan_none path p : (forall i, (i <= p)%nat -> path !! i <> Some 47) -> fmt_scan path p = 0%nat.
Proof.
  induction p as [|p IH]; intros H; cbn [fmt_scan]; rewrite bool_decide_eq_false_2 by (apply H; lia); [done|].
  apply IH. intros i Hi. apply H. lia.
Qed.

Lemma fmt_scan_at path p i : path !! i = Some 47 -> (i <= p)%nat -> (forall j, (i < j <= p)%nat -> path !! j <> Some 47) ->
  fmt_scan path p = S i.
Proof.
  intros Hi. induction p as [|p IH]; intros Hip Hj; cbn [fmt_scan].
  - assert (i = 0%nat) as -> by lia. by rewrite bool_decide_eq_true_2.
  - destruct (decide (i = S p)) as [->|Hne]; [by rewrite bool_decide_eq_true_2|].
    rewrite bool_decide_eq_false_2 by (apply Hj; lia). apply IH; [lia|]. intros j Hj'. apply Hj. lia.
Qed.

(** fmtname of a path in a directory is the name, padded to DIRSIZ. *)
Lemma fmtname_below d name : 47 ∉ name -> (length name <= Z.to_nat DIRSIZ)%nat ->
  fmtname (below d name) = name ++ replicate (Z.to_nat DIRSIZ - length name) 32.
Proof.
  intros Hn Hl. unfold fmtname, below.
  assert (fmt_scan (d ++ [47] ++ name) (length (d ++ [47] ++ name)) = S (length d)) as ->.
  { apply fmt_scan_at.
    - by apply list_lookup_middle.
    - rewrite length_app. lia.
    - intros j Hj Hc. apply Hn. rewrite app_assoc in Hc. rewrite lookup_app_r in Hc by (rewrite length_app; cbn; lia).
      by eapply list_elem_of_lookup_2. }
  replace (S (length d)) with (length (d ++ [47])) by (rewrite length_app; cbn; lia).
  rewrite app_assoc, drop_app_length. destruct (Nat.leb_spec (Z.to_nat DIRSIZ) (length name)) as [H|H]; [|done].
  replace (Z.to_nat DIRSIZ - length name)%nat with 0%nat by lia. by rewrite app_nil_r.
Qed.

(** *** What ls prints *)

Definition ls_line (path : list Z) (f : ufile) : list (Z * list Z) :=
  fprintf_writes 1 (bytes_of ("%s %d %d %d" ++ newline))
    [AStr (Some (fmtname path)); AInt (uf_type f); AInt (uf_ino f); AInt (s32 (uf_size f))].

(** The path ls forms for an entry. *)
Definition entry_path (d de : list Z) : list Z := cstring (d ++ [47] ++ de_name de ++ [0]).

(** An entry of a directory at [d]: free, or a file that stat finds. *)
Definition listed (fs : list Z -> option ufile) (d de : list Z) : Prop :=
  length de = Z.to_nat sizeof_dirent /\ (de_inum de = 0 \/ is_Some (fs (entry_path d de))).

Definition ls_lines (fs : list Z -> option ufile) (d : list Z) (des : list (list Z)) : list (Z * list Z) :=
  concat ((fun de => if de_inum de =? 0 then [] else
             match fs (entry_path d de) with Some f => ls_line (entry_path d de) f | None => [] end) <$> des).

Lemma ls_loop d fd f des : forall pre w g,
  Forall (listed (d_files w) d) des -> d_fds w !! fd = Some (f, length pre) -> uf_data f = pre ++ concat des ->
  (0 < nfree (d_fds w))%nat -> (length des < g)%nat ->
  loop g (fun _ => ls_round d fd) tt w =
    Ret tt (set_d_out (d_out w ++ ls_lines (d_files w) d des) (set_d_fds (<[fd := (f, length (uf_data f))]> (d_fds w)) w)).
Proof.
  induction des as [|de des IH]; intros pre w g Hl Hfd Hdata Hn Hg; (destruct g as [|g]; [cbn in Hg; lia|]); cbn [loop].
  - rewrite app_nil_r in Hdata. unfold ls_round at 1, d_read. rewrite !bind_assoc, run_gets, Hfd, Hdata, drop_all, take_nil.
    rewrite bind_assoc. run_steps. cbn [fst snd length]. rewrite Nat.add_0_r. cbn [ls_lines fmap list_fmap concat].
    rewrite app_nil_r. by destruct w.
  - apply Forall_cons in Hl as [[Hlen Hde] Hl].
    pose proof (read_entry fd f pre w Hfd de (concat des) Hdata Hlen) as Er.
    set (w1 := moved fd f pre w de) in *.
    assert (nfree (d_fds w1) = nfree (d_fds w)) as Hnf by (apply (nfree_same _ _ _ _ Hfd)).
    set (line := if de_inum de =? 0 then [] else match d_files w (entry_path d de) with
                 | Some f' => ls_line (entry_path d de) f' | None => [] end).
    assert (ls_round d fd w = Ret (inl tt) (set_d_out (d_out w ++ line) w1)) as E.
    { unfold ls_round. rewrite (bind_Ret _ _ _ _ _ Er). cbn [fst snd]. rewrite Z.eqb_refl. cbn [negb]. unfold line.
      destruct (Z.eqb_spec (de_inum de) 0) as [Hi|Hi]; [rewrite app_nil_r; by destruct w|].
      destruct Hde as [Hde|[f' Hf]]; [done|]. fold (entry_path d de).
      rewrite (bind_Ret _ _ _ _ _ (stat_run _ w1 f' Hf ltac:(lia))), Hf. unfold ls_print, d_printf, d_fprintf. run_steps. done. }
    rewrite (bind_Ret _ _ _ _ _ E). cbv iota.
    rewrite (IH (pre ++ de)); [|done|apply lookup_insert_eq|by rewrite <- app_assoc|cbn [d_fds set_d_out]; lia|cbn in Hg; lia].
    f_equal. unfold w1, moved. cbn [d_out d_fds set_d_out set_d_fds d_files d_status].
    rewrite insert_insert_eq. unfold ls_lines. cbn [fmap list_fmap concat]. fold line. rewrite app_assoc. done.
Qed.

(** ls of a directory: a line for each entry that is not free, in order. *)
Theorem ls_lists_directory fuel d ino des w :
  d_files w d = Some (mk_ufile T_DIR ino (Z.of_nat (length (concat des))) (concat des)) ->
  Forall (listed (d_files w) d) des -> Z.of_nat (length d) + 1 + DIRSIZ + 1 <= sizeof_buf ->
  (1 < nfree (d_fds w))%nat -> (length des < fuel)%nat ->
  ls fuel d w = Ret tt (set_d_out (d_out w ++ ls_lines (d_files w) d des) w).
Proof.
  intros Hf Hl Hlen Hn Hg. destruct (d_open_run d w _ Hf ltac:(lia)) as (fd & Hnone & Hin & Hneg & E).
  set (f := mk_ufile _ _ _ _) in *. unfold ls. rewrite (bind_Ret _ _ _ _ _ E), Hneg. unfold d_fstat.
  rewrite bind_assoc, run_gets. cbn [d_fds set_d_fds]. rewrite lookup_insert_eq. run_steps.
  change ((uf_type f =? T_DEVICE) || (uf_type f =? T_FILE)) with false. change (uf_type f =? T_DIR) with true. cbv iota.
  rewrite (proj2 (Z.ltb_ge _ _)) by lia. set (w1 := set_d_fds _ w).
  rewrite (bind_Ret _ _ _ _ _ (ls_loop d fd f des [] w1 fuel Hl ltac:(apply lookup_insert_eq) ltac:(done)
    ltac:(unfold w1; cbn [d_fds set_d_fds]; rewrite (dir_nfree_insert _ fd (f, 0%nat)) in Hn by done; lia) Hg)).
  unfold d_close. rewrite bind_assoc, run_gets. unfold w1. cbn [d_fds set_d_out set_d_fds d_files d_out].
  rewrite lookup_insert_eq, bind_assoc. run_steps. f_equal. cbn [d_out set_d_fds].
  rewrite insert_insert_eq, delete_insert_id by done. by destruct w.
Qed.

(** ** rm, mkdir, ln, kill *)

Inductive kcall := KUnlink (path : list Z) | KMkdir (path : list Z) | KLink (old new : list Z) | KKill (pid : Z).

Record kworld := mk_kworld {
  k_calls : list (kcall * Z);        (* the calls made and their results *)
  k_results : list Z;                (* of the coming calls, then 0 *)
  k_text : list (Z * list Z);        (* what has been written *)
  k_status : option Z;
}.

Definition KC : Type -> Type := M kworld.

Definition kcall1 (c : kcall) : KC Z := fun w =>
  let r := default 0 (head (k_results w)) in
  Ret r (mk_kworld (k_calls w ++ [(c, r)]) (tail (k_results w)) (k_text w) (k_status w)).
Definition k_fprintf (fd : Z) (fmt : string) (args : list uarg) : KC unit :=
  modify (fun w => mk_kworld (k_calls w) (k_results w) (k_text w ++ fprintf_writes fd (bytes_of fmt) args) (k_status w)).
Definition k_exit {A} (status : Z) : KC A := fun w =>
  Panic "exit" (mk_kworld (k_calls w) (k_results w) (k_text w) (Some status)).

(** A call for each argument, until one fails. *)
Fixpoint each_arg (call : list Z -> kcall) (msg : string) (args : list (list Z)) : KC unit :=
  match args with
  | [] => ret tt
  | a :: args =>
      let! r := kcall1 (call a) in
      if r <? 0 then k_fprintf 2 (msg ++ newline) [AStr (Some a)]     (* break *)
      else each_arg call msg args
  end.

Definition rm_main (argv : list (list Z)) : KC unit :=
  if (length argv <? 2)%nat then k_fprintf 2 ("Usage: rm files..." ++ newline) [] ;; k_exit 1
  else each_arg KUnlink "rm: %s failed to delete" (drop 1 argv) ;; k_exit 0.

Definition mkdir_main (argv : list (list Z)) : KC unit :=
  if (length argv <? 2)%nat then k_fprintf 2 ("Usage: mkdir files..." ++ newline) [] ;; k_exit 1
  else each_arg KMkdir "mkdir: %s failed to create" (drop 1 argv) ;; k_exit 0.

Definition ln_main (argv : list (list Z)) : KC unit :=
  match argv with
  | [_; old; new] =>
      let! r := kcall1 (KLink old new) in
      when (r <? 0) (k_fprintf 2 ("link %s %s: failed" ++ newline) [AStr (Some old); AStr (Some new)]) ;;
      k_exit 0
  | _ => k_fprintf 2 ("Usage: ln old new" ++ newline) [] ;; k_exit 1
  end.

Definition kill_main (argv : list (list Z)) : KC unit :=
  if (length argv <? 2)%nat then k_fprintf 2 ("usage: kill pid..." ++ newline) [] ;; k_exit 1
  else
    for_each (drop 1 argv) (fun a =>
      let! pid := of_option (atoi (holds a [])) in
      kcall1 (KKill pid) ;; ret tt) ;;
    k_exit 0.

(** The calls of [each_arg]: the arguments in order, up to the first failure. *)
Lemma each_arg_calls call msg args : forall w, exists w' n,
  each_arg call msg args w = Ret tt w' /\ (n <= length args)%nat /\
  k_calls w' = k_calls w ++ zip (call <$> take n args) ((fun i => default 0 (k_results w !! i)) <$> seq 0 n) /\
  (forall i, (S i < n)%nat -> 0 <= default 0 (k_results w !! i)) /\
  ((n < length args)%nat -> (0 < n)%nat /\ default 0 (k_results w !! pred n) < 0) /\
  k_status w' = k_status w.
Proof.
  induction args as [|a args IH]; intros w.
  - exists w, 0%nat. cbn. rewrite app_nil_r. split_and!; try done; lia.
  - cbn [each_arg]. unfold kcall1, bind. cbn [obind].
    set (r := default 0 (head (k_results w))). set (w1 := mk_kworld _ _ _ _).
    assert (default 0 (k_results w !! 0%nat) = r) as Hr by (unfold r; by destruct (k_results w)).
    destruct (Z.ltb_spec r 0) as [Hneg|Hpos].
    + eexists _, 1%nat. split; [done|]. cbn [k_calls k_status take fmap list_fmap seq zip].
      split_and!; [cbn; lia|unfold w1, r; by destruct (k_results w)|intros; lia|cbn [pred]; rewrite Hr; intros; lia|done].
    + destruct (IH w1) as (w' & n & E & Hn & Hc & Hi & Hl & Hs). exists w', (S n).
      assert (forall i, default 0 (k_results w1 !! i) = default 0 (k_results w !! S i)) as Hsh
        by (intros i; cbn; by destruct (k_results w)).
      split_and!; [done|cbn; lia| | | |done].
      * rewrite Hc. cbn [k_calls w1 take fmap list_fmap seq zip]. rewrite Hr, <- app_assoc. cbn [app].
        rewrite <- fmap_S_seq, <- list_fmap_compose. do 3 f_equal. apply list_fmap_ext. intros i x _. apply Hsh.
      * intros [|i] Hlt; [by rewrite Hr|]. rewrite <- Hsh. apply Hi. lia.
      * cbn [length]. intros Hlt. destruct Hl as [H0 H1]; [lia|]. split; [lia|].
        destruct n as [|n]; [lia|]. cbn [pred] in *. by rewrite <- Hsh.
Qed.
