(* ===== verification/UXargs.v ===== *)
(** user/xargs.c.

    The program reads its input through gets (ULib.v) over the descriptors of
    User.v. fork, exec and wait are recorded: [x_runs] holds the argument lists
    that children have passed to exec; [x_forks] says which coming forks fail
    (none when it is empty). A row of the array [buf] is the list of its bytes,
    a pointer into it an index; an index past the end of an array is undefined
    behaviour. *)

From stdpp Require Import base numbers list gmap strings.
From S2P Require Import Prelude Params Mem User ULib Sh ShParse.

Record xworld := mk_xworld {
  x_u : uworld;
  x_runs : list (list (list Z));
  x_forks : list bool;
}.

Definition X : Type -> Type := M xworld.

(** A call of the user library. *)
Definition lift {A} (m : U A) : X A := fun x =>
  match m (x_u x) with
  | Ret a w => Ret a (mk_xworld w (x_runs x) (x_forks x))
  | Panic msg w => Panic msg (mk_xworld w (x_runs x) (x_forks x))
  | Sleep w _ | Undef w => Undef (mk_xworld w (x_runs x) (x_forks x))
  | NoFuel => NoFuel
  end.

Definition x_exit {A} (status : Z) : X A := lift (exit status).

(** fork; the child calls exec with [argv] and exits; wait. *)
Definition fork_exec_wait (argv : list (list Z)) : X unit := fun x =>
  match x_forks x with
  | true :: fs => Ret tt (mk_xworld (x_u x) (x_runs x) fs)
  | fs => Ret tt (mk_xworld (x_u x) (x_runs x ++ [argv]) (tail fs))
  end.

(** The rows of [buf] and the slots of [xargs]. *)
Definition nargs : nat := Z.to_nat MAXARG.
Definition row_size : nat := 100.

(** The row, or None at the end of the input. *)
Definition x_getcmd : X (option (list Z)) :=
  let! l := lift (gets (Z.of_nat row_size)) in
  let row := l ++ replicate (row_size - length l) 0 in
  let! c := of_option (row !! 0%nat) in
  ret (if c =? 0 then None else Some row).

Definition non_white (c : Z) : bool := negb (is_white c).

(** The result, the token's ends, and the pointer advanced. *)
Definition x_gettoken (row : list Z) (es s : nat) : X (Z * nat * nat * nat) :=
  let q := (s + span_len is_white (drop s (take es row)))%nat in
  let! c := of_option (row !! q) in
  let eq := if c =? 0 then q else (q + span_len non_white (drop q (take es row)))%nat in
  let s := (eq + span_len is_white (drop eq (take es row)))%nat in
  ret (if c =? 0 then 0 else 97, q, eq, s).

(** One turn of the loop over the tokens of a row: the row, [s] and the
    tokens so far. *)
Definition token_round (argstart es : nat) (v : list Z * nat * list nat)
  : X ((list Z * nat * list nat) + (list Z * list nat)) :=
  let '(row, s, toks) := v in
  let! t := x_gettoken row es s in
  let '(r, q, eq, s) := t in
  if r =? 0 then ret (inr (row, toks))
  else if (argstart + length toks <? nargs)%nat
  then ret (inl (<[eq := 0]> row, s, toks ++ [q]))
  else undef.

(** One turn of main's loop; [i] is the row to read into. *)
Definition line_round (base : list (list Z)) (i : nat) : X (nat + unit) :=
  if (i <? nargs)%nat then
    let! o := x_getcmd in
    match o with
    | None => ret (inr tt)
    | Some row =>
        let es := length (cstring row) in
        let! r := loop (S row_size) (token_round (length base) es) (row, 0%nat, []) in
        let '(row, toks) := r in
        if (length base + length toks <? nargs)%nat then   (* xargs[j] = 0 *)
          fork_exec_wait (base ++ ((fun q => cstring (drop q row)) <$> toks)) ;;
          ret (inl (i + length toks)%nat)
        else undef
    end
  else undef.

Definition xargs_main (fuel : nat) (argv : list (list Z)) : X unit :=
  let base := drop 1 argv in
  if (length base <=? nargs)%nat then
    loop fuel (line_round base) 0%nat ;;
    x_exit 0
  else undef.

(** ** Words *)

(** The words of a line: its maximal runs of characters that are not white. *)
Fixpoint split_words (cur l : list Z) : list (list Z) :=
  match l with
  | [] => match cur with [] => [] | _ => [cur] end
  | c :: l =>
      if is_white c then match cur with [] => split_words [] l | _ => cur :: split_words [] l end
      else split_words (cur ++ [c]) l
  end.
Definition words (l : list Z) : list (list Z) := split_words [] l.

Lemma words_skip l : words (drop (span_len is_white l) l) = words l.
Proof. induction l as [|c l IH]; [done|]. cbn [span_len]. unfold words in *. destruct (is_white c) eqn:E; [|done]. cbn [drop split_words]. by rewrite E. Qed.

Lemma split_token l : forall cur, cur <> [] \/ (exists c, head l = Some c /\ is_white c = false) ->
  split_words cur l = (cur ++ take (span_len non_white l) l) :: words (drop (span_len non_white l) l).
Proof.
  induction l as [|c l IH]; intros cur Hc; cbn [span_len].
  - destruct Hc as [Hc|(c & Hc & _)]; [|done]. cbn. rewrite app_nil_r. by destruct cur.
  - unfold non_white at 1 3. cbn [split_words]. destruct (is_white c) eqn:E; cbn [negb].
    + destruct Hc as [Hc|(d & [= ->] & Hd)]; [|congruence]. cbn [take drop]. rewrite app_nil_r.
      destruct cur; [done|]. unfold words. cbn [split_words]. by rewrite E.
    + cbn [take drop]. rewrite IH by (left; by destruct cur). by rewrite <- app_assoc.
Qed.

(** ** The tokens of a row *)

(** The word [w] is in the row at [q], with its NUL, before [s]. *)
Record token_at (row : list Z) (s q : nat) (w : list Z) : Prop := {
  ta_word : exists rest, drop q row = w ++ 0 :: rest;
  ta_nul : no_nul w;
  ta_end : (q + length w <= s)%nat;
}.

Lemma token_cstring row s q w : token_at row s q w -> cstring (drop q row) = w.
Proof. intros [[rest ->] Hn _]. by apply cstring_holds. Qed.

Lemma token_keep row s s' q w e : token_at row s q w -> (s <= e)%nat -> (s <= s')%nat -> token_at (<[e := 0]> row) s' q w.
Proof.
  intros [[rest Hr] Hn He] Hse Hs'. split; [|done|lia].
  rewrite drop_insert_ge by lia. rewrite Hr, insert_app_r_alt by lia.
  destruct (e - q - length w)%nat as [|k]; cbn [insert list_insert]; [by exists rest|by eexists].
Qed.

Section Tokens.
Context (text : list Z) (argstart : nat) (x : xworld).
Context (Hnul : no_nul text).

(** The state of the loop: the row from [s] on is the text. *)
Record scanning (row : list Z) (s : nat) (toks : list nat) (ws : list (list Z)) : Prop := {
  sc_row : row !! length text = Some 0;
  sc_rest : drop s (take (length text) row) = drop s text;
  sc_s : (s <= length text)%nat;
  sc_toks : Forall2 (token_at row s) toks ws;
}.

(** A whole word is found. *)
Lemma scanning_word row s toks ws : scanning row s toks ws ->
  let t := drop s text in
  let q := (s + span_len is_white t)%nat in
  let e := (q + span_len non_white (drop q text))%nat in
  let s' := (e + span_len is_white (drop e text))%nat in
  (q < length text)%nat ->
  exists w, words t = w :: words (drop s' text) /\ (s < s')%nat /\ scanning (<[e := 0]> row) s' (toks ++ [q]) (ws ++ [w]).
Proof using Hnul.
  intros [Hrow Hrest Hs Ht] t q e s' Hq. set (u := drop q text) in *.
  assert (drop (span_len is_white t) t = u) as Hu by (unfold t, u, q; by rewrite drop_drop).
  destruct (lookup_lt_is_Some_2 u 0) as [c Hc]; [unfold u; rewrite length_drop; lia|].
  assert (is_white c = false) as Hcw by (apply (span_len_stop is_white t); rewrite <- Hu, lookup_drop, Nat.add_0_r in Hc; exact Hc).
  assert (0 < span_len non_white u)%nat as Hpos.
  { destruct u as [|d u']; [done|]. injection Hc as ->. cbn [span_len]. unfold non_white at 1. rewrite Hcw. cbn. lia. }
  pose proof (span_len_le non_white u) as Hle. assert (length u = length text - q)%nat as Hlu by (unfold u; by rewrite length_drop).
  pose proof (span_len_le is_white (drop e text)) as Hle'. rewrite length_drop in Hle'.
  assert (drop (span_len non_white u) u = drop e text) as He by (unfold u, e; by rewrite drop_drop).
  assert (e < length text -> e < s')%nat as Hes.
  { intros Hlt. destruct (lookup_lt_is_Some_2 (drop e text) 0) as [d Hd]; [rewrite length_drop; lia|].
    unfold s'. destruct (drop e text) as [|d' l] eqn:Ed; [done|]. injection Hd as ->. cbn [span_len].
    assert (non_white d = false) as Hdw by (apply (span_len_stop non_white u); rewrite <- (Nat.add_0_r (span_len _ _)), <- lookup_drop, He; done).
    unfold non_white in Hdw. apply negb_false_iff in Hdw. rewrite Hdw. lia. }
  pose proof (lookup_lt_Some _ _ _ Hrow) as Hlr.
  assert (drop q (take (length text) row) = u) as Hqr by (unfold q; rewrite <- drop_drop, Hrest; exact Hu).
  exists (take (span_len non_white u) u). split_and!.
  - rewrite <- words_skip, Hu. unfold words at 1. rewrite (split_token u []) by (right; exists c; split; [by destruct u|done]).
    cbn [app]. f_equal. rewrite He, <- (words_skip (drop e text)), drop_drop. done.
  - lia.
  - split.
    + destruct (decide (e = length text)) as [->|]; [apply list_lookup_insert_eq; lia|by rewrite list_lookup_insert_ne].
    + assert (drop s' (take (length text) row) = drop s' text) as Hd
        by (replace s' with (s + (s' - s))%nat by lia; by rewrite <- !drop_drop, Hrest).
      destruct (Nat.lt_ge_cases e (length text)); [|by rewrite take_insert_ge].
      rewrite take_insert_lt, drop_insert_lt by lia. done.
    + lia.
    + apply Forall2_app.
      * eapply Forall2_impl; [exact Ht|]. intros q' w' Hw. eapply token_keep; [exact Hw|lia|lia].
      * constructor; [|constructor]. split.
        -- rewrite drop_insert_ge by lia. replace (e - q)%nat with (span_len non_white u) by lia.
           rewrite insert_take_drop by (rewrite length_drop; lia). eexists. f_equal.
           transitivity (take (span_len non_white u) (drop q (take (length text) row))); [|by rewrite Hqr].
           rewrite !take_drop_commute, take_take, Nat.min_l by lia. done.
        -- by apply Forall_take, Forall_drop.
        -- rewrite length_take. lia.
Qed.

Lemma xargs_gettoken_end row s toks ws : scanning row s toks ws -> (length text <= s + span_len is_white (drop s text))%nat ->
  exists q e s', x_gettoken row (length text) s x = Ret (0, q, e, s') x /\ words (drop s text) = [].
Proof using Type.
  intros [Hrow Hrest Hs _] Hq. unfold x_gettoken. rewrite Hrest.
  pose proof (span_len_le is_white (drop s text)) as Hle. rewrite length_drop in Hle.
  replace (s + span_len is_white (drop s text))%nat with (length text) by lia.
  rewrite Hrow. cbn [of_option]. run_steps. change (0 =? 0) with true. cbv iota. eexists _, _, _. split; [done|].
  rewrite <- words_skip, drop_drop, drop_ge by lia. done.
Qed.

Lemma gettoken_word row s toks ws : scanning row s toks ws ->
  let q := (s + span_len is_white (drop s text))%nat in
  let e := (q + span_len non_white (drop q text))%nat in
  (q < length text)%nat ->
  x_gettoken row (length text) s x = Ret (97, q, e, (e + span_len is_white (drop e text))%nat) x.
Proof using Hnul.
  intros [Hrow Hrest Hs _] q e Hq. unfold x_gettoken. rewrite Hrest. fold q.
  assert (forall k, (s <= k)%nat -> drop k (take (length text) row) = drop k text) as Hk
    by (intros k Hk; replace k with (s + (k - s))%nat by lia; by rewrite <- !drop_drop, Hrest).
  destruct (lookup_lt_is_Some_2 text q Hq) as [c Hc]. pose proof Hc as Hc0.
  assert (row !! q = Some c) as ->.
  { rewrite <- (lookup_take_lt _ (length text)) by lia. rewrite <- (Nat.add_0_r q), <- lookup_drop, Hk, lookup_drop, Nat.add_0_r by lia. done. }
  cbn [of_option]. run_steps. unfold no_nul in Hnul. rewrite Forall_lookup in Hnul. apply Hnul in Hc.
  rewrite (proj2 (Z.eqb_neq c 0)) by done. rewrite !Hk by lia. done.
Qed.

Lemma tokens_loop g : forall row s toks ws, scanning row s toks ws -> (length text - s < g)%nat ->
  (argstart + length toks + length (words (drop s text)) <= nargs)%nat ->
  exists row' toks', loop g (token_round argstart (length text)) (row, s, toks) x = Ret (row', toks') x /\
    ((fun q => cstring (drop q row')) <$> toks') = ws ++ words (drop s text).
Proof using Hnul.
  induction g as [|g IH]; intros row s toks ws Hs Hg Hn; [lia|]. cbn [loop]. unfold token_round at 1.
  destruct (Nat.lt_ge_cases (s + span_len is_white (drop s text)) (length text)) as [Hq|Hq].
  - rewrite bind_assoc, (bind_Ret _ _ _ _ _ (gettoken_word _ _ _ _ Hs Hq)). change (97 =? 0) with false. cbv iota.
    destruct (scanning_word _ _ _ _ Hs Hq) as (w & Ew & Hlt & Hs'). rewrite Ew in Hn |- *. cbn [length] in Hn.
    rewrite (proj2 (Nat.ltb_lt _ _)) by lia. rewrite run_ret.
    destruct (IH _ _ _ _ Hs') as (row' & toks' & E & Et); [lia|rewrite length_app; cbn [length]; lia|].
    exists row', toks'. split; [exact E|]. rewrite Et. by rewrite <- app_assoc.
  - destruct (xargs_gettoken_end _ _ _ _ Hs Hq) as (q & e & s' & E & ->).
    rewrite bind_assoc, (bind_Ret _ _ _ _ _ E). change (0 =? 0) with true. cbv iota. rewrite run_ret.
    exists row, toks. split; [done|]. rewrite app_nil_r. destruct Hs as [_ _ _ Ht]. clear -Ht.
    induction Ht as [|q w toks ws Hq _ IH]; [done|]. cbn. by rewrite IH, (token_cstring _ _ _ _ Hq).
Qed.
End Tokens.

(** ** Lines *)

Definition good_line (l : list Z) : Prop := Forall (fun c => c <> 0 /\ c <> 10 /\ c <> 13) l /\ (length l + 2 <= row_size)%nat.

Lemma line_of_good l rest : good_line l -> line_of (row_size - 1) (l ++ 10 :: rest) = l ++ [10] /\
  line_full (row_size - 1) (l ++ 10 :: rest).
Proof.
  intros [Hl Hlen].
  assert (forall k, (length l < k)%nat -> line_of k (l ++ 10 :: rest) = l ++ [10]) as H.
  { clear Hlen. induction Hl as [|c l (H0 & H1 & H2) _ IH]; intros [|k] Hk; try (cbn in Hk; lia); [done|].
    cbn [app line_of length] in *. unfold is_eol. rewrite !(proj2 (Z.eqb_neq c _)) by done. cbn [orb]. rewrite IH by lia. done. }
  rewrite H by lia. split; [done|]. right. rewrite H by lia. exists 10. by rewrite last_snoc.
Qed.

Lemma split_words_newline l : forall cur, split_words cur (l ++ [10]) = split_words cur l.
Proof.
  induction l as [|c l IH]; intros cur; cbn [app split_words].
  - change (is_white 10) with true. by destruct cur.
  - by rewrite !IH.
Qed.

Definition reads_on (st : list chunk) (x : xworld) : xworld :=
  mk_xworld (set_u_fds (<[0 := st]> (u_fds (x_u x))) (x_u x)) (x_runs x) (x_forks x).

Lemma getcmd_line x st l rest : u_fds (x_u x) !! 0 = Some st -> stream_bytes st = l ++ 10 :: rest -> good_line l ->
  exists st', stream_bytes st' = rest /\
    x_getcmd x = Ret (Some ((l ++ [10]) ++ [0] ++ replicate (row_size - length (l ++ [10; 0])) 0)) (reads_on st' x).
Proof.
  intros Hst Hb Hl. destruct (gets_reads_line (Z.of_nat row_size) (x_u x) st Hst) as (st' & E & _ & Hd); [done|].
  change (Z.to_nat (Z.of_nat row_size - 1)) with (row_size - 1)%nat in *. rewrite Hb in *.
  destruct (line_of_good l rest Hl) as [El Hf]. rewrite El in *. exists st'. split.
  - rewrite (Hd Hf). change (10 :: rest) with ([10] ++ rest). rewrite app_assoc. apply drop_app_length.
  - unfold x_getcmd. assert (lift (gets (Z.of_nat row_size)) x = Ret ((l ++ [10]) ++ [0]) (reads_on st' x)) as E1
      by (unfold lift; by rewrite E).
    rewrite (bind_Ret _ _ _ _ _ E1). cbv zeta. rewrite <- !(app_assoc l), <- app_assoc. cbn [app].
    destruct Hl as [Hl _]. destruct Hl as [|c l (H0 & _) _]; cbn [app lookup list_lookup of_option]; run_steps.
    + done.
    + rewrite (proj2 (Z.eqb_neq c 0)) by done. done.
Qed.

Lemma getcmd_end x st : u_fds (x_u x) !! 0 = Some st -> stream_bytes st = [] ->
  exists st', x_getcmd x = Ret None (reads_on st' x).
Proof.
  intros Hst Hb. destruct (gets_reads_line (Z.of_nat row_size) (x_u x) st Hst) as (st' & E & _); [done|].
  rewrite Hb in E. exists st'. unfold x_getcmd.
  assert (lift (gets (Z.of_nat row_size)) x = Ret [0] (reads_on st' x)) as E1 by (unfold lift; by rewrite E).
  rewrite (bind_Ret _ _ _ _ _ E1). done.
Qed.

(** A line: its words are appended to the command's. *)
Lemma line_round_run base i x st l rest : (i < nargs)%nat ->
  u_fds (x_u x) !! 0 = Some st -> stream_bytes st = l ++ 10 :: rest -> good_line l -> x_forks x = [] ->
  (length base + length (words l) < nargs)%nat ->
  exists st', stream_bytes st' = rest /\
    line_round base i x = Ret (inl (i + length (words l))%nat)
      (mk_xworld (x_u (reads_on st' x)) (x_runs x ++ [base ++ words l]) []).
Proof.
  intros Hi Hst Hb Hl Hf Hn. destruct (getcmd_line x st l rest Hst Hb Hl) as (st' & Hb' & E). exists st'. split; [done|].
  unfold line_round. rewrite (proj2 (Nat.ltb_lt _ _)) by done. rewrite (bind_Ret _ _ _ _ _ E).
  set (text := l ++ [10]). set (z := replicate _ 0).
  assert (no_nul text) as Hnul.
  { apply Forall_app. split; [|by repeat constructor]. eapply Forall_impl; [apply Hl|]. naive_solver. }
  assert (cstring (text ++ [0] ++ z) = text) as -> by (by apply cstring_holds).
  assert (length text < row_size)%nat as Hlen by (unfold text; rewrite length_app; cbn [length]; destruct Hl; lia).
  assert (scanning text (text ++ [0] ++ z) 0 [] []) as Hs.
  { split; [by apply list_lookup_middle|by rewrite take_app_length|lia|constructor]. }
  assert (words text = words l) as Ew by apply split_words_newline.
  destruct (tokens_loop text (length base) (reads_on st' x) Hnul (S row_size) _ _ _ _ Hs) as (row' & toks & El & Et);
    [lia|rewrite drop_0, Ew; cbn [length]; lia|].
  rewrite (bind_Ret _ _ _ _ _ El). rewrite drop_0, Ew in Et. cbn [app] in Et.
  assert (length toks = length (words l)) as Etl by (rewrite <- Et; by rewrite length_fmap).
  rewrite Etl, (proj2 (Nat.ltb_lt _ _)), Et by done.
  unfold fork_exec_wait, bind. cbn [x_forks reads_on]. rewrite Hf. done.
Qed.

Definition total_words (ls : list (list Z)) : nat := sum_list ((fun l => length (words l)) <$> ls).

Definition input_of (ls : list (list Z)) : list Z := concat ((fun l => l ++ [10]) <$> ls).

(** The lines, as long as there are rows for them. *)
Lemma lines_run base ls : Forall good_line ls -> Forall (fun l => (length base + length (words l) < nargs)%nat) ls ->
  forall i x st g, u_fds (x_u x) !! 0 = Some st -> stream_bytes st = input_of ls -> x_forks x = [] -> (length ls < g)%nat ->
  (i < nargs)%nat ->
  ((i + total_words ls < nargs)%nat -> exists st', loop g (line_round base) i x =
     Ret tt (mk_xworld (x_u (reads_on st' x)) (x_runs x ++ ((fun l => base ++ words l) <$> ls)) [])) /\
  ((nargs <= i + total_words ls)%nat -> exists x', loop g (line_round base) i x = Undef x').
Proof.
  intros Hg Hb. induction Hg as [|l ls Hl Hg IH]; intros i x st [|g] Hst Hin Hf Hlen Hi; try (cbn in Hlen; lia).
  - unfold total_words. cbn [sum_list fmap list_fmap foldr]. split; [intros _|intros; cbn in *; lia].
    destruct (getcmd_end x st Hst Hin) as (st' & E). exists st'. cbn [loop]. unfold line_round at 1.
    rewrite (proj2 (Nat.ltb_lt _ _)) by done. rewrite bind_assoc, (bind_Ret _ _ _ _ _ E), run_ret, app_nil_r.
    unfold reads_on. cbn [x_u]. by rewrite Hf.
  - apply Forall_cons in Hb as [Hbl Hb]. cbn [length] in Hlen.
    destruct (line_round_run base i x st l (input_of ls) Hi Hst) as (st1 & Hb1 & E); [|done..|].
    { rewrite Hin. unfold input_of. cbn [fmap list_fmap concat]. by rewrite <- app_assoc. }
    cbn [loop]. rewrite (bind_Ret _ _ _ _ _ E). cbv iota. set (x1 := mk_xworld _ _ _).
    assert (u_fds (x_u x1) !! 0 = Some st1) as Hst1 by (cbn; apply lookup_insert_eq).
    assert (total_words (l :: ls) = length (words l) + total_words ls)%nat as -> by done.
    destruct (Nat.lt_ge_cases (i + length (words l)) nargs) as [Hlt|Hge].
    + destruct (IH Hb (i + length (words l))%nat x1 st1 g Hst1 Hb1 eq_refl ltac:(lia) Hlt) as [IH1 IH2]. split.
      * intros Hn. destruct IH1 as [st' E']; [lia|]. exists st'. rewrite E'. f_equal. unfold x1, reads_on. cbn [x_u x_runs fmap list_fmap].
        rewrite <- app_assoc. f_equal. destruct x as [u r f]. cbn. unfold set_u_fds. cbn. by rewrite insert_insert_eq.
      * intros Hn. apply IH2. lia.
    + split; [lia|]. intros _. destruct g as [|g]; [lia|]. cbn [loop]. unfold line_round at 1.
      rewrite (proj2 (Nat.ltb_ge _ _)) by done. by exists x1.
Qed.

(** C32. xargs(1) on lines of at most 98 characters, however reads cut the
    input: run with a command of [base] and fewer than MAXARG arguments in all
    for each line, it runs the command once for each line, in order, with the
    line's words (its runs of non-white characters) appended to the arguments,
    and exits with status 0, provided every fork succeeds and the input has
    fewer than MAXARG words altogether. With MAXARG words or more it writes past the end of its array
    of rows: the row is counted up with every word, not with every line, and
    never reset. *)
Theorem xargs_runs_lines fuel prog base ls x st :
  u_fds (x_u x) !! 0 = Some st -> stream_bytes st = input_of ls -> x_forks x = [] ->
  Forall good_line ls -> Forall (fun l => (length base + length (words l) < nargs)%nat) ls ->
  (length base <= nargs)%nat -> (length ls < fuel)%nat ->
  ((total_words ls < nargs)%nat -> exists w,
     xargs_main fuel (prog :: base) x = Panic "exit" (mk_xworld w (x_runs x ++ ((fun l => base ++ words l) <$> ls)) []) /\
     u_status w = Some 0) /\
  ((nargs <= total_words ls)%nat -> exists x', xargs_main fuel (prog :: base) x = Undef x').
Proof.
  intros Hst Hin Hf Hg Hb Hbase Hfuel. unfold xargs_main. cbn [drop]. rewrite (proj2 (Nat.leb_le _ _)) by done.
  destruct (lines_run base ls Hg Hb 0 x st fuel Hst Hin Hf Hfuel) as [H1 H2]; [vm_compute; lia|]. split; intros Hn.
  - destruct (H1 Hn) as [st' E]. rewrite (bind_Ret _ _ _ _ _ E). unfold x_exit, lift, exit. cbn. by eexists.
  - destruct (H2 Hn) as [x' E]. exists x'.
    change (obind (loop fuel (line_round base) 0%nat x) (fun _ => x_exit (A := unit) 0) = Undef x'). by rewrite E.
Qed.

(** "xargs echo a" with the lines "b c" and "d". *)
Definition two_lines : list (list Z) := [bytes_of "b c"; bytes_of "d"].

Lemma xargs_runs_lines_witness :
  exists x w, x_runs x = [] /\
    xargs_main 3 [bytes_of "xargs"; bytes_of "echo"; bytes_of "a"] x =
      Panic "exit" (mk_xworld w [[bytes_of "echo"; bytes_of "a"; bytes_of "b"; bytes_of "c"]; [bytes_of "echo"; bytes_of "a"; bytes_of "d"]] []).
Proof.
  pose (st := [Data (bytes_of "b "); Data (bytes_of "c" ++ [10] ++ bytes_of "d" ++ [10])]).
  pose (x := mk_xworld (mk_uworld {[ 0 := st ]} ∅ [] [] None) [] []).
  destruct (xargs_runs_lines 3 (bytes_of "xargs") [bytes_of "echo"; bytes_of "a"] two_lines x st) as [H _].
  - reflexivity.
  - reflexivity.
  - reflexivity.
  - repeat constructor; try discriminate; vm_compute; lia.
  - repeat constructor; vm_compute; lia.
  - vm_compute. lia.
  - vm_compute. lia.
  - destruct H as (w & E & _); [vm_compute; lia|]. exists x, w. split; [reflexivity|exact E].
Defined.
