(* ===== verification/UProc.v ===== *)
(** User processes that run concurrently: programs as trees of system calls,
    and what the calls that connect processes do (fork, exit, wait, pipe,
    read, write, close, dup, getpid), one call at a time, in any order.

    Where User.v has one program and leaves the world around it open, here
    several processes share pipes and the console. A descriptor is a reference
    to an open file; a pipe has at most PIPESIZE bytes; a read of an empty pipe
    blocks while a descriptor for its write end is open anywhere, a write to a
    full one while its read end is; a blocked process has no step. The kernel
    has a limited number of open files (NFILE) and of processes (NPROC); how
    many of them are there for these processes is a parameter. Memory is not
    limited. *)

From stdpp Require Import base numbers list gmap strings fin_maps.
From S2P Require Import Prelude Params Mem Pipe User UPrintf.

(** ** Programs *)

Inductive file := Console | PipeEnd (id : nat) (writer : bool).

#[export] Instance file_eq_dec : EqDecision file.
Proof. solve_decision. Defined.

Inductive call :=
| SRead (fd n : Z)
| SWrite (fd : Z) (bytes : list Z) (sent : Z)   (* [sent] bytes are written already *)
| SClose (fd : Z)
| SDup (fd : Z)
| SPipe
| SFork
| SWait
| SGetpid
| SExit (status : Z).

(** What a call returns and the bytes, or descriptors, it stores. *)
Definition reply : Type := Z * list Z.

Inductive prog (A : Type) : Type :=
| Done (a : A)
| Sys (c : call) (k : reply -> prog A)
| OutOfFuel.
Arguments Done {A} a.
Arguments Sys {A} c k.
Arguments OutOfFuel {A}.

Fixpoint pbind {A B} (m : prog A) (k : A -> prog B) : prog B :=
  match m with
  | Done a => k a
  | Sys c k' => Sys c (fun r => pbind (k' r) k)
  | OutOfFuel => OutOfFuel
  end.

Declare Scope prog_scope.
Delimit Scope prog_scope with prog.
Bind Scope prog_scope with prog.
Notation "'do' x <- m ; k" := (pbind m (fun x => k)) (at level 200, x name, m at level 100, k at level 200) : prog_scope.
Notation "m ;; k" := (pbind m (fun _ => k)) : prog_scope.

Definition call1 (c : call) : prog reply := Sys c Done.

Record proc := mk_uproc {
  up_fds : gmap Z file;
  up_parent : nat;
  up_code : prog unit + Z;      (* running, or a zombie and its status *)
}.

Record sys := mk_sys {
  s_procs : gmap nat proc;
  s_pipes : gmap nat (list Z);
  s_out : list Z;               (* what the console has printed *)
  s_nextpid : nat;
  s_nextpipe : nat;
}.

Definition set_procs v s := mk_sys v (s_pipes s) (s_out s) (s_nextpid s) (s_nextpipe s).
Definition set_pipe id d s := mk_sys (s_procs s) (<[id := d]> (s_pipes s)) (s_out s) (s_nextpid s) (s_nextpipe s).
Definition set_out v s := mk_sys (s_procs s) (s_pipes s) v (s_nextpid s) (s_nextpipe s).
Definition put_proc (i : nat) (p : proc) (s : sys) : sys := set_procs (<[i := p]> (s_procs s)) s.

(** Some process has a descriptor for the file. *)
Definition has_file (f : file) (p : proc) : Prop := map_Exists (fun _ g => g = f) (up_fds p).
Definition is_open (f : file) (s : sys) : Prop := map_Exists (fun _ p => has_file f p) (s_procs s).

#[export] Instance has_file_dec f p : Decision (has_file f p).
Proof. unfold has_file. apply _. Defined.
#[export] Instance is_open_dec f s : Decision (is_open f s).
Proof. unfold is_open. apply _. Defined.

(** fdalloc: the lowest free descriptor. *)
Definition free_fd (fds : gmap Z file) : option Z :=
  snd <$> list_find (fun fd => fds !! fd = None) (Z.of_nat <$> seq 0 (Z.to_nat NOFILE)).

(** The open files and the processes there may be at a time: NFILE and NPROC
    less what the rest of the system has. The console is one open file, shared
    by all its descriptors; an end of a pipe is another. *)
Class limits := mk_limits { max_files : nat; max_procs : nat }.

Definition pipe_ends (s : sys) : list file := flat_map (fun id => [PipeEnd id false; PipeEnd id true]) (map_to_list (s_pipes s)).*1.
Definition open_files (s : sys) : nat := length (filter (fun f => is_open f s) (Console :: pipe_ends s)).

Section Step.
Context {lim : limits}.
(** Process [i], its record and the continuation of its call. *)
Context (i : nat) (p : proc) (k : reply -> prog unit).

Definition resume (fds : gmap Z file) (r : reply) (s : sys) : sys :=
  put_proc i (mk_uproc fds (up_parent p) (inl (k r))) s.

Definition do_read (fd n : Z) (s : sys) : option sys :=
  match up_fds p !! fd with
  | Some (PipeEnd id false) =>
      match s_pipes s !! id with
      | Some [] =>
          if bool_decide (is_open (PipeEnd id true) s) then None
          else Some (resume (up_fds p) (0, []) s)
      | Some data =>
          let got := take (Z.to_nat n) data in
          Some (resume (up_fds p) (Z.of_nat (length got), got) (set_pipe id (drop (Z.to_nat n) data) s))
      | None => None
      end
  | Some Console => None                       (* nobody types *)
  | _ => Some (resume (up_fds p) (-1, []) s)
  end.

Definition do_write (fd : Z) (bytes : list Z) (sent : Z) (s : sys) : option sys :=
  match up_fds p !! fd with
  | Some Console =>
      Some (resume (up_fds p) (sent + Z.of_nat (length bytes), []) (set_out (s_out s ++ bytes) s))
  | Some (PipeEnd id true) =>
      match s_pipes s !! id with
      | Some data =>
          let room := (Z.to_nat PIPESIZE - length data)%nat in
          if bool_decide (bytes = []) then Some (resume (up_fds p) (sent, []) s)
          else if negb (bool_decide (is_open (PipeEnd id false) s)) then Some (resume (up_fds p) (-1, []) s)
          else if (room =? 0)%nat then None
          else if (length bytes <=? room)%nat then
            Some (resume (up_fds p) (sent + Z.of_nat (length bytes), []) (set_pipe id (data ++ bytes) s))
          else
            Some (put_proc i (mk_uproc (up_fds p) (up_parent p)
              (inl (Sys (SWrite fd (drop room bytes) (sent + Z.of_nat room)) k)))
              (set_pipe id (data ++ take room bytes) s))
      | None => None
      end
  | _ => Some (resume (up_fds p) (-1, []) s)
  end.

Definition do_close (fd : Z) (s : sys) : sys :=
  match up_fds p !! fd with
  | Some _ => resume (delete fd (up_fds p)) (0, []) s
  | None => resume (up_fds p) (-1, []) s
  end.

Definition do_dup (fd : Z) (s : sys) : sys :=
  match up_fds p !! fd, free_fd (up_fds p) with
  | Some f, Some fd' => resume (<[fd' := f]> (up_fds p)) (fd', []) s
  | _, _ => resume (up_fds p) (-1, []) s
  end.

Definition do_pipe (s : sys) : sys :=
  let id := s_nextpipe s in
  if (max_files <? open_files s + 2)%nat then resume (up_fds p) (-1, []) s
  else match free_fd (up_fds p) with
  | Some fd0 =>
      let fds := <[fd0 := PipeEnd id false]> (up_fds p) in
      match free_fd fds with
      | Some fd1 =>
          resume (<[fd1 := PipeEnd id true]> fds) (0, [fd0; fd1])
            (mk_sys (s_procs s) (<[id := []]> (s_pipes s)) (s_out s) (s_nextpid s) (S id))
      | None => resume (up_fds p) (-1, []) s
      end
  | None => resume (up_fds p) (-1, []) s
  end.

Definition do_fork (s : sys) : sys :=
  if (max_procs <=? size (s_procs s))%nat then resume (up_fds p) (-1, []) s else
  let pid := s_nextpid s in
  let s' := mk_sys (<[pid := mk_uproc (up_fds p) i (inl (k (0, [])))]> (s_procs s)) (s_pipes s) (s_out s) (S pid) (s_nextpipe s) in
  resume (up_fds p) (Z.of_nat pid, []) s'.

(** wait: [j] is the child that is found, when there is a choice. *)
Definition do_wait (j : nat) (s : sys) : option sys :=
  match s_procs s !! j with
  | Some (mk_uproc _ parent (inr _)) =>
      if (parent =? i)%nat then Some (resume (up_fds p) (Z.of_nat j, []) (set_procs (delete j (s_procs s)) s)) else None
  | _ =>
      if bool_decide (map_Exists (fun _ q => up_parent q = i) (s_procs s)) then None
      else Some (resume (up_fds p) (-1, []) s)
  end.
End Step.

(** exit: the descriptors are closed, the children go to init. *)
Definition reparent (i : nat) (q : proc) : proc :=
  if (up_parent q =? i)%nat then mk_uproc (up_fds q) 1 (up_code q) else q.

Definition do_exit (i : nat) (p : proc) (status : Z) (s : sys) : sys :=
  put_proc i (mk_uproc ∅ (up_parent p) (inr status)) (set_procs (reparent i <$> s_procs s) s).

(** A step of process [i]; [None] when it cannot take one. main's return is
    an exit (start, ulib.c). *)
Definition run {lim : limits} (i j : nat) (s : sys) : option sys :=
  match s_procs s !! i with
  | Some p =>
      match up_code p with
      | inl (Done _) => Some (do_exit i p 0 s)
      | inl (Sys c k) =>
          match c with
          | SRead fd n => do_read i p k fd n s
          | SWrite fd bytes sent => do_write i p k fd bytes sent s
          | SClose fd => Some (do_close i p k fd s)
          | SDup fd => Some (do_dup i p k fd s)
          | SPipe => Some (do_pipe i p k s)
          | SFork => Some (do_fork i p k s)
          | SWait => do_wait i p k j s
          | SGetpid => Some (resume i p k (up_fds p) (Z.of_nat i, []) s)
          | SExit status => Some (do_exit i p status s)
          end
      | _ => None
      end
  | None => None
  end.

Inductive step {lim : limits} : sys -> sys -> Prop :=
| step_run i j s s' : run i j s = Some s' -> step s s'.

(** ** The calls as programs write them *)

Definition read (fd n : Z) : prog reply := call1 (SRead fd n).
Definition write (fd : Z) (bytes : list Z) : prog Z := do r <- call1 (SWrite fd bytes 0); Done r.1.
Definition close (fd : Z) : prog Z := do r <- call1 (SClose fd); Done r.1.
Definition dup (fd : Z) : prog Z := do r <- call1 (SDup fd); Done r.1.
Definition pipe_ : prog reply := call1 SPipe.
Definition fork_ : prog Z := do r <- call1 SFork; Done r.1.
Definition wait_ : prog Z := do r <- call1 SWait; Done r.1.
Definition getpid : prog Z := do r <- call1 SGetpid; Done r.1.
Definition exit_ {A} (status : Z) : prog A := Sys (SExit status) (fun _ => OutOfFuel).

(** printf (UPrintf.v) ignores the results of its writes: it is the sequence of
    them. *)
Fixpoint writes (l : list (Z * list Z)) : prog unit :=
  match l with
  | [] => Done tt
  | (fd, bytes) :: l => write fd bytes ;; writes l
  end.

Definition printf_writes (fmt : list Z) (args : list uarg) : list (Z * list Z) :=
  match UPrintf.printf fmt args (mk_uworld {[1 := []]} ∅ [] [] None) with
  | Ret _ w => u_out w
  | _ => []
  end.

Definition printf_ (fmt : list Z) (args : list uarg) : prog unit := writes (printf_writes fmt args).

(** ** What a step does, call by call *)

Lemma open_files_le s : (open_files s <= 1 + 2 * size (s_pipes s))%nat.
Proof.
  unfold open_files. etransitivity; [apply length_filter|]. cbn [length]. apply le_n_S. rewrite <- length_map_to_list.
  unfold pipe_ends. induction (map_to_list (s_pipes s)) as [|id l IH]; cbn [fmap list_fmap flat_map length app]; lia.
Qed.

Section Calls.
Context {lim : limits}.
Context (i j : nat) (s : sys) (p : proc) (k : reply -> prog unit).
Context (Hp : s_procs s !! i = Some p).

Lemma run_call c : up_code p = inl (Sys c k) ->
  run i j s =
  match c with
  | SRead fd n => do_read i p k fd n s
  | SWrite fd bytes sent => do_write i p k fd bytes sent s
  | SClose fd => Some (do_close i p k fd s)
  | SDup fd => Some (do_dup i p k fd s)
  | SPipe => Some (do_pipe i p k s)
  | SFork => Some (do_fork i p k s)
  | SWait => do_wait i p k j s
  | SGetpid => Some (resume i p k (up_fds p) (Z.of_nat i, []) s)
  | SExit status => Some (do_exit i p status s)
  end.
Proof using Hp. intros Hc. unfold run. by rewrite Hp, Hc. Qed.

Lemma run_close fd f : up_code p = inl (Sys (SClose fd) k) -> up_fds p !! fd = Some f ->
  run i j s = Some (resume i p k (delete fd (up_fds p)) (0, []) s).
Proof using Hp. intros Hc Hf. rewrite (run_call _ Hc). unfold do_close. by rewrite Hf. Qed.

Lemma run_console fd bytes : up_code p = inl (Sys (SWrite fd bytes 0) k) -> up_fds p !! fd = Some Console ->
  run i j s = Some (resume i p k (up_fds p) (Z.of_nat (length bytes), []) (set_out (s_out s ++ bytes) s)).
Proof using Hp. intros Hc Hf. rewrite (run_call _ Hc). unfold do_write. by rewrite Hf. Qed.

Lemma run_pipe fd0 fd1 : up_code p = inl (Sys SPipe k) -> free_fd (up_fds p) = Some fd0 ->
  free_fd (<[fd0 := PipeEnd (s_nextpipe s) false]> (up_fds p)) = Some fd1 -> (open_files s + 2 <= max_files)%nat ->
  run i j s = Some (resume i p k (<[fd1 := PipeEnd (s_nextpipe s) true]> (<[fd0 := PipeEnd (s_nextpipe s) false]> (up_fds p)))
    (0, [fd0; fd1])
    (mk_sys (s_procs s) (<[s_nextpipe s := []]> (s_pipes s)) (s_out s) (s_nextpid s) (S (s_nextpipe s)))).
Proof using Hp. 
  intros Hc H0 H1 Hn. rewrite (run_call _ Hc). unfold do_pipe. rewrite (proj2 (Nat.ltb_ge _ _)) by done. by rewrite H0, H1.
Qed.

Lemma run_fork : up_code p = inl (Sys SFork k) -> (size (s_procs s) < max_procs)%nat ->
  run i j s = Some (resume i p k (up_fds p) (Z.of_nat (s_nextpid s), [])
    (mk_sys (<[s_nextpid s := mk_uproc (up_fds p) i (inl (k (0, [])))]> (s_procs s)) (s_pipes s) (s_out s) (S (s_nextpid s)) (s_nextpipe s))).
Proof using Hp.
  intros Hc Hn. rewrite (run_call _ Hc). unfold do_fork. by rewrite (proj2 (Nat.leb_gt _ _)).
Qed.

(** A read of [n] bytes of a pipe. *)
Lemma run_read fd n id data : up_code p = inl (Sys (SRead fd n) k) -> up_fds p !! fd = Some (PipeEnd id false) ->
  s_pipes s !! id = Some data ->
  run i j s =
  if bool_decide (data = []) then
    if bool_decide (is_open (PipeEnd id true) s) then None else Some (resume i p k (up_fds p) (0, []) s)
  else
    let got := take (Z.to_nat n) data in
    Some (resume i p k (up_fds p) (Z.of_nat (length got), got) (set_pipe id (drop (Z.to_nat n) data) s)).
Proof using Hp. intros Hc Hf Hd. rewrite (run_call _ Hc). unfold do_read. rewrite Hf, Hd. by destruct data. Qed.

(** A write to a pipe that has room for all of it or none. *)
Lemma run_write fd bytes id data : up_code p = inl (Sys (SWrite fd bytes 0) k) -> up_fds p !! fd = Some (PipeEnd id true) ->
  s_pipes s !! id = Some data -> bytes <> [] -> is_open (PipeEnd id false) s ->
  (length bytes <= Z.to_nat PIPESIZE - length data \/ Z.to_nat PIPESIZE <= length data)%nat ->
  run i j s =
  if (Z.to_nat PIPESIZE <=? length data)%nat then None
  else Some (resume i p k (up_fds p) (Z.of_nat (length bytes), []) (set_pipe id (data ++ bytes) s)).
Proof using Hp.
  intros Hc Hf Hd Hb Ho Hr. rewrite (run_call _ Hc). unfold do_write. rewrite Hf, Hd.
  rewrite bool_decide_eq_false_2 by done. rewrite bool_decide_eq_true_2 by done. cbn [negb].
  assert (0 < length bytes)%nat by (destruct bytes; [done|cbn; lia]).
  destruct (Nat.leb_spec (Z.to_nat PIPESIZE) (length data)).
  - by rewrite (proj2 (Nat.eqb_eq _ _)) by lia.
  - rewrite (proj2 (Nat.eqb_neq _ _)) by lia. by rewrite (proj2 (Nat.leb_le _ _)) by lia.
Qed.
End Calls.
