(* ===== verification/UPrimes.v ===== *)
(** user/primes.c: the sieve whose stages are processes connected by pipes.
    Under every interleaving of the processes it prints the primes, in order,
    and ends. *)

From Stdlib Require Import Znumtheory.
From stdpp Require Import base numbers list gmap strings fin_maps.
From S2P Require Import Prelude Params Mem Digits Pipe User UPrintf UProc.
Open Scope prog_scope.

(** ** The program *)

(** What an int holds after a read has stored [bytes] in it. *)
Definition store_int (old : Z) (bytes : list Z) : Z :=
  s32 (le_val (bytes ++ drop (length bytes) (le_bytes 4 old))).

(** The loop of a stage: pass on what [prime] does not divide. *)
Fixpoint filter_loop (g : nat) (prime cur_pipe out num : Z) : prog unit :=
  match g with
  | O => OutOfFuel
  | S g =>
      do r <- read cur_pipe 4;
      let num := store_int num r.2 in
      if 0 <? r.1 then
        if negb (Z.rem num prime =? 0) then
          do w <- write out (le_bytes 4 num);
          if w <? 0 then printf_ (bytes_of "Error writing to pipe" ++ [10]) []     (* break *)
          else filter_loop g prime cur_pipe out num
        else filter_loop g prime cur_pipe out num
      else Done tt
  end.

(** [junk] is what the uninitialised variables hold. *)
Fixpoint primes (f g : nat) (junk cur_pipe : Z) : prog unit :=
  match f with
  | O => OutOfFuel
  | S f =>
      do r <- read cur_pipe 4;
      if r.1 =? 0 then close cur_pipe ;; exit_ 0
      else
        let prime := store_int junk r.2 in
        printf_ (bytes_of "prime %d" ++ [10]) [AInt prime] ;;
        do fd <- pipe_;
        if fd.1 <? 0 then
          printf_ (bytes_of "Error creating pipe" ++ [10]) [] ;;
          close cur_pipe ;;
          exit_ 1
        else
          let fd0 := nth 0 fd.2 0 in
          let fd1 := nth 1 fd.2 0 in
          do pid <- fork_;
          if pid =? 0 then
            close fd1 ;;
            close cur_pipe ;;
            primes f g junk fd0
          else
            close fd0 ;;
            filter_loop g prime cur_pipe fd1 junk ;;
            close fd1 ;;
            close cur_pipe ;;
            wait_ ;;
            exit_ 0
  end.

(** main's loop, over the numbers it has still to write. *)
Fixpoint feed_loop (l : list Z) (out : Z) : prog unit :=
  match l with
  | [] => Done tt
  | i :: l =>
      do w <- write out (le_bytes 4 i);
      if w <? 0 then printf_ (bytes_of "Error writing to pipe" ++ [10]) []         (* break *)
      else feed_loop l out
  end.

Definition primes_main (f g : nat) (junk : Z) (l : list Z) : prog unit :=
  do fd <- pipe_;
  if fd.1 <? 0 then
    printf_ (bytes_of "Error creating initial pipe" ++ [10]) [] ;;
    exit_ 1
  else
    let fd0 := nth 0 fd.2 0 in
    let fd1 := nth 1 fd.2 0 in
    do pid <- fork_;
    (if pid =? 0 then
       close fd1 ;;
       primes f g junk fd0
     else
       close fd0 ;;
       feed_loop l fd1 ;;
       close fd1 ;;
       wait_ ;;
       Done tt) ;;
    exit_ 0.

(** [for (int i = 2; i <= 280; i++)] *)
Definition primes_numbers : list Z := seqZ 2 279.

(** The program alone on the machine, as process [m]. *)
Definition console_fds : gmap Z file := {[0 := Console; 1 := Console; 2 := Console]}.

Definition boot (m : nat) (code : prog unit) : sys :=
  mk_sys {[m := mk_uproc console_fds 2 (inl code)]} ∅ [] (S m) 0.
