(* ===== verification/USieve.v ===== *)
(** The sieve of user/primes.c, as a function on lists: what remains of the
    numbers 2, 3, ... when each number removes its multiples is the primes. *)

From Stdlib Require Import Znumtheory.
From stdpp Require Import base numbers list sorting.
From Equations Require Import Equations.
From S2P Require Import Prelude.

#[export] Instance prime_decision p : Decision (prime p).
Proof. destruct (prime_dec p); [by left|by right]. Defined.

(** What a stage passes on. *)
Definition sift (p : Z) (l : list Z) : list Z := filter (fun x => Z.rem x p <> 0) l.

Equations? sieve (l : list Z) : list Z by wf (length l) lt :=
  sieve [] := [];
  sieve (p :: l) := p :: sieve (sift p l).
Proof. unfold sift. pose proof (length_filter (fun x => Z.rem x p <> 0) l). lia. Qed.

Lemma rem_divide p x : 0 < p -> 0 <= x -> Z.rem x p <> 0 <-> ~ (p | x).
Proof. intros Hp Hx. rewrite Z.rem_mod_nonneg by lia. by rewrite Z.mod_divide by lia. Qed.

(** No other element of [l] divides [x]. *)
Definition unhit (l : list Z) (x : Z) : Prop := Forall (fun y => (y | x) -> y = x) l.

Lemma elem_of_sift p l x : x ∈ sift p l <-> x ∈ l /\ Z.rem x p <> 0.
Proof. unfold sift. rewrite list_elem_of_filter. tauto. Qed.

Lemma StronglySorted_filter {A} (R : relation A) (P : A -> Prop) `{!forall x, Decision (P x)} l :
  StronglySorted R l -> StronglySorted R (filter P l).
Proof.
  induction 1 as [|x l Hl IH Hx]; [constructor|]. rewrite filter_cons. case_decide; [|done]. constructor; [done|].
  rewrite Forall_forall in *. intros y [_ Hy]%list_elem_of_filter. by apply Hx.
Qed.

Lemma elem_of_sieve l x :
  StronglySorted Z.lt l -> Forall (fun y => 0 < y) l -> x ∈ sieve l <-> x ∈ l /\ unhit l x.
Proof.
  funelim (sieve l); intros Hs Hpos; simp sieve.
  - split; [by intros ?%elem_of_nil|by intros [?%elem_of_nil _]].
  - apply StronglySorted_inv in Hs as [Hs Hp]. apply Forall_cons in Hpos as [Hp0 Hpos].
    assert (Hsub : forall y, y ∈ l -> p < y) by by rewrite Forall_forall in Hp.
    assert (Hpos' : Forall (fun y => 0 < y) (sift p l)).
    { rewrite Forall_forall in *. intros y [Hy _]%elem_of_sift. by apply Hpos. }
    rewrite !elem_of_cons, H by (done || by apply StronglySorted_filter). rewrite elem_of_sift. unfold unhit. rewrite Forall_cons.
    rewrite !Forall_forall. split.
    + intros [->|[[Hx Hr] Hu]].
      * split; [by left|]. split; [done|]. intros y Hy Hd. apply Hsub in Hy. apply Z.divide_pos_le in Hd; lia.
      * specialize (Hsub x Hx). apply rem_divide in Hr; [|lia|lia]. split; [by right|]. split; [done|].
        intros y Hy Hd. apply Hu; [|done]. apply elem_of_sift. split; [done|].
        assert (0 < y) by by rewrite Forall_forall in Hpos; apply Hpos.
        apply rem_divide; [lia|lia|]. intros Hpy. apply Hr. by eapply Z.divide_trans.
    + intros [[->|Hx] [Hpx Hu]]; [by left|]. right. specialize (Hsub x Hx).
      split; [split; [done|]|].
      * apply rem_divide; [lia|lia|]. intros Hd. apply Hpx in Hd. lia.
      * intros y [Hy _]%elem_of_sift. by apply Hu.
Qed.

Lemma sieve_sublist l : sublist (sieve l) l.
Proof.
  funelim (sieve l); simp sieve; [constructor|]. apply sublist_skip. etrans; [exact H|]. apply sublist_filter.
Qed.

(** A sublist of a list without duplicates is what it selects. *)
Lemma sublist_is_filter {A} (P : A -> Prop) `{!forall x, Decision (P x)} (k l : list A) :
  NoDup l -> sublist k l -> (forall x, x ∈ l -> x ∈ k <-> P x) -> k = filter P l.
Proof.
  intros Hnd Hs. revert Hnd. induction Hs as [|x k l Hs IH|x k l Hs IH]; intros Hnd HP; [done| |].
  - apply NoDup_cons in Hnd as [Hx Hnd]. rewrite filter_cons_True by by apply HP; left. f_equal. apply IH; [done|].
    intros y Hy. rewrite <- HP by by right. rewrite elem_of_cons. split; [tauto|]. intros [->|?]; [done|done].
  - apply NoDup_cons in Hnd as [Hx Hnd]. rewrite filter_cons_False.
    + apply IH; [done|]. intros y Hy. apply HP. by right.
    + rewrite <- HP by by left. intros Hin. by eapply Hx, elem_of_sublist.
Qed.

Lemma seqZ_sorted m n : StronglySorted Z.lt (seqZ m n).
Proof.
  revert m. remember (Z.to_nat n) as k eqn:Ek. revert n Ek. induction k as [|k IH]; intros n Ek m.
  - rewrite seqZ_nil by lia. constructor.
  - rewrite seqZ_cons by lia. constructor; [apply IH; lia|]. apply Forall_seqZ. lia.
Qed.

(** The sieve finds the primes. *)
Lemma sieve_primes n : sieve (seqZ 2 n) = filter prime (seqZ 2 n).
Proof.
  apply sublist_is_filter; [apply NoDup_seqZ|apply sieve_sublist|]. intros x Hx. apply elem_of_seqZ in Hx as Hr.
  rewrite elem_of_sieve; [|apply seqZ_sorted|apply Forall_seqZ; lia]. unfold unhit. rewrite Forall_seqZ, <- prime_alt. split.
  - intros [_ Hu]. split; [lia|]. intros d Hd Hdx. apply Hu in Hdx; lia.
  - intros [_ Hp]. split; [done|]. intros y Hy Hd. apply Z.divide_pos_le in Hd as Hle; [|lia].
    destruct (decide (y = x)); [done|]. destruct (Hp y); [lia|done].
Qed.
