(* ===== verification/UPrimesRun.v ===== *)
(** primes under every interleaving: the processes form a chain, and the
    numbers on their way through it determine what is still to be printed. *)

From Stdlib Require Import Znumtheory.
From stdpp Require Import base numbers list gmap strings fin_maps.
From Equations Require Import Equations.
From S2P Require Import Prelude Params Mem Digits Pipe User UPrintf UText UProc UPrimes USieve.
Open Scope prog_scope.

(** ** The text printed *)

Definition prime_line (p : Z) : list Z := bytes_of "prime " ++ decimal p ++ [10].
Definition lines (l : list Z) : list Z := concat (prime_line <$> l).

Lemma prime_writes p : 0 <= p < 2 ^ 31 ->
  printf_writes (bytes_of "prime %d" ++ [10]) [AInt p] = (fun c => (1, [c])) <$> prime_line p.
Proof.
  intros Hp. unfold printf_writes, UPrintf.printf, vprintf.
  change (bytes_of "prime %d" ++ [10]) with [112; 114; 105; 109; 101; 32; 37; 100; 10]. cbn [length].
  rewrite !vprintf_char, vprintf_d, vprintf_char by (done || lia || by repeat apply can_write_emits).
  cbn [vprintf_loop]. unfold ret. rewrite !emits_app. done.
Qed.

Lemma prime_line_nonempty p : prime_line p <> [].
Proof. done. Qed.

(** ** Where a process stands *)

Section Chain.
Context {lim : limits} (m f0 g0 : nat) (junk : Z) (L : list Z).

Inductive phase :=
| ChildM (f : nat) | Child1 (f : nat) | Child2 (f : nat)           (* closing what fork copied *)
| Start (f : nat) | Eof1 | Eof2
| Print (f : nat) (p : Z) (cs : list Z) | MkPipe (f : nat) (p : Z) | Fork (f : nat) (p : Z)
| Close0 (p : Z) | Filter (p : Z) (g : nat) (num : Z) | Send (p x : Z) (g : nat)
| Close1 | CloseCur | Wait | Exit | Zomb.

#[local] Instance phase_eq_dec : EqDecision phase.
Proof using Type. solve_decision. Defined.

(** The descriptor a stage reads from: 3 and 4 in turn. *)
Definition cur (b : bool) : Z := if b then 3 else 4.

Definition after_fork (f : nat) (p cur_pipe fd0 fd1 : Z) : prog unit :=
  do pid <- fork_;
  if pid =? 0 then close fd1 ;; close cur_pipe ;; primes f g0 junk fd0
  else close fd0 ;; filter_loop g0 p cur_pipe fd1 junk ;; close fd1 ;; close cur_pipe ;; wait_ ;; exit_ 0.

Definition after_print (f : nat) (p cur_pipe : Z) : prog unit :=
  do fd <- pipe_;
  if fd.1 <? 0 then printf_ (bytes_of "Error creating pipe" ++ [10]) [] ;; close cur_pipe ;; exit_ 1
  else after_fork f p cur_pipe (nth 0 fd.2 0) (nth 1 fd.2 0).

Definition stage_code (b : bool) (ph : phase) : prog unit :=
  match ph with
  | ChildM f => close 4 ;; primes f g0 junk 3
  | Child1 f => close 5 ;; close (cur (negb b)) ;; primes f g0 junk (cur b)
  | Child2 f => close (cur (negb b)) ;; primes f g0 junk (cur b)
  | Start f => primes f g0 junk (cur b)
  | Eof1 => close (cur b) ;; exit_ 0
  | Print f p cs => writes ((fun c => (1, [c])) <$> cs) ;; after_print f p (cur b)
  | MkPipe f p => after_print f p (cur b)
  | Fork f p => after_fork f p (cur b) (cur (negb b)) 5
  | Close0 p => close (cur (negb b)) ;; filter_loop g0 p (cur b) 5 junk ;; close 5 ;; close (cur b) ;; wait_ ;; exit_ 0
  | Filter p g num => filter_loop g p (cur b) 5 num ;; close 5 ;; close (cur b) ;; wait_ ;; exit_ 0
  | Send p x g =>
      (do w <- write 5 (le_bytes 4 x);
       if w <? 0 then printf_ (bytes_of "Error writing to pipe" ++ [10]) [] else filter_loop g p (cur b) 5 x) ;;
      close 5 ;; close (cur b) ;; wait_ ;; exit_ 0
  | Close1 => close 5 ;; close (cur b) ;; wait_ ;; exit_ 0
  | CloseCur => close (cur b) ;; wait_ ;; exit_ 0
  | Wait => wait_ ;; exit_ 0
  | Eof2 | Exit | Zomb => exit_ 0
  end.

Notation R id := (PipeEnd id false).
Notation W id := (PipeEnd id true).

(** The pipe ends of stage [k], which reads pipe [k] and writes pipe [S k]. *)
Definition stage_ends (k : nat) (b : bool) (ph : phase) : list (Z * file) :=
  match ph with
  | ChildM _ => [(3, R k); (4, W k)]
  | Child1 _ => [(cur (negb b), R (pred k)); (cur b, R k); (5, W k)]
  | Child2 _ => [(cur (negb b), R (pred k)); (cur b, R k)]
  | Start _ | Eof1 | Print _ _ _ | MkPipe _ _ | CloseCur => [(cur b, R k)]
  | Fork _ _ | Close0 _ => [(cur b, R k); (cur (negb b), R (S k)); (5, W (S k))]
  | Filter _ _ _ | Send _ _ _ | Close1 => [(cur b, R k); (5, W (S k))]
  | Eof2 | Wait | Exit | Zomb => []
  end.

Definition console : list (Z * file) := [(0, Console); (1, Console); (2, Console)].

Definition stage_proc (k : nat) (ph : phase) : proc :=
  match ph with
  | Zomb => mk_uproc ∅ (m + k) (inr 0)
  | _ => mk_uproc (list_to_map (console ++ stage_ends k (Nat.even k) ph)) (m + k)
           (inl (stage_code (Nat.even k) ph ;; exit_ 0))
  end.

Inductive mphase := MPipe | MFork | MClose0 | MFeed (l : list Z) | MWait | MExit | MZomb.

Definition main_code (mp : mphase) : prog unit :=
  match mp with
  | MPipe => primes_main f0 g0 junk L
  | MFork =>
      do pid <- fork_;
      (if pid =? 0 then close 4 ;; primes f0 g0 junk 3
       else close 3 ;; feed_loop L 4 ;; close 4 ;; wait_ ;; Done tt) ;;
      exit_ 0
  | MClose0 => (close 3 ;; feed_loop L 4 ;; close 4 ;; wait_ ;; Done tt) ;; exit_ 0
  | MFeed l => (feed_loop l 4 ;; close 4 ;; wait_ ;; Done tt) ;; exit_ 0
  | MWait => (wait_ ;; Done tt) ;; exit_ 0
  | MExit | MZomb => exit_ 0
  end.

Definition main_ends (mp : mphase) : list (Z * file) :=
  match mp with
  | MFork | MClose0 => [(3, R 0); (4, W 0)]
  | MFeed _ => [(4, W 0)]
  | MPipe | MWait | MExit | MZomb => []
  end.

Definition main_proc (mp : mphase) : proc :=
  match mp with
  | MZomb => mk_uproc ∅ 2 (inr 0)
  | _ => mk_uproc (list_to_map (console ++ main_ends mp)) 2 (inl (main_code mp))
  end.

(** The system with main in [mp], the stages in [phs], the numbers [bufs] in
    the pipes, and [out] printed. The counters matter while something is still
    to be created. *)
Definition procs_of (mp : mphase) (phs : list phase) : list proc := main_proc mp :: imap stage_proc phs.
Definition enc (l : list Z) : list Z := concat (le_bytes 4 <$> l).

Definition creates (ph : phase) : bool :=
  match ph with
  | ChildM _ | Child1 _ | Child2 _ | Start _ | Print _ _ _ | MkPipe _ _ | Fork _ _ => true
  | _ => false
  end.
Definition mcreates (mp : mphase) : bool := match mp with MPipe | MFork => true | _ => false end.

Record rep (mp : mphase) (phs : list phase) (bufs : list (list Z)) (out : list Z) (s : sys) : Prop := {
  rep_procs : forall i, s_procs s !! i = if (i <? m)%nat then None else procs_of mp phs !! (i - m)%nat;
  rep_pipes : forall i, s_pipes s !! i = (enc <$> bufs) !! i;
  rep_out : s_out s = out;
  rep_next : (exists ph, last phs = Some ph /\ creates ph = true) \/ mcreates mp = true ->
    s_nextpid s = (m + S (length phs))%nat /\ s_nextpipe s = length bufs;
}.

(** ** The numbers on their way *)

Definition good (x : Z) : Prop := 2 <= x < 2 ^ 31.

(** How many numbers are still to be printed by the last stage and those after it. *)
Definition todo (ph : phase) (s : list Z) : nat :=
  match ph with
  | ChildM _ | Child1 _ | Child2 _ | Start _ => length (sieve s)
  | Print _ p _ | MkPipe _ p | Fork _ p => S (length (sieve (sift p s)))
  | _ => 0
  end.

(** The last stage: [o] says whether the stage before may still write, [s] is
    what it will still read, [rem] what is still to be printed. *)
Definition last_ok (k : nat) (o : bool) (s : list Z) (bufs : list (list Z)) (ph : phase) (rem : list Z) : Prop :=
  Forall good s /\ (length s < g0)%nat /\ (k + todo ph s <= length (sieve L))%nat /\
  match ph with
  | ChildM f => (length s < f)%nat /\ bufs = [] /\ rem = lines (sieve s) /\ k = 0%nat
  | Child1 f | Child2 f => (length s < f)%nat /\ bufs = [] /\ rem = lines (sieve s) /\ (0 < k)%nat
  | Start f => (length s < f)%nat /\ bufs = [] /\ rem = lines (sieve s)
  | Print f p cs => (length s < f)%nat /\ bufs = [] /\ rem = cs ++ lines (sieve (sift p s)) /\ good p /\ cs <> []
  | MkPipe f p => (length s < f)%nat /\ bufs = [] /\ rem = lines (sieve (sift p s)) /\ good p
  | Fork f p => (length s < f)%nat /\ bufs = [[]] /\ rem = lines (sieve (sift p s)) /\ good p
  | Eof1 | Eof2 | Exit | Zomb => o = false /\ s = [] /\ rem = []
  | _ => False
  end.

(** A stage with a child: [o'] and [r'] are what the child may expect. *)
Definition mid_ok (o : bool) (s : list Z) (ph : phase) (o' : bool) (r' : list Z) : Prop :=
  Forall good s /\
  match ph with
  | Close0 p => good p /\ (length s < g0)%nat /\ o' = true /\ r' = sift p s
  | Filter p g _ => good p /\ (length s < g)%nat /\ o' = true /\ r' = sift p s
  | Send p x g => good p /\ (length s < g)%nat /\ o' = true /\ r' = x :: sift p s
  | Close1 => o = false /\ s = [] /\ o' = true /\ r' = []
  | CloseCur | Wait => o = false /\ s = [] /\ o' = false /\ r' = []
  | _ => False
  end.

Inductive chain : nat -> bool -> list Z -> list (list Z) -> list phase -> list Z -> Prop :=
| chain_last k o r b bufs ph rem :
    last_ok k o (b ++ r) bufs ph rem -> chain k o r (b :: bufs) [ph] rem
| chain_mid k o r b bufs ph phs rem o' r' :
    mid_ok o (b ++ r) ph o' r' -> chain (S k) o' r' bufs phs rem -> chain k o r (b :: bufs) (ph :: phs) rem.

Definition main_ok (mp : mphase) (bufs : list (list Z)) (phs : list phase) (rem : list Z) : Prop :=
  match mp with
  | MPipe => phs = [] /\ bufs = [] /\ rem = lines (sieve L)
  | MFork => phs = [] /\ bufs = [[]] /\ rem = lines (sieve L)
  | MClose0 => chain 0 true L bufs phs rem
  | MFeed l => chain 0 true l bufs phs rem
  | MWait => chain 0 false [] bufs phs rem
  | MExit | MZomb => phs = [] /\ rem = []
  end.

(** ** The representation *)

Lemma rep_lookup mp phs bufs out s n p :
  rep mp phs bufs out s -> procs_of mp phs !! n = Some p -> s_procs s !! (m + n)%nat = Some p.
Proof using Type.
  intros H Hp. rewrite (rep_procs _ _ _ _ _ H). destruct (Nat.ltb_spec (m + n) m); [lia|].
  by replace (m + n - m)%nat with n by lia.
Qed.

Lemma rep_lookup_inv mp phs bufs out s i p :
  rep mp phs bufs out s -> s_procs s !! i = Some p -> exists n, i = (m + n)%nat /\ procs_of mp phs !! n = Some p.
Proof using Type.
  intros H. rewrite (rep_procs _ _ _ _ _ H). destruct (Nat.ltb_spec i m); [done|]. intros Hp.
  exists (i - m)%nat. split; [lia|done].
Qed.

Lemma procs_main mp mp' phs : procs_of mp' phs = <[0%nat := main_proc mp']> (procs_of mp phs).
Proof using Type. done. Qed.

Lemma procs_stage mp P1 ph ph' P2 :
  procs_of mp (P1 ++ ph' :: P2) = <[S (length P1) := stage_proc (length P1) ph']> (procs_of mp (P1 ++ ph :: P2)).
Proof using Type.
  unfold procs_of. rewrite !imap_app.
  change (<[S (length P1) := ?x]> (?a :: ?l)) with (a :: <[length P1 := x]> l). f_equal.
  rewrite insert_app_r_alt by by rewrite length_imap. rewrite length_imap, Nat.sub_diag. cbn. by rewrite Nat.add_0_r.
Qed.

Lemma procs_lookup mp P1 ph P2 : procs_of mp (P1 ++ ph :: P2) !! S (length P1) = Some (stage_proc (length P1) ph).
Proof using Type.
  unfold procs_of. change ((?a :: ?l) !! S (length P1)) with (l !! length P1).
  rewrite imap_app, lookup_app_r by by rewrite length_imap. rewrite length_imap, Nat.sub_diag. cbn. by rewrite Nat.add_0_r.
Qed.

Lemma length_procs mp phs : length (procs_of mp phs) = S (length phs).
Proof using Type. unfold procs_of. cbn. by rewrite length_imap. Qed.

(** One process changes. *)
Lemma rep_put mp phs bufs out s mp' phs' bufs' out' n p s' :
  rep mp phs bufs out s -> (n < length (procs_of mp phs))%nat ->
  procs_of mp' phs' = <[n := p]> (procs_of mp phs) ->
  s_procs s' = <[(m + n)%nat := p]> (s_procs s) ->
  (forall i, s_pipes s' !! i = (enc <$> bufs') !! i) -> s_out s' = out' ->
  ((exists ph, last phs' = Some ph /\ creates ph = true) \/ mcreates mp' = true ->
    s_nextpid s' = (m + S (length phs'))%nat /\ s_nextpipe s' = length bufs') ->
  rep mp' phs' bufs' out' s'.
Proof using Type.
  intros H Hn Hps Hs Hpi Ho Hnx. split; [|done..]. intros i. rewrite Hs, Hps.
  destruct (decide (i = m + n)%nat) as [->|Hne].
  - rewrite lookup_insert_eq. destruct (Nat.ltb_spec (m + n) m); [lia|].
    replace (m + n - m)%nat with n by lia. by rewrite list_lookup_insert_eq.
  - rewrite lookup_insert_ne by done. rewrite (rep_procs _ _ _ _ _ H). destruct (Nat.ltb_spec i m); [done|].
    rewrite list_lookup_insert_ne; [done|lia].
Qed.

Lemma procs_snoc mp P q : procs_of mp (P ++ [q]) = procs_of mp P ++ [stage_proc (length P) q].
Proof using Type. unfold procs_of. rewrite imap_app. cbn. by rewrite Nat.add_0_r. Qed.

(** One process changes and there is a new one. *)
Lemma rep_spawn mp phs bufs out s mp' phs' n p q s' :
  rep mp phs bufs out s -> (n < length (procs_of mp phs))%nat ->
  procs_of mp' phs' = <[n := p]> (procs_of mp phs) ++ [q] ->
  s_procs s' = <[(m + n)%nat := p]> (<[(m + S (length phs))%nat := q]> (s_procs s)) ->
  s_pipes s' = s_pipes s -> s_out s' = out ->
  s_nextpid s' = (m + S (length phs'))%nat -> s_nextpipe s' = length bufs ->
  rep mp' phs' bufs out s'.
Proof using Type.
  intros H Hn Hps Hs Hpi Ho Hn1 Hn2. split; [|rewrite Hpi; apply (rep_pipes _ _ _ _ _ H)|done|done]. intros i. rewrite Hs, Hps.
  pose proof (length_procs mp phs) as Hl. pose proof (length_insert (procs_of mp phs) n p) as Hl'.
  destruct (decide (i = m + n)%nat) as [->|Hne1]; [|destruct (decide (i = m + S (length phs))%nat) as [->|Hne2]].
  - rewrite lookup_insert_eq. destruct (Nat.ltb_spec (m + n) m); [lia|]. replace (m + n - m)%nat with n by lia.
    rewrite lookup_app_l by lia. by rewrite list_lookup_insert_eq.
  - rewrite lookup_insert_ne, lookup_insert_eq by lia. destruct (Nat.ltb_spec (m + S (length phs)) m); [lia|].
    rewrite lookup_app_r by lia. by replace (m + S (length phs) - m - length (<[n := p]> (procs_of mp phs)))%nat with 0%nat by lia.
  - rewrite !lookup_insert_ne, (rep_procs _ _ _ _ _ H) by done. destruct (Nat.ltb_spec i m); [done|].
    destruct (decide (i - m < length (procs_of mp phs))%nat).
    + rewrite lookup_app_l by lia. rewrite list_lookup_insert_ne; [done|lia].
    + rewrite !lookup_ge_None_2; [done| |lia]. rewrite length_app. cbn [length]. lia.
Qed.

(** The last process is gone. *)
Lemma rep_reap mp P q bufs out s :
  rep mp (P ++ [q]) bufs out s -> mcreates mp = false -> (forall ph, last P = Some ph -> creates ph = false) ->
  rep mp P bufs out (set_procs (delete (m + S (length P))%nat (s_procs s)) s).
Proof using Type.
  intros H Hm Hl. split; [|apply (rep_pipes _ _ _ _ _ H)|apply (rep_out _ _ _ _ _ H)|].
  - intros i. cbn [s_procs set_procs]. pose proof (length_procs mp P) as Hlp.
    destruct (decide (i = m + S (length P))%nat) as [->|Hne].
    + rewrite lookup_delete_eq. destruct (_ <? _)%nat; [done|]. rewrite lookup_ge_None_2; [done|lia].
    + rewrite lookup_delete_ne, (rep_procs _ _ _ _ _ H), procs_snoc by done. destruct (Nat.ltb_spec i m); [done|].
      destruct (decide (i - m < length (procs_of mp P))%nat); [by rewrite lookup_app_l by lia|].
      rewrite !lookup_ge_None_2; [done|lia|]. rewrite length_app. cbn [length]. lia.
  - intros [(ph & Hph & Hc)|Hc]; [apply Hl in Hph|]; congruence.
Qed.

(** ** Room for what is created *)

(** A pipe and a process for each prime, and main's. *)
Definition enough : Prop := (2 * length (sieve L) + 3 <= max_files /\ length (sieve L) + 2 <= max_procs)%nat.

Lemma size_below {A} (M : gmap nat A) a n : (forall i x, M !! i = Some x -> (a <= i < a + n)%nat) -> (size M <= n)%nat.
Proof using Type.
  intros H. rewrite <- size_dom, <- (size_set_seq (C := gset nat) a n). apply subseteq_size. intros i [x Hx]%elem_of_dom.
  apply elem_of_set_seq. by eapply H.
Qed.

Lemma rep_size mp phs bufs out s : rep mp phs bufs out s -> (size (s_procs s) <= S (length phs))%nat /\ (size (s_pipes s) <= length bufs)%nat.
Proof using Type.
  intros H. split.
  - apply (size_below _ m). intros i p (n & -> & Hn)%(rep_lookup_inv _ _ _ _ _ _ _ H). apply lookup_lt_Some in Hn. rewrite length_procs in Hn. lia.
  - apply (size_below _ 0). intros i d Hd. rewrite (rep_pipes _ _ _ _ _ H) in Hd. apply lookup_lt_Some in Hd. rewrite length_fmap in Hd. lia.
Qed.

Lemma pipe_room mp phs bufs out s : enough -> rep mp phs bufs out s -> (length bufs <= length (sieve L))%nat -> (open_files s + 2 <= max_files)%nat.
Proof using Type. intros [He _] Hr Hn. destruct (rep_size _ _ _ _ _ Hr) as [_ Hs]. pose proof (open_files_le s). lia. Qed.

Lemma fork_room mp phs bufs out s : enough -> rep mp phs bufs out s -> (length phs <= length (sieve L))%nat -> (size (s_procs s) < max_procs)%nat.
Proof using Type. intros [_ He] Hr Hn. destruct (rep_size _ _ _ _ _ Hr) as [Hs _]. lia. Qed.

(** ** The part of the chain before a stage *)

Inductive mids : bool -> list Z -> list (list Z) -> list phase -> bool -> list Z -> Prop :=
| mids_nil o r : mids o r [] [] o r
| mids_cons o r b B ph P o1 r1 o' r' :
    mid_ok o (b ++ r) ph o1 r1 -> mids o1 r1 B P o' r' -> mids o r (b :: B) (ph :: P) o' r'.

Lemma chain_split ph P2 rem P1 : forall k o r bufs, chain k o r bufs (P1 ++ ph :: P2) rem ->
  exists B1 b B2 o' r', bufs = B1 ++ b :: B2 /\ length B1 = length P1 /\ mids o r B1 P1 o' r' /\
    chain (k + length P1) o' r' (b :: B2) (ph :: P2) rem.
Proof using Type.
  induction P1 as [|q P1 IH]; intros k o r bufs H; cbn [app] in H.
  - inversion H; subst; eexists [], _, _, _, _; cbn; rewrite Nat.add_0_r; (split_and!; [done|done|constructor|done]).
  - inversion H as [?|? ? ? b B ? ? ? o1 r1 Hm Hc]; subst; [by destruct P1|].
    destruct (IH _ _ _ _ Hc) as (B1 & b' & B2 & o' & r' & -> & Hl & Hmids & Hch).
    exists (b :: B1), b', B2, o', r'. cbn. rewrite <- Nat.add_succ_comm. split_and!; [done|lia|by econstructor|done].
Qed.

Lemma chain_join B P rem o r B1 P1 o' r' : mids o r B1 P1 o' r' -> forall k,
  chain (k + length P1) o' r' B P rem -> chain k o r (B1 ++ B) (P1 ++ P) rem.
Proof using Type.
  induction 1 as [|o r b B0 ph P0 o1 r1 o' r' Hm _ IH]; intros k Hc; [by rewrite Nat.add_0_r in Hc|].
  cbn [app length] in *. eapply chain_mid; [exact Hm|]. apply IH. by rewrite Nat.add_succ_comm.
Qed.

Lemma mids_closed o r B1 P1 o' r' : mids o r B1 P1 o' r' -> (o = false -> r = []) -> o' = false -> r' = [].
Proof using Type.
  induction 1 as [|o r b B0 ph P0 o1 r1 o' r' [_ Hm] _ IH]; [done|]. intros _. apply IH.
  destruct ph; try done; destruct_and!; by subst.
Qed.

(** What main's child may expect. *)
Definition main_up (mp : mphase) : option (bool * list Z) :=
  match mp with
  | MClose0 => Some (true, L)
  | MFeed l => Some (true, l)
  | MWait => Some (false, [])
  | _ => None
  end.

Lemma main_ok_up mp o r bufs phs rem : main_up mp = Some (o, r) -> main_ok mp bufs phs rem <-> chain 0 o r bufs phs rem.
Proof using Type. destruct mp; cbn; intros [= <- <-]; done. Qed.

Lemma main_ok_stages mp bufs phs rem : main_ok mp bufs phs rem -> phs <> [] -> exists o r, main_up mp = Some (o, r) /\ (o = false -> r = []).
Proof using Type. destruct mp; cbn; try (by intros [-> _]); intros; by eexists _, _. Qed.

(** ** Who has a pipe open *)

Definition files_of (k : nat) (ph : phase) : list file :=
  match ph with Zomb => [] | _ => snd <$> stage_ends k (Nat.even k) ph end.
Definition main_files (mp : mphase) : list file := snd <$> main_ends mp.

Lemma has_file_table l f parent code : NoDup (fst <$> (console ++ l)) -> f <> Console ->
  has_file f (mk_uproc (list_to_map (console ++ l)) parent code) <-> f ∈ snd <$> l.
Proof using Type.
  intros Hnd Hf. unfold has_file. cbn [up_fds]. unfold map_Exists. split.
  - intros (fd & g & Hg & ->). apply elem_of_list_to_map_2 in Hg. apply elem_of_app in Hg as [Hg|Hg].
    + unfold console in Hg. rewrite !elem_of_cons, elem_of_nil in Hg. naive_solver.
    + by apply (list_elem_of_fmap_2 snd l (fd, f)).
  - intros ([fd g] & -> & Hg)%list_elem_of_fmap_1. exists fd, g. split; [|done]. apply elem_of_list_to_map_1; [done|].
    apply elem_of_app. by right.
Qed.

Lemma has_file_none f parent code : ~ has_file f (mk_uproc ∅ parent code).
Proof using Type. intros (fd & g & Hg & _). cbn in Hg. by rewrite lookup_empty in Hg. Qed.

Lemma stage_has k ph f : f <> Console -> has_file f (stage_proc k ph) <-> f ∈ files_of k ph.
Proof using Type.
  intros Hf. destruct (decide (ph = Zomb)) as [->|Hz].
  - split; [by intros ?%has_file_none|by intros ?%elem_of_nil].
  - assert (Hs : stage_proc k ph = mk_uproc (list_to_map (console ++ stage_ends k (Nat.even k) ph)) (m + k)
      (inl (stage_code (Nat.even k) ph ;; exit_ 0))) by by destruct ph.
    assert (Hl : files_of k ph = snd <$> stage_ends k (Nat.even k) ph) by by destruct ph.
    rewrite Hs, Hl. apply has_file_table; [|done].
    destruct (Nat.even k), ph; apply (bool_decide_unpack _); vm_compute; exact I.
Qed.

Lemma main_has mp f : f <> Console -> has_file f (main_proc mp) <-> f ∈ main_files mp.
Proof using Type.
  intros Hf. destruct mp; cbn [main_proc]; try (apply has_file_table; [|done]; apply (bool_decide_unpack _); vm_compute; exact I).
  split; [by intros ?%has_file_none|by intros ?%elem_of_nil].
Qed.

Lemma open_iff mp phs bufs out s f : rep mp phs bufs out s -> f <> Console ->
  is_open f s <-> f ∈ main_files mp \/ exists k ph, phs !! k = Some ph /\ f ∈ files_of k ph.
Proof using Type.
  intros H Hf. unfold is_open, map_Exists. split.
  - intros (i & p & Hp & Hh). destruct (rep_lookup_inv _ _ _ _ _ _ _ H Hp) as (n & -> & Hn). unfold procs_of in Hn.
    destruct n as [|n].
    + injection Hn as <-. left. by apply main_has.
    + change (imap stage_proc phs !! n = Some p) in Hn. rewrite list_lookup_imap in Hn. destruct (phs !! n) as [ph|] eqn:E; [|done]. injection Hn as <-.
      right. exists n, ph. split; [done|]. by apply stage_has.
  - intros [Hm|(k & ph & Hk & Hin)].
    + exists (m + 0)%nat, (main_proc mp). split; [by eapply rep_lookup|by apply main_has].
    + exists (m + S k)%nat, (stage_proc k ph). split; [|by apply stage_has]. eapply rep_lookup; [done|].
      change (imap stage_proc phs !! k = Some (stage_proc k ph)). by rewrite list_lookup_imap, Hk.
Qed.

(** The write end of pipe [id] is with stage [id]'s writer, or with the stage
    itself as long as it is a fresh copy of its parent. *)
Definition fresh (ph : phase) : bool := match ph with ChildM _ | Child1 _ => true | _ => false end.

Lemma stage_writes k ph id : W id ∈ files_of k ph -> (id = S k /\ fresh ph = false) \/ (id = k /\ fresh ph = true).
Proof using Type.
  destruct ph; cbn; rewrite ?elem_of_cons, ?elem_of_nil; intros Hin; destruct_or?; try done;
    match goal with H : W _ = W _ |- _ => injection H as -> end; auto.
Qed.

Lemma mid_writes k o s ph o' r' : mid_ok o s ph o' r' -> W (S k) ∈ files_of k ph <-> o' = true.
Proof using Type.
  intros [_ Hm]. destruct ph; cbn in *; try done; destruct_and!; subst; rewrite ?elem_of_cons, ?elem_of_nil; split; try done; auto.
  all: intros; destruct_or?; done.
Qed.

Lemma main_writes mp o r id : main_up mp = Some (o, r) -> W id ∈ main_files mp <-> id = 0%nat /\ o = true.
Proof using Type.
  destruct mp; cbn; intros [= <- <-]; rewrite ?elem_of_cons, ?elem_of_nil; naive_solver.
Qed.

Lemma mids_last o r B P q o' r' : mids o r B (P ++ [q]) o' r' -> exists o1 s1, mid_ok o1 s1 q o' r'.
Proof using Type.
  revert o r B. induction P as [|p P IH]; intros o r B H; cbn in H; inversion H as [|? ? ? ? ? ? ? ? ? ? Hm Hms]; subst.
  - inversion Hms; subst. by eexists _, _.
  - by eapply IH.
Qed.

(** Whether a stage that reads sees the end of the file. *)
Lemma writer_open mp P1 ph P2 bufs out s o r B1 o' r' :
  rep mp (P1 ++ ph :: P2) bufs out s -> main_up mp = Some (o, r) -> mids o r B1 P1 o' r' -> fresh ph = false ->
  is_open (W (length P1)) s <-> o' = true.
Proof using Type.
  intros H Hup Hms Hfr. rewrite (open_iff _ _ _ _ _ _ H) by done.
  destruct P1 as [|q P1 _] using rev_ind.
  - inversion Hms; subst. rewrite (main_writes mp _ _ _ Hup). cbn [length]. split; [|by left].
    intros [[_ ?]|(k & ph' & Hk & Hin)]; [done|]. destruct (stage_writes _ _ _ Hin) as [[? _]|[<- Hf]]; [done|].
    cbn in Hk. congruence.
  - destruct (mids_last _ _ _ _ _ _ _ Hms) as (o1 & s1 & Hm). rewrite length_app. cbn [length].
    rewrite Nat.add_1_r, <- (mid_writes (length P1) _ _ _ _ _ Hm).
    assert (Hq : ((P1 ++ [q]) ++ ph :: P2) !! length P1 = Some q) by (rewrite <- app_assoc, lookup_app_r, Nat.sub_diag by lia; done).
    split; [|intros Hin; right; by exists (length P1), q].
    intros [Hmain|(k & ph' & Hk & Hin)]; [by apply (main_writes mp _ _ _ Hup) in Hmain as [? _]|].
    destruct (stage_writes _ _ _ Hin) as [[[= <-] _]|[<- Hf]]; [by rewrite Hq in Hk; injection Hk as <-|].
    rewrite lookup_app_r in Hk by (rewrite length_app; cbn; lia). rewrite length_app in Hk. cbn [length] in Hk.
    rewrite Nat.add_1_r, Nat.sub_diag in Hk. cbn in Hk. congruence.
Qed.

(** The reader of an open pipe is there. *)
Lemma head_reads k r bufs ph P rem : chain k true r bufs (ph :: P) rem -> R k ∈ files_of k ph.
Proof using Type.
  intros H. inversion H as [? ? ? ? ? ? ? Hl|? ? ? ? ? ? ? ? ? ? Hl ?]; subst;
    [destruct Hl as (_ & _ & _ & Hl)|destruct Hl as [_ Hl]]; destruct ph; cbn in *; try done; destruct_and!; try done;
    rewrite ?elem_of_cons; auto.
Qed.

(** wait returns when the child is a zombie, and not before. *)
Lemma wait_inv mp phs bufs out s s' p K j k ph : (2 < m)%nat ->
  rep mp phs bufs out s -> phs !! k = Some ph -> do_wait (m + k) p K j s = Some s' ->
  j = (m + S k)%nat /\ ph = Zomb /\
  s' = resume (m + k) p K (up_fds p) (Z.of_nat (m + S k), []) (set_procs (delete (m + S k)%nat (s_procs s)) s).
Proof using Type.
  intros Hm Hr Hk Hw. unfold do_wait in Hw.
  assert (Hch : map_Exists (fun _ q => up_parent q = (m + k)%nat) (s_procs s)).
  { exists (m + S k)%nat, (stage_proc k ph). split; [|by destruct ph]. eapply rep_lookup; [exact Hr|].
    change (imap stage_proc phs !! k = Some (stage_proc k ph)). by rewrite list_lookup_imap, Hk. }
  rewrite bool_decide_eq_true_2 in Hw by done.
  destruct (s_procs s !! j) as [[fds parent [code|st]]|] eqn:Ej; [done| |done].
  destruct (Nat.eqb_spec parent (m + k)) as [->|]; [|done]. injection Hw as <-.
  destruct (rep_lookup_inv _ _ _ _ _ _ _ Hr Ej) as (n & -> & Hn). destruct n as [|n].
  - injection Hn as Hn. apply (f_equal up_parent) in Hn. destruct mp; cbn in Hn; lia.
  - change (imap stage_proc phs !! n = Some (mk_uproc fds (m + k) (inr st))) in Hn.
    rewrite list_lookup_imap in Hn. destruct (phs !! n) as [q|] eqn:Eq; [|done]. injection Hn as Hn.
    assert (n = k) as -> by (apply (f_equal up_parent) in Hn; destruct q; cbn in Hn; lia). rewrite Hk in Eq. injection Eq as ->.
    split_and!; [done| |done]. apply (f_equal up_code) in Hn. by destruct q.
Qed.

(** ** The measure: how many steps are left *)

Fixpoint T (n : nat) : nat := match n with O => 3 | S n => T n + 2 * n + 13 end.

Definition weight (ph : phase) (n : nat) : nat :=
  match ph with
  | Child1 _ => T n + 2 | ChildM _ | Child2 _ => T n + 1 | Start _ => T n
  | Eof1 => 2 | Eof2 => 1
  | Print _ _ _ | MkPipe _ _ => T n + 2 * n + 12
  | Fork _ _ => T n + 2 * n + 11
  | Close0 _ => 7 + 2 * n | Send _ _ _ => 6 + 2 * n | Filter _ _ _ => 5 + 2 * n
  | Close1 => 4 | CloseCur => 3 | Wait => 2 | Exit => 1 | Zomb => 0
  end.

(** How many numbers a stage with [n] to come may pass on. *)
Definition down (ph : phase) (n : nat) : nat :=
  match ph with Close0 _ | Filter _ _ _ => n | Send _ _ _ => S n | _ => 0 end.

Fixpoint mu (c : nat) (bufs : list (list Z)) (phs : list phase) : nat :=
  match phs, bufs with
  | ph :: phs, b :: bufs => weight ph (length b + c) + mu (down ph (length b + c)) bufs phs
  | _, _ => 0
  end.

Lemma T_mono n n' : (n <= n')%nat -> (T n <= T n')%nat.
Proof using Type. induction 1 as [|n' _ IH]; [done|]. cbn. lia. Qed.

Lemma mu_mono phs : forall bufs c c', (c <= c')%nat -> (mu c bufs phs <= mu c' bufs phs)%nat.
Proof using Type.
  induction phs as [|ph phs IH]; intros [|b bufs] c c' Hc; cbn [mu]; try lia.
  pose proof (T_mono (length b + c) (length b + c') ltac:(lia)).
  assert (weight ph (length b + c) <= weight ph (length b + c'))%nat by (destruct ph; cbn [weight]; lia).
  assert (down ph (length b + c) <= down ph (length b + c'))%nat as Hd by (destruct ph; cbn [down]; lia).
  pose proof (IH bufs _ _ Hd). lia.
Qed.

Lemma mu_prefix B1 P1 : length B1 = length P1 -> forall c, exists a c', forall B P, mu c (B1 ++ B) (P1 ++ P) = (a + mu c' B P)%nat.
Proof using Type.
  revert P1. induction B1 as [|b B1 IH]; intros [|ph P1] Hl c; try done; [by exists 0%nat, c|]. injection Hl as Hl.
  destruct (IH P1 Hl (down ph (length b + c))) as (a & c' & H). exists (weight ph (length b + c) + a)%nat, c'.
  intros B P. cbn [app mu]. rewrite H. lia.
Qed.

(** ** Encoded numbers *)

Lemma enc_cons x b : enc (x :: b) = le_bytes 4 x ++ enc b.
Proof using Type. done. Qed.

Lemma length_enc b : length (enc b) = (4 * length b)%nat.
Proof using Type. induction b as [|x b IH]; [done|]. rewrite enc_cons, length_app, length_le_bytes, IH. cbn [length]. lia. Qed.

Lemma enc_snoc b x : enc (b ++ [x]) = enc b ++ le_bytes 4 x.
Proof using Type. unfold enc. rewrite fmap_app, concat_app. done. Qed.

Lemma store_int_le old x : good x -> store_int old (le_bytes 4 x) = x.
Proof using Type.
  intros Hx. unfold good in Hx. unfold store_int. rewrite length_le_bytes, drop_ge by by rewrite length_le_bytes. rewrite app_nil_r, le_val_bytes.
  change (256 ^ Z.of_nat 4) with (2 ^ 32). rewrite Z.mod_small by lia. apply s32_small. lia.
Qed.

Lemma pipes_set (M : gmap nat (list Z)) B1 b b' B2 :
  (forall i, M !! i = (enc <$> (B1 ++ b :: B2)) !! i) -> forall i, <[length B1 := enc b']> M !! i = (enc <$> (B1 ++ b' :: B2)) !! i.
Proof using Type.
  intros HM i. assert (Hl : length (enc <$> B1) = length B1) by apply length_fmap.
  destruct (decide (i = length B1)) as [->|Hne].
  - rewrite lookup_insert_eq, fmap_app, fmap_cons. rewrite lookup_app_r by lia. by rewrite Hl, Nat.sub_diag.
  - rewrite lookup_insert_ne by done. rewrite HM, !fmap_app, !fmap_cons.
    destruct (decide (i < length B1)%nat); [by rewrite !lookup_app_l by lia|].
    rewrite !lookup_app_r by lia. destruct (i - length (enc <$> B1))%nat eqn:E; [lia|done].
Qed.

Lemma pipe_at (M : gmap nat (list Z)) B1 b B2 :
  (forall i, M !! i = (enc <$> (B1 ++ b :: B2)) !! i) -> M !! length B1 = Some (enc b).
Proof using Type.
  intros HM. rewrite HM, fmap_app, fmap_cons, lookup_app_r by by rewrite length_fmap. by rewrite length_fmap, Nat.sub_diag.
Qed.

(** ** A stage changes its phase *)

Lemma rep_stage mp P1 ph P2 bufs out s ph' bufs' out' s' :
  rep mp (P1 ++ ph :: P2) bufs out s ->
  s_procs s' = <[(m + S (length P1))%nat := stage_proc (length P1) ph']> (s_procs s) ->
  (forall i, s_pipes s' !! i = (enc <$> bufs') !! i) -> s_out s' = out' ->
  length bufs' = length bufs -> s_nextpid s' = s_nextpid s -> s_nextpipe s' = s_nextpipe s ->
  (creates ph' = true -> creates ph = true) ->
  rep mp (P1 ++ ph' :: P2) bufs' out' s'.
Proof using Type.
  intros H Hs Hpi Ho Hlen Hp1 Hp2 Hcr. eapply rep_put; [exact H| |by apply procs_stage|exact Hs|done|done|].
  - rewrite length_procs, length_app. cbn [length]. lia.
  - intros Hc. rewrite Hlen, Hp1, Hp2.
    replace (length (P1 ++ ph' :: P2)) with (length (P1 ++ ph :: P2)) by (rewrite !length_app; done).
    apply (rep_next _ _ _ _ _ H). destruct Hc as [(q & Hq & Hcq)|?]; [|by right]. left.
    rewrite last_app_cons in *. destruct P2 as [|q' P2]; [|rewrite last_cons_cons in *; by exists q].
    cbn in Hq. injection Hq as <-. exists ph. by auto.
Qed.

Section Stage.
Context (mp : mphase) (P1 P2 : list phase) (B1 B2 : list (list Z)) (b : list Z).
Context (out rem : list Z) (s s' : sys) (j : nat) (o : bool) (r : list Z).
Notation k := (length P1).

(** Stage [k] is in phase [ph] and takes a step. *)
Record situated (ph : phase) : Prop := {
  sit_rep : rep mp (P1 ++ ph :: P2) (B1 ++ b :: B2) out s;
  sit_len : length B1 = k;
  sit_chain : chain k o r (b :: B2) (ph :: P2) rem;
  sit_up : o = false -> r = [];
  sit_open : fresh ph = false -> is_open (W k) s <-> o = true;
  sit_main : mcreates mp = false;
  sit_run : run (m + S k) j s = Some s';
}.

(** The chain after the step: still one, with less to do. *)
Definition advances (ph : phase) : Prop :=
  exists B' P' rem' out', rep mp (P1 ++ P') (B1 ++ B') out' s' /\ P' <> [] /\ chain k o r B' P' rem' /\ out' ++ rem' = out ++ rem /\
    forall c, (mu c B' P' + length rem' < mu c (b :: B2) (ph :: P2) + length rem)%nat.

Lemma stage_there ph : situated ph -> s_procs s !! (m + S k)%nat = Some (stage_proc k ph).
Proof using Type. intros H. eapply rep_lookup; [apply (sit_rep _ H)|]. apply procs_lookup. Qed.

Lemma last_inv ph : situated ph -> creates ph || bool_decide (ph ∈ [Eof1; Eof2; Exit; Zomb]) = true ->
  P2 = [] /\ last_ok k o (b ++ r) B2 ph rem.
Proof using Type.
  intros H Hph. pose proof (sit_chain _ H) as Hc. inversion Hc as [|? ? ? ? ? ? ? ? o' r' [_ Hm] Hc']; subst; [done|].
  by destruct ph.
Qed.

Lemma mid_inv ph : situated ph -> creates ph || bool_decide (ph ∈ [Eof1; Eof2; Exit; Zomb]) = false ->
  exists o' r', mid_ok o (b ++ r) ph o' r' /\ chain (S k) o' r' B2 P2 rem.
Proof using Type.
  intros H Hph. pose proof (sit_chain _ H) as Hc.
  inversion Hc as [? ? ? ? ? ? ? (_ & _ & _ & Hl)|? ? ? ? ? ? ? ? o' r' Hm Hc']; subst; [|by exists o', r'].
  by destruct ph.
Qed.

(** A step that changes nothing but the stage. *)
Lemma advance_alone ph ph' : situated ph ->
  s' = put_proc (m + S k) (stage_proc k ph') s ->
  (creates ph' = true -> creates ph = true) ->
  chain k o r (b :: B2) (ph' :: P2) rem ->
  (forall n, weight ph' n < weight ph n /\ down ph' n <= down ph n)%nat ->
  advances ph.
Proof using Type.
  intros H Hs' Hcr Hc Hw. unfold advances. rewrite Hs'. exists (b :: B2), (ph' :: P2), rem, out. split_and!; [|done|done|done|].
  - pose proof (sit_rep _ H) as Hr.
    eapply rep_stage; [exact Hr|done|apply (rep_pipes _ _ _ _ _ Hr)|apply (rep_out _ _ _ _ _ Hr)|done..].
  - intros c. cbn [mu]. destruct (Hw (length b + c)%nat) as [Hw1 Hw2]. pose proof (mu_mono P2 B2 _ _ Hw2). lia.
Qed.

Lemma advance_close fd f K ph ph' : situated ph ->
  up_code (stage_proc k ph) = inl (Sys (SClose fd) K) ->
  up_fds (stage_proc k ph) !! fd = Some f ->
  mk_uproc (delete fd (up_fds (stage_proc k ph))) (up_parent (stage_proc k ph)) (inl (K (0, []))) = stage_proc k ph' ->
  (creates ph' = true -> creates ph = true) ->
  chain k o r (b :: B2) (ph' :: P2) rem ->
  (forall n, weight ph' n < weight ph n /\ down ph' n <= down ph n)%nat ->
  advances ph.
Proof using Type.
  intros H Hc Hf Hq. apply advance_alone; [done|]. pose proof (sit_run _ H) as Hrun.
  rewrite (run_close _ _ _ _ _ (stage_there _ H) fd f Hc Hf) in Hrun.
  injection Hrun as <-. unfold resume. by rewrite Hq.
Qed.

Ltac by_parity := unfold stage_proc; destruct (Nat.even k); reflexivity.

Lemma childM_step f : situated (ChildM f) -> advances (ChildM f).
Proof using Type.
  intros H. destruct (last_inv _ H eq_refl) as [HP (H1 & H2 & Hn & H3 & H4 & H5 & Hk)].
  eapply (advance_close 4 (W k)) with (ph' := Start f); [done|reflexivity|by_parity| |done| |intros n; cbn; lia].
  - rewrite Hk. reflexivity.
  - rewrite HP. constructor. by split_and!.
Qed.

Lemma child1_step f : situated (Child1 f) -> advances (Child1 f).
Proof using Type.
  intros H. destruct (last_inv _ H eq_refl) as [HP Hl].
  eapply (advance_close 5 (W k)) with (ph' := Child2 f);
    [done|reflexivity|by_parity|by_parity|done|rewrite HP; by constructor|intros n; cbn; lia].
Qed.

Lemma child2_step f : situated (Child2 f) -> advances (Child2 f).
Proof using Type.
  intros H. destruct (last_inv _ H eq_refl) as [HP (H1 & H2 & Hn & H3 & H4 & H5 & _)].
  eapply (advance_close (cur (negb (Nat.even k))) (R (pred k))) with (ph' := Start f);
    [done|reflexivity|by_parity|by_parity|done|rewrite HP; by constructor|intros n; cbn; lia].
Qed.

Lemma eof1_step : situated Eof1 -> advances Eof1.
Proof using Type.
  intros H. destruct (last_inv _ H eq_refl) as [HP Hl].
  eapply (advance_close (cur (Nat.even k)) (R k)) with (ph' := Eof2);
    [done|reflexivity|by_parity|by_parity|done|rewrite HP; by constructor|intros n; cbn; lia].
Qed.

Lemma close0_step p : situated (Close0 p) -> advances (Close0 p).
Proof using Type.
  intros H. destruct (mid_inv _ H eq_refl) as (o' & r' & Hm & Hc).
  eapply (advance_close (cur (negb (Nat.even k))) (R (S k))) with (ph' := Filter p g0 junk);
    [done|reflexivity|by_parity|by_parity|done|by eapply chain_mid; [exact Hm|]|intros n; cbn; lia].
Qed.

Lemma closecur_step : situated CloseCur -> advances CloseCur.
Proof using Type.
  intros H. destruct (mid_inv _ H eq_refl) as (o' & r' & Hm & Hc).
  eapply (advance_close (cur (Nat.even k)) (R k)) with (ph' := Wait);
    [done|reflexivity|by_parity|by_parity|done|by eapply chain_mid; [exact Hm|]|intros n; cbn; lia].
Qed.

Lemma chain_close k0 bufs phs rem0 : chain k0 true [] bufs phs rem0 -> chain k0 false [] bufs phs rem0.
Proof using Type.
  intros H. inversion H as [? ? ? ? ? ph ? (H1 & H2 & Hn & Hl)|? ? ? ? ? ph ? ? o' r' [H1 Hm] Hc]; subst.
  - constructor. split_and!; [done|done|done|]. destruct ph; try done; naive_solver.
  - econstructor; [|exact Hc]. split; [done|]. destruct ph; try done; naive_solver.
Qed.

Lemma close1_step : situated Close1 -> advances Close1.
Proof using Type.
  intros H. destruct (mid_inv _ H eq_refl) as (o' & r' & [H1 Hm] & Hc). cbn in Hm. destruct Hm as (Ho & Hs & -> & ->).
  eapply (advance_close 5 (W (S k))) with (ph' := CloseCur); [done|reflexivity|by_parity|by_parity|done| |intros n; cbn; lia].
  eapply chain_mid; [|by apply chain_close]. by split_and!.
Qed.

(** *** Reading *)

Lemma stage_reads ph K : situated ph -> fresh ph = false ->
  up_code (stage_proc k ph) = inl (Sys (SRead (cur (Nat.even k)) 4) K) ->
  up_fds (stage_proc k ph) !! cur (Nat.even k) = Some (R k) ->
  let q code := mk_uproc (up_fds (stage_proc k ph)) (up_parent (stage_proc k ph)) (inl code) in
  (b = [] /\ o = false /\ s' = put_proc (m + S k) (q (K (0, []))) s) \/
  (exists x b', b = x :: b' /\ s' = put_proc (m + S k) (q (K (4, le_bytes 4 x))) (set_pipe k (enc b') s)).
Proof using Type.
  intros H Hfr Hc Hf q. pose proof (sit_run _ H) as Hrun.
  assert (Hd : s_pipes s !! k = Some (enc b)).
  { rewrite <- (sit_len _ H). apply (pipe_at _ B1 b B2). apply (rep_pipes _ _ _ _ _ (sit_rep _ H)). }
  rewrite (run_read _ _ _ _ _ (stage_there _ H) _ _ _ _ Hc Hf Hd) in Hrun. destruct b as [|x b'].
  - left. cbn in Hrun. pose proof (sit_open _ H Hfr) as Ho. case_bool_decide as Hop; [done|]. injection Hrun as <-.
    split_and!; [done| |done]. destruct o; [|done]. destruct Hop. by apply Ho.
  - right. exists x, b'. split; [done|]. rewrite bool_decide_eq_false_2 in Hrun by done. cbv zeta in Hrun.
    rewrite enc_cons in Hrun. change (Z.to_nat 4) with (length (le_bytes 4 x)) in Hrun.
    rewrite take_app_length, drop_app_length in Hrun. by injection Hrun as <-.
Qed.

Lemma advance_read ph ph' x b' q : situated ph -> b = x :: b' ->
  s' = put_proc (m + S k) q (set_pipe k (enc b') s) -> q = stage_proc k ph' ->
  (creates ph' = true -> creates ph = true) ->
  chain k o r (b' :: B2) (ph' :: P2) rem ->
  (forall n, weight ph' n < weight ph (S n) /\ down ph' n <= down ph (S n))%nat ->
  advances ph.
Proof using Type.
  intros H Hb Hs' -> Hcr Hc Hw. unfold advances. rewrite Hs'. exists (b' :: B2), (ph' :: P2), rem, out. split_and!; [|done|done|done|].
  - pose proof (sit_rep _ H) as Hr. eapply rep_stage; [exact Hr|done| |apply (rep_out _ _ _ _ _ Hr)| |done..].
    + cbn. rewrite <- (sit_len _ H). apply (pipes_set _ B1 b). apply (rep_pipes _ _ _ _ _ Hr).
    + rewrite !length_app. done.
  - intros c. rewrite Hb. cbn [mu length]. destruct (Hw (length b' + c)%nat) as [Hw1 Hw2].
    change (S (length b') + c)%nat with (S (length b' + c)) in *. pose proof (mu_mono P2 B2 _ _ Hw2). lia.
Qed.

Lemma print_code p K : good p ->
  (printf_ (bytes_of "prime %d" ++ [10]) [AInt p] ;; K) = (writes ((fun c => (1, [c])) <$> prime_line p) ;; K) :> prog unit.
Proof using Type. intros Hp. unfold good in Hp. unfold printf_. by rewrite prime_writes by lia. Qed.

Lemma start_step f : situated (Start f) -> advances (Start f).
Proof using Type.
  intros H. destruct (last_inv _ H eq_refl) as [HP (H1 & H2 & Hn & H3 & HB & HR)]. destruct f as [|f]; [lia|].
  destruct (stage_reads (Start (S f)) _ H eq_refl eq_refl ltac:(by_parity)) as [(Hb & Ho & Hs')|(x & b' & Hb & Hs')].
  - eapply (advance_alone (Start (S f)) Eof1); [done|exact Hs'|done| |].
    + rewrite HP. constructor. rewrite (sit_up _ H Ho), Hb in *. split_and!; [done|done|cbn [todo] in *; lia|done|done|]. by rewrite HR; simp sieve.
    + intros n. cbn [weight down]. pose proof (T_mono 0 n ltac:(lia)) as Ht. cbn in Ht. lia.
  - rewrite Hb in *. cbn [app] in *. apply Forall_cons in H1 as [Hx H1].
    eapply (advance_read (Start (S f)) (Print f x (prime_line x)) x b'); [done|done|exact Hs'| |done| |].
    + cbn [fst snd pbind]. rewrite store_int_le by done. unfold stage_proc. f_equal. f_equal.
      unfold stage_code. rewrite <- (print_code x) by done. reflexivity.
    + rewrite HP. constructor. cbn [length] in *. cbn [todo] in *. simp sieve in Hn. cbn [length] in Hn.
      split_and!; [done|lia|cbn [todo]; lia|lia|done| |done|done]. rewrite HR. simp sieve. done.
    + intros n. cbn [weight down T]. lia.
Qed.

Lemma sift_cons p x l : sift p (x :: l) = if Z.rem x p =? 0 then sift p l else x :: sift p l.
Proof using Type.
  unfold sift. rewrite filter_cons. destruct (Z.eqb_spec (Z.rem x p) 0); [by rewrite decide_False by tauto|by rewrite decide_True].
Qed.

Lemma filter_step p g num : situated (Filter p g num) -> advances (Filter p g num).
Proof using Type.
  intros H. destruct (mid_inv _ H eq_refl) as (o' & r' & [H1 (Hp & Hg & Ho' & Hr')] & Hc). destruct g as [|g]; [lia|].
  destruct (stage_reads (Filter p (S g) num) _ H eq_refl eq_refl ltac:(by_parity)) as [(Hb & Ho & Hs')|(x & b' & Hb & Hs')].
  - eapply (advance_alone (Filter p (S g) num) Close1); [done|exact Hs'|done| |intros n; cbn; lia].
    rewrite (sit_up _ H Ho), Hb in *. eapply chain_mid; [|exact Hc]. by split_and!.
  - rewrite Hb in *. cbn [app] in *. apply Forall_cons in H1 as [Hx H1]. cbn [length] in Hg. rewrite sift_cons in Hr'.
    destruct (Z.rem x p =? 0) eqn:E.
    + eapply (advance_read (Filter p (S g) num) (Filter p g x) x b'); [done|done|exact Hs'| |done| |intros n; cbn; lia].
      * cbn [fst snd pbind]. rewrite store_int_le, E by done. reflexivity.
      * eapply chain_mid; [|exact Hc]. split_and!; try done. lia.
    + eapply (advance_read (Filter p (S g) num) (Send p x g) x b'); [done|done|exact Hs'| |done| |intros n; cbn; lia].
      * cbn [fst snd pbind]. rewrite store_int_le, E by done. reflexivity.
      * eapply chain_mid; [|exact Hc]. split_and!; try done. lia.
Qed.

(** *** Writing *)

Lemma chain_push k0 o0 x r0 b0 bufs phs rem0 : chain k0 o0 (x :: r0) (b0 :: bufs) phs rem0 -> chain k0 o0 r0 ((b0 ++ [x]) :: bufs) phs rem0.
Proof using Type.
  intros H. assert (Hs : (b0 ++ [x]) ++ r0 = b0 ++ x :: r0) by by rewrite <- app_assoc.
  inversion H; subst; econstructor; rewrite ?Hs; done.
Qed.

Lemma room_ok n : (4 <= Z.to_nat PIPESIZE - 4 * n \/ Z.to_nat PIPESIZE <= 4 * n)%nat.
Proof using Type. change (Z.to_nat PIPESIZE) with 1024%nat. lia. Qed.

Lemma send_step p x g : situated (Send p x g) -> advances (Send p x g).
Proof using Type.
  intros H. destruct (mid_inv _ H eq_refl) as (o' & r' & [H1 (Hp & Hg & -> & ->)] & Hc).
  assert (exists ph2 P3 b2 B3, P2 = ph2 :: P3 /\ B2 = b2 :: B3) as (ph2 & P3 & b2 & B3 & HP & HB2)
    by (inversion Hc; subst; by eexists _, _, _, _).
  pose proof (sit_rep _ H) as Hr. pose proof (sit_len _ H) as Hlen. rewrite HP, HB2 in Hr.
  assert (Hl1 : length (B1 ++ [b]) = S k) by (rewrite length_app, Hlen; cbn; lia).
  assert (Hd : forall i, s_pipes s !! i = (enc <$> ((B1 ++ [b]) ++ b2 :: B3)) !! i)
    by (intros i; rewrite <- app_assoc; apply (rep_pipes _ _ _ _ _ Hr)).
  pose proof (pipe_at _ _ _ _ Hd) as Hd'. rewrite Hl1 in Hd'.
  assert (Hop : is_open (R (S k)) s).
  { apply (open_iff _ _ _ _ _ _ Hr); [done|]. right. exists (S k), ph2. split.
    - rewrite lookup_app_r by lia. by replace (S k - k)%nat with 1%nat by lia.
    - rewrite HP, HB2 in Hc. by eapply head_reads. }
  pose proof (sit_run _ H) as Hrun.
  erewrite (run_write _ _ _ _ _ (stage_there _ H) 5 (le_bytes 4 x) (S k) (enc b2)) in Hrun;
    [|reflexivity|by_parity|done|done|done|rewrite length_enc, length_le_bytes; apply room_ok].
  destruct (_ <=? _)%nat; [done|]. injection Hrun as Hs'. unfold advances. rewrite <- Hs'.
  exists (b :: (b2 ++ [x]) :: B3), (Filter p g x :: P2), rem, out. split_and!; [|done| |done|].
  - rewrite HP. eapply rep_stage; [exact Hr|reflexivity| |apply (rep_out _ _ _ _ _ Hr)|rewrite !length_app; done|done..].
    intros i. change (<[S k := enc b2 ++ le_bytes 4 x]> (s_pipes s) !! i = (enc <$> B1 ++ b :: (b2 ++ [x]) :: B3) !! i).
    rewrite <- enc_snoc, <- Hl1.
    rewrite (pipes_set _ _ _ (b2 ++ [x]) _ Hd), <- app_assoc. done.
  - rewrite HB2 in Hc. eapply chain_mid; [|by apply chain_push]. by split_and!.
  - intros c. rewrite HP, HB2. cbn [mu weight down]. rewrite length_app. cbn [length].
    replace (length b2 + 1 + (length b + c))%nat with (length b2 + S (length b + c))%nat by lia. lia.
Qed.

Lemma print_step f p cs : situated (Print f p cs) -> advances (Print f p cs).
Proof using Type.
  intros H. destruct (last_inv _ H eq_refl) as [HP (H1 & H2 & Hn & H3 & HB & HR & Hp & Hcs)]. destruct cs as [|c cs]; [done|].
  pose proof (sit_rep _ H) as Hr. pose proof (sit_run _ H) as Hrun.
  erewrite (run_console _ _ _ _ _ (stage_there _ H) 1 [c]) in Hrun; [|reflexivity|by_parity]. injection Hrun as Hs'.
  unfold advances. rewrite <- Hs', HR, HP in *.
  assert (Hnext : forall ph', ph' = (match cs with [] => MkPipe f p | _ => Print f p cs end) ->
    rep mp (P1 ++ [ph']) (B1 ++ b :: B2) (out ++ [c]) s').
  { intros ph' Hph'. rewrite <- Hs'. eapply rep_stage; [exact Hr| |apply (rep_pipes _ _ _ _ _ Hr)| |done..].
    - cbn. f_equal. rewrite Hph'. by destruct cs.
    - cbn. by rewrite (rep_out _ _ _ _ _ Hr). }
  rewrite Hs'. exists (b :: B2), [match cs with [] => MkPipe f p | _ => Print f p cs end], (cs ++ lines (sieve (sift p (b ++ r)))), (out ++ [c]).
  split_and!; [by apply Hnext|done| |by rewrite <- app_assoc|].
  - constructor. destruct cs; by split_and!.
  - intros n. rewrite !length_app. cbn [mu length]. destruct cs; cbn [weight down length]; lia.
Qed.

(** *** Creating and ending *)

Lemma mkpipe_step f p : enough -> situated (MkPipe f p) -> advances (MkPipe f p).
Proof using Type.
  intros He H. destruct (last_inv _ H eq_refl) as [HP (H1 & H2 & Hn & H3 & HB & HR & Hp)].
  pose proof (sit_rep _ H) as Hr. pose proof (sit_len _ H) as Hlen. pose proof (sit_run _ H) as Hrun. rewrite HP, HB in Hr.
  destruct (rep_next _ _ _ _ _ Hr) as [Hn1 Hn2]; [left; exists (MkPipe f p); by rewrite last_snoc|].
  assert (Hid : s_nextpipe s = S k) by (rewrite Hn2, length_app, Hlen; cbn [length]; lia).
  erewrite (run_pipe _ _ _ _ _ (stage_there _ H) (cur (negb (Nat.even k))) 5) in Hrun;
    [|reflexivity|by_parity|by_parity|apply (pipe_room _ _ _ _ _ He Hr); rewrite length_app, Hlen; cbn [length todo] in *; lia].
  injection Hrun as Hs'. unfold advances. rewrite <- Hs', Hid. exists [b; []], [Fork f p], rem, out. split_and!; [|done| |done|].
  - eapply rep_put with (n := S k); [exact Hr|rewrite length_procs, length_app; cbn [length]; lia|apply procs_stage| | |apply (rep_out _ _ _ _ _ Hr)|].
    + cbn [s_procs resume put_proc set_procs]. f_equal. by_parity.
    + intros i. cbn [s_pipes resume put_proc set_procs].
      replace (B1 ++ [b; []]) with ((B1 ++ [b]) ++ [[]]) by by rewrite <- app_assoc.
      rewrite fmap_app. assert (Hl1 : length (enc <$> B1 ++ [b]) = S k) by (rewrite length_fmap, length_app, Hlen; cbn [length]; lia).
      destruct (decide (i = S k)) as [->|Hne].
      * rewrite lookup_insert_eq, lookup_app_r by lia. by rewrite Hl1, Nat.sub_diag.
      * rewrite lookup_insert_ne, (rep_pipes _ _ _ _ _ Hr) by done. destruct (decide (i < S k)%nat); [by rewrite lookup_app_l by lia|].
        rewrite lookup_ge_None_2 by lia. rewrite lookup_ge_None_2; [done|]. rewrite length_app. cbn [fmap list_fmap length]. lia.
    + intros _. split; [|rewrite length_app, Hlen; cbn; lia]. rewrite length_app in *. exact Hn1.
  - rewrite <- HB in *. constructor. rewrite HB. by split_and!.
  - intros c. rewrite HP, HB. cbn [mu weight down]. lia.
Qed.

Lemma fork_step f p : enough -> situated (Fork f p) -> advances (Fork f p).
Proof using Type.
  intros He H. destruct (last_inv _ H eq_refl) as [HP (H1 & H2 & Hn & H3 & HB & HR & Hp)].
  pose proof (sit_rep _ H) as Hr. pose proof (sit_len _ H) as Hlen. pose proof (sit_run _ H) as Hrun. rewrite HP, HB in Hr.
  destruct (rep_next _ _ _ _ _ Hr) as [Hn1 Hn2]; [left; exists (Fork f p); by rewrite last_snoc|].
  erewrite (run_fork _ _ _ _ _ (stage_there _ H)) in Hrun;
    [|reflexivity|apply (fork_room _ _ _ _ _ He Hr); rewrite length_app; cbn [length todo] in *; lia]. injection Hrun as Hs'.
  assert (Hpid : s_nextpid s = (m + S (S k))%nat) by (rewrite Hn1, length_app; cbn [length]; lia).
  unfold advances. rewrite <- Hs', Hpid.
  exists [b; []], [Close0 p; Child1 f], rem, out. split_and!; [|done| |done|].
  - assert (Hnz : Z.of_nat (m + S (S k)) =? 0 = false) by (apply Z.eqb_neq; lia).
    eapply rep_spawn with (n := S k); [exact Hr|rewrite length_procs, length_app; cbn [length]; lia| | |done|apply (rep_out _ _ _ _ _ Hr)| |].
    + replace (P1 ++ [Close0 p; Child1 f]) with ((P1 ++ [Close0 p]) ++ [Child1 f]) by by rewrite <- app_assoc.
      rewrite procs_snoc, (procs_stage mp P1 (Fork f p)). f_equal.
    + replace (length (P1 ++ [Fork f p])) with (S k) by (rewrite length_app; cbn [length]; lia).
      replace (length (P1 ++ [Close0 p])) with (S k) by (rewrite length_app; cbn [length]; lia).
      cbn [s_procs resume put_proc set_procs pbind fst snd]. f_equal; [|f_equal].
      * unfold stage_proc. destruct (Nat.even k); cbn [stage_code after_fork fork_ pbind call1 fst]; by rewrite Hnz.
      * unfold stage_proc. rewrite Nat.even_succ, <- Nat.negb_even. destruct (Nat.even k); reflexivity.
    + cbn. rewrite !length_app. cbn [length]. lia.
    + cbn. rewrite Hn2, !length_app. cbn [length]. lia.
  - assert (Hsl : (length (sift p (b ++ r)) <= length (b ++ r))%nat) by apply length_filter.
    apply chain_mid with (o' := true) (r' := sift p (b ++ r)); [by split_and!|]. constructor. cbn [app].
    split_and!; [|lia|cbn [todo] in *; lia|lia|done|done|lia]. rewrite Forall_forall in *. intros y [Hy _]%elem_of_sift. by apply H1.
  - intros c. rewrite HP, HB. cbn [mu weight down length]. rewrite Nat.add_0_l. lia.
Qed.

Lemma no_children i phs bufs s0 out0 : rep mp phs bufs out0 s0 -> (2 < m)%nat -> i = (m + length phs)%nat -> reparent i <$> s_procs s0 = s_procs s0.
Proof using Type.
  intros Hr Hm Hi. apply map_eq. intros x. rewrite lookup_fmap. destruct (s_procs s0 !! x) as [q|] eqn:E; [|done]. cbn. f_equal.
  destruct (rep_lookup_inv _ _ _ _ _ _ _ Hr E) as (n & -> & Hn). unfold reparent.
  destruct (Nat.eqb_spec (up_parent q) i) as [He|]; [|done]. exfalso. destruct n as [|n].
  - injection Hn as <-. destruct mp; cbn in He; lia.
  - change (imap stage_proc phs !! n = Some q) in Hn. rewrite list_lookup_imap in Hn. destruct (phs !! n) as [ph|] eqn:Eph; [|done].
    apply lookup_lt_Some in Eph. injection Hn as <-. destruct ph; cbn in He; lia.
Qed.

Lemma exit_step ph : (2 < m)%nat -> ph = Eof2 \/ ph = Exit -> situated ph -> advances ph.
Proof using Type.
  intros Hm Hph H.
  assert (HP : P2 = [] /\ last_ok k o (b ++ r) B2 ph rem) by (apply last_inv; [done|]; destruct Hph; by subst).
  destruct HP as [HP (H1 & H2 & Hn & Hl)]. pose proof (sit_rep _ H) as Hr. pose proof (sit_run _ H) as Hrun.
  assert (Hc : exists K, up_code (stage_proc k ph) = inl (Sys (SExit 0) K)) by (destruct Hph as [-> | ->]; by eexists).
  destruct Hc as [K Hc]. rewrite (run_call _ _ _ _ _ (stage_there _ H) _ Hc) in Hrun. injection Hrun as Hs'.
  eapply (advance_alone ph Zomb); [done| |done| |].
  - rewrite <- Hs'. unfold do_exit. rewrite (no_children _ _ _ _ _ Hr Hm) by (rewrite HP, length_app; cbn [length]; lia).
    unfold put_proc, set_procs. cbn. f_equal. f_equal. destruct Hph as [-> | ->]; done.
  - rewrite HP. constructor. split_and!; [done|done|destruct Hph as [-> | ->]; exact Hn|..]; destruct Hph as [-> | ->]; apply Hl.
  - intros n. destruct Hph as [-> | ->]; cbn; lia.
Qed.

Lemma wait_step : (2 < m)%nat -> situated Wait -> advances Wait.
Proof using Type.
  intros Hm H. destruct (mid_inv _ H eq_refl) as (o' & r' & [H1 (Ho & Hs & -> & ->)] & Hc).
  pose proof (sit_rep _ H) as Hr. pose proof (sit_run _ H) as Hrun.
  rewrite (run_call _ _ _ _ _ (stage_there _ H) SWait eq_refl) in Hrun.
  assert (exists ph2 P3, P2 = ph2 :: P3) as (ph2 & P3 & HP) by (inversion Hc; subst; by eexists _, _). rewrite HP in Hr, Hc.
  assert (Hk : (P1 ++ Wait :: ph2 :: P3) !! S k = Some ph2)
    by (rewrite lookup_app_r by lia; by replace (S k - k)%nat with 1%nat by lia).
  destruct (wait_inv _ _ _ _ _ _ _ _ _ (S k) ph2 Hm Hr Hk Hrun) as (_ & -> & Hs').
  assert (P3 = [] /\ rem = [] /\ (0 < g0)%nat /\ (S k <= length (sieve L))%nat) as (-> & Hrem & Hg & Hn).
  { inversion Hc as [? ? ? ? ? ? ? (_ & Hg & Hn & Hl)|? ? ? ? ? ? ? ? ? ? [_ Hl] ?]; subst; [|done].
    destruct Hl as (_ & _ & ->). cbn [todo] in Hn. split_and!; [done|done|lia|lia]. }
  unfold advances. rewrite Hs'. exists (b :: B2), [Exit], rem, out.
  assert (Hr' : rep mp (P1 ++ [Wait]) (B1 ++ b :: B2) out (set_procs (delete (m + S (S k))%nat (s_procs s)) s)).
  { replace (S k) with (length (P1 ++ [Wait])) by (rewrite length_app; cbn [length]; lia).
    apply (rep_reap _ _ Zomb); [by rewrite <- app_assoc|apply (sit_main _ H)|]. rewrite last_snoc. by intros ? [= <-]. }
  split_and!; [|done| |done|].
  - eapply rep_stage; [exact Hr'| |apply (rep_pipes _ _ _ _ _ Hr')|apply (rep_out _ _ _ _ _ Hr')|done..].
    cbn [s_procs resume put_proc set_procs]. f_equal.
  - constructor. rewrite Hs in *. split_and!; try done. cbn [todo]. lia.
  - intros c. rewrite HP. cbn [mu weight down]. destruct B2; cbn [mu]; lia.
Qed.
End Stage.

Lemma stage_step mp P1 P2 B1 B2 b out rem s s' j o r ph : (2 < m)%nat -> enough ->
  situated mp P1 P2 B1 B2 b out rem s s' j o r ph -> advances mp P1 P2 B1 B2 b out rem s' o r ph.
Proof using Type.
  intros Hm He H. destruct ph; eauto using childM_step, child1_step, child2_step, start_step, eof1_step, print_step, mkpipe_step,
    fork_step, close0_step, filter_step, send_step, close1_step, closecur_step, wait_step, exit_step.
  exfalso. pose proof (sit_run _ _ _ _ _ _ _ _ _ _ _ _ _ _ H) as Hrun. unfold run in Hrun.
  by rewrite (stage_there _ _ _ _ _ _ _ _ _ _ _ _ _ _ H) in Hrun.
Qed.

(** ** main *)

Definition mweight (mp : mphase) : nat :=
  match mp with
  | MPipe => 9 + length L + T (length L)
  | MFork => 8 + length L + T (length L)
  | MClose0 => 6 + length L
  | MFeed l => 4 + length l
  | MWait => 2 | MExit => 1 | MZomb => 0
  end.
Definition mdown (mp : mphase) : nat :=
  match mp with MClose0 => length L | MFeed l => length l | _ => 0 end.

(** [N] steps are left at most. *)
Definition Inv (N : nat) (s : sys) : Prop :=
  exists mp phs bufs out rem, rep mp phs bufs out s /\ main_ok mp bufs phs rem /\ out ++ rem = lines (sieve L) /\
    N = (mweight mp + mu (mdown mp) bufs phs + length rem)%nat.

Definition improves (N : nat) (s : sys) : Prop := exists N', (N' < N)%nat /\ Inv N' s.

Lemma inv_stage mp phs bufs out rem s s' k ph j : (2 < m)%nat -> enough ->
  rep mp phs bufs out s -> main_ok mp bufs phs rem -> out ++ rem = lines (sieve L) -> phs !! k = Some ph ->
  run (m + S k) j s = Some s' -> improves (mweight mp + mu (mdown mp) bufs phs + length rem) s'.
Proof using Type.
  intros Hm He Hr Hok Hout Hk Hrun. destruct (list_elem_of_split_length _ _ _ Hk) as (P1 & P2 & -> & ->).
  destruct (main_ok_stages _ _ _ _ Hok) as (o0 & r0 & Hup & Hcl); [by destruct P1|].
  apply (main_ok_up _ _ _ _ _ _ Hup) in Hok. destruct (chain_split _ _ _ _ _ _ _ _ Hok) as (B1 & b & B2 & o & r & -> & Hl & Hms & Hc).
  assert (Hsit : situated mp P1 P2 B1 B2 b out rem s s' j o r ph).
  { split; try done; [by eapply mids_closed|intros Hfr; by eapply writer_open|by destruct mp]. }
  destruct (stage_step _ _ _ _ _ _ _ _ _ _ _ _ _ _ Hm He Hsit) as (B' & P' & rem' & out' & Hr' & Hne & Hc' & Ho' & Hmu).
  eexists. split; [|exists mp, (P1 ++ P'), (B1 ++ B'), out', rem'; split_and!; [exact Hr'| |by rewrite Ho'|reflexivity]].
  - destruct (mu_prefix B1 P1 Hl (mdown mp)) as (a & c & Hmp). rewrite !Hmp. pose proof (Hmu c). lia.
  - apply (main_ok_up _ _ _ _ _ _ Hup). by eapply chain_join.
Qed.

Lemma main_there mp phs bufs out s : rep mp phs bufs out s -> s_procs s !! m = Some (main_proc mp).
Proof using Type. intros Hr. rewrite <- (Nat.add_0_r m). by eapply rep_lookup. Qed.

(** main changes its phase. *)
Lemma rep_main mp mp' phs bufs bufs' out s s' : rep mp phs bufs out s ->
  s_procs s' = <[m := main_proc mp']> (s_procs s) -> (forall i, s_pipes s' !! i = (enc <$> bufs') !! i) -> s_out s' = s_out s ->
  mcreates mp' = false -> length bufs' = length bufs -> s_nextpid s' = s_nextpid s -> s_nextpipe s' = s_nextpipe s ->
  rep mp' phs bufs' out s'.
Proof using Type.
  intros Hr Hs Hpi Ho Hc Hl H1 H2. eapply rep_put with (n := 0%nat); [exact Hr|rewrite length_procs; lia|apply procs_main|by rewrite Nat.add_0_r|done| |].
  - rewrite Ho. apply (rep_out _ _ _ _ _ Hr).
  - intros [Hph|]; [|congruence]. rewrite H1, H2, Hl. apply (rep_next _ _ _ _ _ Hr). by left.
Qed.

Section Main.
Context (phs : list phase) (bufs : list (list Z)) (out rem : list Z) (s s' : sys) (j : nat).

Record at_main (mp : mphase) : Prop := {
  am_pid : (2 < m)%nat;
  am_rep : rep mp phs bufs out s;
  am_ok : main_ok mp bufs phs rem;
  am_out : out ++ rem = lines (sieve L);
  am_run : run m j s = Some s';
}.

Definition main_advances (mp : mphase) : Prop := improves (mweight mp + mu (mdown mp) bufs phs + length rem) s'.

(** A step of main that leaves the stages alone. *)
Lemma main_alone mp mp' : at_main mp -> s' = put_proc m (main_proc mp') s -> mcreates mp' = false ->
  main_ok mp' bufs phs rem -> (mweight mp' < mweight mp)%nat -> (mdown mp' <= mdown mp)%nat -> main_advances mp.
Proof using Type.
  intros H Hs' Hc Hok Hw Hd. pose proof (am_rep _ H) as Hr. pose proof (mu_mono phs bufs _ _ Hd). eexists.
  split; [|exists mp', phs, bufs, out, rem; split_and!; [|done|apply (am_out _ H)|reflexivity]]; [lia|]. rewrite Hs'.
  eapply rep_main; [exact Hr|done|apply (rep_pipes _ _ _ _ _ Hr)|done..].
Qed.

Lemma main_close mp mp' fd f K : at_main mp ->
  up_code (main_proc mp) = inl (Sys (SClose fd) K) -> up_fds (main_proc mp) !! fd = Some f ->
  mk_uproc (delete fd (up_fds (main_proc mp))) 2 (inl (K (0, []))) = main_proc mp' -> up_parent (main_proc mp) = 2%nat ->
  mcreates mp' = false ->
  main_ok mp' bufs phs rem -> (mweight mp' < mweight mp)%nat -> (mdown mp' <= mdown mp)%nat -> main_advances mp.
Proof using Type.
  intros H Hc Hf Hq Hp. apply main_alone; [done|]. pose proof (am_run _ H) as Hrun.
  rewrite (run_close _ _ _ _ _ (main_there _ _ _ _ _ (am_rep _ H)) _ _ Hc Hf) in Hrun. injection Hrun as <-.
  unfold resume. by rewrite Hp, Hq.
Qed.

Lemma close0_main : at_main MClose0 -> main_advances MClose0.
Proof using Type. intros H. eapply (main_close MClose0 (MFeed L) 3); [done|reflexivity..|exact (am_ok _ H)|cbn; lia|done]. Qed.

Lemma fed_main : at_main (MFeed []) -> main_advances (MFeed []).
Proof using Type.
  intros H. eapply (main_close (MFeed []) MWait 4); [done|reflexivity..|apply chain_close, (am_ok _ H)|cbn; lia|done].
Qed.

Lemma exit_main : at_main MExit -> main_advances MExit.
Proof using Type.
  intros H. pose proof (am_run _ H) as Hrun. rewrite (run_call _ _ _ _ _ (main_there _ _ _ _ _ (am_rep _ H)) (SExit 0) eq_refl) in Hrun.
  injection Hrun as Hs'. apply (main_alone MExit MZomb); [done| |done|exact (am_ok _ H)|cbn; lia|done]. rewrite <- Hs'. unfold do_exit.
  destruct (am_ok _ H) as [Hphs _]. pose proof (am_rep _ H) as Hr.
  rewrite (no_children MExit _ _ _ _ _ Hr (am_pid _ H)) by (rewrite Hphs; cbn; lia). done.
Qed.

Lemma feed_main x l : at_main (MFeed (x :: l)) -> main_advances (MFeed (x :: l)).
Proof using Type.
  intros H. pose proof (am_run _ H) as Hrun. pose proof (am_rep _ H) as Hr. pose proof (am_ok _ H) as Hok. cbn in Hok.
  assert (exists ph P b B, phs = ph :: P /\ bufs = b :: B) as (ph & P & b & B & HP & HB) by (inversion Hok; subst; by eexists _, _, _, _).
  assert (Hop : is_open (R 0) s).
  { apply (open_iff _ _ _ _ _ _ Hr); [done|]. right. exists 0%nat, ph. rewrite HP in *. split; [done|]. by eapply head_reads. }
  assert (Hd : forall i, s_pipes s !! i = (enc <$> ([] ++ b :: B)) !! i) by (rewrite <- HB; apply (rep_pipes _ _ _ _ _ Hr)).
  erewrite (run_write _ _ _ _ _ (main_there _ _ _ _ _ Hr) 4 (le_bytes 4 x) 0 (enc b)) in Hrun;
    [|reflexivity|reflexivity|by apply (pipe_at _ [] b B)|done|done|rewrite length_enc, length_le_bytes; apply room_ok].
  destruct (_ <=? _)%nat; [done|]. injection Hrun as Hs'. eexists.
  split; [|exists (MFeed l), phs, ((b ++ [x]) :: B), out, rem; split_and!; [| |apply (am_out _ H)|reflexivity]].
  - rewrite HP, HB. cbn [mu mweight mdown length]. rewrite length_app. cbn [length].
    replace (length b + 1 + length l)%nat with (length b + S (length l))%nat by lia. lia.
  - rewrite <- Hs'. eapply rep_main; [exact Hr|reflexivity| |done|done|by rewrite HB|done..].
    intros i. change (<[0%nat := enc b ++ le_bytes 4 x]> (s_pipes s) !! i = (enc <$> (b ++ [x]) :: B) !! i).
    rewrite <- enc_snoc. exact (pipes_set _ [] b (b ++ [x]) B Hd i).
  - cbn. apply chain_push. by rewrite <- HB.
Qed.

Lemma wait_main : at_main MWait -> main_advances MWait.
Proof using Type.
  intros H. pose proof (am_run _ H) as Hrun. pose proof (am_rep _ H) as Hr. pose proof (am_ok _ H) as Hok. cbn in Hok.
  assert (exists ph P, phs = ph :: P) as (ph & P & HP) by (inversion Hok; subst; by eexists _, _). rewrite HP in *.
  rewrite (run_call _ _ _ _ _ (main_there _ _ _ _ _ Hr) SWait eq_refl) in Hrun. rewrite <- (Nat.add_0_r m) in Hrun at 1.
  destruct (wait_inv _ _ _ _ _ _ _ _ _ 0 ph (am_pid _ H) Hr eq_refl Hrun) as (-> & -> & Hs'). rewrite Nat.add_0_r in Hs'.
  assert (P = [] /\ rem = []) as [-> Hrem].
  { inversion Hok as [? ? ? ? ? ? ? (_ & _ & _ & Hl)|? ? ? ? ? ? ? ? ? ? [_ Hl] ?]; subst; [|done]. by destruct Hl as (_ & _ & ->). }
  pose proof (rep_reap _ [] _ _ _ _ Hr eq_refl ltac:(done)) as Hr'. eexists.
  split; [|exists MExit, [], bufs, out, rem; split_and!; [| |apply (am_out _ H)|reflexivity]].
  - assert (mu (mdown MExit) bufs [] = 0%nat) as -> by by destruct bufs. cbn [mweight]. lia.
  - rewrite Hs'. eapply rep_main; [exact Hr'|reflexivity|apply (rep_pipes _ _ _ _ _ Hr')|done..].
  - done.
Qed.

Lemma pipe_main : enough -> at_main MPipe -> main_advances MPipe.
Proof using Type.
  intros He H. pose proof (am_run _ H) as Hrun. pose proof (am_rep _ H) as Hr. destruct (am_ok _ H) as (HP & HB & HR). rewrite HP, HB in *.
  destruct (rep_next _ _ _ _ _ Hr (or_intror eq_refl)) as [Hn1 Hn2].
  erewrite (run_pipe _ _ _ _ _ (main_there _ _ _ _ _ Hr) 3 4) in Hrun; [|reflexivity..|apply (pipe_room _ _ _ _ _ He Hr); cbn; lia]. rewrite Hn2 in Hrun. injection Hrun as Hs'.
  eexists. split; [|exists MFork, [], [[]], out, rem; split_and!; [| |apply (am_out _ H)|reflexivity]]; [cbn; lia| |done].
  rewrite <- Hs'. eapply rep_put with (n := 0%nat);
    [exact Hr|cbn; lia|apply procs_main|by rewrite Nat.add_0_r| |apply (rep_out _ _ _ _ _ Hr)|by split].
  intros [|i]; [apply lookup_insert_eq|]. cbn [s_pipes resume put_proc set_procs length]. rewrite lookup_insert_ne by done.
  rewrite (rep_pipes _ _ _ _ _ Hr). done.
Qed.

Lemma fork_main : enough -> Forall good L -> (length L < f0)%nat -> (length L < g0)%nat -> at_main MFork -> main_advances MFork.
Proof using Type.
  intros He HL Hf Hg H. pose proof (am_run _ H) as Hrun. pose proof (am_rep _ H) as Hr. destruct (am_ok _ H) as (HP & HB & HR). rewrite HP, HB in *.
  destruct (rep_next _ _ _ _ _ Hr (or_intror eq_refl)) as [Hn1 Hn2].
  erewrite (run_fork _ _ _ _ _ (main_there _ _ _ _ _ Hr)) in Hrun; [|reflexivity|apply (fork_room _ _ _ _ _ He Hr); cbn; lia].
  injection Hrun as Hs'. rewrite Hn1 in Hs'. cbn [length] in *.
  assert (Hnz : Z.of_nat (m + 1) =? 0 = false) by (apply Z.eqb_neq; lia).
  eexists. split; [|exists MClose0, [ChildM f0], [[]], out, rem; split_and!; [| |apply (am_out _ H)|reflexivity]].
  - cbn [mu mweight mdown weight down length]. rewrite Nat.add_0_l. lia.
  - rewrite <- Hs'. eapply rep_spawn with (n := 0%nat) (p := main_proc MClose0) (q := stage_proc 0 (ChildM f0));
      [exact Hr|cbn; lia|done| |done|apply (rep_out _ _ _ _ _ Hr)|cbn; lia|done].
    rewrite Nat.add_0_r. cbn [s_procs resume put_proc set_procs length pbind]. f_equal; [|f_equal].
    + cbn [main_proc main_code fork_ pbind call1 fst]. by rewrite Hnz.
    + cbn [stage_proc]. by rewrite Nat.add_0_r.
  - constructor. cbn [app]. split_and!; [done|done|cbn [todo]; lia|done|done|done|done].
Qed.
End Main.

(** ** Every step is a step forward *)

Context (Hm : (2 < m)%nat) (He : enough) (HL : Forall good L) (Hf : (length L < f0)%nat) (Hg : (length L < g0)%nat).

Lemma inv_main mp phs bufs out rem s s' j :
  rep mp phs bufs out s -> main_ok mp bufs phs rem -> out ++ rem = lines (sieve L) -> run m j s = Some s' ->
  improves (mweight mp + mu (mdown mp) bufs phs + length rem) s'.
Proof using Hm He HL Hf Hg.
  intros Hr Hok Hout Hrun. assert (H : at_main phs bufs out rem s s' j mp) by by split.
  change (main_advances phs bufs rem s' mp). destruct mp as [| | |[|x l]| | |]; eauto using pipe_main, fork_main, close0_main, fed_main,
    feed_main, wait_main, exit_main.
  unfold run in Hrun. by rewrite (main_there _ _ _ _ _ Hr) in Hrun.
Qed.

Lemma inv_step N s s' : Inv N s -> step s s' -> improves N s'.
Proof using Hm He HL Hf Hg.
  intros (mp & phs & bufs & out & rem & Hr & Hok & Hout & ->) Hst. inversion Hst as [i j ? ? Hrun]; subst.
  destruct (s_procs s !! i) as [p|] eqn:Ei; [|unfold run in Hrun; by rewrite Ei in Hrun].
  destruct (rep_lookup_inv _ _ _ _ _ _ _ Hr Ei) as (n & -> & Hn). destruct n as [|k].
  - rewrite Nat.add_0_r in Hrun. by eapply inv_main.
  - change (imap stage_proc phs !! k = Some p) in Hn. rewrite list_lookup_imap in Hn.
    destruct (phs !! k) as [ph|] eqn:Hk; [|done]. by eapply inv_stage.
Qed.

Lemma inv_boot : exists N, Inv N (boot m (primes_main f0 g0 junk L)).
Proof using Hm He HL Hf Hg.
  eexists. exists MPipe, [], [], [], (lines (sieve L)). split_and!; [|done|done|reflexivity]. split; [|done|done|intros _; cbn; lia].
  intros i. cbn [boot s_procs]. destruct (decide (i = m)) as [->|Hne].
  - rewrite lookup_singleton_eq, Nat.ltb_irrefl, Nat.sub_diag. done.
  - rewrite lookup_singleton_ne by done. destruct (Nat.ltb_spec i m); [done|]. rewrite lookup_ge_None_2; [done|cbn; lia].
Qed.

Lemma inv_steps n N s s' : Inv N s -> nsteps step n s s' -> exists N', (n + N' <= N)%nat /\ Inv N' s'.
Proof using Hm He HL Hf Hg.
  intros Hi Hs. revert N Hi. induction Hs as [s|n s s1 s2 H1 _ IH]; intros N Hi; [by exists N|].
  destruct (inv_step _ _ _ Hi H1) as (N1 & Hlt & Hi1). destruct (IH _ Hi1) as (N2 & Hle & Hi2). exists N2. split; [lia|done].
Qed.

(** ** Nobody waits for ever *)

Definition can_step (s : sys) : Prop := exists s', step s s'.

Lemma can_run i j s : run i j s <> None -> can_step s.
Proof using Hm He HL Hf Hg. destruct (run i j s) as [s'|] eqn:E; [|done]. intros _. exists s'. by econstructor. Qed.

Lemma mids_snoc o r B P o1 r1 b ph o2 r2 : mids o r B P o1 r1 -> mid_ok o1 (b ++ r1) ph o2 r2 -> mids o r (B ++ [b]) (P ++ [ph]) o2 r2.
Proof using Hm He HL Hf Hg. induction 1; intros Hm'; cbn; econstructor; eauto. constructor. Qed.

(** The first of a part of the stages is a zombie, or wants to read what is
    not there yet. *)
Definition idle (o : bool) (bufs : list (list Z)) (phs : list phase) : Prop :=
  head phs = Some Zomb \/ (o = true /\ head bufs = Some []).

Section Progress.
Context (mp : mphase) (out : list Z) (s : sys) (o0 : bool) (r0 : list Z) (Hup : main_up mp = Some (o0, r0)).

Lemma read_progress P1 ph P2 B1 b B2 o r K : rep mp (P1 ++ ph :: P2) (B1 ++ b :: B2) out s -> length B1 = length P1 ->
  mids o0 r0 B1 P1 o r -> fresh ph = false ->
  up_code (stage_proc (length P1) ph) = inl (Sys (SRead (cur (Nat.even (length P1))) 4) K) ->
  up_fds (stage_proc (length P1) ph) !! cur (Nat.even (length P1)) = Some (R (length P1)) ->
  can_step s \/ (o = true /\ b = []).
Proof using Hup Hm He HL Hf Hg.
  intros Hr Hl Hms Hfr Hc Hfd. pose proof (writer_open _ _ _ _ _ _ _ _ _ _ _ _ Hr Hup Hms Hfr) as Ho.
  assert (Hd : s_pipes s !! length P1 = Some (enc b)) by (rewrite <- Hl; apply (pipe_at _ B1 b B2), (rep_pipes _ _ _ _ _ Hr)).
  pose proof (rep_lookup _ _ _ _ _ _ _ Hr (procs_lookup mp P1 ph P2)) as Hp.
  pose proof (run_read _ 0 _ _ _ Hp _ _ _ _ Hc Hfd Hd) as Hrun.
  destruct b as [|x b]; [destruct o; [by right|]|]; left; eapply (can_run _ 0); rewrite Hrun; cbn; [|done].
  rewrite bool_decide_eq_false_2; [done|]. intros Hop. by apply Ho in Hop.
Qed.

Lemma wait_progress i j p K q fds st : s_procs s !! i = Some p -> up_code p = inl (Sys SWait K) ->
  s_procs s !! j = Some q -> q = mk_uproc fds i (inr st) -> can_step s.
Proof using Hup Hm He HL Hf Hg.
  intros Hp Hc Hj ->. apply (can_run i j). rewrite (run_call _ _ _ _ _ Hp _ Hc). unfold do_wait. by rewrite Hj, Nat.eqb_refl.
Qed.

Lemma send_progress P1 p x g P2 B1 b B2 r rem : rep mp (P1 ++ Send p x g :: P2) (B1 ++ b :: B2) out s -> length B1 = length P1 ->
  chain (S (length P1)) true r B2 P2 rem -> idle true B2 P2 -> can_step s.
Proof using Hup Hm He HL Hf Hg.
  intros Hr Hl Hc Hidle.
  assert (exists ph2 P3 b2 B3, P2 = ph2 :: P3 /\ B2 = b2 :: B3) as (ph2 & P3 & b2 & B3 & -> & ->) by (inversion Hc; subst; by eexists _, _, _, _).
  destruct Hidle as [[= ->]|[_ [= ->]]].
  { exfalso. inversion Hc as [? ? ? ? ? ? ? (_ & _ & _ & Hl1)|? ? ? ? ? ? ? ? ? ? [_ Hl1] ?]; subst; [|done]. by destruct Hl1. }
  assert (Hop : is_open (R (S (length P1))) s).
  { apply (open_iff _ _ _ _ _ _ Hr); [done|]. right. exists (S (length P1)), ph2. split; [|by eapply head_reads].
    rewrite lookup_app_r by lia. by replace (S (length P1) - length P1)%nat with 1%nat by lia. }
  assert (Hd : s_pipes s !! S (length P1) = Some (enc [])).
  { replace (S (length P1)) with (length (B1 ++ [b])) by (rewrite length_app; cbn; lia). apply (pipe_at _ (B1 ++ [b]) [] B3).
    intros i. rewrite <- app_assoc. apply (rep_pipes _ _ _ _ _ Hr). }
  apply (can_run (m + S (length P1)) 0).
  erewrite (run_write _ _ _ _ _ (rep_lookup _ _ _ _ _ _ _ Hr (procs_lookup mp P1 _ _)) 5 (le_bytes 4 x) (S (length P1)) (enc []));
    [done|reflexivity| |done|done|done|rewrite length_enc, length_le_bytes; apply room_ok].
  unfold stage_proc. destruct (Nat.even (length P1)); reflexivity.
Qed.

Ltac goes Hp := left; eapply (can_run _ 0); rewrite (run_call _ _ _ _ _ Hp _ eq_refl); try done.

Lemma stage_progress P : forall P1 B1 B o r rem, rep mp (P1 ++ P) (B1 ++ B) out s -> length B1 = length P1 ->
  mids o0 r0 B1 P1 o r -> chain (length P1) o r B P rem -> can_step s \/ idle o B P.
Proof using Hup Hm He HL Hf Hg.
  induction P as [|ph P2 IH]; intros P1 B1 B o r rem Hr Hl Hms Hc; [by inversion Hc|].
  pose proof (rep_lookup _ _ _ _ _ _ _ Hr (procs_lookup mp P1 ph P2)) as Hp.
  inversion Hc as [? ? ? b B2 ? ? (H1 & H2 & Hn & Hl1)|? ? ? b B2 ? ? ? o' r' [H1 Hl1] Hc2]; subst.
  - destruct ph as [f|f|f|[|f]| | |f p [|c cs]|f p|f p|p|p g num|p x g| | | | |]; try (by destruct Hl1; lia); try (by goes Hp); try (by right; left).
    + destruct (read_progress P1 (Start (S f)) [] B1 b B2 o r _ Hr Hl Hms eq_refl eq_refl) as [?|[-> ->]]; [|by left|by right; right].
      unfold stage_proc. destruct (Nat.even (length P1)); reflexivity.
    + goes Hp. unfold do_write. cbn. destruct (Nat.even (length P1)); done.
  - assert (IH2 : can_step s \/ idle o' B2 P2).
    { apply (IH (P1 ++ [ph]) (B1 ++ [b]) B2 o' r' rem); [by rewrite <- !app_assoc|rewrite !length_app, Hl; done| |].
      - by eapply mids_snoc.
      - rewrite length_app, Nat.add_1_r. done. }
    destruct IH2 as [?|Hidle]; [by left|].
    destruct ph as [f|f|f|f| | |f p cs|f p|f p|p|p [|g] num|p x g| | | | |]; try (by destruct Hl1); try (by goes Hp).
    + by destruct Hl1 as (_ & ? & _); lia.
    + destruct (read_progress P1 (Filter p (S g) num) P2 B1 b B2 o r _ Hr Hl Hms eq_refl eq_refl) as [?|[-> ->]]; [|by left|by right; right].
      unfold stage_proc. destruct (Nat.even (length P1)); reflexivity.
    + destruct Hl1 as (_ & _ & -> & ->). left. by eapply send_progress.
    + destruct Hl1 as (_ & _ & -> & ->). left. destruct Hidle as [Hz|[? _]]; [|done]. destruct P2 as [|z P2]; [done|]. injection Hz as ->.
      replace (P1 ++ Wait :: Zomb :: P2) with ((P1 ++ [Wait]) ++ Zomb :: P2) in Hr by by rewrite <- app_assoc.
      eapply wait_progress; [exact Hp|reflexivity|exact (rep_lookup _ _ _ _ _ _ _ Hr (procs_lookup mp (P1 ++ [Wait]) Zomb P2))|].
      rewrite length_app. cbn [stage_proc length]. by rewrite Nat.add_1_r.
Qed.
End Progress.

Lemma main_progress mp phs bufs out rem s : rep mp phs bufs out s -> main_ok mp bufs phs rem -> mp = MZomb \/ can_step s.
Proof using Hm He HL Hf Hg.
  intros Hr Hok. pose proof (main_there _ _ _ _ _ Hr) as Hp.
  assert (Hst : forall o r, main_up mp = Some (o, r) -> can_step s \/ idle o bufs phs).
  { intros o r Hup. apply (stage_progress mp out s o r Hup phs [] [] bufs o r rem Hr eq_refl); [constructor|].
    by apply (main_ok_up _ _ _ _ _ _ Hup). }
  destruct mp as [| | |[|x l]| | |]; try (by left); right; try (by eapply (can_run m 0); rewrite (run_call _ _ _ _ _ Hp _ eq_refl)).
  - destruct (Hst _ _ eq_refl) as [?|Hidle]; [done|]. cbn in Hok.
    assert (exists ph P b B, phs = ph :: P /\ bufs = b :: B) as (ph & P & b & B & -> & ->) by (inversion Hok; subst; by eexists _, _, _, _).
    destruct Hidle as [[= ->]|[_ [= ->]]].
    { exfalso. inversion Hok as [? ? ? ? ? ? ? (_ & _ & _ & Hl1)|? ? ? ? ? ? ? ? ? ? [_ Hl1] ?]; subst; [|done]. by destruct Hl1. }
    assert (Hop : is_open (R 0) s).
    { apply (open_iff _ _ _ _ _ _ Hr); [done|]. right. exists 0%nat, ph. split; [done|]. by eapply head_reads. }
    apply (can_run m 0). erewrite (run_write _ _ _ _ _ Hp 4 (le_bytes 4 x) 0 (enc []));
      [done|reflexivity|reflexivity| |done|done|rewrite length_enc, length_le_bytes; apply room_ok].
    apply (pipe_at _ [] [] B), (rep_pipes _ _ _ _ _ Hr).
  - destruct (Hst _ _ eq_refl) as [?|[Hz|[? _]]]; [done| |done]. destruct phs as [|z P]; [done|]. injection Hz as ->.
    eapply (wait_progress MWait s false [] eq_refl); [exact Hp|reflexivity|exact (rep_lookup _ _ _ _ _ 1 _ Hr eq_refl)|].
    cbn [stage_proc]. by rewrite Nat.add_0_r.
Qed.

(** The whole system, seen through the invariant. *)
Lemma primes_run n s : nsteps step n (boot m (primes_main f0 g0 junk L)) s ->
  exists mp phs bufs rem, rep mp phs bufs (s_out s) s /\ main_ok mp bufs phs rem /\ s_out s ++ rem = lines (sieve L).
Proof using Hm He HL Hf Hg.
  intros Hs. destruct inv_boot as [N Hi]. destruct (inv_steps _ _ _ _ Hi Hs) as (N' & _ & mp & phs & bufs & out & rem & Hr & Hok & Hout & _).
  exists mp, phs, bufs, rem. rewrite (rep_out _ _ _ _ _ Hr). done.
Qed.

Lemma primes_stopped n s : nsteps step n (boot m (primes_main f0 g0 junk L)) s -> ~ can_step s ->
  s_out s = lines (sieve L) /\ s_procs s = {[m := mk_uproc ∅ 2 (inr 0)]}.
Proof using Hm He HL Hf Hg.
  intros Hs Hstop. destruct (primes_run _ _ Hs) as (mp & phs & bufs & rem & Hr & Hok & Hout).
  destruct (main_progress _ _ _ _ _ _ Hr Hok) as [->|]; [|done]. destruct Hok as [-> ->]. rewrite app_nil_r in Hout. split; [done|].
  apply map_eq. intros i. rewrite (rep_procs _ _ _ _ _ Hr). destruct (decide (i = m)) as [->|Hne].
  - by rewrite lookup_singleton_eq, Nat.ltb_irrefl, Nat.sub_diag.
  - rewrite lookup_singleton_ne by done. destruct (Nat.ltb_spec i m); [done|]. rewrite lookup_ge_None_2; [done|cbn; lia].
Qed.
End Chain.

(** The sieve, with the number of steps bounded. *)
Fixpoint sieve_in (n : nat) (l : list Z) : list Z :=
  match n, l with
  | S n, p :: l => p :: sieve_in n (sift p l)
  | _, _ => []
  end.

Lemma sieve_in_sieve n : forall l, (length l <= n)%nat -> sieve_in n l = sieve l.
Proof.
  induction n as [|n IH]; intros [|p l] Hl; cbn [length sieve_in] in *; simp sieve; [done|lia|done|].
  f_equal. apply IH. unfold sift. pose proof (length_filter (fun x => Z.rem x p <> 0) l). lia.
Qed.

Lemma primes_count : length (sieve primes_numbers) = 59%nat.
Proof. rewrite <- (sieve_in_sieve 279) by (unfold primes_numbers; rewrite length_seqZ; lia). vm_compute. reflexivity. Qed.


Definition ample : limits := mk_limits 128 62.

