(* ===== verification/UPingpong.v ===== *)
(** user/pingpong.c, over the processes and pipes of UProc.v: under every
    interleaving of parent and child. *)

From stdpp Require Import base numbers list gmap strings fin_maps.
From S2P Require Import Prelude Params Mem Digits Pipe User UPrintf UText UProc UPrimes.
Open Scope prog_scope.

(** ** The program *)

(** [junk] is what the child's variable mess holds before it is read. *)
Definition child_body (junk one0 one1 two0 two1 : Z) : prog unit :=
  close one1 ;;
  do r <- read one0 1;
  let mess := nth 0 r.2 junk in
  do pid <- getpid;
  printf_ (bytes_of "%d: received ping" ++ [10]) [AInt pid] ;;
  close one0 ;;
  close two0 ;;
  write two1 [mess] ;;
  close two1 ;;
  Done tt.

Definition parent_body (one0 one1 two0 two1 : Z) : prog unit :=
  let mess := 84 in
  close one0 ;;
  write one1 [mess] ;;
  close one1 ;;
  close two1 ;;
  read two0 1 ;;
  do pid <- getpid;
  printf_ (bytes_of "%d: received pong" ++ [10]) [AInt pid] ;;
  close two0 ;;
  wait_ ;;
  Done tt.

Definition pingpong_main (junk : Z) : prog unit :=
  do one <- pipe_;
  do two <- pipe_;
  if (one.1 =? -1) || (two.1 =? -1) then
    printf_ (bytes_of "Cannot create pipe! - Error: pipe() function failed!") [] ;;
    exit_ 1
  else
    let one0 := nth 0 one.2 0 in
    let one1 := nth 1 one.2 0 in
    let two0 := nth 0 two.2 0 in
    let two1 := nth 1 two.2 0 in
    do pid <- fork_;
    if pid <? 0 then
      printf_ (bytes_of "Cannot create process! - Error: fork() function failed!") [] ;;
      exit_ 1
    else
      (if pid =? 0 then child_body junk one0 one1 two0 two1
       else parent_body one0 one1 two0 two1) ;;
      exit_ 0.

(** ** Where the two processes stand *)

Section PingPong.
Context {lim : limits} (m : nat) (junk : Z) (Hm : (2 < m)%nat) (Hmax : Z.of_nat (S m) < 2 ^ 31).

Definition ping : list Z := decimal (Z.of_nat (S m)) ++ bytes_of ": received ping" ++ [10].
Definition pong : list Z := decimal (Z.of_nat m) ++ bytes_of ": received pong" ++ [10].

(** The next call of the parent, of the child; what they print is split into
    what is out and what is left. *)
Inductive parent_at :=
| PPipe1 | PPipe2 | PFork | PClose3 | PWrite | PClose4 | PClose6 | PRead | PPid
| PPrint (out left : list Z) | PClose5 | PWait | PExit | PZomb.
Inductive child_at :=
| CNone | CClose4 | CRead | CPid | CPrint (out left : list Z) | CClose3 | CClose5 | CWrite | CClose6 | CExit | CZomb | CGone.

Definition puts (l : list Z) : prog unit := writes ((fun c => (1, [c])) <$> l).

Definition c_code (c : child_at) : prog unit :=
  match c with
  | CClose4 => child_body junk 3 4 5 6
  | CRead =>
      do r <- read 3 1;
      let mess := nth 0 r.2 junk in
      do pid <- getpid;
      printf_ (bytes_of "%d: received ping" ++ [10]) [AInt pid] ;;
      close 3 ;; close 5 ;; write 6 [mess] ;; close 6 ;; Done tt
  | CPid =>
      do pid <- getpid;
      printf_ (bytes_of "%d: received ping" ++ [10]) [AInt pid] ;;
      close 3 ;; close 5 ;; write 6 [84] ;; close 6 ;; Done tt
  | CPrint _ l => puts l ;; close 3 ;; close 5 ;; write 6 [84] ;; close 6 ;; Done tt
  | CClose3 => close 3 ;; close 5 ;; write 6 [84] ;; close 6 ;; Done tt
  | CClose5 => close 5 ;; write 6 [84] ;; close 6 ;; Done tt
  | CWrite => write 6 [84] ;; close 6 ;; Done tt
  | CClose6 => close 6 ;; Done tt
  | _ => Done tt
  end.

Definition p_code (p : parent_at) : prog unit :=
  match p with
  | PClose3 => parent_body 3 4 5 6
  | PWrite => write 4 [84] ;; close 4 ;; close 6 ;; read 5 1 ;;
      do pid <- getpid; printf_ (bytes_of "%d: received pong" ++ [10]) [AInt pid] ;; close 5 ;; wait_ ;; Done tt
  | PClose4 => close 4 ;; close 6 ;; read 5 1 ;;
      do pid <- getpid; printf_ (bytes_of "%d: received pong" ++ [10]) [AInt pid] ;; close 5 ;; wait_ ;; Done tt
  | PClose6 => close 6 ;; read 5 1 ;;
      do pid <- getpid; printf_ (bytes_of "%d: received pong" ++ [10]) [AInt pid] ;; close 5 ;; wait_ ;; Done tt
  | PRead => read 5 1 ;;
      do pid <- getpid; printf_ (bytes_of "%d: received pong" ++ [10]) [AInt pid] ;; close 5 ;; wait_ ;; Done tt
  | PPid => do pid <- getpid; printf_ (bytes_of "%d: received pong" ++ [10]) [AInt pid] ;; close 5 ;; wait_ ;; Done tt
  | PPrint _ l => puts l ;; close 5 ;; wait_ ;; Done tt
  | PClose5 => close 5 ;; wait_ ;; Done tt
  | PWait => wait_ ;; Done tt
  | _ => Done tt
  end.

(** The descriptors: 3 and 4 are the first pipe's, 5 and 6 the second's. *)
Definition R (id : nat) : file := PipeEnd id false.
Definition W (id : nat) : file := PipeEnd id true.

Definition c_ends (c : child_at) : list (Z * file) :=
  match c with
  | CClose4 => [(3, R 0); (4, W 0); (5, R 1); (6, W 1)]
  | CRead | CPid | CPrint _ _ | CClose3 => [(3, R 0); (5, R 1); (6, W 1)]
  | CClose5 => [(5, R 1); (6, W 1)]
  | CWrite | CClose6 => [(6, W 1)]
  | _ => []
  end.
Definition p_ends (p : parent_at) : list (Z * file) :=
  match p with
  | PPipe2 => [(3, R 0); (4, W 0)]
  | PFork | PClose3 => [(3, R 0); (4, W 0); (5, R 1); (6, W 1)]
  | PWrite | PClose4 => [(4, W 0); (5, R 1); (6, W 1)]
  | PClose6 => [(5, R 1); (6, W 1)]
  | PRead | PPid | PPrint _ _ | PClose5 => [(5, R 1)]
  | _ => []
  end.

(** ** The states *)

Definition fds_of (l : list (Z * file)) : gmap Z file := list_to_map ([(0, Console); (1, Console); (2, Console)] ++ l).

Definition next (q : prog unit) (r : reply) : prog unit := match q with Sys _ k => k r | _ => q end.

Definition p_prog (p : parent_at) : prog unit :=
  match p with
  | PPipe1 => pingpong_main junk
  | PPipe2 => next (pingpong_main junk) (0, [3; 4])
  | PFork => next (next (pingpong_main junk) (0, [3; 4])) (0, [5; 6])
  | _ => p_code p ;; exit_ 0
  end.

Definition pproc (p : parent_at) : proc :=
  match p with
  | PZomb => mk_uproc ∅ 2 (inr 0)
  | _ => mk_uproc (fds_of (p_ends p)) 2 (inl (p_prog p))
  end.
Definition cproc (c : child_at) : proc :=
  match c with
  | CZomb => mk_uproc ∅ m (inr 0)
  | _ => mk_uproc (fds_of (c_ends c)) m (inl (c_code c ;; exit_ 0))
  end.

Definition children (c : child_at) : gmap nat proc :=
  match c with CNone | CGone => ∅ | _ => {[S m := cproc c]} end.

(** The message is in the first pipe, in the second. *)
Definition sent1 (p : parent_at) : bool := match p with PPipe1 | PPipe2 | PFork | PClose3 | PWrite => false | _ => true end.
Definition got1 (c : child_at) : bool := match c with CNone | CClose4 | CRead => false | _ => true end.
Definition sent2 (c : child_at) : bool := match c with CClose6 | CExit | CZomb | CGone => true | _ => false end.
Definition got2 (p : parent_at) : bool :=
  match p with PPid | PPrint _ _ | PClose5 | PWait | PExit | PZomb => true | _ => false end.

Definition pipes (p : parent_at) (c : child_at) : gmap nat (list Z) :=
  match p with
  | PPipe1 => ∅
  | PPipe2 => {[0%nat := []]}
  | _ => <[1%nat := if sent2 c && negb (got2 p) then [84] else []]> {[0%nat := if sent1 p && negb (got1 c) then [84] else []]}
  end.

Definition c_out (c : child_at) : list Z :=
  match c with CNone | CClose4 | CRead | CPid => [] | CPrint o _ => o | _ => ping end.
Definition p_out (p : parent_at) : list Z :=
  match p with PPrint o _ => o | PClose5 | PWait | PExit | PZomb => pong | _ => [] end.

Definition npid (c : child_at) : nat := match c with CNone => S m | _ => S (S m) end.
Definition npipe (p : parent_at) : nat := match p with PPipe1 => 0 | PPipe2 => 1 | _ => 2 end.

Definition st (p : parent_at) (c : child_at) : sys :=
  mk_sys (<[m := pproc p]> (children c)) (pipes p c) (c_out c ++ p_out p) (npid c) (npipe p).

(** Which positions go together. *)
Definition p_ok (p : parent_at) : Prop := match p with PPrint o l => o ++ l = pong /\ l <> [] | _ => True end.
Definition c_ok (c : child_at) : Prop := match c with CPrint o l => o ++ l = ping /\ l <> [] | _ => True end.
Definition together (p : parent_at) (c : child_at) : bool :=
  match p with
  | PPipe1 | PPipe2 | PFork => match c with CNone => true | _ => false end
  | PClose3 | PWrite => match c with CClose4 | CRead => true | _ => false end
  | PClose4 | PClose6 | PRead => match c with CNone | CGone => false | _ => true end
  | PPid | PPrint _ _ | PClose5 | PWait => match c with CClose6 | CExit | CZomb => true | _ => false end
  | PExit | PZomb => match c with CGone => true | _ => false end
  end.
Definition ok (p : parent_at) (c : child_at) : Prop := p_ok p /\ c_ok c /\ together p c = true.

(** Steps left. *)
Definition p_left (p : parent_at) : nat :=
  match p with
  | PPipe1 => 100 + length pong + length ping | PPipe2 => 99 + length pong + length ping | PFork => 98 + length pong + length ping
  | PClose3 => 20 + length pong | PWrite => 19 + length pong | PClose4 => 18 + length pong | PClose6 => 17 + length pong
  | PRead => 16 + length pong | PPid => 15 + length pong | PPrint _ l => 10 + length l | PClose5 => 9 | PWait => 8 | PExit => 7 | PZomb => 0
  end%nat.
Definition c_left (c : child_at) : nat :=
  match c with
  | CNone => 0
  | CClose4 => 20 + length ping | CRead => 19 + length ping | CPid => 18 + length ping | CPrint _ l => 10 + length l
  | CClose3 => 9 | CClose5 => 8 | CWrite => 7 | CClose6 => 6 | CExit => 5 | CZomb => 4 | CGone => 0
  end%nat.

Lemma st_parent p p' c : pipes p c = pipes p' c -> p_out p = p_out p' -> npipe p = npipe p' ->
  put_proc m (pproc p') (st p c) = st p' c.
Proof using Type. intros H1 H2 H3. unfold st, put_proc, set_procs. cbn. by rewrite insert_insert_eq, H1, H2, H3. Qed.

Lemma put_child p c c' : children c = {[S m := cproc c]} -> children c' = {[S m := cproc c']} ->
  <[S m := cproc c']> (s_procs (st p c)) = s_procs (st p c').
Proof using Type. clear Hm Hmax. intros H1 H2. cbn. rewrite H1, H2, insert_insert_ne by lia. by rewrite insert_singleton_eq. Qed.

Lemma st_child p c c' : children c = {[S m := cproc c]} -> children c' = {[S m := cproc c']} ->
  pipes p c = pipes p c' -> c_out c = c_out c' -> npid c = npid c' ->
  put_proc (S m) (cproc c') (st p c) = st p c'.
Proof using Type.
  intros H1 H2 H3 H4 H5. unfold put_proc, set_procs. rewrite (put_child p c c' H1 H2). unfold st. cbn. by rewrite H3, H4, H5.
Qed.

Lemma ping_writes : printf_ (bytes_of "%d: received ping" ++ [10]) [AInt (Z.of_nat (S m))] = puts ping.
Proof using Hmax.
  clear Hm.
  unfold printf_, puts. f_equal. unfold printf_writes, UPrintf.printf, vprintf.
  change (bytes_of "%d: received ping" ++ [10]) with (37 :: 100 :: bytes_of ": received ping" ++ [10]).
  rewrite vprintf_d by (done || lia).
  change (bytes_of ": received ping" ++ [10]) with [58; 32; 114; 101; 99; 101; 105; 118; 101; 100; 32; 112; 105; 110; 103; 10].
  cbn [length]. rewrite !vprintf_char by (done || lia || by repeat apply can_write_emits).
  cbn [vprintf_loop]. unfold ret. rewrite !emits_app. done.
Qed.

Lemma pong_writes : printf_ (bytes_of "%d: received pong" ++ [10]) [AInt (Z.of_nat m)] = puts pong.
Proof using Hmax.
  clear Hm.
  unfold printf_, puts. f_equal. unfold printf_writes, UPrintf.printf, vprintf.
  change (bytes_of "%d: received pong" ++ [10]) with (37 :: 100 :: bytes_of ": received pong" ++ [10]).
  rewrite vprintf_d by (done || lia).
  change (bytes_of ": received pong" ++ [10]) with [58; 32; 114; 101; 99; 101; 105; 118; 101; 100; 32; 112; 111; 110; 103; 10].
  cbn [length]. rewrite !vprintf_char by (done || lia || by repeat apply can_write_emits).
  cbn [vprintf_loop]. unfold ret. rewrite !emits_app. done.
Qed.

Lemma parent_there p c : s_procs (st p c) !! m = Some (pproc p).
Proof using Type. apply lookup_insert_eq. Qed.

Lemma child_there p c : children c = {[S m := cproc c]} -> s_procs (st p c) !! S m = Some (cproc c).
Proof using Type. clear Hm Hmax. intros H. cbn. rewrite lookup_insert_ne by lia. rewrite H. apply lookup_singleton_eq. Qed.

Lemma open_parent p c fd f : up_fds (pproc p) !! fd = Some f -> is_open f (st p c).
Proof using Type. intros H. exists m, (pproc p). split; [apply parent_there|]. by exists fd, f. Qed.

Lemma open_child p c fd f : children c = {[S m := cproc c]} -> up_fds (cproc c) !! fd = Some f -> is_open f (st p c).
Proof using Type. intros Hc H. exists (S m), (cproc c). split; [by apply child_there|]. by exists fd, f. Qed.

Definition advances (p : parent_at) (c : child_at) (s' : sys) : Prop :=
  exists p' c', s' = st p' c' /\ ok p' c' /\ (p_left p' + c_left c' < p_left p + c_left c)%nat.

Lemma parent_adv p p' c s' : s' = st p' c -> ok p' c -> (p_left p' < p_left p)%nat -> advances p c s'.
Proof using Type. clear Hm Hmax. intros -> Ho Hl. exists p', c. split_and!; [done..|lia]. Qed.
Lemma child_adv p c c' s' : s' = st p c' -> ok p c' -> (c_left c' < c_left c)%nat -> advances p c s'.
Proof using Type. clear Hm Hmax. intros -> Ho Hl. exists p, c'. split_and!; [done..|lia]. Qed.

(** The parent closes a descriptor. *)
Lemma parent_close p p' fd f c j s' : ok p c -> run m j (st p c) = Some s' ->
  match up_code (pproc p) with
  | inl (Sys (SClose fd') K) => fd' = fd /\ pproc p' = mk_uproc (delete fd (up_fds (pproc p))) 2 (inl (K (0, [])))
  | _ => False
  end ->
  up_fds (pproc p) !! fd = Some f -> up_parent (pproc p) = 2%nat ->
  pipes p c = pipes p' c -> p_out p = p_out p' -> npipe p = npipe p' -> ok p' c -> (p_left p' < p_left p)%nat ->
  advances p c s'.
Proof using Type.
  intros Ho Hr Hc Hf Hpa H1 H2 H3 Ho' Hl. apply (parent_adv p p'); [|done|done].
  destruct (up_code (pproc p)) as [[a|cl K|]|] eqn:Ec; try done. destruct cl; try done. destruct Hc as [-> Hp'].
  rewrite (run_close m j _ _ K (parent_there p c) fd f Ec Hf) in Hr. injection Hr as <-.
  unfold resume. rewrite Hpa, <- Hp'. by apply st_parent.
Qed.

Lemma child_close p c c' fd f j s' : ok p c -> run (S m) j (st p c) = Some s' ->
  match up_code (cproc c) with
  | inl (Sys (SClose fd') K) => fd' = fd /\ cproc c' = mk_uproc (delete fd (up_fds (cproc c))) m (inl (K (0, [])))
  | _ => False
  end ->
  up_fds (cproc c) !! fd = Some f -> up_parent (cproc c) = m ->
  children c = {[S m := cproc c]} -> children c' = {[S m := cproc c']} ->
  pipes p c = pipes p c' -> c_out c = c_out c' -> npid c = npid c' -> ok p c' -> (c_left c' < c_left c)%nat ->
  advances p c s'.
Proof using Type.
  intros Ho Hr Hc Hf Hpa Hch Hch' H1 H2 H3 Ho' Hl. apply (child_adv p c c'); [|done|done].
  destruct (up_code (cproc c)) as [[a|cl K|]|] eqn:Ec; try done. destruct cl; try done. destruct Hc as [-> Hp'].
  rewrite (run_close (S m) j _ _ K (child_there p c Hch) fd f Ec Hf) in Hr. injection Hr as <-.
  unfold resume. rewrite Hpa, <- Hp'. by apply st_child.
Qed.


(** The parent's other calls. *)
Lemma pipe1_step j s' : (5 <= max_files)%nat -> run m j (st PPipe1 CNone) = Some s' -> s' = st PPipe2 CNone.
Proof using Type.
  clear Hm Hmax. intros Hfi. assert (Hroom : (open_files (st PPipe1 CNone) + 2 <= max_files)%nat).
  { pose proof (open_files_le (st PPipe1 CNone)) as Hle. change (size (s_pipes (st PPipe1 CNone))) with 0%nat in Hle. lia. }
  erewrite (run_pipe m j _ _ _ (parent_there PPipe1 CNone) 3 4); [|reflexivity..|exact Hroom]. intros [= <-].
  unfold st, resume, put_proc, set_procs. cbn [s_procs s_pipes s_out s_nextpid]. rewrite insert_insert_eq. reflexivity.
Qed.

Lemma pipe2_step j s' : (5 <= max_files)%nat -> run m j (st PPipe2 CNone) = Some s' -> s' = st PFork CNone.
Proof using Type.
  clear Hm Hmax. intros Hfi. assert (Hroom : (open_files (st PPipe2 CNone) + 2 <= max_files)%nat).
  { pose proof (open_files_le (st PPipe2 CNone)) as Hle. change (size (s_pipes (st PPipe2 CNone))) with 1%nat in Hle. lia. }
  erewrite (run_pipe m j _ _ _ (parent_there PPipe2 CNone) 5 6); [|reflexivity..|exact Hroom]. intros [= <-].
  unfold st, resume, put_proc, set_procs. cbn [s_procs s_pipes s_out s_nextpid]. rewrite insert_insert_eq. reflexivity.
Qed.

Lemma pp_fork_step j s' : (2 <= max_procs)%nat -> run m j (st PFork CNone) = Some s' -> s' = st PClose3 CClose4.
Proof using Type.
  clear Hm Hmax. intros Hpr. erewrite (run_fork m j _ _ _ (parent_there PFork CNone)); [|reflexivity|].
  2:{ change (s_procs (st PFork CNone)) with (<[m := pproc PFork]> ∅ : gmap nat proc). rewrite map_size_insert, lookup_empty, map_size_empty. lia. }
  intros [= <-]. unfold st, resume, put_proc, set_procs. cbn [s_procs s_pipes s_out s_nextpid s_nextpipe].
  rewrite (insert_insert_ne _ (S m) m), insert_insert_eq by lia. reflexivity.
Qed.

Lemma write_step c j s' : together PWrite c = true -> run m j (st PWrite c) = Some s' -> s' = st PClose4 c.
Proof using Type.
  clear Hm Hmax. intros Hc. assert (is_open (R 0) (st PWrite c)) as Hop by (destruct c; try done; by apply (open_child _ _ 3)).
  erewrite (run_write m j _ _ _ (parent_there PWrite c) 4 [84] 0 []); [|try reflexivity..]; try done.
  - intros [= <-]. unfold st, resume, put_proc, set_procs. cbn [s_procs s_pipes s_out s_nextpid s_nextpipe set_pipe].
    rewrite insert_insert_eq. destruct c; try done; reflexivity.
  - left. vm_compute. lia.
Qed.

Lemma read_step c j s' : together PRead c = true -> run m j (st PRead c) = Some s' -> sent2 c = true /\ s' = st PPid c.
Proof using Type.
  intros Hc. erewrite (run_read m j _ _ _ (parent_there PRead c) 5 1 1 (if sent2 c then [84] else [])); [|reflexivity|reflexivity|].
  2:{ cbn. rewrite andb_true_r. by destruct (sent2 c). }
  destruct (sent2 c) eqn:Es.
  - rewrite bool_decide_eq_false_2 by done. intros [= <-]. split; [done|].
    unfold st, resume, put_proc, set_procs. cbn [s_procs s_pipes s_out s_nextpid s_nextpipe set_pipe].
    rewrite insert_insert_eq. destruct c; try done; reflexivity.
  - rewrite bool_decide_eq_true_2 by done. rewrite bool_decide_eq_true_2; [done|].
    destruct c; try done; by apply (open_child _ _ 6).
Qed.

Lemma pid_step c j s' : run m j (st PPid c) = Some s' -> s' = st (PPrint [] pong) c.
Proof using Hmax.
  erewrite (run_call m j _ _ _ (parent_there PPid c)); [|reflexivity]. intros [= <-].
  transitivity (put_proc m (mk_uproc (fds_of [(5, R 1)]) 2 (inl ((printf_ (bytes_of "%d: received pong" ++ [10])
    [AInt (Z.of_nat m)] ;; close 5 ;; wait_ ;; Done tt) ;; exit_ 0))) (st PPid c)); [reflexivity|].
  rewrite pong_writes. by apply (st_parent PPid (PPrint [] pong)).
Qed.

Lemma pp_print_step o x l c j s' : run m j (st (PPrint o (x :: l)) c) = Some s' ->
  s' = st (if decide (l = []) then PClose5 else PPrint (o ++ [x]) l) c \/ o ++ x :: l <> pong.
Proof using Type.
  erewrite (run_console m j _ _ _ (parent_there (PPrint o (x :: l)) c) 1 [x]); [|reflexivity..]. intros [= <-].
  destruct (decide (o ++ x :: l = pong)) as [Ho|]; [left|by right].
  unfold st, resume, put_proc, set_procs, set_out. cbn [s_procs s_pipes s_out s_nextpid s_nextpipe].
  rewrite insert_insert_eq. destruct (decide (l = [])) as [->|Hl].
  - cbn [p_out]. rewrite <- Ho, app_assoc. reflexivity.
  - cbn [p_out]. rewrite app_assoc. reflexivity.
Qed.

Lemma pp_wait_step c j s' : together PWait c = true -> run m j (st PWait c) = Some s' -> c = CZomb /\ s' = st PExit CGone.
Proof using Hm.
  clear Hmax. intros Hc. erewrite (run_call m j _ _ _ (parent_there PWait c)); [|reflexivity]. unfold do_wait.
  assert (children c = {[S m := cproc c]}) as Hch by (by destruct c).
  assert (map_Exists (fun _ q => up_parent q = m) (s_procs (st PWait c))) as Hex.
  { exists (S m), (cproc c). split; [by apply child_there|]. by destruct c. }
  destruct (decide (j = S m)) as [->|Hj].
  - rewrite (child_there PWait c Hch). destruct c; try done.
    + cbn [cproc]. by rewrite bool_decide_eq_true_2.
    + cbn [cproc]. by rewrite bool_decide_eq_true_2.
    + cbn [cproc]. rewrite Nat.eqb_refl. intros [= <-]. split; [done|].
      unfold st, resume, put_proc, set_procs. cbn [s_procs s_pipes s_out s_nextpid s_nextpipe children].
      rewrite delete_insert_ne by lia. rewrite delete_singleton_eq, insert_insert_eq. reflexivity.
  - destruct (s_procs (st PWait c) !! j) as [q|] eqn:Eq; [|by rewrite bool_decide_eq_true_2].
    assert (q = pproc PWait) as ->; [|by rewrite bool_decide_eq_true_2].
    cbn in Eq. apply lookup_insert_Some in Eq as [[_ <-]|[_ Eq]]; [done|]. rewrite Hch in Eq.
    apply lookup_singleton_Some in Eq as [<- _]. done.
Qed.

Lemma pp_exit_step j s' : run m j (st PExit CGone) = Some s' -> s' = st PZomb CGone.
Proof using Hm.
  clear Hmax. erewrite (run_call m j _ _ _ (parent_there PExit CGone)); [|reflexivity]. intros [= <-].
  unfold do_exit, st, put_proc, set_procs. cbn [s_procs s_pipes s_out s_nextpid s_nextpipe children].
  rewrite fmap_insert, fmap_empty, insert_insert_eq. reflexivity.
Qed.

Lemma parent_step p c j s' : (5 <= max_files)%nat -> (2 <= max_procs)%nat -> ok p c -> run m j (st p c) = Some s' -> advances p c s'.
Proof using Hm Hmax.
  intros Hfi Hpr Ho Hr. pose proof Ho as (Hp & Hc & Ht). destruct p; cbn [together] in Ht.
  - destruct c; try done. apply pipe1_step in Hr; [|done]. apply (parent_adv _ PPipe2); [done|done|cbn; lia].
  - destruct c; try done. apply pipe2_step in Hr; [|done]. apply (parent_adv _ PFork); [done|done|cbn; lia].
  - destruct c; try done. apply pp_fork_step in Hr; [|done]. exists PClose3, CClose4. split_and!; [done|done|cbn [p_left c_left]; lia].
  - destruct c; try done; (eapply (parent_close PClose3 PWrite 3); [exact Ho|exact Hr|split; reflexivity|reflexivity|..]; try reflexivity; [done|cbn; lia]).
  - apply write_step in Hr; [|done]. apply (parent_adv _ PClose4); [done| |cbn; lia]. by destruct c.
  - eapply (parent_close PClose4 PClose6 4); [exact Ho|exact Hr|split; reflexivity|reflexivity|..]; try reflexivity; [done|cbn; lia].
  - eapply (parent_close PClose6 PRead 6); [exact Ho|exact Hr|split; reflexivity|reflexivity|..]; try reflexivity; [done|cbn; lia].
  - apply read_step in Hr as [Hs Hr]; [|done]. apply (parent_adv _ PPid); [done| |cbn; lia]. by destruct c.
  - apply pid_step in Hr. apply (parent_adv _ (PPrint [] pong)); [done| |cbn; lia]. split_and!; [split; [done|]|done|done].
    unfold pong. intros H%app_eq_nil. by destruct H.
  - destruct Hp as [Hol Hl]. destruct left as [|x l]; [done|]. apply pp_print_step in Hr as [Hr|]; [|done].
    eapply parent_adv; [exact Hr| |]; destruct (decide (l = [])) as [->|Hne].
    + done.
    + split_and!; [|done|done]. split; [by rewrite <- app_assoc|done].
    + cbn. lia.
    + cbn. lia.
  - eapply (parent_close PClose5 PWait 5); [exact Ho|exact Hr|split; reflexivity|reflexivity|..]; try reflexivity; [done|cbn; lia].
  - apply pp_wait_step in Hr as [-> Hr]; [|done]. exists PExit, CGone. split_and!; [done|done|cbn [p_left c_left]; lia].
  - destruct c; try done. apply pp_exit_step in Hr. apply (parent_adv _ PZomb); [done|done|cbn; lia].
  - unfold run in Hr. by rewrite parent_there in Hr.
Qed.

(** The child's calls. *)
Lemma c_read_step p j s' : together p CRead = true -> run (S m) j (st p CRead) = Some s' -> sent1 p = true /\ s' = st p CPid.
Proof using Type.
  clear Hm Hmax. intros Hp.
  erewrite (run_read (S m) j _ _ _ (child_there p CRead eq_refl) 3 1 0 (if sent1 p then [84] else [])); [|reflexivity|reflexivity|].
  2:{ by destruct p. }
  destruct (sent1 p) eqn:Es.
  - rewrite bool_decide_eq_false_2 by done. intros [= <-]. split; [done|].
    unfold st, resume, put_proc, set_procs. cbn [s_procs s_pipes s_out s_nextpid s_nextpipe set_pipe children].
    rewrite insert_insert_ne, insert_singleton_eq by lia. destruct p; try done; reflexivity.
  - rewrite bool_decide_eq_true_2 by done. rewrite bool_decide_eq_true_2; [done|].
    destruct p; try done; by apply (open_parent _ _ 4).
Qed.

Lemma c_pid_step p j s' : run (S m) j (st p CPid) = Some s' -> s' = st p (CPrint [] ping).
Proof using Hmax.
  erewrite (run_call (S m) j _ _ _ (child_there p CPid eq_refl)); [|reflexivity]. intros [= <-].
  transitivity (put_proc (S m) (mk_uproc (fds_of [(3, R 0); (5, R 1); (6, W 1)]) m (inl ((printf_ (bytes_of "%d: received ping" ++ [10])
    [AInt (Z.of_nat (S m))] ;; close 3 ;; close 5 ;; write 6 [84] ;; close 6 ;; Done tt) ;; exit_ 0))) (st p CPid)); [reflexivity|].
  rewrite ping_writes. by apply (st_child p CPid (CPrint [] ping)).
Qed.

Lemma c_print_step p o x l j s' : run (S m) j (st p (CPrint o (x :: l))) = Some s' -> p_out p = [] ->
  s' = st p (if decide (l = []) then CClose3 else CPrint (o ++ [x]) l) \/ o ++ x :: l <> ping.
Proof using Type.
  clear Hm Hmax. erewrite (run_console (S m) j _ _ _ (child_there p (CPrint o (x :: l)) eq_refl) 1 [x]); [|reflexivity..].
  intros [= <-] Hp. destruct (decide (o ++ x :: l = ping)) as [Ho|]; [left|by right].
  unfold st, resume, put_proc, set_procs, set_out. cbn [s_procs s_pipes s_out s_nextpid s_nextpipe].
  rewrite Hp. cbn [children c_out].
  rewrite insert_insert_ne, insert_singleton_eq by lia. destruct (decide (l = [])) as [->|Hl].
  - cbn [c_out children]. rewrite <- Ho, !app_nil_r. reflexivity.
  - cbn [c_out children]. rewrite !app_nil_r. reflexivity.
Qed.

Lemma c_write_step p j s' : together p CWrite = true -> run (S m) j (st p CWrite) = Some s' -> s' = st p CClose6.
Proof using Type.
  clear Hm Hmax. intros Hp. assert (is_open (R 1) (st p CWrite)) as Hop by (destruct p; try done; by apply (open_parent _ _ 5)).
  erewrite (run_write (S m) j _ _ _ (child_there p CWrite eq_refl) 6 [84] 1 []); [|try reflexivity..]; try done.
  - intros [= <-]. unfold st, resume, put_proc, set_procs. cbn [s_procs s_pipes s_out s_nextpid s_nextpipe set_pipe children].
    rewrite insert_insert_ne, insert_singleton_eq by lia. destruct p; try done; reflexivity.
  - by destruct p.
  - left. vm_compute. lia.
Qed.

Lemma c_exit_step p j s' : run (S m) j (st p CExit) = Some s' -> s' = st p CZomb.
Proof using Hm.
  clear Hmax. erewrite (run_call (S m) j _ _ _ (child_there p CExit eq_refl)); [|reflexivity]. intros [= <-].
  unfold do_exit, st, put_proc, set_procs. cbn [s_procs s_pipes s_out s_nextpid s_nextpipe children].
  rewrite fmap_insert, map_fmap_singleton, insert_insert_ne, insert_singleton_eq by lia.
  assert (reparent (S m) (pproc p) = pproc p) as ->.
  { unfold reparent. destruct p; cbn [pproc up_parent]; by rewrite (proj2 (Nat.eqb_neq _ _)) by lia. }
  destruct p; reflexivity.
Qed.

Lemma child_step p c j s' : ok p c -> run (S m) j (st p c) = Some s' -> advances p c s'.
Proof using Hm Hmax.
  intros Ho Hr. pose proof Ho as (Hp & Hc & Ht). destruct c.
  - clear Hmax. unfold run in Hr. cbn in Hr. by rewrite lookup_insert_ne, lookup_empty in Hr by lia.
  - eapply (child_close p CClose4 CRead 4); [exact Ho|exact Hr|split; reflexivity|reflexivity|..]; try reflexivity; [by destruct p|cbn; lia].
  - apply c_read_step in Hr as [Hs Hr]; [|done]. apply (child_adv _ _ CPid); [done| |cbn; lia]. by destruct p.
  - apply c_pid_step in Hr. apply (child_adv _ _ (CPrint [] ping)); [done| |cbn; lia]. split_and!; [done|split; [done|]|by destruct p].
    unfold ping. intros H%app_eq_nil. by destruct H.
  - destruct Hc as [Hol Hl]. destruct left as [|x l]; [done|]. apply c_print_step in Hr as [Hr|]; [|done|by destruct p].
    eapply child_adv; [exact Hr| |]; destruct (decide (l = [])) as [->|Hne].
    + by destruct p.
    + split_and!; [done| |by destruct p]. split; [by rewrite <- app_assoc|done].
    + cbn. lia.
    + cbn. lia.
  - eapply (child_close p CClose3 CClose5 3); [exact Ho|exact Hr|split; reflexivity|reflexivity|..]; try reflexivity; [by destruct p|cbn; lia].
  - eapply (child_close p CClose5 CWrite 5); [exact Ho|exact Hr|split; reflexivity|reflexivity|..]; try reflexivity; [by destruct p|cbn; lia].
  - apply c_write_step in Hr; [|done]. apply (child_adv _ _ CClose6); [done| |cbn; lia]. by destruct p.
  - eapply (child_close p CClose6 CExit 6); [exact Ho|exact Hr|split; reflexivity|reflexivity|..]; try reflexivity; [by destruct p|cbn; lia].
  - apply c_exit_step in Hr. apply (child_adv _ _ CZomb); [done| |cbn; lia]. by destruct p.
  - unfold run in Hr. by rewrite child_there in Hr.
  - clear Hmax. unfold run in Hr. cbn in Hr. by rewrite lookup_insert_ne, lookup_empty in Hr by lia.
Qed.

Lemma ok_step p c s' : (5 <= max_files)%nat -> (2 <= max_procs)%nat -> ok p c -> step (st p c) s' -> advances p c s'.
Proof using Hm Hmax.
  intros Hfi Hpr Ho Hs. inversion Hs as [i j s0 s1 Hr]; subst.
  destruct (decide (i = m)) as [->|Hi]; [by eapply parent_step|].
  destruct (decide (i = S m)) as [->|Hi']; [by eapply child_step|].
  exfalso. unfold run in Hr. cbn in Hr. rewrite lookup_insert_ne in Hr by done.
  destruct (children c !! i) as [q|] eqn:E; [|done]. destruct c; cbn in E; try done; by apply lookup_singleton_Some in E as [<- _].
Qed.

Lemma ok_steps n : (5 <= max_files)%nat -> (2 <= max_procs)%nat -> forall p c s', ok p c -> nsteps step n (st p c) s' ->
  exists p' c', s' = st p' c' /\ ok p' c' /\ (n + (p_left p' + c_left c') <= p_left p + c_left c)%nat.
Proof using Hm Hmax.
  intros Hfi Hpr. induction n as [|n IH]; intros p c s' Ho Hs.
  - inversion Hs; subst. exists p, c. split_and!; [done..|lia].
  - inversion Hs as [|? ? s1 ? H1 H2]; subst. destruct (ok_step p c s1 Hfi Hpr Ho H1) as (p1 & c1 & -> & Ho1 & Hl).
    destruct (IH p1 c1 s' Ho1 H2) as (p' & c' & -> & Ho' & Hl'). exists p', c'. split_and!; [done..|lia].
Qed.

(** No process is stuck before the end. *)
Lemma pp_can_run i j s : run i j s <> None -> exists s', step s s'.
Proof using Type. destruct (run i j s) as [s'|] eqn:E; [|done]. intros _. exists s'. by econstructor. Qed.

Lemma parent_can p c : ok p c -> match p with PRead => sent2 c = true | PWait => c = CZomb | PZomb => False | _ => True end ->
  exists s', step (st p c) s'.
Proof using Type.
  clear Hm Hmax. intros (Hp & _ & Ht) Hw. apply (pp_can_run m (S m)). destruct p; try done.
  1-4, 6-7, 9, 11, 13: unfold run; rewrite parent_there; discriminate.
  - assert (is_open (R 0) (st PWrite c)) as Hop by (destruct c; try done; by apply (open_child _ _ 3)).
    erewrite (run_write m (S m) _ _ _ (parent_there PWrite c) 4 [84] 0 []); [done|reflexivity|reflexivity|done|done|done|].
    left. vm_compute. lia.
  - erewrite (run_read m (S m) _ _ _ (parent_there PRead c) 5 1 1 [84]); [done|reflexivity|reflexivity|]. cbn. by rewrite Hw.
  - destruct Hp as [_ Hl]. destruct left as [|x l]; [done|]. unfold run. rewrite parent_there. discriminate.
  - subst c. erewrite (run_call m (S m) _ _ _ (parent_there PWait CZomb)); [|reflexivity]. unfold do_wait.
    rewrite (child_there PWait CZomb eq_refl). cbn [cproc]. by rewrite Nat.eqb_refl.
Qed.

Lemma child_can p c : ok p c -> match c with CRead => sent1 p = true | CNone | CZomb | CGone => False | _ => True end ->
  exists s', step (st p c) s'.
Proof using Type.
  clear Hm Hmax. intros (_ & Hc & Ht) Hw. apply (pp_can_run (S m) 0). destruct c; try done.
  1, 3, 5-6, 8-9: unfold run; rewrite child_there by done; discriminate.
  - erewrite (run_read (S m) 0 _ _ _ (child_there p CRead eq_refl) 3 1 0 [84]); [done|reflexivity|reflexivity|].
    destruct p; try done.
  - destruct Hc as [_ Hl]. destruct left as [|x l]; [done|]. unfold run. rewrite child_there by done. discriminate.
  - assert (is_open (R 1) (st p CWrite)) as Hop by (destruct p; try done; by apply (open_parent _ _ 5)).
    erewrite (run_write (S m) 0 _ _ _ (child_there p CWrite eq_refl) 6 [84] 1 []); [done|reflexivity|reflexivity|by destruct p|done|done|].
    left. vm_compute. lia.
Qed.

Lemma ok_progress p c : ok p c -> p = PZomb /\ c = CGone \/ exists s', step (st p c) s'.
Proof using Type.
  intros Ho. pose proof Ho as (_ & _ & Ht). destruct p; try (right; by apply parent_can).
  - destruct (sent2 c) eqn:Es; right; [by apply parent_can|]. apply child_can; [done|]. by destruct c.
  - right. destruct c; try done; first [by apply parent_can | by apply child_can].
  - left. by destruct c.
Qed.
End PingPong.

(** C30. pingpong under every interleaving of its two processes, with a machine
    that can give it five open files (the console and two pipes) and two
    processes: every run is finite, with a bound
    on its length; at any moment what has been printed is a beginning of
    "<child>: received ping" and "<parent>: received pong", in this order, one
    line each, with the pids of the two processes; and when no process can take
    a step both lines are printed in full, the child has exited and been waited
    for, and the parent has exited with status 0. There is no deadlock, and the
    lines never mix. *)
Theorem pingpong_exchanges (lim : limits) m junk :
  (5 <= max_files)%nat -> (2 <= max_procs)%nat -> (2 < m)%nat -> Z.of_nat (S m) < 2 ^ 31 ->
  exists bound, forall n s, nsteps step n (boot m (pingpong_main junk)) s ->
    (n <= bound)%nat /\ s_out s `prefix_of` ping m ++ pong m /\
    ((forall s', ~ step s s') -> s_out s = ping m ++ pong m /\ s_procs s = {[m := mk_uproc ∅ 2 (inr 0)]}).
Proof.
  intros Hfi Hpr Hm Hmax. exists (p_left m PPipe1 + c_left m CNone)%nat. intros n s Hs.
  change (boot m (pingpong_main junk)) with (st m junk PPipe1 CNone) in Hs.
  destruct (ok_steps m junk Hm Hmax n Hfi Hpr PPipe1 CNone s) as (p & c & -> & Ho & Hl); [done|exact Hs|].
  split_and!; [lia| |].
  - cbn [st s_out]. destruct Ho as (Hp & Hc & Ht).
    assert (c_out m c `prefix_of` ping m) as Hco.
    { destruct c; cbn in *; try done; try apply prefix_nil. destruct Hc as [<- _]. by apply prefix_app_r. }
    assert (p_out m p `prefix_of` pong m) as Hpo.
    { destruct p; cbn in *; try done; try apply prefix_nil. destruct Hp as [<- _]. by apply prefix_app_r. }
    destruct (decide (p_out m p = [])) as [->|Hne]; [rewrite app_nil_r; by apply prefix_app_r|].
    assert (c_out m c = ping m) as -> by (destruct p, c; cbn in *; done). by apply prefix_app.
  - intros Hstop. destruct (ok_progress m junk p c Ho) as [[-> ->]|[s' Hs']]; [done|by destruct (Hstop s')].
Qed.

Lemma pingpong_exchanges_witness :
  exists bound, forall n s, nsteps (step (lim := mk_limits 100 62)) n (boot 3 (pingpong_main 0)) s ->
    (n <= bound)%nat /\ s_out s `prefix_of` bytes_of "4: received ping" ++ [10] ++ bytes_of "3: received pong" ++ [10].
Proof.
  destruct (pingpong_exchanges (mk_limits 100 62) 3 0 ltac:(cbn; lia) ltac:(cbn; lia) ltac:(lia) ltac:(reflexivity)) as (bound & H). exists bound. intros n s Hs.
  destruct (H n s Hs) as (H1 & H2 & _). split; [exact H1|exact H2].
Defined.
