(* ===== verification/Mkfs.v ===== *)
(** mkfs/mkfs.c: the host program that builds the file system image the
    kernel boots from.

    The image is the list of its blocks; the program only ever seeks to
    multiples of the block size and writes whole blocks. A [struct dinode] is
    an [inode] of which only the fields on disk are used. The host is
    little-endian and has room for the image; the files named on the command
    line are what [Host] says: whether they open and what successive calls of
    read return. A failed assertion, [die] and [exit(1)] are [Panic]. *)

From stdpp Require Import base numbers list gmap strings.
From S2P Require Import Prelude Params Mem State Locks Cache Log Fs.

(** The host's files. *)
Class Host := {
  host_create : list Z -> bool;
  host_open : list Z -> option (list (list Z));
}.

Definition NINODES : Z := 200.
Definition nbitmap : Z := FSSIZE / BPB + 1.
Definition ninodeblocks : Z := NINODES / IPB + 1.
Definition nlog : Z := LOGSIZE.
Definition nmeta : Z := 2 + nlog + ninodeblocks + nbitmap.
Definition nblocks : Z := FSSIZE - nmeta.

(** The static variables: the image behind [fsfd], [sb], [freeinode] and
    [freeblock]. *)
Record mkfs := mk_mkfs {
  m_img : list (list Z);
  m_sb : superblock;
  m_freeinode : Z;
  m_freeblock : Z;
}.

Definition set_m_img v (s : mkfs) := mk_mkfs v (m_sb s) (m_freeinode s) (m_freeblock s).
Definition set_m_sb v (s : mkfs) := mk_mkfs (m_img s) v (m_freeinode s) (m_freeblock s).
Definition set_m_freeinode v (s : mkfs) := mk_mkfs (m_img s) (m_sb s) v (m_freeblock s).
Definition set_m_freeblock v (s : mkfs) := mk_mkfs (m_img s) (m_sb s) (m_freeinode s) v.

Definition mkfs0 : mkfs := mk_mkfs [] (mk_superblock 0 0 0 0 0 0 0 0) 1 0.

Definition die {A} (s : list Z) : M mkfs A := panic "die".
Definition assert_ (b : bool) : M mkfs unit := if b then ret tt else panic "assert".

(** ** Byte order *)

(** The bytes that the loop bodies store, read as a host integer. *)
Definition xshort (x : Z) : Z := le_val [u8 x; u8 (Z.shiftr x 8)].
Definition xint (x : Z) : Z :=
  le_val [u8 x; u8 (Z.shiftr x 8); u8 (Z.shiftr x 16); u8 (Z.shiftr x 24)].

(** ** Sectors *)

Definition zeroes : list Z := replicate (Z.to_nat BSIZE) 0.

(** The block at the file position [sec * BSIZE], which is a uint. *)
Definition sector (sec : Z) : nat := Z.to_nat (u32 (sec * BSIZE) / BSIZE).

(** Writing past the end of the image extends it, with zeros in between. *)
Definition wsect (sec : Z) (buf : list Z) : M mkfs unit :=
  modify (fun s =>
    let i := sector sec in
    set_m_img (if decide (i < length (m_img s))%nat then <[i := buf]> (m_img s)
               else m_img s ++ replicate (i - length (m_img s)) zeroes ++ [buf]) s).

(** Reading at or past the end returns 0. *)
Definition rsect (sec : Z) : M mkfs (list Z) :=
  let! img := gets m_img in
  match img !! sector sec with
  | Some buf => ret buf
  | None => die (bytes_of "read")
  end.

(** ** Inodes *)

(** A [struct dinode] before its fields are set. *)
Definition din0 (inum : Z) : inode :=
  mk_inode ROOTDEV inum 0 (mk_sleeplock false 0) false 0 0 0 0 0 (replicate 13 0).

Definition winode (inum : Z) (ip : inode) : M mkfs unit :=
  let! sb := gets m_sb in
  let bn := IBLOCK inum (sb_inodestart sb) in
  let! buf := rsect bn in
  wsect bn (put_dinode buf (dinode_off inum) ip).

Definition rinode (inum : Z) : M mkfs inode :=
  let! sb := gets m_sb in
  let bn := IBLOCK inum (sb_inodestart sb) in
  let! buf := rsect bn in
  ret (load_dinode buf (dinode_off inum) (din0 inum)).

Definition ialloc (type : Z) : M mkfs Z :=
  let! inum := gets m_freeinode in
  modify (set_m_freeinode (u32 (inum + 1))) ;;
  let din := set_i_size (xint 0) (set_i_nlink (xshort 1) (set_i_type (xshort type) (din0 inum))) in
  winode inum din ;;
  ret inum.

(** ** The bitmap *)

Definition balloc_bit (buf : list Z) (i : Z) : list Z :=
  let j := Z.to_nat (i / 8) in
  <[j := u8 (Z.lor (default 0 (buf !! j)) (Z.shiftl 1 (i mod 8)))]> buf.

Definition balloc (used : Z) : M mkfs unit :=
  assert_ (used <? BPB) ;;
  let buf := foldl balloc_bit zeroes (seqZ 0 used) in
  let! sb := gets m_sb in
  wsect (sb_bmapstart sb) buf.

(** ** Appending to a file *)

(** [xint(freeblock++)] *)
Definition next_block : M mkfs Z :=
  let! b := gets m_freeblock in
  modify (set_m_freeblock (u32 (b + 1))) ;;
  ret (xint b).

Definition din_addr (din : inode) (i : Z) : Z := default 0 (i_addrs din !! Z.to_nat i).
Definition set_din_addr (din : inode) (i a : Z) : inode :=
  set_i_addrs (<[Z.to_nat i := a]> (i_addrs din)) din.

(** Entry [j] of the indirect block, allocated when it is not there. *)
Definition iappend_indirect (ind j : Z) : M mkfs Z :=
  let! indirect := rsect ind in
  let i := (4 * Z.to_nat j)%nat in
  let! indirect :=
    (if get32 indirect i =? 0 then
       let! b := next_block in
       let indirect := put32 indirect i b in
       wsect ind indirect ;;
       ret indirect
     else ret indirect) in
  ret (xint (get32 indirect i)).

(** The block [fbn] of the file, allocated when it is not there. *)
Definition iappend_block (din : inode) (fbn : Z) : M mkfs (inode * Z) :=
  if fbn <? NDIRECT then
    let! din :=
      (if xint (din_addr din fbn) =? 0 then
         let! b := next_block in ret (set_din_addr din fbn b)
       else ret din) in
    ret (din, xint (din_addr din fbn))
  else
    let! din :=
      (if xint (din_addr din NDIRECT) =? 0 then
         let! b := next_block in ret (set_din_addr din NDIRECT b)
       else ret din) in
    let! x := iappend_indirect (xint (din_addr din NDIRECT)) (fbn - NDIRECT) in
    ret (din, x).

(** One round of the loop: [p] are the bytes left, [n = length p]. *)
Definition iappend_round (v : inode * Z * list Z)
  : M mkfs (inode * Z * list Z + inode * Z) :=
  let '(din, off, p) := v in
  let n := Z.of_nat (length p) in
  if 0 <? n then
    let fbn := off / BSIZE in
    assert_ (fbn <? MAXFILE) ;;
    let! (din, x) := iappend_block din fbn in
    let n1 := Z.min n (u32 ((fbn + 1) * BSIZE - off)) in
    let! buf := rsect x in
    wsect x (put_at buf (Z.to_nat (off - fbn * BSIZE)) (take (Z.to_nat n1) p)) ;;
    ret (inl (din, u32 (off + n1), drop (Z.to_nat n1) p))
  else ret (inr (din, off)).

Definition iappend (inum : Z) (xp : list Z) : M mkfs unit :=
  let! din := rinode inum in
  let off := xint (i_size din) in
  let! (din, off) := loop (S (length xp)) iappend_round (din, off, xp) in
  winode inum (set_i_size (xint off) din).

(** ** main *)

(** [bzero(&de, sizeof(de)); de.inum = xshort(inum); strcpy(de.name, name)],
    and the same with [strncpy(de.name, name, DIRSIZ)]. *)
Definition de_strcpy (inum : Z) (name : list Z) : list Z :=
  le_bytes 2 (xshort inum) ++ put_at (replicate (Z.to_nat DIRSIZ) 0) 0 (name ++ [0]).
Definition de_strncpy (inum : Z) (name : list Z) : list Z :=
  le_bytes 2 (xshort inum) ++ strncpy_bytes (Z.to_nat DIRSIZ) name.

(** [argv[i]] without a leading "user/", and without a leading underscore. *)
Definition strip_user (arg : list Z) : list Z :=
  if strncmp_bytes 5 arg (bytes_of "user/") =? 0 then drop 5 arg else arg.
Definition strip_underscore (name : list Z) : list Z :=
  match name with 95 :: name' => name' | _ => name end.

(** The body of the loop over the files. *)
Definition add_file {H : Host} (rootino : Z) (arg : list Z) : M mkfs unit :=
  let shortname := strip_user arg in
  assert_ (bool_decide (47 ∉ shortname)) ;;
  match host_open arg with
  | None => die arg
  | Some reads =>
      let shortname := strip_underscore shortname in
      assert_ (Z.of_nat (length shortname) <=? DIRSIZ) ;;
      let! inum := ialloc T_FILE in
      iappend rootino (de_strncpy inum shortname) ;;
      for_each reads (iappend inum)
  end.

(** "fix size of root inode dir" *)
Definition fix_root_size (rootino : Z) : M mkfs unit :=
  let! din := rinode rootino in
  let off := xint (i_size din) in
  let off := u32 ((off / BSIZE + 1) * BSIZE) in
  winode rootino (set_i_size (xint off) din).

Definition the_superblock : superblock :=
  {| sb_magic := FSMAGIC; sb_size := xint FSSIZE; sb_nblocks := xint nblocks;
     sb_ninodes := xint NINODES; sb_nlog := xint nlog; sb_logstart := xint 2;
     sb_inodestart := xint (2 + nlog); sb_bmapstart := xint (2 + nlog + ninodeblocks) |}.

(** The bytes of a [struct superblock]. *)
Definition sb_bytes (sb : superblock) : list Z :=
  concat (le_bytes 4 <$> [sb_magic sb; sb_size sb; sb_nblocks sb; sb_ninodes sb;
                          sb_nlog sb; sb_logstart sb; sb_inodestart sb; sb_bmapstart sb]).

Definition main {H : Host} (argv : list (list Z)) : M mkfs unit :=
  match argv with
  | _ :: img :: files =>
      assert_ (BSIZE mod sizeof_dinode =? 0) ;;
      assert_ (BSIZE mod sizeof_dirent =? 0) ;;
      (if host_create img then modify (set_m_img []) else die img) ;;
      modify (set_m_sb the_superblock) ;;
      modify (set_m_freeblock nmeta) ;;
      for_each (seqZ 0 FSSIZE) (fun i => wsect i zeroes) ;;
      wsect 1 (put_at zeroes 0 (sb_bytes the_superblock)) ;;
      let! rootino := ialloc T_DIR in
      assert_ (rootino =? ROOTINO) ;;
      iappend rootino (de_strcpy rootino (bytes_of ".")) ;;
      iappend rootino (de_strcpy rootino (bytes_of "..")) ;;
      for_each files (add_file rootino) ;;
      fix_root_size rootino ;;
      let! b := gets m_freeblock in
      balloc b
  | _ => panic "Usage: mkfs fs.img files..."
  end.
