(* ===== verification/MkfsAppend.v ===== *)
(** iappend of mkfs/mkfs.c: the image under construction, seen with the
    bitmap that balloc will write for the blocks handed out so far, changes
    exactly as the kernel's writei changes a disk. *)

From Stdlib Require Import FunctionalExtensionality.
From stdpp Require Import base numbers list gmap strings.
From S2P Require Import Prelude Params Mem State Locks Cache Log LogBio Fs FsTx FsBlocks FsBoot FsInode FsBmap FsWrite Mkfs.

Implicit Types (V : Z -> list Z) (n : inode) (s : mkfs).

(** ** Byte order *)

Lemma xint_u32 x : xint x = u32 x.
Proof.
  unfold xint, u32, u8. cbn [le_val]. rewrite !Z.shiftr_div_pow2 by lia.
  change (2 ^ 8) with 256. change (2 ^ 16) with 65536. change (2 ^ 24) with 16777216.
  change (2 ^ 32) with 4294967296. Z.div_mod_to_equations. lia.
Qed.

Lemma xshort_mod x : xshort x = x mod 65536.
Proof.
  unfold xshort, u8. cbn [le_val]. rewrite Z.shiftr_div_pow2 by lia. change (2 ^ 8) with 256.
  Z.div_mod_to_equations. lia.
Qed.

Lemma xint_small x : 0 <= x < 2 ^ 32 -> xint x = x.
Proof. intros. rewrite xint_u32. by apply u32_small. Qed.

(** ** The bitmap *)

Definition bitmap (f : Z) : list Z := foldl balloc_bit zeroes (seqZ 0 f).

Lemma balloc_bit_data i b :
  balloc_bit b i = <[Z.to_nat (i / 8) := put_bit true (default 0 (b !! Z.to_nat (i / 8))) (i mod 8)]> b.
Proof. done. Qed.

Lemma bitmap_S f : 0 <= f -> bitmap (f + 1) = balloc_bit (bitmap f) f.
Proof. intros Hf. unfold bitmap. rewrite seqZ_app, foldl_app by lia. done. Qed.

Lemma bitmap_spec f : 0 <= f <= BPB ->
  block_ok (bitmap f) /\
  forall x, 0 <= x < BPB -> Z.testbit (default 0 (bitmap f !! Z.to_nat (x / 8))) (x mod 8) = (x <? f).
Proof.
  intros [Hf Hle]. revert Hle. pattern f. apply natlike_ind; [..|done].
  - intros _. split; [apply zero_block_ok|]. intros x Hx. unfold bitmap. cbn [seqZ foldl].
    destruct (Z.ltb_spec x 0); [lia|]. change (foldl balloc_bit zeroes (seqZ 0 0)) with zeroes.
    unfold zeroes. destruct (replicate _ _ !! _) eqn:E; [|apply Z.bits_0].
    apply lookup_replicate in E as [-> _]. apply Z.bits_0.
  - clear f Hf. intros f Hf IH Hle. destruct (IH ltac:(lia)) as [Hok Hbit]. clear IH.
    change (Z.succ f) with (f + 1). rewrite bitmap_S by done. rewrite balloc_bit_data.
    destruct Hok as [Hlen Hb].
    assert (Hj : (Z.to_nat (f / 8) < length (bitmap f))%nat) by (rewrite Hlen; plia).
    split.
    + split; [by rewrite length_insert|]. apply Forall_insert; [done|]. unfold put_bit, u8. plia.
    + intros x Hx. destruct (decide (Z.to_nat (x / 8) = Z.to_nat (f / 8))) as [E|E].
      * rewrite E, list_lookup_insert_eq by done. cbn [from_option]; unfold id; rewrite put_bit_testbit by plia.
        rewrite <- E. rewrite Hbit by done. case_decide; destruct (Z.ltb_spec x f), (Z.ltb_spec x (f + 1)); try done; plia.
      * rewrite list_lookup_insert_ne by done. rewrite Hbit by done.
        destruct (Z.ltb_spec x f), (Z.ltb_spec x (f + 1)); try done; plia.
Qed.

(** ** The image as the disk it will be *)

Definition view (img : list (list Z)) (b : Z) : list Z :=
  if b <? 0 then zeroes else default zeroes (img !! Z.to_nat b).

Definition mview s : Z -> list Z := vupd (view (m_img s)) 45 (bitmap (m_freeblock s)).

(** Blocks from [freeblock] on have not been touched since the image was
    cleared. *)
Record minv s : Prop := {
  mi_len : length (m_img s) = Z.to_nat FSSIZE;
  mi_ok : Forall block_ok (m_img s);
  mi_sb : m_sb s = mkfs_sb;
  mi_free : 46 <= m_freeblock s <= FSSIZE;
  mi_zero : forall b, m_freeblock s <= b < FSSIZE -> view (m_img s) b = zero_block;
}.

Lemma view_ok img b : Forall block_ok img -> block_ok (view img b).
Proof.
  intros Hf. unfold view. destruct (b <? 0); [apply zero_block_ok|].
  destruct (img !! Z.to_nat b) eqn:E; [|apply zero_block_ok]. rewrite Forall_lookup in Hf. by eapply Hf.
Qed.

Lemma mview_ok s b : minv s -> block_ok (mview s b).
Proof.
  intros [_ Hok _ Hf _]. unfold mview. destruct (decide (b = 45)) as [->|].
  - rewrite vupd_eq. apply bitmap_spec. plia.
  - rewrite vupd_ne by done. by apply view_ok.
Qed.

Lemma mview_len s b : minv s -> length (mview s b) = Z.to_nat BSIZE.
Proof. intros H. by apply mview_ok. Qed.

Lemma mview_used s b : minv s -> 0 <= b < FSSIZE -> used mkfs_sb (mview s) b = (b <? m_freeblock s).
Proof.
  intros [_ _ _ Hf _] Hb. unfold used, bm_byte.
  assert (bm_block mkfs_sb b = 45) as -> by (unfold bm_block; cbn [mkfs_sb sb_bmapstart]; plia).
  unfold mview. rewrite vupd_eq. destruct (bitmap_spec (m_freeblock s) ltac:(plia)) as [_ Hbit].
  rewrite <- Hbit by plia. do 4 f_equal. plia.
Qed.

Lemma dstart_mkfs : dstart mkfs_sb = 46.
Proof. done. Qed.

Lemma mview_meta s : minv s -> meta_used mkfs_sb (mview s).
Proof.
  intros Hi b Hb. rewrite dstart_mkfs in Hb. rewrite mview_used by (done || plia).
  apply Z.ltb_lt. destruct Hi. lia.
Qed.

(** ** Sectors *)

Lemma sector_small b : 0 <= b < FSSIZE -> sector b = Z.to_nat b.
Proof. intros Hb. unfold sector. rewrite u32_small by plia. f_equal. plia. Qed.

Lemma wp_rsect s b (Q : list Z -> mkfs -> Prop) :
  minv s -> 0 <= b < FSSIZE -> b <> 45 -> Q (mview s b) s -> wp (rsect b) Q s.
Proof.
  intros Hi Hb Hne HQ. unfold rsect. apply wp_bind, wp_gets. rewrite sector_small by done.
  unfold mview in HQ. rewrite vupd_ne in HQ by done. unfold view in HQ. destruct (Z.ltb_spec b 0); [lia|].
  destruct (m_img s !! Z.to_nat b) eqn:E.
  - by apply wp_ret.
  - apply lookup_ge_None in E. rewrite (mi_len _ Hi) in E. lia.
Qed.

Lemma view_insert img b v : 0 <= b -> (Z.to_nat b < length img)%nat ->
  view (<[Z.to_nat b := v]> img) = vupd (view img) b v.
Proof.
  intros Hb Hl. apply functional_extensionality. intros x. unfold view, vupd.
  destruct (Z.ltb_spec x 0).
  - case_decide; [lia|done].
  - case_decide as E; [subst; by rewrite list_lookup_insert_eq|]. by rewrite list_lookup_insert_ne by lia.
Qed.

Lemma vupd_swap V a v b w : a <> b -> vupd (vupd V a v) b w = vupd (vupd V b w) a v.
Proof.
  intros Hne. apply functional_extensionality. intros x. unfold vupd. repeat case_decide; congruence.
Qed.

(** What the rest of the program sees of a write. *)
Definition same_counts s s' : Prop :=
  m_freeblock s' = m_freeblock s /\ m_freeinode s' = m_freeinode s.

Lemma wp_wsect s b v (Q : unit -> mkfs -> Prop) :
  minv s -> 0 <= b < m_freeblock s -> b <> 45 -> block_ok v ->
  (forall s', minv s' -> mview s' = vupd (mview s) b v -> same_counts s s' -> Q tt s') ->
  wp (wsect b v) Q s.
Proof.
  intros Hi Hb Hne Hv HQ. pose proof (mi_free _ Hi). pose proof (mi_len _ Hi) as Hlen.
  unfold wsect. apply wp_modify. rewrite sector_small by lia.
  rewrite decide_True by (rewrite Hlen; lia). assert (Hl : (Z.to_nat b < length (m_img s))%nat) by lia.
  apply HQ.
  - split; cbn [set_m_img m_img m_sb m_freeblock]; [by rewrite length_insert| |apply Hi|apply Hi|].
    + apply Forall_insert; [apply Hi|done].
    + intros x Hx. rewrite view_insert, vupd_ne by lia. by apply Hi.
  - unfold mview. cbn [set_m_img m_img m_freeblock]. rewrite view_insert by lia. by apply vupd_swap.
  - done.
Qed.

Lemma wp_next_block s (Q : Z -> mkfs -> Prop) :
  minv s -> m_freeblock s < FSSIZE ->
  (forall s', minv s' -> allocated mkfs_sb (mview s) (m_freeblock s) (mview s') ->
     m_freeblock s' = m_freeblock s + 1 -> m_freeinode s' = m_freeinode s -> Q (m_freeblock s) s') ->
  wp next_block Q s.
Proof.
  intros Hi Hlt HQ. pose proof (mi_free _ Hi) as Hf. unfold next_block.
  apply wp_bind, wp_gets, wp_bind, wp_modify, wp_ret.
  rewrite xint_small by plia. rewrite u32_small by plia.
  assert (Hi' : minv (set_m_freeblock (m_freeblock s + 1) s)).
  { destruct Hi. split; try done; cbn [set_m_freeblock m_freeblock]; [lia|]. intros b Hb. apply mi_zero0. lia. }
  apply HQ; [done| |done|done]. split.
  - rewrite dstart_mkfs. cbn [mkfs_sb sb_size]. lia.
  - rewrite mview_used by (done || lia). apply Z.ltb_irrefl.
  - intros x Hx. cbn [mkfs_sb sb_size] in Hx. rewrite !mview_used by done. cbn [set_m_freeblock m_freeblock].
    destruct (decide (x = m_freeblock s)) as [->|].
    + rewrite bool_decide_eq_true_2 by done. apply Z.ltb_lt. lia.
    + rewrite bool_decide_eq_false_2 by done. simpl. destruct (Z.ltb_spec x (m_freeblock s)); [apply Z.ltb_lt|apply Z.ltb_ge]; lia.
  - unfold mview. rewrite vupd_ne by lia. apply (mi_zero _ Hi). lia.
  - intros x Hx Hr. unfold mview. rewrite dstart_mkfs in Hr. cbn [mkfs_sb sb_bmapstart] in Hr.
    rewrite !vupd_ne by lia. done.
Qed.

(** ** The blocks of a file under construction *)

(** The file has its first [k] blocks, and an indirect block when it needs
    one. *)
Definition filled V n (k : Z) : Prop :=
  (forall bn, 0 <= bn < MAXFILE -> fblk V n bn <> 0 <-> bn < k) /\
  (addr_at n 12 <> 0 <-> NDIRECT < k).

(** How many blocks of the image [k] blocks of a file take. *)
Definition nblk (k : Z) : Z := k + (if NDIRECT <? k then 1 else 0).

(** The number of blocks that [len] bytes fill. *)
Definition blocks_of (len : Z) : Z := (len + BSIZE - 1) / BSIZE.

Lemma mkfs_layout : dstart mkfs_sb <= sb_size mkfs_sb /\ 0 < dstart mkfs_sb.
Proof. by vm_compute. Qed.

Lemma data_block_range V a : data_used mkfs_sb V a -> 0 <= a < FSSIZE /\ a <> 45.
Proof. intros [Hr _]. rewrite dstart_mkfs in Hr. cbn [mkfs_sb sb_size] in Hr. lia. Qed.

Lemma data_allocated s a : minv s -> data_used mkfs_sb (mview s) a -> 0 <= a < m_freeblock s.
Proof.
  intros Hi [Hr Hu]. rewrite dstart_mkfs in Hr. cbn [mkfs_sb sb_size] in Hr.
  rewrite mview_used in Hu by (done || lia). apply Z.ltb_lt in Hu. lia.
Qed.

Lemma din_addr_at n i : 0 <= i -> din_addr n i = addr_at n (Z.to_nat i).
Proof. done. Qed.

Lemma set_din_addr_at n i a : set_din_addr n i a = set_addr_at n (Z.to_nat i) a.
Proof. done. Qed.

Lemma xint_addr V n i :
  file_ok mkfs_sb V n -> 0 <= i < NDIRECT + 1 -> xint (din_addr n i) = addr_at n (Z.to_nat i).
Proof.
  intros Hf Hi. rewrite din_addr_at by lia. apply xint_small.
  pose proof (file_ok_addrs 2 LOGSIZE mkfs_geometry mkfs_sb image_layout V n Hf) as Ha.
  destruct (lookup_lt_is_Some_2 (i_addrs n) (Z.to_nat i)) as [a Ea]; [rewrite (fo_len _ _ _ Hf); plia|].
  unfold addr_at. rewrite Ea. rewrite Forall_lookup in Ha. by apply (Ha _ _ Ea).
Qed.

(** The state after a block [bn] of [n] has been looked up or allocated. *)
Record got s n (bn a : Z) s' n' : Prop := {
  got_inv : minv s';
  got_bmapped : bmapped mkfs_sb (mview s) n bn a (mview s') n';
  got_inode : m_freeinode s' = m_freeinode s;
  got_ind : addr_at n' 12 = 0 <-> addr_at n 12 = 0 /\ bn < NDIRECT;
  got_free : m_freeblock s' = m_freeblock s + (if fblk (mview s) n bn =? 0 then 1 else 0) +
    (if decide (addr_at n 12 = 0 /\ addr_at n' 12 <> 0) then 1 else 0);
}.

Lemma got_there s n bn : minv s -> file_ok mkfs_sb (mview s) n -> 0 <= bn < MAXFILE ->
  fblk (mview s) n bn <> 0 -> got s n bn (fblk (mview s) n bn) s n.
Proof.
  intros Hi Hf Hbn Hne. split; try done.
  - apply bmapped_there; [by apply mview_meta|done|done].
  - split; [|tauto]. intros Hz. split; [done|]. unfold fblk in Hne.
    destruct (Z.ltb_spec bn NDIRECT); [done|]. by rewrite Hz in Hne.
  - destruct (Z.eqb_spec (fblk (mview s) n bn) 0); [done|]. rewrite decide_False by tauto. lia.
Qed.

Lemma wp_iappend_direct s n bn (Q : inode * Z -> mkfs -> Prop) :
  minv s -> file_ok mkfs_sb (mview s) n -> 0 <= bn < NDIRECT ->
  (fblk (mview s) n bn = 0 -> m_freeblock s < FSSIZE) ->
  (forall a s' n', got s n bn a s' n' -> Q (n', a) s') ->
  wp (iappend_block n bn) Q s.
Proof.
  intros Hi Hf Hbn Hfree HQ. unfold iappend_block. destruct (Z.ltb_spec bn NDIRECT); [|lia].
  assert (Eb : fblk (mview s) n bn = addr_at n (Z.to_nat bn)).
  { unfold fblk. destruct (Z.ltb_spec bn NDIRECT); [done|lia]. }
  rewrite (xint_addr (mview s)) by (done || plia). destruct (Z.eqb_spec (addr_at n (Z.to_nat bn)) 0) as [E|E].
  - apply wp_bind, wp_bind. apply wp_next_block; [done|apply Hfree; congruence|].
    intros s' Hi' Hal Hfb Hfi. apply wp_ret, wp_ret. rewrite set_din_addr_at.
    destruct mkfs_layout as [Hl1 Hl2].
    pose proof (bmapped_direct _ _ _ _ n Hl1 Hl2 Hf Hal (mview_meta _ Hi) bn Hbn ltac:(congruence)) as Hbm.
    assert (Ha : addr_at (set_addr_at n (Z.to_nat bn) (m_freeblock s)) (Z.to_nat bn) = m_freeblock s).
    { rewrite addr_at_set, decide_True; [done|done|]. rewrite (fo_len _ _ _ Hf). plia. }
    rewrite (xint_addr (mview s')) by (apply Hbm || plia). rewrite Ha. apply HQ. split; try done.
    + rewrite addr_at_set by (rewrite (fo_len _ _ _ Hf); plia). rewrite decide_False by plia. tauto.
    + rewrite Eb, E, Hfb. cbn [Z.eqb]. rewrite decide_False; [lia|].
      rewrite addr_at_set by (rewrite (fo_len _ _ _ Hf); plia). rewrite (decide_False (P := (12%nat = _))) by plia. tauto.
  - apply wp_bind, wp_ret, wp_ret. rewrite (xint_addr (mview s)) by (done || plia). apply HQ.
    rewrite <- Eb. apply got_there; [done|done|plia|congruence].
Qed.

Lemma wp_iappend_indirect s n j (Q : Z -> mkfs -> Prop) :
  minv s -> file_ok mkfs_sb (mview s) n -> 0 <= j < NINDIRECT -> addr_at n 12 <> 0 ->
  (fblk (mview s) n (NDIRECT + j) = 0 -> m_freeblock s < FSSIZE) ->
  (forall a s', got s n (NDIRECT + j) a s' n -> Q a s') ->
  wp (iappend_indirect (addr_at n 12) j) Q s.
Proof.
  intros Hi Hf Hj Hind Hfree HQ. unfold iappend_indirect.
  assert (Hdi : data_used mkfs_sb (mview s) (addr_at n 12)) by (by destruct (fo_ind _ _ _ Hf)).
  destruct (data_block_range _ _ Hdi) as [Hr Hn45].
  assert (Eb : fblk (mview s) n (NDIRECT + j) = ind_at (mview s) n j).
  { unfold fblk. destruct (Z.ltb_spec (NDIRECT + j) NDIRECT); [lia|].
    destruct (Z.eqb_spec (addr_at n 12) 0); [done|]. by rewrite Z.add_simpl_l. }
  apply wp_bind. apply wp_rsect; [done..|]. fold (ind_at (mview s) n j).
  destruct (Z.eqb_spec (ind_at (mview s) n j) 0) as [E|E].
  - apply wp_bind, wp_bind. apply wp_next_block; [done|apply Hfree; congruence|].
    intros s1 Hi1 Hal Hfb Hfi. destruct mkfs_layout as [Hl1 Hl2].
    pose proof (mi_free _ Hi) as Hfr. pose proof (mi_free _ Hi1).
    pose proof (bmapped_indirect _ _ _ _ n Hl1 Hl2 Hf Hal (mview_meta _ Hi) j Hj Hind E
      (mview_len _ _ Hi) ltac:(plia)) as Hbm.
    rewrite (allocated_keep _ _ _ _ _ Hal Hdi) in Hbm.
    apply wp_bind. apply wp_wsect; [done|rewrite Hfb; pose proof (data_allocated _ _ Hi Hdi); lia|done| |].
    { apply put_block_ok; [by apply mview_ok|apply le_bytes_bytes|]. rewrite length_le_bytes. plia. }
    intros s' Hi' Hv [Hfb' Hfi']. apply wp_ret, wp_ret. rewrite get32_put32 by (rewrite mview_len by done; plia).
    rewrite u32_small, xint_small by plia. apply HQ. split.
    + done.
    + by rewrite Hv.
    + congruence.
    + split; [done|tauto].
    + rewrite Eb, E, Hfb', Hfb. cbn [Z.eqb]. rewrite decide_False by tauto. lia.
  - apply wp_bind, wp_ret, wp_ret. fold (ind_at (mview s) n j).
    assert (Hd : data_used mkfs_sb (mview s) (fblk (mview s) n (NDIRECT + j))).
    { destruct (fo_blk _ _ _ Hf (NDIRECT + j)); [plia|congruence|done]. }
    rewrite <- Eb in *. rewrite xint_small; [|destruct (data_block_range _ _ Hd); plia].
    apply HQ. apply got_there; [done|done|plia|done].
Qed.

Lemma got_after_indirect s b s1 s' n bn a :
  minv s -> file_ok mkfs_sb (mview s) n -> allocated mkfs_sb (mview s) b (mview s1) -> addr_at n 12 = 0 ->
  NDIRECT <= bn < MAXFILE -> m_freeblock s1 = m_freeblock s + 1 -> m_freeinode s1 = m_freeinode s ->
  got s1 (set_addr_at n 12 b) bn a s' (set_addr_at n 12 b) -> got s n bn a s' (set_addr_at n 12 b).
Proof.
  intros Hi Hf Hal Hz Hbn Hfb Hfi [G1 G2 G3 G4 G5]. destruct mkfs_layout as [Hl1 Hl2].
  destruct (indirect_added _ _ _ _ n Hl1 Hl2 Hf Hal (mview_meta _ Hi) Hz) as [Hf1 Hsame].
  assert (Hn0 : fblk (mview s) n bn = 0).
  { unfold fblk. destruct (Z.ltb_spec bn NDIRECT); [lia|]. by rewrite Hz. }
  assert (Eb : addr_at (set_addr_at n 12 b) 12 = b).
  { rewrite addr_at_set, decide_True; [done|done|]. rewrite (fo_len _ _ _ Hf). lia. }
  assert (Hb : b <> 0) by (pose proof (al_data _ _ _ _ Hal); rewrite dstart_mkfs in *; lia).
  split; try done.
  - apply (bmapped_after_indirect _ _ b (mview s1)); try done. plia.
  - congruence.
  - rewrite Eb. split; [done|lia].
  - rewrite G5, Hfb, (Hsame bn), Hn0 by plia. rewrite Eb, (decide_False (P := b = 0 /\ b <> 0)) by tauto.
    rewrite decide_True by done. cbn [Z.eqb]. lia.
Qed.

(** How many blocks [iappend_block] takes. *)
Definition needs V n (bn : Z) : Z :=
  (if fblk V n bn =? 0 then 1 else 0) + (if (NDIRECT <=? bn) && (addr_at n 12 =? 0) then 1 else 0).

Lemma wp_iappend_block s n bn (Q : inode * Z -> mkfs -> Prop) :
  minv s -> file_ok mkfs_sb (mview s) n -> 0 <= bn < MAXFILE ->
  m_freeblock s + needs (mview s) n bn <= FSSIZE ->
  (forall a s' n', got s n bn a s' n' -> Q (n', a) s') ->
  wp (iappend_block n bn) Q s.
Proof.
  intros Hi Hf Hbn Hfree HQ. unfold needs in Hfree. destruct (decide (bn < NDIRECT)) as [Hd|Hd].
  { apply wp_iappend_direct; [done|done|lia| |done]. intros E. rewrite E in Hfree. cbn [Z.eqb] in Hfree.
    destruct (Z.leb_spec NDIRECT bn); [lia|]. cbn [andb] in Hfree. lia. }
  unfold iappend_block. destruct (Z.ltb_spec bn NDIRECT); [lia|].
  destruct (Z.leb_spec NDIRECT bn); [|lia]. cbn [andb] in Hfree.
  rewrite (xint_addr (mview s)) by (done || plia). change (Z.to_nat NDIRECT) with 12%nat.
  pose proof (mi_free _ Hi). destruct (Z.eqb_spec (addr_at n 12) 0) as [E|E].
  - assert (Hn0 : fblk (mview s) n bn = 0).
    { unfold fblk. destruct (Z.ltb_spec bn NDIRECT); [lia|]. by rewrite E. }
    rewrite Hn0 in Hfree. cbn [Z.eqb] in Hfree.
    apply wp_bind, wp_bind. apply wp_next_block; [done|lia|]. intros s1 Hi1 Hal Hfb Hfi. apply wp_ret.
    rewrite set_din_addr_at. change (Z.to_nat NDIRECT) with 12%nat. destruct mkfs_layout as [Hl1 Hl2].
    destruct (indirect_added _ _ _ _ n Hl1 Hl2 Hf Hal (mview_meta _ Hi) E) as [Hf1 Hsame].
    assert (Eb : addr_at (set_addr_at n 12 (m_freeblock s)) 12 = m_freeblock s).
    { rewrite addr_at_set, decide_True; [done|done|]. rewrite (fo_len _ _ _ Hf). lia. }
    rewrite (xint_addr (mview s1)) by (done || plia). change (Z.to_nat NDIRECT) with 12%nat.
    apply wp_bind. apply wp_iappend_indirect; [done|done|plia|rewrite Eb; lia|intros _; lia|].
    intros a s' Hg. rewrite Zplus_minus in Hg. apply wp_ret. apply HQ.
    apply (got_after_indirect s (m_freeblock s) s1); done || lia.
  - apply wp_bind, wp_ret. rewrite (xint_addr (mview s)) by (done || plia). change (Z.to_nat NDIRECT) with 12%nat.
    apply wp_bind. apply wp_iappend_indirect; [done|done|plia|done| |].
    + rewrite Zplus_minus. intros E'. rewrite E' in Hfree. cbn [Z.eqb] in Hfree. lia.
    + intros a s' Hg. rewrite Zplus_minus in Hg. apply wp_ret. by apply HQ.
Qed.

(** Filling block by block. *)
Lemma needs_filled V n k bn :
  filled V n k -> 0 <= bn < MAXFILE -> bn <= k -> needs V n bn = nblk (Z.max k (bn + 1)) - nblk k.
Proof.
  intros [Hb Hi] Hbn Hk. unfold needs, nblk. specialize (Hb bn Hbn).
  destruct (Z.eqb_spec (fblk V n bn) 0), (Z.eqb_spec (addr_at n 12) 0), (Z.leb_spec NDIRECT bn); cbn [andb];
    destruct (Z.ltb_spec NDIRECT k), (Z.ltb_spec NDIRECT (Z.max k (bn + 1))); lia.
Qed.

Lemma got_filled s n k bn a s' n' :
  got s n bn a s' n' -> filled (mview s) n k -> 0 <= bn < MAXFILE -> bn <= k ->
  filled (mview s') n' (Z.max k (bn + 1)) /\
  m_freeblock s' = m_freeblock s + nblk (Z.max k (bn + 1)) - nblk k.
Proof.
  intros [_ G2 _ G4 G5] Hfl Hbn Hk. pose proof Hfl as [Hb Hi]. split; [split|].
  - intros x Hx. destruct (decide (x = bn)) as [->|Hne].
    + rewrite (bm_there _ _ _ _ _ _ _ G2). pose proof (bm_nz _ _ _ _ _ _ _ G2). split; [lia|done].
    + rewrite (bm_others _ _ _ _ _ _ _ G2) by done. rewrite Hb by done. lia.
  - destruct (decide (addr_at n' 12 = 0)); [|destruct (decide (addr_at n 12 = 0))]; lia.
  - rewrite G5. pose proof (needs_filled _ _ _ _ Hfl Hbn Hk) as Hn. unfold needs in Hn.
    assert ((if decide (addr_at n 12 = 0 /\ addr_at n' 12 <> 0) then 1 else 0) =
      (if (NDIRECT <=? bn) && (addr_at n 12 =? 0) then 1 else 0)) as ->; [|lia].
    destruct (Z.leb_spec NDIRECT bn), (Z.eqb_spec (addr_at n 12) 0); cbn [andb]; case_decide; tauto || lia.
Qed.

(** The state after [p] has been stored at [off] of [n], which ended there. *)
Record appended s n (off : Z) (p : list Z) s' n' : Prop := {
  ap_inv : minv s';
  ap_wrote : wrote mkfs_sb (mview s) n off p (mview s') n';
  ap_inode : m_freeinode s' = m_freeinode s;
  ap_filled : filled (mview s') n' (blocks_of (off + Z.of_nat (length p)));
  ap_free : m_freeblock s' =
    m_freeblock s + nblk (blocks_of (off + Z.of_nat (length p))) - nblk (blocks_of off);
}.

(** One round stores the bytes that fit into the block at [off]. *)
Lemma wp_iappend_round s n off p m (Q : inode * Z * list Z + inode * Z -> mkfs -> Prop) :
  minv s -> file_ok mkfs_sb (mview s) n -> filled (mview s) n (blocks_of off) -> is_bytes p ->
  0 <= off -> off + Z.of_nat (length p) <= MAXFILE * BSIZE -> p <> [] ->
  m = Z.min (Z.of_nat (length p)) (BSIZE - off mod BSIZE) ->
  m_freeblock s + nblk (blocks_of (off + m)) - nblk (blocks_of off) <= FSSIZE ->
  (forall s' n', appended s n off (take (Z.to_nat m) p) s' n' ->
     Q (inl (n', off + m, drop (Z.to_nat m) p)) s') ->
  wp (iappend_round (n, off, p)) Q s.
Proof.
  intros Hi Hf Hfl Hb Hoff Hmax Hp Hm Hfree HQ.
  assert (Hlp : 0 < Z.of_nat (length p)) by (destruct p; simpl; [done|lia]).
  assert (Hmr : 0 < m <= Z.of_nat (length p) /\ off mod BSIZE + m <= BSIZE) by plia.
  assert (Hbn : 0 <= off / BSIZE < MAXFILE) by plia.
  assert (Hk : off / BSIZE <= blocks_of off) by (unfold blocks_of; plia).
  assert (Hk' : Z.max (blocks_of off) (off / BSIZE + 1) = blocks_of (off + m)) by (unfold blocks_of; plia).
  assert (Hlen : Z.of_nat (length (take (Z.to_nat m) p)) = m) by (rewrite length_take; lia).
  unfold iappend_round. destruct (Z.ltb_spec 0 (Z.of_nat (length p))); [|lia].
  apply wp_bind. unfold assert_. destruct (Z.ltb_spec (off / BSIZE) MAXFILE); [|lia]. apply wp_ret.
  apply wp_bind. apply wp_iappend_block; [done..| |].
  { rewrite (needs_filled _ _ _ _ Hfl) by done. rewrite Hk'. lia. }
  intros a s1 n1 Hg. destruct (got_filled _ _ _ _ _ _ _ Hg Hfl Hbn Hk) as [Hfl1 Hfr1].
  rewrite Hk' in *. destruct Hg as [Hi1 Hbm Hfi1 _ _]. destruct mkfs_layout as [Hl1 Hl2].
  assert (Ho : 0 <= off < MAXFILE * BSIZE) by lia.
  assert (Hin : off mod BSIZE + Z.of_nat (length (take (Z.to_nat m) p)) <= BSIZE) by (rewrite Hlen; lia).
  pose proof (store_data _ _ _ _ _ _ _ _ Hl2 Hf Ho Hbm (mview_len _ _ Hi1) Hin) as Hda.
  destruct (data_block_range _ _ Hda) as [Hr Hn45].
  apply wp_bind. apply wp_rsect; [done..|].
  rewrite u32_small by plia.
  replace (Z.min (Z.of_nat (length p)) ((off / BSIZE + 1) * BSIZE - off)) with m by plia.
  replace (off - off / BSIZE * BSIZE) with (off mod BSIZE) by plia.
  apply wp_bind. apply wp_wsect; [done|by apply data_allocated|done| |].
  { apply put_block_ok; [by apply mview_ok|by apply Forall_take|]. plia. }
  intros s2 Hi2 Hv [Hfb2 Hfi2]. apply wp_ret. rewrite u32_small by plia. apply HQ. split; rewrite ?Hlen.
  - done.
  - rewrite Hv. apply store_wrote; try done; [by apply mview_len|lia].
  - congruence.
  - rewrite Hv. destruct Hfl1 as [F1 F2]. split; [|done]. intros bn Hbn'. rewrite <- F1 by done.
    by erewrite store_fblk by (done || lia || by apply mview_len).
  - lia.
Qed.

Lemma blocks_of_mono x y : x <= y -> blocks_of x <= blocks_of y.
Proof. unfold blocks_of. plia. Qed.

Lemma nblk_mono x y : x <= y -> nblk x <= nblk y.
Proof. unfold nblk. destruct (Z.ltb_spec NDIRECT x), (Z.ltb_spec NDIRECT y); lia. Qed.

Lemma appended_nil s n off : minv s -> file_ok mkfs_sb (mview s) n -> filled (mview s) n (blocks_of off) ->
  appended s n off [] s n.
Proof.
  intros Hi Hf Hfl. split; try done; [apply wrote_nil; [by apply mview_meta|done]|by rewrite Z.add_0_r|].
  rewrite Z.add_0_r. lia.
Qed.

Lemma appended_app s n off p1 s1 n1 p2 s2 n2 :
  0 <= off -> off + Z.of_nat (length (p1 ++ p2)) <= MAXFILE * BSIZE ->
  appended s n off p1 s1 n1 -> appended s1 n1 (off + Z.of_nat (length p1)) p2 s2 n2 ->
  appended s n off (p1 ++ p2) s2 n2.
Proof.
  intros Ho Hm [A1 A2 A3 A4 A5] [B1 B2 B3 B4 B5]. destruct mkfs_layout as [_ Hl2].
  assert (E : off + Z.of_nat (length (p1 ++ p2)) = off + Z.of_nat (length p1) + Z.of_nat (length p2))
    by (rewrite length_app; lia).
  split; rewrite ?E; [done|by eapply wrote_app|congruence|done|lia].
Qed.

Lemma wp_iappend_loop f : forall s n off p (Q : inode * Z -> mkfs -> Prop),
  minv s -> file_ok mkfs_sb (mview s) n -> filled (mview s) n (blocks_of off) -> is_bytes p ->
  0 <= off -> off + Z.of_nat (length p) <= MAXFILE * BSIZE -> (length p < f)%nat ->
  m_freeblock s + nblk (blocks_of (off + Z.of_nat (length p))) - nblk (blocks_of off) <= FSSIZE ->
  (forall s' n', appended s n off p s' n' -> Q (n', off + Z.of_nat (length p)) s') ->
  wp (loop f iappend_round (n, off, p)) Q s.
Proof.
  induction f as [|f IH]; intros s n off p Q Hi Hf Hfl Hb Hoff Hmax Hlt Hfree HQ; [lia|]. apply wp_loop.
  destruct (decide (p = [])) as [->|Hp].
  { apply wp_ret. rewrite Z.add_0_r in HQ. by apply HQ, appended_nil. }
  set (m := Z.min (Z.of_nat (length p)) (BSIZE - off mod BSIZE)).
  assert (Hlp : 0 < Z.of_nat (length p)) by (destruct p; simpl; [done|lia]).
  assert (Hm : 0 < m <= Z.of_nat (length p)) by (unfold m; plia).
  assert (Hl1 : Z.of_nat (length (take (Z.to_nat m) p)) = m) by (rewrite length_take; lia).
  assert (Hl2 : Z.of_nat (length (drop (Z.to_nat m) p)) = Z.of_nat (length p) - m) by (rewrite length_drop; lia).
  assert (Hmono := nblk_mono _ _ (blocks_of_mono (off + m) (off + Z.of_nat (length p)) ltac:(lia))).
  eapply (wp_iappend_round s n off p m); try done; [lia|]. intros s1 n1 Hap. pose proof Hap as [A1 A2 A3 A4 A5].
  rewrite Hl1 in A4, A5. apply IH; try done.
  - apply A2.
  - by apply Forall_drop.
  - lia.
  - lia.
  - lia.
  - rewrite Hl2. replace (off + m + (Z.of_nat (length p) - m)) with (off + Z.of_nat (length p)) by lia. lia.
  - intros s2 n2 Hap2. rewrite Hl2. replace (off + m + (Z.of_nat (length p) - m)) with (off + Z.of_nat (length p)) by lia.
    apply HQ. rewrite <- (take_drop (Z.to_nat m) p). eapply appended_app; [done|by rewrite take_drop|done|].
    by rewrite Hl1.
Qed.
