(* ===== verification/MkfsFiles.v ===== *)
(** The image under construction as a list of files: ialloc and iappend of
    mkfs/mkfs.c refine adding an empty file and appending to one. *)

From stdpp Require Import base numbers list gmap strings.
From S2P Require Import Prelude Params Mem State Locks Cache Log LogBio Fs FsTx FsBlocks FsBoot FsInode FsBmap FsWrite Mkfs MkfsAppend.

Implicit Types (V : Z -> list Z) (n m : inode) (s : mkfs).

(** ** Inodes in the image *)

Definition node V (j : Z) : inode := dinode_of mkfs_sb V j (din0 j).

Lemma inode_block j : inum_ok mkfs_sb j ->
  IBLOCK j (sb_inodestart mkfs_sb) = iblock mkfs_sb j /\ 32 <= iblock mkfs_sb j < 45.
Proof.
  intros Hj. split; [done|]. by apply (iblock_range 2 LOGSIZE mkfs_geometry mkfs_sb image_layout).
Qed.

Lemma wp_rinode s j (Q : inode -> mkfs -> Prop) :
  minv s -> inum_ok mkfs_sb j -> Q (node (mview s) j) s -> wp (rinode j) Q s.
Proof.
  intros Hi Hj HQ. unfold rinode. apply wp_bind, wp_gets. rewrite (mi_sb _ Hi).
  destruct (inode_block j Hj) as [-> Hr]. apply wp_bind. apply wp_rsect; [done|plia|lia|]. by apply wp_ret.
Qed.

Lemma wp_winode s j n (Q : unit -> mkfs -> Prop) :
  minv s -> inum_ok mkfs_sb j -> i_inum n = j -> length (i_addrs n) = 13%nat ->
  (forall s', minv s' -> mview s' = iupdated mkfs_sb (mview s) n -> same_counts s s' -> Q tt s') ->
  wp (winode j n) Q s.
Proof.
  intros Hi Hj Hn Hl HQ. unfold winode. apply wp_bind, wp_gets. rewrite (mi_sb _ Hi).
  destruct (inode_block j Hj) as [-> Hr]. pose proof (mi_free _ Hi).
  apply wp_bind. apply wp_rsect; [done|plia|lia|].
  pose proof (dinode_off_range j ltac:(apply Hj)) as Ho. rewrite put_dinode_bytes by (rewrite ?mview_len by done; done).
  apply wp_wsect; [done|lia|lia| |].
  - apply put_block_ok; [by apply mview_ok|apply dinode_bytes_bytes|]. by rewrite length_dinode_bytes.
  - intros s' Hi' Hv Hc. apply HQ; [done| |done]. rewrite Hv. unfold iupdated. rewrite Hn.
    by rewrite put_dinode_bytes by (rewrite ?mview_len by done; done).
Qed.

(** ** The contents of a file *)

(** Past its end, the last block of a file is zero. *)
Record holds V n (ty : Z) (data : list Z) : Prop := {
  ho_wf : file_wf mkfs_sb V n;
  ho_filled : filled V n (blocks_of (Z.of_nat (length data)));
  ho_type : i_type n = ty;
  ho_nlink : i_nlink n = 1;
  ho_size : i_size n = Z.of_nat (length data);
  ho_bytes : forall x, 0 <= x < blocks_of (Z.of_nat (length data)) * BSIZE ->
    fbyte V n x = default 0 (data !! Z.to_nat x);
}.

Definition cost (data : list Z) : Z := nblk (blocks_of (Z.of_nat (length data))).

Lemma holds_max V n ty data : holds V n ty data -> Z.of_nat (length data) <= MAXFILE * BSIZE.
Proof. intros [Hw _ _ _ <- _]. apply Hw. Qed.

Lemma holds_mapped V n ty data x :
  holds V n ty data -> 0 <= x < blocks_of (Z.of_nat (length data)) * BSIZE -> x / BSIZE < MAXFILE ->
  fblk V n (x / BSIZE) <> 0.
Proof. intros H Hx Hm. apply (ho_filled _ _ _ _ H); [plia|]. plia. Qed.

Lemma holds_data V n ty data : holds V n ty data -> fdata V n 0 (length data) = data.
Proof.
  intros H. apply list_eq. intros i. unfold fdata. rewrite list_lookup_fmap.
  destruct (decide (i < length data)%nat) as [Hi|Hi].
  - rewrite lookup_seq_lt by done. cbn [fmap option_fmap option_map].
    rewrite (ho_bytes _ _ _ _ H) by (unfold blocks_of; plia).
    replace (Z.to_nat (0 + Z.of_nat (0 + i))) with i by lia.
    by destruct (lookup_lt_is_Some_2 data i Hi) as [c ->].
  - rewrite lookup_seq_ge by lia. symmetry. apply lookup_ge_None. lia.
Qed.

Lemma holds_same V V' m ty data : same_file mkfs_sb V V' m -> holds V m ty data -> holds V' m ty data.
Proof.
  intros (S1 & S2 & S3) H. pose proof (holds_max _ _ _ _ H) as Hmax. pose proof H as [[W1 W2 W3 W4 W5] [F1 F2] H3 H4 H5 H6].
  split; try done.
  - split; try done. intros x Hx. rewrite S2 by plia. by apply W5.
  - split; [|done]. intros bn Hbn. rewrite S2 by done. by apply F1.
  - intros x Hx. assert (x / BSIZE < MAXFILE) by (unfold blocks_of in Hx; plia).
    rewrite S3; [by apply H6|plia|]. by eapply holds_mapped.
Qed.

(** ** The files of the image *)

(** The blocks of a file. *)
Lemma has_block_used V n a : file_ok mkfs_sb V n -> has_block V n a -> data_used mkfs_sb V a.
Proof.
  intros Hf [Hne [->|(bn & Hbn & <-)]].
  - by destruct (fo_ind _ _ _ Hf).
  - by destruct (fo_blk _ _ _ Hf bn Hbn).
Qed.

Lemma same_file_blocks V V' m a : same_file mkfs_sb V V' m -> has_block V' m a -> has_block V m a.
Proof.
  intros (_ & S2 & _) [Hne [E|(bn & Hbn & E)]]; split; try done; [by left|right].
  exists bn. by rewrite <- S2.
Qed.

(** [fs] are the types and contents of the files from inode 1 on. *)
Record files (fs : list (Z * list Z)) (sbb : list Z) s : Prop := {
  fi_inv : minv s;
  fi_inode : m_freeinode s = 1 + Z.of_nat (length fs);
  fi_count : Z.of_nat (length fs) < NINODES;
  fi_free : m_freeblock s = 46 + foldr Z.add 0 ((fun f => cost f.2) <$> fs);
  fi_files : forall i ty data, fs !! i = Some (ty, data) ->
    holds (mview s) (node (mview s) (1 + Z.of_nat i)) ty data;
  fi_disjoint : forall i j, i <> j -> (i < length fs)%nat -> (j < length fs)%nat ->
    disjoint_files (mview s) (node (mview s) (1 + Z.of_nat i)) (node (mview s) (1 + Z.of_nat j));
  fi_low : forall y, 0 <= y < 32 -> mview s y = if decide (y = 1) then sbb else zero_block;
}.

Lemma inum_ok_lt i : Z.of_nat i < NINODES -> inum_ok mkfs_sb (1 + Z.of_nat i).
Proof.
  intros Hi. unfold NINODES in Hi. split; [lia|]. cbn [mkfs_sb sb_inodestart sb_bmapstart].
  change IPB with 16. plia.
Qed.

Section Change.
(** One file, [n], of the image changes into [n']; [Hnew] says where its
    blocks come from. *)
Context (fs : list (Z * list Z)) (sbb : list Z) (s s' : mkfs) (i : nat) (n n' : inode) (off : Z) (p : list Z).
Context (Hfs : files fs sbb s) (Hw : written mkfs_sb (mview s) n off p (mview s') n').
Context (Hin : i_inum n = 1 + Z.of_nat i).
Context (Hdis : forall j, j <> i -> (j < length fs)%nat ->
  disjoint_files (mview s) n (node (mview s) (1 + Z.of_nat j))).
Context (Hnew : forall a, has_block (mview s') n' a -> has_block (mview s) n a \/ used mkfs_sb (mview s) a = false).

Lemma other_node j : j <> i -> (j < length fs)%nat ->
  node (mview s') (1 + Z.of_nat j) = node (mview s) (1 + Z.of_nat j).
Proof using All.
  intros Hne Hj. unfold node. apply (wn_dinodes _ _ _ _ _ _ _ Hw).
  - apply inum_ok_lt. pose proof (fi_count _ _ _ Hfs). lia.
  - lia.
Qed.

Lemma node_file j : (j < length fs)%nat -> file_ok mkfs_sb (mview s) (node (mview s) (1 + Z.of_nat j)).
Proof using Hfs.
  intros Hj. destruct (lookup_lt_is_Some_2 fs j Hj) as [[ty d] E].
  by destruct (fi_files _ _ _ Hfs _ _ _ E) as [[]].
Qed.

Lemma other_same j : j <> i -> (j < length fs)%nat ->
  same_file mkfs_sb (mview s) (mview s') (node (mview s) (1 + Z.of_nat j)).
Proof using All.
  intros Hne Hj. apply (wn_others _ _ _ _ _ _ _ Hw); [by apply node_file|by apply Hdis].
Qed.

Lemma other_holds j ty data : j <> i -> fs !! j = Some (ty, data) ->
  holds (mview s') (node (mview s') (1 + Z.of_nat j)) ty data.
Proof using All.
  intros Hne E. pose proof (lookup_lt_Some _ _ _ E). rewrite other_node by done.
  eapply holds_same; [by apply other_same|]. by apply (fi_files _ _ _ Hfs).
Qed.

Lemma other_apart j : j <> i -> (j < length fs)%nat ->
  disjoint_files (mview s') n' (node (mview s') (1 + Z.of_nat j)) /\
  disjoint_files (mview s') (node (mview s') (1 + Z.of_nat j)) n'.
Proof using All.
  intros Hne Hj. rewrite other_node by done.
  assert (Hno : forall a, has_block (mview s') (node (mview s) (1 + Z.of_nat j)) a -> ~ has_block (mview s') n' a).
  { intros a Ha Hb. apply (same_file_blocks _ _ _ _ (other_same j Hne Hj)) in Ha.
    destruct (Hnew a Hb) as [Hn|Hu]; [by apply (Hdis j Hne Hj a Ha)|].
    destruct (has_block_used _ _ _ (node_file j Hj) Ha) as [_ Hu']. congruence. }
  split; intros a Ha Hb; by eapply Hno.
Qed.

Lemma others_apart j k : j <> i -> k <> i -> j <> k -> (j < length fs)%nat -> (k < length fs)%nat ->
  disjoint_files (mview s') (node (mview s') (1 + Z.of_nat j)) (node (mview s') (1 + Z.of_nat k)).
Proof using All.
  intros Hj Hk Hjk Hlj Hlk a Ha Hb. rewrite other_node in Ha, Hb by done.
  apply (same_file_blocks _ _ _ _ (other_same k Hk Hlk)) in Ha.
  apply (same_file_blocks _ _ _ _ (other_same j Hj Hlj)) in Hb.
  by apply (fi_disjoint _ _ _ Hfs j k Hjk Hlj Hlk a Ha).
Qed.
End Change.

(** ** ialloc *)

Definition new_inode (ty j : Z) : inode := set_i_nlink 1 (set_i_type ty (din0 j)).

Lemma new_inode_fblk V ty j bn : 0 <= bn < MAXFILE -> fblk V (new_inode ty j) bn = 0.
Proof.
  intros Hbn. unfold fblk. destruct (Z.ltb_spec bn NDIRECT); [|done].
  unfold addr_at. cbn [new_inode set_i_nlink set_i_type din0 i_addrs].
  destruct (replicate 13 0 !! Z.to_nat bn) eqn:E; [|done]. by apply lookup_replicate in E as [-> _].
Qed.

Lemma new_inode_no_block V ty j a : ~ has_block V (new_inode ty j) a.
Proof. intros [Hne [->|(bn & Hbn & E)]]; [done|]. rewrite new_inode_fblk in E by done. congruence. Qed.

Lemma new_inode_wf V ty j : 0 <= ty < 32768 -> inum_ok mkfs_sb j -> file_wf mkfs_sb V (new_inode ty j).
Proof.
  intros Hty Hj. split; [split| | | |].
  - done.
  - done.
  - intros bn Hbn. left. by apply new_inode_fblk.
  - by left.
  - intros x y Hx Hy Hne. by rewrite new_inode_fblk in Hne.
  - intros bn Hbn Hne. by rewrite new_inode_fblk in Hne.
  - split; try done; [cbn; lia|]. by apply Forall_replicate.
  - done.
  - cbn. plia.
  - intros x Hx. cbn in Hx. lia.
Qed.

Lemma new_inode_holds V ty j : 0 <= ty < 32768 -> inum_ok mkfs_sb j -> holds V (new_inode ty j) ty [].
Proof.
  intros Hty Hj. split; try done.
  - by apply new_inode_wf.
  - split; [|done]. intros bn Hbn. rewrite new_inode_fblk by done. change (blocks_of _) with 0. lia.
  - intros x Hx. change (blocks_of _) with 0 in Hx. lia.
Qed.

Lemma new_inode_written s s' ty j :
  0 <= ty < 32768 -> inum_ok mkfs_sb j -> minv s ->
  mview s' = iupdated mkfs_sb (mview s) (new_inode ty j) ->
  written mkfs_sb (mview s) (new_inode ty j) 0 [] (mview s') (new_inode ty j).
Proof.
  intros Hty Hj Hi Hv. pose proof (new_inode_wf (mview s) ty j Hty Hj) as Hwf. rewrite Hv.
  refine (written_intro 1 2 LOGSIZE mkfs_geometry mkfs_sb image_layout (mview s) (new_inode ty j) 0 [] (mview s)
    (new_inode ty j) Hwf _ (fun b => mview_len s b Hi) _ _).
  - apply wrote_nil; [by apply mview_meta|apply Hwf].
  - cbn. lia.
  - cbn. plia.
Qed.

Lemma low_iupdated V n y : inum_ok mkfs_sb (i_inum n) -> y < 32 -> iupdated mkfs_sb V n y = V y.
Proof. intros Hj Hy. unfold iupdated. destruct (inode_block _ Hj). by rewrite vupd_ne by lia. Qed.

Lemma set_freeinode_inv s j : minv s -> minv (set_m_freeinode j s).
Proof. by intros []. Qed.

Lemma files_ialloc fs sbb s ty (Q : Z -> mkfs -> Prop) :
  files fs sbb s -> 0 <= ty < 32768 -> Z.of_nat (length fs) + 1 < NINODES ->
  (forall s', files (fs ++ [(ty, [])]) sbb s' -> Q (1 + Z.of_nat (length fs)) s') ->
  wp (ialloc ty) Q s.
Proof.
  intros Hfs Hty Hlt HQ. unfold ialloc. apply wp_bind, wp_gets, wp_bind, wp_modify.
  rewrite (fi_inode _ _ _ Hfs). set (j := 1 + Z.of_nat (length fs)).
  change (xint 0) with 0. change (xshort 1) with 1. rewrite xshort_mod, Z.mod_small by lia.
  assert (Hj : inum_ok mkfs_sb j) by (apply inum_ok_lt; lia).
  pose proof (fi_inv _ _ _ Hfs) as Hi. unfold NINODES in *.
  apply wp_bind. apply (wp_winode _ j (new_inode ty j)); [by apply set_freeinode_inv|done|done|done|].
  intros s' Hi' Hv [Hfb Hfi]. apply wp_ret, HQ. change (mview (set_m_freeinode _ s)) with (mview s) in Hv.
  cbn [set_m_freeinode m_freeblock m_freeinode] in Hfb, Hfi. rewrite u32_small in Hfi by plia.
  pose proof (new_inode_written s s' ty j Hty Hj Hi Hv) as Hw.
  assert (Hnode : node (mview s') j = new_inode ty j) by (unfold node; by rewrite (wn_disk _ _ _ _ _ _ _ Hw)).
  assert (Hdis : forall k, k <> length fs -> (k < length fs)%nat ->
    disjoint_files (mview s) (new_inode ty j) (node (mview s) (1 + Z.of_nat k)))
    by (intros k _ _ a _; apply new_inode_no_block).
  assert (Hnew : forall a, has_block (mview s') (new_inode ty j) a ->
    has_block (mview s) (new_inode ty j) a \/ used mkfs_sb (mview s) a = false)
    by (by intros a ?%new_inode_no_block).
  split.
  - done.
  - rewrite length_app. simpl. lia.
  - rewrite length_app. unfold NINODES. simpl. lia.
  - rewrite fmap_app, foldr_app. cbn [fmap list_fmap foldr snd]. change (cost []) with 0.
    rewrite Hfb. apply (fi_free _ _ _ Hfs).
  - intros i ty' d E. apply lookup_snoc_Some in E as [[Hl E]|[-> [= <- <-]]].
    + by apply (other_holds fs sbb s s' (length fs) (new_inode ty j) (new_inode ty j) 0 []); try done; lia.
    + change (1 + Z.of_nat (length fs)) with j. rewrite Hnode. by apply new_inode_holds.
  - intros i k Hne Hli Hlk. rewrite length_app in Hli, Hlk. simpl in Hli, Hlk.
    pose proof (other_apart fs sbb s s' (length fs) _ _ _ _ Hfs Hw eq_refl Hdis Hnew) as Hap.
    destruct (decide (i = length fs)) as [->|Hi1]; [|destruct (decide (k = length fs)) as [->|Hk1]].
    + change (1 + Z.of_nat (length fs)) with j. rewrite Hnode. apply Hap; lia.
    + change (1 + Z.of_nat (length fs)) with j. rewrite Hnode. apply Hap; lia.
    + apply (others_apart fs sbb s s' (length fs) _ _ _ _ Hfs Hw eq_refl Hdis Hnew); done || lia.
  - intros y Hy. rewrite Hv, low_iupdated by (done || lia). by apply (fi_low _ _ _ Hfs).
Qed.

(** ** iappend *)

(** The blocks of the file that grew are its old ones and new ones. *)
Lemma wrote_blocks V n off p V1 n1 a :
  wrote mkfs_sb V n off p V1 n1 -> has_block V1 n1 a -> has_block V n a \/ used mkfs_sb V a = false.
Proof.
  intros Hw [Hne [E|(bn & Hbn & E)]].
  - destruct (wr_ind _ _ _ _ _ _ _ Hw) as [Ei|(_ & _ & Hu)]; [left|right; congruence].
    split; [done|left; congruence].
  - destruct (decide (fblk V n bn = 0)) as [Hz|Hz].
    + right. rewrite <- E. apply (wr_new _ _ _ _ _ _ _ Hw); [done|done|congruence].
    + left. split; [done|right]. exists bn. split; [done|].
      by rewrite <- (wr_there _ _ _ _ _ _ _ Hw bn Hbn Hz).
Qed.

(** The bytes of the file that grew: the old ones, the new ones, and zeros up
    to the end of the last block. *)
Lemma wrote_bytes V n ty d p V1 n1 x :
  holds V n ty d -> wrote mkfs_sb V n (Z.of_nat (length d)) p V1 n1 ->
  filled V1 n1 (blocks_of (Z.of_nat (length (d ++ p)))) -> Z.of_nat (length (d ++ p)) <= MAXFILE * BSIZE ->
  0 <= x < blocks_of (Z.of_nat (length (d ++ p))) * BSIZE ->
  fbyte V1 n1 x = default 0 ((d ++ p) !! Z.to_nat x).
Proof.
  intros Hh Hw [Hf _] Hmax Hx. rewrite length_app in *.
  assert (Hxm : 0 <= x / BSIZE < MAXFILE) by (unfold blocks_of in Hx; plia).
  assert (Hz : fblk V1 n1 (x / BSIZE) <> 0) by (apply Hf; [done|plia]).
  destruct (decide (Z.of_nat (length d) <= x < Z.of_nat (length d) + Z.of_nat (length p))) as [Hr|Hr].
  - rewrite lookup_app_r by lia. destruct (lookup_lt_is_Some_2 p (Z.to_nat x - length d)) as [c Hc]; [lia|].
    rewrite Hc. cbn [from_option]. unfold id. rewrite <- (wr_bytes _ _ _ _ _ _ _ Hw _ _ Hc). f_equal. lia.
  - rewrite (wr_keep _ _ _ _ _ _ _ Hw) by (done || plia).
    assert (E : (d ++ p) !! Z.to_nat x = d !! Z.to_nat x).
    { destruct (decide (x < Z.of_nat (length d))); [by rewrite lookup_app_l by lia|].
      rewrite !lookup_ge_None_2; [done|lia|rewrite length_app; lia]. }
    rewrite E. destruct (ho_filled _ _ _ _ Hh) as [Hb _]. specialize (Hb (x / BSIZE) Hxm).
    destruct (Z.eqb_spec (fblk V n (x / BSIZE)) 0) as [H0|H0].
    + rewrite lookup_ge_None_2; [done|]. destruct (decide (x < Z.of_nat (length d))); [|lia].
      assert (x / BSIZE < blocks_of (Z.of_nat (length d))) by (unfold blocks_of; plia). lia.
    + apply (ho_bytes _ _ _ _ Hh). assert (x / BSIZE < blocks_of (Z.of_nat (length d))) by lia. plia.
Qed.

Lemma cost_app_le d p : cost d <= cost (d ++ p).
Proof. unfold cost. apply nblk_mono, blocks_of_mono. rewrite length_app. lia. Qed.

Lemma sum_insert (l : list Z) i x y :
  l !! i = Some x -> foldr Z.add 0 (<[i := y]> l) = foldr Z.add 0 l + y - x.
Proof.
  revert i. induction l as [|z l IH]; intros [|i] E; simplify_eq/=; [lia|]. rewrite (IH i) by done. lia.
Qed.

Lemma node_same_fields V n j z l :
  n = set_i_size z (set_i_addrs l (node V j)) -> same_fields n (din0 j) = n.
Proof. by intros ->. Qed.

(** The contents and the disk inode after iappend. *)
Lemma appended_written s s1 s2 j ty d p n1 :
  minv s -> inum_ok mkfs_sb j -> let n := node (mview s) j in
  holds (mview s) n ty d -> Z.of_nat (length (d ++ p)) <= MAXFILE * BSIZE ->
  appended s n (Z.of_nat (length d)) p s1 n1 ->
  let n2 := set_i_size (Z.of_nat (length (d ++ p))) n1 in
  mview s2 = iupdated mkfs_sb (mview s1) n2 ->
  written mkfs_sb (mview s) n (Z.of_nat (length d)) p (mview s2) n2 /\
  node (mview s2) j = n2 /\ holds (mview s2) n2 ty (d ++ p) /\
  forall a, has_block (mview s2) n2 a -> has_block (mview s) n a \/ used mkfs_sb (mview s) a = false.
Proof.
  intros Hi Hj n Hh Hmax [A1 A2 A3 A4 A5] n2 Hv.
  assert (Elen : Z.of_nat (length d) + Z.of_nat (length p) = Z.of_nat (length (d ++ p))) by (rewrite length_app; lia).
  rewrite Elen in A4, A5. pose proof (ho_size _ _ _ _ Hh) as Hsz. pose proof (ho_wf _ _ _ _ Hh) as Hwf.
  assert (Hin : i_inum n = j) by done.
  assert (En2 : set_i_size (Z.max (i_size n) (Z.of_nat (length d) + Z.of_nat (length p))) n1 = n2).
  { unfold n2. f_equal. lia. }
  assert (Hw : written mkfs_sb (mview s) n (Z.of_nat (length d)) p (mview s2) n2).
  { rewrite Hv, <- En2. refine (written_intro 1 2 LOGSIZE mkfs_geometry mkfs_sb image_layout (mview s) n
      (Z.of_nat (length d)) p (mview s1) n1 Hwf A2 (fun b => mview_len s1 b A1) _ _); lia. }
  assert (Hsame : same_file mkfs_sb (mview s1) (mview s2) n1).
  { rewrite Hv, <- En2. refine (written_file 1 2 LOGSIZE mkfs_geometry mkfs_sb image_layout (mview s) n
      (Z.of_nat (length d)) p (mview s1) n1 Hwf A2 (fun b => mview_len s1 b A1) _ _ n1 (wr_file _ _ _ _ _ _ _ A2)); lia. }
  destruct Hsame as (S1 & S2 & S3).
  assert (Hfl : filled (mview s2) n2 (blocks_of (Z.of_nat (length (d ++ p))))).
  { destruct A4 as [F1 F2]. split; [|done]. intros bn Hbn. change (fblk (mview s2) n1 bn <> 0 <-> bn < blocks_of (Z.of_nat (length (d ++ p)))). rewrite S2 by done. by apply F1. }
  split_and!; [done| | |].
  - unfold node. rewrite <- Hin, (wn_disk _ _ _ _ _ _ _ Hw).
    eapply node_same_fields. unfold n2. by rewrite (wr_fields _ _ _ _ _ _ _ A2) at 1.
  - split; [apply Hw|done| | |done|].
    + unfold n2. rewrite (wr_fields _ _ _ _ _ _ _ A2). exact (ho_type _ _ _ _ Hh).
    + unfold n2. rewrite (wr_fields _ _ _ _ _ _ _ A2). exact (ho_nlink _ _ _ _ Hh).
    + intros x Hx. assert (Hxm : 0 <= x / BSIZE < MAXFILE) by (unfold blocks_of in Hx; plia).
      change (fbyte (mview s2) n1 x = default 0 ((d ++ p) !! Z.to_nat x)). rewrite S3.
      * by eapply wrote_bytes.
      * plia.
      * destruct A4 as [F1 _]. apply F1; [done|]. plia.
  - intros a [Hne Ha]. eapply (wrote_blocks _ _ _ _ _ _ _ A2). split; [done|].
    destruct Ha as [Ha|(bn & Hbn & Ha)]; [by left|right]. exists bn. split; [done|]. rewrite <- Ha. symmetry. by apply S2.
Qed.

Lemma files_iappend fs sbb s i ty d p (Q : unit -> mkfs -> Prop) :
  files fs sbb s -> fs !! i = Some (ty, d) -> is_bytes p ->
  Z.of_nat (length (d ++ p)) <= MAXFILE * BSIZE ->
  m_freeblock s + cost (d ++ p) - cost d <= FSSIZE ->
  (forall s', files (<[i := (ty, d ++ p)]> fs) sbb s' -> Q tt s') ->
  wp (iappend (1 + Z.of_nat i) p) Q s.
Proof.
  intros Hfs Ei Hb Hmax Hfree HQ. set (j := 1 + Z.of_nat i). pose proof (fi_inv _ _ _ Hfs) as Hi.
  pose proof (lookup_lt_Some _ _ _ Ei) as Hli. pose proof (fi_count _ _ _ Hfs) as Hcnt.
  assert (Hj : inum_ok mkfs_sb j) by (apply inum_ok_lt; lia).
  pose proof (fi_files _ _ _ Hfs _ _ _ Ei) as Hh. fold j in Hh. pose proof (ho_size _ _ _ _ Hh) as Hsz.
  unfold iappend. apply wp_bind. apply wp_rinode; [done..|]. set (n := node (mview s) j) in *.
  rewrite Hsz, xint_small by (rewrite length_app in Hmax; plia).
  assert (Elen : Z.of_nat (length d) + Z.of_nat (length p) = Z.of_nat (length (d ++ p))) by (rewrite length_app; lia).
  apply wp_bind. apply wp_iappend_loop; [done|apply Hh|apply Hh|done|lia|lia|lia|by rewrite Elen|].
  intros s1 n1 Hap. rewrite Elen, xint_small by plia. set (n2 := set_i_size (Z.of_nat (length (d ++ p))) n1).
  assert (Hn2 : i_inum n2 = j) by (unfold n2; by rewrite (wr_fields _ _ _ _ _ _ _ (ap_wrote _ _ _ _ _ _ Hap))).
  apply wp_winode; [apply Hap|done|done|apply (fo_len _ _ _ (wr_file _ _ _ _ _ _ _ (ap_wrote _ _ _ _ _ _ Hap)))|].
  intros s2 Hi2 Hv [Hfb Hfi]. apply HQ.
  destruct (appended_written s s1 s2 j ty d p n1 Hi Hj Hh Hmax Hap Hv) as (Hw & Hnode & Hh2 & Hnew).
  assert (Hdis : forall k, k <> i -> (k < length fs)%nat -> disjoint_files (mview s) n (node (mview s) (1 + Z.of_nat k)))
    by (intros k Hk Hlk; by apply (fi_disjoint _ _ _ Hfs)).
  pose proof Hap as [A1 A2 A3 A4 A5]. rewrite Elen in A5. fold n in Hw. split.
  - done.
  - rewrite length_insert, Hfi, A3. apply Hfs.
  - by rewrite length_insert.
  - rewrite list_fmap_insert. erewrite sum_insert by (rewrite list_lookup_fmap, Ei; reflexivity).
    pose proof (fi_free _ _ _ Hfs). unfold cost in *. cbn [snd]. lia.
  - intros k ty' d' E. destruct (decide (k = i)) as [->|Hne].
    + rewrite list_lookup_insert_eq in E by done. injection E as <- <-. fold j. by rewrite Hnode.
    + rewrite list_lookup_insert_ne in E by done. by apply (other_holds fs sbb s s2 i _ _ _ _ Hfs Hw eq_refl Hdis Hnew).
  - intros k l Hne Hlk Hll. rewrite length_insert in Hlk, Hll.
    pose proof (other_apart fs sbb s s2 i _ _ _ _ Hfs Hw eq_refl Hdis Hnew) as Hapart.
    destruct (decide (k = i)) as [->|Hk]; [|destruct (decide (l = i)) as [->|Hl]].
    + fold j. rewrite Hnode. by apply Hapart.
    + fold j. rewrite Hnode. by apply Hapart.
    + by apply (others_apart fs sbb s s2 i _ _ _ _ Hfs Hw eq_refl Hdis Hnew).
  - intros y Hy. rewrite Hv, low_iupdated by (rewrite ?Hn2; done || lia).
    rewrite (wr_low _ _ _ _ _ _ _ A2) by (cbn [mkfs_sb sb_bmapstart]; lia). by apply (fi_low _ _ _ Hfs).
Qed.
