(* ===== verification/MkfsImage.v ===== *)
(** main of mkfs/mkfs.c: the image it builds, as the kernel's file system
    sees it. *)

From stdpp Require Import base numbers list gmap strings.
From S2P Require Import Prelude Params Mem State Locks Cache Log LogBio Fs FsTx FsBlocks FsBoot FsInode FsBmap FsWrite FsDir Mkfs MkfsAppend MkfsFiles.

Implicit Types (V : Z -> list Z) (n m : inode) (s : mkfs).

(** ** The empty image *)

Definition sb_block : list Z := put_at zeroes 0 (sb_bytes the_superblock).

Lemma superblock_is : the_superblock = mkfs_sb.
Proof. reflexivity. Qed.

Lemma sb_block_ok : block_ok sb_block /\ decode_sb sb_block = mkfs_sb.
Proof.
  split; [|by vm_compute]. apply put_block_ok; [apply zero_block_ok| |apply Nat.leb_le; by vm_compute].
  unfold sb_bytes. cbn [fmap list_fmap concat]. unfold is_bytes. rewrite !Forall_app. repeat split; (apply le_bytes_bytes || constructor).
Qed.

Lemma sector_seq pre x rest : seqZ 0 FSSIZE = pre ++ x :: rest ->
  x = Z.of_nat (length pre) /\ Z.of_nat (length pre) < FSSIZE.
Proof.
  intros E. assert (E' : seqZ 0 FSSIZE !! length pre = Some x) by (rewrite E; by apply list_lookup_middle).
  apply lookup_seqZ in E'. lia.
Qed.

Lemma wp_clear s (Q : unit -> mkfs -> Prop) :
  m_img s = [] -> Q tt (set_m_img (replicate (Z.to_nat FSSIZE) zeroes) s) ->
  wp (for_each (seqZ 0 FSSIZE) (fun i => wsect i zeroes)) Q s.
Proof.
  intros He HQ. eapply (wp_for_each (fun pre s' => s' = set_m_img (replicate (length pre) zeroes) s)).
  - simpl. rewrite <- He. by destruct s.
  - intros pre x rest s' E ->. destruct (sector_seq _ _ _ E) as [-> Hlt]. unfold wsect. apply wp_modify.
    rewrite sector_small, Nat2Z.id by lia. cbn [m_img set_m_img]. rewrite length_replicate.
    rewrite decide_False by lia. rewrite Nat.sub_diag, length_app. cbn [length app replicate].
    rewrite replicate_add. done.
  - intros s' ->. rewrite length_seqZ. done.
Qed.

Definition cleared (s : mkfs) : Prop :=
  m_img s = replicate (Z.to_nat FSSIZE) zeroes /\ m_sb s = mkfs_sb /\ m_freeblock s = 46.

Lemma view_cleared b : view (replicate (Z.to_nat FSSIZE) zeroes) b = zero_block.
Proof.
  unfold view. destruct (b <? 0); [done|]. destruct (replicate _ _ !! _) eqn:E; [|done].
  by apply lookup_replicate in E as [-> _].
Qed.

Lemma cleared_inv s : cleared s -> minv s.
Proof.
  intros (Hi & Hs & Hf). split; rewrite ?Hi, ?Hf.
  - apply length_replicate.
  - apply Forall_replicate, zero_block_ok.
  - done.
  - plia.
  - intros b _. apply view_cleared.
Qed.

Lemma wp_superblock s (Q : unit -> mkfs -> Prop) :
  cleared s -> m_freeinode s = 1 -> (forall s', files [] sb_block s' -> Q tt s') ->
  wp (wsect 1 sb_block) Q s.
Proof.
  intros Hc Hfi HQ. pose proof (cleared_inv _ Hc) as Hi. pose proof Hc as (Him & _ & Hf).
  apply wp_wsect; [done|lia|done|apply sb_block_ok|]. intros s' Hi' Hv [Hfb Hfi']. apply HQ.
  split; try done.
  - simpl. lia.
  - simpl. lia.
  - intros i j _ Hlt. simpl in Hlt. lia.
  - intros y Hy. rewrite Hv. unfold vupd at 1. case_decide as E; [done|].
    unfold mview. rewrite vupd_ne by lia. rewrite Him. apply view_cleared.
Qed.

(** ** The files on the command line *)

Definition total (fs : list (Z * list Z)) : Z := 46 + foldr Z.add 0 ((fun f => cost f.2) <$> fs).

(** A file [f] of the given name and contents is added. *)
Definition add_spec (fs : list (Z * list Z)) (f : list Z * list Z) : list (Z * list Z) :=
  match fs with
  | (ty, dir) :: rest =>
      (ty, dir ++ dirent_bytes (1 + Z.of_nat (length fs)) f.1) :: rest ++ [(T_FILE, f.2)]
  | [] => []
  end.

Lemma cost_nonneg d : 0 <= cost d.
Proof.
  unfold cost, nblk, blocks_of. destruct (NDIRECT <? _); plia.
Qed.

Lemma total_cons ty d fs : total ((ty, d) :: fs) = cost d + total fs.
Proof. unfold total. cbn [fmap list_fmap foldr snd]. lia. Qed.

Lemma total_snoc ty d fs : total (fs ++ [(ty, d)]) = cost d + total fs.
Proof.
  induction fs as [|[ty' d'] fs IH]; [apply total_cons|]. change (((ty', d') :: fs) ++ [(ty, d)]) with ((ty', d') :: (fs ++ [(ty, d)])).
  rewrite !total_cons, IH. lia.
Qed.

Lemma add_spec_total fs f : total fs <= total (add_spec fs f).
Proof.
  destruct fs as [|[ty dir] rest]; [done|]. unfold add_spec. rewrite !total_cons, total_snoc.
  pose proof (cost_app_le dir (dirent_bytes (1 + Z.of_nat (length ((ty, dir) :: rest))) f.1)).
  pose proof (cost_nonneg f.2). lia.
Qed.

Lemma add_specs_total l : forall fs, total fs <= total (foldl add_spec fs l).
Proof.
  induction l as [|f l IH]; intros fs; [done|]. cbn [foldl]. pose proof (add_spec_total fs f). specialize (IH (add_spec fs f)). lia.
Qed.

Lemma length_add_spec fs f : fs <> [] -> length (add_spec fs f) = S (length fs).
Proof. destruct fs as [|[ty d] fs]; [done|]. intros _. simpl. rewrite length_app. simpl. lia. Qed.

(** The name that a file has in the image. *)
Definition file_name (arg : list Z) : list Z := strip_underscore (strip_user arg).

Lemma is_bytes_strip arg : is_bytes arg -> is_bytes (file_name arg).
Proof.
  intros Hb. assert (Hu : is_bytes (strip_user arg)).
  { unfold strip_user. destruct (_ =? _); [by apply Forall_drop|done]. }
  unfold file_name, strip_underscore. destruct (strip_user arg) as [|c l]; [done|].
  assert (Hl : is_bytes l) by (by inversion Hu).
  destruct c as [|p|p]; try done. do 7 (destruct p as [p|p|]; try done).
Qed.

(** What main needs of an argument [arg], a file of contents [data]. *)
Definition good_arg {H : Host} (arg data : list Z) : Prop :=
  47 ∉ strip_user arg /\ is_bytes arg /\ Z.of_nat (length (file_name arg)) <= DIRSIZ /\
  exists reads, host_open arg = Some reads /\ concat reads = data /\ Forall is_bytes reads /\
    Z.of_nat (length data) <= MAXFILE * BSIZE.

Section Main.
Context {H : Host}.

(** The read loop: appending what each read returns. *)
Lemma files_append_reads fs sbb s ty reads (Q : unit -> mkfs -> Prop) :
  files (fs ++ [(ty, [])]) sbb s -> Forall is_bytes reads ->
  Z.of_nat (length (concat reads)) <= MAXFILE * BSIZE -> total (fs ++ [(ty, concat reads)]) <= FSSIZE ->
  (forall s', files (fs ++ [(ty, concat reads)]) sbb s' -> Q tt s') ->
  wp (for_each reads (iappend (1 + Z.of_nat (length fs)))) Q s.
Proof using Type.
  intros Hfs Hb Hmax Htot HQ.
  eapply (wp_for_each (fun pre s' => files (fs ++ [(ty, concat pre)]) sbb s')); [done| |done].
  intros pre x rest s' E Hf. rewrite concat_app. cbn [concat]. rewrite app_nil_r.
  assert (Hc : concat reads = (concat pre ++ x) ++ concat rest) by (by rewrite E, concat_app, <- app_assoc).
  rewrite Hc, length_app in Hmax. rewrite Hc, total_snoc in Htot.
  pose proof (cost_app_le (concat pre ++ x) (concat rest)). pose proof (fi_free _ _ _ Hf) as Hfr.
  change (m_freeblock s' = total (fs ++ [(ty, concat pre)])) in Hfr. rewrite total_snoc in Hfr.
  eapply (files_iappend _ sbb s' (length fs) ty (concat pre) x); [done| | |lia|lia|].
  - by apply list_lookup_middle.
  - rewrite Forall_forall in Hb. apply Hb. rewrite E. set_solver.
  - intros s'' Hf''. by rewrite insert_app_r_alt, Nat.sub_diag in Hf'' by lia.
Qed.

Lemma files_add_file fs sbb s arg data (Q : unit -> mkfs -> Prop) :
  files fs sbb s -> (exists dir rest, fs = (T_DIR, dir) :: rest /\
    Z.of_nat (length dir) + sizeof_dirent <= MAXFILE * BSIZE) ->
  good_arg arg data -> Z.of_nat (length fs) + 1 < NINODES ->
  total (add_spec fs (file_name arg, data)) <= FSSIZE ->
  (forall s', files (add_spec fs (file_name arg, data)) sbb s' -> Q tt s') ->
  wp (add_file ROOTINO arg) Q s.
Proof using Type.
  intros Hfs (dir & rest & -> & Hdir) (Hsl & Hb & Hlen & reads & Ho & Hc & Hbr & Hmax) Hcnt Htot HQ.
  unfold add_file. rewrite Ho. apply wp_bind. unfold assert_. rewrite bool_decide_eq_true_2 by done. apply wp_ret.
  fold (file_name arg). apply wp_bind. destruct (Z.leb_spec (Z.of_nat (length (file_name arg))) DIRSIZ); [|lia].
  apply wp_ret, wp_bind. apply (files_ialloc _ _ _ _ _ Hfs); [by vm_compute|done|]. intros s1 Hf1.
  set (inum := 1 + Z.of_nat (length ((T_DIR, dir) :: rest))) in *. unfold NINODES in Hcnt.
  assert (Hde : de_strncpy inum (file_name arg) = dirent_bytes inum (file_name arg)).
  { unfold de_strncpy, dirent_bytes. rewrite xshort_mod, Z.mod_small by lia. done. }
  rewrite Hde. set (de := dirent_bytes inum (file_name arg)) in *.
  assert (Hl : Z.of_nat (length de) = sizeof_dirent) by (unfold de; by rewrite length_dirent).
  unfold add_spec in Htot, HQ. cbn [fst snd] in Htot, HQ. fold inum de in Htot, HQ.
  rewrite total_cons, total_snoc in Htot. pose proof (fi_free _ _ _ Hf1) as Hfr.
  change (m_freeblock s1 = total ((T_DIR, dir) :: (rest ++ [(T_FILE, [])]))) in Hfr.
  rewrite total_cons, total_snoc in Hfr. change (cost []) with 0 in Hfr. pose proof (cost_nonneg data).
  change ROOTINO with (1 + Z.of_nat 0). apply wp_bind. eapply (files_iappend _ sbb s1 0 T_DIR dir de); [exact Hf1|done| |rewrite length_app; lia|lia|].
  { by apply dirent_is_bytes, is_bytes_strip. }
  intros s2 Hf2. change (<[0%nat := (T_DIR, dir ++ de)]> (((T_DIR, dir) :: rest) ++ [(T_FILE, [])]))
    with (((T_DIR, dir ++ de) :: rest) ++ [(T_FILE, [])]) in Hf2.
  change inum with (1 + Z.of_nat (length ((T_DIR, dir ++ de) :: rest))).
  apply (files_append_reads _ sbb s2 T_FILE reads); rewrite ?Hc; try done.
  change (((T_DIR, dir ++ de) :: rest) ++ [(T_FILE, data)]) with ((T_DIR, dir ++ de) :: (rest ++ [(T_FILE, data)])).
  rewrite total_cons, total_snoc. lia.
Qed.

(** The state of the image after all files have been added. *)
Definition root_fs : list (Z * list Z) :=
  [(T_DIR, dirent_bytes 1 (bytes_of ".") ++ dirent_bytes 1 (bytes_of ".."))].

Lemma foldl_add_shape l : exists dir rest, foldl add_spec root_fs l = (T_DIR, dir) :: rest /\
  Z.of_nat (length dir) = (2 + Z.of_nat (length l)) * sizeof_dirent /\ length rest = length l.
Proof using Type.
  induction l as [|f l IH] using rev_ind.
  - eexists _, []. split; [done|]. split; [|done]. by vm_compute.
  - destruct IH as (dir & rest & E & Hl & Hr). rewrite foldl_app. cbn [foldl]. rewrite E. unfold add_spec.
    eexists _, _. split; [done|]. rewrite !length_app, length_dirent. cbn [length].
    split; [change sizeof_dirent with 16 in *; lia|lia].
Qed.

Lemma files_add_files args datas sbb s (Q : unit -> mkfs -> Prop) :
  files root_fs sbb s -> Forall2 good_arg args datas -> Z.of_nat (length args) + 1 < NINODES ->
  total (foldl add_spec root_fs (zip (file_name <$> args) datas)) <= FSSIZE ->
  (forall s', files (foldl add_spec root_fs (zip (file_name <$> args) datas)) sbb s' -> Q tt s') ->
  wp (for_each args (add_file ROOTINO)) Q s.
Proof using Type.
  intros Hfs Hga Hcnt Htot HQ. set (l := zip (file_name <$> args) datas) in *.
  assert (Hll : length l = length args).
  { unfold l. rewrite length_zip_with_l_eq, length_fmap; [done|]. rewrite length_fmap. by eapply Forall2_length. }
  eapply (wp_for_each (fun pre s' => files (foldl add_spec root_fs (take (length pre) l)) sbb s')); [done| |].
  - intros pre arg rest s' E Hf.
    assert (Ea : args !! length pre = Some arg) by (rewrite E; by apply list_lookup_middle).
    destruct (Forall2_lookup_l _ _ _ _ _ Hga Ea) as (data & Ed & Hg).
    assert (El : l !! length pre = Some (file_name arg, data)).
    { unfold l. apply lookup_zip_with_Some. exists (file_name arg), data. by rewrite list_lookup_fmap, Ea, Ed. }
    pose proof (lookup_lt_Some _ _ _ Ea) as Hlt.
    assert (Et : take (length (pre ++ [arg])) l = take (length pre) l ++ [(file_name arg, data)]).
    { rewrite length_app, Nat.add_1_r. by apply take_S_r. }
    rewrite Et, foldl_app. cbn [foldl]. destruct (foldl_add_shape (take (length pre) l)) as (dir & rs & Ef & Hd & Hr).
    rewrite length_take in Hd, Hr. unfold NINODES in *.
    eapply files_add_file; [done| |done| | |].
    + exists dir, rs. split; [done|]. change sizeof_dirent with 16 in *. plia.
    + rewrite Ef. cbn [length]. unfold NINODES. lia.
    + rewrite <- (take_drop (S (length pre)) l), foldl_app in Htot.
      erewrite take_S_r in Htot by done. rewrite foldl_app in Htot. cbn [foldl] in Htot.
      pose proof (add_specs_total (drop (S (length pre)) l) (add_spec (foldl add_spec root_fs (take (length pre) l)) (file_name arg, data))). lia.
    + done.
  - intros s' Hf. rewrite <- Hll, firstn_all in Hf. by apply HQ.
Qed.
End Main.
