(* ===== verification/MkfsMain.v ===== *)
(** The image that mkfs/mkfs.c builds is a file system: the superblock, an
    empty log, the bitmap, a root directory that maps every name to its
    inode, and the files with their contents. *)

From stdpp Require Import base numbers list gmap strings.
From S2P Require Import Prelude Params Mem State Locks Cache Log LogBio Fs FsTx FsBlocks FsBoot FsInode FsBmap FsWrite FsDir Mkfs MkfsAppend MkfsFiles MkfsImage.

Implicit Types (V : Z -> list Z) (n m : inode) (s : mkfs) (l : list (list Z * list Z)).

(** ** The files in closed form *)

(** The names in the root directory, with their inode numbers. *)
Definition entries l : list (list Z * Z) :=
  (bytes_of ".", 1) :: (bytes_of "..", 1) :: imap (fun i f => (f.1, 2 + Z.of_nat i)) l.

Definition dirents l : list (list Z) := (fun e => dirent_bytes e.2 e.1) <$> entries l.

Lemma entries_snoc l f : entries (l ++ [f]) = entries l ++ [(f.1, 2 + Z.of_nat (length l))].
Proof. unfold entries. rewrite imap_app. cbn. by rewrite Nat.add_0_r. Qed.

Lemma length_entries l : length (entries l) = S (S (length l)).
Proof. unfold entries. cbn. by rewrite length_imap. Qed.

Lemma files_closed l :
  foldl add_spec root_fs l = (T_DIR, concat (dirents l)) :: ((fun f => (T_FILE, f.2)) <$> l).
Proof.
  induction l as [|f l IH] using rev_ind; [reflexivity|].
  rewrite foldl_app. cbn [foldl]. rewrite IH. unfold add_spec. rewrite fmap_app. f_equal. f_equal.
  unfold dirents. rewrite entries_snoc, fmap_app, concat_app. cbn [fmap list_fmap concat fst snd length].
  rewrite app_nil_r, length_fmap. do 2 f_equal. lia.
Qed.

Lemma length_dirents l : length (concat (dirents l)) = (16 * (2 + length l))%nat.
Proof.
  unfold dirents. assert (E : forall es : list (list Z * Z),
    length (concat ((fun e => dirent_bytes e.2 e.1) <$> es)) = (16 * length es)%nat).
  { induction es as [|e es IH]; [done|]. cbn [fmap list_fmap concat length]. rewrite length_app, length_dirent, IH.
    change (Z.to_nat sizeof_dirent) with 16%nat. lia. }
  rewrite E, length_entries. lia.
Qed.

(** The first block that is not in use when the files have been written. *)
Definition space l : Z :=
  46 + nblk (blocks_of (16 * (2 + Z.of_nat (length l)))) + foldr Z.add 0 ((fun f => cost f.2) <$> l).

Lemma total_closed l : total (foldl add_spec root_fs l) = space l.
Proof.
  rewrite files_closed, total_cons. unfold total, space. rewrite <- list_fmap_compose. unfold cost at 1.
  rewrite length_dirents. replace (Z.of_nat (16 * (2 + length l))) with (16 * (2 + Z.of_nat (length l))) by lia.
  unfold compose. cbn [snd]. lia.
Qed.

(** ** The root directory *)

(** Bytes [16 k, 16 k + 16) of a directory are entry [k]. *)
Lemma concat_dirents (des : list (list Z)) k j :
  Forall (fun de => length de = 16%nat) des -> (j < 16)%nat ->
  concat des !! (16 * k + j)%nat = default [] (des !! k) !! j.
Proof.
  intros Hl Hj. revert k. induction Hl as [|de des Hd Hl IH]; intros k.
  - rewrite lookup_nil. by destruct k.
  - destruct k as [|k]; cbn [concat].
    + rewrite lookup_app_l by lia. by replace (16 * 0 + j)%nat with j by lia.
    + rewrite lookup_app_r by lia. rewrite Hd. replace (16 * S k + j - 16)%nat with (16 * k + j)%nat by lia. apply IH.
Qed.

Lemma dirents_size l : Forall (fun de => length de = 16%nat) (dirents l).
Proof. apply Forall_fmap, Forall_true. intros e. apply length_dirent. Qed.

Definition zero_ent : list Z := replicate 16 0.

(** A directory of whole blocks that holds [dirents l] and zeros. *)
Lemma root_ents V n l k :
  i_size n = 16 * Z.of_nat (2 + length l + k) ->
  (forall x, 0 <= x < i_size n -> fbyte V n x = default 0 (concat (dirents l) !! Z.to_nat x)) ->
  ents V n = dirents l ++ replicate k zero_ent.
Proof.
  intros Hs Hb. assert (Hn : nents n = (2 + length l + k)%nat).
  { unfold nents. rewrite Hs. change sizeof_dirent with 16. plia. }
  assert (Hdl : length (dirents l) = (2 + length l)%nat).
  { unfold dirents. by rewrite length_fmap, length_entries. }
  apply list_eq. intros i. destruct (decide (i < nents n)%nat) as [Hi|Hi].
  2:{ rewrite !lookup_ge_None_2; [done|rewrite length_app, length_replicate; lia|rewrite length_ents; lia]. }
  rewrite ents_lookup by done.
  assert (Ee : ent V n i = default zero_ent (dirents l !! i)).
  { apply list_eq. intros j. unfold ent. change sizeof_dirent with 16. change (Z.to_nat 16) with 16%nat.
    unfold fdata. rewrite list_lookup_fmap. destruct (decide (j < 16)%nat) as [Hj|Hj].
    - rewrite lookup_seq_lt by done. cbn [fmap option_fmap option_map]. rewrite Hb by lia.
      replace (Z.to_nat (Z.of_nat i * 16 + Z.of_nat (0 + j))) with (16 * i + j)%nat by lia.
      rewrite concat_dirents by (done || apply dirents_size).
      destruct (dirents l !! i) as [de|] eqn:E; cbn [from_option]; unfold id.
      + pose proof (dirents_size l) as Hd. rewrite Forall_lookup in Hd.
        destruct (lookup_lt_is_Some_2 de j) as [c ->]; [by rewrite (Hd _ _ E)|done].
      + symmetry. by apply lookup_replicate_2.
    - rewrite lookup_seq_ge by lia. symmetry. apply lookup_ge_None. destruct (dirents l !! i) as [de|] eqn:E; cbn [from_option]; unfold id.
      + pose proof (dirents_size l) as Hd. rewrite Forall_lookup in Hd. rewrite (Hd _ _ E). lia.
      + unfold zero_ent. rewrite length_replicate. lia. }
  rewrite Ee. destruct (decide (i < length (dirents l))%nat) as [Hd|Hd].
  - rewrite lookup_app_l by done. by destruct (lookup_lt_is_Some_2 _ _ Hd) as [de ->].
  - rewrite lookup_app_r by lia. rewrite lookup_ge_None_2 by lia. symmetry. apply lookup_replicate_2. lia.
Qed.

(** The root directory as a map. *)
Definition root_map l : gmap (list Z) Z := list_to_map ((fun e => (cname e.1, e.2)) <$> entries l).

Lemma dir_lookup_zeros k name : dir_lookup (replicate k zero_ent) name = None.
Proof.
  induction k as [|k IH]; [done|]. cbn [replicate]. rewrite dir_lookup_cons. rewrite decide_False; [done|].
  intros [Hz _]. by apply Hz.
Qed.

Lemma dir_lookup_dirents (es : list (list Z * Z)) name :
  Forall (fun e => 0 < e.2 < 65536) es ->
  dir_lookup ((fun e => dirent_bytes e.2 e.1) <$> es) name =
  (list_to_map ((fun e => (cname e.1, e.2)) <$> es) : gmap (list Z) Z) !! cname name.
Proof.
  induction 1 as [|e es He Hes IH]; [done|]. cbn [fmap list_fmap list_to_map foldr fst snd].
  rewrite dir_lookup_cons. assert (Hn : de_inum (dirent_bytes e.2 e.1) = e.2) by (apply dirent_inum; lia).
  destruct (decide (cname name = cname e.1)) as [E|E].
  - rewrite decide_True by (split; [lia|by rewrite dirent_name]). by rewrite E, lookup_insert_eq, Hn.
  - rewrite decide_False by (intros [_ Hm]; rewrite dirent_name in Hm; done). rewrite lookup_insert_ne by done. apply IH.
Qed.

Lemma root_lookup V n l k name :
  Z.of_nat (length l) < NINODES ->
  ents V n = dirents l ++ replicate k zero_ent -> dir_lookup (ents V n) name = root_map l !! cname name.
Proof.
  intros Hl ->. rewrite dir_lookup_app. unfold root_map, dirents. rewrite dir_lookup_dirents.
  - destruct (_ !! cname name); [done|]. apply dir_lookup_zeros.
  - unfold NINODES in Hl. apply Forall_lookup. intros i [nm j] E. unfold entries in E.
    destruct i as [|[|i]]; [by simplify_eq/=|by simplify_eq/=|].
    change (imap (fun i f => (f.1, 2 + Z.of_nat i)) l !! i = Some (nm, j)) in E.
    rewrite list_lookup_imap in E. destruct (l !! i) eqn:Ei; [|done]. simplify_eq/=.
    apply lookup_lt_Some in Ei. lia.
Qed.

(** ** The finished image *)

Record mkfs_image l V : Prop := {
  im_blocks : forall b, block_ok (V b);
  im_sb : decode_sb (V 1) = mkfs_sb;
  im_log : V 2 = zero_block;
  im_used : forall b, 0 <= b < FSSIZE -> used mkfs_sb V b = (b <? space l);
  im_root_ok : dir_ok mkfs_sb V (node V ROOTINO);
  im_root_nlink : i_nlink (node V ROOTINO) = 1;
  im_root : forall name, dir_lookup (ents V (node V ROOTINO)) name = root_map l !! cname name;
  im_files : forall i name data, l !! i = Some (name, data) ->
    let n := node V (2 + Z.of_nat i) in
    file_wf mkfs_sb V n /\ i_type n = T_FILE /\ i_nlink n = 1 /\
    i_size n = Z.of_nat (length data) /\ fdata V n 0 (length data) = data;
  im_disjoint : forall i j, i <> j -> 1 <= i <= 1 + Z.of_nat (length l) -> 1 <= j <= 1 + Z.of_nat (length l) ->
    disjoint_files V (node V i) (node V j);
}.

(** A change below the bitmap leaves files alone. *)
Lemma low_change V V' m : (forall y, 45 <= y -> V' y = V y) -> file_ok mkfs_sb V m -> same_file mkfs_sb V V' m.
Proof.
  intros Hy Hf. assert (Hd : forall y, data_used mkfs_sb V y -> data_used mkfs_sb V' y).
  { intros y. apply (data_used_high 2 LOGSIZE mkfs_geometry mkfs_sb image_layout). exact Hy. }
  destruct (file_ok_keep mkfs_sb V V' m Hf Hd) as [Hf' Hb'].
  { intros Hne. destruct (fo_ind _ _ _ Hf) as [|Ha]; [done|]. apply Hy. destruct (data_block_range _ _ Ha).
    destruct Ha as [[Hlo _] _]. rewrite dstart_mkfs in Hlo. lia. }
  split; [done|]. split; [intros bn Hbn; apply Hb'; lia|]. intros x Hx Hne. unfold fbyte. rewrite Hb' by plia.
  rewrite Hy; [done|]. destruct (fo_blk _ _ _ Hf (x / BSIZE) ltac:(plia)) as [|[[Hlo _] _]]; [done|].
  rewrite dstart_mkfs in Hlo. lia.
Qed.

(** The size that fix_root_size gives the root directory. *)
Definition root_size l : Z := (16 * (2 + Z.of_nat (length l)) / BSIZE + 1) * BSIZE.

Section Finished.
Context (l : list (list Z * list Z)) (s : mkfs) (V' : Z -> list Z).
Let V := mview s.
Let r := node V ROOTINO.
Let r' := set_i_size (root_size l) r.
Context (Hfs : files (foldl add_spec root_fs l) sb_block s).
Context (Hfull : (2 + Z.of_nat (length l)) mod 64 <> 0).
Context (HV : V' = iupdated mkfs_sb V r').

Lemma fin_count : Z.of_nat (length l) + 1 < NINODES.
Proof using Hfs.
  pose proof (fi_count _ _ _ Hfs) as Hc. rewrite files_closed in Hc. cbn [length] in Hc.
  rewrite length_fmap in Hc. lia.
Qed.

Lemma root_blocks : root_size l = blocks_of (16 * (2 + Z.of_nat (length l))) * BSIZE.
Proof using Hfull. unfold root_size, blocks_of. clear -Hfull. plia. Qed.

Lemma root_holds : holds V r T_DIR (concat (dirents l)).
Proof using Hfs.
  apply (fi_files _ _ _ Hfs 0%nat). by rewrite files_closed.
Qed.

Lemma root_inum : inum_ok mkfs_sb ROOTINO.
Proof. by apply (inum_ok_lt 0). Qed.

Lemma root_small : 16 * (2 + Z.of_nat (length l)) < root_size l <= MAXFILE * BSIZE.
Proof using Hfs Hfull. pose proof fin_count as Hc. unfold NINODES in Hc. unfold root_size. clear -Hc. plia. Qed.

Lemma fin_high y : 45 <= y -> V' y = V y.
Proof using HV. intros Hy. rewrite HV. apply (iupdated_high 2 LOGSIZE mkfs_geometry mkfs_sb image_layout); [exact root_inum|done]. Qed.

Lemma fin_inode : inode_ok r'.
Proof using Hfs Hfull.
  pose proof root_holds as [[_ Hi _ _ _] _ _ _ _ _]. destruct Hi. pose proof root_small. split; try done. cbn. plia.
Qed.

Lemma fin_root : node V' ROOTINO = r'.
Proof using All.
  unfold node. rewrite HV. change ROOTINO with (i_inum r') at 1.
  rewrite iupdated_same; [done|exact root_inum|apply fin_inode|apply mview_len, Hfs].
Qed.

Lemma fin_node j : inum_ok mkfs_sb j -> j <> ROOTINO -> node V' j = node V j.
Proof using All.
  intros Hj Hne. unfold node. rewrite HV.
  rewrite (iupdated_other 2 LOGSIZE mkfs_geometry mkfs_sb image_layout); [done|exact root_inum|done|done|apply fin_inode|apply mview_len, Hfs].
Qed.

Lemma fin_same m : file_ok mkfs_sb V m -> same_file mkfs_sb V V' m.
Proof using HV. apply low_change, fin_high. Qed.

Lemma fin_root_byte x : 0 <= x < root_size l -> fblk V' r' (x / BSIZE) <> 0 /\
  fbyte V' r' x = default 0 (concat (dirents l) !! Z.to_nat x).
Proof using All.
  intros Hx. pose proof root_holds as Hh. pose proof (ho_wf _ _ _ _ Hh) as [Hf _ _ _ _].
  destruct (fin_same r Hf) as (_ & S2 & S3). pose proof root_small. pose proof root_blocks as Hrb.
  assert (Hlen : Z.of_nat (length (concat (dirents l))) = 16 * (2 + Z.of_nat (length l))) by (rewrite length_dirents; lia).
  assert (Hm : 0 <= x / BSIZE < MAXFILE) by (clear -Hx H; plia).
  assert (Hz : fblk V r (x / BSIZE) <> 0).
  { eapply holds_mapped; [exact Hh|rewrite Hlen; lia|lia]. }
  change (fblk V' r (x / BSIZE) <> 0 /\ fbyte V' r x = default 0 (concat (dirents l) !! Z.to_nat x)).
  rewrite S2 by done. split; [done|]. rewrite S3 by (done || clear -Hx H; plia).
  apply (ho_bytes _ _ _ _ Hh). rewrite Hlen. lia.
Qed.

Lemma fin_dir : dir_ok mkfs_sb V' r' /\
  forall name, dir_lookup (ents V' r') name = root_map l !! cname name.
Proof using All.
  pose proof root_holds as Hh. pose proof (ho_wf _ _ _ _ Hh) as [Hf Hin _ _ _]. pose proof root_small as Hsm.
  destruct (fin_same r Hf) as ([F1 F2 F3 F4 F5 F6] & _ & _). split.
  - split.
    + split; [by split|apply fin_inode|exact root_inum|cbn; lia|].
      intros x Hx. apply fin_root_byte. cbn in Hx. lia.
    + exact (ho_type _ _ _ _ Hh).
    + cbn. change sizeof_dirent with 16. unfold root_size. clear. plia.
  - intros name. eapply (root_lookup _ _ _ (Z.to_nat (root_size l / 16) - (2 + length l))); [pose proof fin_count; lia|].
    apply root_ents.
    + cbn. unfold root_size in *. clear -Hsm. plia.
    + intros x Hx. apply fin_root_byte. done.
Qed.

Lemma fin_file i name data : l !! i = Some (name, data) ->
  holds V' (node V' (2 + Z.of_nat i)) T_FILE data.
Proof using All.
  intros E. pose proof (lookup_lt_Some _ _ _ E) as Hi. pose proof fin_count as Hc.
  rewrite fin_node; [|replace (2 + Z.of_nat i) with (1 + Z.of_nat (S i)) by lia; apply inum_ok_lt; lia|unfold ROOTINO; lia].
  assert (Hh : holds V (node V (1 + Z.of_nat (S i))) T_FILE data).
  { apply (fi_files _ _ _ Hfs (S i)). rewrite files_closed.
    change (((fun f : list Z * list Z => (T_FILE, f.2)) <$> l) !! i = Some (T_FILE, data)).
    by rewrite list_lookup_fmap, E. }
  replace (2 + Z.of_nat i) with (1 + Z.of_nat (S i)) by lia.
  eapply holds_same; [|exact Hh]. apply fin_same, Hh.
Qed.

Lemma fin_block j a : 1 <= j <= 1 + Z.of_nat (length l) ->
  has_block V' (node V' j) a -> has_block V (node V j) a.
Proof using All.
  intros Hj Ha. pose proof fin_count as Hc.
  assert (Hf : file_ok mkfs_sb V (node V j)).
  { replace j with (1 + Z.of_nat (Z.to_nat (j - 1))) by lia. apply (node_file _ sb_block s Hfs).
    rewrite files_closed. cbn [length]. rewrite length_fmap. lia. }
  assert (Ha' : has_block V' (node V j) a).
  { destruct (decide (j = ROOTINO)) as [->|Hne]; [by rewrite fin_root in Ha|]. rewrite fin_node in Ha; [done| |done].
    replace j with (1 + Z.of_nat (Z.to_nat (j - 1))) by lia. apply inum_ok_lt. lia. }
  eapply same_file_blocks; [|exact Ha']. by apply fin_same.
Qed.

Lemma finished : mkfs_image l V'.
Proof using All.
  pose proof (fi_inv _ _ _ Hfs) as Hi. pose proof fin_count as Hc. destruct fin_dir as [Hd Hl].
  assert (Hlow : forall y, 0 <= y < 32 -> V' y = if decide (y = 1) then sb_block else zero_block).
  { intros y Hy. rewrite HV, low_iupdated by (exact root_inum || lia). by apply (fi_low _ _ _ Hfs). }
  split.
  - intros b. rewrite HV. unfold iupdated, vupd. case_decide as E; [|by apply mview_ok].
    pose proof (dinode_off_range (i_inum r') ltac:(by vm_compute)). pose proof fin_inode as Hio.
    pose proof (mview_len s (iblock mkfs_sb (i_inum r')) Hi) as HlV. fold V in HlV.
    rewrite put_dinode_bytes by (rewrite ?HlV; apply Hio || done).
    apply put_block_ok; [by apply mview_ok|apply dinode_bytes_bytes|]. by rewrite length_dinode_bytes by apply Hio.
  - rewrite Hlow by done. apply sb_block_ok.
  - by rewrite Hlow by done.
  - intros b Hb. rewrite (used_high mkfs_sb V V') by (apply fin_high || lia). unfold V. rewrite mview_used by done.
    rewrite (fi_free _ _ _ Hfs). change (46 + _) with (total (foldl add_spec root_fs l)). by rewrite total_closed.
  - by rewrite fin_root.
  - rewrite fin_root. exact (ho_nlink _ _ _ _ root_holds).
  - intros name. by rewrite fin_root.
  - intros i name data E n. pose proof (fin_file i name data E) as Hh. fold n in Hh.
    pose proof (holds_data _ _ _ _ Hh). by destruct Hh.
  - intros i j Hij Hri Hrj a Ha Hb. apply fin_block in Ha, Hb; [|done..].
    revert Ha Hb. replace i with (1 + Z.of_nat (Z.to_nat (i - 1))) by lia.
    replace j with (1 + Z.of_nat (Z.to_nat (j - 1))) by lia. intros Ha. revert a Ha.
    apply (fi_disjoint _ _ _ Hfs); [lia|..]; rewrite files_closed; cbn [length]; rewrite length_fmap; lia.
Qed.
End Finished.

(** ** main *)

Lemma wp_fix_root_size l s (Q : unit -> mkfs -> Prop) :
  files (foldl add_spec root_fs l) sb_block s -> (2 + Z.of_nat (length l)) mod 64 <> 0 ->
  (forall s', minv s' -> m_freeblock s' = space l -> mkfs_image l (mview s') -> Q tt s') ->
  wp (fix_root_size ROOTINO) Q s.
Proof.
  intros Hfs Hfull HQ. pose proof (fi_inv _ _ _ Hfs) as Hi. unfold fix_root_size.
  pose proof (root_small l s Hfs Hfull) as Hsm. pose proof (root_holds l s Hfs) as Hh.
  apply wp_bind. apply wp_rinode; [done|exact root_inum|].
  rewrite (ho_size _ _ _ _ Hh), length_dirents.
  replace (Z.of_nat (16 * (2 + length l))) with (16 * (2 + Z.of_nat (length l))) by lia.
  rewrite (xint_small (16 * _)) by (clear -Hsm; plia). fold (root_size l).
  rewrite u32_small, xint_small by (clear -Hsm; plia).
  apply wp_winode; [done|exact root_inum|done|apply (io_len _ (fin_inode l s Hfs Hfull))|].
  intros s' Hi' Hv [Hfb _]. apply HQ; [done| |by eapply finished].
  rewrite Hfb, (fi_free _ _ _ Hfs). change (46 + _) with (total (foldl add_spec root_fs l)). apply total_closed.
Qed.

Lemma wp_balloc_image s (Q : unit -> mkfs -> Prop) :
  minv s -> (forall s', view (m_img s') = mview s -> Q tt s') -> wp (Mkfs.balloc (m_freeblock s)) Q s.
Proof.
  intros Hi HQ. unfold Mkfs.balloc. pose proof (mi_free _ Hi) as Hf. apply wp_bind. unfold assert_.
  destruct (Z.ltb_spec (m_freeblock s) BPB); [|clear -Hf H; plia]. apply wp_ret, wp_bind, wp_gets.
  rewrite (mi_sb _ Hi). cbn [mkfs_sb sb_bmapstart]. fold (bitmap (m_freeblock s)).
  unfold wsect. apply wp_modify. apply HQ. rewrite sector_small by plia.
  rewrite decide_True by (rewrite (mi_len _ Hi); plia). cbn [set_m_img m_img].
  apply view_insert; [done|]. rewrite (mi_len _ Hi). plia.
Qed.

(** The entries "." and "..". *)
Lemma files_root_dot s (Q : unit -> mkfs -> Prop) :
  files [(T_DIR, [])] sb_block s ->
  (forall s', files [(T_DIR, dirent_bytes 1 (bytes_of "."))] sb_block s' -> Q tt s') ->
  wp (iappend ROOTINO (de_strcpy ROOTINO (bytes_of "."))) Q s.
Proof.
  intros Hf HQ. change (de_strcpy ROOTINO (bytes_of ".")) with (dirent_bytes 1 (bytes_of ".")).
  change ROOTINO with (1 + Z.of_nat 0).
  eapply (files_iappend _ sb_block s 0 T_DIR []); [exact Hf|done|apply dirent_is_bytes; repeat constructor; lia|by vm_compute| |exact HQ].
  rewrite (fi_free _ _ _ Hf). by vm_compute.
Qed.

Lemma files_root_dotdot s (Q : unit -> mkfs -> Prop) :
  files [(T_DIR, dirent_bytes 1 (bytes_of "."))] sb_block s ->
  (forall s', files root_fs sb_block s' -> Q tt s') ->
  wp (iappend ROOTINO (de_strcpy ROOTINO (bytes_of ".."))) Q s.
Proof.
  intros Hf HQ. change (de_strcpy ROOTINO (bytes_of "..")) with (dirent_bytes 1 (bytes_of "..")).
  change ROOTINO with (1 + Z.of_nat 0).
  eapply (files_iappend _ sb_block s 0 T_DIR (dirent_bytes 1 (bytes_of "."))); [exact Hf|done|apply dirent_is_bytes; repeat constructor; lia|by vm_compute| |exact HQ].
  rewrite (fi_free _ _ _ Hf). by vm_compute.
Qed.

Section Builds.
Context {H : Host}.

Lemma wp_main arg0 img args datas :
  host_create img = true -> Forall2 good_arg args datas ->
  let l := zip (file_name <$> args) datas in
  Z.of_nat (length args) + 1 < NINODES -> (2 + Z.of_nat (length args)) mod 64 <> 0 ->
  space l <= FSSIZE ->
  wp (Mkfs.main (arg0 :: img :: args)) (fun _ s => mkfs_image l (view (m_img s))) mkfs0.
Proof using Type.
  intros Himg Hga l Hcnt Hfull Hsp.
  assert (Hll : length l = length args).
  { unfold l. rewrite length_zip_with_l_eq, length_fmap; [done|]. rewrite length_fmap. by eapply Forall2_length. }
  unfold Mkfs.main. apply wp_bind, wp_ret, wp_bind, wp_ret. rewrite Himg.
  apply wp_bind, wp_modify, wp_bind, wp_modify, wp_bind, wp_modify.
  apply wp_bind, wp_clear; [done|]. apply wp_bind. apply wp_superblock; [done|done|]. intros s1 Hf1.
  apply wp_bind. apply (files_ialloc _ _ _ _ _ Hf1); [by vm_compute|by vm_compute|]. intros s2 Hf2.
  apply wp_bind. change (1 + Z.of_nat (length [])) with ROOTINO. apply wp_ret.
  apply wp_bind. refine (files_root_dot s2 _ Hf2 _). intros s3 Hf3.
  apply wp_bind. refine (files_root_dotdot s3 _ Hf3 _). intros s4 Hf4.
  apply wp_bind. apply (files_add_files args datas sb_block s4); [done..|by rewrite total_closed|]. intros s5 Hf5.
  apply wp_bind. apply (wp_fix_root_size l s5); [done|by rewrite Hll|]. intros s6 Hi6 _ Him.
  apply wp_bind, wp_gets. apply wp_balloc_image; [done|]. intros s7 ->. done.
Qed.

(** C9. mkfs run on files that open, have names without a slash of at most
    DIRSIZ characters (after a leading user/ and underscore), are fewer than
    199 and fit the disk, their number with . and .. not a multiple of 64 (the
    root directory's entries would fill its blocks exactly, and its size is
    then rounded up to a block it does not have), builds a file system: the kernel's superblock, an empty log, a bitmap that
    marks exactly the blocks handed out, a root directory that is the map
    from the names to the inode numbers, and for every file an inode with its
    contents, no two files sharing a block. *)
Theorem mkfs_builds_file_system arg0 img args datas :
  host_create img = true -> Forall2 good_arg args datas ->
  let l := zip (file_name <$> args) datas in
  Z.of_nat (length args) + 1 < NINODES -> (2 + Z.of_nat (length args)) mod 64 <> 0 ->
  space l <= FSSIZE ->
  exists s, Mkfs.main (arg0 :: img :: args) mkfs0 = Ret tt s /\ mkfs_image l (view (m_img s)).
Proof using Type.
  intros Himg Hga l Hcnt Hfull Hsp. pose proof (wp_main arg0 img args datas Himg Hga Hcnt Hfull Hsp) as Hwp.
  apply wp_run in Hwp as ([] & s & E & Hi). by exists s.
Qed.
End Builds.

(** ** An example: two files *)

Definition example_host : Host := {|
  host_create := fun _ => true;
  host_open := fun a =>
    if decide (a = bytes_of "README") then Some [bytes_of "xv6 is "; bytes_of "an OS"]
    else if decide (a = bytes_of "user/_cat") then Some [bytes_of "ELF"] else None;
|}.

Definition example_args : list (list Z) := [bytes_of "README"; bytes_of "user/_cat"].
Definition example_datas : list (list Z) := [bytes_of "xv6 is an OS"; bytes_of "ELF"].

Lemma example_good : Forall2 (good_arg (H := example_host)) example_args example_datas.
Proof.
  assert (Hb : forall l : list Z, bool_decide (Forall (fun b => 0 <= b < 256) l) = true -> is_bytes l)
    by (intros l Hl; by apply bool_decide_eq_true_1 in Hl).
  constructor; [|constructor; [|constructor]].
  - split; [apply (bool_decide_unpack _); by vm_compute|]. split; [by apply Hb; vm_compute|]. split; [by vm_compute|].
    exists [bytes_of "xv6 is "; bytes_of "an OS"]. split_and!; [done|done| |by vm_compute].
    constructor; [by apply Hb; vm_compute|constructor; [by apply Hb; vm_compute|constructor]].
  - split; [apply (bool_decide_unpack _); by vm_compute|]. split; [by apply Hb; vm_compute|]. split; [by vm_compute|].
    exists [bytes_of "ELF"]. split_and!; [done|done| |by vm_compute].
    constructor; [by apply Hb; vm_compute|constructor].
Qed.

Lemma mkfs_builds_file_system_witness :
  exists s, Mkfs.main (H := example_host) (bytes_of "mkfs" :: bytes_of "fs.img" :: example_args) mkfs0 = Ret tt s /\
    mkfs_image (zip (file_name <$> example_args) example_datas) (view (m_img s)).
Proof.
  apply (mkfs_builds_file_system (H := example_host) (bytes_of "mkfs") (bytes_of "fs.img") example_args example_datas).
  - reflexivity.
  - exact example_good.
  - by vm_compute.
  - by vm_compute.
  - by vm_compute.
Defined.
