(* ===== verification/MkfsBoot.v ===== *)
(** The image of mkfs/mkfs.c in the kernel: booted from it, namei finds the
    files by name and readi reads their contents. *)

From Stdlib Require Import FunctionalExtensionality.
From stdpp Require Import base numbers list gmap strings.
From S2P Require Import Prelude Params Mem State Locks Cache Kalloc Bio Vm Console Log LogBio Fs Itable FsTx FsBlocks FsBoot FsInode FsBmap FsWrite FsLock FsDir FsPath FsNamei Mkfs MkfsAppend MkfsFiles MkfsImage MkfsMain.

Implicit Types (V : Z -> list Z) (l : list (list Z * list Z)).

#[local] Instance boot_layout : Layout := kernel_sym.

(** The disk whose contents are the image file. *)
Definition disk_of (img : list (list Z)) : disk := mk_disk (map_seqZ 0 img) [].

Lemma disk_of_view img : dblk (disk_of img) = view img.
Proof.
  apply functional_extensionality. intros b. unfold dblk, disk_of, view. cbn [d_blocks].
  destruct (Z.ltb_spec b 0) as [Hb|Hb].
  - by rewrite (proj2 (lookup_map_seqZ_None 0 img b)) by lia.
  - rewrite lookup_map_seqZ, option_guard_True by lia. by rewrite Z.sub_0_r.
Qed.

(** ** The tree of the image *)

Definition in_image l (j : Z) : Prop := 1 <= j <= 1 + Z.of_nat (length l).

Lemma disk_inode_node V j : disk_inode mkfs_sb V j = node V j.
Proof. done. Qed.

Lemma root_map_in l name k : root_map l !! name = Some k -> in_image l k.
Proof.
  unfold root_map. intros Hk%elem_of_list_to_map_2. apply list_elem_of_fmap in Hk as ([nm j] & [= -> ->] & He).
  apply list_elem_of_lookup in He as [i He]. unfold entries in He. unfold in_image.
  destruct i as [|[|i]]; [simplify_eq/=; lia|simplify_eq/=; lia|].
  change (imap (fun i f => (f.1, 2 + Z.of_nat i)) l !! i = Some (nm, j)) in He.
  rewrite list_lookup_imap in He. destruct (l !! i) eqn:Ei; [|done]. simplify_eq/=.
  apply lookup_lt_Some in Ei. lia.
Qed.

Lemma image_tree l V : mkfs_image l V -> Z.of_nat (length l) + 1 < NINODES -> tree_ok mkfs_sb V (in_image l).
Proof.
  intros Him Hc j Hj. unfold in_image in Hj. rewrite disk_inode_node. split.
  { replace j with (1 + Z.of_nat (Z.to_nat (j - 1))) by lia. apply inum_ok_lt. lia. }
  destruct (decide (j = ROOTINO)) as [->|Hne].
  - pose proof (im_root_ok _ _ Him) as Hd. rewrite (im_root_nlink _ _ Him), (do_type _ _ _ Hd). split_and!; [done|done|].
    intros _. split; [done|]. intros name k. rewrite (im_root _ _ Him). apply root_map_in.
  - destruct (lookup_lt_is_Some_2 l (Z.to_nat (j - 2))) as [[name data] E]; [unfold ROOTINO in *; lia|].
    destruct (im_files _ _ Him _ _ _ E) as (_ & Hty & Hnl & _).
    replace (2 + Z.of_nat (Z.to_nat (j - 2))) with j in Hty, Hnl by (unfold ROOTINO in *; lia).
    rewrite Hty, Hnl. split_and!; done.
Qed.

(** ** The booted kernel *)

(** The inode table at boot. *)
Definition fresh_itable : list inode := replicate (Z.to_nat NINODE) zero_inode.

Lemma fresh_table_ok V P : table_ok mkfs_sb V P fresh_itable.
Proof.
  split.
  - split; [apply length_replicate|by apply Forall_replicate|].
    intros i j n m Hi. apply lookup_replicate in Hi as [-> _]. done.
  - apply Forall_replicate. split; [done|]. by intros.
Qed.

Lemma fresh_refs d u : refs d u fresh_itable = 0.
Proof. unfold fresh_itable. by induction (Z.to_nat NINODE). Qed.

Lemma fresh_nfree : 2 <= nfree fresh_itable.
Proof. by vm_compute. Qed.

(** A system call has begun in the kernel booted from the image. *)
Lemma image_begins_call l img :
  mkfs_image l (view img) ->
  exists kb s, reboot mkfs_sb (disk_of img) = Ret tt kb /\
    let s0 := set_k_itable fresh_itable (set_k_sb mkfs_sb kb) in
    begin_op s0 = Ret tt s /\ intx 1 2 LOGSIZE 1 s0 (view img) [] ∅ s.
Proof.
  intros Him. destruct (disk_boots (disk_of img) fresh_itable) as (kb & E & Hq).
  - intros b. rewrite disk_of_view. apply (im_blocks _ _ Him).
  - rewrite disk_of_view. apply (im_log _ _ Him).
  - rewrite disk_of_view in Hq.
    assert (Hwp : wp begin_op (fun _ s => intx 1 2 LOGSIZE 1 (set_k_itable fresh_itable (set_k_sb mkfs_sb kb)) (view img) [] ∅ s)
      (set_k_itable fresh_itable (set_k_sb mkfs_sb kb))) by (by eapply wp_tx_begin; [exact mkfs_geometry| |]).
    apply wp_run in Hwp as ([] & s & E' & Hs). exists kb, s. split; [exact E|]. split; [exact E'|exact Hs].
Qed.

(** A path of one element. *)
Lemma elems_one name : name <> [] -> Forall (fun c => is_slash c = false) name -> elems (47 :: name) = [name].
Proof.
  intros Hne Hs. rewrite elems_slash by done. unfold elems.
  assert (E : split_slash name = [name]).
  { clear Hne. induction Hs as [|c name Hc Hs IH]; [done|]. cbn [split_slash]. by rewrite Hc, IH. }
  rewrite E. by rewrite filter_cons_True.
Qed.

(** ** Reading a file *)

Lemma wp_read_image l V o s0 t s ip n i name data (Q : Z * list Z -> kstate -> Prop) :
  mkfs_image l V -> Z.of_nat (length l) + 1 < NINODES -> l !! i = Some (name, data) ->
  intx 1 2 LOGSIZE o (set_k_itable t s0) V [] ∅ s -> k_sb s0 = mkfs_sb ->
  table_ok mkfs_sb V (in_image l) t -> t !! ip = Some n -> 1 <= i_ref n -> i_inum n = 2 + Z.of_nat i ->
  (forall s', Q (Z.of_nat (length data), data) s') ->
  wp (ilock ip ;; readi ip DstLocal 0 (Z.of_nat (length data))) Q s.
Proof.
  intros Him Hc Ei Ht Hsb Htk Hn Hr Hin HQ.
  destruct (im_files _ _ Him _ _ _ Ei) as ([Hf Hio Hinum Hmax Hmap] & _ & _ & Hsz & Hdata).
  destruct (entry_ok_at _ _ _ _ _ _ Htk Hn) as [[_ Hu] _]. destruct (Hu ltac:(lia)) as (Hdev & _).
  assert (Hroom : room [] ∅) by (vm_compute; lia).
  apply wp_bind. eapply (wp_ilock_ok 1 2 LOGSIZE mkfs_sb V (in_image l) (image_tree l V Him Hc)); [exact Ht|done|done|done|done|done|].
  intros s1 Ht1. set (n1 := locked_by 1 (loaded mkfs_sb V n)) in *.
  assert (Ea : i_addrs n1 = i_addrs (node V (2 + Z.of_nat i)) /\ i_size n1 = i_size (node V (2 + Z.of_nat i))).
  { rewrite <- Hin. by split. }
  destruct Ea as [Ea Es]. rewrite Hsz in Es.
  assert (Hrl : read_len n1 0 (Z.of_nat (length data)) = Z.of_nat (length data)).
  { unfold read_len. rewrite Es, Z.add_0_l, u32_small by plia. destruct (Z.ltb_spec (Z.of_nat (length data)) 0); [lia|].
    rewrite Z.ltb_irrefl. by destruct (Z.of_nat (length data) <? Z.of_nat (length data)). }
  eapply wp_readi; [exact Ht1|by apply list_lookup_insert_eq; eapply lookup_lt_Some|exact Hdev|rewrite Ea; apply Hf|done|done|plia|lia| |].
  - intros x Hx. rewrite (fblk_addrs V n1 (node V (2 + Z.of_nat i))) by done. apply Hmap. lia.
  - intros s2 _. rewrite Hrl, Nat2Z.id. replace (fdata V n1 0 (length data)) with data; [apply HQ|].
    rewrite <- Hdata at 1. unfold fdata, fbyte. apply list_fmap_ext. intros k x _.
    by rewrite (fblk_addrs V n1 (node V (2 + Z.of_nat i))).
Qed.

(** C7. From host file to user: a kernel booted from an image that mkfs built
    recovers its empty log, and in the first system call namei of the name
    under which mkfs stored a file finds it, ilock loads its inode, and
    readi returns exactly its contents. *)
Theorem kernel_reads_mkfs_files l img i name data :
  mkfs_image l (view img) -> Z.of_nat (length l) + 1 < NINODES ->
  l !! i = Some (name, data) -> root_map l !! cname name = Some (2 + Z.of_nat i) ->
  no_nul name -> Forall (fun c => is_slash c = false) name -> name <> [] ->
  exists kb s ip s1 s2 s3,
    reboot mkfs_sb (disk_of img) = Ret tt kb /\
    begin_op (set_k_itable fresh_itable (set_k_sb (decode_sb (view img 1)) kb)) = Ret tt s /\
    namei (47 :: name) s = Ret (Some ip) s1 /\ ilock ip s1 = Ret tt s2 /\
    readi ip DstLocal 0 (Z.of_nat (length data)) s2 = Ret (Z.of_nat (length data), data) s3.
Proof.
  intros Him Hc Ei Hroot Hnul Hsl Hne. rewrite (im_sb _ _ Him).
  destruct (image_begins_call l img Him) as (kb & s & Ekb & Eb & Ht).
  set (s0 := set_k_itable fresh_itable (set_k_sb mkfs_sb kb)) in *. set (V := view img) in *.
  pose proof (image_tree l V Him Hc) as Htree. assert (Hroom : room [] ∅) by (vm_compute; lia).
  assert (Hw : walk mkfs_sb V false ROOTINO (elems (47 :: name)) = Some (2 + Z.of_nat i)).
  { rewrite elems_one by done. cbn [walk]. rewrite disk_inode_node, (do_type _ _ _ (im_root_ok _ _ Him)).
    cbn [Z.eqb negb andb]. by rewrite Z.eqb_refl, (im_root _ _ Him), Hroot. }
  assert (Hnx : wp (namex (47 :: name) false empty_name)
    (found 1 2 LOGSIZE mkfs_sb V (in_image l) s0 (fun d u => refs d u (k_itable s0)) [] 1 (last (elems (47 :: name))) (Some (2 + Z.of_nat i))) s).
  { rewrite <- Hw.
    refine (wp_namex 1 2 LOGSIZE mkfs_sb V (in_image l) Htree 1 false s0 [] (47 :: name) s ROOTINO eq_refl Hroom Ht
      (fresh_table_ok V (in_image l)) fresh_nfree _ eq_refl _).
    - unfold in_image, ROOTINO. lia.
    - by constructor. }
  apply wp_run in Hnx as ([v nm] & s1 & E1 & (t & Htk & Ht1 & (ip & n & Ev & Hn & Hr & Hin & _))). cbn in Ev. subst v.
  assert (Hrd : wp (ilock ip ;; readi ip DstLocal 0 (Z.of_nat (length data)))
    (fun r _ => r = (Z.of_nat (length data), data)) s1).
  { exact (wp_read_image l V 1 s0 t s1 ip n i name data _ Him Hc Ei Ht1 eq_refl Htk Hn Hr Hin (fun _ => eq_refl)). }
  apply wp_bind_inv in Hrd. apply wp_run in Hrd as ([] & s2 & E2 & Hrd). apply wp_run in Hrd as (r & s3 & E3 & ->).
  exists kb, s, ip, s1, s2, s3. split; [exact Ekb|]. split; [exact Eb|]. split; [|split; [exact E2|exact E3]].
  unfold namei. by rewrite (bind_Ret _ _ _ _ _ E1).
Qed.

(** ** Examples: the image with the files README and cat *)

Definition example_files : list (list Z * list Z) := zip (file_name <$> example_args) example_datas.

Lemma example_image : exists img, mkfs_image example_files (view img).
Proof.
  pose proof (wp_main (H := example_host) (bytes_of "mkfs") (bytes_of "fs.img") example_args example_datas eq_refl
    example_good ltac:(by vm_compute) ltac:(by vm_compute) ltac:(by vm_compute)) as Hwp.
  destruct (proj1 (wp_run _ _ _) Hwp) as ([] & s & _ & Him). exists (m_img s). exact Him.
Qed.

Lemma kernel_reads_mkfs_files_witness :
  exists s ip s1 s2 s3, namei (bytes_of "/cat") s = Ret (Some ip) s1 /\ ilock ip s1 = Ret tt s2 /\
    readi ip DstLocal 0 3 s2 = Ret (3, bytes_of "ELF") s3.
Proof.
  destruct example_image as [img Him].
  destruct (kernel_reads_mkfs_files example_files img 1 (bytes_of "cat") (bytes_of "ELF") Him)
    as (kb & s & ip & s1 & s2 & s3 & _ & _ & E1 & E2 & E3).
  - by vm_compute.
  - reflexivity.
  - by vm_compute.
  - repeat constructor; discriminate.
  - repeat constructor.
  - discriminate.
  - exists s, ip, s1, s2, s3. split; [exact E1|]. split; [exact E2|exact E3].
Defined.

Lemma namei_resolves_paths_witness :
  exists s ip s', namei (bytes_of "//README") s = Ret (Some ip) s'.
Proof.
  destruct example_image as [img Him]. destruct (image_begins_call _ _ Him) as (kb & s & _ & _ & Ht).
  assert (Hw : walk mkfs_sb (view img) false ROOTINO (elems (bytes_of "//README")) = Some 2).
  { change (elems (bytes_of "//README")) with [bytes_of "README"]. cbn [walk].
    rewrite disk_inode_node, (do_type _ _ _ (im_root_ok _ _ Him)). cbn [negb andb]. rewrite Z.eqb_refl, (im_root _ _ Him).
    by vm_compute. }
  destruct (namei_resolves_paths 1 2 LOGSIZE mkfs_sb (view img) (in_image example_files)
    (image_tree _ _ Him ltac:(by vm_compute)) 1 _ [] s (bytes_of "//README") ROOTINO Ht) as [(v & s' & E & t & _ & _ & Hf) _].
  - reflexivity.
  - vm_compute. lia.
  - apply fresh_table_ok.
  - exact fresh_nfree.
  - split; by vm_compute.
  - reflexivity.
  - repeat constructor; discriminate.
  - rewrite Hw in Hf. destruct Hf as (ip & n & Ev & _). cbn in Ev. subst v. by exists s, ip, s'.
Defined.
