(* ===== verification/Umalloc.v ===== *)
(** user/umalloc.c: the memory allocator of the user programs.

    The heap is the process's memory above [h_start]; a [Header *] is its
    address, and its fields are read and written at their offsets. The kernel
    grants memory up to [h_limit]. An access outside the process's pages ends
    the process ([Panic "usertrap"]). The address of the static variable
    [base] is a parameter. *)

From stdpp Require Import base numbers list gmap strings.
From S2P Require Import Prelude Params Mem.

Definition ld32 (m : memory) (a : Z) : Z := le_val (read_bytes m a 4).
Definition st32 (m : memory) (a v : Z) : memory := write_bytes m a (le_bytes 4 v).

Record heap := mk_heap {
  h_mem : memory;
  h_freep : Z;
  h_brk : Z;      (* the size of the process *)
  h_limit : Z;
}.

Definition set_h_mem v h := mk_heap v (h_freep h) (h_brk h) (h_limit h).
Definition set_h_freep v h := mk_heap (h_mem h) v (h_brk h) (h_limit h).
Definition set_h_brk v h := mk_heap (h_mem h) (h_freep h) v (h_limit h).

Definition H : Type -> Type := M heap.

(** ** Headers *)

Definition sizeof_Header : Z := 16.

(** The pages of the process. *)
Definition access {A} (p : Z) (f : H A) : H A :=
  let! brk := gets h_brk in
  if (0 <=? p) && (p + sizeof_Header <=? PGROUNDUP brk) then f else panic "usertrap".

Definition ptr (p : Z) : H Z := access p (gets (fun h => ld64 (h_mem h) p)).
Definition size (p : Z) : H Z := access p (gets (fun h => ld32 (h_mem h) (p + 8))).
Definition set_ptr (p v : Z) : H unit := access p (modify (fun h => set_h_mem (st64 (h_mem h) p v) h)).
Definition set_size (p v : Z) : H unit := access p (modify (fun h => set_h_mem (st32 (h_mem h) (p + 8) v) h)).

(** sbrk(n): the kernel takes its argument as an int; growing may fail,
    shrinking below 0 does nothing. *)
Definition sbrk (n : Z) : H Z :=
  let n := s32 n in
  let! brk := gets h_brk in
  let! limit := gets h_limit in
  if 0 <? n then
    if limit <? brk + n then ret (-1)
    else modify (set_h_brk (brk + n)) ;; ret brk
  else
    let newsz := u64 (brk + n) in
    (if newsz <? brk then modify (set_h_brk newsz) else ret tt) ;;
    ret brk.

(** A bound on the rounds of the loops: twice the headers there is room for. *)
Definition rounds (h : heap) : nat := Z.to_nat (2 * (h_brk h / sizeof_Header) + 4).

(** ** The allocator *)

Section Umalloc.
Context (base : Z).

(** Where free inserts a block: the last header before it. *)
Definition free_place (bp p : Z) : H (Z + Z) :=
  let! next := ptr p in
  if (p <? bp) && (bp <? next) then ret (inr p)
  else if (next <=? p) && ((p <? bp) || (bp <? next)) then ret (inr p)
  else ret (inl next).

Definition free (ap : Z) : H unit :=
  let bp := ap - sizeof_Header in
  let! freep := gets h_freep in
  let! n := gets rounds in
  let! p := loop n (free_place bp) freep in
  let! next := ptr p in
  let! bsize := size bp in
  (if bp + bsize * sizeof_Header =? next then
     let! nsize := size next in
     set_size bp (bsize + nsize) ;;
     let! nn := ptr next in
     set_ptr bp nn
   else set_ptr bp next) ;;
  let! psize := size p in
  (if p + psize * sizeof_Header =? bp then
     let! bsize := size bp in
     set_size p (psize + bsize) ;;
     let! bn := ptr bp in
     set_ptr p bn
   else set_ptr p bp) ;;
  modify (set_h_freep p).

Definition morecore (nu : Z) : H Z :=
  let nu := if nu <? 4096 then 4096 else nu in
  let! p := sbrk (nu * sizeof_Header) in
  if p =? -1 then ret 0
  else
    set_size p nu ;;
    free (p + sizeof_Header) ;;
    gets h_freep.

(** One round of malloc's loop. *)
Definition malloc_round (nunits : Z) (v : Z * Z) : H (Z * Z + Z) :=
  let '(prevp, p) := v in
  let! psize := size p in
  if nunits <=? psize then
    let! p := (if psize =? nunits then
                 let! next := ptr p in
                 set_ptr prevp next ;;
                 ret p
               else
                 set_size p (psize - nunits) ;;
                 let! psize := size p in
                 let p := p + psize * sizeof_Header in
                 set_size p nunits ;;
                 ret p) in
    modify (set_h_freep prevp) ;;
    ret (inr (p + sizeof_Header))
  else
    let! freep := gets h_freep in
    if p =? freep then
      let! p := morecore nunits in
      if p =? 0 then ret (inr 0)
      else let! next := ptr p in ret (inl (p, next))
    else let! next := ptr p in ret (inl (p, next)).

Definition malloc (nbytes : Z) : H Z :=
  let nunits := u32 ((nbytes + sizeof_Header - 1) / sizeof_Header + 1) in
  let! freep := gets h_freep in
  let! prevp := (if freep =? 0 then
                   modify (set_h_freep base) ;;
                   set_ptr base base ;;
                   set_size base 0 ;;
                   ret base
                 else ret freep) in
  let! p := ptr prevp in
  let! n := gets rounds in
  loop n (malloc_round nunits) (prevp, p).
End Umalloc.
