(* ===== verification/UmallocSpec.v ===== *)
(** malloc and free of user/umalloc.c: the allocated and the free blocks
    partition the memory obtained from the kernel, and free blocks that
    touch are one block. *)

From stdpp Require Import base numbers list gmap strings sorting.
From S2P Require Import Prelude Params Mem Umalloc.

(** ** Headers in memory *)

Definition mptr (m : memory) (p : Z) : Z := ld64 m p.
Definition msize (m : memory) (p : Z) : Z := ld32 m (p + 8).
Definition put_ptr (m : memory) (p v : Z) : memory := st64 m p v.
Definition put_size (m : memory) (p v : Z) : memory := st32 m (p + 8) v.

Lemma ld32_st32 m a v : 0 <= v < 2 ^ 32 -> ld32 (st32 m a v) a = v.
Proof.
  intros Hv. unfold ld32, st32. pose proof (read_write_bytes m a (le_bytes 4 v) (le_bytes_bytes 4 v)) as E.
  rewrite length_le_bytes in E. rewrite E, le_val_bytes. by apply Z.mod_small.
Qed.

Lemma rd_st32_out m a v x : x < a \/ a + 4 <= x -> rd (st32 m a v) x = rd m x.
Proof. intros. apply rd_write_bytes_out. by rewrite length_le_bytes. Qed.

Lemma ld32_ext m m' a : (forall x, a <= x < a + 4 -> rd m' x = rd m x) -> ld32 m' a = ld32 m a.
Proof. intros E. unfold ld32. by rewrite (read_bytes_ext m m'). Qed.

Lemma ptr_put_ptr m p v : 0 <= v < 2 ^ 64 -> mptr (put_ptr m p v) p = v.
Proof. intros. unfold mptr, put_ptr. rewrite ld64_st64. unfold u64. by apply Z.mod_small. Qed.

Lemma ptr_put_size m p v : mptr (put_size m p v) p = mptr m p.
Proof. apply ld64_ext. intros. apply rd_st32_out. lia. Qed.

Lemma size_put_size m p v : 0 <= v < 2 ^ 32 -> msize (put_size m p v) p = v.
Proof. intros. by apply ld32_st32. Qed.

Lemma size_put_ptr m p v : msize (put_ptr m p v) p = msize m p.
Proof. apply ld32_ext. intros. apply rd_st64_out. lia. Qed.

(** Memory outside the header at [p] is the same. *)
Definition at_header (p : Z) (m m' : memory) : Prop := forall x, x < p \/ p + 16 <= x -> rd m' x = rd m x.

Lemma at_header_ptr m p v : at_header p m (put_ptr m p v).
Proof. intros x Hx. apply rd_st64_out. lia. Qed.

Lemma at_header_size m p v : at_header p m (put_size m p v).
Proof. intros x Hx. apply rd_st32_out. lia. Qed.

Lemma at_header_trans p m1 m2 m3 : at_header p m1 m2 -> at_header p m2 m3 -> at_header p m1 m3.
Proof. intros H1 H2 x Hx. rewrite H2 by done. by apply H1. Qed.

Definition apart (p q : Z) : Prop := p + 16 <= q \/ q + 16 <= p.

Lemma at_header_other p q m m' : at_header p m m' -> apart p q -> mptr m' q = mptr m q /\ msize m' q = msize m q.
Proof.
  intros Hm Ha. unfold apart in Ha. split; [apply ld64_ext|apply ld32_ext]; intros x Hx; apply Hm; lia.
Qed.

(** ** Accesses *)

Definition mapped (brk p : Z) : Prop := 0 <= p /\ p + 16 <= brk /\ brk < 2 ^ 40.

Lemma run_access {A} p (f : H A) h : mapped (h_brk h) p -> access p f h = f h.
Proof.
  intros (H0 & H1 & H2). unfold access. rewrite run_gets. unfold sizeof_Header.
  rewrite PGROUNDUP_spec by lia. destruct (Z.leb_spec 0 p); [|lia].
  destruct (Z.leb_spec (p + 16) ((h_brk h + 4095) / PGSIZE * PGSIZE)); [done|plia].
Qed.

Lemma run_ptr {A} p (k : Z -> H A) h : mapped (h_brk h) p -> bind (ptr p) k h = k (mptr (h_mem h) p) h.
Proof. intros Hp. unfold bind, ptr. by rewrite run_access. Qed.

Lemma run_size {A} p (k : Z -> H A) h : mapped (h_brk h) p -> bind (size p) k h = k (msize (h_mem h) p) h.
Proof. intros Hp. unfold bind, size. by rewrite run_access. Qed.

Lemma run_set_ptr {A} p v (k : unit -> H A) h :
  mapped (h_brk h) p -> bind (set_ptr p v) k h = k tt (set_h_mem (put_ptr (h_mem h) p v) h).
Proof. intros Hp. unfold bind, set_ptr. by rewrite run_access. Qed.

Lemma run_set_size {A} p v (k : unit -> H A) h :
  mapped (h_brk h) p -> bind (set_size p v) k h = k tt (set_h_mem (put_size (h_mem h) p v) h).
Proof. intros Hp. unfold bind, set_size. by rewrite run_access. Qed.

Lemma set_ptr_ok p v h : mapped (h_brk h) p -> set_ptr p v h = Ret tt (set_h_mem (put_ptr (h_mem h) p v) h).
Proof. intros Hp. unfold set_ptr. by rewrite run_access. Qed.

(** ** Blocks *)

(** A block: the address of its header, and its size in headers. *)
#[local] Notation block := (Z * Z)%type (only parsing).

Definition cells (a : Z) (n : nat) : list Z := (fun k => a + 16 * Z.of_nat k) <$> seq 0 n.
Definition units (b : block) : list Z := cells b.1 (Z.to_nat b.2).
Definition all_units (L : list block) : list Z := L ≫= units.

Lemma elem_of_cells x a n : x ∈ cells a n <-> a <= x < a + 16 * Z.of_nat n /\ (x - a) mod 16 = 0.
Proof.
  unfold cells. rewrite list_elem_of_fmap. split.
  - intros (k & -> & Hk%elem_of_seq). split; [lia|]. replace (a + 16 * Z.of_nat k - a) with (Z.of_nat k * 16) by lia. apply Z.mod_mul. lia.
  - intros [H1 H2]. exists (Z.to_nat ((x - a) / 16)). rewrite elem_of_seq. split; dlia.
Qed.

Lemma cells_app a n k : cells a (n + k) = cells a n ++ cells (a + 16 * Z.of_nat n) k.
Proof.
  unfold cells. rewrite seq_app, fmap_app. f_equal. rewrite Nat.add_0_l. rewrite <- (Nat.add_0_r n) at 1.
  rewrite <- fmap_add_seq, <- list_fmap_compose. apply list_fmap_ext. intros i x _. cbn. lia.
Qed.

Lemma NoDup_cells a n : NoDup (cells a n).
Proof. apply NoDup_fmap_2; [intros i j; lia|apply NoDup_seq]. Qed.

Lemma elem_of_units x b : x ∈ units b <-> b.1 <= x < b.1 + 16 * b.2 /\ (x - b.1) mod 16 = 0.
Proof. unfold units. rewrite elem_of_cells. split; intros [? ?]; (split; [lia|done]). Qed.

Lemma units_header b : 0 < b.2 -> b.1 ∈ units b.
Proof. intros Hb. apply elem_of_units. rewrite Z.sub_diag. split; [lia|done]. Qed.

Lemma units_join a n k : 0 <= n -> 0 <= k -> units (a, n + k) = units (a, n) ++ units (a + 16 * n, k).
Proof.
  intros Hn Hk. unfold units. cbn [fst snd]. rewrite Z2Nat.inj_add by lia. rewrite cells_app. by rewrite Z2Nat.id.
Qed.

Lemma all_units_app L L' : all_units (L ++ L') = all_units L ++ all_units L'.
Proof. apply bind_app. Qed.

Lemma all_units_cons b L : all_units (b :: L) = units b ++ all_units L.
Proof. done. Qed.

#[export] Instance all_units_perm : Proper ((≡ₚ) ==> (≡ₚ)) all_units.
Proof. intros L L' HL. by apply bind_Permutation. Qed.

Lemma elem_of_all_units x L : x ∈ all_units L <-> exists b, b ∈ L /\ x ∈ units b.
Proof. unfold all_units. rewrite list_elem_of_bind. naive_solver. Qed.

(** ** The ring of free blocks *)

(** From [p], the list of headers [L] leads to [e]. *)
Fixpoint seg (m : memory) (p : Z) (L : list block) (e : Z) : Prop :=
  match L with
  | [] => p = e
  | b :: L => p = b.1 /\ msize m p = b.2 /\ seg m (mptr m p) L e
  end.

Lemma seg_app m p L L' e : seg m p (L ++ L') e <-> exists q, seg m p L q /\ seg m q L' e.
Proof.
  revert p. induction L as [|b L IH]; intros p; cbn [app seg].
  - split; [intros Hs; by exists p|by intros (q & -> & ?)].
  - rewrite IH. naive_solver.
Qed.

Lemma seg_ext m m' p L e :
  (forall b, b ∈ L -> mptr m' b.1 = mptr m b.1 /\ msize m' b.1 = msize m b.1) -> seg m p L e -> seg m' p L e.
Proof.
  revert p. induction L as [|b L IH]; intros p Hm; [done|]. cbn [seg]. intros (-> & Hs & Hr).
  destruct (Hm b ltac:(by left)) as [E1 E2]. rewrite E1, E2. split_and!; [done..|]. apply IH; [|done]. intros. apply Hm. by right.
Qed.

Lemma seg_head m p L e : seg m p L e -> p = match L with [] => e | b :: _ => b.1 end.
Proof. destruct L; [done|]. by intros [? _]. Qed.

(** Two blocks in order, with room between them. *)
Definition before (b b' : block) : Prop := b.1 + 16 * b.2 < b'.1.

Section Heap.
Context (base start : Z).

Definition nodes (F : list block) : list block := (base, 0) :: F.

Definition cell_count (h : heap) : nat := Z.to_nat ((h_brk h - start) / 16).

(** The free blocks [F] form a ring with [base] and are in order, none
    touching the next; they and the allocated blocks [A] cover each unit of
    the heap once; the headers hold the sizes. *)
Record heap_inv (h : heap) (F A : list block) : Prop := {
  hi_base : 0 < base /\ base + 16 <= start;
  hi_brk : start <= h_brk h < 2 ^ 36 /\ (h_brk h - start) mod 16 = 0;
  hi_ring : seg (h_mem h) base (nodes F) base;
  hi_freep : h_freep h ∈ (nodes F).*1;
  hi_order : StronglySorted before (nodes F);
  hi_pos : Forall (fun b => 0 < b.2) (F ++ A);
  hi_sizes : Forall (fun b => msize (h_mem h) b.1 = b.2) A;
  hi_units : all_units (nodes F ++ A) ≡ₚ cells start (cell_count h);
}.

Lemma nodes_pos F : StronglySorted before (nodes F) -> (forall b, b ∈ nodes F -> b = (base, 0) \/ 0 < b.2) -> Forall (fun b => 0 < b.2) F.
Proof using Type.
  intros Ho Hp. apply Forall_forall. intros b Hb. destruct (Hp b ltac:(by right)) as [->|?]; [|done].
  apply StronglySorted_inv in Ho as [_ Ho]. rewrite Forall_forall in Ho. specialize (Ho _ Hb). unfold before in Ho. cbn in Ho. lia.
Qed.

(** The bytes of the allocated blocks are the same. *)
Definition keeps (A : list block) (m m' : memory) : Prop :=
  forall b x, b ∈ A -> b.1 <= x < b.1 + 16 * b.2 -> rd m' x = rd m x.

Lemma keeps_trans A m1 m2 m3 : keeps A m1 m2 -> keeps A m2 m3 -> keeps A m1 m3.
Proof using Type. intros K1 K2 b x Hb Hx. rewrite (K2 b) by done. by apply (K1 b). Qed.

Lemma cells_apart a n x y : x ∈ cells a n -> y ∈ cells a n -> x <> y -> apart x y.
Proof using Type. rewrite !elem_of_cells. intros [? Hx] [? Hy] Hne. unfold apart. dlia. Qed.

(** A header that the allocator may write: [base], or a unit of the heap. *)
Definition header_at (h : heap) (x : Z) : Prop := x = base \/ x ∈ cells start (cell_count h).

Section Inv.
Context (h : heap) (F A : list block) (Hi : heap_inv h F A).

Lemma hi_nodup : NoDup (all_units (nodes F ++ A)).
Proof using Hi. rewrite (hi_units _ _ _ Hi). apply NoDup_cells. Qed.

Lemma cell_range x : x ∈ cells start (cell_count h) -> start <= x /\ x + 16 <= h_brk h /\ (x - start) mod 16 = 0.
Proof using Hi.
  destruct (hi_brk _ _ _ Hi) as [H1 H2]. rewrite elem_of_cells. unfold cell_count. intros [H3 H4]. split_and!; [lia|dlia|done].
Qed.

Lemma header_mapped x : header_at h x -> mapped (h_brk h) x.
Proof using Hi.
  destruct (hi_base _ _ _ Hi), (hi_brk _ _ _ Hi). intros [->|Hx]; [|apply cell_range in Hx]; unfold mapped; lia.
Qed.

Lemma headers_apart x y : header_at h x -> header_at h y -> x <> y -> apart x y.
Proof using Hi.
  destruct (hi_base _ _ _ Hi). intros [->|Hx] [->|Hy] Hne; [done| | |by eapply cells_apart].
  - apply cell_range in Hy. left. lia.
  - apply cell_range in Hx. right. lia.
Qed.

Lemma unit_header b x : b ∈ nodes F ++ A -> x ∈ units b -> header_at h x.
Proof using Hi. intros Hb Hx. right. rewrite <- (hi_units _ _ _ Hi). apply elem_of_all_units. by exists b. Qed.

Lemma node_header b : b ∈ nodes F ++ A -> header_at h b.1.
Proof using Hi.
  intros Hb. destruct (decide (b = (base, 0))) as [->|D]; [by left|]. apply (unit_header b); [done|]. apply units_header.
  pose proof (hi_pos _ _ _ Hi) as Hp. rewrite Forall_forall in Hp. apply Hp. unfold nodes in Hb. cbn in Hb. by apply elem_of_cons in Hb as [?|?].
Qed.

(** A write to a unit that is not of an allocated block keeps these. *)
Lemma keeps_write A' x m m' :
  A' ⊆ A -> header_at h x -> (forall b, b ∈ A' -> x ∉ units b) -> at_header x m m' -> keeps A' m m'.
Proof using Hi.
  intros Hsub Hx Hn Hm b y Hb Hy. apply Hm. set (u := b.1 + 16 * ((y - b.1) / 16)).
  assert (Hu : u ∈ units b). { apply elem_of_units. unfold u. replace (b.1 + 16 * ((y - b.1) / 16) - b.1) with ((y - b.1) / 16 * 16) by lia. rewrite Z.mod_mul by lia. split; [dlia|done]. }
  assert (Ha : apart x u).
  { apply headers_apart; [done| |]; [apply (unit_header b); [|done]; rewrite elem_of_app; right; by apply Hsub|]. intros ->. by apply (Hn b). }
  unfold apart, u in Ha. dlia.
Qed.

(** A node and its successor. *)
Definition next_of (Y : list block) : Z := match Y with [] => base | b :: _ => b.1 end.

Lemma node_at X p k Y : nodes F = X ++ (p, k) :: Y ->
  seg (h_mem h) base X p /\ msize (h_mem h) p = k /\ mptr (h_mem h) p = next_of Y /\ seg (h_mem h) (next_of Y) Y base /\ header_at h p.
Proof using Hi.
  intros E. pose proof (hi_ring _ _ _ Hi) as Hr. rewrite E in Hr. apply seg_app in Hr as (q & H1 & H2). cbn [seg fst snd] in H2.
  destruct H2 as (-> & H2 & H3). pose proof (seg_head _ _ _ _ H3) as H4. fold (next_of Y) in H4. rewrite H4 in H3.
  split_and!; try done. apply (node_header (p, k)). rewrite elem_of_app, E. left. rewrite elem_of_app. right. by left.
Qed.

Lemma loop_inr {S V B} f (body : V -> M S (V + B)) v b s : body v s = Ret (inr b) s -> loop (Datatypes.S f) body v s = Ret b s.
Proof using Type. intros E. cbn [loop]. unfold bind. by rewrite E. Qed.

Lemma loop_inl {S V B} f (body : V -> M S (V + B)) v v' s :
  body v s = Ret (inl v') s -> loop (Datatypes.S f) body v s = loop f body v' s.
Proof using Type. intros E. cbn [loop]. unfold bind. by rewrite E. Qed.

Lemma free_place_run bp X p k Y : nodes F = X ++ (p, k) :: Y ->
  free_place bp p h =
  Ret (if ((p <? bp) && (bp <? next_of Y)) || ((next_of Y <=? p) && ((p <? bp) || (bp <? next_of Y))) then inr p else inl (next_of Y)) h.
Proof using Hi.
  intros E. destruct (node_at X p k Y E) as (_ & _ & Hp & _ & Hh). unfold free_place.
  rewrite run_ptr by (by apply header_mapped). rewrite Hp. by destruct (_ && _), (_ && _).
Qed.

(** The place for a block at [bp]: after the last node before it. *)
Definition place (bp : Z) (X : list block) (p k : Z) (Y : list block) : Prop :=
  nodes F = X ++ (p, k) :: Y /\ p < bp /\ match Y with [] => True | b :: _ => bp < b.1 end.

Lemma base_least b : b ∈ F -> base < b.1.
Proof using Hi.
  intros Hb. pose proof (hi_order _ _ _ Hi) as Ho. apply StronglySorted_inv in Ho as [_ Ho]. rewrite Forall_forall in Ho.
  specialize (Ho b Hb). unfold before in Ho. cbn in Ho. lia.
Qed.

Lemma node_ge_base X p k Y : nodes F = X ++ (p, k) :: Y -> base <= p.
Proof using Hi.
  intros E. destruct X as [|x X]; [injection E as -> _; lia|]. injection E as _ E. apply Z.lt_le_incl, (base_least (p, k)).
  rewrite E, elem_of_app. right. by left.
Qed.

Lemma node_order X p k Y b : nodes F = X ++ (p, k) :: Y -> b ∈ Y -> p + 16 * k < b.1.
Proof using Hi.
  intros E Hb. pose proof (hi_order _ _ _ Hi) as Ho. rewrite E in Ho. apply StronglySorted_app in Ho as (_ & _ & Ho).
  apply StronglySorted_inv in Ho as [_ Ho]. rewrite Forall_forall in Ho. by apply (Ho b).
Qed.

Lemma node_size X p k Y : nodes F = X ++ (p, k) :: Y -> 0 <= k /\ (p = base /\ k = 0 \/ 0 < k).
Proof using Hi.
  intros E. destruct X as [|x X]; [injection E as -> -> _; lia|]. injection E as _ E.
  pose proof (hi_pos _ _ _ Hi) as Hp. rewrite Forall_forall in Hp. specialize (Hp (p, k)). cbn in Hp.
  assert (0 < k); [|lia]. apply Hp. rewrite E, !elem_of_app. left. right. by left.
Qed.

Lemma place_ahead bp : bp ∉ (nodes F).*1 -> base < bp ->
  forall Y X p k f, nodes F = X ++ (p, k) :: Y -> p < bp -> (length Y < f)%nat ->
  exists X' p' k' Y', place bp X' p' k' Y' /\ loop f (free_place bp) p h = Ret p' h.
Proof using Hi.
  intros Hbp Hb. induction Y as [|[q j] Y IH]; intros X p k f E Hp Hf; (destruct f as [|f]; [cbn [length] in Hf; lia|]);
    pose proof (free_place_run bp X p k _ E) as Er.
  - exists X, p, k, []. split; [by split|]. apply loop_inr. rewrite Er. cbn [next_of].
    pose proof (node_ge_base X p k [] E). destruct (Z.leb_spec base p); [|lia]. destruct (Z.ltb_spec p bp); [|lia]. cbn. by rewrite orb_true_r.
  - cbn [next_of fst] in Er. destruct (decide (bp < q)) as [D|D].
    + exists X, p, k, ((q, j) :: Y). split; [by split|]. apply loop_inr. rewrite Er.
      destruct (Z.ltb_spec p bp), (Z.ltb_spec bp q); try lia. done.
    + assert (q <> bp). { intros ->. apply Hbp. rewrite E, fmap_app. apply elem_of_app. right. right. by left. }
      rewrite (loop_inl _ _ _ q).
      * apply (IH (X ++ [(p, k)]) q j); [by rewrite <- app_assoc|lia|cbn [length] in Hf; lia].
      * pose proof (node_order X p k _ (q, j) E ltac:(by left)) as Ho. destruct (node_size X p k _ E) as [Hk _]. cbn in Ho.
        rewrite Er. destruct (Z.ltb_spec p bp), (Z.ltb_spec bp q), (Z.leb_spec q p); try lia; done.
Qed.

Lemma place_around bp : bp ∉ (nodes F).*1 -> base < bp ->
  forall Y X p k f, nodes F = X ++ (p, k) :: Y -> bp < p -> (length Y + length F + 1 < f)%nat ->
  exists X' p' k' Y', place bp X' p' k' Y' /\ loop f (free_place bp) p h = Ret p' h.
Proof using Hi.
  intros Hbp Hb. induction Y as [|[q j] Y IH]; intros X p k f E Hp Hf; (destruct f as [|f]; [cbn [length] in Hf; lia|]);
    pose proof (free_place_run bp X p k _ E) as Er; cbn [next_of fst] in Er.
  - rewrite (loop_inl _ _ _ base).
    + apply (place_ahead bp Hbp Hb F [] base 0); [done|done|cbn [length] in Hf; lia].
    + rewrite Er. destruct (Z.ltb_spec p bp), (Z.ltb_spec bp base); try lia. cbn. by rewrite andb_false_r.
  - pose proof (node_order X p k _ (q, j) E ltac:(by left)) as Ho. destruct (node_size X p k _ E) as [Hk _]. cbn in Ho.
    rewrite (loop_inl _ _ _ q).
    + apply (IH (X ++ [(p, k)]) q j); [by rewrite <- app_assoc|lia|cbn [length] in Hf; lia].
    + rewrite Er. destruct (Z.ltb_spec p bp), (Z.leb_spec q p); try lia. done.
Qed.

(** There are no more nodes than the bound of the loops allows for. *)
Lemma length_units L : Forall (fun b => 0 < b.2) L -> (length L <= length (all_units L))%nat.
Proof using Type.
  induction 1 as [|b L Hb HL IH]; [done|]. rewrite all_units_cons, length_app. cbn [length].
  unfold units at 1, cells. rewrite length_fmap, length_seq. lia.
Qed.

Lemma length_nodes : (2 * length F + 2 < rounds h)%nat.
Proof using Hi.
  pose proof (hi_pos _ _ _ Hi) as Hp. apply Forall_app in Hp as [Hp _]. apply length_units in Hp.
  pose proof (Permutation_length (hi_units _ _ _ Hi)) as Hl. unfold nodes in Hl. cbn [app] in Hl. rewrite all_units_cons, !all_units_app, !length_app in Hl.
  unfold cells at 1 in Hl. rewrite length_fmap, length_seq in Hl. unfold cell_count in Hl.
  destruct (hi_base _ _ _ Hi), (hi_brk _ _ _ Hi). unfold rounds, sizeof_Header.
  assert ((h_brk h - start) / 16 <= h_brk h / 16) by (apply Z.div_le_mono; lia).
  assert (0 <= (h_brk h - start) / 16) by dlia. lia.
Qed.

Lemma free_finds_place bp : bp ∉ (nodes F).*1 -> base < bp ->
  exists X p k Y, place bp X p k Y /\ loop (rounds h) (free_place bp) (h_freep h) h = Ret p h.
Proof using Hi.
  intros Hbp Hb. destruct (proj1 (list_elem_of_fmap _ _ _) (hi_freep _ _ _ Hi)) as ([p k] & Ep & Hin). cbn in Ep.
  apply list_elem_of_split in Hin as (X & Y & E). pose proof length_nodes as Hl.
  pose proof (f_equal length E) as Hlen. rewrite length_app in Hlen. cbn in Hlen. rewrite Ep.
  destruct (Z.lt_total p bp) as [D|[D|D]].
  - apply (place_ahead bp Hbp Hb Y X p k); [done|done|lia].
  - exfalso. apply Hbp. rewrite <- D. rewrite E, fmap_app. apply elem_of_app. right. by left.
  - apply (place_around bp Hbp Hb Y X p k); [done|done|lia].
Qed.

Lemma block_end b : b ∈ nodes F ++ A -> 0 < b.2 -> b.1 + 16 * b.2 <= h_brk h.
Proof using Hi.
  intros Hb Hn. assert (Hu : b.1 + 16 * (b.2 - 1) ∈ cells start (cell_count h)).
  { rewrite <- (hi_units _ _ _ Hi). apply elem_of_all_units. exists b. split; [done|]. apply elem_of_units.
    replace (b.1 + 16 * (b.2 - 1) - b.1) with ((b.2 - 1) * 16) by lia. rewrite Z.mod_mul by lia. split; [lia|done]. }
  apply cell_range in Hu. lia.
Qed.

(** Two different blocks share no byte. *)
Lemma blocks_disjoint b b' L : b :: b' :: L ≡ₚ nodes F ++ A -> 0 < b.2 -> 0 < b'.2 ->
  b.1 + 16 * b.2 <= b'.1 \/ b'.1 + 16 * b'.2 <= b.1.
Proof using Hi.
  intros HL Hb Hb'. pose proof hi_nodup as Hnd. rewrite <- HL, !all_units_cons, app_assoc in Hnd.
  apply NoDup_app in Hnd as (Hnd & _ & _). apply NoDup_app in Hnd as (_ & Hnd & _).
  assert (C1 : b.1 ∈ cells start (cell_count h)).
  { rewrite <- (hi_units _ _ _ Hi), <- HL. apply elem_of_all_units. exists b. split; [by left|by apply units_header]. }
  assert (C2 : b'.1 ∈ cells start (cell_count h)).
  { rewrite <- (hi_units _ _ _ Hi), <- HL. apply elem_of_all_units. exists b'. split; [right; by left|by apply units_header]. }
  apply cell_range in C1, C2.
  destruct (Z.le_gt_cases (b.1 + 16 * b.2) b'.1) as [|D1]; [by left|].
  destruct (Z.le_gt_cases (b'.1 + 16 * b'.2) b.1) as [|D2]; [by right|]. exfalso.
  apply (Hnd (Z.max b.1 b'.1)); apply elem_of_units; (split; [lia|]).
  - destruct (Z.max_spec b.1 b'.1) as [[_ ->]|[_ ->]]; dlia.
  - destruct (Z.max_spec b.1 b'.1) as [[_ ->]|[_ ->]]; dlia.
Qed.

Lemma block_pos b : b ∈ F ++ A -> 0 < b.2.
Proof using Hi. intros Hb. pose proof (hi_pos _ _ _ Hi) as Hp. rewrite Forall_forall in Hp. by apply Hp. Qed.

Lemma block_start b : b ∈ F ++ A -> start <= b.1.
Proof using Hi.
  intros Hb. assert (Hc : b.1 ∈ cells start (cell_count h)); [|by apply cell_range in Hc as [? _]].
  rewrite <- (hi_units _ _ _ Hi). apply elem_of_all_units. exists b. split; [unfold nodes; cbn; by right|]. by apply units_header, block_pos.
Qed.

Lemma header_unique b b' L : b :: b' :: L ≡ₚ nodes F ++ A -> b' ∈ F ++ A -> b.1 <> b'.1.
Proof using Hi.
  intros HL Hb'. pose proof (block_pos _ Hb') as Hp'. pose proof (block_start _ Hb') as Hs. destruct (hi_base _ _ _ Hi).
  assert (Hb : b ∈ nodes F ++ A) by (rewrite <- HL; by left). unfold nodes in Hb. cbn in Hb. apply elem_of_cons in Hb as [->|Hb]; [cbn; lia|].
  destruct (blocks_disjoint b b' L HL (block_pos _ Hb) Hp'); pose proof (block_pos _ Hb); lia.
Qed.
Lemma keeps_sizes A' m' : A' ⊆ A -> keeps A' (h_mem h) m' -> Forall (fun b => msize m' b.1 = b.2) A'.
Proof using Hi.
  intros Hsub K. pose proof (hi_sizes _ _ _ Hi) as Hz. rewrite Forall_forall in *. intros b Hb. rewrite <- (Hz b (Hsub b Hb)).
  apply ld32_ext. intros x Hx. apply (K b); [done|]. assert (0 < b.2) by (apply block_pos; rewrite elem_of_app; right; by apply Hsub). lia.
Qed.

Lemma node_pos b : b ∈ nodes F -> b = (base, 0) \/ 0 < b.2.
Proof using Hi. intros [->|Hb]%elem_of_cons; [by left|right]. apply block_pos. rewrite elem_of_app. by left. Qed.

(** A write to the header of a node keeps the allocated blocks. *)
Lemma keeps_node A' b m m' : A' ⊆ A -> b ∈ nodes F -> at_header b.1 m m' -> keeps A' m m'.
Proof using Hi.
  intros Hsub Hb Hm. apply (keeps_write A' b.1); [done|apply node_header; rewrite elem_of_app; by left| |done]. intros c Hc Hu.
  apply Hsub in Hc. unfold nodes in Hb. apply elem_of_cons in Hb as [->|Hb].
  - assert (start <= c.1) by (apply block_start; rewrite elem_of_app; by right). apply elem_of_units in Hu. cbn in Hu. destruct (hi_base _ _ _ Hi). lia.
  - pose proof hi_nodup as Hnd. rewrite all_units_app in Hnd. apply NoDup_app in Hnd as (_ & Hd & _).
    apply (Hd b.1); apply elem_of_all_units; [exists b|by exists c]. split; [by right|]. apply units_header, block_pos. rewrite elem_of_app. by left.
Qed.
End Inv.

(** ** free *)

Section Free.
Context (h : heap) (F A : list block) (bp n : Z) (Hi : heap_inv h F ((bp, n) :: A)).
Context (X : list block) (p k : Z) (Y : list block) (Hpl : place F bp X p k Y).

Lemma bp_in : (bp, n) ∈ F ++ (bp, n) :: A.
Proof using Type. rewrite elem_of_app. right. by left. Qed.

Lemma bp_node b : b ∈ nodes F -> b.1 <> bp.
Proof using Hi.
  intros Hb. apply list_elem_of_split in Hb as (L1 & L2 & E).
  apply (header_unique _ _ _ Hi b (bp, n) (L1 ++ L2 ++ A)); [rewrite E; solve_Permutation|apply bp_in].
Qed.

Lemma bp_alloc b : b ∈ A -> b.1 <> bp.
Proof using Hi.
  intros Hb. apply list_elem_of_split in Hb as (L1 & L2 & E).
  apply (header_unique _ _ _ Hi b (bp, n) (nodes F ++ L1 ++ L2)); [rewrite E; solve_Permutation|apply bp_in].
Qed.

Lemma bp_after b : b ∈ nodes F -> b.1 < bp -> b.1 + 16 * b.2 <= bp.
Proof using Hi.
  intros Hb Hlt. destruct (decide (0 < b.2)) as [Hp|Hp]; [|lia]. pose proof (block_pos _ _ _ Hi _ bp_in) as Hn. cbn in Hn.
  apply list_elem_of_split in Hb as (L1 & L2 & E).
  destruct (blocks_disjoint _ _ _ Hi b (bp, n) (L1 ++ L2 ++ A)) as [Hd|Hd]; try done; [rewrite E; solve_Permutation|cbn in Hd; lia].
Qed.

Lemma bp_before b : b ∈ nodes F -> bp < b.1 -> bp + 16 * n <= b.1.
Proof using Hi.
  intros Hb Hlt. pose proof (block_pos _ _ _ Hi _ bp_in) as Hn. cbn in Hn. pose proof (block_start _ _ _ Hi _ bp_in) as Hs. cbn in Hs.
  destruct (hi_base _ _ _ Hi) as [Hb1 Hb2].
  assert (Hp : 0 < b.2). { unfold nodes in Hb. apply elem_of_cons in Hb as [->|Hb]; [cbn in Hlt; lia|]. apply (block_pos _ _ _ Hi). rewrite elem_of_app. by left. }
  apply list_elem_of_split in Hb as (L1 & L2 & E).
  destruct (blocks_disjoint _ _ _ Hi b (bp, n) (L1 ++ L2 ++ A)) as [Hd|Hd]; try done; [rewrite E; solve_Permutation|cbn in Hd; lia].
Qed.

Lemma bp_header : header_at h bp.
Proof using Hi. apply (node_header _ _ _ Hi (bp, n)). rewrite elem_of_app. right. by left. Qed.

Lemma next_range Z1 : (exists Z0, Y = Z0 ++ Z1) -> 0 <= next_of Z1 < 2 ^ 36.
Proof using Hi Hpl.
  intros [Z0 E]. destruct (hi_base _ _ _ Hi), (hi_brk _ _ _ Hi). destruct Z1 as [|b Z1]; cbn [next_of]; [lia|].
  destruct Hpl as (E0 & _). assert (Hb : b ∈ nodes F ++ (bp, n) :: A).
  { rewrite E0, E, !elem_of_app, elem_of_cons, elem_of_app. left. right. right. right. by left. }
  pose proof (header_mapped _ _ _ Hi _ (node_header _ _ _ Hi b Hb)) as [? [? ?]]. lia.
Qed.

(** The block joins the next one if it touches it. *)
Lemma join_next : exists n1 Y1 m1,
  (if bp + n * sizeof_Header =? next_of Y then
     let! nsize := size (next_of Y) in
     set_size bp (n + nsize) ;;
     let! nn := ptr (next_of Y) in
     set_ptr bp nn
   else set_ptr bp (next_of Y)) h = Ret tt (set_h_mem m1 h) /\
  at_header bp (h_mem h) m1 /\ msize m1 bp = n1 /\ mptr m1 bp = next_of Y1 /\ (exists Y0, Y = Y0 ++ Y1) /\
  n <= n1 /\ bp + 16 * n1 <= h_brk h /\ units (bp, n1) ++ all_units Y1 = units (bp, n) ++ all_units Y /\
  (forall b, b ∈ Y1 -> bp + 16 * n1 < b.1).
Proof using Hi Hpl.
  pose proof next_range as Hnr. pose proof Hpl as (E & Hlt & HY). pose proof (header_mapped _ _ _ Hi _ bp_header) as Hmap.
  pose proof (block_pos _ _ _ Hi _ bp_in) as Hn. cbn in Hn. pose proof (block_start _ _ _ Hi _ bp_in) as Hs. cbn in Hs.
  destruct (hi_base _ _ _ Hi) as [Hb1 Hb2]. destruct (hi_brk _ _ _ Hi) as [Hk1 Hk2]. unfold sizeof_Header.
  assert (Hend : bp + 16 * n <= h_brk h) by (apply (block_end _ _ _ Hi (bp, n)); [rewrite elem_of_app; right; by left|done]).
  assert (Hsize : msize (h_mem h) bp = n).
  { pose proof (hi_sizes _ _ _ Hi) as Hz. by apply Forall_cons in Hz as [Hz _]. }
  destruct (Z.eqb_spec (bp + n * 16) (next_of Y)) as [Ej|Ej].
  - clear Hpl. destruct Y as [|[y j] Y']; cbn [next_of fst] in *; [lia|]. subst y.
    assert (E' : nodes F = (X ++ [(p, k)]) ++ (bp + n * 16, j) :: Y') by (by rewrite <- app_assoc).
    destruct (node_at _ _ _ Hi _ _ _ _ E') as (_ & Hz & Hnx & _ & Hhy).
    pose proof (header_mapped _ _ _ Hi _ Hhy) as Hmy.
    assert (Hj : 0 < j). { destruct (node_size _ _ _ Hi _ _ _ _ E') as [_ [[? _]|?]]; lia. }
    assert (Hye : bp + n * 16 + 16 * j <= h_brk h).
    { apply (block_end _ _ _ Hi (bp + n * 16, j)); [|done]. rewrite E', !elem_of_app. left. right. by left. }
    rewrite run_size by done. rewrite Hz. rewrite run_set_size by done. rewrite run_ptr by done. cbn [h_mem set_h_mem].
    destruct (at_header_other bp (bp + n * 16) (h_mem h) (put_size (h_mem h) bp (n + j)) (at_header_size _ _ _)) as [Ep _]; [unfold apart; lia|].
    rewrite Ep, Hnx. rewrite set_ptr_ok by done. exists (n + j), Y'. eexists. split; [reflexivity|]. cbn [h_mem set_h_mem].
    pose proof (Hnr Y' ltac:(by exists [(bp + n * 16, j)])). split_and!.
    + eapply at_header_trans; [apply at_header_size|apply at_header_ptr].
    + rewrite size_put_ptr. apply size_put_size. lia.
    + apply ptr_put_ptr. lia.
    + by exists [(bp + n * 16, j)].
    + lia.
    + lia.
    + rewrite units_join by lia. rewrite <- app_assoc. cbn. by rewrite (Z.mul_comm 16 n).
    + intros b Hb. pose proof (node_order _ _ _ Hi _ _ _ _ _ E' Hb). lia.
  - rewrite set_ptr_ok by done. exists n, Y. eexists. split; [reflexivity|]. pose proof (Hnr Y ltac:(by exists [])). split_and!.
    + apply at_header_ptr.
    + by rewrite size_put_ptr.
    + apply ptr_put_ptr. lia.
    + by exists [].
    + lia.
    + lia.
    + done.
    + intros b Hb. clear Hpl Hnr. destruct Y as [|y Y']; [by apply not_elem_of_nil in Hb|]. cbn [next_of] in *.
      assert (Hy : bp + 16 * n < y.1). { assert (y ∈ nodes F) as Hin by (rewrite E, elem_of_app; right; right; by left). pose proof (bp_before y Hin HY). lia. }
      apply elem_of_cons in Hb as [->|Hb]; [done|]. assert (E' : nodes F = (X ++ [(p, k)]) ++ (y.1, y.2) :: Y') by (rewrite <- app_assoc; by destruct y).
      pose proof (node_order _ _ _ Hi _ _ _ _ _ E' Hb). destruct (node_size _ _ _ Hi _ _ _ _ E') as [? _]. lia.
Qed.

(** The nodes around the place. *)
Lemma place_order :
  StronglySorted before X /\ StronglySorted before Y /\ (forall x, x ∈ X -> x.1 + 16 * x.2 < p) /\
  (forall x y, x ∈ X -> y ∈ Y -> before x y).
Proof using Hi Hpl.
  pose proof (hi_order _ _ _ Hi) as Ho. rewrite (proj1 Hpl) in Ho. apply StronglySorted_app in Ho as (Hc & HX & HY).
  apply StronglySorted_inv in HY as [HY _]. split_and!; [done|done| |].
  - intros x Hx. apply (Hc x (p, k)); [done|by left].
  - intros x y Hx Hy. apply Hc; [done|by right].
Qed.

Lemma place_in b : b ∈ X \/ b = (p, k) \/ b ∈ Y -> b ∈ nodes F.
Proof using Hpl. rewrite (proj1 Hpl), elem_of_app, elem_of_cons. tauto. Qed.

Lemma place_tail W k' : X ++ (p, k) :: W = nodes (tail (X ++ (p, k) :: W)) /\ (0 < k -> X ++ (p, k') :: W = nodes (tail (X ++ (p, k') :: W))).
Proof using Hpl.
  pose proof (proj1 Hpl) as E. unfold nodes in *. clear Hpl. destruct X as [|x X']; cbn in E |- *.
  - injection E as Ep Ek _. split; [by rewrite Ep, Ek|intros; lia].
  - injection E as Ex _. split; by rewrite Ex.
Qed.

Lemma place_pos b : b ∈ X \/ b = (p, k) \/ b ∈ Y -> b = (base, 0) \/ 0 < b.2.
Proof using Hi Hpl.
  intros Hb%place_in. apply elem_of_cons in Hb as [->|Hb]; [by left|right]. apply (block_pos _ _ _ Hi). rewrite elem_of_app. by left.
Qed.

Lemma place_sizes x : x ∈ X -> 0 <= x.2.
Proof using Hi Hpl.
  intros Hx. destruct (place_pos x ltac:(by left)) as [->|?]; [done|lia].
Qed.

(** What free leaves: the blocks [F'], with the given one among them. *)
Record freed (F' : list block) (m' : memory) : Prop := {
  fd_ring : seg m' base (nodes F') base;
  fd_p : p ∈ (nodes F').*1;
  fd_order : StronglySorted before (nodes F');
  fd_units : all_units (nodes F') ≡ₚ units (bp, n) ++ all_units (nodes F);
  fd_pos : forall b, b ∈ nodes F' -> b = (base, 0) \/ 0 < b.2;
  fd_big : exists b, b ∈ nodes F' /\ n <= b.2;
  fd_len : (length F' <= S (length F))%nat;
}.

Section Prev.
Context (n1 : Z) (Y1 : list block) (m1 : memory).
Hypothesis (Hat : at_header bp (h_mem h) m1) (Hsz : msize m1 bp = n1) (Hnx : mptr m1 bp = next_of Y1)
  (Hsuf : exists Y0, Y = Y0 ++ Y1) (Hge : n <= n1) (Hend : bp + 16 * n1 <= h_brk h)
  (Hun : units (bp, n1) ++ all_units Y1 = units (bp, n) ++ all_units Y)
  (Hord : forall b, b ∈ Y1 -> bp + 16 * n1 < b.1).

Lemma suffix_in b : b ∈ Y1 -> b ∈ Y.
Proof using Hsuf. destruct Hsuf as [Y0 E]. rewrite E, elem_of_app. tauto. Qed.

(** The rest of the ring, whatever happens to the headers of [p] and [bp]. *)
Lemma rest_same m2 : at_header p m1 m2 -> seg m2 base X p /\ seg m2 (next_of Y1) Y1 base.
Proof using Hi Hpl Hat Hsuf.
  intros Hp. pose proof Hpl as (E & Hlt & HY). destruct (node_at _ _ _ Hi _ _ _ _ E) as (S1 & _ & _ & S2 & Hhp). destruct place_order as (_ & _ & HX & _).
  assert (Hsame : forall b, b ∈ nodes F -> b.1 <> p -> mptr m2 b.1 = mptr (h_mem h) b.1 /\ msize m2 b.1 = msize (h_mem h) b.1).
  { intros b Hb Hne. assert (Hhb : header_at h b.1) by (apply (node_header _ _ _ Hi); rewrite elem_of_app; by left).
    destruct (at_header_other _ b.1 _ _ Hp) as [-> ->]; [apply (headers_apart _ _ _ Hi); [done|done|congruence]|].
    apply (at_header_other bp); [done|]. apply (headers_apart _ _ _ Hi); [apply bp_header|done|]. intros Hb'. by apply (bp_node b). }
  split.
  - eapply seg_ext; [|exact S1]. intros b Hb. apply Hsame; [apply place_in; by left|]. specialize (HX b Hb). pose proof (place_sizes b Hb). lia.
  - destruct Hsuf as [Y0 EY]. rewrite EY in S2 at 2. apply seg_app in S2 as (q & _ & S2). pose proof (seg_head _ _ _ _ S2) as Eq. fold (next_of Y1) in Eq.
    rewrite Eq in S2. eapply seg_ext; [|exact S2]. intros b Hb. apply suffix_in in Hb. apply Hsame; [apply place_in; tauto|].
    pose proof (node_order _ _ _ Hi _ _ _ _ _ E Hb). destruct (node_size _ _ _ Hi _ _ _ _ E). lia.
Qed.

Lemma suffix_order : StronglySorted before Y1.
Proof using Hi Hpl Hsuf.
  destruct place_order as (_ & HY & _ & _), Hsuf as [Y0 E]. rewrite E in HY. by apply StronglySorted_app in HY as (_ & _ & ?).
Qed.

Lemma suffix_len : (length Y1 <= length Y)%nat.
Proof using Hsuf. destruct Hsuf as [Y0 E]. rewrite E, length_app. lia. Qed.

Lemma place_len W F' : nodes F' = X ++ W -> (length W <= S (S (length Y)))%nat -> (length F' <= S (length F))%nat.
Proof using Hpl.
  intros E' HW. pose proof (f_equal length (proj1 Hpl)) as E. apply (f_equal length) in E'. rewrite length_app in E, E'. cbn in E, E'. lia.
Qed.

(** The block before touches it: the two become one. *)
Lemma join_prev : p + 16 * k = bp -> exists F' m2, m2 = put_ptr (put_size m1 p (k + n1)) p (next_of Y1) /\ freed F' m2.
Proof using All.
  intros Et. pose proof Hpl as (E & Hlt & HY). destruct (node_size _ _ _ Hi _ _ _ _ E) as [_ [[-> ->]|Hk]]; [lia|].
  destruct place_order as (OX & _ & HX & HXY). pose proof (next_range Y1 Hsuf) as Hnr. destruct (hi_brk _ _ _ Hi) as [Hbr _].
  pose proof (header_mapped _ _ _ Hi _ (proj2 (proj2 (proj2 (proj2 (node_at _ _ _ Hi _ _ _ _ E)))))) as [Hp0 _].
  destruct (place_tail Y1 (k + n1)) as [_ Etl]. specialize (Etl Hk). eexists _, _. split; [reflexivity|].
  split; rewrite <- ?Etl.
  - assert (Hp2 : at_header p m1 (put_ptr (put_size m1 p (k + n1)) p (next_of Y1))) by (eapply at_header_trans; [apply at_header_size|apply at_header_ptr]).
    destruct (rest_same _ Hp2) as [S1 S2]. apply seg_app. exists p. split; [done|]. cbn [seg fst snd]. split_and!; [done| |].
    + rewrite size_put_ptr. apply size_put_size. pose proof (block_pos _ _ _ Hi _ bp_in) as Hn. cbn in Hn. lia.
    + by rewrite ptr_put_ptr by lia.
  - rewrite fmap_app. apply elem_of_app. right. by left.
  - apply StronglySorted_app. split_and!; [|done|].
    + intros x y Hx Hy. apply elem_of_cons in Hy as [->|Hy]; [by apply HX|]. apply HXY; [done|by apply suffix_in].
    + constructor; [apply suffix_order|]. apply Forall_forall. intros b Hb. specialize (Hord b Hb). unfold before. cbn. lia.
  - rewrite E, !all_units_app, !all_units_cons. pose proof (block_pos _ _ _ Hi _ bp_in) as Hn. cbn in Hn.
    rewrite units_join by lia. rewrite Et, <- app_assoc, Hun. solve_Permutation.
  - intros b. rewrite elem_of_app, elem_of_cons. pose proof (block_pos _ _ _ Hi _ bp_in) as Hn. cbn in Hn.
    intros [Hb|[->|Hb]]; [apply place_pos; by left|right; cbn; lia|apply place_pos; right; right; by apply suffix_in].
  - exists (p, k + n1). split; [rewrite elem_of_app; right; by left|cbn; lia].
  - apply (place_len ((p, k + n1) :: Y1)); [by rewrite <- Etl|cbn; pose proof suffix_len; lia].
Qed.

(** It stays a block of its own. *)
Lemma link_prev : p + 16 * k <> bp -> exists F' m2, m2 = put_ptr m1 p bp /\ freed F' m2.
Proof using All.
  intros Et. pose proof Hpl as (E & Hlt & HY). destruct (node_at _ _ _ Hi _ _ _ _ E) as (_ & Hz & _ & _ & Hhp).
  destruct place_order as (OX & _ & HX & HXY). pose proof (header_mapped _ _ _ Hi _ bp_header) as (Hb0 & Hb1 & Hb2).
  assert (Hap : apart bp p) by (apply (headers_apart _ _ _ Hi); [apply bp_header|done|lia]).
  assert (Hle : p + 16 * k <= bp) by (apply (bp_after (p, k)); [apply place_in; by right; left|done]).
  destruct (place_tail ((bp, n1) :: Y1) 0) as [Etl _]. eexists _, _. split; [reflexivity|].
  split; rewrite <- ?Etl.
  - pose proof (at_header_ptr m1 p bp) as Hp2. destruct (rest_same _ Hp2) as [S1 S2].
    apply seg_app. exists p. split; [done|]. cbn [seg fst snd].
    destruct (at_header_other _ p _ _ Hat Hap) as [_ Ez]. destruct (at_header_other p bp _ _ Hp2) as [Ep Es]; [unfold apart in *; lia|].
    rewrite size_put_ptr, ptr_put_ptr by lia. rewrite Ep, Es, Hnx. split_and!; congruence || done.
  - rewrite fmap_app. apply elem_of_app. right. by left.
  - apply StronglySorted_app. split_and!; [|done|].
    + intros x y Hx Hy. apply elem_of_cons in Hy as [->|Hy]; [by apply HX|]. apply elem_of_cons in Hy as [->|Hy].
      * specialize (HX x Hx). unfold before. cbn. lia.
      * apply HXY; [done|by apply suffix_in].
    + constructor; [constructor; [apply suffix_order|]|].
      * apply Forall_forall. intros b Hb. apply (Hord b Hb).
      * apply Forall_cons. split; [unfold before; cbn; lia|]. apply Forall_forall. intros b Hb. apply (node_order _ _ _ Hi _ _ _ _ _ E). by apply suffix_in.
  - rewrite E, !all_units_app, !all_units_cons, Hun. solve_Permutation.
  - intros b. rewrite elem_of_app, !elem_of_cons. pose proof (block_pos _ _ _ Hi _ bp_in) as Hn. cbn in Hn.
    intros [Hb|[->|[->|Hb]]]; [apply place_pos; tauto|apply place_pos; tauto|right; cbn; lia|apply place_pos; right; right; by apply suffix_in].
  - exists (bp, n1). split; [rewrite elem_of_app; right; right; by left|done].
  - apply (place_len ((p, k) :: (bp, n1) :: Y1)); [by rewrite <- Etl|cbn; pose proof suffix_len; lia].
Qed.
End Prev.

(** Headers written by free are not in the other allocated blocks. *)
Lemma free_keeps m1 m2 : at_header bp (h_mem h) m1 -> at_header p m1 m2 -> keeps A (h_mem h) m2.
Proof using Hi Hpl.
  intros H1 H2. pose proof (hi_nodup _ _ _ Hi) as Hnd. rewrite all_units_app, all_units_cons in Hnd.
  apply NoDup_app in Hnd as (_ & _ & Hnd). apply NoDup_app in Hnd as (_ & Hd & _). pose proof (block_pos _ _ _ Hi _ bp_in) as Hn.
  assert (Hsub : A ⊆ (bp, n) :: A) by (intros b Hb; by right). eapply keeps_trans.
  - apply (keeps_write _ _ _ Hi A bp); [done|apply bp_header| |exact H1]. intros b Hb Hu.
    apply (Hd bp); [by apply (units_header (bp, n))|]. apply elem_of_all_units. by exists b.
  - apply (keeps_node _ _ _ Hi A (p, k)); [done|apply place_in; by right; left|done].
Qed.

Lemma freed_inv F' m' : freed F' m' -> keeps A (h_mem h) m' -> heap_inv (set_h_freep p (set_h_mem m' h)) F' A.
Proof using Hi.
  intros [R1 R2 R3 R4 R5 _ _] K. split; try done; try apply Hi.
  - pose proof (hi_pos _ _ _ Hi) as Hp. apply Forall_app in Hp as [_ Hp]. apply Forall_cons in Hp as [_ Hp].
    apply Forall_app. split; [by apply nodes_pos|exact Hp].
  - apply (keeps_sizes _ _ _ Hi A); [by intros b Hb; right|done].
  - rewrite all_units_app, R4. etrans; [|exact (hi_units _ _ _ Hi)]. rewrite all_units_app, all_units_cons. solve_Permutation.
Qed.
End Free.

Lemma free_spec h F A bp n : heap_inv h F ((bp, n) :: A) ->
  exists F' m' p, free (bp + sizeof_Header) h = Ret tt (set_h_freep p (set_h_mem m' h)) /\
    heap_inv (set_h_freep p (set_h_mem m' h)) F' A /\ keeps A (h_mem h) m' /\
    all_units (nodes F') ≡ₚ units (bp, n) ++ all_units (nodes F) /\
    (exists b, b ∈ nodes F' /\ n <= b.2) /\ (length F' <= S (length F))%nat.
Proof using Type.
  intros Hi. destruct (hi_base _ _ _ Hi) as [Hb1 Hb2]. pose proof (block_start _ _ _ Hi _ (bp_in F A bp n)) as Hs. cbn in Hs.
  destruct (free_finds_place _ _ _ Hi bp) as (X & p & k & Y & Hpl & El).
  { intros (b & Eb & Hb)%list_elem_of_fmap. by apply (bp_node _ _ _ _ _ Hi b Hb). } { lia. }
  destruct (node_at _ _ _ Hi _ _ _ _ (proj1 Hpl)) as (_ & Hz & Hnx & _ & Hhp). pose proof (header_mapped _ _ _ Hi _ Hhp) as Hmp.
  pose proof (bp_header _ _ _ _ _ Hi) as Hhb. pose proof (header_mapped _ _ _ Hi _ Hhb) as Hmb.
  assert (Hsz : msize (h_mem h) bp = n) by (pose proof (hi_sizes _ _ _ Hi) as Hf; by apply Forall_cons in Hf as [Hf _]).
  destruct (join_next _ _ _ _ _ Hi _ _ _ _ Hpl) as (n1 & Y1 & m1 & E1 & Hat & J1 & J2 & J3 & J4 & J5 & J6 & J7).
  assert (Hap : apart bp p) by (apply (headers_apart _ _ _ Hi); [done|done|destruct Hpl as (_ & ? & _); lia]).
  destruct (at_header_other _ _ _ _ Hat Hap) as [_ Ez].
  unfold free. rewrite Z.add_simpl_r. rewrite !run_gets. rewrite (bind_Ret _ _ _ _ _ El). rewrite run_ptr by done. rewrite Hnx.
  rewrite run_size by done. rewrite Hsz. rewrite (bind_Ret _ _ _ _ _ E1). rewrite run_size by done. cbn [h_mem set_h_mem]. rewrite Ez, Hz.
  unfold sizeof_Header. destruct (Z.eqb_spec (p + k * 16) bp) as [Et|Et].
  - destruct (join_prev _ _ _ _ _ Hi _ _ _ _ Hpl n1 Y1 m1 Hat J1 J2 J3 J4 J5 J6 J7 ltac:(lia)) as (F' & m2 & Em & Hf).
    assert (Hk : keeps A (h_mem h) m2).
    { apply (free_keeps _ _ _ _ _ Hi _ _ _ _ Hpl m1); [done|]. rewrite Em. eapply at_header_trans; [apply at_header_size|apply at_header_ptr]. }
    exists F', m2, p. split; [|split; [by eapply freed_inv|split; [done|split_and!; apply Hf]]].
    rewrite bind_assoc, run_size by done. cbn [h_mem set_h_mem]. rewrite bind_assoc, J1, run_set_size by done. rewrite bind_assoc, run_ptr by done. cbn [h_mem set_h_mem].
    destruct (at_header_other p bp _ _ (at_header_size m1 p (k + n1))) as [Ep _]; [unfold apart in *; lia|]. rewrite Ep, J2.
    rewrite run_set_ptr by done. rewrite Em. done.
  - destruct (link_prev _ _ _ _ _ Hi _ _ _ _ Hpl n1 Y1 m1 Hat J1 J2 J3 J4 J5 J6 J7 ltac:(lia)) as (F' & m2 & Em & Hf).
    assert (Hk : keeps A (h_mem h) m2) by (apply (free_keeps _ _ _ _ _ Hi _ _ _ _ Hpl m1); [done|]; rewrite Em; apply at_header_ptr).
    exists F', m2, p. split; [|split; [by eapply freed_inv|split; [done|split_and!; apply Hf]]].
    rewrite run_set_ptr by done. rewrite Em. done.
Qed.

(** ** morecore *)

(** The new block, before it is freed. *)
Lemma grown h F A nu :
  heap_inv h F A -> 0 < nu < 2 ^ 27 -> h_brk h + nu * 16 <= h_limit h -> h_limit h < 2 ^ 36 ->
  let h' := set_h_mem (put_size (h_mem h) (h_brk h) nu) (set_h_brk (h_brk h + nu * 16) h) in
  heap_inv h' F ((h_brk h, nu) :: A) /\ keeps A (h_mem h) (h_mem h').
Proof using Type.
  intros Hi Hnu Hlim Hlim'. destruct (hi_base _ _ _ Hi) as [Hb1 Hb2]. destruct (hi_brk _ _ _ Hi) as [Hk1 Hk2].
  pose proof (at_header_size (h_mem h) (h_brk h) nu) as Hat. cbv zeta.
  assert (Hsame : forall b, b ∈ nodes F ++ A -> mptr (put_size (h_mem h) (h_brk h) nu) b.1 = mptr (h_mem h) b.1 /\ msize (put_size (h_mem h) (h_brk h) nu) b.1 = msize (h_mem h) b.1).
  { intros b Hb. apply (at_header_other _ _ _ _ Hat). destruct (header_mapped _ _ _ Hi _ (node_header _ _ _ Hi b Hb)) as (? & ? & ?). right. lia. }
  split.
  - split; cbn [h_mem h_brk h_freep h_limit set_h_mem set_h_brk]; try apply Hi.
    + split; [lia|]. replace (h_brk h + nu * 16 - start) with (h_brk h - start + nu * 16) by lia. by rewrite Z.mod_add by lia.
    + eapply seg_ext; [|apply Hi]. intros b Hb. apply Hsame. rewrite elem_of_app. by left.
    + pose proof (hi_pos _ _ _ Hi) as Hp. apply Forall_app in Hp as [Hp1 Hp2]. apply Forall_app. split; [done|]. constructor; [cbn; lia|done].
    + constructor; [apply size_put_size; cbn; lia|]. pose proof (hi_sizes _ _ _ Hi) as Hz. rewrite Forall_forall in *. intros b Hb.
      rewrite <- (Hz b Hb). apply Hsame. rewrite elem_of_app. by right.
    + unfold cell_count. cbn [h_brk set_h_mem set_h_brk]. replace (h_brk h + nu * 16 - start) with (h_brk h - start + nu * 16) by lia.
      rewrite Z.div_add by lia. rewrite Z2Nat.inj_add by dlia. rewrite cells_app. fold (cell_count h). rewrite <- (hi_units _ _ _ Hi).
      replace (start + 16 * Z.of_nat (cell_count h)) with (h_brk h) by (unfold cell_count; dlia).
      rewrite !all_units_app, all_units_cons. unfold units at 1. cbn [fst snd]. solve_Permutation.
  - intros b x Hb Hx. apply Hat. left.
    assert (0 < b.2) by (apply (block_pos _ _ _ Hi); rewrite elem_of_app; by right).
    pose proof (block_end _ _ _ Hi b ltac:(rewrite elem_of_app; by right) ltac:(done)). lia.
Qed.

Lemma morecore_spec h F A nu :
  heap_inv h F A -> 0 < nu < 2 ^ 27 -> h_limit h < 2 ^ 36 ->
  (morecore nu h = Ret 0 h /\ h_limit h < h_brk h + 16 * Z.max nu 4096 \/
   exists F' h', morecore nu h = Ret (h_freep h') h' /\ heap_inv h' F' A /\ keeps A (h_mem h) (h_mem h') /\ h_limit h' = h_limit h /\
     (exists b, b ∈ nodes F' /\ nu <= b.2) /\ (length F' <= S (length F))%nat).
Proof using Type.
  intros Hi Hnu Hlim. unfold morecore. set (nu' := if nu <? 4096 then 4096 else nu).
  assert (Hnu' : 0 < nu' < 2 ^ 27 /\ nu <= nu') by (unfold nu'; destruct (Z.ltb_spec nu 4096); lia).
  destruct (hi_base _ _ _ Hi) as [Hb1 Hb2]. destruct (hi_brk _ _ _ Hi) as [Hk1 Hk2].
  unfold sbrk, sizeof_Header. rewrite (s32_small (nu' * 16)) by lia. rewrite !bind_assoc, !run_gets.
  rewrite bind_assoc, run_gets. destruct (Z.ltb_spec 0 (nu' * 16)); [|lia]. destruct (Z.ltb_spec (h_limit h) (h_brk h + nu' * 16)).
  { left. split; [done|]. unfold nu' in *. destruct (Z.ltb_spec nu 4096); lia. }
  right. rewrite bind_assoc, run_modify, run_ret. destruct (Z.eqb_spec (h_brk h) (-1)); [lia|].
  rewrite run_set_size by (unfold mapped; cbn; lia). cbn [h_mem set_h_brk].
  destruct (grown h F A nu' Hi ltac:(lia) ltac:(lia) Hlim) as [Hi' Hk]. set (h1 := set_h_mem _ _) in *.
  destruct (free_spec h1 F A (h_brk h) nu' Hi') as (F' & m' & p & E & Hi2 & Hk2' & _ & (b & Hb & Hbig) & Hlen).
  unfold sizeof_Header in E. rewrite (bind_Ret _ _ _ _ _ E). eexists F', _. split; [reflexivity|]. split_and!.
  - exact Hi2.
  - eapply keeps_trans; [exact Hk|exact Hk2'].
  - done.
  - exists b. split; [done|lia].
  - done.
Qed.

(** ** malloc *)

Section Scan.
Context (h : heap) (F A : list block) (Hi : heap_inv h F A) (nu : Z).

Lemma node_mapped b : b ∈ nodes F -> mapped (h_brk h) b.1.
Proof using Hi. intros Hb. apply (header_mapped _ _ _ Hi), (node_header _ _ _ Hi). rewrite elem_of_app. by left. Qed.

Lemma round_on prevp b : b ∈ nodes F -> msize (h_mem h) b.1 = b.2 -> b.2 < nu -> b.1 <> h_freep h ->
  malloc_round nu (prevp, b.1) h = Ret (inl (b.1, mptr (h_mem h) b.1)) h.
Proof using Hi.
  intros Hb Hz Hlt Hne. pose proof (node_mapped b Hb) as Hm. unfold malloc_round. rewrite run_size by done. rewrite Hz.
  destruct (Z.leb_spec nu b.2); [lia|]. rewrite run_gets. destruct (Z.eqb_spec b.1 (h_freep h)); [done|]. by rewrite run_ptr.
Qed.

(** What the loop does up to the first block that is large enough, or to freep. *)
Lemma malloc_scan j : forall R prevp p f e,
  seg (h_mem h) p (R ++ [(h_freep h, j)]) e -> R ++ [(h_freep h, j)] ⊆ nodes F -> h_freep h ∉ R.*1 ->
  prevp ∈ (nodes F).*1 -> mptr (h_mem h) prevp = p ->
  exists pq q n f', (q, n) ∈ nodes F /\ pq ∈ (nodes F).*1 /\ mptr (h_mem h) pq = q /\ msize (h_mem h) q = n /\ (f <= f')%nat /\
    loop (f + length R + 1) (malloc_round nu) (prevp, p) h = loop (f' + 1) (malloc_round nu) (pq, q) h /\
    (nu <= n \/ q = h_freep h /\ f' = f /\ Forall (fun b => b.2 < nu) (R ++ [(h_freep h, j)])).
Proof using Hi.
  induction R as [|b R IH]; intros prevp p f e Hs Hsub Hn Hpv Hpp.
  - cbn [app seg] in Hs. destruct Hs as (-> & Hz & _). exists prevp, (h_freep h), j, f. cbn [fst snd] in *.
    split_and!; [apply Hsub; by left|done|done|done|done|by rewrite Nat.add_0_r|].
    destruct (Z.le_gt_cases nu j); [by left|right]. split_and!; [done|done|]. by repeat constructor.
  - cbn [app seg] in Hs. destruct Hs as (-> & Hz & Hs). assert (Hb : b ∈ nodes F) by (apply Hsub; by left).
    destruct (Z.le_gt_cases nu b.2) as [Hbig|Hsmall].
    { exists prevp, b.1, b.2, (f + length (b :: R))%nat. split_and!; [by destruct b|done|done|done|lia|done|by left]. }
    apply not_elem_of_cons in Hn as [Hn1 Hn2]. pose proof (round_on prevp b Hb Hz Hsmall ltac:(congruence)) as Er.
    destruct (IH b.1 _ f e Hs) as (pq & q & n & f' & I1 & I2 & I3 & I4 & I5 & I6 & I7).
    { intros x Hx. apply Hsub. by right. } { done. } { apply list_elem_of_fmap. by exists b. } { done. }
    exists pq, q, n, f'. split_and!; try done.
    + replace (f + length (b :: R) + 1)%nat with (S (f + length R + 1)) by (cbn; lia). by rewrite (loop_inl _ _ _ _ _ Er).
    + destruct I7 as [?|(? & ? & ?)]; [by left|right]. split_and!; [done|done|]. constructor; [lia|done].
Qed.

(** The ring from the node after freep. *)
Lemma ring_from_freep : exists R j e, seg (h_mem h) (mptr (h_mem h) (h_freep h)) (R ++ [(h_freep h, j)]) e /\
  R ++ [(h_freep h, j)] ≡ₚ nodes F /\ h_freep h ∉ R.*1.
Proof using Hi.
  destruct (proj1 (list_elem_of_fmap _ _ _) (hi_freep _ _ _ Hi)) as ([p j] & Ep & Hin). cbn in Ep.
  apply list_elem_of_split in Hin as (X & Y & E). destruct (node_at _ _ _ Hi _ _ _ _ E) as (S1 & S2 & S3 & S4 & _).
  rewrite Ep. exists (Y ++ X), j, (next_of Y). split_and!.
  - rewrite S3. apply seg_app. exists p. split; [apply seg_app; exists base; by split|]. cbn [seg fst snd]. by rewrite S3.
  - rewrite E. solve_Permutation.
  - pose proof (hi_order _ _ _ Hi) as Ho. rewrite E in Ho. apply StronglySorted_app in Ho as (Hc & _ & _).
    intros (b & Hb & Hin)%list_elem_of_fmap. apply elem_of_app in Hin as [Hin|Hin].
    + pose proof (node_order _ _ _ Hi _ _ _ _ _ E Hin). destruct (node_size _ _ _ Hi _ _ _ _ E). lia.
    + specialize (Hc b (p, j) Hin ltac:(by left)). unfold before in Hc. cbn in Hc.
      assert (0 <= b.2); [|lia]. assert (Hbn : b ∈ nodes F) by (rewrite E, elem_of_app; by left).
      apply elem_of_cons in Hbn as [->|Hbn]; [done|]. apply Z.lt_le_incl, (block_pos _ _ _ Hi). rewrite elem_of_app. by left.
Qed.
End Scan.

Section Take.
Context (h : heap) (F A : list block) (Hi : heap_inv h F A) (nu pq q n : Z).
Hypothesis (Hnu : 0 < nu) (Hq : (q, n) ∈ nodes F) (Hpq : pq ∈ (nodes F).*1) (Hnext : mptr (h_mem h) pq = q) (Hfit : nu <= n).

Lemma take_free : (q, n) ∈ F.
Proof using Hq Hnu Hfit. apply elem_of_cons in Hq as [E|?]; [|done]. injection E as _ En. clear Hnext Hpq. lia. Qed.

Lemma take_split : exists X j Y, nodes F = X ++ (pq, j) :: (q, n) :: Y.
Proof using All.
  apply list_elem_of_fmap in Hpq as ([p j] & Ep & Hin). cbn in Ep. apply list_elem_of_split in Hin as (X & Y & E).
  destruct (node_at _ _ _ Hi _ _ _ _ E) as (_ & _ & S3 & _ & _). rewrite <- Ep, Hnext in S3.
  pose proof (block_start _ _ _ Hi (q, n) ltac:(rewrite elem_of_app; left; apply take_free)) as Hs. cbn in Hs.
  destruct (hi_base _ _ _ Hi) as [Hb1 Hb2]. destruct Y as [|[y k] Y]; cbn [next_of fst] in S3; [lia|]. subst y.
  exists X, j, Y. rewrite E, Ep. do 3 f_equal. f_equal.
  assert (E' : nodes F = (X ++ [(p, j)]) ++ (q, k) :: Y) by (by rewrite <- app_assoc).
  destruct (node_at _ _ _ Hi _ _ _ _ E') as (_ & <- & _).
  pose proof Hq as Hin. apply list_elem_of_split in Hin as (X' & Y' & E''). by destruct (node_at _ _ _ Hi _ _ _ _ E'') as (_ & <- & _).
Qed.

(** The unit [x] of the block can be written without touching anything else. *)
Lemma take_other x m m' : x ∈ units (q, n) -> at_header x m m' ->
  keeps A m m' /\ forall b, b ∈ nodes F ++ A -> b.1 <> x -> mptr m' b.1 = mptr m b.1 /\ msize m' b.1 = msize m b.1.
Proof using Hi Hq.
  intros Hx Hm. assert (Hh : header_at h x) by (apply (unit_header _ _ _ Hi (q, n)); [rewrite elem_of_app; by left|done]). split.
  - apply (keeps_write _ _ _ Hi A x); [done|done| |done]. intros b Hb Hu. pose proof (hi_nodup _ _ _ Hi) as Hnd.
    rewrite all_units_app in Hnd. apply NoDup_app in Hnd as (_ & Hd & _).
    apply (Hd x); apply elem_of_all_units; [by exists (q, n)|by exists b].
  - intros b Hb Hne. apply (at_header_other x); [done|]. apply (headers_apart _ _ _ Hi); [done|by apply (node_header _ _ _ Hi)|done].
Qed.

Lemma take_bounds : start <= q /\ q + 16 * n <= h_brk h /\ h_brk h < 2 ^ 36.
Proof using Hi Hq Hnu Hfit.
  pose proof take_free as Hf. split_and!.
  - apply (block_start _ _ _ Hi (q, n)). rewrite elem_of_app. by left.
  - apply (block_end _ _ _ Hi (q, n)); [rewrite elem_of_app; by left|cbn; lia].
  - apply Hi.
Qed.


(** What malloc leaves in the ring: [q] has shrunk to [W]. *)
Lemma take_ring X j Y W m' :
  nodes F = X ++ (pq, j) :: (q, n) :: Y -> W = [] \/ (exists k, W = [(q, k)] /\ 0 < k <= n /\ msize m' q = k /\ mptr m' q = next_of Y) ->
  (forall b, b ∈ nodes F -> b.1 <> pq -> b.1 <> q -> mptr m' b.1 = mptr (h_mem h) b.1 /\ msize m' b.1 = msize (h_mem h) b.1) ->
  mptr m' pq = next_of (W ++ Y) -> msize m' pq = j ->
  exists F', nodes F' = X ++ (pq, j) :: W ++ Y /\ seg m' base (nodes F') base /\ pq ∈ (nodes F').*1 /\
    StronglySorted before (nodes F') /\ Forall (fun b => 0 < b.2) F'.
Proof using All.
  intros E HW Hsame Hp Hpz. assert (E' : nodes F = (X ++ [(pq, j)]) ++ (q, n) :: Y) by (by rewrite <- app_assoc).
  destruct (node_at _ _ _ Hi _ _ _ _ E) as (S1 & _ & _ & _ & Hhp). destruct (node_at _ _ _ Hi _ _ _ _ E') as (_ & _ & _ & S4 & _).
  pose proof (hi_order _ _ _ Hi) as Ho. rewrite E in Ho. apply StronglySorted_app in Ho as (Hc & OX & Ho).
  apply StronglySorted_inv in Ho as [Ho Hpo]. apply StronglySorted_inv in Ho as [OY HqY]. apply Forall_cons in Hpo as [Hpq1 HpY]. rewrite Forall_forall in HpY, HqY.
  destruct (node_size _ _ _ Hi _ _ _ _ E) as [Hj _]. unfold before in Hpq1. cbn in Hpq1.
  assert (EF : exists F', nodes F' = X ++ (pq, j) :: W ++ Y).
  { unfold nodes in E. destruct X as [|x X']; injection E; intros; [exists (W ++ Y)|exists (X' ++ (pq, j) :: W ++ Y)]; unfold nodes; cbn; congruence. }
  destruct EF as [F' EF]. exists F'. rewrite EF. split; [done|].
  assert (Hso : StronglySorted before (X ++ (pq, j) :: W ++ Y)).
  { apply StronglySorted_app. split_and!; [|done|].
    - intros x y Hx Hy. apply elem_of_cons in Hy as [->|Hy]; [by apply Hc; [|left]|]. apply elem_of_app in Hy as [Hy|Hy]; [|by apply Hc; [|right; right]].
      destruct HW as [->|(k & -> & _)]; [by apply not_elem_of_nil in Hy|]. apply list_elem_of_singleton in Hy as ->. apply (Hc x (q, n)); [done|right; by left].
    - destruct HW as [->|(k & -> & Hk & _)]; cbn [app]; repeat constructor; try done; try (apply Forall_forall; intros b Hb).
      + by apply HpY.
      + specialize (HqY b Hb). unfold before in *. cbn in *. lia.
      + by apply HpY. }
  split_and!; [|rewrite fmap_app; apply elem_of_app; right; by left|done|].
  - assert (Hxy : forall b, b ∈ X \/ b ∈ Y -> mptr m' b.1 = mptr (h_mem h) b.1 /\ msize m' b.1 = msize (h_mem h) b.1).
    { intros b Hb. assert (Hbn : b ∈ nodes F) by (rewrite E, elem_of_app, !elem_of_cons; tauto).
      assert (0 <= b.2) by (destruct (node_pos _ _ _ Hi b Hbn) as [->|?]; cbn; lia). apply Hsame; [done|..]; destruct Hb as [Hb|Hb].
      - specialize (Hc b (pq, j) Hb ltac:(by left)). unfold before in Hc. cbn in Hc. lia.
      - specialize (HpY b Hb). unfold before in HpY. cbn in HpY. lia.
      - specialize (Hc b (q, n) Hb ltac:(right; by left)). unfold before in Hc. cbn in Hc. lia.
      - specialize (HqY b Hb). unfold before in HqY. cbn in HqY. lia. }
    assert (S4' : seg m' (next_of Y) Y base) by (eapply seg_ext; [|exact S4]; intros; apply Hxy; tauto).
    apply seg_app. exists pq. split; [eapply seg_ext; [|exact S1]; intros; apply Hxy; tauto|]. cbn [seg fst snd]. split_and!; [done|done|]. rewrite Hp.
    destruct HW as [->|(k & -> & _ & Hz & Hn')]; cbn [app next_of fst seg snd]; [done|]. by rewrite Hn'.
  - apply nodes_pos; rewrite EF; [done|]. intros b. rewrite elem_of_app, elem_of_cons, elem_of_app. intros [Hb|[->|[Hb|Hb]]].
    + apply (node_pos _ _ _ Hi). rewrite E, elem_of_app. by left.
    + apply (node_pos _ _ _ Hi). rewrite E, elem_of_app. right. by left.
    + destruct HW as [->|(k & -> & Hk & _)]; [by apply not_elem_of_nil in Hb|]. apply list_elem_of_singleton in Hb as ->. right. cbn. lia.
    + apply (node_pos _ _ _ Hi). rewrite E, elem_of_app, !elem_of_cons. tauto.
Qed.

(** What malloc has taken: the block [a]. *)
Definition taken (a : Z) (m' : memory) : Prop :=
  keeps A (h_mem h) m' /\ exists F', heap_inv (set_h_freep pq (set_h_mem m' h)) F' ((a, nu) :: A).

Lemma take_inv F' m' a : keeps A (h_mem h) m' -> seg m' base (nodes F') base -> pq ∈ (nodes F').*1 ->
  StronglySorted before (nodes F') -> Forall (fun b => 0 < b.2) F' -> msize m' a = nu ->
  all_units (nodes F') ++ units (a, nu) ≡ₚ all_units (nodes F) -> taken a m'.
Proof using Hi Hnu.
  intros K R1 R2 R3 R4 Hz Hu. split; [done|]. exists F'. split; try done; try apply Hi.
  - pose proof (hi_pos _ _ _ Hi) as Hp. apply Forall_app in Hp as [_ Hp]. apply Forall_app. split; [done|]. by constructor.
  - constructor; [done|]. by apply (keeps_sizes _ _ _ Hi A).
  - etrans; [|exact (hi_units _ _ _ Hi)]. rewrite !all_units_app, all_units_cons, app_assoc, Hu. done.
Qed.

(** The whole block. *)
Lemma take_exact : n = nu -> taken q (put_ptr (h_mem h) pq (mptr (h_mem h) q)).
Proof using All.
  intros En. destruct take_split as (X & j & Y & E). assert (E' : nodes F = (X ++ [(pq, j)]) ++ (q, n) :: Y) by (by rewrite <- app_assoc).
  destruct (node_at _ _ _ Hi _ _ _ _ E) as (_ & S2 & _ & _ & Hhp). destruct (node_at _ _ _ Hi _ _ _ _ E') as (_ & Z2 & Z3 & _ & Hhq).
  set (m' := put_ptr _ _ _). pose proof (at_header_ptr (h_mem h) pq (mptr (h_mem h) q) : at_header pq (h_mem h) m') as Hat.
  assert (Hin : (pq, j) ∈ nodes F) by (rewrite E, elem_of_app; right; by left).
  assert (Hsame : forall x, header_at h x -> x <> pq -> mptr m' x = mptr (h_mem h) x /\ msize m' x = msize (h_mem h) x).
  { intros x Hx Hne. apply (at_header_other pq); [done|]. by apply (headers_apart _ _ _ Hi). }
  destruct (take_ring X j Y [] m' E) as (F' & EF & R1 & R2 & R3 & R4); [by left| | | |].
  - intros b Hb Hne _. apply Hsame; [|done]. apply (node_header _ _ _ Hi). rewrite elem_of_app. by left.
  - unfold m'. rewrite Z3. apply ptr_put_ptr. destruct Y as [|y Y]; cbn [app next_of].
    + destruct (hi_base _ _ _ Hi), (hi_brk _ _ _ Hi). lia.
    + assert (Hy : y ∈ nodes F) by (rewrite E, elem_of_app, !elem_of_cons; tauto). destruct (node_mapped _ _ _ Hi y Hy) as (? & ? & ?). lia.
  - unfold m'. by rewrite size_put_ptr.
  - apply (take_inv F'); try done.
    + by apply (keeps_node _ _ _ Hi A (pq, j)).
    + destruct (Hsame q Hhq) as [_ ->]; [|lia]. intros Eq. pose proof (node_order _ _ _ Hi _ _ _ _ (q, n) E ltac:(by left)) as Ho. cbn in Ho.
      destruct (node_size _ _ _ Hi _ _ _ _ E). lia.
    + rewrite EF, E, <- En. cbn [app]. rewrite !all_units_app, !all_units_cons. solve_Permutation.
Qed.

(** The end of the block. *)
Lemma take_part : nu < n -> let a := q + (n - nu) * 16 in
  taken a (put_size (put_size (h_mem h) q (n - nu)) a nu) /\ a ∈ units (q, n) /\ msize (put_size (h_mem h) q (n - nu)) q = n - nu.
Proof using All.
  intros Hlt a. destruct take_split as (X & j & Y & E). assert (E' : nodes F = (X ++ [(pq, j)]) ++ (q, n) :: Y) by (by rewrite <- app_assoc).
  destruct (node_at _ _ _ Hi _ _ _ _ E) as (_ & S2 & S3 & _ & Hhp). destruct (node_at _ _ _ Hi _ _ _ _ E') as (_ & Z2 & Z3 & _ & Hhq).
  destruct (take_bounds) as (B1 & B2 & B3). destruct (hi_base _ _ _ Hi) as [Hb1 Hb2].
  assert (Ha : a ∈ units (q, n)).
  { apply elem_of_units. unfold a. cbn [fst snd]. replace (q + (n - nu) * 16 - q) with ((n - nu) * 16) by lia. rewrite Z.mod_mul by lia. split; [lia|done]. }
  assert (Hu0 : q ∈ units (q, n)) by (apply (units_header (q, n)); cbn; lia).
  set (m1 := put_size (h_mem h) q (n - nu)). set (m' := put_size m1 a nu).
  assert (Hz1 : msize m1 q = n - nu) by (apply size_put_size; lia). split; [|by split].
  destruct (take_other q (h_mem h) m1 Hu0 (at_header_size _ _ _)) as [K1 O1].
  destruct (take_other a m1 m' Ha (at_header_size _ _ _)) as [K2 O2].
  assert (Hpq2 : pq <> a /\ pq <> q).
  { pose proof (node_order _ _ _ Hi _ _ _ _ (q, n) E ltac:(by left)) as Ho. cbn in Ho. destruct (node_size _ _ _ Hi _ _ _ _ E). unfold a. lia. }
  assert (Hna : forall b, b ∈ nodes F -> b.1 <> q -> b.1 <> a).
  { intros b Hb Hne Eb. rewrite E' in Hb. apply elem_of_app in Hb as [Hb|[->|Hb]%elem_of_cons]; [|done|].
    - pose proof (hi_order _ _ _ Hi) as Ho. rewrite E' in Ho. apply StronglySorted_app in Ho as (Hc & _ & _).
      specialize (Hc b (q, n) Hb ltac:(by left)). unfold before in Hc. cbn in Hc.
      destruct (node_pos _ _ _ Hi b ltac:(rewrite E', elem_of_app; by left)) as [->|?]; cbn in *; lia.
    - pose proof (node_order _ _ _ Hi _ _ _ _ _ E' Hb). lia. }
  assert (Hsame : forall b, b ∈ nodes F -> b.1 <> q -> mptr m' b.1 = mptr (h_mem h) b.1 /\ msize m' b.1 = msize (h_mem h) b.1).
  { intros b Hb Hne. assert (Hb' : b ∈ nodes F ++ A) by (rewrite elem_of_app; by left).
    destruct (O2 b Hb' (Hna b Hb Hne)) as [-> ->]. by apply O1. }
  assert (Hqa : q <> a) by (unfold a; lia).
  destruct (O2 (q, n) ltac:(rewrite elem_of_app; by left) Hqa) as [Eq1 Eq2]. cbn [fst] in Eq1, Eq2.
  destruct (Hsame (pq, j)) as [Ep1 Ep2]; [rewrite E, elem_of_app; right; by left|cbn; tauto|]. cbn [fst] in Ep1, Ep2.
  destruct (take_ring X j Y [(q, n - nu)] m' E) as (F' & EF & R1 & R2 & R3 & R4).
  - right. exists (n - nu). split_and!; [done|lia|lia|by rewrite Eq2|]. rewrite Eq1. unfold m1. by rewrite ptr_put_size.
  - intros b Hb _ Hne. by apply Hsame.
  - by rewrite Ep1.
  - by rewrite Ep2.
  - apply (take_inv F'); try done.
    + by eapply keeps_trans.
    + apply size_put_size. lia.
    + rewrite EF, E. rewrite !all_units_app, !all_units_cons. cbn [app]. rewrite all_units_cons.
      replace (q, n) with (q, (n - nu) + nu) by (f_equal; lia). rewrite units_join by lia. fold a. rewrite (Z.mul_comm 16), <- !app_assoc. unfold a. solve_Permutation.
Qed.

Lemma malloc_take : exists a m', malloc_round nu (pq, q) h = Ret (inr (a + sizeof_Header)) (set_h_freep pq (set_h_mem m' h)) /\ taken a m'.
Proof using All.
  pose proof (node_mapped _ _ _ Hi _ Hq) as Hmq. cbn in Hmq.
  assert (Hz : msize (h_mem h) q = n).
  { pose proof Hq as Hin. apply list_elem_of_split in Hin as (X & Y & E). apply (node_at _ _ _ Hi _ _ _ _ E). }
  assert (Hmp : mapped (h_brk h) pq).
  { pose proof Hpq as Hin. apply list_elem_of_fmap in Hin as (b & Eb & Hin). rewrite Eb. by apply (node_mapped _ _ _ Hi). }
  unfold malloc_round. rewrite run_size by done. rewrite Hz. destruct (Z.leb_spec nu n); [|lia]. destruct (Z.eqb_spec n nu) as [En|En].
  - eexists q, _. split; [|by apply take_exact]. rewrite bind_assoc, run_ptr by done. rewrite bind_assoc, run_set_ptr by done. rewrite run_ret, run_modify. done.
  - destruct (take_part ltac:(lia)) as (Ht & Ha & Hsz). eexists _, _. split; [|exact Ht].
    assert (Hma : mapped (h_brk h) (q + (n - nu) * 16)).
    { apply (header_mapped _ _ _ Hi), (unit_header _ _ _ Hi (q, n)); [rewrite elem_of_app; by left|done]. }
    rewrite bind_assoc, run_set_size by done. rewrite bind_assoc, run_size by done. cbn [h_mem set_h_mem]. rewrite Hsz. unfold sizeof_Header.
    rewrite bind_assoc, run_set_size by done. rewrite run_ret, run_modify. done.
Qed.
End Take.

Lemma freep_pos h F A : heap_inv h F A -> h_freep h <> 0.
Proof using Type.
  intros Hi. destruct (hi_base _ _ _ Hi) as [H1 H2]. pose proof (hi_freep _ _ _ Hi) as Hf. apply list_elem_of_fmap in Hf as (b & -> & Hb).
  apply elem_of_cons in Hb as [->|Hb]; [cbn; lia|]. pose proof (block_start _ _ _ Hi b ltac:(rewrite elem_of_app; by left)). lia.
Qed.

(** One search of the ring: a block is found and taken, or every one is too small. *)
Lemma malloc_search h F A nu f : heap_inv h F A -> 0 < nu ->
  (exists a pq m', loop (f + length F + 1) (malloc_round nu) (h_freep h, mptr (h_mem h) (h_freep h)) h =
     Ret (a + sizeof_Header) (set_h_freep pq (set_h_mem m' h)) /\ taken h A nu pq a m') \/
  Forall (fun b => b.2 < nu) (nodes F) /\ exists pq,
    loop (f + length F + 1) (malloc_round nu) (h_freep h, mptr (h_mem h) (h_freep h)) h = loop (f + 1) (malloc_round nu) (pq, h_freep h) h.
Proof using Type.
  intros Hi Hnu. destruct (ring_from_freep _ _ _ Hi) as (R & j & e & Hs & HR & Hn).
  assert (Hlen : length R = length F) by (pose proof (Permutation_length HR) as Hl; rewrite length_app in Hl; cbn in Hl; lia).
  destruct (malloc_scan _ _ _ Hi nu j R (h_freep h) _ f e Hs) as (pq & q & n & f' & S1 & S2 & S3 & S4 & S5 & S6 & S7).
  { intros b. by rewrite HR. } { done. } { apply Hi. } { done. }
  rewrite <- Hlen, S6. destruct S7 as [Hfit|(-> & -> & Hall)].
  - left. destruct (malloc_take _ _ _ Hi nu pq q n Hnu S1 S2 S3 Hfit) as (a & m' & E & Ht). exists a, pq, m'. split; [|done].
    rewrite Nat.add_1_r. cbn [loop]. by rewrite (bind_Ret _ _ _ _ _ E).
  - right. split; [by rewrite <- HR|]. by exists pq.
Qed.

Lemma round_freep pq h F A nu : heap_inv h F A -> Forall (fun b => b.2 < nu) (nodes F) ->
  malloc_round nu (pq, h_freep h) h =
  (let! p := morecore nu in if p =? 0 then ret (inr 0) else let! next := ptr p in ret (inl (p, next))) h.
Proof using Type.
  intros Hi Hall. pose proof (hi_freep _ _ _ Hi) as Hf. apply list_elem_of_fmap in Hf as ([p j] & Ep & Hb). cbn in Ep.
  pose proof (node_mapped _ _ _ Hi _ Hb) as Hm. rewrite Forall_forall in Hall. specialize (Hall _ Hb). apply list_elem_of_split in Hb as (X & Y & E).
  destruct (node_at _ _ _ Hi _ _ _ _ E) as (_ & Hz & _). cbn in Hm, Hall. unfold malloc_round. rewrite Ep. rewrite run_size by done. rewrite Hz.
  destruct (Z.leb_spec nu j); [lia|]. rewrite run_gets, Ep, Z.eqb_refl. done.
Qed.

(** malloc of [nu] units once there is a ring. *)
Lemma malloc_loop_spec h F A nu : heap_inv h F A -> 0 < nu < 2 ^ 27 -> h_limit h < 2 ^ 36 ->
  exists r h', loop (rounds h) (malloc_round nu) (h_freep h, mptr (h_mem h) (h_freep h)) h = Ret r h' /\
    h_limit h' = h_limit h /\ keeps A (h_mem h) (h_mem h') /\
    (r = 0 /\ h' = h /\ Forall (fun b => b.2 < nu) F /\ h_limit h < h_brk h + 16 * Z.max nu 4096 \/
     exists a F', r = a + sizeof_Header /\ heap_inv h' F' ((a, nu) :: A)).
Proof using Type.
  intros Hi Hnu Hlim. pose proof (length_nodes _ _ _ Hi) as Hr.
  set (f := (rounds h - length F - 1)%nat). replace (rounds h) with (f + length F + 1)%nat by (unfold f; lia).
  destruct (malloc_search h F A nu f Hi ltac:(lia)) as [(a & pq & m' & E & Hk & F' & Hi')|(Hall & pq & E)].
  { exists (a + sizeof_Header), (set_h_freep pq (set_h_mem m' h)). split_and!; [exact E|done|exact Hk|]. right. by exists a, F'. }
  rewrite E. rewrite Nat.add_1_r. cbn [loop]. pose proof (round_freep pq h F A nu Hi Hall) as Er.
  destruct (morecore_spec h F A nu Hi Hnu Hlim) as [[Em Hno]|(F1 & h1 & Em & Hi1 & Hk1 & Hl1 & (b & Hb & Hbig) & Hlen)];
    rewrite (bind_Ret _ _ _ _ _ Em) in Er.
  { cbn [Z.eqb] in Er. rewrite (bind_Ret _ _ _ _ _ Er). exists 0, h. split_and!; [done|done|by intros b x _ _|]. left.
    split_and!; [done|done| |done]. by apply Forall_cons in Hall as [_ ?]. }
  pose proof (freep_pos _ _ _ Hi1) as Hf1. destruct (Z.eqb_spec (h_freep h1) 0); [done|].
  assert (Hm1 : mapped (h_brk h1) (h_freep h1)).
  { pose proof (hi_freep _ _ _ Hi1) as Hf. apply list_elem_of_fmap in Hf as (c & -> & Hc). by apply (node_mapped _ _ _ Hi1). }
  rewrite run_ptr in Er by done. rewrite (bind_Ret _ _ _ _ _ Er).
  replace f with ((f - length F1 - 1) + length F1 + 1)%nat by (unfold f; lia).
  destruct (malloc_search h1 F1 A nu (f - length F1 - 1) Hi1 ltac:(lia)) as [(a & pq' & m' & E' & Hk & F' & Hi')|(Hall' & _)].
  - exists (a + sizeof_Header), (set_h_freep pq' (set_h_mem m' h1)). split_and!; [exact E'|done|by eapply keeps_trans|]. right. by exists a, F'.
  - rewrite Forall_forall in Hall'. specialize (Hall' b Hb). lia.
Qed.
End Heap.
