(* ===== verification/UHeap.v ===== *)
(** The allocator of user/umalloc.c as its callers see it: a set of separate
    buffers that keep what is stored in them. *)

From stdpp Require Import base numbers list gmap strings sorting.
From S2P Require Import Prelude Params Mem Umalloc UmallocSpec.

Section UHeap.
Context (base start : Z).

(** Before the first call: no ring yet, and no memory taken. *)
Record fresh_heap (h : heap) : Prop := {
  fh_freep : h_freep h = 0;
  fh_base : 0 < base /\ base + 16 <= start;
  fh_brk : h_brk h = start /\ start < 2 ^ 36;
}.

Definition heap_ok (h : heap) (F A : list (Z * Z)) : Prop :=
  heap_inv base start h F A \/ fresh_heap h /\ F = [] /\ A = [].

(** The number of units malloc takes for [nbytes] bytes. *)
Definition units_for (nbytes : Z) : Z := (nbytes + 15) / 16 + 1.

Lemma first_ring h : fresh_heap h ->
  let h' := set_h_mem (put_size (put_ptr (h_mem h) base base) base 0) (set_h_freep base h) in
  heap_inv base start h' [] [].
Proof using Type.
  intros [H1 [H2 H3] [H4 H5]]. cbv zeta. split; cbn [h_mem h_brk h_freep set_h_mem set_h_freep]; try done.
  - rewrite H4, Z.sub_diag. split; [lia|done].
  - cbn [seg nodes fst snd]. rewrite size_put_size by lia. rewrite ptr_put_size, ptr_put_ptr by lia. done.
  - by left.
  - repeat constructor.
  - unfold cell_count. cbn [h_brk set_h_mem set_h_freep]. rewrite H4, Z.sub_diag. done.
Qed.

Lemma malloc_spec h F A nbytes :
  heap_ok h F A -> h_limit h < 2 ^ 36 -> 0 <= nbytes < 2 ^ 31 - 32 ->
  exists r h', malloc base nbytes h = Ret r h' /\ h_limit h' = h_limit h /\ keeps A (h_mem h) (h_mem h') /\
    (r = 0 /\ heap_inv base start h' F A /\ h_brk h' = h_brk h /\ Forall (fun b => b.2 < units_for nbytes) F /\
       h_limit h < h_brk h + 16 * Z.max (units_for nbytes) 4096 \/
     exists a F', r = a + sizeof_Header /\ heap_inv base start h' F' ((a, units_for nbytes) :: A)).
Proof using Type.
  intros Hok Hlim Hn. unfold malloc. replace (u32 _) with (units_for nbytes).
  2:{ unfold units_for, sizeof_Header. rewrite u32_small; [do 2 f_equal; lia|dlia]. }
  assert (Hu : 0 < units_for nbytes < 2 ^ 27) by (unfold units_for; dlia). rewrite run_gets.
  assert (Hring : forall h, heap_inv base start h F A -> mapped (h_brk h) (h_freep h)).
  { intros h1 Hi. pose proof (hi_freep _ _ _ _ _ Hi) as Hf. apply list_elem_of_fmap in Hf as (b & -> & Hb). by apply (node_mapped _ _ _ _ _ Hi). }
  destruct Hok as [Hi|(Hf & -> & ->)].
  - pose proof (freep_pos _ _ _ _ _ Hi) as Hp. destruct (Z.eqb_spec (h_freep h) 0); [done|]. rewrite run_ret.
    rewrite run_ptr by (by apply Hring). rewrite run_gets.
    destruct (malloc_loop_spec _ _ _ _ _ _ Hi Hu Hlim) as (r & h' & E & Hl & Hk & Hc). exists r, h'. split_and!; [exact E|done|done|].
    destruct Hc as [(-> & -> & Hs & Hno)|Hc]; [by left|by right].
  - pose proof (first_ring h Hf) as Hi. cbv zeta in Hi. destruct Hf as [H1 [H2 H3] [H4 H5]]. rewrite H1. cbn [Z.eqb].
    assert (Hm : mapped (h_brk h) base) by (unfold mapped; lia).
    rewrite bind_assoc, run_modify, bind_assoc, run_set_ptr by done. cbn [h_mem set_h_freep].
    rewrite bind_assoc, run_set_size by done. cbn [h_mem set_h_mem]. rewrite run_ret. set (h1 := set_h_mem _ _) in *.
    rewrite run_ptr by exact Hm. rewrite run_gets.
    destruct (malloc_loop_spec _ _ _ _ _ _ Hi Hu Hlim) as (r & h' & E & Hl & Hk & Hc). exists r, h'. split_and!; [exact E|done|intros b x Hb; by apply not_elem_of_nil in Hb|].
    destruct Hc as [(-> & -> & Hs & Hno)|Hc]; [by left|by right].
Qed.

(** ** A program that uses the heap *)

(** Its calls: malloc, free of the [i]-th buffer that is live, and a store at
    offset [off] of it. *)
Inductive heap_op :=
| OpMalloc (nbytes : Z)
| OpFree (i : nat)
| OpStore (i off : nat) (bytes : list Z).

(** A buffer: its address, and what it should hold. *)
Definition run_heap_op (live : list (Z * list Z)) (o : heap_op) : H (list (Z * list Z)) :=
  match o with
  | OpMalloc nbytes =>
      let! p := malloc base nbytes in
      if p =? 0 then ret live
      else let! m := gets h_mem in ret ((p, read_bytes m p (Z.to_nat nbytes)) :: live)
  | OpFree i =>
      match live !! i with
      | None => ret live
      | Some (p, _) => free p ;; ret (delete i live)
      end
  | OpStore i off bytes =>
      match live !! i with
      | None => ret live
      | Some (p, d) =>
          if (off + length bytes <=? length d)%nat then
            modify (fun h => set_h_mem (write_bytes (h_mem h) (p + Z.of_nat off) bytes) h) ;;
            ret (<[i := (p, put_at d off bytes)]> live)
          else ret live
      end
  end.

Fixpoint run_heap (live : list (Z * list Z)) (os : list heap_op) : H (list (Z * list Z)) :=
  match os with
  | [] => ret live
  | o :: os => let! live := run_heap_op live o in run_heap live os
  end.

(** The requests the theorem covers. *)
Definition op_ok (o : heap_op) : Prop :=
  match o with
  | OpMalloc nbytes => 0 <= nbytes < 2 ^ 31 - 32
  | OpFree _ => True
  | OpStore _ _ bytes => is_bytes bytes
  end.

(** Every buffer holds what it should, in memory above [start] that the
    process has, and no two buffers overlap. *)
Definition buffer_holds (h : heap) (b : Z * list Z) : Prop :=
  read_bytes (h_mem h) b.1 (length b.2) = b.2 /\ start < b.1 /\ b.1 + Z.of_nat (length b.2) <= h_brk h.
Definition separate (b c : Z * list Z) : Prop :=
  b.1 + Z.of_nat (length b.2) <= c.1 \/ c.1 + Z.of_nat (length c.2) <= b.1.
Definition buffers_ok (h : heap) (live : list (Z * list Z)) : Prop :=
  Forall (buffer_holds h) live /\
  forall i j b c, i <> j -> live !! i = Some b -> live !! j = Some c -> separate b c.

(** The block of a buffer. *)
Definition in_block (m : memory) (b : Z * list Z) (c : Z * Z) : Prop :=
  b.1 = c.1 + 16 /\ Z.of_nat (length b.2) <= 16 * (c.2 - 1) /\ read_bytes m b.1 (length b.2) = b.2.

Definition heap_rel (h : heap) (live : list (Z * list Z)) : Prop :=
  exists F A, heap_ok h F A /\ Forall2 (in_block (h_mem h)) live A /\ h_limit h < 2 ^ 36.

Lemma in_block_keeps A m m' live : keeps A m m' -> Forall2 (in_block m) live A -> Forall2 (in_block m') live A.
Proof using Type.
  intros Hk Hf. rewrite Forall2_lookup in *. intros i. specialize (Hf i). destruct (live !! i) as [b|] eqn:Eb, (A !! i) as [c|] eqn:Ec; inversion Hf; subst; constructor.
  destruct H1 as (H1 & H2 & H3). split_and!; [done|done|]. rewrite <- H3 at 2. apply read_bytes_ext. intros x Hx.
  apply (Hk c); [by eapply list_elem_of_lookup_2|lia].
Qed.

Lemma heap_inv_perm h F A A' : A ≡ₚ A' -> heap_inv base start h F A -> heap_inv base start h F A'.
Proof using Type. intros HA [H1 H2 H3 H4 H5 H6 H7 H8]. split; try done; by rewrite <- HA. Qed.

(** ** Stores *)

(** Two allocated blocks at different positions share no byte. *)
Lemma alloc_disjoint h F A i j b c : heap_inv base start h F A -> i <> j -> A !! i = Some b -> A !! j = Some c ->
  b.1 + 16 * b.2 <= c.1 \/ c.1 + 16 * c.2 <= b.1.
Proof using Type.
  intros Hi Hne Hb Hc. assert (HA : exists L, A ≡ₚ b :: c :: L).
  { pose proof (delete_Permutation A i b Hb) as HA. assert (Hc' : c ∈ delete i A).
    { destruct (decide (i < j)%nat).
      - apply (list_elem_of_lookup_2 _ (j - 1)). rewrite list_lookup_delete_ge by lia. by replace (S (j - 1)) with j by lia.
      - apply (list_elem_of_lookup_2 _ j). rewrite list_lookup_delete_lt by lia. done. }
    apply elem_of_Permutation in Hc' as [L HL]. exists L. by rewrite HA, HL. }
  destruct HA as [L HA]. apply (blocks_disjoint _ _ _ _ _ Hi b c (nodes base F ++ L)).
  - rewrite HA. solve_Permutation.
  - apply (block_pos _ _ _ _ _ Hi). rewrite elem_of_app, HA. right. by left.
  - apply (block_pos _ _ _ _ _ Hi). rewrite elem_of_app, HA. right. right. by left.
Qed.

(** A write to the payload of an allocated block. *)
Lemma store_inv h F A c m' : heap_inv base start h F A -> c ∈ A ->
  (forall x, x < c.1 + 16 \/ c.1 + 16 * c.2 <= x -> rd m' x = rd (h_mem h) x) -> heap_inv base start (set_h_mem m' h) F A.
Proof using Type.
  intros Hi Hc Hm. assert (Hp : 0 < c.2) by (apply (block_pos _ _ _ _ _ Hi); rewrite elem_of_app; by right).
  assert (Hs : start <= c.1) by (apply (block_start _ _ _ _ _ Hi); rewrite elem_of_app; by right).
  assert (Hsame : forall b, b ∈ nodes base F ++ A -> mptr m' b.1 = mptr (h_mem h) b.1 /\ msize m' b.1 = msize (h_mem h) b.1).
  { intros b Hb. assert (Ha : b.1 + 16 <= c.1 + 16 \/ c.1 + 16 * c.2 <= b.1).
    { apply elem_of_Permutation in Hc as [A' HA]. destruct (hi_base _ _ _ _ _ Hi) as [H1 H2].
      apply elem_of_cons in Hb as [->|Hb]; [left; cbn; lia|]. pose proof (block_pos _ _ _ _ _ Hi b Hb) as Hbp.
      assert (Hcase : b = c \/ exists L, b :: c :: L ≡ₚ nodes base F ++ A).
      { rewrite elem_of_app, HA in Hb. destruct Hb as [Hb|[->|Hb]%elem_of_cons]; [right|by left|right].
        - apply elem_of_Permutation in Hb as [F' HF]. exists ((base, 0) :: F' ++ A'). unfold nodes. rewrite HF, HA. solve_Permutation.
        - apply elem_of_Permutation in Hb as [A'' HA']. exists (nodes base F ++ A''). rewrite HA, HA'. solve_Permutation. }
      destruct Hcase as [->|[L HL]]; [left; lia|]. destruct (blocks_disjoint _ _ _ _ _ Hi b c L HL Hbp Hp); lia. }
    split; [apply ld64_ext|apply ld32_ext]; intros x Hx; apply Hm; lia. }
  destruct Hi as [H1 H2 H3 H4 H5 H6 H7 H8]. split; try done.
  - eapply seg_ext; [|exact H3]. intros b Hb. apply Hsame. rewrite elem_of_app. by left.
  - rewrite Forall_forall in *. intros b Hb. rewrite <- (H7 b Hb). apply Hsame. rewrite elem_of_app. by right.
Qed.

Lemma read_write_at m p d off bytes : is_bytes bytes -> read_bytes m p (length d) = d -> (off + length bytes <= length d)%nat ->
  read_bytes (write_bytes m (p + Z.of_nat off) bytes) p (length d) = put_at d off bytes.
Proof using Type.
  intros Hb Hr Hle. apply list_eq. intros j. rewrite lookup_put_at by done. destruct (decide (j < length d)%nat) as [Hj|Hj].
  - rewrite lookup_read_bytes by done. case_decide as D.
    + destruct (lookup_lt_is_Some_2 bytes (j - off)) as [x Hx]; [lia|]. rewrite Hx. f_equal.
      replace (p + Z.of_nat j) with (p + Z.of_nat off + Z.of_nat (j - off)) by lia. by apply rd_write_bytes.
    + rewrite rd_write_bytes_out by lia. rewrite <- Hr at 1. by rewrite lookup_read_bytes.
  - rewrite (lookup_ge_None_2 (read_bytes _ _ _)) by (rewrite length_read_bytes; lia).
    rewrite decide_False by lia. symmetry. apply lookup_ge_None_2. lia.
Qed.

Lemma store_rel h live i p d off bytes : heap_rel h live -> live !! i = Some (p, d) -> is_bytes bytes -> (off + length bytes <= length d)%nat ->
  heap_rel (set_h_mem (write_bytes (h_mem h) (p + Z.of_nat off) bytes) h) (<[i := (p, put_at d off bytes)]> live).
Proof using Type.
  intros (F & A & Hok & Hf & Hl) Hp Hb Hle. destruct (Forall2_lookup_l _ _ _ _ _ Hf Hp) as ([a n] & Ha & E & Hn & Hr). cbn [fst snd] in *.
  set (m' := write_bytes _ _ _). assert (Hout : forall x, x < a + 16 \/ a + 16 * n <= x -> rd m' x = rd (h_mem h) x) by (intros x Hx; apply rd_write_bytes_out; lia).
  destruct Hok as [Hi|(_ & _ & ->)]; [|done].
  exists F, A. split; [left; apply (store_inv _ _ _ (a, n)); [done|by eapply list_elem_of_lookup_2|done]|]. split; [|done].
  assert (Hlen : length (put_at d off bytes) = length d) by (by apply length_put_at).
  apply Forall2_lookup. intros j. cbn [h_mem set_h_mem]. destruct (decide (j = i)) as [->|D].
  - rewrite list_lookup_insert_eq by (by eapply lookup_lt_Some). rewrite Ha. constructor. split_and!; cbn [fst snd]; [done|by rewrite Hlen|].
    rewrite Hlen. by apply read_write_at.
  - rewrite list_lookup_insert_ne by done. rewrite Forall2_lookup in Hf. specialize (Hf j).
    destruct (live !! j) as [b|] eqn:Eb, (A !! j) as [c|] eqn:Ec; inversion Hf as [? ? (H1 & H2 & H3)|]; subst; constructor.
    split_and!; [done|done|]. rewrite <- H3 at 2. apply read_bytes_ext. intros x Hx. apply Hout.
    destruct (alloc_disjoint _ _ _ _ _ _ _ Hi D Ec Ha) as [Hd|Hd]; cbn in Hd; lia.
Qed.

(** ** Whole programs *)

Lemma malloc_rel h live nbytes : heap_rel h live -> 0 <= nbytes < 2 ^ 31 - 32 ->
  exists live' h', run_heap_op live (OpMalloc nbytes) h = Ret live' h' /\ heap_rel h' live'.
Proof using Type.
  intros (F & A & Hok & Hf & Hl) Hn. destruct (malloc_spec h F A nbytes Hok Hl Hn) as (r & h' & E & Hl' & Hk & Hc).
  cbn [run_heap_op]. rewrite (bind_Ret _ _ _ _ _ E). apply (in_block_keeps _ _ _ _ Hk) in Hf.
  destruct Hc as [(-> & Hi & _)|(a & F' & -> & Hi)].
  - exists live, h'. split; [done|]. exists F, A. split_and!; [by left|done|lia].
  - assert (Ha : start <= a) by (apply (block_start _ _ _ _ _ Hi (a, units_for nbytes)); rewrite elem_of_app; right; by left).
    destruct (hi_base _ _ _ _ _ Hi) as [H1 H2]. unfold sizeof_Header in *. destruct (Z.eqb_spec (a + 16) 0); [lia|]. rewrite run_gets.
    eexists _, h'. split; [done|]. exists F', ((a, units_for nbytes) :: A). split_and!; [by left| |lia].
    constructor; [|done]. split_and!; cbn [fst snd]; rewrite ?length_read_bytes; [done| |done]. unfold units_for. dlia.
Qed.

Lemma free_rel h live i p d : heap_rel h live -> live !! i = Some (p, d) ->
  exists h', free p h = Ret tt h' /\ heap_rel h' (delete i live).
Proof using Type.
  intros (F & A & Hok & Hf & Hl) Hp. destruct (Forall2_lookup_l _ _ _ _ _ Hf Hp) as ([a n] & Ha & E & Hn & Hr). cbn [fst snd] in *.
  destruct Hok as [Hi|(_ & _ & ->)]; [|done]. apply (heap_inv_perm _ _ _ _ (delete_Permutation A i (a, n) Ha)) in Hi.
  destruct (free_spec base start h F (delete i A) a n Hi) as (F' & m' & q & Ef & Hi' & Hk & _).
  rewrite E. eexists. split; [exact Ef|]. exists F', (delete i A). split_and!; [by left| |done].
  apply (in_block_keeps _ (h_mem h)); [done|]. by apply Forall2_delete.
Qed.

Lemma op_rel h live o : heap_rel h live -> op_ok o -> exists live' h', run_heap_op live o h = Ret live' h' /\ heap_rel h' live'.
Proof using Type.
  intros Hr Ho. destruct o as [nbytes|i|i off bytes]; [by apply malloc_rel|..]; cbn [run_heap_op op_ok] in *.
  - destruct (live !! i) as [[p d]|] eqn:E; [|by exists live, h]. destruct (free_rel h live i p d Hr E) as (h' & Ef & Hr').
    rewrite (bind_Ret _ _ _ _ _ Ef). by exists (delete i live), h'.
  - destruct (live !! i) as [[p d]|] eqn:E; [|by exists live, h]. destruct (Nat.leb_spec (off + length bytes) (length d)); [|by exists live, h].
    rewrite run_modify. eexists _, _. split; [done|]. by apply store_rel.
Qed.

Lemma run_heap_rel os : Forall op_ok os -> forall h live, heap_rel h live ->
  exists live' h', run_heap live os h = Ret live' h' /\ heap_rel h' live'.
Proof using Type.
  induction 1 as [|o os Ho Hos IH]; intros h live Hr; cbn [run_heap]; [by exists live, h|].
  destruct (op_rel h live o Hr Ho) as (live1 & h1 & E1 & Hr1). rewrite (bind_Ret _ _ _ _ _ E1). by apply IH.
Qed.

Lemma fresh_rel h : fresh_heap h -> h_limit h < 2 ^ 36 -> heap_rel h [].
Proof using Type. intros Hf Hl. exists [], []. split_and!; [by right|constructor|done]. Qed.

Lemma rel_buffers h live : heap_rel h live -> buffers_ok h live.
Proof using Type.
  intros (F & A & Hok & Hf & Hl). destruct Hok as [Hi|(_ & _ & ->)].
  2:{ inversion Hf; subst. split; [constructor|]. intros i j b c _ Hb. by rewrite lookup_nil in Hb. }
  split.
  - apply Forall_lookup. intros i [p d] Hp. destruct (Forall2_lookup_l _ _ _ _ _ Hf Hp) as ([a n] & Ha & E & Hn & Hr). cbn [fst snd] in *.
    assert (Hin : (a, n) ∈ A) by (by eapply list_elem_of_lookup_2).
    assert (0 < n) by (apply (block_pos _ _ _ _ _ Hi (a, n)); rewrite elem_of_app; by right).
    assert (start <= a) by (apply (block_start _ _ _ _ _ Hi (a, n)); rewrite elem_of_app; by right).
    pose proof (block_end _ _ _ _ _ Hi (a, n) ltac:(rewrite elem_of_app; by right) ltac:(done)) as He. cbn in He.
    split_and!; cbn [fst snd]; [done|lia|lia].
  - intros i j b c Hne Hb Hc. destruct (Forall2_lookup_l _ _ _ _ _ Hf Hb) as (b' & Hb' & E1 & N1 & _).
    destruct (Forall2_lookup_l _ _ _ _ _ Hf Hc) as (c' & Hc' & E2 & N2 & _).
    destruct (alloc_disjoint _ _ _ _ _ _ _ Hi Hne Hb' Hc'); unfold separate; lia.
Qed.

(** ** Nothing is lost *)

(** With nothing allocated the free list is one block. *)
Lemma one_free_block h F : heap_inv base start h F [] -> start < h_brk h -> F = [(start, (h_brk h - start) / 16)].
Proof using Type.
  intros Hi Hlt. destruct (hi_brk _ _ _ _ _ Hi) as [Hk1 Hk2]. pose proof (hi_units _ _ _ _ _ Hi) as Hu. rewrite app_nil_r in Hu.
  change (all_units (nodes base F)) with (all_units F) in Hu.
  assert (Hcov : forall x, start <= x -> x + 16 <= h_brk h -> (x - start) mod 16 = 0 -> exists b, b ∈ F /\ b.1 <= x < b.1 + 16 * b.2).
  { intros x H1 H2 H3. assert (Hx : x ∈ all_units F) by (rewrite Hu; apply elem_of_cells; unfold cell_count; split; [dlia|done]).
    apply elem_of_all_units in Hx as (b & Hb & Hx%elem_of_units). exists b. tauto. }
  assert (Hblk : forall b, b ∈ F -> start <= b.1 /\ 0 < b.2 /\ b.1 + 16 * b.2 <= h_brk h /\ (b.1 - start) mod 16 = 0).
  { intros b Hb. assert (Hp : 0 < b.2) by (apply (block_pos _ _ _ _ _ Hi); rewrite elem_of_app; by left).
    assert (Hc : b.1 ∈ cells start (cell_count start h)) by (rewrite <- Hu; apply elem_of_all_units; exists b; split; [done|by apply units_header]).
    apply (cell_range _ _ _ _ _ Hi) in Hc. pose proof (block_end _ _ _ _ _ Hi b ltac:(rewrite elem_of_app; left; by right) Hp). tauto. }
  pose proof (hi_order _ _ _ _ _ Hi) as Ho. apply StronglySorted_inv in Ho as [Ho _].
  destruct F as [|b F]; [destruct (Hcov start) as (b & Hb & _); [lia|dlia|by rewrite Z.sub_diag|by apply not_elem_of_nil in Hb]|].
  apply StronglySorted_inv in Ho as [Ho Hb0]. rewrite Forall_forall in Hb0. destruct (Hblk b ltac:(by left)) as (B1 & B2 & B3 & B4).
  assert (Hst : b.1 = start).
  { destruct (Hcov start) as (c & Hc & H1); [lia|dlia|by rewrite Z.sub_diag|]. apply elem_of_cons in Hc as [->|Hc]; [lia|].
    specialize (Hb0 c Hc). unfold before in Hb0. lia. }
  destruct F as [|c F].
  - assert (He : b.1 + 16 * b.2 = h_brk h).
    { destruct (Z.eq_dec (b.1 + 16 * b.2) (h_brk h)); [done|]. destruct (Hcov (b.1 + 16 * b.2)) as (d & Hd & H1); [lia|dlia|dlia|].
      apply list_elem_of_singleton in Hd as ->. lia. }
    destruct b as [p n]. cbn in *. rewrite Hst. do 2 f_equal. rewrite <- He, Hst. dlia.
  - exfalso. destruct (Hblk c ltac:(right; by left)) as (C1 & C2 & C3 & C4). pose proof (Hb0 c ltac:(by left)) as Hbc. unfold before in Hbc.
    destruct (Hcov (b.1 + 16 * b.2)) as (d & Hd & H1); [lia|dlia|dlia|]. apply StronglySorted_inv in Ho as [_ Hc0]. rewrite Forall_forall in Hc0.
    apply elem_of_cons in Hd as [->|Hd]; [lia|]. apply elem_of_cons in Hd as [->|Hd]; [lia|]. specialize (Hc0 d Hd). unfold before in Hc0. lia.
Qed.

(** C33. The user-level allocator (malloc, free and morecore of umalloc.c), for
    any sequence of calls of malloc with requests below 2 GB, frees of live
    buffers and stores inside them, from a heap in its initial state: the
    program never touches memory it does not have and every loop over the
    free list ends; each live buffer lies in memory obtained from the
    kernel, no two overlap, and each holds exactly what was last stored in
    it, whatever was allocated, freed or stored elsewhere. *)
Theorem heap_keeps_buffers_apart os h :
  fresh_heap h -> h_limit h < 2 ^ 36 -> Forall op_ok os ->
  exists live h', run_heap [] os h = Ret live h' /\ buffers_ok h' live.
Proof using Type.
  intros Hf Hl Hos. destruct (run_heap_rel os Hos h [] (fresh_rel h Hf Hl)) as (live & h' & E & Hr).
  exists live, h'. split; [exact E|]. by apply rel_buffers.
Qed.

(** C34. No memory is lost and free blocks are always joined: when such a
    program has freed all its buffers, the free list, the ring in memory
    that starts at base, consists of one block, and that block is all the
    memory the kernel has given to the allocator. *)
Theorem freeing_all_restores_heap os h h' :
  fresh_heap h -> h_limit h < 2 ^ 36 -> Forall op_ok os -> run_heap [] os h = Ret [] h' -> start < h_brk h' ->
  seg (h_mem h') base [(base, 0); (start, (h_brk h' - start) / 16)] base /\ (h_brk h' - start) mod 16 = 0.
Proof using Type.
  intros Hf Hl Hos E Hlt. destruct (run_heap_rel os Hos h [] (fresh_rel h Hf Hl)) as (live & h1 & E' & F & A & Hok & HA & _).
  rewrite E in E'. injection E' as <- <-. apply Forall2_nil_inv_l in HA as ->. destruct Hok as [Hi|(Hf' & _)].
  - rewrite <- (one_free_block _ _ Hi Hlt). split; apply Hi.
  - destruct Hf' as [_ _ [Hb _]]. lia.
Qed.

(** malloc's result: 0 only when no free block is large enough and the
    kernel refuses the memory that morecore asks for, and then nothing has
    changed; otherwise the address after the header of a block of as many
    16-byte units as the request and its header need, which belonged to no
    allocated block. The blocks allocated before keep their bytes. *)
Theorem malloc_takes_free_block h F A nbytes :
  heap_ok h F A -> h_limit h < 2 ^ 36 -> 0 <= nbytes < 2 ^ 31 - 32 ->
  exists r h', malloc base nbytes h = Ret r h' /\ h_limit h' = h_limit h /\ keeps A (h_mem h) (h_mem h') /\
    (r = 0 /\ heap_inv base start h' F A /\ h_brk h' = h_brk h /\ Forall (fun b => b.2 < units_for nbytes) F /\
       h_limit h < h_brk h + 16 * Z.max (units_for nbytes) 4096 \/
     exists a F', r = a + sizeof_Header /\ heap_inv base start h' F' ((a, units_for nbytes) :: A)).
Proof using Type. exact (malloc_spec h F A nbytes). Qed.
End UHeap.

(** ** Examples *)

Definition a_heap : heap := mk_heap ∅ 0 0x4000 0x8000000.

Lemma a_heap_fresh : fresh_heap 0x1000 0x4000 a_heap.
Proof. by split. Qed.

Definition some_ops : list heap_op :=
  [OpMalloc 100; OpMalloc 20; OpStore 0 3 [1; 2; 3]; OpMalloc 4000; OpFree 1; OpMalloc 10; OpFree 0; OpFree 1; OpFree 0].

Lemma some_ops_ok : Forall op_ok some_ops.
Proof. repeat constructor; cbn; try lia. Qed.

Lemma heap_keeps_buffers_apart_witness :
  exists live h', run_heap 0x1000 [] (take 6 some_ops) a_heap = Ret live h' /\ buffers_ok 0x4000 h' live.
Proof.
  apply (heap_keeps_buffers_apart 0x1000 0x4000 (take 6 some_ops) a_heap a_heap_fresh); [reflexivity|]. apply Forall_take, some_ops_ok.
Defined.

Lemma malloc_takes_free_block_witness :
  exists r h', malloc 0x1000 100 a_heap = Ret r h'.
Proof.
  destruct (malloc_takes_free_block 0x1000 0x4000 a_heap [] [] 100) as (r & h' & E & _).
  - right. split; [apply a_heap_fresh|done].
  - reflexivity.
  - lia.
  - by exists r, h'.
Defined.

Lemma some_ops_run : match run_heap 0x1000 [] some_ops a_heap with Ret live h => (length live =? 0)%nat && (0x4000 <? h_brk h) | _ => false end = true.
Proof. vm_compute. reflexivity. Qed.

Lemma freeing_all_restores_heap_witness :
  exists h', run_heap 0x1000 [] some_ops a_heap = Ret [] h' /\
    seg (h_mem h') 0x1000 [(0x1000, 0); (0x4000, (h_brk h' - 0x4000) / 16)] 0x1000.
Proof.
  pose proof some_ops_run as Hr. destruct (run_heap 0x1000 [] some_ops a_heap) as [live h'| | | |] eqn:E; try discriminate Hr.
  apply andb_true_iff in Hr as [H1 H2]. destruct live; [|discriminate H1]. exists h'. split; [reflexivity|].
  apply (freeing_all_restores_heap 0x1000 0x4000 some_ops a_heap h' a_heap_fresh); [reflexivity|apply some_ops_ok|exact E|by apply Z.ltb_lt].
Defined.

(** A request close to 4 GB: its size in bytes does not fit the int that sbrk
    takes. malloc asks for 16 bytes and returns a block that does not exist. *)
Lemma malloc_truncates_request :
  match malloc 0x1000 4294967295 a_heap with
  | Ret r h => (r =? h_brk h) && (h_brk h =? h_brk a_heap + 16) | _ => false end = true.
Proof. vm_compute. reflexivity. Qed.
